(* ===== verification/_CoqProject ===== *)
-Q . S2P
Prelude.v
AxiTypes.v
NppReceive.v
Chop.v
WriteTracker.v
MmWriteBuffer.v
AxisWriteBuffer.v
AxisDepack.v
Flit.v
MmDepack.v
SNmu.v
AxisPacket.v
Checkpoint.v
AxiCheckpoint.v
CdcQueue.v
WriteCheckpoint.v
Rrob.v
RrobOrder.v
MsgBuffer.v
AddressMap.v
MmNmu.v
MmNmuDrain.v
MmNmuRead.v
ReqTracker.v
MmNsu.v
MmNsuRead.v
MmNsuRun.v
MmNsuDrain.v
MmNsuTyped.v
MmNsuWrite.v
MmNmuEntries.v
MmNmuExample.v
MmNsuExample.v
Router.v
Stream.v
RouterSafety.v
RouterReach.v
RouterFair.v
RouterExample.v
NetIface.v
NetIfaceRun.v
NetIfaceLive.v
SNsu.v
SNsuRun.v
SNsuPackets.v
SNsuExample.v
AxisReceive.v
AxisEndToEnd.v
AxisHandler.v
AxisContract.v
AxisSlaveIf.v
AxisMasterIf.v
AxisTransmit.v
AxisNetwork.v
AxisNode.v
NetIfaceExample.v
AxisNodeExample.v
NocNodes.v
NocNodesRun.v
CheckerRun.v
Control.v
ControlRun.v
ControlNodes.v
ControlBuild.v
NodeExample.v
HbmArbiter.v
NetLink.v
Bram.v
BramRun.v
BramExample.v
MmHandler.v
MmIfRun.v
MmBram.v
MmExample.v
MonitorCheckpoint.v
IfCheckpoint.v
HbmTile.v
HbmOrder.v
HbmTileRun.v
HbmExample.v
