(* ===== verification/Prelude.v ===== *)
(** * Naviq NoC: a verification development

    Naviq simulates the network-on-chip (NoC) of an FPGA inside gem5.  AXI endpoints
    talk to network interfaces through clock-crossing queues; a master unit (NMU)
    turns AXI traffic into packets of 16-byte flits, a network of packet switches
    carries the flits, and a slave unit (NSU) turns them back into AXI beats.  Its own
    code is under [src/src/noc]; it builds on gem5's garnet network
    ([src/src/mem/ruby/network/garnet]) and serialization ([src/src/sim]).

    The development follows the path of the data.  Each file models the code it names
    as executable definitions and proves what makes that code correct.  Paths below
    are relative to [src/src/noc] unless they start with [src/].

    ** Conventions

    This file has the error type [res] ([panic], [fatal], [assert], a C++ exception,
    undefined behaviour and exhausted fuel are different [fault]s), its bind
    [let*], machine-integer wrap-around ([u8], [u16], [u32], [u64], [s32]), bit masks,
    byte slices and the list lemmas the components share, the hint databases [noc] and
    [noc_arith] and the tactics [inv_ok], [bool_hyps], [mlia].  Members of a C++ class
    are fields of a record; a method that changes its object returns the new object; a
    callback is an argument of the operation that may call it.  Integers are [Z], with
    the width written out where the code narrows.  Ticks are [Z].

    ** AXI-Stream path

    - [AxiTypes]: the payload structs of [lib/axi/AXITypes.hh].
    - [AxisWriteBuffer]: [axisWriteBuffer] of [lib/axi/WriteStructs.cc].  Beats are
      collected and cut into packets of at most 64 kept bytes.  No byte is lost or
      moved ([popNextPacket_conserves]), a packet never crosses a TLAST or mixes
      TID/TDEST ([popNextPacket_one_packet]), and draining terminates.
    - [Flit], [NppReceive]: flits, the bounded output queues of the network interface
      ([core/network/NocNetworkInterface.cc], [flit.cc], [flitBuffer.cc]), the packet
      counter of the network, whose overflow is undefined behaviour, and the receive check [core/network/NppReceive.hh], which accepts exactly whole packets.
    - [SNmu]: [core/network/nmu_types/sNocMasterUnit.cc].  Its runs (a step relation on
      arrivals, dequeue events and the network taking flits) inject whole packets in
      order, never fault, always make progress, and what a destination rebuilds from the
      injected packets is the byte stream that entered ([nmu_stream_delivered]).
    - [AxisDepack]: [core/network/NocStreamMsg.cc] and
      [core/network/nsu_types/AxisDepacketizer.cc].  Flits become beats of the
      endpoint's width; composed with the write buffer this is the identity on bytes
      ([axis_stream_delivered]).
    - [AxisPacket]: the packet generator and checker [lib/AxisPacketUtils.cc].

    ** AXI memory-mapped path

    - [Chop]: [chopInto256BRequests] of [core/network/nmu_types/mmNocMasterUnit.cc].
      One unit of fuel per AXI beat is enough, since each round that does not panic
      takes at least one beat ([chop_aligned_total]).
    - [MmWriteBuffer], [WriteTracker]: the other two structures of
      [lib/axi/WriteStructs.cc]: W beats are staged into packets without loss, responses
      of the packets of a write are merged into one, in order per AXI ID; the tracker
      refines a queue per ID.
    - [Rrob], [RrobOrder]: [core/network/rrob.{hh,cc}].  Flits of read responses arrive
      in any order; the beats of an ID leave in the order of the reservations, each once,
      with the right bytes, and they do leave when their flits are there.
    - [AddressMap]: the address maps of [core/network/NocGarnetNetwork.cc].  On ranges
      that do not overlap, the binary search agrees with a linear scan.
    - [MsgBuffer]: [core/network/NocMessageBuffer.cc], the buffers between a unit and its
      endpoint.  An ordered one is a FIFO, and granted slots can be used.
    - [MmNmu]: [mmNocMasterUnit.cc], every request, response, drain and ready function,
      on the structures above.  Address maps, VC map and router numbers are parameters.
    - [MmNmuDrain]: the unit as a step relation with an arbitrary network.  Its drain event
      sends whole packets of complete entries, is scheduled exactly while a packet is
      under way, and sends the next flit when it fires on time and there is room.
      The write buffer enters as a contract ([BufferContract]).
    - [MmNmuEntries]: the contract for requests an AXI master presents.  The packets the
      unit sends are the 256-byte chunks of the accepted write requests in order, carry
      the bytes and strobes of the W beats in order, and are well-formed for the slave unit.
    - [MmNmuRead]: a read is sent as one flit per chunk, in order.
    - [MmDepack]: [core/network/NocMemoryMsg.cc] and
      [core/network/nsu_types/MmWriteDataDepacketizer.cc].  The data flits of a packet give
      the bytes and strobes of its buffer entry back when the address is aligned to the
      endpoint's width, and lose bytes on wide endpoints when it is not.
    - [MmNmuExample]: computed runs, among them five on which the unit goes wrong: a write
      stalled behind a discarded one, a last mark on the wrong row, a row reserved beyond
      the capacity, an overfull response buffer, and read beats an ordered buffer refuses.
    - [ReqTracker]: [RequestTracker] of [core/network/nsu_types/mmNocSlaveUnit.hh], which
      refines one list of the outstanding requests in order of arrival.
    - [MmNsu]: [mmNocSlaveUnit.cc], every request, response, drain and ready function.
      Messages of read responses are shared by their flits and filled while flits are
      under way, so the model keeps them in a store and flits refer to locations.
    - [MmNsuRead], [MmNsuRun]: the unit as runs of its operations with a history of the
      requests accepted, the bytes received and the flits sent.  Read responses are whole,
      carry the endpoint's bytes and the tags of their requests, answer the requests of an
      ID in order, and nothing on their path faults, provided the endpoint sends the beats
      the requests ask for ([beat_fits]) and requests have at most 256 bytes, an ID below
      four and a route back ([req_good]).
    - [MmNsuDrain]: the gap rules never postpone a flit forever; 32 events drain a response,
      two for each of the at most 16 flits.
    - [MmNsuTyped]: every operation keeps every member within its C++ type.
    - [MmNsuWrite]: the flits of such a packet, given in order with retries and interleaved
      with other operations, reach the endpoint's W channel with the bytes and strobes of
      the entry, in the number of beats the adapted address request announces.
    - [MmNsuExample]: computed runs, among them five on which the unit goes wrong: a flit
      that leaves before its bytes, an ID accepted but not supported, the data of a write
      placed with the address of an older one, an extra beat for a long write, and a panic on
      a full output queue.

    ** Queues and checkpoints

    - [Checkpoint]: the sections and parameters of [src/sim/serialize.{hh,cc}] and
      [src/base/inifile.cc] the units use.  Text syntax is abstracted to typed values;
      the order of headers and values, on which restoring depends, is kept.
    - [AxiCheckpoint], [CdcQueue], [WriteCheckpoint]: [core/interface/CDCQueue.cc] and
      the [serialize]/[unserialize] methods of [WriteStructs.cc].  The queue refines a
      bounded FIFO; round trips are proved where they hold and refuted where they do not.

    ** Packet switch

    - [Router]: [core/network/switch/NocRouter.cc], [NocSwitchAllocator.cc] and
      [NocOutVcState.cc] on the input units, output units, routing unit and crossbar of
      garnet.  One definition per method; [processCurrentEvent] is a whole wakeup.
    - [Stream]: sequences of flits that are whole packets one after the other.
    - [RouterSafety]: the invariant of the router (order of flits, locks, cached routes,
      tokens, credits, LRU lists, internal pools) and that every step of a wakeup keeps it.
    - [RouterReach]: runs of a router in an arbitrary environment that sends well-formed
      packets and returns credits for flits it got.  No assertion can fail, flits are
      neither lost nor reordered, packets do not interleave, buffers downstream cannot
      overflow, no flit is slept on, and arbitration is work-conserving.
    - [RouterFair]: on pass-through switches a requester that is ready for an output at every
      arbitration loses fewer than outputs * (requesters + 1) of them in a row: the LRU list
      of the output and the rotation of the outputs bound it.
    - [RouterExample]: a computed run the theorems are applied to.

    ** Network interface and stream slave unit

    - [NetIface]: [core/network/NocNetworkInterface.{hh,cc}] around any unit (the class
      [NocUnit]).  [wakeup] takes messages from the protocol buffers, schedules output
      links, moves flits from the links into assemblers, locks one packet and gives its
      flits to the unit, and handles credits; [checkReschedule] decides when to sleep.
    - [NetIfaceRun]: runs with an arbitrary unit that only injects flits ([UnitInjects]),
      endpoint and network.  Injected flits leave in order under credits; arriving packets
      reach the unit one at a time, in order per channel, stream packets only when they are
      complete; one credit returns per flit.
    - [NetIfaceLive]: no wakeup is lost, the round robin of output ports is fair, and a
      sender that respects the receive window is never blocked.
    - [SNsu]: [core/network/nsu_types/sNocSlaveUnit.{hh,cc}], with aggregates per packet,
      hardware mode and frame reassembly.
    - [SNsuRun], [SNsuPackets]: its runs.  Reassembly hands out whole frames, keeps every
      stream in order and cannot lock up; the beats of a packet carry its bytes, source,
      TID, TDEST and TLAST, whatever packets interleave and flits are refused.
    - [AxisReceive]: the interface with this unit.  The interface offers the flits of each
      packet in order, so packets on the links become the endpoint's beats.
    - [SNsuExample], [NetIfaceExample]: computed runs; two show that address packets can
      hold up a locked packet and that a flit that is ready later delays other work.

    - [NetLink]: the links of garnet ([NetworkLink.cc]) between interfaces and routers: order,
      latency, and no entry is slept on.
    - [AxisEndToEnd], [AxisNetwork]: a stream from a master unit through any path of interfaces,
      links and routers to the slave unit it is sent to.

    ** Node interfaces

    - [AxisHandler]: [core/interface/NocInterface.cc] with [protocols/AXISHandler.cc], the
      boundary between an endpoint and its network interface: handshakes on the clock of the
      endpoint, a crossing queue, messages on the clock of the network, and the protocol checker.
    - [AxisContract]: what a sender of AXI-Stream beats promises.  [AxisSlaveIf], [AxisMasterIf]:
      beats pass an interface of either role once and in order, and the contract is kept.
    - [AxisTransmit]: master interface and master unit; the unit is never given more than its
      512 bytes.  [AxisNode]: the whole way, the bytes one endpoint hands over are those another
      endpoint is driven ([axis_node_to_node]).  [AxisNodeExample]: such a run, computed.
    - [MmHandler]: the interface with [protocols/AXIMMHandler.cc], which has five channels.  The
      unit behind it is a record of operations ([mmUnitOps]) with the two AXI-MM units as
      instances.  [MmIfRun]: on each channel payloads pass once and in order, and a payload that
      is not taken is driven again; payloads that are not valid are dropped.
    - [MonitorCheckpoint]: what the traffic monitor ([monitors/NocTrafficMonitor.cc]) adds to
      the checkpoint of a master interface.  [IfCheckpoint]: checkpoints of an interface with
      either handler and role.  A stream interface is restored; a memory-mapped one exactly
      when its queues were empty and no read that is monitored was outstanding.

    ** Endpoints and scheduler

    - [NocNodes]: the sink, FIFO, back-pressure shim and packet checker of [endpoints/].
      [NocNodesRun], [CheckerRun]: the shim forwards in order and within its bounds and blames
      the right side for a violation; the checker accepts only what it says it accepts.
    - [Bram]: [endpoints/memory/bram/BramEndpoint.cc].  [BramRun]: from the handshakes of its
      master, reads return what was written last, and every burst is answered in order.  [MmBram]: the same seen from the unit, with
      the interface in between.  [BramExample], [MmExample]: computed runs, with bursts that
      overlap, wrapping bursts and an ID beyond the table of the interface.
    - [Control]: a tick of [core/control/Control.cc], which clocks endpoints and interfaces of a
      domain.  [ControlRun]: a run of it is for each interface a run as assumed above.
      [ControlNodes]: a shim between two interfaces relays a stream.  [ControlBuild]: the
      constructor, with [assignPort] of the endpoints, and what it guarantees of the wiring;
      a FIFO accepts the same port twice, every other endpoint does not.
      [NodeExample]: computed runs, among them those on which the FIFO loses a beat.
    - [HbmArbiter]: [hbm/HBMArbiter.cc]; round-robin grants are fair and keep the bandwidths.
    - [HbmTile]: [endpoints/memory/hbm/tileNSU_HBM.cc], the endpoint in front of the HBM
      controller, with the arbiters and bank schedules that endpoints share; the controller is a
      parameter.  [HbmOrder]: responses in order per ID when answers come in any order.
      [HbmTileRun]: in runs without a fault, with well-formed requests and at most one answer to
      a packet, read data and write responses are those of the memory, whole and in order per
      ID, and each command is sent once in spite of retries.  [HbmExample]: computed runs, among
      them a W beat before its address, which is a fault, strobes that are not sent on, and one
      read more outstanding than the limit.

    ** Not modelled

    The clock objects of gem5: their effect, events at ticks, is part of the run relations.
    The memory-mapped units are verified against the output queues of the network interface and
    against their protocol buffers, not composed with the network.  The bridges between clock
    domains of garnet ([NetworkBridge.cc]).  Construction of the network from its Python
    description and topology files, and path computation; statistics, tracing, the observation
    of transfers by monitors and probes, capture files and CSV output; the functional accesses of the HBM endpoint; the
    traffic generators, the DDR and CPU endpoints and the wrappers of compiled RTL; the first
    events of the scheduler; checkpointing of the scheduler, the router, the links, the reorder
    buffer, the message buffers, the network interface and all four units; stalling of messages
    in the message buffers; the text parsing of the packet tools. *)

From stdpp Require Export base list strings gmap numbers sorting.
From Stdlib Require Export ZArith Lia.

#[export] Set Default Goal Selector "!".

Declare Scope noc_scope.
Delimit Scope noc_scope with noc.
#[global] Open Scope Z_scope.

(** ** Failing computations

    gem5 stops a simulation through [panic], [fatal], [assert] or an uncaught
    C++ exception; the code can also step outside the language's defined
    behaviour ([front()] on an empty [deque], an index out of range).  Each of
    these is a value of [fault], so that "the code does not fail" and "the code
    fails here" are both statements about results. *)
Inductive fault : Type :=
  | FPanic (msg : string)
  | FFatal (msg : string)
  | FAssert (msg : string)
  | FThrow (msg : string)
  | FUndef (msg : string)
  | FFuel.

Inductive res (A : Type) : Type :=
  | Ok (a : A)
  | Err (e : fault).
Arguments Ok {A} a.
Arguments Err {A} e.

Definition rbind {A B} (m : res A) (f : A -> res B) : res B :=
  match m with
  | Ok a => f a
  | Err e => Err e
  end.

Notation "'let*' x ':=' m 'in' k" := (rbind m (fun x => k))
  (at level 10, x pattern, m at level 100, k at level 200,
   format "'[v' 'let*'  x  ':='  m  'in' '/' k ']'") : noc_scope.
#[global] Open Scope noc_scope.

Definition rmap {A B} (f : A -> B) (m : res A) : res B :=
  rbind m (fun a => Ok (f a)).

(** [guard b e k] is [if (!b) fail(e); k]. *)
Definition guard {A} (b : bool) (e : fault) (k : res A) : res A :=
  if b then k else Err e.

Definition is_ok {A} (m : res A) : bool :=
  match m with Ok _ => true | Err _ => false end.

(** The result of a computation that succeeds. *)
Definition ok_or {A} (d : A) (m : res A) : A := match m with Ok a => a | Err _ => d end.
Lemma ok_or_eq {A} (d : A) m : is_ok m = true -> m = Ok (ok_or d m).
Proof. by destruct m. Qed.

(** [of_opt e o] reads an optional value where its absence is the fault [e]. *)
Definition of_opt {A} (e : fault) (o : option A) : res A :=
  match o with Some a => Ok a | None => Err e end.

Fixpoint foldM {A S} (f : S -> A -> res S) (s : S) (l : list A) : res S :=
  match l with
  | [] => Ok s
  | x :: l => let* s' := f s x in foldM f s' l
  end.

Fixpoint mapM {A B} (f : A -> res B) (l : list A) : res (list B) :=
  match l with
  | [] => Ok []
  | x :: l =>
      let* y := f x in
      let* ys := mapM f l in
      Ok (y :: ys)
  end.

Lemma rbind_Ok {A B} (m : res A) (f : A -> res B) b :
  rbind m f = Ok b -> exists a, m = Ok a /\ f a = Ok b.
Proof. destruct m; [eauto | discriminate]. Qed.

Lemma guard_Ok {A} b e (k : res A) a : guard b e k = Ok a -> b = true /\ k = Ok a.
Proof. destruct b; [auto | discriminate]. Qed.

Lemma of_opt_Ok {A} e (o : option A) a : of_opt e o = Ok a -> o = Some a.
Proof. destruct o; simpl; congruence. Qed.

Lemma foldM_app {A S} (f : S -> A -> res S) s l1 l2 :
  foldM f s (l1 ++ l2) = let* s' := foldM f s l1 in foldM f s' l2.
Proof.
  revert s; induction l1 as [|x l1 IH]; intros s; [done|]. simpl.
  destruct (f s x); [apply IH | done].
Qed.

(** An invariant of the body is an invariant of the loop. *)
Lemma foldM_inv {A S} (I : S -> Prop) (f : S -> A -> res S) l s s' :
  (forall s x s', x ∈ l -> I s -> f s x = Ok s' -> I s') ->
  I s -> foldM f s l = Ok s' -> I s'.
Proof.
  revert s; induction l as [|x l IH]; intros s Hf Hs H; simpl in H.
  - by injection H as <-.
  - apply rbind_Ok in H as (s1 & H1 & H2).
    eapply IH; [| |exact H2].
    + intros; eapply Hf; [by right|done|done].
    + eapply Hf; [left|exact Hs|exact H1].
Qed.

(** The same with an invariant that knows the elements already visited. *)
Lemma foldM_inv_seen {A S} (I : list A -> S -> Prop) (f : S -> A -> res S) l s s' :
  (forall seen s x rest s', l = seen ++ x :: rest -> I seen s -> f s x = Ok s' -> I (seen ++ [x]) s') ->
  I [] s -> foldM f s l = Ok s' -> I l s'.
Proof.
  intros Hf H0.
  enough (forall rest seen s, l = seen ++ rest -> I seen s -> foldM f s rest = Ok s' -> I l s') as H
    by exact (H l [] s eq_refl H0).
  clear s H0. induction rest as [|x rest IH]; intros seen s E Hs Hr; simpl in Hr.
  - injection Hr as <-. by rewrite E, app_nil_r.
  - apply rbind_Ok in Hr as (s1 & H1 & H2).
    eapply (IH (seen ++ [x])); [by rewrite <- app_assoc| |exact H2]. by eapply Hf.
Qed.

(** A body that never fails under its invariant gives a loop that never fails. *)
Lemma foldM_total {A S} (I : S -> Prop) (f : S -> A -> res S) l s :
  (forall s x, x ∈ l -> I s -> exists s', f s x = Ok s' /\ I s') ->
  I s -> exists s', foldM f s l = Ok s' /\ I s'.
Proof.
  revert s; induction l as [|x l IH]; intros s Hf Hs; simpl; [eauto|].
  destruct (Hf s x) as (s1 & H1 & I1); [left|done|].
  rewrite H1. simpl. apply IH; [|done]. intros; apply Hf; [by right|done].
Qed.

(** The same with an invariant that knows the elements already visited. *)
Lemma foldM_total_seen {A S} (I : list A -> S -> Prop) (f : S -> A -> res S) l s :
  (forall seen s x rest, l = seen ++ x :: rest -> I seen s ->
     exists s', f s x = Ok s' /\ I (seen ++ [x]) s') ->
  I [] s -> exists s', foldM f s l = Ok s' /\ I l s'.
Proof.
  intros Hf H0.
  enough (forall rest seen s, l = seen ++ rest -> I seen s ->
            exists s', foldM f s rest = Ok s' /\ I l s') as H by exact (H l [] s eq_refl H0).
  clear s H0. induction rest as [|x rest IH]; intros seen s E Hs; simpl.
  - rewrite app_nil_r in E. subst. eauto.
  - destruct (Hf _ _ _ _ E Hs) as (s1 & H1 & I1). rewrite H1. simpl.
    apply (IH (seen ++ [x])); [by rewrite <- app_assoc|done].
Qed.

(** ** Machine integers

    A [uintN_t] is a [Z] in [0, 2^N); every arithmetic result is reduced where
    the code stores it.  [int] and [int32_t] values stay far from their bounds
    in the code modelled here and are plain [Z]. *)
Definition u8 (x : Z) : Z := x mod 2^8.
Definition u16 (x : Z) : Z := x mod 2^16.
Definition u32 (x : Z) : Z := x mod 2^32.
Definition u64 (x : Z) : Z := x mod 2^64.

(** A value stored in a signed 32-bit [int]. *)
Definition s32 (x : Z) : Z := (x + 2^31) mod 2^32 - 2^31.

Definition is_u8 (x : Z) : Prop := 0 <= x < 2^8.
Definition is_u16 (x : Z) : Prop := 0 <= x < 2^16.
Definition is_u32 (x : Z) : Prop := 0 <= x < 2^32.
Definition is_u64 (x : Z) : Prop := 0 <= x < 2^64.

Lemma u8_small x : 0 <= x < 256 -> u8 x = x.
Proof. apply Z.mod_small. Qed.
Lemma u16_small x : 0 <= x < 65536 -> u16 x = x.
Proof. apply Z.mod_small. Qed.
Lemma u32_small x : 0 <= x < 4294967296 -> u32 x = x.
Proof. apply Z.mod_small. Qed.
Lemma u64_small x : 0 <= x < 18446744073709551616 -> u64 x = x.
Proof. apply Z.mod_small. Qed.
Lemma s32_small x : - 2^31 <= x < 2^31 -> s32 x = x.
Proof. intros. unfold s32. rewrite Z.mod_small; lia. Qed.
Lemma u8_range x : 0 <= u8 x < 256.
Proof. by apply Z.mod_pos_bound. Qed.
Lemma u16_range x : 0 <= u16 x < 65536.
Proof. by apply Z.mod_pos_bound. Qed.
Lemma u32_range x : 0 <= u32 x < 4294967296.
Proof. by apply Z.mod_pos_bound. Qed.
Lemma u64_range x : 0 <= u64 x < 18446744073709551616.
Proof. by apply Z.mod_pos_bound. Qed.

Create HintDb noc discriminated.
#[export] Hint Resolve u8_range u16_range u32_range u64_range : noc.
Create Rewrite HintDb noc_arith.
#[export] Hint Rewrite u8_small u16_small u32_small u64_small using lia : noc_arith.

(** [int] from [nat] indices. *)
Abbreviation zn := Z.to_nat.
Abbreviation nz := Z.of_nat.

(** The mask [(1ULL << n) - 1] with the code's own full-width case. *)
Definition mask64 (n : Z) : Z :=
  if 64 <=? n then 2^64 - 1 else Z.shiftl 1 n - 1.

Lemma mask64_ones n : 0 <= n -> mask64 n = Z.ones (Z.min n 64).
Proof.
  intros Hn. unfold mask64. destruct (Z.leb_spec 64 n).
  - by rewrite Z.min_r by lia.
  - rewrite Z.min_l by lia. rewrite Z.ones_equiv, Z.shiftl_1_l. lia.
Qed.

Lemma testbit_mask64 n i :
  0 <= n -> 0 <= i -> Z.testbit (mask64 n) i = (i <? n) && (i <? 64).
Proof.
  intros Hn Hi. rewrite mask64_ones by done.
  rewrite Z.testbit_ones_nonneg by lia.
  destruct (Z.ltb_spec i (Z.min n 64)), (Z.ltb_spec i n), (Z.ltb_spec i 64); simpl; lia.
Qed.

(** A 64-bit word has no bit at or above 64. *)
Lemma is_u64_testbit x i : is_u64 x -> 64 <= i -> Z.testbit x i = false.
Proof.
  intros [H1 H2] Hi. rewrite <- (Z.mod_small x (2^64)) by done.
  by rewrite Z.mod_pow2_bits_high by lia.
Qed.

Lemma u64_testbit x i : 0 <= i < 64 -> Z.testbit (u64 x) i = Z.testbit x i.
Proof. intros. unfold u64. by rewrite Z.mod_pow2_bits_low by lia. Qed.

Lemma u64_testbit_high x i : 64 <= i -> Z.testbit (u64 x) i = false.
Proof. intros. unfold u64. by rewrite Z.mod_pow2_bits_high by lia. Qed.

(** Two 64-bit words with the same low 64 bits are equal. *)
Lemma u64_bits_inj x y :
  is_u64 x -> is_u64 y ->
  (forall i, 0 <= i < 64 -> Z.testbit x i = Z.testbit y i) -> x = y.
Proof.
  intros Hx Hy H. apply Z.bits_inj'. intros i Hi.
  destruct (Z.lt_ge_cases i 64); [by apply H|].
  by rewrite !is_u64_testbit by done.
Qed.

Lemma is_u64_intro x : 0 <= x -> (forall i, 64 <= i -> Z.testbit x i = false) -> is_u64 x.
Proof.
  intros Hx H. split; [done|].
  destruct (Z.eq_dec x 0) as [->|Hne]; [done|].
  assert (0 < x) as Hp by lia.
  destruct (Z.lt_ge_cases (Z.log2 x) 64) as [Hl|Hl].
  - apply Z.log2_lt_pow2; lia.
  - specialize (H _ Hl). rewrite Z.bit_log2 in H by done. done.
Qed.

Lemma is_u64_of_bits x : (forall i, 64 <= i -> Z.testbit x i = false) -> is_u64 x.
Proof.
  intros H. apply is_u64_intro; [|done].
  apply Z.bits_iff_nonneg_ex. exists 63. intros i Hi. apply H. lia.
Qed.

(** ** Lists as C++ arrays *)

(** [bits w n] lists bits 0 .. n-1 of [w]. *)
Definition bits (w : Z) (n : nat) : list bool :=
  (fun i => Z.testbit w (nz i)) <$> seq 0 n.

(** Population count of the low [n] bits. *)
Definition popcount (w : Z) (n : nat) : Z := nz (length (filter Is_true (bits w n))).

Lemma length_bits w n : length (bits w n) = n.
Proof. unfold bits. by rewrite length_fmap, length_seq. Qed.

Lemma lookup_bits w n i : (i < n)%nat -> bits w n !! i = Some (Z.testbit w (nz i)).
Proof. intros. unfold bits. rewrite list_lookup_fmap, lookup_seq_lt by done. done. Qed.

Lemma bits_S w n : bits w (S n) = bits w n ++ [Z.testbit w (nz n)].
Proof. unfold bits. rewrite seq_S, fmap_app. done. Qed.

Lemma popcount_S w n :
  popcount w (S n) = popcount w n + (if Z.testbit w (nz n) then 1 else 0).
Proof.
  unfold popcount. rewrite bits_S, filter_app, length_app.
  destruct (Z.testbit w (nz n)); simpl; lia.
Qed.

Lemma popcount_range w n : 0 <= popcount w n <= nz n.
Proof.
  induction n as [|n IH]; [done|]. rewrite popcount_S.
  destruct (Z.testbit _ _); lia.
Qed.

Lemma popcount_ext w w' n :
  (forall i, 0 <= i < nz n -> Z.testbit w i = Z.testbit w' i) -> popcount w n = popcount w' n.
Proof.
  intros H. induction n as [|n IH]; [done|]. rewrite !popcount_S, IH.
  - rewrite H by lia. done.
  - intros; apply H; lia.
Qed.

(** [slice l off n] is the byte range [off, off+n) of [l]. *)
Definition slice {A} (l : list A) (off n : nat) : list A := take n (drop off l).

(** [std::copy] of [src] into [dst] at [off]. *)
Definition copy_into {A} (dst : list A) (off : nat) (src : list A) : list A :=
  list_inserts off src dst.

Definition zeros (n : nat) : list Z := replicate n 0.

Definition sumZ (l : list Z) : Z := foldr Z.add 0 l.

Lemma sumZ_cons x l : sumZ (x :: l) = x + sumZ l.
Proof. done. Qed.

Lemma sumZ_app l1 l2 : sumZ (l1 ++ l2) = sumZ l1 + sumZ l2.
Proof. induction l1; simpl; lia. Qed.

Lemma sumZ_nonneg l : Forall (fun x => 0 <= x) l -> 0 <= sumZ l.
Proof. induction 1; simpl; lia. Qed.

Lemma length_slice {A} (l : list A) off n :
  (off + n <= length l)%nat -> length (slice l off n) = n.
Proof. intros. unfold slice. rewrite length_take, length_drop. lia. Qed.

Lemma lookup_slice {A} (l : list A) off n i :
  (i < n)%nat -> slice l off n !! i = l !! (off + i)%nat.
Proof. intros. unfold slice. rewrite lookup_take_lt by done. apply lookup_drop. Qed.

Lemma length_copy_into {A} (dst : list A) off src : length (copy_into dst off src) = length dst.
Proof. apply length_inserts. Qed.

Lemma lookup_copy_into_in {A} (dst : list A) off src i :
  (off <= i < off + length src)%nat -> (i < length dst)%nat ->
  copy_into dst off src !! i = src !! (i - off)%nat.
Proof. intros. apply list_lookup_inserts; lia. Qed.

Lemma lookup_copy_into_out {A} (dst : list A) off src i :
  (i < off \/ off + length src <= i)%nat -> copy_into dst off src !! i = dst !! i.
Proof.
  intros [|]; [apply list_lookup_inserts_lt | apply list_lookup_inserts_ge]; lia.
Qed.

(** Reading a byte array at an index outside it is undefined; the models that
    index with a proved-in-range position use [0] there. *)
Definition byte_at (l : list Z) (i : nat) : Z := nth i l 0.

Lemma byte_at_lookup l i b : l !! i = Some b -> byte_at l i = b.
Proof. intros. unfold byte_at. by apply nth_lookup_Some. Qed.

(** A positive multiple is at least the number it is a multiple of. *)
Lemma multiple_ge x d : 0 < d -> 0 < x -> x mod d = 0 -> d <= x.
Proof. intros Hd Hx H. destruct (Z.lt_ge_cases x d); [|done]. rewrite Z.mod_small in H; lia. Qed.

(** ** Tactics *)

(** [mlia] is [lia] with division and remainder turned into equations. *)
Ltac mlia := Z.div_mod_to_equations; lia.

(** Split a successful computation into the results of its steps. *)
Ltac inv_ok :=
  repeat match goal with
  | H : rbind _ _ = Ok _ |- _ =>
      let a := fresh "a" in let Ha := fresh "Ha" in
      apply rbind_Ok in H as (a & Ha & H)
  | H : guard _ _ _ = Ok _ |- _ =>
      let Hg := fresh "Hg" in apply guard_Ok in H as [Hg H]
  | H : of_opt _ _ = Ok _ |- _ => apply of_opt_Ok in H
  | H : Ok _ = Ok _ |- _ => injection H as H; try subst
  | H : Err _ = Ok _ |- _ => discriminate H
  end.

(** Turn boolean comparisons in hypotheses into propositions. *)
Ltac bool_hyps :=
  repeat match goal with
  | H : (_ && _) = true |- _ => apply andb_true_iff in H as [? ?]
  | H : (_ || _) = false |- _ => apply orb_false_iff in H as [? ?]
  | H : negb _ = true |- _ => apply negb_true_iff in H
  | H : negb _ = false |- _ => apply negb_false_iff in H
  | H : (_ <? _) = true |- _ => apply Z.ltb_lt in H
  | H : (_ <? _) = false |- _ => apply Z.ltb_ge in H
  | H : (_ <=? _) = true |- _ => apply Z.leb_le in H
  | H : (_ <=? _) = false |- _ => apply Z.leb_gt in H
  | H : (_ =? _) = true |- _ => apply Z.eqb_eq in H
  | H : (_ =? _) = false |- _ => apply Z.eqb_neq in H
  end.

Lemma sorted_snoc (l : list Z) x :
  StronglySorted Z.lt l -> Forall (fun y => y < x) l -> StronglySorted Z.lt (l ++ [x]).
Proof.
  induction 1 as [|y l Hl IH Hy]; intros Hx; simpl; [by repeat constructor|].
  apply Forall_cons in Hx as [Hyx Hx]. constructor; [by apply IH|].
  apply Forall_app. by split; [|constructor].
Qed.

(** ** Filters and keys *)

Section Filters.
Context {A : Type}.
Implicit Types (l : list A).

Lemma elem_snoc (a b : A) l : a ∈ l ++ [b] <-> a ∈ l \/ a = b.
Proof. by rewrite elem_of_app, list_elem_of_singleton. Qed.

Lemma filter_none (P : A -> Prop) `{!forall a, Decision (P a)} l :
  (forall a, a ∈ l -> ~ P a) -> filter P l = [].
Proof.
  intros HP. induction l as [|a l IH]; [done|].
  rewrite filter_cons_False; [apply IH; intros; apply HP; by right|apply HP; by left].
Qed.

Lemma filter_all (P : A -> Prop) `{!forall a, Decision (P a)} l :
  (forall a, a ∈ l -> P a) -> filter P l = l.
Proof.
  intros HP. induction l as [|a l IH]; [done|].
  rewrite filter_cons_True, IH; [done|intros; apply HP; by right|apply HP; by left].
Qed.

Lemma filter_ext_in (P Q : A -> Prop) `{!forall a, Decision (P a), !forall a, Decision (Q a)} l :
  (forall a, a ∈ l -> P a <-> Q a) -> filter P l = filter Q l.
Proof.
  intros HP. induction l as [|a l IH]; [done|]. rewrite !filter_cons.
  rewrite IH by (intros; apply HP; by right).
  assert (P a <-> Q a) by (apply HP; left). by repeat case_decide; try tauto.
Qed.

Lemma NoDup_key {B} (k : A -> B) l a b : NoDup (k <$> l) -> a ∈ l -> b ∈ l -> k a = k b -> a = b.
Proof.
  intros Hn [i Hi]%list_elem_of_lookup [j Hj]%list_elem_of_lookup E.
  assert (i = j); [|congruence]. apply (NoDup_lookup _ _ _ (k a) Hn); rewrite list_lookup_fmap.
  - by rewrite Hi.
  - by rewrite Hj, E.
Qed.

(** A key that occurs once picks out one element. *)
Lemma filter_unique {B} (k : A -> B) (P : A -> Prop) `{!forall a, Decision (P a)} l e :
  NoDup (k <$> l) -> e ∈ l -> (forall a, a ∈ l -> P a -> k a = k e) ->
  filter P l = if decide (P e) then [e] else [].
Proof.
  intros Hn He HP. apply list_elem_of_split in He as (l1 & l2 & ->).
  rewrite fmap_app, fmap_cons in Hn. apply NoDup_app in Hn as (_ & Hd & [Hnotin _]%NoDup_cons).
  assert (forall l', (forall a, a ∈ l' -> a ∈ l1 ++ e :: l2 /\ k a <> k e) -> filter P l' = []) as Hnil.
  { intros l' Hl'. apply filter_none. intros a Hin Ha. destruct (Hl' a Hin) as [? []].
    by apply HP. }
  rewrite filter_app, filter_cons, (Hnil l1), (Hnil l2).
  - by destruct (decide (P e)).
  - intros a Ha. split; [apply elem_of_app; right; by right|]. intros E. apply Hnotin. rewrite <- E.
    by apply list_elem_of_fmap_2.
  - intros a Ha. split; [apply elem_of_app; by left|]. intros E. apply (Hd (k e)).
    + rewrite <- E. by apply list_elem_of_fmap_2.
    + by left.
Qed.

End Filters.

(** ** Maps of queues *)

(** Number of elements over all the queues of a map. *)
Definition total_length {A} (m : gmap Z (list A)) : Z :=
  map_fold (fun _ q acc => nz (length q) + acc) 0 m.

Section TotalLength.
Context {A : Type}.
Implicit Types (m : gmap Z (list A)) (q : list A).

Lemma total_length_insert m i q :
  m !! i = None -> total_length (<[i := q]> m) = nz (length q) + total_length m.
Proof. intros. unfold total_length. rewrite map_fold_insert_L; [done|lia|done]. Qed.

Lemma total_length_delete m i q :
  m !! i = Some q -> total_length m = nz (length q) + total_length (delete i m).
Proof. intros. unfold total_length. rewrite (map_fold_delete_L _ _ i q); [done|lia|done]. Qed.

Lemma total_length_set m i q' :
  total_length (<[i := q']> m)
  = total_length m - nz (length (default [] (m !! i))) + nz (length q').
Proof.
  destruct (m !! i) as [q|] eqn:H; simpl.
  - rewrite <- insert_delete_eq, total_length_insert by apply lookup_delete_eq.
    rewrite (total_length_delete m i q H). lia.
  - rewrite total_length_insert by done. lia.
Qed.

Lemma total_length_nonneg m : 0 <= total_length m.
Proof. apply (map_fold_weak_ind (fun r _ => 0 <= r)); [done|]. intros; lia. Qed.

Lemma total_length_le m i q : m !! i = Some q -> nz (length q) <= total_length m.
Proof.
  intros H. rewrite (total_length_delete _ _ _ H).
  pose proof (total_length_nonneg (delete i m)). lia.
Qed.

End TotalLength.
