(* ===== verification/AxiTypes.v ===== *)
(** * AXI data types

    The payload structs of [src/src/noc/lib/axi/AXITypes.hh]: AXI-Stream beats
    ([axisData]), the AXI-MM channel payloads ([aximmRWAddr], [aximmRWData],
    [aximmWResp]), the channel-state classes a CDC queue carries ([State] and its
    four subclasses) and the AXIS packet payload ([axisPayload]).

    Record fields carry a prefix where two structs use the same member name
    ([ra_id] is [aximmRWAddr::id], [rd_id] is [aximmRWData::id]). *)

From S2P Require Import Prelude.

Inductive AxiMsgSizeType := MS_AR | MS_AW | MS_R | MS_W | MS_B | MS_DEFAULT.

Inductive AximmCommand := READ | WRITE | NONE.
Inductive BurstType := FIXED | INCR | WRAP.
Inductive AximmResp := OKAY | EXOKAY | SLVERR | DECERR.

#[export] Instance AxiMsgSizeType_eq_dec : EqDecision AxiMsgSizeType.
Proof. solve_decision. Defined.
#[export] Instance AximmCommand_eq_dec : EqDecision AximmCommand.
Proof. solve_decision. Defined.
#[export] Instance BurstType_eq_dec : EqDecision BurstType.
Proof. solve_decision. Defined.
#[export] Instance AximmResp_eq_dec : EqDecision AximmResp.
Proof. solve_decision. Defined.

(** ** AXI-Stream *)

Record axisData := mk_axisData {
  DATA_WIDTH : Z;
  DATA_WIDTH_BITS : Z;
  DST_ID_WIDTH : Z;
  ID_WIDTH : Z;
  tdata : list Z;
  tid : Z;
  tdest : Z;
  tkeep : Z;
  tuser : Z;
  tlast : bool;
  tvalid : bool
}.

Definition TKEEP_ALL : Z := 0xFFFFFFFFFFFFFFFF.

(** [std::vector::resize(n, 0)]. *)
Definition vresize (n : nat) (l : list Z) : list Z := resize n 0 l.

(** [axisData(data_width, id_width, dest_width)] *)
Definition axisData_of_width (data_width id_width dest_width : Z) : axisData :=
  {| DATA_WIDTH := data_width; DATA_WIDTH_BITS := Z.log2 data_width;
     DST_ID_WIDTH := dest_width; ID_WIDTH := id_width;
     tdata := vresize (zn (data_width / 8)) [];
     tid := 0; tdest := 0; tkeep := TKEEP_ALL; tuser := 0;
     tlast := false; tvalid := false |}.

(** [axisData(data, data_width, id_width, dest_width, tid, tdest, last, valid)] *)
Definition axisData_of_bytes (data : list Z) (data_width id_width dest_width tid tdest : Z)
    (last valid : bool) : axisData :=
  {| DATA_WIDTH := data_width; DATA_WIDTH_BITS := Z.log2 data_width;
     DST_ID_WIDTH := dest_width; ID_WIDTH := id_width;
     tdata := vresize (zn (data_width / 8)) data;
     tid := tid; tdest := tdest; tkeep := TKEEP_ALL; tuser := 0;
     tlast := last; tvalid := valid |}.

(** [axisData::getTotalByteSize]: the population count of TKEEP over the bus
    width.  [1ULL << i] is only defined for [i < 64], i.e. for the widths up to
    512 bits the struct is documented for. *)
Definition axis_getTotalByteSize (d : axisData) : Z :=
  let mask := if 64 <=? DATA_WIDTH d then TKEEP_ALL
              else Z.shiftl 1 (DATA_WIDTH d / 8) - 1 in
  let effective_tkeep := Z.land (tkeep d) mask in
  u16 (popcount effective_tkeep (zn (DATA_WIDTH d / 8))).

(** Member assignments used by the code. *)
Definition set_tkeep (v : Z) (d : axisData) : axisData :=
  {| DATA_WIDTH := DATA_WIDTH d; DATA_WIDTH_BITS := DATA_WIDTH_BITS d;
     DST_ID_WIDTH := DST_ID_WIDTH d; ID_WIDTH := ID_WIDTH d; tdata := tdata d;
     tid := tid d; tdest := tdest d; tkeep := v; tuser := tuser d;
     tlast := tlast d; tvalid := tvalid d |}.
Definition set_tlast (v : bool) (d : axisData) : axisData :=
  {| DATA_WIDTH := DATA_WIDTH d; DATA_WIDTH_BITS := DATA_WIDTH_BITS d;
     DST_ID_WIDTH := DST_ID_WIDTH d; ID_WIDTH := ID_WIDTH d; tdata := tdata d;
     tid := tid d; tdest := tdest d; tkeep := tkeep d; tuser := tuser d;
     tlast := v; tvalid := tvalid d |}.
Definition set_sideband (i dst usr : Z) (d : axisData) : axisData :=
  {| DATA_WIDTH := DATA_WIDTH d; DATA_WIDTH_BITS := DATA_WIDTH_BITS d;
     DST_ID_WIDTH := DST_ID_WIDTH d; ID_WIDTH := ID_WIDTH d; tdata := tdata d;
     tid := i; tdest := dst; tkeep := tkeep d; tuser := usr;
     tlast := tlast d; tvalid := tvalid d |}.

Record axisPayload := mk_axisPayload {
  ap_numBeats : Z;
  ap_beats : list axisData;
  ap_debugIds : list Z;
  ap_totalBytes : Z;
  ap_tid : Z;
  ap_last : Z
}.

Definition NPP_MAX_SIZE : Z := 64.

Definition axisPayload_empty : axisPayload :=
  {| ap_numBeats := 0; ap_beats := []; ap_debugIds := []; ap_totalBytes := 0;
     ap_tid := -1; ap_last := 0 |}.

(** [axisPayload::add] *)
Definition axisPayload_add (p : axisPayload) (incomingBeat : axisData) (dbgId : Z)
    : axisPayload :=
  {| ap_numBeats := ap_numBeats p + 1;
     ap_beats := ap_beats p ++ [incomingBeat];
     ap_debugIds := ap_debugIds p ++ [dbgId];
     ap_totalBytes := ap_totalBytes p + axis_getTotalByteSize incomingBeat;
     ap_tid := ap_tid p;
     ap_last := ap_last p |}.

Definition set_ap_last (v : Z) (p : axisPayload) : axisPayload :=
  {| ap_numBeats := ap_numBeats p; ap_beats := ap_beats p; ap_debugIds := ap_debugIds p;
     ap_totalBytes := ap_totalBytes p; ap_tid := ap_tid p; ap_last := v |}.

(** ** AXI-MM *)

Record aximmRWAddr := mk_aximmRWAddr {
  ra_cmd : AximmCommand;
  ra_id : Z;
  ra_addr : Z;
  ra_len : Z;          (* burst length - 1 *)
  ra_size : Z;         (* log2 (bytes per beat) *)
  ra_burst : BurstType;
  ra_lock : bool;
  ra_cache : Z;
  ra_prot : Z;
  ra_qos : Z;
  ra_region : Z;
  ra_user : Z;
  ra_valid : bool;
  ra_sourceNiDebug : Z;
  ra_originalReadBytesDebug : Z;
  ra_debugId : Z;
  ra_finalReadChunkDebug : bool
}.

Definition aximmRWAddr_default : aximmRWAddr :=
  {| ra_cmd := NONE; ra_id := 0; ra_addr := 0; ra_len := 0; ra_size := 0;
     ra_burst := INCR; ra_lock := false; ra_cache := 0; ra_prot := 0; ra_qos := 0;
     ra_region := 0; ra_user := 0; ra_valid := false; ra_sourceNiDebug := -1;
     ra_originalReadBytesDebug := 0; ra_debugId := -1; ra_finalReadChunkDebug := false |}.

(** [aximmRWAddr::getTotalByteSize], [aximmRWAddr::getBeatByteSize] *)
Definition getTotalByteSize (a : aximmRWAddr) : Z :=
  u16 ((ra_len a + 1) * Z.shiftl 1 (ra_size a)).
Definition getBeatByteSize (a : aximmRWAddr) : Z :=
  u16 (Z.shiftl 1 (ra_size a)).

(** The address fields a request is chopped by. *)
Definition set_ra_chunk (addr len size : Z) (a : aximmRWAddr) : aximmRWAddr :=
  {| ra_cmd := ra_cmd a; ra_id := ra_id a; ra_addr := addr; ra_len := len;
     ra_size := size; ra_burst := ra_burst a; ra_lock := ra_lock a;
     ra_cache := ra_cache a; ra_prot := ra_prot a; ra_qos := ra_qos a;
     ra_region := ra_region a; ra_user := ra_user a; ra_valid := ra_valid a;
     ra_sourceNiDebug := ra_sourceNiDebug a;
     ra_originalReadBytesDebug := ra_originalReadBytesDebug a;
     ra_debugId := ra_debugId a; ra_finalReadChunkDebug := ra_finalReadChunkDebug a |}.

Record aximmRWData := mk_aximmRWData {
  rd_cmd : AximmCommand;
  rd_id : Z;
  rd_resp : AximmResp;
  rd_last : bool;
  rd_user : Z;
  rd_valid : bool;
  rd_ready : bool;
  rd_data : list Z;    (* 64 bytes *)
  rd_wstrb : Z
}.

(** [aximmRWData(cmd, id, last, data, wstrb)] *)
Definition aximmRWData_of (cmd : AximmCommand) (i : Z) (last : bool) (data : list Z)
    (wstrb : Z) : aximmRWData :=
  {| rd_cmd := cmd; rd_id := i; rd_resp := OKAY; rd_last := last; rd_user := 0;
     rd_valid := true; rd_ready := false; rd_data := data; rd_wstrb := wstrb |}.

Definition aximmRWData_default : aximmRWData :=
  {| rd_cmd := NONE; rd_id := 0; rd_resp := OKAY; rd_last := false; rd_user := 0;
     rd_valid := false; rd_ready := false; rd_data := zeros 64; rd_wstrb := TKEEP_ALL |}.

Record aximmWResp := mk_aximmWResp {
  wr_id : Z;
  wr_resp : AximmResp;
  wr_user : Z;
  wr_valid : bool
}.

Definition aximmWResp_default : aximmWResp :=
  {| wr_id := 0; wr_resp := OKAY; wr_user := 0; wr_valid := true |}.

(** The subclasses of [State]; [debugId] is the base-class member. *)
Record axisMasterState := mk_axisMasterState {
  ams_data : axisData;
  ams_ni_tready : bool;
  ams_cdc_enqueue_ready : bool;
  ams_node_input_tready : bool
}.

Record aximmSlaveState := mk_aximmSlaveState {
  mss_arReady : bool;
  mss_r : aximmRWData;
  mss_awReady : bool;
  mss_wReady : bool;
  mss_b : aximmWResp
}.

Record aximmMasterState := mk_aximmMasterState {
  mms_ar : aximmRWAddr;
  mms_rReady : bool;
  mms_aw : aximmRWAddr;
  mms_w : aximmRWData;
  mms_bReady : bool;
  mms_cdc_enqueue_ready : bool
}.

Inductive StateBody :=
  | SAxisSlave (tready : bool)
  | SAxisMaster (s : axisMasterState)
  | SAximmSlave (s : aximmSlaveState)
  | SAximmMaster (s : aximmMasterState).

Record State := mk_State { st_debugId : Z; st_body : StateBody }.

(** ** Facts shared by the components *)

(** The kept bytes of a beat, in order: what AXI-Stream transfers. *)
Definition kept_bytes (d : axisData) : list Z :=
  (fun i => byte_at (tdata d) i)
    <$> filter (fun i : nat => Is_true (Z.testbit (tkeep d) (nz i)))
          (seq 0 (zn (DATA_WIDTH d / 8))).

(** A beat of a documented width whose TDATA has the width's size. *)
Definition axis_wf (d : axisData) : Prop :=
  0 <= DATA_WIDTH d <= 512 /\ length (tdata d) = zn (DATA_WIDTH d / 8) /\ is_u64 (tkeep d).

Lemma popcount_seq w n :
  popcount w n = nz (length (filter (fun i : nat => Is_true (Z.testbit w (nz i))) (seq 0 n))).
Proof.
  induction n as [|n IH]; [done|].
  rewrite popcount_S, seq_S, filter_app, length_app, IH. simpl.
  destruct (Z.testbit w (nz n)) eqn:E.
  - rewrite filter_cons_True by (rewrite E; done). simpl. lia.
  - rewrite filter_cons_False by (rewrite E; tauto). simpl. lia.
Qed.

(** TKEEP's population count is the number of bytes the beat transfers. *)
Lemma axis_getTotalByteSize_kept d :
  0 <= DATA_WIDTH d <= 512 ->
  axis_getTotalByteSize d = nz (length (kept_bytes d)).
Proof.
  intros Hw. unfold axis_getTotalByteSize, kept_bytes.
  rewrite length_fmap, <- popcount_seq.
  set (n := zn (DATA_WIDTH d / 8)).
  assert (Hn : nz n <= 64) by (unfold n; mlia).
  rewrite (popcount_ext _ (tkeep d)).
  - apply u16_small. pose proof (popcount_range (tkeep d) n). lia.
  - intros i Hi. rewrite Z.land_spec.
    assert (Z.testbit (if 64 <=? DATA_WIDTH d then TKEEP_ALL
                       else Z.shiftl 1 (DATA_WIDTH d / 8) - 1) i = true) as ->.
    { destruct (Z.leb_spec 64 (DATA_WIDTH d)).
      - change TKEEP_ALL with (Z.ones 64). apply Z.ones_spec_low. lia.
      - rewrite Z.shiftl_1_l.
        replace (2 ^ (DATA_WIDTH d / 8) - 1) with (Z.ones (DATA_WIDTH d / 8))
          by (rewrite Z.ones_equiv; lia).
        apply Z.ones_spec_low. unfold n in Hi. lia. }
    by rewrite andb_true_r.
Qed.

Lemma axis_getTotalByteSize_range d :
  0 <= DATA_WIDTH d <= 512 -> 0 <= axis_getTotalByteSize d <= 64.
Proof.
  intros Hw. rewrite axis_getTotalByteSize_kept by done.
  unfold kept_bytes. rewrite length_fmap, <- popcount_seq.
  pose proof (popcount_range (tkeep d) (zn (DATA_WIDTH d / 8))). mlia.
Qed.
