(* ===== verification/NppReceive.v ===== *)
(** * Receive-side packet check

    [src/src/noc/core/network/NppReceive.hh]: [checkNppReceivePrefix] decides
    whether the flits at the front of a receive VC form a whole NoC packet, the
    start of one, or something malformed.  The theorems characterise each of the
    four verdicts by a declarative description of the queue. *)

From S2P Require Import Prelude.

Record NppReceiveFlit := mk_NppReceiveFlit {
  nf_packetId : Z;
  nf_source : Z;
  nf_vc : Z;
  nf_index : Z;
  nf_count : Z;
  nf_head : bool;
  nf_tail : bool
}.

Inductive NppReceiveStatus := Incomplete | Complete | Invalid | InsufficientWindow.

Record NppReceiveCheck := mk_NppReceiveCheck {
  nc_status : NppReceiveStatus;
  nc_reason : string
}.

(** The body of the scan at position [index]: the verdict that stops it, if any. *)
Definition checkNppFlit (first flit : NppReceiveFlit) (index : Z) : option NppReceiveCheck :=
  if negb (nf_packetId flit =? nf_packetId first) ||
     negb (nf_source flit =? nf_source first) || negb (nf_vc flit =? nf_vc first)
  then Some (mk_NppReceiveCheck Invalid "packet/source/VC changed before tail")
  else if negb (nf_index flit =? index) || negb (nf_count flit =? nf_count first)
  then Some (mk_NppReceiveCheck Invalid "noncontiguous flit index or inconsistent length")
  else if negb (eqb (nf_head flit) (index =? 0)) ||
          negb (eqb (nf_tail flit) (index + 1 =? nf_count first))
  then Some (mk_NppReceiveCheck Invalid "head/tail does not match packet boundary")
  else None.

(** The [for] loop over the available flits. *)
Fixpoint checkNppScan (first : NppReceiveFlit) (flits : list NppReceiveFlit) (index : Z)
    : option NppReceiveCheck :=
  match flits with
  | [] => None
  | flit :: rest =>
      match checkNppFlit first flit index with
      | Some v => Some v
      | None => checkNppScan first rest (index + 1)
      end
  end.

(** [checkNppReceivePrefix]; the queue is already mapped through [describe]. *)
Definition checkNppReceivePrefix (queue : list NppReceiveFlit)
    (maxPacketFlits receiveWindow : Z) : NppReceiveCheck :=
  match queue with
  | [] => mk_NppReceiveCheck Incomplete "empty receive VC"
  | first :: _ =>
      if (nf_count first <? 1) || (maxPacketFlits <? nf_count first)
      then mk_NppReceiveCheck Invalid "invalid packet length"
      else if negb (nf_head first) || negb (nf_index first =? 0)
      then mk_NppReceiveCheck Invalid "packet does not start with head 0"
      else if receiveWindow <? nf_count first
      then mk_NppReceiveCheck InsufficientWindow "packet exceeds receive credit/storage window"
      else
        let available := Z.min (nz (length queue)) (nf_count first) in
        match checkNppScan first (take (zn available) queue) 0 with
        | Some v => v
        | None =>
            if available =? nf_count first
            then mk_NppReceiveCheck Complete "complete packet"
            else mk_NppReceiveCheck Incomplete "waiting for packet tail"
        end
  end.

(** ** Declarative packets *)

(** The flits of packet [pid] from [src] on [vc], [count] flits long. *)
Definition npp_flit (pid src vc count : Z) (i : nat) : NppReceiveFlit :=
  {| nf_packetId := pid; nf_source := src; nf_vc := vc; nf_index := nz i;
     nf_count := count; nf_head := (i =? 0)%nat; nf_tail := (nz i + 1 =? count) |}.

Definition npp_flits (pid src vc count : Z) (n : nat) : list NppReceiveFlit :=
  npp_flit pid src vc count <$> seq 0 n.

Lemma checkNppFlit_None first flit i :
  checkNppFlit first flit (nz i) = None <->
  flit = npp_flit (nf_packetId first) (nf_source first) (nf_vc first) (nf_count first) i.
Proof.
  unfold checkNppFlit, npp_flit. destruct flit as [p s v x c h t]; simpl.
  split.
  - intros H.
    destruct (Z.eqb_spec p (nf_packetId first)) as [->|]; [simpl in H|done].
    destruct (Z.eqb_spec s (nf_source first)) as [->|]; [simpl in H|done].
    destruct (Z.eqb_spec v (nf_vc first)) as [->|]; [simpl in H|done].
    destruct (Z.eqb_spec x (nz i)) as [->|]; [simpl in H|done].
    destruct (Z.eqb_spec c (nf_count first)) as [->|]; [simpl in H|done].
    destruct (eqb h (nz i =? 0)) eqn:Eh; [simpl in H|done].
    destruct (eqb t (nz i + 1 =? nf_count first)) eqn:Et; [simpl in H|done].
    apply eqb_prop in Eh, Et. subst. f_equal.
    destruct i; [done|]. by rewrite (proj2 (Z.eqb_neq _ _)) by lia.
  - intros [= -> -> -> -> -> -> ->]. rewrite !Z.eqb_refl. simpl.
    replace (nz i =? 0) with (i =? 0)%nat; [by rewrite !eqb_reflx|].
    destruct i; [done|]. by rewrite (proj2 (Z.eqb_neq _ _)) by lia.
Qed.

Lemma checkNppScan_None first l i :
  checkNppScan first l (nz i) = None <->
  l = npp_flit (nf_packetId first) (nf_source first) (nf_vc first) (nf_count first)
        <$> seq i (length l).
Proof.
  revert i; induction l as [|f l IH]; intros i; [done|].
  cbn [checkNppScan length seq]. rewrite fmap_cons. replace (nz i + 1) with (nz (S i)) by lia.
  destruct (checkNppFlit first f (nz i)) eqn:E.
  - split; [done|]. intros [= Hf _]. apply checkNppFlit_None in Hf. congruence.
  - apply checkNppFlit_None in E as ->. rewrite IH.
    split; intros H; [by rewrite <- H | by injection H].
Qed.

Lemma checkNppScan_Some first l i v :
  checkNppScan first l i = Some v -> nc_status v = Invalid.
Proof.
  revert i; induction l as [|f l IH]; intros i; simpl; [done|].
  unfold checkNppFlit. repeat case_match; intros; simplify_eq/=; eauto.
Qed.

(** The preconditions the code tests before it scans. *)
Definition npp_header_ok (first : NppReceiveFlit) (maxPacketFlits receiveWindow : Z) : Prop :=
  1 <= nf_count first <= maxPacketFlits /\ nf_head first = true /\ nf_index first = 0 /\
  nf_count first <= receiveWindow.

Lemma checkNppReceivePrefix_header first q m w :
  npp_header_ok first m w ->
  checkNppReceivePrefix (first :: q) m w =
    let available := Z.min (nz (length (first :: q))) (nf_count first) in
    match checkNppScan first (take (zn available) (first :: q)) 0 with
    | Some v => v
    | None =>
        if available =? nf_count first
        then mk_NppReceiveCheck Complete "complete packet"
        else mk_NppReceiveCheck Incomplete "waiting for packet tail"
    end.
Proof.
  intros (H1 & H2 & H3 & H4). unfold checkNppReceivePrefix.
  rewrite (proj2 (Z.ltb_ge _ _)), (proj2 (Z.ltb_ge _ _)) by lia. simpl.
  rewrite H2, H3. simpl. by rewrite (proj2 (Z.ltb_ge _ _)) by lia.
Qed.

(** A verdict other than [Invalid]/[InsufficientWindow] on a non-empty queue
    means that the header tests passed and the scan found only flits of the
    packet. *)
Lemma checkNppReceivePrefix_accepts first q m w s :
  nc_status (checkNppReceivePrefix (first :: q) m w) = s ->
  s = Complete \/ s = Incomplete ->
  npp_header_ok first m w /\
  let available := Z.min (nz (length (first :: q))) (nf_count first) in
  take (zn available) (first :: q)
    = npp_flits (nf_packetId first) (nf_source first) (nf_vc first) (nf_count first)
        (zn available) /\
  (s = Complete <-> available = nf_count first).
Proof.
  unfold checkNppReceivePrefix. intros Hs Hc.
  destruct ((nf_count first <? 1) || (m <? nf_count first)) eqn:E1;
    [simpl in Hs; destruct Hc; congruence|].
  destruct (negb (nf_head first) || negb (nf_index first =? 0)) eqn:E2;
    [simpl in Hs; destruct Hc; congruence|].
  destruct (w <? nf_count first) eqn:E3; [simpl in Hs; destruct Hc; congruence|].
  bool_hyps. split; [unfold npp_header_ok; repeat split; lia || done|].
  set (available := Z.min _ _) in *.
  assert (Hav : 0 <= available <= nz (length (first :: q))) by (unfold available; simpl; lia).
  destruct (checkNppScan first (take (zn available) (first :: q)) 0) eqn:Escan.
  { apply checkNppScan_Some in Escan. destruct Hc; congruence. }
  apply (checkNppScan_None first _ 0) in Escan. rewrite length_take in Escan.
  rewrite Nat.min_l in Escan by lia. split; [done|].
  destruct (Z.eqb_spec available (nf_count first)); simpl in Hs; subst s; split; congruence.
Qed.

Lemma length_npp_flits pid src vc count n : length (npp_flits pid src vc count n) = n.
Proof. unfold npp_flits. by rewrite length_fmap, length_seq. Qed.

(** The verdict on a queue that starts with the first [n] flits of a packet. *)
Lemma checkNppReceivePrefix_flits pid src vc count n rest m w :
  1 <= count <= m -> count <= w -> (1 <= n <= zn count)%nat ->
  rest = [] \/ n = zn count ->
  nc_status (checkNppReceivePrefix (npp_flits pid src vc count n ++ rest) m w) =
    if nz n =? count then Complete else Incomplete.
Proof.
  intros Hc Hw Hn Hrest. set (first := npp_flit pid src vc count 0).
  assert (exists q, npp_flits pid src vc count n ++ rest = first :: q) as [q Hq].
  { destruct n as [|n]; [lia|]. by eexists. }
  rewrite Hq, checkNppReceivePrefix_header by (unfold npp_header_ok; simpl; lia).
  rewrite <- Hq. cbn zeta. rewrite length_app, length_npp_flits. simpl nf_count.
  assert (Z.min (nz (n + length rest)) count = nz n) as ->.
  { destruct Hrest as [->| ->]; simpl; lia. }
  rewrite Nat2Z.id, take_app_length' by (by rewrite length_npp_flits).
  pose proof (proj2 (checkNppScan_None first (npp_flits pid src vc count n) 0)) as Hs.
  rewrite length_npp_flits in Hs. specialize (Hs eq_refl). change (nz 0) with 0 in Hs.
  rewrite Hs. by destruct (nz n =? count).
Qed.

(** The queue's first packet is reported [Complete] exactly when the queue
    starts with all the flits of one packet, in order, from one source on one VC,
    with head and tail where they belong, and the packet fits both the assembler
    and the receive window. *)
Theorem checkNppReceivePrefix_complete_iff queue maxPacketFlits receiveWindow :
  nc_status (checkNppReceivePrefix queue maxPacketFlits receiveWindow) = Complete <->
  exists pid src vc count rest,
    1 <= count <= maxPacketFlits /\ count <= receiveWindow /\
    queue = npp_flits pid src vc count (zn count) ++ rest.
Proof.
  split.
  - intros H. destruct queue as [|first q]; [done|].
    destruct (checkNppReceivePrefix_accepts _ _ _ _ _ H) as [(?&?&?&?) [Ht Hiff]]; [by left|].
    set (available := Z.min _ _) in *.
    assert (available = nf_count first) as E by by apply Hiff. rewrite E in Ht.
    exists (nf_packetId first), (nf_source first), (nf_vc first), (nf_count first),
      (drop (zn (nf_count first)) (first :: q)).
    rewrite <- Ht, take_drop. auto.
  - intros (pid & src & vc & count & rest & Hc & Hw & ->).
    rewrite checkNppReceivePrefix_flits by (lia || by right).
    by rewrite (proj2 (Z.eqb_eq _ _)) by lia.
Qed.

(** on a queue that holds the first [n] flits of a well-formed packet and
    nothing else yet, the check never reports an error: it answers
    [Incomplete] until the tail arrives and [Complete] from then on. *)
Theorem checkNppReceivePrefix_monotone pid src vc count n m w :
  1 <= count <= m -> count <= w -> (n <= zn count)%nat ->
  nc_status (checkNppReceivePrefix (npp_flits pid src vc count n) m w) =
    if nz n =? count then Complete else Incomplete.
Proof.
  intros Hc Hw Hn. destruct n as [|n].
  { by rewrite (proj2 (Z.eqb_neq _ _)) by lia. }
  rewrite <- (app_nil_r (npp_flits _ _ _ _ _)).
  apply checkNppReceivePrefix_flits; auto; lia.
Qed.

Lemma checkNppReceivePrefix_monotone_witness :
  nc_status (checkNppReceivePrefix (npp_flits 7 1 2 3 2) 17 17) = Incomplete.
Proof. apply (checkNppReceivePrefix_monotone 7 1 2 3 2 17 17); lia. Defined.
