(* ===== verification/Chop.v ===== *)
(** * Splitting AXI-MM requests into NoC packets

    [mmNocMasterUnit::chopInto256BRequests]
    ([src/src/noc/core/network/nmu_types/mmNocMasterUnit.cc]): a read or write
    request is cut into requests that each stay inside one 256-byte block.  The
    loop is modelled with one unit of fuel per AXI beat, since every iteration
    that does not panic consumes at least one beat. *)

From S2P Require Import Prelude AxiTypes.

(** One iteration: the chunk cut at [current_addr] and the number of its bytes. *)
Definition chop_step (og_payload : aximmRWAddr) (bytes_per_beat current_addr bytes_left : Z)
    : res (aximmRWAddr * Z) :=
  let next_boundary := u64 (Z.lor current_addr 255 + 1) in
  let bytes_to_boundary := u64 (next_boundary - current_addr) in
  let bytes_min := Z.min (u32 bytes_to_boundary) bytes_left in
  let bytes_for_this_chunk := u32 (bytes_min - bytes_min mod bytes_per_beat) in
  let beats_this_chunk := u16 (bytes_for_this_chunk / bytes_per_beat) in
  if bytes_for_this_chunk =? 0
  then Err (FPanic "chopInto256BRequests: start address leaves zero usable bytes")
  else Ok (set_ra_chunk current_addr (u8 (beats_this_chunk - 1)) (ra_size og_payload) og_payload,
           beats_this_chunk * bytes_per_beat).

(** The [while (bytes_left > 0)] loop. *)
Fixpoint chop_loop (fuel : nat) (og_payload : aximmRWAddr)
    (bytes_per_beat current_addr bytes_left : Z) : res (list aximmRWAddr) :=
  if bytes_left =? 0 then Ok []
  else match fuel with
  | O => Err FFuel
  | S fuel =>
      let* (chunk, n) := chop_step og_payload bytes_per_beat current_addr bytes_left in
      let* rest := chop_loop fuel og_payload bytes_per_beat
                     (u64 (current_addr + n)) (u32 (bytes_left - n)) in
      Ok (chunk :: rest)
  end.

Definition chopInto256BRequests (og_payload : aximmRWAddr) : res (list aximmRWAddr) :=
  let bytes_per_beat := u16 (Z.shiftl 1 (ra_size og_payload)) in
  let bytes_left := u32 ((ra_len og_payload + 1) * bytes_per_beat) in
  chop_loop (zn (ra_len og_payload + 1)) og_payload bytes_per_beat (ra_addr og_payload) bytes_left.

(** ** The requests the AXI interface can present *)

(** AxLEN is 8 bits, AxSIZE at most 7 (128-byte beats), addresses 64 bits. *)
Definition axi_req (a : aximmRWAddr) : Prop :=
  0 <= ra_len a < 256 /\ 0 <= ra_size a <= 7 /\ is_u64 (ra_addr a).

(** The beat size [2^AxSIZE] and the request size without machine arithmetic. *)
Definition beat_bytes (a : aximmRWAddr) : Z := 2 ^ ra_size a.
Definition req_bytes (a : aximmRWAddr) : Z := (ra_len a + 1) * beat_bytes a.

(** Every beat size divides the 256-byte block. *)
Lemma beat_bytes_cases a :
  axi_req a -> exists k, 2 <= k <= 256 /\ beat_bytes a * k = 256 /\ 1 <= beat_bytes a <= 128.
Proof.
  intros (_ & Hs & _). unfold beat_bytes.
  assert (ra_size a = 0 \/ ra_size a = 1 \/ ra_size a = 2 \/ ra_size a = 3 \/ ra_size a = 4
          \/ ra_size a = 5 \/ ra_size a = 6 \/ ra_size a = 7) as H by lia.
  destruct H as [->|[->|[->|[->|[->|[->|[->| ->]]]]]]]; simpl.
  - exists 256; lia.
  - exists 128; lia.
  - exists 64; lia.
  - exists 32; lia.
  - exists 16; lia.
  - exists 8; lia.
  - exists 4; lia.
  - exists 2; lia.
Qed.

Lemma req_bytes_range a : axi_req a -> 1 <= req_bytes a <= 32768.
Proof.
  intros H. destruct (beat_bytes_cases a H) as (k & _ & _ & Hb).
  destruct H as (Hl & _). unfold req_bytes. nia.
Qed.

Lemma getTotalByteSize_req a : axi_req a -> getTotalByteSize a = req_bytes a.
Proof.
  intros H. pose proof (req_bytes_range a H) as Hr. unfold getTotalByteSize.
  rewrite Z.shiftl_1_l. fold (beat_bytes a). fold (req_bytes a).
  apply u16_small. lia.
Qed.

Lemma getBeatByteSize_req a : axi_req a -> getBeatByteSize a = beat_bytes a.
Proof.
  intros H. destruct (beat_bytes_cases a H) as (k & _ & _ & Hb).
  unfold getBeatByteSize. rewrite Z.shiftl_1_l. fold (beat_bytes a). apply u16_small. lia.
Qed.

(** The bytes left up to the next 256-byte boundary. *)
Lemma lor_255 x : Z.lor x 255 = 256 * (x / 256) + 255.
Proof.
  rewrite (Z.div_mod x 256) at 1 by lia.
  change 255 with (Z.ones 8). change 256 with (2 ^ 8).
  rewrite <- Z.land_ones by lia. rewrite (Z.mul_comm (2^8)).
  rewrite <- Z.shiftl_mul_pow2 by lia.
  assert (forall n, 0 <= n ->
    Z.testbit (Z.lor (Z.shiftl (x / 2 ^ 8) 8 + Z.land x (Z.ones 8)) (Z.ones 8)) n =
    Z.testbit (Z.shiftl (x / 2 ^ 8) 8 + Z.ones 8) n) as Hb.
  { intros n Hn.
    rewrite !Z.add_nocarry_lxor.
    - rewrite Z.lor_spec, !Z.lxor_spec, Z.land_spec, Z.shiftl_spec by lia.
      rewrite Z.testbit_ones_nonneg by lia.
      destruct (Z.ltb_spec n 8); [|by rewrite andb_false_r, orb_false_r].
      rewrite (Z.testbit_neg_r _ (n - 8)) by lia. by destruct (Z.testbit x n).
    - apply Z.bits_inj'. intros m Hm.
      rewrite Z.land_spec, Z.shiftl_spec, Z.bits_0, Z.testbit_ones_nonneg by lia.
      destruct (Z.ltb_spec m 8); [|apply andb_false_r].
      by rewrite (Z.testbit_neg_r _ (m - 8)) by lia.
    - apply Z.bits_inj'. intros m Hm.
      rewrite !Z.land_spec, Z.shiftl_spec, Z.bits_0, Z.testbit_ones_nonneg by lia.
      destruct (Z.ltb_spec m 8); [|by rewrite andb_false_r, andb_false_r].
      by rewrite (Z.testbit_neg_r _ (m - 8)) by lia. }
  apply Z.bits_inj' in Hb. rewrite Hb. rewrite Z.shiftl_mul_pow2 by lia. lia.
Qed.

Lemma bytes_to_boundary_spec x :
  is_u64 x -> u64 (u64 (Z.lor x 255 + 1) - x) = 256 - x mod 256.
Proof.
  intros [Hx0 Hx]. rewrite lor_255. unfold u64.
  rewrite Zminus_mod_idemp_l.
  replace (256 * (x / 256) + 255 + 1 - x) with (256 - x mod 256) by mlia.
  apply Z.mod_small. mlia.
Qed.

(** What one iteration computes on in-range values, without wrap-around. *)
Lemma chop_step_spec a cur left :
  axi_req a -> is_u64 cur -> 0 < left <= 32768 -> left mod beat_bytes a = 0 ->
  let bb := beat_bytes a in
  let m := Z.min (256 - cur mod 256) left in
  let n := m - m mod bb in
  chop_step a bb cur left =
    if n =? 0
    then Err (FPanic "chopInto256BRequests: start address leaves zero usable bytes")
    else Ok (set_ra_chunk cur (n / bb - 1) (ra_size a) a, n).
Proof.
  intros Ha Hcur Hl Hd bb m n.
  destruct (beat_bytes_cases a Ha) as (k & Hk & Hbk & Hb). fold bb in Hbk, Hb.
  unfold chop_step. rewrite bytes_to_boundary_spec by done.
  rewrite (u32_small (256 - cur mod 256)) by mlia. fold m.
  assert (Hm : 0 < m <= 256) by (unfold m; mlia).
  pose proof (Z.mod_pos_bound m bb ltac:(lia)) as Hmb.
  assert (Hmle : m mod bb <= m) by (apply Z.mod_le; lia).
  rewrite (u32_small (m - m mod bb)) by lia. fold n.
  assert (Hn : n = bb * (m / bb)) by (unfold n; pose proof (Z.div_mod m bb); lia).
  assert (Hq : n / bb = m / bb) by (rewrite Hn, Z.mul_comm; apply Z.div_mul; lia).
  destruct (Z.eqb_spec n 0) as [|Hne]; [done|].
  assert (0 <= m / bb <= 256).
  { split; [apply Z.div_pos; lia|]. apply Z.div_le_upper_bound; nia. }
  assert (1 <= m / bb) by (destruct (Z.eq_dec (m / bb) 0) as [E|]; [rewrite E in Hn|]; lia).
  rewrite Hq. rewrite u16_small by lia. rewrite u8_small by lia.
  do 2 f_equal. lia.
Qed.

(** [tiled a cur left l]: the chunks [l] cover [left] bytes from [cur] on, one
    after the other, each inside a 256-byte block. *)
Fixpoint tiled (a : aximmRWAddr) (cur left : Z) (l : list aximmRWAddr) : Prop :=
  match l with
  | [] => left = 0
  | c :: l =>
      exists n, 0 < n <= 256 - cur mod 256 /\ n <= left /\ n mod beat_bytes a = 0 /\
        c = set_ra_chunk cur (n / beat_bytes a - 1) (ra_size a) a /\
        tiled a (u64 (cur + n)) (left - n) l
  end.

(** A chunk of [n] bytes is a request of [n] bytes. *)
Lemma chunk_bytes a cur n :
  axi_req a -> 0 < n <= 256 -> n mod beat_bytes a = 0 ->
  getTotalByteSize (set_ra_chunk cur (n / beat_bytes a - 1) (ra_size a) a) = n.
Proof.
  intros Ha Hn Hd. destruct (beat_bytes_cases a Ha) as (k & Hk & Hbk & Hb).
  unfold getTotalByteSize. simpl. rewrite Z.shiftl_1_l. fold (beat_bytes a).
  replace ((n / beat_bytes a - 1 + 1) * beat_bytes a) with n by mlia.
  apply u16_small. lia.
Qed.

Lemma u64_mod_block x : u64 x mod 256 = x mod 256.
Proof. unfold u64. apply Z.mod_mod_divide. by exists (2 ^ 56). Qed.

Lemma u64_mod_beat a x : axi_req a -> u64 x mod beat_bytes a = x mod beat_bytes a.
Proof.
  intros Ha. destruct (beat_bytes_cases a Ha) as (k & Hk & Hbk & Hb).
  unfold u64. apply Z.mod_mod_divide. exists (2 ^ 56 * k). lia.
Qed.

(** The successful result of the loop tiles the request, whatever the fuel. *)
Lemma chop_loop_tiled a fuel cur left l :
  axi_req a -> is_u64 cur -> 0 <= left <= 32768 -> left mod beat_bytes a = 0 ->
  chop_loop fuel a (beat_bytes a) cur left = Ok l -> tiled a cur left l.
Proof.
  intros Ha. destruct (beat_bytes_cases a Ha) as (k & Hk & Hbk & Hb).
  revert cur left l. induction fuel as [|fuel IH]; intros cur left l Hcur Hl Hd H; simpl in H.
  { destruct (Z.eqb_spec left 0); inv_ok. done. }
  destruct (Z.eqb_spec left 0) as [|Hl0]; [inv_ok; done|].
  rewrite chop_step_spec in H by (done || lia). cbn zeta in H.
  set (m := Z.min _ _) in H. set (n := m - m mod beat_bytes a) in H.
  destruct (Z.eqb_spec n 0) as [|Hn0]; [done|]. simpl in H. inv_ok.
  assert (Hm : 0 < m <= 256 - cur mod 256 /\ m <= left) by (unfold m; mlia).
  assert (Hn : 0 < n <= m /\ n mod beat_bytes a = 0).
  { pose proof (Z.mod_pos_bound m (beat_bytes a)) as Hp.
    assert (m mod beat_bytes a <= m) by (apply Z.mod_le; lia). split; [lia|].
    unfold n. by rewrite Zminus_mod_idemp_r, Z.sub_diag, Z.mod_0_l by lia. }
  exists n. repeat split; try done || lia.
  rewrite u32_small in Ha0 by lia.
  apply IH in Ha0; [done|apply u64_range|lia|].
  rewrite Zminus_mod, Hd, (proj2 Hn). done.
Qed.

(** Alignment of the address to the beat size gives totality, with the number
    of 256-byte blocks the request touches. *)
Lemma chop_loop_aligned a fuel cur left :
  axi_req a -> is_u64 cur -> 0 <= left <= 32768 -> left mod beat_bytes a = 0 ->
  cur mod beat_bytes a = 0 -> left / beat_bytes a <= nz fuel ->
  exists l, chop_loop fuel a (beat_bytes a) cur left = Ok l /\
    nz (length l) = if left =? 0 then 0 else (cur mod 256 + left + 255) / 256.
Proof.
  intros Ha. destruct (beat_bytes_cases a Ha) as (k & Hk & Hbk & Hb).
  revert cur left. induction fuel as [|fuel IH]; intros cur left Hcur Hl Hd Hal Hf; simpl.
  { assert (left = 0) as -> by mlia. exists []. done. }
  destruct (Z.eqb_spec left 0) as [->|Hl0]; [by exists []|].
  rewrite chop_step_spec by (done || lia). cbn zeta.
  set (m := Z.min _ _).
  assert (Hm : 0 < m <= 256 - cur mod 256 /\ m <= left) by (unfold m; mlia).
  assert (Hc256 : (256 - cur mod 256) mod beat_bytes a = 0).
  { assert (cur mod 256 mod beat_bytes a = 0) as E.
    { rewrite Z.mod_mod_divide; [done|]. exists k. lia. }
    rewrite Zminus_mod, E, <- Hbk, (Z.mul_comm (beat_bytes a)), Z.mod_mul by lia. done. }
  assert (Hmd : m mod beat_bytes a = 0) by (unfold m; destruct (Z.min_spec (256 - cur mod 256) left) as [[_ ->]|[_ ->]]; done).
  rewrite Hmd, Z.sub_0_r. rewrite (proj2 (Z.eqb_neq m 0)) by lia. simpl.
  rewrite u32_small by lia.
  destruct (IH (u64 (cur + m)) (left - m)) as (l & -> & Hlen).
  - apply u64_range.
  - lia.
  - rewrite Zminus_mod, Hd, Hmd. done.
  - rewrite u64_mod_beat by done. rewrite Zplus_mod, Hal, Hmd. done.
  - apply Z.div_exact in Hd, Hmd; [|lia..].
    replace (left - m) with ((left / beat_bytes a - m / beat_bytes a) * beat_bytes a) by lia.
    rewrite Z.div_mul by lia. nia.
  - eexists; split; [done|]. rewrite length_cons, Nat2Z.inj_succ, Hlen.
    destruct (Z.eqb_spec (left - m) 0) as [E|E].
    + replace m with left in Hm by lia. mlia.
    + assert (m = 256 - cur mod 256) as Em by (unfold m in *; lia).
      rewrite u64_mod_block. replace ((cur + m) mod 256) with 0 by mlia. mlia.
Qed.

(** The entry point without machine arithmetic. *)
Lemma chop_unfold a :
  axi_req a ->
  chopInto256BRequests a =
    chop_loop (zn (ra_len a + 1)) a (beat_bytes a) (ra_addr a) (req_bytes a).
Proof.
  intros Ha. pose proof (req_bytes_range a Ha).
  destruct (beat_bytes_cases a Ha) as (k & _ & _ & Hb).
  unfold chopInto256BRequests. rewrite Z.shiftl_1_l. fold (beat_bytes a).
  rewrite (u16_small (beat_bytes a)) by lia. fold (req_bytes a).
  by rewrite u32_small by lia.
Qed.

Lemma req_bytes_mod a : axi_req a -> req_bytes a mod beat_bytes a = 0.
Proof.
  intros Ha. destruct (beat_bytes_cases a Ha) as (k & _ & _ & Hb).
  unfold req_bytes. apply Z.mod_mul. lia.
Qed.

Lemma req_bytes_div a : axi_req a -> req_bytes a / beat_bytes a = ra_len a + 1.
Proof.
  intros Ha. destruct (beat_bytes_cases a Ha) as (k & _ & _ & Hb).
  unfold req_bytes. apply Z.div_mul. lia.
Qed.

(** What tiling says about the chunk at each position. *)
Lemma tiled_lookup a cur left l i c :
  axi_req a -> is_u64 cur -> tiled a cur left l -> l !! i = Some c ->
  ra_addr c = u64 (cur + sumZ (getTotalByteSize <$> take i l)) /\
  c = set_ra_chunk (ra_addr c) (ra_len c) (ra_size a) a /\
  0 < getTotalByteSize c /\ ra_addr c mod 256 + getTotalByteSize c <= 256.
Proof.
  intros Ha. revert cur left i. induction l as [|d l IH]; intros cur left i Hcur Ht Hi; [done|].
  destruct Ht as (n & Hn & Hnl & Hd & -> & Ht).
  assert (Hn256 : 0 < n <= 256) by mlia.
  destruct i as [|i]; simpl in Hi.
  - injection Hi as <-. rewrite chunk_bytes by done. simpl. rewrite Z.add_0_r.
    repeat split; [symmetry; by apply u64_small | lia | lia].
  - destruct (IH _ _ _ (u64_range _) Ht Hi) as (Haddr & Hc & Hpos & Hblk).
    split_and!; [|done..].
    cbn [take]. rewrite fmap_cons, sumZ_cons, chunk_bytes by done. rewrite Haddr. unfold u64.
    rewrite Zplus_mod_idemp_l. f_equal. lia.
Qed.

Lemma tiled_sum a cur left l :
  axi_req a -> is_u64 cur -> tiled a cur left l -> sumZ (getTotalByteSize <$> l) = left.
Proof.
  intros Ha. revert cur left. induction l as [|d l IH]; intros cur left Hcur Ht.
  - simpl in *. lia.
  - destruct Ht as (n & Hn & Hnl & Hd & -> & Ht).
    rewrite fmap_cons, sumZ_cons, chunk_bytes by (done || mlia).
    apply IH in Ht; [lia|apply u64_range].
Qed.

Lemma chop_tiled a l : axi_req a -> chopInto256BRequests a = Ok l ->
  tiled a (ra_addr a) (req_bytes a) l.
Proof.
  intros Ha H. pose proof (req_bytes_range a Ha). rewrite chop_unfold in H by done.
  eapply chop_loop_tiled; [done|apply Ha|lia|by apply req_bytes_mod|done].
Qed.

(** The packets of a chopped request cover exactly the request: they follow
    one another in address order (modulo 2^64), keep every other field of the
    request, are non-empty, stay inside one 256-byte block each, and their sizes
    add up to the request's size. *)
Theorem chop_tiles a l :
  axi_req a -> chopInto256BRequests a = Ok l ->
  sumZ (getTotalByteSize <$> l) = getTotalByteSize a /\
  forall i c, l !! i = Some c ->
    ra_addr c = u64 (ra_addr a + sumZ (getTotalByteSize <$> take i l)) /\
    c = set_ra_chunk (ra_addr c) (ra_len c) (ra_size a) a /\
    0 < getTotalByteSize c /\ ra_addr c mod 256 + getTotalByteSize c <= 256.
Proof.
  intros Ha H. apply chop_tiled in H; [|done]. pose proof Ha as (_ & _ & Hu). split.
  - rewrite getTotalByteSize_req by done. by eapply tiled_sum.
  - intros i c Hi. by eapply tiled_lookup.
Qed.

Lemma chop_aligned a :
  axi_req a -> ra_addr a mod beat_bytes a = 0 ->
  exists l, chopInto256BRequests a = Ok l /\
    nz (length l) = (ra_addr a mod 256 + req_bytes a + 255) / 256.
Proof.
  intros Ha Hal. pose proof (req_bytes_range a Ha). pose proof Ha as (Hl & _ & Hu).
  destruct (chop_loop_aligned a (zn (ra_len a + 1)) (ra_addr a) (req_bytes a))
    as (l & Hc & Hlen); try done.
  - lia.
  - by apply req_bytes_mod.
  - rewrite req_bytes_div by done. lia.
  - exists l. rewrite chop_unfold by done. split; [done|].
    rewrite Hlen. by rewrite (proj2 (Z.eqb_neq _ _)) by lia.
Qed.

(** A request whose address is aligned to its beat size is always chopped
    (the code does not panic and the loop ends), into as many packets as
    256-byte blocks it touches. *)
Theorem chop_aligned_total a :
  axi_req a -> ra_addr a mod beat_bytes a = 0 ->
  exists l, chopInto256BRequests a = Ok l /\
    nz (length l) = (ra_addr a mod 256 + getTotalByteSize a + 255) / 256.
Proof. intros Ha. rewrite getTotalByteSize_req by done. by apply chop_aligned. Qed.

(** A request that fits in its 256-byte block is one packet: itself. *)
Lemma chop_fits a :
  axi_req a -> ra_addr a mod 256 + req_bytes a <= 256 -> chopInto256BRequests a = Ok [a].
Proof.
  intros Ha Hfit. pose proof (req_bytes_range a Ha). pose proof Ha as (Hl & _ & Hu).
  rewrite chop_unfold by done.
  destruct (zn (ra_len a + 1)) as [|fuel] eqn:Ef; [lia|]. simpl.
  rewrite (proj2 (Z.eqb_neq (req_bytes a) 0)) by lia.
  rewrite chop_step_spec by (done || lia || by apply req_bytes_mod). cbn zeta.
  rewrite Z.min_r by lia. rewrite req_bytes_mod, Z.sub_0_r by done.
  rewrite (proj2 (Z.eqb_neq (req_bytes a) 0)) by lia. simpl.
  rewrite u32_small by lia. rewrite Z.sub_diag. destruct fuel; simpl.
  all: rewrite req_bytes_div by done; replace (ra_len a + 1 - 1) with (ra_len a) by lia.
  all: by destruct a.
Qed.

(** An unaligned request that crosses the end of its block panics: the chunk up
    to the boundary leaves less than a beat, which rounds down to nothing. *)
Lemma chop_unaligned_panics a :
  axi_req a -> ra_addr a mod beat_bytes a <> 0 -> 256 < ra_addr a mod 256 + req_bytes a ->
  is_ok (chopInto256BRequests a) = false.
Proof.
  intros Ha Hal Hx. destruct (beat_bytes_cases a Ha) as (k & Hk & Hbk & Hb).
  pose proof (req_bytes_range a Ha) as Hr. pose proof Ha as (Hl & _ & Hu).
  rewrite chop_unfold by done.
  assert (Hrem : ra_addr a mod 256 mod beat_bytes a = ra_addr a mod beat_bytes a).
  { apply Z.mod_mod_divide. exists k. lia. }
  destruct (zn (ra_len a + 1)) as [|fuel] eqn:Ef; [lia|]. simpl.
  rewrite (proj2 (Z.eqb_neq (req_bytes a) 0)) by lia.
  rewrite chop_step_spec by (done || lia || by apply req_bytes_mod). cbn zeta.
  rewrite Z.min_l by lia.
  set (m := 256 - ra_addr a mod 256). set (n := m - m mod beat_bytes a).
  destruct (Z.eqb_spec n 0) as [|Hn0]; [done|]. simpl.
  assert (Hm : 0 < m <= 256) by (unfold m; mlia).
  pose proof (Z.mod_pos_bound m (beat_bytes a) ltac:(lia)) as Hmb.
  assert (m mod beat_bytes a <= m) by (apply Z.mod_le; lia).
  assert (Hmne : m mod beat_bytes a <> 0).
  { intros E. apply Hal. rewrite <- Hrem.
    apply Z.mod_divide in E as [q Hq]; [|lia]. apply Z.mod_divide; [lia|].
    exists (k - q). unfold m in Hq. lia. }
  rewrite u32_small by lia.
  assert (Hnd : n mod beat_bytes a = 0).
  { unfold n. by rewrite Zminus_mod_idemp_r, Z.sub_diag, Z.mod_0_l by lia. }
  assert (Hld : (req_bytes a - n) mod beat_bytes a = 0).
  { by rewrite Zminus_mod, Hnd, req_bytes_mod by done. }
  assert (u64 (ra_addr a + n) mod 256 = 256 - m mod beat_bytes a) as Hcur.
  { rewrite u64_mod_block. unfold n, m in *. mlia. }
  destruct fuel as [|fuel]; simpl; rewrite (proj2 (Z.eqb_neq (req_bytes a - n) 0)) by lia; [done|].
  rewrite chop_step_spec by (done || lia || apply u64_range). cbn zeta.
  rewrite Hcur. replace (256 - (256 - m mod beat_bytes a)) with (m mod beat_bytes a) by lia.
  assert (m mod beat_bytes a <= req_bytes a - n) as Hle.
  { apply Z.mod_divide in Hld as [q Hq]; [|lia]. unfold n in *. nia. }
  rewrite Z.min_l by done. rewrite Z.mod_mod by lia. rewrite Z.sub_diag. done.
Qed.

(** [chopInto256BRequests] succeeds exactly on the requests that are aligned
    to their beat size or do not cross a 256-byte boundary; on every other legal
    request it panics. *)
Theorem chop_ok_iff a :
  axi_req a ->
  is_ok (chopInto256BRequests a) = true <->
  ra_addr a mod beat_bytes a = 0 \/ ra_addr a mod 256 + getTotalByteSize a <= 256.
Proof.
  intros Ha. rewrite getTotalByteSize_req by done. split.
  - intros H. destruct (Z.eq_dec (ra_addr a mod beat_bytes a) 0) as [|Hne]; [by left|].
    destruct (Z.le_gt_cases (ra_addr a mod 256 + req_bytes a) 256) as [|Hgt]; [by right|].
    rewrite chop_unaligned_panics in H by done. done.
  - intros [Hal|Hfit]; [|by rewrite chop_fits].
    destruct (chop_aligned a Ha Hal) as (l & -> & _). done.
Qed.

(** A read of sixteen 8-byte beats from 0xF0: it crosses a block boundary. *)
Definition chop_example : aximmRWAddr := set_ra_chunk 0xF0 15 3 aximmRWAddr_default.

Lemma chop_example_req : axi_req chop_example.
Proof. repeat split; simpl; lia. Qed.

Lemma chop_tiles_witness :
  exists l, chopInto256BRequests chop_example = Ok l /\
    sumZ (getTotalByteSize <$> l) = getTotalByteSize chop_example.
Proof.
  eexists; split; [reflexivity|].
  apply (chop_tiles chop_example _ chop_example_req). reflexivity.
Defined.

Lemma chop_aligned_total_witness :
  exists l, chopInto256BRequests chop_example = Ok l /\ nz (length l) = 2.
Proof. exact (chop_aligned_total chop_example chop_example_req eq_refl). Defined.

Lemma chop_ok_iff_witness : is_ok (chopInto256BRequests chop_example) = true.
Proof. apply (chop_ok_iff chop_example chop_example_req). left. reflexivity. Defined.
