(* ===== verification/WriteTracker.v ===== *)
(** * AXI write tracker

    [WriteTracker] of [src/src/noc/lib/axi/WriteStructs.{hh,cc}]: for each AXI ID
    a queue of outstanding AXI writes, each with the number of NoC packet
    responses still missing.  [markRespReceived] ends by calling the NMU's
    handler when the head write has all its responses; the model returns whether
    the handler is called, and [respondWrite] composes it with the handler's
    [readAndRemoveEntry] as [mmNocMasterUnit] does. *)

From S2P Require Import Prelude AxiTypes.

Record WriteTrackerEntry := mk_WriteTrackerEntry {
  wt_destID : Z;
  wt_numOutstandingResponses : Z;
  wt_receivedSLVERR : bool;
  wt_vc : Z
}.

Record WriteTracker := mk_WriteTracker {
  writeTrackerMap : gmap Z (list WriteTrackerEntry);
  numAxiWrites : Z
}.

Definition WriteTracker_empty : WriteTracker :=
  {| writeTrackerMap := ∅; numAxiWrites := 0 |}.

(** [WriteTrackerEntry(destID, numNPPWrites, vc)] *)
Definition newWriteTrackerEntry (destID numNPPWrites vc : Z) : WriteTrackerEntry :=
  {| wt_destID := destID; wt_numOutstandingResponses := numNPPWrites;
     wt_receivedSLVERR := false; wt_vc := vc |}.

(** The deque [writeTrackerMap[axi_id]], created empty when absent. *)
Definition wt_queue (t : WriteTracker) (axi_id : Z) : list WriteTrackerEntry :=
  default [] (writeTrackerMap t !! axi_id).

Definition addAxiWriteRequest (t : WriteTracker) (axi_id destID numNPPWrites vc : Z)
    : WriteTracker :=
  {| writeTrackerMap :=
       <[axi_id := wt_queue t axi_id ++ [newWriteTrackerEntry destID numNPPWrites vc]]>
         (writeTrackerMap t);
     numAxiWrites := u8 (numAxiWrites t + 1) |}.

Definition checkSSID (t : WriteTracker) (axi_id destID : Z) : res bool :=
  match writeTrackerMap t !! axi_id with
  | Some (e :: _) => Ok (wt_destID e =? destID)
  | Some [] => Err (FUndef "front of empty deque")
  | None => Ok true
  end.

(** The head entry after one more response. *)
Definition wt_respond (e : WriteTrackerEntry) (slverr : bool) : WriteTrackerEntry :=
  {| wt_destID := wt_destID e;
     wt_numOutstandingResponses := u16 (wt_numOutstandingResponses e - 1);
     wt_receivedSLVERR := if slverr then true else wt_receivedSLVERR e;
     wt_vc := wt_vc e |}.

(** [hasHandler] is whether [writeRespReadyHandler] is set; the result tells
    whether it is called (its call is the last action of the function). *)
Definition markRespReceived (t : WriteTracker) (hasHandler : bool) (axi_id : Z)
    (slverr : bool) : res (WriteTracker * bool) :=
  match writeTrackerMap t !! axi_id with
  | None => Err (FPanic "WriteTracker::markRespReceived no entry in WriteTracker exists")
  | Some [] => Err (FUndef "front of empty deque")
  | Some (e :: q) =>
      let e' := wt_respond e slverr in
      let t' := {| writeTrackerMap := <[axi_id := e' :: q]> (writeTrackerMap t);
                   numAxiWrites := numAxiWrites t |} in
      if wt_numOutstandingResponses e' =? 0
      then if hasHandler then Ok (t', true)
           else Err (FPanic "No writeRrespReadyHanlder callback")
      else Ok (t', false)
  end.

Definition readAndRemoveEntry (t : WriteTracker) (axi_id : Z)
    : res (WriteTracker * WriteTrackerEntry) :=
  match writeTrackerMap t !! axi_id with
  | None => Err (FPanic "WriteTracker::readAndRemoveEntry no entry in WriteTracker exists")
  | Some [] => Err (FUndef "front of empty deque")
  | Some (e :: q) =>
      Ok ({| writeTrackerMap :=
               match q with
               | [] => delete axi_id (writeTrackerMap t)
               | _ => <[axi_id := q]> (writeTrackerMap t)
               end;
             numAxiWrites := u8 (numAxiWrites t - 1) |}, e)
  end.

Definition getNumEntries (t : WriteTracker) : Z := numAxiWrites t.

Definition wt_getDestID (t : WriteTracker) (axi_id : Z) : res Z :=
  match writeTrackerMap t !! axi_id with
  | None => Err (FPanic "WriteTracker::getDestID no entry in WriteTracker exists")
  | Some [] => Err (FUndef "front of empty deque")
  | Some (e :: _) => Ok (wt_destID e)
  end.

(** ** The NMU's use of the tracker

    [processWriteResponseFlit] marks a response; when that completes the head
    write, the handler [writeRespReadyHandler] removes it and forms the B
    response, reported here as the removed entry. *)
Definition respondWrite (t : WriteTracker) (axi_id : Z) (slverr : bool)
    : res (WriteTracker * option WriteTrackerEntry) :=
  let* (t', fire) := markRespReceived t true axi_id slverr in
  if fire then
    let* (t'', e) := readAndRemoveEntry t' axi_id in
    Ok (t'', Some e)
  else Ok (t', None).

(** A sequence of responses for one AXI ID, with the B responses it produces. *)
Fixpoint respondWrites (t : WriteTracker) (axi_id : Z) (flags : list bool)
    : res (WriteTracker * list WriteTrackerEntry) :=
  match flags with
  | [] => Ok (t, [])
  | slverr :: flags =>
      let* (t', o) := respondWrite t axi_id slverr in
      let* (t'', es) := respondWrites t' axi_id flags in
      Ok (t'', match o with Some e => e :: es | None => es end)
  end.

(** ** Invariant *)

(** An outstanding write still waits for between 1 and 65535 responses. *)
Definition wt_entry_ok (e : WriteTrackerEntry) : Prop :=
  1 <= wt_numOutstandingResponses e < 65536.

(** No empty queue is kept, every write still waits for a response, writes of
    one ID all go to one destination, and the 8-bit counter is the number of
    outstanding writes modulo 256. *)
Record wt_inv (t : WriteTracker) : Prop := {
  wti_queue : forall i q, writeTrackerMap t !! i = Some q -> q <> [] /\ Forall wt_entry_ok q;
  wti_dest : forall i q e e', writeTrackerMap t !! i = Some q -> e ∈ q -> e' ∈ q ->
             wt_destID e = wt_destID e';
  wti_count : numAxiWrites t = u8 (total_length (writeTrackerMap t))
}.

Lemma wt_total_queue t i q' :
  total_length (<[i := q']> (writeTrackerMap t))
  = total_length (writeTrackerMap t) - nz (length (wt_queue t i)) + nz (length q').
Proof. apply total_length_set. Qed.

Lemma wt_inv_empty : wt_inv WriteTracker_empty.
Proof. split; simpl; [intros ??; by rewrite lookup_empty|intros ????; by rewrite lookup_empty|done]. Qed.

Lemma wt_queue_lookup t i q : writeTrackerMap t !! i = Some q -> wt_queue t i = q.
Proof. unfold wt_queue. by intros ->. Qed.

Lemma u8_add_idemp x y : u8 (u8 x + y) = u8 (x + y).
Proof. unfold u8. apply Zplus_mod_idemp_l. Qed.

(** The tracker after its queue for [i] is replaced by a non-empty [q']. *)
Lemma wt_inv_insert t i q' n :
  wt_inv t -> q' <> [] -> Forall wt_entry_ok q' ->
  (forall e e', e ∈ q' -> e' ∈ q' -> wt_destID e = wt_destID e') ->
  n = u8 (numAxiWrites t - nz (length (wt_queue t i)) + nz (length q')) ->
  wt_inv {| writeTrackerMap := <[i := q']> (writeTrackerMap t); numAxiWrites := n |}.
Proof.
  intros [Hq Hd Hc] Hne Hok Hdest ->. split; simpl.
  - intros j q Hj. destruct (decide (i = j)) as [->|].
    + rewrite lookup_insert_eq in Hj. by injection Hj as <-.
    + rewrite lookup_insert_ne in Hj by done. eauto.
  - intros j q e e' Hj. destruct (decide (i = j)) as [->|].
    + rewrite lookup_insert_eq in Hj. injection Hj as <-. auto.
    + rewrite lookup_insert_ne in Hj by done. eauto.
  - rewrite wt_total_queue, Hc.
    replace (_ - nz (length (wt_queue t i)) + nz (length q'))
      with (u8 (total_length (writeTrackerMap t)) + (nz (length q') - nz (length (wt_queue t i)))) by lia.
    rewrite u8_add_idemp. f_equal. lia.
Qed.

Lemma wt_inv_delete t i e :
  wt_inv t -> writeTrackerMap t !! i = Some [e] ->
  wt_inv {| writeTrackerMap := delete i (writeTrackerMap t);
            numAxiWrites := u8 (numAxiWrites t - 1) |}.
Proof.
  intros [Hq Hd Hc] He. split; simpl.
  - intros j q. rewrite lookup_delete_Some. intros [_ Hj]. eauto.
  - intros j q e1 e2. rewrite lookup_delete_Some. intros [_ Hj]. eauto.
  - rewrite Hc, (total_length_delete _ _ _ He). unfold u8. simpl.
    rewrite Zminus_mod_idemp_l. f_equal. lia.
Qed.

(** Adding a write that passed the SSID check keeps the invariant. *)
Lemma addAxiWriteRequest_inv t axi_id destID n vc :
  wt_inv t -> checkSSID t axi_id destID = Ok true -> 1 <= n < 65536 ->
  wt_inv (addAxiWriteRequest t axi_id destID n vc).
Proof.
  intros Hinv Hs Hn. apply wt_inv_insert; [done| | | |].
  - by destruct (wt_queue t axi_id).
  - apply Forall_app. split; [|by apply Forall_singleton].
    unfold wt_queue. destruct (writeTrackerMap t !! axi_id) eqn:E; [|constructor].
    by apply (wti_queue _ Hinv _ _ E).
  - assert (forall e, e ∈ wt_queue t axi_id -> wt_destID e = destID) as Hall.
    { unfold checkSSID, wt_queue in *. destruct (writeTrackerMap t !! axi_id) as [[|e0 q]|] eqn:E;
        simpl; [done| |intros e He; by apply elem_of_nil in He].
      injection Hs as Hs. apply Z.eqb_eq in Hs as <-.
      intros e He. eapply (wti_dest _ Hinv); [exact E|exact He|left]. }
    intros e e'. rewrite !elem_of_app, !list_elem_of_singleton.
    intros [H1| ->] [H2| ->]; simpl; rewrite ?(Hall e), ?(Hall e') by done; done.
  - rewrite length_app. simpl. f_equal. lia.
Qed.

(** ** The abstract contract: one FIFO of writes per AXI ID *)

(** One response for a queue of outstanding writes: the head absorbs it and
    leaves, reported, once it has all its responses. *)
Definition spec_respond (q : list WriteTrackerEntry) (slverr : bool)
    : option (list WriteTrackerEntry * option WriteTrackerEntry) :=
  match q with
  | [] => None
  | e :: q =>
      if wt_numOutstandingResponses e =? 1
      then Some (q, Some (wt_respond e slverr))
      else Some (wt_respond e slverr :: q, None)
  end.

(** The tracker whose queue for [i] is [q]. *)
Definition wt_set_queue (t : WriteTracker) (i : Z) (q : list WriteTrackerEntry) (n : Z)
    : WriteTracker :=
  {| writeTrackerMap := match q with
                        | [] => delete i (writeTrackerMap t)
                        | _ => <[i := q]> (writeTrackerMap t)
                        end;
     numAxiWrites := n |}.

Lemma wt_queue_set t i q n j :
  wt_queue (wt_set_queue t i q n) j = if decide (j = i) then q else wt_queue t j.
Proof.
  unfold wt_queue, wt_set_queue. simpl. destruct q as [|e q]; case_decide; subst.
  - by rewrite lookup_delete_eq.
  - by rewrite lookup_delete_ne by congruence.
  - by rewrite lookup_insert_eq.
  - by rewrite lookup_insert_ne by congruence.
Qed.

Lemma respondWrite_eq t i slverr :
  wt_inv t ->
  respondWrite t i slverr =
    match spec_respond (wt_queue t i) slverr with
    | None => Err (FPanic "WriteTracker::markRespReceived no entry in WriteTracker exists")
    | Some (q, o) =>
        Ok (wt_set_queue t i q
              (match o with Some _ => u8 (numAxiWrites t - 1) | None => numAxiWrites t end), o)
    end.
Proof.
  intros Hinv. unfold respondWrite, markRespReceived, wt_queue.
  destruct (writeTrackerMap t !! i) as [q|] eqn:E; simpl; [|done].
  destruct (wti_queue _ Hinv _ _ E) as [Hne Hok]. destruct q as [|e q]; [done|].
  apply Forall_cons in Hok as [He _]. unfold wt_entry_ok in He. simpl.
  destruct (Z.eqb_spec (wt_numOutstandingResponses e) 1) as [E1|E1].
  - rewrite E1. simpl. unfold readAndRemoveEntry. simpl. rewrite lookup_insert_eq. simpl.
    unfold wt_set_queue. do 3 f_equal. destruct q; simpl.
    + by rewrite delete_insert_eq.
    + by rewrite insert_insert_eq.
  - rewrite u16_small by lia.
    rewrite (proj2 (Z.eqb_neq (wt_numOutstandingResponses e - 1) 0)) by lia. done.
Qed.

Lemma spec_respond_ok q slverr q' o :
  Forall wt_entry_ok q -> spec_respond q slverr = Some (q', o) -> Forall wt_entry_ok q'.
Proof.
  intros Hok H. destruct q as [|e q]; [done|]. simpl in H.
  apply Forall_cons in Hok as [He Hq]. unfold wt_entry_ok in He.
  destruct (Z.eqb_spec (wt_numOutstandingResponses e) 1); simplify_eq; [done|].
  constructor; [|done]. unfold wt_entry_ok. simpl. rewrite u16_small by lia. lia.
Qed.

Lemma wt_inv_queue t i : wt_inv t -> Forall wt_entry_ok (wt_queue t i).
Proof.
  intros Hinv. unfold wt_queue. destruct (_ !! i) eqn:E; [|constructor].
  by apply (wti_queue _ Hinv _ _ E).
Qed.

Lemma respondWrite_inv t i slverr t' o :
  wt_inv t -> respondWrite t i slverr = Ok (t', o) -> wt_inv t'.
Proof.
  intros Hinv H. rewrite respondWrite_eq in H by done.
  destruct (spec_respond (wt_queue t i) slverr) as [[q oo]|] eqn:Es; [|done]. inv_ok.
  pose proof (wt_inv_queue t i Hinv) as Hq.
  assert (Hq' := spec_respond_ok _ _ _ _ Hq Es).
  unfold wt_queue in *. destruct (writeTrackerMap t !! i) as [[|e q0]|] eqn:E; try done.
  simpl in Es. unfold wt_set_queue.
  assert (Hd : forall x y, x ∈ e :: q0 -> y ∈ e :: q0 -> wt_destID x = wt_destID y)
    by (intros; by eapply (wti_dest _ Hinv)).
  destruct (wt_numOutstandingResponses e =? 1) eqn:E1; simplify_eq.
  - destruct q as [|e1 q]; [by eapply wt_inv_delete|].
    apply wt_inv_insert; [done..| |].
    + intros x y Hx Hy. apply Hd; by right.
    + unfold wt_queue. rewrite E. simpl. f_equal. lia.
  - apply wt_inv_insert; [done..| |].
    + assert (forall x, x ∈ wt_respond e slverr :: q0 -> wt_destID x = wt_destID e) as Hx.
      { intros x [->|Hin]%elem_of_cons; [done|]. apply Hd; [by right|by left]. }
      intros x y Hx1 Hy1. by rewrite (Hx x), (Hx y).
    + unfold wt_queue. rewrite E. rewrite (wti_count _ Hinv). unfold u8. simpl.
      replace (total_length (writeTrackerMap t) mod 2 ^ 8 - nz (S (length q0)) + nz (S (length q0)))
        with (total_length (writeTrackerMap t) mod 2 ^ 8) by lia.
      by rewrite Z.mod_mod.
Qed.

(** ** Traces of the NMU's tracker operations *)

Inductive wt_event :=
  | WtAdd (axi_id destID numNPPWrites vc : Z)
  | WtResp (axi_id : Z) (slverr : bool).

(** [flitisizeWriteRequest] adds a write only when its SSID check is met, with
    between 1 and 256 packets. *)
Inductive wt_step : WriteTracker -> wt_event -> list WriteTrackerEntry -> WriteTracker -> Prop :=
  | wt_step_add t axi_id destID n vc :
      checkSSID t axi_id destID = Ok true -> 1 <= n <= 256 ->
      wt_step t (WtAdd axi_id destID n vc) [] (addAxiWriteRequest t axi_id destID n vc)
  | wt_step_resp t axi_id slverr t' o :
      respondWrite t axi_id slverr = Ok (t', o) ->
      wt_step t (WtResp axi_id slverr) (option_list o) t'.

Inductive wt_steps : WriteTracker -> list wt_event -> WriteTracker -> Prop :=
  | wt_steps_nil t : wt_steps t [] t
  | wt_steps_cons t e o t' es t'' :
      wt_step t e o t' -> wt_steps t' es t'' -> wt_steps t (e :: es) t''.

Lemma wt_step_inv t e o t' : wt_inv t -> wt_step t e o t' -> wt_inv t'.
Proof.
  intros Hinv H. destruct H.
  - apply addAxiWriteRequest_inv; [done|done|lia].
  - by eapply respondWrite_inv.
Qed.

(** in every state the NMU can bring the tracker to, no queue is empty, all
    writes outstanding for one AXI ID go to the same destination (so the SSID
    check against the head alone is enough), each still waits for a response, and
    the 8-bit counter is the number of outstanding writes modulo 256. *)
Theorem wt_reachable_inv es t : wt_steps WriteTracker_empty es t -> wt_inv t.
Proof.
  intros H. assert (wt_inv WriteTracker_empty) as Hi by apply wt_inv_empty.
  induction H; [done|]. eauto using wt_step_inv.
Qed.

(** A response for an AXI ID with an outstanding write is never refused, acts
    on that ID's queue as on an abstract FIFO of writes, and leaves the queues of
    all other IDs alone; without an outstanding write the code panics. *)
Theorem respondWrite_refines t i slverr :
  wt_inv t ->
  match spec_respond (wt_queue t i) slverr with
  | None => is_ok (respondWrite t i slverr) = false
  | Some (q, o) =>
      exists t', respondWrite t i slverr = Ok (t', o) /\ wt_inv t' /\
        forall j, wt_queue t' j = if decide (j = i) then q else wt_queue t j
  end.
Proof.
  intros Hinv. pose proof (respondWrite_eq t i slverr Hinv) as He.
  destruct (spec_respond (wt_queue t i) slverr) as [[q o]|]; [|by rewrite He].
  eexists. split; [exact He|]. split; [by eapply respondWrite_inv|].
  intros j. apply wt_queue_set.
Qed.

(** ** Responses in order *)

(** The B response of write [e] after responses [flags]. *)
Definition wt_done (e : WriteTrackerEntry) (flags : list bool) : WriteTrackerEntry :=
  {| wt_destID := wt_destID e; wt_numOutstandingResponses := 0;
     wt_receivedSLVERR := wt_receivedSLVERR e || existsb (fun b => b) flags;
     wt_vc := wt_vc e |}.

Lemma respondWrites_cons t i b flags :
  respondWrites t i (b :: flags) =
    let* (t', o) := respondWrite t i b in
    let* (t'', es) := respondWrites t' i flags in
    Ok (t'', match o with Some e => e :: es | None => es end).
Proof. done. Qed.

Lemma respondWrites_app t i f1 f2 :
  respondWrites t i (f1 ++ f2) =
    let* (t1, o1) := respondWrites t i f1 in
    let* (t2, o2) := respondWrites t1 i f2 in
    Ok (t2, o1 ++ o2).
Proof.
  revert t. induction f1 as [|b f1 IH]; intros t; simpl.
  - destruct (respondWrites t i f2) as [[t2 o2]|]; done.
  - destruct (respondWrite t i b) as [[t' o]|]; simpl; [|done]. rewrite IH.
    destruct (respondWrites t' i f1) as [[t1 o1]|]; simpl; [|done].
    destruct (respondWrites t1 i f2) as [[t2 o2]|]; simpl; [|done]. by destruct o.
Qed.

(** As many responses as the head write needs complete it, and only it. *)
Lemma respondWrites_burst flags t i e q :
  wt_inv t -> wt_queue t i = e :: q ->
  nz (length flags) = wt_numOutstandingResponses e ->
  exists t', respondWrites t i flags = Ok (t', [wt_done e flags]) /\ wt_inv t' /\
    forall j, wt_queue t' j = if decide (j = i) then q else wt_queue t j.
Proof.
  revert t e. induction flags as [|b flags IH]; intros t e Hinv Hq Hlen; simpl in Hlen.
  { pose proof (wt_inv_queue t i Hinv) as Hok. rewrite Hq in Hok.
    apply Forall_cons in Hok as [He _]. unfold wt_entry_ok in He. lia. }
  rewrite respondWrites_cons. pose proof (respondWrite_eq t i b Hinv) as He. rewrite Hq in He. simpl in He.
  destruct flags as [|b' flags].
  - rewrite (proj2 (Z.eqb_eq _ _)) in He by (simpl in Hlen; lia). rewrite He. simpl.
    eexists. split; [|split; [by eapply respondWrite_inv|intros j; apply wt_queue_set]].
    do 3 f_equal. unfold wt_respond, wt_done. simpl in *. f_equal.
    + rewrite <- Hlen. done.
    + destruct b, (wt_receivedSLVERR e); done.
  - rewrite (proj2 (Z.eqb_neq _ _)) in He by (simpl in Hlen; lia). rewrite He. cbn [rbind].
    set (t1 := wt_set_queue _ _ _ _) in *.
    assert (Hi1 : wt_inv t1) by by eapply respondWrite_inv.
    destruct (IH t1 (wt_respond e b)) as (t' & -> & Hi' & Hq').
    + done.
    + unfold t1. rewrite wt_queue_set. by rewrite decide_True.
    + simpl. pose proof (wt_inv_queue t i Hinv) as Hok. rewrite Hq in Hok.
      apply Forall_cons in Hok as [Hok _]. unfold wt_entry_ok in Hok.
      rewrite u16_small by lia. simpl in Hlen. lia.
    + exists t'. cbn [rbind]. split; [|split; [done|]].
      * do 3 f_equal. unfold wt_done. f_equal. simpl.
        destruct b, (wt_receivedSLVERR e); done.
      * intros j. rewrite Hq'. unfold t1. rewrite wt_queue_set. by case_decide.
Qed.

(** The B responses of one AXI ID come out in the order the writes were
    issued, one per write, each after exactly its number of packet responses and
    with SLVERR if and only if one of those packets had it. *)
Theorem respondWrites_in_order t i es flagss :
  wt_inv t -> wt_queue t i = es ->
  Forall2 (fun e flags => nz (length flags) = wt_numOutstandingResponses e) es flagss ->
  exists t', respondWrites t i (concat flagss) = Ok (t', zip_with wt_done es flagss) /\
    wt_inv t' /\ wt_queue t' i = [] /\ forall j, j <> i -> wt_queue t' j = wt_queue t j.
Proof.
  intros Hinv Hq Hf. revert t Hinv Hq. induction Hf as [|e flags es flagss Hl Hf IH];
    intros t Hinv Hq; [by exists t|].
  destruct (respondWrites_burst flags t i e es Hinv Hq Hl) as (t1 & H1 & Hi1 & Hq1).
  destruct (IH t1 Hi1) as (t2 & H2 & Hi2 & Hq2 & Hj2).
  { by rewrite Hq1, decide_True. }
  exists t2. simpl. rewrite respondWrites_app, H1. simpl. rewrite H2. simpl.
  split_and!; [done..|]. intros j Hj. rewrite Hj2, Hq1 by done. by rewrite decide_False.
Qed.

(** Two writes of one ID to destination 5, of two and one packets. *)
Definition wt_example : WriteTracker :=
  addAxiWriteRequest (addAxiWriteRequest WriteTracker_empty 3 5 2 0) 3 5 1 0.

Lemma wt_example_steps : wt_steps WriteTracker_empty [WtAdd 3 5 2 0; WtAdd 3 5 1 0] wt_example.
Proof.
  eapply wt_steps_cons; [apply wt_step_add; [reflexivity|lia]|].
  eapply wt_steps_cons; [apply wt_step_add; [reflexivity|lia]|]. apply wt_steps_nil.
Qed.

Lemma wt_example_inv : wt_inv wt_example.
Proof.
  apply addAxiWriteRequest_inv; [|reflexivity|lia].
  apply addAxiWriteRequest_inv; [apply wt_inv_empty|reflexivity|lia].
Qed.

Lemma wt_reachable_inv_witness : wt_inv wt_example.
Proof. exact (wt_reachable_inv _ _ wt_example_steps). Defined.

Lemma respondWrite_refines_witness :
  exists t', respondWrite wt_example 3 true = Ok (t', None) /\ wt_inv t' /\
    forall j, wt_queue t' j =
      if decide (j = 3) then [mk_WriteTrackerEntry 5 1 true 0; mk_WriteTrackerEntry 5 1 false 0]
      else wt_queue wt_example j.
Proof. exact (respondWrite_refines wt_example 3 true wt_example_inv). Defined.

Lemma respondWrites_in_order_witness :
  exists t', respondWrites wt_example 3 [true; false; false]
    = Ok (t', [mk_WriteTrackerEntry 5 0 true 0; mk_WriteTrackerEntry 5 0 false 0]) /\
    wt_inv t' /\ wt_queue t' 3 = [] /\
    forall j, j <> 3 -> wt_queue t' j = wt_queue wt_example j.
Proof.
  exact (respondWrites_in_order wt_example 3 (wt_queue wt_example 3) [[true; false]; [false]]
           wt_example_inv eq_refl
           ltac:(repeat constructor)).
Defined.
