(* ===== verification/MmWriteBuffer.v ===== *)
(** * AXI-MM write buffer

    [aximmWriteBuffer] of [src/src/noc/lib/axi/WriteStructs.{hh,cc}]: entries for
    the NoC packets of accepted AW requests, filled in order by W beats.  An
    entry holds up to 256 bytes as four 64-byte beats with their strobes.

    An [OutputPort*] is [option Z]: [None] is [nullptr], [Some r] the port of
    router [r].  The head-ready callback is a parameter of the operations that
    call it. *)

From S2P Require Import Prelude AxiTypes Chop.

Definition NPP_BEAT_SIZE : Z := 64.

Record aximmWriteBufferEntry := mk_aximmWriteBufferEntry {
  wb_axiBeatSize : Z;
  wb_nppRequest : aximmRWAddr;
  wb_numEmptyBytes : Z;
  wb_nppData : list aximmRWData;   (* 4 beats *)
  wb_beatIdx : Z;
  wb_beatOffset : Z;
  wb_SSIDMet : bool;
  wb_vc : Z;
  wb_oPort : option Z;
  wb_isDecErr : bool;
  wb_creationTick : Z;
  wb_pipelineEndTick : Z;
  wb_lastBeatTick : Z;
  wb_probeDebugId : Z
}.

Record aximmWriteBuffer := mk_aximmWriteBuffer {
  writeBuffer : list aximmWriteBufferEntry;
  bufferSize : Z
}.

Definition aximmWriteBuffer_empty : aximmWriteBuffer :=
  {| writeBuffer := []; bufferSize := 0 |}.

(** The data beat an entry starts with. *)
Definition wb_initBeat (nppRequest : aximmRWAddr) : aximmRWData :=
  {| rd_cmd := NONE; rd_id := ra_id nppRequest; rd_resp := OKAY; rd_last := false;
     rd_user := 0; rd_valid := true; rd_ready := false; rd_data := zeros 64; rd_wstrb := 0 |}.

(** [aximmWriteBufferEntry(nppRequest, vc, oPort, SSIDMet, creationTick, isDecErr)] *)
Definition newWriteBufferEntry (nppRequest : aximmRWAddr) (vc : Z) (oPort : option Z)
    (SSIDMet : bool) (creationTick : Z) (isDecErr : bool) : aximmWriteBufferEntry :=
  {| wb_axiBeatSize := u8 (getBeatByteSize nppRequest);
     wb_nppRequest := nppRequest;
     wb_numEmptyBytes := getTotalByteSize nppRequest;
     wb_nppData := replicate 4 (wb_initBeat nppRequest);
     wb_beatIdx := 0; wb_beatOffset := 0; wb_SSIDMet := SSIDMet; wb_vc := vc;
     wb_oPort := oPort; wb_isDecErr := isDecErr; wb_creationTick := creationTick;
     wb_pipelineEndTick := 0; wb_lastBeatTick := 0; wb_probeDebugId := -1 |}.

(** [aximmWriteBuffer::add] *)
Definition wb_add (w : aximmWriteBuffer) (nppRequest : aximmRWAddr) (vc : Z)
    (oPort : option Z) (SSIDMet : bool) (creationTick : Z) (isDecErr : bool)
    : aximmWriteBuffer :=
  {| writeBuffer := writeBuffer w ++
       [newWriteBufferEntry nppRequest vc oPort SSIDMet creationTick isDecErr];
     bufferSize := bufferSize w |}.

(** Member assignments. *)
Definition wb_set_fill (e : aximmWriteBufferEntry) (nppData : list aximmRWData)
    (beatIdx beatOffset numEmptyBytes : Z) : aximmWriteBufferEntry :=
  {| wb_axiBeatSize := wb_axiBeatSize e; wb_nppRequest := wb_nppRequest e;
     wb_numEmptyBytes := numEmptyBytes; wb_nppData := nppData; wb_beatIdx := beatIdx;
     wb_beatOffset := beatOffset; wb_SSIDMet := wb_SSIDMet e; wb_vc := wb_vc e;
     wb_oPort := wb_oPort e; wb_isDecErr := wb_isDecErr e;
     wb_creationTick := wb_creationTick e; wb_pipelineEndTick := wb_pipelineEndTick e;
     wb_lastBeatTick := wb_lastBeatTick e; wb_probeDebugId := wb_probeDebugId e |}.
Definition wb_set_timing (e : aximmWriteBufferEntry)
    (pipelineEndTick lastBeatTick probeDebugId : Z) : aximmWriteBufferEntry :=
  {| wb_axiBeatSize := wb_axiBeatSize e; wb_nppRequest := wb_nppRequest e;
     wb_numEmptyBytes := wb_numEmptyBytes e; wb_nppData := wb_nppData e;
     wb_beatIdx := wb_beatIdx e; wb_beatOffset := wb_beatOffset e;
     wb_SSIDMet := wb_SSIDMet e; wb_vc := wb_vc e; wb_oPort := wb_oPort e;
     wb_isDecErr := wb_isDecErr e; wb_creationTick := wb_creationTick e;
     wb_pipelineEndTick := pipelineEndTick; wb_lastBeatTick := lastBeatTick;
     wb_probeDebugId := probeDebugId |}.
Definition wb_set_SSIDMet (e : aximmWriteBufferEntry) : aximmWriteBufferEntry :=
  {| wb_axiBeatSize := wb_axiBeatSize e; wb_nppRequest := wb_nppRequest e;
     wb_numEmptyBytes := wb_numEmptyBytes e; wb_nppData := wb_nppData e;
     wb_beatIdx := wb_beatIdx e; wb_beatOffset := wb_beatOffset e;
     wb_SSIDMet := true; wb_vc := wb_vc e; wb_oPort := wb_oPort e;
     wb_isDecErr := wb_isDecErr e; wb_creationTick := wb_creationTick e;
     wb_pipelineEndTick := wb_pipelineEndTick e; wb_lastBeatTick := wb_lastBeatTick e;
     wb_probeDebugId := wb_probeDebugId e |}.
Definition set_rd_bytes (data : list Z) (wstrb : Z) (d : aximmRWData) : aximmRWData :=
  {| rd_cmd := rd_cmd d; rd_id := rd_id d; rd_resp := rd_resp d; rd_last := rd_last d;
     rd_user := rd_user d; rd_valid := rd_valid d; rd_ready := rd_ready d;
     rd_data := data; rd_wstrb := wstrb |}.

(** One round of [writeSingleEntry]'s [while]: [n] bytes from [src] into the
    current NPP beat.  Reading past the 64-byte source array, or writing an NPP
    beat past the fourth, is undefined. *)
Definition writeRound (data : list Z) (srcWstrb : Z) (e : aximmWriteBufferEntry)
    (src currentSrcBit n : Z) : res aximmWriteBufferEntry :=
  let* beat := of_opt (FUndef "nppData index out of range")
                 (wb_nppData e !! zn (wb_beatIdx e)) in
  guard (src + n <=? 64) (FUndef "read past the W data array") (
  let off := wb_beatOffset e in
  let data' := copy_into (rd_data beat) (zn off) (slice data (zn src) (zn n)) in
  let mask := mask64 n in
  let relevantBits := Z.land (Z.shiftr srcWstrb currentSrcBit) mask in
  let shiftedToDest := u64 (Z.shiftl relevantBits off) in
  let nppData' := <[zn (wb_beatIdx e) := set_rd_bytes data' (Z.lor (rd_wstrb beat) shiftedToDest) beat]>
                    (wb_nppData e) in
  let bytesLeftInBeat := NPP_BEAT_SIZE - off - n in
  let beatOffset' := u8 (off + n) in
  let empty' := u16 (wb_numEmptyBytes e - n) in
  if bytesLeftInBeat =? 0
  then Ok (wb_set_fill e nppData' (u8 (wb_beatIdx e + 1)) 0 empty')
  else Ok (wb_set_fill e nppData' (wb_beatIdx e) beatOffset' empty')).

(** The [while (bytesToWrite > 0)] loop: the entry and the bytes written. *)
Fixpoint writeRounds (fuel : nat) (data : list Z) (srcWstrb srcOffsetStart : Z)
    (e : aximmWriteBufferEntry) (src bytesWritten bytesToWrite : Z)
    : res (aximmWriteBufferEntry * Z) :=
  if bytesToWrite =? 0 then Ok (e, bytesWritten)
  else match fuel with
  | O => Err FFuel
  | S fuel =>
      let n := u8 (Z.min (u8 (NPP_BEAT_SIZE - wb_beatOffset e)) bytesToWrite) in
      let* e' := writeRound data srcWstrb e src (srcOffsetStart + bytesWritten) n in
      writeRounds fuel data srcWstrb srcOffsetStart e' (src + n)
        (u8 (bytesWritten + n)) (u8 (bytesToWrite - n))
  end.

(** The flits a write completes, and the tick its packing ends. *)
Definition wb_newFlits (totalBefore totalAfter numEmptyBytes : Z) : Z :=
  totalAfter / 16 - totalBefore / 16 +
  (if (numEmptyBytes =? 0) && negb (totalAfter mod 16 =? 0) then 1 else 0).
Definition wb_pipelineEnd (pipelineEndTick now newFlits period : Z) : Z :=
  if 0 <? newFlits
  then if pipelineEndTick <=? now then u64 (now + newFlits * period)
       else u64 (pipelineEndTick + newFlits * period)
  else pipelineEndTick.

(** [aximmWriteBuffer::writeSingleEntry]; [src] is the offset [src - srcBegin]. *)
Definition writeSingleEntry (data : list Z) (src : Z) (dest : aximmWriteBufferEntry)
    (srcWstrb now period probeDebugId : Z) : res (aximmWriteBufferEntry * Z) :=
  let beatSize := wb_axiBeatSize dest in
  let dataValidBytes := u8 (beatSize - src) in
  let bytesToWrite := if dataValidBytes <=? wb_numEmptyBytes dest
                      then dataValidBytes else u8 (wb_numEmptyBytes dest) in
  let total := getTotalByteSize (wb_nppRequest dest) in
  let totalBytesBefore := u16 (total - wb_numEmptyBytes dest) in
  let* (e, bytesWritten) :=
    writeRounds (zn bytesToWrite) data srcWstrb src dest src 0 bytesToWrite in
  let totalBytesAfter := u16 (total - wb_numEmptyBytes e) in
  let newFlits := wb_newFlits totalBytesBefore totalBytesAfter (wb_numEmptyBytes e) in
  Ok (wb_set_timing e (wb_pipelineEnd (wb_pipelineEndTick e) now newFlits period) now
        (if 0 <=? probeDebugId then probeDebugId else wb_probeDebugId e),
      bytesWritten).

(** The loop of [aximmWriteBuffer::write] over the entries. *)
Fixpoint writeEntries (data : list Z) (wstrb now period probeDebugId : Z)
    (entries : list aximmWriteBufferEntry) (src total : Z)
    : res (list aximmWriteBufferEntry * Z) :=
  match entries with
  | [] => Ok ([], total)
  | e :: es =>
      let* (e', n) := writeSingleEntry data src e wstrb now period probeDebugId in
      let total' := u8 (total + n) in
      if total' =? wb_axiBeatSize e' then Ok (e' :: es, total')
      else
        let* (es', t) := writeEntries data wstrb now period probeDebugId es (src + n) total' in
        Ok (e' :: es', t)
  end.

(** The head test of [checkHeadReady]. *)
Definition headReady (w : aximmWriteBuffer) : bool :=
  match writeBuffer w with
  | e :: _ => (wb_numEmptyBytes e =? 0) && wb_SSIDMet e
  | [] => false
  end.

(** [readHead] and [removeHead]: [front()] of an empty deque is undefined. *)
Definition wb_readHead (w : aximmWriteBuffer) : res aximmWriteBufferEntry :=
  match writeBuffer w with
  | e :: _ => Ok e
  | [] => Err (FUndef "front of empty deque")
  end.
Definition wb_removeHead (w : aximmWriteBuffer) : res aximmWriteBuffer :=
  match writeBuffer w with
  | e :: es =>
      Ok {| writeBuffer := es;
            bufferSize := u16 (bufferSize w - getTotalByteSize (wb_nppRequest e)) |}
  | [] => Err (FUndef "front of empty deque")
  end.

Definition wb_getSize (w : aximmWriteBuffer) : Z := bufferSize w.

(** ** Operations that call the head-ready handler

    [H] is the state the handler works on besides the buffer; [headReadyHandler]
    is [None] when no callback is registered. *)
Section Handler.
Context {H : Type}.
Variable headReadyHandler : option (H -> aximmWriteBuffer -> res (H * aximmWriteBuffer)).

Definition checkHeadReady (h : H) (w : aximmWriteBuffer) : res (H * aximmWriteBuffer) :=
  if headReady w then
    match headReadyHandler with
    | Some f => f h w
    | None => Err (FPanic "no headReadyHandler setup in WriteBuffer for when head NPP write request ready")
    end
  else Ok (h, w).

(** [aximmWriteBuffer::write] *)
Definition wb_write (h : H) (w : aximmWriteBuffer) (data : list Z)
    (wstrb now period probeDebugId : Z) : res (H * aximmWriteBuffer) :=
  let* (es, total) := writeEntries data wstrb now period probeDebugId (writeBuffer w) 0 0 in
  checkHeadReady h {| writeBuffer := es; bufferSize := u16 (bufferSize w + total) |}.

Definition notifyTransmitComplete (h : H) (w : aximmWriteBuffer)
    : res (H * aximmWriteBuffer) := checkHeadReady h w.

(** The loop of [aximmWriteBuffer::setSSIDMet] from iterator position [i].  When
    the handler removes the head, an iterator to the head is invalidated: going
    on with it is undefined.  Any other iterator stays on its element, now one
    position earlier. *)
Fixpoint setSSIDMetLoop (fuel : nat) (h : H) (w : aximmWriteBuffer) (i : nat)
    (numMarked numEntries : Z) : res (H * aximmWriteBuffer) :=
  match fuel with
  | O => Err FFuel
  | S fuel =>
      match writeBuffer w !! i with
      | None => Err (FPanic "WriteBuffer::setSSIDMet no data wating for SSID check to be met")
      | Some e =>
          if wb_SSIDMet e then setSSIDMetLoop fuel h w (S i) numMarked numEntries
          else
            let w1 := {| writeBuffer := <[i := wb_set_SSIDMet e]> (writeBuffer w);
                         bufferSize := bufferSize w |} in
            let* (h', w') := checkHeadReady h w1 in
            let numMarked' := u8 (numMarked + 1) in
            if numMarked' =? numEntries then Ok (h', w')
            else if (length (writeBuffer w') =? length (writeBuffer w1))%nat
            then setSSIDMetLoop fuel h' w' (S i) numMarked' numEntries
            else match i with
                 | O => Err (FUndef "increment of an invalidated deque iterator")
                 | S _ => setSSIDMetLoop fuel h' w' i numMarked' numEntries
                 end
      end
  end.

(** [aximmWriteBuffer::setSSIDMet]: one step per entry, and one to find the end. *)
Definition setSSIDMet (h : H) (w : aximmWriteBuffer) (numEntries : Z)
    : res (H * aximmWriteBuffer) :=
  setSSIDMetLoop (S (length (writeBuffer w))) h w 0 0 numEntries.
End Handler.

(** ** What an entry holds *)

(** Byte and strobe bit [i] of an entry's 256-byte payload. *)
Definition wb_beat (e : aximmWriteBufferEntry) (i : Z) : aximmRWData :=
  nth (zn (i / 64)) (wb_nppData e) aximmRWData_default.
Definition wb_byte (e : aximmWriteBufferEntry) (i : Z) : Z :=
  byte_at (rd_data (wb_beat e i)) (zn (i mod 64)).
Definition wb_strb (e : aximmWriteBufferEntry) (i : Z) : bool :=
  Z.testbit (rd_wstrb (wb_beat e i)) (i mod 64).

(** The next position to fill, and how many bytes are in. *)
Definition wb_pos (e : aximmWriteBufferEntry) : Z := wb_beatIdx e * 64 + wb_beatOffset e.
Definition wb_total (e : aximmWriteBufferEntry) : Z := getTotalByteSize (wb_nppRequest e).

(** The bytes received so far, each with its strobe. *)
Definition wb_content (e : aximmWriteBufferEntry) : list (Z * bool) :=
  (fun i => (wb_byte e i, wb_strb e i)) <$> seqZ 0 (wb_total e - wb_numEmptyBytes e).

(** The bytes of a W beat, each with its strobe. *)
Definition beat_content (data : list Z) (wstrb : Z) (n : Z) : list (Z * bool) :=
  (fun i => (byte_at data (zn i), Z.testbit wstrb i)) <$> seqZ 0 n.

(** ** Invariant of an entry *)

Definition beat_shape (d : aximmRWData) : Prop :=
  length (rd_data d) = 64%nat /\ is_u64 (rd_wstrb d).

Record wbe_ok (e : aximmWriteBufferEntry) : Prop := {
  wbe_len : length (wb_nppData e) = 4%nat;
  wbe_beats : Forall beat_shape (wb_nppData e);
  wbe_bs : 1 <= wb_axiBeatSize e <= 64;
  wbe_total : 1 <= wb_total e <= 256;
  wbe_empty : 0 <= wb_numEmptyBytes e <= wb_total e;
  wbe_div : wb_numEmptyBytes e mod wb_axiBeatSize e = 0;
  wbe_off : 0 <= wb_beatOffset e < 64;
  wbe_pos : wb_pos e = wb_total e - wb_numEmptyBytes e;
  wbe_clear : forall i, wb_pos e <= i < 256 -> wb_strb e i = false
}.

(** Two entries that differ only in what has been filled in. *)
Definition wb_frame (e e' : aximmWriteBufferEntry) : Prop :=
  wb_set_fill e' [] 0 0 0 = wb_set_fill e [] 0 0 0.

Lemma wb_frame_refl e : wb_frame e e.
Proof. done. Qed.
Lemma wb_frame_trans e1 e2 e3 : wb_frame e1 e2 -> wb_frame e2 e3 -> wb_frame e1 e3.
Proof. unfold wb_frame. congruence. Qed.
Lemma wb_frame_fill e d i o n : wb_frame e (wb_set_fill e d i o n).
Proof. done. Qed.

Lemma wb_frame_fields e e' :
  wb_frame e e' ->
  wb_axiBeatSize e' = wb_axiBeatSize e /\ wb_nppRequest e' = wb_nppRequest e /\
  wb_SSIDMet e' = wb_SSIDMet e /\ wb_pipelineEndTick e' = wb_pipelineEndTick e /\
  wb_probeDebugId e' = wb_probeDebugId e.
Proof. unfold wb_frame, wb_set_fill. intros [=]. done. Qed.

Lemma byte_at_copy dst off src i :
  (off + length src <= length dst)%nat ->
  byte_at (copy_into dst off src) i =
    if decide (off <= i < off + length src)%nat then byte_at src (i - off) else byte_at dst i.
Proof.
  intros Hle. unfold byte_at. rewrite !nth_lookup. case_decide.
  - by rewrite lookup_copy_into_in by lia.
  - rewrite lookup_copy_into_out by lia. done.
Qed.

Lemma byte_at_slice l off n i :
  (i < n)%nat -> byte_at (slice l off n) i = byte_at l (off + i).
Proof. intros. unfold byte_at. by rewrite !nth_lookup, lookup_slice. Qed.

Lemma div_mod_64 i k : 0 <= i -> 0 <= k -> (zn (i / 64) = zn k <-> i / 64 = k).
Proof. intros. assert (0 <= i / 64) by mlia. split; lia. Qed.

(** Replacing NPP beat [k] changes the bytes of that beat only. *)
Lemma wb_beat_update e d k i :
  0 <= k < nz (length (wb_nppData e)) -> 0 <= i ->
  nth (zn (i / 64)) (<[zn k := d]> (wb_nppData e)) aximmRWData_default =
    if i / 64 =? k then d else wb_beat e i.
Proof.
  intros Hk Hi. unfold wb_beat. rewrite !nth_lookup.
  destruct (Z.eqb_spec (i / 64) k) as [->|Hne].
  - by rewrite list_lookup_insert_eq by lia.
  - rewrite list_lookup_insert_ne; [done|]. assert (0 <= i / 64) by mlia. lia.
Qed.

(** The strobe a round ORs in: bits [off, off+n) come from [src, src+n). *)
Lemma round_strobe wstrb src off n i :
  0 <= src -> 0 <= off -> 0 < n -> off + n <= 64 -> 0 <= i < 64 ->
  Z.testbit (u64 (Z.shiftl (Z.land (Z.shiftr wstrb src) (mask64 n)) off)) i =
    (off <=? i) && (i <? off + n) && Z.testbit wstrb (src + i - off).
Proof.
  intros Hsrc Hoff Hn Hle Hi. rewrite u64_testbit by done.
  rewrite Z.shiftl_spec by lia.
  destruct (Z.leb_spec off i); simpl; [|by rewrite Z.testbit_neg_r by lia].
  rewrite Z.land_spec, Z.shiftr_spec, testbit_mask64 by lia.
  destruct (Z.ltb_spec i (off + n)), (Z.ltb_spec (i - off) n); try lia; simpl.
  rewrite (proj2 (Z.ltb_lt _ _)) by lia. rewrite andb_true_r. f_equal. lia.
Qed.

Section Round.
Variables (data : list Z) (wstrb : Z).
Hypothesis Hdata : length data = 64%nat.

(** Effect of [n] bytes from [src] on the payload from position [p]. *)
Definition fills (e e' : aximmWriteBufferEntry) (p src n : Z) : Prop :=
  forall i, 0 <= i < 256 ->
    wb_byte e' i = (if (p <=? i) && (i <? p + n) then byte_at data (zn (src + i - p))
                    else wb_byte e i) /\
    wb_strb e' i = wb_strb e i || ((p <=? i) && (i <? p + n) && Z.testbit wstrb (src + i - p)).

Lemma writeRound_spec e src n :
  length (wb_nppData e) = 4%nat -> Forall beat_shape (wb_nppData e) ->
  0 <= wb_beatIdx e < 4 -> 0 <= wb_beatOffset e ->
  0 < n -> wb_beatOffset e + n <= 64 -> 0 <= src -> src + n <= 64 ->
  n <= wb_numEmptyBytes e < 65536 ->
  exists e', writeRound data wstrb e src src n = Ok e' /\
    wb_frame e e' /\ length (wb_nppData e') = 4%nat /\ Forall beat_shape (wb_nppData e') /\
    wb_pos e' = wb_pos e + n /\ 0 <= wb_beatOffset e' < 64 /\
    wb_numEmptyBytes e' = wb_numEmptyBytes e - n /\ fills e e' (wb_pos e) src n.
Proof.
  intros Hlen Hsh Hidx Hoff Hn Hle Hsrc Hsrcn Hempty.
  destruct (wb_nppData e !! zn (wb_beatIdx e)) as [beat|] eqn:Eb;
    [|apply lookup_ge_None in Eb; lia].
  destruct (Forall_lookup_1 _ _ _ _ Hsh Eb) as [Hb1 Hb2].
  unfold writeRound. rewrite Eb. simpl. unfold guard.
  rewrite (proj2 (Z.leb_le (src + n) 64)) by lia.
  set (data' := copy_into _ _ _).
  set (strb := Z.lor (rd_wstrb beat) _).
  set (nd := <[_ := _]> (wb_nppData e)).
  assert (Hnd : length nd = 4%nat) by (unfold nd; by rewrite length_insert).
  assert (Hstrb : is_u64 strb).
  { apply is_u64_intro.
    - apply Z.lor_nonneg. split; [apply Hb2|apply u64_range].
    - intros i Hi. unfold strb. rewrite Z.lor_spec, is_u64_testbit by done.
      by rewrite u64_testbit_high by done. }
  assert (Hshape : Forall beat_shape nd).
  { apply Forall_insert; [done|]. split; [|done]. simpl. unfold data'.
    by rewrite length_copy_into. }
  assert (Hbeat : wb_beat e (wb_pos e) = beat).
  { unfold wb_beat, wb_pos. rewrite nth_lookup.
    replace ((wb_beatIdx e * 64 + wb_beatOffset e) / 64) with (wb_beatIdx e) by mlia.
    by rewrite Eb. }
  assert (Hfill : forall bi bo em, fills e (wb_set_fill e nd bi bo em) (wb_pos e) src n).
  { intros bi bo em i Hi. unfold wb_byte, wb_strb.
    assert (wb_beat (wb_set_fill e nd bi bo em) i =
            if i / 64 =? wb_beatIdx e
            then set_rd_bytes data' strb beat else wb_beat e i) as ->.
    { apply wb_beat_update; lia. }
    assert (Hm : 0 <= i mod 64 < 64) by mlia.
    destruct (Z.eqb_spec (i / 64) (wb_beatIdx e)) as [Ei|Ei].
    - assert (wb_beat e i = beat) as ->.
      { unfold wb_beat. rewrite nth_lookup, Ei, Eb. done. }
      assert (i = wb_pos e - wb_beatOffset e + i mod 64) as Hipos by (unfold wb_pos; mlia).
      simpl. split.
      + unfold data'. rewrite byte_at_copy; rewrite length_slice by lia; [|lia].
        case_decide.
        * rewrite (proj2 (Z.leb_le _ _)), (proj2 (Z.ltb_lt _ _)) by lia. simpl.
          rewrite byte_at_slice by lia. f_equal. lia.
        * destruct (Z.leb_spec (wb_pos e) i), (Z.ltb_spec i (wb_pos e + n)); simpl; try done. lia.
      + unfold strb. rewrite Z.lor_spec. f_equal. rewrite round_strobe by lia.
        destruct (Z.leb_spec (wb_beatOffset e) (i mod 64)), (Z.leb_spec (wb_pos e) i); try lia;
        destruct (Z.ltb_spec (i mod 64) (wb_beatOffset e + n)), (Z.ltb_spec i (wb_pos e + n)); try lia; simpl; try done.
        f_equal. lia.
    - assert ((wb_pos e <=? i) && (i <? wb_pos e + n) = false) as ->.
      { destruct (Z.leb_spec (wb_pos e) i), (Z.ltb_spec i (wb_pos e + n)); try done.
        exfalso. apply Ei. unfold wb_pos in *. mlia. }
      simpl. by rewrite orb_false_r. }
  unfold NPP_BEAT_SIZE.
  destruct (Z.eqb_spec (64 - wb_beatOffset e - n) 0) as [E|E]; eexists;
    (split; [reflexivity|]); (split; [apply wb_frame_fill|]);
    (split; [done|]); (split; [done|]); unfold wb_pos; simpl;
    rewrite ?(u16_small (wb_numEmptyBytes e - n)) by lia.
  - rewrite u8_small by lia. split_and!; [lia..|apply Hfill].
  - rewrite u8_small by lia. split_and!; [lia..|apply Hfill].
Qed.

Lemma fills_0 e p src : fills e e p src 0.
Proof.
  intros i Hi. destruct (Z.leb_spec p i), (Z.ltb_spec i (p + 0)); try lia; simpl;
    by rewrite orb_false_r.
Qed.

Lemma fills_trans e1 e2 e3 p src n m :
  0 <= n -> 0 <= m ->
  fills e1 e2 p src n -> fills e2 e3 (p + n) (src + n) m -> fills e1 e3 p src (n + m).
Proof.
  intros Hn Hm H1 H2 i Hi. destruct (H1 i Hi) as [B1 S1], (H2 i Hi) as [B2 S2].
  rewrite B2, S2, B1, S1. replace (src + n + i - (p + n)) with (src + i - p) by lia.
  destruct (Z.leb_spec (p + n) i), (Z.ltb_spec i (p + n + m)), (Z.leb_spec p i),
    (Z.ltb_spec i (p + n)), (Z.ltb_spec i (p + (n + m))); try lia; simpl;
    rewrite ?orb_false_r; done.
Qed.

Lemma writeRounds_spec fuel srcStart e src bw n :
  length (wb_nppData e) = 4%nat -> Forall beat_shape (wb_nppData e) ->
  0 <= wb_beatOffset e < 64 -> 0 <= wb_pos e -> wb_pos e + n <= 256 ->
  src = srcStart + bw -> 0 <= srcStart -> 0 <= bw -> 0 <= n -> src + n <= 64 ->
  n <= wb_numEmptyBytes e < 65536 -> n <= nz fuel ->
  exists e', writeRounds fuel data wstrb srcStart e src bw n = Ok (e', bw + n) /\
    wb_frame e e' /\ length (wb_nppData e') = 4%nat /\ Forall beat_shape (wb_nppData e') /\
    wb_pos e' = wb_pos e + n /\ 0 <= wb_beatOffset e' < 64 /\
    wb_numEmptyBytes e' = wb_numEmptyBytes e - n /\ fills e e' (wb_pos e) src n.
Proof.
  revert e src bw n. induction fuel as [|fuel IH];
    intros e src bw n Hlen Hsh Hoff Hp0 Hp Hsrc Hss Hbw Hn Hsn Hem Hf; simpl.
  { assert (n = 0) as -> by lia. exists e. rewrite !Z.add_0_r, Z.sub_0_r. simpl.
    split_and!; try done || lia. apply fills_0. }
  destruct (Z.eqb_spec n 0) as [->|Hn0].
  { exists e. rewrite !Z.add_0_r, Z.sub_0_r. split_and!; try done || lia. apply fills_0. }
  unfold NPP_BEAT_SIZE. rewrite (u8_small (64 - wb_beatOffset e)) by lia.
  set (k := Z.min (64 - wb_beatOffset e) n). rewrite (u8_small k) by (unfold k; lia).
  rewrite <- Hsrc.
  destruct (writeRound_spec e src k) as
    (e1 & -> & Hfr1 & Hlen1 & Hsh1 & Hp1 & Hoff1 & Hem1 & Hfl1);
    [done|done|unfold wb_pos in *; lia|lia|unfold k; lia..|]. simpl.
  rewrite (u8_small (bw + k)), (u8_small (n - k)) by (unfold k; lia).
  destruct (IH e1 (src + k) (bw + k) (n - k)) as
    (e2 & -> & Hfr2 & Hlen2 & Hsh2 & Hp2 & Hoff2 & Hem2 & Hfl2);
    [done|done|unfold k in *; lia..|].
  exists e2. replace (bw + k + (n - k)) with (bw + n) by lia.
  split_and!; try done || lia.
  - by eapply wb_frame_trans.
  - replace n with (k + (n - k)) by lia. eapply fills_trans; [unfold k; lia..|done|].
    by rewrite <- Hp1.
Qed.
End Round.

(** ** One W beat on one entry *)

(** The timing members do not matter to what an entry holds. *)
Lemma wbe_ok_timing e a b c : wbe_ok e -> wbe_ok (wb_set_timing e a b c).
Proof. intros []. by split. Qed.
Lemma wb_content_timing e a b c : wb_content (wb_set_timing e a b c) = wb_content e.
Proof. done. Qed.

(** [writeSingleEntry] on an entry with room takes the whole beat, appends its
    bytes and strobes, and keeps the entry's invariant. *)
Lemma writeSingleEntry_room data wstrb e now period dbg :
  length data = 64%nat -> wbe_ok e -> wb_numEmptyBytes e <> 0 ->
  exists e', writeSingleEntry data 0 e wstrb now period dbg = Ok (e', wb_axiBeatSize e) /\
    wbe_ok e' /\ wb_axiBeatSize e' = wb_axiBeatSize e /\ wb_nppRequest e' = wb_nppRequest e /\
    wb_SSIDMet e' = wb_SSIDMet e /\
    wb_numEmptyBytes e' = wb_numEmptyBytes e - wb_axiBeatSize e /\
    wb_content e' = wb_content e ++ beat_content data wstrb (wb_axiBeatSize e).
Proof.
  intros Hd [Hlen Hsh Hbs Htot Hem Hdiv Hoff Hpos Hclr] Hne.
  assert (Hbse : wb_axiBeatSize e <= wb_numEmptyBytes e).
  { apply multiple_ge; lia. }
  unfold writeSingleEntry. rewrite Z.sub_0_r. rewrite (u8_small (wb_axiBeatSize e)) by lia.
  rewrite (proj2 (Z.leb_le _ _)) by lia.
  destruct (writeRounds_spec data wstrb Hd (zn (wb_axiBeatSize e)) 0 e 0 0 (wb_axiBeatSize e))
    as (e1 & -> & Hfr & Hlen1 & Hsh1 & Hp1 & Hoff1 & Hem1 & Hfl1); try done || lia.
  destruct (wb_frame_fields _ _ Hfr) as (F1 & F2 & F3 & F4 & F5).
  simpl. eexists. split; [reflexivity|]. simpl.
  assert (Ht1 : wb_total e1 = wb_total e) by (unfold wb_total; by rewrite F2).
  split_and!; [|done..|].
  - apply wbe_ok_timing. split; rewrite ?F1, ?Ht1; try done || lia.
    + rewrite Hem1, Zminus_mod, Hdiv, Z.mod_same by lia. done.
    + intros i Hi. rewrite (proj2 (Hfl1 i ltac:(lia))). rewrite Hclr by lia. simpl.
      rewrite (proj2 (Z.ltb_ge i _)) by lia. by rewrite andb_false_r.
  - rewrite wb_content_timing. unfold wb_content, beat_content. rewrite Ht1, Hem1.
    replace (wb_total e - (wb_numEmptyBytes e - wb_axiBeatSize e))
      with ((wb_total e - wb_numEmptyBytes e) + wb_axiBeatSize e) by lia.
    rewrite seqZ_app, fmap_app by lia. f_equal.
    + apply list_fmap_ext. intros k i Hk. apply lookup_seqZ in Hk as [-> Hk].
      destruct (Hfl1 (0 + nz k) ltac:(lia)) as [B S].
      rewrite B, S. rewrite (proj2 (Z.leb_gt _ _)) by lia. simpl. by rewrite orb_false_r.
    + rewrite <- (Z.add_0_r (0 + (wb_total e - wb_numEmptyBytes e))) at 1.
      rewrite <- fmap_add_seqZ, <- list_fmap_compose.
      apply list_fmap_ext. intros k i Hk. apply lookup_seqZ in Hk as [-> Hk]. simpl.
      destruct (Hfl1 (0 + (wb_total e - wb_numEmptyBytes e) + (0 + nz k)) ltac:(lia)) as [B S].
      rewrite B, S, Hclr by lia. rewrite Hpos.
      rewrite (proj2 (Z.leb_le _ _)), (proj2 (Z.ltb_lt _ _)) by lia. simpl.
      f_equal; f_equal; lia.
Qed.

(** On a complete entry nothing is written, but the timing members move. *)
Lemma writeSingleEntry_full data wstrb e now period dbg :
  wbe_ok e -> wb_numEmptyBytes e = 0 ->
  writeSingleEntry data 0 e wstrb now period dbg =
    Ok (wb_set_timing e
          (wb_pipelineEnd (wb_pipelineEndTick e) now
             (if wb_total e mod 16 =? 0 then 0 else 1) period) now
          (if 0 <=? dbg then dbg else wb_probeDebugId e), 0).
Proof.
  intros [Hlen Hsh Hbs Htot Hem Hdiv Hoff Hpos Hclr] H0.
  unfold writeSingleEntry. rewrite H0, !Z.sub_0_r. rewrite (u8_small (wb_axiBeatSize e)) by lia.
  rewrite (proj2 (Z.leb_gt _ _)) by lia. simpl.
  rewrite H0, Z.sub_0_r. unfold wb_newFlits. fold (wb_total e). rewrite u16_small by lia.
  rewrite Z.sub_diag. simpl. by destruct (wb_total e mod 16 =? 0).
Qed.

(** ** The buffer *)

(** The bytes in the buffer, in the order they were received. *)
Definition wb_stream (l : list aximmWriteBufferEntry) : list (Z * bool) :=
  concat (wb_content <$> l).

Definition wb_written (e : aximmWriteBufferEntry) : Z := wb_total e - wb_numEmptyBytes e.

(** Entries are filled one after the other. *)
Definition filled_in_order (l : list aximmWriteBufferEntry) : Prop :=
  exists full rest, l = full ++ rest /\ Forall (fun e => wb_numEmptyBytes e = 0) full /\
    Forall (fun e => wb_numEmptyBytes e = wb_total e) (tail rest).

Record wb_inv (w : aximmWriteBuffer) : Prop := {
  wbi_entries : Forall wbe_ok (writeBuffer w);
  wbi_order : filled_in_order (writeBuffer w);
  wbi_size : bufferSize w = u16 (sumZ (wb_written <$> writeBuffer w))
}.

Definition wb_is_full (e : aximmWriteBufferEntry) : bool := wb_numEmptyBytes e =? 0.

(** What [writeSingleEntry] does to a complete entry. *)
Definition wb_touch (now period dbg : Z) (e : aximmWriteBufferEntry) : aximmWriteBufferEntry :=
  wb_set_timing e
    (wb_pipelineEnd (wb_pipelineEndTick e) now (if wb_total e mod 16 =? 0 then 0 else 1) period)
    now (if 0 <=? dbg then dbg else wb_probeDebugId e).

Lemma wb_touch_content now period dbg (l : list aximmWriteBufferEntry) :
  wb_content <$> (wb_touch now period dbg <$> l) = wb_content <$> l.
Proof. rewrite <- list_fmap_compose. by apply list_fmap_ext. Qed.

Lemma wb_touch_written now period dbg (l : list aximmWriteBufferEntry) :
  wb_written <$> (wb_touch now period dbg <$> l) = wb_written <$> l.
Proof. rewrite <- list_fmap_compose. by apply list_fmap_ext. Qed.

Lemma wb_touch_ok now period dbg (l : list aximmWriteBufferEntry) : Forall wbe_ok l -> Forall wbe_ok (wb_touch now period dbg <$> l).
Proof.
  intros H. apply Forall_fmap. eapply Forall_impl; [exact H|].
  intros e He. by apply wbe_ok_timing.
Qed.

Lemma wb_touch_full now period dbg (l : list aximmWriteBufferEntry) :
  Forall (fun e => wb_numEmptyBytes e = 0) l ->
  Forall (fun e => wb_numEmptyBytes e = 0) (wb_touch now period dbg <$> l).
Proof. intros H. apply Forall_fmap. eapply Forall_impl; [exact H|]. done. Qed.

(** The loop skips complete entries and gives the whole beat to the next one. *)
Lemma writeEntries_full data wstrb now period dbg full rest :
  Forall wbe_ok full -> Forall (fun e => wb_numEmptyBytes e = 0) full ->
  writeEntries data wstrb now period dbg (full ++ rest) 0 0 =
    let* (es, t) := writeEntries data wstrb now period dbg rest 0 0 in
    Ok ((wb_touch now period dbg <$> full) ++ es, t).
Proof.
  intros Hok Hf. induction full as [|e full IH].
  { simpl. by destruct (writeEntries data wstrb now period dbg rest 0 0) as [[]|]. }
  apply Forall_cons in Hok as [He Hok], Hf as [Hf0 Hf].
  rewrite <- app_comm_cons, fmap_cons. cbn [writeEntries].
  rewrite writeSingleEntry_full by done. cbn [rbind].
  change (u8 (0 + 0)) with 0. change (0 + 0) with 0. change (wb_axiBeatSize (wb_set_timing e _ _ _)) with (wb_axiBeatSize e).
  rewrite (proj2 (Z.eqb_neq 0 (wb_axiBeatSize e))) by (pose proof (wbe_bs _ He); lia).
  rewrite IH by done.
  by destruct (writeEntries data wstrb now period dbg rest 0 0) as [[]|].
Qed.

Lemma writeEntries_room data wstrb now period dbg e rest :
  length data = 64%nat -> wbe_ok e -> wb_numEmptyBytes e <> 0 ->
  exists e', writeEntries data wstrb now period dbg (e :: rest) 0 0
      = Ok (e' :: rest, wb_axiBeatSize e) /\
    wbe_ok e' /\ wb_nppRequest e' = wb_nppRequest e /\
    wb_numEmptyBytes e' = wb_numEmptyBytes e - wb_axiBeatSize e /\
    wb_content e' = wb_content e ++ beat_content data wstrb (wb_axiBeatSize e).
Proof.
  intros Hd He Hne.
  destruct (writeSingleEntry_room data wstrb e now period dbg Hd He Hne)
    as (e' & Heq & Hok & Hbs & Hreq & _ & Hem & Hct).
  exists e'. simpl. rewrite Heq. simpl. pose proof (wbe_bs _ He).
  rewrite u8_small by lia. rewrite Hbs, Z.eqb_refl. done.
Qed.

Lemma wb_content_untouched l :
  Forall (fun e => wb_numEmptyBytes e = wb_total e) l -> wb_stream l = [].
Proof.
  induction 1 as [|e l He _ IH]; [done|]. unfold wb_stream. rewrite fmap_cons, concat_cons.
  fold (wb_stream l). rewrite IH, app_nil_r. unfold wb_content. by rewrite He, Z.sub_diag.
Qed.

Lemma wb_stream_app l1 l2 : wb_stream (l1 ++ l2) = wb_stream l1 ++ wb_stream l2.
Proof. unfold wb_stream. by rewrite fmap_app, concat_app. Qed.

(** The first entry with room, if any, splits the buffer. *)
Lemma filled_in_order_split l :
  filled_in_order l -> existsb (fun e => negb (wb_is_full e)) l = true ->
  exists full e rest, l = full ++ e :: rest /\
    Forall (fun e => wb_numEmptyBytes e = 0) full /\ wb_numEmptyBytes e <> 0 /\
    Forall (fun e => wb_numEmptyBytes e = wb_total e) rest.
Proof.
  intros (full & rest & -> & Hf & Hr) Hex. revert full Hf Hex.
  induction rest as [|e rest IH]; intros full Hf Hex.
  - exfalso. apply existsb_exists in Hex as (x & Hin & Hx). rewrite app_nil_r in Hin.
    unfold wb_is_full in Hx. apply list_elem_of_In in Hin.
    rewrite Forall_forall in Hf. rewrite Hf in Hx by done. done.
  - simpl in Hr. destruct (Z.eq_dec (wb_numEmptyBytes e) 0) as [E|E].
    + destruct (IH ltac:(destruct rest; [constructor|by inversion Hr]) (full ++ [e]))
        as (f' & x & r' & Heq & Hf' & Hx & Hr').
      * apply Forall_app. split; [done|]. by constructor.
      * by rewrite <- app_assoc.
      * exists f', x, r'. rewrite <- app_assoc in Heq. done.
    + by exists full, e, rest.
Qed.

(** A W beat that finds an AW entry with room is stored whole: its bytes and strobes are
    appended to that entry, no other byte or strobe in the buffer changes, the size counter
    grows by the beat, and the invariant holds. *)
Lemma writeEntries_appends w data wstrb now period dbg :
  length data = 64%nat -> wb_inv w ->
  existsb (fun e => negb (wb_is_full e)) (writeBuffer w) = true ->
  exists full e rest e', writeBuffer w = full ++ e :: rest /\
    Forall (fun e => wb_numEmptyBytes e = 0) full /\ wb_numEmptyBytes e <> 0 /\
    Forall (fun e => wb_numEmptyBytes e = wb_total e) rest /\
    writeEntries data wstrb now period dbg (writeBuffer w) 0 0 =
      Ok ((wb_touch now period dbg <$> full) ++ e' :: rest, wb_axiBeatSize e) /\
    wb_inv {| writeBuffer := (wb_touch now period dbg <$> full) ++ e' :: rest;
              bufferSize := u16 (bufferSize w + wb_axiBeatSize e) |} /\
    wb_nppRequest e' = wb_nppRequest e /\
    wb_numEmptyBytes e' = wb_numEmptyBytes e - wb_axiBeatSize e /\
    wb_content e' = wb_content e ++ beat_content data wstrb (wb_axiBeatSize e).
Proof.
  intros Hd [Hok Hord Hsz] Hex.
  destruct (filled_in_order_split _ Hord Hex) as (full & e & rest & Heq & Hf & Hne & Hr).
  rewrite Heq in *. apply Forall_app in Hok as [Hokf Hok]. apply Forall_cons in Hok as [He Hokr].
  destruct (writeEntries_room data wstrb now period dbg e rest Hd He Hne)
    as (e' & Hw & Hok' & Hreq & Hem & Hct).
  exists full, e, rest, e'. rewrite writeEntries_full, Hw by done. split_and!; try done.
  assert (Hwr : wb_written e' = wb_written e + wb_axiBeatSize e).
  { unfold wb_written, wb_total. rewrite Hreq, Hem. lia. }
  split; simpl.
  - apply Forall_app. split; [by apply wb_touch_ok|by constructor].
  - exists (wb_touch now period dbg <$> full), (e' :: rest). by auto using wb_touch_full.
  - rewrite Hsz, !fmap_app, !fmap_cons, wb_touch_written, !sumZ_app, !sumZ_cons, Hwr.
    unfold u16. rewrite Zplus_mod_idemp_l. f_equal. lia.
Qed.

(** A W beat that finds no AW entry with room (W data before its AW) is
    dropped silently: no byte, strobe or count in the buffer changes and no fault
    is raised. *)
Theorem wb_write_drops {H} (f : option (H -> aximmWriteBuffer -> res (H * aximmWriteBuffer)))
    h w data wstrb now period dbg :
  wb_inv w -> existsb (fun e => negb (wb_is_full e)) (writeBuffer w) = false ->
  wb_write f h w data wstrb now period dbg =
    checkHeadReady f h {| writeBuffer := wb_touch now period dbg <$> writeBuffer w;
                          bufferSize := bufferSize w |} /\
  wb_stream (wb_touch now period dbg <$> writeBuffer w) = wb_stream (writeBuffer w).
Proof.
  intros [Hok Hord Hsz] Hex. split.
  - assert (Hf : Forall (fun e => wb_numEmptyBytes e = 0) (writeBuffer w)).
    { apply Forall_forall. intros e He. apply list_elem_of_In in He.
      destruct (Z.eq_dec (wb_numEmptyBytes e) 0) as [|Hne]; [done|]. exfalso.
      assert (existsb (fun e => negb (wb_is_full e)) (writeBuffer w) = true) as Ht.
      { apply existsb_exists. exists e. split; [done|]. unfold wb_is_full.
        by rewrite (proj2 (Z.eqb_neq _ _)). }
      congruence. }
    unfold wb_write. rewrite <- (app_nil_r (writeBuffer w)) at 1.
    rewrite writeEntries_full by done. simpl. rewrite app_nil_r, Z.add_0_r.
    rewrite Hsz. unfold u16. by rewrite Z.mod_mod.
  - unfold wb_stream. by rewrite wb_touch_content.
Qed.

(** a complete entry whose size is not a whole number of 16-byte flits has
    its packing-end tick pushed back by one period each time a later W beat is
    written, although no flit of it is produced. *)
Theorem wb_touch_delays now period dbg e :
  wbe_ok e -> wb_numEmptyBytes e = 0 -> wb_total e mod 16 <> 0 ->
  0 < period -> now < wb_pipelineEndTick e -> wb_pipelineEndTick e + period < 2 ^ 64 -> 0 <= now ->
  exists e', writeSingleEntry (zeros 64) 0 e 0 now period dbg = Ok (e', 0) /\
    wb_content e' = wb_content e /\
    wb_pipelineEndTick e' = wb_pipelineEndTick e + period.
Proof.
  intros Hok H0 Hm Hp Hn Hmax Hn0. rewrite writeSingleEntry_full by done.
  eexists. split; [reflexivity|]. split; [done|]. simpl.
  rewrite (proj2 (Z.eqb_neq _ _)) by done. unfold wb_pipelineEnd. simpl.
  rewrite (proj2 (Z.leb_gt _ _)) by lia. rewrite Z.mul_1_l. by rewrite u64_small by lia.
Qed.

(** ** Adding and removing entries *)

(** The packets [chopInto256BRequests] produces for a bus of at most 64 bytes. *)
Definition npp_req (a : aximmRWAddr) : Prop :=
  axi_req a /\ ra_size a <= 6 /\ req_bytes a <= 256.

Lemma newWriteBufferEntry_ok a vc oPort ssid tick dec :
  npp_req a -> wbe_ok (newWriteBufferEntry a vc oPort ssid tick dec).
Proof.
  intros (Ha & Hs & Hr). pose proof (req_bytes_range a Ha) as Hr1.
  destruct (beat_bytes_cases a Ha) as (k & _ & _ & Hb).
  assert (Hb64 : beat_bytes a <= 64).
  { destruct Ha as (_ & Hs0 & _). unfold beat_bytes.
    apply (Z.pow_le_mono_r 2 (ra_size a) 6); lia. }
  assert (Ht : wb_total (newWriteBufferEntry a vc oPort ssid tick dec) = req_bytes a)
    by apply (getTotalByteSize_req a Ha).
  split; rewrite ?Ht; simpl; rewrite ?getTotalByteSize_req, ?getBeatByteSize_req,
    ?(u8_small (beat_bytes a)) by (done || lia); try done || lia.
  - repeat constructor; done.
  - by apply req_bytes_mod.
  - unfold wb_pos. simpl. lia.
  - intros i Hi. unfold wb_strb, wb_beat, wb_pos in *. simpl in *.
    assert (zn (i / 64) = 0 \/ zn (i / 64) = 1 \/ zn (i / 64) = 2 \/ zn (i / 64) = 3)%nat
      as [->|[->|[->| ->]]] by mlia; apply Z.testbit_0_l.
Qed.

Lemma wb_add_inv w a vc oPort ssid tick dec :
  wb_inv w -> npp_req a -> wb_inv (wb_add w a vc oPort ssid tick dec) /\
  wb_stream (writeBuffer (wb_add w a vc oPort ssid tick dec)) = wb_stream (writeBuffer w).
Proof.
  intros [Hok (full & rest & Heq & Hf & Hr) Hsz] Ha.
  pose proof (newWriteBufferEntry_ok a vc oPort ssid tick dec Ha) as He.
  set (e := newWriteBufferEntry a vc oPort ssid tick dec) in *.
  assert (Hun : wb_numEmptyBytes e = wb_total e) by done.
  split; [split; simpl|].
  - apply Forall_app. by split; [|constructor].
  - fold e. exists full, (rest ++ [e]). rewrite Heq, <- app_assoc. split_and!; [done..|].
    destruct rest; simpl; [constructor|]. apply Forall_app. by split; [|constructor].
  - fold e. rewrite Hsz, fmap_app, sumZ_app. simpl. unfold wb_written at 3.
    rewrite Hun. f_equal. lia.
  - simpl. fold e. rewrite wb_stream_app, (wb_content_untouched [e]) by by constructor.
    apply app_nil_r.
Qed.

(** Removing a complete head takes its whole payload off the stream. *)
Lemma wb_removeHead_inv w e es :
  wb_inv w -> writeBuffer w = e :: es -> wb_numEmptyBytes e = 0 ->
  exists w', wb_removeHead w = Ok w' /\ wb_inv w' /\ writeBuffer w' = es /\
    wb_stream (writeBuffer w) = wb_content e ++ wb_stream es /\
    length (wb_content e) = zn (wb_total e).
Proof.
  intros [Hok (full & rest & Heq & Hf & Hr) Hsz] Hw He. unfold wb_removeHead. rewrite Hw in *.
  apply Forall_cons in Hok as [Hoke Hokes].
  eexists; split; [reflexivity|]. split_and!; [|done|done|].
  - split; simpl; [done| |].
    + destruct full as [|f full]; simpl in Heq.
      * destruct rest as [|r rest]; [done|]. injection Heq as -> ->. simpl in Hr.
        exists [], rest. split_and!; [done|constructor|]. destruct rest; [constructor|].
        by inversion Hr.
      * injection Heq as -> ->. apply Forall_cons in Hf as [_ Hf]. by exists full, rest.
    + rewrite Hsz, fmap_cons, sumZ_cons. unfold wb_written at 1. rewrite He.
      fold (wb_total e). unfold u16. rewrite Zminus_mod_idemp_l. f_equal. lia.
  - unfold wb_content. rewrite length_fmap, length_seqZ, He. f_equal. lia.
Qed.

(** ** Marking a delayed request *)

(** The first [n] unmarked entries marked. *)
Fixpoint mark_first (n : nat) (l : list aximmWriteBufferEntry) : list aximmWriteBufferEntry :=
  match l, n with
  | e :: l, S m => if wb_SSIDMet e then e :: mark_first n l else wb_set_SSIDMet e :: mark_first m l
  | _, _ => l
  end.

Definition unmarked (l : list aximmWriteBufferEntry) : nat :=
  length (filter (fun e => wb_SSIDMet e = false) l).

Section Busy.
Context {H : Type} (f : H -> aximmWriteBuffer -> res (H * aximmWriteBuffer)) (h : H).
Hypothesis busy : forall w, f h w = Ok (h, w).

Lemma checkHeadReady_busy w : checkHeadReady (Some f) h w = Ok (h, w).
Proof. unfold checkHeadReady. by destruct (headReady w). Qed.

Lemma setSSIDMetLoop_busy l2 l1 sz m n :
  (1 <= n <= unmarked l2)%nat -> 0 <= m -> m + nz n <= 255 ->
  setSSIDMetLoop (Some f) (S (length l2)) h (mk_aximmWriteBuffer (l1 ++ l2) sz)
    (length l1) m (m + nz n) = Ok (h, mk_aximmWriteBuffer (l1 ++ mark_first n l2) sz).
Proof.
  revert l1 m n. induction l2 as [|e l2 IH]; intros l1 m n Hn Hm Hmn; [cbv [unmarked] in Hn; simpl in Hn; lia|].
  change (S (length (e :: l2))) with (S (S (length l2))). simpl.
  rewrite lookup_app_r, Nat.sub_diag by lia. simpl.
  unfold unmarked in Hn. rewrite filter_cons in Hn.
  destruct (wb_SSIDMet e) eqn:Ee; case_decide; try done; simpl in Hn; fold (unmarked l2) in Hn.
  - destruct n as [|n]; [lia|].
    pose proof (IH (l1 ++ [e]) m (S n) Hn Hm Hmn) as HI.
    rewrite length_app, <- !app_assoc in HI. simpl in HI. rewrite Nat.add_1_r in HI.
    exact HI.
  - rewrite insert_app_r_alt, Nat.sub_diag by lia. simpl.
    rewrite checkHeadReady_busy. simpl. rewrite u8_small by lia.
    destruct n as [|n]; [lia|].
    destruct (Z.eqb_spec (m + 1) (m + nz (S n))) as [E|E].
    + assert (n = 0%nat) as -> by lia. do 2 f_equal. by destruct l2.
    + rewrite !length_app. simpl. rewrite Nat.eqb_refl.
      pose proof (IH (l1 ++ [wb_set_SSIDMet e]) (m + 1) n ltac:(lia) ltac:(lia) ltac:(lia)) as HI.
      rewrite length_app, <- !app_assoc in HI. simpl in HI. rewrite Nat.add_1_r in HI.
      replace (m + 1 + nz n) with (m + nz (S n)) in HI by lia.
      exact HI.
Qed.

(** when the drain stage is busy (the head-ready handler changes nothing),
    [setSSIDMet n] marks exactly the first [n] entries still waiting for the
    SSID check and changes nothing else. *)
Theorem setSSIDMet_marks w n :
  (1 <= n <= unmarked (writeBuffer w))%nat -> (n <= 255)%nat ->
  setSSIDMet (Some f) h w (nz n) =
    Ok (h, {| writeBuffer := mark_first n (writeBuffer w); bufferSize := bufferSize w |}).
Proof.
  intros Hn Hn2. unfold setSSIDMet. destruct w as [l sz].
  apply (setSSIDMetLoop_busy l [] sz 0 n); [done|lia|lia].
Qed.
End Busy.

(** When the delayed request's first packet is complete at the head of the
    buffer, has a second packet behind it, and the handler drains the head, the
    marking loop goes on with an iterator to the removed entry: the code is
    undefined there. *)
Theorem setSSIDMet_iterator_invalidated {H} (f : H -> aximmWriteBuffer -> res (H * aximmWriteBuffer))
    h h' e es sz sz' n :
  wb_SSIDMet e = false -> wb_numEmptyBytes e = 0 -> 2 <= n ->
  f h (mk_aximmWriteBuffer (wb_set_SSIDMet e :: es) sz) = Ok (h', mk_aximmWriteBuffer es sz') ->
  setSSIDMet (Some f) h (mk_aximmWriteBuffer (e :: es) sz) n =
    Err (FUndef "increment of an invalidated deque iterator").
Proof.
  intros Hs He Hn Hf. unfold setSSIDMet. cbn [setSSIDMetLoop writeBuffer lookup list_lookup].
  rewrite Hs. unfold checkHeadReady, headReady.
  cbn [writeBuffer bufferSize wb_numEmptyBytes wb_SSIDMet wb_set_SSIDMet insert list_insert].
  rewrite He. cbn [Z.eqb andb]. rewrite Hf. cbn [rbind writeBuffer length].
  rewrite (proj2 (Z.eqb_neq (u8 (0 + 1)) n)) by (change (u8 (0 + 1)) with 1; lia).
  by rewrite (proj2 (Nat.eqb_neq (length es) (S (length es)))) by lia.
Qed.

(** *** Witnesses *)

(** A write of one 8-byte beat, its entry before and after the beat, and a buffer
    of each. *)
Definition req8 : aximmRWAddr :=
  {| ra_cmd := WRITE; ra_id := 3; ra_addr := 4096; ra_len := 0; ra_size := 3;
     ra_burst := INCR; ra_lock := false; ra_cache := 0; ra_prot := 0; ra_qos := 0;
     ra_region := 0; ra_user := 0; ra_valid := true; ra_sourceNiDebug := 0;
     ra_originalReadBytesDebug := 0; ra_debugId := 0; ra_finalReadChunkDebug := false |}.
Definition entry8 : aximmWriteBufferEntry := newWriteBufferEntry req8 0 (Some 1) false 100 false.
Definition buffer8 : aximmWriteBuffer := wb_add aximmWriteBuffer_empty req8 0 (Some 1) false 100 false.
Definition full8 : aximmWriteBufferEntry :=
  wb_set_timing (wb_set_fill entry8 (wb_nppData entry8) 0 8 0) 2000 1000 7.
Definition buffer_full8 : aximmWriteBuffer := mk_aximmWriteBuffer [full8] 8.

Lemma npp_req8 : npp_req req8.
Proof. split; [|split]; [repeat split|..]; by vm_compute. Qed.

Lemma wb_inv_empty : wb_inv aximmWriteBuffer_empty.
Proof. split; [constructor| |done]. exists [], []. split_and!; done || constructor. Qed.

Lemma full8_ok : wbe_ok full8.
Proof.
  destruct (newWriteBufferEntry_ok req8 0 (Some 1) false 100 false npp_req8)
    as [Hl Hb Hbs Ht _ _ _ _ Hc].
  split; [exact Hl|exact Hb|exact Hbs|exact Ht|by vm_compute..|].
  intros i Hi. apply Hc. change (wb_pos full8) with 8 in Hi.
  change (wb_pos _) with 0. lia.
Qed.

Lemma buffer_full8_inv : wb_inv buffer_full8.
Proof.
  split; [constructor; [exact full8_ok|constructor]| |by vm_compute].
  exists [full8], []. split_and!; [done| |done]. by repeat constructor.
Qed.

Lemma wb_write_drops_witness :
  wb_write (H := unit) None tt buffer_full8 (zeros 64) 255 500 10 (-1) =
    checkHeadReady None tt (mk_aximmWriteBuffer [wb_touch 500 10 (-1) full8] 8).
Proof. apply wb_write_drops; [exact buffer_full8_inv|by vm_compute]. Defined.

Lemma wb_touch_delays_witness :
  exists e', writeSingleEntry (zeros 64) 0 full8 0 1500 10 (-1) = Ok (e', 0) /\ wb_content e' = wb_content full8 /\ wb_pipelineEndTick e' = 2010.
Proof. apply wb_touch_delays; [exact full8_ok|by vm_compute..]. Defined.

Lemma setSSIDMet_marks_witness :
  setSSIDMet (Some (fun (h : unit) w => Ok (h, w))) tt buffer_full8 1 =
    Ok (tt, mk_aximmWriteBuffer [wb_set_SSIDMet full8] 8).
Proof.
  apply (setSSIDMet_marks (fun (h : unit) w => Ok (h, w)) tt (fun w => eq_refl) buffer_full8 1);
    vm_compute; lia.
Defined.

Lemma setSSIDMet_iterator_invalidated_witness :
  setSSIDMet (Some (fun (h : unit) w => let* w' := wb_removeHead w in Ok (h, w'))) tt
    (mk_aximmWriteBuffer [full8; entry8] 8) 2 =
    Err (FUndef "increment of an invalidated deque iterator").
Proof.
  apply (setSSIDMet_iterator_invalidated _ tt tt full8 [entry8] 8 0 2); by vm_compute.
Defined.
