(* ===== verification/AxisWriteBuffer.v ===== *)
(** * AXI-Stream write buffer

    [axisWriteBuffer] of [src/src/noc/lib/axi/WriteStructs.{hh,cc}]: accepted
    stream beats, from which packets of at most 64 valid bytes are cut that never
    cross a TLAST.  The buffer keeps the byte positions of the TLASTs it holds and
    the size of the next packet that can be cut ([-1] when there is none).

    As in the AXI-MM buffer, an [OutputPort*] is an [option Z] and the head-ready
    callback is a parameter. *)

From S2P Require Import Prelude AxiTypes.

Record axisWriteBufferEntry := mk_axisWriteBufferEntry {
  aw_numTotalBytes : Z;
  aw_nppData : axisData;
  aw_numBytesRemaining : Z;
  aw_debugId : Z;
  aw_vc : Z;
  aw_oPort : option Z
}.

(** [maxBeatSize] is never read and is left out. *)
Record axisWriteBuffer := mk_axisWriteBuffer {
  aw_writeBuffer : list axisWriteBufferEntry;
  aw_bufferSize : Z;
  currTid : Z;
  currTdest : Z;
  transmitting : bool;
  tlastPositions : list Z;
  nextDequeuePos : Z
}.

Definition NPP_SIZE : Z := NPP_MAX_SIZE.

Definition axisWriteBuffer_empty : axisWriteBuffer :=
  {| aw_writeBuffer := []; aw_bufferSize := 0; currTid := -1; currTdest := -1;
     transmitting := false; tlastPositions := []; nextDequeuePos := -1 |}.

(** [axisWriteBufferEntry(nppData, oPort, vc, debugId)] *)
Definition newAxisWriteBufferEntry (nppData : axisData) (oPort : option Z) (vc debugId : Z)
    : axisWriteBufferEntry :=
  {| aw_numTotalBytes := u8 (axis_getTotalByteSize nppData); aw_nppData := nppData;
     aw_numBytesRemaining := axis_getTotalByteSize nppData; aw_debugId := debugId;
     aw_vc := vc; aw_oPort := oPort |}.

(** The recomputation of [nextDequeuePos] that ends [add] and [popNextPacket];
    [int <= size_t] compares the position as an unsigned value. *)
Definition computeNextDequeuePos (tlasts : list Z) (bufferSize : Z) : Z :=
  match tlasts with
  | p :: _ => if u64 p <=? NPP_SIZE then p
              else if NPP_SIZE <=? bufferSize then NPP_SIZE else -1
  | [] => if NPP_SIZE <=? bufferSize then NPP_SIZE else -1
  end.

(** The state change of [axisWriteBuffer::add], before it tests the head. *)
Definition aw_push (w : axisWriteBuffer) (beat : axisData) (oPort : option Z) (vc debugId : Z)
    : res axisWriteBuffer :=
  let changed := negb (u32 (currTid w) =? tid beat) || negb (u32 (currTdest w) =? tdest beat) in
  guard (negb (transmitting w && changed))
    (FPanic "AXIS Write Buffer: tid or tdest changed before tlast asserted in previous transmission.") (
  let entry := newAxisWriteBufferEntry beat oPort vc debugId in
  let size := u16 (aw_bufferSize w + aw_numTotalBytes entry) in
  let tlasts := if tlast beat then tlastPositions w ++ [size] else tlastPositions w in
  Ok {| aw_writeBuffer := aw_writeBuffer w ++ [entry];
        aw_bufferSize := size;
        currTid := if transmitting w then currTid w else s32 (tid beat);
        currTdest := if transmitting w then currTdest w else s32 (tdest beat);
        transmitting := negb (tlast beat);
        tlastPositions := tlasts;
        nextDequeuePos := computeNextDequeuePos tlasts size |}).

Section Handler.
Context {H : Type}.
Variable headReadyHandler : option (H -> axisWriteBuffer -> res (H * axisWriteBuffer)).

(** [axisWriteBuffer::checkDequeueReady] *)
Definition checkDequeueReady (h : H) (w : axisWriteBuffer) : res (bool * (H * axisWriteBuffer)) :=
  if negb (nextDequeuePos w =? -1) then
    match headReadyHandler with
    | Some f => let* hw := f h w in Ok (true, hw)
    | None => Err (FPanic "no headReadyHandler setup in WriteBuffer for when head NPP write request ready")
    end
  else Ok (false, (h, w)).

(** [axisWriteBuffer::add] *)
Definition aw_add (h : H) (w : axisWriteBuffer) (beat : axisData) (oPort : option Z)
    (vc debugId : Z) : res (H * axisWriteBuffer) :=
  let* w1 := aw_push w beat oPort vc debugId in
  let* (_, hw) := checkDequeueReady h w1 in
  Ok hw.
End Handler.

(** ** Cutting a packet *)

(** One round of the [for (c < 64)] loop that splits TKEEP [x] after its [n]
    lowest ones; the state is [(tkeepLower, tkeepHigher, count)]. *)
Definition split_round (x n : Z) (s : Z * Z * Z) (c : nat) : Z * Z * Z :=
  let '(lower, higher, count) := s in
  if Z.testbit x (nz c) then
    if count + 1 <=? n
    then (Z.lor lower (Z.shiftl 1 (nz c)), Z.ldiff higher (Z.shiftl 1 (nz c)), count + 1)
    else (lower, higher, count + 1)
  else (lower, higher, count).
Definition split_tkeep (x n : Z) : Z * Z :=
  let '(lower, higher, _) := foldl (split_round x n) (0, x, 0) (seq 0 64) in (lower, higher).

(** The entry after a partial take. *)
Definition aw_set_remaining (e : axisWriteBufferEntry) (tkeepHigher remaining : Z)
    : axisWriteBufferEntry :=
  {| aw_numTotalBytes := aw_numTotalBytes e; aw_nppData := set_tkeep tkeepHigher (aw_nppData e);
     aw_numBytesRemaining := remaining; aw_debugId := aw_debugId e; aw_vc := aw_vc e;
     aw_oPort := aw_oPort e |}.

(** What [popNextPacket] writes through its out-parameters: [vc], [oPort] and
    [debugId] of the first contributing entry, or nothing. *)
Definition out_params : Type := option (Z * option Z * Z).

(** The [while] loop of [popNextPacket].  Each round removes the front entry, or
    takes the space left from it, after which [bytesPacked = bytesTarget] and the
    loop ends. *)
Fixpoint popLoop (entries : list axisWriteBufferEntry) (ret : axisPayload) (out : out_params)
    (bytesPacked bytesTarget bufferSize : Z)
    : list axisWriteBufferEntry * axisPayload * out_params * Z :=
  match entries with
  | [] => (entries, ret, out, bufferSize)
  | entry :: rest =>
      if bytesPacked <? bytesTarget then
        let out' := match out with
                    | None => Some (aw_vc entry, aw_oPort entry, aw_debugId entry)
                    | Some _ => out
                    end in
        let spaceRemaining := bytesTarget - bytesPacked in
        let bytesRemaining := aw_numBytesRemaining entry in
        if bytesRemaining <=? spaceRemaining then
          popLoop rest (axisPayload_add ret (aw_nppData entry) (aw_debugId entry)) out'
            (bytesPacked + bytesRemaining) bytesTarget (u16 (bufferSize - bytesRemaining))
        else
          let '(tkeepLower, tkeepHigher) := split_tkeep (tkeep (aw_nppData entry)) spaceRemaining in
          let partial := set_tlast false (set_tkeep tkeepLower (aw_nppData entry)) in
          (aw_set_remaining entry tkeepHigher (u16 (bytesRemaining - spaceRemaining)) :: rest,
           axisPayload_add ret partial (aw_debugId entry), out',
           u16 (bufferSize - spaceRemaining))
      else (entries, ret, out, bufferSize)
  end.

(** [axisWriteBuffer::popNextPacket] *)
Definition popNextPacket (w : axisWriteBuffer) : axisPayload * out_params * axisWriteBuffer :=
  let endsAtTlast := match tlastPositions w with
                     | p :: _ => nextDequeuePos w =? p
                     | [] => false
                     end in
  let tlasts := (fun pos => pos - nextDequeuePos w) <$>
                  (if endsAtTlast then tail (tlastPositions w) else tlastPositions w) in
  let '(entries, ret, out, size) :=
    popLoop (aw_writeBuffer w) axisPayload_empty None 0 (nextDequeuePos w) (aw_bufferSize w) in
  (if endsAtTlast then set_ap_last 1 ret else ret, out,
   {| aw_writeBuffer := entries; aw_bufferSize := size; currTid := currTid w;
      currTdest := currTdest w; transmitting := transmitting w; tlastPositions := tlasts;
      nextDequeuePos := computeNextDequeuePos tlasts size |}).

(** ** Splitting TKEEP *)

Lemma split_fold x n k :
  let '(lower, higher, count) := foldl (split_round x n) (0, x, 0) (seq 0 k) in
  count = popcount x k /\
  (forall i, 0 <= i -> Z.testbit lower i =
     (i <? nz k) && Z.testbit x i && (popcount x (zn i) <? n)) /\
  (forall i, 0 <= i -> Z.testbit higher i = Z.testbit x i && negb (Z.testbit lower i)).
Proof.
  induction k as [|k IH].
  - cbn [seq foldl]. split_and!; [done|..]; intros i Hi; rewrite Z.testbit_0_l; [|by rewrite andb_true_r].
    change (nz 0) with 0. by rewrite (proj2 (Z.ltb_ge i 0)) by lia.
  - rewrite seq_S, foldl_app. simpl.
    destruct (foldl (split_round x n) (0, x, 0) (seq 0 k)) as [[lower higher] count].
    destruct IH as (-> & Hl & Hh). unfold split_round. rewrite popcount_S.
    assert (Hlt : forall i, 0 <= i -> (i <? nz (S k)) = (i <? nz k) || (i =? nz k)).
    { intros i Hi. destruct (Z.ltb_spec i (nz (S k))), (Z.ltb_spec i (nz k)),
        (Z.eqb_spec i (nz k)); simpl; lia || done. }
    destruct (Z.testbit x (nz k)) eqn:E; [destruct (Z.leb_spec (popcount x k + 1) n)|];
      (split; [lia|split; [|done || (intros i Hi; rewrite Z.ldiff_spec, Z.lor_spec, Hh by done)]]);
      try (intros i Hi; rewrite ?Z.lor_spec, Hl, Hlt by done).
    all: rewrite ?Z.shiftl_1_l, ?Z.pow2_bits_eqb by lia.
    all: destruct (Z.eqb_spec i (nz k)) as [->|Hne];
      rewrite ?Z.eqb_refl, ?(proj2 (Z.eqb_neq (nz k) i)) by lia;
      rewrite ?Z.ltb_irrefl, ?Nat2Z.id, ?E, ?orb_false_r, ?andb_true_r, ?orb_true_r; simpl; try done.
    + symmetry. apply Z.ltb_lt. lia.
    + apply andb_false_r.
    + symmetry. apply Z.ltb_ge. lia.
Qed.

Definition tkeep_idx (w : Z) (m : nat) : list nat :=
  filter (fun i : nat => Is_true (Z.testbit w (nz i))) (seq 0 m).

Lemma tkeep_idx_S w m :
  tkeep_idx w (S m) = tkeep_idx w m ++ (if Z.testbit w (nz m) then [m] else []).
Proof.
  unfold tkeep_idx. rewrite seq_S, filter_app. f_equal. rewrite filter_cons, filter_nil. simpl.
  by destruct (Z.testbit w (nz m)); case_decide.
Qed.

Lemma split_tkeep_idx x n m lower higher :
  (m <= 64)%nat -> 0 <= n -> split_tkeep x n = (lower, higher) ->
  tkeep_idx lower m = take (zn n) (tkeep_idx x m) /\
  tkeep_idx higher m = drop (zn n) (tkeep_idx x m).
Proof.
  intros Hm Hn. unfold split_tkeep. pose proof (split_fold x n 64) as Hf.
  destruct (foldl _ _ _) as [[lo hi] cnt]. destruct Hf as (_ & Hl & Hh). intros [= <- <-].
  induction m as [|m IH]; [by destruct (zn n)|].
  destruct IH as [IHl IHh]; [lia|].
  rewrite !tkeep_idx_S, IHl, IHh, Hh, Hl, Nat2Z.id by lia.
  rewrite (proj2 (Z.ltb_lt (nz m) (nz 64))) by lia.
  destruct (Z.testbit x (nz m)); simpl; [|by rewrite !app_nil_r].
  assert (Hlen : nz (length (tkeep_idx x m)) = popcount x m) by (symmetry; apply popcount_seq).
  rewrite take_app, drop_app.
  destruct (Z.ltb_spec (popcount x m) n); simpl.
  - rewrite (take_ge [m]), (drop_ge [m]) by (simpl; lia). done.
  - replace (zn n - length (tkeep_idx x m))%nat with 0%nat by lia. by rewrite take_0, app_nil_r.
Qed.

Lemma split_tkeep_kept d n lower higher :
  axis_wf d -> 0 <= n -> split_tkeep (tkeep d) n = (lower, higher) ->
  kept_bytes (set_tkeep lower d) = take (zn n) (kept_bytes d) /\
  kept_bytes (set_tkeep higher d) = drop (zn n) (kept_bytes d).
Proof.
  intros (Hw & _) Hn Hs.
  destruct (split_tkeep_idx _ n (zn (DATA_WIDTH d / 8)) _ _ ltac:(mlia) Hn Hs) as [H1 H2].
  unfold kept_bytes, tkeep_idx in *. simpl. rewrite H1, H2. by rewrite <- fmap_take, <- fmap_drop.
Qed.

Lemma split_tkeep_u64 x n lower higher :
  is_u64 x -> split_tkeep x n = (lower, higher) -> is_u64 lower /\ is_u64 higher.
Proof.
  intros Hx. unfold split_tkeep. pose proof (split_fold x n 64) as Hf.
  destruct (foldl _ _ _) as [[lo hi] cnt]. destruct Hf as (_ & Hl & Hh). intros [= <- <-].
  assert (Hb : forall i, 64 <= i -> Z.testbit x i = false) by (intros; by apply is_u64_testbit).
  assert (Hlo : is_u64 lo).
  { apply is_u64_of_bits. intros i Hi. rewrite Hl, Hb, andb_false_r by lia. done. }
  split; [done|]. apply is_u64_of_bits. intros i Hi. by rewrite Hh, Hb by lia.
Qed.

#[local] Opaque split_tkeep.

(** ** Invariant *)

Definition aw_bytes (e : axisWriteBufferEntry) : list Z := kept_bytes (aw_nppData e).
Definition aw_stream (l : list axisWriteBufferEntry) : list Z := concat (aw_bytes <$> l).

Record aw_entry_ok (e : axisWriteBufferEntry) : Prop := {
  awe_wf : axis_wf (aw_nppData e);
  awe_rem : aw_numBytesRemaining e = nz (length (aw_bytes e));
  awe_last : tlast (aw_nppData e) = true -> aw_bytes e <> []
}.

(** The byte positions after the TLAST beats of [l], counted from [off]. *)
Fixpoint tlast_ends (off : Z) (l : list axisWriteBufferEntry) : list Z :=
  match l with
  | [] => []
  | e :: l =>
      let off' := off + nz (length (aw_bytes e)) in
      if tlast (aw_nppData e) then off' :: tlast_ends off' l else tlast_ends off' l
  end.

(** The packet identity of an entry: TID, TDEST and TLAST. *)
Definition aw_hdr (e : axisWriteBufferEntry) : Z * Z * bool :=
  (tid (aw_nppData e), tdest (aw_nppData e), tlast (aw_nppData e)).

(** TID and TDEST only change after a TLAST. *)
Fixpoint packets_ok (l : list (Z * Z * bool)) : Prop :=
  match l with
  | h1 :: (h2 :: _) as l' => (h1.2 = false -> h1.1 = h2.1) /\ packets_ok l'
  | _ => True
  end.

Record aw_inv (w : axisWriteBuffer) : Prop := {
  awi_entries : Forall aw_entry_ok (aw_writeBuffer w);
  awi_size : aw_bufferSize w = nz (length (aw_stream (aw_writeBuffer w)));
  awi_bound : aw_bufferSize w < 2 ^ 16;
  awi_tlasts : tlastPositions w = tlast_ends 0 (aw_writeBuffer w);
  awi_next : nextDequeuePos w = computeNextDequeuePos (tlastPositions w) (aw_bufferSize w);
  awi_packets : packets_ok (aw_hdr <$> aw_writeBuffer w);
  awi_open : forall h, last (aw_hdr <$> aw_writeBuffer w) = Some h ->
    h.2 = negb (transmitting w) /\
    (transmitting w = true -> h.1 = (u32 (currTid w), u32 (currTdest w)))
}.

Lemma packets_ok_tail h l : packets_ok (h :: l) -> packets_ok l.
Proof. destruct l; [done|]. by intros []. Qed.
Lemma packets_ok_drop n l : packets_ok l -> packets_ok (drop n l).
Proof.
  revert l. induction n as [|n IH]; intros l H; [done|].
  destruct l as [|h l]; [done|]. apply IH. by apply packets_ok_tail in H.
Qed.
Lemma packets_ok_app l h :
  packets_ok l -> (forall g, last l = Some g -> g.2 = false -> g.1 = h.1) -> packets_ok (l ++ [h]).
Proof.
  induction l as [|g l IH]; intros Hl Hg; [done|]. destruct l as [|g' l]; simpl in *.
  - split; [|done]. by apply Hg.
  - destruct Hl as [H1 H2]. split; [done|]. apply IH; [done|]. intros g2 Hg2. by apply Hg.
Qed.

Lemma tlast_ends_shift off l : tlast_ends off l = (fun p => p + off) <$> tlast_ends 0 l.
Proof.
  revert off. induction l as [|e l IH]; intros off; [done|]. simpl.
  destruct (tlast (aw_nppData e)); rewrite ?fmap_cons;
    rewrite (IH (off + _)), (IH (0 + _)), <- list_fmap_compose;
    repeat (f_equal; [lia|]); apply list_fmap_ext; intros; simpl; lia.
Qed.

Lemma tlast_ends_app off l e :
  tlast_ends off (l ++ [e]) = tlast_ends off l ++
    (if tlast (aw_nppData e)
     then [off + nz (length (aw_stream (l ++ [e])))] else []).
Proof.
  revert off. induction l as [|d l IH]; intros off; simpl.
  - unfold aw_stream. simpl. rewrite app_nil_r. by destruct (tlast _).
  - unfold aw_stream in *. rewrite fmap_cons, concat_cons, IH, length_app.
    rewrite Nat2Z.inj_add, Z.add_assoc. by destruct (tlast (aw_nppData d)).
Qed.

Lemma tlast_ends_pos l : Forall aw_entry_ok l -> Forall (fun p => 0 < p) (tlast_ends 0 l).
Proof.
  induction 1 as [|e l He _ IH]; simpl; [constructor|].
  assert (Hr : Forall (fun p => 0 < p) (tlast_ends (0 + nz (length (aw_bytes e))) l)).
  { rewrite tlast_ends_shift. apply Forall_fmap. eapply Forall_impl; [exact IH|]. simpl. lia. }
  destruct (tlast (aw_nppData e)) eqn:E; [|done]. constructor; [|done].
  pose proof (awe_last e He E). destruct (aw_bytes e); [done|]. simpl. lia.
Qed.

Lemma tlast_ends_le l : Forall (fun p => p <= nz (length (aw_stream l))) (tlast_ends 0 l).
Proof.
  induction l as [|e l IH]; simpl; [constructor|].
  unfold aw_stream in *. rewrite fmap_cons, concat_cons, length_app.
  assert (Hr : Forall (fun p => p <= nz (length (aw_bytes e) + length (concat (aw_bytes <$> l))))
                 (tlast_ends (0 + nz (length (aw_bytes e))) l)).
  { rewrite tlast_ends_shift. apply Forall_fmap. eapply Forall_impl; [exact IH|]. simpl. lia. }
  destruct (tlast (aw_nppData e)); [constructor; [lia|done]|done].
Qed.

(** ** Taking [k] bytes off the front *)

Definition ends_here (k : Z) (ts : list Z) : bool :=
  match ts with p :: _ => k =? p | [] => false end.
Definition cut_ends (k : Z) (ts : list Z) : list Z :=
  (fun p => p - k) <$> (if ends_here k ts then tail ts else ts).

(** [taken] are the beats of a packet of [k] bytes cut from [l], [l'] what is left. *)
Record cut (k : Z) (l l' : list axisWriteBufferEntry) (taken : list axisData) : Prop := {
  cut_bytes : concat (kept_bytes <$> taken) = take (zn k) (aw_stream l);
  cut_rest : aw_stream l' = drop (zn k) (aw_stream l);
  cut_ok : Forall aw_entry_ok l';
  cut_hdrs : exists n, aw_hdr <$> l' = drop n (aw_hdr <$> l);
  cut_tlasts : tlast_ends 0 l' = cut_ends k (tlast_ends 0 l);
  cut_none : k = 0 -> taken = [];
  cut_ids : Forall (fun b => Some (tid b, tdest b) = fst <$> head (aw_hdr <$> l)) taken;
  cut_flags : 0 < k ->
    tlast <$> taken = replicate (length taken - 1) false ++ [ends_here k (tlast_ends 0 l)];
  cut_wf : Forall axis_wf taken
}.

Lemma aw_stream_cons e l : aw_stream (e :: l) = aw_bytes e ++ aw_stream l.
Proof. done. Qed.

Lemma fmap_sub_id (l : list Z) : (fun p => p - 0) <$> l = l.
Proof. rewrite <- (list_fmap_id l) at 2. apply list_fmap_ext. intros. simpl. lia. Qed.

Lemma fmap_sub_add k m (l : list Z) :
  (fun p => p - (m + k)) <$> ((fun p => p + m) <$> l) = (fun p => p - k) <$> l.
Proof. rewrite <- list_fmap_compose. apply list_fmap_ext. intros. simpl. lia. Qed.

Lemma fmap_sub_same m (l : list Z) : (fun p => p - m) <$> ((fun p => p + m) <$> l) = l.
Proof.
  rewrite <- list_fmap_compose. rewrite <- (list_fmap_id l) at 2.
  apply list_fmap_ext. intros. simpl. lia.
Qed.

Lemma cut_zero l : Forall aw_entry_ok l -> cut 0 l l [].
Proof.
  intros Hl. pose proof (tlast_ends_pos l Hl) as Hp.
  split; try done; [by exists 0%nat|]. unfold cut_ends.
  assert (ends_here 0 (tlast_ends 0 l) = false) as ->.
  { destruct Hp; [done|]. apply Z.eqb_neq. lia. }
  by rewrite fmap_sub_id.
Qed.

(** The front entry is taken whole and is the last of its stream packet. *)
Lemma cut_whole_last e l :
  Forall aw_entry_ok (e :: l) -> tlast (aw_nppData e) = true ->
  cut (nz (length (aw_bytes e))) (e :: l) l [aw_nppData e].
Proof.
  intros Hl Ht. apply Forall_cons in Hl as [He Hl]. split; try done.
  - rewrite aw_stream_cons, Nat2Z.id, take_app_length. simpl. apply app_nil_r.
  - by rewrite aw_stream_cons, Nat2Z.id, drop_app_length.
  - by exists 1%nat.
  - cbn [tlast_ends]. rewrite Ht, Z.add_0_l. unfold cut_ends. cbn [ends_here tail].
    rewrite Z.eqb_refl. by rewrite (tlast_ends_shift (nz _)), fmap_sub_same.
  - intros Hz. exfalso. apply (awe_last e He Ht). apply nil_length_inv. lia.
  - by constructor.
  - intros _. simpl. rewrite Ht. simpl. by rewrite Z.eqb_refl.
  - constructor; [apply He|done].
Qed.

(** The front entry is taken whole and the packet goes on. *)
Lemma cut_whole_more e l l' taken k :
  Forall aw_entry_ok (e :: l) -> packets_ok (aw_hdr <$> e :: l) ->
  tlast (aw_nppData e) = false -> 0 <= k -> 0 < nz (length (aw_bytes e)) + k ->
  cut k l l' taken -> cut (nz (length (aw_bytes e)) + k) (e :: l) l' (aw_nppData e :: taken).
Proof.
  intros Hl Hpk Ht Hk Hpos [Hb Hr Hok [n Hn] Htl Hno Hid Hfl Hwf].
  apply Forall_cons in Hl as [He Hl]. set (m := length (aw_bytes e)) in *.
  assert (Hz : zn (nz m + k) = (m + zn k)%nat) by lia.
  assert (Hends : ends_here (nz m + k) (tlast_ends 0 (e :: l)) = ends_here k (tlast_ends 0 l)).
  { simpl. rewrite Ht, tlast_ends_shift. destruct (tlast_ends 0 l) as [|p ps]; [done|]. simpl.
    fold m. destruct (Z.eqb_spec k p), (Z.eqb_spec (nz m + k) (p + nz m)); done || lia. }
  split; try done.
  - rewrite fmap_cons, concat_cons, Hb, Hz, aw_stream_cons, (take_app_add' (aw_bytes e)) by done. done.
  - by rewrite aw_stream_cons, Hz, (drop_app_add' (aw_bytes e)).
  - by exists (S n).
  - unfold cut_ends. rewrite Hends, Htl. unfold cut_ends. cbn [tlast_ends]. rewrite Ht.
    rewrite Z.add_0_l, (tlast_ends_shift (nz _)). fold m.
    destruct (ends_here k (tlast_ends 0 l)); [|by rewrite fmap_sub_add].
    destruct (tlast_ends 0 l); [done|]. rewrite fmap_cons. cbn [tail]. by rewrite fmap_sub_add.
  - lia.
  - constructor; [done|]. destruct l as [|e2 l]; [by destruct Hid|].
    destruct Hpk as [Hid12 _]. simpl in Hid, Hid12 |- *. by rewrite Hid12.
  - intros _. rewrite Hends. destruct (Z.eq_dec k 0) as [->|Hk0].
    + rewrite (Hno eq_refl) in *. simpl. rewrite Ht. pose proof (tlast_ends_pos l Hl) as Hp.
      unfold ends_here. destruct Hp; [done|]. by rewrite (proj2 (Z.eqb_neq _ _)) by lia.
    + rewrite fmap_cons, Ht, Hfl by lia. destruct taken as [|b taken]; [|simpl; by rewrite Nat.sub_0_r].
      specialize (Hfl ltac:(lia)). done.
  - constructor; [apply He|done].
Qed.

(** The front entry is split. *)
Lemma cut_partial e l k lower higher :
  Forall aw_entry_ok (e :: l) -> 0 < k < nz (length (aw_bytes e)) ->
  split_tkeep (tkeep (aw_nppData e)) k = (lower, higher) ->
  cut k (e :: l) (aw_set_remaining e higher (nz (length (aw_bytes e)) - k) :: l)
    [set_tlast false (set_tkeep lower (aw_nppData e))].
Proof.
  intros Hl Hk Hs. apply Forall_cons in Hl as [[Hwf Hrem Hlast] Hl].
  destruct (split_tkeep_kept _ k _ _ Hwf ltac:(lia) Hs) as [Hlo Hhi].
  assert (Hwf2 : forall v, is_u64 v -> axis_wf (set_tkeep v (aw_nppData e))).
  { intros v Hv. destruct Hwf as (? & ? & _). split; [done|]. by split. }
  destruct (split_tkeep_u64 _ _ _ _ (proj2 (proj2 Hwf)) Hs) as [Ul Uh].
  set (e' := aw_set_remaining e higher (nz (length (aw_bytes e)) - k)).
  assert (He' : aw_bytes e' = drop (zn k) (aw_bytes e)) by exact Hhi.
  assert (Hlen : nz (length (aw_bytes e')) = nz (length (aw_bytes e)) - k)
    by (rewrite He', length_drop; lia).
  assert (Hnot : ends_here k (tlast_ends 0 (e :: l)) = false).
  { simpl. destruct (tlast (aw_nppData e)); [simpl; apply Z.eqb_neq; lia|].
    rewrite tlast_ends_shift. destruct (tlast_ends_pos l Hl) as [|p ps]; [done|].
    simpl. apply Z.eqb_neq. lia. }
  split; try done.
  - rewrite aw_stream_cons, take_app_le by lia. simpl. rewrite app_nil_r. exact Hlo.
  - rewrite aw_stream_cons, He'. by rewrite aw_stream_cons, drop_app_le by lia.
  - constructor; [|done]. split; [by apply Hwf2|by rewrite Hlen|].
    intros _ Hnil. rewrite Hnil in Hlen. simpl in Hlen. lia.
  - by exists 0%nat.
  - unfold cut_ends. rewrite Hnot. cbn [tlast_ends]. fold e'. rewrite Hlen.
    rewrite (tlast_ends_shift (0 + _)), (tlast_ends_shift (0 + nz _)).
    destruct (tlast (aw_nppData e)) eqn:Et;
      change (tlast (aw_nppData e')) with (tlast (aw_nppData e)); rewrite Et, ?fmap_cons;
      try (apply (f_equal2 cons); [lia|]); rewrite <- list_fmap_compose;
      apply list_fmap_ext; intros; simpl; lia.
  - lia.
  - by constructor.
  - intros _. by rewrite Hnot.
  - constructor; [|done]. by apply Hwf2 in Ul.
Qed.

(** ** The pop loop cuts the packet *)

Definition payload_grows (p p' : axisPayload) (taken : list axisData) (k : Z) : Prop :=
  ap_beats p' = ap_beats p ++ taken /\ ap_totalBytes p' = ap_totalBytes p + k /\
  ap_numBeats p' = ap_numBeats p + nz (length taken) /\ ap_last p' = ap_last p /\
  length (ap_debugIds p') = (length (ap_debugIds p) + length taken)%nat.

Lemma payload_grows_add p b dbg k :
  axis_getTotalByteSize b = k -> payload_grows p (axisPayload_add p b dbg) [b] k.
Proof.
  intros <-. unfold payload_grows. simpl. split_and!; try done. by rewrite length_app.
Qed.
Lemma payload_grows_trans p1 p2 p3 t1 t2 k1 k2 :
  payload_grows p1 p2 t1 k1 -> payload_grows p2 p3 t2 k2 ->
  payload_grows p1 p3 (t1 ++ t2) (k1 + k2).
Proof.
  intros (B1 & T1 & N1 & L1 & D1) (B2 & T2 & N2 & L2 & D2).
  split_and!; [by rewrite B2, B1, app_assoc|lia| |congruence|]; rewrite ?length_app; lia.
Qed.

Definition pop_out (out : out_params) (l : list axisWriteBufferEntry) (k : Z) : out_params :=
  match out, l with
  | None, e :: _ => if 0 <? k then Some (aw_vc e, aw_oPort e, aw_debugId e) else None
  | _, _ => out
  end.

Lemma entry_total e : aw_entry_ok e -> axis_getTotalByteSize (aw_nppData e) = nz (length (aw_bytes e)).
Proof. intros [[Hw _] _ _]. by apply axis_getTotalByteSize_kept. Qed.

Lemma entry_bytes_le e : aw_entry_ok e -> nz (length (aw_bytes e)) <= 64.
Proof.
  intros He. rewrite <- (entry_total e He). apply axis_getTotalByteSize_range. apply He.
Qed.

(** No TLAST position lies strictly inside the first [k] bytes. *)
Definition no_tlast_before (k : Z) (l : list axisWriteBufferEntry) : Prop :=
  Forall (fun p => k <= p) (tlast_ends 0 l).

Lemma no_tlast_before_cons k e l :
  no_tlast_before k (e :: l) ->
  (tlast (aw_nppData e) = true -> k <= nz (length (aw_bytes e))) /\
  (tlast (aw_nppData e) = false -> no_tlast_before (k - nz (length (aw_bytes e))) l).
Proof.
  unfold no_tlast_before. simpl. destruct (tlast (aw_nppData e)).
  - intros Hf. apply Forall_cons in Hf as [Hk _]. split; [intros _; lia|done].
  - rewrite tlast_ends_shift, Forall_fmap. intros Hf. split; [done|]. intros _.
    eapply Forall_impl; [exact Hf|]. simpl. lia.
Qed.

Lemma popLoop_stop l ret out P size : popLoop l ret out P P size = (l, ret, out, size).
Proof. destruct l; cbn [popLoop]; [done|]. by rewrite Z.ltb_irrefl. Qed.

Lemma popLoop_cut l ret out P T size :
  Forall aw_entry_ok l -> packets_ok (aw_hdr <$> l) ->
  0 <= T - P <= nz (length (aw_stream l)) -> no_tlast_before (T - P) l ->
  T - P <= size < 65536 ->
  exists l' ret' taken, popLoop l ret out P T size = (l', ret', pop_out out l (T - P), size - (T - P)) /\
    payload_grows ret ret' taken (T - P) /\ cut (T - P) l l' taken.
Proof.
  revert ret out P size. induction l as [|e l IH]; intros ret out P size Hok Hpk Hk Hnt Hsz.
  all: destruct (Z.eq_dec (T - P) 0) as [H0|H0].
  1,3: assert (T = P) as -> by lia; rewrite popLoop_stop, Z.sub_diag, Z.sub_0_r;
    eexists _, _, []; split; [unfold pop_out; by destruct out|];
    split; [unfold payload_grows; simpl; rewrite app_nil_r, !Z.add_0_r, Nat.add_0_r; done|
            by apply cut_zero].
  { simpl in Hk. unfold aw_stream in Hk. simpl in Hk. lia. }
  pose proof Hok as Hok'. apply Forall_cons in Hok' as [He Hokl].
  rewrite aw_stream_cons, length_app in Hk. destruct (no_tlast_before_cons _ _ _ Hnt) as [Ht1 Ht2].
  cbn [popLoop]. rewrite (proj2 (Z.ltb_lt _ _)) by lia. rewrite (awe_rem e He).
  assert (Ho : (match out with None => Some (aw_vc e, aw_oPort e, aw_debugId e) | Some _ => out end)
               = pop_out out (e :: l) (T - P)).
  { unfold pop_out. destruct out; [done|]. by rewrite (proj2 (Z.ltb_lt _ _)) by lia. }
  rewrite Ho. set (m := nz (length (aw_bytes e))) in *.
  destruct (Z.leb_spec m (T - P)) as [Hm|Hm].
  - assert (Hadd : payload_grows ret (axisPayload_add ret (aw_nppData e) (aw_debugId e)) [aw_nppData e] m)
      by by apply payload_grows_add, entry_total.
    rewrite u16_small by lia. destruct (tlast (aw_nppData e)) eqn:Et.
    + assert (T = P + m) as -> by (specialize (Ht1 eq_refl); lia). rewrite popLoop_stop.
      replace (P + m - P) with m by lia. eexists _, _, _. split; [done|].
      split; [exact Hadd|by apply cut_whole_last].
    + destruct (IH (axisPayload_add ret (aw_nppData e) (aw_debugId e)) (pop_out out (e :: l) (T - P))
        (P + m) (size - m)) as (l' & ret' & taken & Heq & Hg & Hc); try (done || lia).
      * by apply packets_ok_tail in Hpk.
      * replace (T - (P + m)) with (T - P - m) by lia. by apply Ht2.
      * rewrite Heq. eexists _, _, _. split; [|split].
        -- f_equal; [|lia]. f_equal. rewrite <- Ho. by destruct out, l.
        -- replace (T - P) with (m + (T - (P + m))) by lia. exact (payload_grows_trans _ _ _ _ _ _ _ Hadd Hg).
        -- replace (T - P) with (m + (T - (P + m))) by lia. apply cut_whole_more; done || lia.
  - destruct (split_tkeep (tkeep (aw_nppData e)) (T - P)) as [lower higher] eqn:Es.
    pose proof (entry_bytes_le e He). rewrite !u16_small by lia. eexists _, _, _. split; [reflexivity|].
    pose proof (cut_partial e l (T - P) _ _ Hok ltac:(lia) Es) as Hc. split; [|exact Hc].
    apply payload_grows_add. destruct Hc as [Hb _ _ _ _ _ _ _ Hwf]. inversion Hwf as [|? ? Hwf' _].
    rewrite axis_getTotalByteSize_kept by apply Hwf'. simpl in Hb. rewrite app_nil_r in Hb.
    rewrite Hb, aw_stream_cons, length_take, length_app. lia.
Qed.

(** ** The next packet *)

Lemma tlast_ends_ge off l : Forall (fun p => off <= p) (tlast_ends off l).
Proof.
  revert off. induction l as [|e l IH]; intros off; simpl; [constructor|].
  assert (Hr : Forall (fun p => off <= p) (tlast_ends (off + nz (length (aw_bytes e))) l))
    by (eapply Forall_impl; [apply IH|simpl; lia]).
  destruct (tlast (aw_nppData e)); [constructor; [lia|done]|done].
Qed.

Lemma tlast_ends_head off l p ps : tlast_ends off l = p :: ps -> Forall (fun q => p <= q) ps.
Proof.
  revert off. induction l as [|e l IH]; intros off; simpl; [done|].
  destruct (tlast (aw_nppData e)); [|apply IH]. intros [= <- <-]. apply tlast_ends_ge.
Qed.

Lemma next_cut l size :
  Forall aw_entry_ok l -> size = nz (length (aw_stream l)) -> size < 2 ^ 16 ->
  let k := computeNextDequeuePos (tlast_ends 0 l) size in
  (k = -1 /\ tlast_ends 0 l = [] /\ size < 64) \/
  (1 <= k <= 64 /\ k <= size /\ no_tlast_before k l /\
   (k = 64 \/ ends_here k (tlast_ends 0 l) = true)).
Proof.
  intros Hok Hsz Hb. simpl. pose proof (tlast_ends_pos l Hok) as Hpos.
  pose proof (tlast_ends_le l) as Hle. unfold no_tlast_before, computeNextDequeuePos, NPP_SIZE, NPP_MAX_SIZE.
  destruct (tlast_ends 0 l) as [|p ps] eqn:E.
  - destruct (Z.leb_spec 64 size); [right|left]; [|done]. split_and!; [lia..|constructor|by left].
  - pose proof (tlast_ends_head _ _ _ _ E) as Hh.
    apply Forall_cons in Hpos as [Hp _]. apply Forall_cons in Hle as [Hpl _].
    rewrite u64_small by lia. right. destruct (Z.leb_spec p 64).
    + split_and!; [lia..| |right; simpl; apply Z.eqb_refl]. constructor; [lia|done].
    + rewrite (proj2 (Z.leb_le 64 size)) by lia. split_and!; [lia..| |by left].
      constructor; [lia|]. eapply Forall_impl; [exact Hh|]. simpl. lia.
Qed.

Definition payload_bytes (p : axisPayload) : list Z := concat (kept_bytes <$> ap_beats p).

Lemma popNextPacket_cut w :
  aw_inv w -> nextDequeuePos w <> -1 ->
  let k := nextDequeuePos w in
  exists ret w', popNextPacket w = (ret, pop_out None (aw_writeBuffer w) k, w') /\
    1 <= k <= 64 /\ ap_totalBytes ret = k /\
    ap_last ret = Z.b2z (ends_here k (tlastPositions w)) /\
    (k = 64 \/ ends_here k (tlastPositions w) = true) /\
    cut k (aw_writeBuffer w) (aw_writeBuffer w') (ap_beats ret) /\ aw_inv w'.
Proof.
  intros [Hok Hsz Hb Htl Hnx Hpk Hop] Hne k.
  destruct (next_cut _ _ Hok Hsz Hb) as [(Hk & _)|(Hk & Hks & Hnt & Hfull)];
    rewrite <- Htl, <- Hnx in *; fold k in Hk; [done|].
  destruct (popLoop_cut (aw_writeBuffer w) axisPayload_empty None 0 k (aw_bufferSize w))
    as (l' & ret' & taken & Hp & (Hbt & Htot & _ & Hlst & _) & Hc);
    rewrite ?Z.sub_0_r; try (done || lia). rewrite Z.sub_0_r in *.
  assert (Hlen : nz (length (aw_stream l')) = aw_bufferSize w - k)
    by (rewrite (cut_rest _ _ _ _ Hc), length_drop; lia).
  unfold popNextPacket. fold k. rewrite Hp. fold (ends_here k (tlastPositions w)).
  eexists _, _. split; [reflexivity|]. simpl in Hbt, Htot.
  split_and!; [lia|lia| | |done| |].
  - by destruct (ends_here _ _).
  - destruct (ends_here k (tlastPositions w)); [done|]. by rewrite Hlst.
  - simpl. destruct (ends_here _ _); simpl; by rewrite Hbt.
  - destruct (cut_hdrs _ _ _ _ Hc) as [n Hn].
    split; simpl; [apply (cut_ok _ _ _ _ Hc)|lia|lia| |done| |].
    + rewrite (cut_tlasts _ _ _ _ Hc), <- Htl. done.
    + rewrite Hn. by apply packets_ok_drop.
    + intros h Hh. apply Hop. rewrite Hn, last_lookup, lookup_drop, length_drop in Hh.
      rewrite last_lookup. rewrite <- Hh. f_equal.
      apply lookup_lt_Some in Hh. lia.
Qed.

(** A packet cut from the buffer: one stream identity, TLAST at most at its end
    and flagged by [last], 1 to 64 bytes, and 64 unless it ends a stream packet. *)
Record npp_ok (p : axisPayload) : Prop := {
  npp_wf : Forall axis_wf (ap_beats p);
  npp_ids : exists i d, Forall (fun b => tid b = i /\ tdest b = d) (ap_beats p);
  npp_flags : tlast <$> ap_beats p = replicate (length (ap_beats p) - 1) false ++ [ap_last p =? 1];
  npp_total : ap_totalBytes p = nz (length (payload_bytes p));
  npp_range : 1 <= ap_totalBytes p <= 64;
  npp_last : ap_last p = 0 \/ ap_last p = 1;
  npp_full : ap_last p = 0 -> ap_totalBytes p = 64
}.

Lemma popNextPacket_npp w :
  aw_inv w -> nextDequeuePos w <> -1 ->
  exists ret w', popNextPacket w = (ret, pop_out None (aw_writeBuffer w) (nextDequeuePos w), w') /\
    npp_ok ret /\ aw_inv w' /\
    payload_bytes ret ++ aw_stream (aw_writeBuffer w') = aw_stream (aw_writeBuffer w).
Proof.
  intros Hi Hne.
  destruct (popNextPacket_cut w Hi Hne) as (ret & w' & Hp & Hk & Ht & Hl & Hmax & Hc & Hi').
  assert (Hks : nextDequeuePos w <= nz (length (aw_stream (aw_writeBuffer w)))).
  { destruct (next_cut _ _ (awi_entries w Hi) (awi_size w Hi) (awi_bound w Hi)) as [(H1 & _)|(_ & H1 & _)];
      rewrite <- (awi_tlasts w Hi), <- (awi_next w Hi), ?(awi_size w Hi) in H1; lia. }
  exists ret, w'. split; [exact Hp|]. split_and!; [|done|].
  - split.
    + apply (cut_wf _ _ _ _ Hc).
    + pose proof (cut_ids _ _ _ _ Hc) as Hid. destruct (head _) as [[[i d] b]|].
      * exists i, d. eapply Forall_impl; [exact Hid|]. by intros ? [= -> ->].
      * exists 0, 0. eapply Forall_impl; [exact Hid|]. done.
    + rewrite (cut_flags _ _ _ _ Hc), Hl, <- (awi_tlasts w Hi) by lia.
      by destruct (ends_here _ (tlastPositions w)).
    + unfold payload_bytes. rewrite (cut_bytes _ _ _ _ Hc), length_take. lia.
    + lia.
    + rewrite Hl. destruct (ends_here _ _); [by right|by left].
    + rewrite Hl, Ht. destruct Hmax as [->| ->]; done.
  - unfold payload_bytes. by rewrite (cut_bytes _ _ _ _ Hc), (cut_rest _ _ _ _ Hc), take_drop.
Qed.

(** Popping a ready buffer conserves the stream: the packet carries the next
    1 to 64 bytes in order, what is left is the rest, and the invariant holds. *)
Theorem popNextPacket_conserves w :
  aw_inv w -> nextDequeuePos w <> -1 ->
  exists ret out w', popNextPacket w = (ret, out, w') /\ aw_inv w' /\
    payload_bytes ret ++ aw_stream (aw_writeBuffer w') = aw_stream (aw_writeBuffer w) /\
    1 <= ap_totalBytes ret <= 64 /\ nz (length (payload_bytes ret)) = ap_totalBytes ret.
Proof.
  intros Hi Hne. destruct (popNextPacket_npp w Hi Hne) as (ret & w' & Hp & [] & Hi' & Hst).
  by eexists _, _, _.
Qed.

(** A packet never mixes stream packets: its beats have one TID and TDEST, only
    its final beat can carry TLAST, and [last] is set exactly when it does. *)
Theorem popNextPacket_one_packet w :
  aw_inv w -> nextDequeuePos w <> -1 ->
  exists ret out w', popNextPacket w = (ret, out, w') /\
    (exists i d, Forall (fun b => tid b = i /\ tdest b = d) (ap_beats ret)) /\
    tlast <$> ap_beats ret = replicate (length (ap_beats ret) - 1) false ++ [ap_last ret =? 1].
Proof.
  intros Hi Hne. destruct (popNextPacket_npp w Hi Hne) as (ret & w' & Hp & [] & _).
  by eexists _, _, _.
Qed.

(** ** Adding a beat *)

Lemma u32_s32 x : is_u32 x -> u32 (s32 x) = x.
Proof. unfold is_u32, u32, s32. intros. mlia. Qed.

(** A beat the endpoint can drive: TID and TDEST are 32-bit fields, and a TLAST
    beat carries at least one byte. *)
Definition axis_beat_ok (b : axisData) : Prop :=
  axis_wf b /\ is_u32 (tid b) /\ is_u32 (tdest b) /\ (tlast b = true -> kept_bytes b <> []).

(** The test of [add] for a beat of another packet while one is open. *)
Definition breaks_packet (w : axisWriteBuffer) (b : axisData) : bool :=
  transmitting w && (negb (u32 (currTid w) =? tid b) || negb (u32 (currTdest w) =? tdest b)).

Lemma aw_push_inv w b oPort vc dbg :
  aw_inv w -> axis_beat_ok b -> aw_bufferSize w + 64 < 2 ^ 16 ->
  if breaks_packet w b then is_ok (aw_push w b oPort vc dbg) = false
  else exists w', aw_push w b oPort vc dbg = Ok w' /\ aw_inv w' /\
    aw_stream (aw_writeBuffer w') = aw_stream (aw_writeBuffer w) ++ kept_bytes b.
Proof.
  intros [Hok Hsz Hbd Htl Hnx Hpk Hop] (Hwf & Hid & Hds & Hla) Hroom.
  unfold aw_push. fold (breaks_packet w b). destruct (breaks_packet w b) eqn:Hbr; [done|].
  simpl. set (e := newAxisWriteBufferEntry b oPort vc dbg).
  pose proof (axis_getTotalByteSize_range b (proj1 Hwf)) as Hr.
  pose proof (axis_getTotalByteSize_kept b (proj1 Hwf)) as Hkept.
  assert (He : aw_entry_ok e) by by split.
  assert (Hst : aw_stream (aw_writeBuffer w ++ [e]) = aw_stream (aw_writeBuffer w) ++ kept_bytes b).
  { unfold aw_stream. rewrite fmap_app, concat_app. simpl. by rewrite app_nil_r. }
  assert (Hsize : u16 (aw_bufferSize w + u8 (axis_getTotalByteSize b)) =
                  nz (length (aw_stream (aw_writeBuffer w ++ [e])))).
  { rewrite u8_small, u16_small by lia. rewrite Hst, length_app. lia. }
  eexists. split; [reflexivity|]. split; [|exact Hst].
  split; simpl; fold e; rewrite ?Hsize.
  - apply Forall_app. by split; [|constructor].
  - done.
  - rewrite Hst, length_app. lia.
  - rewrite tlast_ends_app, Htl. change (tlast (aw_nppData e)) with (tlast b).
    destruct (tlast b); [done|by rewrite app_nil_r].
  - done.
  - rewrite fmap_app. apply packets_ok_app; [done|]. intros g Hg Hg2.
    destruct (Hop g Hg) as [Hg3 Hg4]. rewrite Hg2 in Hg3. unfold breaks_packet in Hbr.
    destruct (transmitting w); [|done]. rewrite Hg4 by done. simpl in Hbr |- *.
    apply orb_false_iff in Hbr as [H1 H2].
    apply negb_false_iff, Z.eqb_eq in H1. apply negb_false_iff, Z.eqb_eq in H2. by rewrite H1, H2.
  - intros h. rewrite fmap_app. change (aw_hdr <$> [e]) with [aw_hdr e]. rewrite last_snoc. intros [= <-]. simpl. rewrite negb_involutive.
    split; [done|]. intros _. unfold breaks_packet in Hbr. destruct (transmitting w).
    + simpl in Hbr. apply orb_false_iff in Hbr as [H1 H2].
      apply negb_false_iff, Z.eqb_eq in H1. apply negb_false_iff, Z.eqb_eq in H2. by rewrite H1, H2.
    + by rewrite !u32_s32.
Qed.

(** [add] refuses, by a panic, exactly the beats that change TID or TDEST
    inside an open packet; it appends any other beat's bytes to the stream and
    keeps the invariant. *)
Theorem aw_push_spec w b oPort vc dbg :
  aw_inv w -> axis_beat_ok b -> aw_bufferSize w + 64 < 2 ^ 16 ->
  if breaks_packet w b then is_ok (aw_push w b oPort vc dbg) = false
  else exists w', aw_push w b oPort vc dbg = Ok w' /\ aw_inv w' /\
    aw_stream (aw_writeBuffer w') = aw_stream (aw_writeBuffer w) ++ kept_bytes b.
Proof. apply aw_push_inv. Qed.

(** ** Draining the buffer *)

(** Pop until no packet is ready. *)
Fixpoint drain (fuel : nat) (w : axisWriteBuffer) : option (list axisPayload * axisWriteBuffer) :=
  if nextDequeuePos w =? -1 then Some ([], w)
  else match fuel with
  | O => None
  | S fuel =>
      let '(p, _, w') := popNextPacket w in
      match drain fuel w' with
      | Some (ps, w'') => Some (p :: ps, w'')
      | None => None
      end
  end.

Lemma drain_npp n w :
  aw_inv w -> aw_bufferSize w <= nz n ->
  exists ps w', drain n w = Some (ps, w') /\ aw_inv w' /\ Forall npp_ok ps /\
    concat (payload_bytes <$> ps) ++ aw_stream (aw_writeBuffer w') = aw_stream (aw_writeBuffer w) /\
    tlastPositions w' = [] /\ aw_bufferSize w' < 64.
Proof.
  revert w. induction n as [|n IH]; intros w Hi Hle.
  all: destruct (next_cut _ _ (awi_entries w Hi) (awi_size w Hi) (awi_bound w Hi)) as [(H1 & H2 & H3)|H1];
    rewrite <- (awi_tlasts w Hi), <- (awi_next w Hi) in *.
  1,3: exists [], w; cbn [drain]; rewrite H1; split_and!; done || constructor.
  - destruct H1 as (H1 & H2 & _). lia.
  - destruct H1 as (H1 & H2 & _).
    destruct (popNextPacket_npp w Hi ltac:(lia)) as (ret & w1 & Hp & Hnpp & Hi1 & Hst1).
    assert (Hs1 : aw_bufferSize w1 + ap_totalBytes ret = aw_bufferSize w).
    { rewrite (awi_size w1 Hi1), (awi_size w Hi), (npp_total ret Hnpp), <- Hst1, length_app. lia. }
    pose proof (npp_range ret Hnpp).
    destruct (IH w1 Hi1 ltac:(lia)) as (ps & w' & Hd & Hi' & Hall & Hst & Htl & Hsz).
    exists (ret :: ps), w'. cbn [drain]. rewrite (proj2 (Z.eqb_neq _ _)) by lia. rewrite Hp, Hd.
    split_and!; try done; [by constructor|].
    by rewrite fmap_cons, concat_cons, <- app_assoc, Hst.
Qed.

(** draining terminates within one pop per buffered byte, sends the bytes in
    order, leaves fewer than 64 bytes and no TLAST behind, and packs maximally:
    a packet that does not end its stream packet carries exactly 64 bytes. *)
Theorem drain_complete w :
  aw_inv w ->
  exists ps w', drain (zn (aw_bufferSize w)) w = Some (ps, w') /\ aw_inv w' /\
    concat (payload_bytes <$> ps) ++ aw_stream (aw_writeBuffer w') = aw_stream (aw_writeBuffer w) /\
    tlastPositions w' = [] /\ aw_bufferSize w' < 64 /\
    Forall (fun p => 1 <= ap_totalBytes p <= 64 /\ (ap_last p = 0 -> ap_totalBytes p = 64)) ps.
Proof.
  intros Hi. destruct (drain_npp (zn (aw_bufferSize w)) w Hi ltac:(lia))
    as (ps & w' & Hd & Hi' & Hall & Hst & Htl & Hsz).
  exists ps, w'. split_and!; try done. eapply Forall_impl; [exact Hall|]. by intros p [].
Qed.

(** ** TLAST beats without bytes *)

(** An 8-byte beat with the given TKEEP. *)
Definition beat8 (keep dst : Z) (lst : bool) : axisData :=
  set_tkeep keep (axisData_of_bytes [1; 2; 3; 4; 5; 6; 7; 8] 64 6 4 1 dst lst true).

(** A TLAST beat without bytes stays behind when its packet is cut, and leads
    the next packet: the packet of the stream to TDEST 2 is returned with the
    port and virtual channel of, and TDEST 1 in front from, the previous one. *)
Theorem aw_empty_tlast_leads_next_packet :
  (let* w1 := aw_push axisWriteBuffer_empty (beat8 15 1 false) (Some 1) 0 10 in
   let* w2 := aw_push w1 (beat8 0 1 true) (Some 1) 0 11 in
   let '(p1, _, w3) := popNextPacket w2 in
   let* w4 := aw_push w3 (beat8 240 2 true) (Some 2) 3 12 in
   let '(p2, out, _) := popNextPacket w4 in
   Ok (payload_bytes p1, payload_bytes p2, tdest <$> ap_beats p2, out)) =
  Ok ([1; 2; 3; 4], [5; 6; 7; 8], [1; 2], Some (0, Some 1, 11)).
Proof. by vm_compute. Qed.

(** *** Witnesses *)

(** A buffer holding one 8-byte packet. *)
Definition aw_example : axisWriteBuffer :=
  {| aw_writeBuffer := [newAxisWriteBufferEntry (beat8 255 1 true) (Some 1) 0 10];
     aw_bufferSize := 8; currTid := 1; currTdest := 1; transmitting := false;
     tlastPositions := [8]; nextDequeuePos := 8 |}.

Lemma beat8_ok keep dst : is_u64 keep -> is_u32 dst -> axis_beat_ok (beat8 keep dst false).
Proof. intros Hk Hd. split; [|split; [|split]]; done || (split; [|split]; done). Qed.

Lemma aw_example_inv : aw_inv aw_example.
Proof.
  split; try by vm_compute.
  - constructor; [|constructor]. split; [split; [|split]|..]; by vm_compute.
  - intros h [= <-]. done.
Qed.

Lemma aw_empty_inv : aw_inv axisWriteBuffer_empty.
Proof. split; by vm_compute || constructor. Qed.

Lemma popNextPacket_conserves_witness :
  exists ret out w', popNextPacket aw_example = (ret, out, w') /\ aw_inv w' /\
    payload_bytes ret ++ aw_stream (aw_writeBuffer w') = [1; 2; 3; 4; 5; 6; 7; 8] /\
    1 <= ap_totalBytes ret <= 64 /\ nz (length (payload_bytes ret)) = ap_totalBytes ret.
Proof. apply (popNextPacket_conserves aw_example aw_example_inv). by vm_compute. Defined.

Lemma popNextPacket_one_packet_witness :
  exists ret out w', popNextPacket aw_example = (ret, out, w') /\
    (exists i d, Forall (fun b => tid b = i /\ tdest b = d) (ap_beats ret)) /\
    tlast <$> ap_beats ret = replicate (length (ap_beats ret) - 1) false ++ [ap_last ret =? 1].
Proof. apply (popNextPacket_one_packet aw_example aw_example_inv). by vm_compute. Defined.

Lemma aw_push_spec_witness :
  exists w', aw_push axisWriteBuffer_empty (beat8 15 1 false) (Some 1) 0 10 = Ok w' /\ aw_inv w' /\
    aw_stream (aw_writeBuffer w') = [] ++ [1; 2; 3; 4].
Proof.
  apply (aw_push_spec axisWriteBuffer_empty (beat8 15 1 false) (Some 1) 0 10 aw_empty_inv);
    [by apply beat8_ok|by vm_compute].
Defined.

Lemma drain_complete_witness :
  exists ps w', drain 8 aw_example = Some (ps, w') /\ aw_inv w' /\
    concat (payload_bytes <$> ps) ++ aw_stream (aw_writeBuffer w') = [1; 2; 3; 4; 5; 6; 7; 8] /\
    tlastPositions w' = [] /\ aw_bufferSize w' < 64 /\
    Forall (fun p => 1 <= ap_totalBytes p <= 64 /\ (ap_last p = 0 -> ap_totalBytes p = 64)) ps.
Proof. exact (drain_complete aw_example aw_example_inv). Defined.
