(* ===== verification/AxisDepack.v ===== *)
(** * From AXI-Stream packet to endpoint beats

    [NocStreamMsg::getFlitData] ([src/src/noc/core/network/NocStreamMsg.cc]) reads
    the 16 bytes a flit stands for out of the packet's payload, and
    [depacketizeAxisPayloadFlit]
    ([src/src/noc/core/network/nsu_types/AxisDepacketizer.cc]) turns arriving
    flits into beats of the endpoint's width.  Wide beats are collected over
    several flits in [aggregateData], which the slave unit clears when the head
    flit of a packet arrives. *)

From S2P Require Import Prelude AxiTypes AxisWriteBuffer.

(** ** NocStreamMsg::getFlitData *)

(** The lane loop over one beat: [inl] is the early [return], [inr] the values of
    [valid_pos], [out_idx] and [flit_data] at the end of the beat. *)
Fixpoint flitLanes (keep : Z) (lane : nat) (data : list Z) (flit_start flit_end : Z)
    (valid_pos : Z) (out_idx : nat) (flit_data : list Z)
    : list Z + (Z * nat * list Z) :=
  match data with
  | [] => inr (valid_pos, out_idx, flit_data)
  | b :: data =>
      if Z.testbit keep (nz lane) then
        let take := (flit_start <=? valid_pos) && (valid_pos <? flit_end) && (out_idx <? 16)%nat in
        let flit_data' := if take then <[out_idx := b]> flit_data else flit_data in
        let out_idx' := if take then S out_idx else out_idx in
        if (flit_end <=? valid_pos + 1) && (16 <=? out_idx')%nat then inl flit_data'
        else flitLanes keep (S lane) data flit_start flit_end (valid_pos + 1) out_idx' flit_data'
      else flitLanes keep (S lane) data flit_start flit_end valid_pos out_idx flit_data
  end.
Fixpoint flitBeats (beats : list axisData) (flit_start flit_end : Z)
    (valid_pos : Z) (out_idx : nat) (flit_data : list Z) : list Z :=
  match beats with
  | [] => flit_data
  | b :: beats =>
      match flitLanes (tkeep b) 0 (tdata b) flit_start flit_end valid_pos out_idx flit_data with
      | inl r => r
      | inr (v, o, d) => flitBeats beats flit_start flit_end v o d
      end
  end.
(** [NocStreamMsg::getFlitData] *)
Definition getFlitData (p : axisPayload) (flit_id : Z) : list Z :=
  flitBeats (ap_beats p) (flit_id * 16) (flit_id * 16 + 16) 0 0 (zeros 16).

(** ** AxisDepacketizer *)

(** The overlap loop of [debugIdsForNppByteRange]. *)
Fixpoint debugIdsLoop (beats : list axisData) (ids : list Z) (startByte endByte cum : Z)
    (out : list Z) : list Z :=
  match beats, ids with
  | b :: beats, i :: ids =>
      let bsz := axis_getTotalByteSize b in
      if bsz <=? 0 then debugIdsLoop beats ids startByte endByte cum out
      else
        let overlaps := (startByte <? cum + bsz) && (cum <? endByte) in
        let out' := if overlaps && negb (existsb (Z.eqb i) out) then out ++ [i] else out in
        if endByte <=? cum + bsz then out'
        else debugIdsLoop beats ids startByte endByte (cum + bsz) out'
  | _, _ => out
  end.
Definition debugIdsForNppByteRange (ap : axisPayload) (startByte nbytes fallback : Z) : list Z :=
  let dflt := if 0 <=? fallback then [fallback] else [] in
  if nbytes <=? 0 then dflt
  else if negb (length (ap_beats ap) =? length (ap_debugIds ap))%nat || (length (ap_beats ap) =? 0)%nat
  then dflt
  else match debugIdsLoop (ap_beats ap) (ap_debugIds ap) startByte (startByte + nbytes) 0 [] with
       | [] => dflt
       | out => out
       end.

Definition tkeepForValidBytes (validBytes : Z) : Z :=
  if 64 <=? validBytes then 0xFFFFFFFFFFFFFFFF
  else if validBytes <=? 0 then 0
  else u64 (Z.shiftl 1 validBytes) - 1.

(** The loop of [findSourceBeatForByteRange]. *)
Fixpoint findSourceLoop (beats : list axisData) (startByte endByte cum : Z) : option axisData :=
  match beats with
  | [] => None
  | b :: beats =>
      let bsz := axis_getTotalByteSize b in
      if bsz <=? 0 then findSourceLoop beats startByte endByte cum
      else if (startByte <? cum + bsz) && (cum <? endByte) then Some b
      else if endByte <=? cum + bsz then None
      else findSourceLoop beats startByte endByte (cum + bsz)
  end.
Definition findSourceBeatForByteRange (source : axisPayload) (startByte nbytes : Z)
    : option axisData :=
  if nbytes <=? 0 then None
  else findSourceLoop (ap_beats source) startByte (startByte + nbytes) 0.

Definition applySidebandForByteRange (source : axisPayload) (beat : axisData)
    (startByte nbytes : Z) : axisData :=
  match findSourceBeatForByteRange source startByte nbytes with
  | None => beat
  | Some original => set_sideband (tid original) (tdest original) (tuser original) beat
  end.

Record AxisDepacketizedFlit := mk_AxisDepacketizedFlit {
  df_payloads : list axisData;
  df_debugIds : list (list Z)
}.

(** The beat built from the first [widthBytes] of [aggregateData]. *)
Definition depackBeat (payload : axisPayload) (sDataWidth : Z) (aggregateData : list Z)
    (lst : bool) (startByte valid : Z) : axisData :=
  applySidebandForByteRange payload
    (set_tkeep (tkeepForValidBytes valid)
       (axisData_of_bytes (take (zn (sDataWidth / 8)) aggregateData) sDataWidth 6 4 0 0 lst true))
    startByte valid.

(** The widths below a flit: sub-beat [i] of the flit's [16 / widthBytes]. *)
Definition lastValidSubBeat (beatsPerFlit : nat) (widthBytes flitValid : Z) : Z :=
  foldl (fun l i => if 0 <? Z.max 0 (flitValid - nz i * widthBytes) then nz i else l)
    (-1) (seq 0 beatsPerFlit).
Definition narrowSubBeat (payload : axisPayload) (sDataWidth bytesBefore flitValid : Z)
    (flitData : list Z) (lastSub : Z) (tailLast : bool) (fallback : Z)
    (s : list Z * AxisDepacketizedFlit) (i : nat) : list Z * AxisDepacketizedFlit :=
  let '(agg, r) := s in
  let widthBytes := sDataWidth / 8 in
  let base := nz i * widthBytes in
  let cpy := Z.min widthBytes (Z.max 0 (flitValid - base)) in
  if cpy <=? 0 then s
  else
    let agg1 := copy_into agg 0 (zeros (zn widthBytes)) in
    let agg2 := copy_into agg1 0 (slice flitData (zn base) (zn cpy)) in
    (agg2,
     {| df_payloads := df_payloads r ++
          [depackBeat payload sDataWidth agg2 (tailLast && (nz i =? lastSub)) (bytesBefore + base) cpy];
        df_debugIds := df_debugIds r ++
          [debugIdsForNppByteRange payload (bytesBefore + base) cpy fallback] |}).

(** [depacketizeAxisPayloadFlit]: the new [aggregateData] and the result. *)
Definition depacketizeAxisPayloadFlit (payload : axisPayload) (sDataWidth : Z)
    (aggregateData : list Z) (flitId numFlits : Z) (streamLast : bool) (flitData : list Z)
    (fallbackDebugId : Z) : res (list Z * AxisDepacketizedFlit) :=
  guard (sDataWidth mod 8 =? 0) (FThrow "AXIS NSU data width must be byte aligned") (
  let widthBytes := sDataWidth / 8 in
  guard (negb ((widthBytes =? 0) || (64 <? widthBytes)))
    (FThrow "AXIS NSU data width must be 1..64 bytes") (
  let isTailFlit := (0 <? numFlits) && (numFlits - 1 =? flitId) in
  let totalValid := ap_totalBytes payload in
  let bytesBefore := flitId * 16 in
  let flitValid := Z.min 16 (Z.max 0 (totalValid - bytesBefore)) in
  let tailLast := isTailFlit && streamLast in
  if widthBytes <? 16 then
    let beatsPerFlit := zn (16 / widthBytes) in
    let lastSub := lastValidSubBeat beatsPerFlit widthBytes flitValid in
    Ok (foldl (narrowSubBeat payload sDataWidth bytesBefore flitValid flitData lastSub tailLast
                 fallbackDebugId)
          (aggregateData, {| df_payloads := []; df_debugIds := [] |}) (seq 0 beatsPerFlit))
  else if widthBytes =? 16 then
    let agg1 := copy_into aggregateData 0 (zeros (zn widthBytes)) in
    let agg2 := copy_into agg1 0 (slice flitData 0 (zn flitValid)) in
    Ok (agg2,
        {| df_payloads := [depackBeat payload sDataWidth agg2 tailLast bytesBefore flitValid];
           df_debugIds := [debugIdsForNppByteRange payload bytesBefore flitValid fallbackDebugId] |})
  else
    let flitsPerBeat := widthBytes / 16 in
    guard (negb ((flitsPerBeat =? 0) || negb (widthBytes mod 16 =? 0)))
      (FThrow "AXIS NSU data width above 16 bytes must be a multiple of 16") (
    let agg := copy_into aggregateData (zn (flitId mod flitsPerBeat * 16))
                 (slice flitData 0 (zn flitValid)) in
    if ((flitId + 1) mod flitsPerBeat =? 0) || isTailFlit then
      let beatStart := flitId / flitsPerBeat * widthBytes in
      let beatEnd := beatStart + widthBytes in
      let bytesUpToPrev := Z.min totalValid beatStart in
      let bytesUpToThisBeat := Z.min totalValid beatEnd in
      let validInBeat := Z.min widthBytes (Z.max 0 (bytesUpToThisBeat - bytesUpToPrev)) in
      Ok (agg,
          {| df_payloads := [depackBeat payload sDataWidth agg tailLast beatStart validInBeat];
             df_debugIds := [debugIdsForNppByteRange payload beatStart validInBeat fallbackDebugId] |})
    else Ok (agg, {| df_payloads := []; df_debugIds := [] |})))).

(** ** The bytes of a flit *)

(** The kept lanes of [data], the first being lane [lane]. *)
Fixpoint lane_bytes (keep : Z) (lane : nat) (data : list Z) : list Z :=
  match data with
  | [] => []
  | b :: data =>
      if Z.testbit keep (nz lane) then b :: lane_bytes keep (S lane) data
      else lane_bytes keep (S lane) data
  end.

Lemma lane_bytes_snoc keep lane data b :
  lane_bytes keep lane (data ++ [b]) =
    lane_bytes keep lane data ++ (if Z.testbit keep (nz (lane + length data)) then [b] else []).
Proof.
  revert lane. induction data as [|c data IH]; intros lane; simpl.
  - rewrite Nat.add_0_r. by destruct (Z.testbit keep (nz lane)).
  - rewrite IH. replace (lane + S (length data))%nat with (S lane + length data)%nat by lia.
    by destruct (Z.testbit keep (nz lane)).
Qed.

Lemma lane_bytes_idx keep data :
  lane_bytes keep 0 data = byte_at data <$> tkeep_idx keep (length data).
Proof.
  induction data as [|b data IH] using rev_ind; [done|].
  rewrite lane_bytes_snoc, IH, length_app, Nat.add_1_r, tkeep_idx_S, fmap_app. f_equal.
  - apply list_fmap_ext. intros j i Hi. unfold byte_at. rewrite app_nth1; [done|].
    apply list_elem_of_lookup_2, list_elem_of_filter in Hi as [_ Hi]. apply elem_of_seq in Hi. lia.
  - simpl. destruct (Z.testbit keep (nz (length data))); [|done]. simpl. unfold byte_at.
    by rewrite app_nth2, Nat.sub_diag by lia.
Qed.

Lemma lane_bytes_kept d : axis_wf d -> lane_bytes (tkeep d) 0 (tdata d) = kept_bytes d.
Proof. intros (_ & Hl & _). rewrite lane_bytes_idx, Hl. done. Qed.

(** Flit [f]'s window of a byte sequence, and the flit padded to 16 bytes. *)
Definition flit_window (start : nat) (l : list Z) : list Z := take 16 (drop start l).

Lemma flit_window_snoc start l b :
  flit_window start (l ++ [b]) =
    if decide (start <= length l < start + 16)%nat then flit_window start l ++ [b]
    else flit_window start l.
Proof.
  unfold flit_window. case_decide.
  - rewrite drop_app_le, take_app_ge, length_drop by (rewrite ?length_drop; lia).
    rewrite (take_ge (drop start l)), (take_ge [b]) by (rewrite ?length_drop; simpl; lia). done.
  - destruct (decide (length l < start)%nat).
    + by rewrite !drop_ge by (rewrite ?length_app; simpl; lia).
    + rewrite drop_app_le by lia. rewrite take_app_le by (rewrite length_drop; lia). done.
Qed.

Lemma flit_window_full start l k :
  (start + 16 <= length l)%nat -> flit_window start (l ++ k) = flit_window start l.
Proof.
  intros Hl. unfold flit_window. rewrite drop_app_le by lia.
  apply take_app_le. rewrite length_drop. lia.
Qed.

Lemma length_flit_window start l : length (flit_window start l) = Nat.min 16 (length l - start).
Proof. unfold flit_window. by rewrite length_take, length_drop. Qed.

Lemma insert_resize (l : list Z) b n :
  (length l < n)%nat -> <[length l := b]> (resize n 0 l) = resize n 0 (l ++ [b]).
Proof.
  intros Hl. rewrite !resize_ge by (rewrite ?length_app; simpl; lia).
  rewrite length_app. simpl. replace (n - length l)%nat with (S (n - (length l + 1)))%nat by lia.
  simpl. rewrite insert_app_r_alt, Nat.sub_diag by lia. simpl. by rewrite <- app_assoc.
Qed.

(** The state of the loops after the bytes [pre]. *)
Definition flit_state (start : nat) (pre : list Z) (s : Z * nat * list Z) : Prop :=
  s = (nz (length pre), length (flit_window start pre), resize 16 0 (flit_window start pre)).

Lemma flit_take start pre b :
  let tk := (nz start <=? nz (length pre)) && (nz (length pre) <? nz start + 16) &&
            (length (flit_window start pre) <? 16)%nat in
  (if tk then <[length (flit_window start pre) := b]> (resize 16 0 (flit_window start pre))
   else resize 16 0 (flit_window start pre)) = resize 16 0 (flit_window start (pre ++ [b])) /\
  (if tk then S (length (flit_window start pre)) else length (flit_window start pre)) =
    length (flit_window start (pre ++ [b])).
Proof.
  simpl. pose proof (length_flit_window start pre) as Hlw.
  rewrite flit_window_snoc. case_decide as Hd.
  - rewrite (proj2 (Z.leb_le _ _)), (proj2 (Z.ltb_lt _ _)), (proj2 (Nat.ltb_lt _ _)) by lia. simpl.
    rewrite insert_resize, length_app by lia. simpl. split; [done|lia].
  - destruct (Z.leb_spec (nz start) (nz (length pre))), (Z.ltb_spec (nz (length pre)) (nz start + 16));
      done || (exfalso; lia).
Qed.

Lemma flitLanes_spec keep lane data start pre :
  match flitLanes keep lane data (nz start) (nz start + 16) (nz (length pre))
          (length (flit_window start pre)) (resize 16 0 (flit_window start pre)) with
  | inl r => forall post, r = resize 16 0 (flit_window start (pre ++ lane_bytes keep lane data ++ post))
  | inr s => flit_state start (pre ++ lane_bytes keep lane data) s
  end.
Proof.
  revert lane pre. induction data as [|b data IH]; intros lane pre; cbn [flitLanes lane_bytes].
  { unfold flit_state. by rewrite app_nil_r. }
  destruct (Z.testbit keep (nz lane)); [|apply IH].
  destruct (flit_take start pre b) as [Hd Ho]. rewrite Hd, Ho.
  assert (Hlen : nz (length pre) + 1 = nz (length (pre ++ [b]))) by (rewrite length_app; simpl; lia).
  destruct (Z.leb_spec (nz start + 16) (nz (length pre) + 1)) as [Hge|];
    [destruct (Nat.leb_spec 16 (length (flit_window start (pre ++ [b]))))|]; simpl.
  1: { intros post. rewrite <- (flit_window_full start (pre ++ [b]) (lane_bytes keep (S lane) data ++ post))
         by lia. by rewrite <- app_assoc. }
  all: rewrite Hlen; pose proof (IH (S lane) (pre ++ [b])) as IH'; destruct (flitLanes _ _ _ _ _ _ _ _);
    [intros post; specialize (IH' post)|]; by rewrite <- app_assoc in IH'.
Qed.

Lemma flitBeats_spec beats start pre :
  Forall axis_wf beats ->
  flitBeats beats (nz start) (nz start + 16) (nz (length pre))
    (length (flit_window start pre)) (resize 16 0 (flit_window start pre)) =
  resize 16 0 (flit_window start (pre ++ concat (kept_bytes <$> beats))).
Proof.
  intros Hwf. revert pre. induction Hwf as [|b beats Hb _ IH]; intros pre; cbn [flitBeats].
  { simpl. by rewrite app_nil_r. }
  pose proof (flitLanes_spec (tkeep b) 0 (tdata b) start pre) as Hl.
  rewrite fmap_cons, concat_cons. rewrite (lane_bytes_kept b Hb) in Hl.
  destruct (flitLanes _ _ _ _ _ _ _ _) as [r|s]; [apply Hl|].
  unfold flit_state in Hl. subst s. rewrite IH. by rewrite <- app_assoc.
Qed.

Lemma getFlitData_window p f :
  Forall axis_wf (ap_beats p) ->
  getFlitData p (nz f) = resize 16 0 (flit_window (f * 16) (payload_bytes p)).
Proof.
  intros Hwf. pose proof (flitBeats_spec (ap_beats p) (f * 16) [] Hwf) as Hf.
  unfold flit_window in Hf at 1 2. rewrite drop_nil in Hf. simpl in Hf.
  unfold getFlitData. replace (nz f * 16) with (nz (f * 16)) by lia. exact Hf.
Qed.

(** The valid bytes of flit [f] are the packet's bytes from [16 f]. *)
Lemma flitData_valid p f n :
  Forall axis_wf (ap_beats p) -> (f * 16 + n <= length (payload_bytes p))%nat -> (n <= 16)%nat ->
  slice (getFlitData p (nz f)) 0 n = slice (payload_bytes p) (f * 16) n.
Proof.
  intros Hwf Hn Hn16. rewrite getFlitData_window by done. unfold slice. rewrite drop_0.
  rewrite resize_ge by (rewrite length_flit_window; lia).
  rewrite take_app_le by (rewrite length_flit_window; lia).
  unfold flit_window. rewrite take_take. f_equal. lia.
Qed.

(** ** The beats of one flit *)

Lemma tkeepForValidBytes_bits v i :
  0 <= v -> 0 <= i < 64 -> Z.testbit (tkeepForValidBytes v) i = (i <? v).
Proof.
  intros Hv Hi. unfold tkeepForValidBytes. destruct (Z.leb_spec 64 v).
  - rewrite (proj2 (Z.ltb_lt _ _)) by lia. change 0xFFFFFFFFFFFFFFFF with (Z.ones 64).
    apply Z.ones_spec_low. lia.
  - destruct (Z.leb_spec v 0).
    + rewrite Z.testbit_0_l, (proj2 (Z.ltb_ge _ _)) by lia. done.
    + rewrite Z.shiftl_1_l. unfold u64. rewrite Z.mod_small
        by (split; [lia|apply Z.pow_lt_mono_r; lia]).
      replace (2 ^ v - 1) with (Z.ones v) by (rewrite Z.ones_equiv; lia).
      destruct (Z.ltb_spec i v); [apply Z.ones_spec_low|apply Z.ones_spec_high]; lia.
Qed.

Lemma tkeep_idx_prefix v m :
  (m <= 64)%nat -> tkeep_idx (tkeepForValidBytes (nz v)) m = seq 0 (Nat.min v m).
Proof.
  induction m as [|m IH]; intros Hm; [by rewrite Nat.min_0_r|].
  rewrite tkeep_idx_S, IH, tkeepForValidBytes_bits by lia.
  destruct (Z.ltb_spec (nz m) (nz v)).
  - rewrite (Nat.min_r v m), (Nat.min_r v (S m)), seq_S by lia. done.
  - rewrite app_nil_r. f_equal. lia.
Qed.

Lemma fmap_byte_at_seq (l : list Z) n : (n <= length l)%nat -> byte_at l <$> seq 0 n = take n l.
Proof.
  revert n. induction l as [|x l IH] using rev_ind; intros n Hn.
  { simpl in Hn. by replace n with 0%nat by lia. }
  rewrite length_app in Hn. simpl in Hn.
  assert (Hpre : forall m, (m <= length l)%nat -> byte_at (l ++ [x]) <$> seq 0 m = take m l).
  { intros m Hm. rewrite <- IH by done. apply list_fmap_ext. intros j i Hi.
    apply list_elem_of_lookup_2, elem_of_seq in Hi. unfold byte_at. apply app_nth1. lia. }
  destruct (decide (n <= length l)%nat); [by rewrite Hpre, take_app_le|].
  assert (n = S (length l)) as -> by lia. rewrite seq_S, fmap_app, Hpre by lia.
  rewrite (take_ge (l ++ [x])), take_ge by (rewrite ?length_app; simpl; lia). simpl.
  unfold byte_at. by rewrite app_nth2, Nat.sub_diag by lia.
Qed.

Lemma applySideband_same p b st n :
  let b' := applySidebandForByteRange p b st n in
  kept_bytes b' = kept_bytes b /\ DATA_WIDTH b' = DATA_WIDTH b /\ tlast b' = tlast b.
Proof. unfold applySidebandForByteRange. by destruct (findSourceBeatForByteRange _ _ _). Qed.

(** The endpoint widths that divide or are divided by a flit. *)
Definition good_width (W : Z) : Prop :=
  W mod 8 = 0 /\ 1 <= W / 8 <= 64 /\
  ((W / 8 < 16 /\ 16 mod (W / 8) = 0) \/ (16 <= W / 8 /\ (W / 8) mod 16 = 0)).

Lemma kept_depackBeat p W agg lst st v :
  good_width W -> length agg = 64%nat -> (nz v <= W / 8) ->
  kept_bytes (depackBeat p W agg lst st (nz v)) = take v agg.
Proof.
  intros (_ & Hw & _) Ha Hv. unfold depackBeat.
  rewrite (proj1 (applySideband_same _ _ _ _)). unfold kept_bytes. simpl.
  fold (tkeep_idx (tkeepForValidBytes (nz v)) (zn (W / 8))).
  rewrite tkeep_idx_prefix, Nat.min_l by lia. unfold vresize.
  rewrite resize_ge by (rewrite length_take; lia).
  rewrite fmap_byte_at_seq by (rewrite length_app, length_take, length_replicate; lia).
  rewrite take_app_le, take_take by (rewrite length_take; lia). f_equal. lia.
Qed.

Lemma depackBeat_tlast p W agg lst st v : tlast (depackBeat p W agg lst st v) = lst.
Proof. unfold depackBeat. by rewrite (proj2 (proj2 (applySideband_same _ _ _ _))). Qed.
Lemma depackBeat_width p W agg lst st v : DATA_WIDTH (depackBeat p W agg lst st v) = W.
Proof. unfold depackBeat. by rewrite (proj1 (proj2 (applySideband_same _ _ _ _))). Qed.

(** A byte range inside the packet has a source beat. *)
Lemma findSourceLoop_total beats st n cum :
  Forall axis_wf beats -> 0 < n -> cum <= st ->
  st + n <= cum + nz (length (concat (kept_bytes <$> beats))) ->
  exists b, findSourceLoop beats st (st + n) cum = Some b /\ b ∈ beats.
Proof.
  intros Hwf Hn. revert cum. induction Hwf as [|b beats Hb _ IH]; intros cum Hc He.
  { simpl in He. lia. }
  rewrite fmap_cons, concat_cons, length_app in He. cbn [findSourceLoop].
  rewrite axis_getTotalByteSize_kept by apply Hb. set (m := length (kept_bytes b)) in *.
  destruct (Z.leb_spec (nz m) 0).
  { destruct (IH cum) as (c & Hc1 & Hc2); [lia..|]. exists c. split; [done|by right]. }
  destruct (Z.ltb_spec st (cum + nz m)); simpl.
  { rewrite (proj2 (Z.ltb_lt _ _)) by lia. exists b. split; [done|by left]. }
  rewrite (proj2 (Z.leb_gt _ _)) by lia.
  destruct (IH (cum + nz m)) as (c & Hc1 & Hc2); [lia..|]. exists c. split; [done|by right].
Qed.

Lemma depackBeat_ids p W agg lst st v i d :
  Forall axis_wf (ap_beats p) -> Forall (fun b => tid b = i /\ tdest b = d) (ap_beats p) ->
  0 <= st -> 0 < v -> st + v <= nz (length (payload_bytes p)) ->
  tid (depackBeat p W agg lst st v) = i /\ tdest (depackBeat p W agg lst st v) = d.
Proof.
  intros Hwf Hid Hs Hv He. unfold depackBeat, applySidebandForByteRange, findSourceBeatForByteRange.
  rewrite (proj2 (Z.leb_gt _ _)) by lia.
  destruct (findSourceLoop_total (ap_beats p) st v 0) as (b & -> & Hb); [done|lia|lia|done|].
  rewrite Forall_forall in Hid. simpl. apply Hid. exact Hb.
Qed.

Lemma slice_add {A} (l : list A) o a b : slice l o a ++ slice l (o + a) b = slice l o (a + b).
Proof. unfold slice. rewrite <- drop_drop. apply take_take_drop. Qed.

Lemma slice_slice {A} (l : list A) o n o' n' :
  (o' + n' <= n)%nat -> slice (slice l o n) o' n' = slice l (o + o') n'.
Proof.
  intros Hn. unfold slice. rewrite skipn_firstn_comm, take_take, drop_drop. f_equal. lia.
Qed.

Lemma take_copy_into (l s : list Z) : (length s <= length l)%nat ->
  take (length s) (copy_into l 0 s) = s.
Proof.
  intros Hs. apply list_eq. intros k. destruct (decide (k < length s)%nat).
  - rewrite lookup_take_lt, lookup_copy_into_in by lia. f_equal. lia.
  - rewrite !lookup_ge_None_2; rewrite ?length_take, ?length_copy_into; lia || done.
Qed.

(** TLAST flags of a sequence of [n] beats that ends with [b]. *)
Definition flags_end (n : nat) (b : bool) : list bool := replicate (n - 1) false ++ [b].

Lemma fmap_last_flag (b : bool) c :
  (1 <= c)%nat -> (fun j : nat => b && (nz j =? nz c - 1)) <$> seq 0 c = flags_end c b.
Proof.
  intros Hc. destruct c as [|c]; [lia|]. unfold flags_end. rewrite seq_S, fmap_app. simpl.
  rewrite Nat.sub_0_r. f_equal.
  - apply list_eq. intros k. rewrite list_lookup_fmap. destruct (decide (k < c)%nat).
    + rewrite lookup_seq_lt, lookup_replicate_2 by done. simpl.
      rewrite (proj2 (Z.eqb_neq _ _)) by lia. by rewrite andb_false_r.
    + rewrite !lookup_ge_None_2; rewrite ?length_seq, ?length_replicate; lia || done.
  - rewrite (proj2 (Z.eqb_eq _ _)) by lia. by rewrite andb_true_r.
Qed.

Section Packet.
Context (p : axisPayload) (W i d fb : Z).
Hypothesis HW : good_width W.
Hypothesis Hwf : Forall axis_wf (ap_beats p).
Hypothesis Hid : Forall (fun b => tid b = i /\ tdest b = d) (ap_beats p).
Hypothesis Htot : ap_totalBytes p = nz (length (payload_bytes p)).

(** The beats [bs] carry the bytes [seg] of the packet's stream at the width [W]. *)
Definition beats_ok (bs : list axisData) (seg : list Z) : Prop :=
  concat (kept_bytes <$> bs) = seg /\
  Forall (fun b => DATA_WIDTH b = W /\ tid b = i /\ tdest b = d) bs.

Lemma beats_ok_app bs1 bs2 s1 s2 :
  beats_ok bs1 s1 -> beats_ok bs2 s2 -> beats_ok (bs1 ++ bs2) (s1 ++ s2).
Proof.
  intros [H1 F1] [H2 F2]. split; [by rewrite fmap_app, concat_app, H1, H2|by apply Forall_app].
Qed.

Lemma beats_ok_one agg lst st v :
  length agg = 64%nat -> (1 <= v)%nat -> nz v <= W / 8 -> 0 <= st ->
  st + nz v <= nz (length (payload_bytes p)) ->
  beats_ok [depackBeat p W agg lst st (nz v)] (take v agg).
Proof.
  intros Ha Hv Hvw Hs He. split.
  - simpl. by rewrite kept_depackBeat, app_nil_r.
  - constructor; [|constructor]. split; [apply depackBeat_width|]. apply depackBeat_ids; done || lia.
Qed.

(** The sub-beat fold, for [c] valid sub-beats. *)
Lemma narrow_fold (w v c f k : nat) agg tl :
  W / 8 = nz w -> (1 <= w)%nat -> (forall j, (j < c <-> j * w < v))%nat ->
  (v <= 16)%nat -> (f * 16 + v <= length (payload_bytes p))%nat -> length agg = 64%nat ->
  let '(agg', r) := foldl (narrowSubBeat p W (nz f * 16) (nz v) (getFlitData p (nz f)) (nz c - 1) tl fb)
    (agg, {| df_payloads := []; df_debugIds := [] |}) (seq 0 k) in
  length agg' = 64%nat /\
  beats_ok (df_payloads r) (slice (payload_bytes p) (f * 16) (Nat.min (k * w) v)) /\
  tlast <$> df_payloads r = (fun j : nat => tl && (nz j =? nz c - 1)) <$> seq 0 (Nat.min k c).
Proof.
  intros Hw Hw1 Hc Hv Hf Ha. induction k as [|k IH].
  { simpl. split_and!; [done| |done]. split; [done|constructor]. }
  rewrite seq_S, foldl_app, Nat.add_0_l. cbn [foldl].
  destruct (foldl _ _ _) as [agg' r]. destruct IH as (Ha' & Hb & Hfl).
  unfold narrowSubBeat. rewrite Hw. specialize (Hc k).
  assert (Hw64 : nz w <= 64) by (destruct HW; lia).
  destruct (Z.leb_spec (Z.min (nz w) (Z.max 0 (nz v - nz k * nz w))) 0) as [Hle|Hgt].
  { assert (v <= k * w)%nat by lia. assert (c <= k)%nat by lia.
    replace (Nat.min (S k * w) v) with (Nat.min (k * w) v) by lia.
    by replace (Nat.min (S k) c) with (Nat.min k c) by lia. }
  assert (k * w < v)%nat by lia. assert (k < c)%nat by lia.
  set (m := Nat.min w (v - k * w)).
  assert (Hm : Z.min (nz w) (Z.max 0 (nz v - nz k * nz w)) = nz m) by lia.
  rewrite Hm, !Nat2Z.id. set (agg2 := copy_into _ 0 (slice _ _ _)).
  assert (Hsl : slice (getFlitData p (nz f)) (zn (nz k * nz w)) m =
                slice (payload_bytes p) (f * 16 + k * w) m).
  { pose proof (slice_slice (getFlitData p (nz f)) 0 v (k * w) m ltac:(lia)) as Hs.
    rewrite flitData_valid, slice_slice in Hs by (done || lia).
    replace (zn (nz k * nz w)) with (0 + k * w)%nat by lia. done. }
  assert (Hlen : length (slice (payload_bytes p) (f * 16 + k * w) m) = m)
    by (apply length_slice; lia).
  assert (Ha2 : length agg2 = 64%nat) by (unfold agg2; by rewrite !length_copy_into).
  split; [done|]. cbn [df_payloads]. rewrite fmap_app. split.
  - replace (Nat.min (S k * w) v) with (k * w + m)%nat by lia.
    rewrite Nat.min_l in Hb by lia. rewrite <- slice_add. apply beats_ok_app; [exact Hb|].
    assert (Hseg : take m agg2 = slice (payload_bytes p) (f * 16 + k * w) m).
    { unfold agg2. rewrite Hsl. rewrite <- Hlen at 1. apply take_copy_into.
      rewrite length_copy_into, Hlen. lia. }
    rewrite <- Hseg. apply beats_ok_one; lia || done.
  - rewrite Nat.min_l in Hfl by lia. rewrite Hfl, (Nat.min_l (S k)), seq_S, fmap_app by lia.
    f_equal. simpl. by rewrite depackBeat_tlast.
Qed.

Lemma lastValidSubBeat_spec (w v c k : nat) :
  (1 <= w)%nat -> (forall j, (j < c <-> j * w < v))%nat ->
  lastValidSubBeat k (nz w) (nz v) = nz (Nat.min k c) - 1.
Proof.
  intros Hw Hc. unfold lastValidSubBeat. induction k as [|k IH]; [done|].
  rewrite seq_S, foldl_app, IH. cbn [foldl]. rewrite Nat.add_0_l. specialize (Hc k).
  destruct (Z.ltb_spec 0 (Z.max 0 (nz v - nz k * nz w))); lia.
Qed.

(** Enough sub-beats for [v] bytes. *)
Lemma subbeats_count (w v : nat) : (1 <= w)%nat -> (forall j, (j < (v + w - 1) / w <-> j * w < v))%nat.
Proof.
  intros Hw j. pose proof (Nat.div_mod (v + w - 1) w ltac:(lia)) as Hd.
  pose proof (Nat.mod_upper_bound (v + w - 1) w ltac:(lia)) as Hm.
  set (c := ((v + w - 1) / w)%nat) in *. split; intros H; nia.
Qed.

(** The number of flits, and the valid bytes of flit [f]. *)
Definition numFlitsOf : nat := (length (payload_bytes p) + 15) / 16.
Definition flitValidOf (f : nat) : nat := Nat.min 16 (length (payload_bytes p) - f * 16).

Lemma flit_in_range f : (f < numFlitsOf)%nat -> (f * 16 < length (payload_bytes p))%nat.
Proof. unfold numFlitsOf. intros. pose proof (Nat.div_mod (length (payload_bytes p) + 15) 16). lia. Qed.
Lemma flit_not_last f : (S f < numFlitsOf)%nat -> flitValidOf f = 16%nat.
Proof. intros H%flit_in_range. unfold flitValidOf. lia. Qed.
Lemma flit_last f :
  S f = numFlitsOf -> (f * 16 + flitValidOf f = length (payload_bytes p))%nat /\ (1 <= flitValidOf f)%nat.
Proof.
  intros H. pose proof (flit_in_range f ltac:(lia)). unfold flitValidOf, numFlitsOf in *.
  pose proof (Nat.div_mod (length (payload_bytes p) + 15) 16).
  pose proof (Nat.mod_upper_bound (length (payload_bytes p) + 15) 16). lia.
Qed.

Lemma good_width_guards :
  (W mod 8 =? 0) = true /\ negb ((W / 8 =? 0) || (64 <? W / 8)) = true.
Proof.
  destruct HW as (-> & Hb & _). split; [done|].
  rewrite (proj2 (Z.eqb_neq _ _)), (proj2 (Z.ltb_ge _ _)) by lia. done.
Qed.

Definition isTail (f : nat) : bool := bool_decide (S f = numFlitsOf).
Lemma isTail_eq f :
  (f < numFlitsOf)%nat -> (0 <? nz numFlitsOf) && (nz numFlitsOf - 1 =? nz f) = isTail f.
Proof.
  intros Hf. unfold isTail. rewrite (proj2 (Z.ltb_lt _ _)) by lia. simpl.
  case_bool_decide; [apply Z.eqb_eq|apply Z.eqb_neq]; lia.
Qed.
Lemma flitValid_eq f :
  Z.min 16 (Z.max 0 (ap_totalBytes p - nz f * 16)) = nz (flitValidOf f).
Proof. rewrite Htot. unfold flitValidOf. lia. Qed.

Definition flit_ok (f : nat) (lst : bool) (r : AxisDepacketizedFlit) (seg : list Z) : Prop :=
  beats_ok (df_payloads r) seg /\
  tlast <$> df_payloads r = flags_end (length (df_payloads r)) (isTail f && lst).

(** A flit of an endpoint of at most 16 bytes gives its own bytes. *)
Lemma flit_small f agg lst :
  W / 8 <= 16 -> (f < numFlitsOf)%nat -> length agg = 64%nat ->
  exists agg' r, depacketizeAxisPayloadFlit p W agg (nz f) (nz numFlitsOf) lst (getFlitData p (nz f)) fb
      = Ok (agg', r) /\ length agg' = 64%nat /\
    flit_ok f lst r (slice (payload_bytes p) (f * 16) (flitValidOf f)).
Proof.
  intros Hsm Hf Ha. pose proof (flit_in_range f Hf) as Hr.
  set (v := flitValidOf f). assert (Hv : (1 <= v <= 16 /\ f * 16 + v <= length (payload_bytes p))%nat)
    by (unfold v, flitValidOf; lia).
  destruct good_width_guards as [G1 G2]. destruct HW as (_ & Hb & Hdiv).
  unfold depacketizeAxisPayloadFlit. rewrite G1, G2. cbn [guard].
  rewrite (isTail_eq f Hf), flitValid_eq. fold v.
  set (w := zn (W / 8)). assert (Hw : W / 8 = nz w) by lia.
  destruct (Z.ltb_spec (W / 8) 16) as [Hlt|Hge].
  - set (c := ((v + w - 1) / w)%nat). pose proof (subbeats_count w v ltac:(lia)) as Hc. fold c in Hc.
    assert (H16 : (zn (16 / (W / 8)) * w = 16)%nat).
    { destruct Hdiv as [[_ Hm]|[? _]]; [|lia]. rewrite Hw in *.
      pose proof (Z.div_mod 16 (nz w) ltac:(lia)). nia. }
    assert (Hcb : (c <= zn (16 / (W / 8)))%nat).
    { destruct (decide (zn (16 / (W / 8)) < c)%nat) as [Hx|]; [apply Hc in Hx|]; lia. }
    rewrite Hw, (lastValidSubBeat_spec w v c) by (done || lia). rewrite <- Hw, Nat.min_r by lia.
    pose proof (narrow_fold w v c f (zn (16 / (W / 8))) agg (isTail f && lst) Hw ltac:(lia) Hc
      ltac:(lia) ltac:(lia) Ha) as Hn.
    destruct (foldl _ _ _) as [agg' r]. destruct Hn as (Ha' & Hbo & Hfl).
    exists agg', r. split; [done|]. split; [done|].
    rewrite Nat.min_r in Hbo by lia. rewrite Nat.min_r in Hfl by lia.
    split; [exact Hbo|]. assert (Hlen : length (df_payloads r) = c).
    { rewrite <- (length_fmap tlast), Hfl. by rewrite length_fmap, length_seq. }
    rewrite Hlen, Hfl. apply fmap_last_flag. apply Hc. lia.
  - rewrite (proj2 (Z.eqb_eq (W / 8) 16)) by lia. set (agg2 := copy_into _ 0 (slice _ _ _)).
    assert (Ha2 : length agg2 = 64%nat) by (unfold agg2; by rewrite !length_copy_into).
    eexists _, _. split; [reflexivity|]. split; [done|]. split.
    + assert (Hseg : take v agg2 = slice (payload_bytes p) (f * 16) v).
      { unfold agg2. rewrite Nat2Z.id, flitData_valid by (done || lia).
        rewrite <- (length_slice (payload_bytes p) (f * 16) v) at 1 by lia.
        apply take_copy_into. rewrite length_copy_into, length_slice; lia. }
      rewrite <- Hseg. apply beats_ok_one; lia || done.
    + simpl. by rewrite depackBeat_tlast.
Qed.

(** Endpoints wider than a flit: [q] flits per beat, and beat [f / q] holds the
    bytes of the flits before [f] in [aggregateData]. *)
Definition flitsPerBeatOf : nat := zn (W / 8 / 16).
Definition agg_ok (f : nat) (agg : list Z) : Prop :=
  let q := flitsPerBeatOf in
  length agg = 64%nat /\
  slice agg 0 (16 * (f mod q)) = slice (payload_bytes p) (16 * (q * (f / q))) (16 * (f mod q)).

Lemma wide_q : 16 < W / 8 -> W / 8 = 16 * nz flitsPerBeatOf /\ (1 <= flitsPerBeatOf <= 4)%nat.
Proof.
  intros Hg. unfold flitsPerBeatOf. destruct HW as (_ & Hb & [[? _]|[_ Hm]]); [lia|].
  pose proof (Z.div_mod (W / 8) 16 ltac:(lia)). lia.
Qed.

Lemma div_mod_succ (f q : nat) :
  (1 <= q)%nat ->
  (S (f mod q) = q -> S f mod q = 0 /\ q * (S f / q) = S f)%nat /\
  (S (f mod q) <> q -> S f mod q = S (f mod q) /\ S f / q = f / q)%nat.
Proof.
  intros Hq. pose proof (Nat.div_mod f q ltac:(lia)) as Hd.
  pose proof (Nat.mod_upper_bound f q ltac:(lia)) as Hr. split; intros H.
  - assert (S f = q * S (f / q))%nat as Hs by nia.
    assert (S f mod q = 0)%nat as Hz by (rewrite Hs, Nat.mul_comm; apply Nat.Div0.mod_mul).
    split; [done|]. pose proof (Nat.div_mod (S f) q ltac:(lia)). lia.
  - split; symmetry; [apply (Nat.mod_unique _ _ (f / q))|apply (Nat.div_unique _ _ _ (S (f mod q)))]; lia.
Qed.

(** Appending flit [f]'s bytes to the aggregate. *)
Lemma agg_extend f agg :
  16 < W / 8 -> (f < numFlitsOf)%nat -> agg_ok f agg ->
  let r := (f mod flitsPerBeatOf)%nat in
  let agg' := copy_into agg (16 * r) (slice (getFlitData p (nz f)) 0 (flitValidOf f)) in
  length agg' = 64%nat /\
  slice agg' 0 (16 * r + flitValidOf f) =
    slice (payload_bytes p) (16 * (flitsPerBeatOf * (f / flitsPerBeatOf))) (16 * r + flitValidOf f).
Proof.
  intros Hg Hf [Ha Hs] r agg'. destruct (wide_q Hg) as [HWq Hq]. set (q := flitsPerBeatOf) in *.
  pose proof (flit_in_range f Hf) as Hr. pose proof (Nat.div_mod f q ltac:(lia)) as Hd.
  pose proof (Nat.mod_upper_bound f q ltac:(lia)) as Hr2. fold r in Hs, Hd, Hr2.
  set (v := flitValidOf f). assert (Hv : (1 <= v <= 16 /\ f * 16 + v <= length (payload_bytes p))%nat)
    by (unfold v, flitValidOf; lia).
  assert (Hsl : slice (getFlitData p (nz f)) 0 v = slice (payload_bytes p) (f * 16) v)
    by (apply flitData_valid; done || lia).
  assert (Hlen : length (slice (payload_bytes p) (f * 16) v) = v) by (apply length_slice; lia).
  unfold agg'. fold v. rewrite Hsl. split; [by rewrite length_copy_into|].
  rewrite <- !slice_add. f_equal.
  - rewrite <- Hs. apply list_eq. intros k. destruct (decide (k < 16 * r)%nat).
    + rewrite !lookup_slice by done. by rewrite lookup_copy_into_out by lia.
    + rewrite !lookup_ge_None_2; rewrite ?length_slice; rewrite ?length_copy_into; lia || done.
  - replace (16 * (q * (f / q)) + 16 * r)%nat with (f * 16)%nat by lia.
    apply list_eq. intros k. destruct (decide (k < v)%nat).
    + rewrite lookup_slice, lookup_copy_into_in by lia. f_equal. lia.
    + rewrite !lookup_ge_None_2; rewrite ?length_slice; rewrite ?length_copy_into; lia || done.
Qed.

(** The valid bytes of a beat that is complete or ends the packet. *)
Lemma valid_in_beat f :
  16 < W / 8 -> (f < numFlitsOf)%nat ->
  bool_decide (S (f mod flitsPerBeatOf) = flitsPerBeatOf)%nat || isTail f = true ->
  let q := flitsPerBeatOf in
  let st := nz (f / q) * (W / 8) in
  st = nz (16 * (q * (f / q))) /\
  Z.min (W / 8) (Z.max 0 (Z.min (ap_totalBytes p) (st + W / 8) - Z.min (ap_totalBytes p) st)) =
    nz (16 * (f mod q) + flitValidOf f).
Proof.
  intros Hg Hf Hemit q st. destruct (wide_q Hg) as [HWq Hq]. fold q in HWq, Hq.
  assert (Hst : st = nz (16 * (q * (f / q)))) by (unfold st; rewrite HWq; lia).
  split; [done|]. rewrite Hst, HWq, Htot. pose proof (flit_in_range f Hf) as Hr.
  pose proof (Nat.div_mod f q ltac:(lia)) as Hd. pose proof (Nat.mod_upper_bound f q ltac:(lia)) as Hr2.
  fold q in Hemit. clear Hst. clearbody q. revert Hd.
  generalize (q * (f / q))%nat as B. intros B Hd.
  apply orb_true_iff in Hemit as [H|H]; apply bool_decide_eq_true in H.
  - unfold flitValidOf. lia.
  - destruct (flit_last f H). assert (flitValidOf f <= 16)%nat by (unfold flitValidOf; lia). lia.
Qed.

Lemma flit_wide f agg lst :
  16 < W / 8 -> (f < numFlitsOf)%nat -> agg_ok f agg ->
  let q := flitsPerBeatOf in
  exists agg' r, depacketizeAxisPayloadFlit p W agg (nz f) (nz numFlitsOf) lst (getFlitData p (nz f)) fb
      = Ok (agg', r) /\ (S f < numFlitsOf -> agg_ok (S f) agg')%nat /\
    (if bool_decide (S (f mod q) = q) || isTail f
     then flit_ok f lst r (slice (payload_bytes p) (16 * (q * (f / q))) (16 * (f mod q) + flitValidOf f))
     else df_payloads r = []).
Proof.
  intros Hg Hf Hagg q. destruct (wide_q Hg) as [HWq Hq]. fold q in HWq, Hq.
  destruct (agg_extend f agg Hg Hf Hagg) as [Ha' Hs']. fold q in Ha', Hs'.
  pose proof (flit_in_range f Hf) as Hr. pose proof (Nat.div_mod f q ltac:(lia)) as Hd.
  pose proof (Nat.mod_upper_bound f q ltac:(lia)) as Hr2.
  destruct (div_mod_succ f q ltac:(lia)) as [Hsucc1 Hsucc2].
  set (r := (f mod q)%nat) in *. set (B := (q * (f / q))%nat) in *. set (v := flitValidOf f) in *.
  set (agg' := copy_into agg (16 * r) _) in *.
  assert (Hnext : (S f < numFlitsOf)%nat -> agg_ok (S f) agg').
  { intros Hnl. split; [done|]. fold q. destruct (decide (S r = q)) as [E|E].
    - destruct (Hsucc1 E) as [-> _]. done.
    - destruct (Hsucc2 E) as [-> ->]. fold B. pose proof (flit_not_last f Hnl) as Hv. fold v in Hv.
      replace (16 * S r)%nat with (16 * r + v)%nat by lia. done. }
  destruct good_width_guards as [G1 G2].
  unfold depacketizeAxisPayloadFlit. rewrite G1, G2. cbn [guard].
  rewrite (isTail_eq f Hf), flitValid_eq. fold v.
  rewrite (proj2 (Z.ltb_ge (W / 8) 16)), (proj2 (Z.eqb_neq (W / 8) 16)) by lia.
  assert (Hqz : W / 8 / 16 = nz q) by (rewrite HWq, Z.mul_comm; apply Z.div_mul; lia).
  rewrite Hqz. rewrite (proj2 (Z.eqb_neq (nz q) 0)) by lia.
  assert ((W / 8) mod 16 = 0) as -> by (rewrite HWq, Z.mul_comm; apply Z.mod_mul; lia).
  cbn [guard Z.eqb negb orb]. rewrite <- !Nat2Z.inj_mod, <- Nat2Z.inj_div. fold r.
  replace (zn (nz r * 16)) with (16 * r)%nat by lia. rewrite Nat2Z.id. fold agg'.
  assert (Hfull : ((nz f + 1) mod nz q =? 0) = bool_decide (S r = q)).
  { replace (nz f + 1) with (nz (S f)) by lia. rewrite <- Nat2Z.inj_mod. case_bool_decide as E.
    - destruct (Hsucc1 E) as [-> _]. done.
    - destruct (Hsucc2 E) as [-> _]. apply Z.eqb_neq. lia. }
  rewrite Hfull. destruct (bool_decide (S r = q) || isTail f) eqn:Hemit;
    eexists _, _; (split; [reflexivity|]); (split; [exact Hnext|]); [|done].
  destruct (valid_in_beat f Hg Hf Hemit) as [Hst Hval]. fold q r B v in Hst, Hval.
  rewrite Hval, Hst. assert (Hv : (1 <= v)%nat /\ (f * 16 + v <= length (payload_bytes p))%nat)
    by (unfold v, flitValidOf; lia).
  split; [|simpl; by rewrite depackBeat_tlast]. rewrite <- Hs'. unfold slice at 1. rewrite drop_0.
  apply beats_ok_one; [done|lia| |lia|]; rewrite <- Hval; lia.
Qed.

(** ** A whole packet *)

(** Bytes handed over before flit [f]. *)
Definition doneBefore (f : nat) : nat :=
  if bool_decide (f = numFlitsOf) then length (payload_bytes p)
  else if 16 <? W / 8 then 16 * (flitsPerBeatOf * (f / flitsPerBeatOf)) else 16 * f.
Definition agg_state (f : nat) (agg : list Z) : Prop :=
  length agg = 64%nat /\ (16 < W / 8 -> agg_ok f agg).

Lemma doneBefore_small f :
  W / 8 <= 16 -> (f < numFlitsOf)%nat -> (doneBefore (S f) = doneBefore f + flitValidOf f)%nat /\
  (doneBefore f = f * 16)%nat.
Proof.
  intros Hs Hf. unfold doneBefore. rewrite (proj2 (Z.ltb_ge _ _)) by lia.
  rewrite (bool_decide_false (f = numFlitsOf)) by lia. case_bool_decide as E.
  - destruct (flit_last f E). lia.
  - pose proof (flit_not_last f ltac:(lia)). lia.
Qed.

Lemma doneBefore_wide f :
  16 < W / 8 -> (f < numFlitsOf)%nat ->
  let q := flitsPerBeatOf in
  doneBefore f = (16 * (q * (f / q)))%nat /\
  doneBefore (S f) = (if bool_decide (S (f mod q) = q) || isTail f
    then doneBefore f + (16 * (f mod q) + flitValidOf f) else doneBefore f)%nat.
Proof.
  intros Hg Hf q. destruct (wide_q Hg) as [_ Hq]. fold q in Hq.
  destruct (div_mod_succ f q ltac:(lia)) as [H1 H2]. pose proof (Nat.div_mod f q ltac:(lia)) as Hd.
  unfold doneBefore, isTail. fold q. rewrite (proj2 (Z.ltb_lt _ _)) by lia.
  rewrite (bool_decide_false (f = numFlitsOf)) by lia. split; [done|]. case_bool_decide as E.
  - rewrite orb_true_r. destruct (flit_last f E). lia.
  - rewrite orb_false_r. case_bool_decide as E2.
    + destruct (H1 E2) as [_ ->]. pose proof (flit_not_last f ltac:(lia)). lia.
    + by destruct (H2 E2) as [_ ->].
Qed.

Lemma depack_flit f agg lst :
  (f < numFlitsOf)%nat -> agg_state f agg ->
  exists agg' r, depacketizeAxisPayloadFlit p W agg (nz f) (nz numFlitsOf) lst (getFlitData p (nz f)) fb
      = Ok (agg', r) /\ (S f < numFlitsOf -> agg_state (S f) agg')%nat /\
    (doneBefore f <= doneBefore (S f))%nat /\
    beats_ok (df_payloads r) (slice (payload_bytes p) (doneBefore f) (doneBefore (S f) - doneBefore f)) /\
    tlast <$> df_payloads r =
      if isTail f then flags_end (length (df_payloads r)) lst
      else replicate (length (df_payloads r)) false.
Proof.
  intros Hf [Ha Hagg].
  assert (Hflags : forall l : list axisData,
    tlast <$> l = flags_end (length l) (isTail f && lst) ->
    tlast <$> l = if isTail f then flags_end (length l) lst else replicate (length l) false).
  { intros l Hl. rewrite Hl. destruct (isTail f); [done|]. destruct l as [|b l]; [done|].
    unfold flags_end. simpl. by rewrite Nat.sub_0_r, <- replicate_cons_app. }
  destruct (Z.leb_spec (W / 8) 16) as [Hs|Hg].
  - destruct (flit_small f agg lst Hs Hf Ha) as (agg' & r & -> & Ha' & Hb & Hfl).
    destruct (doneBefore_small f Hs Hf) as [-> Hd]. exists agg', r.
    split; [done|]. split; [intros _; split; [done|lia]|]. split; [lia|].
    replace (doneBefore f + flitValidOf f - doneBefore f)%nat with (flitValidOf f) by lia.
    rewrite Hd. split; [done|by apply Hflags].
  - destruct (flit_wide f agg lst Hg Hf (Hagg Hg)) as (agg' & r & -> & Hn & Hb).
    destruct (doneBefore_wide f Hg Hf) as [Hd ->]. exists agg', r.
    split; [done|]. split; [intros Hl; split; [apply (Hn Hl)|by intros _; apply Hn]|].
    destruct (bool_decide _ || isTail f) eqn:Hemit.
    + split; [lia|]. rewrite Nat.add_comm, Nat.add_sub, Hd. destruct Hb as [Hb Hfl].
      split; [done|by apply Hflags].
    + split; [lia|]. rewrite Nat.sub_diag, Hb. split; [by split|].
      apply orb_false_iff in Hemit as [_ ->]. done.
Qed.

(** The slave unit's handling of the flits of one packet, in order: the aggregate
    is cleared at the head flit and the beats go to the endpoint. *)
Definition depackStep (s : list Z * list axisData) (f : nat) : res (list Z * list axisData) :=
  let '(agg, out) := s in
  let agg0 := if (f =? 0)%nat then zeros 64 else agg in
  let* (agg', r) := depacketizeAxisPayloadFlit p W agg0 (nz f) (nz numFlitsOf)
                      (negb (ap_last p =? 0)) (getFlitData p (nz f)) fb in
  Ok (agg', out ++ df_payloads r).
Definition depackPacket : res (list Z * list axisData) :=
  foldM depackStep (zeros 64, []) (seq 0 numFlitsOf).

Hypothesis Hne : payload_bytes p <> [].

Lemma numFlitsOf_pos : (1 <= numFlitsOf)%nat.
Proof.
  unfold numFlitsOf. destruct (payload_bytes p) as [|b l]; [done|]. simpl length.
  apply Nat.div_le_lower_bound; lia.
Qed.

Lemma agg_state_zero : agg_state 0 (zeros 64).
Proof.
  split; [done|]. intros Hg. destruct (wide_q Hg) as [_ Hq]. split; [done|].
  by rewrite Nat.Div0.mod_0_l, Nat.mul_0_r.
Qed.

Lemma depackPacket_prefix k :
  (k <= numFlitsOf)%nat ->
  exists agg out, foldM depackStep (zeros 64, []) (seq 0 k) = Ok (agg, out) /\
    (k < numFlitsOf -> agg_state k agg)%nat /\
    beats_ok out (slice (payload_bytes p) 0 (doneBefore k)) /\
    tlast <$> out = if bool_decide (k = numFlitsOf)
      then flags_end (length out) (negb (ap_last p =? 0)) else replicate (length out) false.
Proof.
  pose proof numFlitsOf_pos as Hpos. induction k as [|k IH]; intros Hk.
  { exists (zeros 64), []. split; [done|]. split; [intros _; apply agg_state_zero|].
    rewrite bool_decide_false by lia. split; [|done]. unfold doneBefore.
    rewrite bool_decide_false by lia. rewrite Nat.Div0.div_0_l, !Nat.mul_0_r.
    by destruct (16 <? W / 8). }
  destruct IH as (agg & out & Hfold & Hst & Hb & Hfl); [lia|].
  assert (Hst0 : agg_state k (if (k =? 0)%nat then zeros 64 else agg)).
  { destruct (Nat.eqb_spec k 0) as [->|]; [apply agg_state_zero|by apply Hst]. }
  destruct (depack_flit k _ (negb (ap_last p =? 0)) ltac:(lia) Hst0)
    as (agg' & r & Hd & Hst' & Hmono & Hb' & Hfl').
  exists agg', (out ++ df_payloads r).
  rewrite seq_S, foldM_app, Hfold, Nat.add_0_l. cbn [rbind foldM depackStep]. rewrite Hd. cbn [rbind].
  split; [done|]. split; [exact Hst'|]. split.
  - replace (doneBefore (S k)) with (doneBefore k + (doneBefore (S k) - doneBefore k))%nat by lia.
    rewrite <- slice_add. by apply beats_ok_app.
  - rewrite fmap_app, Hfl, Hfl', length_app. rewrite bool_decide_false by lia. unfold isTail in *.
    case_bool_decide as E; [|by rewrite replicate_add].
    assert (1 <= length (df_payloads r))%nat.
    { rewrite <- (length_fmap tlast), Hfl'. unfold flags_end. rewrite length_app. simpl. lia. }
    unfold flags_end. rewrite app_assoc, <- replicate_add. do 2 f_equal. lia.
Qed.

Lemma depackPacket_ok :
  exists agg out, depackPacket = Ok (agg, out) /\ beats_ok out (payload_bytes p) /\
    tlast <$> out = flags_end (length out) (negb (ap_last p =? 0)).
Proof.
  destruct (depackPacket_prefix numFlitsOf) as (agg & out & Hf & _ & Hb & Hfl); [done|].
  exists agg, out. split; [exact Hf|]. rewrite bool_decide_true in Hfl by done. split; [|done].
  unfold doneBefore in Hb. rewrite bool_decide_true in Hb by done.
  unfold slice in Hb. by rewrite drop_0, take_ge in Hb by done.
Qed.
End Packet.

(** ** End to end *)

Lemma depackPacket_npp p W fb :
  npp_ok p -> good_width W ->
  exists agg out, depackPacket p W fb = Ok (agg, out) /\
    concat (kept_bytes <$> out) = payload_bytes p /\
    (exists i d, Forall (fun b => tid b = i /\ tdest b = d) (ap_beats p) /\
       Forall (fun b => DATA_WIDTH b = W /\ tid b = i /\ tdest b = d) out) /\
    tlast <$> out = flags_end (length out) (ap_last p =? 1).
Proof.
  intros [Hwf (i & d & Hid) _ Htot Hr Hl _] HW.
  destruct (depackPacket_ok p W i d fb HW Hwf Hid Htot) as (agg & out & Hd & [Hb Hall] & Hfl).
  { intros Hz. rewrite Hz in Htot. simpl in Htot. lia. }
  exists agg, out. split_and!; [done|done|by exists i, d|].
  rewrite Hfl. by destruct Hl as [-> | ->].
Qed.

(** A packet cut from the write buffer reaches the endpoint intact, for every
    endpoint width that divides or is divided by a flit: the beats carry the
    packet's bytes in order, its TID and TDEST, the endpoint's width, and TLAST
    on the final beat exactly when the packet ends its stream packet. *)
Theorem axis_packet_delivered w W fb :
  aw_inv w -> nextDequeuePos w <> -1 -> good_width W ->
  exists ret out w', popNextPacket w = (ret, out, w') /\
  exists agg beats, depackPacket ret W fb = Ok (agg, beats) /\
    concat (kept_bytes <$> beats) = payload_bytes ret /\
    (exists i d, Forall (fun b => tid b = i /\ tdest b = d) (ap_beats ret) /\
       Forall (fun b => DATA_WIDTH b = W /\ tid b = i /\ tdest b = d) beats) /\
    tlast <$> beats = flags_end (length beats) (ap_last ret =? 1).
Proof.
  intros Hi Hne HW. destruct (popNextPacket_npp w Hi Hne) as (ret & w' & Hp & Hnpp & _).
  eexists _, _, _. split; [exact Hp|]. by apply depackPacket_npp.
Qed.

(** Draining the write buffer and depacketizing every packet delivers the
    buffered stream: the endpoint's bytes followed by what is still buffered are
    the bytes that were buffered. *)
Theorem axis_stream_delivered w W fb :
  aw_inv w -> good_width W ->
  exists ps w' outs, drain (zn (aw_bufferSize w)) w = Some (ps, w') /\
    mapM (fun p => rmap snd (depackPacket p W fb)) ps = Ok outs /\
    concat (kept_bytes <$> concat outs) ++ aw_stream (aw_writeBuffer w') =
      aw_stream (aw_writeBuffer w) /\
    aw_bufferSize w' < 64 /\ tlastPositions w' = [].
Proof.
  intros Hi HW. destruct (drain_npp (zn (aw_bufferSize w)) w Hi ltac:(lia))
    as (ps & w' & Hd & _ & Hall & Hst & Htl & Hsz).
  assert (exists outs, mapM (fun p => rmap snd (depackPacket p W fb)) ps = Ok outs /\
    concat (kept_bytes <$> concat outs) = concat (payload_bytes <$> ps)) as (outs & Hm & Hb).
  { clear Hd Hst. induction Hall as [|p ps Hp _ (outs & Hm & Hb)]; [by exists []|].
    destruct (depackPacket_npp p W fb Hp HW) as (agg & out & Hd & Hk & _).
    exists (out :: outs). cbn [mapM]. rewrite Hd. cbn [rmap rbind snd]. rewrite Hm. split; [done|].
    by rewrite concat_cons, fmap_app, concat_app, Hk, Hb. }
  exists ps, w', outs. split_and!; try done. by rewrite Hb.
Qed.

(** a 24-bit endpoint is accepted although three bytes do not divide a flit:
    the last byte of every full flit is dropped. *)
Theorem narrow_width_drops_byte :
  (let p := axisPayload_add axisPayload_empty
              (axisData_of_bytes (seqZ 1 16) 128 6 4 1 1 true true) 0 in
   let* (_, beats) := depackPacket p 24 (-1) in
   Ok (payload_bytes p, concat (kept_bytes <$> beats))) = Ok (seqZ 1 16, seqZ 1 15).
Proof. by vm_compute. Qed.

(** *** Witnesses *)

Lemma good_width_32 : good_width 256.
Proof. split; [done|]. split; [by vm_compute|]. right. by vm_compute. Qed.

Lemma axis_packet_delivered_witness :
  exists ret out w', popNextPacket aw_example = (ret, out, w') /\
  exists agg beats, depackPacket ret 256 0 = Ok (agg, beats) /\
    concat (kept_bytes <$> beats) = payload_bytes ret /\
    (exists i d, Forall (fun b => tid b = i /\ tdest b = d) (ap_beats ret) /\
       Forall (fun b => DATA_WIDTH b = 256 /\ tid b = i /\ tdest b = d) beats) /\
    tlast <$> beats = flags_end (length beats) (ap_last ret =? 1).
Proof.
  apply (axis_packet_delivered aw_example 256 0 aw_example_inv); [by vm_compute|exact good_width_32].
Defined.

Lemma axis_stream_delivered_witness :
  exists ps w' outs, drain 8 aw_example = Some (ps, w') /\
    mapM (fun p => rmap snd (depackPacket p 256 0)) ps = Ok outs /\
    concat (kept_bytes <$> concat outs) ++ aw_stream (aw_writeBuffer w') = [1; 2; 3; 4; 5; 6; 7; 8] /\
    aw_bufferSize w' < 64 /\ tlastPositions w' = [].
Proof. exact (axis_stream_delivered aw_example 256 0 aw_example_inv good_width_32). Defined.
