(* ===== verification/Flit.v ===== *)
(** * Flits and NI output queues

    The flit of [src/src/mem/ruby/network/garnet/flit.{hh,cc}] as the NoC uses it:
    identity, position in its packet, route and the message it belongs to (of any
    type [M]); and the per-VC output queue of a network interface
    ([flitBuffer] capped at [kNiOutVcMaxFlits]).  Pipeline stage and timing fields
    are left out. *)

From S2P Require Import Prelude NppReceive.

Definition W_VNET : Z := 4.
Definition kNiOutVcMaxFlits : Z := 16.

Record NocRouteInfo := mk_NocRouteInfo {
  rt_vnet : Z;
  rt_src_ni : Z;
  rt_src_router : Z;
  rt_dest_ni : Z;
  rt_dest_router : Z;
  rt_hops_traversed : Z
}.
Definition NocRouteInfo_default : NocRouteInfo :=
  {| rt_vnet := 0; rt_src_ni := 0; rt_src_router := 0; rt_dest_ni := 0; rt_dest_router := 0;
     rt_hops_traversed := 0 |}.

Inductive flit_type := HEAD_ | BODY_ | TAIL_ | HEAD_TAIL_.

Record flit (M : Type) := mk_flit {
  fl_packet_id : Z;
  fl_id : Z;
  fl_vc : Z;
  fl_vnet : Z;
  fl_route : NocRouteInfo;
  fl_size : Z;
  fl_msg : M;
  fl_type : flit_type
}.
Arguments mk_flit {M}.
Arguments fl_packet_id {M}.
Arguments fl_id {M}.
Arguments fl_vc {M}.
Arguments fl_vnet {M}.
Arguments fl_route {M}.
Arguments fl_size {M}.
Arguments fl_msg {M}.
Arguments fl_type {M}.

(** [flit(packet_id, id, vc, vnet, route, size, msg_ptr, ...)] *)
Definition new_flit {M} (packet_id id vc vnet : Z) (route : NocRouteInfo) (size : Z) (msg : M)
    : flit M :=
  {| fl_packet_id := packet_id; fl_id := id; fl_vc := vc; fl_vnet := vnet; fl_route := route;
     fl_size := size; fl_msg := msg;
     fl_type := if size =? 1 then HEAD_TAIL_
                else if id =? 0 then HEAD_
                else if id =? size - 1 then TAIL_ else BODY_ |}.

(** [NocGarnetNetwork::getNextPacketID]: the id and the counter after it.  The counter is
    an [int], so its increment is undefined at the largest value. *)
Definition getNextPacketID (m_next_packet_id : Z) : res (Z * Z) :=
  guard (m_next_packet_id + 1 <? 2 ^ 31) (FUndef "signed overflow")
    (Ok (m_next_packet_id, m_next_packet_id + 1)).
Lemma getNextPacketID_Ok n p n' : getNextPacketID n = Ok (p, n') -> p = n /\ n' = n + 1 /\ n + 1 < 2 ^ 31.
Proof. unfold getNextPacketID. intros [H [= <- <-]]%guard_Ok. by apply Z.ltb_lt in H. Qed.
Lemma getNextPacketID_room n : n + 1 < 2 ^ 31 -> getNextPacketID n = Ok (n, n + 1).
Proof. unfold getNextPacketID. intros H%Z.ltb_lt. by rewrite H. Qed.

(** The NI output queues by VC. *)
Definition niOutVcs (M : Type) : Type := gmap Z (list (flit M)).
Definition outVc {M} (q : niOutVcs M) (vc : Z) : list (flit M) := default [] (q !! vc).
Definition outVc_isFull {M} (q : niOutVcs M) (vc : Z) : bool :=
  kNiOutVcMaxFlits <=? nz (length (outVc q vc)).
(** The state change of [NetworkInterface::injectFlit]; it fails on a full queue. *)
Definition injectFlit {M} (q : niOutVcs M) (fl : flit M) (vc : Z) : option (niOutVcs M) :=
  if outVc_isFull q vc then None else Some (<[vc := outVc q vc ++ [fl]]> q).

(** ** The flits of a packet *)

Definition packet_flits {M} (pid vc vnet : Z) (route : NocRouteInfo) (n : nat) (msg : M)
    : list (flit M) :=
  (fun i => new_flit pid (nz i) vc vnet route (nz n) msg) <$> seq 0 n.

(** The [describe] argument the network interface gives the receive check. *)
Definition receive_view {M} (fl : flit M) : NppReceiveFlit :=
  {| nf_packetId := fl_packet_id fl; nf_source := rt_src_ni (fl_route fl); nf_vc := fl_vc fl;
     nf_index := fl_id fl; nf_count := fl_size fl;
     nf_head := match fl_type fl with HEAD_ | HEAD_TAIL_ => true | _ => false end;
     nf_tail := match fl_type fl with TAIL_ | HEAD_TAIL_ => true | _ => false end |}.

Lemma packet_flits_receive {M} pid vc vnet route n (msg : M) :
  receive_view <$> packet_flits pid vc vnet route n msg =
    npp_flits pid (rt_src_ni route) vc (nz n) n.
Proof.
  unfold packet_flits, npp_flits. rewrite <- list_fmap_compose. apply list_fmap_ext.
  intros k i Hi. apply list_elem_of_lookup_2, elem_of_seq in Hi.
  unfold compose, receive_view, npp_flit, new_flit. cbn.
  destruct (Z.eqb_spec (nz n) 1) as [E|E]; [|destruct (Z.eqb_spec (nz i) 0) as [E2|E2];
    [|destruct (Z.eqb_spec (nz i) (nz n - 1)) as [E3|E3]]]; f_equal; symmetry;
    first [apply Nat.eqb_eq|apply Nat.eqb_neq|apply Z.eqb_eq|apply Z.eqb_neq]; lia.
Qed.

Lemma length_packet_flits {M} pid vc vnet route n (msg : M) :
  length (packet_flits pid vc vnet route n msg) = n.
Proof. unfold packet_flits. by rewrite length_fmap, length_seq. Qed.

Lemma packet_flits_take {M} pid vc vnet route n (msg : M) k :
  (k < n)%nat ->
  take (S k) (packet_flits pid vc vnet route n msg) =
    take k (packet_flits pid vc vnet route n msg) ++ [new_flit pid (nz k) vc vnet route (nz n) msg].
Proof.
  intros Hk. apply take_S_r. unfold packet_flits. by rewrite list_lookup_fmap, lookup_seq_lt.
Qed.
