(* ===== verification/MmDepack.v ===== *)
(** * From AXI-MM packet to endpoint write beats

    [NocMemoryMsg] ([src/src/noc/core/network/NocMemoryMsg.{hh,cc}]) with the flit
    accessors of its base class ([src/src/noc/lib/network/NocMessage.hh]), and
    [depacketizeMmWriteDataFlit]
    ([src/src/noc/core/network/nsu_types/MmWriteDataDepacketizer.cc]), which turns the
    16-byte flits of a write packet into W beats of the endpoint's width.  Bytes
    travel with their write strobes.

    The theorems compose this with the write buffer of the sending side: for an
    address aligned to the endpoint's width the beats carry exactly the bytes and
    strobes of the packet; for any other address the end of every wide beat is
    lost. *)

From S2P Require Import Prelude AxiTypes Chop MmWriteBuffer NppReceive Flit.

Inductive MessagePayload :=
  | PAddr (a : aximmRWAddr)
  | PData (d : aximmRWData)
  | PResp (b : aximmWResp)
  | PAxis (d : axisData).

(** [m_pload] is the [aximmPayload] alternative, four beats; [m_rrob_tags] has
    eight tags. *)
Record NocMemoryMsg := mk_NocMemoryMsg {
  mm_payload : MessagePayload;
  mm_pload : list aximmRWData;
  mm_beat_size : Z;
  mm_num_flits : Z;
  mm_rrob_tags : list Z;
  mm_axi_rrob_tag : Z;
  mm_axi_beat_id : Z;
  mm_end_beat_idx : Z;
  mm_src_ni : Z;
  mm_vnet : Z;
  mm_debugId : Z;
  mm_original_read_bytes : Z;
  mm_final_read_chunk : bool
}.

(** The constructor; members it leaves uninitialised are 0 here and are set by the
    code before they are read. *)
Definition newNocMemoryMsg (payload : MessagePayload) (pload : list aximmRWData) : NocMemoryMsg :=
  {| mm_payload := payload; mm_pload := pload; mm_beat_size := 0; mm_num_flits := 0;
     mm_rrob_tags := zeros 8; mm_axi_rrob_tag := 0; mm_axi_beat_id := 0; mm_end_beat_idx := 0;
     mm_src_ni := 0; mm_vnet := 0; mm_debugId := -1; mm_original_read_bytes := 0;
     mm_final_read_chunk := false |}.

(** Beat [i] of [m_pload]. *)
Definition pload_at (m : NocMemoryMsg) (i : Z) : res aximmRWData :=
  of_opt (FUndef "aximmPayload index out of range") (mm_pload m !! zn i).

(** Bytes [off, off+n) of a beat's 64-byte array. *)
Definition beat_slice (d : aximmRWData) (off n : Z) : res (list Z) :=
  guard (off + n <=? 64) (FUndef "read past the data array") (Ok (slice (rd_data d) (zn off) (zn n))).

(** [NocMemoryMsg::getFlitData] *)
Definition mem_getFlitData (m : NocMemoryMsg) (flit_id : Z) : res (list Z) :=
  let beat_size := u8 (Z.shiftl 1 (mm_beat_size m)) in
  if beat_size <? 16 then
    guard (negb (beat_size =? 0)) (FUndef "division by zero") (
    let beats_per_flit := u8 (16 / beat_size) in
    let start_beat_idx := u8 (flit_id * beats_per_flit) in
    let end_beat_idx := u8 (start_beat_idx + beats_per_flit) in
    guard (start_beat_idx <? end_beat_idx) (FUndef "uninitialised flit data") (
    foldM (fun acc i => let* b := pload_at m i in
                        let* bytes := beat_slice b 0 beat_size in Ok (acc ++ bytes))
      [] (seqZ start_beat_idx (end_beat_idx - start_beat_idx))))
  else if beat_size =? 16 then
    let* b := pload_at m flit_id in beat_slice b 0 16
  else
    let flits_per_beat := u8 (beat_size / 16) in
    let beat_idx := u8 (flit_id * 16 / beat_size) in
    let* b := pload_at m beat_idx in
    beat_slice b (flit_id mod flits_per_beat * 16) 16.

(** [NocMessage::getFlitStrobe]; the branches on [valid] fall through to the
    message payload. *)
Definition payload_strobe (m : NocMemoryMsg) : Z :=
  match mm_payload m with
  | PData d => if rd_valid d then rd_wstrb d else 0
  | _ => 0
  end.
Definition getFlitStrobe (m : NocMemoryMsg) (flit_id : Z) : Z :=
  let beat_size := u8 (Z.shiftl 1 (mm_beat_size m)) in
  let beat_idx := if 64 <=? beat_size then u8 (flit_id * 16 / beat_size) else flit_id in
  match mm_pload m !! zn beat_idx with
  | Some b =>
      if negb (rd_valid b) then payload_strobe m
      else if 64 <=? beat_size
      then Z.land (Z.shiftr (rd_wstrb b) (flit_id mod u8 (beat_size / 16) * 16)) 65535
      else rd_wstrb b
  | None => payload_strobe m
  end.

(** ** [depacketizeMmWriteDataFlit] *)

Record MmWriteDataAssemblyState := mk_Assembly { aggregateData : list Z; aggregateStrobe : Z }.
Definition Assembly_empty : MmWriteDataAssemblyState := mk_Assembly (zeros 64) 0.

(** A beat and the byte range its debug ids are taken from. *)
Definition depack_out : Type := list (aximmRWData * (Z * Z)).

Definition makeDebugRange (startByte strobe : Z) : Z * Z := (startByte, popcount strobe 64).

(** Beat [i] of a narrow endpoint. *)
Definition narrowBeat (width axiId flitId numFlits beatsPerFlit : Z) (flitData : list Z)
    (flitStrobe i : Z) : res (aximmRWData * (Z * Z)) :=
  let beatStart := flitId * 16 + i * width in
  guard (width * i + width <=? 16) (FUndef "read past the flit") (
  let payloadData := copy_into (zeros 64) 0 (slice flitData (zn (width * i)) (zn width)) in
  let mask := if 64 <=? width then TKEEP_ALL else Z.shiftl 1 width - 1 in
  let beatStrobe := Z.land (Z.shiftr flitStrobe (width * i)) mask in
  Ok ({| rd_cmd := WRITE; rd_id := axiId; rd_resp := OKAY;
         rd_last := (numFlits - 1 =? flitId) && (i =? beatsPerFlit - 1);
         rd_user := 0; rd_valid := true; rd_ready := false; rd_data := payloadData;
         rd_wstrb := beatStrobe |}, makeDebugRange beatStart beatStrobe)).

Definition depacketizeMmWriteDataFlit (width axiId writeAddress : Z)
    (assembly : MmWriteDataAssemblyState) (flitId numFlits : Z) (flitData : list Z)
    (flitStrobe transferBytes : Z) : res (depack_out * MmWriteDataAssemblyState) :=
  let bytesBefore := flitId * 16 in
  let isTailFlit := numFlits - 1 =? flitId in
  if width <? 16 then
    guard (negb (width =? 0)) (FUndef "division by zero") (
    let bytesInFlit :=
      if negb (transferBytes =? 0)
      then Z.min 16 (if bytesBefore <? transferBytes then transferBytes - bytesBefore else 0)
      else 16 in
    let beatsPerFlit := u8 ((bytesInFlit + width - 1) / width) in
    let* out := foldM (fun acc i =>
        let* b := narrowBeat width axiId flitId numFlits beatsPerFlit flitData flitStrobe i in
        Ok (acc ++ [b])) [] (seqZ 0 beatsPerFlit) in
    Ok (out, assembly))
  else if width =? 16 then
    Ok ([(aximmRWData_of WRITE axiId isTailFlit (copy_into (zeros 64) 0 flitData) flitStrobe,
          makeDebugRange bytesBefore flitStrobe)], assembly)
  else
    let flitsPerBeat := u8 (width / 16) in
    guard (negb (flitsPerBeat =? 0)) (FUndef "division by zero") (
    let offsetIdx := flitId mod flitsPerBeat in
    guard (offsetIdx * 16 + 16 <=? 64) (FUndef "write past aggregateData") (
    let data := copy_into (aggregateData assembly) (zn (offsetIdx * 16)) flitData in
    let strobe := Z.lor (aggregateStrobe assembly) (u64 (Z.shiftl flitStrobe (offsetIdx * 16))) in
    if negb ((flitId + 1) mod flitsPerBeat =? 0) && negb isTailFlit
    then Ok ([], mk_Assembly data strobe)
    else
      let beatStart := flitId / flitsPerBeat * width in
      let alignShift := writeAddress mod width in
      let alignedData := if 0 <? 64 - alignShift
        then copy_into (zeros 64) (zn alignShift) (slice data 0 (zn (64 - alignShift)))
        else zeros 64 in
      guard (alignShift <? 64) (FUndef "shift count") (
      let alignedStrobe := u64 (Z.shiftl strobe alignShift) in
      Ok ([(aximmRWData_of WRITE axiId isTailFlit alignedData alignedStrobe,
            makeDebugRange beatStart alignedStrobe)], Assembly_empty)))).

(** The body message [mmNocMasterUnit::bufferHeadReadyHandler] builds for a complete
    entry of the write buffer: 64-byte beats, one flit per 16 bytes. *)
Definition body_msg (e : aximmWriteBufferEntry) : NocMemoryMsg :=
  {| mm_payload := PData aximmRWData_default; mm_pload := wb_nppData e; mm_beat_size := 6;
     mm_num_flits := u8 ((getTotalByteSize (wb_nppRequest e) + 15) / 16);
     mm_rrob_tags := zeros 8; mm_axi_rrob_tag := 0; mm_axi_beat_id := 0; mm_end_beat_idx := 0;
     mm_src_ni := 0; mm_vnet := W_VNET; mm_debugId := wb_probeDebugId e; mm_original_read_bytes := 0;
     mm_final_read_chunk := false |}.

(** The slave unit on one data flit of a packet: [assembly] is the packet's
    assembly state. *)
Definition writeDataFlit (width axiId writeAddress transferBytes : Z) (m : NocMemoryMsg)
    (acc : MmWriteDataAssemblyState * depack_out) (flit_id : Z)
    : res (MmWriteDataAssemblyState * depack_out) :=
  let* flit_data := mem_getFlitData m flit_id in
  let* (out, assembly) := depacketizeMmWriteDataFlit width axiId writeAddress acc.1 flit_id
    (mm_num_flits m) flit_data (getFlitStrobe m flit_id) transferBytes in
  Ok (assembly, acc.2 ++ out).

(** All data flits of a packet, in order. *)
Definition writeDataPacket (width axiId writeAddress transferBytes : Z) (m : NocMemoryMsg)
    : res depack_out :=
  let* (_, out) := foldM (writeDataFlit width axiId writeAddress transferBytes m)
    (Assembly_empty, []) (seqZ 0 (mm_num_flits m)) in
  Ok out.

(** ** Bytes with strobes *)

Lemma length_beat_content data w n : length (beat_content data w n) = zn n.
Proof. unfold beat_content. by rewrite length_fmap, length_seqZ. Qed.

Lemma lookup_beat_content data w n i : (i < zn n)%nat ->
  beat_content data w n !! i = Some (byte_at data i, Z.testbit w (nz i)).
Proof.
  intros Hi. unfold beat_content. rewrite list_lookup_fmap.
  rewrite (lookup_seqZ_lt 0 n i) by lia. cbn. by rewrite Z.add_0_l, Nat2Z.id.
Qed.

(** Bytes [off, off+n) of an NPP payload. *)
Definition pl_byte (l : list aximmRWData) (i : Z) : Z :=
  byte_at (rd_data (nth (zn (i / 64)) l aximmRWData_default)) (zn (i mod 64)).
Definition pl_strb (l : list aximmRWData) (i : Z) : bool :=
  Z.testbit (rd_wstrb (nth (zn (i / 64)) l aximmRWData_default)) (i mod 64).
Definition npp_content (l : list aximmRWData) (off n : Z) : list (Z * bool) :=
  (fun i => (pl_byte l i, pl_strb l i)) <$> seqZ off n.

Lemma npp_content_app l off n m : 0 <= n -> 0 <= m ->
  npp_content l off n ++ npp_content l (off + n) m = npp_content l off (n + m).
Proof. intros. unfold npp_content. by rewrite <- fmap_app, <- seqZ_app. Qed.

Lemma length_npp_content l off n : length (npp_content l off n) = zn n.
Proof. unfold npp_content. by rewrite length_fmap, length_seqZ. Qed.

Lemma take_npp_content l off n m : 0 <= m <= n -> take (zn m) (npp_content l off n) = npp_content l off m.
Proof.
  intros. replace n with (m + (n - m)) by lia. rewrite <- npp_content_app by lia.
  rewrite take_app_le by (rewrite length_npp_content; lia).
  apply take_ge. rewrite length_npp_content. lia.
Qed.

Lemma wb_content_npp e : wb_numEmptyBytes e = 0 -> wb_content e = npp_content (wb_nppData e) 0 (wb_total e).
Proof. intros E. unfold wb_content. rewrite E, Z.sub_0_r. done. Qed.

Section Payload.
Context (m : NocMemoryMsg).
Hypothesis Hlen : length (mm_pload m) = 4%nat.
Hypothesis Hshape : Forall beat_shape (mm_pload m).
Hypothesis Hvalid : Forall (fun b => rd_valid b = true) (mm_pload m).
Hypothesis Hbeat : mm_beat_size m = 6.

Lemma flit_beat k : 0 <= k < 16 ->
  exists b, mm_pload m !! zn (k / 4) = Some b /\ beat_shape b /\ rd_valid b = true /\
    forall j, 0 <= j < 16 -> nth (zn ((16 * k + j) / 64)) (mm_pload m) aximmRWData_default = b.
Proof using Hlen Hshape Hvalid.
  intros Hk. destruct (lookup_lt_is_Some_2 (mm_pload m) (zn (k / 4))) as [b Hb]; [mlia|].
  exists b. split; [done|]. split; [by eapply Forall_lookup_1|]. split; [by apply (Forall_lookup_1 _ _ _ _ Hvalid Hb)|].
  intros j Hj. replace ((16 * k + j) / 64) with (k / 4) by mlia. by rewrite nth_lookup, Hb.
Qed.

(** A flit holds the 16 bytes of its position with their strobes. *)
Lemma flit_content k : 0 <= k < 16 -> exists data,
  mem_getFlitData m k = Ok data /\ length data = 16%nat /\ 0 <= getFlitStrobe m k < 65536 /\
  beat_content data (getFlitStrobe m k) 16 = npp_content (mm_pload m) (16 * k) 16.
Proof using Hlen Hshape Hvalid Hbeat.
  intros Hk. destruct (flit_beat k Hk) as (b & Hb & [Hd Hs] & Hv & Hn).
  unfold mem_getFlitData, getFlitStrobe. rewrite Hbeat. change (u8 (Z.shiftl 1 6)) with 64.
  change (64 <? 16) with false. change (64 =? 16) with false. change (64 <=? 64) with true.
  change (u8 (64 / 16)) with 4. cbv iota.
  replace (u8 (k * 16 / 64)) with (k / 4) by (rewrite u8_small; mlia).
  unfold pload_at. rewrite Hb, Hv. cbn [of_opt rbind negb]. unfold beat_slice.
  rewrite (proj2 (Z.leb_le _ _)) by mlia. cbn [guard]. eexists. split; [reflexivity|].
  rewrite length_slice by mlia. split; [done|]. split.
  { change 65535 with (Z.ones 16). rewrite Z.land_ones by done. mlia. }
  apply list_eq_same_length with 16%nat; [by rewrite length_npp_content|by rewrite length_beat_content|].
  intros i [x1 x2] [y1 y2] Hi. rewrite lookup_beat_content by done. unfold npp_content.
  rewrite list_lookup_fmap, (lookup_seqZ_lt _ _ i) by lia. cbn [fmap option_fmap option_map].
  intros [= <- <-] [= <- <-]. unfold pl_byte, pl_strb. rewrite !(Hn (nz i)) by lia.
  rewrite byte_at_slice by lia. f_equal; [f_equal; mlia|].
  rewrite Z.land_spec, Z.shiftr_spec by lia. change 65535 with (Z.ones 16).
  rewrite Z.testbit_ones_nonneg by lia. rewrite (proj2 (Z.ltb_lt _ _)) by lia.
  rewrite andb_true_r. f_equal. mlia.
Qed.
End Payload.

(** ** One flit *)

(** The lanes of a list of beats, [W] of each. *)
Definition beats_content (W : Z) (out : depack_out) : list (Z * bool) :=
  concat ((fun b => beat_content (rd_data b.1) (rd_wstrb b.1) W) <$> out).
Definition lasts (out : depack_out) : list bool := (fun b => rd_last b.1) <$> out.

Lemma beats_content_app W o1 o2 : beats_content W (o1 ++ o2) = beats_content W o1 ++ beats_content W o2.
Proof. unfold beats_content. by rewrite fmap_app, concat_app. Qed.

Lemma beat_content_ext data1 w1 data2 w2 n :
  (forall i, (i < zn n)%nat -> byte_at data1 i = byte_at data2 i /\ Z.testbit w1 (nz i) = Z.testbit w2 (nz i)) ->
  beat_content data1 w1 n = beat_content data2 w2 n.
Proof.
  intros H. apply list_eq_same_length with (zn n); [apply length_beat_content..|].
  intros i x y Hi. rewrite !lookup_beat_content by done. destruct (H i Hi) as [-> ->]. by intros [= <-] [= <-].
Qed.

Lemma take_beat_content data w n k : 0 <= k <= n -> take (zn k) (beat_content data w n) = beat_content data w k.
Proof.
  intros. unfold beat_content. rewrite <- fmap_take. f_equal.
  replace n with (k + (n - k)) by lia. rewrite seqZ_app by lia.
  rewrite take_app_le by (rewrite length_seqZ; lia). apply take_ge. rewrite length_seqZ. lia.
Qed.

Lemma byte_at_zeros n i : byte_at (zeros n) i = 0.
Proof.
  unfold byte_at, zeros. rewrite nth_lookup. destruct (decide (i < n)%nat).
  - by rewrite lookup_replicate_2.
  - by rewrite lookup_ge_None_2 by (rewrite length_replicate; lia).
Qed.

(** The lanes of a narrow beat are a slice of the flit. *)
Lemma narrowBeat_content W axiId k n nb data strobe i :
  0 < W < 16 -> 0 <= i -> W * i + W <= 16 -> length data = 16%nat ->
  exists b r, narrowBeat W axiId k n nb data strobe i = Ok (b, r) /\
    beat_content (rd_data b) (rd_wstrb b) W = slice (beat_content data strobe 16) (zn (W * i)) (zn W) /\
    rd_last b = (n - 1 =? k) && (i =? nb - 1) /\ rd_id b = axiId /\ rd_valid b = true.
Proof.
  intros HW Hi Hle Hd. unfold narrowBeat. rewrite (proj2 (Z.leb_le _ _)) by lia. cbn [guard].
  eexists _, _. split; [reflexivity|]. cbn [rd_data rd_wstrb rd_last rd_id rd_valid]. split; [|done].
  rewrite (proj2 (Z.leb_gt _ _)) by lia.
  apply list_eq_same_length with (zn W);
    [rewrite length_slice; [done|rewrite length_beat_content; nia]|by rewrite length_beat_content|].
  intros j x y Hj. rewrite lookup_beat_content by done. rewrite lookup_slice by done.
  rewrite lookup_beat_content by nia. intros [= <-] [= <-]. f_equal.
  - rewrite byte_at_copy; rewrite length_slice by nia; [|cbn; lia]. rewrite decide_True by lia.
    rewrite Nat.sub_0_r. by rewrite byte_at_slice by done.
  - rewrite Z.land_spec, Z.shiftr_spec by lia. change (Z.shiftl 1 W - 1) with (Z.ones W).
    rewrite Z.testbit_ones_nonneg by lia. rewrite (proj2 (Z.ltb_lt _ _)) by lia.
    rewrite andb_true_r. f_equal. nia.
Qed.

Lemma slice_take {A} (l : list A) (a b : nat) : take a l ++ slice l a b = take (a + b) l.
Proof. unfold slice. apply take_take_drop. Qed.

Lemma narrow_beats W axiId k n nb data strobe (c : nat) :
  0 < W < 16 -> length data = 16%nat -> W * nz c <= 16 ->
  exists out, foldM (fun acc i =>
      let* b := narrowBeat W axiId k n nb data strobe i in Ok (acc ++ [b])) [] (seqZ 0 (nz c)) = Ok out /\
    length out = c /\ beats_content W out = take (zn (W * nz c)) (beat_content data strobe 16) /\
    lasts out = (fun i => (n - 1 =? k) && (i =? nb - 1)) <$> seqZ 0 (nz c) /\
    Forall (fun b => rd_id b.1 = axiId /\ rd_valid b.1 = true) out.
Proof.
  intros HW Hd. induction c as [|c IH]; intros Hc.
  { exists []. split; [done|]. rewrite Z.mul_0_r. by repeat split. }
  destruct IH as (out & E & Hl & Hb & Hla & Hf); [lia|].
  destruct (narrowBeat_content W axiId k n nb data strobe (nz c)) as (b & r & Eb & Hcb & Hlast & Hid); [lia..|nia|done|].
  exists (out ++ [(b, r)]). replace (nz (S c)) with (nz c + 1) by lia.
  rewrite seqZ_app, foldM_app by lia. rewrite E. cbn [rbind].
  change (seqZ (0 + nz c) 1) with [0 + nz c]. rewrite Z.add_0_l. cbn [foldM]. rewrite Eb. cbn [rbind].
  split; [done|]. split; [rewrite length_app; cbn; lia|]. split; [|split].
  - rewrite beats_content_app, Hb. unfold beats_content. cbn [fmap list_fmap concat]. rewrite app_nil_r.
    cbn [fst]. rewrite Hcb, slice_take. f_equal. nia.
  - unfold lasts in *. rewrite !fmap_app, Hla. f_equal. cbn [fmap list_fmap]. cbn [fst]. by rewrite Hlast.
  - apply Forall_app. split; [done|]. constructor; [done|constructor].
Qed.

Definition zero_lane : Z * bool := (0, false).

(** Copying a flit into the assembly. *)
Lemma assembly_content agg strobe data fs (off : nat) :
  length agg = 64%nat -> length data = 16%nat -> (off + 16 <= 64)%nat -> 0 <= fs < 65536 ->
  beat_content (copy_into agg off data) (Z.lor strobe (u64 (Z.shiftl fs (nz off)))) 64 =
    copy_into (beat_content agg strobe 64) off
      (zip_with (fun a b => (b.1, orb a.2 b.2)) (slice (beat_content agg strobe 64) off 16)
        (beat_content data fs 16)).
Proof.
  intros Ha Hd Ho Hf.
  assert (Hz : length (zip_with (fun a b : Z * bool => (b.1, orb a.2 b.2))
    (slice (beat_content agg strobe 64) off 16) (beat_content data fs 16)) = 16%nat).
  { rewrite length_zip_with, length_slice, length_beat_content by (rewrite length_beat_content; lia). done. }
  apply list_eq_same_length with 64%nat;
    [by rewrite length_copy_into, length_beat_content|by rewrite length_beat_content|].
  intros i x y Hi. rewrite lookup_beat_content by done. intros [= <-].
  rewrite byte_at_copy by lia. rewrite Z.lor_spec, u64_testbit, Z.shiftl_spec by lia.
  destruct (decide (off <= i < off + 16)%nat) as [Hin|Hout].
  - rewrite (lookup_copy_into_in _ _ _ _) by (rewrite ?Hz, ?length_beat_content; lia).
    rewrite lookup_zip_with, lookup_slice by lia. rewrite !lookup_beat_content by lia.
    cbn. intros [= <-]. rewrite decide_True by lia.
    replace (nz i - nz off) with (nz (i - off)) by lia. replace (off + (i - off))%nat with i by lia. done.
  - rewrite lookup_copy_into_out by (rewrite ?Hz; lia). rewrite lookup_beat_content by lia.
    intros [= <-]. rewrite decide_False by lia. f_equal.
    assert (Z.testbit fs (nz i - nz off) = false) as ->; [|by rewrite orb_false_r].
    destruct (decide (i < off)%nat); [by rewrite Z.testbit_neg_r by lia|].
    destruct (Z.eq_dec fs 0) as [->|]; [apply Z.testbit_0_l|].
    apply Z.bits_above_log2; [lia|]. apply (Z.lt_le_trans _ 16); [|lia]. by apply Z.log2_lt_pow2; lia.
Qed.

(** An assembly that holds [c] and nothing after it. *)
Definition holds (a : MmWriteDataAssemblyState) (c : list (Z * bool)) : Prop :=
  length (aggregateData a) = 64%nat /\ (length c <= 64)%nat /\
  beat_content (aggregateData a) (aggregateStrobe a) 64 = c ++ replicate (64 - length c) zero_lane.

Lemma holds_empty : holds Assembly_empty [].
Proof. split; [done|]. split; [cbn; lia|]. by vm_compute. Qed.

Lemma holds_add a c data fs : holds a c -> length data = 16%nat -> 0 <= fs < 65536 ->
  (length c + 16 <= 64)%nat ->
  holds (mk_Assembly (copy_into (aggregateData a) (length c) data)
          (Z.lor (aggregateStrobe a) (u64 (Z.shiftl fs (nz (length c))))))
    (c ++ beat_content data fs 16).
Proof.
  intros (Ha & Hc & E) Hd Hf Hl. split; [by cbn; rewrite length_copy_into|].
  rewrite length_app, length_beat_content. split; [cbn; lia|]. cbn [aggregateData aggregateStrobe].
  rewrite assembly_content by done. rewrite E. set (n := length c) in *.
  assert (slice (c ++ replicate (64 - n) zero_lane) n 16 = replicate 16 zero_lane) as ->.
  { unfold slice. rewrite drop_app_length', take_replicate by done. f_equal. lia. }
  assert (zip_with (fun a b : Z * bool => (b.1, orb a.2 b.2)) (replicate 16 zero_lane) (beat_content data fs 16)
          = beat_content data fs 16) as ->.
  { apply list_eq. intros i. rewrite lookup_zip_with. destruct (decide (i < 16)%nat).
    - rewrite lookup_replicate_2, lookup_beat_content by done. done.
    - rewrite (lookup_ge_None_2 (replicate _ _)) by (rewrite length_replicate; lia).
      by rewrite lookup_ge_None_2 by (rewrite length_beat_content; lia). }
  apply list_eq_same_length with 64%nat.
  - rewrite !length_app, length_replicate, length_beat_content. subst n. change (zn 16) with 16%nat. lia.
  - rewrite length_copy_into, length_app, length_replicate. fold n. lia.
  - intros i x y Hi. destruct (decide (i < n)%nat) as [H1|H1].
    + rewrite lookup_copy_into_out by lia. rewrite !lookup_app_l by (rewrite ?length_app; fold n; lia). congruence.
    + destruct (decide (i < n + 16)%nat) as [H2|H2].
      * rewrite lookup_copy_into_in by (rewrite ?length_beat_content, ?length_app, ?length_replicate; fold n; lia).
        rewrite lookup_app_l by (rewrite length_app, length_beat_content; fold n; lia).
        rewrite lookup_app_r by (fold n; lia). fold n. congruence.
      * rewrite lookup_copy_into_out by (rewrite length_beat_content; lia).
        rewrite !lookup_app_r by (rewrite ?length_app, ?length_beat_content; fold n; lia).
        rewrite !lookup_replicate_2 by (rewrite ?length_app, ?length_beat_content; fold n; lia). congruence.
Qed.

Lemma aligned_content agg strobe s : length agg = 64%nat -> 0 <= s < 64 ->
  beat_content (copy_into (zeros 64) (zn s) (slice agg 0 (zn (64 - s)))) (u64 (Z.shiftl strobe s)) 64 =
    replicate (zn s) zero_lane ++ take (zn (64 - s)) (beat_content agg strobe 64).
Proof.
  intros Ha Hs. apply list_eq_same_length with 64%nat.
  - rewrite length_app, length_replicate, length_take, length_beat_content. change (zn 64) with 64%nat. lia.
  - by rewrite length_beat_content.
  - intros i x y Hi. rewrite lookup_beat_content by done. intros [= <-].
    rewrite byte_at_copy by (rewrite length_slice; cbn; lia). rewrite length_slice by lia.
    rewrite u64_testbit, Z.shiftl_spec by lia. destruct (decide (i < zn s)%nat) as [H|H].
    + rewrite lookup_app_l, lookup_replicate_2 by (rewrite ?length_replicate; done).
      intros [= <-]. rewrite decide_False, byte_at_zeros, Z.testbit_neg_r by lia. done.
    + rewrite lookup_app_r, length_replicate by (rewrite length_replicate; lia).
      rewrite lookup_take_lt, lookup_beat_content by lia. intros [= <-].
      rewrite decide_True, byte_at_slice by lia. f_equal. f_equal. lia.
Qed.

(** [c] padded to the width of a beat, and what remains of it when it is moved up
    by [s] lanes. *)
Definition padded (W : Z) (c : list (Z * bool)) : list (Z * bool) :=
  c ++ replicate (zn W - length c) zero_lane.
Definition moved (W s : Z) (c : list (Z * bool)) : list (Z * bool) :=
  replicate (zn s) zero_lane ++ take (zn (W - s)) (padded W c).

Lemma aligned_moved a c W s : holds a c -> 0 <= s < W -> W <= 64 -> (length c <= zn W)%nat ->
  beat_content (copy_into (zeros 64) (zn s) (slice (aggregateData a) 0 (zn (64 - s))))
    (u64 (Z.shiftl (aggregateStrobe a) s)) W = moved W s c.
Proof.
  intros (Ha & Hc & E) Hs HW Hl. rewrite <- (take_beat_content _ _ 64) by lia.
  rewrite aligned_content by lia. rewrite E, take_app_ge by (rewrite length_replicate; lia).
  rewrite length_replicate. unfold moved, padded. f_equal. rewrite take_take.
  replace (zn W - zn s)%nat with (zn (W - s)) by lia. rewrite Nat.min_l by lia.
  destruct (decide (zn (W - s) <= length c)%nat).
  - by rewrite !take_app_le by done.
  - rewrite !take_app_ge by lia. f_equal. rewrite !take_replicate. f_equal. lia.
Qed.

Lemma wide_step W id addr a c n k data fs T : W = 32 \/ W = 64 ->
  0 <= k < n -> n <= 16 -> holds a c -> nz (length c) = 16 * (k mod (W / 16)) ->
  length data = 16%nat -> 0 <= fs < 65536 ->
  let c' := c ++ beat_content data fs 16 in
  exists out a', depacketizeMmWriteDataFlit W id addr a k n data fs T = Ok (out, a') /\
  if negb ((k + 1) mod (W / 16) =? 0) && negb (n - 1 =? k) then out = [] /\ holds a' c'
  else a' = Assembly_empty /\ exists b r, out = [(b, r)] /\
    beat_content (rd_data b) (rd_wstrb b) W = moved W (addr mod W) c' /\
    rd_last b = (n - 1 =? k) /\ rd_id b = id /\ rd_valid b = true.
Proof.
  intros HW Hk Hn Ha Hc Hd Hf c'. unfold depacketizeMmWriteDataFlit.
  assert (HW16 : 2 <= W / 16 <= 4 /\ 16 * (W / 16) = W) by (destruct HW; subst W; by vm_compute).
  rewrite (proj2 (Z.ltb_ge _ _)), (proj2 (Z.eqb_neq _ _)) by lia.
  rewrite (u8_small (W / 16)) by lia. rewrite (proj2 (Z.eqb_neq (W / 16) 0)) by lia. cbn [negb guard].
  pose proof (Z.mod_pos_bound k (W / 16) ltac:(lia)) as Hm.
  rewrite (proj2 (Z.leb_le _ _)) by lia. cbn [guard].
  replace (k mod (W / 16) * 16) with (nz (length c)) by lia. rewrite Nat2Z.id.
  assert (Ha' := holds_add a c data fs Ha Hd Hf ltac:(lia)). fold c' in Ha'.
  destruct (negb _ && negb _); [by eexists _, _|].
  pose proof (Z.mod_pos_bound addr W ltac:(lia)) as Hs.
  rewrite (proj2 (Z.ltb_lt 0 _)), (proj2 (Z.ltb_lt _ 64)) by lia. cbn [guard].
  eexists _, _. split; [reflexivity|]. split; [done|]. eexists _, _. split; [reflexivity|].
  split; [|done]. cbn [rd_data rd_wstrb aximmRWData_of].
  apply (aligned_moved _ _ _ _ Ha'); [lia..|]. subst c'. rewrite length_app, length_beat_content.
  change (zn 16) with 16%nat. lia.
Qed.

(** ** One packet *)

Lemma seqZ_last b : 0 < b -> seqZ 0 b = seqZ 0 (b - 1) ++ [b - 1].
Proof. intros. replace b with (b - 1 + 1) at 1 by lia. by rewrite seqZ_app by lia. Qed.

Lemma fmap_false {A} (f : A -> bool) (l : list A) :
  (forall x, x ∈ l -> f x = false) -> f <$> l = replicate (length l) false.
Proof.
  intros H. induction l as [|x l IH]; [done|]. cbn. rewrite H by left. f_equal. apply IH.
  intros y Hy. apply H. by right.
Qed.

Definition widths : list Z := [1; 2; 4; 8; 16; 32; 64].

Definition from_id (id : Z) (b : aximmRWData * (Z * Z)) : Prop := rd_id b.1 = id /\ rd_valid b.1 = true.

Section Packet.
Context (m : NocMemoryMsg) (T : Z) (id addr : Z).
Hypothesis Hlen : length (mm_pload m) = 4%nat.
Hypothesis Hshape : Forall beat_shape (mm_pload m).
Hypothesis Hvalid : Forall (fun b => rd_valid b = true) (mm_pload m).
Hypothesis Hbeat : mm_beat_size m = 6.
Hypothesis HT : 1 <= T <= 256.
Hypothesis Hn : mm_num_flits m = (T + 15) / 16.
Abbreviation l := (mm_pload m).
Abbreviation n := (mm_num_flits m).

Lemma n_range : 1 <= n <= 16 /\ 16 * (n - 1) < T <= 16 * n.
Proof using HT Hn. rewrite Hn. clear - HT. mlia. Qed.

(** Beats a flit gives an endpoint of at most 16 bytes. *)
Definition beats_in (W k : Z) : Z := (Z.min 16 (T - 16 * k) + W - 1) / W.

Lemma small_flit W a out k : W ∈ [1; 2; 4; 8; 16] -> 0 <= k < n ->
  exists out', writeDataFlit W id addr T m (a, out) k = Ok (a, out ++ out') /\
    nz (length out') = beats_in W k /\
    beats_content W out' = npp_content l (16 * k) (W * beats_in W k) /\
    lasts out' = (fun i => (n - 1 =? k) && (i =? beats_in W k - 1)) <$> seqZ 0 (beats_in W k) /\
    Forall (from_id id) out'.
Proof using Hlen Hshape Hvalid Hbeat HT Hn.
  intros HW Hk. pose proof n_range as Hr.
  destruct (flit_content m Hlen Hshape Hvalid Hbeat k) as (data & Ed & Hd & Hs & Hc); [lia|].
  unfold writeDataFlit. rewrite Ed. cbn [rbind fst snd]. unfold depacketizeMmWriteDataFlit, beats_in.
  destruct (decide (W = 16)) as [->|Hne].
  - change (16 <? 16) with false. change (16 =? 16) with true. cbv iota. cbn [rbind].
    eexists. split; [reflexivity|]. replace ((Z.min 16 (T - 16 * k) + 16 - 1) / 16) with 1 by mlia.
    split; [done|]. split; [|split; [cbn; by destruct (n - 1 =? k)|by repeat constructor]].
    unfold beats_content. cbn [fmap list_fmap concat fst rd_data rd_wstrb aximmRWData_of].
    rewrite app_nil_r. change (16 * 1) with 16. rewrite <- Hc. apply beat_content_ext. intros i Hi. split; [|done].
    rewrite byte_at_copy by (cbn; lia). rewrite decide_True by lia. by rewrite Nat.sub_0_r.
  - assert (HW' : 0 < W < 16 /\ exists q, W * q = 16).
    { assert (W * (16 / W) = 16 /\ 0 < W <= 16) as [H1 H2]; [|split; [lia|by exists (16 / W)]].
      repeat (apply elem_of_cons in HW as [-> | HW]; [done|]). by apply not_elem_of_nil in HW. }
    destruct HW' as [HW' [q Hq]]. rewrite (proj2 (Z.ltb_lt W 16)) by lia.
    rewrite (proj2 (Z.eqb_neq W 0)), (proj2 (Z.eqb_neq T 0)) by lia. cbn [negb guard].
    replace (k * 16) with (16 * k) by lia. rewrite (proj2 (Z.ltb_lt (16 * k) T)) by lia.
    set (b := Z.min 16 (T - 16 * k)). assert (Hb : 1 <= b <= 16) by (subst b; lia).
    assert (Hnb : 1 <= (b + W - 1) / W /\ W * ((b + W - 1) / W) <= 16).
    { split; [apply Z.div_le_lower_bound; lia|]. rewrite <- Hq. apply Z.mul_le_mono_nonneg_l; [lia|].
      apply Z.lt_succ_r, Z.div_lt_upper_bound; nia. }
    rewrite u8_small by nia. set (nb := (b + W - 1) / W) in *.
    destruct (narrow_beats W id k n nb data (getFlitStrobe m k) (zn nb)) as (o & E & H1 & H2 & H3 & H4); [lia|done|nia|].
    rewrite Z2Nat.id in E, H2, H3 by lia. rewrite E. cbn [rbind].
    eexists. split; [reflexivity|]. split; [lia|]. split; [|done].
    rewrite H2, Hc, take_npp_content by nia. done.
Qed.

Lemma lasts_app o1 o2 : lasts (o1 ++ o2) = lasts o1 ++ lasts o2.
Proof. unfold lasts. by rewrite fmap_app. Qed.

Lemma small_fold W (k : nat) : W ∈ [1; 2; 4; 8; 16] -> nz k < n ->
  exists out, foldM (writeDataFlit W id addr T m) (Assembly_empty, []) (seqZ 0 (nz k)) = Ok (Assembly_empty, out) /\
    W * nz (length out) = 16 * nz k /\ beats_content W out = npp_content l 0 (16 * nz k) /\
    lasts out = replicate (length out) false /\ Forall (from_id id) out.
Proof using Hlen Hshape Hvalid Hbeat HT Hn.
  intros HW. pose proof n_range as Hr. induction k as [|k IH]; intros Hk.
  { exists []. split; [done|]. by rewrite !Z.mul_0_r. }
  destruct IH as (out & E & H1 & H2 & H3 & H4); [lia|].
  destruct (small_flit W Assembly_empty out (nz k) HW) as (o & E2 & G1 & G2 & G3 & G4); [lia|].
  replace (nz (S k)) with (nz k + 1) by lia. rewrite seqZ_app, foldM_app by lia. rewrite E. cbn [rbind].
  change (seqZ (0 + nz k) 1) with [0 + nz k]. rewrite Z.add_0_l. cbn [foldM]. rewrite E2. cbn [rbind].
  assert (Hb : W * beats_in W (nz k) = 16).
  { unfold beats_in. rewrite Z.min_l by lia.
    repeat (apply elem_of_cons in HW as [-> | HW]; [done|]). by apply not_elem_of_nil in HW. }
  exists (out ++ o). split; [done|]. rewrite length_app. split; [lia|]. split; [|split; [|by apply Forall_app]].
  - rewrite beats_content_app, H2, G2, Hb. rewrite npp_content_app by lia. f_equal. lia.
  - rewrite lasts_app, H3, G3, replicate_add. f_equal. rewrite fmap_false.
    + rewrite length_seqZ. f_equal. lia.
    + intros i _. by rewrite (proj2 (Z.eqb_neq _ _)) by lia.
Qed.

(** The lanes of a list of beats, beat by beat. *)
Definition lanes (W : Z) (out : depack_out) : list (list (Z * bool)) :=
  (fun b => beat_content (rd_data b.1) (rd_wstrb b.1) W) <$> out.

(** Block [j] of an endpoint of [W] bytes: the bytes of the flits in it. *)
Definition block (W j : Z) : list (Z * bool) := npp_content l (W * j) (Z.min W (16 * n - W * j)).

Lemma wide_flit W a out k : W = 32 \/ W = 64 -> 0 <= k < n ->
  holds a (npp_content l (W * (k / (W / 16))) (16 * (k mod (W / 16)))) ->
  let c' := npp_content l (W * (k / (W / 16))) (16 * (k mod (W / 16)) + 16) in
  exists out' a', writeDataFlit W id addr T m (a, out) k = Ok (a', out ++ out') /\
  if negb ((k + 1) mod (W / 16) =? 0) && negb (n - 1 =? k) then out' = [] /\ holds a' c'
  else a' = Assembly_empty /\ lanes W out' = [moved W (addr mod W) c'] /\
    lasts out' = [n - 1 =? k] /\ Forall (from_id id) out'.
Proof using Hlen Hshape Hvalid Hbeat HT Hn.
  intros HW Hk Ha c'. pose proof n_range as Hr.
  destruct (flit_content m Hlen Hshape Hvalid Hbeat k) as (data & Ed & Hd & Hs & Hc); [lia|].
  unfold writeDataFlit. rewrite Ed. cbn [rbind fst snd].
  assert (HW16 : 2 <= W / 16 /\ 16 * (W / 16) = W) by (destruct HW; subst W; by vm_compute).
  pose proof (Z.mod_pos_bound k (W / 16) ltac:(lia)) as Hm.
  destruct (wide_step W id addr a _ n k data (getFlitStrobe m k) T HW ltac:(lia) ltac:(lia) Ha) as (o & a' & E & H);
    [rewrite length_npp_content; lia|done|done|]. rewrite E. cbn [rbind].
  assert (npp_content l (W * (k / (W / 16))) (16 * (k mod (W / 16))) ++ beat_content data (getFlitStrobe m k) 16 = c') as Ec.
  { rewrite Hc. subst c'. rewrite <- npp_content_app by lia. f_equal. f_equal.
    rewrite (Z.div_mod k (W / 16)) at 1 by lia. rewrite Z.mul_add_distr_l, Z.mul_assoc. lia. }
  rewrite Ec in H. exists o, a'. split; [done|]. destruct (negb _ && negb _); [done|].
  destruct H as (-> & b & r & -> & H1 & H2 & H3). split; [done|]. split; [|split; [by cbn; rewrite H2|by apply Forall_singleton]].
  unfold lanes. cbn [fmap list_fmap fst]. by rewrite H1.
Qed.

Lemma wide_fold W (k : nat) : W = 32 \/ W = 64 -> nz k < n ->
  exists a out, foldM (writeDataFlit W id addr T m) (Assembly_empty, []) (seqZ 0 (nz k)) = Ok (a, out) /\
    holds a (npp_content l (W * (nz k / (W / 16))) (16 * (nz k mod (W / 16)))) /\
    lanes W out = (fun j => moved W (addr mod W) (block W j)) <$> seqZ 0 (nz k / (W / 16)) /\
    lasts out = replicate (zn (nz k / (W / 16))) false /\ Forall (from_id id) out.
Proof using Hlen Hshape Hvalid Hbeat HT Hn.
  intros HW. pose proof n_range as Hr.
  assert (HW16 : 2 <= W / 16 /\ 16 * (W / 16) = W) by (destruct HW; subst W; by vm_compute).
  induction k as [|k IH]; intros Hk.
  { exists Assembly_empty, []. split; [done|]. rewrite Z.mod_0_l, Z.div_0_l by lia. split; [apply holds_empty|done]. }
  destruct IH as (a & out & E & H1 & H2 & H3 & H4); [lia|].
  destruct (wide_flit W a out (nz k) HW ltac:(lia) H1) as (o & a' & E2 & G).
  replace (nz (S k)) with (nz k + 1) by lia. rewrite seqZ_app, foldM_app by lia. rewrite E. cbn [rbind].
  change (seqZ (0 + nz k) 1) with [0 + nz k]. rewrite Z.add_0_l. cbn [foldM]. rewrite E2. cbn [rbind].
  exists a', (out ++ o). split; [done|]. rewrite (proj2 (Z.eqb_neq (n - 1) _)) in G by lia.
  rewrite andb_true_r in G. set (q := W / 16) in *.
  pose proof (Z.div_mod (nz k) q ltac:(lia)) as D. pose proof (Z.mod_pos_bound (nz k) q ltac:(lia)) as B.
  destruct (Z.eqb_spec ((nz k + 1) mod q) 0) as [Ez|Ez]; cbn [negb] in G.
  - assert (nz k mod q = q - 1) as Em.
    { rewrite Zplus_mod in Ez. rewrite (Z.mod_small 1) in Ez by lia.
      destruct (Z.lt_ge_cases (nz k mod q + 1) q); [rewrite Z.mod_small in Ez|]; lia. }
    assert ((nz k + 1) / q = nz k / q + 1) as Ed.
    { symmetry. apply (Z.div_unique _ _ _ 0); lia. }
    destruct G as (-> & G2 & G3 & G4). rewrite Ez, Ed, Z.mul_0_r. split; [apply holds_empty|].
    assert (0 <= nz k / q) by (apply Z.div_pos; lia).
    split; [|split; [|by apply Forall_app]].
    + unfold lanes in *. rewrite fmap_app, H2, seqZ_app, fmap_app by lia. f_equal. rewrite G2.
      change (seqZ (0 + nz k / q) 1) with [0 + nz k / q]. cbn [fmap list_fmap]. rewrite Z.add_0_l. f_equal. f_equal.
      unfold block. f_equal. nia.
    + rewrite lasts_app, H3, G3, Z2Nat.inj_add, replicate_add by lia. done.
  - assert (nz k mod q + 1 < q).
    { destruct (Z.lt_ge_cases (nz k mod q + 1) q); [done|]. exfalso. apply Ez.
      replace (nz k + 1) with ((nz k / q + 1) * q) by nia. apply Z.mod_mul. lia. }
    assert ((nz k + 1) / q = nz k / q) as Ed.
    { symmetry. apply (Z.div_unique _ _ _ (nz k mod q + 1)); lia. }
    assert ((nz k + 1) mod q = nz k mod q + 1) as Em.
    { symmetry. apply (Z.mod_unique _ _ (nz k / q)); lia. }
    destruct G as [-> G]. rewrite Ed, Em, app_nil_r. split; [|done].
    by replace (16 * (nz k mod q + 1)) with (16 * (nz k mod q) + 16) by lia.
Qed.

(** Beats of the whole transfer. *)
Definition beats_of (W : Z) : Z := (T + W - 1) / W.

Lemma packet_last_flit W a out r : foldM (writeDataFlit W id addr T m) (Assembly_empty, []) (seqZ 0 (n - 1)) = Ok (a, out) ->
  writeDataFlit W id addr T m (a, out) (n - 1) = Ok r -> writeDataPacket W id addr T m = Ok r.2.
Proof using HT Hn.
  intros E1 E2. pose proof n_range as Hr. clear Hlen Hshape Hvalid Hbeat. unfold writeDataPacket.
  rewrite seqZ_last, foldM_app, E1 by lia. cbn [rbind foldM]. rewrite E2. by destruct r.
Qed.

Lemma small_packet W : W ∈ [1; 2; 4; 8; 16] ->
  exists out, writeDataPacket W id addr T m = Ok out /\
    beats_content W out = npp_content l 0 (W * beats_of W) /\ nz (length out) = beats_of W /\
    lasts out = replicate (zn (beats_of W - 1)) false ++ [true] /\ Forall (from_id id) out.
Proof using Hlen Hshape Hvalid Hbeat HT Hn.
  intros HW. pose proof n_range as Hr.
  destruct (small_fold W (zn (n - 1)) HW) as (out & E & H1 & H2 & H3 & H4); [lia|].
  rewrite Z2Nat.id in E, H1, H2 by lia.
  destruct (small_flit W Assembly_empty out (n - 1) HW) as (o & E2 & G1 & G2 & G3 & G4); [lia|].
  assert (HW' : 0 < W /\ W * (16 / W) = 16).
  { repeat (apply elem_of_cons in HW as [-> | HW]; [done|]). by apply not_elem_of_nil in HW. }
  assert (Hb : beats_of W = nz (length out) + beats_in W (n - 1) /\ 1 <= beats_in W (n - 1)).
  { unfold beats_of, beats_in. rewrite Z.min_r by lia. split; [|apply Z.div_le_lower_bound; lia].
    rewrite <- Z.div_add_l by lia. f_equal. lia. }
  exists (out ++ o). split; [by rewrite (packet_last_flit W _ _ _ E E2)|]. destruct Hb as [-> Hb].
  split; [|split; [rewrite length_app; lia|split; [|by apply Forall_app]]].
  - rewrite beats_content_app, H2, G2, Z.mul_add_distr_l, H1. rewrite npp_content_app by nia. done.
  - rewrite lasts_app, H3, G3, Z.eqb_refl, seqZ_last, fmap_app by lia. rewrite fmap_false, length_seqZ.
    + rewrite app_assoc, <- replicate_add. f_equal; [f_equal; lia|]. cbn [fmap list_fmap].
      by rewrite Z.eqb_refl.
    + intros i [Hi1 Hi2]%elem_of_seqZ. rewrite (proj2 (Z.eqb_neq _ _)) by lia. done.
Qed.

Lemma wide_packet W : W = 32 \/ W = 64 ->
  exists out, writeDataPacket W id addr T m = Ok out /\
    lanes W out = (fun j => moved W (addr mod W) (block W j)) <$> seqZ 0 (beats_of W) /\
    lasts out = replicate (zn (beats_of W - 1)) false ++ [true] /\ Forall (from_id id) out.
Proof using Hlen Hshape Hvalid Hbeat HT Hn.
  intros HW. pose proof n_range as Hr.
  destruct (wide_fold W (zn (n - 1)) HW) as (a & out & E & H1 & H2 & H3 & H4); [lia|].
  rewrite Z2Nat.id in E, H1, H2, H3 by lia.
  destruct (wide_flit W a out (n - 1) HW ltac:(lia) H1) as (o & a' & E2 & G).
  rewrite Z.eqb_refl, andb_false_r in G. destruct G as (-> & G2 & G3 & G4).
  assert (HW16 : 2 <= W / 16 /\ 16 * (W / 16) = W) by (destruct HW; subst W; by vm_compute).
  set (q := W / 16) in *. pose proof (Z.div_mod (n - 1) q ltac:(lia)) as D.
  pose proof (Z.mod_pos_bound (n - 1) q ltac:(lia)) as B.
  assert (0 <= (n - 1) / q) by (apply Z.div_pos; lia).
  assert (Hb : beats_of W = (n - 1) / q + 1).
  { unfold beats_of. symmetry. apply (Z.div_unique _ _ _ (T + W - 1 - W * ((n - 1) / q + 1))); nia. }
  exists (out ++ o). split; [by rewrite (packet_last_flit W _ _ _ E E2)|]. rewrite Hb.
  split; [|split; [|by apply Forall_app]].
  - unfold lanes in *. rewrite fmap_app, H2, seqZ_app, fmap_app by lia. f_equal. rewrite G2.
    change (seqZ (0 + (n - 1) / q) 1) with [0 + (n - 1) / q]. cbn [fmap list_fmap]. rewrite Z.add_0_l. f_equal. f_equal.
    unfold block. f_equal. nia.
  - rewrite lasts_app, H3, G3. f_equal. f_equal. lia.
Qed.
End Packet.

(** ** From write buffer to endpoint *)

(** The beats of an entry are marked valid; [writeRound] keeps it so. *)
Definition beats_valid (e : aximmWriteBufferEntry) : Prop :=
  Forall (fun b => rd_valid b = true) (wb_nppData e).

Section Delivery.
Context (e : aximmWriteBufferEntry) (axiId addr : Z).
Hypothesis Hok : wbe_ok e.
Hypothesis Hfull : wb_numEmptyBytes e = 0.
Hypothesis Hval : beats_valid e.

Lemma body_msg_flits : mm_num_flits (body_msg e) = (wb_total e + 15) / 16.
Proof using Hok. pose proof (wbe_total _ Hok). unfold wb_total in *. cbn. rewrite u8_small; mlia. Qed.

Lemma npp_pad n : wb_total e <= n <= 256 ->
  exists pad, npp_content (wb_nppData e) 0 n = wb_content e ++ pad /\ Forall (fun p => p.2 = false) pad.
Proof using Hok Hfull.
  intros Hn. pose proof (wbe_total _ Hok). rewrite wb_content_npp by done.
  exists (npp_content (wb_nppData e) (0 + wb_total e) (n - wb_total e)). split.
  - rewrite npp_content_app by lia. f_equal. lia.
  - apply Forall_fmap, Forall_forall. intros i [Hi1 Hi2]%elem_of_seqZ. cbn.
    apply (wbe_clear _ Hok). rewrite (wbe_pos _ Hok), Hfull. lia.
Qed.

(** Whole blocks before the last one. *)
Lemma concat_blocks l W (k : nat) : 0 <= W ->
  concat ((fun j => npp_content l (W * j) W) <$> seqZ 0 (nz k)) = npp_content l 0 (W * nz k).
Proof.
  intros HW. induction k as [|k IH]; [by rewrite Z.mul_0_r|].
  replace (nz (S k)) with (nz k + 1) by lia. rewrite seqZ_app, fmap_app, concat_app, IH by lia.
  change (seqZ (0 + nz k) 1) with [0 + nz k]. cbn. rewrite app_nil_r, Z.add_0_l.
  rewrite <- (Z.add_0_l (W * nz k)) at 2. rewrite npp_content_app by nia. f_equal. lia.
Qed.

Lemma moved_0 W c : (length c <= zn W)%nat -> moved W 0 c = padded W c.
Proof.
  intros H. unfold moved. rewrite Z.sub_0_r. cbn. apply take_ge. unfold padded.
  rewrite length_app, length_replicate. lia.
Qed.

Lemma wide_content W out : W = 32 \/ W = 64 -> addr mod W = 0 ->
  lanes W out = (fun j => moved W (addr mod W) (block (body_msg e) W j)) <$> seqZ 0 (beats_of (wb_total e) W) ->
  exists z, beats_content W out = npp_content (wb_nppData e) 0 (16 * mm_num_flits (body_msg e)) ++ replicate z zero_lane.
Proof using Hok.
  intros HW Ha Hl. pose proof (wbe_total _ Hok) as HT. pose proof body_msg_flits as Hn.
  unfold beats_content. fold (lanes W out). rewrite Hl, Ha. set (n := mm_num_flits (body_msg e)) in *.
  set (b := beats_of (wb_total e) W).
  assert (Hb : 1 <= b /\ W * (b - 1) < 16 * n <= W * b).
  { subst b. unfold beats_of. clear - HW Hn HT. destruct HW; subst W; rewrite Hn; mlia. }
  exists (zn (W * b - 16 * n)). rewrite seqZ_last, fmap_app, concat_app by lia.
  assert ((fun j => moved W 0 (block (body_msg e) W j)) <$> seqZ 0 (b - 1) =
          (fun j => npp_content (wb_nppData e) (W * j) W) <$> seqZ 0 (b - 1)) as ->.
  { apply list_fmap_ext. intros k j Hj. apply lookup_seqZ in Hj as [-> Hk]. unfold block. fold n.
    rewrite Z.min_l by nia. rewrite moved_0 by (rewrite length_npp_content; lia). unfold padded.
    rewrite length_npp_content, Nat.sub_diag. apply app_nil_r. }
  replace (b - 1) with (nz (zn (b - 1))) by lia. rewrite concat_blocks by lia. rewrite Z2Nat.id by lia.
  cbn [fmap list_fmap concat]. rewrite app_nil_r. unfold block. fold n. rewrite Z.min_r by nia.
  rewrite moved_0 by (rewrite length_npp_content; nia). unfold padded. rewrite length_npp_content, app_assoc.
  change (mm_pload (body_msg e)) with (wb_nppData e).
  rewrite <- (Z.add_0_l (W * (b - 1))) at 2. rewrite npp_content_app by nia. f_equal; f_equal; nia.
Qed.

(** A write packet arrives as it was sent.  For a complete entry of the write buffer
    and an address aligned to the endpoint's width, the beats made from its flits
    carry the bytes of the entry with their strobes, in order, followed only by lanes
    that are not strobed; there is one beat per started width, only the final one has
    WLAST, and all have the packet's AXI ID. *)
Lemma packet_delivered W : W ∈ widths -> addr mod W = 0 ->
  exists out pad, writeDataPacket W axiId addr (wb_total e) (body_msg e) = Ok out /\
    beats_content W out = wb_content e ++ pad /\ Forall (fun p => p.2 = false) pad /\
    nz (length out) = (wb_total e + W - 1) / W /\
    lasts out = replicate (length out - 1) false ++ [true] /\ Forall (from_id axiId) out.
Proof using Hok Hfull Hval.
  intros HW Ha. pose proof (wbe_total _ Hok) as HT. pose proof body_msg_flits as Hn.
  destruct Hok as [Hlen Hsh _ _ _ _ _ _ _].
  assert (W ∈ [1; 2; 4; 8; 16] \/ (W = 32 \/ W = 64)) as [Hs|Hw].
  { unfold widths in HW. rewrite !elem_of_cons in *. pose proof (not_elem_of_nil W). tauto. }
  - destruct (small_packet (body_msg e) (wb_total e) axiId addr Hlen Hsh Hval eq_refl HT Hn W Hs)
      as (out & E & H1 & H2 & H3 & H4). fold (beats_of (wb_total e) W).
    assert (Hb : wb_total e <= W * beats_of (wb_total e) W <= 256 /\ 1 <= beats_of (wb_total e) W).
    { unfold beats_of. clear - HT Hs. repeat (apply elem_of_cons in Hs as [-> | Hs]; [mlia|]).
      by apply not_elem_of_nil in Hs. }
    destruct (npp_pad (W * beats_of (wb_total e) W)) as (pad & Ep & Hp); [lia|].
    exists out, pad. split; [done|]. split; [by rewrite H1|]. split; [done|]. split; [done|]. split; [|done].
    rewrite H3. f_equal. f_equal. lia.
  - destruct (wide_packet (body_msg e) (wb_total e) axiId addr Hlen Hsh Hval eq_refl HT Hn W Hw)
      as (out & E & H1 & H2 & H3).
    destruct (wide_content W out Hw Ha H1) as (z & Hz).
    destruct (npp_pad (16 * mm_num_flits (body_msg e))) as (pad & Ep & Hp); [rewrite Hn; mlia|].
    assert (Hl : nz (length out) = beats_of (wb_total e) W).
    { transitivity (nz (length (lanes W out))); [unfold lanes; by rewrite length_fmap|].
      rewrite H1, length_fmap, length_seqZ. unfold beats_of. clear - HT Hw. destruct Hw; subst W; mlia. }
    exists out, (pad ++ replicate z zero_lane). split; [done|]. split; [by rewrite Hz, Ep, app_assoc|].
    split; [apply Forall_app; split; [done|by apply Forall_replicate]|]. split; [done|]. split; [|done].
    rewrite H2. f_equal. f_equal. lia.
Qed.

Definition strobed (c : list (Z * bool)) : Z := nz (length (filter (fun p => p.2 = true) c)).

Lemma strobed_app c1 c2 : strobed (c1 ++ c2) = strobed c1 + strobed c2.
Proof. unfold strobed. rewrite filter_app, length_app. lia. Qed.
Lemma strobed_all c : Forall (fun p => p.2 = true) c -> strobed c = nz (length c).
Proof. intros H. unfold strobed. by rewrite (filter_all _ c) by (by apply Forall_forall). Qed.
Lemma strobed_zero n : strobed (replicate n zero_lane) = 0.
Proof. unfold strobed. rewrite filter_none; [done|]. by intros x [-> _]%elem_of_replicate. Qed.

(** A full, fully strobed block moved up by [s]. *)
Lemma strobed_moved W s c : 0 <= s <= W -> length c = zn W -> Forall (fun p => p.2 = true) c ->
  strobed (moved W s c) = W - s.
Proof.
  intros Hs Hl Hc. unfold moved, padded. rewrite Hl, Nat.sub_diag. cbn [replicate]. rewrite app_nil_r.
  rewrite strobed_app, strobed_zero, strobed_all by (by apply Forall_take).
  rewrite length_take, Hl. lia.
Qed.

Lemma strobed_concat {A} (f : A -> list (Z * bool)) (l : list A) v : (forall x, x ∈ l -> strobed (f x) = v) ->
  strobed (concat (f <$> l)) = nz (length l) * v.
Proof.
  induction l as [|x l IH]; intros H; [done|]. cbn [fmap list_fmap concat length].
  rewrite strobed_app, H, IH by (try left; intros; apply H; by right). lia.
Qed.

(** A wide endpoint loses the end of every beat of an unaligned write: with the
    address [s] bytes past a multiple of the width the beats are moved up by [s] lanes and
    [s] bytes of each fall off, so that of a fully strobed transfer of [k] whole widths
    [k * s] bytes are not written. *)
Theorem mm_unaligned_write_loses W k : W = 32 \/ W = 64 -> wb_total e = W * k ->
  Forall (fun p => p.2 = true) (wb_content e) ->
  exists out, writeDataPacket W axiId addr (wb_total e) (body_msg e) = Ok out /\
    strobed (beats_content W out) = strobed (wb_content e) - k * (addr mod W).
Proof using Hok Hfull Hval.
  intros HW Hk Hst. pose proof (wbe_total _ Hok) as HT. pose proof body_msg_flits as Hn.
  destruct (wide_packet (body_msg e) (wb_total e) axiId addr (wbe_len _ Hok) (wbe_beats _ Hok) Hval eq_refl HT Hn W HW)
    as (out & E & H1 & _ & _).
  exists out. split; [done|]. assert (Hb : 0 < W /\ beats_of (wb_total e) W = k).
  { unfold beats_of. rewrite Hk. split; [lia|]. symmetry. apply (Z.div_unique _ _ _ (W - 1)); lia. }
  assert (H16 : 16 * mm_num_flits (body_msg e) = W * k) by (rewrite Hn; clear - HW Hk; destruct HW; subst W; mlia).
  unfold beats_content. fold (lanes W out). rewrite H1, (proj2 Hb). pose proof (Z.mod_pos_bound addr W (proj1 Hb)).
  rewrite (strobed_concat _ _ (W - addr mod W)).
  - rewrite strobed_all by done. rewrite wb_content_npp, length_npp_content, length_seqZ by done. nia.
  - intros j [Hj1 Hj2]%elem_of_seqZ. unfold block. rewrite Z.min_l by nia.
    apply strobed_moved; [lia|by rewrite length_npp_content|].
    rewrite wb_content_npp in Hst by done. unfold npp_content in *. rewrite Forall_fmap, Forall_forall in Hst.
    apply Forall_fmap, Forall_forall. intros i [Hi1 Hi2]%elem_of_seqZ. apply Hst, elem_of_seqZ. nia.
Qed.
End Delivery.

(** ** Examples *)

Definition ex_req (addr : Z) : aximmRWAddr :=
  set_ra_chunk addr 0 6 aximmRWAddr_default.
Definition ex_entry (addr : Z) : aximmWriteBufferEntry :=
  (ok_or (newWriteBufferEntry (ex_req addr) 0 (Some 1) true 0 false, 0)
    (writeSingleEntry ((fun i => i) <$> seqZ 0 64) 0
      (newWriteBufferEntry (ex_req addr) 0 (Some 1) true 0 false) TKEEP_ALL 0 500 (-1))).1.

Lemma ex_entry_ok addr : is_u64 addr -> wbe_ok (ex_entry addr).
Proof.
  intros Ha. destruct (writeSingleEntry_room ((fun i => i) <$> seqZ 0 64) TKEEP_ALL
    (newWriteBufferEntry (ex_req addr) 0 (Some 1) true 0 false) 0 500 (-1)) as (e & E & He & _); [done| |done|].
  - apply newWriteBufferEntry_ok. split; [by split; [|split]|]. by vm_compute.
  - unfold ex_entry. rewrite E. apply He.
Qed.

Lemma packet_delivered_example : exists out pad,
  writeDataPacket 32 0 64 64 (body_msg (ex_entry 64)) = Ok out /\
  beats_content 32 out = wb_content (ex_entry 64) ++ pad /\ length out = 2%nat.
Proof.
  destruct (packet_delivered (ex_entry 64) 0 64 (ex_entry_ok 64 ltac:(done)) eq_refl
    ltac:(by repeat constructor) 32) as (out & pad & H1 & H2 & _ & H4 & _).
  - by apply (bool_decide_unpack _).
  - done.
  - exists out, pad. split; [exact H1|]. split; [done|]. change (wb_total (ex_entry 64)) with 64 in H4.
    change ((64 + 32 - 1) / 32) with 2 in H4. lia.
Defined.

(** 64 bytes at address 16 to a 64-byte endpoint: 48 are written. *)
Lemma mm_unaligned_write_loses_witness : exists out,
  writeDataPacket 64 0 16 64 (body_msg (ex_entry 16)) = Ok out /\
  strobed (beats_content 64 out) = 48.
Proof.
  destruct (mm_unaligned_write_loses (ex_entry 16) 0 16 (ex_entry_ok 16 ltac:(done)) eq_refl
    ltac:(by repeat constructor) 64 1) as (out & H1 & H2).
  - by right.
  - done.
  - by apply (bool_decide_unpack _); vm_compute.
  - exists out. split; [exact H1|]. rewrite H2. by vm_compute.
Defined.
