(* ===== verification/SNmu.v ===== *)
(** * AXI-Stream master unit

    [sNocMasterUnit] of [src/src/noc/core/network/nmu_types/sNocMasterUnit.{hh,cc}]:
    accepted beats go into the write buffer; whenever no packet is being sent and
    one is ready it is cut, given a packet id and a route, and injected flit by
    flit, one per cycle, into the NI output queue of its virtual channel.

    The routing tables of [NocGarnetNetwork] are parameters of the operations.
    [dequeueIntermediateEvent] is the flag [deqScheduled]; scheduling an event
    twice is gem5's assertion failure. *)

From S2P Require Import Prelude AxiTypes AxisWriteBuffer AxisDepack NppReceive Flit.

Record NocStreamMsg := mk_NocStreamMsg {
  sm_pload : axisPayload;
  sm_debugId : Z;
  sm_beatSize : Z;
  sm_numFlits : Z
}.

Record NPPInfo := mk_NPPInfo {
  np_valid : bool;
  np_flit_num : Z;
  np_packet_id : Z;
  np_vc : Z;
  np_route : NocRouteInfo;
  np_num_flits : Z;
  np_message : option NocStreamMsg;
  np_oPort : option Z;
  np_last_flit_size_bytes : Z
}.
Definition NPPInfo_default : NPPInfo :=
  {| np_valid := false; np_flit_num := 0; np_packet_id := 0; np_vc := 0;
     np_route := NocRouteInfo_default; np_num_flits := 0; np_message := None; np_oPort := None;
     np_last_flit_size_bytes := 0 |}.
Definition set_np_flit_num (n : Z) (c : NPPInfo) : NPPInfo :=
  {| np_valid := np_valid c; np_flit_num := n; np_packet_id := np_packet_id c; np_vc := np_vc c;
     np_route := np_route c; np_num_flits := np_num_flits c; np_message := np_message c;
     np_oPort := np_oPort c; np_last_flit_size_bytes := np_last_flit_size_bytes c |}.
Definition set_np_idle (c : NPPInfo) : NPPInfo :=
  {| np_valid := false; np_flit_num := np_flit_num c; np_packet_id := np_packet_id c;
     np_vc := np_vc c; np_route := np_route c; np_num_flits := np_num_flits c;
     np_message := np_message c; np_oPort := None;
     np_last_flit_size_bytes := np_last_flit_size_bytes c |}.

(** What the head-ready handler works on besides the write buffer. *)
Record sNmuCore := mk_sNmuCore {
  currNPPInfo : NPPInfo;
  deqScheduled : bool;
  m_next_packet_id : Z;
  nm_outVcs : niOutVcs NocStreamMsg
}.
Record sNmu := mk_sNmu {
  nm_writeBuffer : axisWriteBuffer;
  nm_core : sNmuCore;
  inQueueBytes : Z
}.
Definition sNmu_init (pid : Z) : sNmu :=
  {| nm_writeBuffer := axisWriteBuffer_empty;
     nm_core := {| currNPPInfo := NPPInfo_default; deqScheduled := false; m_next_packet_id := pid;
                   nm_outVcs := ∅ |};
     inQueueBytes := 0 |}.

Definition set_deq (b : bool) (c : sNmuCore) : sNmuCore :=
  {| currNPPInfo := currNPPInfo c; deqScheduled := b; m_next_packet_id := m_next_packet_id c;
     nm_outVcs := nm_outVcs c |}.

(** [schedule(dequeueIntermediateEvent, ...)] *)
Definition scheduleDeq (c : sNmuCore) : res sNmuCore :=
  guard (negb (deqScheduled c)) (FAssert "!event.scheduled()") (Ok (set_deq true c)).

Section Nmu.
(** The configured tables: [m_axis_tdest_map], [m_route_to_vc_map], and the router
    a network interface hangs off. *)
Context (m_axis_tdest_map : gmap Z (gmap Z Z)) (m_route_to_vc_map : gmap (Z * Z * Z) Z)
  (ni_router : Z -> Z -> Z) (m_id : Z).

(** [NocGarnetNetwork::getAxisDestNi] *)
Definition getAxisDestNi (nmu_id tdest : Z) : Z :=
  match m_axis_tdest_map !! nmu_id with
  | None => -1
  | Some m => default (-1) (m !! tdest)
  end.
(** [NocGarnetNetwork::getPathVC] *)
Definition getPathVC (src_id dst_id cmd : Z) : res Z :=
  of_opt (FFatal "VC mapping not found for route") (m_route_to_vc_map !! (src_id, dst_id, cmd)).

(** The destination interface of a packet whose first beat has TDEST [td]. *)
Definition axisDest (td : Z) : Z :=
  let dest_ni := getAxisDestNi m_id (s32 td) in if dest_ni <? 0 then 0 else dest_ni.

(** [sNocMasterUnit::bufferHeadReadyHandler] *)
Definition bufferHeadReadyHandler (c : sNmuCore) (w : axisWriteBuffer)
    : res (sNmuCore * axisWriteBuffer) :=
  if np_valid (currNPPInfo c) then Ok (c, w)
  else
    let '(packet, out, w') := popNextPacket w in
    let '(oPort, dbg_id) := match out with
                            | Some (_, oPort, d) => (oPort, d)
                            | None => (None, -1)
                            end in
    let total := ap_totalBytes packet in
    guard (negb ((total <=? 0) || (NPP_MAX_SIZE <? total)))
      (FPanic "sNocMasterUnit: AXIS NPP must contain 1..64 valid bytes") (
    let num_flits := total / 16 + (if total mod 16 =? 0 then 0 else 1) in
    let last_size := if total mod 16 =? 0 then 16 else total mod 16 in
    let* (packet_id, next_id) := getNextPacketID (m_next_packet_id c) in
    let* beat0 := of_opt (FUndef "beats[0] of an empty vector") (head (ap_beats packet)) in
    let dest_ni := axisDest (tdest beat0) in
    let* vc := getPathVC m_id dest_ni 1 in
    let route := {| rt_vnet := W_VNET; rt_src_ni := m_id;
                    rt_src_router := default (-1) oPort; rt_dest_ni := dest_ni;
                    rt_dest_router := ni_router dest_ni W_VNET; rt_hops_traversed := -1 |} in
    let message := {| sm_pload := packet; sm_debugId := dbg_id;
                      sm_beatSize := u8 (DATA_WIDTH beat0 / 8); sm_numFlits := u8 num_flits |} in
    let* c' := scheduleDeq
      {| currNPPInfo := {| np_valid := true; np_flit_num := 0;
                           np_packet_id := packet_id; np_vc := vc; np_route := route;
                           np_num_flits := num_flits; np_message := Some message;
                           np_oPort := oPort; np_last_flit_size_bytes := last_size |};
         deqScheduled := deqScheduled c; m_next_packet_id := next_id;
         nm_outVcs := nm_outVcs c |} in
    Ok (c', w')).

(** The fired [dequeueIntermediateEvent]: [sNocMasterUnit::dequeueIntermediate],
    with the flits it injects. *)
Definition dequeueIntermediate (c0 : sNmuCore) (w : axisWriteBuffer)
    : res (sNmuCore * axisWriteBuffer * list (flit NocStreamMsg)) :=
  let c := set_deq false c0 in
  let cur := currNPPInfo c in
  if np_num_flits cur <=? np_flit_num cur then Ok (c, w, [])
  else if outVc_isFull (nm_outVcs c) (np_vc cur) then
    let* c' := scheduleDeq c in Ok (c', w, [])
  else
    let* message := of_opt (FUndef "null message pointer") (np_message cur) in
    let fl := new_flit (np_packet_id cur) (np_flit_num cur) (np_vc cur) W_VNET (np_route cur)
                (np_num_flits cur) message in
    match injectFlit (nm_outVcs c) fl (np_vc cur) with
    | None => let* c' := scheduleDeq c in Ok (c', w, [])
    | Some q =>
        if np_flit_num cur =? np_num_flits cur - 1 then
          let c1 := {| currNPPInfo := set_np_idle cur; deqScheduled := deqScheduled c;
                       m_next_packet_id := m_next_packet_id c; nm_outVcs := q |} in
          let* (_, cw) := checkDequeueReady (Some bufferHeadReadyHandler) c1 w in
          Ok (cw, [fl])
        else
          let* c' := scheduleDeq
            {| currNPPInfo := set_np_flit_num (np_flit_num cur + 1) cur;
               deqScheduled := deqScheduled c; m_next_packet_id := m_next_packet_id c;
               nm_outVcs := q |} in
          Ok (c', w, [fl])
    end.

(** [sNocMasterUnit::flitisizeMessage] on the beat [data] of a message with debug
    id [dbg], leaving through [oPort]. *)
Definition flitisizeMessage (s : sNmu) (data : axisData) (oPort : option Z) (dbg : Z) : res sNmu :=
  let* (c, w) := aw_add (Some bufferHeadReadyHandler) (nm_core s) (nm_writeBuffer s) data oPort 0 dbg in
  Ok {| nm_writeBuffer := w; nm_core := c;
        inQueueBytes := inQueueBytes s - axis_getTotalByteSize data |}.

(** [sNocMasterUnit::enqueueBytes] *)
Definition enqueueBytes (s : sNmu) (num_bytes : Z) : sNmu :=
  {| nm_writeBuffer := nm_writeBuffer s; nm_core := nm_core s;
     inQueueBytes := inQueueBytes s + num_bytes |}.

(** [sNocMasterUnit::getAxiWReady] for the beat the endpoint drives. *)
Definition inFlightBytes (c : NPPInfo) : Z :=
  if np_valid c
  then u16 ((np_num_flits c - np_flit_num c - 1) * 16 + np_last_flit_size_bytes c) else 0.
Definition s_getAxiWReady (s : sNmu) (data : axisData) : bool :=
  u32 (aw_bufferSize (nm_writeBuffer s) + axis_getTotalByteSize data +
       inFlightBytes (currNPPInfo (nm_core s)) + DATA_WIDTH data / 8 + inQueueBytes s) <=? 512.

(** ** Reachable states

    The unit runs with its environment: the endpoint offers a beat when the unit
    is ready, the dequeue event fires, the link takes the oldest flit of a VC
    queue, and other interfaces draw packet ids from the shared counter.
    [nmu_reach s bytes flits]: [s] is reached after accepting the stream [bytes]
    and injecting [flits]. *)
Definition link_take (c : sNmuCore) (vc : Z) : sNmuCore :=
  {| currNPPInfo := currNPPInfo c; deqScheduled := deqScheduled c;
     m_next_packet_id := m_next_packet_id c;
     nm_outVcs := <[vc := tail (outVc (nm_outVcs c) vc)]> (nm_outVcs c) |}.
Definition other_packet_ids (c : sNmuCore) (n : nat) : sNmuCore :=
  {| currNPPInfo := currNPPInfo c; deqScheduled := deqScheduled c;
     m_next_packet_id := m_next_packet_id c + nz n; nm_outVcs := nm_outVcs c |}.

Inductive nmu_reach : sNmu -> list Z -> list (flit NocStreamMsg) -> Prop :=
  | reach_init pid : nmu_reach (sNmu_init pid) [] []
  | reach_beat s bytes fls data oPort dbg s' :
      nmu_reach s bytes fls -> axis_beat_ok data -> breaks_packet (nm_writeBuffer s) data = false ->
      aw_bufferSize (nm_writeBuffer s) + axis_getTotalByteSize data <= 512 ->
      flitisizeMessage s data oPort dbg = Ok s' ->
      nmu_reach s' (bytes ++ kept_bytes data) fls
  | reach_deq s bytes fls c w new :
      nmu_reach s bytes fls -> deqScheduled (nm_core s) = true ->
      dequeueIntermediate (nm_core s) (nm_writeBuffer s) = Ok (c, w, new) ->
      nmu_reach {| nm_writeBuffer := w; nm_core := c; inQueueBytes := inQueueBytes s |} bytes (fls ++ new)
  | reach_link s bytes fls vc :
      nmu_reach s bytes fls ->
      nmu_reach {| nm_writeBuffer := nm_writeBuffer s; nm_core := link_take (nm_core s) vc;
                   inQueueBytes := inQueueBytes s |} bytes fls
  | reach_env s bytes fls n q :
      nmu_reach s bytes fls ->
      nmu_reach {| nm_writeBuffer := nm_writeBuffer s; nm_core := other_packet_ids (nm_core s) n;
                   inQueueBytes := q |} bytes fls.

(** ** Sent packets *)

(** A packet in flight: its flits are [packet_flits]. *)
Record sent := mk_sent { st_pid : Z; st_vc : Z; st_route : NocRouteInfo; st_msg : NocStreamMsg }.
Definition st_n (k : sent) : nat := zn ((ap_totalBytes (sm_pload (st_msg k)) + 15) / 16).
Definition st_flits (k : sent) : list (flit NocStreamMsg) :=
  packet_flits (st_pid k) (st_vc k) W_VNET (st_route k) (st_n k) (st_msg k).
Definition st_bytes (k : sent) : list Z := payload_bytes (sm_pload (st_msg k)).

(** A well-formed sent packet, routed by the TDEST of its bytes. *)
Record sent_ok (k : sent) : Prop := {
  sk_npp : npp_ok (sm_pload (st_msg k));
  sk_src : rt_src_ni (st_route k) = m_id;
  sk_dest : Forall (fun b => rt_dest_ni (st_route k) = axisDest (tdest b)) (ap_beats (sm_pload (st_msg k)));
  sk_vc : m_route_to_vc_map !! (m_id, rt_dest_ni (st_route k), 1) = Some (st_vc k);
  sk_count : sm_numFlits (st_msg k) = nz (st_n k)
}.

Lemma num_flits_ceil t : 0 <= t -> t / 16 + (if t mod 16 =? 0 then 0 else 1) = (t + 15) / 16.
Proof. intros. destruct (Z.eqb_spec (t mod 16) 0); mlia. Qed.

Lemma st_n_range k : sent_ok k -> (1 <= st_n k <= 4)%nat.
Proof. intros [Hn _ _ _ _]. pose proof (npp_range _ Hn). unfold st_n. mlia. Qed.

(** The packet the unit is sending. *)
Definition cur_sent (c : NPPInfo) : option sent :=
  if np_valid c then
    match np_message c with
    | Some m => Some (mk_sent (np_packet_id c) (np_vc c) (np_route c) m)
    | None => None
    end
  else None.
Definition cur_ok (c : NPPInfo) (k : sent) : Prop :=
  np_valid c = true /\ np_message c = Some (st_msg k) /\ np_packet_id c = st_pid k /\
  np_vc c = st_vc k /\ np_route c = st_route k /\ np_num_flits c = nz (st_n k) /\
  0 <= np_flit_num c < np_num_flits c.

(** The unit's state against the packets [done] it has sent and the one it is
    sending. *)
Record nmu_inv (s : sNmu) (bytes : list Z) (fls : list (flit NocStreamMsg)) (pks : list sent)
    (cur : option sent) : Prop := {
  ni_wb : aw_inv (nm_writeBuffer s);
  ni_sched : deqScheduled (nm_core s) = np_valid (currNPPInfo (nm_core s));
  ni_sent : Forall sent_ok (pks ++ option_list cur);
  ni_cur : match cur with
           | Some k => cur_ok (currNPPInfo (nm_core s)) k
           | None => np_valid (currNPPInfo (nm_core s)) = false /\ nextDequeuePos (nm_writeBuffer s) = -1
           end;
  ni_flits : fls = concat (st_flits <$> pks) ++
    from_option (fun k => take (zn (np_flit_num (currNPPInfo (nm_core s)))) (st_flits k)) [] cur;
  ni_bytes : bytes = concat (st_bytes <$> (pks ++ option_list cur)) ++
    aw_stream (aw_writeBuffer (nm_writeBuffer s));
  ni_pids : StronglySorted Z.lt (st_pid <$> (pks ++ option_list cur));
  ni_next : Forall (fun k => st_pid k < m_next_packet_id (nm_core s)) (pks ++ option_list cur)
}.

(** ** The handler starts a packet *)

(** [k] is started in [c', w'] from the idle [c, w]. *)
Definition starts (c : sNmuCore) (w : axisWriteBuffer) (c' : sNmuCore) (w' : axisWriteBuffer)
    (k : sent) : Prop :=
  sent_ok k /\ cur_ok (currNPPInfo c') k /\ np_flit_num (currNPPInfo c') = 0 /\
  deqScheduled c' = true /\ st_pid k = m_next_packet_id c /\
  m_next_packet_id c' = m_next_packet_id c + 1 /\ nm_outVcs c' = nm_outVcs c /\ aw_inv w' /\
  st_bytes k ++ aw_stream (aw_writeBuffer w') = aw_stream (aw_writeBuffer w).

(** Every TDEST's destination has a virtual channel configured. *)
Definition routes_total : Prop :=
  forall td, is_Some (m_route_to_vc_map !! (m_id, axisDest td, 1)).
(** The packet counter has not reached its largest value. *)
Definition ids_left (c : sNmuCore) : Prop := m_next_packet_id c + 1 < 2 ^ 31.
Definition unit_fails (c : sNmuCore) : Prop := ~ (routes_total /\ ids_left c).

Lemma handler_start c w :
  np_valid (currNPPInfo c) = false -> deqScheduled c = false -> aw_inv w -> nextDequeuePos w <> -1 ->
  (exists c' w' k, bufferHeadReadyHandler c w = Ok (c', w') /\ starts c w c' w' k) \/
  (unit_fails c /\ is_ok (bufferHeadReadyHandler c w) = false).
Proof.
  intros Hv Hs Hi Hne. destruct (popNextPacket_npp w Hi Hne) as (p & w' & Hp & Hnpp & Hi' & Hst).
  unfold bufferHeadReadyHandler. rewrite Hv, Hp.
  destruct (match pop_out _ _ _ with Some _ => _ | None => _ end) as [oPort dbg].
  pose proof (npp_range p Hnpp) as Hr. unfold NPP_MAX_SIZE.
  rewrite (proj2 (Z.leb_gt _ _)), (proj2 (Z.ltb_ge _ _)) by lia. cbn [guard orb negb].
  destruct (decide (ids_left c)) as [Hid|Hid]; cycle 1.
  { right. split; [by intros []|]. unfold getNextPacketID. by rewrite (proj2 (Z.ltb_ge _ _)) by (unfold ids_left in Hid; lia). }
  rewrite getNextPacketID_room by done. cbn [rbind].
  destruct (head (ap_beats p)) as [b0|] eqn:Hb0; cycle 1.
  { pose proof (npp_flags p Hnpp) as Hf. destruct (ap_beats p); [|done]. done. }
  cbn [of_opt rbind]. unfold getPathVC.
  destruct (m_route_to_vc_map !! (m_id, axisDest (tdest b0), 1)) as [vc|] eqn:Hvc; cycle 1.
  { right. split; [|done]. intros [Ht _]. specialize (Ht (tdest b0)). rewrite Hvc in Ht. by destruct Ht. }
  left. cbn [of_opt rbind scheduleDeq deqScheduled]. rewrite Hs. cbn [guard negb rbind].
  match goal with
  | |- context [mk_NPPInfo true 0 _ _ ?r _ (Some ?m) _ _] =>
      eexists _, _, (mk_sent (m_next_packet_id c) vc r m)
  end. split; [reflexivity|].
  assert (Hids : Forall (fun b => tdest b = tdest b0) (ap_beats p)).
  { destruct (npp_ids p Hnpp) as (i & d & Hidx). destruct (ap_beats p) as [|b bs]; [done|].
    injection Hb0 as ->. apply Forall_cons in Hidx as [[_ <-] Hidx]. constructor; [done|].
    eapply Forall_impl; [exact Hidx|]. by intros ? []. }
  unfold starts. split_and!; try done.
  - split; [done|done| |done|].
    + simpl. eapply Forall_impl; [exact Hids|]. simpl. by intros ? ->.
    + unfold st_n, u8. simpl. rewrite num_flits_ceil by lia. mlia.
  - unfold cur_ok, st_n. simpl. rewrite num_flits_ceil by lia. split_and!; done || mlia.
Qed.

Lemma checkDequeueReady_idle c w :
  np_valid (currNPPInfo c) = false -> deqScheduled c = false -> aw_inv w ->
  (nextDequeuePos w = -1 /\ checkDequeueReady (Some bufferHeadReadyHandler) c w = Ok (false, (c, w))) \/
  (nextDequeuePos w <> -1 /\ exists c' w' k,
     checkDequeueReady (Some bufferHeadReadyHandler) c w = Ok (true, (c', w')) /\ starts c w c' w' k) \/
  (unit_fails c /\ is_ok (checkDequeueReady (Some bufferHeadReadyHandler) c w) = false).
Proof.
  intros Hv Hs Hi. unfold checkDequeueReady. destruct (Z.eqb_spec (nextDequeuePos w) (-1)) as [E|E].
  { by left. }
  right. simpl. destruct (handler_start c w Hv Hs Hi E) as [(c' & w' & k & -> & Hst)|[Hn He]].
  - left. split; [done|]. by exists c', w', k.
  - right. split; [done|]. by destruct (bufferHeadReadyHandler c w).
Qed.

Lemma checkDequeueReady_busy c w :
  np_valid (currNPPInfo c) = true ->
  rmap snd (checkDequeueReady (Some bufferHeadReadyHandler) c w) = Ok (c, w).
Proof.
  intros Hv. unfold checkDequeueReady, bufferHeadReadyHandler. rewrite Hv.
  by destruct (nextDequeuePos w =? -1).
Qed.

(** Sending packets one after the other keeps the bookkeeping. *)
Lemma nmu_inv_start s bytes fls pks c w c' w' k q :
  aw_inv w -> starts c w c' w' k -> Forall sent_ok pks ->
  fls = concat (st_flits <$> pks) ->
  bytes = concat (st_bytes <$> pks) ++ aw_stream (aw_writeBuffer w) ->
  StronglySorted Z.lt (st_pid <$> pks) ->
  Forall (fun k => st_pid k < m_next_packet_id c) pks ->
  s = {| nm_writeBuffer := w'; nm_core := c'; inQueueBytes := q |} ->
  nmu_inv s bytes fls pks (Some k).
Proof.
  intros Hi (Hk & Hcur & Hf0 & Hd & Hpid & Hnx & _ & Hi' & Hst) Hall -> -> Hso Hlt ->.
  pose proof Hcur as (Hv & _). split; simpl.
  - done.
  - by rewrite Hv, Hd.
  - apply Forall_app. by split; [|constructor].
  - done.
  - rewrite Hf0. simpl. by rewrite app_nil_r.
  - rewrite fmap_app, concat_app, <- app_assoc. simpl. by rewrite app_nil_r, Hst.
  - rewrite fmap_app. simpl. rewrite Hpid. apply sorted_snoc; [done|]. by apply Forall_fmap.
  - apply Forall_app. rewrite Hnx. split.
    + eapply Forall_impl; [exact Hlt|]. simpl. lia.
    + constructor; [|constructor]. lia.
Qed.

Lemma beat_step s bytes fls pks cur data oPort dbg :
  nmu_inv s bytes fls pks cur -> axis_beat_ok data ->
  breaks_packet (nm_writeBuffer s) data = false ->
  aw_bufferSize (nm_writeBuffer s) + axis_getTotalByteSize data <= 512 ->
  (exists s' cur', flitisizeMessage s data oPort dbg = Ok s' /\
     nmu_inv s' (bytes ++ kept_bytes data) fls pks cur') \/
  (unit_fails (nm_core s) /\ is_ok (flitisizeMessage s data oPort dbg) = false).
Proof.
  intros [Hi Hsc Hsent Hcur Hfl Hby Hso Hnx] Hd Hbr Hroom.
  destruct (axis_getTotalByteSize_range data) as [Ht0 Ht64]; [apply Hd|].
  pose proof (aw_push_inv (nm_writeBuffer s) data oPort 0 dbg Hi Hd ltac:(lia)) as Hpush.
  rewrite Hbr in Hpush. destruct Hpush as (w1 & Hp & Hi1 & Hst1).
  unfold flitisizeMessage, aw_add. rewrite Hp. cbn [rbind].
  destruct cur as [k|].
  - left. destruct Hcur as (Hv & Hrest). pose proof (checkDequeueReady_busy (nm_core s) w1 Hv) as Hb.
    destruct (checkDequeueReady _ _ _) as [[b [c w]]|]; [|done]. injection Hb as -> ->. simpl.
    eexists _, (Some k). split; [done|]. split; simpl; try done.
    by rewrite Hst1, Hby, <- app_assoc.
  - destruct Hcur as [Hv Hno]. rewrite app_nil_r in *. rewrite Hv in Hsc. simpl in Hfl. rewrite ?app_nil_r in Hfl.
    assert (Hby1 : bytes ++ kept_bytes data = concat (st_bytes <$> pks) ++ aw_stream (aw_writeBuffer w1))
      by (by rewrite Hst1, Hby, <- app_assoc).
    destruct (checkDequeueReady_idle (nm_core s) w1 Hv Hsc Hi1)
      as [[Hno1 Hc]|[(Hne & c' & w' & k & Hc & Hk)|[Hr He]]].
    + left. rewrite Hc. simpl. eexists _, None. split; [done|].
      split; simpl; rewrite ?app_nil_r; try done. by rewrite Hsc, Hv.
    + left. rewrite Hc. simpl. eexists _, (Some k). split; [done|].
      by eapply nmu_inv_start.
    + right. split; [done|]. by destruct (checkDequeueReady _ _ _).
Qed.

(** Completing the current packet: its flits are all injected. *)
Lemma last_flit_done k (n : Z) :
  n = nz (st_n k) - 1 -> 0 <= n ->
  take (zn n) (st_flits k) ++
    [new_flit (st_pid k) n (st_vc k) W_VNET (st_route k) (nz (st_n k)) (st_msg k)] = st_flits k.
Proof.
  intros Hn H0. unfold st_flits. rewrite <- (Z2Nat.id n) at 2 by done.
  rewrite <- packet_flits_take by lia. apply take_ge. rewrite length_packet_flits. lia.
Qed.

Lemma deq_step s bytes fls pks cur :
  nmu_inv s bytes fls pks cur -> deqScheduled (nm_core s) = true ->
  (exists c w new pks' cur', dequeueIntermediate (nm_core s) (nm_writeBuffer s) = Ok (c, w, new) /\
     nmu_inv {| nm_writeBuffer := w; nm_core := c; inQueueBytes := inQueueBytes s |} bytes (fls ++ new) pks' cur' /\
     (outVc_isFull (nm_outVcs (nm_core s)) (np_vc (currNPPInfo (nm_core s))) = false -> length new = 1%nat)) \/
  (unit_fails (nm_core s) /\ is_ok (dequeueIntermediate (nm_core s) (nm_writeBuffer s)) = false).
Proof.
  intros [Hi Hsc Hsent Hcur Hfl Hby Hso Hnx] Hd. rewrite Hd in Hsc.
  destruct cur as [k|]; [|destruct Hcur; congruence].
  pose proof Hcur as (Hv & Hm & Hpid & Hvc & Hrt & Hn & Hf).
  unfold dequeueIntermediate. cbn [set_deq currNPPInfo nm_outVcs deqScheduled m_next_packet_id].
  rewrite (proj2 (Z.leb_gt _ _)) by lia.
  destruct (outVc_isFull (nm_outVcs (nm_core s)) (np_vc (currNPPInfo (nm_core s)))) eqn:Hfull.
  { left. simpl. eexists _, _, _, pks, (Some k). split; [reflexivity|]. split; [|done].
    rewrite app_nil_r. split; simpl; done. }
  rewrite Hm. cbn [of_opt rbind]. unfold injectFlit. rewrite Hfull. rewrite Hpid, Hvc, Hrt, Hn.
  destruct (Z.eqb_spec (np_flit_num (currNPPInfo (nm_core s))) (nz (st_n k) - 1)) as [Hlast|Hmore].
  - match goal with |- context [checkDequeueReady _ ?c _] => set (c1 := c) end.
    assert (Hfl1 : fls ++ [new_flit (st_pid k) (np_flit_num (currNPPInfo (nm_core s))) (st_vc k) W_VNET
                     (st_route k) (nz (st_n k)) (st_msg k)] = concat (st_flits <$> (pks ++ [k]))).
    { rewrite Hfl, <- app_assoc, fmap_app, concat_app. simpl. by rewrite app_nil_r, last_flit_done by lia. }
    destruct (checkDequeueReady_idle c1 (nm_writeBuffer s) eq_refl eq_refl Hi)
      as [[Hno1 Hc]|[(Hne & c' & w' & k2 & Hc & Hk)|[Hr He]]].
    + left. rewrite Hc. cbn [rbind]. eexists _, _, _, (pks ++ [k]), None. split; [reflexivity|]. split; [|done].
      split; cbn [from_option option_list nm_writeBuffer nm_core]; rewrite ?app_nil_r; done.
    + left. rewrite Hc. cbn [rbind]. eexists _, _, _, (pks ++ [k]), (Some k2). split; [reflexivity|].
      split; [|done]. by eapply (nmu_inv_start _ _ _ _ c1 (nm_writeBuffer s)).
    + right. split; [done|]. by destruct (checkDequeueReady _ c1 _).
  - left. cbn [scheduleDeq deqScheduled guard negb rbind].
    eexists _, _, _, pks, (Some k). split; [reflexivity|]. split; [|done]. split; simpl; try done.
    + unfold cur_ok. simpl. split_and!; done || lia.
    + rewrite Hfl, <- app_assoc. f_equal. simpl. unfold st_flits.
      replace (zn (np_flit_num (currNPPInfo (nm_core s)) + 1))
        with (S (zn (np_flit_num (currNPPInfo (nm_core s))))) by lia.
      rewrite packet_flits_take by lia. by rewrite Z2Nat.id by lia.
Qed.

Lemma nmu_reach_inv s bytes fls :
  nmu_reach s bytes fls -> exists pks cur, nmu_inv s bytes fls pks cur.
Proof.
  induction 1 as [pid|s bytes fls data oPort dbg s' _ (pks & cur & IH) Hd Hbr Hroom Hs
    |s bytes fls c w new _ (pks & cur & IH) Hsch Hs
    |s bytes fls vc _ (pks & cur & [])|s bytes fls n q _ (pks & cur & [])].
  - exists [], None. split; simpl; done || constructor || apply aw_empty_inv.
  - destruct (beat_step _ _ _ _ _ data oPort dbg IH Hd Hbr Hroom) as [(s2 & cur' & Hs2 & Hinv)|[_ He]].
    + exists pks, cur'. congruence.
    + by rewrite Hs in He.
  - destruct (deq_step _ _ _ _ _ IH Hsch) as [(c2 & w2 & new2 & pks' & cur' & Hs2 & Hinv & _)|[_ He]].
    + exists pks', cur'. congruence.
    + by rewrite Hs in He.
  - by exists pks, cur.
  - exists pks, cur. split; simpl; try done. eapply Forall_impl; [exact ni_next0|]. simpl. lia.
Qed.

(** In every reachable state the injected flits are whole packets in order,
    flit 0 to the tail without interleaving, then a prefix of the packet being
    sent; the accepted stream is exactly the bytes of those packets, in order,
    followed by the bytes still buffered; packet ids never repeat, and each packet
    goes to the destination of its own TDEST on that route's channel. *)
Theorem nmu_injects_in_order s bytes fls :
  nmu_reach s bytes fls ->
  exists pks cur n, Forall sent_ok (pks ++ option_list cur) /\
    fls = concat (st_flits <$> pks) ++ take n (from_option st_flits [] cur) /\
    bytes = concat (st_bytes <$> (pks ++ option_list cur)) ++
      aw_stream (aw_writeBuffer (nm_writeBuffer s)) /\
    StronglySorted Z.lt (st_pid <$> (pks ++ option_list cur)).
Proof.
  intros Hr. destruct (nmu_reach_inv _ _ _ Hr) as (pks & cur & []).
  exists pks, cur, (zn (np_flit_num (currNPPInfo (nm_core s)))).
  split_and!; try done. rewrite ni_flits0. destruct cur; [done|]. simpl. by rewrite take_nil.
Qed.

(** With a channel configured for every destination and packet ids left, no reachable state
    faults: a legal beat is accepted, and a scheduled dequeue event runs without
    scheduling itself twice, following a null message, or cutting an empty
    packet. *)
Theorem nmu_no_fault s bytes fls :
  nmu_reach s bytes fls -> routes_total -> ids_left (nm_core s) ->
  (forall data oPort dbg, axis_beat_ok data -> breaks_packet (nm_writeBuffer s) data = false ->
     aw_bufferSize (nm_writeBuffer s) + axis_getTotalByteSize data <= 512 ->
     is_ok (flitisizeMessage s data oPort dbg) = true) /\
  (deqScheduled (nm_core s) = true ->
     is_ok (dequeueIntermediate (nm_core s) (nm_writeBuffer s)) = true).
Proof.
  intros Hr Ht Hid. destruct (nmu_reach_inv _ _ _ Hr) as (pks & cur & Hi). split.
  - intros data oPort dbg Hd Hbr Hroom.
    by destruct (beat_step _ _ _ _ _ data oPort dbg Hi Hd Hbr Hroom) as [(s' & cur' & -> & _)|[[] _]].
  - intros Hs. by destruct (deq_step _ _ _ _ _ Hi Hs) as [(? & ? & ? & ? & ? & -> & _)|[[] _]].
Qed.

(** No wakeup is lost: whenever a packet is being sent or one can be cut, the
    dequeue event is scheduled, and when it fires with room in the VC queue it
    injects exactly one flit. *)
Theorem nmu_makes_progress s bytes fls :
  nmu_reach s bytes fls -> routes_total -> ids_left (nm_core s) ->
  np_valid (currNPPInfo (nm_core s)) = true \/ nextDequeuePos (nm_writeBuffer s) <> -1 ->
  deqScheduled (nm_core s) = true /\
  (outVc_isFull (nm_outVcs (nm_core s)) (np_vc (currNPPInfo (nm_core s))) = false ->
   exists c w fl, dequeueIntermediate (nm_core s) (nm_writeBuffer s) = Ok (c, w, [fl])).
Proof.
  intros Hr Ht Hid Hwork. destruct (nmu_reach_inv _ _ _ Hr) as (pks & cur & Hi).
  assert (Hd : deqScheduled (nm_core s) = true).
  { rewrite (ni_sched _ _ _ _ _ Hi). pose proof (ni_cur _ _ _ _ _ Hi) as Hc.
    destruct cur; [by destruct Hc|]. destruct Hc, Hwork; congruence. }
  split; [done|]. intros Hroom.
  destruct (deq_step _ _ _ _ _ Hi Hd) as [(c & w & new & ? & ? & -> & _ & Hone)|[[] _]]; [|done].
  specialize (Hone Hroom). destruct new as [|fl [|]]; try done. by exists c, w, fl.
Qed.

(** The packets the unit sends pass the receiver's packet check: once all
    flits of a packet are at the front of a receive queue with a window of at
    least four flits, it is reported complete. *)
Theorem sent_packet_complete k rest window :
  sent_ok k -> 4 <= window ->
  nc_status (checkNppReceivePrefix (receive_view <$> (st_flits k ++ rest))
    (NPP_MAX_SIZE / 16) window) = Complete.
Proof.
  intros Hk Hw. pose proof (st_n_range k Hk) as Hn. unfold st_flits.
  rewrite fmap_app, packet_flits_receive. change (NPP_MAX_SIZE / 16) with 4.
  rewrite checkNppReceivePrefix_flits by (lia || (right; lia)). by rewrite Z.eqb_refl.
Qed.

(** C4: what the endpoint behind the network receives is the stream: depacketizing
    the packets sent so far, at any width that fits the flit size, yields a
    prefix of the accepted bytes. *)
Theorem nmu_stream_delivered s bytes fls W fb :
  nmu_reach s bytes fls -> good_width W ->
  exists pks cur n outs,
    fls = concat (st_flits <$> pks) ++ take n (from_option st_flits [] cur) /\
    mapM (fun k => rmap snd (depackPacket (sm_pload (st_msg k)) W fb)) pks = Ok outs /\
    concat (kept_bytes <$> concat outs) `prefix_of` bytes.
Proof.
  intros Hr HW. destruct (nmu_reach_inv _ _ _ Hr) as (pks & cur & []).
  assert (exists outs, mapM (fun k => rmap snd (depackPacket (sm_pload (st_msg k)) W fb)) pks = Ok outs /\
    concat (kept_bytes <$> concat outs) = concat (st_bytes <$> pks)) as (outs & Hm & Hb).
  { apply Forall_app in ni_sent0 as [Hall _]. clear -Hall HW.
    induction Hall as [|k pks Hk _ (outs & Hm & Hb)]; [by exists []|].
    destruct (depackPacket_npp (sm_pload (st_msg k)) W fb (sk_npp k Hk) HW) as (agg & out & Hd & Hkb & _).
    exists (out :: outs). cbn [mapM]. rewrite Hd. cbn [rmap rbind snd]. rewrite Hm. split; [done|].
    by rewrite concat_cons, fmap_app, concat_app, Hkb, Hb. }
  exists pks, cur, (zn (np_flit_num (currNPPInfo (nm_core s)))), outs. split_and!; [|done|].
  - rewrite ni_flits0. destruct cur; [done|]. simpl. by rewrite take_nil.
  - rewrite Hb, ni_bytes0, fmap_app, concat_app, <- app_assoc. by eexists.
Qed.

(** The ready signal keeps the buffer within its 512 bytes: a beat that fits
    its bus, taken while ready with no negative byte count outstanding, leaves room for
    itself and for the bytes on their way. *)
Theorem s_getAxiWReady_room s data bytes fls :
  nmu_reach s bytes fls -> axis_wf data -> 0 <= inQueueBytes s < 2 ^ 31 ->
  s_getAxiWReady s data = true ->
  aw_bufferSize (nm_writeBuffer s) + inQueueBytes s + axis_getTotalByteSize data <= 512.
Proof.
  intros Hr [Hw _] Hq Hrdy. destruct (nmu_reach_inv _ _ _ Hr) as (pks & cur & Hi).
  pose proof (awi_size _ (ni_wb _ _ _ _ _ Hi)). pose proof (awi_bound _ (ni_wb _ _ _ _ _ Hi)).
  pose proof (axis_getTotalByteSize_range data Hw). unfold s_getAxiWReady in Hrdy.
  assert (Hf : 0 <= inFlightBytes (currNPPInfo (nm_core s)) < 65536).
  { unfold inFlightBytes. destruct (np_valid _); [apply u16_range|lia]. }
  assert (0 <= DATA_WIDTH data / 8 <= 64) by mlia.
  rewrite u32_small in Hrdy by lia. apply Z.leb_le in Hrdy. lia.
Qed.
End Nmu.

(** A TLAST beat without bytes that finds the buffer empty stops the
    simulation: a packet of zero bytes is cut. *)
Theorem empty_tlast_beat_panics tdm vcm router m_id pid dst oPort dbg :
  flitisizeMessage tdm vcm router m_id (sNmu_init pid) (beat8 0 dst true) oPort dbg =
    Err (FPanic "sNocMasterUnit: AXIS NPP must contain 1..64 valid bytes").
Proof. reflexivity. Qed.

(** *** Witnesses *)

(** Interface 1 sends TDEST 1 to interface 5, everything else to interface 0. *)
Definition ex_tdm : gmap Z (gmap Z Z) := {[1 := {[1 := 5]}]}.
Definition ex_vcm : gmap (Z * Z * Z) Z := {[(1, 5, 1) := 2; (1, 0, 1) := 3]}.
Definition ex_router (ni vnet : Z) : Z := ni.

Lemma ex_routes_total : routes_total ex_tdm ex_vcm 1.
Proof.
  intros td. unfold axisDest, getAxisDestNi.
  change (ex_tdm !! 1) with (Some ({[1 := 5]} : gmap Z Z)). cbn zeta iota beta.
  destruct (decide (s32 td = 1)) as [->|Hne]; [by vm_compute; eauto|].
  rewrite lookup_singleton_ne by done. by vm_compute; eauto.
Qed.

(** The unit after one 8-byte packet. *)
Definition ex_nmu : sNmu := Eval vm_compute in
  match flitisizeMessage ex_tdm ex_vcm ex_router 1 (sNmu_init 10) (beat8 255 1 true) (Some 7) 0 with
  | Ok s => s
  | Err _ => sNmu_init 0
  end.

Lemma beat8_last_ok : axis_beat_ok (beat8 255 1 true).
Proof. split; [|split; [|split]]; done || (split; [|split]; done). Qed.

Lemma ex_nmu_reach :
  nmu_reach ex_tdm ex_vcm ex_router 1 ex_nmu ([] ++ kept_bytes (beat8 255 1 true)) [].
Proof.
  eapply (reach_beat _ _ _ _ (sNmu_init 10) [] [] (beat8 255 1 true) (Some 7) 0 ex_nmu).
  - constructor.
  - exact beat8_last_ok.
  - done.
  - by vm_compute.
  - by vm_compute.
Qed.

Lemma nmu_injects_in_order_witness :
  exists pks cur n, Forall (sent_ok ex_tdm ex_vcm 1) (pks ++ option_list cur) /\
    [] = concat (st_flits <$> pks) ++ take n (from_option st_flits [] cur) /\
    [1; 2; 3; 4; 5; 6; 7; 8] = concat (st_bytes <$> (pks ++ option_list cur)) ++
      aw_stream (aw_writeBuffer (nm_writeBuffer ex_nmu)) /\
    StronglySorted Z.lt (st_pid <$> (pks ++ option_list cur)).
Proof. exact (nmu_injects_in_order _ _ _ _ _ _ _ ex_nmu_reach). Defined.

Lemma nmu_no_fault_witness :
  (forall data oPort dbg, axis_beat_ok data -> breaks_packet (nm_writeBuffer ex_nmu) data = false ->
     aw_bufferSize (nm_writeBuffer ex_nmu) + axis_getTotalByteSize data <= 512 ->
     is_ok (flitisizeMessage ex_tdm ex_vcm ex_router 1 ex_nmu data oPort dbg) = true) /\
  (deqScheduled (nm_core ex_nmu) = true ->
     is_ok (dequeueIntermediate ex_tdm ex_vcm ex_router 1 (nm_core ex_nmu) (nm_writeBuffer ex_nmu)) = true).
Proof. apply (nmu_no_fault _ _ _ _ _ _ _ ex_nmu_reach ex_routes_total). by vm_compute. Defined.

Lemma nmu_makes_progress_witness :
  deqScheduled (nm_core ex_nmu) = true /\
  (outVc_isFull (nm_outVcs (nm_core ex_nmu)) (np_vc (currNPPInfo (nm_core ex_nmu))) = false ->
   exists c w fl, dequeueIntermediate ex_tdm ex_vcm ex_router 1 (nm_core ex_nmu) (nm_writeBuffer ex_nmu)
     = Ok (c, w, [fl])).
Proof.
  apply (nmu_makes_progress _ _ _ _ _ _ _ ex_nmu_reach ex_routes_total); [by vm_compute|]. left. by vm_compute.
Defined.

(** The packet the example sends. *)
Definition ex_sent : sent := Eval vm_compute in
  mk_sent 10 2 (np_route (currNPPInfo (nm_core ex_nmu)))
    (default (mk_NocStreamMsg axisPayload_empty 0 0 0) (np_message (currNPPInfo (nm_core ex_nmu)))).

Lemma ex_sent_npp : npp_ok (sm_pload (st_msg ex_sent)).
Proof.
  split.
  - constructor; [|constructor]. split; [|split]; vm_compute; done.
  - exists 1, 1. constructor; [by split|constructor].
  - reflexivity.
  - reflexivity.
  - vm_compute. done.
  - right. reflexivity.
  - intros H. discriminate H.
Qed.

Lemma ex_sent_ok : sent_ok ex_tdm ex_vcm 1 ex_sent.
Proof.
  split; [exact ex_sent_npp|reflexivity| |vm_compute; reflexivity..].
  constructor; [vm_compute; reflexivity|constructor].
Qed.

Lemma sent_packet_complete_witness :
  nc_status (checkNppReceivePrefix (receive_view <$> (st_flits ex_sent ++ [])) (NPP_MAX_SIZE / 16) 4)
    = Complete.
Proof. apply (sent_packet_complete ex_tdm ex_vcm ex_router 1 ex_sent [] 4 ex_sent_ok). lia. Defined.

(** The dequeue event has fired: the packet is one flit. *)
Definition ex_fired : sNmuCore * axisWriteBuffer * list (flit NocStreamMsg) :=
  ok_or (nm_core ex_nmu, nm_writeBuffer ex_nmu, [])
    (dequeueIntermediate ex_tdm ex_vcm ex_router 1 (nm_core ex_nmu) (nm_writeBuffer ex_nmu)).
Lemma nmu_stream_delivered_witness :
  length ex_fired.2 = 1%nat /\
  exists pks cur n outs,
    ex_fired.2 = concat (st_flits <$> pks) ++ take n (from_option st_flits [] cur) /\
    mapM (fun k => rmap snd (depackPacket (sm_pload (st_msg k)) 256 0)) pks = Ok outs /\
    concat (kept_bytes <$> concat outs) `prefix_of` [1; 2; 3; 4; 5; 6; 7; 8].
Proof.
  split; [by vm_compute|].
  apply (nmu_stream_delivered ex_tdm ex_vcm ex_router 1 (mk_sNmu ex_fired.1.2 ex_fired.1.1 (inQueueBytes ex_nmu)) ([] ++ kept_bytes (beat8 255 1 true)) ([] ++ ex_fired.2) 256 0); [|exact good_width_32].
  apply (reach_deq _ _ _ _ ex_nmu); [exact ex_nmu_reach|by vm_compute|]. by vm_compute.
Defined.

Lemma s_getAxiWReady_room_witness :
  aw_bufferSize (nm_writeBuffer (enqueueBytes ex_nmu 8)) + inQueueBytes (enqueueBytes ex_nmu 8)
    + axis_getTotalByteSize (beat8 255 1 true) <= 512.
Proof.
  apply (s_getAxiWReady_room ex_tdm ex_vcm ex_router 1 (enqueueBytes ex_nmu 8) (beat8 255 1 true)
           ([] ++ kept_bytes (beat8 255 1 true)) []).
  - exact (reach_env _ _ _ _ ex_nmu _ [] 0 0 ex_nmu_reach).
  - apply beat8_last_ok.
  - by vm_compute.
  - by vm_compute.
Defined.
