(* ===== verification/AxisPacket.v ===== *)
(** * IPv4 packets over AXI-Stream

    [src/src/noc/lib/AxisPacketUtils.cc]: the traffic generator's IPv4/UDP/TCP
    packets with their one's-complement checksums, the checker's validation of
    received packets, and the split of a packet into beats.

    [vector::at] out of range is a thrown exception, [operator[]] out of range is
    undefined.  The random payload sizes of one [buildAxisPacketStream] overload
    come from [std::mt19937] and are an argument of the model; parsing of
    addresses and size lists from text is not modelled. *)

From S2P Require Import Prelude AxiTypes AxisWriteBuffer AxisDepack.

Inductive Profile := Ipv4Udp | Ipv4Tcp | MixedTcpUdp.

(** ** Byte access *)

Definition at_get (bytes : list Z) (off : nat) : res Z :=
  of_opt (FThrow "std::out_of_range") (bytes !! off).
Definition at_set (bytes : list Z) (off : nat) (v : Z) : res (list Z) :=
  guard (off <? length bytes)%nat (FThrow "std::out_of_range") (Ok (<[off := v]> bytes)).
Definition idx_get (bytes : list Z) (off : nat) : res Z :=
  of_opt (FUndef "vector index out of range") (bytes !! off).
Definition idx_set (bytes : list Z) (off : nat) (v : Z) : res (list Z) :=
  guard (off <? length bytes)%nat (FUndef "vector index out of range") (Ok (<[off := v]> bytes)).

Definition writeBe16 (bytes : list Z) (off : nat) (value : Z) : res (list Z) :=
  let* b := at_set bytes off (u8 (Z.land (Z.shiftr value 8) 0xff)) in
  at_set b (off + 1) (u8 (Z.land value 0xff)).
Definition writeBe32 (bytes : list Z) (off : nat) (value : Z) : res (list Z) :=
  let* b := at_set bytes off (u8 (Z.land (Z.shiftr value 24) 0xff)) in
  let* b := at_set b (off + 1) (u8 (Z.land (Z.shiftr value 16) 0xff)) in
  let* b := at_set b (off + 2) (u8 (Z.land (Z.shiftr value 8) 0xff)) in
  at_set b (off + 3) (u8 (Z.land value 0xff)).
Definition readBe16 (bytes : list Z) (off : nat) : res Z :=
  let* hi := at_get bytes off in
  let* lo := at_get bytes (off + 1) in
  Ok (u16 (Z.lor (Z.shiftl hi 8) lo)).

(** ** One's-complement checksums *)

(** [onesAddBytes] over the [len] bytes at [data]. *)
Fixpoint onesAddBytes (sum : Z) (data : list Z) : Z :=
  match data with
  | a :: b :: data => onesAddBytes (u32 (sum + Z.lor (Z.shiftl a 8) b)) data
  | [a] => u32 (sum + Z.shiftl a 8)
  | [] => sum
  end.

(** [onesFinalize]: the carry loop on a 32-bit sum runs at most twice. *)
Fixpoint foldCarries (fuel : nat) (sum : Z) : res Z :=
  if Z.shiftr sum 16 =? 0 then Ok sum
  else match fuel with
  | O => Err FFuel
  | S fuel => foldCarries fuel (u32 (Z.land sum 0xffff + Z.shiftr sum 16))
  end.
Definition onesFinalize (sum : Z) : res Z :=
  let* s := foldCarries 2 sum in
  Ok (u16 (Z.land (Z.lxor s 0xffffffff) 0xffff)).

Definition internetChecksum (data : list Z) : res Z := onesFinalize (onesAddBytes 0 data).

(** [l4Checksum]; reading past the packet's storage is undefined. *)
Definition l4Checksum (packet : list Z) (l4Off l4Len : nat) (protocol : Z) : res Z :=
  let* w0 := readBe16 packet 12 in
  let* w1 := readBe16 packet 14 in
  let* w2 := readBe16 packet 16 in
  let* w3 := readBe16 packet 18 in
  guard (l4Off + l4Len <=? length packet)%nat (FUndef "read past the packet") (
  let sum := u32 (u32 (u32 (u32 (u32 (u32 (0 + w0) + w1) + w2) + w3) + protocol) + u16 (nz l4Len)) in
  let* result := onesFinalize (onesAddBytes sum (slice packet l4Off l4Len)) in
  Ok (if result =? 0 then 0xffff else result)).

Definition prefixKeep (validBytes : nat) : Z :=
  if (64 <=? validBytes)%nat then 0xffffffffffffffff
  else if (validBytes =? 0)%nat then 0
  else u64 (Z.shiftl 1 (nz validBytes)) - 1.

(** ** Building a packet *)

(** [bytes[i] = value] for the payload loop. *)
Definition writePayload (bytes : list Z) (base : nat) (packetIndex : Z) (n : nat) : res (list Z) :=
  foldM (fun b i => idx_set b (base + i) (u8 (u32 (0xa0 + packetIndex) + nz i))) bytes (seq 0 n).

Definition isTcp (profile : Profile) (packetIndex : Z) : bool :=
  match profile with
  | Ipv4Tcp => true
  | MixedTcpUdp => negb (Z.land packetIndex 1 =? 0)
  | Ipv4Udp => false
  end.

(** The L4 header of [buildIpv4Packet], before its checksum. *)
Definition writeL4Header (bytes : list Z) (tcp : bool) (packetIndex : Z) (l4HdrLen payloadBytes : nat)
    : res (list Z) :=
  let l4 := 20%nat in
  if tcp then
    let* b := writeBe32 bytes (l4 + 4) (u32 (0x01000000 + packetIndex)) in
    let* b := writeBe32 b (l4 + 8) (u32 (0x02000000 + packetIndex)) in
    let* b := idx_set b (l4 + 12) 0x50 in
    let* b := idx_set b (l4 + 13) 0x18 in
    let* b := writeBe16 b (l4 + 14) 0x4000 in
    let* b := writeBe16 b (l4 + 16) 0 in
    writeBe16 b (l4 + 18) 0
  else
    let* b := writeBe16 bytes (l4 + 4) (u16 (nz (l4HdrLen + payloadBytes))) in
    writeBe16 b (l4 + 6) 0.

(** [buildIpv4Packet] up to the checksums. *)
Definition buildUnsummed (tcp : bool) (packetIndex flowCount : Z) (payloadBytes : nat)
    (srcIp dstIp srcPort dstPort : Z) : res (list Z) :=
  let protocol := if tcp then 6 else 17 in
  let l4HdrLen := (if tcp then 20 else 8)%nat in
  let totalLen := (20 + l4HdrLen + payloadBytes)%nat in
  let flow := if flowCount =? 0 then 0 else packetIndex mod flowCount in
  let* b := idx_set (zeros totalLen) 0 0x45 in
  let* b := idx_set b 1 0 in
  let* b := writeBe16 b 2 (u16 (nz totalLen)) in
  let* b := writeBe16 b 4 (u16 (0x1000 + packetIndex)) in
  let* b := writeBe16 b 6 0x4000 in
  let* b := idx_set b 8 64 in
  let* b := idx_set b 9 protocol in
  let* b := writeBe16 b 10 0 in
  let* b := writeBe32 b 12 (u32 (srcIp + flow)) in
  let* b := writeBe32 b 16 (u32 (dstIp + flow)) in
  let* b := writeBe16 b 20 (u16 (srcPort + flow)) in
  let* b := writeBe16 b 22 (u16 (dstPort + flow)) in
  let* b := writeL4Header b tcp packetIndex l4HdrLen payloadBytes in
  writePayload b (20 + l4HdrLen) packetIndex payloadBytes.

(** The checksums and the requested corruptions that end [buildIpv4Packet]. *)
Definition corrupt16 (bytes : list Z) (off : nat) : res (list Z) :=
  let* v := readBe16 bytes off in writeBe16 bytes off (Z.lxor v 0xffff).
Definition sealPacket (b : list Z) (tcp : bool) (l4HdrLen payloadBytes : nat)
    (corruptIpv4Checksum corruptL4Checksum : bool) : res (list Z) :=
  let protocol := if tcp then 6 else 17 in
  let checksumOff := (20 + if tcp then 16 else 6)%nat in
  let* ipSum := internetChecksum (slice b 0 20) in
  let* b := writeBe16 b 10 ipSum in
  let* l4Sum := l4Checksum b 20 (l4HdrLen + payloadBytes) protocol in
  let* b := writeBe16 b checksumOff l4Sum in
  let* b := if corruptIpv4Checksum then corrupt16 b 10 else Ok b in
  if corruptL4Checksum then corrupt16 b checksumOff else Ok b.

(** [buildIpv4Packet] *)
Definition buildIpv4Packet (profile : Profile) (packetIndex flowCount : Z) (payloadBytes : nat)
    (srcIp dstIp srcPort dstPort : Z) (corruptIpv4Checksum corruptL4Checksum : bool)
    : res (list Z) :=
  let tcp := isTcp profile packetIndex in
  let l4HdrLen := (if tcp then 20 else 8)%nat in
  guard (nz (20 + l4HdrLen + payloadBytes) <=? 65535)
    (FFatal "Axis packet total length exceeds IPv4 max") (
  let* b := buildUnsummed tcp packetIndex flowCount payloadBytes srcIp dstIp srcPort dstPort in
  sealPacket b tcp l4HdrLen payloadBytes corruptIpv4Checksum corruptL4Checksum).

(** ** Validating a packet *)

(** The result and, on failure, the [reason] the code reports. *)
Definition verdict : Type := bool * string.
Definition vfail (reason : string) : res verdict := Ok (false, reason).
Definition vok : res verdict := Ok (true, EmptyString).

Definition checksumBad (sum : Z) : bool := negb (sum =? 0) && negb (sum =? 0xffff).

Definition validateUdp (packet : list Z) (ipHdrLen l4Len : nat) (validateL4Checksum : bool)
    : res verdict :=
  if (l4Len <? 8)%nat then vfail "UDP packet shorter than UDP header"
  else
    let* len := readBe16 packet (ipHdrLen + 4) in
    if negb (len =? nz l4Len) then vfail "UDP length does not match IPv4 payload length"
    else
      let* udpChecksum := l4Checksum packet ipHdrLen l4Len 17 in
      let* field := if validateL4Checksum then readBe16 packet (ipHdrLen + 6) else Ok 0 in
      if validateL4Checksum && negb (field =? 0) && checksumBad udpChecksum
      then vfail "invalid UDP checksum" else vok.

Definition validateTcp (packet : list Z) (ipHdrLen l4Len : nat) (validateL4Checksum : bool)
    : res verdict :=
  if (l4Len <? 20)%nat then vfail "TCP packet shorter than TCP header"
  else
    let* b := idx_get packet (ipHdrLen + 12) in
    let doff := Z.shiftr b 4 in
    if (doff <? 5) || (nz l4Len <? doff * 4) then vfail "invalid TCP data offset"
    else
      let* tcpChecksum := l4Checksum packet ipHdrLen l4Len 6 in
      if validateL4Checksum && checksumBad tcpChecksum
      then vfail "invalid TCP checksum" else vok.

(** [validateIpv4Packet] *)
Definition validateIpv4Packet (packet : list Z) (validateIpv4Checksum validateL4Checksum : bool)
    : res verdict :=
  if (length packet <? 20)%nat then vfail "packet shorter than IPv4 header"
  else
    let* b0 := idx_get packet 0 in
    let version := Z.shiftr b0 4 in
    let ihl := Z.land b0 0x0f in
    let ipHdrLen := zn (ihl * 4) in
    if negb (version =? 4) || (ihl <? 5) then vfail "invalid IPv4 version/IHL"
    else if (length packet <? ipHdrLen)%nat then vfail "packet shorter than IPv4 IHL"
    else
      let* totalLen := readBe16 packet 2 in
      if negb (totalLen =? nz (length packet))
      then vfail "IPv4 total length does not match AXIS packet bytes"
      else
        let* ipSum := if validateIpv4Checksum then internetChecksum (slice packet 0 ipHdrLen) else Ok 0 in
        if validateIpv4Checksum && negb (ipSum =? 0) then vfail "invalid IPv4 header checksum"
        else
          let* protocol := idx_get packet 9 in
          let l4Len := (length packet - ipHdrLen)%nat in
          if protocol =? 17 then validateUdp packet ipHdrLen l4Len validateL4Checksum
          else if protocol =? 6 then validateTcp packet ipHdrLen l4Len validateL4Checksum
          else vfail "unsupported IPv4 protocol".

(** ** Beats *)

(** The beat of [n] bytes of the packet from [off]. *)
Definition packetBeat (packet : list Z) (dataWidth idWidth destWidth tid tdest tuser : Z)
    (off : nat) : axisData :=
  let bytesPerBeat := zn (dataWidth / 8) in
  let n := Nat.min bytesPerBeat (length packet - off) in
  let beat := axisData_of_width dataWidth idWidth destWidth in
  {| DATA_WIDTH := DATA_WIDTH beat; DATA_WIDTH_BITS := DATA_WIDTH_BITS beat;
     DST_ID_WIDTH := DST_ID_WIDTH beat; ID_WIDTH := ID_WIDTH beat;
     tdata := copy_into (zeros (length (AxiTypes.tdata beat))) 0 (slice packet off n);
     AxiTypes.tid := tid; AxiTypes.tdest := tdest; tkeep := prefixKeep n; AxiTypes.tuser := tuser;
     tlast := (length packet <=? off + n)%nat; tvalid := true |}.

(** The loop [for (off = 0; off < packet.size(); off += bytesPerBeat)]. *)
Fixpoint beatsFrom (fuel : nat) (packet : list Z) (dataWidth idWidth destWidth tid tdest tuser : Z)
    (off : nat) : res (list axisData) :=
  if (length packet <=? off)%nat then Ok []
  else match fuel with
  | O => Err FFuel
  | S fuel =>
      let* rest := beatsFrom fuel packet dataWidth idWidth destWidth tid tdest tuser
                     (off + zn (dataWidth / 8)) in
      Ok (packetBeat packet dataWidth idWidth destWidth tid tdest tuser off :: rest)
  end.

(** [packetToAxisBeats]: at most one beat per byte. *)
Definition packetToAxisBeats (packet : list Z) (dataWidth idWidth destWidth tid tdest tuser : Z)
    : res (list axisData) :=
  guard (negb ((dataWidth =? 0) || negb (dataWidth mod 8 =? 0)))
    (FFatal "AXIS data width must be a non-zero byte multiple") (
  guard (dataWidth <=? 512) (FFatal "AXIS packet test nodes only support up to 512-bit data") (
  beatsFrom (length packet) packet dataWidth idWidth destWidth tid tdest tuser 0)).

(** ** Streams *)

Definition withPrefix (prefixBytes : nat) (prefixValue : Z) (packet : list Z) : list Z :=
  if (0 <? prefixBytes)%nat
  then ((fun b => u8 (Z.land (Z.shiftr prefixValue (8 * nz b)) 0xff)) <$> seq 0 prefixBytes) ++ packet
  else packet.

(** One round of [buildAxisPacketStream]: packet [i] with [payloadBytes] bytes.  A
    shift of [prefixValue] by 32 or more is undefined. *)
Definition streamRound (profile : Profile) (flowCount dataWidth idWidth destWidth tid tdest tuser
    srcIp dstIp srcPort dstPort : Z) (corruptIpv4Checksum corruptL4Checksum : bool)
    (prefixBytes : nat) (prefixValue : Z) (i : nat) (payloadBytes : nat) : res (list axisData) :=
  guard (prefixBytes <=? 4)%nat (FUndef "shift of a 32-bit value by 32 or more") (
  let* packet := buildIpv4Packet profile (nz i) flowCount payloadBytes srcIp dstIp srcPort dstPort
                   corruptIpv4Checksum corruptL4Checksum in
  packetToAxisBeats (withPrefix prefixBytes prefixValue packet) dataWidth idWidth destWidth tid tdest tuser).

(** [buildAxisPacketStream] with the sizes drawn for each packet. *)
Definition buildStreamWith (profile : Profile) (flowCount dataWidth idWidth destWidth tid tdest tuser
    srcIp dstIp srcPort dstPort : Z) (cIp cL4 : bool) (prefixBytes : nat) (prefixValue : Z)
    (sizes : list nat) : res (list axisData) :=
  let* beats := mapM (fun '(i, n) => streamRound profile flowCount dataWidth idWidth destWidth tid tdest
    tuser srcIp dstIp srcPort dstPort cIp cL4 prefixBytes prefixValue i n) (zip (seq 0 (length sizes)) sizes) in
  Ok (concat beats).

(** [buildAxisPacketStream] with a payload size list, used cyclically. *)
Definition buildAxisPacketStream (profile : Profile) (maxPackets : nat) (flowCount : Z)
    (payloadSizes : list nat) (dataWidth idWidth destWidth tid tdest tuser srcIp dstIp srcPort dstPort : Z)
    (cIp cL4 : bool) (prefixBytes : nat) (prefixValue : Z) : res (list axisData) :=
  guard (0 <? length payloadSizes)%nat (FFatal "Payload size list must contain at least one entry") (
  buildStreamWith profile flowCount dataWidth idWidth destWidth tid tdest tuser srcIp dstIp srcPort dstPort
    cIp cL4 prefixBytes prefixValue
    ((fun i => nth (i mod length payloadSizes) payloadSizes 0%nat) <$> seq 0 maxPackets)).

(** ** One's-complement arithmetic *)

(** The one's-complement sum a 32-bit accumulator stands for. *)
Definition ocn (s : Z) : Z := if s =? 0 then 0 else (s - 1) mod 65535 + 1.

Lemma ocn_small s : 0 <= s < 65536 -> ocn s = s.
Proof. intros. unfold ocn. destruct (Z.eqb_spec s 0); [done|]. rewrite Z.mod_small; lia. Qed.

Lemma ocn_range s : 0 < s -> 1 <= ocn s <= 65535.
Proof. intros. unfold ocn. destruct (Z.eqb_spec s 0); [lia|]. pose proof (Z.mod_pos_bound (s - 1) 65535). lia. Qed.

Lemma ocn_carry s : 65536 <= s -> ocn (s mod 65536 + s / 65536) = ocn s.
Proof.
  intros Hs. unfold ocn. rewrite (proj2 (Z.eqb_neq s 0)) by lia.
  assert (1 <= s / 65536) by (apply Z.div_le_lower_bound; lia).
  pose proof (Z.mod_pos_bound s 65536). rewrite (proj2 (Z.eqb_neq _ 0)) by lia. f_equal.
  pose proof (Z.div_mod s 65536 ltac:(lia)) as Hd.
  replace (s - 1) with (s mod 65536 + s / 65536 - 1 + s / 65536 * 65535) by lia.
  by rewrite Z.mod_add by lia.
Qed.

Lemma ocn_full s : 0 < s -> (ocn s = 65535 <-> s mod 65535 = 0).
Proof.
  intros. unfold ocn. destruct (Z.eqb_spec s 0); [lia|].
  pose proof (Z.div_mod s 65535 ltac:(lia)). pose proof (Z.div_mod (s - 1) 65535 ltac:(lia)).
  pose proof (Z.mod_pos_bound s 65535). pose proof (Z.mod_pos_bound (s - 1) 65535). split; intros; nia.
Qed.

Lemma ocn_cong s : 0 < s -> (s - ocn s) mod 65535 = 0.
Proof.
  intros. unfold ocn. destruct (Z.eqb_spec s 0); [lia|].
  pose proof (Z.div_mod (s - 1) 65535 ltac:(lia)) as Hd.
  replace (s - ((s - 1) mod 65535 + 1)) with ((s - 1) / 65535 * 65535) by lia. by apply Z.mod_mul.
Qed.

(** A sum completed by its checksum is full; completed by the inverted checksum it
    is full only if the sum already was. *)
Lemma ocn_complete s : 0 < s -> ocn (s + (65535 - ocn s)) = 65535.
Proof.
  intros Hs. pose proof (ocn_range s Hs). apply ocn_full; [lia|].
  replace (s + (65535 - ocn s)) with (s - ocn s + 1 * 65535) by lia.
  rewrite Z.mod_add by lia. by apply ocn_cong.
Qed.
Lemma ocn_inverted s : 0 < s -> (ocn (s + ocn s) = 65535 <-> ocn s = 65535).
Proof.
  intros Hs. pose proof (ocn_range s Hs). rewrite (ocn_full (s + ocn s)) by lia.
  pose proof (ocn_cong s Hs) as Hc. apply Z.mod_divide in Hc as [k Hk]; [|lia].
  replace (s + ocn s) with (2 * ocn s + k * 65535) by lia. rewrite Z.mod_add by lia.
  split; intros H1.
  - apply Z.mod_divide in H1 as [j Hj]; [|lia]. lia.
  - by rewrite H1.
Qed.

Lemma land_ones16 s : 0 <= s -> Z.land s 0xffff = s mod 65536.
Proof. intros. change 0xffff with (Z.ones 16). by rewrite Z.land_ones. Qed.
Lemma shiftr16 s : Z.shiftr s 16 = s / 65536.
Proof. by rewrite Z.shiftr_div_pow2. Qed.

Lemma foldCarries_ocn s : 0 <= s < 2 ^ 32 -> foldCarries 2 s = Ok (ocn s).
Proof.
  intros Hs.
  assert (Hstep : forall f t, 65536 <= t < 2 ^ 32 ->
    foldCarries (S f) t = foldCarries f (t mod 65536 + t / 65536)).
  { intros f t Ht. cbn [foldCarries]. rewrite shiftr16, land_ones16 by lia.
    rewrite (proj2 (Z.eqb_neq _ _)) by mlia. rewrite u32_small; [done|mlia]. }
  assert (Hstop : forall f t, 0 <= t < 65536 -> foldCarries f t = Ok (ocn t)).
  { intros f t Ht. rewrite ocn_small by done. destruct f; cbn [foldCarries];
      rewrite shiftr16, Z.div_small by lia; done. }
  destruct (Z.lt_ge_cases s 65536); [apply Hstop; lia|].
  rewrite Hstep, <- ocn_carry by lia. set (t := s mod 65536 + s / 65536).
  assert (Ht : 0 <= t <= 131070) by (unfold t; mlia).
  destruct (Z.lt_ge_cases t 65536); [apply Hstop; lia|].
  rewrite Hstep, <- (ocn_carry t) by lia. apply Hstop. mlia.
Qed.

Lemma invert16 x : 0 <= x < 65536 -> Z.lxor x 0xffff = 65535 - x.
Proof.
  intros Hx. change 0xffff with (Z.ones 16). change 65535 with (Z.ones 16).
  rewrite Z.lxor_comm, Z.sub_nocarry_ldiff; apply Z.bits_inj'; intros i Hi;
    rewrite ?Z.lxor_spec, ?Z.ldiff_spec, ?Z.bits_0.
  all: destruct (Z.lt_ge_cases i 16); [rewrite Z.ones_spec_low by lia|rewrite Z.ones_spec_high by lia];
    rewrite ?andb_false_r, ?andb_true_r; try done; try by destruct (Z.testbit x i).
  all: assert (Hb : Z.testbit x i = false) by (apply (Z.testbit_false x i Hi);
         rewrite Z.div_small; [done|]; split; [lia|]; apply Z.lt_le_trans with (2 ^ 16); [lia|];
         apply Z.pow_le_mono_r; lia); by rewrite Hb.
Qed.

Lemma onesFinalize_ocn s : 0 <= s < 2 ^ 32 -> onesFinalize s = Ok (65535 - ocn s).
Proof.
  intros Hs. unfold onesFinalize. rewrite foldCarries_ocn by done. cbn [rbind]. f_equal.
  assert (Ho : 0 <= ocn s < 65536).
  { destruct (Z.eq_dec s 0) as [->|]; [done|]. pose proof (ocn_range s). lia. }
  rewrite <- (invert16 (ocn s)) by done.
  assert (Z.land (Z.lxor (ocn s) 0xffffffff) 0xffff = Z.lxor (ocn s) 0xffff) as ->.
  { apply Z.bits_inj'. intros i Hi. change 0xffffffff with (Z.ones 32). change 0xffff with (Z.ones 16).
    rewrite Z.land_spec, !Z.lxor_spec. destruct (Z.lt_ge_cases i 16).
    - rewrite !Z.ones_spec_low by lia. by rewrite andb_true_r.
    - rewrite (Z.ones_spec_high 16) by lia. rewrite andb_false_r, xorb_false_r. symmetry.
      apply (Z.testbit_false _ _ Hi). rewrite Z.div_small; [done|]. split; [lia|].
      apply Z.lt_le_trans with (2 ^ 16); [lia|]. apply Z.pow_le_mono_r; lia. }
  rewrite invert16 by done. apply u16_small. lia.
Qed.

(** ** Words of a byte list *)

Definition all_bytes (l : list Z) : Prop := Forall (fun x => 0 <= x < 256) l.
Definition word (l : list Z) (off : nat) : Z := byte_at l off * 256 + byte_at l (off + 1).

Lemma byte_at_range l i : all_bytes l -> 0 <= byte_at l i < 256.
Proof.
  intros Hl. unfold byte_at. rewrite nth_lookup. destruct (l !! i) as [x|] eqn:E; simpl; [|lia].
  by apply (Forall_lookup_1 _ _ _ _ Hl E).
Qed.
Lemma word_range l i : all_bytes l -> 0 <= word l i < 65536.
Proof. intros Hl. pose proof (byte_at_range l i Hl). pose proof (byte_at_range l (i + 1) Hl). unfold word. lia. Qed.

Lemma lor_be16 a b : 0 <= a -> 0 <= b < 256 -> Z.lor (Z.shiftl a 8) b = a * 256 + b.
Proof.
  intros Ha Hb. rewrite Z.shiftl_mul_pow2 by lia. change (2 ^ 8) with 256. symmetry.
  rewrite Z.add_nocarry_lxor, Z.lxor_lor; [done|..]; apply Z.bits_inj'; intros i Hi; rewrite Z.land_spec, Z.bits_0.
  all: change 256 with (2 ^ 8); destruct (Z.lt_ge_cases i 8); [by rewrite Z.mul_pow2_bits_low|].
  all: assert (Z.testbit b i = false) as ->; [|by rewrite andb_false_r].
  all: apply (Z.testbit_false _ _ Hi); rewrite Z.div_small; [done|]; split; [lia|];
    apply Z.lt_le_trans with (2 ^ 8); [lia|]; apply Z.pow_le_mono_r; lia.
Qed.

Fixpoint sum16 (l : list Z) : Z :=
  match l with
  | a :: b :: l => a * 256 + b + sum16 l
  | [a] => a * 256
  | [] => 0
  end.

Lemma pair_ind (P : list Z -> Prop) :
  P [] -> (forall a, P [a]) -> (forall a b l, P l -> P (a :: b :: l)) -> forall l, P l.
Proof.
  intros H0 H1 H2. fix IH 1. intros [|a [|b l]]; [exact H0|apply H1|apply H2, IH].
Qed.

Lemma sum16_range l : all_bytes l -> 0 <= sum16 l <= 65535 * nz (length l).
Proof.
  induction l as [| |a b l IH] using pair_ind; intros Hl; [done|..].
  - apply Forall_cons in Hl as [Ha _]. simpl. lia.
  - apply Forall_cons in Hl as [Ha Hl]. apply Forall_cons in Hl as [Hb Hl].
    specialize (IH Hl). cbn [sum16 length]. lia.
Qed.

Lemma onesAddBytes_sum s l :
  all_bytes l -> 0 <= s -> s + sum16 l < 2 ^ 32 -> onesAddBytes s l = s + sum16 l.
Proof.
  revert s. induction l as [| a |a b l IH] using pair_ind; intros s Hl Hs Hb; [simpl; lia|..].
  - apply Forall_cons in Hl as [Ha _]. simpl in *. rewrite Z.shiftl_mul_pow2 by lia.
    change (2 ^ 8) with 256. rewrite u32_small; lia.
  - apply Forall_cons in Hl as [Ha Hl]. apply Forall_cons in Hl as [Hb' Hl].
    pose proof (sum16_range l Hl). cbn [onesAddBytes sum16] in *. rewrite lor_be16 by lia.
    rewrite u32_small by lia. rewrite IH by (done || lia). lia.
Qed.

(** Changing the word at an even offset changes the sum by the difference. *)
Lemma sum16_update k l l' :
  length l' = length l -> (2 * k + 1 < length l)%nat ->
  (forall i, i <> (2 * k)%nat -> i <> (2 * k + 1)%nat -> byte_at l' i = byte_at l i) ->
  sum16 l' = sum16 l - word l (2 * k) + word l' (2 * k).
Proof.
  revert l l'. induction k as [|k IH]; intros l l' Hlen Hk Heq.
  - destruct l as [|a [|b l]], l' as [|a' [|b' l']]; simpl in Hlen, Hk; try lia.
    assert (l' = l) as ->.
    { apply list_eq. intros i. specialize (Heq (2 + i)%nat ltac:(lia) ltac:(lia)).
      unfold byte_at in Heq. simpl in Heq. rewrite !nth_lookup in Heq.
      destruct (l !! i) eqn:E1, (l' !! i) eqn:E2; simpl in Heq; try congruence.
      - apply lookup_lt_Some in E1. apply lookup_ge_None in E2. lia.
      - apply lookup_lt_Some in E2. apply lookup_ge_None in E1. lia. }
    unfold word, byte_at. cbn. lia.
  - destruct l as [|a [|b l]], l' as [|a' [|b' l']]; simpl in Hlen, Hk; try lia.
    pose proof (Heq 0%nat ltac:(lia) ltac:(lia)) as Ea. pose proof (Heq 1%nat ltac:(lia) ltac:(lia)) as Eb.
    unfold byte_at in Ea, Eb. simpl in Ea, Eb. subst a' b'. cbn [sum16].
    rewrite (IH l l') by (first [lia|intros i Hi1 Hi2; apply (Heq (2 + i)%nat); lia]).
    replace (2 * S k)%nat with (2 + 2 * k)%nat by lia. unfold word, byte_at. simpl. lia.
Qed.

Lemma slice_byte_at l o n i : (i < n)%nat -> byte_at (slice l o n) i = byte_at l (o + i).
Proof. intros. unfold byte_at. by rewrite !nth_lookup, lookup_slice. Qed.
Lemma slice_all_bytes l o n : all_bytes l -> all_bytes (slice l o n).
Proof. intros. unfold slice. by apply Forall_take, Forall_drop. Qed.

(** ** Reads and writes that stay in range *)

Definition put16 (l : list Z) (off : nat) (v : Z) : list Z :=
  <[(off + 1)%nat := v mod 256]> (<[off := v / 256]> l).

Lemma at_set_ok l off v : (off < length l)%nat -> at_set l off v = Ok (<[off := v]> l).
Proof. intros. unfold at_set. by rewrite (proj2 (Nat.ltb_lt _ _)). Qed.
Lemma idx_set_ok l off v : (off < length l)%nat -> idx_set l off v = Ok (<[off := v]> l).
Proof. intros. unfold idx_set. by rewrite (proj2 (Nat.ltb_lt _ _)). Qed.

Lemma byte_hi v : 0 <= v < 65536 -> u8 (Z.land (Z.shiftr v 8) 0xff) = v / 256.
Proof.
  intros. change 0xff with (Z.ones 8). rewrite Z.land_ones, Z.shiftr_div_pow2 by lia.
  change (2 ^ 8) with 256. unfold u8. rewrite Z.mod_mod by lia. apply Z.mod_small. mlia.
Qed.
Lemma byte_lo v : u8 (Z.land v 0xff) = v mod 256.
Proof. change 0xff with (Z.ones 8). rewrite Z.land_ones by lia. unfold u8. by rewrite Z.mod_mod. Qed.

Lemma writeBe16_ok l off v :
  0 <= v < 65536 -> (off + 1 < length l)%nat -> writeBe16 l off v = Ok (put16 l off v).
Proof.
  intros Hv Hl. unfold writeBe16. rewrite at_set_ok by lia. cbn [rbind].
  rewrite at_set_ok by (rewrite length_insert; lia). by rewrite byte_hi, byte_lo.
Qed.

Lemma readBe16_ok l off :
  all_bytes l -> (off + 1 < length l)%nat -> readBe16 l off = Ok (word l off).
Proof.
  intros Hl Ho. unfold readBe16, at_get, word, byte_at. rewrite !nth_lookup.
  destruct (lookup_lt_is_Some_2 l off ltac:(lia)) as [a Ea].
  destruct (lookup_lt_is_Some_2 l (off + 1) ltac:(lia)) as [b Eb].
  rewrite Ea, Eb. cbn. f_equal.
  assert (0 <= a < 256) by apply (Forall_lookup_1 _ _ _ _ Hl Ea). assert (0 <= b < 256) by apply (Forall_lookup_1 _ _ _ _ Hl Eb). rewrite lor_be16 by lia. apply u16_small. lia.
Qed.

Lemma idx_get_ok l off : (off < length l)%nat -> idx_get l off = Ok (byte_at l off).
Proof.
  intros Ho. unfold idx_get, byte_at. rewrite nth_lookup.
  destruct (lookup_lt_is_Some_2 l off Ho) as [a ->]. done.
Qed.

Lemma byte_at_insert l i x j :
  (i < length l)%nat -> byte_at (<[i := x]> l) j = if decide (i = j) then x else byte_at l j.
Proof.
  intros Hi. unfold byte_at. rewrite !nth_lookup. case_decide as E.
  - subst j. by rewrite list_lookup_insert_eq.
  - by rewrite list_lookup_insert_ne.
Qed.

Lemma put16_other l off v i :
  (off + 1 < length l)%nat -> i <> off -> i <> (off + 1)%nat -> byte_at (put16 l off v) i = byte_at l i.
Proof.
  intros. unfold put16. rewrite !byte_at_insert by (rewrite ?length_insert; lia).
  by rewrite !decide_False by lia.
Qed.
Lemma put16_word l off v : (off + 1 < length l)%nat -> word (put16 l off v) off = v.
Proof.
  intros. unfold word, put16. rewrite !byte_at_insert by (rewrite ?length_insert; lia).
  rewrite decide_False, decide_True, (decide_True (P := (off + 1)%nat = (off + 1)%nat)) by lia.
  pose proof (Z.div_mod v 256). lia.
Qed.
Lemma length_put16 l off v : length (put16 l off v) = length l.
Proof. unfold put16. by rewrite !length_insert. Qed.

Lemma insert_all_bytes l i x : all_bytes l -> 0 <= x < 256 -> all_bytes (<[i := x]> l).
Proof. intros. by apply Forall_insert. Qed.
Lemma put16_all_bytes l off v : all_bytes l -> 0 <= v < 65536 -> all_bytes (put16 l off v).
Proof. intros Hl Hv. apply insert_all_bytes; [apply insert_all_bytes; [done|mlia]|mlia]. Qed.

(** ** What [buildUnsummed] produces *)

(** A packet whose checksum fields are still zero. *)
Record unsummed (tcp : bool) (b : list Z) : Prop := {
  us_len : ((if tcp then 40 else 28) <= length b)%nat;
  us_max : nz (length b) <= 65535;
  us_bytes : all_bytes b;
  us_b0 : byte_at b 0 = 0x45;
  us_total : word b 2 = nz (length b);
  us_proto : byte_at b 9 = if tcp then 6 else 17;
  us_ipsum : word b 10 = 0;
  us_l4 : if tcp then byte_at b 32 = 0x50 else word b 24 = nz (length b) - 20;
  us_l4sum : word b (if tcp then 36 else 26) = 0
}.

Lemma writePayload_ok l base pi n :
  (base + n <= length l)%nat -> all_bytes l ->
  exists l', writePayload l base pi n = Ok l' /\ length l' = length l /\ all_bytes l' /\
    forall i, (i < base)%nat -> byte_at l' i = byte_at l i.
Proof.
  intros Hn Hl. unfold writePayload. induction n as [|n IH]; [by exists l|].
  destruct IH as (l' & Hf & Hlen & Hb & Hi); [lia|].
  rewrite seq_S, foldM_app, Hf, Nat.add_0_l. cbn [rbind foldM].
  rewrite idx_set_ok by lia. cbn [rbind]. eexists. split; [reflexivity|].
  rewrite length_insert. split; [done|]. split.
  - apply insert_all_bytes; [done|]. apply u8_range.
  - intros i Hlt. rewrite byte_at_insert, decide_False by lia. by apply Hi.
Qed.

Lemma zeros_bytes n : all_bytes (zeros n).
Proof. apply Forall_replicate. lia. Qed.

(** The two bytes written for a 16-bit value read back as that value. *)
Lemma bytes_word v :
  0 <= v < 65536 -> u8 (Z.land (Z.shiftr v 8) 0xff) * 256 + u8 (Z.land v 0xff) = v.
Proof. intros. rewrite byte_hi, byte_lo by done. pose proof (Z.div_mod v 256). lia. Qed.

Ltac all_bytes_tac :=
  repeat (apply Forall_cons; split; [first [apply u8_range | lia]|]); apply zeros_bytes.

Lemma buildUnsummed_ok (tcp : bool) packetIndex flowCount payloadBytes srcIp dstIp srcPort dstPort :
  nz (20 + (if tcp then 20 else 8) + payloadBytes) <= 65535 ->
  exists b, buildUnsummed tcp packetIndex flowCount payloadBytes srcIp dstIp srcPort dstPort = Ok b /\
    unsummed tcp b /\ length b = (20 + (if tcp then 20 else 8) + payloadBytes)%nat.
Proof.
  intros Hmax. unfold buildUnsummed.
  set (N := nz (20 + (if tcp then 20 else 8) + payloadBytes)) in *.
  set (flow := if flowCount =? 0 then 0 else packetIndex mod flowCount).
  assert (HNd : N = nz (20 + (if tcp then 20 else 8) + payloadBytes)) by done.
  assert (HN : 0 <= N < 65536) by lia.
  assert (HuN : u16 N = N) by (apply u16_small; lia).
  destruct tcp;
    cbn [idx_set writeBe16 writeBe32 at_set guard rbind insert list_insert length Nat.ltb Nat.leb
         zeros replicate Nat.add writeL4Header];
    fold (zeros payloadBytes).
  all: match goal with
       | |- context [writePayload ?l ?base ?pi ?n] =>
           destruct (writePayload_ok l base pi n) as (b & -> & Hlen & Hb & Hi);
           [cbn [length]; unfold zeros; rewrite length_replicate; lia|all_bytes_tac|]
       end.
  all: cbn [length] in Hlen; unfold zeros in Hlen; rewrite length_replicate in Hlen.
  all: exists b; split; [done|]; split; [|rewrite Hlen; lia].
  all: assert (HNl : nz (length b) = N) by (rewrite Hlen, HNd; lia).
  all: split; rewrite ?HNl; unfold word; rewrite ?Hi by lia; cbn [byte_at nth Nat.add]; try done || lia.
  all: rewrite ?HuN, ?bytes_word by lia.
  1,2: done.
  rewrite u16_small, bytes_word by lia. lia.
Qed.

(** ** Sealing *)

Definition l4SumOff (tcp : bool) : nat := if tcp then 36%nat else 26%nat.
Definition protocolOf (tcp : bool) : Z := if tcp then 6 else 17.

(** The sums the two checksums cover, with the fields as they are in [b]. *)
Definition ipSum (b : list Z) : Z := sum16 (slice b 0 20).
Definition l4Sum (tcp : bool) (b : list Z) : Z :=
  word b 12 + word b 14 + word b 16 + word b 18 + protocolOf tcp + (nz (length b) - 20) +
  sum16 (slice b 20 (length b - 20)).

(** [f] is [b] with [x] and [y] in the checksum fields. *)
Record sealed (tcp : bool) (b f : list Z) (x y : Z) : Prop := {
  se_len : length f = length b;
  se_bytes : all_bytes f;
  se_same : forall i, i <> 10%nat -> i <> 11%nat -> i <> l4SumOff tcp -> i <> (l4SumOff tcp + 1)%nat ->
    byte_at f i = byte_at b i;
  se_x : word f 10 = x;
  se_y : word f (l4SumOff tcp) = y
}.

Lemma sealed_word tcp b f x y i :
  sealed tcp b f x y -> i <> 9%nat -> i <> 10%nat -> i <> 11%nat ->
  i <> l4SumOff tcp -> i <> (l4SumOff tcp + 1)%nat -> (i + 1)%nat <> l4SumOff tcp ->
  word f i = word b i.
Proof. intros [] **. unfold word. by rewrite !se_same0 by lia. Qed.

Lemma sealed_ipSum tcp b f x y :
  unsummed tcp b -> sealed tcp b f x y -> ipSum f = ipSum b + x.
Proof.
  intros Hu Hs. pose proof (us_len tcp b Hu) as Hl. destruct Hs as [Hlen Hb Hsame Hx Hy].
  assert (28 <= length b)%nat by (destruct tcp; lia). unfold ipSum.
  rewrite (sum16_update 5 (slice b 0 20) (slice f 0 20)).
  - unfold word. rewrite !slice_byte_at by lia. cbn [Nat.add Nat.mul].
    pose proof (us_ipsum tcp b Hu) as H0. unfold word in H0, Hx. cbn [Nat.add] in H0, Hx. lia.
  - by rewrite !length_slice by lia.
  - rewrite length_slice; lia.
  - intros i H1 H2. destruct (decide (i < 20)%nat).
    + rewrite !slice_byte_at by done. apply Hsame; unfold l4SumOff; destruct tcp; simpl in *; lia.
    + unfold byte_at. rewrite !nth_overflow; [done|..]; rewrite length_slice; lia.
Qed.

Lemma sealed_l4Sum tcp b f x y :
  unsummed tcp b -> sealed tcp b f x y -> l4Sum tcp f = l4Sum tcp b + y.
Proof.
  intros Hu Hs. pose proof (us_len tcp b Hu) as Hl. unfold l4Sum.
  assert (28 <= length b)%nat by (destruct tcp; lia).
  rewrite !(sealed_word tcp b f x y _ Hs) by (unfold l4SumOff; destruct tcp; lia).
  destruct Hs as [Hlen Hb Hsame Hx Hy]. rewrite Hlen.
  set (k := (if tcp then 8 else 3)%nat).
  assert (Hk : l4SumOff tcp = (20 + 2 * k)%nat) by (unfold k, l4SumOff; by destruct tcp).
  rewrite (sum16_update k (slice b 20 (length b - 20)) (slice f 20 (length b - 20))).
  - unfold word at 5 6. rewrite !slice_byte_at by (unfold k; destruct tcp; lia).
    pose proof (us_l4sum tcp b Hu) as H0. fold (l4SumOff tcp) in H0. unfold word in H0, Hy.
    rewrite Hk in H0, Hy. rewrite <- !Nat.add_assoc in H0, Hy. lia.
  - rewrite !length_slice by lia. done.
  - rewrite length_slice by lia. unfold k. destruct tcp; lia.
  - intros i H1 H2. destruct (decide (i < length b - 20)%nat).
    + rewrite !slice_byte_at by done. apply Hsame; lia.
    + unfold byte_at. rewrite !nth_overflow; [done|..]; rewrite length_slice; lia.
Qed.

Lemma ipSum_range tcp b : unsummed tcp b -> 0 < ipSum b < 2 ^ 24.
Proof.
  intros Hu. pose proof (us_len tcp b Hu). assert (28 <= length b)%nat by (destruct tcp; lia).
  pose proof (sum16_range (slice b 0 20) (slice_all_bytes _ _ _ (us_bytes tcp b Hu))) as Hr.
  rewrite length_slice in Hr by lia. split; [|unfold ipSum; lia].
  unfold ipSum. pose proof (us_b0 tcp b Hu) as Hz. pose proof (us_bytes tcp b Hu) as Hb.
  destruct b as [|b0 [|b1 b]]; simpl in *; [lia..|]. unfold byte_at in Hz. simpl in Hz. subst b0.
  apply Forall_cons in Hb as [_ Hb]. apply Forall_cons in Hb as [Hb1 Hb].
  pose proof (sum16_range (take 18 b) (Forall_take _ _ _ Hb)). unfold slice. simpl. lia.
Qed.

Lemma l4Sum_range tcp b : all_bytes b -> (20 <= length b)%nat -> nz (length b) <= 65535 ->
  0 < l4Sum tcp b < 2 ^ 32 - 2 ^ 17.
Proof.
  intros Hb Hl Hm. unfold l4Sum, protocolOf.
  pose proof (word_range b 12 Hb). pose proof (word_range b 14 Hb).
  pose proof (word_range b 16 Hb). pose proof (word_range b 18 Hb).
  pose proof (sum16_range (slice b 20 (length b - 20)) (slice_all_bytes _ _ _ Hb)) as Hr.
  rewrite length_slice in Hr by lia. destruct tcp; lia.
Qed.

Lemma internetChecksum_ok l :
  all_bytes l -> nz (length l) <= 65535 -> internetChecksum l = Ok (65535 - ocn (sum16 l)).
Proof.
  intros Hl Hn. pose proof (sum16_range l Hl). unfold internetChecksum.
  rewrite onesAddBytes_sum, onesFinalize_ocn by (done || lia). by rewrite Z.add_0_l.
Qed.

(** The value [l4Checksum] gives to a sum: a zero checksum is sent as all ones. *)
Definition l4Field (s : Z) : Z := if 65535 - ocn s =? 0 then 65535 else 65535 - ocn s.

Lemma l4Checksum_ok tcp f :
  all_bytes f -> (20 <= length f)%nat -> nz (length f) <= 65535 ->
  l4Checksum f 20 (length f - 20) (protocolOf tcp) = Ok (l4Field (l4Sum tcp f)).
Proof.
  intros Hb Hl Hm. pose proof (l4Sum_range tcp f Hb Hl Hm) as Hr. unfold l4Sum in Hr.
  pose proof (word_range f 12 Hb). pose proof (word_range f 14 Hb).
  pose proof (word_range f 16 Hb). pose proof (word_range f 18 Hb).
  assert (0 <= protocolOf tcp < 256) by (by destruct tcp).
  pose proof (sum16_range (slice f 20 (length f - 20)) (slice_all_bytes _ _ _ Hb)) as Hs.
  unfold l4Checksum. rewrite !readBe16_ok by (done || lia). cbn [rbind].
  rewrite (proj2 (Nat.leb_le _ _)) by lia. cbn [guard].
  rewrite (u16_small (nz (length f - 20))) by lia.
  repeat match goal with
  | |- context [u32 ?x] =>
      lazymatch x with context [u32 _] => fail | _ => rewrite (u32_small x) by lia end
  end.
  rewrite onesAddBytes_sum by (first [by apply slice_all_bytes|lia]).
  rewrite onesFinalize_ocn by lia. cbn [rbind].
  match goal with |- context [ocn ?s] => replace s with (l4Sum tcp f) by (unfold l4Sum; lia) end.
  unfold l4Field. done.
Qed.

Lemma l4Field_range s : 0 < s -> 1 <= l4Field s <= 65535.
Proof. intros H. pose proof (ocn_range s H). unfold l4Field. destruct (Z.eqb_spec (65535 - ocn s) 0); lia. Qed.

(** Rewriting one checksum field of a sealed packet. *)
Lemma sealed_put_x tcp b f x y v :
  unsummed tcp b -> sealed tcp b f x y -> 0 <= v < 65536 -> sealed tcp b (put16 f 10 v) v y.
Proof.
  intros Hu [Hlen Hb Hsame Hx Hy] Hv. pose proof (us_len tcp b Hu).
  assert (28 <= length f)%nat by (destruct tcp; lia). split.
  - by rewrite length_put16.
  - by apply put16_all_bytes.
  - intros i H1 H2 H3 H4. rewrite put16_other by lia. by apply Hsame.
  - apply put16_word. lia.
  - rewrite <- Hy. unfold word. rewrite !put16_other by (unfold l4SumOff; destruct tcp; lia). done.
Qed.
Lemma sealed_put_y tcp b f x y v :
  unsummed tcp b -> sealed tcp b f x y -> 0 <= v < 65536 -> sealed tcp b (put16 f (l4SumOff tcp) v) x v.
Proof.
  intros Hu [Hlen Hb Hsame Hx Hy] Hv. pose proof (us_len tcp b Hu).
  assert (l4SumOff tcp + 2 <= length f)%nat by (rewrite Hlen; unfold l4SumOff; destruct tcp; lia). split.
  - by rewrite length_put16.
  - by apply put16_all_bytes.
  - intros i H1 H2 H3 H4. rewrite put16_other by lia. by apply Hsame.
  - rewrite <- Hx. unfold word. rewrite !put16_other by (unfold l4SumOff; destruct tcp; lia). done.
  - apply put16_word. lia.
Qed.

Lemma sealed_self tcp b : unsummed tcp b -> sealed tcp b b 0 0.
Proof.
  intros Hu. split; [done|apply (us_bytes tcp b Hu)|done|apply (us_ipsum tcp b Hu)|apply (us_l4sum tcp b Hu)].
Qed.

Definition inverted (c : bool) (v : Z) : Z := if c then 65535 - v else v.

Lemma corrupt16_ok f off v :
  all_bytes f -> (off + 1 < length f)%nat -> word f off = v ->
  corrupt16 f off = Ok (put16 f off (65535 - v)).
Proof.
  intros Hb Hl <-. pose proof (word_range f off Hb). unfold corrupt16.
  rewrite readBe16_ok by done. cbn [rbind]. rewrite invert16 by done. apply writeBe16_ok; [lia|done].
Qed.

Lemma sealPacket_ok tcp b h n cIp cL4 :
  unsummed tcp b -> (h + n = length b - 20)%nat ->
  exists f, sealPacket b tcp h n cIp cL4 = Ok f /\
    sealed tcp b f (inverted cIp (65535 - ocn (ipSum b))) (inverted cL4 (l4Field (l4Sum tcp b))).
Proof.
  intros Hu Hn. pose proof (us_len tcp b Hu) as Hl. pose proof (us_max tcp b Hu) as Hm.
  assert (28 <= length b)%nat by (destruct tcp; lia).
  pose proof (us_bytes tcp b Hu) as Hb. pose proof (ipSum_range tcp b Hu) as HS1.
  pose proof (l4Sum_range tcp b Hb ltac:(lia) Hm) as HS2.
  pose proof (ocn_range (ipSum b) ltac:(lia)). pose proof (l4Field_range (l4Sum tcp b) ltac:(lia)).
  unfold sealPacket. rewrite internetChecksum_ok
    by (first [by apply slice_all_bytes|rewrite length_slice; lia]).
  fold (ipSum b). cbn [rbind]. rewrite writeBe16_ok by lia. cbn [rbind].
  pose proof (sealed_put_x tcp b b 0 0 (65535 - ocn (ipSum b)) Hu (sealed_self tcp b Hu) ltac:(lia)) as Hs1.
  set (f1 := put16 b 10 _) in *. rewrite Hn, <- (se_len _ _ _ _ _ Hs1). fold (protocolOf tcp).
  pose proof (se_len _ _ _ _ _ Hs1) as Hlen1.
  rewrite l4Checksum_ok by (first [apply (se_bytes _ _ _ _ _ Hs1)|lia]). cbn [rbind].
  rewrite (sealed_l4Sum _ _ _ _ _ Hu Hs1), Z.add_0_r.
  assert (Hoff : (20 + (if tcp then 16 else 6))%nat = l4SumOff tcp) by (by destruct tcp). rewrite Hoff.
  assert (Hoffl : (l4SumOff tcp + 1 < length b)%nat) by (unfold l4SumOff; destruct tcp; lia).
  rewrite writeBe16_ok by lia. cbn [rbind].
  pose proof (sealed_put_y _ _ _ _ _ (l4Field (l4Sum tcp b)) Hu Hs1 ltac:(lia)) as Hs2.
  set (f2 := put16 f1 _ _) in *. pose proof (se_len _ _ _ _ _ Hs2) as Hlen2.
  assert (exists f3, (if cIp then corrupt16 f2 10 else Ok f2) = Ok f3 /\
    sealed tcp b f3 (inverted cIp (65535 - ocn (ipSum b))) (l4Field (l4Sum tcp b))) as (f3 & -> & Hs3).
  { destruct cIp; [|by exists f2]. eexists. split; [|apply (sealed_put_x _ _ _ _ _ _ Hu Hs2); cbn [inverted]; lia].
    apply corrupt16_ok; [apply Hs2|lia|apply Hs2]. }
  cbn [rbind]. pose proof (se_len _ _ _ _ _ Hs3) as Hlen3. destruct cL4; [|by exists f3].
  eexists. split; [|apply (sealed_put_y _ _ _ _ _ _ Hu Hs3); cbn [inverted]; lia].
  apply corrupt16_ok; [apply Hs3|lia|apply Hs3].
Qed.

Lemma checksumBad_field s : 0 < s -> checksumBad (l4Field s) = negb (ocn s =? 65535).
Proof.
  intros Hs. pose proof (ocn_range s Hs). unfold checksumBad, l4Field.
  destruct (Z.eqb_spec (65535 - ocn s) 0), (Z.eqb_spec (ocn s) 65535); lia.
Qed.

(** What the checker says of a packet with [x] and [y] in its checksum fields. *)
Lemma validate_sealed tcp b f x y :
  unsummed tcp b -> sealed tcp b f x y ->
  validateIpv4Packet f true true = Ok (
    if negb (ocn (ipSum b + x) =? 65535) then (false, "invalid IPv4 header checksum")
    else if (tcp || negb (y =? 0)) && negb (ocn (l4Sum tcp b + y) =? 65535)
    then (false, if tcp then "invalid TCP checksum" else "invalid UDP checksum")
    else (true, EmptyString)).
Proof.
  intros Hu Hs. pose proof (us_len tcp b Hu) as Hl. pose proof (us_max tcp b Hu) as Hm.
  assert (28 <= length b)%nat by (destruct tcp; lia).
  pose proof (sealed_ipSum _ _ _ _ _ Hu Hs) as H1. pose proof (sealed_l4Sum _ _ _ _ _ Hu Hs) as H2.
  pose proof Hs as [Hlen Hb Hsame Hx Hy]. pose proof (ipSum_range tcp b Hu) as HS1.
  pose proof (l4Sum_range tcp f Hb ltac:(lia) ltac:(lia)) as HS2.
  assert (Hx0 : 0 <= x) by (rewrite <- Hx; apply word_range; done).
  pose proof (ocn_range (ipSum b + x) ltac:(lia)) as Ho1.
  pose proof (sealed_word _ _ _ _ _ 2 Hs) as Hw2. rewrite (us_total tcp b Hu) in Hw2.
  assert (Hb0 : byte_at f 0 = 0x45).
  { rewrite Hsame by (unfold l4SumOff; destruct tcp; lia). apply (us_b0 tcp b Hu). }
  assert (Hb9 : byte_at f 9 = protocolOf tcp).
  { rewrite Hsame by (unfold l4SumOff; destruct tcp; lia). apply (us_proto tcp b Hu). }
  unfold validateIpv4Packet. rewrite (proj2 (Nat.ltb_ge _ _)) by lia.
  rewrite idx_get_ok, Hb0 by lia. cbn [rbind]. change (Z.shiftr 69 4) with 4. change (Z.land 69 15) with 5.
  cbn [Z.eqb Pos.eqb negb orb Z.ltb Z.compare Pos.compare Pos.compare_cont]. change (zn (5 * 4)) with 20%nat.
  rewrite (proj2 (Nat.ltb_ge _ _)) by lia. rewrite readBe16_ok by (done || lia). cbn [rbind].
  rewrite Hw2, Hlen, Z.eqb_refl by (unfold l4SumOff; destruct tcp; lia). cbn [negb].
  rewrite internetChecksum_ok by (first [by apply slice_all_bytes|rewrite length_slice; lia]).
  fold (ipSum f). cbn [rbind andb]. rewrite H1.
  replace (65535 - ocn (ipSum b + x) =? 0) with (ocn (ipSum b + x) =? 65535)
    by (destruct (Z.eqb_spec (ocn (ipSum b + x)) 65535), (Z.eqb_spec (65535 - ocn (ipSum b + x)) 0); done || lia).
  destruct (ocn (ipSum b + x) =? 65535); cbn [negb]; [|done].
  rewrite idx_get_ok, Hb9 by lia. cbn [rbind].
  pose proof (l4Checksum_ok tcp f Hb ltac:(lia) ltac:(lia)) as Hck. rewrite Hlen, H2 in Hck.
  pose proof (checksumBad_field (l4Sum tcp b + y) ltac:(lia)) as Hbad.
  destruct tcp; simpl in Hck, Hl |- *.
  - unfold validateTcp. rewrite (proj2 (Nat.ltb_ge _ _)) by lia. rewrite idx_get_ok by lia. cbn [rbind].
    rewrite Hsame by (unfold l4SumOff; lia). cbn [Nat.add]. rewrite (us_l4 true b Hu). change (Z.shiftr 80 4) with 5.
    cbn [Z.ltb Z.compare Pos.compare Pos.compare_cont orb]. rewrite (proj2 (Z.ltb_ge _ _)) by lia.
    rewrite Hck. cbn [rbind andb]. rewrite Hbad. by destruct (ocn _ =? 65535).
  - unfold validateUdp. rewrite (proj2 (Nat.ltb_ge _ _)) by lia. rewrite readBe16_ok by (done || lia).
    cbn [rbind]. rewrite (sealed_word _ _ _ _ _ (20 + 4) Hs) by (unfold l4SumOff; lia).
    pose proof (us_l4 false b Hu) as Hl4. cbn [Nat.add]. rewrite Hl4.
    rewrite (proj2 (Z.eqb_eq (nz (length b) - 20) _)) by lia. cbn [negb]. rewrite Hck. cbn [rbind].
    rewrite readBe16_ok by (done || lia). cbn [rbind andb].
    change (word f 26) with (word f (l4SumOff false)). rewrite Hy, Hbad.
    by destruct (y =? 0), (ocn _ =? 65535).
Qed.

(** The L4 field completes the sum; inverted, it does so only if it was all ones. *)
Lemma l4_valid_iff s :
  0 < s -> ocn (s + l4Field s) = 65535 /\
  forall (tcp c : bool), (tcp || negb (inverted c (l4Field s) =? 0)) &&
    negb (ocn (s + inverted c (l4Field s)) =? 65535) = c && negb (l4Field s =? 65535).
Proof.
  intros Hs. pose proof (ocn_range s Hs) as Hr. pose proof (ocn_inverted s Hs) as Hi.
  pose proof (ocn_complete s Hs) as Hc. unfold l4Field in *.
  assert (Hfull : ocn s = 65535 -> ocn (s + 65535) = 65535).
  { intros Hf. rewrite Hf in Hi. by apply Hi. }
  destruct (Z.eqb_spec (65535 - ocn s) 0) as [E|E].
  - split; [apply Hfull; lia|]. intros tcp [|]; cbn [inverted].
    + change (65535 - 65535) with 0. rewrite Z.add_0_r. by rewrite andb_comm, (proj2 (Z.eqb_eq (ocn s) 65535)) by lia.
    + rewrite Hfull by lia. by rewrite andb_false_r.
  - split; [done|]. intros tcp [|]; cbn [inverted].
    + replace (65535 - (65535 - ocn s)) with (ocn s) by lia.
      rewrite (proj2 (Z.eqb_neq (ocn s) 0)), (proj2 (Z.eqb_neq (65535 - ocn s) 65535)) by lia.
      rewrite (proj2 (Z.eqb_neq (ocn (s + ocn s)) 65535)); [by destruct tcp|]. intros H. apply Hi in H. lia.
    + rewrite Hc. by rewrite andb_false_r.
Qed.

Lemma built_packet_spec profile i fc n srcIp dstIp srcPort dstPort cIp cL4 :
  let tcp := isTcp profile i in
  nz (20 + (if tcp then 20 else 8) + n) <= 65535 ->
  exists clean p,
    buildIpv4Packet profile i fc n srcIp dstIp srcPort dstPort false false = Ok clean /\
    validateIpv4Packet clean true true = Ok (true, EmptyString) /\
    buildIpv4Packet profile i fc n srcIp dstIp srcPort dstPort cIp cL4 = Ok p /\
    validateIpv4Packet p true true = Ok (
      if cIp && negb (word clean 10 =? 0) then (false, "invalid IPv4 header checksum")
      else if cL4 && negb (word clean (l4SumOff tcp) =? 65535)
      then (false, if tcp then "invalid TCP checksum" else "invalid UDP checksum")
      else (true, EmptyString)).
Proof.
  intros tcp Hmax.
  destruct (buildUnsummed_ok tcp i fc n srcIp dstIp srcPort dstPort Hmax) as (b & Hbu & Hu & Hlen).
  assert (Hn : ((if tcp then 20 else 8) + n = length b - 20)%nat) by lia.
  destruct (sealPacket_ok tcp b _ n false false Hu Hn) as (clean & Hc & Hsc).
  destruct (sealPacket_ok tcp b _ n cIp cL4 Hu Hn) as (p & Hp & Hsp).
  unfold buildIpv4Packet. fold tcp. rewrite (proj2 (Z.leb_le _ _)) by lia. cbn [guard].
  rewrite Hbu. cbn [rbind]. rewrite Hc, Hp. exists clean, p.
  rewrite (validate_sealed _ _ _ _ _ Hu Hsc), (validate_sealed _ _ _ _ _ Hu Hsp).
  rewrite (se_x _ _ _ _ _ Hsc), (se_y _ _ _ _ _ Hsc). cbn [inverted].
  pose proof (us_len tcp b Hu). pose proof (ipSum_range tcp b Hu) as HS1.
  pose proof (l4Sum_range tcp b (us_bytes tcp b Hu) ltac:(destruct tcp; lia) (us_max tcp b Hu)) as HS2.
  set (s1 := ipSum b) in *. set (s2 := l4Sum tcp b) in *.
  split_and!; try done.
  - f_equal. rewrite ocn_complete by lia. cbn [Z.eqb Pos.eqb negb].
    rewrite (proj1 (l4_valid_iff s2 ltac:(lia))). cbn [Z.eqb Pos.eqb negb]. by rewrite andb_false_r.
  - f_equal. assert (Hx : negb (ocn (s1 + inverted cIp (65535 - ocn s1)) =? 65535) =
      cIp && negb (65535 - ocn s1 =? 0)).
    { pose proof (ocn_inverted s1 ltac:(lia)). destruct cIp; cbn [inverted andb].
      - replace (65535 - (65535 - ocn s1)) with (ocn s1) by lia.
        destruct (Z.eqb_spec (ocn (s1 + ocn s1)) 65535), (Z.eqb_spec (65535 - ocn s1) 0); lia || done.
      - by rewrite ocn_complete by lia. }
    rewrite Hx. destruct (cIp && _); [done|]. cbn [negb].
    by rewrite (proj2 (l4_valid_iff s2 ltac:(lia)) tcp cL4).
Qed.

(** C30: the checker accepts every packet the generator builds, and a requested
    corruption is caught exactly when it changes the one's-complement value: an
    inverted IPv4 checksum unless it was zero, an inverted UDP or TCP checksum
    unless it was all ones. *)
Theorem built_packet_validates profile i fc n srcIp dstIp srcPort dstPort cIp cL4 :
  let tcp := isTcp profile i in
  nz (20 + (if tcp then 20 else 8) + n) <= 65535 ->
  exists clean p,
    buildIpv4Packet profile i fc n srcIp dstIp srcPort dstPort false false = Ok clean /\
    validateIpv4Packet clean true true = Ok (true, EmptyString) /\
    buildIpv4Packet profile i fc n srcIp dstIp srcPort dstPort cIp cL4 = Ok p /\
    validateIpv4Packet p true true = Ok (
      if cIp && negb (word clean 10 =? 0) then (false, "invalid IPv4 header checksum")
      else if cL4 && negb (word clean (l4SumOff tcp) =? 65535)
      then (false, if tcp then "invalid TCP checksum" else "invalid UDP checksum")
      else (true, EmptyString)).
Proof. apply built_packet_spec. Qed.

(** ** Beats carry the packet *)

Lemma prefixKeep_valid n : prefixKeep n = tkeepForValidBytes (nz n).
Proof.
  unfold prefixKeep, tkeepForValidBytes.
  destruct (Nat.leb_spec 64 n), (Z.leb_spec 64 (nz n)); try lia.
  destruct (Nat.eqb_spec n 0), (Z.leb_spec (nz n) 0); try lia; done.
Qed.

Section Beats.
Context (packet : list Z) (dw idw dstw i d u : Z).
Hypothesis Hdw : 0 < dw <= 512.
Hypothesis Hmod : dw mod 8 = 0.
Let w := zn (dw / 8).
Let mk := packetBeat packet dw idw dstw i d u.

Lemma beat_width : (1 <= w <= 64)%nat.
Proof. unfold w. mlia. Qed.

Lemma packetBeat_kept off :
  kept_bytes (mk off) = slice packet off (Nat.min w (length packet - off)).
Proof.
  pose proof beat_width as Hw. unfold kept_bytes, mk, packetBeat. cbn [tkeep tdata DATA_WIDTH axisData_of_width].
  fold w. set (n := Nat.min w (length packet - off)).
  fold (tkeep_idx (prefixKeep n) w). rewrite prefixKeep_valid, tkeep_idx_prefix, Nat.min_l by lia.
  assert (Hn : length (slice packet off n) = n).
  { destruct (decide (off <= length packet)%nat).
    - apply length_slice. lia.
    - unfold slice. rewrite length_take, length_drop. lia. }
  unfold vresize. rewrite length_resize.
  assert (Hz : length (zeros w) = w) by apply length_replicate.
  rewrite fmap_byte_at_seq by (rewrite length_copy_into, Hz; lia).
  rewrite <- Hn at 1. apply take_copy_into. rewrite Hn, Hz. lia.
Qed.

Lemma packetBeat_wf off : axis_wf (mk off).
Proof.
  unfold axis_wf, mk, packetBeat. cbn [tkeep tdata DATA_WIDTH axisData_of_width]. split; [lia|]. split.
  - unfold vresize. rewrite length_copy_into, length_resize. apply length_replicate.
  - unfold prefixKeep. destruct (Nat.leb_spec 64 (Nat.min (zn (dw / 8)) (length packet - off))); [done|].
    destruct (Nat.eqb_spec (Nat.min (zn (dw / 8)) (length packet - off)) 0); [done|].
    set (m := Nat.min (zn (dw / 8)) (length packet - off)) in *.
    assert (0 < 2 ^ nz m < 2 ^ 64).
    { split; [lia|]. apply (Z.pow_lt_mono_r 2 _ 64); lia. }
    rewrite Z.shiftl_1_l. unfold is_u64. rewrite u64_small; lia.
Qed.

Lemma beatsFrom_ok fuel off :
  (length packet <= off + fuel)%nat ->
  exists beats, beatsFrom fuel packet dw idw dstw i d u off = Ok beats /\
    concat (kept_bytes <$> beats) = drop off packet /\
    Forall (fun b => axis_wf b /\ DATA_WIDTH b = dw /\ tid b = i /\ tdest b = d /\ tuser b = u) beats /\
    ((off < length packet)%nat -> tlast <$> beats = flags_end (length beats) true) /\
    ((length packet <= off)%nat -> beats = []).
Proof.
  pose proof beat_width as Hw. revert off. induction fuel as [|fuel IH]; intros off Hf; cbn [beatsFrom].
  all: destruct (Nat.leb_spec (length packet) off) as [Hge|Hlt]; [|try lia].
  1,2: exists []; split_and!; [done|by rewrite drop_ge|constructor|lia|done].
  fold w. destruct (IH (off + w)%nat) as (beats & -> & Hb & Hall & Hfl & Hnil); [lia|].
  cbn [rbind]. fold mk. exists (mk off :: beats). split; [done|].
  rewrite fmap_cons, concat_cons, Hb, packetBeat_kept. split_and!; [| | |lia].
  - destruct (decide (off + w <= length packet)%nat).
    + rewrite Nat.min_l by lia. unfold slice. rewrite <- drop_drop. apply take_drop.
    + rewrite Nat.min_r, (drop_ge packet), app_nil_r by lia. unfold slice. apply take_ge. by rewrite length_drop.
  - constructor; [|done]. split; [apply packetBeat_wf|done].
  - intros _. rewrite fmap_cons. unfold mk at 1, packetBeat. cbn [tlast]. fold w.
    destruct (decide (off + w < length packet)%nat) as [Hm|Hm].
    + rewrite (proj2 (Nat.leb_gt _ _)), Hfl by lia. destruct beats as [|b bs].
      * exfalso. simpl in Hb. symmetry in Hb. apply (f_equal length) in Hb.
        rewrite length_drop in Hb. simpl in Hb. lia.
      * unfold flags_end. simpl. by rewrite Nat.sub_0_r.
    + rewrite (Hnil ltac:(lia)). by rewrite (proj2 (Nat.leb_le _ _)) by lia.
Qed.
End Beats.

(** Splitting a packet into beats of any byte width up to 512 bits loses
    nothing: the kept bytes are the packet, every beat has the requested width and
    sideband, and TLAST is set on the last beat only. *)
Theorem packetToAxisBeats_roundtrip packet dw idw dstw i d u :
  0 < dw <= 512 -> dw mod 8 = 0 -> packet <> [] ->
  exists beats, packetToAxisBeats packet dw idw dstw i d u = Ok beats /\
    concat (kept_bytes <$> beats) = packet /\
    Forall (fun b => axis_wf b /\ DATA_WIDTH b = dw /\ tid b = i /\ tdest b = d /\ tuser b = u) beats /\
    tlast <$> beats = flags_end (length beats) true.
Proof.
  intros Hdw Hmod Hne. unfold packetToAxisBeats.
  rewrite (proj2 (Z.eqb_neq dw 0)), Hmod, (proj2 (Z.leb_le dw 512)) by lia. cbn [guard Z.eqb negb orb].
  destruct (beatsFrom_ok packet dw idw dstw i d u Hdw Hmod (length packet) 0)
    as (beats & -> & Hb & Hall & Hfl & _); [lia|].
  exists beats. rewrite drop_0 in Hb. split_and!; try done. apply Hfl. destruct packet; [done|simpl; lia].
Qed.

(** *** Witnesses *)

Lemma built_packet_validates_witness :
  exists clean p,
    buildIpv4Packet Ipv4Udp 3 2 5 167772161 167772162 1000 2000 false false = Ok clean /\
    validateIpv4Packet clean true true = Ok (true, EmptyString) /\
    buildIpv4Packet Ipv4Udp 3 2 5 167772161 167772162 1000 2000 true false = Ok p /\
    validateIpv4Packet p true true = Ok (
      if true && negb (word clean 10 =? 0) then (false, "invalid IPv4 header checksum")
      else if false && negb (word clean (l4SumOff false) =? 65535)
      then (false, "invalid UDP checksum") else (true, EmptyString)).
Proof. apply (built_packet_validates Ipv4Udp 3 2 5 167772161 167772162 1000 2000 true false). simpl. lia. Defined.

Lemma packetToAxisBeats_roundtrip_witness :
  exists beats, packetToAxisBeats (seqZ 1 20) 64 6 4 1 2 3 = Ok beats /\
    concat (kept_bytes <$> beats) = seqZ 1 20 /\
    Forall (fun b => axis_wf b /\ DATA_WIDTH b = 64 /\ tid b = 1 /\ tdest b = 2 /\ tuser b = 3) beats /\
    tlast <$> beats = flags_end (length beats) true.
Proof. apply (packetToAxisBeats_roundtrip (seqZ 1 20) 64 6 4 1 2 3); done || lia. Defined.
