(* ===== verification/Checkpoint.v ===== *)
(** * Checkpoints

    The text checkpoints of [src/src/sim/serialize.{hh,cc}] and the [IniFile] they
    are read back through ([src/src/base/inifile.cc]).

    A checkpoint is written as a sequence of lines: a [[section]] header for each
    [ScopedCheckpointSection] that is opened, a [name=value] line for each
    [paramOut].  Closing a section only pops the path: no header is written, so a
    [paramOut] that follows a closed subsection belongs, for the reader, to that
    subsection.  The model keeps this: serializing gives the list of lines, and
    the reader assigns each value line to the last header above it.

    A section name is the list of its components, innermost first; the file joins
    them with dots, which no component written by the code modelled here contains
    apart from the common prefix.  A value is kept as what is printed (a number, a
    boolean, a word, a list of numbers); reading checks the range of the type it is
    read at, as [to_number] does. *)

From S2P Require Import Prelude.

Abbreviation section := (list string).

Inductive pval :=
  | VNum (z : Z)
  | VBool (b : bool)
  | VStr (s : string)
  | VList (l : list Z).

(** A line of the file. *)
Inductive line :=
  | LSection (s : section)
  | LEntry (name : string) (v : pval).

(** ** Reading: [IniFile] *)

Abbreviation checkpoint := (gmap (section * string) pval).

(** One line of [IniFile::load]: a header selects the section, a value line sets
    an entry of it (a later line overrides an earlier one), and a value line
    before any header is skipped. *)
Definition iniLine (s : option section * checkpoint) (l : line) : option section * checkpoint :=
  match l with
  | LSection p => (Some p, s.2)
  | LEntry n v =>
      match s.1 with
      | Some p => (Some p, <[(p, n) := v]> s.2)
      | None => s
      end
  end.

Definition iniLoad (lines : list line) : checkpoint :=
  (foldl iniLine (None, ∅) lines).2.

(** [IniFile::find], through [CheckpointIn::find]. *)
Definition iniFind (cp : checkpoint) (sec : section) (entry : string) : option pval :=
  cp !! (sec, entry).

(** ** Typed values: [ShowParam] and [ParseParam] *)

Record param (T : Type) := mk_param {
  showParam : T -> pval;
  parseParam : pval -> option T
}.
Arguments mk_param {T} _ _.
Arguments showParam {T} _ _.
Arguments parseParam {T} _ _.

Definition in_range (lo hi z : Z) : bool := (lo <=? z) && (z <=? hi).

Definition p_num (lo hi : Z) : param Z :=
  {| showParam := VNum;
     parseParam v := match v with
                     | VNum z => if in_range lo hi z then Some z else None
                     | _ => None
                     end |}.
Definition p_u8 : param Z := p_num 0 (2^8 - 1).
Definition p_u16 : param Z := p_num 0 (2^16 - 1).
Definition p_u32 : param Z := p_num 0 (2^32 - 1).
Definition p_u64 : param Z := p_num 0 (2^64 - 1).
Definition p_int : param Z := p_num (- 2^31) (2^31 - 1).
Definition p_i64 : param Z := p_num (- 2^63) (2^63 - 1).

Definition p_bool : param bool :=
  {| showParam := VBool;
     parseParam v := match v with VBool b => Some b | _ => None end |}.
Definition p_string : param string :=
  {| showParam := VStr;
     parseParam v := match v with VStr s => Some s | _ => None end |}.

(** [arrayParamOut] and [arrayParamIn] of numbers; every token is parsed. *)
Definition p_array (lo hi : Z) : param (list Z) :=
  {| showParam := VList;
     parseParam v := match v with
                     | VList l => if forallb (in_range lo hi) l then Some l else None
                     | _ => None
                     end |}.
Definition p_bytes : param (list Z) := p_array 0 (2^8 - 1).

(** ** [paramOut], [paramIn], [ScopedCheckpointSection] *)

Definition paramOut {T} (P : param T) (name : string) (v : T) : list line :=
  [LEntry name (showParam P v)].

Definition paramInImpl {T} (P : param T) (cp : checkpoint) (sec : section) (name : string)
    : option T :=
  iniFind cp sec name ≫= parseParam P.

Definition paramIn {T} (P : param T) (cp : checkpoint) (sec : section) (name : string) : res T :=
  of_opt (FFatal "Can't unserialize") (paramInImpl P cp sec name).

(** [optParamIn] into a variable that holds [x]. *)
Definition optParamIn {T} (P : param T) (cp : checkpoint) (sec : section) (name : string) (x : T)
    : T :=
  default x (paramInImpl P cp sec name).

(** The array form with a fixed number of elements. *)
Definition arrayParamInN (P : param (list Z)) (cp : checkpoint) (sec : section) (name : string)
    (size : nat) : res (list Z) :=
  let* l := paramIn P cp sec name in
  guard (length l =? size)%nat (FFatal "Array size mismatch") (Ok l).

(** A [ScopedCheckpointSection] alive during [body]. *)
Definition scoped (sec : section) (name : string) (body : section -> list line) : list line :=
  LSection (name :: sec) :: body (name :: sec).

(** ** Reasoning about what a reader finds *)

Definition under (sec : section) (l : line) : Prop :=
  match l with LSection p => sec `suffix_of` p | LEntry _ _ => True end.
Definition outside (sec : section) (l : line) : Prop :=
  match l with LSection p => ~ sec `suffix_of` p | LEntry _ _ => True end.

(** A run of lines that does not add to a section opened before it. *)
Definition headed (ls : list line) : Prop :=
  match ls with LEntry _ _ :: _ => False | _ => True end.

(** [cp] holds, in [sec] and below, what the lines [ls] write. *)
Definition agrees (cp : checkpoint) (sec : section) (ls : list line) : Prop :=
  forall p n, sec `suffix_of` p -> cp !! (p, n) = iniLoad ls !! (p, n).

Definition in_section (sec : section) (c : option section) : Prop :=
  match c with Some p => sec `suffix_of` p | None => False end.

(** Lines outside [sec] leave its entries alone. *)
Lemma ini_outside sec ls c m p n :
  Forall (outside sec) ls -> headed ls \/ ~ in_section sec c -> sec `suffix_of` p ->
  (foldl iniLine (c, m) ls).2 !! (p, n) = m !! (p, n).
Proof.
  revert c m; induction ls as [|[q|x v] ls IH]; intros c m Ho Hc Hp; [done|..];
    apply Forall_cons in Ho as [Hx Ho]; simpl.
  - apply IH; [done|by right|done].
  - destruct Hc as [[]|Hc]. destruct c as [q|]; simpl.
    + rewrite IH by (done || by right). apply lookup_insert_ne. simpl in Hc. congruence.
    + by apply IH; [|right|].
Qed.

(** From a header on, what is written depends on the lines alone. *)
Lemma ini_from_header sec ls c c' m m' p n :
  m !! (p, n) = m' !! (p, n) ->
  (foldl iniLine (c, m) (LSection sec :: ls)).2 !! (p, n)
  = (foldl iniLine (c', m') (LSection sec :: ls)).2 !! (p, n).
Proof.
  simpl. generalize (Some sec) as k. revert m m'.
  induction ls as [|[q|x v] ls IH]; intros m m' k H; [done|by apply IH|].
  destruct k as [k|]; simpl; [|by apply IH].
  apply IH. destruct (decide ((k, x) = (p, n))) as [[= -> ->]|].
  - by rewrite !lookup_insert_eq.
  - by rewrite !lookup_insert_ne.
Qed.

Lemma iniLoad_block sec pre body post p n :
  Forall (outside sec) pre -> Forall (outside sec) post -> headed post ->
  sec `suffix_of` p ->
  iniLoad (pre ++ (LSection sec :: body) ++ post) !! (p, n)
  = iniLoad (LSection sec :: body) !! (p, n).
Proof.
  intros Hpre Hpost Hh Hp. unfold iniLoad. rewrite !foldl_app.
  destruct (foldl iniLine (None, ∅) pre) as [c m] eqn:E.
  destruct (foldl iniLine (c, m) (LSection sec :: body)) as [c1 m1] eqn:E1.
  rewrite (ini_outside sec) by (done || by left).
  change m1 with ((c1, m1).2). rewrite <- E1.
  apply ini_from_header. change m with ((c, m).2). rewrite <- E.
  apply (ini_outside sec); [done|right; simpl; tauto|done].
Qed.

Lemma agrees_block cp sec pre body post :
  cp = iniLoad (pre ++ (LSection sec :: body) ++ post) ->
  Forall (outside sec) pre -> Forall (outside sec) post -> headed post ->
  agrees cp sec (LSection sec :: body).
Proof. intros -> ??? p n Hp. by apply iniLoad_block. Qed.

(** [cp] was read from a file in which section [sec] was opened and the lines [ls]
    written, with anything before and after that concerns other sections. *)
Definition written (cp : checkpoint) (sec : section) (ls : list line) : Prop :=
  exists pre post,
    cp = iniLoad (pre ++ (LSection sec :: ls) ++ post)
    /\ Forall (outside sec) pre /\ Forall (outside sec) post /\ headed post.

Lemma written_agrees cp sec ls : written cp sec ls -> agrees cp sec (LSection sec :: ls).
Proof. intros (pre & post & ? & ? & ? & ?). by eapply agrees_block. Qed.

(** A subsection that is written in one piece. *)
Lemma agrees_sub cp sec a pre body post :
  agrees cp sec (pre ++ (LSection (a :: sec) :: body) ++ post) ->
  Forall (outside (a :: sec)) pre -> Forall (outside (a :: sec)) post -> headed post ->
  agrees cp (a :: sec) (LSection (a :: sec) :: body).
Proof.
  intros H ??? p n Hp. rewrite H; [by apply iniLoad_block|].
  etrans; [|exact Hp]. by apply suffix_cons_r.
Qed.

Lemma agrees_last cp sec a pre body :
  agrees cp sec (pre ++ scoped sec a body) -> Forall (outside (a :: sec)) pre ->
  agrees cp (a :: sec) (LSection (a :: sec) :: body (a :: sec)).
Proof. intros H Hp. apply (agrees_sub cp sec a pre _ []); [by rewrite app_nil_r|done..]. Qed.

(** The value lines at the start of a section, up to its first subsection. *)
Fixpoint findEntry (n : string) (ls : list line) (acc : option pval) : option pval :=
  match ls with
  | LEntry x v :: ls => findEntry n ls (if String.eqb x n then Some v else acc)
  | _ => acc
  end.

Fixpoint after_entries (ls : list line) : list line :=
  match ls with
  | LEntry _ _ :: ls => after_entries ls
  | _ => ls
  end.

Definition not_header (sec : section) (l : line) : Prop :=
  match l with LSection p => p <> sec | LEntry _ _ => True end.

Lemma ini_not_header sec ls c m n :
  Forall (not_header sec) ls -> headed ls \/ c <> Some sec ->
  (foldl iniLine (c, m) ls).2 !! (sec, n) = m !! (sec, n).
Proof.
  revert c m; induction ls as [|[q|x v] ls IH]; intros c m Ho Hc; [done|..];
    apply Forall_cons in Ho as [Hx Ho]; simpl.
  - apply IH; [done|right; simpl in Hx; congruence].
  - destruct Hc as [[]|Hc]. destruct c as [q|]; simpl.
    + rewrite IH by (done || by right). apply lookup_insert_ne. congruence.
    + by apply IH; [|right].
Qed.

Lemma ini_entries sec ls m n :
  Forall (not_header sec) (after_entries ls) ->
  (foldl iniLine (Some sec, m) ls).2 !! (sec, n) = findEntry n ls (m !! (sec, n)).
Proof.
  revert m; induction ls as [|[q|x v] ls IH]; intros m H; [done|..].
  - apply (ini_not_header sec (LSection q :: ls)); [exact H|by left].
  - cbn [foldl iniLine fst snd findEntry]. rewrite IH by exact H.
    destruct (String.eqb_spec x n) as [->|Hne].
    + by rewrite lookup_insert_eq.
    + rewrite lookup_insert_ne by congruence. done.
Qed.

Lemma agrees_entry cp sec ls n :
  agrees cp sec (LSection sec :: ls) -> Forall (not_header sec) (after_entries ls) ->
  cp !! (sec, n) = findEntry n ls None.
Proof.
  intros H Hs. rewrite H by done. unfold iniLoad. cbn [foldl iniLine snd].
  rewrite ini_entries by done. by rewrite lookup_empty.
Qed.

(** Reading back a value that is printed in range. *)
Lemma parse_num lo hi z : lo <= z <= hi -> parseParam (p_num lo hi) (VNum z) = Some z.
Proof.
  intros [H1 H2]. unfold p_num, in_range; simpl.
  by rewrite (proj2 (Z.leb_le _ _) H1), (proj2 (Z.leb_le _ _) H2).
Qed.

Lemma parse_array lo hi l :
  Forall (fun z => lo <= z <= hi) l -> parseParam (p_array lo hi) (VList l) = Some l.
Proof.
  intros H. simpl. assert (forallb (in_range lo hi) l = true) as ->; [|done].
  apply forallb_forall. intros x Hx. rewrite Forall_forall in H.
  specialize (H x (proj2 (list_elem_of_In _ _) Hx)). unfold in_range.
  apply andb_true_iff. split; apply Z.leb_le; tauto.
Qed.

Lemma paramIn_some {T} (P : param T) cp sec n v x :
  cp !! (sec, n) = Some v -> parseParam P v = Some x -> paramIn P cp sec n = Ok x.
Proof. intros H1 H2. unfold paramIn, paramInImpl, iniFind. rewrite H1; simpl; by rewrite H2. Qed.

Lemma optParamIn_some {T} (P : param T) cp sec n v x d :
  cp !! (sec, n) = Some v -> parseParam P v = Some x -> optParamIn P cp sec n d = x.
Proof. intros H1 H2. unfold optParamIn, paramInImpl, iniFind. rewrite H1; simpl; by rewrite H2. Qed.

Lemma paramIn_none {T} (P : param T) cp sec n :
  cp !! (sec, n) = None -> paramIn P cp sec n = Err (FFatal "Can't unserialize").
Proof. intros H. unfold paramIn, paramInImpl, iniFind. by rewrite H. Qed.

Lemma sub_not_suffix (sec : section) a : ~ (a :: sec) `suffix_of` sec.
Proof. intros [l E]. apply (f_equal length) in E. rewrite length_app in E. simpl in E. lia. Qed.

Lemma sub_ne (sec : section) a : a :: sec <> sec.
Proof. intros E. apply (f_equal length) in E. simpl in E. lia. Qed.

Lemma scoped_under sec a body :
  Forall (under (a :: sec)) (body (a :: sec)) -> Forall (under (a :: sec)) (scoped sec a body).
Proof. intros H. unfold scoped. constructor; [by simpl|done]. Qed.

Lemma under_weaken sec a ls : Forall (under (a :: sec)) ls -> Forall (under sec) ls.
Proof.
  intros HF. apply (Forall_impl _ _ _ HF). intros [p|]; [|done]. simpl. intros H.
  etrans; [|exact H]. by apply suffix_cons_r.
Qed.

Lemma under_outside sec a b ls :
  a <> b -> Forall (under (a :: sec)) ls -> Forall (outside (b :: sec)) ls.
Proof.
  intros Hab HF. apply (Forall_impl _ _ _ HF). intros [p|]; [|done]. simpl.
  intros [k1 H1] [k2 H2]. rewrite H1 in H2. apply Hab.
  change (a :: sec) with ([a] ++ sec) in H2. change (b :: sec) with ([b] ++ sec) in H2.
  rewrite !app_assoc in H2. apply app_inv_tail in H2.
  apply app_inj_tail in H2 as [_ H2]. done.
Qed.

Lemma under_not_header sec a ls : Forall (under (a :: sec)) ls -> Forall (not_header sec) ls.
Proof.
  intros HF. apply (Forall_impl _ _ _ HF). intros [p|]; [|done]. simpl. intros [k ->] E.
  apply (f_equal length) in E. rewrite length_app in E. simpl in E. lia.
Qed.

Lemma paramOut_under {T} (P : param T) sec n v : Forall (under sec) (paramOut P n v).
Proof. by repeat constructor. Qed.
Lemma paramOut_outside {T} (P : param T) sec n v : Forall (outside sec) (paramOut P n v).
Proof. by repeat constructor. Qed.

Create HintDb ckpt discriminated.
#[export] Hint Resolve sub_not_suffix sub_ne : ckpt.
#[export] Hint Resolve scoped_under paramOut_under paramOut_outside : ckpt.
#[export] Hint Resolve Forall_nil_2 Forall_app_2 : ckpt.

(** [sec] of [cp] holds the values of the lines [ls]. *)
Definition holds (cp : checkpoint) (sec : section) (ls : list line) : Prop :=
  forall n v, findEntry n ls None = Some v -> cp !! (sec, n) = Some v.

Lemma agrees_holds cp sec ls :
  agrees cp sec (LSection sec :: ls) -> Forall (not_header sec) (after_entries ls) ->
  holds cp sec ls.
Proof. intros H Hs n v Hv. by rewrite (agrees_entry _ _ _ _ H Hs). Qed.

(** The names of the value lines at the start of a section. *)
Fixpoint entry_names (ls : list line) : list string :=
  match ls with
  | LEntry x _ :: ls => x :: entry_names ls
  | _ => []
  end.

Lemma findEntry_absent n ls acc : n ∉ entry_names ls -> findEntry n ls acc = acc.
Proof.
  revert acc; induction ls as [|[|x v] ls IH]; intros acc H; [done..|].
  simpl in H |- *. apply not_elem_of_cons in H as [H1 H2]. rewrite IH by done.
  destruct (String.eqb_spec x n); congruence.
Qed.

Lemma findEntry_names n ls v : findEntry n ls None = Some v -> n ∈ entry_names ls.
Proof.
  intros H. destruct (decide (n ∈ entry_names ls)); [done|].
  by rewrite findEntry_absent in H.
Qed.

Lemma findEntry_app n ls1 ls2 acc :
  after_entries ls1 = [] -> findEntry n (ls1 ++ ls2) acc = findEntry n ls2 (findEntry n ls1 acc).
Proof. revert acc; induction ls1 as [|[|x v] ls1 IH]; intros acc H; [done..|]. apply (IH _ H). Qed.

Lemma findEntry_some n ls acc v : findEntry n ls None = Some v -> findEntry n ls acc = Some v.
Proof.
  enough (forall a b, findEntry n ls a = findEntry n ls b \/ (findEntry n ls a = a /\ findEntry n ls b = b)) as H.
  { intros E. destruct (H acc None) as [->|[_ E']]; [done|]. congruence. }
  induction ls as [|[|x w] ls IH]; intros a b; [by right..|]. cbn. destruct (String.eqb x n); [by left|apply IH].
Qed.

Definition disjoint_names (ls1 ls2 : list line) : bool :=
  forallb (fun n => negb (existsb (String.eqb n) (entry_names ls2))) (entry_names ls1).

(** Value lines that follow under other names do not disturb those read. *)
Lemma holds_app cp sec ls1 ls2 :
  after_entries ls1 = [] -> disjoint_names ls1 ls2 = true ->
  holds cp sec (ls1 ++ ls2) -> holds cp sec ls1.
Proof.
  intros H1 H2 H n v Hv. apply H. rewrite findEntry_app by done.
  rewrite findEntry_absent; [done|]. apply findEntry_names in Hv.
  intros Hn. apply list_elem_of_In in Hv. apply list_elem_of_In in Hn.
  unfold disjoint_names in H2. rewrite forallb_forall in H2.
  specialize (H2 n Hv). apply negb_true_iff in H2.
  assert (existsb (String.eqb n) (entry_names ls2) = true) by
    (apply existsb_exists; exists n; split; [done|apply String.eqb_refl]). congruence.
Qed.

(** ** Numbered subsections

    Containers are written as one subsection per element, named by a counter. *)
Fixpoint indexed (sec : section) (nm : nat -> string) (i : nat) (bodies : list (list line))
    : list line :=
  match bodies with
  | [] => []
  | b :: bs => scoped sec (nm i) (fun _ => b) ++ indexed sec nm (S i) bs
  end.

(** Each body only opens subsections of its own. *)
Definition indexed_ok (sec : section) (nm : nat -> string) (i : nat) (bodies : list (list line))
    : Prop :=
  forall k b, bodies !! k = Some b -> Forall (under (nm (i + k)%nat :: sec)) b.

Lemma indexed_ok_tail sec nm i b bs :
  indexed_ok sec nm i (b :: bs) ->
  Forall (under (nm i :: sec)) b /\ indexed_ok sec nm (S i) bs.
Proof.
  intros H. split.
  - specialize (H 0%nat b eq_refl). by rewrite Nat.add_0_r in H.
  - intros k c Hk. specialize (H (S k) c Hk). by rewrite Nat.add_succ_comm.
Qed.

Lemma indexed_headed sec nm i bodies : headed (indexed sec nm i bodies).
Proof. by destruct bodies. Qed.

Lemma indexed_outside sec nm i bodies a :
  indexed_ok sec nm i bodies -> (forall k, (i <= k)%nat -> nm k <> a) ->
  Forall (outside (a :: sec)) (indexed sec nm i bodies).
Proof.
  revert i; induction bodies as [|b bs IH]; intros i Hok Hne; [done|].
  apply indexed_ok_tail in Hok as [Hb Hok]. cbn [indexed]. apply Forall_app. split.
  - eapply (under_outside sec (nm i)); [by apply Hne|]. by apply scoped_under.
  - apply IH; [done|]. intros; apply Hne; lia.
Qed.

Lemma indexed_not_header sec nm i bodies :
  indexed_ok sec nm i bodies -> Forall (not_header sec) (indexed sec nm i bodies).
Proof.
  revert i; induction bodies as [|b bs IH]; intros i Hok; [done|].
  apply indexed_ok_tail in Hok as [Hb Hok]. cbn [indexed]. apply Forall_app. split; [|by apply IH].
  eapply under_not_header. by apply scoped_under.
Qed.

(** A reader of element [k] finds the lines of element [k]. *)
Lemma indexed_split sec nm i bodies k b :
  Inj (=) (=) nm -> indexed_ok sec nm i bodies -> bodies !! k = Some b ->
  exists pre post,
    indexed sec nm i bodies = pre ++ (LSection (nm (i + k)%nat :: sec) :: b) ++ post
    /\ Forall (outside (nm (i + k)%nat :: sec)) pre
    /\ Forall (outside (nm (i + k)%nat :: sec)) post /\ headed post.
Proof.
  intros Hinj. revert i k; induction bodies as [|c bs IH]; intros i k Hok Hk; [done|].
  apply indexed_ok_tail in Hok as [Hb Hok]. destruct k as [|k]; simpl in Hk.
  - injection Hk as ->. rewrite Nat.add_0_r. exists [], (indexed sec nm (S i) bs).
    split_and!; [done..| |apply indexed_headed].
    apply indexed_outside; [done|]. intros k Hk E. apply Hinj in E. lia.
  - destruct (IH (S i) k Hok Hk) as (pre & post & E & H1 & H2 & H3).
    rewrite Nat.add_succ_comm in *. exists (scoped sec (nm i) (fun _ => c) ++ pre), post.
    split_and!; [cbn [indexed]; by rewrite E, <- app_assoc| |done..].
    apply Forall_app. split; [|done]. apply (under_outside sec (nm i)); [|by apply scoped_under].
    intros E'. apply Hinj in E'. lia.
Qed.

Lemma indexed_agrees cp sec nm i ents bodies k b :
  Inj (=) (=) nm -> indexed_ok sec nm i bodies -> bodies !! k = Some b ->
  Forall (outside (nm (i + k)%nat :: sec)) ents ->
  agrees cp sec (LSection sec :: ents ++ indexed sec nm i bodies) ->
  agrees cp (nm (i + k)%nat :: sec) (LSection (nm (i + k)%nat :: sec) :: b).
Proof.
  intros Hinj Hok Hk He Hag.
  destruct (indexed_split sec nm i bodies k b Hinj Hok Hk) as (pre & post & E & H1 & H2 & H3).
  rewrite E in Hag. eapply (agrees_sub cp sec _ (LSection sec :: ents ++ pre) b post);
    [by rewrite <- app_comm_cons, <- app_assoc| |done..].
  constructor; [apply sub_not_suffix|by apply Forall_app].
Qed.

Lemma indexed_under sec nm i bodies :
  indexed_ok sec nm i bodies -> Forall (under sec) (indexed sec nm i bodies).
Proof.
  revert i; induction bodies as [|b bs IH]; intros i Hok; [done|].
  apply indexed_ok_tail in Hok as [Hb Hok]. cbn [indexed]. apply Forall_app. split; [|by apply IH].
  eapply under_weaken. by apply scoped_under.
Qed.

(** The value lines that precede the numbered subsections. *)
Lemma indexed_holds cp sec nm i ents bodies :
  agrees cp sec (LSection sec :: ents ++ indexed sec nm i bodies) ->
  indexed_ok sec nm i bodies -> after_entries ents = [] -> holds cp sec ents.
Proof.
  intros Hag Hok He n v Hv. pose proof (indexed_not_header _ _ _ _ Hok) as Hnh.
  rewrite (agrees_entry _ _ _ n Hag).
  - rewrite findEntry_app, Hv by done. by destruct bodies.
  - revert He Hnh. clear. induction ents as [|[q|x v] ents IH]; simpl; [|done..|done].
    by destruct bodies.
Qed.

(** A body without subsections. *)
Lemma entries_under sec ls : after_entries ls = [] -> Forall (under sec) ls.
Proof. induction ls as [|[q|x v] ls IH]; simpl; [done..|]. intros H. constructor; [done|by apply IH]. Qed.

Lemma entries_outside sec ls : after_entries ls = [] -> Forall (outside sec) ls.
Proof. induction ls as [|[q|x v] ls IH]; simpl; [done..|]. intros H. constructor; [done|by apply IH]. Qed.

(** The loop that reads the elements back. *)
Lemma mapM_seq {A} (f : nat -> res A) (l : list A) :
  (forall k x, l !! k = Some x -> f k = Ok x) -> mapM f (seq 0 (length l)) = Ok l.
Proof.
  enough (forall i, (forall k x, l !! k = Some x -> f (i + k)%nat = Ok x) ->
            mapM f (seq i (length l)) = Ok l) as H by (intros; by apply H).
  induction l as [|y l IH]; intros i H; [done|]. simpl.
  rewrite <- (Nat.add_0_r i), (H 0%nat y eq_refl), Nat.add_0_r. simpl.
  rewrite IH; [done|]. intros k x Hk. rewrite Nat.add_succ_comm. by apply H.
Qed.

Lemma mapM_zip_seq {A B} (f : nat * A -> res B) (g : nat -> A -> B) (l : list A) :
  (forall k x, l !! k = Some x -> f (k, x) = Ok (g k x)) ->
  mapM f (zip (seq 0 (length l)) l) = Ok (imap g l).
Proof.
  enough (forall i, (forall k x, l !! k = Some x -> f (i + k, x)%nat = Ok (g (i + k)%nat x)) ->
            mapM f (zip (seq i (length l)) l) = Ok (imap (fun k => g (i + k)%nat) l)) as H
    by (intros; by apply H).
  induction l as [|y l IH]; intros i H; [done|]. simpl.
  rewrite <- (Nat.add_0_r i) at 1. rewrite (H 0%nat y eq_refl). simpl.
  rewrite IH.
  - simpl. do 2 f_equal. apply imap_ext. intros k x _. simpl. by rewrite Nat.add_succ_r.
  - intros k x Hk. rewrite Nat.add_succ_comm. by apply H.
Qed.

Lemma mapM_Ok_each {A B} (f : A -> res B) l r x :
  mapM f l = Ok r -> x ∈ l -> exists y, f x = Ok y.
Proof.
  revert r; induction l as [|z l IH]; intros r H Hx; [by apply not_elem_of_nil in Hx|].
  simpl in H. inv_ok. apply elem_of_cons in Hx as [->|Hx]; eauto.
Qed.

(** A section that is never opened holds nothing. *)
Lemma iniLoad_absent p n ls : Forall (not_header p) ls -> iniLoad ls !! (p, n) = None.
Proof. intros H. unfold iniLoad. by rewrite ini_not_header; [|done|right]. Qed.

Lemma paramIn_absent {T} (P : param T) cp sec p n ls x :
  agrees cp sec ls -> sec `suffix_of` p -> Forall (not_header p) ls -> paramIn P cp p n <> Ok x.
Proof.
  intros Hag Hp Hn. rewrite paramIn_none; [done|]. rewrite Hag by done. by apply iniLoad_absent.
Qed.

(** ** Blocks

    Lines that only open sections below [sec], of names in [N]. *)
Definition in_block (sec : section) (N : string -> Prop) (l : line) : Prop :=
  match l with LSection p => exists q a, p = q ++ a :: sec /\ N a | LEntry _ _ => True end.
Definition blocks (sec : section) (N : string -> Prop) (ls : list line) : Prop :=
  headed ls /\ Forall (in_block sec N) ls.

Lemma blocks_nil sec N : blocks sec N [].
Proof. done. Qed.
Lemma blocks_app sec N l1 l2 : blocks sec N l1 -> blocks sec N l2 -> blocks sec N (l1 ++ l2).
Proof. intros [H1 H2] [H3 H4]. split; [by destruct l1|by apply Forall_app]. Qed.
Lemma blocks_weaken sec (N N' : string -> Prop) ls : (forall a, N a -> N' a) -> blocks sec N ls -> blocks sec N' ls.
Proof. intros HN [H1 H2]. split; [done|]. eapply Forall_impl; [exact H2|]. intros [p|]; [|done]. intros (q & a & -> & Ha). exists q, a. auto. Qed.
Lemma under_in_block sec (N : string -> Prop) a ls : N a -> Forall (under (a :: sec)) ls -> Forall (in_block sec N) ls.
Proof. intros Ha H. eapply Forall_impl; [exact H|]. intros [p|]; [|done]. intros [q ->]. by exists q, a. Qed.
Lemma blocks_scoped sec (N : string -> Prop) a ls : N a -> Forall (under (a :: sec)) ls -> blocks sec N (scoped sec a (fun _ => ls)).
Proof. intros Ha H. split; [done|]. apply (under_in_block sec N a); [done|]. by apply scoped_under. Qed.
Lemma blocks_indexed sec (N : string -> Prop) nm i bodies : indexed_ok sec nm i bodies -> (forall k, N (nm k)) -> blocks sec N (indexed sec nm i bodies).
Proof.
  intros Hok HN. revert i Hok. induction bodies as [|b bs IH]; intros i Hok; [apply blocks_nil|].
  apply indexed_ok_tail in Hok as [Hb Hok]. cbn [indexed]. apply blocks_app; [by apply blocks_scoped|by apply IH].
Qed.

Lemma blocks_outside sec N b ls : blocks sec N ls -> ~ N b -> Forall (outside (b :: sec)) ls.
Proof.
  intros [_ H] Hb. eapply Forall_impl; [exact H|]. intros [p|]; [|done]. intros (q & a & -> & Ha) [k E].
  change (a :: sec) with ([a] ++ sec) in E. change (b :: sec) with ([b] ++ sec) in E. rewrite !app_assoc in E.
  apply app_inv_tail, app_inj_tail in E as [_ ->]. done.
Qed.
Lemma blocks_not_header sec N ls : blocks sec N ls -> Forall (not_header sec) ls.
Proof.
  intros [_ H]. eapply Forall_impl; [exact H|]. intros [p|]; [|done]. intros (q & a & -> & _) E.
  apply (f_equal length) in E. rewrite length_app in E. cbn in E. lia.
Qed.

Lemma findEntry_blocks n ents ls acc : after_entries ents = [] -> headed ls -> findEntry n (ents ++ ls) acc = findEntry n ents acc.
Proof. intros He Hh. rewrite findEntry_app by done. destruct ls as [|[]]; done. Qed.
Lemma after_entries_app ents ls : after_entries ents = [] -> after_entries (ents ++ ls) = after_entries ls.
Proof. induction ents as [|[q|x v] ents IH]; [done..|]. exact IH. Qed.

(** The values of a section that is followed by blocks. *)
Lemma blocks_entry cp sec N ents ls n : agrees cp sec (LSection sec :: ents ++ ls) -> after_entries ents = [] -> blocks sec N ls ->
  cp !! (sec, n) = findEntry n ents None.
Proof.
  intros Hag He Hb. rewrite (agrees_entry _ _ _ n Hag).
  - apply findEntry_blocks; [done|apply Hb].
  - rewrite after_entries_app by done. destruct ls as [|[q|x v] ls]; [done| |by destruct Hb]. by apply (blocks_not_header sec N).
Qed.
(** One section between blocks of other names. *)
Lemma blocks_scoped_agrees cp sec (N1 N2 : string -> Prop) ents l1 a body l2 :
  agrees cp sec (LSection sec :: ents ++ l1 ++ scoped sec a (fun _ => body) ++ l2) -> after_entries ents = [] ->
  blocks sec N1 l1 -> blocks sec N2 l2 -> ~ N1 a -> ~ N2 a -> agrees cp (a :: sec) (LSection (a :: sec) :: body).
Proof.
  intros Hag He H1 H2 Hn1 Hn2. apply (agrees_sub cp sec a (LSection sec :: ents ++ l1) body l2).
  - by rewrite <- app_comm_cons, <- app_assoc.
  - constructor; [apply sub_not_suffix|]. apply Forall_app_2; [by apply entries_outside|by apply (blocks_outside sec N1)].
  - by apply (blocks_outside sec N2).
  - apply H2.
Qed.
(** One element of numbered sections between blocks of other names. *)
Lemma blocks_indexed_agrees cp sec (N1 N2 : string -> Prop) ents l1 nm bodies l2 k b :
  agrees cp sec (LSection sec :: ents ++ l1 ++ indexed sec nm 0 bodies ++ l2) -> after_entries ents = [] ->
  blocks sec N1 l1 -> blocks sec N2 l2 -> Inj (=) (=) nm -> indexed_ok sec nm 0 bodies -> bodies !! k = Some b -> ~ N1 (nm k) -> ~ N2 (nm k) ->
  agrees cp (nm k :: sec) (LSection (nm k :: sec) :: b).
Proof.
  intros Hag He H1 H2 Hi Hok Hk Hn1 Hn2. destruct (indexed_split sec nm 0 bodies k b Hi Hok Hk) as (pre & post & E & P1 & P2 & P3).
  cbn [Nat.add] in *. rewrite E in Hag. apply (agrees_sub cp sec (nm k) (LSection sec :: ents ++ l1 ++ pre) b (post ++ l2)).
  - rewrite <- app_comm_cons, <- !app_assoc in *. cbn in *. by rewrite <- !app_assoc in Hag.
  - constructor; [apply sub_not_suffix|]. repeat apply Forall_app_2; [by apply entries_outside|by apply (blocks_outside sec N1)|done].
  - apply Forall_app_2; [done|by apply (blocks_outside sec N2)].
  - destruct post; [apply H2|done].
Qed.

(** Read one value: the section's value lines are computed, the value is parsed. *)
Ltac cp_parse := first [ reflexivity | apply parse_num; lia | apply parse_array; done ].
Ltac cp_read H :=
  first [ erewrite paramIn_some; [ | eapply H; reflexivity | cp_parse ]
        | erewrite optParamIn_some; [ | eapply H; reflexivity | cp_parse ] ];
  cbn [rbind].
