(* ===== verification/AxiCheckpoint.v ===== *)
(** * Checkpoints of the AXI payloads

    The helpers that write and read back one channel payload:
    [serialize_axisData], [serialize_aximmRWAddr], [serialize_aximmRWData] and
    [serialize_aximmWResp] with their inverses.  [CDCQueue.cc] and
    [WriteStructs.cc] each hold a copy of them. *)

From S2P Require Import Prelude AxiTypes Checkpoint.

(** ** Enumerations written as [int] *)

Definition int_of_cmd (c : AximmCommand) : Z :=
  match c with READ => 0 | WRITE => 1 | NONE => 2 end.
Definition int_of_burst (b : BurstType) : Z :=
  match b with FIXED => 0 | INCR => 1 | WRAP => 2 end.
Definition int_of_resp (r : AximmResp) : Z :=
  match r with OKAY => 0 | EXOKAY => 1 | SLVERR => 2 | DECERR => 3 end.

(** The casts back; an [int] that is no enumerator has no counterpart here. *)
Definition cmd_of_int (z : Z) : res AximmCommand :=
  if z =? 0 then Ok READ else if z =? 1 then Ok WRITE else if z =? 2 then Ok NONE
  else Err (FUndef "AximmCommand").
Definition burst_of_int (z : Z) : res BurstType :=
  if z =? 0 then Ok FIXED else if z =? 1 then Ok INCR else if z =? 2 then Ok WRAP
  else Err (FUndef "BurstType").
Definition resp_of_int (z : Z) : res AximmResp :=
  if z =? 0 then Ok OKAY else if z =? 1 then Ok EXOKAY else if z =? 2 then Ok SLVERR
  else if z =? 3 then Ok DECERR else Err (FUndef "AximmResp").

Lemma cmd_of_int_of c : cmd_of_int (int_of_cmd c) = Ok c.
Proof. by destruct c. Qed.
Lemma burst_of_int_of b : burst_of_int (int_of_burst b) = Ok b.
Proof. by destruct b. Qed.
Lemma resp_of_int_of r : resp_of_int (int_of_resp r) = Ok r.
Proof. by destruct r. Qed.

(** ** AXI-Stream beats *)

Definition serialize_axisData (d : axisData) : list line :=
  paramOut p_u32 "DATA_WIDTH" (DATA_WIDTH d) ++
  paramOut p_u32 "DST_ID_WIDTH" (DST_ID_WIDTH d) ++
  paramOut p_u32 "ID_WIDTH" (ID_WIDTH d) ++
  paramOut p_bytes "tdata" (tdata d) ++
  paramOut p_u32 "tid" (tid d) ++
  paramOut p_u32 "tdest" (tdest d) ++
  paramOut p_u64 "tkeep" (tkeep d) ++
  paramOut p_u64 "tuser" (tuser d) ++
  paramOut p_bool "tlast" (tlast d) ++
  paramOut p_bool "tvalid" (tvalid d).

Definition unserialize_axisData (cp : checkpoint) (sec : section) : res axisData :=
  let* data_width := paramIn p_u32 cp sec "DATA_WIDTH" in
  let* id_width := paramIn p_u32 cp sec "ID_WIDTH" in
  let* dest_width := paramIn p_u32 cp sec "DST_ID_WIDTH" in
  let d := axisData_of_width data_width id_width dest_width in
  let* data := paramIn p_bytes cp sec "tdata" in
  let* i := paramIn p_u32 cp sec "tid" in
  let* dst := paramIn p_u32 cp sec "tdest" in
  let* keep := paramIn p_u64 cp sec "tkeep" in
  let* tmp := paramIn p_u64 cp sec "tuser" in
  let* lst := paramIn p_bool cp sec "tlast" in
  let* vld := paramIn p_bool cp sec "tvalid" in
  Ok {| DATA_WIDTH := DATA_WIDTH d; DATA_WIDTH_BITS := DATA_WIDTH_BITS d;
        DST_ID_WIDTH := DST_ID_WIDTH d; ID_WIDTH := ID_WIDTH d;
        tdata := data; tid := i; tdest := dst; tkeep := keep; tuser := u8 tmp;
        tlast := lst; tvalid := vld |}.

(** The ranges of the member types, and the width the constructors record. *)
Record axisData_typed (d : axisData) : Prop := {
  adt_width : is_u32 (DATA_WIDTH d);
  adt_bits : DATA_WIDTH_BITS d = Z.log2 (DATA_WIDTH d);
  adt_dst : is_u32 (DST_ID_WIDTH d);
  adt_id : is_u32 (ID_WIDTH d);
  adt_tdata : Forall is_u8 (tdata d);
  adt_tid : is_u32 (tid d);
  adt_tdest : is_u32 (tdest d);
  adt_tkeep : is_u64 (tkeep d);
  adt_tuser : is_u32 (tuser d)
}.

(** What a restored beat is: TUSER keeps its low byte only. *)
Definition axis_restored (d : axisData) : axisData := set_sideband (tid d) (tdest d) (u8 (tuser d)) d.

Lemma Forall_u8_bytes l : Forall is_u8 l -> Forall (fun z => 0 <= z <= 2^8 - 1) l.
Proof. intros HF. apply (Forall_impl _ _ _ HF). unfold is_u8. lia. Qed.
#[export] Hint Resolve Forall_u8_bytes : ckpt.

Lemma axisData_restore cp sec d :
  holds cp sec (serialize_axisData d) -> axisData_typed d ->
  unserialize_axisData cp sec = Ok (axis_restored d).
Proof.
  intros H []. unfold is_u32, is_u64 in *. unfold unserialize_axisData.
  pose proof (Forall_u8_bytes _ adt_tdata0).
  do 10 cp_read H. unfold axis_restored, set_sideband. simpl. by rewrite adt_bits0.
Qed.

(** ** AXI-MM channels *)

Definition serialize_aximmRWAddr (a : aximmRWAddr) : list line :=
  paramOut p_int "cmd" (int_of_cmd (ra_cmd a)) ++
  paramOut p_u32 "id" (ra_id a) ++
  paramOut p_u64 "addr" (ra_addr a) ++
  paramOut p_u64 "len" (ra_len a) ++
  paramOut p_u64 "size" (ra_size a) ++
  paramOut p_int "burst" (int_of_burst (ra_burst a)) ++
  paramOut p_bool "lock" (ra_lock a) ++
  paramOut p_u64 "cache" (ra_cache a) ++
  paramOut p_u64 "prot" (ra_prot a) ++
  paramOut p_u64 "qos" (ra_qos a) ++
  paramOut p_u64 "region" (ra_region a) ++
  paramOut p_u64 "user" (ra_user a) ++
  paramOut p_bool "valid" (ra_valid a).

(** The debug members keep their defaults. *)
Definition unserialize_aximmRWAddr (cp : checkpoint) (sec : section) : res aximmRWAddr :=
  let* cmd := paramIn p_int cp sec "cmd" in
  let* burst := paramIn p_int cp sec "burst" in
  let* c := cmd_of_int cmd in
  let* b := burst_of_int burst in
  let* i := paramIn p_u32 cp sec "id" in
  let* addr := paramIn p_u64 cp sec "addr" in
  let* len := paramIn p_u64 cp sec "len" in
  let* size := paramIn p_u64 cp sec "size" in
  let* lock := paramIn p_bool cp sec "lock" in
  let* cache := paramIn p_u64 cp sec "cache" in
  let* prot := paramIn p_u64 cp sec "prot" in
  let* qos := paramIn p_u64 cp sec "qos" in
  let* region := paramIn p_u64 cp sec "region" in
  let* user := paramIn p_u64 cp sec "user" in
  let* vld := paramIn p_bool cp sec "valid" in
  let a := aximmRWAddr_default in
  Ok {| ra_cmd := c; ra_id := i; ra_addr := addr; ra_len := u8 len; ra_size := u8 size;
        ra_burst := b; ra_lock := lock; ra_cache := u8 cache; ra_prot := u8 prot;
        ra_qos := u8 qos; ra_region := u8 region; ra_user := u8 user; ra_valid := vld;
        ra_sourceNiDebug := ra_sourceNiDebug a;
        ra_originalReadBytesDebug := ra_originalReadBytesDebug a;
        ra_debugId := ra_debugId a; ra_finalReadChunkDebug := ra_finalReadChunkDebug a |}.

Definition serialize_aximmRWData (d : aximmRWData) : list line :=
  paramOut p_int "cmd" (int_of_cmd (rd_cmd d)) ++
  paramOut p_u32 "id" (rd_id d) ++
  paramOut p_int "resp" (int_of_resp (rd_resp d)) ++
  paramOut p_bool "last" (rd_last d) ++
  paramOut p_u64 "user" (rd_user d) ++
  paramOut p_bool "valid" (rd_valid d) ++
  paramOut p_bool "ready" (rd_ready d) ++
  paramOut p_bytes "data" (rd_data d) ++
  paramOut p_u64 "wstrb" (rd_wstrb d).

Definition unserialize_aximmRWData (cp : checkpoint) (sec : section) : res aximmRWData :=
  let* cmd := paramIn p_int cp sec "cmd" in
  let* resp := paramIn p_int cp sec "resp" in
  let* c := cmd_of_int cmd in
  let* r := resp_of_int resp in
  let* i := paramIn p_u32 cp sec "id" in
  let* lst := paramIn p_bool cp sec "last" in
  let* user := paramIn p_u64 cp sec "user" in
  let* vld := paramIn p_bool cp sec "valid" in
  let* rdy := paramIn p_bool cp sec "ready" in
  let* data := arrayParamInN p_bytes cp sec "data" 64 in
  let* wstrb := paramIn p_u64 cp sec "wstrb" in
  Ok {| rd_cmd := c; rd_id := i; rd_resp := r; rd_last := lst; rd_user := u8 user;
        rd_valid := vld; rd_ready := rdy; rd_data := data; rd_wstrb := wstrb |}.

Definition serialize_aximmWResp (r : aximmWResp) : list line :=
  paramOut p_u32 "id" (wr_id r) ++
  paramOut p_int "resp" (int_of_resp (wr_resp r)) ++
  paramOut p_u64 "user" (wr_user r) ++
  paramOut p_bool "valid" (wr_valid r).

Definition unserialize_aximmWResp (cp : checkpoint) (sec : section) : res aximmWResp :=
  let* i := paramIn p_u32 cp sec "id" in
  let* resp := paramIn p_int cp sec "resp" in
  let* r := resp_of_int resp in
  let* user := paramIn p_u64 cp sec "user" in
  let* vld := paramIn p_bool cp sec "valid" in
  Ok {| wr_id := i; wr_resp := r; wr_user := u8 user; wr_valid := vld |}.

Record aximmRWAddr_typed (a : aximmRWAddr) : Prop := {
  rat_id : is_u32 (ra_id a);
  rat_addr : is_u64 (ra_addr a);
  rat_len : is_u8 (ra_len a);
  rat_size : is_u8 (ra_size a);
  rat_cache : is_u8 (ra_cache a);
  rat_prot : is_u8 (ra_prot a);
  rat_qos : is_u8 (ra_qos a);
  rat_region : is_u8 (ra_region a);
  rat_user : is_u8 (ra_user a)
}.

(** A restored request: the debug members are back at their defaults. *)
Definition addr_restored (a : aximmRWAddr) : aximmRWAddr :=
  {| ra_cmd := ra_cmd a; ra_id := ra_id a; ra_addr := ra_addr a; ra_len := ra_len a;
     ra_size := ra_size a; ra_burst := ra_burst a; ra_lock := ra_lock a;
     ra_cache := ra_cache a; ra_prot := ra_prot a; ra_qos := ra_qos a;
     ra_region := ra_region a; ra_user := ra_user a; ra_valid := ra_valid a;
     ra_sourceNiDebug := -1; ra_originalReadBytesDebug := 0; ra_debugId := -1;
     ra_finalReadChunkDebug := false |}.

Lemma aximmRWAddr_restore cp sec a :
  holds cp sec (serialize_aximmRWAddr a) -> aximmRWAddr_typed a ->
  unserialize_aximmRWAddr cp sec = Ok (addr_restored a).
Proof.
  intros H []. unfold is_u8, is_u32, is_u64 in *. unfold unserialize_aximmRWAddr.
  pose proof (cmd_of_int_of (ra_cmd a)) as Hc. pose proof (burst_of_int_of (ra_burst a)) as Hb.
  assert (0 <= int_of_cmd (ra_cmd a) <= 3 /\ 0 <= int_of_burst (ra_burst a) <= 3)
    by (destruct (ra_cmd a), (ra_burst a); simpl; lia).
  do 2 cp_read H. rewrite Hc, Hb. cbn [rbind]. do 11 cp_read H.
  by rewrite !u8_small by lia.
Qed.

Record aximmRWData_typed (d : aximmRWData) : Prop := {
  rdt_id : is_u32 (rd_id d);
  rdt_user : is_u8 (rd_user d);
  rdt_data : Forall is_u8 (rd_data d);
  rdt_len : length (rd_data d) = 64%nat;
  rdt_wstrb : is_u64 (rd_wstrb d)
}.

Lemma aximmRWData_restore cp sec d :
  holds cp sec (serialize_aximmRWData d) -> aximmRWData_typed d ->
  unserialize_aximmRWData cp sec = Ok d.
Proof.
  intros H []. unfold is_u8, is_u32, is_u64 in *. unfold unserialize_aximmRWData.
  pose proof (cmd_of_int_of (rd_cmd d)) as Hc. pose proof (resp_of_int_of (rd_resp d)) as Hr.
  pose proof (Forall_u8_bytes _ rdt_data0).
  assert (0 <= int_of_cmd (rd_cmd d) <= 3 /\ 0 <= int_of_resp (rd_resp d) <= 3)
    by (destruct (rd_cmd d), (rd_resp d); simpl; lia).
  do 2 cp_read H. rewrite Hc, Hr. cbn [rbind]. do 5 cp_read H.
  unfold arrayParamInN. cp_read H. rewrite rdt_len0. cbn [guard Nat.eqb rbind]. cp_read H.
  rewrite !u8_small by lia. by destruct d.
Qed.
