(* ===== verification/CdcQueue.v ===== *)
(** * Clock-domain crossing queue

    [CDCQueue] ([src/src/noc/core/interface/CDCQueue.{hh,cc}]): the FIFO between an
    endpoint and its network interface.  The file models every operation of the
    class and its checkpointing, shows that the queue refines a bounded list, and
    states what a restored queue is. *)

From stdpp Require Import pretty.
From S2P Require Import Prelude AxiTypes Checkpoint AxiCheckpoint.

(** ** Data *)

Inductive RespType := RT_NONE | RT_READ | RT_WRITE.

Record ResponseInfo := mk_ResponseInfo {
  ri_responseEnd : bool;
  ri_dataValid : bool;
  ri_type : RespType;
  ri_id : Z;
  ri_delay : Z;
  ri_src : Z;
  ri_dataBytes : list Z;
  ri_tlast : bool;
  ri_tdest : Z
}.

(** [fe_data] is a [unique_ptr], [None] when null. *)
Record FIFOEntry := mk_FIFOEntry {
  fe_data : option State;
  fe_responseInfo : option ResponseInfo;
  fe_enqueueTick : Z;
  fe_dequeueTick : Z;
  fe_dequeueTickValid : bool;
  fe_sampled : bool
}.

Record CDCQueue := mk_CDCQueue {
  maxSize : Z;
  fifo : list FIFOEntry
}.

Definition newCDCQueue (size : Z) : CDCQueue := {| maxSize := size; fifo := [] |}.

(** ** Operations *)

Definition isEmpty (q : CDCQueue) : bool :=
  match fifo q with [] => true | _ => false end.

(** [fifo.size() >= maxSize]: the [int] is converted to [size_t]. *)
Definition isFull (q : CDCQueue) : bool := u64 (maxSize q) <=? nz (length (fifo q)).

Definition cdc_push (q : CDCQueue) (e : FIFOEntry) : CDCQueue :=
  {| maxSize := maxSize q; fifo := fifo q ++ [e] |}.

(** [enqueue(data, enqueueTick)] *)
Definition enqueue (q : CDCQueue) (data : option State) (tick : Z) : bool * CDCQueue :=
  if isFull q then (false, q)
  else (true, cdc_push q {| fe_data := data; fe_responseInfo := None; fe_enqueueTick := tick;
                            fe_dequeueTick := 0; fe_dequeueTickValid := false;
                            fe_sampled := false |}).

(** [enqueue(data, responseInfo, enqueueTick)] *)
Definition enqueueResp (q : CDCQueue) (data : option State) (ri : ResponseInfo) (tick : Z)
    : bool * CDCQueue :=
  if isFull q then (false, q)
  else (true, cdc_push q {| fe_data := data; fe_responseInfo := Some ri;
                            fe_enqueueTick := tick; fe_dequeueTick := 0;
                            fe_dequeueTickValid := false; fe_sampled := false |}).

Definition cdc_gated (e : FIFOEntry) (curTick : Z) : bool :=
  fe_dequeueTickValid e && (curTick <? fe_dequeueTick e).

Definition dequeue (q : CDCQueue) (curTick : Z) : option State * CDCQueue :=
  match fifo q with
  | [] => (None, q)
  | e :: rest =>
      if cdc_gated e curTick then (None, q)
      else (fe_data e, {| maxSize := maxSize q; fifo := rest |})
  end.

Definition canDequeueToNoC (q : CDCQueue) (curTick : Z) : bool :=
  match fifo q with
  | [] => false
  | e :: _ => negb (cdc_gated e curTick)
  end.

Definition peekFrontState (q : CDCQueue) (curTick : Z) : option State :=
  if canDequeueToNoC q curTick then head (fifo q) ≫= fe_data else None.

Definition peekResponseInfo (q : CDCQueue) : option ResponseInfo :=
  head (fifo q) ≫= fe_responseInfo.

(** ** Checkpointing *)

Definition int_of_rtype (t : RespType) : Z :=
  match t with RT_NONE => 0 | RT_READ => 1 | RT_WRITE => 2 end.
Definition rtype_of_int (z : Z) : res RespType :=
  if z =? 0 then Ok RT_NONE else if z =? 1 then Ok RT_READ else if z =? 2 then Ok RT_WRITE
  else Err (FUndef "ResponseInfo::Type").

(** The subsections opened after [kind] stay open until the function returns, so
    that of [b] is inside that of [r], and those of [aw] and [w] inside [ar]. *)
Definition state_lines (sec : section) (st : State) : list line :=
  match st_body st with
  | SAxisSlave tready =>
      paramOut p_string "kind" "axisSlaveState" ++ paramOut p_bool "tready" tready
  | SAxisMaster a =>
      paramOut p_string "kind" "axisMasterState" ++
      scoped sec "axisData" (fun _ =>
        serialize_axisData (ams_data a) ++
        paramOut p_bool "ni_tready" (ams_ni_tready a) ++
        paramOut p_bool "cdc_enqueue_ready" (ams_cdc_enqueue_ready a) ++
        paramOut p_bool "node_input_tready" (ams_node_input_tready a))
  | SAximmSlave a =>
      paramOut p_string "kind" "aximmSlaveState" ++
      paramOut p_bool "arReady" (mss_arReady a) ++
      paramOut p_bool "awReady" (mss_awReady a) ++
      paramOut p_bool "wReady" (mss_wReady a) ++
      scoped sec "r" (fun sec1 =>
        serialize_aximmRWData (mss_r a) ++
        scoped sec1 "b" (fun _ => serialize_aximmWResp (mss_b a)))
  | SAximmMaster a =>
      paramOut p_string "kind" "aximmMasterState" ++
      paramOut p_bool "rReady" (mms_rReady a) ++
      paramOut p_bool "bReady" (mms_bReady a) ++
      scoped sec "ar" (fun sec1 =>
        serialize_aximmRWAddr (mms_ar a) ++
        scoped sec1 "aw" (fun sec2 =>
          serialize_aximmRWAddr (mms_aw a) ++
          scoped sec2 "w" (fun _ => serialize_aximmRWData (mms_w a))))
  end.

Definition serialize_state (sec : section) (s : option State) : res (list line) :=
  match s with
  | None => Err (FPanic "CDCQueue serialize_state got null State")
  | Some st => Ok (state_lines sec st)
  end.

(** A new state object has the default [debugId]. *)
Definition new_State (b : StateBody) : State := {| st_debugId := -1; st_body := b |}.

Definition unserialize_state (cp : checkpoint) (sec : section) : res State :=
  let* kind := paramIn p_string cp sec "kind" in
  if String.eqb kind "axisSlaveState" then
    let* tready := paramIn p_bool cp sec "tready" in
    Ok (new_State (SAxisSlave tready))
  else if String.eqb kind "axisMasterState" then
    let sec1 := "axisData" :: sec in
    let* d := unserialize_axisData cp sec1 in
    Ok (new_State (SAxisMaster
      {| ams_data := d;
         ams_ni_tready := optParamIn p_bool cp sec1 "ni_tready" false;
         ams_cdc_enqueue_ready := optParamIn p_bool cp sec1 "cdc_enqueue_ready" false;
         ams_node_input_tready := optParamIn p_bool cp sec1 "node_input_tready" false |}))
  else if String.eqb kind "aximmSlaveState" then
    let* arReady := paramIn p_bool cp sec "arReady" in
    let* awReady := paramIn p_bool cp sec "awReady" in
    let* wReady := paramIn p_bool cp sec "wReady" in
    let* r := unserialize_aximmRWData cp ("r" :: sec) in
    let* b := unserialize_aximmWResp cp ("b" :: sec) in
    Ok (new_State (SAximmSlave
      {| mss_arReady := arReady; mss_r := r; mss_awReady := awReady; mss_wReady := wReady;
         mss_b := b |}))
  else if String.eqb kind "aximmMasterState" then
    let* rReady := paramIn p_bool cp sec "rReady" in
    let* bReady := paramIn p_bool cp sec "bReady" in
    let* ar := unserialize_aximmRWAddr cp ("ar" :: sec) in
    let* aw := unserialize_aximmRWAddr cp ("aw" :: sec) in
    let* w := unserialize_aximmRWData cp ("w" :: sec) in
    Ok (new_State (SAximmMaster
      {| mms_ar := ar; mms_rReady := rReady; mms_aw := aw; mms_w := w; mms_bReady := bReady;
         mms_cdc_enqueue_ready := false |}))
  else Err (FPanic "CDCQueue unserialize_state: bad kind").

Definition serialize_ri (ri : ResponseInfo) : list line :=
  paramOut p_bool "responseEnd" (ri_responseEnd ri) ++
  paramOut p_bool "dataValid" (ri_dataValid ri) ++
  paramOut p_int "type" (int_of_rtype (ri_type ri)) ++
  paramOut p_u32 "id" (ri_id ri) ++
  paramOut p_u64 "delay" (ri_delay ri) ++
  paramOut p_u32 "src" (ri_src ri) ++
  paramOut p_bytes "dataBytes" (ri_dataBytes ri) ++
  paramOut p_bool "tlast" (ri_tlast ri) ++
  paramOut p_int "tdest" (ri_tdest ri).

Definition unserialize_ri (cp : checkpoint) (sec : section) : res ResponseInfo :=
  let* e := paramIn p_bool cp sec "responseEnd" in
  let* dv := paramIn p_bool cp sec "dataValid" in
  let* type := paramIn p_int cp sec "type" in
  let* t := rtype_of_int type in
  let* i := paramIn p_u32 cp sec "id" in
  let* delay := paramIn p_u64 cp sec "delay" in
  let* src := paramIn p_u32 cp sec "src" in
  let* bytes := paramIn p_bytes cp sec "dataBytes" in
  let* tl := paramIn p_bool cp sec "tlast" in
  let* td := paramIn p_int cp sec "tdest" in
  Ok {| ri_responseEnd := e; ri_dataValid := dv; ri_type := t; ri_id := i; ri_delay := delay;
        ri_src := src; ri_dataBytes := bytes; ri_tlast := tl; ri_tdest := td |}.

(** [csprintf("e%d", i)] *)
Definition ename (i : nat) : string := String.append "e" (pretty (N.of_nat i)).

Definition serialize_entry (sec : section) (e : FIFOEntry) : res (list line) :=
  let* st := serialize_state ("state" :: sec) (fe_data e) in
  Ok (paramOut p_u64 "enqueueTick" (fe_enqueueTick e) ++
      paramOut p_u64 "dequeueTick" (fe_dequeueTick e) ++
      paramOut p_bool "dequeueTickValid" (fe_dequeueTickValid e) ++
      paramOut p_bool "sampled" (fe_sampled e) ++
      paramOut p_bool "hasResponseInfo"
        match fe_responseInfo e with Some _ => true | None => false end ++
      match fe_responseInfo e with
      | Some ri => scoped sec "responseInfo" (fun _ => serialize_ri ri)
      | None => []
      end ++
      scoped sec "state" (fun _ => st)).

(** [CDCQueue::serialize], run in section [sec]. *)
Definition cdc_serialize (sec : section) (q : CDCQueue) : res (list line) :=
  let* bodies := mapM (fun p => serialize_entry (ename p.1 :: sec) p.2)
                      (zip (seq 0 (length (fifo q))) (fifo q)) in
  Ok (paramOut p_int "maxSize" (maxSize q) ++
      paramOut p_u64 "fifo_size" (nz (length (fifo q))) ++
      indexed sec ename 0 bodies).

Definition unserialize_entry (cp : checkpoint) (sec : section) : res FIFOEntry :=
  let* et := paramIn p_u64 cp sec "enqueueTick" in
  let* dt := paramIn p_u64 cp sec "dequeueTick" in
  let* dtv := paramIn p_bool cp sec "dequeueTickValid" in
  let* smp := paramIn p_bool cp sec "sampled" in
  let* hasRi := paramIn p_bool cp sec "hasResponseInfo" in
  let* ri := (if hasRi : bool
              then let* r := unserialize_ri cp ("responseInfo" :: sec) in Ok (Some r)
              else Ok None) in
  let* st := unserialize_state cp ("state" :: sec) in
  Ok {| fe_data := Some st; fe_responseInfo := ri; fe_enqueueTick := et;
        fe_dequeueTick := dt; fe_dequeueTickValid := dtv; fe_sampled := smp |}.

(** [CDCQueue::unserialize]; the loop reads [fifo_size] entries. *)
Definition cdc_unserialize (cp : checkpoint) (sec : section) : res CDCQueue :=
  let* ms := paramIn p_int cp sec "maxSize" in
  let* n := paramIn p_u64 cp sec "fifo_size" in
  let* l := mapM (fun i => unserialize_entry cp (ename i :: sec)) (seq 0 (zn n)) in
  Ok {| maxSize := ms; fifo := l |}.

(** ** The queue is a bounded FIFO *)

Definition cdc_item : Type := option State * option ResponseInfo.
Definition cdc_items (q : CDCQueue) : list cdc_item :=
  (fun e => (fe_data e, fe_responseInfo e)) <$> fifo q.

Inductive cdc_op :=
  | OEnqueue (data : option State) (tick : Z)
  | OEnqueueResp (data : option State) (ri : ResponseInfo) (tick : Z)
  | ODequeue (tick : Z)
  | OCanDequeue (tick : Z)
  | OPeekState (tick : Z)
  | OPeekResp
  | OIsEmpty
  | OIsFull.

Inductive cdc_out :=
  | UBool (b : bool)
  | UState (s : option State)
  | UResp (r : option ResponseInfo).

Definition cdc_step (q : CDCQueue) (op : cdc_op) : cdc_out * CDCQueue :=
  match op with
  | OEnqueue d t => let r := enqueue q d t in (UBool r.1, r.2)
  | OEnqueueResp d ri t => let r := enqueueResp q d ri t in (UBool r.1, r.2)
  | ODequeue t => let r := dequeue q t in (UState r.1, r.2)
  | OCanDequeue t => (UBool (canDequeueToNoC q t), q)
  | OPeekState t => (UState (peekFrontState q t), q)
  | OPeekResp => (UResp (peekResponseInfo q), q)
  | OIsEmpty => (UBool (isEmpty q), q)
  | OIsFull => (UBool (isFull q), q)
  end.

(** The specification: a list of at most [n] items, no matter what the ticks are. *)
Definition spec_enqueue (n : Z) (l : list cdc_item) (x : cdc_item) : cdc_out * list cdc_item :=
  if nz (length l) <? n then (UBool true, l ++ [x]) else (UBool false, l).

Definition spec_step (n : Z) (l : list cdc_item) (op : cdc_op) : cdc_out * list cdc_item :=
  match op with
  | OEnqueue d _ => spec_enqueue n l (d, None)
  | OEnqueueResp d ri _ => spec_enqueue n l (d, Some ri)
  | ODequeue _ => (UState (head l ≫= fst), tail l)
  | OCanDequeue _ => (UBool (bool_decide (l <> [])), l)
  | OPeekState _ => (UState (head l ≫= fst), l)
  | OPeekResp => (UResp (head l ≫= snd), l)
  | OIsEmpty => (UBool (bool_decide (l = [])), l)
  | OIsFull => (UBool (n <=? nz (length l)), l)
  end.

Fixpoint run {S} (step : S -> cdc_op -> cdc_out * S) (s : S) (ops : list cdc_op)
    : list cdc_out * S :=
  match ops with
  | [] => ([], s)
  | op :: ops =>
      let r := step s op in
      let r' := run step r.2 ops in
      (r.1 :: r'.1, r'.2)
  end.

(** No entry carries a dequeue time: the operations never set one. *)
Definition cdc_inv (n : Z) (q : CDCQueue) : Prop :=
  maxSize q = n /\ Forall (fun e => fe_dequeueTickValid e = false) (fifo q)
  /\ nz (length (fifo q)) <= n.

Lemma isFull_bound n q : 0 <= n < 2^31 -> maxSize q = n -> isFull q = (n <=? nz (length (fifo q))).
Proof. intros H <-. unfold isFull. by rewrite u64_small by lia. Qed.

Lemma cdc_push_inv n q e :
  0 <= n < 2^31 -> cdc_inv n q -> isFull q = false -> fe_dequeueTickValid e = false ->
  cdc_inv n (cdc_push q e) /\ (nz (length (fifo q)) <? n) = true
  /\ cdc_items (cdc_push q e) = cdc_items q ++ [(fe_data e, fe_responseInfo e)].
Proof.
  intros Hn (Hm & Hv & Hl) Hf He. rewrite (isFull_bound n) in Hf by done. bool_hyps.
  unfold cdc_inv, cdc_items, cdc_push; simpl. split_and!; simpl.
  - done.
  - by apply Forall_app; split; [|constructor].
  - rewrite length_app. simpl. lia.
  - by apply Z.ltb_lt.
  - by rewrite fmap_app.
Qed.

Lemma cdc_step_refines n q op :
  0 <= n < 2^31 -> cdc_inv n q ->
  let r := cdc_step q op in
  (r.1, cdc_items r.2) = spec_step n (cdc_items q) op /\ cdc_inv n r.2.
Proof.
  intros Hn Hinv. pose proof Hinv as (Hm & Hv & Hl).
  assert (Hlen : length (cdc_items q) = length (fifo q)) by apply length_fmap.
  destruct op as [d t|d ri t|t|t|t| | |]; simpl.
  1, 2: unfold enqueue, enqueueResp, spec_enqueue; rewrite Hlen;
    destruct (isFull q) eqn:Hf; simpl;
    [ rewrite (isFull_bound n) in Hf by done; bool_hyps;
      by rewrite (proj2 (Z.ltb_ge _ _)) by lia
    | match goal with Hn : 0 <= _ < 2^31, Hi : cdc_inv _ _, Hf : isFull _ = false
                        |- context [cdc_push _ ?e] =>
        destruct (cdc_push_inv _ _ e Hn Hi Hf eq_refl) as (H1 & -> & ->); done end ].
  all: unfold dequeue, canDequeueToNoC, peekFrontState, peekResponseInfo, isEmpty,
         canDequeueToNoC, cdc_items, cdc_inv;
    rewrite ?(isFull_bound n), ?length_fmap by done;
    destruct (fifo q) as [|e l] eqn:Eq; simpl;
    [|apply Forall_cons in Hv as [He Hv]; unfold cdc_gated; rewrite ?He; simpl];
    rewrite ?Eq; simpl in *; split_and!; try done; try lia; by constructor.
Qed.

(** Under any sequence of operations, and whatever the ticks they are called
    with, a CDC queue built with capacity [n] answers exactly as a list bounded by
    [n]: states leave in the order they entered with their response information,
    an enqueue is refused exactly when [n] states wait, and a waiting state can
    always be taken at once.  In particular no queue reached through its own
    operations applies the crossing delay that [canDequeueToNoC] documents. *)
Theorem cdc_refines_bounded_fifo n ops :
  0 <= n < 2^31 ->
  let r := run cdc_step (newCDCQueue n) ops in
  (r.1, cdc_items r.2) = run (spec_step n) [] ops /\ nz (length (fifo r.2)) <= n.
Proof.
  intros Hn.
  enough (forall q, cdc_inv n q -> let r := run cdc_step q ops in
            (r.1, cdc_items r.2) = run (spec_step n) (cdc_items q) ops /\ cdc_inv n r.2) as H.
  { destruct (H (newCDCQueue n)) as [H1 (_ & _ & H2)]; [|done].
    unfold cdc_inv; simpl. split_and!; [done|constructor|lia]. }
  induction ops as [|op ops IH]; intros q Hq; [done|]. simpl.
  destruct (cdc_step_refines n q op Hn Hq) as [E Hq']. simpl in E. rewrite <- E. simpl.
  destruct (IH _ Hq') as [E' Hq'']. simpl in E'. rewrite <- E'. done.
Qed.

(** ** Restoring a queue *)

Definition int_range (z : Z) : Prop := - 2^31 <= z < 2^31.

Record ri_typed (ri : ResponseInfo) : Prop := {
  rit_id : is_u32 (ri_id ri);
  rit_delay : is_u64 (ri_delay ri);
  rit_src : is_u32 (ri_src ri);
  rit_bytes : Forall is_u8 (ri_dataBytes ri);
  rit_tdest : int_range (ri_tdest ri)
}.

(** A state of the AXI-Stream side, with members in the range of their types. *)
Definition axis_state_typed (s : State) : Prop :=
  match st_body s with
  | SAxisSlave _ => True
  | SAxisMaster a => axisData_typed (ams_data a)
  | _ => False
  end.

Record axis_entry_typed (e : FIFOEntry) : Prop := {
  aet_data : exists s, fe_data e = Some s /\ axis_state_typed s;
  aet_ri : match fe_responseInfo e with Some ri => ri_typed ri | None => True end;
  aet_enq : is_u64 (fe_enqueueTick e);
  aet_deq : is_u64 (fe_dequeueTick e)
}.

(** The restored state: no debug id, and the low byte of TUSER. *)
Definition state_restored (s : State) : State :=
  new_State match st_body s with
            | SAxisMaster a =>
                SAxisMaster {| ams_data := axis_restored (ams_data a);
                               ams_ni_tready := ams_ni_tready a;
                               ams_cdc_enqueue_ready := ams_cdc_enqueue_ready a;
                               ams_node_input_tready := ams_node_input_tready a |}
            | b => b
            end.

Definition entry_restored (e : FIFOEntry) : FIFOEntry :=
  {| fe_data := state_restored <$> fe_data e; fe_responseInfo := fe_responseInfo e;
     fe_enqueueTick := fe_enqueueTick e; fe_dequeueTick := fe_dequeueTick e;
     fe_dequeueTickValid := fe_dequeueTickValid e; fe_sampled := fe_sampled e |}.

Definition cdc_restored (q : CDCQueue) : CDCQueue :=
  {| maxSize := maxSize q; fifo := entry_restored <$> fifo q |}.

Lemma ri_restore cp sec ri :
  holds cp sec (serialize_ri ri) -> ri_typed ri -> unserialize_ri cp sec = Ok ri.
Proof.
  intros H []. unfold is_u32, is_u64, int_range in *. unfold unserialize_ri.
  pose proof (Forall_u8_bytes _ rit_bytes0).
  assert (rtype_of_int (int_of_rtype (ri_type ri)) = Ok (ri_type ri)
          /\ 0 <= int_of_rtype (ri_type ri) <= 2) as [Ht ?]
    by (destruct (ri_type ri); simpl; split; (done || lia)).
  do 3 cp_read H. rewrite Ht. cbn [rbind]. do 6 cp_read H. by destruct ri.
Qed.

Lemma state_restore cp sec s :
  axis_state_typed s -> agrees cp sec (LSection sec :: state_lines sec s) ->
  unserialize_state cp sec = Ok (state_restored s).
Proof.
  intros Ht Hag. unfold axis_state_typed in Ht. unfold unserialize_state, state_restored.
  unfold state_lines in Hag. destruct (st_body s) as [tready|a| |]; [..|done|done].
  - assert (H := agrees_holds _ _ _ Hag ltac:(by repeat constructor)).
    by do 2 cp_read H.
  - assert (H : holds cp sec (paramOut p_string "kind" "axisMasterState")).
    { intros n v Hv. rewrite (agrees_entry _ _ _ n Hag); [exact Hv|].
      simpl. constructor; [apply sub_ne|by repeat constructor]. }
    cp_read H.
    rewrite app_comm_cons in Hag.
    apply agrees_last in Hag; [|repeat constructor; apply sub_not_suffix].
    assert (H' := agrees_holds _ _ _ Hag ltac:(by repeat constructor)).
    erewrite axisData_restore; [|..]; [|by eapply holds_app; [done| |exact H']|done].
    cbn [rbind]. do 3 cp_read H'. done.
Qed.

Lemma state_lines_under sec s : Forall (under sec) (state_lines sec s).
Proof.
  unfold state_lines. destruct (st_body s); repeat (apply Forall_app_2 || apply paramOut_under);
    unfold scoped, serialize_axisData, serialize_aximmRWData, serialize_aximmRWAddr,
      serialize_aximmWResp; simpl;
    repeat constructor; simpl; solve [by repeat apply suffix_cons_r].
Qed.

Lemma ename_inj : Inj (=) (=) ename.
Proof.
  intros i j E. unfold ename in E. apply (inj (String.append "e")) in E.
  apply (inj pretty) in E. lia.
Qed.

(** The five value lines an entry starts with. *)
Definition entry_head (e : FIFOEntry) : list line :=
  paramOut p_u64 "enqueueTick" (fe_enqueueTick e) ++
  paramOut p_u64 "dequeueTick" (fe_dequeueTick e) ++
  paramOut p_bool "dequeueTickValid" (fe_dequeueTickValid e) ++
  paramOut p_bool "sampled" (fe_sampled e) ++
  paramOut p_bool "hasResponseInfo"
    match fe_responseInfo e with Some _ => true | None => false end.

Definition entry_ri (sec : section) (e : FIFOEntry) : list line :=
  match fe_responseInfo e with
  | Some ri => scoped sec "responseInfo" (fun _ => serialize_ri ri)
  | None => []
  end.

Definition entry_lines (sec : section) (e : FIFOEntry) (s : State) : list line :=
  entry_head e ++ entry_ri sec e ++ scoped sec "state" (fun sec1 => state_lines sec1 s).

Lemma serialize_entry_lines sec e s :
  fe_data e = Some s ->
  serialize_entry sec e
  = Ok (entry_lines sec e s).
Proof. intros E. unfold serialize_entry. rewrite E. done. Qed.

Lemma entry_ri_under sec e : Forall (under ("responseInfo" :: sec)) (entry_ri sec e).
Proof.
  unfold entry_ri. destruct (fe_responseInfo e); [|done]. apply scoped_under.
  by repeat constructor.
Qed.

Lemma entry_lines_under sec e s :
  Forall (under sec) (entry_lines sec e s).
Proof.
  repeat apply Forall_app_2.
  1-5: apply paramOut_under.
  - eapply under_weaken, entry_ri_under.
  - eapply under_weaken. apply scoped_under, state_lines_under.
Qed.

Lemma entry_state_agrees cp sec e s :
  agrees cp sec (LSection sec :: entry_lines sec e s) ->
  agrees cp ("state" :: sec) (LSection ("state" :: sec) :: state_lines ("state" :: sec) s).
Proof.
  intros Hag.
  apply (agrees_last cp sec "state" (LSection sec :: entry_head e ++ entry_ri sec e)
           (fun sec1 => state_lines sec1 s)).
  - by rewrite <- app_comm_cons, <- app_assoc.
  - constructor; [apply sub_not_suffix|]. apply Forall_app_2; [by repeat constructor|].
    eapply under_outside; [|apply entry_ri_under]. done.
Qed.

Lemma entry_restore cp sec e s :
  fe_data e = Some s -> axis_entry_typed e ->
  agrees cp sec (LSection sec :: entry_lines sec e s) ->
  unserialize_entry cp sec = Ok (entry_restored e).
Proof.
  intros Hs [(s' & Hs' & Hts) Hri Het Hdt] Hag. rewrite Hs in Hs'. injection Hs' as <-.
  assert (H : holds cp sec (entry_head e)).
  { intros n v Hv. rewrite (agrees_entry _ _ _ n Hag).
    - unfold entry_lines. rewrite findEntry_app by done. rewrite Hv. unfold entry_ri.
      by destruct (fe_responseInfo e).
    - change (Forall (not_header sec)
        (after_entries (entry_ri sec e ++ scoped sec "state" (fun sec1 => state_lines sec1 s)))).
      replace (after_entries _) with (entry_ri sec e ++
        scoped sec "state" (fun sec1 => state_lines sec1 s))
        by (unfold entry_ri; by destruct (fe_responseInfo e)).
      apply Forall_app_2; [eapply under_not_header, entry_ri_under|].
      eapply under_not_header, scoped_under, state_lines_under. }
  pose proof (entry_state_agrees _ _ _ _ Hag) as Hst.
  unfold unserialize_entry, is_u64 in *. do 5 cp_read H.
  rewrite (state_restore _ _ _ Hts Hst). unfold entry_restored. rewrite Hs.
  destruct (fe_responseInfo e) as [ri|] eqn:Er; [|done].
  erewrite ri_restore; [done| |exact Hri].
  apply agrees_holds; [|by repeat constructor].
  unfold entry_lines, entry_ri in Hag. rewrite Er in Hag. rewrite app_comm_cons in Hag.
  apply (agrees_sub _ _ _ _ _ _) in Hag; [done|..|done].
  - constructor; [apply sub_not_suffix|by repeat constructor].
  - by eapply under_outside; [|apply scoped_under, state_lines_under].
Qed.

(** The lines of the entries of a queue none of whose states is null. *)
Definition entry_body (sec : section) (i : nat) (e : FIFOEntry) : list line :=
  match fe_data e with Some s => entry_lines (ename i :: sec) e s | None => [] end.

Definition cdc_head (q : CDCQueue) : list line :=
  paramOut p_int "maxSize" (maxSize q) ++ paramOut p_u64 "fifo_size" (nz (length (fifo q))).

Definition no_null (q : CDCQueue) : Prop := Forall (fun e => is_Some (fe_data e)) (fifo q).

Lemma cdc_serialize_lines sec q :
  no_null q ->
  cdc_serialize sec q
  = Ok (cdc_head q ++ indexed sec ename 0 (imap (entry_body sec) (fifo q))).
Proof.
  intros Hn. unfold cdc_serialize.
  rewrite (mapM_zip_seq _ (entry_body sec)); [done|]. intros k e Hk. simpl.
  destruct (Forall_lookup_1 _ _ _ _ Hn Hk) as [s Hs].
  rewrite (serialize_entry_lines _ _ s) by done. unfold entry_body. by rewrite Hs.
Qed.

Lemma cdc_bodies_ok sec q : indexed_ok sec ename 0 (imap (entry_body sec) (fifo q)).
Proof.
  intros k b Hb. apply list_lookup_imap_Some in Hb as (e & He & ->).
  unfold entry_body. destruct (fe_data e); [apply entry_lines_under|done].
Qed.

(** A checkpoint the queue was written to. *)
Definition cdc_written (cp : checkpoint) (sec : section) (q : CDCQueue) : Prop :=
  exists ls, cdc_serialize sec q = Ok ls /\ written cp sec ls.

Lemma cdc_written_agrees cp sec q :
  no_null q -> cdc_written cp sec q ->
  agrees cp sec (LSection sec :: cdc_head q ++ indexed sec ename 0 (imap (entry_body sec) (fifo q))).
Proof.
  intros Hn (ls & Hs & Hw). rewrite cdc_serialize_lines in Hs by done. injection Hs as <-.
  by apply written_agrees.
Qed.

Lemma cdc_entry_agrees cp sec q k e s :
  no_null q -> cdc_written cp sec q -> fifo q !! k = Some e -> fe_data e = Some s ->
  agrees cp (ename k :: sec) (LSection (ename k :: sec) :: entry_lines (ename k :: sec) e s).
Proof.
  intros Hn Hw Hk Hs.
  apply (indexed_agrees cp sec ename 0 (cdc_head q) (imap (entry_body sec) (fifo q)) k).
  - apply ename_inj.
  - apply cdc_bodies_ok.
  - rewrite list_lookup_imap, Hk. simpl. unfold entry_body. by rewrite Hs.
  - by repeat constructor.
  - by apply cdc_written_agrees.
Qed.

Lemma cdc_head_holds cp sec q :
  no_null q -> cdc_written cp sec q -> holds cp sec (cdc_head q).
Proof.
  intros Hn Hw. eapply indexed_holds; [by apply cdc_written_agrees|apply cdc_bodies_ok|done].
Qed.

Lemma axis_no_null q : Forall axis_entry_typed (fifo q) -> no_null q.
Proof. intros H. apply (Forall_impl _ _ _ H). intros e [(s & -> & _) _ _ _]. eauto. Qed.

(** A CDC queue that carries AXI-Stream states is restored from a checkpoint it
    was written to: same capacity, same entries in the same order, with their ticks
    and response information.  What is lost is each state's debug id and, of each
    beat, the bits of TUSER above the low byte. *)
Theorem cdc_checkpoint_axis cp sec q :
  Forall axis_entry_typed (fifo q) -> int_range (maxSize q) ->
  nz (length (fifo q)) < 2^31 -> cdc_written cp sec q ->
  cdc_unserialize cp sec = Ok (cdc_restored q).
Proof.
  intros Ht Hm Hl Hw. pose proof (axis_no_null q Ht) as Hn.
  pose proof (cdc_head_holds _ _ _ Hn Hw) as H. unfold cdc_unserialize, int_range in *.
  do 2 cp_read H. rewrite Nat2Z.id, <- (length_fmap entry_restored).
  rewrite mapM_seq; [done|]. intros k e Hk.
  apply list_lookup_fmap_Some in Hk as (e' & -> & Hk).
  pose proof (Forall_lookup_1 _ _ _ _ Ht Hk) as Hte.
  pose proof (aet_data _ Hte) as (s & Hs & _).
  apply (entry_restore _ _ _ s); [done..|]. by eapply cdc_entry_agrees.
Qed.

(** ** States of the memory-mapped side *)

Definition is_mm_state (s : State) : Prop :=
  match st_body s with SAximmSlave _ | SAximmMaster _ => True | _ => False end.

Lemma state_lines_not_header sec s p :
  sec `suffix_of` p -> (length p <= S (length sec))%nat ->
  p <> sec -> p <> "axisData" :: sec -> p <> "r" :: sec -> p <> "ar" :: sec ->
  Forall (not_header p) (LSection sec :: state_lines sec s).
Proof.
  intros Hs Hl H0 H1 H2 H3. constructor; [simpl; congruence|].
  unfold state_lines, scoped. destruct (st_body s); repeat constructor; simpl; try congruence.
  all: intros <-; simpl in Hl; lia.
Qed.

(** A restored state of the memory-mapped side would need a section that is never
    written: [b] is looked for beside [r], [aw] beside [ar]. *)
Lemma mm_state_not_restored cp sec s s' :
  is_mm_state s -> agrees cp sec (LSection sec :: state_lines sec s) ->
  unserialize_state cp sec <> Ok s'.
Proof.
  intros Hmm Hag H. unfold is_mm_state in Hmm.
  set (kind := match st_body s with
               | SAximmSlave _ => "aximmSlaveState" | _ => "aximmMasterState" end).
  assert (Hkind : paramIn p_string cp sec "kind" = Ok kind).
  { apply (paramIn_some _ _ _ _ (VStr kind)); [|done]. rewrite (agrees_entry _ _ _ "kind" Hag).
    - unfold state_lines, kind. by destruct (st_body s).
    - unfold state_lines. destruct (st_body s); [done..| |];
        simpl; unfold scoped; repeat constructor; simpl;
        intros E; apply (f_equal length) in E; simpl in E; lia. }
  assert (Habs : forall a T (P : param T) n x, a <> "axisData" -> a <> "r" -> a <> "ar" ->
            paramIn P cp (a :: sec) n <> Ok x).
  { intros a T P n x ???. eapply paramIn_absent; [exact Hag|by apply suffix_cons_r|].
    apply state_lines_not_header; simpl; try congruence; try lia; [by apply suffix_cons_r|].
    apply sub_ne. }
  unfold unserialize_state in H. rewrite Hkind in H. cbn [rbind] in H.
  unfold kind in H. destruct (st_body s); [done..| |]; simpl in H; inv_ok.
  - unfold unserialize_aximmWResp in *. inv_ok. by eapply Habs; [..|eassumption].
  - unfold unserialize_aximmRWAddr in *. inv_ok. by eapply Habs; [..|eassumption].
Qed.

(** A CDC queue that holds a memory-mapped state cannot be restored: whatever
    checkpoint it was written to, reading it back stops the simulation, because
    [serialize_state] nests the sections of the later channels inside that of the
    first one while [unserialize_state] looks for them side by side. *)
Theorem cdc_checkpoint_mm_lost cp sec q k e s :
  no_null q -> fifo q !! k = Some e -> fe_data e = Some s -> is_mm_state s ->
  nz (length (fifo q)) < 2^31 -> cdc_written cp sec q ->
  is_ok (cdc_unserialize cp sec) = false.
Proof.
  intros Hn Hk Hs Hmm Hl Hw. pose proof (cdc_head_holds _ _ _ Hn Hw) as Hh.
  destruct (cdc_unserialize cp sec) as [r|] eqn:H; [exfalso|done].
  unfold cdc_unserialize in H. apply rbind_Ok in H as (ms & _ & H).
  revert H. cp_read Hh. intros H. inv_ok.
  edestruct (mapM_Ok_each _ _ _ k Ha) as [y Hy].
  { rewrite Nat2Z.id. apply elem_of_seq. apply lookup_lt_Some in Hk. lia. }
  unfold unserialize_entry in Hy. inv_ok.
  eapply mm_state_not_restored; [exact Hmm| |eassumption].
  eapply entry_state_agrees, cdc_entry_agrees; done.
Qed.

(** *** Instances *)

Definition ex_ri : ResponseInfo :=
  {| ri_responseEnd := true; ri_dataValid := false; ri_type := RT_READ; ri_id := 3;
     ri_delay := 4; ri_src := 2; ri_dataBytes := [1; 2]; ri_tlast := true; ri_tdest := -1 |}.

Definition ex_axis_state : State :=
  {| st_debugId := 7;
     st_body := SAxisMaster
       {| ams_data := set_sideband 1 2 0x1ff (axisData_of_width 32 6 4);
          ams_ni_tready := true; ams_cdc_enqueue_ready := false;
          ams_node_input_tready := true |} |}.

Definition ex_mm_state : State :=
  new_State (SAximmMaster
    {| mms_ar := aximmRWAddr_default; mms_rReady := true; mms_aw := aximmRWAddr_default;
       mms_w := aximmRWData_default; mms_bReady := true; mms_cdc_enqueue_ready := false |}).

Definition ex_queue (s : State) : CDCQueue :=
  (enqueueResp (enqueue (newCDCQueue 4) (Some s) 10).2 (Some (new_State (SAxisSlave true)))
     ex_ri 12).2.

Definition ex_cp (s : State) : checkpoint :=
  match cdc_serialize ["cdc"] (ex_queue s) with
  | Ok ls => iniLoad ([LEntry "version" (VNum 1)] ++ (LSection ["cdc"] :: ls)
                      ++ [LSection ["root"]; LEntry "tick" (VNum 5)])
  | Err _ => ∅
  end.

Lemma ex_cp_written s : cdc_written (ex_cp s) ["cdc"] (ex_queue s).
Proof.
  unfold ex_cp. destruct (cdc_serialize ["cdc"] (ex_queue s)) as [ls|] eqn:E.
  - exists ls. split; [done|]. eexists _, _.
    split_and!; [reflexivity|by repeat constructor| |done].
    repeat constructor. simpl. intros [l El]. destruct l as [|? l]; [done|].
    by destruct l.
  - rewrite cdc_serialize_lines in E; [done|]. by repeat constructor.
Qed.

Lemma cdc_refines_bounded_fifo_witness :
  let ops := [OEnqueue (Some ex_axis_state) 5; OEnqueue (Some ex_mm_state) 6; OIsFull;
              OEnqueue None 7; ODequeue 0; OPeekState 0] in
  let r := run cdc_step (newCDCQueue 2) ops in
  (r.1, cdc_items r.2) = run (spec_step 2) [] ops /\ nz (length (fifo r.2)) <= 2.
Proof. apply cdc_refines_bounded_fifo. lia. Defined.

Lemma cdc_checkpoint_axis_witness :
  cdc_unserialize (ex_cp ex_axis_state) ["cdc"] = Ok (cdc_restored (ex_queue ex_axis_state)).
Proof.
  apply cdc_checkpoint_axis; [|done|done|apply ex_cp_written].
  repeat constructor; try (by vm_compute); try done;
    try (eexists; split; [reflexivity|]; repeat constructor; by vm_compute).
Defined.

Lemma cdc_checkpoint_mm_lost_witness :
  is_ok (cdc_unserialize (ex_cp ex_mm_state) ["cdc"]) = false.
Proof.
  eapply (cdc_checkpoint_mm_lost _ _ (ex_queue ex_mm_state) 0);
    [|reflexivity|reflexivity|done|done|apply ex_cp_written].
  by repeat constructor.
Defined.
