(* ===== verification/WriteCheckpoint.v ===== *)
(** * Checkpoints of the write structures

    [serialize] and [unserialize] of the three structures of
    [src/src/noc/lib/axi/WriteStructs.cc]: the write tracker, the AXI-Stream write
    buffer and the AXI-MM write buffer. *)

From stdpp Require Import pretty.
From S2P Require Import Prelude AxiTypes Checkpoint AxiCheckpoint.
From S2P Require Import WriteTracker MmWriteBuffer AxisWriteBuffer.

(** [csprintf("<prefix>%u", i)] *)
Definition numbered (prefix : string) (i : nat) : string :=
  String.append prefix (pretty (N.of_nat i)).

#[export] Instance numbered_inj prefix : Inj (=) (=) (numbered prefix).
Proof.
  intros i j E. unfold numbered in E. apply (inj (String.append prefix)) in E.
  apply (inj pretty) in E. lia.
Qed.

(** ** Write tracker *)

Definition serialize_wtEntry (e : WriteTrackerEntry) : list line :=
  paramOut p_u16 "destID" (wt_destID e) ++
  paramOut p_u16 "numOutstandingResponses" (wt_numOutstandingResponses e) ++
  paramOut p_bool "receivedSLVERR" (wt_receivedSLVERR e) ++
  paramOut p_int "vc" (wt_vc e).

Definition unserialize_wtEntry (cp : checkpoint) (sec : section) : res WriteTrackerEntry :=
  let* destID := paramIn p_u16 cp sec "destID" in
  let* numOut := paramIn p_u16 cp sec "numOutstandingResponses" in
  let* slv := paramIn p_bool cp sec "receivedSLVERR" in
  let* vc := paramIn p_int cp sec "vc" in
  let e := newWriteTrackerEntry destID numOut vc in
  Ok {| wt_destID := wt_destID e;
        wt_numOutstandingResponses := wt_numOutstandingResponses e;
        wt_receivedSLVERR := slv; wt_vc := wt_vc e |}.

(** The keys of the map, sorted. *)
Definition wt_keys (t : WriteTracker) : list Z :=
  merge_sort Z.le (map_to_list (writeTrackerMap t)).*1.

Definition serialize_wtKey (t : WriteTracker) (sec : section) (axi_id : Z) : list line :=
  let dq := wt_queue t axi_id in
  paramOut p_u64 "axiId" axi_id ++
  paramOut p_u64 "dequeSize" (nz (length dq)) ++
  indexed sec (numbered "wtE") 0 (serialize_wtEntry <$> dq).

Definition wt_serialize (sec : section) (t : WriteTracker) : list line :=
  let keys := wt_keys t in
  paramOut p_u64 "numAxiWrites" (numAxiWrites t) ++
  paramOut p_u64 "numKeys" (nz (length keys)) ++
  indexed sec (numbered "wtKey") 0
    (imap (fun ki k => serialize_wtKey t (numbered "wtKey" ki :: sec) k) keys).

Definition unserialize_wtKey (cp : checkpoint) (sec : section)
    : res (Z * list WriteTrackerEntry) :=
  let* axi_id := paramIn p_u64 cp sec "axiId" in
  let* dqs := paramIn p_u64 cp sec "dequeSize" in
  let* dq := mapM (fun i => unserialize_wtEntry cp (numbered "wtE" i :: sec)) (seq 0 (zn dqs)) in
  Ok (u8 axi_id, dq).

(** The sizes are summed after the map is filled; the saved count is discarded. *)
Definition wt_unserialize (cp : checkpoint) (sec : section) : res WriteTracker :=
  let* num_ax_discard := paramIn p_u64 cp sec "numAxiWrites" in
  let* nk := paramIn p_u64 cp sec "numKeys" in
  let* kvs := mapM (fun ki => unserialize_wtKey cp (numbered "wtKey" ki :: sec)) (seq 0 (zn nk)) in
  let m := foldl (fun m kv => <[kv.1 := kv.2]> m) ∅ kvs in
  let sum := total_length m in
  guard (sum <=? 255) (FFatal "WriteTracker::unserialize: too many outstanding writes")
    (Ok {| writeTrackerMap := m; numAxiWrites := u8 sum |}).

(** ** AXI-Stream write buffer *)

Section Ports.

(** An output port is known by a number; [routerID] is [OutputPort::routerID]. *)
Context (routerID : Z -> Z).

Definition portRouter (oPort : option Z) : Z :=
  match oPort with Some p => routerID p | None => -1 end.

(** The first port of the list (null pointers skipped) with this router. *)
Definition findPort (outPorts : list (option Z)) (router_id : Z) : option Z :=
  if 0 <=? router_id
  then head (filter (fun p => routerID p = router_id) (omap id outPorts))
  else None.

Definition serialize_awEntry (sec : section) (e : axisWriteBufferEntry) : list line :=
  paramOut p_u64 "numTotalBytes" (aw_numTotalBytes e) ++
  paramOut p_u64 "numBytesRemaining" (aw_numBytesRemaining e) ++
  paramOut p_i64 "debugId" (aw_debugId e) ++
  paramOut p_int "vc" (aw_vc e) ++
  paramOut p_int "oPortRouterId" (portRouter (aw_oPort e)) ++
  scoped sec "nppData" (fun _ => serialize_axisData (aw_nppData e)).

Definition tlastLines (l : list Z) : list line :=
  concat (imap (fun i p => paramOut p_int (numbered "tlastPos" i) p) l).

(** [maxBeatSize] always holds 512 and is read by nothing else. *)
Definition aw_serialize (sec : section) (w : axisWriteBuffer) : list line :=
  paramOut p_u64 "axisChopBytes" NPP_SIZE ++
  paramOut p_u16 "maxBeatSize" 512 ++
  paramOut p_u16 "bufferSize" (aw_bufferSize w) ++
  paramOut p_int "currTid" (currTid w) ++
  paramOut p_int "currTdest" (currTdest w) ++
  paramOut p_bool "transmitting" (transmitting w) ++
  paramOut p_int "nextDequeuePos" (nextDequeuePos w) ++
  paramOut p_u64 "tlastPositionsSize" (nz (length (tlastPositions w))) ++
  paramOut p_u64 "writeBufferSize" (nz (length (aw_writeBuffer w))) ++
  tlastLines (tlastPositions w) ++
  indexed sec (numbered "e") 0
    (imap (fun i e => serialize_awEntry (numbered "e" i :: sec) e) (aw_writeBuffer w)).

Definition unserialize_awEntry (cp : checkpoint) (outPorts : list (option Z)) (sec : section)
    : res axisWriteBufferEntry :=
  let* ntb := paramIn p_u64 cp sec "numTotalBytes" in
  let* nbr := paramIn p_u64 cp sec "numBytesRemaining" in
  let* dbg := paramIn p_i64 cp sec "debugId" in
  let* vc := paramIn p_int cp sec "vc" in
  let* router_id := paramIn p_int cp sec "oPortRouterId" in
  let* d := unserialize_axisData cp ("nppData" :: sec) in
  Ok {| aw_numTotalBytes := u8 ntb; aw_nppData := d; aw_numBytesRemaining := u16 nbr;
        aw_debugId := s32 dbg; aw_vc := vc; aw_oPort := findPort outPorts router_id |}.

Definition aw_unserialize (cp : checkpoint) (outPorts : list (option Z)) (sec : section)
    : res axisWriteBuffer :=
  let chop := optParamIn p_u64 cp sec "axisChopBytes" 256 in
  let* mbs := paramIn p_u16 cp sec "maxBeatSize" in
  let* bs := paramIn p_u16 cp sec "bufferSize" in
  let* ctid := paramIn p_int cp sec "currTid" in
  let* ctdest := paramIn p_int cp sec "currTdest" in
  let* tr := paramIn p_bool cp sec "transmitting" in
  let* ndp := paramIn p_int cp sec "nextDequeuePos" in
  guard ((chop =? NPP_SIZE) || (bs =? 0))
    (FFatal "Cannot restore pending AXIS bytes with a different chop size") (
  let* tls := paramIn p_u64 cp sec "tlastPositionsSize" in
  let* tps := mapM (fun i => paramIn p_int cp sec (numbered "tlastPos" i)) (seq 0 (zn tls)) in
  let* wbs := paramIn p_u64 cp sec "writeBufferSize" in
  let* es := mapM (fun i => unserialize_awEntry cp outPorts (numbered "e" i :: sec))
                  (seq 0 (zn wbs)) in
  Ok {| aw_writeBuffer := es; aw_bufferSize := bs; currTid := ctid; currTdest := ctdest;
        transmitting := tr; tlastPositions := tps; nextDequeuePos := ndp |}).

(** ** AXI-MM write buffer

    The copies of the payload helpers this file's source uses are those of
    [AxiCheckpoint]. *)

(** The lines of one entry.  The section of [nppRequest] is closed before
    [numEmptyBytes] is written and those of the data beats before [beatIdx] is. *)
Definition serialize_wbEntry (sec : section) (ent : aximmWriteBufferEntry) : list line :=
  paramOut p_u64 "axiBeatSize" (wb_axiBeatSize ent) ++
  scoped sec "nppRequest" (fun _ => serialize_aximmRWAddr (wb_nppRequest ent)) ++
  paramOut p_u16 "numEmptyBytes" (wb_numEmptyBytes ent) ++
  indexed sec (numbered "nppData") 0 (serialize_aximmRWData <$> wb_nppData ent) ++
  paramOut p_u64 "beatIdx" (wb_beatIdx ent) ++
  paramOut p_u64 "beatOffset" (wb_beatOffset ent) ++
  paramOut p_bool "SSIDMet" (wb_SSIDMet ent) ++
  paramOut p_int "vc" (wb_vc ent) ++
  paramOut p_int "oPortRouterId" (portRouter (wb_oPort ent)) ++
  paramOut p_bool "isDecErr" (wb_isDecErr ent) ++
  paramOut p_u64 "creationTick" (wb_creationTick ent) ++
  paramOut p_u64 "pipelineEndTick" (wb_pipelineEndTick ent) ++
  paramOut p_u64 "lastBeatTick" (wb_lastBeatTick ent) ++
  paramOut p_int "probeDebugId" (wb_probeDebugId ent).

Definition wb_serialize (sec : section) (b : aximmWriteBuffer) : list line :=
  paramOut p_u16 "bufferSize" (bufferSize b) ++
  paramOut p_u64 "writeBufferSize" (nz (length (writeBuffer b))) ++
  indexed sec (numbered "wbe") 0
    (imap (fun i ent => serialize_wbEntry (numbered "wbe" i :: sec) ent) (writeBuffer b)).

Definition unserialize_wbEntry (cp : checkpoint) (outPorts : list (option Z)) (sec : section)
    : res aximmWriteBufferEntry :=
  let* abs := paramIn p_u64 cp sec "axiBeatSize" in
  let* req := unserialize_aximmRWAddr cp ("nppRequest" :: sec) in
  let* neb := paramIn p_u16 cp sec "numEmptyBytes" in
  let* data := mapM (fun b => unserialize_aximmRWData cp (numbered "nppData" b :: sec)) (seq 0 4) in
  let* bi := paramIn p_u64 cp sec "beatIdx" in
  let* bo := paramIn p_u64 cp sec "beatOffset" in
  let* met := paramIn p_bool cp sec "SSIDMet" in
  let* vc := paramIn p_int cp sec "vc" in
  let* router_id := paramIn p_int cp sec "oPortRouterId" in
  let* dec := paramIn p_bool cp sec "isDecErr" in
  let* ct := paramIn p_u64 cp sec "creationTick" in
  let* pt := paramIn p_u64 cp sec "pipelineEndTick" in
  let* lt := paramIn p_u64 cp sec "lastBeatTick" in
  let* dbg := paramIn p_int cp sec "probeDebugId" in
  Ok {| wb_axiBeatSize := u8 abs; wb_nppRequest := req; wb_numEmptyBytes := neb;
        wb_nppData := data; wb_beatIdx := u8 bi; wb_beatOffset := u8 bo; wb_SSIDMet := met;
        wb_vc := vc; wb_oPort := findPort outPorts router_id; wb_isDecErr := dec;
        wb_creationTick := ct; wb_pipelineEndTick := pt; wb_lastBeatTick := lt;
        wb_probeDebugId := dbg |}.

Definition wb_unserialize (cp : checkpoint) (outPorts : list (option Z)) (sec : section)
    : res aximmWriteBuffer :=
  let* bs := paramIn p_u16 cp sec "bufferSize" in
  let* wbs := paramIn p_u64 cp sec "writeBufferSize" in
  let* es := mapM (fun i => unserialize_wbEntry cp outPorts (numbered "wbe" i :: sec))
                  (seq 0 (zn wbs)) in
  Ok {| writeBuffer := es; bufferSize := bs |}.

End Ports.

(** ** The write tracker is restored *)

Record wt_entry_typed (e : WriteTrackerEntry) : Prop := {
  wtt_dest : is_u16 (wt_destID e);
  wtt_out : is_u16 (wt_numOutstandingResponses e);
  wtt_vc : - 2^31 <= wt_vc e < 2^31
}.

Definition wt_typed (t : WriteTracker) : Prop :=
  is_u8 (numAxiWrites t) /\
  forall i q, writeTrackerMap t !! i = Some q -> is_u8 i /\ Forall wt_entry_typed q.

Lemma wtEntry_restore cp sec e :
  holds cp sec (serialize_wtEntry e) -> wt_entry_typed e -> unserialize_wtEntry cp sec = Ok e.
Proof.
  intros H []. unfold is_u16 in *. unfold unserialize_wtEntry. do 4 cp_read H. by destruct e.
Qed.

Lemma fmap_entries_ok {A} sec nm i (f : A -> list line) (l : list A) :
  (forall x, after_entries (f x) = []) -> indexed_ok sec nm i (f <$> l).
Proof.
  intros Hf k b Hb. apply list_lookup_fmap_Some in Hb as (x & -> & Hx). by apply entries_under.
Qed.

Lemma wtKey_restore cp sec t i q :
  agrees cp sec (LSection sec :: serialize_wtKey t sec i) ->
  writeTrackerMap t !! i = Some q -> is_u8 i -> Forall wt_entry_typed q ->
  nz (length q) < 2^64 -> unserialize_wtKey cp sec = Ok (i, q).
Proof.
  intros Hag Hq Hi Ht Hl. unfold serialize_wtKey in Hag.
  rewrite (wt_queue_lookup _ _ _ Hq) in Hag.
  assert (Hok : indexed_ok sec (numbered "wtE") 0 (serialize_wtEntry <$> q))
    by (by apply fmap_entries_ok).
  rewrite app_assoc in Hag.
  assert (H := indexed_holds _ _ _ _ _ _ Hag Hok eq_refl).
  unfold unserialize_wtKey, is_u8 in *. do 2 cp_read H. rewrite Nat2Z.id.
  rewrite mapM_seq; [simpl; by rewrite u8_small by lia|]. intros k e Hk.
  apply wtEntry_restore; [|by eapply Forall_lookup_1].
  apply agrees_holds; [|by repeat constructor].
  eapply (indexed_agrees cp sec (numbered "wtE") 0 _ _ k);
    [| | | |exact Hag];
    [apply _|exact Hok|by rewrite list_lookup_fmap, Hk|by apply entries_outside].
Qed.

Lemma foldl_insert_lookup {A} (kvs : list (Z * A)) (m : gmap Z A) i :
  NoDup kvs.*1 ->
  foldl (fun m kv => <[kv.1 := kv.2]> m) m kvs !! i
  = match (list_to_map kvs : gmap Z A) !! i with Some x => Some x | None => m !! i end.
Proof.
  revert m; induction kvs as [|[k v] kvs IH]; intros m Hnd; [simpl; by rewrite lookup_empty|].
  simpl in Hnd |- *. apply NoDup_cons in Hnd as [Hk Hnd]. rewrite IH by done.
  destruct (decide (k = i)) as [->|Hne].
  - rewrite lookup_insert_eq. rewrite (not_elem_of_list_to_map_1 kvs) by done.
    by rewrite lookup_insert_eq.
  - by rewrite !lookup_insert_ne by done.
Qed.

Lemma wt_keys_perm t : wt_keys t ≡ₚ (map_to_list (writeTrackerMap t)).*1.
Proof. apply merge_sort_Permutation. Qed.

Lemma wt_keys_elem t i : i ∈ wt_keys t <-> is_Some (writeTrackerMap t !! i).
Proof.
  rewrite wt_keys_perm, list_elem_of_fmap. split.
  - intros ([j q] & -> & H). apply elem_of_map_to_list in H. eauto.
  - intros [q H]. exists (i, q). by rewrite elem_of_map_to_list.
Qed.

(** Filling the map from the sorted keys gives the map back. *)
Lemma wt_keys_rebuild t :
  foldl (fun m kv => <[kv.1 := kv.2]> m) ∅ ((fun i => (i, wt_queue t i)) <$> wt_keys t)
  = writeTrackerMap t.
Proof.
  set (kvs := _ <$> wt_keys t).
  assert (Hp : kvs ≡ₚ map_to_list (writeTrackerMap t)).
  { unfold kvs. rewrite wt_keys_perm, <- list_fmap_compose.
    erewrite (list_fmap_ext _ id); [by rewrite list_fmap_id|].
    intros k [i q] Hk. simpl. f_equal.
    apply wt_queue_lookup, elem_of_map_to_list. by apply list_elem_of_lookup_2 in Hk. }
  assert (Hnd : NoDup kvs.*1) by (rewrite Hp; apply NoDup_fst_map_to_list).
  apply map_eq. intros i. rewrite foldl_insert_lookup by done.
  rewrite (list_to_map_proper kvs _ Hnd Hp), list_to_map_to_list, lookup_empty.
  by destruct (_ !! i).
Qed.

Lemma wt_keys_length t : wt_typed t -> nz (length (wt_keys t)) < 2^64.
Proof.
  intros [_ Ht]. assert (Hnd : NoDup (wt_keys t)).
  { rewrite wt_keys_perm. apply NoDup_fst_map_to_list. }
  assert (Hs : wt_keys t ⊆ seqZ 0 256).
  { intros i Hi. apply wt_keys_elem in Hi as [q Hq]. destruct (Ht i q Hq) as [Hi _].
    apply elem_of_seqZ. unfold is_u8 in Hi. lia. }
  apply (NoDup_submseteq _ _ Hnd) in Hs. apply submseteq_length in Hs.
  rewrite length_seqZ in Hs. lia.
Qed.

(** The write tracker is restored from a checkpoint it was written to: the
    queue of every AXI ID with its entries in order.  The count is recomputed from
    the queues; a tracker that holds more than 255 writes, whose 8-bit counter has
    wrapped, is written without complaint and refused on restore. *)
Theorem wt_checkpoint cp sec t :
  wt_typed t -> total_length (writeTrackerMap t) < 2^32 -> written cp sec (wt_serialize sec t) ->
  wt_unserialize cp sec
  = if total_length (writeTrackerMap t) <=? 255
    then Ok {| writeTrackerMap := writeTrackerMap t;
               numAxiWrites := total_length (writeTrackerMap t) |}
    else Err (FFatal "WriteTracker::unserialize: too many outstanding writes").
Proof.
  intros Ht Hl Hw. pose proof (wt_keys_length t Ht) as Hkl. destruct Ht as [Hn Ht].
  apply written_agrees in Hw. unfold wt_serialize in Hw. rewrite app_assoc in Hw.
  set (bodies := imap _ _) in Hw.
  assert (Hok : indexed_ok sec (numbered "wtKey") 0 bodies).
  { intros k b Hb. apply list_lookup_imap_Some in Hb as (i & Hi & ->).
    apply Forall_app_2; [apply paramOut_under|]. apply Forall_app_2; [apply paramOut_under|].
    apply indexed_under. by apply fmap_entries_ok. }
  assert (H := indexed_holds _ _ _ _ _ _ Hw Hok eq_refl).
  unfold wt_unserialize, is_u8 in *. do 2 cp_read H.
  rewrite Nat2Z.id, <- (length_fmap (fun i => (i, wt_queue t i))), mapM_seq.
  - cbn [rbind]. rewrite wt_keys_rebuild. unfold guard.
    destruct (Z.leb_spec (total_length (writeTrackerMap t)) 255); [|done].
    rewrite u8_small; [done|]. split; [apply total_length_nonneg|lia].
  - intros k kv Hk. apply list_lookup_fmap_Some in Hk as (i & -> & Hk).
    destruct (proj1 (wt_keys_elem t i) (list_elem_of_lookup_2 _ _ _ Hk)) as [q Hq].
    rewrite (wt_queue_lookup _ _ _ Hq). destruct (Ht i q Hq) as [Hi Hqt].
    apply (wtKey_restore _ _ t); [|done..|]; [|pose proof (total_length_le _ _ _ Hq); lia].
    eapply (indexed_agrees cp sec (numbered "wtKey") 0 _ _ k); [| | | |exact Hw];
      [apply _|exact Hok|unfold bodies; by rewrite list_lookup_imap, Hk|by apply entries_outside].
Qed.

(** ** The AXI-Stream write buffer is restored *)

(** A decimal number does not begin with a letter. *)
Lemma pretty_N_go_ne_letter x s s' : s <> String.append "i" s' -> pretty_N_go x s <> String.append "i" s'.
Proof.
  revert s. induction (N.lt_wf_0 x) as [x _ IH]; intros s Hs.
  destruct (decide (0 < x)%N) as [Hx|Hx].
  - rewrite pretty_N_go_step by done. apply IH; [by apply N.div_lt|].
    unfold pretty_N_char. by repeat case_match.
  - replace x with 0%N by lia. by rewrite pretty_N_go_0.
Qed.

Lemma numbered_tlast_ne i : numbered "tlastPos" i <> "tlastPositionsSize".
Proof.
  intros E. apply (inj (String.append "tlastPos") _ "itionsSize") in E.
  unfold pretty, pretty_N in E. destruct (decide _); [done|].
  by apply (pretty_N_go_ne_letter _ EmptyString "tionsSize") in E.
Qed.

Lemma tlastLines_entries l : after_entries (tlastLines l) = [].
Proof.
  unfold tlastLines. generalize (numbered "tlastPos"). induction l as [|p l IH]; intros f; [done|].
  simpl. apply (IH (f ∘ S)).
Qed.

Lemma tlastLines_names n l : n ∈ entry_names (tlastLines l) -> exists i, n = numbered "tlastPos" i.
Proof.
  unfold tlastLines.
  enough (forall f, n ∈ entry_names (concat (imap (fun i p => paramOut p_int (f i) p) l)) ->
            exists i : nat, n = f i) as H by apply H.
  induction l as [|p l IH]; intros f Hn; simpl in Hn; [by apply elem_of_nil in Hn|].
  apply elem_of_cons in Hn as [->|Hn]; [by exists 0%nat|].
  destruct (IH (f ∘ S) Hn) as [i ->]. by exists (S i).
Qed.

Lemma tlastLines_find k p l acc :
  l !! k = Some p -> findEntry (numbered "tlastPos" k) (tlastLines l) acc = Some (VNum p).
Proof.
  unfold tlastLines.
  enough (forall f : nat -> string, Inj (=) (=) f -> forall acc, l !! k = Some p ->
     findEntry (f k) (concat (imap (fun i p => paramOut p_int (f i) p) l)) acc = Some (VNum p)) as H
    by (intros; apply H; [apply _|done]).
  revert k. induction l as [|q l IH]; intros k f Hf acc' Hk; [done|]. destruct k as [|k]; simpl.
  - injection Hk as ->. rewrite String.eqb_refl. rewrite findEntry_absent; [done|].
    clear IH. enough (forall g : nat -> string, (forall i, g i <> f 0%nat) ->
      f 0%nat ∉ entry_names (concat (imap (fun i p => paramOut p_int (g i) p) l))) as H.
    { apply H. intros i E. by apply Hf in E. }
    induction l as [|q l IH]; intros g Hg; simpl; [by apply not_elem_of_nil|].
    apply not_elem_of_cons. split; [intros E; by eapply Hg|]. apply (IH (g ∘ S)). intros i. apply Hg.
  - apply (IH k (f ∘ S)); [|done]. intros i j E. apply Hf in E. lia.
Qed.

Section AxisRestore.
Context (routerID : Z -> Z) (outPorts : list (option Z)).

(** Every output port of the interface leads to a router of its own. *)
Definition ports_ok : Prop :=
  forall p p', Some p ∈ outPorts -> Some p' ∈ outPorts ->
    0 <= routerID p < 2^31 /\ (routerID p = routerID p' -> p = p').

Definition port_known (o : option Z) : Prop :=
  match o with Some p => Some p ∈ outPorts | None => True end.

Record aw_entry_typed (e : axisWriteBufferEntry) : Prop := {
  awt_total : is_u8 (aw_numTotalBytes e);
  awt_rem : is_u16 (aw_numBytesRemaining e);
  awt_dbg : - 2^31 <= aw_debugId e < 2^31;
  awt_vc : - 2^31 <= aw_vc e < 2^31;
  awt_port : port_known (aw_oPort e);
  awt_data : axisData_typed (aw_nppData e)
}.

Record aw_typed (w : axisWriteBuffer) : Prop := {
  awt_size : is_u16 (aw_bufferSize w);
  awt_tid : - 2^31 <= currTid w < 2^31;
  awt_tdest : - 2^31 <= currTdest w < 2^31;
  awt_ndp : - 2^31 <= nextDequeuePos w < 2^31;
  awt_tls : Forall (fun p => - 2^31 <= p < 2^31) (tlastPositions w);
  awt_tlen : nz (length (tlastPositions w)) < 2^31;
  awt_len : nz (length (aw_writeBuffer w)) < 2^31;
  awt_entries : Forall aw_entry_typed (aw_writeBuffer w)
}.

Definition aw_entry_restored (e : axisWriteBufferEntry) : axisWriteBufferEntry :=
  {| aw_numTotalBytes := aw_numTotalBytes e; aw_nppData := axis_restored (aw_nppData e);
     aw_numBytesRemaining := aw_numBytesRemaining e; aw_debugId := aw_debugId e;
     aw_vc := aw_vc e; aw_oPort := aw_oPort e |}.

(** The restored buffer: only the upper bits of TUSER are lost. *)
Definition aw_restored (w : axisWriteBuffer) : axisWriteBuffer :=
  {| aw_writeBuffer := aw_entry_restored <$> aw_writeBuffer w;
     aw_bufferSize := aw_bufferSize w; currTid := currTid w; currTdest := currTdest w;
     transmitting := transmitting w; tlastPositions := tlastPositions w;
     nextDequeuePos := nextDequeuePos w |}.

Lemma portRouter_range o : ports_ok -> port_known o -> -1 <= portRouter routerID o < 2^31.
Proof.
  intros Hp Ho. destruct o as [p|]; simpl in *; [|lia].
  destruct (Hp p p Ho Ho) as [H _]. lia.
Qed.

Lemma findPort_known o :
  ports_ok -> port_known o -> findPort routerID outPorts (portRouter routerID o) = o.
Proof.
  intros Hp Ho. unfold findPort. destruct o as [p|]; simpl in *; [|done].
  destruct (Hp p p Ho Ho) as [H _].
  rewrite (proj2 (Z.leb_le 0 _)) by lia.
  assert (Hin : p ∈ filter (fun q => routerID q = routerID p) (omap id outPorts)).
  { apply list_elem_of_filter. split; [done|]. apply list_elem_of_omap. by exists (Some p). }
  destruct (filter _ _) as [|q l] eqn:E; [by apply not_elem_of_nil in Hin|]. simpl. f_equal.
  assert (Hq : q ∈ filter (fun q => routerID q = routerID p) (omap id outPorts))
    by (rewrite E; left).
  apply list_elem_of_filter in Hq as [Hr Hq]. apply list_elem_of_omap in Hq as (o & Ho' & Hid).
  unfold id in Hid. subst o. by apply (Hp q p).
Qed.


Lemma awEntry_under sec e : Forall (under sec) (serialize_awEntry routerID sec e).
Proof.
  unfold serialize_awEntry. repeat (apply Forall_app_2; [apply paramOut_under|]).
  eapply under_weaken, scoped_under. by apply entries_under.
Qed.

Lemma awEntry_restore cp sec e :
  ports_ok -> aw_entry_typed e ->
  agrees cp sec (LSection sec :: serialize_awEntry routerID sec e) ->
  unserialize_awEntry routerID cp outPorts sec = Ok (aw_entry_restored e).
Proof.
  intros Hp [] Hag.
  set (head := paramOut p_u64 "numTotalBytes" (aw_numTotalBytes e) ++
    paramOut p_u64 "numBytesRemaining" (aw_numBytesRemaining e) ++
    paramOut p_i64 "debugId" (aw_debugId e) ++ paramOut p_int "vc" (aw_vc e) ++
    paramOut p_int "oPortRouterId" (portRouter routerID (aw_oPort e))).
  assert (E : serialize_awEntry routerID sec e
    = head ++ scoped sec "nppData" (fun _ => serialize_axisData (aw_nppData e))) by done.
  rewrite E in Hag.
  assert (H : holds cp sec head).
  { intros n v Hv. rewrite (agrees_entry _ _ _ n Hag); [exact Hv|].
    eapply under_not_header, scoped_under. by apply entries_under. }
  pose proof (portRouter_range _ Hp awt_port0).
  unfold unserialize_awEntry, is_u8, is_u16 in *. do 5 cp_read H.
  erewrite axisData_restore; [| |exact awt_data0].
  - cbn [rbind]. rewrite u8_small, u16_small, s32_small, findPort_known by (done || lia). done.
  - apply agrees_holds; [|done]. rewrite app_comm_cons in Hag.
    apply (agrees_last _ _ _ _ _ Hag). constructor; [apply sub_not_suffix|].
    by apply entries_outside.
Qed.

Definition aw_head (w : axisWriteBuffer) : list line :=
  paramOut p_u64 "axisChopBytes" NPP_SIZE ++ paramOut p_u16 "maxBeatSize" 512 ++
  paramOut p_u16 "bufferSize" (aw_bufferSize w) ++ paramOut p_int "currTid" (currTid w) ++
  paramOut p_int "currTdest" (currTdest w) ++
  paramOut p_bool "transmitting" (transmitting w) ++
  paramOut p_int "nextDequeuePos" (nextDequeuePos w) ++
  paramOut p_u64 "tlastPositionsSize" (nz (length (tlastPositions w))) ++
  paramOut p_u64 "writeBufferSize" (nz (length (aw_writeBuffer w))).

Definition aw_bodies (sec : section) (w : axisWriteBuffer) : list (list line) :=
  imap (fun i e => serialize_awEntry routerID (numbered "e" i :: sec) e) (aw_writeBuffer w).

Lemma aw_serialize_lines sec w :
  aw_serialize routerID sec w
  = (aw_head w ++ tlastLines (tlastPositions w)) ++ indexed sec (numbered "e") 0 (aw_bodies sec w).
Proof. unfold aw_head. by rewrite <- !app_assoc. Qed.

Lemma aw_bodies_ok sec w : indexed_ok sec (numbered "e") 0 (aw_bodies sec w).
Proof. intros k b Hb. apply list_lookup_imap_Some in Hb as (e & He & ->). apply awEntry_under. Qed.

Lemma aw_entries_only w : after_entries (aw_head w ++ tlastLines (tlastPositions w)) = [].
Proof. apply tlastLines_entries. Qed.

(** The fixed names are not those of the TLAST positions. *)
Lemma aw_head_holds cp sec w :
  holds cp sec (aw_head w ++ tlastLines (tlastPositions w)) -> holds cp sec (aw_head w).
Proof.
  intros H n v Hv. apply H. rewrite findEntry_app by done. rewrite findEntry_absent; [done|].
  intros Hn. apply tlastLines_names in Hn as [i ->].
  apply findEntry_names in Hv. simpl in Hv.
  repeat (apply elem_of_cons in Hv as [Hv|Hv]; [first [discriminate Hv|by apply numbered_tlast_ne in Hv]|]).
  by apply elem_of_nil in Hv.
Qed.

Lemma aw_tlast_read cp sec w :
  holds cp sec (aw_head w ++ tlastLines (tlastPositions w)) ->
  Forall (fun p => - 2^31 <= p < 2^31) (tlastPositions w) ->
  mapM (fun i => paramIn p_int cp sec (numbered "tlastPos" i)) (seq 0 (length (tlastPositions w)))
  = Ok (tlastPositions w).
Proof.
  intros H Ht. apply mapM_seq. intros k p Hk.
  apply (paramIn_some _ _ _ _ (VNum p)).
  - apply H. rewrite findEntry_app by done. by apply tlastLines_find.
  - pose proof (Forall_lookup_1 _ _ _ _ Ht Hk) as Hp. apply parse_num. simpl in Hp. lia.
Qed.

Lemma aw_restore cp sec w :
  ports_ok -> aw_typed w -> written cp sec (aw_serialize routerID sec w) ->
  aw_unserialize routerID cp outPorts sec = Ok (aw_restored w).
Proof.
  intros Hp [] Hw. apply written_agrees in Hw. rewrite aw_serialize_lines in Hw.
  assert (Ha := indexed_holds _ _ _ _ _ _ Hw (aw_bodies_ok sec w) (aw_entries_only w)).
  pose proof (aw_head_holds _ _ _ Ha) as H. unfold aw_unserialize, is_u16 in *.
  do 7 cp_read H. simpl (_ =? NPP_SIZE). cbn [guard orb]. cp_read H.
  rewrite Nat2Z.id, aw_tlast_read by done. cbn [rbind]. cp_read H.
  rewrite Nat2Z.id, <- (length_fmap aw_entry_restored), mapM_seq; [done|].
  intros k e Hk. apply list_lookup_fmap_Some in Hk as (e' & -> & Hk).
  apply awEntry_restore; [done|by eapply Forall_lookup_1|].
  eapply (indexed_agrees cp sec (numbered "e") 0 _ _ k); [| | | |exact Hw].
  - apply _.
  - apply aw_bodies_ok.
  - unfold aw_bodies. by rewrite list_lookup_imap, Hk.
  - apply entries_outside, aw_entries_only.
Qed.

Lemma aw_restored_stream w :
  aw_stream (aw_writeBuffer (aw_restored w)) = aw_stream (aw_writeBuffer w).
Proof. unfold aw_stream. simpl. by rewrite <- list_fmap_compose. Qed.

(** The AXI-Stream write buffer is restored from a checkpoint it was written to,
    with its packet in progress, its TLAST positions and the output port of every
    beat; the bytes still to be sent are the same, in the same order.  The bits of
    TUSER above the low byte are lost. *)
Theorem aw_checkpoint cp sec w :
  ports_ok -> aw_typed w -> written cp sec (aw_serialize routerID sec w) ->
  aw_unserialize routerID cp outPorts sec = Ok (aw_restored w) /\
  aw_stream (aw_writeBuffer (aw_restored w)) = aw_stream (aw_writeBuffer w).
Proof. intros Hp Ht Hw. split; [by apply aw_restore|apply aw_restored_stream]. Qed.

End AxisRestore.

(** ** The AXI-MM write buffer is not *)

Section MmRestore.
Context (routerID : Z -> Z) (outPorts : list (option Z)).

Lemma wbEntry_under sec ent : Forall (under sec) (serialize_wbEntry routerID sec ent).
Proof.
  unfold serialize_wbEntry.
  repeat first [apply Forall_app_2 | apply paramOut_under].
  - eapply under_weaken, scoped_under. by apply entries_under.
  - apply indexed_under. by apply fmap_entries_ok.
Qed.

(** The section of an entry holds [axiBeatSize] and nothing else: what follows the
    request is filed under the request's own section. *)
Lemma wbEntry_section cp sec ent n :
  agrees cp sec (LSection sec :: serialize_wbEntry routerID sec ent) ->
  n <> "axiBeatSize" -> cp !! (sec, n) = None.
Proof.
  intros Hag Hn. rewrite (agrees_entry _ _ _ n Hag).
  - cbn [serialize_wbEntry findEntry paramOut app scoped].
    destruct (String.eqb_spec "axiBeatSize" n); congruence.
  - change (Forall (not_header sec) (tl (serialize_wbEntry routerID sec ent))).
    pose proof (fmap_entries_ok sec (numbered "nppData") 0 serialize_aximmRWData
                  (wb_nppData ent) (fun _ => eq_refl)) as Hok.
    unfold serialize_wbEntry. cbn [paramOut app tl].
    apply Forall_app_2; [eapply under_not_header, scoped_under; by apply entries_under|].
    constructor; [done|]. apply Forall_app_2; [by apply indexed_not_header|].
    by repeat constructor.
Qed.

(** An AXI-MM write buffer that holds a request cannot be restored: whatever
    checkpoint it was written to, reading it back stops the simulation.
    [numEmptyBytes] is written after the section of [nppRequest] has been closed,
    so the file files it under that section, and the reader looks for it in the
    entry's. *)
Theorem wb_checkpoint_lost cp sec b :
  writeBuffer b <> [] -> nz (length (writeBuffer b)) < 2^64 ->
  written cp sec (wb_serialize routerID sec b) ->
  is_ok (wb_unserialize routerID cp outPorts sec) = false.
Proof.
  intros Hne Hl Hw. apply written_agrees in Hw. unfold wb_serialize in Hw.
  rewrite app_assoc in Hw. set (bodies := imap _ _) in Hw.
  assert (Hok : indexed_ok sec (numbered "wbe") 0 bodies).
  { intros k l Hk. apply list_lookup_imap_Some in Hk as (e & _ & ->). apply wbEntry_under. }
  assert (H := indexed_holds _ _ _ _ _ _ Hw Hok eq_refl).
  destruct (wb_unserialize _ _ _ _) as [r|] eqn:E; [exfalso|done].
  unfold wb_unserialize in E. apply rbind_Ok in E as (bs & _ & E). revert E.
  cp_read H. intros E. inv_ok. destruct (writeBuffer b) as [|ent es] eqn:Eb; [done|].
  edestruct (mapM_Ok_each _ _ _ 0%nat Ha) as [y Hy]; [apply elem_of_seq; simpl in *; lia|].
  assert (Hag : agrees cp (numbered "wbe" 0 :: sec) (LSection (numbered "wbe" 0 :: sec) ::
                  serialize_wbEntry routerID (numbered "wbe" 0 :: sec) ent)).
  { eapply (indexed_agrees cp sec (numbered "wbe") 0 _ _ 0); [| | | |exact Hw];
      [apply _|exact Hok|done|by apply entries_outside]. }
  unfold unserialize_wbEntry in Hy. inv_ok.
  match goal with Hr : paramIn _ _ _ "numEmptyBytes" = _ |- _ =>
    rewrite paramIn_none in Hr; [discriminate Hr|] end.
  by eapply wbEntry_section.
Qed.

End MmRestore.

(** *** Instances *)

Definition ex_file (sec : section) (ls : list line) : checkpoint :=
  iniLoad ([LSection ["clock"]; LEntry "tick" (VNum 9)] ++ (LSection sec :: ls) ++ []).

Lemma ex_file_written n ls : n <> "clock" -> written (ex_file [n] ls) [n] ls.
Proof.
  intros Hn. eexists _, []. split_and!; [reflexivity| |done|done].
  repeat constructor. simpl. intros [l E]. destruct l as [|? l]; [by injection E|].
  by destruct l.
Qed.

Definition ex_wt : WriteTracker :=
  addAxiWriteRequest (addAxiWriteRequest (addAxiWriteRequest WriteTracker_empty 7 2 3 0) 1 5 1 2)
    7 2 4 0.

Lemma wt_checkpoint_witness :
  wt_unserialize (ex_file ["wt"] (wt_serialize ["wt"] ex_wt)) ["wt"] = Ok ex_wt.
Proof.
  rewrite (wt_checkpoint _ _ ex_wt); [done| |done|by apply ex_file_written].
  split; [done|]. intros i q Hq. unfold ex_wt, addAxiWriteRequest in Hq. simpl in Hq.
  repeat (apply lookup_insert_Some in Hq as [[<- <-]|[_ Hq]];
          [split; [done|]; vm_compute; by repeat constructor|]).
  by rewrite lookup_empty in Hq.
Defined.

Lemma aw_checkpoint_witness :
  let w := aw_restored aw_example in
  aw_unserialize id (ex_file ["wb"] (aw_serialize id ["wb"] aw_example))
    [None; Some 0; Some 1; Some 2] ["wb"] = Ok w
  /\ aw_stream (aw_writeBuffer w) = aw_stream (aw_writeBuffer aw_example).
Proof.
  apply aw_checkpoint; [| |by apply ex_file_written].
  - intros p p' Hp Hp'. repeat (apply elem_of_cons in Hp as [Hp|Hp]; [try discriminate Hp; injection Hp as ->; by split|]).
    by apply elem_of_nil in Hp.
  - split; try done; repeat constructor; try done.
Defined.

Definition ex_wb : aximmWriteBuffer :=
  {| writeBuffer := [newWriteBufferEntry aximmRWAddr_default 1 (Some 2) true 0 false];
     bufferSize := 1 |}.

Lemma wb_checkpoint_lost_witness :
  is_ok (wb_unserialize id (ex_file ["wb"] (wb_serialize id ["wb"] ex_wb)) [Some 2] ["wb"]) = false.
Proof. apply (wb_checkpoint_lost _ _ _ _ ex_wb); [done|done|by apply ex_file_written]. Defined.
