(* ===== verification/Rrob.v ===== *)
(** * Read reorder buffer

    [AxiListManager] and [ReadReorderBuffer] ([src/src/noc/core/network/rrob.{hh,cc}]):
    read requests reserve entries in order, response flits fill them in any order,
    and the beats of an AXI ID leave in the order of the requests.

    A [std::list] node keeps its identity while other nodes come and go; the model
    gives each node a number, and an iterator is the list's AXI ID with the node's
    number.  Dereferencing an iterator whose node is gone is undefined behaviour. *)

From S2P Require Import Prelude AxiTypes.

Definition FLIT_SIZE : nat := 16.

(** ** Data *)

Record beatStatus := mk_beatStatus { bs_valid : bool; bs_read : bool; bs_sent : bool }.
Definition beatStatus_default : beatStatus :=
  {| bs_valid := false; bs_read := false; bs_sent := false |}.
Definition set_valid (s : beatStatus) : beatStatus :=
  {| bs_valid := true; bs_read := bs_read s; bs_sent := bs_sent s |}.
Definition set_read (s : beatStatus) : beatStatus :=
  {| bs_valid := bs_valid s; bs_read := true; bs_sent := bs_sent s |}.
Definition set_sent (s : beatStatus) : beatStatus :=
  {| bs_valid := bs_valid s; bs_read := bs_read s; bs_sent := true |}.

Record RROBEntry := mk_RROBEntry {
  e_tag : Z;
  e_axi_id : Z;
  e_beat_size : nat;
  e_entry_size : nat;
  e_filled_flits : nat;
  e_flit_written : list bool;
  e_data : list Z;
  e_need_next_entry : bool;
  e_beat_statuses : list beatStatus;
  e_contains_last : bool;
  e_last_beat_idx : nat;
  e_vnet : Z
}.

(** The constructor; a zero beat size divides by zero. *)
Definition newRROBEntry (axi : Z) (beat_size entry_size : nat) (need_next contains_last : bool)
    (last_beat_idx : nat) (tag vnet : Z) : res RROBEntry :=
  guard ((0 <? beat_size) || (entry_size <=? beat_size))%nat (FUndef "division by zero") (
  Ok {| e_tag := tag; e_axi_id := axi; e_beat_size := beat_size; e_entry_size := entry_size;
        e_filled_flits := 0; e_flit_written := replicate (entry_size / FLIT_SIZE) false;
        e_data := zeros entry_size; e_need_next_entry := need_next;
        e_beat_statuses := replicate (if beat_size <? entry_size then entry_size / beat_size
                                      else 1)%nat beatStatus_default;
        e_contains_last := contains_last; e_last_beat_idx := last_beat_idx; e_vnet := vnet |}).

(** Member updates. *)
Definition set_statuses (ss : list beatStatus) (e : RROBEntry) : RROBEntry :=
  {| e_tag := e_tag e; e_axi_id := e_axi_id e; e_beat_size := e_beat_size e;
     e_entry_size := e_entry_size e; e_filled_flits := e_filled_flits e;
     e_flit_written := e_flit_written e; e_data := e_data e;
     e_need_next_entry := e_need_next_entry e; e_beat_statuses := ss;
     e_contains_last := e_contains_last e; e_last_beat_idx := e_last_beat_idx e;
     e_vnet := e_vnet e |}.
Definition set_filled (data : list Z) (written : list bool) (filled : nat) (e : RROBEntry)
    : RROBEntry :=
  {| e_tag := e_tag e; e_axi_id := e_axi_id e; e_beat_size := e_beat_size e;
     e_entry_size := e_entry_size e; e_filled_flits := filled;
     e_flit_written := written; e_data := data;
     e_need_next_entry := e_need_next_entry e; e_beat_statuses := e_beat_statuses e;
     e_contains_last := e_contains_last e; e_last_beat_idx := e_last_beat_idx e;
     e_vnet := e_vnet e |}.

Definition alter_status (f : beatStatus -> beatStatus) (i : nat) (e : RROBEntry) : RROBEntry :=
  set_statuses (alter f i (e_beat_statuses e)) e.

(** ** [RROBEntry::markBeatsValid] *)

(** The flits that carry beat [i]. *)
Definition beat_end (e : RROBEntry) (i : nat) : nat :=
  Nat.min (i * e_beat_size e + e_beat_size e) (e_entry_size e).
Definition beat_flits (e : RROBEntry) (i : nat) : list nat :=
  let first_flit := (i * e_beat_size e / FLIT_SIZE)%nat in
  let last_flit := ((beat_end e i - 1) / FLIT_SIZE)%nat in
  seq first_flit (S last_flit - first_flit).

Definition flit_is_written (e : RROBEntry) (f : nat) : bool :=
  default false (e_flit_written e !! f).

Definition markBeatValid (e : RROBEntry) (flit_index i : nat) (s : beatStatus) : beatStatus :=
  let byte_start := (flit_index * FLIT_SIZE)%nat in
  let byte_end := Nat.min (byte_start + FLIT_SIZE) (e_entry_size e) in
  let beat_start := (i * e_beat_size e)%nat in
  if ((byte_end <=? beat_start) || (beat_end e i <=? byte_start))%nat then s
  else if forallb (flit_is_written e) (beat_flits e i) then set_valid s else s.

Definition markBeatsValid (flit_index : nat) (e : RROBEntry) : RROBEntry :=
  if (e_entry_size e <=? e_beat_size e)%nat then
    if (e_filled_flits e =? length (e_flit_written e))%nat
    then alter_status set_valid 0 e else e
  else set_statuses (imap (markBeatValid e flit_index) (e_beat_statuses e)) e.

(** ** [AxiListManager] *)

Record node := mk_node { n_id : Z; n_e : RROBEntry }.
Abbreviation Iterator := (Z * Z)%type.

Record AxiListManager := mk_AxiListManager {
  lists : gmap Z (list node);
  tagToIterator : gmap Z Iterator;
  tagToAxiID : gmap Z Z;
  nextTag : Z;
  numEntries : Z;
  rb_max_entries : Z;
  rb_entry_size : nat;
  rr_scan_axi_key : Z;
  nextNode : Z        (* the number of the next list node *)
}.

Definition newAxiListManager (max_entries : Z) (entry_size : nat) : AxiListManager :=
  {| lists := ∅; tagToIterator := ∅; tagToAxiID := ∅; nextTag := 1; numEntries := 0;
     rb_max_entries := max_entries; rb_entry_size := entry_size; rr_scan_axi_key := -1;
     nextNode := 0 |}.

Definition with_lists (ls : gmap Z (list node)) (m : AxiListManager) : AxiListManager :=
  {| lists := ls; tagToIterator := tagToIterator m; tagToAxiID := tagToAxiID m;
     nextTag := nextTag m; numEntries := numEntries m; rb_max_entries := rb_max_entries m;
     rb_entry_size := rb_entry_size m; rr_scan_axi_key := rr_scan_axi_key m;
     nextNode := nextNode m |}.

Definition axiList (m : AxiListManager) (axi_id : Z) : list node := default [] (lists m !! axi_id).

Definition node_pos (nid : Z) (l : list node) : option nat :=
  fst <$> list_find (fun n => n_id n = nid) l.

(** [*it] and [*it = e]. *)
Definition deref (m : AxiListManager) (it : Iterator) : res RROBEntry :=
  of_opt (FUndef "dangling iterator")
    (node_pos it.2 (axiList m it.1) ≫= fun k => n_e <$> axiList m it.1 !! k).
Definition assign (m : AxiListManager) (it : Iterator) (e : RROBEntry) : AxiListManager :=
  with_lists (alter (fmap (fun n => if n_id n =? it.2 then mk_node (it.2) e else n)) it.1 (lists m)) m.

(** Returns the tag, [Tag(-1)] = 255 when the buffer is full. *)
Definition addEntry (m : AxiListManager) (axi_id : Z) (beat_size : nat) (contains_last : bool)
    (last_beat_idx : nat) (vnet : Z) (need_next_entry : bool) : res (Z * AxiListManager) :=
  if rb_max_entries m <=? u64 (numEntries m) then Ok (u8 (-1), m)
  else
    let tag := nextTag m in
    let* e := newRROBEntry axi_id beat_size (rb_entry_size m) need_next_entry contains_last
                last_beat_idx tag vnet in
    Ok (tag,
        {| lists := <[axi_id := axiList m axi_id ++ [mk_node (nextNode m) e]]> (lists m);
           tagToIterator := <[tag := (axi_id, nextNode m)]> (tagToIterator m);
           tagToAxiID := <[tag := axi_id]> (tagToAxiID m);
           nextTag := u8 (tag + 1); numEntries := numEntries m + 1;
           rb_max_entries := rb_max_entries m; rb_entry_size := rb_entry_size m;
           rr_scan_axi_key := rr_scan_axi_key m; nextNode := nextNode m + 1 |}).

Definition getVnet (m : AxiListManager) (axi_id tag : Z) : res Z :=
  match lists m !! axi_id with
  | None => Err (FPanic "getVnet: No entries found for AXI ID")
  | Some l =>
      match list_find (fun n => e_tag (n_e n) = tag) l with
      | Some (_, n) => Ok (e_vnet (n_e n))
      | None => Err (FPanic "getVnet: Tag not found under AXI ID")
      end
  end.

(** The stores of [writeFlitEntry] into the entry. *)
Definition writeEntryFlit (e : RROBEntry) (data : list Z) (f : nat) : RROBEntry :=
  markBeatsValid f
    (set_filled (copy_into (e_data e) (f * FLIT_SIZE) data) (<[f := true]> (e_flit_written e))
       (S (e_filled_flits e)) e).

(** An unknown tag or a flit beyond the entry is only reported on [stderr]. *)
Definition writeFlitEntry (m : AxiListManager) (tag : Z) (data : list Z) (flit_idx : Z)
    : res AxiListManager :=
  match tagToIterator m !! tag with
  | None => Ok m
  | Some it =>
      let* e := deref m it in
      let flitIndex := u64 flit_idx in
      if flitIndex <? nz (length (e_flit_written e))
      then Ok (assign m it (writeEntryFlit e data (zn flitIndex)))
      else Ok m
  end.

(** The node is popped; the tag maps keep their iterator to it. *)
Definition readEntry (m : AxiListManager) (axi_id : Z) : res (RROBEntry * AxiListManager) :=
  match lists m !! axi_id with
  | Some (n :: l) =>
      Ok (n_e n, {| lists := <[axi_id := l]> (lists m); tagToIterator := tagToIterator m;
                    tagToAxiID := tagToAxiID m; nextTag := nextTag m;
                    numEntries := numEntries m - 1; rb_max_entries := rb_max_entries m;
                    rb_entry_size := rb_entry_size m; rr_scan_axi_key := rr_scan_axi_key m;
                    nextNode := nextNode m |})
  | _ => Err (FPanic "no entry to read from RROB")
  end.

(** [None] is the end iterator of a list that no longer exists. *)
Definition getIterator (m : AxiListManager) (tag : Z) : option Iterator := tagToIterator m !! tag.

Definition getList (m : AxiListManager) (axi_id : Z) : res (list node) :=
  of_opt (FPanic "AxiListManager::getList: No list exists for AxiID") (lists m !! axi_id).

Definition updateValue (m : AxiListManager) (tag : Z) (newValue : RROBEntry)
    : bool * AxiListManager :=
  match tagToIterator m !! tag with
  | Some it => (true, assign m it newValue)
  | None => (false, m)
  end.

Definition getAxiID (m : AxiListManager) (tag : Z) : res Z :=
  of_opt (FPanic "AxiListManager Get Axi ID could not find tag") (tagToAxiID m !! tag).

(** ** [generateAxiReadPayloads] *)

(** A read response message: the payload that names it and its one data beat. *)
Record RReadMsg := mk_RReadMsg {
  rm_name : aximmRWData;
  rm_data : aximmRWData;
  rm_beatID : nat;
  rm_tag : Z;
  rm_beatSize : nat
}.

Definition readMsg (e : RROBEntry) (bytes : list Z) (last : bool) (beat : nat) : RReadMsg :=
  {| rm_name := {| rd_cmd := READ; rd_id := e_axi_id e; rd_resp := OKAY; rd_last := false;
                   rd_user := 0; rd_valid := false; rd_ready := false; rd_data := zeros 64;
                   rd_wstrb := TKEEP_ALL |};
     rm_data := {| rd_cmd := NONE; rd_id := e_axi_id e; rd_resp := OKAY; rd_last := last;
                   rd_user := 0; rd_valid := true; rd_ready := false;
                   rd_data := copy_into (zeros 64) 0 bytes; rd_wstrb := TKEEP_ALL |};
     rm_beatID := beat; rm_tag := e_tag e; rm_beatSize := e_beat_size e |}.

Definition status (e : RROBEntry) (i : nat) : res beatStatus :=
  of_opt (FUndef "beat_statuses index") (e_beat_statuses e !! i).

(** The bytes of beat [i], copied into the 64-byte payload. *)
Definition beatBytes (e : RROBEntry) (i : nat) : res (list Z) :=
  guard ((i * e_beat_size e + e_beat_size e <=? length (e_data e))
         && (e_beat_size e <=? 64))%nat
    (FUndef "copy out of range") (Ok (slice (e_data e) (i * e_beat_size e) (e_beat_size e))).

(** The loop over the beats of an entry; the flag tells that a beat without data
    was met, which ends the whole search. *)
Fixpoint genBeats (idx : list nat) (e : RROBEntry) : res (list RReadMsg * RROBEntry * bool) :=
  match idx with
  | [] => Ok ([], e, false)
  | i :: idx =>
      let* s := status e i in
      if bs_valid s && negb (bs_sent s) then
        let* bytes := beatBytes e i in
        let* (ms, e', stop) := genBeats idx (alter_status set_sent i e) in
        Ok (readMsg e bytes (e_contains_last e && (e_last_beat_idx e =? i)%nat) i :: ms, e', stop)
      else if negb (bs_valid s) then Ok ([], e, true)
      else genBeats idx e
  end.

(** The loop over the entries of a list, at entry [cur]. *)
Fixpoint genFrom (cur : node) (r : list node) : res (list RReadMsg * list node) :=
  let e := n_e cur in
  if e_need_next_entry e then
    match r with
    | [] => Err (FPanic "AxiListManager::generateAxiReadPayloads no next entry exists")
    | nxt :: r' =>
        let e2 := n_e nxt in
        let* s1 := status e 0 in
        let* s2 := status e2 0 in
        if bs_valid s1 && negb (bs_sent s1) && bs_valid s2 && negb (bs_sent s2) then
          guard (length (e_data e) + length (e_data e2) <=? 64)%nat (FUndef "copy out of range") (
          let cur' := mk_node (n_id cur) (alter_status set_sent 0 e) in
          let nxt' := mk_node (n_id nxt) (alter_status set_sent 0 e2) in
          let* (ms, l) := genFrom nxt' r' in
          Ok (readMsg e (e_data e ++ e_data e2) (e_contains_last e2) 0 :: ms, cur' :: l))
        else if negb (bs_valid s1) || negb (bs_valid s2) then Ok ([], cur :: r)
        else
          let* (ms, l) := genFrom nxt r' in
          Ok (ms, cur :: l)
    end
  else
    let* (ms, e', stop) := genBeats (seq 0 (S (e_last_beat_idx e))) e in
    let cur' := mk_node (n_id cur) e' in
    if stop then Ok (ms, cur' :: r)
    else match r with
         | [] => Ok (ms, [cur'])
         | nxt :: r' =>
             let* (ms', l) := genFrom nxt r' in
             Ok (ms ++ ms', cur' :: l)
         end.

Definition genList (l : list node) : res (list RReadMsg * list node) :=
  match l with [] => Ok ([], []) | n :: r => genFrom n r end.

Definition generateAxiReadPayloads (m : AxiListManager) (axi_id : Z)
    : res (list RReadMsg * AxiListManager) :=
  match lists m !! axi_id with
  | None => Err (FPanic "No RROB entry found for axi_id")
  | Some l =>
      let* (ms, l') := genList l in
      Ok (ms, with_lists (<[axi_id := l']> (lists m)) m)
  end.

(** ** [getNextReadyAxiID] *)

Definition entryFull (e : RROBEntry) : bool :=
  (e_filled_flits e =? length (e_flit_written e))%nat.

Definition listReady (l : list node) : bool :=
  match l with
  | [] => false
  | h :: r =>
      entryFull (n_e h) &&
      (negb (e_need_next_entry (n_e h)) ||
       match r with n :: _ => entryFull (n_e n) | [] => false end)
  end.

Definition set_scan (k : Z) (m : AxiListManager) : AxiListManager :=
  {| lists := lists m; tagToIterator := tagToIterator m; tagToAxiID := tagToAxiID m;
     nextTag := nextTag m; numEntries := numEntries m; rb_max_entries := rb_max_entries m;
     rb_entry_size := rb_entry_size m; rr_scan_axi_key := k; nextNode := nextNode m |}.

Definition sortedKeys (m : AxiListManager) : list Z := merge_sort Z.le (map_to_list (lists m)).*1.

(** The key after [k] in the sorted keys, cyclically. *)
Definition nextKey (keys : list Z) (k : Z) : Z :=
  let p := default 0%nat (fst <$> list_find (eq k) keys) in
  default (default (-1) (head keys)) (keys !! S p).

Definition getNextReadyAxiID (m : AxiListManager) : Z * AxiListManager :=
  match sortedKeys m with
  | [] => (-1, set_scan (-1) m)
  | k0 :: _ as keys =>
      let key := if (rr_scan_axi_key m <? 0) || negb (bool_decide (u8 (rr_scan_axi_key m) ∈ keys))
                 then k0 else rr_scan_axi_key m in
      (if listReady (axiList m key) then key else -1, set_scan (nextKey keys key) m)
  end.

(** ** [removeEntry] and [rebuildTagMaps] *)

Definition dropNode (nid : Z) (l : list node) : list node := filter (fun n => n_id n <> nid) l.

(** The node after [nid]. *)
Definition nextOf (nid : Z) (l : list node) : option node :=
  node_pos nid l ≫= fun k => l !! S k.

(** The tag whose iterator is [it]; the map holds at most one. *)
Definition tagOf (m : AxiListManager) (it : Iterator) : option Z :=
  fst <$> head (filter (fun p => p.2 = it) (map_to_list (tagToIterator m))).

Definition eraseNode (m : AxiListManager) (axi_id nid tag : Z) : AxiListManager :=
  {| lists := alter (dropNode nid) axi_id (lists m);
     tagToIterator := delete tag (tagToIterator m); tagToAxiID := delete tag (tagToAxiID m);
     nextTag := nextTag m; numEntries := numEntries m - 1; rb_max_entries := rb_max_entries m;
     rb_entry_size := rb_entry_size m; rr_scan_axi_key := rr_scan_axi_key m;
     nextNode := nextNode m |}.

Definition cleanList (m : AxiListManager) (axi_id : Z) : AxiListManager :=
  match lists m !! axi_id with
  | Some [] => with_lists (delete axi_id (lists m)) m
  | _ => m
  end.

Definition removeEntry (m : AxiListManager) (axi_id tag : Z) : res AxiListManager :=
  match tagToIterator m !! tag with
  | None => Err (FPanic "RROB: Tag not found in tagToIterator map")
  | Some it =>
      guard (bool_decide (tagToAxiID m !! tag = Some axi_id)) (FPanic "RROB: AXI ID mismatch") (
      let* e := deref m it in
      let* m' :=
        (if e_need_next_entry e then
           match nextOf it.2 (axiList m it.1) with
           | Some n =>
               match tagOf m (it.1, n_id n) with
               | Some t => Ok (eraseNode m it.1 (n_id n) t)
               | None => Err (FPanic "RROB: Could not find tag for second half")
               end
           | None => Err (FPanic "RROB: Entry required next entry, but none found")
           end
         else Ok m) in
      Ok (cleanList (eraseNode m' it.1 it.2 tag) axi_id))
  end.

Definition addTags (p : gmap Z Iterator * gmap Z Z) (k : Z) (l : list node)
    : gmap Z Iterator * gmap Z Z :=
  foldl (fun p n => (<[e_tag (n_e n) := (k, n_id n)]> p.1, <[e_tag (n_e n) := k]> p.2)) p l.

Definition rebuildTagMaps (m : AxiListManager) : AxiListManager :=
  let p := foldl (fun p kl => addTags p kl.1 kl.2) (∅, ∅) (map_to_list (lists m)) in
  {| lists := lists m; tagToIterator := p.1; tagToAxiID := p.2; nextTag := nextTag m;
     numEntries := numEntries m; rb_max_entries := rb_max_entries m;
     rb_entry_size := rb_entry_size m; rr_scan_axi_key := rr_scan_axi_key m;
     nextNode := nextNode m |}.

(** ** [ReadReorderBuffer] *)

Record ReadReorderBuffer := mk_ReadReorderBuffer {
  axiListManager : AxiListManager;
  numAxiReads : Z
}.

Definition newReadReorderBuffer (max_entries : Z) (entry_size : nat) : res ReadReorderBuffer :=
  guard (negb (entry_size =? 0) && (entry_size mod FLIT_SIZE =? 0))%nat
    (FFatal "RROB entry_size must be a non-zero multiple of flit size") (
  Ok {| axiListManager := newAxiListManager max_entries entry_size; numAxiReads := 0 |}).

Definition with_manager (m : AxiListManager) (b : ReadReorderBuffer) : ReadReorderBuffer :=
  {| axiListManager := m; numAxiReads := numAxiReads b |}.

Definition reserve (b : ReadReorderBuffer) (axi_id : Z) (beat_size : nat) (contains_last : bool)
    (last_beat_idx : nat) (vnet : Z) (need_next_entry : bool) : res (Z * ReadReorderBuffer) :=
  let* (tag, m) := addEntry (axiListManager b) axi_id beat_size contains_last last_beat_idx vnet
                     need_next_entry in
  Ok (tag, with_manager m b).

Definition rrob_read (b : ReadReorderBuffer) (axi_id : Z) : res (list Z * ReadReorderBuffer) :=
  let* (e, m) := readEntry (axiListManager b) axi_id in
  Ok (e_data e, with_manager m b).

(** [writeFlit] with the NMU's [rrobWriteCallback] as wakeup handler: the handler
    generates the payloads of the tag's AXI ID. *)
Definition writeFlit (b : ReadReorderBuffer) (tag : Z) (data : list Z) (flit_idx : Z)
    : res (list RReadMsg * ReadReorderBuffer) :=
  let* m := writeFlitEntry (axiListManager b) (u8 tag) data flit_idx in
  let* axi_id := getAxiID m (u8 tag) in
  let* (ms, m') := generateAxiReadPayloads m axi_id in
  Ok (ms, with_manager m' b).

Definition getNumRemainingEntries (b : ReadReorderBuffer) : Z :=
  u16 (rb_max_entries (axiListManager b) - numEntries (axiListManager b)).

Fixpoint allReadFrom (idx : list nat) (e : RROBEntry) : res bool :=
  match idx with
  | [] => Ok true
  | i :: idx => let* s := status e i in if bs_read s then allReadFrom idx e else Ok false
  end.
Definition allRead (e : RROBEntry) : res bool := allReadFrom (seq 0 (S (e_last_beat_idx e))) e.

Definition markBeatRead (b : ReadReorderBuffer) (axi_id tag : Z) (beat_idx : nat)
    : res ReadReorderBuffer :=
  let m := axiListManager b in
  let* it := of_opt (FUndef "end of a dead list") (getIterator m (u8 tag)) in
  let* l := getList m axi_id in
  guard (it.1 =? axi_id) (FPanic "RROB: AXI ID mismatch") (
  let* e := deref m it in
  guard (e_axi_id e =? axi_id) (FPanic "RROB: AXI ID mismatch") (
  guard (beat_idx <? length (e_beat_statuses e))%nat (FPanic "RROB: Invalid beat index") (
  let e' := alter_status set_read beat_idx e in
  let m' := assign m it e' in
  let* all_read := allRead e' in
  if all_read : bool then
    let nextLast := match nextOf it.2 l with
                    | Some n => e_contains_last (n_e n) | None => false end in
    let last := e_contains_last e' || (e_need_next_entry e' && nextLast) in
    let* m'' := removeEntry m' axi_id (u8 tag) in
    Ok {| axiListManager := m'';
          numAxiReads := if last then u8 (numAxiReads b - 1) else numAxiReads b |}
  else Ok (with_manager m' b)))).
