(* ===== verification/RrobOrder.v ===== *)
(** * Read reorder buffer: order and delivery

    The correctness of [Rrob]: an invariant of the entries (the flits written hold
    the bytes of the read, a beat is valid exactly when its flits are written), of
    the lists (what remains to be sent, in order) and of the tag maps; that every
    operation keeps them; and, for any sequence of operations, that the beats of an
    AXI ID leave in request order, each once, with the right bytes. *)

From S2P Require Import Prelude AxiTypes Rrob.

(** ** Reassembly of an entry

    [D] gives, for every node, the bytes its read returns: what the response flits
    carry.  [ES] is the entry size. *)

Section Order.
Context (ES : nat) (D : Z -> list Z).
Hypothesis ES_flits : (0 < ES /\ ES mod FLIT_SIZE = 0)%nat.
Hypothesis D_length : forall n, length (D n) = ES.

Definition bsent (e : RROBEntry) (i : nat) : bool :=
  match e_beat_statuses e !! i with Some s => bs_sent s | None => false end.

Definition beat_written (e : RROBEntry) (i : nat) : bool :=
  forallb (flit_is_written e) (beat_flits e i).

(** Every entry holds, in the flits already written, the bytes of its read; a beat
    is valid exactly when its flits are written; only valid beats are sent, only
    sent beats are read. *)
Record entry_ok (nid : Z) (e : RROBEntry) : Prop := {
  eo_size : e_entry_size e = ES;
  eo_beat : (0 < e_beat_size e)%nat;
  eo_data : length (e_data e) = ES;
  eo_flits : length (e_flit_written e) = (ES / FLIT_SIZE)%nat;
  eo_filled : e_filled_flits e = length (filter Is_true (e_flit_written e));
  eo_bytes : forall f, flit_is_written e f = true ->
    slice (e_data e) (f * FLIT_SIZE) FLIT_SIZE = slice (D nid) (f * FLIT_SIZE) FLIT_SIZE;
  eo_statuses : length (e_beat_statuses e)
    = (if e_beat_size e <? ES then ES / e_beat_size e else 1)%nat;
  eo_valid : forall i s, e_beat_statuses e !! i = Some s -> bs_valid s = beat_written e i;
  eo_sent : forall i s, e_beat_statuses e !! i = Some s -> bs_sent s = true -> bs_valid s = true;
  eo_read : forall i s, e_beat_statuses e !! i = Some s -> bs_read s = true -> bs_sent s = true
}.

Lemma ES_mult : ES = (ES / FLIT_SIZE * FLIT_SIZE)%nat.
Proof. destruct ES_flits as [_ H]. pose proof (Nat.div_mod_eq ES FLIT_SIZE). lia. Qed.

Lemma beat_flits_elem e i f :
  e_entry_size e = ES -> (0 < e_beat_size e)%nat -> (i * e_beat_size e < ES)%nat ->
  f ∈ beat_flits e i <->
  (i * e_beat_size e / FLIT_SIZE <= f /\ f * FLIT_SIZE < beat_end e i)%nat.
Proof.
  intros Hs Hb Hi. unfold beat_flits. rewrite elem_of_seq.
  assert (He : (i * e_beat_size e < beat_end e i)%nat) by (unfold beat_end; lia).
  set (b := beat_end e i) in *. set (a := (i * e_beat_size e)%nat) in *.
  pose proof (Nat.div_mod_eq (b - 1) FLIT_SIZE). pose proof (Nat.mod_upper_bound (b - 1) FLIT_SIZE ltac:(done)).
  assert (a / FLIT_SIZE <= (b - 1) / FLIT_SIZE)%nat by (apply Nat.Div0.div_le_mono; lia).
  unfold FLIT_SIZE in *. split; intros [Hl Hr]; split; lia.
Qed.

(** The bytes of a beat whose flits are written are those of the read. *)
Lemma written_bytes nid e i k :
  entry_ok nid e -> beat_written e i = true ->
  (i * e_beat_size e <= k < beat_end e i)%nat -> e_data e !! k = D nid !! k.
Proof.
  intros [] Hw Hk. unfold beat_written in Hw. rewrite forallb_forall in Hw.
  assert (Hlt : (beat_end e i <= ES)%nat) by (unfold beat_end; lia).
  pose proof (Nat.div_mod_eq k FLIT_SIZE) as Hdm.
  pose proof (Nat.mod_upper_bound k FLIT_SIZE ltac:(done)) as Hm.
  set (f := (k / FLIT_SIZE)%nat) in *.
  assert (Hf : flit_is_written e f = true).
  { apply Hw, list_elem_of_In, beat_flits_elem; [done|done|lia|]. split; [|lia].
    apply Nat.Div0.div_le_mono. lia. }
  apply eo_bytes0 in Hf. apply (f_equal (.!! (k mod FLIT_SIZE)%nat)) in Hf.
  rewrite !lookup_slice in Hf by done.
  replace (f * FLIT_SIZE + k mod FLIT_SIZE)%nat with k in Hf by lia. done.
Qed.

Lemma beat_slice nid e i :
  entry_ok nid e -> beat_written e i = true -> (i * e_beat_size e + e_beat_size e <= ES)%nat ->
  slice (e_data e) (i * e_beat_size e) (e_beat_size e)
  = slice (D nid) (i * e_beat_size e) (e_beat_size e).
Proof.
  intros Hok Hw Hi. apply list_eq. intros k.
  destruct (decide (k < e_beat_size e)%nat).
  - rewrite !lookup_slice by done. eapply written_bytes; [done..|].
    unfold beat_end. rewrite (eo_size _ _ Hok). lia.
  - rewrite !lookup_ge_None_2; [done|..]; unfold slice; rewrite length_take; lia.
Qed.

(** A beat as large as the entry is the whole entry. *)
Lemma whole_bytes nid e :
  entry_ok nid e -> beat_written e 0 = true -> (ES <= e_beat_size e)%nat -> e_data e = D nid.
Proof.
  intros Hok Hw Hb. apply list_eq. intros k. destruct (decide (k < ES)%nat).
  - eapply written_bytes; [done..|]. unfold beat_end. rewrite (eo_size _ _ Hok). lia.
  - rewrite !lookup_ge_None_2; [done|..]; [rewrite D_length; lia|rewrite (eo_data _ _ Hok); lia].
Qed.

(** *** Writing a flit *)

Lemma flit_is_written_insert e f g data n :
  (f < length (e_flit_written e))%nat ->
  flit_is_written (set_filled data (<[f := true]> (e_flit_written e)) n e) g
  = (f =? g)%nat || flit_is_written e g.
Proof.
  intros Hf. unfold flit_is_written. simpl. destruct (Nat.eqb_spec f g) as [->|Hne].
  - by rewrite list_lookup_insert_eq.
  - by rewrite list_lookup_insert_ne.
Qed.

Lemma filter_insert_true (l : list bool) f :
  l !! f = Some false ->
  length (filter Is_true (<[f := true]> l)) = S (length (filter Is_true l)).
Proof.
  revert f; induction l as [|b l IH]; intros f H; [done|].
  destruct f as [|f]; [by injection H as ->|].
  change (<[S f := true]> (b :: l)) with (b :: <[f := true]> l).
  rewrite !filter_cons. destruct (decide (Is_true b)); cbn [length]; by rewrite IH.
Qed.

Lemma all_filled (l : list bool) :
  (length (filter Is_true l) =? length l)%nat = forallb id l.
Proof.
  assert (Hle : forall l : list bool, (length (filter Is_true l) <= length l)%nat)
    by (intros; apply length_filter).
  induction l as [|b l IH]; [done|]. rewrite filter_cons.
  destruct b; simpl; [exact IH|]. apply Nat.eqb_neq. specialize (Hle l). lia.
Qed.

(** The members that never change. *)
Definition fixed (e : RROBEntry) :=
  (e_tag e, e_axi_id e, e_beat_size e, e_entry_size e, e_need_next_entry e,
   e_contains_last e, e_last_beat_idx e, e_vnet e).

(** Same constant members, same beats sent. *)
Definition same_entry (e e' : RROBEntry) : Prop :=
  fixed e' = fixed e /\ forall i, bsent e' i = bsent e i.

Lemma beat_flits_whole e :
  e_entry_size e = ES -> (ES <= e_beat_size e)%nat -> beat_flits e 0 = seq 0 (ES / FLIT_SIZE).
Proof.
  intros Hs Hb. unfold beat_flits, beat_end. rewrite Hs.
  rewrite Nat.mul_0_l, Nat.Div0.div_0_l, Nat.add_0_l, Nat.min_r by lia.
  f_equal. pose proof ES_mult as Hm. destruct ES_flits as [H0 _].
  rewrite Nat.sub_0_r. set (n := (ES / FLIT_SIZE)%nat) in *. unfold FLIT_SIZE in *.
  enough ((ES - 1) / 16 = n - 1)%nat by lia. symmetry. apply Nat.div_unique with 15%nat; lia.
Qed.

Lemma flit_written_forallb e n :
  length (e_flit_written e) = n ->
  forallb (flit_is_written e) (seq 0 n) = forallb id (e_flit_written e).
Proof.
  unfold flit_is_written. intros <-. generalize (e_flit_written e) as l.
  induction l as [|b l IH]; [done|]. simpl. f_equal. rewrite <- IH.
  rewrite <- fmap_S_seq. generalize (seq 0 (length l)) as k.
  induction k as [|i k IHk]; [done|].
  change (S <$> i :: k) with (S i :: (S <$> k)). cbn [forallb]. by rewrite IHk.
Qed.

Lemma beat_written_mono e e1 i :
  (forall g, flit_is_written e g = true -> flit_is_written e1 g = true) ->
  beat_flits e1 i = beat_flits e i -> beat_written e i = true -> beat_written e1 i = true.
Proof.
  intros Hm He. unfold beat_written. rewrite He, !forallb_forall. eauto.
Qed.

Section WriteFlit.
Context (nid : Z) (e : RROBEntry) (f : nat).
Hypothesis He : entry_ok nid e.
Hypothesis Hf : (f < ES / FLIT_SIZE)%nat.
Hypothesis Hnew : flit_is_written e f = false.

Let data := slice (D nid) (f * FLIT_SIZE) FLIT_SIZE.
Let e1 := set_filled (copy_into (e_data e) (f * FLIT_SIZE) data) (<[f := true]> (e_flit_written e))
            (S (e_filled_flits e)) e.

Lemma e1_written g : flit_is_written e1 g = (f =? g)%nat || flit_is_written e g.
Proof. apply flit_is_written_insert. by rewrite (eo_flits _ _ He). Qed.

Lemma flit_data_length : length data = FLIT_SIZE.
Proof. apply length_slice. rewrite D_length. pose proof ES_mult. unfold FLIT_SIZE in *. lia. Qed.

Lemma e1_bytes g :
  flit_is_written e1 g = true ->
  slice (e_data e1) (g * FLIT_SIZE) FLIT_SIZE = slice (D nid) (g * FLIT_SIZE) FLIT_SIZE.
Proof.
  rewrite e1_written. intros Hg. pose proof flit_data_length as Hl. pose proof ES_mult as Hm.
  assert (Hlen : length (e_data e) = ES) by apply He.
  apply list_eq. intros k. destruct (decide (k < FLIT_SIZE)%nat) as [Hk|Hk].
  2:{ rewrite !lookup_ge_None_2; [done|..]; unfold slice; rewrite length_take; lia. }
  rewrite !lookup_slice by done. simpl. destruct (Nat.eqb_spec f g) as [Hfg|Hne].
  - rewrite <- Hfg, lookup_copy_into_in by (rewrite ?Hl, ?Hlen; unfold FLIT_SIZE in *; lia).
    unfold data. rewrite lookup_slice by lia. f_equal. lia.
  - rewrite lookup_copy_into_out.
    + pose proof (eo_bytes _ _ He g Hg) as Hb. apply (f_equal (.!! k)) in Hb.
      by rewrite !lookup_slice in Hb.
    + rewrite Hl. unfold FLIT_SIZE in *. lia.
Qed.

Lemma e1_filled : S (e_filled_flits e) = length (filter Is_true (<[f := true]> (e_flit_written e))).
Proof.
  rewrite filter_insert_true; [by rewrite (eo_filled _ _ He)|].
  assert (Hlt : (f < length (e_flit_written e))%nat) by (by rewrite (eo_flits _ _ He)).
  destruct (lookup_lt_is_Some_2 _ _ Hlt) as [b Hb]. unfold flit_is_written in Hnew.
  rewrite Hb in Hnew |- *. by destruct b.
Qed.

(** A beat one of whose flits was missing was not valid. *)
Lemma not_yet_written i : f ∈ beat_flits e i -> beat_written e i = false.
Proof.
  intros Hi. apply not_true_is_false. unfold beat_written. rewrite forallb_forall. intros H.
  rewrite H in Hnew; [done|by apply list_elem_of_In].
Qed.

Lemma other_beats i : f ∉ beat_flits e i -> beat_written e1 i = beat_written e i.
Proof.
  intros Hi. unfold beat_written. change (beat_flits e1 i) with (beat_flits e i).
  induction (beat_flits e i) as [|g l IH]; [done|]. apply not_elem_of_cons in Hi as [H1 H2].
  simpl. rewrite IH by done. rewrite e1_written. by destruct (Nat.eqb_spec f g).
Qed.

Lemma markBeatValid_spec i s :
  e_beat_statuses e !! i = Some s -> (e_beat_size e < ES)%nat ->
  let s' := markBeatValid e1 f i s in
  bs_valid s' = beat_written e1 i /\ bs_sent s' = bs_sent s /\ bs_read s' = bs_read s
  /\ (bs_valid s = true -> bs_valid s' = true).
Proof.
  intros Hs Hb. pose proof (eo_valid _ _ He i s Hs) as Hv.
  assert (Hi : (i * e_beat_size e < ES)%nat).
  { apply lookup_lt_Some in Hs. rewrite (eo_statuses _ _ He) in Hs.
    rewrite (proj2 (Nat.ltb_lt _ _) Hb) in Hs.
    pose proof (Nat.Div0.mul_div_le ES (e_beat_size e)). nia. }
  pose proof (beat_flits_elem e i f (eo_size _ _ He) (eo_beat _ _ He) Hi) as Hel.
  unfold markBeatValid. simpl. change (beat_end e1 i) with (beat_end e i).
  rewrite (eo_size _ _ He). pose proof ES_mult as Hm.
  pose proof (Nat.div_mod_eq (i * e_beat_size e) FLIT_SIZE) as Hd.
  pose proof (Nat.mod_upper_bound (i * e_beat_size e) FLIT_SIZE ltac:(done)) as Hu.
  rewrite Nat.min_l by (unfold FLIT_SIZE in *; lia).
  destruct (_ || _) eqn:Eo.
  - split_and!; try done. rewrite other_beats; [done|]. rewrite Hel.
    apply orb_true_iff in Eo as [Eo|Eo]; apply Nat.leb_le in Eo; unfold FLIT_SIZE in *; lia.
  - apply orb_false_iff in Eo as [E1 E2]. apply Nat.leb_gt in E1, E2.
    assert (Hin : f ∈ beat_flits e i) by (apply Hel; unfold FLIT_SIZE in *; lia).
    change (forallb (flit_is_written e1) (beat_flits e1 i)) with (beat_written e1 i).
    destruct (beat_written e1 i); simpl; [done|]. rewrite Hv, not_yet_written by done. done.
Qed.

Lemma writeEntryFlit_statuses i s :
  e_beat_statuses e !! i = Some s ->
  exists s', e_beat_statuses (writeEntryFlit e data f) !! i = Some s'
    /\ bs_valid s' = beat_written e1 i /\ bs_sent s' = bs_sent s /\ bs_read s' = bs_read s
    /\ (bs_valid s = true -> bs_valid s' = true).
Proof.
  intros Hs. unfold writeEntryFlit, markBeatsValid. fold e1. change (e_entry_size e1) with (e_entry_size e).
  change (e_beat_size e1) with (e_beat_size e). rewrite (eo_size _ _ He).
  destruct (Nat.leb_spec ES (e_beat_size e)) as [Hb|Hb].
  - assert (i = 0%nat) as ->.
    { apply lookup_lt_Some in Hs. rewrite (eo_statuses _ _ He) in Hs.
      rewrite (proj2 (Nat.ltb_ge _ _) Hb) in Hs. lia. }
    assert (Hw : beat_written e1 0 = (e_filled_flits e1 =? length (e_flit_written e1))%nat).
    { unfold beat_written. rewrite beat_flits_whole; [|apply He|done].
      rewrite flit_written_forallb by (simpl; rewrite length_insert; apply He).
      change (e_filled_flits e1) with (S (e_filled_flits e)). rewrite e1_filled.
      by rewrite all_filled. }
    pose proof (eo_valid _ _ He 0 s Hs) as Hv. rewrite not_yet_written in Hv.
    2:{ rewrite beat_flits_whole; [|apply He|done]. apply elem_of_seq. lia. }
    rewrite <- Hw. destruct (beat_written e1 0) eqn:Ew; simpl.
    + exists (set_valid s). by rewrite list_lookup_alter_eq, Hs.
    + exists s. by rewrite Hs, Hv.
  - simpl. rewrite list_lookup_imap, Hs. simpl. eexists. split; [done|].
    by apply markBeatValid_spec.
Qed.

Lemma writeEntryFlit_shape :
  fixed (writeEntryFlit e data f) = fixed e
  /\ e_data (writeEntryFlit e data f) = e_data e1
  /\ e_flit_written (writeEntryFlit e data f) = e_flit_written e1
  /\ e_filled_flits (writeEntryFlit e data f) = e_filled_flits e1
  /\ length (e_beat_statuses (writeEntryFlit e data f)) = length (e_beat_statuses e).
Proof.
  unfold writeEntryFlit, markBeatsValid. fold e1.
  destruct (_ <=? _)%nat; [destruct (_ =? _)%nat|]; split_and!; try done; simpl.
  - apply length_alter.
  - apply length_imap.
Qed.

Lemma writeEntryFlit_lookup i s' :
  e_beat_statuses (writeEntryFlit e data f) !! i = Some s' ->
  exists s, e_beat_statuses e !! i = Some s /\ bs_valid s' = beat_written e1 i
    /\ bs_sent s' = bs_sent s /\ bs_read s' = bs_read s /\ (bs_valid s = true -> bs_valid s' = true).
Proof.
  intros Hs'. destruct writeEntryFlit_shape as (_ & _ & _ & _ & Hlen).
  assert (Hlt := lookup_lt_Some _ _ _ Hs'). rewrite Hlen in Hlt.
  destruct (lookup_lt_is_Some_2 _ _ Hlt) as [s Hs]. exists s.
  destruct (writeEntryFlit_statuses i s Hs) as (s2 & H2 & Hrest).
  rewrite Hs' in H2. injection H2 as <-. done.
Qed.

Lemma writeEntryFlit_same : same_entry e (writeEntryFlit e data f).
Proof.
  split; [apply writeEntryFlit_shape|]. intros i. unfold bsent.
  destruct (e_beat_statuses e !! i) as [s|] eqn:Hs.
  - destruct (writeEntryFlit_statuses i s Hs) as (s' & -> & _ & Hse & _). done.
  - destruct (e_beat_statuses (writeEntryFlit e data f) !! i) as [s'|] eqn:Hs'; [|done].
    destruct (writeEntryFlit_lookup i s' Hs') as (s & Hs2 & _). congruence.
Qed.

Lemma writeEntryFlit_ok : entry_ok nid (writeEntryFlit e data f).
Proof.
  destruct writeEntryFlit_shape as (Hfix & Hd & Hw & Hfl & Hlen).
  injection Hfix as ? ? Hbs Hes ? ? ? ?.
  assert (Hfw : forall g, flit_is_written (writeEntryFlit e data f) g = flit_is_written e1 g)
    by (intros g; unfold flit_is_written; by rewrite Hw).
  assert (Hbw : forall i, beat_written (writeEntryFlit e data f) i = beat_written e1 i).
  { intros i. unfold beat_written, beat_flits, beat_end. rewrite Hes, Hbs.
    change (e_entry_size e1) with (e_entry_size e). change (e_beat_size e1) with (e_beat_size e).
    generalize (seq (i * e_beat_size e / FLIT_SIZE)
      (S ((Nat.min (i * e_beat_size e + e_beat_size e) (e_entry_size e) - 1) / FLIT_SIZE)
       - i * e_beat_size e / FLIT_SIZE)).
    intros l. induction l as [|g l IH]; simpl; [done|]. by rewrite Hfw, IH. }
  destruct He. split.
  - congruence.
  - by rewrite Hbs.
  - rewrite Hd. simpl. by rewrite length_copy_into.
  - rewrite Hw. simpl. by rewrite length_insert.
  - rewrite Hfl, Hw. apply e1_filled.
  - intros g. rewrite Hfw, Hd. apply e1_bytes.
  - by rewrite Hlen, Hbs.
  - intros i s Hs. rewrite Hbw. by destruct (writeEntryFlit_lookup i s Hs) as (? & _ & ? & _).
  - intros i s Hs Hse. destruct (writeEntryFlit_lookup i s Hs) as (s0 & Hs0 & _ & Hq & _ & Hv).
    rewrite Hq in Hse. eauto.
  - intros i s Hs Hr. destruct (writeEntryFlit_lookup i s Hs) as (s0 & Hs0 & _ & Hq & Hr0 & _).
    rewrite Hq. rewrite Hr0 in Hr. eauto.
Qed.

End WriteFlit.

(** ** The beats still to be sent *)

(** Sending changes the [sent] flags of valid beats only. *)
Definition flag_step (s s' : beatStatus) : Prop :=
  bs_valid s' = bs_valid s /\ bs_read s' = bs_read s
  /\ (bs_sent s = true -> bs_sent s' = true)
  /\ (bs_sent s' = true -> bs_sent s = true \/ bs_valid s = true).

Definition evolves (e e' : RROBEntry) : Prop :=
  exists ss, e' = set_statuses ss e /\ Forall2 flag_step (e_beat_statuses e) ss.

#[local] Instance flag_step_po : PreOrder flag_step.
Proof.
  split; [by intros s; repeat split; auto|].
  intros s1 s2 s3 (V1 & R1 & A1 & B1) (V2 & R2 & A2 & B2). repeat split; try congruence; [by auto|].
  intros H. apply B2 in H as [H|H]; [by apply B1|]. right. congruence.
Qed.

#[local] Instance evolves_po : PreOrder evolves.
Proof.
  split.
  - intros e. exists (e_beat_statuses e). split; [by destruct e|]. reflexivity.
  - intros e1 e2 e3 (s2 & -> & H2) (s3 & -> & H3). exists s3. split; [done|]. simpl in *.
    by transitivity s2.
Qed.

Lemma evolves_fixed e e' : evolves e e' -> fixed e' = fixed e.
Proof. by intros (ss & -> & _). Qed.

Lemma evolves_ok nid e e' : entry_ok nid e -> evolves e e' -> entry_ok nid e'.
Proof.
  intros [] (ss & -> & HF). split; try done; simpl.
  - by rewrite <- (Forall2_length _ _ _ HF).
  - intros i s' Hs'. destruct (Forall2_lookup_r _ _ _ _ _ HF Hs') as (s & Hs & Hv & _).
    rewrite Hv. by apply eo_valid0.
  - intros i s' Hs' Hse. destruct (Forall2_lookup_r _ _ _ _ _ HF Hs') as (s & Hs & Hv & _ & _ & Hb).
    rewrite Hv. destruct (Hb Hse); [by eapply eo_sent0|done].
  - intros i s' Hs' Hr. destruct (Forall2_lookup_r _ _ _ _ _ HF Hs') as (s & Hs & _ & Hrd & Ha & _).
    apply Ha. eapply eo_read0; [done|]. congruence.
Qed.

Lemma alter_sent_evolves e i s :
  e_beat_statuses e !! i = Some s -> bs_valid s = true -> evolves e (alter_status set_sent i e).
Proof.
  intros Hs Hv. eexists. split; [reflexivity|].
  apply Forall2_lookup. intros j.
  destruct (decide (i = j)) as [<-|Hne].
  - rewrite list_lookup_alter_eq, Hs. simpl. constructor. repeat split; auto.
  - rewrite list_lookup_alter_ne by done. destruct (_ !! j); constructor. reflexivity.
Qed.

Lemma bsent_alter e i j :
  bsent (alter_status set_sent i e) j
  = bsent e j || (bool_decide (i = j) && bool_decide (is_Some (e_beat_statuses e !! j))).
Proof.
  unfold bsent. simpl. destruct (decide (i = j)) as [<-|Hne].
  - rewrite list_lookup_alter_eq, bool_decide_eq_true_2 by done.
    destruct (_ !! i); simpl; [|done]. by destruct (bs_sent _).
  - rewrite list_lookup_alter_ne, bool_decide_eq_false_2 by done. simpl. by rewrite orb_false_r.
Qed.

(** The message of beat [i], and that of a beat split over two entries. *)
Definition nmsg (nid : Z) (e : RROBEntry) (i : nat) : RReadMsg :=
  readMsg e (slice (D nid) (i * e_beat_size e) (e_beat_size e))
    (e_contains_last e && (e_last_beat_idx e =? i)%nat) i.
Definition pmsg (nid : Z) (e : RROBEntry) (nid2 : Z) (e2 : RROBEntry) : RReadMsg :=
  readMsg e (D nid ++ D nid2) (e_contains_last e2) 0.

Lemma nmsg_fixed nid e e' i : fixed e' = fixed e -> nmsg nid e' i = nmsg nid e i.
Proof. intros H. injection H as ? ? ? ? ? ? ? ?. unfold nmsg, readMsg. congruence. Qed.

Definition unsent (e : RROBEntry) (idx : list nat) : list nat :=
  filter (fun i => bsent e i = false) idx.

Lemma unsent_ext e e' idx :
  (forall j, j ∈ idx -> bsent e' j = bsent e j) -> unsent e' idx = unsent e idx.
Proof.
  unfold unsent. induction idx as [|i idx IH]; intros H; [done|].
  rewrite !filter_cons, IH by (intros; apply H; by right). rewrite H by left. done.
Qed.

(** An entry whose beats fit in it. *)
Definition normal_entry (e : RROBEntry) : Prop :=
  e_need_next_entry e = false /\ (e_beat_size e <= ES)%nat /\ (e_beat_size e <= 64)%nat
  /\ (e_last_beat_idx e < length (e_beat_statuses e))%nat.

Lemma beatBytes_ok nid e i s :
  entry_ok nid e -> (e_beat_size e <= ES)%nat -> (e_beat_size e <= 64)%nat ->
  e_beat_statuses e !! i = Some s -> bs_valid s = true ->
  beatBytes e i = Ok (slice (D nid) (i * e_beat_size e) (e_beat_size e)).
Proof.
  intros He Hb Hb64 Hs Hv. assert (Hw := eo_valid _ _ He i s Hs). rewrite Hv in Hw.
  assert (Hi : (i * e_beat_size e + e_beat_size e <= ES)%nat).
  { apply lookup_lt_Some in Hs. rewrite (eo_statuses _ _ He) in Hs.
    destruct (Nat.ltb_spec (e_beat_size e) ES).
    - pose proof (Nat.Div0.mul_div_le ES (e_beat_size e)). nia.
    - replace i with 0%nat by lia. lia. }
  unfold beatBytes. rewrite (eo_data _ _ He).
  rewrite (proj2 (Nat.leb_le _ _) Hi), (proj2 (Nat.leb_le _ _) Hb64). simpl.
  by rewrite (beat_slice nid).
Qed.

Lemma genBeats_spec nid idx e :
  entry_ok nid e -> (e_beat_size e <= ES)%nat -> (e_beat_size e <= 64)%nat ->
  NoDup idx -> Forall (fun i => i < length (e_beat_statuses e))%nat idx ->
  exists ms e' stop, genBeats idx e = Ok (ms, e', stop) /\ evolves e e'
    /\ nmsg nid e <$> unsent e idx = ms ++ (nmsg nid e <$> unsent e' idx)
    /\ (forall j, j ∉ idx -> bsent e' j = bsent e j)
    /\ (if stop then exists i s, i ∈ idx /\ e_beat_statuses e !! i = Some s /\ bs_valid s = false
        else unsent e' idx = []).
Proof.
  revert e. induction idx as [|i idx IH]; intros e He Hb Hb64 Hnd Hall.
  { by exists [], e, false. }
  apply NoDup_cons in Hnd as [Hni Hnd]. apply Forall_cons in Hall as [Hi Hall].
  destruct (lookup_lt_is_Some_2 _ _ Hi) as [s Hs]. simpl. unfold status. rewrite Hs. simpl.
  assert (Hbs : bsent e i = bs_sent s) by (unfold bsent; by rewrite Hs).
  destruct (bs_valid s) eqn:Hv; [destruct (bs_sent s) eqn:Hse|]; simpl.
  - destruct (IH e He Hb Hb64 Hnd Hall) as (ms & e' & stop & -> & Hev & Hms & Hout & Hst).
    exists ms, e', stop. assert (Hi' : bsent e' i = true) by (rewrite Hout by done; congruence).
    unfold unsent in *. rewrite !filter_cons_False by congruence. split_and!; try done.
    + intros j Hj. apply not_elem_of_cons in Hj as [_ Hj]. by apply Hout.
    + destruct stop; [|done]. destruct Hst as (k & s' & ? & ?). exists k, s'. split; [by right|done].
  - rewrite (beatBytes_ok nid e i s) by done. simpl. set (e1 := alter_status set_sent i e).
    assert (Hev1 : evolves e e1) by (by eapply alter_sent_evolves).
    destruct (IH e1) as (ms & e' & stop & -> & Hev & Hms & Hout & Hst);
      [by eapply evolves_ok|done|done|done| |].
    { apply (Forall_impl _ _ _ Hall). intros j Hj. simpl. by rewrite length_alter. }
    eexists _, e', stop. split; [reflexivity|].
    assert (Hi' : bsent e' i = true).
    { rewrite Hout by done. unfold e1. rewrite bsent_alter, bool_decide_eq_true_2 by done.
      rewrite bool_decide_eq_true_2 by (rewrite Hs; eauto). by rewrite orb_true_r. }
    assert (Hun : unsent e1 idx = unsent e idx).
    { apply unsent_ext. intros j Hj. unfold e1. rewrite bsent_alter.
      rewrite bool_decide_eq_false_2 by (by intros ->). by rewrite orb_false_r. }
    split_and!.
    + by transitivity e1.
    + unfold unsent at 1 2. rewrite filter_cons_True, filter_cons_False by congruence.
      rewrite fmap_cons. simpl. f_equal. fold (unsent e idx). fold (unsent e' idx).
      rewrite <- Hun. rewrite <- !(list_fmap_ext (nmsg nid e1) (nmsg nid e)) by (intros; by apply nmsg_fixed).
      done.
    + intros j Hj. apply not_elem_of_cons in Hj as [Hji Hj]. rewrite Hout by done. unfold e1.
      rewrite bsent_alter, bool_decide_eq_false_2 by congruence. by rewrite orb_false_r.
    + destruct stop.
      * destruct Hst as (k & s' & Hk & Hk' & Hkv). destruct (decide (i = k)) as [->|Hne]; [done|].
        simpl in Hk'. rewrite list_lookup_alter_ne in Hk' by done. exists k, s'. split; [by right|done].
      * unfold unsent. rewrite filter_cons_False by congruence. done.
  - exists [], e, true. split_and!; try done. exists i, s. split; [left|done].
Qed.

(** What remains to be sent from a list of entries, in order. *)
Fixpoint pend (l : list node) : list RReadMsg :=
  match l with
  | [] => []
  | n :: r =>
      if e_need_next_entry (n_e n) then
        match r with
        | [] => []
        | n2 :: r' =>
            (if bsent (n_e n) 0 then [] else [pmsg (n_id n) (n_e n) (n_id n2) (n_e n2)]) ++ pend r'
        end
      else (nmsg (n_id n) (n_e n) <$> unsent (n_e n) (seq 0 (S (e_last_beat_idx (n_e n)))))
           ++ pend r
  end.

Definition node_ok (n : node) : Prop := entry_ok (n_id n) (n_e n).

(** Two entries that hold the halves of one beat. *)
Record pair_ok (e e2 : RROBEntry) : Prop := {
  po_need : e_need_next_entry e2 = false;
  po_beat : (ES <= e_beat_size e)%nat;
  po_beat2 : (ES <= e_beat_size e2)%nat;
  po_last : e_last_beat_idx e = 0%nat;
  po_last2 : e_last_beat_idx e2 = 0%nat;
  po_size : (ES + ES <= 64)%nat;
  po_sent : bsent e 0 = bsent e2 0
}.

(** A list is a sequence of entries and of pairs. *)
Fixpoint list_ok (l : list node) : Prop :=
  match l with
  | [] => True
  | n :: r =>
      node_ok n /\
      if e_need_next_entry (n_e n) then
        match r with
        | [] => False
        | n2 :: r' => node_ok n2 /\ pair_ok (n_e n) (n_e n2) /\ list_ok r'
        end
      else normal_entry (n_e n) /\ list_ok r
  end.

Definition node_evolves (n n' : node) : Prop := n_id n' = n_id n /\ evolves (n_e n) (n_e n').

Definition complete (n : node) : Prop :=
  forall i, (i <= e_last_beat_idx (n_e n))%nat -> beat_written (n_e n) i = true.

Lemma whole_status nid e :
  entry_ok nid e -> (ES <= e_beat_size e)%nat ->
  exists s, e_beat_statuses e = [s] /\ bs_valid s = beat_written e 0 /\ bsent e 0 = bs_sent s
    /\ (bs_sent s = true -> bs_valid s = true).
Proof.
  intros He Hb. pose proof (eo_statuses _ _ He) as Hl. rewrite (proj2 (Nat.ltb_ge _ _) Hb) in Hl.
  destruct (e_beat_statuses e) as [|s [|]] eqn:E; try done. exists s.
  split_and!; [done| | |].
  - apply (eo_valid _ _ He). by rewrite E.
  - unfold bsent. by rewrite E.
  - apply (eo_sent _ _ He 0%nat). by rewrite E.
Qed.

(** The second half of a pair that has been sent is passed over. *)
Lemma genFrom_skip n r s :
  e_need_next_entry (n_e n) = false -> e_last_beat_idx (n_e n) = 0%nat ->
  e_beat_statuses (n_e n) = [s] -> bs_valid s = true -> bs_sent s = true ->
  genFrom n r = let* (ms, l) := genList r in Ok (ms, n :: l).
Proof.
  intros Hn Hl Hs Hv Hse. destruct n as [nid e]. simpl in *.
  destruct r as [|nxt r]; cbn [genFrom n_e n_id]; rewrite Hn, Hl; simpl; unfold status;
    rewrite Hs; simpl; rewrite Hv, Hse; simpl; done.
Qed.

Lemma bsent_whole e s : e_beat_statuses e = [s] -> bsent (alter_status set_sent 0 e) 0 = true.
Proof. intros Hs. unfold bsent. simpl. by rewrite Hs. Qed.

Lemma sent_pair_ok e e2 s s2 :
  pair_ok e e2 -> e_beat_statuses e = [s] -> e_beat_statuses e2 = [s2] ->
  pair_ok (alter_status set_sent 0 e) (alter_status set_sent 0 e2).
Proof.
  intros [] Hs Hs2. split; try done. by rewrite !(bsent_whole _ _ Hs), !(bsent_whole _ _ Hs2).
Qed.

(** The step at a pair. *)
Lemma genFrom_pair n n2 r :
  node_ok n -> node_ok n2 -> pair_ok (n_e n) (n_e n2) -> e_need_next_entry (n_e n) = true ->
  (genFrom n (n2 :: r) = Ok ([], n :: n2 :: r) /\ ~ (complete n /\ complete n2))
  \/ exists ms n' n2', node_evolves n n' /\ node_evolves n2 n2'
    /\ pair_ok (n_e n') (n_e n2') /\ bsent (n_e n') 0 = true
    /\ (if bsent (n_e n) 0 then [] else [pmsg (n_id n) (n_e n) (n_id n2) (n_e n2)]) = ms
    /\ genFrom n (n2 :: r) = let* (ms', l) := genList r in Ok (ms ++ ms', n' :: n2' :: l).
Proof.
  intros Hn Hn2 Hp Hneed. pose proof Hp as [Hnd Hb Hb2 Hl Hl2 Hsz Hse].
  destruct (whole_status _ _ Hn Hb) as (s & Es & Hv & Hbs & Hsv).
  destruct (whole_status _ _ Hn2 Hb2) as (s2 & Es2 & Hv2 & Hbs2 & Hsv2).
  rewrite Hbs, Hbs2 in Hse. cbn [genFrom]. rewrite Hneed. unfold status.
  rewrite Es, Es2. cbn [lookup list_lookup of_opt rbind].
  destruct (bs_valid s) eqn:Vs; [destruct (bs_valid s2) eqn:Vs2|]; simpl.
  - right. destruct (bs_sent s) eqn:Ss; rewrite <- Hse; simpl; rewrite Hbs.
    + exists [], n, n2. split_and!; try done.
      rewrite (genFrom_skip n2 r s2) by congruence. by destruct (genList r) as [[]|].
    + rewrite (eo_data _ _ Hn), (eo_data _ _ Hn2), (proj2 (Nat.leb_le _ _) Hsz). cbn [guard].
      set (n' := mk_node _ (alter_status set_sent 0 (n_e n))).
      set (n2' := mk_node _ (alter_status set_sent 0 (n_e n2))).
      eexists _, n', n2'. split_and!; [| | | |reflexivity|].
      * split; [done|]. eapply alter_sent_evolves; [by rewrite Es|done].
      * split; [done|]. eapply alter_sent_evolves; [by rewrite Es2|done].
      * by eapply sent_pair_ok.
      * by eapply bsent_whole.
      * rewrite (genFrom_skip n2' r (set_sent s2)); [|done|done|by simpl; rewrite Es2|done|done].
        rewrite (whole_bytes (n_id n) (n_e n)), (whole_bytes (n_id n2) (n_e n2)) by done.
        by destruct (genList r) as [[]|].
  - left. rewrite andb_false_r. split; [done|]. intros [_ Hc].
    specialize (Hc 0%nat ltac:(lia)). congruence.
  - left. split; [done|]. intros [Hc _]. specialize (Hc 0%nat ltac:(lia)). congruence.
Qed.

Lemma normal_evolves e e' : normal_entry e -> evolves e e' -> normal_entry e'.
Proof.
  intros (? & ? & ? & ?) (ss & -> & HF). unfold normal_entry. simpl.
  by rewrite <- (Forall2_length _ _ _ HF).
Qed.

Lemma genList_normal n r :
  node_ok n -> normal_entry (n_e n) ->
  exists ms n' (stop : bool), node_evolves n n'
    /\ nmsg (n_id n) (n_e n) <$> unsent (n_e n) (seq 0 (S (e_last_beat_idx (n_e n))))
       = ms ++ (nmsg (n_id n) (n_e n) <$> unsent (n_e n') (seq 0 (S (e_last_beat_idx (n_e n)))))
    /\ (if stop then ~ complete n
        else unsent (n_e n') (seq 0 (S (e_last_beat_idx (n_e n)))) = [])
    /\ genFrom n r = if stop then Ok (ms, n' :: r)
                     else let* (ms', l) := genList r in Ok (ms ++ ms', n' :: l).
Proof.
  intros Hn (Hneed & Hb & Hb64 & Hl).
  destruct (genBeats_spec (n_id n) (seq 0 (S (e_last_beat_idx (n_e n)))) (n_e n))
    as (ms & e' & stop & Hg & Hev & Hms & _ & Hst);
    [done|done|done|apply NoDup_seq|apply Forall_seq; lia|].
  exists ms, (mk_node (n_id n) e'), stop. split_and!; [by split|done| |].
  - destruct stop; [|done]. destruct Hst as (i & s & Hi & Hs & Hv). intros Hc.
    apply elem_of_seq in Hi. rewrite (eo_valid _ _ Hn i s Hs), Hc in Hv by lia. done.
  - destruct r as [|nxt r]; cbn [genFrom]; rewrite Hneed, Hg; cbn [rbind]; destruct stop; try done.
    simpl. by rewrite app_nil_r.
Qed.

#[local] Instance node_evolves_refl : Reflexive node_evolves.
Proof. intros n. split; [done|reflexivity]. Qed.

Lemma fixed_need e e' : fixed e' = fixed e -> e_need_next_entry e' = e_need_next_entry e.
Proof. intros H. by injection H. Qed.

Lemma fixed_last e e' : fixed e' = fixed e -> e_last_beat_idx e' = e_last_beat_idx e.
Proof. intros H. by injection H. Qed.

Lemma pend_normal n n' l :
  e_need_next_entry (n_e n) = false -> node_evolves n n' ->
  pend (n' :: l)
  = (nmsg (n_id n) (n_e n) <$> unsent (n_e n') (seq 0 (S (e_last_beat_idx (n_e n))))) ++ pend l.
Proof.
  intros Hneed [Hi He%evolves_fixed]. cbn [pend].
  rewrite (fixed_need _ _ He), Hneed, (fixed_last _ _ He), Hi. f_equal.
  apply list_fmap_ext. intros. by apply nmsg_fixed.
Qed.

(** Generating payloads takes a prefix of what remains, in order, and all of it
    when the flits of every beat have arrived. *)
Lemma genList_spec l :
  list_ok l ->
  exists ms l', genList l = Ok (ms, l') /\ list_ok l' /\ Forall2 node_evolves l l'
    /\ pend l = ms ++ pend l' /\ (Forall complete l -> pend l' = []).
Proof.
  induction l as [l IH] using (induction_ltof1 _ (@length node)). unfold ltof in IH.
  destruct l as [|n r]; intros Hok; [by exists [], []|]. pose proof Hok as Hall.
  simpl in Hok. destruct Hok as [Hn Hok]. cbn [genList].
  destruct (e_need_next_entry (n_e n)) eqn:Hneed.
  - destruct r as [|n2 r]; [done|]. destruct Hok as (Hn2 & Hp & Hok).
    destruct (genFrom_pair n n2 r Hn Hn2 Hp Hneed) as
      [[Hg Hnc]|(ms & n' & n2' & [Hi He] & [Hi2 He2] & Hp' & Hs' & Hms & Hg)].
    + exists [], (n :: n2 :: r). split_and!; [done|done|reflexivity|done|].
      intros [Hc [Hc2 _]%Forall_cons]%Forall_cons. by destruct Hnc.
    + destruct (IH r) as (ms' & l' & Hgr & Hok' & HF & Hpd & Hc); [simpl; lia|done|].
      rewrite Hgr in Hg. exists (ms ++ ms'), (n' :: n2' :: l').
      assert (Hneed' : e_need_next_entry (n_e n') = true)
        by (by rewrite (fixed_need _ _ (evolves_fixed _ _ He))).
      split_and!; [done| |by repeat constructor| |].
      * cbn [list_ok]. rewrite Hneed'. unfold node_ok. rewrite Hi, Hi2.
        split; [by eapply evolves_ok|]. split; [by eapply evolves_ok|done].
      * cbn [pend]. by rewrite Hneed, Hneed', Hs', Hms, Hpd, app_assoc.
      * intros [_ [_ Hcr]%Forall_cons]%Forall_cons. cbn [pend]. rewrite Hneed', Hs'. simpl. auto.
  - destruct Hok as [Hne Hok].
    destruct (genList_normal n r Hn Hne) as (ms & n' & stop & Hev & Hms & Hst & Hg).
    assert (Hn' : forall l, list_ok l -> list_ok (n' :: l)).
    { intros l Hl. destruct Hev as [Hi He]. cbn [list_ok].
      rewrite (fixed_need _ _ (evolves_fixed _ _ He)), Hneed. unfold node_ok. rewrite Hi.
      split; [by eapply evolves_ok|]. split; [by eapply normal_evolves|done]. }
    destruct stop.
    + exists ms, (n' :: r). split_and!; [done|exact (Hn' r Hok)|by constructor| |].
      * rewrite (pend_normal n n' r Hneed Hev), (pend_normal n n r Hneed (reflexivity n)).
        by rewrite Hms, app_assoc.
      * by intros [Hc _]%Forall_cons.
    + destruct (IH r) as (ms' & l' & Hgr & Hok' & HF & Hpd & Hc); [simpl; lia|done|].
      rewrite Hgr in Hg. exists (ms ++ ms'), (n' :: l').
      rewrite (pend_normal n n' l' Hneed Hev), (pend_normal n n r Hneed (reflexivity n)).
      rewrite Hms, Hst, app_nil_r. split; [done|]. split; [exact (Hn' l' Hok')|].
      split; [by constructor|]. split; [by rewrite Hpd, app_assoc|].
      intros [_ Hcr]%Forall_cons. auto.
Qed.

(** *** Lists under updates *)

Lemma pair_induction (P : list node -> Prop) :
  P [] -> (forall n r, e_need_next_entry (n_e n) = false -> P r -> P (n :: r)) ->
  (forall n n2 r, e_need_next_entry (n_e n) = true -> P r -> P (n :: n2 :: r)) ->
  (forall n, e_need_next_entry (n_e n) = true -> P [n]) -> forall l, P l.
Proof.
  intros H0 H1 H2 H3 l. induction l as [l IH] using (induction_ltof1 _ (@length node)).
  unfold ltof in IH. destruct l as [|n r]; [done|].
  destruct (e_need_next_entry (n_e n)) eqn:E.
  - destruct r as [|n2 r]; [by apply H3|]. apply H2; [done|]. apply IH. simpl. lia.
  - apply H1; [done|]. apply IH. simpl. lia.
Qed.

Definition node_same (n n' : node) : Prop :=
  n_id n' = n_id n /\ same_entry (n_e n) (n_e n') /\ node_ok n'.

Lemma pmsg_fixed nid e e' nid2 e2 e2' :
  fixed e' = fixed e -> fixed e2' = fixed e2 -> pmsg nid e' nid2 e2' = pmsg nid e nid2 e2.
Proof.
  intros H H2. injection H as ? ? ? ? ? ? ? ?. injection H2 as ? ? ? ? ? ? ? ?.
  unfold pmsg, readMsg. congruence.
Qed.

Lemma same_normal e e' nid nid' :
  entry_ok nid e -> entry_ok nid' e' -> fixed e' = fixed e -> normal_entry e -> normal_entry e'.
Proof.
  intros He He' Hf (H1 & H2 & H3 & H4). injection Hf as ? ? Hb ? Hn ? Hl ?.
  unfold normal_entry. rewrite Hn, Hb, Hl. split_and!; [done..|].
  rewrite (eo_statuses _ _ He'), Hb. by rewrite (eo_statuses _ _ He) in H4.
Qed.

(** Replacing entries by others with the same beats sent changes nothing to what
    remains. *)
Lemma list_same l l' :
  Forall2 node_same l l' -> list_ok l -> list_ok l' /\ pend l' = pend l.
Proof.
  revert l'. induction l as [|n r Hneed IH|n n2 r Hneed IH|n Hneed] using pair_induction;
    intros l' HF Hok.
  - apply Forall2_nil_inv_l in HF as ->. done.
  - apply Forall2_cons_inv_l in HF as (n' & r' & (Hi & (Hf & Hs) & Hok') & HF & ->).
    simpl in Hok. rewrite Hneed in Hok. destruct Hok as (Hn & Hnm & Hr).
    destruct (IH r' HF Hr) as [IH1 IH2]. cbn [list_ok pend].
    rewrite (fixed_need _ _ Hf), Hneed, IH2, (fixed_last _ _ Hf), Hi. split.
    + split; [done|]. split; [by eapply (same_normal (n_e n)); [exact Hn|exact Hok'|..]|done].
    + f_equal. rewrite (unsent_ext (n_e n)) by done.
      apply list_fmap_ext. intros. by apply nmsg_fixed.
  - apply Forall2_cons_inv_l in HF as (n' & l1 & (Hi & (Hf & Hs) & Hok') & HF & ->).
    apply Forall2_cons_inv_l in HF as (n2' & r' & (Hi2 & (Hf2 & Hs2) & Hok2') & HF & ->).
    simpl in Hok. rewrite Hneed in Hok. destruct Hok as (Hn & Hn2 & Hp & Hr).
    destruct (IH r' HF Hr) as [IH1 IH2]. cbn [list_ok pend].
    rewrite (fixed_need _ _ Hf), Hneed, IH2, Hs, Hi, Hi2. split.
    + split; [done|]. split; [done|]. split; [|done]. destruct Hp.
      injection Hf as ? ? Hb ? ? ? Hl ?. injection Hf2 as ? ? Hb2 ? Hnd2 ? Hl2 ?.
      split; rewrite ?Hb, ?Hb2, ?Hl, ?Hl2, ?Hs, ?Hs2, ?Hnd2; done.
    + by rewrite (pmsg_fixed _ (n_e n) _ _ (n_e n2)).
  - simpl in Hok. rewrite Hneed in Hok. by destruct Hok.
Qed.

Lemma list_app l1 l2 :
  list_ok l1 -> list_ok l2 -> list_ok (l1 ++ l2) /\ pend (l1 ++ l2) = pend l1 ++ pend l2.
Proof.
  intros H1 H2. induction l1 as [|n r Hneed IH|n n2 r Hneed IH|n Hneed] using pair_induction.
  - done.
  - simpl in H1. rewrite Hneed in H1. destruct H1 as (? & ? & Hr).
    destruct (IH Hr) as [IH1 IH2]. simpl. rewrite Hneed, IH2, <- app_assoc. done.
  - simpl in H1. rewrite Hneed in H1. destruct H1 as (? & ? & ? & Hr).
    destruct (IH Hr) as [IH1 IH2]. simpl. rewrite Hneed, IH2, <- app_assoc. done.
  - simpl in H1. rewrite Hneed in H1. by destruct H1.
Qed.

(** The nodes at which a beat begins: all but second halves. *)
Fixpoint heads (l : list node) : list Z :=
  match l with
  | [] => []
  | n :: r =>
      if e_need_next_entry (n_e n)
      then match r with [] => [] | _ :: r' => n_id n :: heads r' end
      else n_id n :: heads r
  end.

Lemma heads_split l nid :
  list_ok l -> nid ∈ heads l ->
  exists l1 n r, l = l1 ++ n :: r /\ n_id n = nid /\ list_ok l1 /\ list_ok (n :: r).
Proof.
  intros Hok. pose proof Hok as Hall.
  induction l as [|n r Hneed IH|n n2 r Hneed IH|n Hneed] using pair_induction; intros Hin.
  - by apply elem_of_nil in Hin.
  - simpl in Hin, Hok. rewrite Hneed in Hin, Hok. destruct Hok as (Hn & Hnm & Hr).
    apply elem_of_cons in Hin as [->|Hin]; [by exists [], n, r|].
    destruct (IH Hr Hr Hin) as (l1 & x & r' & -> & Hx & H1 & H2).
    exists (n :: l1), x, r'. split_and!; try done. cbn [list_ok]. by rewrite Hneed.
  - simpl in Hin, Hok. rewrite Hneed in Hin, Hok. destruct Hok as (Hn & Hn2 & Hp & Hr).
    apply elem_of_cons in Hin as [->|Hin]; [by exists [], n, (n2 :: r)|].
    destruct (IH Hr Hr Hin) as (l1 & x & r' & -> & Hx & H1 & H2).
    exists (n :: n2 :: l1), x, r'. split_and!; try done. cbn [list_ok]. by rewrite Hneed.
  - simpl in Hok. rewrite Hneed in Hok. by destruct Hok.
Qed.

(** ** The tag maps *)

(** Every live node is known by its tag, every tag leads to a live node, and the
    entry count is the number of nodes. *)
Record tags_ok (m : AxiListManager) : Prop := {
  to_size : rb_entry_size m = ES;
  to_nodes : forall i l, lists m !! i = Some l -> NoDup (n_id <$> l)
    /\ Forall (fun n => n_id n < nextNode m /\ e_axi_id (n_e n) = i) l;
  to_tag : forall i l n, lists m !! i = Some l -> n ∈ l ->
    tagToIterator m !! e_tag (n_e n) = Some (i, n_id n)
    /\ tagToAxiID m !! e_tag (n_e n) = Some i;
  to_iter : forall t i nid, tagToIterator m !! t = Some (i, nid) ->
    exists l n, lists m !! i = Some l /\ n ∈ l /\ n_id n = nid /\ e_tag (n_e n) = t;
  to_count : numEntries m = total_length (lists m);
  to_max : 0 <= rb_max_entries m < 2^16 /\ numEntries m <= rb_max_entries m
}.

Definition lists_ok (m : AxiListManager) : Prop :=
  forall i l, lists m !! i = Some l -> list_ok l.

Lemma node_unique l n n' :
  NoDup (n_id <$> l) -> n ∈ l -> n' ∈ l -> n_id n = n_id n' -> n = n'.
Proof.
  intros Hnd Hn Hn' E. apply list_elem_of_lookup in Hn as [j Hj].
  apply list_elem_of_lookup in Hn' as [k Hk].
  assert (j = k) as ->; [|congruence].
  eapply (NoDup_lookup _ _ _ (n_id n)); [exact Hnd|..]; rewrite list_lookup_fmap.
  - by rewrite Hj.
  - rewrite Hk. simpl. by rewrite E.
Qed.

Lemma deref_node m i l n :
  lists m !! i = Some l -> NoDup (n_id <$> l) -> n ∈ l -> deref m (i, n_id n) = Ok (n_e n).
Proof.
  intros Hl Hnd Hn. unfold deref, node_pos, axiList. simpl. rewrite Hl. simpl.
  destruct (list_find _ l) as [[k x]|] eqn:E; simpl.
  - apply list_find_Some in E as (Hk & Hid & _). rewrite Hk. simpl.
    f_equal. f_equal. eapply node_unique; [done| |done|done]. by eapply list_elem_of_lookup_2.
  - apply list_find_None in E. rewrite Forall_forall in E. by apply E in Hn.
Qed.

Lemma assign_lookup m i nid e l :
  lists m !! i = Some l ->
  lists (assign m (i, nid) e)
  = <[i := (fun n => if n_id n =? nid then mk_node nid e else n) <$> l]> (lists m).
Proof.
  intros Hl. simpl. apply map_eq. intros j. destruct (decide (i = j)) as [<-|Hne].
  - by rewrite lookup_alter_eq, lookup_insert_eq, Hl.
  - by rewrite lookup_alter_ne, lookup_insert_ne.
Qed.

(** Replacing the entries of one list keeps the maps right. *)
Definition node_fixed (n n' : node) : Prop := n_id n' = n_id n /\ fixed (n_e n') = fixed (n_e n).

Lemma node_fixed_ids l l' : Forall2 node_fixed l l' -> n_id <$> l' = n_id <$> l.
Proof. induction 1 as [|n n' l l' [H _] HF IH]; [done|]. rewrite !fmap_cons. by rewrite H, IH. Qed.

Lemma tags_ok_update m i l l' :
  tags_ok m -> lists m !! i = Some l -> Forall2 node_fixed l l' ->
  tags_ok (with_lists (<[i := l']> (lists m)) m).
Proof.
  intros [] Hl HF. split; simpl; try done.
  - intros j k. destruct (decide (i = j)) as [<-|Hne].
    + rewrite lookup_insert_eq. intros [= <-]. destruct (to_nodes0 i l Hl) as [H1 H2].
      rewrite (node_fixed_ids _ _ HF). split; [done|].
      apply Forall_lookup. intros q n' Hn'.
      destruct (Forall2_lookup_r _ _ _ _ _ HF Hn') as (n & Hn & Hi & Hf).
      pose proof (Forall_lookup_1 _ _ _ _ H2 Hn) as [? ?]. injection Hf as ? Ha ? ? ? ? ? ?.
      rewrite Hi, Ha. done.
    + rewrite lookup_insert_ne by done. apply to_nodes0.
  - intros j k n'. destruct (decide (i = j)) as [<-|Hne].
    + rewrite lookup_insert_eq. intros [= <-] [q Hq]%list_elem_of_lookup.
      destruct (Forall2_lookup_r _ _ _ _ _ HF Hq) as (n & Hn & Hi & Hf).
      injection Hf as Ht ? ? ? ? ? ? ?. rewrite Ht, Hi. apply (to_tag0 i l); [done|].
      by eapply list_elem_of_lookup_2.
    + rewrite lookup_insert_ne by done. apply to_tag0.
  - intros t j nid Ht. destruct (to_iter0 t j nid Ht) as (k & n & Hk & Hn & Hid & Htag).
    destruct (decide (i = j)) as [<-|Hne].
    + rewrite Hl in Hk. injection Hk as <-. apply list_elem_of_lookup in Hn as [q Hq].
      destruct (Forall2_lookup_l _ _ _ _ _ HF Hq) as (n' & Hn' & Hi & Hf).
      injection Hf as Ht' ? ? ? ? ? ? ?. exists l', n'. rewrite lookup_insert_eq.
      split_and!; [done|by eapply list_elem_of_lookup_2|congruence|congruence].
    + exists k, n. by rewrite lookup_insert_ne.
  - rewrite to_count0, total_length_set, Hl. simpl.
    rewrite <- (Forall2_length _ _ _ HF). lia.
Qed.

Lemma lists_ok_update m i l' :
  lists_ok m -> list_ok l' -> lists_ok (with_lists (<[i := l']> (lists m)) m).
Proof.
  intros H Hl j l. simpl. destruct (decide (i = j)) as [<-|Hne].
  - rewrite lookup_insert_eq. by intros [= <-].
  - rewrite lookup_insert_ne by done. apply H.
Qed.

Lemma axiList_update m i l' j :
  axiList (with_lists (<[i := l']> (lists m)) m) j = if decide (j = i) then l' else axiList m j.
Proof.
  unfold axiList. simpl. destruct (decide (j = i)) as [->|Hne].
  - by rewrite lookup_insert_eq.
  - by rewrite lookup_insert_ne.
Qed.

(** Assigning to one node of a list. *)
Lemma assign_same l nid e e' :
  NoDup (n_id <$> l) -> Forall node_ok l -> mk_node nid e ∈ l -> same_entry e e' ->
  entry_ok nid e' ->
  Forall2 node_same l ((fun n => if n_id n =? nid then mk_node nid e' else n) <$> l).
Proof.
  intros Hnd Hok Hin Hs He. apply Forall2_fmap_r, Forall_Forall2_diag, Forall_forall. intros n Hn. unfold compose.
  destruct (Z.eqb_spec (n_id n) nid) as [E|E].
  - assert (n = mk_node nid e) as -> by (by eapply node_unique).
    split; [done|]. split; [done|]. exact He.
  - split; [done|]. split; [done|]. rewrite Forall_forall in Hok. by apply Hok.
Qed.

Lemma list_ok_nodes l : list_ok l -> Forall node_ok l.
Proof.
  induction l as [|n r Hneed IH|n n2 r Hneed IH|n Hneed] using pair_induction; intros Hok;
    [done|..]; simpl in Hok; rewrite Hneed in Hok.
  - destruct Hok as (? & _ & ?). apply Forall_cons. auto.
  - destruct Hok as (? & ? & _ & ?). rewrite !Forall_cons. auto.
  - by destruct Hok.
Qed.

(** The effect of a store into a live entry that leaves the beats sent alone. *)
Lemma assign_ok m i l n e' :
  tags_ok m -> lists_ok m -> lists m !! i = Some l -> n ∈ l ->
  same_entry (n_e n) e' -> entry_ok (n_id n) e' ->
  exists l', lists (assign m (i, n_id n) e') = <[i := l']> (lists m)
    /\ Forall2 node_same l l' /\ list_ok l' /\ pend l' = pend l
    /\ tags_ok (assign m (i, n_id n) e') /\ lists_ok (assign m (i, n_id n) e').
Proof.
  intros Ht Hok Hl Hn Hs He. destruct (to_nodes _ Ht i l Hl) as [Hnd _].
  pose proof (assign_same l (n_id n) (n_e n) e' Hnd (list_ok_nodes _ (Hok _ _ Hl))
                ltac:(by destruct n) Hs He) as HF.
  destruct (list_same _ _ HF (Hok _ _ Hl)) as [Hl1 Hl2].
  eexists. split; [by apply assign_lookup|]. split_and!; [done..| |].
  - assert (E : assign m (i, n_id n) e' = with_lists (<[i := (fun x => if n_id x =? n_id n
        then mk_node (n_id n) e' else x) <$> l]> (lists m)) m).
    { unfold assign. f_equal. by apply (assign_lookup m i (n_id n) e' l). }
    rewrite E. apply (tags_ok_update m i l); [done|done|].
    apply (Forall2_impl _ _ _ _ HF). intros x y (? & (? & _) & _). done.
  - intros j k. rewrite (assign_lookup m i _ e' l Hl). destruct (decide (i = j)) as [<-|Hne].
    + rewrite lookup_insert_eq. by intros [= <-].
    + rewrite lookup_insert_ne by done. apply Hok.
Qed.

(** ** Reserving entries *)

Definition freshEntry (axi : Z) (beat_size : nat) (need_next contains_last : bool)
    (last_beat_idx : nat) (tag vnet : Z) : RROBEntry :=
  {| e_tag := tag; e_axi_id := axi; e_beat_size := beat_size; e_entry_size := ES;
     e_filled_flits := 0; e_flit_written := replicate (ES / FLIT_SIZE) false;
     e_data := zeros ES; e_need_next_entry := need_next;
     e_beat_statuses := replicate (if beat_size <? ES then ES / beat_size else 1)%nat
                          beatStatus_default;
     e_contains_last := contains_last; e_last_beat_idx := last_beat_idx; e_vnet := vnet |}.

Lemma replicate_false n f : default false (replicate n false !! f) = false.
Proof.
  destruct (replicate n false !! f) eqn:E; [|done]. by apply lookup_replicate in E as [-> _].
Qed.

Lemma filter_replicate_false n : filter Is_true (replicate n false) = [].
Proof. induction n as [|n IH]; [done|]. simpl. by rewrite filter_cons_False by (intros []). Qed.

Lemma freshEntry_ok nid axi bs need cl last tag vnet :
  (0 < bs)%nat -> entry_ok nid (freshEntry axi bs need cl last tag vnet).
Proof.
  intros Hb. set (e := freshEntry _ _ _ _ _ _ _).
  assert (Hw : forall f, flit_is_written e f = false) by (intros; apply replicate_false).
  split; simpl; try done.
  - apply length_replicate.
  - apply length_replicate.
  - by rewrite filter_replicate_false.
  - intros f Hf. by rewrite Hw in Hf.
  - apply length_replicate.
  - intros i s Hs. apply lookup_replicate in Hs as [-> Hi]. simpl. symmetry.
    assert (Hlt : (i * bs < ES)%nat).
    { destruct (Nat.ltb_spec bs ES); [|destruct ES_flits; replace i with 0%nat by lia; lia].
      pose proof (Nat.Div0.mul_div_le ES bs). nia. }
    apply not_true_is_false. unfold beat_written. rewrite forallb_forall. intros H.
    specialize (H (i * bs / FLIT_SIZE)%nat). rewrite Hw in H. discriminate H.
    apply list_elem_of_In, beat_flits_elem; [done|done|done|].
    split; [done|]. unfold beat_end. change (e_beat_size e) with bs. change (e_entry_size e) with ES.
    pose proof (Nat.Div0.mul_div_le (i * bs) FLIT_SIZE). unfold FLIT_SIZE in *. lia.
  - intros i s Hs. by apply lookup_replicate in Hs as [-> _].
  - intros i s Hs. by apply lookup_replicate in Hs as [-> _].
Qed.

Lemma fresh_unsent axi bs need cl last tag vnet i :
  bsent (freshEntry axi bs need cl last tag vnet) i = false.
Proof.
  unfold bsent. simpl. destruct (replicate _ _ !! i) eqn:E; [|done].
  by apply lookup_replicate in E as [-> _].
Qed.

Lemma unsent_all e idx : (forall i, bsent e i = false) -> unsent e idx = idx.
Proof.
  intros H. unfold unsent. induction idx as [|i idx IH]; [done|].
  by rewrite filter_cons_True, IH by apply H.
Qed.

Lemma tags_ok_nonneg m : tags_ok m -> 0 <= numEntries m.
Proof. intros Ht. rewrite (to_count _ Ht). apply total_length_nonneg. Qed.

Lemma addEntry_spec m i bs cl last vnet need :
  tags_ok m -> numEntries m < rb_max_entries m -> tagToIterator m !! nextTag m = None ->
  (0 < bs)%nat ->
  exists m', addEntry m i bs cl last vnet need = Ok (nextTag m, m') /\ tags_ok m'
    /\ lists m' = <[i := axiList m i ++ [mk_node (nextNode m)
         (freshEntry i bs need cl last (nextTag m) vnet)]]> (lists m)
    /\ tagToIterator m' = <[nextTag m := (i, nextNode m)]> (tagToIterator m)
    /\ nextTag m' = u8 (nextTag m + 1) /\ nextNode m' = nextNode m + 1
    /\ numEntries m' = numEntries m + 1 /\ rb_max_entries m' = rb_max_entries m.
Proof.
  intros Ht Hroom Hfree Hb. pose proof (tags_ok_nonneg m Ht) as Hnn.
  pose proof (to_max _ Ht) as [Hmax _]. unfold addEntry.
  rewrite u64_small by lia. rewrite (proj2 (Z.leb_gt _ _)) by lia.
  unfold newRROBEntry. rewrite (proj2 (Nat.ltb_lt _ _) Hb). cbn [orb guard rbind].
  rewrite (to_size _ Ht). eexists. split; [reflexivity|]. split; [|done].
  destruct Ht. set (n := mk_node _ _). split; simpl; try done.
  - intros j l. destruct (decide (i = j)) as [<-|Hne].
    + rewrite lookup_insert_eq. intros [= <-]. rewrite fmap_app. unfold axiList.
      destruct (lists m !! i) as [l|] eqn:Hl; simpl.
      * destruct (to_nodes0 i l Hl) as [H1 H2]. split.
        -- apply NoDup_app. split_and!; [done| |by apply NoDup_singleton].
           intros x [y [-> Hy]]%list_elem_of_fmap Hx. apply list_elem_of_singleton in Hx.
           rewrite Forall_forall in H2. apply H2 in Hy as [Hy _]. simpl in Hx. lia.
        -- apply Forall_app. split; [|by repeat constructor; simpl; lia].
           apply (Forall_impl _ _ _ H2). intros x [? ?]. split; [lia|done].
      * split; [by apply NoDup_singleton|]. by repeat constructor; simpl; lia.
    + rewrite lookup_insert_ne by done. intros Hl. destruct (to_nodes0 j l Hl) as [H1 H2].
      split; [done|]. apply (Forall_impl _ _ _ H2). intros x [? ?]. split; [lia|done].
  - assert (Hold : forall j l x, lists m !! j = Some l -> x ∈ l ->
      <[nextTag m := (i, nextNode m)]> (tagToIterator m) !! e_tag (n_e x) = Some (j, n_id x)
      /\ <[nextTag m := i]> (tagToAxiID m) !! e_tag (n_e x) = Some j).
    { intros j l x Hl Hx. destruct (to_tag0 j l x Hl Hx) as [H1 H2].
      assert (nextTag m <> e_tag (n_e x)) by (intros E; rewrite E in Hfree; congruence).
      by rewrite !lookup_insert_ne by done. }
    intros j l x. destruct (decide (i = j)) as [<-|Hne].
    + rewrite lookup_insert_eq. intros [= <-] [Hx|Hx]%elem_of_app.
      * unfold axiList in Hx. destruct (lists m !! i) as [l|] eqn:Hl; [by eapply Hold|].
        by apply elem_of_nil in Hx.
      * apply list_elem_of_singleton in Hx as ->. simpl. by rewrite !lookup_insert_eq.
    + rewrite lookup_insert_ne by done. apply Hold.
  - intros t j nid. destruct (decide (nextTag m = t)) as [<-|Hne].
    + rewrite lookup_insert_eq. intros [= <- <-]. eexists _, n. rewrite lookup_insert_eq.
      split_and!; [reflexivity| |done|done]. apply elem_of_app. right. by left.
    + rewrite lookup_insert_ne by done. intros Hit.
      destruct (to_iter0 t j nid Hit) as (l & x & Hl & Hx & Hid & Htag).
      destruct (decide (i = j)) as [<-|Hij].
      * eexists _, x. rewrite lookup_insert_eq. split_and!; [reflexivity| |done|done].
        unfold axiList. rewrite Hl. apply elem_of_app. by left.
      * exists l, x. by rewrite lookup_insert_ne.
  - rewrite total_length_set, to_count0. unfold axiList. rewrite length_app. simpl. lia.
  - lia.
Qed.

(** ** Removing entries *)

Lemma node_pos_split l1 n l2 :
  NoDup (n_id <$> l1 ++ n :: l2) -> node_pos (n_id n) (l1 ++ n :: l2) = Some (length l1).
Proof.
  rewrite fmap_app, fmap_cons. intros Hnd. unfold node_pos.
  rewrite list_find_app_r; simpl; [by rewrite decide_True by done|].
  apply list_find_None, Forall_forall. intros x Hx E.
  apply NoDup_app in Hnd as (_ & Hd & _). eapply (Hd (n_id x)).
  - by apply list_elem_of_fmap_2.
  - rewrite E. by left.
Qed.

Lemma dropNode_split l1 n l2 :
  NoDup (n_id <$> l1 ++ n :: l2) -> dropNode (n_id n) (l1 ++ n :: l2) = l1 ++ l2.
Proof.
  rewrite fmap_app, fmap_cons. intros Hnd. apply NoDup_app in Hnd as (_ & Hd & Hnd).
  apply NoDup_cons in Hnd as [Hn _]. unfold dropNode. rewrite filter_app.
  rewrite filter_cons_False by (by intros []).
  assert (Hall : forall l : list node, n_id n ∉ n_id <$> l -> filter (fun x => n_id x <> n_id n) l = l).
  { intros l Hl. induction l as [|x l IH]; [done|].
    rewrite fmap_cons in Hl. apply not_elem_of_cons in Hl as [H1 H2].
    by rewrite filter_cons_True, IH by congruence. }
  rewrite !Hall; [done|done|]. intros H. eapply Hd; [exact H|by left].
Qed.

Lemma tags_distinct m i l x y :
  tags_ok m -> lists m !! i = Some l -> x ∈ l -> y ∈ l -> e_tag (n_e x) = e_tag (n_e y) -> x = y.
Proof.
  intros Ht Hl Hx Hy E. destruct (to_tag _ Ht i l x Hl Hx) as [H1 _].
  destruct (to_tag _ Ht i l y Hl Hy) as [H2 _]. rewrite E, H2 in H1. injection H1 as H1.
  destruct (to_nodes _ Ht i l Hl) as [Hnd _]. by eapply node_unique.
Qed.

Lemma erase_spec m i l1 n l2 :
  tags_ok m -> lists m !! i = Some (l1 ++ n :: l2) ->
  lists (eraseNode m i (n_id n) (e_tag (n_e n))) = <[i := l1 ++ l2]> (lists m)
  /\ tags_ok (eraseNode m i (n_id n) (e_tag (n_e n))).
Proof.
  intros Ht Hl. destruct (to_nodes _ Ht i _ Hl) as [Hnd Hall].
  assert (El : lists (eraseNode m i (n_id n) (e_tag (n_e n))) = <[i := l1 ++ l2]> (lists m)).
  { simpl. apply map_eq. intros j. destruct (decide (i = j)) as [<-|Hne].
    - rewrite lookup_alter_eq, lookup_insert_eq, Hl. simpl. by rewrite dropNode_split.
    - by rewrite lookup_alter_ne, lookup_insert_ne. }
  assert (Hin : n ∈ l1 ++ n :: l2) by (apply elem_of_app; right; by left).
  assert (Hsub : forall x, x ∈ l1 ++ l2 -> x ∈ l1 ++ n :: l2).
  { intros x. rewrite !elem_of_app, elem_of_cons. tauto. }
  assert (Hnot : n ∉ l1 ++ l2).
  { intros H. rewrite fmap_app, fmap_cons in Hnd. apply NoDup_app in Hnd as (_ & Hd & Hnd).
    apply NoDup_cons in Hnd as [Hn _]. apply elem_of_app in H as [H|H].
    - eapply Hd; [by apply list_elem_of_fmap_2|by left].
    - apply Hn. by apply list_elem_of_fmap_2. }
  split; [done|]. pose proof Ht as []. split; try done.
  - intros j l. rewrite El. destruct (decide (i = j)) as [<-|Hne].
    + rewrite lookup_insert_eq. intros [= <-]. split.
      * eapply sublist_NoDup; [exact Hnd|]. rewrite !fmap_app, fmap_cons.
        apply sublist_app; [done|]. by apply sublist_cons.
      * apply Forall_forall. intros x Hx. rewrite Forall_forall in Hall. auto.
    + rewrite lookup_insert_ne by done. apply to_nodes0.
  - intros j l x. rewrite El. destruct (decide (i = j)) as [<-|Hne].
    + rewrite lookup_insert_eq. intros [= <-] Hx. simpl.
      assert (e_tag (n_e n) <> e_tag (n_e x)).
      { intros E. apply Hnot.
        by rewrite (tags_distinct m i _ n x Ht Hl Hin (Hsub x Hx) E). }
      rewrite !lookup_delete_ne by done. apply (to_tag0 i _ x Hl). auto.
    + rewrite lookup_insert_ne by done. intros Hj Hx. simpl.
      destruct (to_tag0 j l x Hj Hx) as [H1 H2]. destruct (to_tag0 i _ n Hl Hin) as [H3 _].
      assert (e_tag (n_e n) <> e_tag (n_e x)) by (intros E; rewrite E in H3; congruence).
      by rewrite !lookup_delete_ne by done.
  - intros t j nid. simpl (tagToIterator _). intros [Hne Hit]%lookup_delete_Some. rewrite El.
    destruct (to_iter0 t j nid Hit) as (l & x & Hj & Hx & Hid & Htag).
    destruct (decide (i = j)) as [<-|Hij].
    + rewrite Hl in Hj. injection Hj as <-. exists (l1 ++ l2), x. rewrite lookup_insert_eq.
      split_and!; try done. rewrite elem_of_app, elem_of_cons in Hx. rewrite elem_of_app.
      destruct Hx as [?|[->|?]]; [tauto|by destruct Hne|tauto].
    + exists l, x. by rewrite lookup_insert_ne.
  - rewrite El, total_length_set, Hl. simpl. rewrite to_count0, !length_app. simpl. lia.
  - simpl. lia.
Qed.

Lemma clean_spec m i :
  tags_ok m -> tags_ok (cleanList m i) /\ (forall j, axiList (cleanList m i) j = axiList m j)
  /\ (lists_ok m -> lists_ok (cleanList m i)).
Proof.
  intros Ht. unfold cleanList. destruct (lists m !! i) as [[|n l]|] eqn:Hl; [|done..].
  split_and!.
  - pose proof Ht as []. split; simpl; try done.
    + intros j l [_ Hj]%lookup_delete_Some. by apply to_nodes0.
    + intros j l x [_ Hj]%lookup_delete_Some. by apply to_tag0.
    + intros t j nid Hit. destruct (to_iter0 t j nid Hit) as (l & x & Hj & Hx & Hrest).
      exists l, x. rewrite lookup_delete_ne; [done|]. intros ->. rewrite Hl in Hj.
      injection Hj as <-. by apply elem_of_nil in Hx.
    + rewrite to_count0, (total_length_delete _ _ _ Hl). done.
  - intros j. unfold axiList. simpl. destruct (decide (i = j)) as [<-|Hne].
    + by rewrite lookup_delete_eq, Hl.
    + by rewrite lookup_delete_ne.
  - intros Hok j l. simpl. intros [_ Hj]%lookup_delete_Some. by eapply Hok.
Qed.

Lemma tagOf_node m i l n :
  tags_ok m -> lists m !! i = Some l -> n ∈ l -> tagOf m (i, n_id n) = Some (e_tag (n_e n)).
Proof.
  intros Ht Hl Hn. destruct (to_tag _ Ht i l n Hl Hn) as [Hit _].
  destruct (to_nodes _ Ht i l Hl) as [Hnd _]. unfold tagOf.
  set (f := filter _ _).
  assert (Hf : forall p, p ∈ f -> p.1 = e_tag (n_e n)).
  { intros [t it] [Hp Hm]%list_elem_of_filter. simpl in *. subst it.
    apply elem_of_map_to_list in Hm.
    destruct (to_iter _ Ht _ _ _ Hm) as (l' & x & Hl' & Hx & Hid & Htag).
    rewrite Hl in Hl'. injection Hl' as <-.
    by rewrite <- Htag, (node_unique l x n Hnd Hx Hn Hid). }
  destruct f as [|p f'] eqn:E.
  - assert (H : (e_tag (n_e n), (i, n_id n)) ∈ f).
    { unfold f. apply list_elem_of_filter. split; [done|]. by apply elem_of_map_to_list. }
    rewrite E in H. by apply elem_of_nil in H.
  - simpl. f_equal. apply Hf. by left.
Qed.

Lemma node_same_fixed l l' : Forall2 node_same l l' -> Forall2 node_fixed l l'.
Proof. intros HF. apply (Forall2_impl _ _ _ _ HF). by intros x y (? & (? & _) & _). Qed.

Lemma heads_fixed l l' : Forall2 node_fixed l l' -> heads l' = heads l.
Proof.
  revert l'. induction l as [|n r Hneed IH|n n2 r Hneed IH|n Hneed] using pair_induction;
    intros l' HF.
  - by apply Forall2_nil_inv_l in HF as ->.
  - apply Forall2_cons_inv_l in HF as (n' & r' & [Hi Hf] & HF & ->). simpl.
    by rewrite (fixed_need _ _ Hf), Hneed, Hi, (IH r').
  - apply Forall2_cons_inv_l in HF as (n' & l1 & [Hi Hf] & HF & ->).
    apply Forall2_cons_inv_l in HF as (n2' & r' & _ & HF & ->). simpl.
    by rewrite (fixed_need _ _ Hf), Hneed, Hi, (IH r').
  - apply Forall2_cons_inv_l in HF as (n' & r' & [Hi Hf] & HF & ->).
    apply Forall2_nil_inv_l in HF as ->. simpl. by rewrite (fixed_need _ _ Hf), Hneed.
Qed.

(** *** Removing an entry all of whose beats were sent *)

Definition all_sent (e : RROBEntry) : Prop :=
  forall i, (i <= e_last_beat_idx e)%nat -> bsent e i = true.

Lemma unsent_none e : all_sent e -> unsent e (seq 0 (S (e_last_beat_idx e))) = [].
Proof.
  intros H. unfold unsent.
  assert (Ha : Forall (fun i => bsent e i = true) (seq 0 (S (e_last_beat_idx e))))
    by (apply Forall_seq; intros; apply H; lia).
  induction Ha as [|i l Hi Hl IH]; [done|]. by rewrite filter_cons_False by congruence.
Qed.

Lemma removeEntry_spec m i l n :
  tags_ok m -> lists_ok m -> lists m !! i = Some l -> n ∈ l -> n_id n ∈ heads l ->
  all_sent (n_e n) ->
  exists m', removeEntry m i (e_tag (n_e n)) = Ok m' /\ tags_ok m' /\ lists_ok m'
    /\ forall j, pend (axiList m' j) = pend (axiList m j).
Proof.
  intros Ht Hok Hl Hn Hh Hs. destruct (to_tag _ Ht i l n Hl Hn) as [Hit Haxi].
  destruct (to_nodes _ Ht i l Hl) as [Hnd _].
  destruct (heads_split l (n_id n) (Hok _ _ Hl) Hh) as (l1 & x & r & -> & Hx & Hl1 & Hr).
  assert (x = n) as ->.
  { eapply node_unique; [exact Hnd| |exact Hn|exact Hx]. apply elem_of_app. right. by left. }
  unfold removeEntry. rewrite Hit, bool_decide_eq_true_2 by done. cbn [guard fst snd].
  rewrite (deref_node m i _ n Hl Hnd Hn). cbn [rbind].
  assert (Hfin : forall m2 l2, lists m2 = <[i := l1 ++ l2]> (lists m) -> tags_ok m2 ->
    list_ok l2 -> pend (n :: r) = pend l2 ->
    tags_ok (cleanList m2 i) /\ lists_ok (cleanList m2 i)
    /\ forall j, pend (axiList (cleanList m2 i) j) = pend (axiList m j)).
  { intros m2 l2 E Ht2 Hl2 Hp. destruct (clean_spec m2 i Ht2) as (H1 & H2 & H3).
    destruct (list_app l1 l2 Hl1 Hl2) as [Ha1 Ha2]. destruct (list_app l1 (n :: r) Hl1 Hr) as [_ Hb].
    split_and!; [done| |].
    - apply H3. intros j k. rewrite E. destruct (decide (i = j)) as [<-|Hne].
      + rewrite lookup_insert_eq. by intros [= <-].
      + rewrite lookup_insert_ne by done. apply Hok.
    - intros j. rewrite H2. unfold axiList. rewrite E. destruct (decide (i = j)) as [<-|Hne].
      + rewrite lookup_insert_eq, Hl. simpl. by rewrite Ha2, Hb, Hp.
      + by rewrite lookup_insert_ne. }
  destruct (e_need_next_entry (n_e n)) eqn:Hneed.
  - cbn [list_ok] in Hr. rewrite Hneed in Hr. destruct Hr as [Hno Hr].
    destruct r as [|n2 r]; [done|]. destruct Hr as (Hn2 & Hp & Hr2).
    assert (Hin2 : n2 ∈ l1 ++ n :: n2 :: r) by (apply elem_of_app; right; right; by left).
    unfold nextOf, axiList. rewrite Hl. cbn [default]. unfold id.
    rewrite (node_pos_split l1 n (n2 :: r) Hnd). cbn [mbind option_bind].
    rewrite lookup_app_r by lia. replace (S (length l1) - length l1)%nat with 1%nat by lia.
    cbn [lookup list_lookup]. rewrite (tagOf_node m i _ n2 Ht Hl Hin2). cbn [rbind].
    destruct (erase_spec m i (l1 ++ [n]) n2 r Ht) as [E1 Ht1]; [by rewrite <- app_assoc|].
    rewrite <- app_assoc in E1. cbn [app] in E1.
    destruct (erase_spec _ i l1 n r Ht1) as [E2 Ht2]; [rewrite E1; apply lookup_insert_eq|].
    eexists. split; [reflexivity|]. apply (Hfin _ r); [|exact Ht2|done|].
    + rewrite E2. rewrite E1. apply insert_insert_eq.
    + cbn [pend]. rewrite Hneed. rewrite (Hs 0%nat) by lia. done.
  - cbn [list_ok] in Hr. rewrite Hneed in Hr. destruct Hr as (Hno & Hnm & Hr2).
    destruct (erase_spec m i l1 n r Ht Hl) as [E1 Ht1]. cbn [rbind].
    eexists. split; [reflexivity|]. apply (Hfin _ r); [done|done|done|].
    cbn [pend]. rewrite Hneed, unsent_none by done. done.
Qed.

(** *** [markBeatRead] *)

Lemma alter_read_ok nid e k :
  entry_ok nid e -> bsent e k = true ->
  same_entry e (alter_status set_read k e) /\ entry_ok nid (alter_status set_read k e).
Proof.
  intros [] Hk. assert (Hlk : forall i s', e_beat_statuses (alter_status set_read k e) !! i = Some s' ->
    exists s, e_beat_statuses e !! i = Some s /\ bs_valid s' = bs_valid s /\ bs_sent s' = bs_sent s
      /\ (bs_read s' = true -> bs_read s = true \/ i = k)).
  { intros i s'. simpl. destruct (decide (k = i)) as [<-|Hne].
    - rewrite list_lookup_alter_eq. intros (s & Hs & ->)%fmap_Some. exists s. auto.
    - rewrite list_lookup_alter_ne by done. intros Hs. exists s'. auto. }
  split.
  - split; [done|]. intros i. unfold bsent. simpl. destruct (decide (k = i)) as [<-|Hne].
    + rewrite list_lookup_alter_eq. by destruct (_ !! k).
    + by rewrite list_lookup_alter_ne.
  - split; try done.
    + simpl. by rewrite length_alter.
    + intros i s' Hs'. destruct (Hlk i s' Hs') as (s & Hs & -> & _). by apply eo_valid0.
    + intros i s' Hs'. destruct (Hlk i s' Hs') as (s & Hs & -> & -> & _). by apply (eo_sent0 i).
    + intros i s' Hs' Hr. destruct (Hlk i s' Hs') as (s & Hs & _ & Hse & Hrd). rewrite Hse.
      destruct (Hrd Hr) as [H| ->]; [by eapply eo_read0|]. unfold bsent in Hk. by rewrite Hs in Hk.
Qed.

Lemma allRead_spec nid e :
  entry_ok nid e -> (e_last_beat_idx e < length (e_beat_statuses e))%nat ->
  exists b, allRead e = Ok b /\ (b = true -> all_sent e).
Proof.
  intros He Hl. unfold allRead, all_sent.
  assert (H : forall idx, Forall (fun i => i < length (e_beat_statuses e))%nat idx ->
    exists b, allReadFrom idx e = Ok b /\ (b = true -> forall i, i ∈ idx -> bsent e i = true)).
  { induction 1 as [|i idx Hi Hidx IH].
    - exists true. split; [done|]. intros _ i Hi. by apply elem_of_nil in Hi.
    - destruct (lookup_lt_is_Some_2 _ _ Hi) as [s Hs]. simpl. unfold status. rewrite Hs. simpl.
      destruct (bs_read s) eqn:Hr; [|by exists false]. destruct IH as (b & -> & Hb).
      exists b. split; [done|]. intros Hbt j [->|Hj]%elem_of_cons; [|by apply Hb].
      unfold bsent. rewrite Hs. by eapply eo_read. }
  destruct (H (seq 0 (S (e_last_beat_idx e)))) as (b & Hb & Hall); [apply Forall_seq; lia|].
  exists b. split; [done|]. intros Hbt i Hi. apply Hall; [done|]. apply elem_of_seq. lia.
Qed.

(** The head of a beat has as many statuses as it has beats. *)
Lemma head_last l n :
  list_ok l -> NoDup (n_id <$> l) -> n ∈ l -> n_id n ∈ heads l ->
  (e_last_beat_idx (n_e n) < length (e_beat_statuses (n_e n)))%nat.
Proof.
  intros Hok Hnd Hn Hh. destruct (heads_split l (n_id n) Hok Hh) as (l1 & x & r & -> & Hx & _ & Hr).
  assert (x = n) as ->.
  { eapply node_unique; [exact Hnd| |exact Hn|exact Hx]. apply elem_of_app. right. by left. }
  cbn [list_ok] in Hr. destruct Hr as [Hno Hr]. destruct (e_need_next_entry (n_e n)).
  - destruct r as [|n2 r]; [done|]. destruct Hr as (_ & [] & _).
    destruct (whole_status _ _ Hno po_beat0) as (s & -> & _). rewrite po_last0. simpl. lia.
  - by destruct Hr as [(_ & _ & _ & ?) _].
Qed.

Lemma markBeatRead_spec b i l n t k :
  let m := axiListManager b in
  tags_ok m -> lists_ok m -> lists m !! i = Some l -> n ∈ l -> n_id n ∈ heads l ->
  u8 t = e_tag (n_e n) -> bsent (n_e n) k = true ->
  exists b', markBeatRead b i t k = Ok b'
    /\ tags_ok (axiListManager b') /\ lists_ok (axiListManager b')
    /\ forall j, pend (axiList (axiListManager b') j) = pend (axiList m j).
Proof.
  intros m Ht Hok Hl Hn Hh Htag Hk. destruct (to_tag _ Ht i l n Hl Hn) as [Hit _].
  destruct (to_nodes _ Ht i l Hl) as [Hnd Hall].
  assert (Hno : node_ok n).
  { pose proof (list_ok_nodes _ (Hok _ _ Hl)) as H. rewrite Forall_forall in H. by apply H. }
  assert (Hax : e_axi_id (n_e n) = i) by (rewrite Forall_forall in Hall; by apply Hall).
  destruct (alter_read_ok _ _ _ Hno Hk) as [Hsame Hok'].
  destruct (assign_ok m i l n _ Ht Hok Hl Hn Hsame Hok') as (l' & El & HF & Hl' & Hp & Ht' & Hlo).
  set (e' := alter_status set_read k (n_e n)) in *. set (m' := assign m (i, n_id n) e') in *.
  assert (Hpend : forall j, pend (axiList m' j) = pend (axiList m j)).
  { intros j. unfold axiList. rewrite El. destruct (decide (i = j)) as [<-|Hne].
    - by rewrite lookup_insert_eq, Hl.
    - by rewrite lookup_insert_ne. }
  unfold markBeatRead. fold m. unfold getIterator, getList. rewrite Htag, Hit, Hl. simpl.
  rewrite Z.eqb_refl. simpl. rewrite (deref_node m i l n Hl Hnd Hn). simpl.
  rewrite Hax, Z.eqb_refl. cbn [guard].
  assert (Hlt : (k < length (e_beat_statuses (n_e n)))%nat).
  { unfold bsent in Hk. destruct (_ !! k) eqn:E; [by eapply lookup_lt_Some|done]. }
  rewrite (proj2 (Nat.ltb_lt _ _) Hlt). cbn [guard]. fold e'.
  destruct (allRead_spec _ e' Hok') as (ar & -> & Har).
  { unfold e'. simpl. rewrite length_alter. by apply (head_last l); [eapply Hok|..]. }
  cbn [rbind]. fold m'. destruct ar; [|by exists (with_manager m' b)].
  assert (Hn' : mk_node (n_id n) e' ∈ l').
  { unfold m' in El. rewrite (assign_lookup m i _ e' l Hl) in El.
    assert (l' = (fun x => if n_id x =? n_id n then mk_node (n_id n) e' else x) <$> l) as ->.
    { apply (f_equal (.!! i)) in El. rewrite !lookup_insert_eq in El. by injection El. }
    apply list_elem_of_fmap. exists n. split; [by rewrite Z.eqb_refl|done]. }
  destruct (removeEntry_spec m' i l' (mk_node (n_id n) e') Ht' Hlo) as (m2 & Hrm & Ht2 & Hlo2 & Hp2).
  - by rewrite El, lookup_insert_eq.
  - done.
  - simpl. by rewrite (heads_fixed _ _ (node_same_fixed _ _ HF)).
  - by apply Har.
  - simpl in Hrm. rewrite Hrm. cbn [rbind]. eexists. split; [reflexivity|]. simpl.
    split_and!; [done|done|]. intros j. by rewrite Hp2.
Qed.

(** *** [writeFlit] *)

Lemma writeFlit_spec b i l n t f :
  let m := axiListManager b in
  tags_ok m -> lists_ok m -> lists m !! i = Some l -> n ∈ l -> u8 t = e_tag (n_e n) ->
  (f < ES / FLIT_SIZE)%nat -> nz ES < 2^64 -> flit_is_written (n_e n) f = false ->
  exists ms b' l', writeFlit b t (slice (D (n_id n)) (f * FLIT_SIZE) FLIT_SIZE) (nz f) = Ok (ms, b')
    /\ tags_ok (axiListManager b') /\ lists_ok (axiListManager b')
    /\ lists (axiListManager b') = <[i := l']> (lists m)
    /\ pend l = ms ++ pend l'
    /\ (Forall complete ((fun x => if n_id x =? n_id n then mk_node (n_id n) (writeEntryFlit (n_e n)
          (slice (D (n_id n)) (f * FLIT_SIZE) FLIT_SIZE) f) else x) <$> l) -> pend l' = []).
Proof.
  intros m Ht Hok Hl Hn Htag Hf HES Hnew. destruct (to_tag _ Ht i l n Hl Hn) as [Hit Hai].
  destruct (to_nodes _ Ht i l Hl) as [Hnd _].
  assert (Hno : node_ok n).
  { pose proof (list_ok_nodes _ (Hok _ _ Hl)) as H. rewrite Forall_forall in H. by apply H. }
  set (d := slice _ _ _). set (e' := writeEntryFlit (n_e n) d f).
  destruct (assign_ok m i l n e' Ht Hok Hl Hn) as (l1 & El & HF & Hl1 & Hp & Ht' & Hlo);
    [by apply writeEntryFlit_same|by apply writeEntryFlit_ok|].
  assert (Hl1eq : l1 = (fun x => if n_id x =? n_id n then mk_node (n_id n) e' else x) <$> l).
  { rewrite (assign_lookup m i _ e' l Hl) in El. apply (f_equal (.!! i)) in El.
    rewrite !lookup_insert_eq in El. by injection El. }
  assert (Hfs : (f < ES)%nat) by (pose proof ES_mult; unfold FLIT_SIZE in *; lia).
  unfold writeFlit, writeFlitEntry. fold m. rewrite Htag, Hit.
  rewrite (deref_node m i l n Hl Hnd Hn). cbn [rbind]. rewrite u64_small by lia.
  rewrite (eo_flits _ _ Hno), (proj2 (Z.ltb_lt _ _)) by lia. rewrite Nat2Z.id. cbn [rbind].
  unfold getAxiID. cbn [tagToAxiID assign with_lists]. rewrite Hai. cbn [of_opt rbind].
  fold e'. unfold generateAxiReadPayloads. rewrite El, lookup_insert_eq.
  destruct (genList_spec l1 Hl1) as (ms & l' & -> & Hl' & HFe & Hpd & Hc). cbn [rbind].
  eexists ms, _, l'. split; [reflexivity|]. cbn [axiListManager with_manager].
  assert (HFf : Forall2 node_fixed l1 l').
  { apply (Forall2_impl _ _ _ _ HFe). intros x y [? ?]. split; [done|]. by apply evolves_fixed. }
  assert (Hli : lists (assign m (i, n_id n) e') !! i = Some l1) by (by rewrite El, lookup_insert_eq).
  rewrite <- El. split_and!.
  - by apply (tags_ok_update _ i l1).
  - by apply lists_ok_update.
  - simpl. simpl in El. rewrite El. apply insert_insert_eq.
  - by rewrite <- Hp.
  - rewrite <- Hl1eq. done.
Qed.

(** ** Any sequence of operations *)

Definition history : Type := Z -> list RReadMsg.
Definition more (h : history) (i : Z) (ms : list RReadMsg) : history :=
  fun j => if decide (j = i) then h j ++ ms else h j.

Definition live (b : ReadReorderBuffer) (i : Z) (n : node) : Prop :=
  n ∈ axiList (axiListManager b) i.

(** The next [k] tags are not in use. *)
Definition tags_free (b : ReadReorderBuffer) (k : nat) : Prop :=
  forall j, (j < k)%nat ->
    tagToIterator (axiListManager b) !! u8 (nextTag (axiListManager b) + nz j) = None.

(** [rreach b outs exp]: the buffer [b] is reached by reserving entries, writing
    response flits with the bytes of [D] in any order, and reporting beats as read;
    [outs i] are the messages generated for AXI ID [i] so far, [exp i] the beats of
    all that was reserved for it, in order. *)
Inductive rreach : ReadReorderBuffer -> history -> history -> Prop :=
  | rr_init max b :
      0 <= max < 2^16 -> newReadReorderBuffer max ES = Ok b ->
      rreach b (fun _ => []) (fun _ => [])
  | rr_count b outs exp k :
      rreach b outs exp ->
      rreach {| axiListManager := axiListManager b; numAxiReads := k |} outs exp
  | rr_reserve b outs exp i bs cl last vnet tag b' :
      let m := axiListManager b in
      rreach b outs exp ->
      numEntries m < rb_max_entries m -> tags_free b 1 ->
      (0 < bs <= ES)%nat -> (bs <= 64)%nat ->
      (last < if bs <? ES then ES / bs else 1)%nat ->
      reserve b i bs cl last vnet false = Ok (tag, b') ->
      rreach b' outs
        (more exp i (nmsg (nextNode m) (freshEntry i bs false cl last (nextTag m) vnet)
                       <$> seq 0 (S last)))
  | rr_reserve_pair b outs exp i bs cl cl2 vnet tag tag2 b1 b2 :
      let m := axiListManager b in
      rreach b outs exp ->
      numEntries m + 1 < rb_max_entries m -> tags_free b 2 ->
      (ES <= bs)%nat -> (ES + ES <= 64)%nat ->
      reserve b i bs cl 0 vnet true = Ok (tag, b1) ->
      reserve b1 i bs cl2 0 vnet false = Ok (tag2, b2) ->
      rreach b2 outs
        (more exp i [pmsg (nextNode m) (freshEntry i bs true cl 0 tag vnet)
                       (nextNode m + 1) (freshEntry i bs false cl2 0 tag2 vnet)])
  | rr_write b outs exp i n t f ms b' :
      rreach b outs exp -> live b i n -> u8 t = e_tag (n_e n) ->
      (f < ES / FLIT_SIZE)%nat -> flit_is_written (n_e n) f = false ->
      writeFlit b t (slice (D (n_id n)) (f * FLIT_SIZE) FLIT_SIZE) (nz f) = Ok (ms, b') ->
      rreach b' (more outs i ms) exp
  | rr_read b outs exp i n t k b' :
      rreach b outs exp -> live b i n -> n_id n ∈ heads (axiList (axiListManager b) i) ->
      u8 t = e_tag (n_e n) -> bsent (n_e n) k = true ->
      markBeatRead b i t k = Ok b' -> rreach b' outs exp.

Record rr_inv (b : ReadReorderBuffer) (outs exp : history) : Prop := {
  rri_tags : tags_ok (axiListManager b);
  rri_lists : lists_ok (axiListManager b);
  rri_order : forall i, exp i = outs i ++ pend (axiList (axiListManager b) i)
}.

Lemma live_list b i n :
  live b i n -> exists l, lists (axiListManager b) !! i = Some l /\ n ∈ l.
Proof.
  unfold live, axiList. destruct (_ !! i) as [l|]; [by exists l|]. by intros ?%elem_of_nil.
Qed.

Lemma axiList_ok b i : lists_ok (axiListManager b) -> list_ok (axiList (axiListManager b) i).
Proof. intros H. unfold axiList. destruct (_ !! i) eqn:E; [by eapply H|done]. Qed.

Lemma lists_ok_insert m m' i l :
  lists_ok m -> lists m' = <[i := l]> (lists m) -> list_ok l -> lists_ok m'.
Proof.
  intros Hok E Hl j k. rewrite E. destruct (decide (i = j)) as [<-|Hne].
  - rewrite lookup_insert_eq. by intros [= <-].
  - rewrite lookup_insert_ne by done. apply Hok.
Qed.

Lemma axiList_insert m m' i l j :
  lists m' = <[i := l]> (lists m) -> axiList m' j = if decide (j = i) then l else axiList m j.
Proof.
  intros E. unfold axiList. rewrite E. destruct (decide (j = i)) as [->|Hne].
  - by rewrite lookup_insert_eq.
  - by rewrite lookup_insert_ne.
Qed.

(** Appending entries whose beats are all to be sent. *)
Lemma reserve_inv b b' outs exp i l' ms :
  rr_inv b outs exp -> tags_ok (axiListManager b') ->
  lists (axiListManager b')
  = <[i := axiList (axiListManager b) i ++ l']> (lists (axiListManager b)) ->
  list_ok l' -> pend l' = ms -> rr_inv b' outs (more exp i ms).
Proof.
  intros [Ht Hok Ho] Ht' E Hl' Hp. destruct (list_app _ _ (axiList_ok b i Hok) Hl') as [Ha1 Ha2].
  split; [done|by eapply lists_ok_insert|]. intros j. rewrite (axiList_insert _ _ _ _ j E).
  unfold more. destruct (decide (j = i)) as [->|Hne]; [|apply Ho].
  by rewrite Ha2, Ho, Hp, app_assoc.
Qed.

Lemma fresh_pend n nid axi bs cl last tag vnet :
  n = mk_node nid (freshEntry axi bs false cl last tag vnet) -> (0 < bs <= ES)%nat ->
  (bs <= 64)%nat -> (last < if bs <? ES then ES / bs else 1)%nat ->
  list_ok [n] /\ pend [n] = nmsg nid (n_e n) <$> seq 0 (S last).
Proof.
  intros -> [Hb Hb2] H64 Hl. split.
  - simpl. split; [by apply freshEntry_ok|]. split; [|done]. unfold normal_entry. simpl.
    by rewrite length_replicate.
  - simpl. rewrite app_nil_r. by rewrite (unsent_all _ (0%nat :: _)) by (intros; apply fresh_unsent).
Qed.

Lemma fresh_pair nid nid2 axi bs cl cl2 t t2 vnet :
  (ES <= bs)%nat -> (ES + ES <= 64)%nat ->
  let e := freshEntry axi bs true cl 0 t vnet in
  let e2 := freshEntry axi bs false cl2 0 t2 vnet in
  list_ok [mk_node nid e; mk_node nid2 e2]
  /\ pend [mk_node nid e; mk_node nid2 e2] = [pmsg nid e nid2 e2].
Proof.
  intros Hb H64 e e2. assert (0 < bs)%nat by (destruct ES_flits; lia). split.
  - split; [by apply freshEntry_ok|]. split; [by apply freshEntry_ok|]. split; [|done].
    by split.
  - change (pend _) with ((if bsent e 0 then [] else [pmsg nid e nid2 e2]) ++ []).
    unfold e at 1. by rewrite fresh_unsent.
Qed.

Lemma reserve_ok b i bs cl last vnet need tag b' :
  tags_ok (axiListManager b) -> numEntries (axiListManager b) < rb_max_entries (axiListManager b) ->
  tagToIterator (axiListManager b) !! nextTag (axiListManager b) = None -> (0 < bs)%nat ->
  reserve b i bs cl last vnet need = Ok (tag, b') ->
  let m := axiListManager b in let m' := axiListManager b' in
  tag = nextTag m /\ tags_ok m'
  /\ lists m' = <[i := axiList m i ++ [mk_node (nextNode m)
       (freshEntry i bs need cl last (nextTag m) vnet)]]> (lists m)
  /\ tagToIterator m' = <[nextTag m := (i, nextNode m)]> (tagToIterator m)
  /\ nextTag m' = u8 (nextTag m + 1) /\ nextNode m' = nextNode m + 1
  /\ numEntries m' = numEntries m + 1 /\ rb_max_entries m' = rb_max_entries m.
Proof.
  intros Ht Hroom Hfree Hb H. unfold reserve in H.
  destruct (addEntry_spec _ i bs cl last vnet need Ht Hroom Hfree Hb) as (m' & E & Hrest).
  rewrite E in H. injection H as <- <-. done.
Qed.

Lemma tags_free_next b k :
  is_u8 (nextTag (axiListManager b)) -> tags_free b (S k) ->
  tagToIterator (axiListManager b) !! nextTag (axiListManager b) = None.
Proof.
  intros Hu H. specialize (H 0%nat ltac:(lia)). rewrite Z.add_0_r, u8_small in H by done. done.
Qed.

Lemma removeEntry_nextTag m i t m' : removeEntry m i t = Ok m' -> nextTag m' = nextTag m.
Proof.
  unfold removeEntry. destruct (tagToIterator m !! t) as [it|]; [|done]. intros H. inv_ok.
  assert (Hc : forall m, nextTag (cleanList m i) = nextTag m)
    by (intros c; unfold cleanList; by repeat case_match).
  rewrite Hc. simpl. revert Ha0. repeat case_match; intros; inv_ok; done.
Qed.

Lemma rreach_tag b outs exp : rreach b outs exp -> is_u8 (nextTag (axiListManager b)).
Proof.
  assert (Hres : forall b i bs cl last vnet need tag b',
    reserve b i bs cl last vnet need = Ok (tag, b') -> is_u8 (nextTag (axiListManager b)) ->
    is_u8 (nextTag (axiListManager b'))).
  { intros c i bs cl last vnet need tag c' H Hu. unfold reserve, addEntry in H.
    destruct (_ <=? _) in H; cbn [rbind] in H; inv_ok; simplify_eq/=; [done|].
    destruct (newRROBEntry _ _ _ _ _ _ _ _) in *; simplify_eq/=. apply u8_range. }
  induction 1 as [max b Hmax H|b outs exp k H IH|b outs exp i bs cl last vnet tag b' m H IH
    Hroom Hfree Hb H64 Hl Hr|b outs exp i bs cl cl2 vnet tag tag2 b1 b2 m H IH Hroom Hfree Hb H64
    Hr1 Hr2|b outs exp i n t f ms b' H IH Hlv Ht Hf Hnew Hw|b outs exp i n t k b' H IH Hlv Hh Ht Hk Hm].
  - unfold newReadReorderBuffer in H. inv_ok. done.
  - done.
  - eauto.
  - eauto.
  - unfold writeFlit, writeFlitEntry, generateAxiReadPayloads in Hw.
    repeat (case_match; inv_ok; simplify_eq/=; try done).
  - unfold markBeatRead in Hm. inv_ok. destruct a2; inv_ok; simpl; [|done].
    by rewrite (removeEntry_nextTag _ _ _ _ Ha3).
Qed.

Lemma rreach_inv b outs exp : nz ES < 2^64 -> rreach b outs exp -> rr_inv b outs exp.
Proof.
  intros HES.
  induction 1 as [max b Hmax H|b outs exp k H IH|b outs exp i bs cl last vnet tag b' m H IH
    Hroom Hfree Hb H64 Hl Hr|b outs exp i bs cl cl2 vnet tag tag2 b1 b2 m H IH Hroom Hfree Hb H64
    Hr1 Hr2|b outs exp i n t f ms b' H IH Hlv Ht Hf Hnew Hw|b outs exp i n t k b' H IH Hlv Hh Ht Hk Hm].
  - unfold newReadReorderBuffer in H. inv_ok.
    split; [|intros i l; simpl; by rewrite lookup_empty|done].
    split; simpl; [done|intros i l; by rewrite lookup_empty|intros i l n; by rewrite lookup_empty
      |intros t i nid; by rewrite lookup_empty|done|lia].
  - destruct IH. done.
  - pose proof IH as [Ht Hok Ho].
    destruct (reserve_ok b i bs cl last vnet false tag b' Ht Hroom) as (-> & Ht' & E & _);
      [by eapply tags_free_next; [eapply rreach_tag|]|lia|done|].
    destruct (fresh_pend _ (nextNode m) i bs cl last (nextTag m) vnet eq_refl Hb H64 Hl) as [Hl1 Hp1].
    by eapply reserve_inv.
  - pose proof IH as [Ht Hok Ho]. assert (0 < bs)%nat by (destruct ES_flits; lia).
    pose proof (rreach_tag _ _ _ H) as Hu.
    destruct (reserve_ok b i bs cl 0 vnet true tag b1 Ht) as (Ht1 & Htk1 & E1 & Ei & En & Eo & Ec & Em);
      [unfold m in Hroom; lia|by eapply tags_free_next|done|done|]. subst tag.
    destruct (reserve_ok b1 i bs cl2 0 vnet false tag2 b2 Htk1) as (-> & Ht2 & E2 & _);
      [unfold m in Hroom; lia| |done|done|].
    { rewrite Ei, En. specialize (Hfree 1%nat ltac:(lia)). rewrite lookup_insert_ne; [done|].
      intros E. unfold is_u8 in Hu. unfold u8 in E. revert E. fold m. fold m in Hu. mlia. }
    destruct (fresh_pair (nextNode m) (nextNode m + 1) i bs cl cl2 (nextTag m)
                (nextTag (axiListManager b1)) vnet Hb H64) as [Hl1 Hp1].
    eapply reserve_inv; [exact IH|exact Ht2| |exact Hl1|exact Hp1].
    rewrite E2, (axiList_insert _ _ _ _ i E1), decide_True by done. rewrite E1, Eo.
    rewrite insert_insert_eq. by rewrite <- app_assoc.
  - pose proof IH as [Hta Hok Ho]. destruct (live_list _ _ _ Hlv) as (l & Hl & Hn).
    destruct (writeFlit_spec b i l n t f Hta Hok Hl Hn Ht Hf HES Hnew)
      as (ms' & b2 & l' & E & Ht2 & Hok2 & El & Hp & _).
    rewrite E in Hw. injection Hw as <- <-. split; [done|done|]. intros j.
    rewrite (axiList_insert _ _ _ _ j El). unfold more. rewrite Ho.
    destruct (decide (j = i)) as [->|Hne]; [|done].
    unfold axiList at 1. rewrite Hl. simpl. by rewrite Hp, app_assoc.
  - pose proof IH as [Hta Hok Ho]. destruct (live_list _ _ _ Hlv) as (l & Hl & Hn).
    assert (Hh' : n_id n ∈ heads l) by (unfold axiList in Hh; by rewrite Hl in Hh).
    destruct (markBeatRead_spec b i l n t k Hta Hok Hl Hn Hh' Ht Hk) as (b2 & E & Ht2 & Hok2 & Hp).
    rewrite E in Hm. injection Hm as <-. split; [done|done|]. intros j. by rewrite Hp.
Qed.

(** C9: However the response flits of several reads are interleaved, the read
    beats generated for an AXI ID are always an initial segment of the beats of its
    reads, in request order, each once and with the bytes the reads return; when no
    entry of the ID is left they are all of them; and the buffer never holds more
    entries than its capacity. *)
Theorem rrob_in_order b outs exp i :
  nz ES < 2^64 -> rreach b outs exp ->
  outs i `prefix_of` exp i
  /\ (axiList (axiListManager b) i = [] -> outs i = exp i)
  /\ total_length (lists (axiListManager b)) <= rb_max_entries (axiListManager b).
Proof.
  intros HES Hr. destruct (rreach_inv _ _ _ HES Hr) as [Ht _ Ho]. rewrite Ho. split_and!.
  - by exists (pend (axiList (axiListManager b) i)).
  - intros ->. simpl. by rewrite app_nil_r.
  - rewrite <- (to_count _ Ht). apply (to_max _ Ht).
Qed.

(** Writing a response flit of a live entry never fails, and as soon as the
    flits of all beats reserved for its AXI ID have arrived, every beat of the ID has
    been generated: no read data stays behind in the buffer. *)
Theorem rrob_delivers b outs exp i n t f :
  nz ES < 2^64 -> rreach b outs exp -> live b i n -> u8 t = e_tag (n_e n) ->
  (f < ES / FLIT_SIZE)%nat -> flit_is_written (n_e n) f = false ->
  let data := slice (D (n_id n)) (f * FLIT_SIZE) FLIT_SIZE in
  exists ms b', writeFlit b t data (nz f) = Ok (ms, b') /\
    (Forall complete ((fun x => if n_id x =? n_id n
                                then mk_node (n_id n) (writeEntryFlit (n_e n) data f) else x)
                        <$> axiList (axiListManager b) i) ->
     outs i ++ ms = exp i).
Proof.
  intros HES Hr Hlv Ht Hf Hnew data. destruct (rreach_inv _ _ _ HES Hr) as [Hta Hok Ho].
  destruct (live_list _ _ _ Hlv) as (l & Hl & Hn).
  destruct (writeFlit_spec b i l n t f Hta Hok Hl Hn Ht Hf HES Hnew)
    as (ms & b' & l' & E & _ & _ & _ & Hp & Hc).
  exists ms, b'. split; [done|]. unfold axiList at 1. rewrite Hl. simpl. intros Hall.
  rewrite Ho. unfold axiList. rewrite Hl. simpl. by rewrite Hp, Hc, app_nil_r.
Qed.

End Order.

(** ** Tags in use again

    Nothing keeps a tag from being given out while it is still in use: the theorems
    above ask for free tags, and this is what happens without. *)

(** A read of ID 2 that is reserved, answered and read out. *)
Definition short_read (b : ReadReorderBuffer) : res ReadReorderBuffer :=
  let* (t, b1) := reserve b 2 16 true 0 2 false in
  let* (ms, b2) := writeFlit b1 t (zeros 16) 0 in
  markBeatRead b2 2 t 0.

Fixpoint short_reads (k : nat) (b : ReadReorderBuffer) : res ReadReorderBuffer :=
  match k with
  | O => Ok b
  | S k => let* b' := short_read b in short_reads k b'
  end.

Definition answer : list Z := seqZ 1 16.

(** Tags are eight bits wide and handed out round-robin without looking whether
    one is still in use.  A read of ID 1 waits with tag 1 while 255 other reads come
    and go; the next read, of ID 3, gets tag 1 as well, and the response flit of the
    first read is delivered to ID 3. *)
Theorem rrob_tag_reuse_misroutes :
  (let* b0 := newReadReorderBuffer 64 32 in
   let* (t1, b1) := reserve b0 1 16 true 0 2 false in
   let* b2 := short_reads 255 b1 in
   let* (t3, b3) := reserve b2 3 16 true 0 2 false in
   let* (ms, b4) := writeFlit b3 t1 answer 0 in
   Ok (t1, t3, (fun m => (rd_id (rm_data m), take 16 (rd_data (rm_data m)))) <$> ms))
  = Ok (1, 1, [(3, answer)]).
Proof. vm_compute. reflexivity. Qed.

(** *** Instances *)

Definition ex_D (n : Z) : list Z := (fun k => (32 * n + k) mod 256) <$> seqZ 0 32.

Lemma ex_D_length n : length (ex_D n) = 32%nat.
Proof. done. Qed.


Definition ex_b0 : ReadReorderBuffer := Eval vm_compute in
  ok_or (mk_ReadReorderBuffer (newAxiListManager 0 0) 0) (newReadReorderBuffer 4 32).
(** Two 16-byte beats of ID 5. *)
Definition ex_b1 : ReadReorderBuffer := Eval vm_compute in
  (ok_or (0, ex_b0) (reserve ex_b0 5 16 true 1 2 false)).2.
(** The second flit arrives first. *)
Definition ex_b2 : ReadReorderBuffer := Eval vm_compute in
  (ok_or ([], ex_b1) (writeFlit ex_b1 1 (slice (ex_D 0) 16 16) 1)).2.

Definition ex_n1 : node := Eval vm_compute in
  default (mk_node 0 (freshEntry 0 0 0 false false 0 0 0)) (head (axiList (axiListManager ex_b1) 5)).
Definition ex_n2 : node := Eval vm_compute in
  default (mk_node 0 (freshEntry 0 0 0 false false 0 0 0)) (head (axiList (axiListManager ex_b2) 5)).

Definition ex_exp : history :=
  more (fun _ => []) 5 (nmsg ex_D 0 (freshEntry 32 5 16 false true 1 1 2) <$> seq 0 2).

Lemma ex_reach1 : rreach 32 ex_D ex_b1 (fun _ => []) ex_exp.
Proof.
  apply (rr_reserve 32 ex_D ex_b0 _ (fun _ => []) 5 16 true 1 2 1 ex_b1).
  - by apply (rr_init 32 ex_D 4).
  - done.
  - intros j Hj. replace j with 0%nat by lia. done.
  - lia.
  - lia.
  - simpl. lia.
  - vm_compute. reflexivity.
Qed.

Lemma ex_reach2 : rreach 32 ex_D ex_b2 (more (fun _ => []) 5 []) ex_exp.
Proof.
  apply (rr_write 32 ex_D ex_b1 _ _ 5 ex_n1 1 1 [] ex_b2 ex_reach1).
  - by left.
  - done.
  - vm_compute. lia.
  - done.
  - vm_compute. reflexivity.
Qed.

Lemma rrob_in_order_witness :
  let outs := more (fun _ => []) 5 [] in
  outs 5 `prefix_of` ex_exp 5
  /\ (axiList (axiListManager ex_b2) 5 = [] -> outs 5 = ex_exp 5)
  /\ total_length (lists (axiListManager ex_b2)) <= rb_max_entries (axiListManager ex_b2).
Proof.
  apply (rrob_in_order 32 ex_D); [split; [lia|done]|apply ex_D_length|done|apply ex_reach2].
Defined.

(** The first flit completes both beats, which are generated in order. *)
Lemma rrob_delivers_witness :
  exists ms b', writeFlit ex_b2 1 (slice (ex_D 0) 0 16) 0 = Ok (ms, b')
    /\ more (fun _ => []) 5 [] 5 ++ ms = ex_exp 5.
Proof.
  destruct (rrob_delivers 32 ex_D ltac:(split; [lia|done]) ex_D_length ex_b2 _ _ 5 ex_n2 1 0 ltac:(done)
              ex_reach2) as (ms & b' & H & Hc).
  - by left.
  - done.
  - vm_compute. lia.
  - done.
  - exists ms, b'. split; [exact H|]. apply Hc.
    constructor; [|constructor]. intros i Hi. simpl in Hi.
    destruct i as [|[|i]]; [vm_compute; reflexivity|vm_compute; reflexivity|lia].
Defined.
