(* ===== verification/MsgBuffer.v ===== *)
(** * Message buffers

    [MessageBuffer] ([src/src/noc/core/network/NocMessageBuffer.cc]): the bounded queue
    between a network interface and its protocol handler.  A message becomes
    available at its arrival tick; the heap orders messages by arrival tick and, among
    equal ones, by enqueue order.  The model keeps the heap as the sorted list of its
    messages, of which [front] is the first.

    Slots freed by a pop become visible in the next cycle only.  The stall map, which
    the NoC does not use, is left out; randomised delays come in as an argument. *)

From S2P Require Import Prelude.

Record mbCfg := mk_mbCfg {
  mc_max_size : Z;              (* 0: unbounded *)
  mc_max_dequeue_rate : Z;      (* 0: unlimited *)
  mc_strict_fifo : bool;
  mc_allow_zero_latency : bool
}.

Section Buffer.
Context {M : Type} (c : mbCfg).

(** A message with its [m_LastEnqueueTime], which holds the arrival tick, its
    [m_msg_counter] and its [m_DelayedTicks]. *)
Record mbEntry := mk_mbEntry { me_msg : M; me_time : Z; me_counter : Z; me_delayed : Z }.

Record mbuf := mk_mbuf {
  m_prio_heap : list mbEntry;
  m_msg_counter : Z;
  m_msgs_this_cycle : Z;
  m_time_last_time_enqueue : Z;
  m_time_last_time_pop : Z;
  m_size_at_cycle_start : Z;
  m_dequeues_this_cy : Z;
  m_last_arrival_time : Z;
  m_last_message_strict_fifo_bypassed : bool;
  mb_wakeups : list Z           (* what the consumer was scheduled for *)
}.

Definition mbuf_init : mbuf := mk_mbuf [] 0 0 0 0 0 0 0 false [].

(** [operator>] on messages, the order of the heap. *)
Definition msg_before (a b : mbEntry) : bool :=
  (me_time a <? me_time b) || ((me_time a =? me_time b) && (me_counter a <=? me_counter b)).

(** [push_heap] and [pop_heap] *)
Fixpoint heap_push (x : mbEntry) (l : list mbEntry) : list mbEntry :=
  match l with
  | [] => [x]
  | y :: l' => if msg_before y x then y :: heap_push x l' else x :: l
  end.

(** [MessageBuffer::areNSlotsAvailable] *)
Definition areNSlotsAvailable (b : mbuf) (n current_time : Z) : bool :=
  if mc_max_size c =? 0 then true
  else
    let current_size :=
      if m_time_last_time_pop b <? current_time then nz (length (m_prio_heap b))
      else if m_time_last_time_enqueue b <? current_time then m_size_at_cycle_start b
      else m_size_at_cycle_start b + m_msgs_this_cycle b in
    current_size + n <=? mc_max_size c.

(** The arrival tick [MessageBuffer::enqueue] computes; [random] is [random_time()]
    where delays are randomised. *)
Definition arrival (b : mbuf) (current_time delta : Z) (random : option Z) : Z * Z :=
  match random with
  | None => (current_time + delta, m_last_arrival_time b)
  | Some r =>
      if mc_strict_fifo c then
        let last := if m_last_arrival_time b <? current_time then current_time
                    else m_last_arrival_time b in
        (last + r, last)
      else (current_time + r, m_last_arrival_time b)
  end.

(** [MessageBuffer::enqueue] of a message created at tick [created]. *)
Definition mb_enqueue (b : mbuf) (msg : M) (created current_time delta : Z) (random : option Z)
    (ruby_warmup bypassStrictFIFO : bool) : res mbuf :=
  let first := m_time_last_time_enqueue b <? current_time in
  let counter := m_msg_counter b + 1 in
  guard (negb ((delta =? 0) && negb (mc_allow_zero_latency c)))
    (FPanic "Delta equals zero and allow_zero_latency is false during enqueue") (
  let '(arrival_time, last_arrival) := arrival b current_time delta random in
  guard (current_time <=? arrival_time) (FAssert "arrival_time >= current_time") (
  guard (negb (mc_strict_fifo c && negb (bypassStrictFIFO || m_last_message_strict_fifo_bypassed b)
               && (arrival_time <? last_arrival)))
    (FPanic "FIFO ordering violated") (
  guard (created <=? current_time) (FAssert "ensure we aren't dequeued early") (
  let heap := heap_push (mk_mbEntry msg arrival_time counter (current_time - created)) (m_prio_heap b) in
  guard ((mc_max_size c =? 0) || (nz (length heap) <=? mc_max_size c)) (FAssert "m_max_size")
    (Ok {| m_prio_heap := heap; m_msg_counter := counter;
           m_msgs_this_cycle := (if first then 0 else m_msgs_this_cycle b) + 1;
           m_time_last_time_enqueue := if first then current_time else m_time_last_time_enqueue b;
           m_time_last_time_pop := m_time_last_time_pop b;
           m_size_at_cycle_start := m_size_at_cycle_start b;
           m_dequeues_this_cy := m_dequeues_this_cy b;
           m_last_arrival_time := if ruby_warmup then last_arrival else arrival_time;
           m_last_message_strict_fifo_bypassed := bypassStrictFIFO;
           mb_wakeups := mb_wakeups b ++ [arrival_time] |}))))).

(** [MessageBuffer::isReady]; [true] in the second component asks the consumer to
    come back in the next cycle. *)
Definition mb_isReady (b : mbuf) (current_time : Z) : res (bool * bool) :=
  guard (m_time_last_time_pop b <=? current_time) (FAssert "m_time_last_time_pop <= current_time") (
  let can_dequeue := (mc_max_dequeue_rate c =? 0) || (m_time_last_time_pop b <? current_time)
                     || (m_dequeues_this_cy b <? mc_max_dequeue_rate c) in
  let is_ready := match m_prio_heap b with e :: _ => me_time e <=? current_time | [] => false end in
  Ok (can_dequeue && is_ready, negb can_dequeue && is_ready)).

(** [MessageBuffer::dequeue]: the message and its delay. *)
Definition mb_dequeue (b : mbuf) (current_time : Z) : res (M * Z * mbuf) :=
  let* (ready, _) := mb_isReady b current_time in
  guard ready (FAssert "isReady(current_time)") (
  match m_prio_heap b with
  | [] => Err (FUndef "front of an empty heap")
  | e :: heap =>
      let first := m_time_last_time_pop b <? current_time in
      Ok (me_msg e, me_delayed e + (current_time - me_time e),
        {| m_prio_heap := heap; m_msg_counter := m_msg_counter b;
           m_msgs_this_cycle := m_msgs_this_cycle b;
           m_time_last_time_enqueue := m_time_last_time_enqueue b;
           m_time_last_time_pop := if first then current_time else m_time_last_time_pop b;
           m_size_at_cycle_start :=
             if first then nz (length (m_prio_heap b)) else m_size_at_cycle_start b;
           m_dequeues_this_cy := (if first then 0 else m_dequeues_this_cy b) + 1;
           m_last_arrival_time := m_last_arrival_time b;
           m_last_message_strict_fifo_bypassed := m_last_message_strict_fifo_bypassed b;
           mb_wakeups := mb_wakeups b |})
  end).

(** [MessageBuffer::peek] and [MessageBuffer::readyTime] ([None] is [MaxTick]). *)
Definition mb_peek (b : mbuf) : res M :=
  match m_prio_heap b with e :: _ => Ok (me_msg e) | [] => Err (FUndef "front of an empty heap") end.
Definition mb_readyTime (b : mbuf) : option Z :=
  match m_prio_heap b with e :: _ => Some (me_time e) | [] => None end.

(** [MessageBuffer::recycle]: the front message comes back later. *)
Definition mb_recycle (b : mbuf) (current_time recycle_latency : Z) : res mbuf :=
  let* (ready, _) := mb_isReady b current_time in
  guard ready (FAssert "isReady(current_time)") (
  match m_prio_heap b with
  | [] => Err (FUndef "front of an empty heap")
  | e :: heap =>
      let future := current_time + recycle_latency in
      Ok {| m_prio_heap := heap_push (mk_mbEntry (me_msg e) future (me_counter e) (me_delayed e)) heap;
            m_msg_counter := m_msg_counter b; m_msgs_this_cycle := m_msgs_this_cycle b;
            m_time_last_time_enqueue := m_time_last_time_enqueue b;
            m_time_last_time_pop := m_time_last_time_pop b;
            m_size_at_cycle_start := m_size_at_cycle_start b;
            m_dequeues_this_cy := m_dequeues_this_cy b;
            m_last_arrival_time := m_last_arrival_time b;
            m_last_message_strict_fifo_bypassed := m_last_message_strict_fifo_bypassed b;
            mb_wakeups := mb_wakeups b ++ [future] |}
  end).

(** [MessageBuffer::clear] *)
Definition mb_clear (b : mbuf) : mbuf :=
  {| m_prio_heap := []; m_msg_counter := 0; m_msgs_this_cycle := 0; m_time_last_time_enqueue := 0;
     m_time_last_time_pop := 0; m_size_at_cycle_start := 0;
     m_dequeues_this_cy := m_dequeues_this_cy b; m_last_arrival_time := m_last_arrival_time b;
     m_last_message_strict_fifo_bypassed := m_last_message_strict_fifo_bypassed b;
     mb_wakeups := mb_wakeups b |}.

(** ** Runs

    Enqueues and dequeues at non-decreasing ticks; [ins] and [outs] list the messages
    that entered and left. *)
Inductive mb_run : mbuf -> list M -> list M -> Z -> Prop :=
  | mb_run_init : mb_run mbuf_init [] [] 0
  | mb_run_enqueue b ins outs now msg created t delta random b' :
      mb_run b ins outs now -> now <= t ->
      mb_enqueue b msg created t delta random false false = Ok b' ->
      mb_run b' (ins ++ [msg]) outs t
  | mb_run_dequeue b ins outs now t msg delay b' :
      mb_run b ins outs now -> now <= t -> mb_dequeue b t = Ok (msg, delay, b') ->
      mb_run b' ins (outs ++ [msg]) t.

(** The size [areNSlotsAvailable] sees. *)
Definition visible (b : mbuf) (t : Z) : Z :=
  if m_time_last_time_pop b <? t then nz (length (m_prio_heap b))
  else if m_time_last_time_enqueue b <? t then m_size_at_cycle_start b
  else m_size_at_cycle_start b + m_msgs_this_cycle b.

Record mb_inv (b : mbuf) (ins outs : list M) (now : Z) : Prop := {
  mi_pop : m_time_last_time_pop b <= now;
  mi_enq : m_time_last_time_enqueue b <= now;
  mi_msgs : 0 <= m_msgs_this_cycle b;
  mi_bypass : m_last_message_strict_fifo_bypassed b = false;
  mi_last : Forall (fun e => me_counter e <= m_msg_counter b /\
              (mc_strict_fifo c = true -> me_time e <= m_last_arrival_time b)) (m_prio_heap b);
  mi_visible t : now <= t -> nz (length (m_prio_heap b)) <= visible b t;
  mi_fifo : mc_strict_fifo c = true -> ins = outs ++ (me_msg <$> m_prio_heap b)
}.

Lemma heap_push_end x l : Forall (fun y => msg_before y x = true) l -> heap_push x l = l ++ [x].
Proof. induction 1 as [|y l Hy _ IH]; [done|]. cbn. by rewrite Hy, IH. Qed.

Lemma length_heap_push x l : length (heap_push x l) = S (length l).
Proof. induction l as [|y l IH]; [done|]. cbn. destruct (msg_before y x); cbn; by rewrite ?IH. Qed.

Lemma Forall_heap_push P x l : P x -> Forall P l -> Forall P (heap_push x l).
Proof.
  intros Hx. induction 1 as [|y l Hy Hl IH]; cbn; [by constructor|].
  destruct (msg_before y x); constructor; try done. by constructor.
Qed.

(** What a successful enqueue does. *)
Lemma mb_enqueue_inv b ins outs now msg created t delta random b' :
  mb_inv b ins outs now -> now <= t ->
  mb_enqueue b msg created t delta random false false = Ok b' ->
  mb_inv b' (ins ++ [msg]) outs t /\ visible b' t = visible b t + 1.
Proof.
  intros [I1 I2 I3 I4 I5 I6 I7] Ht E. unfold mb_enqueue in E. inv_ok.
  destruct (arrival b t delta random) as [at_ last] eqn:Ea. inv_ok. rewrite I4 in *. cbn [orb negb] in *.
  assert (Hl : mc_strict_fifo c = true -> m_last_arrival_time b <= last <= at_).
  { intros Hs. rewrite Hs in *. cbn in *. bool_hyps. split; [|lia].
    unfold arrival in Ea. destruct random as [r|]; [|by injection Ea; lia].
    rewrite Hs in Ea. injection Ea as _ <-. destruct (Z.ltb_spec (m_last_arrival_time b) t); lia. }
  set (x := mk_mbEntry msg at_ _ _) in *.
  assert (Hc : Forall (fun e => me_counter e <= m_msg_counter b + 1 /\
     (mc_strict_fifo c = true -> me_time e <= at_)) (heap_push x (m_prio_heap b))).
  { apply Forall_heap_push; [by subst x; cbn; split; [lia|]|].
    eapply Forall_impl; [exact I5|]. intros e [Hx1 Hx2]. split; [lia|]. intros Hs.
    specialize (Hx2 Hs). specialize (Hl Hs). lia. }
  split; [split; cbn; try done|].
  - lia.
  - destruct (Z.ltb_spec (m_time_last_time_enqueue b) t); lia.
  - destruct (m_time_last_time_enqueue b <? t); lia.
  - intros t' Ht'. specialize (I6 t' ltac:(lia)). unfold visible in *. cbn. rewrite length_heap_push.
    destruct (Z.ltb_spec (m_time_last_time_pop b) t'); [lia|].
    assert (t' = t) as -> by lia.
    destruct (Z.ltb_spec (m_time_last_time_enqueue b) t); [rewrite Z.ltb_irrefl; lia|].
    destruct (Z.ltb_spec (m_time_last_time_enqueue b) t); lia.
  - intros Hs. rewrite (I7 Hs), heap_push_end, fmap_app; [by rewrite app_assoc|].
    eapply Forall_impl; [exact I5|]. intros e [Hx1 Hx2]. specialize (Hx2 Hs). specialize (Hl Hs).
    unfold msg_before. subst x. cbn. destruct (Z.ltb_spec (me_time e) at_); [done|].
    rewrite (proj2 (Z.eqb_eq _ _)), (proj2 (Z.leb_le _ _)) by lia. done.
  - unfold visible. cbn. rewrite length_heap_push. destruct (Z.ltb_spec (m_time_last_time_pop b) t); [lia|].
    destruct (Z.ltb_spec (m_time_last_time_enqueue b) t); [rewrite Z.ltb_irrefl; lia|].
    destruct (Z.ltb_spec (m_time_last_time_enqueue b) t); lia.
Qed.

Lemma mb_dequeue_inv b ins outs now t msg delay b' :
  mb_inv b ins outs now -> now <= t -> mb_dequeue b t = Ok (msg, delay, b') ->
  mb_inv b' ins (outs ++ [msg]) t.
Proof.
  intros [I1 I2 I3 I4 I5 I6 I7] Ht E. unfold mb_dequeue in E. inv_ok. destruct a as [ready again].
  inv_ok. destruct (m_prio_heap b) as [|e heap] eqn:Eh; [done|]. injection E as <- <- <-.
  split; cbn; try done.
  - destruct (Z.ltb_spec (m_time_last_time_pop b) t); lia.
  - lia.
  - by inversion I5.
  - intros t' Ht'. specialize (I6 t ltac:(lia)). unfold visible in *. rewrite Eh in I6. cbn in *.
    destruct (Z.ltb_spec (m_time_last_time_pop b) t).
    + destruct (Z.ltb_spec t t'); [lia|]. destruct (m_time_last_time_enqueue b <? t'); lia.
    + destruct (Z.ltb_spec (m_time_last_time_pop b) t'); [lia|]. assert (t' = t) as -> by lia. lia.
  - intros Hs. by rewrite (I7 Hs), <- app_assoc.
Qed.

Lemma mb_run_inv b ins outs now : mb_run b ins outs now -> mb_inv b ins outs now.
Proof.
  induction 1 as [|b ins outs now msg created t delta random b' _ IH Ht E|b ins outs now t msg delay b' _ IH Ht E].
  - split; try done. intros t Ht. unfold visible. cbn. by destruct (0 <? t), (0 <? t).
  - by eapply mb_enqueue_inv.
  - by eapply mb_dequeue_inv.
Qed.

(** C29: An ordered message buffer is a FIFO: whatever delays its messages are given, those
    that left and those inside are the ones that entered, in that order. *)
Theorem mb_ordered_fifo b ins outs now : mc_strict_fifo c = true -> mb_run b ins outs now ->
  ins = outs ++ (me_msg <$> m_prio_heap b).
Proof. intros Hs Hr. by apply (mi_fifo _ _ _ _ (mb_run_inv _ _ _ _ Hr)). Qed.

(** [n] messages at one tick, each with its delay. *)
Definition mb_enqueue_all (b : mbuf) (t : Z) (ms : list (M * Z)) : res mbuf :=
  foldM (fun b '(msg, delta) => mb_enqueue b msg t t delta None false false) b ms.

Lemma mb_enqueue_all_ok b ins outs now t ms :
  mb_inv b ins outs now -> now <= t -> (mc_max_size c = 0 \/ visible b t + nz (length ms) <= mc_max_size c) ->
  mc_allow_zero_latency c = true ->
  StronglySorted Z.le (m_last_arrival_time b :: ((fun m => t + m.2) <$> ms)) ->
  Forall (fun m => 0 <= m.2) ms -> exists b', mb_enqueue_all b t ms = Ok b'.
Proof.
  revert b ins now. induction ms as [|[msg d] ms IH]; intros b ins now Hb Ht Hmax Hz Hs Hd; [by exists b|].
  apply StronglySorted_inv in Hs as [Hs Hle]. apply Forall_cons in Hle as [Hle _], Hd as [Hd0 Hd].
  cbn in Hle, Hd0. pose proof (mi_visible _ _ _ _ Hb t Ht) as Hv.
  assert (exists b', mb_enqueue b msg t t d None false false = Ok b' /\ m_last_arrival_time b' = t + d) as (b' & E & El).
  { unfold mb_enqueue. rewrite Hz, andb_false_r. cbn [negb guard arrival].
    rewrite (proj2 (Z.leb_le t (t + d))) by lia. cbn [guard].
    rewrite (proj2 (Z.ltb_ge _ _)) by lia. rewrite andb_false_r. cbn [negb guard].
    rewrite Z.leb_refl. cbn [guard]. rewrite length_heap_push.
    assert ((mc_max_size c =? 0) || (nz (S (length (m_prio_heap b))) <=? mc_max_size c) = true) as ->.
    { destruct Hmax as [-> |Hmax]; [done|]. cbn [length] in Hmax. apply orb_true_iff. right. apply Z.leb_le. lia. }
    cbn [guard]. by eexists. }
  destruct (mb_enqueue_inv _ _ _ _ _ _ _ _ _ _ Hb Ht E) as [Hb' Hv'].
  unfold mb_enqueue_all. cbn [foldM]. rewrite E. cbn [rbind].
  apply (IH b' _ t Hb'); [lia| |done| |done].
  - destruct Hmax as [|Hmax]; [by left|right]. cbn [length] in Hmax. lia.
  - rewrite El. done.
Qed.

(** Asking first is enough: when [areNSlotsAvailable] grants [n] slots at a tick, [n]
    messages can be enqueued at that tick without the capacity assertion failing, as
    long as their delays keep the order of arrival. *)
Theorem mb_slots_granted b ins outs now t ms n :
  mb_run b ins outs now -> now <= t -> areNSlotsAvailable b n t = true -> nz (length ms) <= n ->
  mc_allow_zero_latency c = true ->
  StronglySorted Z.le (m_last_arrival_time b :: ((fun m => t + m.2) <$> ms)) ->
  Forall (fun m => 0 <= m.2) ms -> exists b', mb_enqueue_all b t ms = Ok b'.
Proof.
  intros Hr Ht Ha Hn. apply (mb_enqueue_all_ok b ins outs now); [by apply mb_run_inv|done|].
  unfold areNSlotsAvailable in Ha. destruct (Z.eqb_spec (mc_max_size c) 0); [by left|right].
  apply Z.leb_le in Ha. unfold visible. lia.
Qed.

(** A granted slot takes a message without delay. *)
Lemma mb_slot_enqueue b ins outs now t msg created :
  mb_run b ins outs now -> now <= t -> areNSlotsAvailable b 1 t = true -> mc_allow_zero_latency c = true ->
  m_last_arrival_time b <= t -> created <= t -> exists b', mb_enqueue b msg created t 0 None false false = Ok b'.
Proof.
  intros Hr Ht Ha Hz Hl Hc. pose proof (mi_visible _ _ _ _ (mb_run_inv _ _ _ _ Hr) t Ht) as Hv.
  unfold mb_enqueue. rewrite Hz, andb_false_r. cbn [negb guard arrival].
  rewrite (proj2 (Z.leb_le t (t + 0))) by lia. cbn [guard]. rewrite (proj2 (Z.ltb_ge _ _)) by lia.
  rewrite andb_false_r. cbn [negb guard]. rewrite (proj2 (Z.leb_le created t)) by lia. cbn [guard]. rewrite length_heap_push.
  assert ((mc_max_size c =? 0) || (nz (S (length (m_prio_heap b))) <=? mc_max_size c) = true) as ->; [|by eexists].
  unfold areNSlotsAvailable in Ha. destruct (mc_max_size c =? 0); [done|]. apply Z.leb_le in Ha. apply Z.leb_le.
  unfold visible in Hv. lia.
Qed.

End Buffer.

Definition ex_mbCfg : mbCfg := mk_mbCfg 4 0 true true.

(** Two messages at tick 1, arriving at 4 and 5; the first leaves at tick 5. *)
Definition ex_mb1 : mbuf := ok_or mbuf_init (mb_enqueue ex_mbCfg mbuf_init 7 0 1 3 None false false).
Definition ex_mb2 : mbuf := ok_or mbuf_init (mb_enqueue ex_mbCfg ex_mb1 8 0 1 4 None false false).
Definition ex_mb3 : mbuf := (ok_or (0, 0, mbuf_init) (mb_dequeue ex_mbCfg ex_mb2 5)).2.

Lemma ex_mb3_run : mb_run ex_mbCfg ex_mb3 [7; 8] [7] 5.
Proof.
  apply (mb_run_dequeue _ ex_mb2 [7; 8] [] 1 5 7 2); [|lia|by vm_compute].
  apply (mb_run_enqueue _ ex_mb1 [7] [] 1 8 0 1 4 None); [|lia|by vm_compute].
  apply (mb_run_enqueue _ mbuf_init [] [] 0 7 0 1 3 None); [constructor|lia|by vm_compute].
Qed.

Lemma mb_ordered_fifo_witness : [7; 8] = [7] ++ (me_msg <$> m_prio_heap ex_mb3).
Proof. apply (mb_ordered_fifo ex_mbCfg ex_mb3 _ _ 5 eq_refl ex_mb3_run). Defined.

Lemma mb_slots_granted_witness :
  exists b', mb_enqueue_all ex_mbCfg ex_mb3 5 [(1, 2); (2, 2)] = Ok b'.
Proof.
  apply (mb_slots_granted ex_mbCfg ex_mb3 [7; 8] [7] 5 5 [(1, 2); (2, 2)] 2 ex_mb3_run);
    [lia|by vm_compute|cbn; lia|done| |by repeat constructor].
  repeat constructor; by vm_compute.
Defined.
