(* ===== verification/AddressMap.v ===== *)
(** * Address decoding

    [NocGarnetNetwork::parseAddressMap], [parseSourceAddressMap] and the two
    [getDestFromAddress] ([src/src/noc/core/network/NocGarnetNetwork.cc]): which network
    interface serves an address.  The parsed ranges are sorted by their start, and the
    lookup is a binary search ([std::upper_bound], modelled as its loop on a first
    index and a length; the length is enough fuel, since every round halves it).

    JSON parsing is not modelled: the maps start from the rows.  [NodeID] -1 means
    "not mapped". *)

From S2P Require Import Prelude.

Record AddressMapEntry := mk_AddressMapEntry { am_start : Z; am_end : Z; am_dest : Z }.
Record SourceAddressMapEntry := mk_SourceAddressMapEntry {
  sm_src : Z; sm_start : Z; sm_end : Z; sm_dest : Z
}.

(** [operator<] of the entries, as the order of [std::sort]. *)
Definition entry_le (a b : AddressMapEntry) : Prop := am_start a <= am_start b.
#[global] Instance entry_le_dec : RelDecision entry_le := fun a b => Z_le_dec (am_start a) (am_start b).
#[global] Instance entry_le_total : Total entry_le.
Proof. intros a b. unfold entry_le. lia. Qed.
#[global] Instance entry_le_trans : Transitive entry_le.
Proof. intros a b c. unfold entry_le. lia. Qed.

(** [parseAddressMap] on rows [start, end, dest]; empty ranges are skipped.  The
    overlap check only prints a warning. *)
Definition parseAddressMap (rows : list AddressMapEntry) : list AddressMapEntry :=
  merge_sort entry_le (filter (fun e => am_start e < am_end e) rows).

(** [parseSourceAddressMap]; the lookup does not depend on the order of the result. *)
Definition parseSourceAddressMap (rows : list SourceAddressMapEntry) : list SourceAddressMapEntry :=
  filter (fun e => sm_start e < sm_end e) rows.

(** [std::upper_bound] with the comparison [val < entry.start]: the loop on
    [first] and [len]. *)
Fixpoint upper_bound (fuel : nat) (l : list AddressMapEntry) (val : Z) (first len : nat) : res nat :=
  match len with
  | O => Ok first
  | S _ =>
      match fuel with
      | O => Err FFuel
      | S fuel =>
          let half := (len / 2)%nat in
          let middle := (first + half)%nat in
          let* e := of_opt (FUndef "dereference past the end") (l !! middle) in
          if val <? am_start e then upper_bound fuel l val first half
          else upper_bound fuel l val (S middle) (len - half - 1)%nat
      end
  end.

Definition entry_contains (address : Z) (e : AddressMapEntry) : bool :=
  (am_start e <=? address) && (address <? am_end e).

(** [getDestFromAddress(address)] *)
Definition getDestFromMap (m : list AddressMapEntry) (address : Z) : res Z :=
  let* it := upper_bound (length m) m address 0 (length m) in
  match it with
  | O => Ok (-1)
  | S i =>
      let* e := of_opt (FUndef "dereference past the end") (m !! i) in
      Ok (if entry_contains address e then am_dest e else -1)
  end.

(** [getDestFromAddress(src_id, address)] *)
Definition src_matches (src_id address : Z) (e : SourceAddressMapEntry) : bool :=
  (sm_src e =? src_id) && (sm_start e <=? address) && (address <? sm_end e).
Definition getDestFromAddress (sm : list SourceAddressMapEntry) (m : list AddressMapEntry)
    (src_id address : Z) : res Z :=
  match filter (fun e => src_matches src_id address e = true) sm with
  | [] => getDestFromMap m address
  | [e] => Ok (sm_dest e)
  | _ => Err (FFatal "Source-aware address map is ambiguous")
  end.

(** ** The binary search *)

Definition starts_sorted (m : list AddressMapEntry) : Prop := StronglySorted entry_le m.

Lemma sorted_lookup m i j a b : starts_sorted m -> m !! i = Some a -> m !! j = Some b -> (i < j)%nat ->
  am_start a <= am_start b.
Proof.
  intros Hs. revert i j. induction Hs as [|x m Hs IH Hx]; intros i j Ha Hb Hij; [done|].
  destruct j as [|j]; [lia|]. destruct i as [|i]; [|by apply (IH i j); [..|lia]].
  injection Ha as <-. rewrite Forall_forall in Hx. apply Hx. by eapply list_elem_of_lookup_2.
Qed.

(** Everything before the result starts at or below the value, everything from it
    on starts above. *)
Lemma upper_bound_spec fuel m val first len : starts_sorted m -> (len <= fuel)%nat ->
  (first + len <= length m)%nat ->
  (forall i e, (i < first)%nat -> m !! i = Some e -> am_start e <= val) ->
  (forall i e, (first + len <= i)%nat -> m !! i = Some e -> val < am_start e) ->
  exists k, upper_bound fuel m val first len = Ok k /\ (k <= length m)%nat /\
    (forall i e, (i < k)%nat -> m !! i = Some e -> am_start e <= val) /\
    (forall i e, (k <= i)%nat -> m !! i = Some e -> val < am_start e).
Proof.
  intros Hs. revert first len. induction fuel as [|fuel IH]; intros first len Hf Hlen Hlo Hhi.
  { assert (len = 0)%nat as -> by lia. exists first. rewrite Nat.add_0_r in *. done. }
  destruct len as [|len]; [exists first; by rewrite Nat.add_0_r in *|].
  cbn [upper_bound]. set (half := (S len / 2)%nat).
  assert (Hh : (half < S len)%nat) by (apply Nat.div_lt; lia).
  destruct (lookup_lt_is_Some_2 m (first + half)%nat) as [e He]; [lia|]. rewrite He. cbn [of_opt rbind].
  destruct (Z.ltb_spec val (am_start e)).
  - apply IH; [lia|lia|done|]. intros i x Hi Hx. destruct (decide (i = first + half)%nat) as [->|]; [congruence|].
    pose proof (sorted_lookup m (first + half) i e x Hs He Hx ltac:(lia)). lia.
  - apply IH; [lia|lia| |].
    + intros i x Hi Hx. destruct (decide (i = first + half)%nat) as [->|]; [congruence|].
      pose proof (sorted_lookup m i (first + half) x e Hs Hx He ltac:(lia)). lia.
    + intros i x Hi Hx. apply (Hhi i x); [lia|done].
Qed.

Lemma parseAddressMap_sorted rows : starts_sorted (parseAddressMap rows).
Proof. apply (StronglySorted_merge_sort entry_le). Qed.

Lemma parseAddressMap_elem rows e : e ∈ parseAddressMap rows <-> e ∈ rows /\ am_start e < am_end e.
Proof.
  unfold parseAddressMap. rewrite (merge_sort_Permutation entry_le), list_elem_of_filter. tauto.
Qed.

Lemma in_range_true a e : entry_contains a e = true <-> am_start e <= a < am_end e.
Proof. unfold entry_contains. rewrite andb_true_iff, Z.leb_le, Z.ltb_lt. done. Qed.

Lemma find_none_iff {A} (p : A -> bool) l : (forall x, In x l -> p x = false) -> List.find p l = None.
Proof.
  intros H. destruct (List.find p l) as [x|] eqn:E; [|done].
  apply find_some in E as [Hx Hp]. by rewrite H in Hp.
Qed.

(** No address is in two different ranges. *)
Definition disjoint_rows (rows : list AddressMapEntry) : Prop :=
  forall a b x, a ∈ rows -> b ∈ rows -> entry_contains x a = true -> entry_contains x b = true -> a = b.

(** The reference: search the rows from the first to the last. *)
Definition linear_dest (rows : list AddressMapEntry) (address : Z) : Z :=
  match List.find (entry_contains address) rows with Some e => am_dest e | None => -1 end.

(** For a map without overlapping ranges the binary search on the sorted ranges finds
    what a linear search of the rows as they were given finds: the destination of the
    range that holds the address, or "not mapped" when there is none. *)
Theorem address_lookup_linear rows address : disjoint_rows rows ->
  getDestFromMap (parseAddressMap rows) address = Ok (linear_dest rows address).
Proof.
  intros Hd. pose proof (parseAddressMap_sorted rows) as Hs. set (m := parseAddressMap rows) in *.
  unfold getDestFromMap, linear_dest.
  destruct (upper_bound_spec (length m) m address 0 (length m) Hs) as (k & -> & Hk & Hlo & Hhi); [lia..| |].
  { intros i e Hi He. apply lookup_lt_Some in He. lia. }
  cbn [rbind]. assert (Hnone : (forall e, e ∈ m -> entry_contains address e = false) ->
    List.find (entry_contains address) rows = None).
  { intros H. apply find_none_iff. intros e He%list_elem_of_In. destruct (entry_contains address e) eqn:E; [|done].
    rewrite <- E. apply H, parseAddressMap_elem. split; [done|]. apply in_range_true in E. lia. }
  destruct k as [|i].
  - rewrite Hnone; [done|]. intros e [j Hj]%list_elem_of_lookup_1. specialize (Hhi j e ltac:(lia) Hj).
    unfold entry_contains. by rewrite (proj2 (Z.leb_gt _ _)).
  - destruct (lookup_lt_is_Some_2 m i ltac:(lia)) as [e He]. rewrite He. cbn [of_opt rbind].
    pose proof (list_elem_of_lookup_2 _ _ _ He) as Hin. apply parseAddressMap_elem in Hin as [Hin Hne].
    destruct (entry_contains address e) eqn:E.
    + destruct (List.find (entry_contains address) rows) as [x|] eqn:Ef.
      * apply find_some in Ef as [Hx%list_elem_of_In Hr]. by rewrite (Hd e x address).
      * exfalso. eapply find_none in Ef; [|by apply list_elem_of_In]. congruence.
    + rewrite Hnone; [done|]. intros x Hx. destruct (entry_contains address x) eqn:Ex; [|done]. exfalso.
      apply list_elem_of_lookup_1 in Hx as [j Hj]. pose proof (list_elem_of_lookup_2 _ _ _ Hj) as Hjin.
      apply parseAddressMap_elem in Hjin as [Hjin _]. apply in_range_true in Ex as Hr.
      assert (j < S i)%nat. { apply not_ge. intros Hge. specialize (Hhi j x ltac:(lia) Hj). lia. }
      destruct (decide (j = i)) as [->|]; [congruence|].
      pose proof (sorted_lookup m j i x e Hs Hj He ltac:(lia)). specialize (Hlo i e ltac:(lia) He).
      assert (x = e) as ->; [|congruence]. apply (Hd x e (am_start e)); [done|done|apply in_range_true; lia..].
Qed.

(** Overlapping ranges are accepted with a warning; an address that only the outer of
    two nested ranges holds is then not found. *)
Example nested_range_hides_outer :
  let rows := [mk_AddressMapEntry 0 4096 1; mk_AddressMapEntry 256 512 2] in
  linear_dest rows 2048 = 1 /\ getDestFromMap (parseAddressMap rows) 2048 = Ok (-1).
Proof. by vm_compute. Qed.

Lemma address_lookup_linear_witness :
  let rows := [mk_AddressMapEntry 4096 8192 5; mk_AddressMapEntry 0 4096 3] in
  disjoint_rows rows /\ getDestFromMap (parseAddressMap rows) 5000 = Ok (linear_dest rows 5000).
Proof.
  set (rows := [_; _]). assert (Hd : disjoint_rows rows).
  { intros a b x Ha Hb. rewrite !in_range_true. subst rows.
    repeat (apply elem_of_cons in Ha as [-> | Ha] || apply not_elem_of_nil in Ha); try done;
    repeat (apply elem_of_cons in Hb as [-> | Hb] || apply not_elem_of_nil in Hb); try done; cbn; lia. }
  split; [exact Hd|]. exact (address_lookup_linear rows 5000 Hd).
Defined.
