(* ===== verification/MmNmu.v ===== *)
(** * AXI-MM master unit

    [mmNocMasterUnit] ([src/src/noc/core/network/nmu_types/mmNocMasterUnit.{hh,cc}]).
    Write requests are split, staged in the write buffer and sent as packets of one
    address flit and up to sixteen data flits; read requests are split, get one row
    of the reorder buffer per 32 bytes and are sent as one flit each; responses go to
    the write tracker or the reorder buffer and on to the endpoint's message buffers.

    The handlers run at a clock edge [now]; [clockEdge(Cycles(1))] is [now + period].
    [dequeueIntermediateEvent] is the tick it is scheduled for, if any; scheduling it
    twice is gem5's assertion failure.  Address maps, VC map and router numbers of the
    network are parameters.  Ticks stay far below 2^64.  Messages are enqueued with the
    network's randomization and warmup switched off; probe identifiers other than the
    debug id are left out. *)

From S2P Require Import Prelude AxiTypes Chop WriteTracker MmWriteBuffer NppReceive Flit.
From S2P Require Import SNmu Rrob AddressMap MsgBuffer MmDepack.

Definition AR_VNET : Z := 2.
Definition R_VNET : Z := 2.
Definition AW_VNET : Z := 3.
Definition B_VNET : Z := 3.
Definition kNppAssemblerMaxFlits : Z := 7.

Abbreviation mflit := (flit NocMemoryMsg).

Record DrainEntry := mk_DrainEntry {
  de_valid : bool;
  de_entry : aximmWriteBufferEntry;
  de_readyTick : Z;
  de_flit_id : Z;
  de_packet_id : Z;
  de_route : NocRouteInfo;
  de_total_flits : Z;
  de_headMsg : NocMemoryMsg;
  de_bodyMsg : NocMemoryMsg
}.

(** What the head-ready handler works on besides the write buffer. *)
Record mmCore := mk_mmCore {
  mu_writeTracker : WriteTracker;
  currDrainEntry : DrainEntry;
  deqEvent : option Z;
  lastNppReadyTick : Z;
  mu_next_packet_id : Z;
  mu_outVcs : niOutVcs NocMemoryMsg
}.

(** Ready flags, and the marks [flitisizeMessage] leaves on the output VCs:
    [m_ni_out_vcs_enqueue_time] and the tick a VC was last set [ACTIVE_]. *)
Record mmPort := mk_mmPort {
  internal_ar_ready : bool;
  internal_aw_ready : bool;
  m_ni_out_vcs_enqueue_time : gmap Z Z;
  outVc_active_since : gmap Z Z
}.

Record mmNmu := mk_mmNmu {
  mu_writeBuffer : aximmWriteBuffer;
  mu_core : mmCore;
  m_rrob : ReadReorderBuffer;
  writeRequestSSIDDelayed : bool;
  numWriteBufferEntriesCurrRequest : Z;
  m_read_flits_processed : Z;
  m_last_read_beat_tick : Z;
  outNode_R : mbuf (M := NocMemoryMsg);
  outNode_B : mbuf (M := NocMemoryMsg);
  mu_port : mmPort
}.

(** Member assignments. *)
Definition set_drain (d : DrainEntry) (c : mmCore) : mmCore :=
  mk_mmCore (mu_writeTracker c) d (deqEvent c) (lastNppReadyTick c) (mu_next_packet_id c) (mu_outVcs c).
Definition set_event (t : option Z) (c : mmCore) : mmCore :=
  mk_mmCore (mu_writeTracker c) (currDrainEntry c) t (lastNppReadyTick c) (mu_next_packet_id c) (mu_outVcs c).
Definition set_tracker (t : WriteTracker) (c : mmCore) : mmCore :=
  mk_mmCore t (currDrainEntry c) (deqEvent c) (lastNppReadyTick c) (mu_next_packet_id c) (mu_outVcs c).
Definition set_outVcs (pid : Z) (q : niOutVcs NocMemoryMsg) (c : mmCore) : mmCore :=
  mk_mmCore (mu_writeTracker c) (currDrainEntry c) (deqEvent c) (lastNppReadyTick c) pid q.
Definition set_de_valid (b : bool) (d : DrainEntry) : DrainEntry :=
  mk_DrainEntry b (de_entry d) (de_readyTick d) (de_flit_id d) (de_packet_id d) (de_route d)
    (de_total_flits d) (de_headMsg d) (de_bodyMsg d).
Definition set_flit_id (n : Z) (d : DrainEntry) : DrainEntry :=
  mk_DrainEntry (de_valid d) (de_entry d) (de_readyTick d) n (de_packet_id d) (de_route d)
    (de_total_flits d) (de_headMsg d) (de_bodyMsg d).
Definition set_drain_route (r : NocRouteInfo) (d : DrainEntry) : DrainEntry :=
  mk_DrainEntry (de_valid d) (de_entry d) (de_readyTick d) (de_flit_id d) (de_packet_id d) r
    (de_total_flits d) (de_headMsg d) (de_bodyMsg d).
Definition set_rt_vnet (vnet dest_router : Z) (r : NocRouteInfo) : NocRouteInfo :=
  {| rt_vnet := vnet; rt_src_ni := rt_src_ni r; rt_src_router := rt_src_router r;
     rt_dest_ni := rt_dest_ni r; rt_dest_router := dest_router; rt_hops_traversed := rt_hops_traversed r |}.
Definition set_wb_core (w : aximmWriteBuffer) (c : mmCore) (s : mmNmu) : mmNmu :=
  mk_mmNmu w c (m_rrob s) (writeRequestSSIDDelayed s) (numWriteBufferEntriesCurrRequest s)
    (m_read_flits_processed s) (m_last_read_beat_tick s) (outNode_R s) (outNode_B s) (mu_port s).
Definition set_ssid (b : bool) (n : Z) (s : mmNmu) : mmNmu :=
  mk_mmNmu (mu_writeBuffer s) (mu_core s) (m_rrob s) b n
    (m_read_flits_processed s) (m_last_read_beat_tick s) (outNode_R s) (outNode_B s) (mu_port s).
Definition set_rrob (r : ReadReorderBuffer) (s : mmNmu) : mmNmu :=
  mk_mmNmu (mu_writeBuffer s) (mu_core s) r (writeRequestSSIDDelayed s)
    (numWriteBufferEntriesCurrRequest s) (m_read_flits_processed s) (m_last_read_beat_tick s)
    (outNode_R s) (outNode_B s) (mu_port s).
Definition set_R (n t : Z) (b : mbuf (M := NocMemoryMsg)) (s : mmNmu) : mmNmu :=
  mk_mmNmu (mu_writeBuffer s) (mu_core s) (m_rrob s) (writeRequestSSIDDelayed s)
    (numWriteBufferEntriesCurrRequest s) n t b (outNode_B s) (mu_port s).
Definition set_B (b : mbuf (M := NocMemoryMsg)) (s : mmNmu) : mmNmu :=
  mk_mmNmu (mu_writeBuffer s) (mu_core s) (m_rrob s) (writeRequestSSIDDelayed s)
    (numWriteBufferEntriesCurrRequest s) (m_read_flits_processed s) (m_last_read_beat_tick s)
    (outNode_R s) b (mu_port s).
Definition set_port (p : mmPort) (s : mmNmu) : mmNmu :=
  mk_mmNmu (mu_writeBuffer s) (mu_core s) (m_rrob s) (writeRequestSSIDDelayed s)
    (numWriteBufferEntriesCurrRequest s) (m_read_flits_processed s) (m_last_read_beat_tick s)
    (outNode_R s) (outNode_B s) p.

(** The address message of a write packet. *)
Definition head_msg (e : aximmWriteBufferEntry) : NocMemoryMsg :=
  {| mm_payload := PAddr (wb_nppRequest e); mm_pload := replicate 4 aximmRWData_default;
     mm_beat_size := 0; mm_num_flits := 0; mm_rrob_tags := zeros 8; mm_axi_rrob_tag := 0;
     mm_axi_beat_id := 0; mm_end_beat_idx := 0; mm_src_ni := 0; mm_vnet := AW_VNET;
     mm_debugId := wb_probeDebugId e; mm_original_read_bytes := 0; mm_final_read_chunk := false |}.

(** [injectFlit] stores the source interface in the message. *)
Definition set_src_ni (ni : Z) (m : NocMemoryMsg) : NocMemoryMsg :=
  {| mm_payload := mm_payload m; mm_pload := mm_pload m; mm_beat_size := mm_beat_size m;
     mm_num_flits := mm_num_flits m; mm_rrob_tags := mm_rrob_tags m;
     mm_axi_rrob_tag := mm_axi_rrob_tag m; mm_axi_beat_id := mm_axi_beat_id m;
     mm_end_beat_idx := mm_end_beat_idx m; mm_src_ni := ni; mm_vnet := mm_vnet m;
     mm_debugId := mm_debugId m; mm_original_read_bytes := mm_original_read_bytes m;
     mm_final_read_chunk := mm_final_read_chunk m |}.

Section MmNmu.
Context (source_map : list SourceAddressMapEntry) (address_map : list AddressMapEntry)
  (m_route_to_vc_map : gmap (Z * Z * Z) Z) (ni_router : Z -> Z -> Z) (oport : Z -> option Z)
  (m_id period : Z) (bufCfg : mbCfg) (m_packetize_read_req_chunks : bool)
  (m_read_response_delay_cycles : Z).

(** [schedule(dequeueIntermediateEvent, t)] *)
Definition schedule_deq (t : Z) (c : mmCore) : res mmCore :=
  match deqEvent c with
  | None => Ok (set_event (Some t) c)
  | Some _ => Err (FAssert "!event.scheduled()")
  end.

(** The tick a packet is ready: after the previous one in a busy pipeline, or after
    the start-up of an idle one. *)
Definition npp_ready (c : mmCore) (now num_data_flits pipelineEndTick : Z) : Z :=
  let hotReady := lastNppReadyTick c + num_data_flits * period
                  + (if num_data_flits <? 16 then period else 0) in
  let coldReady := pipelineEndTick + 8 * period
                   + (if now <? lastNppReadyTick c then period else 0)
                   - (if 16 <=? num_data_flits then period else 0) in
  Z.max hotReady coldReady.

(** [mmNocMasterUnit::bufferHeadReadyHandler], called with the head of the buffer. *)
Definition mm_bufferHeadReadyHandler (now : Z) (c : mmCore) (w : aximmWriteBuffer)
    : res (mmCore * aximmWriteBuffer) :=
  if de_valid (currDrainEntry c) then Ok (c, w)
  else
    let* e := wb_readHead w in
    let* w' := wb_removeHead w in
    if wb_isDecErr e then Ok (c, w')
    else
      let total_data_bytes := getTotalByteSize (wb_nppRequest e) in
      let num_data_flits := (total_data_bytes + 15) / 16 in
      let readyTick := npp_ready c now num_data_flits (wb_pipelineEndTick e) in
      let* (packet_id, next_id) := getNextPacketID (mu_next_packet_id c) in
      let* src_router := of_opt (FUndef "null OutputPort") (wb_oPort e) in
      let* dest := wt_getDestID (mu_writeTracker c) (u8 (ra_id (wb_nppRequest e))) in
      let route := {| rt_vnet := rt_vnet NocRouteInfo_default; rt_src_ni := m_id;
                      rt_src_router := src_router; rt_dest_ni := dest;
                      rt_dest_router := ni_router dest AW_VNET; rt_hops_traversed := -1 |} in
      let d := {| de_valid := true; de_entry := e; de_readyTick := readyTick; de_flit_id := 0;
                  de_packet_id := packet_id; de_route := route;
                  de_total_flits := 1 + num_data_flits; de_headMsg := head_msg e;
                  de_bodyMsg := body_msg e |} in
      let* c' := schedule_deq (now + period)
        {| mu_writeTracker := mu_writeTracker c; currDrainEntry := d; deqEvent := deqEvent c;
           lastNppReadyTick := readyTick; mu_next_packet_id := next_id;
           mu_outVcs := mu_outVcs c |} in
      Ok (c', w').

(** The fired event: [mmNocMasterUnit::dequeueIntermediate], with the flits it
    injects. *)
Definition mm_dequeueIntermediate (now : Z) (c0 : mmCore) (w : aximmWriteBuffer)
    : res (mmCore * aximmWriteBuffer * list mflit) :=
  let c := set_event None c0 in
  let d := currDrainEntry c in
  if negb (de_valid d) then Ok (c, w, [])
  else if de_total_flits d <=? de_flit_id d then Ok (c, w, [])
  else
    let flit_ready_tick := de_readyTick d + de_flit_id d * period in
    if now <? flit_ready_tick then let* c := schedule_deq flit_ready_tick c in Ok (c, w, [])
    else
      let vc := wb_vc (de_entry d) in
      if outVc_isFull (mu_outVcs c) vc then let* c := schedule_deq (now + period) c in Ok (c, w, [])
      else
        let flit_vnet := if de_flit_id d =? 0 then AW_VNET else W_VNET in
        let route := set_rt_vnet flit_vnet (ni_router (rt_dest_ni (de_route d)) flit_vnet) (de_route d) in
        let d := set_drain_route route d in
        let msg := set_src_ni m_id (if de_flit_id d =? 0 then de_headMsg d else de_bodyMsg d) in
        let fl := new_flit (de_packet_id d) (de_flit_id d) vc flit_vnet route (de_total_flits d) msg in
        match injectFlit (mu_outVcs c) fl vc with
        | None => let* c := schedule_deq (now + period) (set_drain d c) in Ok (c, w, [])
        | Some q =>
            let c := set_outVcs (mu_next_packet_id c) q c in
            if de_flit_id d =? de_total_flits d - 1 then
              let* cw := notifyTransmitComplete (Some (mm_bufferHeadReadyHandler now))
                (set_drain (set_de_valid false d) c) w in
              Ok (cw, [fl])
            else
              let* c := schedule_deq (now + period) (set_drain (set_flit_id (de_flit_id d + 1) d) c) in
              Ok (c, w, [fl])
        end.

(** [mmNocMasterUnit::flitisizeWriteRequest]; the result is whether the request was
    taken. *)
Definition flitisizeWriteRequest (now : Z) (s : mmNmu) (axi_payload : aximmRWAddr) (oPort : option Z)
    (destID vc : Z) : res (bool * mmNmu) :=
  let* SSIDMet := checkSSID (mu_writeTracker (mu_core s)) (u8 (ra_id axi_payload)) (u16 destID) in
  let* s := if writeRequestSSIDDelayed s then Ok s else
    (let* npps := chopInto256BRequests axi_payload in
     let w := foldl (fun w a => wb_add w a vc oPort SSIDMet now false) (mu_writeBuffer s) npps in
     Ok (set_ssid (writeRequestSSIDDelayed s) (u8 (nz (length npps))) (set_wb_core w (mu_core s) s))) in
  if negb SSIDMet then Ok (false, set_ssid true (numWriteBufferEntriesCurrRequest s) s)
  else
    let c := set_tracker (addAxiWriteRequest (mu_writeTracker (mu_core s)) (u8 (ra_id axi_payload)) (u16 destID)
                            (numWriteBufferEntriesCurrRequest s) vc) (mu_core s) in
    if writeRequestSSIDDelayed s then
      let* (c, w) := setSSIDMet (Some (mm_bufferHeadReadyHandler now)) c (mu_writeBuffer s)
                       (numWriteBufferEntriesCurrRequest s) in
      Ok (true, set_ssid false (numWriteBufferEntriesCurrRequest s) (set_wb_core w c s))
    else Ok (true, set_wb_core (mu_writeBuffer s) c s).

(** [mmNocMasterUnit::flitisizeWriteData] *)
Definition flitisizeWriteData (now : Z) (s : mmNmu) (d : aximmRWData) (probe_debug_id : Z) : res mmNmu :=
  let* (c, w) := wb_write (Some (mm_bufferHeadReadyHandler now)) (mu_core s) (mu_writeBuffer s)
                   (rd_data d) (rd_wstrb d) now period probe_debug_id in
  Ok (set_wb_core w c s).

(** [mmNocMasterUnit::handleWriteDecErr] *)
Definition handleWriteDecErr (now : Z) (s : mmNmu) (a : aximmRWAddr) : res (bool * mmNmu) :=
  if negb (areNSlotsAvailable bufCfg (outNode_B s) 1 now) then Ok (false, s)
  else
    let err_resp := {| wr_id := ra_id a; wr_resp := DECERR; wr_user := 0; wr_valid := true |} in
    let* b := mb_enqueue bufCfg (outNode_B s) (newNocMemoryMsg (PResp err_resp) (replicate 4 aximmRWData_default))
                now now period None false false in
    let w := wb_add (mu_writeBuffer s) a 0 None true 0 true in
    Ok (true, set_B b (set_wb_core w (mu_core s) s)).

(** [mmNocMasterUnit::handleReadDecErr] *)
Definition decerr_beat (a : aximmRWAddr) (last : bool) : aximmRWData :=
  {| rd_cmd := NONE; rd_id := ra_id a; rd_resp := DECERR; rd_last := last; rd_user := 0;
     rd_valid := true; rd_ready := false; rd_data := zeros 64; rd_wstrb := TKEEP_ALL |}.
Definition handleReadDecErr (now : Z) (s : mmNmu) (a : aximmRWAddr) : res (bool * mmNmu) :=
  let total_beats := ra_len a + 1 in
  if negb (areNSlotsAvailable bufCfg (outNode_R s) 1 now) then Ok (false, s)
  else
    let* b := foldM (fun b i => mb_enqueue bufCfg b
        (newNocMemoryMsg (PData (decerr_beat a (i =? total_beats - 1))) (replicate 4 aximmRWData_default))
        now now period None false false) (outNode_R s) (seqZ 0 total_beats) in
    Ok (true, set_R (m_read_flits_processed s) (m_last_read_beat_tick s) b s).

(** ** Read requests *)

Definition ceil32 (n : Z) : Z := (n + 31) / 32.

(** Row [r] of a chunk of [npp_bytes] bytes: [reserve] with its arguments.  [row_base]
    counts the rows of earlier chunks; tags of rows a chunk does not have are never
    written, and are 0 here. *)
Definition reserveRow (id beat_size npp_bytes total_AXI_rrob_entries row_base vnet : Z)
    (acc : ReadReorderBuffer * list Z) (r : Z) : res (ReadReorderBuffer * list Z) :=
  let '(b, tags) := acc in
  let need_next_entry := (32 <? beat_size) && (r mod 2 =? 0) in
  let contains_last := u16 (row_base + r) =? total_AXI_rrob_entries - 1 in
  let bytes_in_row := Z.min 32 (u32 (npp_bytes - r * 32)) in
  let* last_beat_idx :=
    if beat_size <=? 32 then
      guard (bytes_in_row mod beat_size =? 0) (FPanic "RROB row bytes not divisible by beat size") (
      guard (negb (bytes_in_row / beat_size =? 0)) (FPanic "RROB row has zero beats")
        (Ok (u8 (bytes_in_row / beat_size - 1))))
    else Ok 0 in
  let* (tag, b) := reserve b (u8 id) (zn (u8 beat_size)) contains_last (zn last_beat_idx) vnet need_next_entry in
  guard (r <? 8) (FUndef "m_rrob_tags index") (Ok (b, <[zn r := u8 tag]> tags)).

(** The message of a read chunk. *)
Definition read_msg (chunk : aximmRWAddr) (tags : list Z) (vnet dbg total_size : Z) (final : bool)
    : NocMemoryMsg :=
  {| mm_payload := PAddr chunk; mm_pload := replicate 4 aximmRWData_default; mm_beat_size := 0;
     mm_num_flits := 0; mm_rrob_tags := tags; mm_axi_rrob_tag := 0; mm_axi_beat_id := 0;
     mm_end_beat_idx := 0; mm_src_ni := m_id; mm_vnet := vnet; mm_debugId := dbg;
     mm_original_read_bytes := total_size; mm_final_read_chunk := final |}.

Record readState := mk_readState {
  rs_rrob : ReadReorderBuffer;
  rs_row_base : Z;
  rs_packet_id : Z;
  rs_outVcs : niOutVcs NocMemoryMsg
}.

(** One chunk of a read of [n] chunks; [one_packet] is the shared packet id when the
    chunks travel as one packet. *)
Definition readChunk (axi_payload : aximmRWAddr) (n total_size vnet vc dbg : Z) (src_router : Z) (destID : Z)
    (one_packet : option Z) (st : readState) (ic : Z * aximmRWAddr) : res readState :=
  let '(i, chunk) := ic in
  let* (packet_id, next) := match one_packet with
                            | Some p => Ok (p, rs_packet_id st)
                            | None => getNextPacketID (rs_packet_id st)
                            end in
  let rows := u16 (ceil32 (getTotalByteSize chunk)) in
  let* (b, tags) := foldM (reserveRow (ra_id chunk) (getBeatByteSize axi_payload) (getTotalByteSize chunk)
                             (u16 (ceil32 total_size)) (rs_row_base st) vnet)
                      (rs_rrob st, zeros 8) (seqZ 0 rows) in
  let msg := read_msg chunk tags vnet dbg total_size (i =? n - 1) in
  let route := {| rt_vnet := vnet; rt_src_ni := m_id; rt_src_router := src_router; rt_dest_ni := destID;
                  rt_dest_router := ni_router destID vnet; rt_hops_traversed := -1 |} in
  let fl := match one_packet with
            | Some _ => new_flit packet_id i vc vnet route n msg
            | None => new_flit packet_id 0 vc vnet route 1 msg
            end in
  match injectFlit (rs_outVcs st) fl vc with
  | None => Err (FPanic "mmNocMasterUnit::flitisizeReadRequest: niOutVc full")
  | Some q => Ok {| rs_rrob := b; rs_row_base := u16 (rs_row_base st + rows); rs_packet_id := next;
                    rs_outVcs := q |}
  end.

(** [mmNocMasterUnit::flitisizeReadRequest] *)
Definition flitisizeReadRequest (s : mmNmu) (axi_payload : aximmRWAddr) (vnet dbg : Z)
    (src_router destID vc : Z) : res (bool * mmNmu) :=
  let* npps := chopInto256BRequests axi_payload in
  let total_size := getTotalByteSize axi_payload in
  let max_read_size_bytes := u16 (u16 (rb_max_entries (axiListManager (m_rrob s))) * 32) in
  guard (total_size <=? max_read_size_bytes) (FPanic "Read request size exceeds maximum RROB capacity") (
  if getNumRemainingEntries (m_rrob s) <? u16 (ceil32 total_size) then Ok (false, s)
  else
    let n := nz (length npps) in
    let c := mu_core s in
    let one := m_packetize_read_req_chunks && (1 <? n) && (n <=? kNppAssemblerMaxFlits) in
    let* (one_packet, next) := if one then let* (p, next) := getNextPacketID (mu_next_packet_id c) in Ok (Some p, next)
                               else Ok (None, mu_next_packet_id c) in
    let* st := foldM (readChunk axi_payload n total_size vnet vc dbg src_router destID one_packet)
      {| rs_rrob := m_rrob s; rs_row_base := 0;
         rs_packet_id := next;
         rs_outVcs := mu_outVcs c |} (zip (seqZ 0 n) npps) in
    let b := rs_rrob st in
    Ok (true, set_rrob {| axiListManager := axiListManager b; numAxiReads := u8 (numAxiReads b + 1) |}
                (set_wb_core (mu_writeBuffer s) (set_outVcs (rs_packet_id st) (rs_outVcs st) c) s))).

(** The marks on VC [vc] at the end of [flitisizeMessage]. *)
Definition mark_vc (now vc : Z) (s : mmNmu) : mmNmu :=
  let p := mu_port s in
  set_port (mk_mmPort (internal_ar_ready p) (internal_aw_ready p)
              (<[vc := now]> (m_ni_out_vcs_enqueue_time p)) (<[vc := now]> (outVc_active_since p))) s.
Definition mark_taken (now vc : Z) (r : bool * mmNmu) : bool * mmNmu :=
  if r.1 then (true, mark_vc now vc r.2) else r.

(** [mmNocMasterUnit::flitisizeMessage] on a message with payload [p] and debug id
    [dbg].  Write data marks VC 0; the error handlers return before the marking. *)
Definition mm_flitisizeMessage (now : Z) (s : mmNmu) (p : MessagePayload) (vnet dbg : Z) : res (bool * mmNmu) :=
  match p with
  | PData d =>
      let* _ := of_opt (FAssert "oPort") (oport vnet) in
      let* s := flitisizeWriteData now s d dbg in
      Ok (true, mark_vc now 0 s)
  | PAddr a =>
      let* router := of_opt (FAssert "oPort") (oport vnet) in
      match ra_cmd a with
      | READ =>
          let* destID := getDestFromAddress source_map address_map m_id (ra_addr a) in
          if destID =? -1 then handleReadDecErr now s a
          else
            let* vc := getPathVC m_route_to_vc_map m_id destID 0 in
            let* r := flitisizeReadRequest s a vnet dbg router destID vc in
            Ok (mark_taken now vc r)
      | WRITE =>
          let* destID := getDestFromAddress source_map address_map m_id (ra_addr a) in
          if destID =? -1 then handleWriteDecErr now s a
          else
            let* vc := getPathVC m_route_to_vc_map m_id destID 1 in
            let* r := flitisizeWriteRequest now s a (Some router) destID vc in
            Ok (mark_taken now vc r)
      | NONE => Err (FPanic "mmNocMasterUnit::flitisizeMessage: Unsupported AXI command")
      end
  | _ => Err (FPanic "mmNocMasterUnit::flitisizeMessage: Unsupported payload type")
  end.

(** ** Responses *)

Definition NMU_COOL_DOWN_CYCLES : Z := 4.
Definition NMU_SMALL_READ_BEAT_DELAY_CYCLES : Z := 6.

(** The delay of a read beat, in cycles, after [processed] flits. *)
Definition read_beat_delay (beat_size processed : Z) : Z :=
  if 0 <=? m_read_response_delay_cycles then m_read_response_delay_cycles
  else if beat_size <? 16 then NMU_SMALL_READ_BEAT_DELAY_CYCLES
  else if beat_size =? 64 then 10 - 1
  else if beat_size =? 32 then (if processed / 2 mod 2 =? 0 then 8 else 7) - 1
  else (7 - processed / 4 mod 3) - 1.

(** The read response message the endpoint gets. *)
Definition r_msg (m : RReadMsg) : NocMemoryMsg :=
  {| mm_payload := PData (rm_name m);
     mm_pload := rm_data m :: replicate 3 aximmRWData_default; mm_beat_size := nz (rm_beatSize m);
     mm_num_flits := 0; mm_rrob_tags := zeros 8; mm_axi_rrob_tag := u8 (rm_tag m);
     mm_axi_beat_id := nz (rm_beatID m); mm_end_beat_idx := 0; mm_src_ni := 0; mm_vnet := 0;
     mm_debugId := -1; mm_original_read_bytes := 0; mm_final_read_chunk := false |}.

(** [outNode_ptr]: the unit's response buffers. *)
Definition outNode (s : mmNmu) (vnet : Z) : option (mbuf (M := NocMemoryMsg)) :=
  if vnet =? R_VNET then Some (outNode_R s) else if vnet =? B_VNET then Some (outNode_B s) else None.
Definition set_outNode (vnet : Z) (b : mbuf (M := NocMemoryMsg)) (s : mmNmu) : mmNmu :=
  if vnet =? R_VNET then set_R (m_read_flits_processed s) (m_last_read_beat_tick s) b s else set_B b s.

(** One message of [mmNocMasterUnit::rrobWriteCallback]. *)
Definition sendReadBeat (now axi_id : Z) (s : mmNmu) (m : RReadMsg) : res mmNmu :=
  let* vnet := getVnet (axiListManager (m_rrob s)) axi_id (u8 (rm_tag m)) in
  let* obuf := of_opt (FPanic "mmNocMasterUnit::rrobWriteCallback: outNode vnet null") (outNode s vnet) in
  guard (areNSlotsAvailable bufCfg obuf 1 now)
    (FPanic "mmNocMasterUnit::rrobWriteCallback: No space available in output buffer") (
  let processed := if m_last_read_beat_tick s + NMU_COOL_DOWN_CYCLES * period <? now
                   then 0 else m_read_flits_processed s in
  let beat_size := u8 (nz (rm_beatSize m)) in
  let delay := read_beat_delay beat_size processed in
  let s := set_R (u64 (processed + Z.max 1 (beat_size / 16))) now (outNode_R s) s in
  let* b := mb_enqueue bufCfg obuf (r_msg m) now now (delay * period) None false false in
  Ok (set_outNode vnet b s)).

(** [mmNocMasterUnit::processReadResponseFlit]: [writeFlit] and its callback
    [rrobWriteCallback]. *)
Definition processReadResponseFlit (now : Z) (s : mmNmu) (msg : NocMemoryMsg) (flit_id tag idx : Z)
    : res mmNmu :=
  let* data := mem_getFlitData msg flit_id in
  let* (ms, b) := writeFlit (m_rrob s) tag data idx in
  let* axi_id := getAxiID (axiListManager b) (u8 tag) in
  foldM (sendReadBeat now axi_id) (set_rrob b s) ms.

(** [mmNocMasterUnit::processWriteResponseFlit] with the handler
    [writeRespReadyHandler]. *)
Definition processWriteResponseFlit (now : Z) (s : mmNmu) (p : aximmWResp) : res mmNmu :=
  let* (t, ready) := markRespReceived (mu_writeTracker (mu_core s)) true (u8 (wr_id p))
    (match wr_resp p with SLVERR => true | _ => false end) in
  let s := set_wb_core (mu_writeBuffer s) (set_tracker t (mu_core s)) s in
  if negb ready then Ok s
  else
    let* (t, e) := readAndRemoveEntry t (u8 (wr_id p)) in
    let resp := {| wr_id := u8 (wr_id p); wr_resp := if wt_receivedSLVERR e then SLVERR else OKAY;
                   wr_user := 0; wr_valid := true |} in
    guard (areNSlotsAvailable bufCfg (outNode_B s) 1 now)
      (FPanic "mmNocMasterUnit::writeRespReadyHandler: No space available in output buffer") (
    let* b := mb_enqueue bufCfg (outNode_B s) (newNocMemoryMsg (PResp resp) (replicate 4 aximmRWData_default))
                now now (3 * period) None false false in
    Ok (set_B b (set_wb_core (mu_writeBuffer s) (set_tracker t (mu_core s)) s))).

(** [mmNocMasterUnit::depacketizeFlit] *)
Definition mm_depacketizeFlit (now : Z) (s : mmNmu) (msg : NocMemoryMsg) (flit_id tag idx : Z) : res mmNmu :=
  match mm_payload msg with
  | PData _ => processReadResponseFlit now s msg flit_id tag idx
  | PResp p => processWriteResponseFlit now s p
  | _ => Err (FPanic "mmNocMasterUnit::depacketizeFlit: Unsupported payload type")
  end.

(** [mmNocMasterUnit::msgReadCallback] *)
Definition msgReadCallback (s : mmNmu) (msg : NocMemoryMsg) : res mmNmu :=
  match mm_payload msg with
  | PData d =>
      let* b := markBeatRead (m_rrob s) (u8 (rd_id d)) (mm_axi_rrob_tag msg) (zn (mm_axi_beat_id msg)) in
      Ok (set_rrob b s)
  | _ => Err (FPanic "mmNocMasterUnit::msgReadCallback: Unsupported payload type")
  end.

(** ** Ready signals

    [buffered] is [getMsgCount] of the unit's request buffer, 0 if it has none. *)
Definition getAxiRAddrReady (s : mmNmu) (upstreamValid : bool) (buffered : Z) : bool * mmNmu :=
  let p := mu_port s in
  let accepting := if upstreamValid && internal_ar_ready p then 1 else 0 in
  let new_ready := accepting + buffered + numAxiReads (m_rrob s) <? 64 in
  (new_ready, set_port (mk_mmPort new_ready (internal_aw_ready p) (m_ni_out_vcs_enqueue_time p)
                          (outVc_active_since p)) s).
Definition getAxiWAddrReady (s : mmNmu) (upstreamValid : bool) (buffered : Z) : bool * mmNmu :=
  let p := mu_port s in
  let accepting := if upstreamValid && internal_aw_ready p then 1 else 0 in
  let new_ready := accepting + buffered + getNumEntries (mu_writeTracker (mu_core s)) <? 64 in
  (new_ready, set_port (mk_mmPort (internal_ar_ready p) new_ready (m_ni_out_vcs_enqueue_time p)
                          (outVc_active_since p)) s).
Definition getAxiWReady (s : mmNmu) : bool := wb_getSize (mu_writeBuffer s) <? 512.

End MmNmu.
