(* ===== verification/MmNmuDrain.v ===== *)
(** * Write packets of the AXI-MM master unit

    The master unit as a transition system: messages from the endpoint, firings of
    [dequeueIntermediateEvent], response flits, endpoint reads, ready queries, and
    the network taking flits out of the output queues.  The flits
    [dequeueIntermediate] injects are, in every reachable state, the flits of whole
    packets with increasing packet numbers followed by the flits sent so far of the
    packet that is draining; the event is scheduled exactly while one is. *)

From S2P Require Import Prelude AxiTypes Chop WriteTracker MmWriteBuffer NppReceive Flit.
From S2P Require Import SNmu Rrob AddressMap MsgBuffer MmDepack MmNmu.

(** An invariant of the handler's state and the buffer that marking an entry and
    [checkHeadReady] keep is kept by the marking loop. *)
Lemma setSSIDMetLoop_inv {H} (f : option (H -> aximmWriteBuffer -> res (H * aximmWriteBuffer)))
    (I : H -> aximmWriteBuffer -> Prop) fuel h w i m n h' w' :
  (forall h w i e, I h w -> writeBuffer w !! i = Some e ->
     I h {| writeBuffer := <[i := wb_set_SSIDMet e]> (writeBuffer w); bufferSize := bufferSize w |}) ->
  (forall h w h' w', I h w -> checkHeadReady f h w = Ok (h', w') -> I h' w') ->
  I h w -> setSSIDMetLoop f fuel h w i m n = Ok (h', w') -> I h' w'.
Proof.
  intros Hm Hf. revert h w i m. induction fuel as [|fuel IH]; intros h w i m Hh E; [done|]. cbn in E.
  destruct (writeBuffer w !! i) as [e|] eqn:Ei; [|done]. destruct (wb_SSIDMet e); [by eapply IH|].
  apply rbind_Ok in E as ([h1 w1] & E1 & E). apply (Hf _ _ _ _ (Hm _ _ _ _ Hh Ei)) in E1.
  destruct (_ =? n); [by simplify_eq|]. destruct (_ =? _)%nat; [by eapply IH|].
  destruct i; [done|by eapply IH].
Qed.

(** ** What the unit does to its write buffer

    A write request that is taken in, one that decoded nowhere, and a W beat. *)
Inductive wevent := EvWrite (a : aximmRWAddr) | EvDecErr (a : aximmRWAddr) | EvBeat (d : aximmRWData).

(** What the write buffer promises to the unit: [J h g w] holds of the buffer [w] after the
    events [h], when the entries [g] have left it, provided every event satisfied [Mok]
    when it occurred. *)
Class BufferContract (Mok : aximmWriteBuffer -> wevent -> Prop)
    (J : list wevent -> list aximmWriteBufferEntry -> aximmWriteBuffer -> Prop) : Prop := {
  bc_head h g w w' e : J h g w -> headReady w = true -> wb_readHead w = Ok e -> wb_removeHead w = Ok w' ->
    J h (g ++ [e]) w';
  bc_mark h g w i e : J h g w -> writeBuffer w !! i = Some e ->
    J h g {| writeBuffer := <[i := wb_set_SSIDMet e]> (writeBuffer w); bufferSize := bufferSize w |};
  bc_write h g w d now period dbg es t : J h g w -> Mok w (EvBeat d) ->
    writeEntries (rd_data d) (rd_wstrb d) now period dbg (writeBuffer w) 0 0 = Ok (es, t) ->
    J (h ++ [EvBeat d]) g {| writeBuffer := es; bufferSize := u16 (bufferSize w + t) |};
  bc_add h g w a npps vc oPort met now : J h g w -> Mok w (EvWrite a) -> ra_cmd a = WRITE ->
    chopInto256BRequests a = Ok npps ->
    J (h ++ [EvWrite a]) g (foldl (fun w a => wb_add w a vc oPort met now false) w npps);
  bc_decerr h g w a : J h g w -> Mok w (EvDecErr a) -> ra_cmd a = WRITE ->
    J (h ++ [EvDecErr a]) g (wb_add w a 0 None true 0 true)
}.

(** Nothing is promised to an arbitrary environment. *)
#[export] Instance any_contract Mok : BufferContract Mok (fun _ _ _ => True).
Proof. by split. Qed.

Section Drain.
Context (source_map : list SourceAddressMapEntry) (address_map : list AddressMapEntry)
  (m_route_to_vc_map : gmap (Z * Z * Z) Z) (ni_router : Z -> Z -> Z) (oport : Z -> option Z)
  (m_id period : Z) (bufCfg : mbCfg) (m_packetize_read_req_chunks : bool)
  (m_read_response_delay_cycles : Z) (Mok : aximmWriteBuffer -> wevent -> Prop).

(** ** The packets *)

(** A write packet: its number, the buffer entry it carries, and its route. *)
Record wpkt := mk_wpkt {
  wp_id : Z;
  wp_entry : aximmWriteBufferEntry;
  wp_src_router : Z;
  wp_dest : Z
}.

Definition wp_total (p : wpkt) : Z := 1 + (wb_total (wp_entry p) + 15) / 16.
Definition wp_route (p : wpkt) (vnet : Z) : NocRouteInfo :=
  {| rt_vnet := vnet; rt_src_ni := m_id; rt_src_router := wp_src_router p; rt_dest_ni := wp_dest p;
     rt_dest_router := ni_router (wp_dest p) vnet; rt_hops_traversed := -1 |}.

(** Flit [k]: the address for [k = 0], then the data. *)
Definition wp_flit (p : wpkt) (k : Z) : mflit :=
  let vnet := if k =? 0 then AW_VNET else W_VNET in
  new_flit (wp_id p) k (wb_vc (wp_entry p)) vnet (wp_route p vnet) (wp_total p)
    (set_src_ni m_id (if k =? 0 then head_msg (wp_entry p) else body_msg (wp_entry p))).
Definition wp_sent (p : wpkt) (k : Z) : list mflit := wp_flit p <$> seqZ 0 k.
Definition wp_flits (p : wpkt) : list mflit := wp_sent p (wp_total p).

(** Only complete entries whose SSID check was met, and no discarded ones, are sent, with a
    packet number below the largest [int]. *)
Definition wp_ok (p : wpkt) : Prop :=
  wb_numEmptyBytes (wp_entry p) = 0 /\ wb_SSIDMet (wp_entry p) = true /\
  wb_isDecErr (wp_entry p) = false /\ wb_oPort (wp_entry p) = Some (wp_src_router p) /\ wp_id p + 1 < 2 ^ 31.

(** The drain entry [d] is packet [p]. *)
Definition drains (d : DrainEntry) (p : wpkt) : Prop :=
  de_entry d = wp_entry p /\ de_packet_id d = wp_id p /\ de_total_flits d = wp_total p /\
  de_headMsg d = head_msg (wp_entry p) /\ de_bodyMsg d = body_msg (wp_entry p) /\
  exists v r, de_route d = set_rt_vnet v r (wp_route p 0).

(** ** Steps *)

(** What a message does to the write buffer; [b] is whether it was taken. *)
Definition mm_event (s : mmNmu) (p : MessagePayload) (b : bool) : list wevent :=
  match p with
  | PData d => [EvBeat d]
  | PAddr a =>
      match ra_cmd a with
      | WRITE =>
          match getDestFromAddress source_map address_map m_id (ra_addr a) with
          | Ok dest => if dest =? -1 then (if b then [EvDecErr a] else [])
                       else if writeRequestSSIDDelayed s then [] else [EvWrite a]
          | Err _ => []
          end
      | _ => []
      end
  | _ => []
  end.

Inductive mm_step (s : mmNmu) : mmNmu -> list mflit -> list wevent -> Prop :=
| step_message now p vnet dbg b s' :
    mm_flitisizeMessage source_map address_map m_route_to_vc_map ni_router oport m_id period bufCfg
      m_packetize_read_req_chunks now s p vnet dbg = Ok (b, s') ->
    Forall (Mok (mu_writeBuffer s)) (mm_event s p b) -> mm_step s s' [] (mm_event s p b)
| step_dequeue now c w fls :
    deqEvent (mu_core s) = Some now ->
    mm_dequeueIntermediate ni_router m_id period now (mu_core s) (mu_writeBuffer s) = Ok (c, w, fls) ->
    mm_step s (set_wb_core w c s) fls []
| step_flit now msg fid tag idx s' :
    mm_depacketizeFlit period bufCfg m_read_response_delay_cycles now s msg fid tag idx = Ok s' ->
    mm_step s s' [] []
| step_read msg s' : msgReadCallback s msg = Ok s' -> mm_step s s' [] []
| step_ar_ready v n : mm_step s (getAxiRAddrReady s v n).2 [] []
| step_aw_ready v n : mm_step s (getAxiWAddrReady s v n).2 [] []
| step_network pid q bR bB :
    mu_next_packet_id (mu_core s) <= pid ->
    mm_step s (set_B bB (set_R (m_read_flits_processed s) (m_last_read_beat_tick s) bR
                (set_wb_core (mu_writeBuffer s) (set_outVcs pid q (mu_core s)) s))) [] [].

(** Runs from [s0], with the flits injected by [dequeueIntermediate] and what happened to
    the write buffer. *)
Inductive mm_reach (s0 : mmNmu) : mmNmu -> list mflit -> list wevent -> Prop :=
| reach_init : mm_reach s0 s0 [] []
| reach_step s s' log h fls evs :
    mm_reach s0 s log h -> mm_step s s' fls evs -> mm_reach s0 s' (log ++ fls) (h ++ evs).

(** ** The invariant *)

(** The packets started so far, with numbers below [next]. *)
Definition wp_numbered (next : Z) (l : list wpkt) : Prop :=
  Forall wp_ok l /\ StronglySorted Z.lt (wp_id <$> l) /\ Forall (fun p => wp_id p < next) l.

(** What the draining packet [cur] and the completed ones [ps] say of the state. *)
Definition drain_state (c : mmCore) (log : list mflit) (ps : list wpkt) (cur : option wpkt) : Prop :=
  match cur with
  | None => de_valid (currDrainEntry c) = false /\ deqEvent c = None /\ log = concat (wp_flits <$> ps)
  | Some p =>
      de_valid (currDrainEntry c) = true /\ is_Some (deqEvent c) /\ drains (currDrainEntry c) p /\
      (0 <= de_flit_id (currDrainEntry c) < wp_total p) /\
      log = concat (wp_flits <$> ps) ++ wp_sent p (de_flit_id (currDrainEntry c))
  end.

(** The entries that were sent: those that left the buffer and are not discarded. *)
Definition sent_entries (g : list aximmWriteBufferEntry) : list aximmWriteBufferEntry :=
  filter (fun e => wb_isDecErr e = false) g.

Definition drain_inv (c : mmCore) (log : list mflit) (g : list aximmWriteBufferEntry) : Prop :=
  exists ps cur, wp_numbered (mu_next_packet_id c) (ps ++ option_list cur) /\ drain_state c log ps cur /\
    wp_entry <$> (ps ++ option_list cur) = sent_entries g.

(** Packet numbers handed out to others, and changes of the queues and the tracker,
    do not matter. *)
Lemma wp_numbered_le n n' l : n <= n' -> wp_numbered n l -> wp_numbered n' l.
Proof. intros Hle (Ho & Hs & Hl). split_and!; [done..|]. eapply Forall_impl; [exact Hl|]. cbn. lia. Qed.

Lemma drain_inv_frame c c' log g :
  currDrainEntry c' = currDrainEntry c -> deqEvent c' = deqEvent c ->
  mu_next_packet_id c <= mu_next_packet_id c' -> drain_inv c log g -> drain_inv c' log g.
Proof.
  intros E1 E2 Hle (ps & cur & Hn & Hcur & Hg). exists ps, cur. split; [by eapply wp_numbered_le|].
  unfold drain_state. rewrite E1, E2. done.
Qed.

(** A packet that takes the next number. *)
Lemma wp_numbered_next n l e r d :
  wp_numbered n l -> wp_ok (mk_wpkt n e r d) -> wp_numbered (n + 1) (l ++ [mk_wpkt n e r d]).
Proof.
  intros (Ho & Hs & Hl) Hp. split_and!.
  - apply Forall_app. split; [done|]. by apply Forall_singleton.
  - rewrite fmap_app. apply sorted_snoc; [done|]. by apply Forall_fmap.
  - apply Forall_app. split; [|apply Forall_singleton; cbn; lia]. eapply Forall_impl; [exact Hl|]. cbn. lia.
Qed.

Lemma schedule_deq_Ok t c c' : schedule_deq t c = Ok c' -> deqEvent c = None /\ c' = set_event (Some t) c.
Proof. unfold schedule_deq. destruct (deqEvent c); [done|]. by intros [= <-]. Qed.

(** The unit and its buffer, after the events [h]. *)
Section Contract.
Context {J : list wevent -> list aximmWriteBufferEntry -> aximmWriteBuffer -> Prop} `{!BufferContract Mok J}.

Definition unit_inv (log : list mflit) (h : list wevent) (c : mmCore) (w : aximmWriteBuffer) : Prop :=
  exists g, drain_inv c log g /\ J h g w.

Lemma unit_inv_frame c c' log h w :
  currDrainEntry c' = currDrainEntry c -> deqEvent c' = deqEvent c ->
  mu_next_packet_id c <= mu_next_packet_id c' -> unit_inv log h c w -> unit_inv log h c' w.
Proof using Type. intros ? ? ? (g & Hd & Hj). exists g. split; [|done]. by eapply drain_inv_frame; [..|exact Hd]. Qed.

Lemma checkHeadReady_drain now c w c' w' log h :
  unit_inv log h c w ->
  checkHeadReady (Some (mm_bufferHeadReadyHandler ni_router m_id period now)) c w = Ok (c', w') ->
  unit_inv log h c' w'.
Proof using BufferContract0.
  clear oport. intros Hi. unfold checkHeadReady. destruct (headReady w) eqn:Hr; [|by intros [= <- <-]].
  unfold mm_bufferHeadReadyHandler. destruct (de_valid (currDrainEntry c)) eqn:Hv; [by intros [= <- <-]|].
  intros E. apply rbind_Ok in E as (e & He & E). apply rbind_Ok in E as (w1 & Hw & E).
  destruct Hi as (g & (ps & cur & Hn & Hcur & Hg) & Hj). pose proof (bc_head _ _ _ _ _ Hj Hr He Hw) as Hj'.
  unfold wb_readHead in He. unfold headReady in Hr. destruct (writeBuffer w) as [|e0 es]; [done|]. injection He as ->.
  apply andb_true_iff in Hr as [He Hm]. apply Z.eqb_eq in He.
  destruct (wb_isDecErr e) eqn:Hd.
  { injection E as <- <-. exists (g ++ [e]). split; [|done]. exists ps, cur. split_and!; [done..|].
    unfold sent_entries in *. rewrite filter_app, filter_cons_False, app_nil_r by (by rewrite Hd). done. }
  apply rbind_Ok in E as ([pid next] & Hpid & E). apply getNextPacketID_Ok in Hpid as (-> & -> & Hpid).
  apply rbind_Ok in E as (src & Hsrc & E). apply rbind_Ok in E as (dest & _ & E).
  apply rbind_Ok in E as (c1 & Hsch & E). simplify_eq/=.
  apply schedule_deq_Ok in Hsch as [_ ->].
  destruct (wb_oPort e) as [r|] eqn:Hp; [|done]. injection Hsrc as ->.
  destruct cur as [p|]; [destruct Hcur as [Hv' _]; by rewrite Hv' in Hv|].
  destruct Hcur as (_ & _ & ->). cbn in Hn. rewrite app_nil_r in Hn, Hg. exists (g ++ [e]). split; [|done].
  exists ps, (Some (mk_wpkt (mu_next_packet_id c) e src dest)). split; [by apply wp_numbered_next|]. split.
  - cbn. split_and!; [done|by eexists| |lia| |].
    + split_and!; try done. by eexists _, _.
    + unfold wp_total, wb_total, getTotalByteSize, u16. cbn. mlia.
    + unfold wp_sent. cbn. by rewrite app_nil_r.
  - unfold sent_entries in *. by rewrite filter_app, fmap_app, Hg, filter_cons_True.
Qed.

(** ** The steps keep the invariant *)

Lemma wp_sent_S p k : 0 <= k -> wp_sent p (k + 1) = wp_sent p k ++ [wp_flit p k].
Proof. intros. unfold wp_sent. rewrite seqZ_app by lia. by rewrite fmap_app. Qed.

(** The flit the unit builds from the drain entry is the packet's. *)
Lemma drained_flit d p :
  drains d p ->
  let vnet := if de_flit_id d =? 0 then AW_VNET else W_VNET in
  new_flit (de_packet_id d) (de_flit_id d) (wb_vc (de_entry d)) vnet
    (set_rt_vnet vnet (ni_router (rt_dest_ni (de_route d)) vnet) (de_route d)) (de_total_flits d)
    (set_src_ni m_id (if de_flit_id d =? 0 then de_headMsg d else de_bodyMsg d)) = wp_flit p (de_flit_id d).
Proof. intros (-> & -> & -> & -> & -> & v & r & ->). done. Qed.

Lemma mm_dequeueIntermediate_drain now c w c' w' fls log h :
  unit_inv log h c w -> is_Some (deqEvent c) ->
  mm_dequeueIntermediate ni_router m_id period now c w = Ok (c', w', fls) -> unit_inv (log ++ fls) h c' w'.
Proof using BufferContract0.
  intros (g & (ps & [p|] & Hn & Hcur & Hg) & Hj) Hev;
    [|destruct Hcur as (_ & E & _); rewrite E in Hev; by destruct Hev].
  destruct Hcur as (Hv & _ & Hd & Hk & ->). unfold mm_dequeueIntermediate. cbn [currDrainEntry set_event].
  pose proof Hd as (He & _ & Ht & _). rewrite Hv, Ht. cbn [negb].
  destruct (Z.leb_spec (wp_total p) (de_flit_id (currDrainEntry c))); [lia|].
  assert (forall t c2, schedule_deq t (set_event None c) = Ok c2 ->
    unit_inv ((concat (wp_flits <$> ps) ++ wp_sent p (de_flit_id (currDrainEntry c))) ++ []) h c2 w) as Hwait.
  { intros t c2 [_ ->]%schedule_deq_Ok. rewrite app_nil_r. exists g. split; [|done]. exists ps, (Some p). split; [done|].
    split; [|done]. cbn. split_and!; [done|by eexists|done|apply Hk|apply Hk|done]. }
  destruct (now <? _); [intros E; apply rbind_Ok in E as (c2 & E & [= <- <- <-]); by eapply Hwait|].
  cbn [mu_outVcs set_event]. unfold injectFlit.
  destruct (outVc_isFull _ _) eqn:Hf; [intros E; apply rbind_Ok in E as (c2 & E & [= <- <- <-]); by eapply Hwait|].
  cbn [de_flit_id de_entry de_headMsg de_bodyMsg de_packet_id de_total_flits set_drain_route].
  pose proof (drained_flit _ _ Hd) as Hfl. cbv zeta in Hfl. rewrite Hfl. rewrite ?Ht.
  destruct (Z.eqb_spec (de_flit_id (currDrainEntry c)) (wp_total p - 1)) as [Hl|Hl].
  - intros E. apply rbind_Ok in E as ([c2 w2] & E & [= <- <- <-]).
    eapply checkHeadReady_drain; [|exact E]. exists g. split; [|done]. exists (ps ++ [p]), None.
    cbn [option_list]. rewrite app_nil_r. split; [done|]. split; [|done].
    split_and!; [done..|]. rewrite <- app_assoc, <- wp_sent_S by lia.
    rewrite fmap_app, concat_app, Hl. cbn. by rewrite app_nil_r, Z.sub_add.
  - intros E. apply rbind_Ok in E as (c2 & [_ ->]%schedule_deq_Ok & [= <- <- <-]). exists g. split; [|done].
    exists ps, (Some p). split; [done|]. split; [|done]. cbn. split_and!; [done|by eexists| |lia|lia|].
    + destruct Hd as (? & ? & ? & ? & ? & v & r & Hr). split_and!; try done. cbn. rewrite Hr. by eexists _, _.
    + by rewrite wp_sent_S, app_assoc by lia.
Qed.

Local Abbreviation nmu_inv s log h := (unit_inv log h (mu_core s) (mu_writeBuffer s)).

Lemma flitisizeWriteData_drain now s d dbg s' log h :
  nmu_inv s log h -> Mok (mu_writeBuffer s) (EvBeat d) ->
  flitisizeWriteData ni_router m_id period now s d dbg = Ok s' -> nmu_inv s' log (h ++ [EvBeat d]).
Proof using BufferContract0.
  intros (g & Hd & Hj) Hok E. apply rbind_Ok in E as ([c w] & E & [= <-]).
  apply rbind_Ok in E as ([es t] & Ew & E). eapply checkHeadReady_drain; [|exact E].
  exists g. split; [done|]. exact (bc_write (Mok := Mok) (J := J) _ _ _ _ _ _ _ _ _ Hj Hok Ew).
Qed.

Lemma flitisizeWriteRequest_drain now s a o dest vc b s' log h :
  let evs := if writeRequestSSIDDelayed s then [] else [EvWrite a] in
  nmu_inv s log h -> Forall (Mok (mu_writeBuffer s)) evs -> ra_cmd a = WRITE ->
  flitisizeWriteRequest ni_router m_id period now s a o dest vc = Ok (b, s') -> nmu_inv s' log (h ++ evs).
Proof using BufferContract0.
  intros evs Hi Hok Hcmd E. apply rbind_Ok in E as (met & _ & E). apply rbind_Ok in E as (s1 & E1 & E).
  assert (nmu_inv s1 log (h ++ evs)) as Hi1.
  { subst evs. destruct (writeRequestSSIDDelayed s); [injection E1 as <-; by rewrite app_nil_r|].
    apply rbind_Ok in E1 as (npps & Ec & [= <-]). destruct Hi as (g & Hd & Hj). exists g. split; [exact Hd|].
    rewrite Forall_singleton in Hok. cbn. exact (bc_add (Mok := Mok) (J := J) _ _ _ _ _ _ _ _ _ Hj Hok Hcmd Ec). }
  destruct met; cbn [negb] in E; [|by injection E as <- <-].
  assert (unit_inv log (h ++ evs) (set_tracker (addAxiWriteRequest (mu_writeTracker (mu_core s1)) (u8 (ra_id a)) (u16 dest)
    (numWriteBufferEntriesCurrRequest s1) vc) (mu_core s1)) (mu_writeBuffer s1)) as Ht
    by (by eapply unit_inv_frame; [..|exact Hi1]).
  destruct (writeRequestSSIDDelayed s1); [|by injection E as <- <-].
  apply rbind_Ok in E as ([c w] & E & [= <- <-]). cbn.
  apply (setSSIDMetLoop_inv _ (unit_inv log (h ++ evs))) in E; [done| |by intros; eapply checkHeadReady_drain|done].
  intros c0 w0 i e (g & Hd & Hj) Ee. exists g. split; [done|]. exact (bc_mark (Mok := Mok) (J := J) _ _ _ _ _ Hj Ee).
Qed.

Lemma flitisizeReadRequest_drain s a vnet dbg r dest vc b s' log h :
  nmu_inv s log h ->
  flitisizeReadRequest ni_router m_id m_packetize_read_req_chunks s a vnet dbg r dest vc = Ok (b, s') ->
  nmu_inv s' log h.
Proof using Type.
  intros Hi E. apply rbind_Ok in E as (npps & _ & E). unfold guard in E.
  destruct (_ <=? _); [|done]. destruct (_ <? _); [by injection E as <- <-|].
  apply rbind_Ok in E as ([one next] & E0 & E). apply rbind_Ok in E as (st & E & [= <- <-]). cbn.
  assert (mu_next_packet_id (mu_core s) <= next) as Hnext.
  { destruct (_ && _) in E0; [|by injection E0 as <- <-]. apply rbind_Ok in E0 as ([p n] & E0 & [= <- <-]).
    apply getNextPacketID_Ok in E0. lia. }
  apply (foldM_inv (fun st => mu_next_packet_id (mu_core s) <= rs_packet_id st)) in E.
  - by eapply unit_inv_frame; [..|exact Hi].
  - intros st1 [i ch] st2 _ Hle E1. unfold readChunk in E1.
    apply rbind_Ok in E1 as ([p n] & E2 & E1). apply rbind_Ok in E1 as ([b1 tags] & _ & E1).
    destruct one; [injection E2 as <- <-|apply getNextPacketID_Ok in E2 as (-> & -> & _)];
      destruct (injectFlit _ _ _); simplify_eq/=; lia.
  - done.
Qed.

Lemma mm_flitisizeMessage_drain now s p vnet dbg b s' log h :
  nmu_inv s log h -> Forall (Mok (mu_writeBuffer s)) (mm_event s p b) ->
  mm_flitisizeMessage source_map address_map m_route_to_vc_map ni_router oport m_id period bufCfg
    m_packetize_read_req_chunks now s p vnet dbg = Ok (b, s') -> nmu_inv s' log (h ++ mm_event s p b).
Proof using BufferContract0.
  intros Hi Hok E. destruct p as [a|d| |]; try done; cbn in E; apply rbind_Ok in E as (rt & _ & E).
  2: { apply rbind_Ok in E as (s1 & E & [= <- <-]). cbn [mm_event] in *. rewrite Forall_singleton in Hok.
       by eapply flitisizeWriteData_drain in E. }
  unfold mm_event in *. destruct (ra_cmd a) eqn:Hc; [| |done]; apply rbind_Ok in E as (dest & Hdest & E);
    rewrite ?Hdest in *; destruct (dest =? -1); rewrite ?app_nil_r.
  - unfold handleReadDecErr in E. destruct (negb _); [by injection E as <- <-|].
    by apply rbind_Ok in E as (q & _ & [= <- <-]).
  - apply rbind_Ok in E as (vc & _ & E). apply rbind_Ok in E as ([t s1] & E & [= Eq]).
    eapply flitisizeReadRequest_drain in E; [|exact Hi]. unfold mark_taken in Eq. cbn in Eq.
    by destruct t; simplify_eq/=.
  - unfold handleWriteDecErr in E. destruct (negb _); [injection E as <- <-; by rewrite app_nil_r|].
    apply rbind_Ok in E as (q & _ & [= <- <-]). destruct Hi as (g & Hd & Hj). exists g. split; [exact Hd|].
    rewrite Forall_singleton in Hok. exact (bc_decerr (Mok := Mok) (J := J) _ _ _ _ Hj Hok Hc).
  - apply rbind_Ok in E as (vc & _ & E). apply rbind_Ok in E as ([t s1] & E & [= Eq]).
    eapply flitisizeWriteRequest_drain in E; [|done..]. unfold mark_taken in Eq. cbn in Eq.
    by destruct t; simplify_eq/=.
Qed.

Lemma mm_depacketizeFlit_drain now s msg fid tag idx s' log h :
  nmu_inv s log h ->
  mm_depacketizeFlit period bufCfg m_read_response_delay_cycles now s msg fid tag idx = Ok s' ->
  nmu_inv s' log h.
Proof using Type.
  intros Hi. unfold mm_depacketizeFlit. destruct (mm_payload msg) as [|d|p|]; try done; intros E.
  - apply rbind_Ok in E as (data & _ & E). apply rbind_Ok in E as ([ms b] & _ & E).
    apply rbind_Ok in E as (id & _ & E).
    apply (foldM_inv (fun s => nmu_inv s log h)) in E; [done| |done].
    intros s1 m s2 _ H1 E1. apply rbind_Ok in E1 as (vnet & _ & E1). apply rbind_Ok in E1 as (ob & _ & E1).
    unfold guard in E1. destruct (areNSlotsAvailable _ _ _ _); [|done].
    apply rbind_Ok in E1 as (b1 & _ & [= <-]). unfold set_outNode. by destruct (_ =? _).
  - apply rbind_Ok in E as ([t rdy] & _ & E). destruct rdy; cbn [negb] in E.
    + apply rbind_Ok in E as ([t2 e] & _ & E). unfold guard in E. destruct (areNSlotsAvailable _ _ _ _); [|done].
      apply rbind_Ok in E as (b1 & _ & [= <-]). by eapply unit_inv_frame; [..|exact Hi].
    + injection E as <-. by eapply unit_inv_frame; [..|exact Hi].
Qed.

Lemma mm_step_drain s s' fls evs log h :
  nmu_inv s log h -> mm_step s s' fls evs -> nmu_inv s' (log ++ fls) (h ++ evs).
Proof using BufferContract0.
  intros Hi Hs. destruct Hs as [? ? ? ? ? ? E Hok|? ? ? ? Hev E|? ? ? ? ? ? E|? ? E|?|?|? ? ? ? Hle];
    rewrite ?app_nil_r.
  - by eapply mm_flitisizeMessage_drain.
  - by eapply mm_dequeueIntermediate_drain; [..|exact E].
  - by eapply mm_depacketizeFlit_drain.
  - unfold msgReadCallback in E. destruct (mm_payload _); try done.
    by apply rbind_Ok in E as (b & _ & [= <-]).
  - done.
  - done.
  - by eapply unit_inv_frame; [..|exact Hi].
Qed.

Definition idle (s : mmNmu) : Prop :=
  de_valid (currDrainEntry (mu_core s)) = false /\ deqEvent (mu_core s) = None.

Lemma mm_reach_drain s0 s log h :
  idle s0 -> J [] [] (mu_writeBuffer s0) -> mm_reach s0 s log h -> nmu_inv s log h.
Proof using BufferContract0.
  intros [Hv He] Hj. induction 1 as [|s s' log h fls evs _ IH Hs]; [|by eapply mm_step_drain].
  exists []. split; [|done]. exists [], None. by repeat constructor.
Qed.
End Contract.

(** What the flits and packets of a run are. *)
Definition packets_whole (s : mmNmu) (log : list mflit) (ps : list wpkt) (cur : option wpkt) (k : Z) : Prop :=
  log = concat (wp_flits <$> ps) ++ match cur with Some p => wp_sent p k | None => [] end /\
  Forall wp_ok (ps ++ option_list cur) /\
  StronglySorted Z.lt (wp_id <$> ps ++ option_list cur) /\
  (forall p, cur = Some p -> 0 <= k < wp_total p) /\
  (is_Some (deqEvent (mu_core s)) <-> is_Some cur).

Lemma unit_packets {J} s log h : unit_inv (J := J) log h (mu_core s) (mu_writeBuffer s) ->
  exists ps cur k g, packets_whole s log ps cur k /\ J h g (mu_writeBuffer s) /\
    wp_entry <$> (ps ++ option_list cur) = sent_entries g.
Proof using Type.
  intros (g & (ps & cur & (Ho & Hs & _) & Hc & Hg) & Hj).
  exists ps, cur, (de_flit_id (currDrainEntry (mu_core s))), g. split; [|done].
  destruct cur as [p|]; [destruct Hc as (_ & He & _ & Hk & ->)|destruct Hc as (_ & He & ->)].
  - split_and!; [done..| |by split]. by intros ? [= <-].
  - unfold packets_whole. rewrite !app_nil_r in *. split_and!; [done..|]. rewrite He. by split; intros [].
Qed.

(** C23: from an idle unit, whatever messages, responses, reads, ready queries and
    network activity interleave, the flits [dequeueIntermediate] injects are those of
    whole packets, each the address flit and then the data flits of one complete,
    SSID-cleared, not discarded buffer entry, with strictly increasing packet numbers
    below [2 ^ 31 - 1] (the increment of the counter at its largest value is undefined
    and not a step),
    followed by the flits sent so far of the packet being drained; and
    [dequeueIntermediateEvent] is scheduled exactly while there is such a packet. *)
Theorem mm_write_packets_whole s0 s log h :
  idle s0 -> mm_reach s0 s log h -> exists ps cur k, packets_whole s log ps cur k.
Proof using Type.
  intros Hi Hr. destruct (unit_packets _ _ _ (mm_reach_drain _ _ _ _ Hi I Hr)) as (ps & cur & k & _ & Hp & _).
  by exists ps, cur, k.
Qed.

(** A draining packet makes progress.  When the event fires at or after the
    tick of the next flit, that flit is not the last and its output queue has room,
    the unit sends exactly the next flit of the packet, moves on by one, and has the
    event scheduled for the next cycle. *)
Theorem mm_drain_progress s0 s log h now :
  idle s0 -> mm_reach s0 s log h ->
  let d := currDrainEntry (mu_core s) in
  deqEvent (mu_core s) = Some now ->
  de_readyTick d + de_flit_id d * period <= now ->
  outVc_isFull (mu_outVcs (mu_core s)) (wb_vc (de_entry d)) = false ->
  de_flit_id d < de_total_flits d - 1 ->
  exists p c, drains d p /\
    mm_dequeueIntermediate ni_router m_id period now (mu_core s) (mu_writeBuffer s) =
      Ok (c, mu_writeBuffer s, [wp_flit p (de_flit_id d)]) /\
    de_flit_id (currDrainEntry c) = de_flit_id d + 1 /\ deqEvent c = Some (now + period).
Proof using Type.
  intros Hi Hr d Hev Hnow Hf Hl. subst d.
  destruct (mm_reach_drain _ _ _ _ Hi I Hr) as (g & (ps & [p|] & _ & Hc & _) & _);
    [|destruct Hc as (_ & E & _); congruence].
  destruct Hc as (Hv & _ & Hd & Hk & _). exists p. unfold mm_dequeueIntermediate.
  cbn [currDrainEntry set_event mu_outVcs]. rewrite Hv. cbn [negb].
  rewrite (proj2 (Z.leb_gt _ _)) by (destruct Hd as (_ & _ & -> & _); apply Hk).
  rewrite (proj2 (Z.ltb_ge _ _)) by exact Hnow. unfold injectFlit. rewrite Hf.
  cbn [de_flit_id de_entry de_headMsg de_bodyMsg de_packet_id de_total_flits set_drain_route].
  pose proof (drained_flit _ _ Hd) as Hfl. cbv zeta in Hfl. rewrite Hfl.
  rewrite (proj2 (Z.eqb_neq _ _)) by lia. by eexists.
Qed.

End Drain.
