(* ===== verification/MmNmuRead.v ===== *)
(** * Read requests of the AXI-MM master unit

    What [flitisizeReadRequest] sends: one flit per 256-byte chunk, in order, on the
    VC of the route, as one packet or as one packet per chunk. *)

From S2P Require Import Prelude AxiTypes Chop WriteTracker MmWriteBuffer NppReceive Flit.
From S2P Require Import SNmu Rrob AddressMap MsgBuffer MmDepack MmNmu.

Section Read.
Context (ni_router : Z -> Z -> Z) (m_id : Z) (m_packetize_read_req_chunks : bool).

(** Whether a read of [n] chunks travels as one packet. *)
Definition read_one_packet (n : Z) : bool :=
  m_packetize_read_req_chunks && (1 <? n) && (n <=? kNppAssemblerMaxFlits).

(** Flit [f] is chunk [i] of the [n] chunks of a read, in packet numbering from [pid]. *)
Definition read_flit_for (n pid vc vnet dest : Z) (ic : Z * aximmRWAddr) (f : mflit) : Prop :=
  mm_payload (fl_msg f) = PAddr ic.2 /\ mm_final_read_chunk (fl_msg f) = (ic.1 =? n - 1) /\
  fl_vc f = vc /\ fl_vnet f = vnet /\ rt_dest_ni (fl_route f) = dest /\ rt_src_ni (fl_route f) = m_id /\
  if read_one_packet n
  then fl_packet_id f = pid /\ fl_id f = ic.1 /\ fl_size f = n
  else fl_packet_id f = pid + ic.1 /\ fl_id f = 0 /\ fl_size f = 1.

Lemma outVc_inject {M} (q q' : niOutVcs M) fl vc :
  injectFlit q fl vc = Some q' ->
  outVc q' vc = outVc q vc ++ [fl] /\ forall v, v <> vc -> outVc q' v = outVc q v.
Proof.
  unfold injectFlit. destruct (outVc_isFull q vc); [done|]. intros [= <-]. unfold outVc.
  unfold niOutVcs in *. split; [by rewrite lookup_insert_eq|]. intros v Hv. by rewrite lookup_insert_ne.
Qed.

Lemma zip_seqZ_snoc {A} (seen : list (Z * A)) (l : list A) x rest :
  zip (seqZ 0 (nz (length l))) l = seen ++ x :: rest -> x.1 = nz (length seen).
Proof.
  intros E. assert (zip (seqZ 0 (nz (length l))) l !! length seen = Some x) as H
    by (by rewrite E, list_lookup_middle).
  destruct x as [i y]. apply lookup_zip_Some in H as [H _]. apply lookup_seqZ in H. cbn. lia.
Qed.

(** The rows a chunk reserves leave the counter of reads alone. *)
Lemma reserveRow_reads id bs n t rb v acc r acc' :
  reserveRow id bs n t rb v acc r = Ok acc' -> numAxiReads acc'.1 = numAxiReads acc.1.
Proof.
  destruct acc as [b tags]. unfold reserveRow. intros E. apply rbind_Ok in E as (lb & _ & E).
  apply rbind_Ok in E as ([tag b1] & E1 & E). unfold guard in E. destruct (r <? 8); [|done].
  injection E as <-. by apply rbind_Ok in E1 as ([tag1 m] & _ & [= _ <-]).
Qed.

(** One chunk: its flit goes to the back of the queue of [vc]. *)
Lemma readChunk_spec a n total vnet vc dbg src dest pid0 st i ch st' :
  rs_packet_id st = (if read_one_packet n then pid0 + 1 else pid0 + i) ->
  readChunk ni_router m_id a n total vnet vc dbg src dest
    (if read_one_packet n then Some pid0 else None) st (i, ch) = Ok st' ->
  exists f, read_flit_for n pid0 vc vnet dest (i, ch) f /\
    outVc (rs_outVcs st') vc = outVc (rs_outVcs st) vc ++ [f] /\
    (forall v, v <> vc -> outVc (rs_outVcs st') v = outVc (rs_outVcs st) v) /\
    rs_packet_id st' = (if read_one_packet n then pid0 + 1 else pid0 + (i + 1)) /\
    numAxiReads (rs_rrob st') = numAxiReads (rs_rrob st).
Proof.
  intros Hp E. unfold read_flit_for. cbn [fst snd].
  unfold readChunk in E. apply rbind_Ok in E as ([p nx] & E0 & E).
  destruct (read_one_packet n) eqn:Ho; cbn in E, E0; [injection E0 as <- <-|apply getNextPacketID_Ok in E0 as (-> & -> & _)];
    apply rbind_Ok in E as ([b tags] & E1 & E);
    destruct (injectFlit _ _ _) as [q|] eqn:Hq in E; try done; injection E as <-;
    apply outVc_inject in Hq as [Hq1 Hq2];
    apply (foldM_inv (fun acc => numAxiReads acc.1 = numAxiReads (rs_rrob st))) in E1;
    try done; try (intros acc r acc' _ Hacc Er; apply reserveRow_reads in Er; congruence);
    eexists; split_and!; try exact Hq1; try done; cbn; lia.
Qed.

(** A read request that is taken puts exactly one flit per chunk at the back of
    the queue of its VC, in chunk order and touching no other queue; each carries its
    chunk, only the last is marked as the final one, and they are numbered as one
    packet of all chunks, or as single-flit packets with consecutive numbers, and the
    unit counts one more outstanding read.  A request that is not taken changes
    nothing. *)
Theorem mm_read_request_sent s a vnet dbg src dest vc taken s' npps :
  chopInto256BRequests a = Ok npps ->
  flitisizeReadRequest ni_router m_id m_packetize_read_req_chunks s a vnet dbg src dest vc = Ok (taken, s') ->
  if taken then
    exists fls,
      outVc (mu_outVcs (mu_core s')) vc = outVc (mu_outVcs (mu_core s)) vc ++ fls /\
      (forall v, v <> vc -> outVc (mu_outVcs (mu_core s')) v = outVc (mu_outVcs (mu_core s)) v) /\
      Forall2 (read_flit_for (nz (length npps)) (mu_next_packet_id (mu_core s)) vc vnet dest)
        (zip (seqZ 0 (nz (length npps))) npps) fls /\
      numAxiReads (m_rrob s') = u8 (numAxiReads (m_rrob s) + 1)
  else s' = s.
Proof.
  intros Hn E. unfold flitisizeReadRequest in E. rewrite Hn in E. cbn [rbind] in E. unfold guard in E.
  destruct (_ <=? _) in E; [|done]. destruct (_ <? _) in E; [by injection E as <- <-|].
  apply rbind_Ok in E as ([one next] & E0 & E). fold (read_one_packet (nz (length npps))) in E0.
  apply rbind_Ok in E as (st & E & [= <- <-]).
  set (n := nz (length npps)) in *. set (pid := mu_next_packet_id (mu_core s)) in *. cbn.
  assert (one = (if read_one_packet n then Some pid else None) /\ next = (if read_one_packet n then pid + 1 else pid)) as [-> ->].
  { destruct (read_one_packet n); [|by injection E0 as <- <-]. apply rbind_Ok in E0 as ([p nx] & E0 & [= <- <-]).
    by apply getNextPacketID_Ok in E0 as (-> & -> & _). }
  apply (foldM_inv_seen (fun seen st => exists fls,
    outVc (rs_outVcs st) vc = outVc (mu_outVcs (mu_core s)) vc ++ fls /\
    (forall v, v <> vc -> outVc (rs_outVcs st) v = outVc (mu_outVcs (mu_core s)) v) /\
    Forall2 (read_flit_for n pid vc vnet dest) seen fls /\
    rs_packet_id st = (if read_one_packet n then pid + 1 else pid + nz (length seen)) /\
    numAxiReads (rs_rrob st) = numAxiReads (m_rrob s))) in E.
  - destruct E as (fls & H1 & H2 & H3 & _ & H5). exists fls. by rewrite H5.
  - intros seen st1 [i ch] rest st2 Hl (fls & H1 & H2 & H3 & H4 & H5) E2.
    apply zip_seqZ_snoc in Hl. cbn in Hl. subst i.
    apply (readChunk_spec _ _ _ _ _ _ _ _ pid) in E2 as (f & Hf & Ho & Hv & Hp & Hr); [|done].
    exists (fls ++ [f]). rewrite Ho, H1, app_assoc, length_app. split_and!; [done| | | |congruence].
    + intros v Hne. by rewrite Hv, H2.
    + by apply Forall2_app; [|constructor].
    + rewrite Hp. cbn. destruct (read_one_packet n); lia.
  - exists []. cbn. rewrite app_nil_r. split_and!; try done. destruct (read_one_packet n); lia.
Qed.

End Read.
