(* ===== verification/ReqTracker.v ===== *)
(** * Outstanding requests of the AXI-MM slave unit

    [mmNocSlaveUnit::RequestTracker]
    ([src/src/noc/core/network/nsu_types/mmNocSlaveUnit.hh]): a FIFO queue of request
    messages per AXI ID, at most 32 requests of at most four IDs.  It refines one list
    of the requests in order of arrival, from which the first of an ID is taken. *)

From S2P Require Import Prelude AxiTypes Chop MmWriteBuffer NppReceive Flit MmDepack.

(** A request message with the router link it came in on ([getIncomingLink]). *)
Record nsuReq := mk_nsuReq { nq_msg : NocMemoryMsg; nq_incoming : Z }.

Definition req_addr (r : nsuReq) : option aximmRWAddr :=
  match mm_payload (nq_msg r) with PAddr a => Some a | _ => None end.

Definition MAX_SIZE : Z := 32.
Definition MAX_IDS : Z := 4.

Record RequestTracker := mk_RequestTracker {
  tr_size : Z;                      (* uint16_t *)
  tr_num_ids : Z;                   (* uint8_t *)
  axiReads : gmap Z (list nsuReq)
}.
Definition RequestTracker_empty : RequestTracker := mk_RequestTracker 0 0 ∅.

Definition getRemainingEntries (t : RequestTracker) : Z := u16 (MAX_SIZE - tr_size t).
Definition tr_isFull (t : RequestTracker) : bool := MAX_SIZE <=? tr_size t.
Definition tr_getSize (t : RequestTracker) : Z := tr_size t.

(** [RequestTracker::add] *)
Definition tr_add (t : RequestTracker) (r : nsuReq) : res (bool * RequestTracker) :=
  if getRemainingEntries t =? 0 then Ok (false, t)
  else
    let* a := of_opt (FPanic "NocSlaveUnit::RequestTracker::add: Unsupported payload type") (req_addr r) in
    match axiReads t !! ra_id a with
    | None =>
        if tr_num_ids t =? MAX_IDS then Ok (false, t)
        else Ok (true, mk_RequestTracker (u16 (tr_size t + 1)) (u8 (tr_num_ids t + 1))
                         (<[ra_id a := [r]]> (axiReads t)))
    | Some q =>
        Ok (true, mk_RequestTracker (u16 (tr_size t + 1)) (tr_num_ids t)
                    (<[ra_id a := q ++ [r]]> (axiReads t)))
    end.

(** [RequestTracker::readAndRemove] *)
Definition tr_readAndRemove (t : RequestTracker) (r_id : Z) : res (nsuReq * RequestTracker) :=
  match axiReads t !! r_id with
  | None => Err (FPanic "NocSlaveUnit::readTracker::readAndRemove: No read request found")
  | Some [] => Err (FUndef "front of empty list")
  | Some [r] =>
      Ok (r, mk_RequestTracker (u16 (tr_size t - 1)) (u8 (tr_num_ids t - 1)) (delete r_id (axiReads t)))
  | Some (r :: q) =>
      Ok (r, mk_RequestTracker (u16 (tr_size t - 1)) (tr_num_ids t) (<[r_id := q]> (axiReads t)))
  end.

(** [RequestTracker::read] *)
Definition tr_read (t : RequestTracker) (r_id : Z) : res nsuReq :=
  match axiReads t !! r_id with
  | None => Err (FPanic "NocSlaveUnit::RequestTracker::read: No request found")
  | Some [] => Err (FUndef "front of empty list")
  | Some (r :: _) => Ok r
  end.

(** [RequestTracker::has] *)
Definition tr_has (t : RequestTracker) (id : Z) : bool :=
  match axiReads t !! id with Some (_ :: _) => true | _ => false end.

(** ** Abstract specification: the requests in order of arrival *)

Definition req_id (r : nsuReq) : Z := from_option ra_id 0 (req_addr r).
Definition of_id (id : Z) (l : list nsuReq) : list nsuReq := filter (fun r => req_id r = id) l.
Definition ids_of (l : list nsuReq) : gset Z := list_to_set (req_id <$> l).

(** Take the first request of an ID out of the list. *)
Fixpoint take_first (id : Z) (l : list nsuReq) : option (nsuReq * list nsuReq) :=
  match l with
  | [] => None
  | r :: l =>
      if decide (req_id r = id) then Some (r, l)
      else match take_first id l with Some (x, l') => Some (x, r :: l') | None => None end
  end.

(** The tracker holds the requests [l]. *)
Record tracks (t : RequestTracker) (l : list nsuReq) : Prop := {
  tk_size : tr_size t = nz (length l);
  tk_max : nz (length l) <= MAX_SIZE;
  tk_ids : tr_num_ids t = nz (size (ids_of l));
  tk_max_ids : nz (size (ids_of l)) <= MAX_IDS;
  tk_queue : forall id, axiReads t !! id = match of_id id l with [] => None | q => Some q end;
  tk_addr : Forall (fun r => is_Some (req_addr r)) l
}.

Lemma tracks_empty : tracks RequestTracker_empty [].
Proof. by constructor. Qed.

(** ** Lemmas on the list *)

Lemma of_id_nil id l : of_id id l = [] <-> id ∉ ids_of l.
Proof.
  unfold of_id, ids_of. rewrite elem_of_list_to_set, list_elem_of_fmap. split.
  - intros Hn (r & -> & Hr). assert (r ∈ filter (fun r0 => req_id r0 = req_id r) l) as H
      by (by apply list_elem_of_filter). rewrite Hn in H. by apply not_elem_of_nil in H.
  - intros Hn. apply filter_none. intros r Hr E. apply Hn. eauto.
Qed.

Lemma of_id_cons id x l : of_id id (x :: l) = if decide (req_id x = id) then x :: of_id id l else of_id id l.
Proof. done. Qed.
Lemma of_id_app id l1 l2 : of_id id (l1 ++ l2) = of_id id l1 ++ of_id id l2.
Proof. apply filter_app. Qed.
Lemma of_id_snoc id l r : of_id id (l ++ [r]) = of_id id l ++ (if decide (req_id r = id) then [r] else []).
Proof. unfold of_id. by rewrite filter_app. Qed.

Lemma ids_of_snoc l r : ids_of (l ++ [r]) = ids_of l ∪ {[req_id r]}.
Proof. unfold ids_of. rewrite fmap_app, list_to_set_app_L. cbn. by rewrite union_empty_r_L. Qed.

Lemma take_first_spec id l :
  match take_first id l with
  | None => of_id id l = []
  | Some (r, l') =>
      exists l1 l2, l = l1 ++ r :: l2 /\ l' = l1 ++ l2 /\ req_id r = id /\ of_id id l1 = []
  end.
Proof.
  induction l as [|x l IH]; [done|]. cbn [take_first]. destruct (decide (req_id x = id)) as [E|E].
  - exists [], l. done.
  - destruct (take_first id l) as [[r l']|].
    + destruct IH as (l1 & l2 & -> & -> & Hr & Hn). exists (x :: l1), l2. split_and!; [done..|].
      by rewrite of_id_cons, decide_False.
    + by rewrite of_id_cons, decide_False.
Qed.

(** ** Refinement *)

Lemma tracks_add t l r :
  tracks t l -> is_Some (req_addr r) ->
  exists b t', tr_add t r = Ok (b, t') /\
    b = bool_decide (nz (length l) < MAX_SIZE /\ nz (size (ids_of (l ++ [r]))) <= MAX_IDS) /\
    tracks t' (if b then l ++ [r] else l).
Proof.
  intros Ht [a Ha]. destruct Ht as [Hs Hm Hi Hmi Hq Hadr] eqn:ET. clear ET.
  assert (Hid : req_id r = ra_id a) by (unfold req_id; by rewrite Ha).
  unfold tr_add, getRemainingEntries, MAX_SIZE, MAX_IDS in *. rewrite Hs, Ha. cbn [of_opt rbind].
  rewrite ids_of_snoc, Hid. rewrite u16_small by lia.
  destruct (Z.eqb_spec (32 - nz (length l)) 0) as [E|E].
  { exists false, t. split; [done|]. rewrite bool_decide_false by lia. split; [done|]. by constructor. }
  assert (Hqr : forall id, <[ra_id a := of_id (ra_id a) l ++ [r]]> (axiReads t) !! id =
    match of_id id (l ++ [r]) with [] => None | q => Some q end).
  { intros id. rewrite of_id_snoc, Hid. destruct (decide (ra_id a = id)) as [<-|Hne].
    - rewrite lookup_insert_eq. by destruct (of_id (ra_id a) l).
    - by rewrite lookup_insert_ne, Hq, app_nil_r. }
  assert (Hadr' : Forall (fun x => is_Some (req_addr x)) (l ++ [r]))
    by (apply Forall_app; split; [done|apply Forall_singleton; by exists a]).
  rewrite Hq. destruct (of_id (ra_id a) l) as [|x q] eqn:Eq.
  - apply of_id_nil in Eq as Hni.
    assert (size (ids_of l ∪ {[ra_id a]}) = S (size (ids_of l))) as Hsz
      by (rewrite size_union by set_solver; rewrite size_singleton; lia).
    rewrite Hi, Hsz. destruct (Z.eqb_spec (nz (size (ids_of l))) 4) as [E4|E4].
    + exists false, t. rewrite bool_decide_false by lia. split_and!; [done..|]. by constructor.
    + eexists true, _. split; [done|]. rewrite bool_decide_true by lia. split; [done|].
      constructor; cbn [tr_size tr_num_ids axiReads]; rewrite ?length_app, ?ids_of_snoc, ?Hid, ?Hsz; cbn [length].
      all: unfold MAX_SIZE, MAX_IDS. all: first [done|rewrite ?u16_small, ?u8_small by lia; lia].
  - assert (ids_of l ∪ {[ra_id a]} = ids_of l) as Hsz.
    { assert (ra_id a ∈ ids_of l); [|set_solver]. destruct (decide (ra_id a ∈ ids_of l)) as [|Hn]; [done|].
      apply of_id_nil in Hn. congruence. }
    rewrite Hsz. eexists true, _. split; [done|]. rewrite bool_decide_true by lia. split; [done|].
    constructor; cbn [tr_size tr_num_ids axiReads]; rewrite ?length_app, ?ids_of_snoc, ?Hid, ?Hsz; cbn [length].
    all: unfold MAX_SIZE, MAX_IDS. all: first [done|rewrite ?u16_small, ?u8_small by lia; lia].
Qed.

Lemma take_first_queue id l :
  take_first id l = match of_id id l with
                    | [] => None
                    | r :: _ => from_option (fun p => Some (r, p.2)) None (take_first id l)
                    end.
Proof.
  pose proof (take_first_spec id l) as H. destruct (take_first id l) as [[r l']|]; [|by rewrite H].
  destruct H as (l1 & l2 & -> & -> & <- & Hn). rewrite of_id_app, Hn, of_id_cons.
  by rewrite decide_True.
Qed.

Lemma tracks_take t l id :
  tracks t l ->
  match take_first id l with
  | Some (r, l') => exists t', tr_readAndRemove t id = Ok (r, t') /\ tracks t' l'
  | None => tr_readAndRemove t id = Err (FPanic "NocSlaveUnit::readTracker::readAndRemove: No read request found")
  end.
Proof.
  intros [Hs Hm Hi Hmi Hq Hadr]. unfold tr_readAndRemove. rewrite Hq.
  pose proof (take_first_spec id l) as H. destruct (take_first id l) as [[r l']|]; [|by rewrite H].
  destruct H as (l1 & l2 & -> & -> & <- & Hn). rewrite of_id_app, Hn, of_id_cons, decide_True by done. cbn [app].
  apply Forall_app in Hadr as [Ha1 Ha2]. apply Forall_cons in Ha2 as [_ Ha2].
  assert (Hl : nz (length (l1 ++ r :: l2)) = nz (length (l1 ++ l2)) + 1) by (rewrite !length_app; cbn; lia).
  assert (Hids : ids_of (l1 ++ r :: l2) = ids_of (l1 ++ l2) ∪ {[req_id r]}).
  { unfold ids_of. rewrite !fmap_app, !list_to_set_app_L. cbn. set_solver. }
  assert (Hqr : forall id, id <> req_id r -> of_id id (l1 ++ r :: l2) = of_id id (l1 ++ l2)).
  { intros id Hne. rewrite !of_id_app, of_id_cons, decide_False by done. done. }
  unfold MAX_SIZE, MAX_IDS in *. destruct (of_id (req_id r) l2) as [|x q] eqn:E2.
  - assert (req_id r ∉ ids_of (l1 ++ l2)) as Hni by (apply of_id_nil; by rewrite of_id_app, Hn, E2).
    assert (size (ids_of (l1 ++ r :: l2)) = S (size (ids_of (l1 ++ l2)))) as Hsz
      by (rewrite Hids, size_union by set_solver; rewrite size_singleton; lia).
    eexists. split; [done|]. constructor; cbn [tr_size tr_num_ids axiReads]; unfold MAX_SIZE, MAX_IDS.
    1-4: rewrite ?Hs, ?Hi, ?u16_small, ?u8_small by lia; lia.
    + intros id. destruct (decide (id = req_id r)) as [-> |Hne].
      * rewrite lookup_delete_eq. by rewrite of_id_app, Hn, E2.
      * rewrite lookup_delete_ne by done. by rewrite Hq, Hqr.
    + by apply Forall_app.
  - assert (ids_of (l1 ++ r :: l2) = ids_of (l1 ++ l2)) as Hsz.
    { rewrite Hids. assert (req_id r ∈ ids_of (l1 ++ l2)); [|set_solver].
      destruct (decide (req_id r ∈ ids_of (l1 ++ l2))) as [|Hx]; [done|].
      apply of_id_nil in Hx. rewrite of_id_app, Hn, E2 in Hx. done. }
    rewrite Hsz in *. eexists. split; [done|].
    constructor; cbn [tr_size tr_num_ids axiReads]; unfold MAX_SIZE, MAX_IDS.
    1-4: rewrite ?Hs, ?Hi, ?u16_small by lia; lia.
    + intros id. destruct (decide (id = req_id r)) as [-> |Hne].
      * rewrite lookup_insert_eq. by rewrite of_id_app, Hn, E2.
      * rewrite lookup_insert_ne by done. by rewrite Hq, Hqr.
    + by apply Forall_app.
Qed.

Lemma tracks_read t l id :
  tracks t l ->
  tr_read t id = match take_first id l with
                 | Some (r, _) => Ok r
                 | None => Err (FPanic "NocSlaveUnit::RequestTracker::read: No request found")
                 end.
Proof.
  intros Ht. unfold tr_read. rewrite (tk_queue _ _ Ht). pose proof (take_first_spec id l) as H.
  destruct (take_first id l) as [[r l']|]; [|by rewrite H]. destruct H as (l1 & l2 & -> & _ & <- & Hn).
  by rewrite of_id_app, Hn, of_id_cons, decide_True.
Qed.

Lemma tracks_has t l id : tracks t l -> tr_has t id = bool_decide (is_Some (take_first id l)).
Proof.
  intros Ht. unfold tr_has. rewrite (tk_queue _ _ Ht). pose proof (take_first_spec id l) as H.
  destruct (take_first id l) as [[r l']|]; [|by rewrite H]. destruct H as (l1 & l2 & -> & _ & <- & Hn).
  rewrite of_id_app, Hn, of_id_cons, decide_True by done. done.
Qed.

(** The tracker refines one list of the outstanding requests in order of arrival.
    Adding appends, and is refused exactly when 32 requests are there or the request
    would be of a fifth ID; reading or removing by ID gives the oldest request of that
    ID and fails exactly when there is none; the size is the length of the list. *)
Theorem tracker_refines_arrivals t l r id :
  tracks t l -> is_Some (req_addr r) ->
  (exists b t', tr_add t r = Ok (b, t') /\
     b = bool_decide (nz (length l) < MAX_SIZE /\ nz (size (ids_of (l ++ [r]))) <= MAX_IDS) /\
     tracks t' (if b then l ++ [r] else l)) /\
  (match take_first id l with
   | Some (x, l') => tr_read t id = Ok x /\ exists t', tr_readAndRemove t id = Ok (x, t') /\ tracks t' l'
   | None => is_ok (tr_read t id) = false /\ is_ok (tr_readAndRemove t id) = false
   end) /\
  tr_has t id = bool_decide (is_Some (take_first id l)) /\ tr_getSize t = nz (length l).
Proof.
  intros Ht Hr. split; [by apply tracks_add|]. split; [|split; [by apply tracks_has|by apply Ht]].
  pose proof (tracks_take _ _ id Ht) as H. rewrite (tracks_read _ _ id Ht).
  destruct (take_first id l) as [[x l']|]; [done|]. by rewrite H.
Qed.

(** ** Witness *)

Definition tk_req (id : Z) : nsuReq :=
  mk_nsuReq (newNocMemoryMsg (PAddr (mk_aximmRWAddr READ id 4096 0 6 INCR false 0 0 0 0 0 true (-1) 0 (-1) false)) []) 7.
Definition tk_two : RequestTracker :=
  (ok_or (false, RequestTracker_empty) (tr_add
    (ok_or (false, RequestTracker_empty) (tr_add RequestTracker_empty (tk_req 1))).2 (tk_req 2))).2.

Lemma tk_two_tracks : tracks tk_two [tk_req 1; tk_req 2].
Proof.
  destruct (tracks_add _ _ (tk_req 1) tracks_empty) as (b & t & E & -> & Ht); [by eexists|].
  destruct (tracks_add _ _ (tk_req 2) Ht) as (b & t' & E' & -> & Ht'); [by eexists|].
  unfold tk_two. rewrite E. cbn [ok_or snd]. rewrite E'. exact Ht'.
Qed.

Lemma tracker_refines_arrivals_witness :
  tracks tk_two [tk_req 1; tk_req 2] /\ tr_read tk_two 2 = Ok (tk_req 2) /\ tr_getSize tk_two = 2.
Proof.
  split; [exact tk_two_tracks|].
  destruct (tracker_refines_arrivals tk_two [tk_req 1; tk_req 2] (tk_req 1) 2 tk_two_tracks)
    as (_ & H & _ & Hs); [by eexists|]. split; [apply H|exact Hs].
Defined.
