(* ===== verification/MmNsu.v ===== *)
(** * AXI-MM slave unit

    [mmNocSlaveUnit] ([src/src/noc/core/network/nsu_types/mmNocSlaveUnit.{hh,cc}]).
    Request flits become address messages of the endpoint's width and W beats; R beats
    of the endpoint are collected into 64-byte beats of one message per request, whose
    flits are injected one by one as soon as 16 bytes were received; B responses go out
    as single flits.

    The flits of a read response share their message, which later beats still fill, so
    the messages are kept in a store and flits refer to them.  The handlers run at a
    clock edge [now]; randomization and warmup of the network are off.  The debug ids of
    W beats are those of their message, which is what [debugIdsForMmByteRange] gives for
    the one-element lists the master unit attaches. *)

From S2P Require Import Prelude AxiTypes Chop MmWriteBuffer NppReceive Flit.
From S2P Require Import SNmu MsgBuffer MmDepack MmNmu ReqTracker.

Definition NUM_SUPPORTED_AXI_IDS : Z := 4.
Definition FLITS_PER_BURST : Z := 4.
Definition STICKY_GAP_THRESHOLD : Z := 16.
Definition COOL_DOWN_CYCLES : Z := 2.
Definition WRITE_RESP_STICKY_GAP_THRESHOLD : Z := 16.

(** ** State *)

(** [ReadResponseState]; [nppMsg] is a location of the message store. *)
Record ReadResponseState := mk_ReadResponseState {
  rr_active : bool;
  rr_accumBuffer : list Z;
  rr_accumStrobe : Z;
  rr_accumOffset : Z;
  rr_nppMsg : option Z;
  rr_packet_id : Z;
  rr_num_flits : Z;
  rr_total_bytes_needed : Z;
  rr_bytes_received : Z;
  rr_bytes_sent : Z;
  rr_original_beat_size : Z;
  rr_original_read_bytes : Z;
  rr_auto_per_flit_gap : bool
}.
Definition ReadResponseState_init : ReadResponseState :=
  mk_ReadResponseState false (zeros 64) 0 0 None 0 0 0 0 0 0 0 false.

(** The drain entry of read responses. *)
Record nsuDrain := mk_nsuDrain {
  nd_valid : bool;
  nd_axi_id : Z;
  nd_vnet : Z;
  nd_oPort : option Z;
  nd_vc : Z;
  nd_slave_finished : bool;
  nd_original_req : option nsuReq
}.
Definition nsuDrain_init : nsuDrain := mk_nsuDrain false 0 0 None 0 false None.

(** What a response flit carries besides its position: the message (a location of the
    store, or a B message), its time and its place in the reorder buffer. *)
Inductive respMsg :=
  | RRef (loc : Z)
  | BMsg (m : NocMemoryMsg).
Record respFlit := mk_respFlit {
  rf_msg : respMsg;
  rf_time : Z;
  rf_rrob_tag : Z;
  rf_rrob_flit_idx : Z
}.
Abbreviation nflit := (flit respFlit).

(** The read side. *)
Record nsuRead := mk_nsuRead {
  ns_readTracker : RequestTracker;
  ns_state : list ReadResponseState;
  ns_msgs : gmap Z NocMemoryMsg;
  ns_next_loc : Z;
  ns_drain : nsuDrain;
  ns_deqEvent : option Z;
  ns_flits_in_burst : Z;
  ns_flits_total : Z;
  ns_last_inject_tick : Z
}.

(** The write side. *)
Record nsuWrite := mk_nsuWrite {
  ns_writeTracker : RequestTracker;
  ns_assembly : gmap Z MmWriteDataAssemblyState;
  ns_last_tail_flit_tick : gmap Z Z;
  ns_is_back_to_back : gmap Z bool;
  ns_bram_penalty_due : gmap Z bool;
  ns_write_resp_total : Z
}.

Record mmNsu := mk_mmNsu {
  ns_read : nsuRead;
  ns_write : nsuWrite;
  ns_next_packet_id : Z;
  ns_outVcs : niOutVcs respFlit;
  ns_AR : mbuf (M := NocMemoryMsg);
  ns_AW : mbuf (M := NocMemoryMsg);
  ns_W : mbuf (M := NocMemoryMsg);
  ns_r_ready : bool
}.

Definition nsuRead_init : nsuRead :=
  mk_nsuRead RequestTracker_empty (replicate 4 ReadResponseState_init) ∅ 0 nsuDrain_init None 0 0 0.
Definition nsuWrite_init : nsuWrite := mk_nsuWrite RequestTracker_empty ∅ ∅ ∅ ∅ 0.
Definition mmNsu_init (pid : Z) : mmNsu :=
  mk_mmNsu nsuRead_init nsuWrite_init pid ∅ mbuf_init mbuf_init mbuf_init true.

(** Member assignments. *)
Definition set_ns_read (r : nsuRead) (s : mmNsu) : mmNsu :=
  mk_mmNsu r (ns_write s) (ns_next_packet_id s) (ns_outVcs s) (ns_AR s) (ns_AW s) (ns_W s) (ns_r_ready s).
Definition set_ns_write (w : nsuWrite) (s : mmNsu) : mmNsu :=
  mk_mmNsu (ns_read s) w (ns_next_packet_id s) (ns_outVcs s) (ns_AR s) (ns_AW s) (ns_W s) (ns_r_ready s).
Definition set_ns_net (pid : Z) (q : niOutVcs respFlit) (s : mmNsu) : mmNsu :=
  mk_mmNsu (ns_read s) (ns_write s) pid q (ns_AR s) (ns_AW s) (ns_W s) (ns_r_ready s).
Definition set_ns_r_ready (b : bool) (s : mmNsu) : mmNsu :=
  mk_mmNsu (ns_read s) (ns_write s) (ns_next_packet_id s) (ns_outVcs s) (ns_AR s) (ns_AW s) (ns_W s) b.
(** [outNode_ptr]: the buffers towards the endpoint. *)
Definition nsu_outNode (s : mmNsu) (vnet : Z) : option (mbuf (M := NocMemoryMsg)) :=
  if vnet =? AR_VNET then Some (ns_AR s) else if vnet =? AW_VNET then Some (ns_AW s)
  else if vnet =? W_VNET then Some (ns_W s) else None.
Definition set_nsu_outNode (vnet : Z) (b : mbuf (M := NocMemoryMsg)) (s : mmNsu) : mmNsu :=
  let put ar aw w := mk_mmNsu (ns_read s) (ns_write s) (ns_next_packet_id s) (ns_outVcs s) ar aw w (ns_r_ready s) in
  if vnet =? AR_VNET then put b (ns_AW s) (ns_W s)
  else if vnet =? AW_VNET then put (ns_AR s) b (ns_W s) else put (ns_AR s) (ns_AW s) b.

Definition set_read_tracker (t : RequestTracker) (r : nsuRead) : nsuRead :=
  mk_nsuRead t (ns_state r) (ns_msgs r) (ns_next_loc r) (ns_drain r) (ns_deqEvent r)
    (ns_flits_in_burst r) (ns_flits_total r) (ns_last_inject_tick r).
Definition set_state (id : Z) (x : ReadResponseState) (r : nsuRead) : nsuRead :=
  mk_nsuRead (ns_readTracker r) (<[zn id := x]> (ns_state r)) (ns_msgs r) (ns_next_loc r) (ns_drain r)
    (ns_deqEvent r) (ns_flits_in_burst r) (ns_flits_total r) (ns_last_inject_tick r).
Definition set_msgs (m : gmap Z NocMemoryMsg) (next : Z) (r : nsuRead) : nsuRead :=
  mk_nsuRead (ns_readTracker r) (ns_state r) m next (ns_drain r) (ns_deqEvent r)
    (ns_flits_in_burst r) (ns_flits_total r) (ns_last_inject_tick r).
Definition set_ns_drain (d : nsuDrain) (r : nsuRead) : nsuRead :=
  mk_nsuRead (ns_readTracker r) (ns_state r) (ns_msgs r) (ns_next_loc r) d (ns_deqEvent r)
    (ns_flits_in_burst r) (ns_flits_total r) (ns_last_inject_tick r).
Definition set_ns_event (t : option Z) (r : nsuRead) : nsuRead :=
  mk_nsuRead (ns_readTracker r) (ns_state r) (ns_msgs r) (ns_next_loc r) (ns_drain r) t
    (ns_flits_in_burst r) (ns_flits_total r) (ns_last_inject_tick r).
Definition set_pace (burst total last : Z) (r : nsuRead) : nsuRead :=
  mk_nsuRead (ns_readTracker r) (ns_state r) (ns_msgs r) (ns_next_loc r) (ns_drain r) (ns_deqEvent r)
    burst total last.
Definition set_nd_valid (b : bool) (d : nsuDrain) : nsuDrain :=
  mk_nsuDrain b (nd_axi_id d) (nd_vnet d) (nd_oPort d) (nd_vc d) (nd_slave_finished d) (nd_original_req d).

(** [NocGarnetNetwork::readResponsesUseMultipleVCs]: two routes of the unit to AXI-MM
    master units with different VCs. *)
Definition readResponsesUseMultipleVCs (m_route_to_vc_map : gmap (Z * Z * Z) Z) (m_num_aximm_nmu nsu_id : Z)
    : bool :=
  let vcs := omap (fun '((src_id, dst_id, cmd), vc) =>
      if negb (src_id =? nsu_id) || negb (cmd =? 2) then None
      else if (dst_id <? 0) || (m_num_aximm_nmu <=? dst_id) then None
      else Some vc) (map_to_list m_route_to_vc_map) in
  match vcs with
  | [] => false
  | first_vc :: vcs => existsb (fun vc => negb (vc =? first_vc)) vcs
  end.

(** [NocMemoryMsg::appendData] *)
Definition appendData (m : NocMemoryMsg) (beat : aximmRWData) : res NocMemoryMsg :=
  guard (mm_end_beat_idx m <? nz (length (mm_pload m))) (FUndef "aximmPayload index out of range")
    (Ok {| mm_payload := mm_payload m; mm_pload := <[zn (mm_end_beat_idx m) := beat]> (mm_pload m);
           mm_beat_size := mm_beat_size m; mm_num_flits := mm_num_flits m;
           mm_rrob_tags := mm_rrob_tags m; mm_axi_rrob_tag := mm_axi_rrob_tag m;
           mm_axi_beat_id := mm_axi_beat_id m; mm_end_beat_idx := u8 (mm_end_beat_idx m + 1);
           mm_src_ni := mm_src_ni m; mm_vnet := mm_vnet m; mm_debugId := mm_debugId m;
           mm_original_read_bytes := mm_original_read_bytes m;
           mm_final_read_chunk := mm_final_read_chunk m |}).

(** [NocMemoryMsg::getRespAXIID] *)
Definition getRespAXIID (m : NocMemoryMsg) : res Z := let* b := pload_at m 0 in Ok (u8 (rd_id b)).

(** A flit built with [headtail] set. *)
Definition new_headtail_flit {M} (packet_id id vc vnet : Z) (route : NocRouteInfo) (size : Z) (msg : M)
    : flit M :=
  {| fl_packet_id := packet_id; fl_id := id; fl_vc := vc; fl_vnet := vnet; fl_route := route;
     fl_size := size; fl_msg := msg; fl_type := HEAD_TAIL_ |}.

Definition set_rd_id (id : Z) (d : aximmRWData) : aximmRWData :=
  {| rd_cmd := rd_cmd d; rd_id := id; rd_resp := rd_resp d; rd_last := rd_last d; rd_user := rd_user d;
     rd_valid := rd_valid d; rd_ready := rd_ready d; rd_data := rd_data d; rd_wstrb := rd_wstrb d |}.

Section MmNsu.
Context (m_route_to_vc_map : gmap (Z * Z * Z) Z) (m_num_aximm_nmu : Z) (oport : Z -> option Z)
  (m_id period : Z) (bufCfg : mbCfg) (S_DATA_WIDTH : Z)
  (m_read_response_gap_cycles m_read_response_per_flit_gap_cycles : Z).

(** ** Read responses *)

(** The message of a response: the chunk's tags, no data yet. *)
Definition npp_msg (beat : aximmRWData) (axi_id num_flits : Z) (req : NocMemoryMsg) : NocMemoryMsg :=
  {| mm_payload := PData beat;
     mm_pload := set_rd_id axi_id aximmRWData_default :: replicate 3 aximmRWData_default;
     mm_beat_size := 6; mm_num_flits := num_flits; mm_rrob_tags := mm_rrob_tags req;
     mm_axi_rrob_tag := 0; mm_axi_beat_id := 0; mm_end_beat_idx := 0; mm_src_ni := 0; mm_vnet := 0;
     mm_debugId := -1; mm_original_read_bytes := 0; mm_final_read_chunk := false |}.

(** The first beat of a response sets up its state and message. *)
Definition startResponse (s : mmNsu) (axi_id : Z) (beat : aximmRWData) : res mmNsu :=
  let r := ns_read s in
  let* original_req := tr_read (ns_readTracker r) axi_id in
  let* p := of_opt (FUndef "null aximmRWAddr") (req_addr original_req) in
  let* (packet_id, next_id) := getNextPacketID (ns_next_packet_id s) in
  let chunk_bytes := getTotalByteSize p in
  let req := nq_msg original_req in
  let num_flits := u8 ((chunk_bytes + 15) / 16) in
  let loc := ns_next_loc r in
  let x := {| rr_active := true; rr_accumBuffer := zeros 64; rr_accumStrobe := 0; rr_accumOffset := 0;
              rr_nppMsg := Some loc; rr_packet_id := packet_id; rr_num_flits := num_flits;
              rr_total_bytes_needed := chunk_bytes; rr_bytes_received := 0; rr_bytes_sent := 0;
              rr_original_beat_size := u8 (Z.shiftl 1 (ra_size p));
              rr_original_read_bytes := if 0 <? mm_original_read_bytes req then mm_original_read_bytes req
                                        else chunk_bytes;
              rr_auto_per_flit_gap := false |} in
  let r := set_state axi_id x (set_msgs (<[loc := npp_msg beat axi_id num_flits req]> (ns_msgs r)) (loc + 1) r) in
  Ok (set_ns_net next_id (ns_outVcs s) (set_ns_read r s)).

Definition set_accum (buf : list Z) (strobe off : Z) (received : Z) (x : ReadResponseState) : ReadResponseState :=
  {| rr_active := rr_active x; rr_accumBuffer := buf; rr_accumStrobe := strobe; rr_accumOffset := off;
     rr_nppMsg := rr_nppMsg x; rr_packet_id := rr_packet_id x; rr_num_flits := rr_num_flits x;
     rr_total_bytes_needed := rr_total_bytes_needed x; rr_bytes_received := received;
     rr_bytes_sent := rr_bytes_sent x; rr_original_beat_size := rr_original_beat_size x;
     rr_original_read_bytes := rr_original_read_bytes x; rr_auto_per_flit_gap := rr_auto_per_flit_gap x |}.
Definition set_progress (active : bool) (sent : Z) (auto : bool) (x : ReadResponseState) : ReadResponseState :=
  {| rr_active := active; rr_accumBuffer := rr_accumBuffer x; rr_accumStrobe := rr_accumStrobe x;
     rr_accumOffset := rr_accumOffset x; rr_nppMsg := rr_nppMsg x; rr_packet_id := rr_packet_id x;
     rr_num_flits := rr_num_flits x; rr_total_bytes_needed := rr_total_bytes_needed x;
     rr_bytes_received := rr_bytes_received x; rr_bytes_sent := sent;
     rr_original_beat_size := rr_original_beat_size x;
     rr_original_read_bytes := rr_original_read_bytes x; rr_auto_per_flit_gap := auto |}.

(** A beat goes into the 64-byte accumulator. *)
Definition accumulate (beat : aximmRWData) (x : ReadResponseState) : res ReadResponseState :=
  let beat_size := u8 S_DATA_WIDTH in
  guard ((beat_size <=? 64) && (rr_accumOffset x + beat_size <=? 64)) (FUndef "copy past accumBuffer") (
  guard (rr_accumOffset x <? 64) (FUndef "shift count")
    (Ok (set_accum
       (copy_into (rr_accumBuffer x) (zn (rr_accumOffset x)) (slice (rd_data beat) 0 (zn beat_size)))
       (Z.lor (rr_accumStrobe x) (u64 (Z.shiftl (rd_wstrb beat) (rr_accumOffset x))))
       (u8 (rr_accumOffset x + beat_size)) (u16 (rr_bytes_received x + beat_size)) x))).

(** A full accumulator, or the last beat, is appended to the message. *)
Definition flushAccum (axi_id : Z) (beat : aximmRWData) (r : nsuRead) (x : ReadResponseState)
    : res (nsuRead * ReadResponseState) :=
  if (64 <=? rr_accumOffset x) || rd_last beat then
    let upsized_beat :=
      {| rd_cmd := rd_cmd beat; rd_id := axi_id; rd_resp := OKAY; rd_last := rd_last beat; rd_user := 0;
         rd_valid := true; rd_ready := false; rd_data := rr_accumBuffer x; rd_wstrb := rr_accumStrobe x |} in
    let* loc := of_opt (FUndef "null nppMsg") (rr_nppMsg x) in
    let* m := of_opt (FUndef "null nppMsg") (ns_msgs r !! loc) in
    let* m := appendData m upsized_beat in
    Ok (set_msgs (<[loc := m]> (ns_msgs r)) (ns_next_loc r) r,
        set_accum (zeros 64) 0 0 (rr_bytes_received x) x)
  else Ok (r, x).

(** Whether a flit can be made of what was received. *)
Definition injectable (x : ReadResponseState) (slave_finished : bool) : bool :=
  (16 <=? rr_bytes_received x - rr_bytes_sent x) ||
  (slave_finished && (rr_bytes_sent x <? rr_bytes_received x)).

(** The cool-down of the burst counter, and the earliest tick of the next flit. *)
Definition cooled_burst (now : Z) (r : nsuRead) : Z :=
  if (0 <? ns_last_inject_tick r) && (ns_last_inject_tick r <? now) &&
     (COOL_DOWN_CYCLES * period <? now - ns_last_inject_tick r)
  then 0 else ns_flits_in_burst r.
Definition earliest_inject (now burst : Z) (auto : bool) (r : nsuRead) : Z :=
  let last := ns_last_inject_tick r in
  let inject_tick := Z.max now (if last =? 0 then now else last + period) in
  let per_flit_gap_cycles := Z.max m_read_response_per_flit_gap_cycles (if auto then 1 else 0) in
  let inject_tick := if (0 <? per_flit_gap_cycles) && (0 <? burst)
                     then Z.max inject_tick (last + u32 (1 + per_flit_gap_cycles) * period) else inject_tick in
  let need_transient_gap := (0 <? burst) && (burst mod FLITS_PER_BURST =? 0) in
  let need_sticky_gap := (0 <? ns_flits_total r) && (ns_flits_total r mod STICKY_GAP_THRESHOLD =? 0) in
  if (0 <? m_read_response_gap_cycles) && (need_transient_gap || need_sticky_gap)
  then Z.max inject_tick (last + u32 (1 + m_read_response_gap_cycles) * period) else inject_tick.

(** [schedule(dequeueIntermediateEvent, t)] *)
Definition nsu_schedule (t : Z) (r : nsuRead) : res nsuRead :=
  match ns_deqEvent r with
  | None => Ok (set_ns_event (Some t) r)
  | Some _ => Err (FAssert "!event.scheduled()")
  end.

(** The route of a response, back to the interface the request came from. *)
Definition resp_route (vnet : Z) (req : nsuReq) (port : Z) : NocRouteInfo :=
  {| rt_vnet := vnet; rt_src_ni := m_id;
     rt_src_router := if 0 <=? nq_incoming req then nq_incoming req else port;
     rt_dest_ni := mm_src_ni (nq_msg req); rt_dest_router := rt_dest_router NocRouteInfo_default;
     rt_hops_traversed := -1 |}.

(** The message of a flit is told its source when it is injected. *)
Definition touch_msg (loc : Z) (r : nsuRead) : nsuRead :=
  set_msgs (alter (set_src_ni m_id) loc (ns_msgs r)) (ns_next_loc r) r.

(** The end of [dequeueIntermediate]: the response is complete, there is more to send,
    or the unit waits for more beats. *)
Definition afterFlit (now : Z) (s : mmNsu) (x : ReadResponseState) : res mmNsu :=
  let r := ns_read s in
  let d := ns_drain r in
  if rr_total_bytes_needed x <=? rr_bytes_sent x then
    let* (_, t) := tr_readAndRemove (ns_readTracker r) (nd_axi_id d) in
    Ok (set_ns_read (set_ns_drain (set_nd_valid false d)
          (set_state (nd_axi_id d) (set_progress false (rr_bytes_sent x) (rr_auto_per_flit_gap x) x)
            (set_read_tracker t r))) s)
  else if injectable x (nd_slave_finished d) then
    let* r := nsu_schedule (now + period) r in Ok (set_ns_read r s)
  else Ok (set_ns_read (set_ns_drain (set_nd_valid false d) r) s).

(** [mmNocSlaveUnit::dequeueIntermediate], with the flit it injects. *)
Definition nsu_dequeueIntermediate (now : Z) (s : mmNsu) : res (mmNsu * list nflit) :=
  let r := ns_read s in
  let d := ns_drain r in
  if negb (nd_valid d) then Ok (s, [])
  else
    let* x := of_opt (FUndef "m_read_response_state index") (ns_state r !! zn (nd_axi_id d)) in
    let* port := of_opt (FAssert "oPort") (nd_oPort d) in
    if injectable x (nd_slave_finished d) then
      let flit_idx := rr_bytes_sent x / 16 in
      let* req := of_opt (FUndef "null original_req") (nd_original_req d) in
      let burst := cooled_burst now r in
      let r := set_pace burst (ns_flits_total r) (ns_last_inject_tick r) r in
      let inject_tick := earliest_inject now burst (rr_auto_per_flit_gap x) r in
      if now <? inject_tick then
        let* r := nsu_schedule inject_tick r in Ok (set_ns_read r s, [])
      else
        let* loc := of_opt (FUndef "null nppMsg") (rr_nppMsg x) in
        let* m := of_opt (FUndef "null nppMsg") (ns_msgs r !! loc) in
        let* tag := of_opt (FUndef "m_rrob_tags index") (mm_rrob_tags m !! zn (u8 (flit_idx / 2))) in
        let fl := new_headtail_flit (rr_packet_id x) flit_idx (nd_vc d) R_VNET (resp_route R_VNET req port)
                    (rr_num_flits x) (mk_respFlit (RRef loc) inject_tick tag (flit_idx mod 2)) in
        match injectFlit (ns_outVcs s) fl (nd_vc d) with
        | None => let* r := nsu_schedule (now + period) r in Ok (set_ns_read r s, [])
        | Some q =>
            let x := set_progress (rr_active x) (u16 (rr_bytes_sent x + 16)) (rr_auto_per_flit_gap x) x in
            let r := set_state (nd_axi_id d) x (touch_msg loc
                       (set_pace (u16 (burst + 1)) (u16 (ns_flits_total r + 1)) inject_tick r)) in
            let* s := afterFlit now (set_ns_net (ns_next_packet_id s) q (set_ns_read r s)) x in
            Ok (s, [fl])
        end
    else let* s := afterFlit now s x in Ok (s, []).

(** The fired event. *)
Definition nsu_fire (now : Z) (s : mmNsu) : res (mmNsu * list nflit) :=
  nsu_dequeueIntermediate now (set_ns_read (set_ns_event None (ns_read s)) s).

(** [mmNocSlaveUnit::flitisizeReadResponse] on a beat of the endpoint; [port] is the
    router of the output port. *)
Definition flitisizeReadResponse (now : Z) (s : mmNsu) (beat : aximmRWData) (port vnet : Z)
    : res (bool * mmNsu * list nflit) :=
  if nd_valid (ns_drain (ns_read s)) then Ok (false, s, [])
  else
    let axi_id := rd_id beat in
    guard (axi_id <? NUM_SUPPORTED_AXI_IDS) (FPanic "mmNocSlaveUnit: AXI ID exceeds supported max") (
    let* x := of_opt (FUndef "m_read_response_state index") (ns_state (ns_read s) !! zn axi_id) in
    let* s := if rr_active x then Ok s else startResponse s axi_id beat in
    let* x := of_opt (FUndef "m_read_response_state index") (ns_state (ns_read s) !! zn axi_id) in
    let* x := accumulate beat x in
    let* (r, x) := flushAccum axi_id beat (ns_read s) x in
    let r := set_state axi_id x r in
    let* original_req := tr_read (ns_readTracker r) axi_id in
    let* vc := getPathVC m_route_to_vc_map m_id (mm_src_ni (nq_msg original_req)) 2 in
    let slave_finished := rr_total_bytes_needed x <=? rr_bytes_received x in
    if injectable x slave_finished then
      let d := mk_nsuDrain true axi_id vnet (Some port) vc slave_finished (Some original_req) in
      let auto := readResponsesUseMultipleVCs m_route_to_vc_map m_num_aximm_nmu m_id in
      let r := set_state axi_id (set_progress (rr_active x) (rr_bytes_sent x) auto x) (set_ns_drain d r) in
      guard (bool_decide (ns_deqEvent r = None))
        (FPanic "mmNocSlaveUnit::flitisizeReadResponse: dequeueIntermediateEvent already scheduled") (
      let* (s, fls) := nsu_dequeueIntermediate now (set_ns_read r s) in
      Ok (true, s, fls))
    else if rr_total_bytes_needed x <=? rr_bytes_sent x then
      let* (_, t) := tr_readAndRemove (ns_readTracker r) axi_id in
      let r := set_state axi_id (set_progress false (rr_bytes_sent x) (rr_auto_per_flit_gap x) x)
                 (set_read_tracker t r) in
      Ok (true, set_ns_read r s, [])
    else Ok (true, set_ns_read r s, [])).

(** ** Write responses *)

(** [mmNocSlaveUnit::flitisizeWriteResponse] *)
Definition set_resp_counters (t : RequestTracker) (penalty : gmap Z bool) (n : Z) (w : nsuWrite) : nsuWrite :=
  mk_nsuWrite t (ns_assembly w) (ns_last_tail_flit_tick w) (ns_is_back_to_back w) penalty n.
Definition flitisizeWriteResponse (now : Z) (s : mmNsu) (msg : NocMemoryMsg) (b : aximmWResp) (port : Z)
    : res (bool * mmNsu * list nflit) :=
  let w := ns_write s in
  let* (req, t) := tr_readAndRemove (ns_writeTracker w) (wr_id b) in
  let* vc := getPathVC m_route_to_vc_map m_id (mm_src_ni (nq_msg req)) 3 in
  let* (packet_id, next_id) := getNextPacketID (ns_next_packet_id s) in
  let due := default false (ns_bram_penalty_due w !! wr_id b) in
  let total := ns_write_resp_total w in
  let inject_tick := now + (if due then period else 0)
    + (if (0 <? total) && (total mod WRITE_RESP_STICKY_GAP_THRESHOLD =? 0) then period else 0) in
  let penalty := if due then delete (wr_id b) (ns_bram_penalty_due w) else ns_bram_penalty_due w in
  let fl := new_headtail_flit packet_id 0 vc B_VNET (resp_route B_VNET req port) 1
              (mk_respFlit (BMsg (set_src_ni m_id msg)) inject_tick 0 0) in
  let s := set_ns_write (set_resp_counters t penalty (u64 (total + 1)) w) s in
  match injectFlit (ns_outVcs s) fl vc with
  | None => Ok (false, set_ns_net next_id (ns_outVcs s) s, [])
  | Some q => Ok (true, set_ns_net next_id q s, [fl])
  end.

(** [setVnet] *)
Definition set_mm_vnet (v : Z) (m : NocMemoryMsg) : NocMemoryMsg :=
  {| mm_payload := mm_payload m; mm_pload := mm_pload m; mm_beat_size := mm_beat_size m;
     mm_num_flits := mm_num_flits m; mm_rrob_tags := mm_rrob_tags m;
     mm_axi_rrob_tag := mm_axi_rrob_tag m; mm_axi_beat_id := mm_axi_beat_id m;
     mm_end_beat_idx := mm_end_beat_idx m; mm_src_ni := mm_src_ni m; mm_vnet := v;
     mm_debugId := mm_debugId m; mm_original_read_bytes := mm_original_read_bytes m;
     mm_final_read_chunk := mm_final_read_chunk m |}.

(** [mmNocSlaveUnit::flitisizeMessage] *)
Definition nsu_flitisizeMessage (now : Z) (s : mmNsu) (msg : NocMemoryMsg) (vnet : Z)
    : res (bool * mmNsu * list nflit) :=
  let* port := of_opt (FAssert "oPort") (oport vnet) in
  match mm_payload msg with
  | PData beat => flitisizeReadResponse now s beat port vnet
  | PResp b =>
      let* (ok, s, fls) := flitisizeWriteResponse now s (set_mm_vnet vnet msg) b port in
      guard ok (FPanic "Failed to flitisize write response") (Ok (true, s, fls))
  | _ => Err (FPanic "mmNocSlaveUnit::flitisizeMessage: Unsupported payload type")
  end.

(** ** Requests *)

(** The request in beats of the endpoint's width. *)
Definition adapt_request (a : aximmRWAddr) : aximmRWAddr :=
  set_ra_chunk (ra_addr a) (u8 ((getTotalByteSize a + S_DATA_WIDTH - 1) / S_DATA_WIDTH - 1))
    (u8 (Z.log2 S_DATA_WIDTH)) a.
Definition set_ra_debug (src bytes dbg : Z) (final : bool) (a : aximmRWAddr) : aximmRWAddr :=
  {| ra_cmd := ra_cmd a; ra_id := ra_id a; ra_addr := ra_addr a; ra_len := ra_len a; ra_size := ra_size a;
     ra_burst := ra_burst a; ra_lock := ra_lock a; ra_cache := ra_cache a; ra_prot := ra_prot a;
     ra_qos := ra_qos a; ra_region := ra_region a; ra_user := ra_user a; ra_valid := ra_valid a;
     ra_sourceNiDebug := src; ra_originalReadBytesDebug := bytes; ra_debugId := dbg;
     ra_finalReadChunkDebug := final |}.
(** The message for the endpoint ("tile"). *)
Definition tile_msg (a : aximmRWAddr) (m : NocMemoryMsg) : NocMemoryMsg :=
  set_src_ni (mm_src_ni m) (set_mm_vnet (mm_vnet m) (newNocMemoryMsg (PAddr a) (replicate 4 aximmRWData_default))).

(** [mmNocSlaveUnit::enqueueReadRequestToTile] *)
Definition enqueueReadRequestToTile (now : Z) (s : mmNsu) (req : nsuReq) (tileMsg : NocMemoryMsg)
    : res (bool * mmNsu) :=
  let vnet := mm_vnet (nq_msg req) in
  let* obuf := of_opt (FPanic "mmNocSlaveUnit::enqueueReadRequestToTile: outNode vnet null") (nsu_outNode s vnet) in
  if negb (areNSlotsAvailable bufCfg obuf 1 now) then Ok (false, s)
  else
    let* (ok, t) := tr_add (ns_readTracker (ns_read s)) req in
    if negb ok then Ok (false, s)
    else
      let* b := mb_enqueue bufCfg obuf tileMsg now now 0 None false false in
      Ok (true, set_nsu_outNode vnet b (set_ns_read (set_read_tracker t (ns_read s)) s)).

(** [mmNocSlaveUnit::depacketizeReadRequestFlit]; the payload is an address. *)
Definition depacketizeReadRequestFlit (now : Z) (s : mmNsu) (req : nsuReq) (a : aximmRWAddr)
    : res (bool * mmNsu) :=
  if negb (areNSlotsAvailable bufCfg (ns_AR s) 1 now) then Ok (false, s)
  else
    let m := nq_msg req in
    let adapted := set_ra_debug (mm_src_ni m) (mm_original_read_bytes m) (Z.max (-1) (mm_debugId m))
                     (mm_final_read_chunk m) (adapt_request a) in
    enqueueReadRequestToTile now s req (tile_msg adapted m).

Definition set_write_tracker (t : RequestTracker) (w : nsuWrite) : nsuWrite :=
  mk_nsuWrite t (ns_assembly w) (ns_last_tail_flit_tick w) (ns_is_back_to_back w) (ns_bram_penalty_due w)
    (ns_write_resp_total w).

(** [mmNocSlaveUnit::depacketizeWriteRequestFlit]; the payload is an address. *)
Definition depacketizeWriteRequestFlit (now : Z) (s : mmNsu) (req : nsuReq) (a : aximmRWAddr)
    : res (bool * mmNsu) :=
  if negb (areNSlotsAvailable bufCfg (ns_AW s) 1 now) then Ok (false, s)
  else
    let* (ok, t) := tr_add (ns_writeTracker (ns_write s)) req in
    if negb ok then Ok (false, s)
    else
      let* b := mb_enqueue bufCfg (ns_AW s) (tile_msg (adapt_request a) (nq_msg req)) now now 0 None false false in
      Ok (true, set_nsu_outNode AW_VNET b (set_ns_write (set_write_tracker t (ns_write s)) s)).

(** ** Write data *)

(** [mmNocSlaveUnit::createNWriteDataMsgs] *)
Definition set_debugId (d : Z) (m : NocMemoryMsg) : NocMemoryMsg :=
  {| mm_payload := mm_payload m; mm_pload := mm_pload m; mm_beat_size := mm_beat_size m;
     mm_num_flits := mm_num_flits m; mm_rrob_tags := mm_rrob_tags m;
     mm_axi_rrob_tag := mm_axi_rrob_tag m; mm_axi_beat_id := mm_axi_beat_id m;
     mm_end_beat_idx := mm_end_beat_idx m; mm_src_ni := mm_src_ni m; mm_vnet := mm_vnet m;
     mm_debugId := d; mm_original_read_bytes := mm_original_read_bytes m;
     mm_final_read_chunk := mm_final_read_chunk m |}.
Definition createNWriteDataMsgs (payloads : list aximmRWData) (dbg : Z) : list NocMemoryMsg :=
  (fun p => set_debugId dbg (newNocMemoryMsg (PData p) (replicate 4 aximmRWData_default))) <$> payloads.

(** [mmNocSlaveUnit::sendNWriteDataMsgs] *)
Definition sendNWriteDataMsgs (now : Z) (s : mmNsu) (msgs : list NocMemoryMsg) : res (bool * mmNsu) :=
  match msgs with
  | [] => Ok (true, s)
  | _ =>
      if negb (areNSlotsAvailable bufCfg (ns_W s) (nz (length msgs)) now) then Ok (false, s)
      else
        let* b := foldM (fun b m => mb_enqueue bufCfg b m now now 0 None false false) (ns_W s) msgs in
        Ok (true, set_nsu_outNode W_VNET b s)
  end.

Definition set_b2b (m : gmap Z bool) (w : nsuWrite) : nsuWrite :=
  mk_nsuWrite (ns_writeTracker w) (ns_assembly w) (ns_last_tail_flit_tick w) m (ns_bram_penalty_due w)
    (ns_write_resp_total w).
Definition set_assembly (m : gmap Z MmWriteDataAssemblyState) (w : nsuWrite) : nsuWrite :=
  mk_nsuWrite (ns_writeTracker w) m (ns_last_tail_flit_tick w) (ns_is_back_to_back w) (ns_bram_penalty_due w)
    (ns_write_resp_total w).
Definition set_tail_marks (last : gmap Z Z) (b2b penalty : gmap Z bool) (w : nsuWrite) : nsuWrite :=
  mk_nsuWrite (ns_writeTracker w) (ns_assembly w) last b2b penalty (ns_write_resp_total w).

(** The timing marks of a packet's tail. *)
Definition tailMarks (now axi_id num_flits : Z) (has_axi_last : bool) (w : nsuWrite) : nsuWrite :=
  let last := <[axi_id := now]> (ns_last_tail_flit_tick w) in
  let b2b := ns_is_back_to_back w in
  if has_axi_last then
    set_tail_marks (delete axi_id last) (delete axi_id b2b)
      (if default false (b2b !! axi_id) && (num_flits <? 4)
       then <[axi_id := true]> (ns_bram_penalty_due w) else ns_bram_penalty_due w) w
  else set_tail_marks last b2b (ns_bram_penalty_due w) w.

(** [mmNocSlaveUnit::depacketizeWriteDataFlit] on flit [packet_flit_id] of a packet. *)
Definition depacketizeWriteDataFlit (now : Z) (s : mmNsu) (packet_id packet_flit_id : Z) (msg : NocMemoryMsg)
    : res (bool * mmNsu) :=
  let packet_flit_id := u8 packet_flit_id in
  guard (negb (packet_flit_id =? 0)) (FPanic "received write-data body flit with packet_flit_id 0") (
  let flit_id := u8 (packet_flit_id - 1) in
  let is_tail_flit := mm_num_flits msg - 1 =? flit_id in
  let* axi_id := getRespAXIID msg in
  if negb (tr_has (ns_writeTracker (ns_write s)) axi_id) then Ok (false, s)
  else
    let w := ns_write s in
    let w := if flit_id =? 0
             then set_b2b (<[axi_id := bool_decide (ns_last_tail_flit_tick w !! axi_id = Some (now - period))]>
                             (ns_is_back_to_back w)) w
             else w in
    let s := set_ns_write w s in
    let* flit_data := mem_getFlitData msg flit_id in
    let flit_strobe := getFlitStrobe msg flit_id in
    let staged := default Assembly_empty (ns_assembly w !! packet_id) in
    let* aw_req := tr_read (ns_writeTracker w) axi_id in
    let* p := of_opt (FPanic "expected tracked AW payload") (req_addr aw_req) in
    let* (out, staged) := depacketizeMmWriteDataFlit S_DATA_WIDTH axi_id (ra_addr p) staged flit_id
                            (mm_num_flits msg) flit_data flit_strobe (getTotalByteSize p) in
    let payloads := out.*1 in
    let* (ok, s) := sendNWriteDataMsgs now s (createNWriteDataMsgs payloads (mm_debugId msg)) in
    if negb ok then Ok (false, s)
    else
      let w := ns_write s in
      let w := if 16 <? S_DATA_WIDTH then
                 set_assembly (if is_tail_flit then delete packet_id (ns_assembly w)
                               else <[packet_id := staged]> (ns_assembly w)) w
               else w in
      let w := if is_tail_flit then tailMarks now axi_id (mm_num_flits msg) (existsb rd_last payloads) w else w in
      Ok (true, set_ns_write w s)).

(** [mmNocSlaveUnit::depacketizeFlit] on a flit that came in on link [incoming]. *)
Definition nsu_depacketizeFlit (now : Z) (s : mmNsu) (fl : mflit) (incoming : Z) : res (bool * mmNsu) :=
  let msg := fl_msg fl in
  match mm_payload msg with
  | PData _ => depacketizeWriteDataFlit now s (fl_packet_id fl) (fl_id fl) msg
  | PAddr a =>
      match ra_cmd a with
      | READ => depacketizeReadRequestFlit now s (mk_nsuReq msg incoming) a
      | WRITE => depacketizeWriteRequestFlit now s (mk_nsuReq msg incoming) a
      | NONE => Err (FPanic "mmNocSlaveUnit::depacketizeFlit: Unsupported AXI command")
      end
  | _ => Err (FPanic "mmNocSlaveUnit::depacketizeFlit: Unsupported payload type")
  end.

(** ** Ready signals *)

Definition getAxiRReady (s : mmNsu) : bool * mmNsu :=
  let b := 0 <? tr_getSize (ns_readTracker (ns_read s)) in (b, set_ns_r_ready b s).

(** [b] is the endpoint's B channel with its valid signals; [has_credit] the credit
    state of the output VCs. *)
Definition getAxiBReady (s : mmNsu) (upstreamValid : bool) (b : aximmWResp) (has_credit : Z -> bool) : res bool :=
  if negb upstreamValid || negb (wr_valid b) then Ok true
  else if tr_getSize (ns_writeTracker (ns_write s)) =? 0 then Ok true
  else
    let* req := tr_read (ns_writeTracker (ns_write s)) (wr_id b) in
    let* vc := getPathVC m_route_to_vc_map m_id (mm_src_ni (nq_msg req)) 3 in
    Ok (has_credit vc).

End MmNsu.
