(* ===== verification/MmNsuRead.v ===== *)
(** * Read responses of the AXI-MM slave unit

    The slave unit as a transition system with an endpoint that answers outstanding
    requests with beats of its width.  Every response is sent as all its flits, in
    order, with the reorder-buffer tags of its request; its message holds the bytes of
    the beats once the response is complete; no step of the read side can fail; and a
    paced flit is sent the next time its event fires with room in the queue. *)

From S2P Require Import Prelude AxiTypes Chop MmWriteBuffer NppReceive Flit.
From S2P Require Import SNmu MsgBuffer MmDepack MmNmu ReqTracker MmNsu.

(** ** Message data *)

(** A message of 64-byte beats. *)
Definition msg_shape (m : NocMemoryMsg) : Prop :=
  length (mm_pload m) = 4%nat /\ Forall (fun b => length (rd_data b) = 64%nat) (mm_pload m) /\
  mm_beat_size m = 6.

Lemma flit_bytes m k : msg_shape m -> 0 <= k < 16 ->
  mem_getFlitData m k = Ok ((fun j => pl_byte (mm_pload m) (16 * k + j)) <$> seqZ 0 16).
Proof.
  intros (Hlen & Hsh & Hb) Hk. destruct (lookup_lt_is_Some_2 (mm_pload m) (zn (k / 4))) as [b Eb]; [mlia|].
  pose proof (Forall_lookup_1 _ _ _ _ Hsh Eb) as Hd. cbn in Hd.
  unfold mem_getFlitData. rewrite Hb. change (u8 (Z.shiftl 1 6)) with 64.
  change (64 <? 16) with false. change (64 =? 16) with false. change (u8 (64 / 16)) with 4. cbv iota.
  replace (u8 (k * 16 / 64)) with (k / 4) by (rewrite u8_small; mlia).
  unfold pload_at. rewrite Eb. cbn [of_opt rbind]. unfold beat_slice.
  rewrite (proj2 (Z.leb_le _ _)) by mlia. cbn [guard]. f_equal.
  apply list_eq_same_length with 16%nat;
    [by rewrite length_fmap, length_seqZ|rewrite length_slice; mlia|].
  intros i x y Hi Hx Hy. rewrite list_lookup_fmap, (lookup_seqZ_lt _ _ i) in Hy by lia.
  injection Hy as <-. rewrite lookup_slice in Hx by lia. unfold pl_byte.
  replace ((16 * k + (0 + nz i)) / 64) with (k / 4) by mlia. rewrite nth_lookup, Eb. cbn.
  unfold byte_at. rewrite nth_lookup. replace (zn ((16 * k + (0 + nz i)) mod 64)) with (zn (k mod 4 * 16) + i)%nat by mlia.
  by rewrite Hx.
Qed.

Lemma pl_byte_insert l e b j : 0 <= e < nz (length l) -> 0 <= j ->
  pl_byte (<[zn e := b]> l) j = if j / 64 =? e then byte_at (rd_data b) (zn (j mod 64)) else pl_byte l j.
Proof.
  intros He Hj. unfold pl_byte. rewrite !nth_lookup. destruct (Z.eqb_spec (j / 64) e) as [<-|Hne].
  - by rewrite list_lookup_insert_eq by lia.
  - rewrite list_lookup_insert_ne; [done|]. intros E. apply Hne.
    assert (0 <= j / 64) by mlia. lia.
Qed.

Lemma appendData_ok m beat : msg_shape m -> length (rd_data beat) = 64%nat -> 0 <= mm_end_beat_idx m < 4 ->
  exists m', appendData m beat = Ok m' /\ msg_shape m' /\ mm_rrob_tags m' = mm_rrob_tags m /\
    mm_end_beat_idx m' = mm_end_beat_idx m + 1 /\
    mm_pload m' = <[zn (mm_end_beat_idx m) := beat]> (mm_pload m).
Proof.
  intros (Hlen & Hsh & Hb) Hd He. unfold appendData. rewrite (proj2 (Z.ltb_lt _ _)) by lia. cbn [guard].
  eexists. split; [done|]. cbn. rewrite u8_small by lia. split_and!; try done. split_and!; cbn; [by rewrite length_insert| |done].
  by apply Forall_insert.
Qed.

(** ** Bytes received so far *)

(** [bs] are the bytes of the beats of the response in state [x] with message [m]:
    whole 64-byte blocks are in the message, the rest in the accumulator; after the
    last beat all are in the message. *)
Record resp_bytes (m : NocMemoryMsg) (x : ReadResponseState) (bs : list Z) : Prop := {
  rb_len : nz (length bs) = rr_bytes_received x;
  rb_buf : length (rr_accumBuffer x) = 64%nat;
  rb_off : 0 <= rr_accumOffset x < 64;
  rb_end : 0 <= mm_end_beat_idx m <= 4;
  rb_open : rr_bytes_received x < rr_total_bytes_needed x ->
    rr_bytes_received x = 64 * mm_end_beat_idx m + rr_accumOffset x;
  rb_done : rr_total_bytes_needed x <= rr_bytes_received x -> rr_bytes_received x <= 64 * mm_end_beat_idx m;
  rb_msg : forall j, 0 <= j < 64 * mm_end_beat_idx m -> j < rr_bytes_received x ->
    pl_byte (mm_pload m) j = byte_at bs (zn j);
  rb_acc : forall j, 0 <= j < rr_accumOffset x ->
    byte_at (rr_accumBuffer x) (zn j) = byte_at bs (zn (64 * mm_end_beat_idx m + j))
}.

Lemma byte_at_app_l (l1 l2 : list Z) i : (i < length l1)%nat -> byte_at (l1 ++ l2) i = byte_at l1 i.
Proof. intros. unfold byte_at. by rewrite app_nth1. Qed.
Lemma byte_at_app_r (l1 l2 : list Z) i : (length l1 <= i)%nat -> byte_at (l1 ++ l2) i = byte_at l2 (i - length l1).
Proof. intros. unfold byte_at. by rewrite app_nth2. Qed.

(** What a beat leaves alone in the state of its response. *)
Definition same_response (x x' : ReadResponseState) : Prop :=
  rr_active x' = rr_active x /\ rr_nppMsg x' = rr_nppMsg x /\ rr_packet_id x' = rr_packet_id x /\
  rr_num_flits x' = rr_num_flits x /\ rr_total_bytes_needed x' = rr_total_bytes_needed x /\
  rr_bytes_sent x' = rr_bytes_sent x.

Lemma width_cases W : W ∈ widths -> W = 1 \/ W = 2 \/ W = 4 \/ W = 8 \/ W = 16 \/ W = 32 \/ W = 64.
Proof. unfold widths. rewrite !elem_of_cons. pose proof (not_elem_of_nil W). tauto. Qed.

(** The accumulator has room for a beat of the endpoint's width. *)
Lemma width_fits W e off n : W ∈ widths -> n = 64 * e + off -> n mod W = 0 -> 0 <= off < 64 ->
  1 <= W <= 64 /\ off + W <= 64 /\ (n + W) mod W = 0.
Proof.
  intros HW%width_cases -> Hm Ho. repeat (destruct HW as [-> |HW]; [split_and!; mlia|]). subst W. split_and!; mlia.
Qed.

Lemma accumulate_ok W beat x : 1 <= W <= 64 -> 0 <= rr_accumOffset x -> rr_accumOffset x + W <= 64 ->
  0 <= rr_bytes_received x <= 256 ->
  accumulate W beat x = Ok (set_accum
    (copy_into (rr_accumBuffer x) (zn (rr_accumOffset x)) (slice (rd_data beat) 0 (zn W)))
    (Z.lor (rr_accumStrobe x) (u64 (Z.shiftl (rd_wstrb beat) (rr_accumOffset x))))
    (rr_accumOffset x + W) (rr_bytes_received x + W) x).
Proof.
  intros HW Ho Hf Hr. unfold accumulate. rewrite (u8_small W) by lia.
  rewrite (proj2 (Z.leb_le W 64)), (proj2 (Z.leb_le (_ + _) 64)) by lia. cbn [andb guard].
  rewrite (proj2 (Z.ltb_lt _ _)) by lia. cbn [guard]. by rewrite u8_small, u16_small by lia.
Qed.

(** The accumulator after a beat holds the next [W] bytes. *)
Lemma accum_bytes W beat x m bs j : 0 <= W -> length (rd_data beat) = 64%nat -> W <= 64 ->
  resp_bytes m x bs -> rr_bytes_received x = 64 * mm_end_beat_idx m + rr_accumOffset x ->
  rr_accumOffset x + W <= 64 -> 0 <= j < rr_accumOffset x + W ->
  byte_at (copy_into (rr_accumBuffer x) (zn (rr_accumOffset x)) (slice (rd_data beat) 0 (zn W))) (zn j) =
  byte_at (bs ++ take (zn W) (rd_data beat)) (zn (64 * mm_end_beat_idx m + j)).
Proof.
  intros HW Hd HW64 Hb Hn Hf Hj. pose proof (rb_len _ _ _ Hb) as Hl. pose proof (rb_off _ _ _ Hb).
  pose proof (rb_end _ _ _ Hb). rewrite byte_at_copy by (rewrite (rb_buf _ _ _ Hb), length_slice; lia).
  rewrite length_slice by lia. case_decide.
  - rewrite byte_at_app_r by lia. rewrite byte_at_slice by lia. unfold byte_at. rewrite !nth_lookup.
    rewrite lookup_take_lt by lia. do 2 f_equal. lia.
  - rewrite byte_at_app_l by lia. apply (rb_acc _ _ _ Hb). lia.
Qed.

Section Feed.
Context (W axi_id loc : Z) (beat : aximmRWData) (r : nsuRead) (x : ReadResponseState) (m : NocMemoryMsg) (bs : list Z).
Hypothesis HW : W ∈ widths.
Hypothesis Hd : length (rd_data beat) = 64%nat.
Hypothesis Hm : ns_msgs r !! loc = Some m.
Hypothesis Hloc : rr_nppMsg x = Some loc.
Hypothesis Hsh : msg_shape m.
Hypothesis Hb : resp_bytes m x bs.
Hypothesis Hopen : rr_bytes_received x < rr_total_bytes_needed x.
Hypothesis Ht : rr_total_bytes_needed x <= 256.
Hypothesis Hmod : rr_bytes_received x mod W = 0.
Hypothesis Hlast : rd_last beat = (rr_total_bytes_needed x <=? rr_bytes_received x + W).

Lemma feed_facts : 1 <= W <= 64 /\ rr_accumOffset x + W <= 64 /\ (rr_bytes_received x + W) mod W = 0 /\
  rr_bytes_received x = 64 * mm_end_beat_idx m + rr_accumOffset x /\ 0 <= mm_end_beat_idx m < 4.
Proof using HW Hb Hopen Ht Hmod.
  pose proof (rb_open _ _ _ Hb Hopen) as Hn. pose proof (rb_off _ _ _ Hb). pose proof (rb_end _ _ _ Hb).
  destruct (width_fits W (mm_end_beat_idx m) (rr_accumOffset x) (rr_bytes_received x)) as (H1 & H2 & H3);
    [done..|]. clear Hd. split_and!; lia.
Qed.

(** A beat is taken: its bytes follow those received before. *)
Lemma feed_ok : exists x1 x' m', accumulate W beat x = Ok x1 /\
  flushAccum axi_id beat r x1 = Ok (set_msgs (<[loc := m']> (ns_msgs r)) (ns_next_loc r) r, x') /\
  msg_shape m' /\ mm_rrob_tags m' = mm_rrob_tags m /\ same_response x x' /\
  rr_bytes_received x' = rr_bytes_received x + W /\
  resp_bytes m' x' (bs ++ take (zn W) (rd_data beat)).
Proof using All.
  destruct feed_facts as (HW1 & Hf & Hmod' & Hn & He). pose proof (rb_len _ _ _ Hb) as Hl.
  pose proof (rb_off _ _ _ Hb) as Ho.
  assert (Hl' : length (bs ++ take (zn W) (rd_data beat)) = zn (rr_bytes_received x + W))
    by (rewrite length_app, length_take; lia).
  rewrite accumulate_ok by lia. set (buf := copy_into _ _ _).
  assert (Hbl : length buf = 64%nat) by (unfold buf; rewrite length_copy_into; apply (rb_buf _ _ _ Hb)).
  pose proof (accum_bytes W beat x m bs) as Hab. fold buf in Hab.
  match goal with |- context [Ok (set_accum ?a ?b ?c ?d x)] => exists (set_accum a b c d x) end.
  unfold flushAccum. cbn [rr_accumOffset set_accum rr_nppMsg rr_accumBuffer]. rewrite Hlast, Hloc. cbn [of_opt rbind].
  rewrite Hm. cbn [of_opt rbind].
  destruct ((64 <=? rr_accumOffset x + W) || (rr_total_bytes_needed x <=? rr_bytes_received x + W)) eqn:Ec.
  - set (ub := mk_aximmRWData _ _ _ _ _ _ _ _ _).
    destruct (appendData_ok m ub Hsh) as (m' & E & Hs' & Htg & He' & Hp'); [exact Hbl|lia|].
    eexists _, m'. split; [done|]. rewrite E. cbn [rbind]. split; [done|]. split_and!; [done|done|done|done|].
    constructor; cbn; rewrite ?He', ?Hp'; [lia|done|lia|lia| | | |intros; lia].
    + intros H. apply orb_true_iff in Ec as [Ec|Ec]; apply Z.leb_le in Ec; lia.
    + intros _. lia.
    + intros j Hj Hjn. rewrite pl_byte_insert by (destruct Hsh; lia).
      destruct (Z.eqb_spec (j / 64) (mm_end_beat_idx m)) as [Ej|Ej].
      * change (rd_data ub) with buf.
        rewrite (Hab (j mod 64)); [|lia|done|lia|done|done|done|mlia]. do 2 f_equal. mlia.
      * rewrite byte_at_app_l by mlia. apply (rb_msg _ _ _ Hb); mlia.
  - apply orb_false_iff in Ec as [Ec1 Ec2]. apply Z.leb_gt in Ec1, Ec2.
    eexists _, m. split; [done|]. rewrite insert_id by done. split; [by destruct r|].
    split_and!; [done..|]. constructor; cbn; [lia|done|lia|lia|lia|lia| |].
    + intros j Hj Hjn. rewrite byte_at_app_l by lia. apply (rb_msg _ _ _ Hb); lia.
    + intros j Hj. apply Hab; [lia|done|lia|done|done|done|done].
Qed.
End Feed.

(** ** The invariant *)

Definition T_of (r : nsuReq) : Z := from_option getTotalByteSize 0 (req_addr r).
Definition nflits_of (r : nsuReq) : Z := (T_of r + 15) / 16.

(** Whether flit [f] refers to message [loc], and those of a log that do. *)
Definition refers (loc : Z) (f : nflit) : bool :=
  match rf_msg (fl_msg f) with RRef l => l =? loc | BMsg _ => false end.
Definition log_of (loc : Z) (log : list nflit) : list nflit := filter (fun f => refers loc f = true) log.

(** Flit [k] of the response to [req] with message [loc]: its number, its place in the
    reorder buffer of the requester, and its destination. *)
Definition flit_of (req : nsuReq) (loc pid k : Z) (f : nflit) : Prop :=
  fl_id f = k /\ rf_msg (fl_msg f) = RRef loc /\
  mm_rrob_tags (nq_msg req) !! zn (k / 2) = Some (rf_rrob_tag (fl_msg f)) /\
  rf_rrob_flit_idx (fl_msg f) = k mod 2 /\ fl_size f = nflits_of req /\ fl_packet_id f = pid /\
  rt_dest_ni (fl_route f) = mm_src_ni (nq_msg req).

Lemma log_of_app loc l1 l2 : log_of loc (l1 ++ l2) = log_of loc l1 ++ log_of loc l2.
Proof. apply filter_app. Qed.
Lemma log_of_other loc f : refers loc f = false -> log_of loc [f] = [].
Proof. intros H. unfold log_of. cbn. by rewrite decide_False by congruence. Qed.
Lemma log_of_self loc f : refers loc f = true -> log_of loc [f] = [f].
Proof. intros H. unfold log_of. cbn. by rewrite decide_True. Qed.

(** The responses begun so far, by message: the request and the bytes received. *)
Abbreviation responses := (gmap Z (nsuReq * list Z)).

Section ReadSide.
Context (m_route_to_vc_map : gmap (Z * Z * Z) Z) (m_num_aximm_nmu m_id period W : Z)
  (gap_cycles per_flit_gap_cycles : Z).

(** What the unit relies on of a request: a chunk of at most 256 bytes with eight tag
    slots, an ID it has a state for, and a route back. *)
Record req_good (r : nsuReq) : Prop := {
  rg_addr : is_Some (req_addr r);
  rg_size : 1 <= T_of r <= 256;
  rg_id : 0 <= req_id r < 4;
  rg_tags : length (mm_rrob_tags (nq_msg r)) = 8%nat;
  rg_route : is_Some (m_route_to_vc_map !! (m_id, mm_src_ni (nq_msg r), 2))
}.

Record active_resp (r : nsuRead) (G : responses) (log : list nflit) (id : Z) (x : ReadResponseState)
    (loc : Z) (req : nsuReq) (bs : list Z) (m : NocMemoryMsg) : Prop := {
  ar_loc : rr_nppMsg x = Some loc;
  ar_G : G !! loc = Some (req, bs);
  ar_m : ns_msgs r !! loc = Some m;
  ar_shape : msg_shape m;
  ar_tags : mm_rrob_tags m = mm_rrob_tags (nq_msg req);
  ar_front : tr_read (ns_readTracker r) id = Ok req;
  ar_good : req_good req;
  ar_total : rr_total_bytes_needed x = T_of req;
  ar_flits : rr_num_flits x = nflits_of req;
  ar_bytes : resp_bytes m x bs;
  ar_recv : 0 <= rr_bytes_received x < rr_total_bytes_needed x + 64;
  ar_mod : rr_bytes_received x mod W = 0;
  ar_sent16 : rr_bytes_sent x mod 16 = 0;
  ar_sent : 0 <= rr_bytes_sent x < rr_total_bytes_needed x;
  ar_sent_le : rr_bytes_received x < rr_total_bytes_needed x -> rr_bytes_sent x <= rr_bytes_received x;
  ar_log : Forall2 (flit_of req loc (rr_packet_id x)) (seqZ 0 (rr_bytes_sent x / 16)) (log_of loc log)
}.

(** A response with no flit to send until the next beat. *)
Definition caught_up (x : ReadResponseState) : Prop :=
  rr_bytes_received x < rr_total_bytes_needed x /\ rr_bytes_received x - rr_bytes_sent x < 16.

(** A complete response: all flits were sent, and the message holds all bytes. *)
Definition finished (r : nsuRead) (log : list nflit) (loc : Z) (req : nsuReq) (bs : list Z) : Prop :=
  exists m pid, ns_msgs r !! loc = Some m /\ msg_shape m /\ req_good req /\
    T_of req <= nz (length bs) /\
    (forall j, 0 <= j < T_of req -> pl_byte (mm_pload m) j = byte_at bs (zn j)) /\
    Forall2 (flit_of req loc pid) (seqZ 0 (nflits_of req)) (log_of loc log).

Definition current (r : nsuRead) (id : Z) (x : ReadResponseState) : Prop :=
  0 <= id < 4 /\ ns_state r !! zn id = Some x /\ rr_active x = true.

(** [busy] is the ID that may have flits to send. *)
Record core (r : nsuRead) (G : responses) (log : list nflit) (busy : option Z) : Prop := {
  co_tracker : exists l, tracks (ns_readTracker r) l /\ Forall req_good l;
  co_len : length (ns_state r) = 4%nat;
  co_active : forall id x, current r id x ->
    (exists loc req bs m, active_resp r G log id x loc req bs m) /\ (busy = Some id \/ caught_up x);
  co_G : forall loc req bs, G !! loc = Some (req, bs) -> loc < ns_next_loc r /\
    (finished r log loc req bs \/ exists id x, current r id x /\ rr_nppMsg x = Some loc);
  co_uniq : forall i j x y loc, current r i x -> current r j y ->
    rr_nppMsg x = Some loc -> rr_nppMsg y = Some loc -> i = j;
  co_log : forall f loc, f ∈ log -> rf_msg (fl_msg f) = RRef loc -> loc < ns_next_loc r
}.

(** *** Frame properties *)

(** Steps that keep tracker, states and messages. *)
Lemma core_frame r r' G log busy :
  ns_readTracker r' = ns_readTracker r -> ns_state r' = ns_state r -> ns_msgs r' = ns_msgs r ->
  ns_next_loc r' = ns_next_loc r -> core r G log busy -> core r' G log busy.
Proof.
  intros E1 E2 E3 E4 Hc. destruct r as [t st ms nl d e b tt la], r' as [t' st' ms' nl' d' e' b' tt' la'].
  cbn in *. subst. destruct Hc as [H1 H2 H3 H4 H5 H6]. constructor; cbn in *; [done|done| |done|done|done].
  intros id x Hx. destruct (H3 id x Hx) as [(loc & req & bs & m & [? ? ? ? ? ? ? ? ? ? ? ? ? ? ? ?]) Hb].
  split; [|done]. exists loc, req, bs, m. by constructor.
Qed.

Lemma log_fresh r G log busy loc : core r G log busy -> ns_next_loc r <= loc -> log_of loc log = [].
Proof.
  intros Hc Hl. apply filter_none. intros f Hf Hr. unfold refers in Hr.
  destruct (rf_msg (fl_msg f)) as [l|] eqn:E; [|done]. apply Z.eqb_eq in Hr. subst l.
  pose proof (co_log _ _ _ _ Hc f loc Hf E). lia.
Qed.

(** *** Updating the response of one ID *)

Section Update.
Context (r r' : nsuRead) (G G' : responses) (log log' : list nflit) (busy busy' : option Z)
  (id loc0 : Z) (x' : ReadResponseState).
Hypothesis Hc : core r G log busy.
Hypothesis Hid : 0 <= id < 4.
Hypothesis Htr : exists l, tracks (ns_readTracker r') l /\ Forall req_good l.
Hypothesis Hfront : forall j y, j <> id -> current r j y ->
  tr_read (ns_readTracker r') j = tr_read (ns_readTracker r) j.
Hypothesis Hst : ns_state r' = <[zn id := x']> (ns_state r).
Hypothesis Hnext : ns_next_loc r <= ns_next_loc r'.
Hypothesis Hsame : forall loc, loc <> loc0 ->
  ns_msgs r' !! loc = ns_msgs r !! loc /\ G' !! loc = G !! loc /\ log_of loc log' = log_of loc log.
Hypothesis Hothers : forall j y, j <> id -> current r j y -> rr_nppMsg y <> Some loc0.
Hypothesis Hold : forall x loc, current r id x -> rr_nppMsg x = Some loc -> loc = loc0.
Hypothesis Hbusy : forall j y, j <> id -> current r j y -> busy = Some j -> busy' = Some j.
Hypothesis Hnew : rr_active x' = true -> rr_nppMsg x' = Some loc0 /\
  (exists req bs m, active_resp r' G' log' id x' loc0 req bs m) /\ (busy' = Some id \/ caught_up x').
Hypothesis HG0 : forall req bs, G' !! loc0 = Some (req, bs) -> loc0 < ns_next_loc r' /\
  (finished r' log' loc0 req bs \/ rr_active x' = true).
Hypothesis Hlog : forall f loc, f ∈ log' -> rf_msg (fl_msg f) = RRef loc -> loc < ns_next_loc r'.

Lemma current_other j y : j <> id -> current r' j y <-> current r j y.
Proof using Hid Hst.
  intros Hne. unfold current. split; intros (Hj & Hl & Ha); (split; [done|]); rewrite Hst in *;
    rewrite list_lookup_insert_ne in * by lia; done.
Qed.
Lemma current_self y : current r' id y -> y = x' /\ rr_active x' = true.
Proof using Hc Hid Hst.
  intros (_ & Hl & Ha). rewrite Hst, list_lookup_insert_eq in Hl by (rewrite (co_len _ _ _ _ Hc); lia).
  by injection Hl as <-.
Qed.
Lemma current_new : rr_active x' = true -> current r' id x'.
Proof using Hc Hid Hst.
  intros Ha. split; [done|]. split; [|done]. rewrite Hst. apply list_lookup_insert_eq.
  rewrite (co_len _ _ _ _ Hc). lia.
Qed.

Lemma finished_other loc req bs : loc <> loc0 -> finished r log loc req bs -> finished r' log' loc req bs.
Proof using Hsame.
  intros Hne (m & pid & H). destruct (Hsame loc Hne) as (E1 & _ & E3). exists m, pid. by rewrite E1, E3.
Qed.

Lemma active_other j y loc req bs m : j <> id -> current r j y ->
  active_resp r G log j y loc req bs m -> active_resp r' G' log' j y loc req bs m.
Proof using Hsame Hothers Hfront.
  intros Hne Hy [Hl ? ? ? ? ? ? ? ? ? ? ? ? ? ? ?].
  assert (loc <> loc0) as Hne0 by (intros ->; by apply (Hothers j y)).
  destruct (Hsame loc Hne0) as (E1 & E2 & E3). constructor; try done; [by rewrite E2|by rewrite E1| |by rewrite E3].
  by rewrite (Hfront j y).
Qed.

Lemma core_update : core r' G' log' busy'.
Proof using Hc Hid Htr Hfront Hst Hnext Hsame Hothers Hold Hbusy Hnew HG0 Hlog.
  constructor.
  - exact Htr.
  - rewrite Hst, length_insert. apply Hc.
  - intros j y Hy. destruct (decide (j = id)) as [-> |Hne].
    + destruct (current_self y Hy) as [-> Ha]. destruct (Hnew Ha) as (_ & (req & bs & m & H) & Hb).
      split; [by exists loc0, req, bs, m|done].
    + apply (current_other j y Hne) in Hy.
      destruct (co_active _ _ _ _ Hc j y Hy) as [(loc & req & bs & m & H) Hb]. split.
      * exists loc, req, bs, m. by apply active_other.
      * destruct Hb as [Hb|Hb]; [left; by apply (Hbusy j y)|by right].
  - intros loc req bs HG. destruct (decide (loc = loc0)) as [-> |Hne].
    + destruct (HG0 req bs HG) as [Hl [Hf|Ha]]; (split; [done|]); [by left|right].
      exists id, x'. split; [by apply current_new|by apply Hnew].
    + destruct (Hsame loc Hne) as (_ & E2 & _). rewrite E2 in HG.
      destruct (co_G _ _ _ _ Hc loc req bs HG) as [Hl Hk]. split; [lia|].
      destruct Hk as [Hf|(j & y & Hy & Hyl)]; [left; by apply finished_other|right].
      assert (j <> id) as Hj by (intros ->; by apply Hne, (Hold y)).
      exists j, y. split; [by apply current_other|done].
  - intros i j y z loc Hy Hz Hyl Hzl. destruct (decide (i = id)) as [-> |Hi], (decide (j = id)) as [-> |Hj]; [done| | |].
    + destruct (current_self y Hy) as [-> Ha]. destruct (Hnew Ha) as (E & _).
      assert (loc = loc0) as -> by congruence. apply (current_other j z Hj) in Hz. by destruct (Hothers j z).
    + destruct (current_self z Hz) as [-> Ha]. destruct (Hnew Ha) as (E & _).
      assert (loc = loc0) as -> by congruence. apply (current_other i y Hi) in Hy. by destruct (Hothers i y).
    + apply (current_other i y Hi) in Hy. apply (current_other j z Hj) in Hz.
      by apply (co_uniq _ _ _ _ Hc i j y z loc).
  - exact Hlog.
Qed.
End Update.

(** ** The order of the responses *)

(** [A] are the requests accepted and [B] the requests of the responses begun, oldest
    first; a response is begun for the oldest outstanding request of its ID, and this
    request is outstanding until the response is complete. *)
Definition acts (r : nsuRead) : list bool := rr_active <$> ns_state r.
Definition order_ok (r : nsuRead) (A B : list nsuReq) : Prop :=
  nz (length B) = ns_next_loc r /\
  exists l, tracks (ns_readTracker r) l /\ forall id, 0 <= id ->
    of_id id A = of_id id B ++ (if default false (acts r !! zn id) then tail (of_id id l) else of_id id l).

Lemma order_frame r r' A B : ns_readTracker r' = ns_readTracker r -> acts r' = acts r ->
  ns_next_loc r' = ns_next_loc r -> order_ok r A B -> order_ok r' A B.
Proof. unfold order_ok. by intros -> -> ->. Qed.

Lemma acts_set r id x x' : ns_state r !! zn id = Some x -> rr_active x' = rr_active x ->
  rr_active <$> <[zn id := x']> (ns_state r) = acts r.
Proof.
  intros Hx Ha. unfold acts. rewrite list_fmap_insert. apply list_insert_id. by rewrite list_lookup_fmap, Hx, Ha.
Qed.
Lemma acts_lookup r id x : ns_state r !! zn id = Some x -> acts r !! zn id = Some (rr_active x).
Proof. intros Hx. unfold acts. by rewrite list_lookup_fmap, Hx. Qed.
Lemma acts_insert r id j x' : (zn id < length (ns_state r))%nat -> 0 <= id -> 0 <= j ->
  (rr_active <$> <[zn id := x']> (ns_state r)) !! zn j =
  if decide (j = id) then Some (rr_active x') else acts r !! zn j.
Proof.
  intros Hl Hi Hj. rewrite list_fmap_insert. destruct (decide (j = id)) as [-> |Hne].
  - rewrite list_lookup_insert_eq; [done|]. by rewrite length_fmap.
  - rewrite list_lookup_insert_ne by lia. done.
Qed.

Lemma take_first_of_id id l q l' : take_first id l = Some (q, l') ->
  req_id q = id /\ of_id id l = q :: of_id id l' /\ forall j, j <> id -> of_id j l = of_id j l'.
Proof.
  intros E. pose proof (take_first_spec id l) as H. rewrite E in H.
  destruct H as (l1 & l2 & -> & -> & Hq & Hn). split; [done|].
  rewrite of_id_app, of_id_cons, decide_True by done. rewrite of_id_app, Hn. split; [done|].
  intros j Hj. rewrite !of_id_app, of_id_cons, decide_False by congruence. done.
Qed.

Lemma order_start r r' A B id x x' req :
  order_ok r A B -> 0 <= id -> ns_state r !! zn id = Some x -> rr_active x = false ->
  tr_read (ns_readTracker r) id = Ok req -> ns_readTracker r' = ns_readTracker r ->
  ns_next_loc r' = ns_next_loc r + 1 -> ns_state r' = <[zn id := x']> (ns_state r) -> rr_active x' = true ->
  order_ok r' A (B ++ [req]).
Proof.
  intros (Hn & l & Hl & Ho) Hid Hx Hxa Hr Ht Hn' Hs' Hxa'. split; [rewrite length_app; cbn; lia|].
  rewrite Ht. exists l. split; [done|]. intros j Hj. unfold acts. rewrite Hs', acts_insert by (try apply lookup_lt_Some in Hx; lia).
  rewrite (tracks_read _ _ id Hl) in Hr. destruct (take_first id l) as [[q l']|] eqn:Ef; [|done]. injection Hr as ->.
  destruct (take_first_of_id _ _ _ _ Ef) as (Hq & E1 & E2). specialize (Ho j Hj).
  rewrite of_id_app, of_id_cons, Hq. destruct (decide (j = id)) as [-> |Hne].
  - rewrite (acts_lookup _ _ _ Hx), Hxa in Ho. cbn [default] in *. rewrite Hxa'.
    rewrite Ho, E1, decide_True by done. cbn [tail]. by rewrite <- app_assoc.
  - rewrite decide_False by congruence. by rewrite app_nil_r.
Qed.

Lemma order_finish r r' A B id x x' q :
  order_ok r A B -> 0 <= id -> ns_state r !! zn id = Some x -> rr_active x = true ->
  tr_readAndRemove (ns_readTracker r) id = Ok (q, ns_readTracker r') ->
  ns_next_loc r' = ns_next_loc r -> ns_state r' = <[zn id := x']> (ns_state r) -> rr_active x' = false ->
  order_ok r' A B.
Proof.
  intros (Hn & l & Hl & Ho) Hid Hx Hxa Hr Hn' Hs' Hxa'. split; [lia|].
  pose proof (tracks_take _ l id Hl) as Hk. destruct (take_first id l) as [[z l']|] eqn:Ef; [|congruence].
  destruct Hk as (t & Hrm & Ht). assert (t = ns_readTracker r') as -> by congruence.
  destruct (take_first_of_id _ _ _ _ Ef) as (Hq & E1 & E2). exists l'. split; [done|].
  intros j Hj. unfold acts. rewrite Hs', acts_insert by (try apply lookup_lt_Some in Hx; lia).
  specialize (Ho j Hj). destruct (decide (j = id)) as [-> |Hne].
  - rewrite (acts_lookup _ _ _ Hx), Hxa, E1 in Ho. cbn [default tail] in *. by rewrite Hxa'.
  - by rewrite <- (E2 j Hne).
Qed.

(** The [loc]-th response begun. *)
Definition indexed (G : responses) (B : list nsuReq) : Prop :=
  forall loc req bs, G !! loc = Some (req, bs) -> 0 <= loc /\ B !! zn loc = Some req.

(** ** Beats *)

(** *** The first beat *)

Lemma tracked_good t l id req : tracks t l -> Forall req_good l -> tr_read t id = Ok req ->
  req_good req /\ req_id req = id.
Proof.
  intros Ht Hg E. rewrite (tracks_read _ _ id Ht) in E. pose proof (take_first_spec id l) as H.
  destruct (take_first id l) as [[q l']|]; [|done]. injection E as ->.
  destruct H as (l1 & l2 & -> & _ & Hid & _). split; [|done].
  apply Forall_app in Hg as [_ Hg]. by apply Forall_cons in Hg as [Hg _].
Qed.

Lemma start_ok s G log id x beat req :
  core (ns_read s) G log None -> 0 <= id < 4 -> ns_state (ns_read s) !! zn id = Some x ->
  rr_active x = false -> tr_read (ns_readTracker (ns_read s)) id = Ok req -> ns_next_packet_id s + 1 < 2 ^ 31 ->
  exists s' x', startResponse s id beat = Ok s' /\
    core (ns_read s') (<[ns_next_loc (ns_read s) := (req, [])]> G) log None /\
    current (ns_read s') id x' /\ rr_nppMsg x' = Some (ns_next_loc (ns_read s)) /\
    rr_total_bytes_needed x' = T_of req /\ rr_bytes_received x' = 0 /\
    ns_drain (ns_read s') = ns_drain (ns_read s) /\ ns_deqEvent (ns_read s') = ns_deqEvent (ns_read s) /\
    forall A B, order_ok (ns_read s) A B -> order_ok (ns_read s') A (B ++ [req]).
Proof.
  intros Hc Hid Hx Ha Hr Hids. set (loc := ns_next_loc (ns_read s)).
  destruct (co_tracker _ _ _ _ Hc) as (l & Hl & Hg). destruct (tracked_good _ _ _ _ Hl Hg Hr) as [Hgr _].
  destruct (rg_addr _ Hgr) as [p Hp]. pose proof (rg_size _ Hgr) as HT.
  assert (T_of req = getTotalByteSize p) as ET by (unfold T_of; by rewrite Hp).
  unfold startResponse. fold loc. rewrite Hr. cbn [rbind]. rewrite Hp. cbn [of_opt rbind].
  rewrite (getNextPacketID_room _ Hids). cbn [rbind].
  match goal with |- context [set_state id ?y _] => eexists _, y end.
  split; [reflexivity|]. cbn [ns_read set_ns_net set_ns_read].
  assert (Hfresh : forall j y, current (ns_read s) j y -> rr_nppMsg y <> Some loc).
  { intros j y Hy E. destruct (co_active _ _ _ _ Hc j y Hy) as [(l0 & q & bs & m & H) _].
    assert (l0 = loc) as -> by (pose proof (ar_loc _ _ _ _ _ _ _ _ _ H); congruence).
    destruct (co_G _ _ _ _ Hc _ _ _ (ar_G _ _ _ _ _ _ _ _ _ H)). subst loc. lia. }
  assert (Hlen : (zn id < length (ns_state (ns_read s)))%nat) by (rewrite (co_len _ _ _ _ Hc); lia).
  split; [|split; [|split_and!; [done|by rewrite ET|done|done|done|]]].
  2: { split; [done|]. split; [|reflexivity]. cbn. by rewrite list_lookup_insert_eq. }
  2: { intros A B Hab. eapply (order_start (ns_read s) _ A B id x); try done. lia. }
  eapply (core_update _ _ G _ log log None None id loc _ Hc Hid); cbn.
  - by exists l.
  - done.
  - reflexivity.
  - subst loc. lia.
  - intros l0 Hne. by rewrite !lookup_insert_ne.
  - intros j y _. apply Hfresh.
  - intros y l0 (_ & Hy & Hya) _. rewrite Hx in Hy. injection Hy as <-. congruence.
  - done.
  - intros _. split; [done|]. split; [|right; split; cbn; lia].
    exists req, [], (npp_msg beat id (u8 ((getTotalByteSize p + 15) / 16)) (nq_msg req)).
    constructor; cbn; rewrite ?lookup_insert_eq; try done; try lia.
    + split_and!; [done| |done]. by repeat constructor.
    + unfold nflits_of. rewrite ET. apply u8_small. mlia.
    + constructor; cbn; lia.
    + by rewrite (log_fresh _ _ _ _ loc Hc).
  - intros q bs E. split; [lia|by right].
  - intros f l0 Hf E. pose proof (co_log _ _ _ _ Hc f l0 Hf E). subst loc. lia.
Qed.

(** *** Storing a beat *)

(** A current response and what the invariant says of it. *)
Lemma core_current r G log busy id x : core r G log busy -> current r id x ->
  exists loc req bs m, active_resp r G log id x loc req bs m /\ (busy = Some id \/ caught_up x).
Proof. intros Hc Hx. destruct (co_active _ _ _ _ Hc id x Hx) as [(loc & req & bs & m & H) Hb]. by exists loc, req, bs, m. Qed.

(** The message of a current response belongs to no other. *)
Lemma core_others r G log busy id x loc j y : core r G log busy -> current r id x -> rr_nppMsg x = Some loc ->
  j <> id -> current r j y -> rr_nppMsg y <> Some loc.
Proof. intros Hc Hx Hl Hne Hy E. apply Hne. by apply (co_uniq _ _ _ _ Hc j id y x loc). Qed.

Lemma feed_core r G log id x beat : W ∈ widths -> core r G log None -> current r id x ->
  length (rd_data beat) = 64%nat -> rd_last beat = (rr_total_bytes_needed x <=? rr_bytes_received x + W) ->
  exists loc req bs x1 r1 x', rr_nppMsg x = Some loc /\ G !! loc = Some (req, bs) /\
    accumulate W beat x = Ok x1 /\ flushAccum id beat r x1 = Ok (r1, x') /\
    core (set_state id x' r1) (<[loc := (req, bs ++ take (zn W) (rd_data beat))]> G) log (Some id) /\
    current (set_state id x' r1) id x' /\ tr_read (ns_readTracker r1) id = Ok req /\ req_good req /\
    rr_nppMsg x' = Some loc /\ ns_drain r1 = ns_drain r /\ ns_deqEvent r1 = ns_deqEvent r /\
    forall A B, order_ok r A B -> order_ok (set_state id x' r1) A B.
Proof.
  intros HW Hc Hx Hd Hlast. destruct (core_current _ _ _ _ _ _ Hc Hx) as (loc & req & bs & m & Ha & [Hb|[Hop Hcu]]); [done|].
  destruct Ha as [Hl HG Hm Hsh Htg Hfr Hgd Htot Hfl Hby Hrv Hmod Hs16 Hs Hsl Hlg] eqn:EA. clear EA.
  pose proof (rg_size _ Hgd) as HT.
  destruct (feed_ok W id loc beat r x m bs) as (x1 & x' & m' & E1 & E2 & Hsh' & Htg' & Hsm & Hr' & Hby'); try done; [lia|].
  destruct Hsm as (Sa & Sl & Sp & Sf & St & Ss). destruct Hx as (Hid & Hxl & Hxa).
  destruct (feed_facts W x m bs) as (HW1 & Hfit & Hmod' & _); try done; [lia|].
  exists loc, req, bs, x1, (set_msgs (<[loc := m']> (ns_msgs r)) (ns_next_loc r) r), x'.
  assert (Hlen : (zn id < length (ns_state r))%nat) by (rewrite (co_len _ _ _ _ Hc); lia).
  split_and!; try done; [| |congruence|].
  3: { intros A B. apply order_frame; [done| |done]. unfold acts. cbn. by apply (acts_set r id x). }
  2: { split; [done|]. split; [|congruence]. cbn. by rewrite list_lookup_insert_eq. }
  eapply (core_update _ _ G _ log log None (Some id) id loc _ Hc Hid); cbn.
  - apply (co_tracker _ _ _ _ Hc).
  - done.
  - reflexivity.
  - lia.
  - intros l0 Hne. by rewrite !lookup_insert_ne.
  - intros j y. by apply (core_others _ _ _ _ id x loc j y Hc).
  - intros y l0 (_ & Hy & _) E. congruence.
  - done.
  - intros _. split; [congruence|]. split; [|by left]. exists req, (bs ++ take (zn W) (rd_data beat)), m'.
    constructor; cbn; rewrite ?lookup_insert_eq, ?Sf, ?St, ?Ss, ?Sp, ?Hr'; try done; try congruence; lia.
  - intros q bs' _. split; [|by right; congruence]. apply (co_G _ _ _ _ Hc _ _ _ HG).
  - apply (co_log _ _ _ _ Hc).
Qed.

(** ** Draining *)

Definition drain_ok (r : nsuRead) : Prop :=
  let d := ns_drain r in
  exists x req port, current r (nd_axi_id d) x /\ tr_read (ns_readTracker r) (nd_axi_id d) = Ok req /\
    nd_original_req d = Some req /\ nd_oPort d = Some port /\
    nd_slave_finished d = (rr_total_bytes_needed x <=? rr_bytes_received x) /\
    injectable x (nd_slave_finished d) = true.

Definition busy_of (r : nsuRead) : option Z :=
  if nd_valid (ns_drain r) then Some (nd_axi_id (ns_drain r)) else None.

(** The invariant between events: the event is scheduled exactly while a response is
    being drained. *)
Definition read_inv (r : nsuRead) (G : responses) (log : list nflit) : Prop :=
  core r G log (busy_of r) /\
  if nd_valid (ns_drain r) then drain_ok r /\ is_Some (ns_deqEvent r) else ns_deqEvent r = None.

Lemma readAndRemove_other t id j q t' : tr_readAndRemove t id = Ok (q, t') -> j <> id -> tr_read t' j = tr_read t j.
Proof.
  unfold tr_readAndRemove, tr_read. intros E Hne. destruct (axiReads t !! id) as [[|y [|z l]]|]; try done;
    injection E as _ <-; cbn; by rewrite ?lookup_delete_ne, ?lookup_insert_ne by done.
Qed.

(** Waiting keeps everything but the event and the burst counter. *)
Lemma read_inv_wait r G log b t : core r G log (Some (nd_axi_id (ns_drain r))) -> nd_valid (ns_drain r) = true ->
  drain_ok r -> read_inv (set_ns_event (Some t) (set_pace b (ns_flits_total r) (ns_last_inject_tick r) r)) G log.
Proof.
  intros Hc Hv Hd. split; [|cbn; rewrite Hv; split; [exact Hd|by eexists]].
  unfold busy_of. cbn. rewrite Hv. by eapply core_frame; [..|exact Hc].
Qed.

Lemma injectable_true x fin : injectable x fin = true <->
  16 <= rr_bytes_received x - rr_bytes_sent x \/ fin = true /\ rr_bytes_sent x < rr_bytes_received x.
Proof. unfold injectable. rewrite orb_true_iff, andb_true_iff, Z.leb_le, Z.ltb_lt. done. Qed.

(** *** One flit *)

Section Inject.
Context (r r' : nsuRead) (G : responses) (log : list nflit) (id : Z) (x x' : ReadResponseState)
  (loc : Z) (req : nsuReq) (bs : list Z) (m : NocMemoryMsg) (fl : nflit).
Hypothesis Hc : core r G log (Some id).
Hypothesis Hx : current r id x.
Hypothesis Ha : active_resp r G log id x loc req bs m.
Hypothesis Hfl : flit_of req loc (rr_packet_id x) (rr_bytes_sent x / 16) fl.
Hypothesis Hmsgs : ns_msgs r' = alter (set_src_ni m_id) loc (ns_msgs r).
Hypothesis Hnext : ns_next_loc r' = ns_next_loc r.
Hypothesis Hst : ns_state r' = <[zn id := x']> (ns_state r).
Hypothesis Hhave : rr_bytes_received x < rr_total_bytes_needed x -> rr_bytes_sent x + 16 <= rr_bytes_received x.

Lemma inject_log_self : log_of loc (log ++ [fl]) = log_of loc log ++ [fl].
Proof using Hfl.
  destruct Hfl as (_ & E & _). rewrite log_of_app, (log_of_self loc fl); [done|].
  unfold refers. rewrite E. apply Z.eqb_refl.
Qed.
Lemma inject_other l : l <> loc ->
  ns_msgs r' !! l = ns_msgs r !! l /\ G !! l = G !! l /\ log_of l (log ++ [fl]) = log_of l log.
Proof using Hfl Hmsgs.
  intros Hne. rewrite Hmsgs, lookup_alter_ne by done. split_and!; [done|done|].
  destruct Hfl as (_ & E & _). rewrite log_of_app, (log_of_other l fl); [by rewrite app_nil_r|].
  unfold refers. rewrite E. by apply Z.eqb_neq.
Qed.
Lemma inject_bound f l : f ∈ log ++ [fl] -> rf_msg (fl_msg f) = RRef l -> l < ns_next_loc r'.
Proof using Hc Ha Hfl Hnext.
  rewrite Hnext. intros [Hf|Hf]%elem_of_app E; [by apply (co_log _ _ _ _ Hc f)|].
  apply list_elem_of_singleton in Hf as ->. destruct Hfl as (_ & E' & _). assert (l = loc) as -> by congruence.
  apply (co_G _ _ _ _ Hc _ _ _ (ar_G _ _ _ _ _ _ _ _ _ Ha)).
Qed.
Lemma inject_flits n : n = rr_bytes_sent x / 16 + 1 ->
  Forall2 (flit_of req loc (rr_packet_id x)) (seqZ 0 n) (log_of loc (log ++ [fl])).
Proof using Ha Hfl.
  intros ->. pose proof (ar_sent _ _ _ _ _ _ _ _ _ Ha). rewrite inject_log_self.
  assert (0 <= rr_bytes_sent x / 16) by mlia. rewrite seqZ_app by lia.
  apply Forall2_app; [apply (ar_log _ _ _ _ _ _ _ _ _ Ha)|]. by apply Forall2_cons; split; [|constructor].
Qed.
Lemma inject_msg : ns_msgs r' !! loc = Some (set_src_ni m_id m).
Proof using Ha Hmsgs. by rewrite Hmsgs, lookup_alter_eq, (ar_m _ _ _ _ _ _ _ _ _ Ha). Qed.

Lemma inject_more busy' : ns_readTracker r' = ns_readTracker r ->
  x' = set_progress (rr_active x) (u16 (rr_bytes_sent x + 16)) (rr_auto_per_flit_gap x) x ->
  rr_bytes_sent x + 16 < rr_total_bytes_needed x -> busy' = Some id \/ caught_up x' ->
  core r' G (log ++ [fl]) busy'.
Proof using Hc Hx Ha Hfl Hmsgs Hnext Hst Hhave.
  intros Ht Hx' Hmore Hb. pose proof (ar_good _ _ _ _ _ _ _ _ _ Ha) as Hg. pose proof (rg_size _ Hg).
  destruct Ha as [Hl HG Hm Hsh Htg Hfr Hgd Htot Hfn Hby Hrv Hmod Hs16 Hs Hsl Hlg] eqn:EA. clear EA.
  assert (u16 (rr_bytes_sent x + 16) = rr_bytes_sent x + 16) as E16 by (apply u16_small; lia).
  destruct Hx as (Hid & Hxl & Hxa) eqn:EX. clear EX.
  eapply (core_update r r' G G log (log ++ [fl]) (Some id) busy' id loc x' Hc Hid);
    [|by intros; rewrite Ht|done|lia|exact inject_other| | |by intros j y Hj _ [= ->]| | |exact inject_bound].
  - rewrite Ht. apply (co_tracker _ _ _ _ Hc).
  - intros j y. by apply (core_others _ _ _ _ id x loc j y Hc Hx).
  - intros y l0 (_ & Hy & _) E. congruence.
  - intros _. split; [by rewrite Hx'|]. split; [|done]. exists req, bs, (set_src_ni m_id m).
    rewrite Hx'. constructor; cbn; rewrite ?E16; try done; try lia; [exact inject_msg|by rewrite Ht| | |].
    + destruct Hby. by constructor.
    + mlia.
    + apply inject_flits. mlia.
  - intros q bs' _. split; [rewrite Hnext; apply (co_G _ _ _ _ Hc _ _ _ HG)|right; by rewrite Hx'].
Qed.

Lemma inject_last q t : tr_readAndRemove (ns_readTracker r) id = Ok (q, t) -> ns_readTracker r' = t ->
  rr_active x' = false -> rr_total_bytes_needed x <= rr_bytes_sent x + 16 ->
  core r' G (log ++ [fl]) None.
Proof using Hc Hx Ha Hfl Hmsgs Hnext Hst Hhave.
  intros Hrm Ht Hx' Hlast. pose proof (ar_good _ _ _ _ _ _ _ _ _ Ha) as Hg. pose proof (rg_size _ Hg).
  destruct Ha as [Hl HG Hm Hsh Htg Hfr Hgd Htot Hfn Hby Hrv Hmod Hs16 Hs Hsl Hlg] eqn:EA. clear EA.
  destruct Hx as (Hid & Hxl & Hxa) eqn:EX. clear EX.
  eapply (core_update r r' G G log (log ++ [fl]) (Some id) None id loc x' Hc Hid);
    [| |done|lia|exact inject_other| | |by intros j y Hj _ [= ->]| | |exact inject_bound].
  - destruct (co_tracker _ _ _ _ Hc) as (l & Hl0 & Hgl). rewrite Ht.
    pose proof (tracks_take _ l id Hl0) as Hk. destruct (take_first id l) as [[z l']|] eqn:Ez.
    + destruct Hk as (t' & E & Ht'). rewrite Hrm in E. injection E as _ <-. exists l'. split; [done|].
      pose proof (take_first_spec id l) as Hsp. rewrite Ez in Hsp. destruct Hsp as (l1 & l2 & -> & -> & _).
      apply Forall_app in Hgl as [? Hgl]. apply Forall_cons in Hgl as [_ ?]. by apply Forall_app.
    + by rewrite Hrm in Hk.
  - intros j y Hj _. rewrite Ht. by apply (readAndRemove_other _ id _ q).
  - intros j y. by apply (core_others _ _ _ _ id x loc j y Hc Hx).
  - intros y l0 (_ & Hy & _) E. congruence.
  - congruence.
  - intros q' bs' E. assert (q' = req /\ bs' = bs) as [-> ->] by (split; congruence).
    split; [rewrite Hnext; apply (co_G _ _ _ _ Hc _ _ _ HG)|left].
    exists (set_src_ni m_id m), (rr_packet_id x). split_and!; try done; [exact inject_msg|..].
    + rewrite (rb_len _ _ _ Hby), <- Htot. lia.
    + intros j Hj. rewrite <- Htot in Hj. pose proof (rb_done _ _ _ Hby ltac:(lia)).
      apply (rb_msg _ _ _ Hby); lia.
    + apply inject_flits. unfold nflits_of. rewrite <- Htot. mlia.
Qed.
End Inject.

(** The flit [dequeueIntermediate] builds for a response. *)
Lemma drain_flit r G log id x loc req bs m route vc t tag : active_resp r G log id x loc req bs m ->
  rt_dest_ni route = mm_src_ni (nq_msg req) -> mm_rrob_tags m !! zn (u8 (rr_bytes_sent x / 16 / 2)) = Some tag ->
  flit_of req loc (rr_packet_id x) (rr_bytes_sent x / 16)
    (new_headtail_flit (rr_packet_id x) (rr_bytes_sent x / 16) vc R_VNET route (rr_num_flits x)
       (mk_respFlit (RRef loc) t tag (rr_bytes_sent x / 16 mod 2))).
Proof.
  intros Ha Hr Ht. pose proof (ar_sent _ _ _ _ _ _ _ _ _ Ha). pose proof (rg_size _ (ar_good _ _ _ _ _ _ _ _ _ Ha)).
  pose proof (ar_total _ _ _ _ _ _ _ _ _ Ha).
  rewrite (ar_tags _ _ _ _ _ _ _ _ _ Ha), u8_small in Ht by mlia.
  split_and!; try done. apply (ar_flits _ _ _ _ _ _ _ _ _ Ha).
Qed.
Lemma drain_tag r G log id x loc req bs m : active_resp r G log id x loc req bs m ->
  exists tag, mm_rrob_tags m !! zn (u8 (rr_bytes_sent x / 16 / 2)) = Some tag.
Proof.
  intros Ha. pose proof (ar_sent _ _ _ _ _ _ _ _ _ Ha). pose proof (ar_good _ _ _ _ _ _ _ _ _ Ha) as Hg.
  pose proof (rg_size _ Hg). pose proof (ar_total _ _ _ _ _ _ _ _ _ Ha).
  apply lookup_lt_is_Some. rewrite (ar_tags _ _ _ _ _ _ _ _ _ Ha), (rg_tags _ Hg), u8_small by mlia. mlia.
Qed.

(** What follows an injected flit. *)
Lemma after_ok now s r0 G log id x loc req bs m fl x' port :
  let r := ns_read s in let d := ns_drain r in
  core r0 G log (Some id) -> current r0 id x -> active_resp r0 G log id x loc req bs m ->
  flit_of req loc (rr_packet_id x) (rr_bytes_sent x / 16) fl ->
  x' = set_progress (rr_active x) (u16 (rr_bytes_sent x + 16)) (rr_auto_per_flit_gap x) x ->
  ns_msgs r = alter (set_src_ni m_id) loc (ns_msgs r0) -> ns_next_loc r = ns_next_loc r0 ->
  ns_state r = <[zn id := x']> (ns_state r0) -> ns_readTracker r = ns_readTracker r0 ->
  nd_valid d = true -> nd_axi_id d = id -> nd_original_req d = Some req -> nd_oPort d = Some port ->
  nd_slave_finished d = (rr_total_bytes_needed x <=? rr_bytes_received x) ->
  injectable x (nd_slave_finished d) = true -> ns_deqEvent r = None ->
  exists s', afterFlit period now s x' = Ok s' /\ read_inv (ns_read s') G (log ++ [fl]) /\
    forall A B, order_ok r0 A B -> order_ok (ns_read s') A B.
Proof.
  cbv zeta. intros Hc Hx Ha Hfl Hx' Hms Hnx Hst Htr Hv Hid Hrq Hpo Hfin Hin Hev.
  pose proof (ar_sent _ _ _ _ _ _ _ _ _ Ha) as Hs. pose proof (rg_size _ (ar_good _ _ _ _ _ _ _ _ _ Ha)).
  pose proof (ar_total _ _ _ _ _ _ _ _ _ Ha). pose proof (ar_front _ _ _ _ _ _ _ _ _ Ha) as Hfr.
  assert (u16 (rr_bytes_sent x + 16) = rr_bytes_sent x + 16) as E16 by (apply u16_small; lia).
  assert (Hhave : rr_bytes_received x < rr_total_bytes_needed x -> rr_bytes_sent x + 16 <= rr_bytes_received x).
  { intros Hl. apply injectable_true in Hin as [Hin|[Hf _]]; [lia|]. rewrite Hfin in Hf. bool_hyps. lia. }
  destruct s as [r w np q ar aw wb rdy]. cbn [ns_read] in *. unfold afterFlit. cbn [ns_read set_ns_read].
  rewrite Hid. destruct Hx as (Hidr & Hxl & Hxa) eqn:EX. clear EX.
  assert (Hcur : current r id x').
  { split; [done|]. split; [|by rewrite Hx']. rewrite Hst. apply list_lookup_insert_eq.
    rewrite (co_len _ _ _ _ Hc). lia. }
  replace (rr_total_bytes_needed x') with (rr_total_bytes_needed x) by (by rewrite Hx').
  replace (rr_bytes_sent x') with (rr_bytes_sent x + 16) by (rewrite Hx'; cbn; lia).
  destruct (Z.leb_spec (rr_total_bytes_needed x) (rr_bytes_sent x + 16)) as [Hlast|Hmore].
  - destruct (co_tracker _ _ _ _ Hc) as (l & Hl & _). pose proof (tracks_take _ l id Hl) as Hk.
    rewrite (tracks_read _ _ id Hl) in Hfr. destruct (take_first id l) as [[z l']|]; [|done].
    destruct Hk as (t & Hrm & _). rewrite Htr, Hrm. cbn [rbind]. eexists. split; [reflexivity|].
    cbn [ns_read set_ns_read]. assert (Hst' : <[zn id := set_progress false (rr_bytes_sent x + 16)
      (rr_auto_per_flit_gap x') x']> (ns_state r) = <[zn id := set_progress false (rr_bytes_sent x + 16)
      (rr_auto_per_flit_gap x') x']> (ns_state r0)) by (by rewrite Hst, list_insert_insert_eq).
    split; [|intros A B Hab; 
      eapply (order_finish r0 _ A B id x _ z Hab); [lia|done|done|exact Hrm|exact Hnx|exact Hst'|done]].
    split; [|done]. unfold busy_of. cbn [ns_drain set_ns_drain nd_valid set_nd_valid].
    eapply (inject_last r0 _ G log id x _ loc req bs m fl Hc Hx Ha Hfl);
      [exact Hms|exact Hnx|exact Hst'|exact Hhave|exact Hrm|done|done|exact Hlast].
  - assert (Hcr : forall b, b = Some id \/ caught_up x' -> core r G (log ++ [fl]) b).
    { intros b Hb. by eapply (inject_more r0 r G log id x x' loc req bs m fl). }
    assert (Hor : forall A B, order_ok r0 A B -> order_ok r A B).
    { intros A B. apply order_frame; [done| |done]. unfold acts. rewrite Hst. apply (acts_set _ _ x); [done|by rewrite Hx']. }
    destruct (injectable x' (nd_slave_finished (ns_drain r))) eqn:Hinj.
    + unfold nsu_schedule. rewrite Hev. cbn [rbind]. eexists. split; [reflexivity|]. cbn [ns_read set_ns_read].
      split; [|exact Hor]. split; [|cbn; rewrite Hv; split; [|by eexists]].
      * unfold busy_of. cbn. rewrite Hv, Hid. eapply core_frame; [..|apply Hcr; by left]; done.
      * exists x', req, port. cbn. rewrite Hid. split_and!; try done; [by rewrite Htr|by rewrite Hx'].
    + eexists. split; [reflexivity|]. cbn [ns_read set_ns_read]. split; [|exact Hor]. split; [|done].
      unfold busy_of. cbn [ns_drain set_ns_drain nd_valid set_nd_valid].
      eapply core_frame; [..|apply Hcr; right]; try done. unfold injectable in Hinj.
      apply orb_false_iff in Hinj as [H1 H2]. rewrite Hfin in H2. rewrite Hx' in *. unfold caught_up. cbn in *.
      rewrite E16 in *. bool_hyps. destruct (Z.leb_spec (rr_total_bytes_needed x) (rr_bytes_received x)); bool_hyps; lia.
Qed.

Lemma dequeue_ok now s G log :
  let r := ns_read s in
  core r G log (Some (nd_axi_id (ns_drain r))) -> nd_valid (ns_drain r) = true -> drain_ok r ->
  ns_deqEvent r = None ->
  exists s' fls, nsu_dequeueIntermediate m_id period gap_cycles per_flit_gap_cycles now s = Ok (s', fls) /\
    read_inv (ns_read s') G (log ++ fls) /\ forall A B, order_ok r A B -> order_ok (ns_read s') A B.
Proof.
  cbv zeta. intros Hc Hv Hd Hev. destruct Hd as (x & req & port & Hx & Hfr & Hrq & Hpo & Hfin & Hin) eqn:ED. clear ED.
  destruct (core_current _ _ _ _ _ _ Hc Hx) as (loc & req' & bs & m & Ha & _).
  assert (req' = req) as -> by (pose proof (ar_front _ _ _ _ _ _ _ _ _ Ha); congruence).
  unfold nsu_dequeueIntermediate. rewrite Hv. cbn [negb]. destruct Hx as (Hid & Hxl & Hxa) eqn:EX. clear EX.
  rewrite Hxl. cbn [of_opt rbind]. rewrite Hpo. cbn [of_opt rbind]. rewrite Hin, Hrq. cbn [of_opt rbind].
  set (b := cooled_burst period now (ns_read s)). cbn [ns_flits_total ns_last_inject_tick set_pace ns_msgs].
  unfold nsu_schedule. cbn [ns_deqEvent set_pace]. rewrite Hev.
  destruct (now <? _) eqn:Ew.
  { cbn [rbind]. eexists _, []. split; [reflexivity|]. rewrite app_nil_r. split; [by apply read_inv_wait|done]. }
  rewrite (ar_loc _ _ _ _ _ _ _ _ _ Ha). cbn [of_opt rbind]. rewrite (ar_m _ _ _ _ _ _ _ _ _ Ha). cbn [of_opt rbind].
  destruct (drain_tag _ _ _ _ _ _ _ _ _ Ha) as [tag Ht]. rewrite Ht. cbn [of_opt rbind].
  match goal with |- context [injectFlit ?q ?f ?v] => set (fl := f); destruct (injectFlit q fl v) as [q'|] end.
  2: { cbn [rbind]. eexists _, []. split; [reflexivity|]. rewrite app_nil_r. split; [by apply read_inv_wait|done]. }
  match goal with |- context [afterFlit period now ?s1 ?x1] =>
    destruct (after_ok now s1 (ns_read s) G log (nd_axi_id (ns_drain (ns_read s))) x loc req bs m fl x1 port)
      as (s' & E & Hi); try done end.
  - by apply (drain_flit _ _ _ _ _ _ _ _ _ _ _ _ _ Ha).
  - rewrite E. cbn [rbind]. by exists s', [fl].
Qed.

Lemma core_idle r G log id : core r G log (Some id) ->
  (forall x, current r id x -> caught_up x) -> core r G log None.
Proof.
  intros [H1 H2 H3 H4 H5 H6] Hid. constructor; try done. intros j x Hx. destruct (H3 j x Hx) as [Ha Hb].
  split; [done|]. right. destruct Hb as [[= ->]|Hb]; [by apply Hid|done].
Qed.

(** The drain entry and the pacing flag of a response are no part of it. *)
Lemma core_pace r G log id x d b : core r G log (Some id) -> current r id x ->
  core (set_state id (set_progress (rr_active x) (rr_bytes_sent x) b x) (set_ns_drain d r)) G log (Some id).
Proof.
  intros Hc Hx. destruct (core_current _ _ _ _ _ _ Hc Hx) as (loc & req & bs & m & Ha & _).
  destruct Ha as [Hl HG Hm Hsh Htg Hfr Hgd Htot Hfn Hby Hrv Hmod Hs16 Hs Hsl Hlg].
  destruct Hx as (Hid & Hxl & Hxa) eqn:EX. clear EX.
  eapply (core_update r _ G G log log (Some id) (Some id) id loc _ Hc Hid);
    [apply (co_tracker _ _ _ _ Hc)|done|reflexivity|cbn; lia|done| | |done| | |apply (co_log _ _ _ _ Hc)].
  - intros j y. by apply (core_others _ _ _ _ id x loc j y Hc Hx).
  - intros y l0 (_ & Hy & _) E. congruence.
  - intros _. split; [done|]. split; [|by left]. exists req, bs, m. constructor; cbn; try done.
    destruct Hby. by constructor.
  - intros q bs' _. split; [apply (co_G _ _ _ _ Hc _ _ _ HG)|by right].
Qed.

End ReadSide.
