(* ===== verification/MmNsuRun.v ===== *)
(** * The operations of the AXI-MM slave unit

    [MmNsuRead] follows one response through the read side; here are whole runs of
    [mmNocSlaveUnit]: flits from the network, messages of the endpoint, the fired event,
    and what the network and the endpoint take from the queues.  The invariant holds
    throughout every run whose endpoint sends the beats its requests ask for. *)
From stdpp Require Import base gmap list list_numbers fin_maps sets strings.
From Stdlib Require Import ZArith Lia.
From S2P Require Import Prelude AxiTypes MmWriteBuffer Flit MmDepack SNmu MsgBuffer MmNmu ReqTracker MmNsu MmNsuRead.
Open Scope Z_scope.

Section Run.
Context (m_route_to_vc_map : gmap (Z * Z * Z) Z) (m_num_aximm_nmu : Z) (oport : Z -> option Z)
  (m_id period : Z) (bufCfg : mbCfg) (W : Z) (gap_cycles per_flit_gap_cycles : Z).

Local Abbreviation core := (core m_route_to_vc_map m_id W).
Local Abbreviation read_inv := (read_inv m_route_to_vc_map m_id W).
Local Abbreviation req_good := (req_good m_route_to_vc_map m_id).

(** ** Beats *)

(** The size of the response an ID waits for, and the bytes of it received. *)
Definition awaited (r : nsuRead) (id : Z) : option (Z * Z) :=
  match ns_state r !! zn id, tr_read (ns_readTracker r) id with
  | Some x, Ok req => Some (if rr_active x then (rr_total_bytes_needed x, rr_bytes_received x) else (T_of req, 0))
  | _, _ => None
  end.

(** A beat the endpoint may send: it belongs to an outstanding read, and is marked last
    exactly when it completes this read. *)
Definition beat_fits (r : nsuRead) (beat : aximmRWData) : Prop :=
  0 <= rd_id beat < 4 /\ length (rd_data beat) = 64%nat /\
  exists total got, awaited r (rd_id beat) = Some (total, got) /\ rd_last beat = (total <=? got + W).

(** The response a beat extends, and the responses after the beat. *)
Definition target (r : nsuRead) (G : responses) (id : Z) : option (Z * nsuReq * list Z) :=
  match ns_state r !! zn id, tr_read (ns_readTracker r) id with
  | Some x, Ok req =>
      if rr_active x then
        match rr_nppMsg x with
        | Some loc => match G !! loc with Some (q, bs) => Some (loc, q, bs) | None => None end
        | None => None
        end
      else Some (ns_next_loc r, req, [])
  | _, _ => None
  end.
Definition received (r : nsuRead) (G : responses) (beat : aximmRWData) : responses :=
  match target r G (rd_id beat) with
  | Some (loc, req, bs) => <[loc := (req, bs ++ take (zn W) (rd_data beat))]> G
  | None => G
  end.
(** The request of the response the beat begins, if it begins one. *)
Definition begins (r : nsuRead) (beat : aximmRWData) : list nsuReq :=
  match ns_state r !! zn (rd_id beat), tr_read (ns_readTracker r) (rd_id beat) with
  | Some x, Ok req => if rr_active x then [] else [req]
  | _, _ => []
  end.

(** The end of [flitisizeReadResponse], after the beat was stored. *)
Lemma send_ok now s r G log id x req port vnet : core r G log (Some id) -> current r id x ->
  tr_read (ns_readTracker r) id = Ok req -> ns_deqEvent r = None -> nd_valid (ns_drain r) = false ->
  exists s' fls,
    (let* original_req := tr_read (ns_readTracker r) id in
     let* vc := getPathVC m_route_to_vc_map m_id (mm_src_ni (nq_msg original_req)) 2 in
     let slave_finished := rr_total_bytes_needed x <=? rr_bytes_received x in
     if injectable x slave_finished then
       let d := mk_nsuDrain true id vnet (Some port) vc slave_finished (Some original_req) in
       let auto := readResponsesUseMultipleVCs m_route_to_vc_map m_num_aximm_nmu m_id in
       let r := set_state id (set_progress (rr_active x) (rr_bytes_sent x) auto x) (set_ns_drain d r) in
       guard (bool_decide (ns_deqEvent r = None))
         (FPanic "mmNocSlaveUnit::flitisizeReadResponse: dequeueIntermediateEvent already scheduled") (
       let* (s, fls) := nsu_dequeueIntermediate m_id period gap_cycles per_flit_gap_cycles now (set_ns_read r s) in
       Ok (true, s, fls))
     else if rr_total_bytes_needed x <=? rr_bytes_sent x then
       let* (_, t) := tr_readAndRemove (ns_readTracker r) id in
       let r := set_state id (set_progress false (rr_bytes_sent x) (rr_auto_per_flit_gap x) x)
                  (set_read_tracker t r) in
       Ok (true, set_ns_read r s, [])
     else Ok (true, set_ns_read r s, [])) = Ok (true, s', fls) /\
    read_inv (ns_read s') G (log ++ fls) /\ forall A B, order_ok r A B -> order_ok (ns_read s') A B.
Proof.
  intros Hc Hx Hr Hev Hv. destruct (core_current _ _ _ _ _ _ _ _ _ Hc Hx) as (loc & req' & bs & m & Ha & _).
  pose proof (ar_front _ _ _ _ _ _ _ _ _ _ _ _ Ha) as Hfr. rewrite Hr in Hfr. injection Hfr as <-.
  pose proof (ar_sent _ _ _ _ _ _ _ _ _ _ _ _ Ha) as Hs. destruct (rg_route _ _ _ (ar_good _ _ _ _ _ _ _ _ _ _ _ _ Ha)) as [vc Hvc].
  rewrite Hr. cbn [rbind]. unfold getPathVC. rewrite Hvc. cbn [of_opt rbind]. cbv zeta.
  set (fin := rr_total_bytes_needed x <=? rr_bytes_received x).
  destruct (injectable x fin) eqn:Hin.
  - cbn [ns_deqEvent set_state set_ns_drain]. rewrite bool_decide_eq_true_2 by done. cbn [guard].
    destruct Hx as (Hid & Hxl & Hxa) eqn:EX. clear EX.
    match goal with |- context [nsu_dequeueIntermediate _ _ _ _ now (set_ns_read ?r3 s)] =>
      destruct (dequeue_ok m_route_to_vc_map m_id period W gap_cycles per_flit_gap_cycles now (set_ns_read r3 s) G log)
        as (s' & fls & E & Hi & Ho) end; [by apply core_pace|done| |done|].
    + exists (set_progress (rr_active x) (rr_bytes_sent x)
        (readResponsesUseMultipleVCs m_route_to_vc_map m_num_aximm_nmu m_id) x), req, port.
      split; [split; [done|split; [|exact Hxa]]|by split_and!].
      cbn. by rewrite list_lookup_insert_eq by (rewrite (co_len _ _ _ _ _ _ _ Hc); lia).
    + rewrite E. cbn [rbind]. exists s', fls. split; [done|]. split; [done|]. intros A B Hab. apply Ho.
      eapply order_frame; [..|exact Hab]; [done|unfold acts at 1; cbn; by apply (acts_set r id x)|done].
  - destruct (Z.leb_spec (rr_total_bytes_needed x) (rr_bytes_sent x)) as [?|_]; [lia|].
    eexists _, []. split; [reflexivity|]. rewrite app_nil_r. cbn [ns_read set_ns_read]. split; [|done].
    unfold MmNsuRead.read_inv, busy_of. rewrite Hv. split; [|done]. apply (core_idle _ _ _ _ _ _ id Hc).
    intros y (_ & Hy & _). destruct Hx as (_ & Hxl & _). assert (y = x) as -> by congruence.
    unfold injectable in Hin. apply orb_false_iff in Hin as [H1 H2]. unfold caught_up. subst fin.
    bool_hyps. destruct (Z.leb_spec (rr_total_bytes_needed x) (rr_bytes_received x)); bool_hyps; lia.
Qed.

(** A beat of a response that was begun. *)
Lemma feed_send_ok now s G log beat x port vnet : W ∈ widths -> core (ns_read s) G log None ->
  let id := rd_id beat in current (ns_read s) id x -> length (rd_data beat) = 64%nat ->
  rd_last beat = (rr_total_bytes_needed x <=? rr_bytes_received x + W) ->
  ns_deqEvent (ns_read s) = None -> nd_valid (ns_drain (ns_read s)) = false ->
  exists loc req bs s' fls, rr_nppMsg x = Some loc /\ G !! loc = Some (req, bs) /\
    (let* x := accumulate W beat x in
     let* (r, x) := flushAccum id beat (ns_read s) x in
     let r := set_state id x r in
     let* original_req := tr_read (ns_readTracker r) id in
     let* vc := getPathVC m_route_to_vc_map m_id (mm_src_ni (nq_msg original_req)) 2 in
     let slave_finished := rr_total_bytes_needed x <=? rr_bytes_received x in
     if injectable x slave_finished then
       let d := mk_nsuDrain true id vnet (Some port) vc slave_finished (Some original_req) in
       let auto := readResponsesUseMultipleVCs m_route_to_vc_map m_num_aximm_nmu m_id in
       let r := set_state id (set_progress (rr_active x) (rr_bytes_sent x) auto x) (set_ns_drain d r) in
       guard (bool_decide (ns_deqEvent r = None))
         (FPanic "mmNocSlaveUnit::flitisizeReadResponse: dequeueIntermediateEvent already scheduled") (
       let* (s, fls) := nsu_dequeueIntermediate m_id period gap_cycles per_flit_gap_cycles now (set_ns_read r s) in
       Ok (true, s, fls))
     else if rr_total_bytes_needed x <=? rr_bytes_sent x then
       let* (_, t) := tr_readAndRemove (ns_readTracker r) id in
       let r := set_state id (set_progress false (rr_bytes_sent x) (rr_auto_per_flit_gap x) x)
                  (set_read_tracker t r) in
       Ok (true, set_ns_read r s, [])
     else Ok (true, set_ns_read r s, [])) = Ok (true, s', fls) /\
    read_inv (ns_read s') (<[loc := (req, bs ++ take (zn W) (rd_data beat))]> G) (log ++ fls) /\
    forall A B, order_ok (ns_read s) A B -> order_ok (ns_read s') A B.
Proof.
  cbv zeta. intros HW Hc Hx Hd Hlast Hev Hv. set (id := rd_id beat) in *.
  destruct (feed_core _ _ _ _ _ _ _ _ _ HW Hc Hx Hd Hlast)
    as (loc & req & bs & x1 & r1 & x' & Hl & HG & E1 & E2 & Hc' & Hx' & Hr & Hg & Hl' & Hd1 & He1 & Hf).
  destruct (send_ok now s (set_state id x' r1) _ log id x' req port vnet Hc' Hx')
    as (s' & fls & E & Hi & Ho); [exact Hr|cbn; congruence|cbn; congruence|].
  exists loc, req, bs, s', fls. split; [done|]. split; [done|]. rewrite E1. cbn [rbind]. rewrite E2. cbn [rbind].
  split; [exact E|]. split; [done|]. intros A B Hab. by apply Ho, Hf.
Qed.

Lemma indexed_insert G B loc req bs : indexed G B -> 0 <= loc -> B !! zn loc = Some req ->
  indexed (<[loc := (req, bs)]> G) B.
Proof.
  intros Hi Hl HB l q bs' E. destruct (decide (l = loc)) as [-> |Hne].
  - rewrite lookup_insert_eq in E. injection E as <- <-. done.
  - rewrite lookup_insert_ne in E by done. by apply (Hi _ _ bs').
Qed.
Lemma indexed_app G B q : indexed G B -> indexed G (B ++ [q]).
Proof. intros Hi l q' bs E. destruct (Hi l q' bs E) as [H1 H2]. split; [done|]. by apply lookup_app_l_Some. Qed.

(** A beat that begins a response needs a packet number. *)
Definition numbered (s : mmNsu) (beat : aximmRWData) : Prop :=
  nd_valid (ns_drain (ns_read s)) = true \/ begins (ns_read s) beat = [] \/ ns_next_packet_id s + 1 < 2 ^ 31.

Lemma beat_numbered now s beat port vnet x :
  flitisizeReadResponse m_route_to_vc_map m_num_aximm_nmu m_id period W gap_cycles per_flit_gap_cycles
    now s beat port vnet = Ok x -> numbered s beat.
Proof.
  unfold flitisizeReadResponse, numbered, begins. destruct (nd_valid _); [by left|]. intros [_ E]%guard_Ok. right.
  apply rbind_Ok in E as (y & Hy%of_opt_Ok & E). rewrite Hy. destruct (rr_active y); [left; by case_match|].
  apply rbind_Ok in E as (s1 & E & _). unfold startResponse in E. apply rbind_Ok in E as (q & -> & E).
  apply rbind_Ok in E as (a & _ & E). apply rbind_Ok in E as ([p n] & Hp & _). apply getNextPacketID_Ok in Hp as (_ & _ & Hp). by right.
Qed.

(** Every beat is taken when no response is being drained, and refused otherwise. *)
Lemma beat_ok now s G log A B beat port vnet :
  let r := ns_read s in
  W ∈ widths -> read_inv r G log -> order_ok r A B -> indexed G B -> beat_fits r beat -> numbered s beat ->
  exists s' fls,
    flitisizeReadResponse m_route_to_vc_map m_num_aximm_nmu m_id period W gap_cycles per_flit_gap_cycles
      now s beat port vnet = Ok (negb (nd_valid (ns_drain r)), s', fls) /\
    (if nd_valid (ns_drain r) then s' = s /\ fls = [] else
     read_inv (ns_read s') (received r G beat) (log ++ fls) /\
     order_ok (ns_read s') A (B ++ begins r beat) /\ indexed (received r G beat) (B ++ begins r beat)).
Proof.
  cbv zeta. intros HW [Hc Hb] Ho Hi (Hid & Hlen & total & got & Haw & Hlast) Hnum. unfold flitisizeReadResponse.
  unfold busy_of in Hc. destruct (nd_valid (ns_drain (ns_read s))) eqn:Hv; [by eexists _, _|].
  rewrite (proj2 (Z.ltb_lt _ _)) by (unfold NUM_SUPPORTED_AXI_IDS; lia). cbn [guard].
  unfold numbered in Hnum. rewrite Hv in Hnum. unfold received, begins, target, awaited in *.
  destruct (ns_state (ns_read s) !! zn (rd_id beat)) as [x|] eqn:Hx; [|done]. cbn [of_opt rbind].
  destruct (tr_read (ns_readTracker (ns_read s)) (rd_id beat)) as [req|] eqn:Hr; [|done].
  destruct (rr_active x) eqn:Hxa; injection Haw as <- <-.
  - cbn [rbind]. rewrite Hx. cbn [of_opt rbind].
    destruct (feed_send_ok now s G log beat x port vnet) as (loc & q & bs & s' & fls & Hl & HG & E & Hr' & Ho'); try done.
    rewrite Hl, HG. exists s', fls. split; [exact E|]. split; [done|]. rewrite app_nil_r.
    split; [by apply Ho'|]. destruct (Hi _ _ _ HG). by apply indexed_insert.
  - destruct (start_ok m_route_to_vc_map m_id W s G log (rd_id beat) x beat req) as (s1 & x1 & E1 & Hc1 & Hx1 & Hl1 & Ht1 & Hg1 & Hd1 & He1 & Ho1); try done.
    { rewrite ?Hx, ?Hxa, ?Hr in Hnum. by destruct Hnum as [?|[?|?]]. }
    rewrite E1. cbn [rbind]. rewrite (proj1 (proj2 Hx1)). cbn [of_opt rbind].
    destruct (feed_send_ok now s1 _ log beat x1 port vnet HW Hc1) as (loc & q & bs & s' & fls & Hl & HG & E & Hr' & Ho');
      [done|done|by rewrite Ht1, Hg1|congruence|congruence|].
    rewrite Hl1 in Hl. injection Hl as <-. rewrite lookup_insert_eq in HG. injection HG as <- <-.
    rewrite insert_insert_eq in Hr'. exists s', fls. split; [exact E|]. split; [done|].
    split; [by apply Ho', Ho1|]. destruct Ho as [Hn _].
    apply indexed_insert; [by apply indexed_app|lia|]. rewrite lookup_app_r by lia.
    by replace (zn (ns_next_loc (ns_read s)) - length B)%nat with 0%nat by lia.
Qed.

(** ** Requests *)

Lemma add_read t l r t' id q : tracks t l -> is_Some (req_addr r) -> tr_add t r = Ok (true, t') ->
  tracks t' (l ++ [r]) /\ (tr_read t id = Ok q -> tr_read t' id = Ok q /\ of_id id l <> []).
Proof.
  intros Ht Hr E. destruct (tracks_add t l r Ht Hr) as (b & t1 & E1 & _ & Ht1). rewrite E in E1.
  injection E1 as <- <-. split; [done|]. unfold tr_read. rewrite (tk_queue _ _ Ht), (tk_queue _ _ Ht1), of_id_app.
  by destruct (of_id id l) as [|z l'].
Qed.

Lemma request_ok r G log A B req t : read_inv r G log -> order_ok r A B -> req_good req ->
  tr_add (ns_readTracker r) req = Ok (true, t) ->
  read_inv (set_read_tracker t r) G log /\ order_ok (set_read_tracker t r) (A ++ [req]) B.
Proof.
  intros [Hc Hb] (Hn & l & Hl & Ho) Hg Ea. pose proof (rg_addr _ _ _ Hg) as Had.
  assert (Hrd : forall id q, tr_read (ns_readTracker r) id = Ok q -> tr_read t id = Ok q)
    
    by (intros id q E; exact (proj1 (proj2 (add_read _ l req t id q Hl Had Ea) E))).
  destruct (co_tracker _ _ _ _ _ _ _ Hc) as (l0 & Hl0 & Hg0).
  split; [split|].
  - unfold busy_of. cbn [ns_drain set_read_tracker]. destruct Hc as [_ H2 H3 H4 H5 H6].
    constructor; try done; [exists (l0 ++ [req]); split|].
    + exact (proj1 (add_read _ l0 req t 0 req Hl0 Had Ea)).
    + apply Forall_app. split; [done|by apply Forall_singleton].
    + intros id x Hx. destruct (H3 id x Hx) as [(loc & q & bs & m & [? ? ? ? ? ? ? ? ? ? ? ? ? ? ? ?]) Hbz].
      split; [|done]. exists loc, q, bs, m. constructor; try done. cbn. by apply Hrd.
  - cbn [ns_drain ns_deqEvent set_read_tracker]. destruct (nd_valid (ns_drain r)); [|done].
    destruct Hb as [(x & q & port & ? & ? & ?) He]. split; [|done]. exists x, q, port. split; [done|]. split; [|done].
    cbn. by apply Hrd.
  - split; [done|]. exists (l ++ [req]). split; [exact (proj1 (add_read _ l req t 0 req Hl Had Ea))|].
    intros id Hid. rewrite !of_id_app, (Ho id Hid), <- app_assoc. f_equal. unfold acts. cbn [ns_state set_read_tracker].
    fold (acts r). destruct (acts r !! zn id) as [[|]|] eqn:Ez; cbn [default]; [|done..].
    unfold acts in Ez. rewrite list_lookup_fmap in Ez. destruct (ns_state r !! zn id) as [x|] eqn:Ex; [|done].
    injection Ez as Ez. apply lookup_lt_Some in Ex as Hlt. rewrite (co_len _ _ _ _ _ _ _ Hc) in Hlt.
    destruct (core_current _ _ _ _ _ _ _ id x Hc) as (loc & q & bs & m & Ha & _); [split; [lia|done]|].
    destruct (add_read _ l req t id q Hl Had Ea) as [_ Hne].
    destruct (Hne (ar_front _ _ _ _ _ _ _ _ _ _ _ _ Ha)) as [_ Hne']. by destruct (of_id id l).
Qed.

(** ** Flits that carry no read response *)

Lemma read_inv_log r G log fls : (forall f loc, f ∈ fls -> rf_msg (fl_msg f) <> RRef loc) ->
  read_inv r G log -> read_inv r G (log ++ fls).
Proof.
  intros Hf [Hc Hb]. split; [|done].
  assert (Hlog : forall loc, log_of loc (log ++ fls) = log_of loc log).
  { intros loc. rewrite log_of_app. unfold log_of at 2. rewrite filter_none; [by rewrite app_nil_r|].
    intros f Hin Hr. unfold refers in Hr. destruct (rf_msg (fl_msg f)) as [l|] eqn:E; [|done]. by apply (Hf f l). }
  destruct Hc as [H1 H2 H3 H4 H5 H6]. constructor; try done.
  - intros id x Hx. destruct (H3 id x Hx) as [(loc & q & bs & m & [? ? ? ? ? ? ? ? ? ? ? ? ? ? ? ?]) Hbz].
    split; [|done]. exists loc, q, bs, m. constructor; try done. by rewrite Hlog.
  - intros loc req bs HG. destruct (H4 loc req bs HG) as [Hl [(m & pid & Hfin)|Ha]]; (split; [done|]); [left|by right].
    exists m, pid. by rewrite Hlog.
  - intros f loc [Hin|Hin]%elem_of_app E; [by apply (H6 f)|by apply Hf in E].
Qed.

(** ** Operations *)

(** A flit from the network, a message of the endpoint, the fired event, a query of the
    ready signal, flits taken from the output queues, messages taken by the endpoint. *)
Inductive nsu_op :=
  | OFlit (fl : mflit) (incoming : Z)
  | OMsg (msg : NocMemoryMsg) (vnet : Z)
  | OFire
  | ORReady
  | ONet (q : niOutVcs respFlit)
  | OTile (vnet : Z) (b : mbuf (M := NocMemoryMsg)).

Definition nsu_exec (now : Z) (s : mmNsu) (op : nsu_op) : res (bool * mmNsu * list nflit) :=
  match op with
  | OFlit fl incoming =>
      let* (ok, s) := nsu_depacketizeFlit period bufCfg W now s fl incoming in Ok (ok, s, [])
  | OMsg msg vnet =>
      nsu_flitisizeMessage m_route_to_vc_map m_num_aximm_nmu oport m_id period W gap_cycles per_flit_gap_cycles
        now s msg vnet
  | OFire =>
      let* (s, fls) := nsu_fire m_id period gap_cycles per_flit_gap_cycles now s in Ok (true, s, fls)
  | ORReady => Ok (true, snd (getAxiRReady s), [])
  | ONet q => Ok (true, set_ns_net (ns_next_packet_id s) q s, [])
  | OTile vnet b => Ok (true, set_nsu_outNode vnet b s, [])
  end.

(** What the unit relies on: read requests it can answer, beats of outstanding reads, and
    an event that fires when it was scheduled. *)
Definition op_ok (now : Z) (s : mmNsu) (op : nsu_op) : Prop :=
  match op with
  | OFlit fl incoming =>
      match mm_payload (fl_msg fl) with
      | PAddr a => ra_cmd a = READ -> req_good (mk_nsuReq (fl_msg fl) incoming)
      | _ => True
      end
  | OMsg msg _ => match mm_payload msg with PData beat => beat_fits (ns_read s) beat | _ => True end
  | OFire => ns_deqEvent (ns_read s) = Some now
  | _ => True
  end.

(** The history of a run: the responses begun, by number, with the bytes received for
    them; all flits sent; the requests accepted; the requests of the responses begun. *)
Record history := mk_history {
  h_resp : responses;
  h_sent : list nflit;
  h_accepted : list nsuReq;
  h_begun : list nsuReq
}.
Definition history_init : history := mk_history ∅ [] [] [].

Definition is_read_request (fl : mflit) : bool :=
  match mm_payload (fl_msg fl) with PAddr a => bool_decide (ra_cmd a = READ) | _ => false end.
Definition history_step (s : mmNsu) (op : nsu_op) (ok : bool) (fls : list nflit) (h : history) : history :=
  let h := mk_history (h_resp h) (h_sent h ++ fls) (h_accepted h) (h_begun h) in
  match op with
  | OFlit fl incoming =>
      if ok && is_read_request fl
      then mk_history (h_resp h) (h_sent h) (h_accepted h ++ [mk_nsuReq (fl_msg fl) incoming]) (h_begun h)
      else h
  | OMsg msg _ =>
      match mm_payload msg with
      | PData beat =>
          if ok then mk_history (received (ns_read s) (h_resp h) beat) (h_sent h) (h_accepted h)
                       (h_begun h ++ begins (ns_read s) beat)
          else h
      | _ => h
      end
  | _ => h
  end.

(** Runs from the initial state, with their history. *)
Inductive nsu_run (pid : Z) : mmNsu -> history -> Prop :=
  | run_init : nsu_run pid (mmNsu_init pid) history_init
  | run_step s h now op ok s' fls :
      nsu_run pid s h -> op_ok now s op -> nsu_exec now s op = Ok (ok, s', fls) ->
      nsu_run pid s' (history_step s op ok fls h).

(** ** Every run keeps the invariant *)

Definition nsu_inv (s : mmNsu) (h : history) : Prop :=
  read_inv (ns_read s) (h_resp h) (h_sent h) /\ order_ok (ns_read s) (h_accepted h) (h_begun h) /\
  indexed (h_resp h) (h_begun h).

Lemma inv_same s s' h fls : ns_read s' = ns_read s -> (forall f loc, f ∈ fls -> rf_msg (fl_msg f) <> RRef loc) ->
  nsu_inv s h -> nsu_inv s' (mk_history (h_resp h) (h_sent h ++ fls) (h_accepted h) (h_begun h)).
Proof. intros E Hf (H1 & H2 & H3). unfold nsu_inv. rewrite E. split; [by apply read_inv_log|done]. Qed.

Lemma read_set_outNode v b s : ns_read (set_nsu_outNode v b s) = ns_read s.
Proof. unfold set_nsu_outNode. by repeat case_match. Qed.

Lemma sendN_read now s ms b s' : sendNWriteDataMsgs bufCfg now s ms = Ok (b, s') -> ns_read s' = ns_read s.
Proof.
  unfold sendNWriteDataMsgs. destruct ms; [by intros [= _ <-]|]. case_match; [by intros [= _ <-]|].
  intros E. inv_ok. simplify_eq. apply read_set_outNode.
Qed.
Lemma writeData_read now s pid k m b s' :
  depacketizeWriteDataFlit period bufCfg W now s pid k m = Ok (b, s') -> ns_read s' = ns_read s.
Proof.
  unfold depacketizeWriteDataFlit. intros E. inv_ok. destruct (negb (tr_has _ _)) in E; [by injection E as _ <-|]. inv_ok.
  destruct a3 as [out staged]. inv_ok. destruct a3 as [ok s1]. apply sendN_read in Ha4.
  destruct (negb ok); injection E as _ <-; exact Ha4.
Qed.
Lemma writeRequest_read now s req a b s' :
  depacketizeWriteRequestFlit bufCfg W now s req a = Ok (b, s') -> ns_read s' = ns_read s.
Proof.
  unfold depacketizeWriteRequestFlit. intros E. destruct (negb _); [by injection E as _ <-|]. inv_ok.
  destruct a0 as [ok t]. destruct (negb ok); [by injection E as _ <-|]. inv_ok. simplify_eq.
  by rewrite read_set_outNode.
Qed.
Lemma writeResponse_read now s m b port ok s' fls :
  flitisizeWriteResponse m_route_to_vc_map m_id period now s m b port = Ok (ok, s', fls) ->
  ns_read s' = ns_read s /\ forall f loc, f ∈ fls -> rf_msg (fl_msg f) <> RRef loc.
Proof.
  unfold flitisizeWriteResponse. intros E. apply rbind_Ok in E as ([req t] & _ & E). apply rbind_Ok in E as (vc & _ & E).
  apply rbind_Ok in E as ([p n] & _ & E).
  destruct (injectFlit _ _ _) in E; injection E as <- <- <-; (split; [done|]); intros f loc Hf.
  - apply list_elem_of_singleton in Hf as ->. done.
  - by apply not_elem_of_nil in Hf.
Qed.

Lemma init_inactive id x : ~ current nsuRead_init id x.
Proof.
  intros (_ & Hx & Ha). change (replicate 4 ReadResponseState_init !! zn id = Some x) in Hx.
  apply lookup_replicate in Hx as [-> _]. done.
Qed.

Lemma inv_init pid : nsu_inv (mmNsu_init pid) history_init.
Proof.
  split; [split; [|done]|split].
  - constructor; cbn; try done.
    + exists []. split; [apply tracks_empty|done].
    + intros id x Hx. by apply init_inactive in Hx.
    + intros i j x y loc Hx. by apply init_inactive in Hx.
    + intros f loc Hf. by apply not_elem_of_nil in Hf.
  - split; [done|]. exists []. split; [apply tracks_empty|]. intros id Hid. by case_match.
  - done.
Qed.

(** A flit from the network. *)
Lemma flit_inv now s h fl incoming ok s' : nsu_inv s h -> op_ok now s (OFlit fl incoming) ->
  nsu_depacketizeFlit period bufCfg W now s fl incoming = Ok (ok, s') ->
  nsu_inv s' (history_step s (OFlit fl incoming) ok [] h).
Proof.
  intros Hi Hok E. unfold nsu_depacketizeFlit in E. cbn [op_ok] in Hok. unfold history_step, is_read_request.
  assert (Hnil : forall (f : nflit) loc, f ∈ [] -> rf_msg (fl_msg f) <> RRef loc)
    by (intros f loc Hf; by apply not_elem_of_nil in Hf).
  destruct (mm_payload (fl_msg fl)) as [a| | |]; try discriminate E.
  2: { rewrite andb_false_r. apply writeData_read in E. by apply (inv_same s s' h []). }
  destruct (ra_cmd a) eqn:Ec; [|rewrite andb_false_r; apply writeRequest_read in E; by apply (inv_same s s' h [])|discriminate].
  rewrite bool_decide_eq_true_2, andb_true_r by done. unfold depacketizeReadRequestFlit, enqueueReadRequestToTile in E.
  destruct (negb _) in E; [injection E as <- <-; by apply (inv_same s s h [])|]. inv_ok.
  destruct (negb _) in E; [injection E as <- <-; by apply (inv_same s s h [])|]. inv_ok. destruct a1 as [b t].
  destruct b; cbn [negb] in E; [|injection E as <- <-; by apply (inv_same s s h [])]. inv_ok. simplify_eq.
  destruct Hi as (H1 & H2 & H3). destruct (request_ok _ _ _ _ _ _ t H1 H2 (Hok eq_refl)) as [H1' H2']; [done|].
  unfold nsu_inv. rewrite read_set_outNode. cbn [ns_read set_ns_read h_resp h_sent h_accepted h_begun].
  by rewrite app_nil_r.
Qed.

(** A message of the endpoint. *)
Lemma msg_inv now s h msg vnet ok s' fls : W ∈ widths -> nsu_inv s h -> op_ok now s (OMsg msg vnet) ->
  nsu_exec now s (OMsg msg vnet) = Ok (ok, s', fls) -> nsu_inv s' (history_step s (OMsg msg vnet) ok fls h).
Proof.
  intros HW (H1 & H2 & H3) Hok E. cbn [nsu_exec op_ok] in *. unfold nsu_flitisizeMessage in E. unfold history_step.
  inv_ok. destruct (mm_payload msg) as [|beat|b|]; try discriminate E.
  - destruct (beat_ok now s _ _ _ _ beat a vnet HW H1 H2 H3 Hok (beat_numbered _ _ _ _ _ _ E)) as (s1 & fls1 & E1 & Hr). rewrite E in E1.
    injection E1 as -> -> ->. destruct (nd_valid (ns_drain (ns_read s))); cbn [negb].
    + destruct Hr as [-> ->]. apply (inv_same s s h []); [done| |done]. intros f loc Hf. by apply not_elem_of_nil in Hf.
    + exact Hr.
  - inv_ok. destruct a0 as [[ok1 s1] fls1]. inv_ok. simplify_eq.
    apply writeResponse_read in Ha0 as [Er Hf]. exact (inv_same _ _ h _ Er Hf (conj H1 (conj H2 H3))).
Qed.

Lemma fire_inv now s h : nsu_inv s h -> op_ok now s OFire ->
  exists s' fls, nsu_fire m_id period gap_cycles per_flit_gap_cycles now s = Ok (s', fls) /\
    nsu_inv s' (history_step s OFire true fls h).
Proof.
  intros ((Hc & Hb) & H2 & H3) Hok. cbn [op_ok] in Hok. unfold busy_of in Hc.
  destruct (nd_valid (ns_drain (ns_read s))) eqn:Hv; [|congruence]. destruct Hb as [Hd _].
  destruct (dequeue_ok m_route_to_vc_map m_id period W gap_cycles per_flit_gap_cycles now
    (set_ns_read (set_ns_event None (ns_read s)) s) (h_resp h) (h_sent h)) as (s' & fls & E & Hi & Ho);
    [by eapply core_frame; [..|exact Hc]|done|exact Hd|done|].
  exists s', fls. split; [exact E|]. split; [exact Hi|]. split; [|exact H3]. apply Ho. exact H2.
Qed.

Lemma run_inv pid s h : W ∈ widths -> nsu_run pid s h -> nsu_inv s h.
Proof.
  intros HW Hr. induction Hr as [|s h now op ok s' fls Hr IH Hok E]; [apply inv_init|].
  assert (Hnil : forall (f : nflit) loc, f ∈ [] -> rf_msg (fl_msg f) <> RRef loc)
    by (intros f loc Hf; by apply not_elem_of_nil in Hf).
  destruct op as [fl inc|msg vnet| | |q|vnet b].
  - cbn [nsu_exec] in E. inv_ok. destruct a as [ok1 s1]. simplify_eq. by apply (flit_inv now).
  - by apply (msg_inv now).
  - destruct (fire_inv now s h IH Hok) as (s1 & fls1 & E1 & Hi). cbn [nsu_exec] in E. rewrite E1 in E. cbn [rbind] in E.
    by injection E as <- <- <-.
  - injection E as <- <- <-. exact (inv_same s _ h [] eq_refl Hnil IH).
  - injection E as <- <- <-. exact (inv_same s _ h [] eq_refl Hnil IH).
  - injection E as <- <- <-. exact (inv_same s _ h [] (read_set_outNode _ _ s) Hnil IH).
Qed.

(** ** Theorems *)

(** C25: read responses are whole.  In every run of the slave unit, once a response is no
    longer being built, the flits sent for it are exactly the flits 0, 1, ... of the
    request's size, in this order, each once, under one packet number, to the interface
    that asked, each with the reorder tag and the half of the 32-byte slot the request
    assigns to it; and the 16 bytes a flit refers to are the endpoint's bytes at its
    offset, over all widths of the endpoint, interleavings of the IDs, refused beats,
    full queues and pauses between flits. *)
Theorem nsu_read_responses_whole pid s h loc req bs :
  W ∈ widths -> nsu_run pid s h -> h_resp h !! loc = Some (req, bs) ->
  (forall id x, current (ns_read s) id x -> rr_nppMsg x <> Some loc) ->
  exists m packet_id, ns_msgs (ns_read s) !! loc = Some m /\ T_of req <= nz (length bs) /\
    Forall2 (flit_of req loc packet_id) (seqZ 0 (nflits_of req)) (log_of loc (h_sent h)) /\
    forall k, 0 <= k < nflits_of req -> exists data, mem_getFlitData m k = Ok data /\ length data = 16%nat /\
      forall j, 0 <= j < 16 -> 16 * k + j < T_of req ->
        byte_at data (zn j) = byte_at bs (zn (16 * k + j)).
Proof.
  intros HW Hr HG Hno. destruct (run_inv _ _ _ HW Hr) as ([Hc _] & _).
  destruct (co_G _ _ _ _ _ _ _ Hc _ _ _ HG) as [_ [(m & p & Hm & Hsh & Hg & Hlen & Hby & Hfl)|(id & x & Hx & E)]];
    [|by destruct (Hno id x Hx)].
  exists m, p. split_and!; try done. intros k Hk. pose proof (rg_size _ _ _ Hg) as HT. unfold nflits_of in Hk.
  eexists. split; [apply flit_bytes; [done|mlia]|]. split; [by rewrite length_fmap, length_seqZ|].
  intros j Hj Hjt. rewrite <- Hby by lia. unfold byte_at at 1. apply nth_lookup_Some.
  rewrite list_lookup_fmap, lookup_seqZ_lt by lia. cbn. by rewrite Z2Nat.id by lia.
Qed.

(** C27: read requests are answered in order.  For every AXI ID, the requests of the
    responses begun so far are, in this order, the oldest requests accepted for this
    ID; response number n belongs to the n-th request of this list over all IDs; and no
    more than 32 accepted requests of the ID wait for their response to begin. *)
Theorem nsu_responses_in_order pid s h id :
  W ∈ widths -> nsu_run pid s h -> 0 <= id ->
  of_id id (h_begun h) `prefix_of` of_id id (h_accepted h) /\
  (forall loc req bs, h_resp h !! loc = Some (req, bs) -> h_begun h !! zn loc = Some req) /\
  nz (length (of_id id (h_accepted h))) <= nz (length (of_id id (h_begun h))) + MAX_SIZE.
Proof.
  intros HW Hr Hid. destruct (run_inv _ _ _ HW Hr) as (_ & (_ & l & Hl & Ho) & Hi). split; [|split].
  - rewrite (Ho id Hid). by eexists.
  - intros loc req bs E. by apply (Hi loc req bs).
  - rewrite (Ho id Hid), length_app. pose proof (tk_max _ _ Hl).
    assert (length (of_id id l) <= length l)%nat by apply length_filter.
    destruct (default _ _); [assert (length (tail (of_id id l)) <= length (of_id id l))%nat by (destruct (of_id id l); cbn; lia)|]; lia.
Qed.

(** The response path never faults.  In every state of a run, a beat of an
    outstanding read is taken without an error when no response is being drained and
    refused without a change otherwise, and the scheduled event runs without an error:
    while the packet counter is below its largest value, none of the panics, assertions or
    out-of-range accesses of
    [flitisizeReadResponse] and [dequeueIntermediate] is reached. *)
Theorem nsu_response_path_safe pid s h now op :
  W ∈ widths -> nsu_run pid s h -> op_ok now s op ->
  match op with
  | OMsg msg vnet => is_Some (oport vnet) /\ exists beat, mm_payload msg = PData beat /\ numbered s beat
  | OFire => True
  | _ => False
  end ->
  exists ok s' fls, nsu_exec now s op = Ok (ok, s', fls) /\ (ok = false -> s' = s /\ fls = []) /\
    (ok = false <-> op <> OFire /\ nd_valid (ns_drain (ns_read s)) = true).
Proof.
  intros HW Hr Hok Hop. pose proof (run_inv _ _ _ HW Hr) as (H1 & H2 & H3).
  destruct op as [|msg vnet| | | |]; try done.
  - destruct Hop as [[port Hp] (beat & Hb & Hnum)]. cbn [op_ok] in Hok. rewrite Hb in Hok.
    destruct (beat_ok now s _ _ _ _ beat port vnet HW H1 H2 H3 Hok Hnum) as (s' & fls & E & Hres).
    cbn [nsu_exec]. unfold nsu_flitisizeMessage. rewrite Hp. cbn [of_opt rbind]. rewrite Hb, E.
    eexists _, s', fls. split; [done|].
    destruct (nd_valid (ns_drain (ns_read s))); cbn [negb].
    + split; [intros _; exact Hres|]. split; [by intros _|done].
    + split; [done|]. split; [done|by intros [_ ?]].
  - destruct (fire_inv now s h (conj H1 (conj H2 H3)) Hok) as (s' & fls & E & _).
    exists true, s', fls. cbn [nsu_exec]. rewrite E. split; [done|]. split; [done|].
    split; [done|by intros [H _]].
Qed.

End Run.
