(* ===== verification/MmNsuDrain.v ===== *)
(** * Draining a read response

    [dequeueIntermediate] paces the flits of a response: a flit goes out at the earliest
    tick the gap rules allow, and an event that comes too early is moved to this tick.
    The comment on the gap rules recalls a version in which every move pushed the tick
    further away; here is the proof that the present one always moves on: one fired
    event out of two sends a flit, and a response is drained after at most 32 events. *)
From stdpp Require Import base gmap list list_numbers fin_maps sets strings.
From Stdlib Require Import ZArith Lia.
From S2P Require Import Prelude AxiTypes MmWriteBuffer Flit MmDepack SNmu MsgBuffer MmNmu ReqTracker MmNsu MmNsuRead MmNsuRun.
Open Scope Z_scope.

Section Drain.
Context (m_route_to_vc_map : gmap (Z * Z * Z) Z) (m_num_aximm_nmu : Z) (oport : Z -> option Z)
  (m_id period : Z) (bufCfg : mbCfg) (W : Z) (gap_cycles per_flit_gap_cycles : Z).

Local Abbreviation dequeue := (nsu_dequeueIntermediate m_id period gap_cycles per_flit_gap_cycles).
Local Abbreviation fire := (nsu_fire m_id period gap_cycles per_flit_gap_cycles).
Local Abbreviation inject_at := (earliest_inject period gap_cycles per_flit_gap_cycles).
Local Abbreviation run := (nsu_run m_route_to_vc_map m_num_aximm_nmu oport m_id period bufCfg W gap_cycles per_flit_gap_cycles).
Local Abbreviation inv := (nsu_inv m_route_to_vc_map m_id W).

(** ** The gap rules *)

(** The flit may go out now. *)
Definition ready (now : Z) (r : nsuRead) (x : ReadResponseState) : Prop :=
  inject_at now (cooled_burst period now r) (rr_auto_per_flit_gap x) r <= now.

(** The tick an event is moved to satisfies the rules when it comes. *)
Lemma wait_ready now r x :
  let b := cooled_burst period now r in
  ready (inject_at now b (rr_auto_per_flit_gap x) r)
    (set_pace b (ns_flits_total r) (ns_last_inject_tick r) r) x.
Proof.
  cbv zeta. set (b := cooled_burst period now r). set (t := inject_at now b _ r). unfold ready.
  set (r' := set_pace b (ns_flits_total r) (ns_last_inject_tick r) r).
  assert (cooled_burst period t r' = b \/ cooled_burst period t r' = 0) as Hb
    by (unfold cooled_burst at 1 2; change (ns_flits_in_burst r') with b; case_match; auto).
  revert Hb. generalize (cooled_burst period t r') as b'. intros b' Hb.
  subst t r'. unfold earliest_inject. cbn [ns_last_inject_tick ns_flits_total set_pace].
  destruct Hb as [-> | ->].
  - repeat case_match; bool_hyps; lia.
  - cbn [Z.ltb Z.compare]. rewrite andb_false_r. cbn [andb orb]. repeat case_match; bool_hyps; lia.
Qed.

(** ** One event *)

Lemma after_effect now s s' x :
  let d := ns_drain (ns_read s) in
  afterFlit period now s x = Ok s' -> ns_state (ns_read s) !! zn (nd_axi_id d) = Some x ->
  nd_axi_id (ns_drain (ns_read s')) = nd_axi_id d /\
  exists x', ns_state (ns_read s') !! zn (nd_axi_id d) = Some x' /\ rr_bytes_sent x' = rr_bytes_sent x /\
    rr_bytes_received x' = rr_bytes_received x /\ rr_total_bytes_needed x' = rr_total_bytes_needed x.
Proof.
  cbv zeta. unfold afterFlit, nsu_schedule. intros E Hx. apply lookup_lt_Some in Hx as Hlt.
  destruct (_ <=? _) in E; [inv_ok; destruct a; inv_ok; simplify_eq; cbn|].
  { split; [done|]. rewrite list_lookup_insert_eq by done. by eexists. }
  destruct (injectable _ _) in E; [destruct (ns_deqEvent _) in E; inv_ok; simplify_eq|inv_ok; simplify_eq]; cbn.
  - split; [done|]. by exists x.
  - split; [done|]. by exists x.
Qed.

(** What [dequeueIntermediate] does to a response with a flit to send: it sends this
    flit, or keeps everything and moves the event. *)
Lemma dequeue_effect now s s' fls x :
  let r := ns_read s in let d := ns_drain r in let b := cooled_burst period now r in
  dequeue now s = Ok (s', fls) -> nd_valid d = true -> ns_state r !! zn (nd_axi_id d) = Some x ->
  injectable x (nd_slave_finished d) = true -> outVc_isFull (ns_outVcs s) (nd_vc d) = false ->
  if inject_at now b (rr_auto_per_flit_gap x) r <=? now
  then (exists f, fls = [f]) /\
       nd_axi_id (ns_drain (ns_read s')) = nd_axi_id d /\
       exists x', ns_state (ns_read s') !! zn (nd_axi_id d) = Some x' /\
         rr_bytes_sent x' = u16 (rr_bytes_sent x + 16) /\ rr_bytes_received x' = rr_bytes_received x /\
         rr_total_bytes_needed x' = rr_total_bytes_needed x
  else fls = [] /\ ns_read s' = set_ns_event (Some (inject_at now b (rr_auto_per_flit_gap x) r))
         (set_pace b (ns_flits_total r) (ns_last_inject_tick r) r).
Proof.
  cbv zeta. intros E Hv Hx Hin Hroom. unfold nsu_dequeueIntermediate in E. rewrite Hv in E. cbn [negb] in E.
  rewrite Hx in E. cbn [of_opt rbind] in E. inv_ok. rewrite Hin in E. inv_ok.
  set (b := cooled_burst period now (ns_read s)) in *.
  change (inject_at now b (rr_auto_per_flit_gap x) (set_pace b (ns_flits_total (ns_read s))
    (ns_last_inject_tick (ns_read s)) (ns_read s))) with (inject_at now b (rr_auto_per_flit_gap x) (ns_read s)) in E.
  set (t := inject_at now b (rr_auto_per_flit_gap x) (ns_read s)) in *.
  destruct (Z.leb_spec t now) as [Ht|Ht].
  - rewrite (proj2 (Z.ltb_ge _ _)) in E by done. inv_ok. unfold injectFlit in E. rewrite Hroom in E. inv_ok.
    simplify_eq. split; [by eexists|]. apply lookup_lt_Some in Hx as Hlt.
    destruct (after_effect _ _ _ _ Ha4) as [Hd Hs]; [|exact (conj Hd Hs)]. cbn. by apply list_lookup_insert_eq.
  - rewrite (proj2 (Z.ltb_lt _ _)) in E by done. unfold nsu_schedule in E.
    destruct (ns_deqEvent _) in E; inv_ok; by simplify_eq.
Qed.

(** ** Draining to the end *)

(** Fire the event as often as it is scheduled, while the network takes the flits. *)
Fixpoint drain_out (fuel : nat) (s : mmNsu) : res (mmNsu * list nflit) :=
  match ns_deqEvent (ns_read s), fuel with
  | None, _ => Ok (s, [])
  | Some _, O => Err (FUndef "event still scheduled")
  | Some t, S fuel =>
      let* (s, fls) := fire t (set_ns_net (ns_next_packet_id s) ∅ s) in
      let* (s, more) := drain_out fuel s in
      Ok (s, fls ++ more)
  end.

Definition add_sent (h : history) (fls : list nflit) : history :=
  mk_history (h_resp h) (h_sent h ++ fls) (h_accepted h) (h_begun h).

(** The response being drained. *)
Lemma draining pid s h t : W ∈ widths -> run pid s h -> ns_deqEvent (ns_read s) = Some t ->
  let d := ns_drain (ns_read s) in
  nd_valid d = true /\ exists x, ns_state (ns_read s) !! zn (nd_axi_id d) = Some x /\
    injectable x (nd_slave_finished d) = true /\ 0 <= rr_bytes_sent x < rr_total_bytes_needed x /\
    rr_total_bytes_needed x <= 256 /\
    nd_slave_finished d = (rr_total_bytes_needed x <=? rr_bytes_received x).
Proof.
  intros HW Hr He. destruct (run_inv _ _ _ _ _ _ _ _ _ _ _ _ HW Hr) as ([Hc Hb] & _). cbv zeta. unfold busy_of in Hc.
  destruct (nd_valid (ns_drain (ns_read s))) eqn:Hv; [|congruence]. split; [done|].
  destruct Hb as [(x & req & port & Hx & _ & _ & _ & Hf & Hi) _].
  destruct (core_current _ _ _ _ _ _ _ _ _ Hc Hx) as (loc & q & bs & m & Ha & _).
  pose proof (ar_total _ _ _ _ _ _ _ _ _ _ _ _ Ha). pose proof (rg_size _ _ _ (ar_good _ _ _ _ _ _ _ _ _ _ _ _ Ha)).
  exists x. destruct Hx as (_ & Hx & _). split_and!; try done; try (apply (ar_sent _ _ _ _ _ _ _ _ _ _ _ _ Ha)); lia.
Qed.

(** One event, with the network taking the flits. *)
Lemma fire_run pid s h t : W ∈ widths -> run pid s h -> ns_deqEvent (ns_read s) = Some t ->
  exists s' fls, fire t (set_ns_net (ns_next_packet_id s) ∅ s) = Ok (s', fls) /\ run pid s' (add_sent h fls).
Proof.
  intros HW Hr He. set (s0 := set_ns_net (ns_next_packet_id s) ∅ s).
  assert (Hr0 : run pid s0 h).
  { pose proof (run_step _ _ _ _ _ _ _ _ _ _ s h 0 (ONet ∅) true s0 [] Hr I eq_refl) as H0.
    destruct h as [G l A B]. unfold history_step in H0. cbn in H0. by rewrite app_nil_r in H0. }
  destruct (fire_inv m_route_to_vc_map m_id period W gap_cycles per_flit_gap_cycles t s0 h) as (s' & fls & E & _);
    [by eapply run_inv|exact He|].
  exists s', fls. split; [exact E|].
  assert (Ex : nsu_exec m_route_to_vc_map m_num_aximm_nmu oport m_id period bufCfg W gap_cycles per_flit_gap_cycles
    t s0 OFire = Ok (true, s', fls)) by (cbn [nsu_exec]; by rewrite E).
  exact (run_step _ _ _ _ _ _ _ _ _ _ s0 h t OFire true s' fls Hr0 He Ex).
Qed.

(** The bytes of the drained response, and how many events it may still take. *)
Definition drain_left (s : mmNsu) (n : nat) : Prop :=
  forall t x, ns_deqEvent (ns_read s) = Some t ->
    ns_state (ns_read s) !! zn (nd_axi_id (ns_drain (ns_read s))) = Some x -> 16 - rr_bytes_sent x / 16 <= nz n.
Definition same_bytes (s s' : mmNsu) : Prop :=
  let id := nd_axi_id (ns_drain (ns_read s)) in
  nd_axi_id (ns_drain (ns_read s')) = id /\
  forall x, ns_state (ns_read s) !! zn id = Some x ->
    exists x', ns_state (ns_read s') !! zn id = Some x' /\
      rr_bytes_received x' = rr_bytes_received x /\ rr_total_bytes_needed x' = rr_total_bytes_needed x.

Lemma same_bytes_refl s : same_bytes s s.
Proof. split; [done|]. intros x Hx. by exists x. Qed.
Lemma same_bytes_trans s1 s2 s3 : same_bytes s1 s2 -> same_bytes s2 s3 -> same_bytes s1 s3.
Proof.
  intros [E1 H1] [E2 H2]. split; [congruence|]. intros x Hx. destruct (H1 x Hx) as (y & Hy & ? & ?).
  rewrite E1 in H2. destruct (H2 y Hy) as (z & Hz & ? & ?). exists z. split; [done|]. split; congruence.
Qed.

(** An event sends a flit, unless it is moved to a tick at which it does. *)
Lemma fire_effect pid s h t n : W ∈ widths -> run pid s h -> ns_deqEvent (ns_read s) = Some t ->
  drain_left s (S n) ->
  exists s' fls, fire t (set_ns_net (ns_next_packet_id s) ∅ s) = Ok (s', fls) /\ run pid s' (add_sent h fls) /\
    same_bytes s s' /\
    (drain_left s' n \/ drain_left s' (S n) /\ exists t' x', ns_deqEvent (ns_read s') = Some t' /\
       ns_state (ns_read s') !! zn (nd_axi_id (ns_drain (ns_read s'))) = Some x' /\ ready t' (ns_read s') x') /\
    (forall x, ns_state (ns_read s) !! zn (nd_axi_id (ns_drain (ns_read s))) = Some x ->
       ready t (ns_read s) x -> drain_left s' n).
Proof.
  intros HW Hr He Hl. destruct (draining pid s h t HW Hr He) as (Hv & x & Hx & Hin & Hs & Ht & _).
  destruct (fire_run pid s h t HW Hr He) as (s' & fls & E & Hr'). exists s', fls. split; [exact E|]. split; [exact Hr'|].
  specialize (Hl t x He Hx). pose proof (dequeue_effect t _ s' fls x E Hv Hx Hin eq_refl) as Hf. cbv zeta in Hf.
  change (inject_at t _ _ _) with (inject_at t (cooled_burst period t (ns_read s)) (rr_auto_per_flit_gap x) (ns_read s)) in Hf.
  destruct (Z.leb_spec (inject_at t (cooled_burst period t (ns_read s)) (rr_auto_per_flit_gap x) (ns_read s)) t) as [Hrd|Hrd].
  - destruct Hf as (_ & Hid & x' & Hx' & Hs' & Hr1 & Hr2). cbn in Hid, Hx'.
    assert (Hl' : drain_left s' n).
    { intros t' y _ Hy. rewrite Hid, Hx' in Hy. injection Hy as <-. rewrite Hs', u16_small by lia. mlia. }
    split; [|split; [by left|done]]. split; [done|]. intros y Hy. assert (y = x) as -> by congruence. by exists x'.
  - destruct Hf as (_ & Er). split; [|split].
    + split; rewrite Er; [done|]. intros y Hy. by exists y.
    + right. split; [intros t' y _ Hy; rewrite Er in Hy; cbn in Hy; congruence|].
      eexists _, x. rewrite Er. split; [reflexivity|]. split; [exact Hx|]. exact (wait_ready t (ns_read s) x).
    + intros y Hy Hry. assert (y = x) as -> by congruence. unfold ready in Hry. lia.
Qed.

Lemma add_sent_nil h : add_sent h [] = h.
Proof. destruct h. unfold add_sent. cbn. by rewrite app_nil_r. Qed.
Lemma add_sent_app h l1 l2 : add_sent (add_sent h l1) l2 = add_sent h (l1 ++ l2).
Proof. unfold add_sent. cbn. by rewrite app_assoc. Qed.

Lemma drain_out_step fuel pid s h t s1 fls1 s' fls :
  ns_deqEvent (ns_read s) = Some t -> fire t (set_ns_net (ns_next_packet_id s) ∅ s) = Ok (s1, fls1) ->
  same_bytes s s1 -> drain_out fuel s1 = Ok (s', fls) ->
  run pid s' (add_sent (add_sent h fls1) fls) -> same_bytes s1 s' ->
  drain_out (S fuel) s = Ok (s', fls1 ++ fls) /\ run pid s' (add_sent h (fls1 ++ fls)) /\ same_bytes s s'.
Proof.
  intros He E Hb E' Hr Hb'. cbn [drain_out]. rewrite He, E. cbn [rbind]. rewrite E'. cbn [rbind].
  split; [done|]. rewrite <- add_sent_app. split; [done|]. by eapply same_bytes_trans.
Qed.

Lemma drain_out_ok n : forall fuel pid s h, W ∈ widths -> run pid s h -> drain_left s n -> (2 * n <= fuel)%nat ->
  exists s' fls, drain_out fuel s = Ok (s', fls) /\ run pid s' (add_sent h fls) /\ same_bytes s s' /\
    ns_deqEvent (ns_read s') = None.
Proof.
  induction n as [|n IH]; intros fuel pid s h HW Hr Hl Hf; destruct (ns_deqEvent (ns_read s)) as [t|] eqn:He.
  2,4: exists s, []; rewrite add_sent_nil; split; [destruct fuel; cbn; by rewrite He|]; split; [done|];
       split; [apply same_bytes_refl|done].
  - destruct (draining pid s h t HW Hr He) as (_ & x & Hx & _ & Hs & Ht & _). specialize (Hl t x He Hx). mlia.
  - destruct fuel as [|[|fuel]]; [lia|lia|].
    destruct (fire_effect pid s h t n HW Hr He Hl) as (s1 & f1 & E1 & Hr1 & Hb1 & [Hl1|(Hl1 & t1 & x1 & He1 & Hx1 & Hrd)] & _).
    + destruct (IH (S fuel) pid s1 _ HW Hr1 Hl1) as (s' & fls & E & Hr' & Hb & Hn); [lia|].
      destruct (drain_out_step _ _ _ _ _ _ _ _ _ He E1 Hb1 E Hr' Hb) as (? & ? & ?). by exists s', (f1 ++ fls).
    + destruct (fire_effect pid s1 _ t1 n HW Hr1 He1 Hl1) as (s2 & f2 & E2 & Hr2 & Hb2 & _ & Hl2).
      destruct (IH fuel pid s2 _ HW Hr2 (Hl2 x1 Hx1 Hrd)) as (s' & fls & E & Hr' & Hb & Hn); [lia|].
      destruct (drain_out_step _ _ _ _ _ _ _ _ _ He1 E2 Hb2 E Hr' Hb) as (E' & Hr'' & Hb').
      destruct (drain_out_step _ _ _ _ _ _ _ _ _ He E1 Hb1 E' Hr'' Hb') as (? & ? & ?).
      by exists s', (f1 ++ f2 ++ fls).
Qed.

(** C28: draining ends.  From any state of a run, if the network takes the flits, at most
    32 firings of the event drain what can be sent, none of them fails, and the event is
    no longer scheduled; and if the endpoint has delivered all bytes of the response,
    the response is complete.  In particular the gap rules never move the event
    forever, whatever the configured gaps and the clock period are. *)
Theorem nsu_drain_ends pid s h :
  W ∈ widths -> run pid s h ->
  let d := ns_drain (ns_read s) in
  exists s' fls, drain_out 32 s = Ok (s', fls) /\ run pid s' (add_sent h fls) /\
    ns_deqEvent (ns_read s') = None /\ nd_valid (ns_drain (ns_read s')) = false /\
    (nd_valid d = true -> nd_slave_finished d = true -> forall x, ~ current (ns_read s') (nd_axi_id d) x).
Proof.
  cbv zeta. intros HW Hr.
  assert (Hl : drain_left s 16).
  { intros t x He Hx. destruct (draining pid s h t HW Hr He) as (_ & y & Hy & _ & Hs & _).
    assert (y = x) as -> by congruence. mlia. }
  destruct (drain_out_ok 16 32 pid s h HW Hr Hl) as (s' & fls & E & Hr' & [Hid Hb] & Hn); [done|].
  exists s', fls. destruct (run_inv _ _ _ _ _ _ _ _ _ _ _ _ HW Hr') as ([Hc Hb'] & _). unfold busy_of in Hc.
  destruct (nd_valid (ns_drain (ns_read s'))) eqn:Hv'.
  { destruct Hb' as [_ [t Ht]]. congruence. }
  split_and!; try done. intros Hv Hfin x Hx.
  destruct (run_inv _ _ _ _ _ _ _ _ _ _ _ _ HW Hr) as ([_ Hb0] & _). rewrite Hv in Hb0. destruct Hb0 as [_ [t Ht]].
  destruct (draining pid s h t HW Hr Ht) as (_ & x0 & Hx0 & _ & _ & _ & Ef). rewrite Hfin in Ef. symmetry in Ef.
  destruct (Hb x0 Hx0) as (x1 & Hx1 & E1 & E2).
  destruct (core_current _ _ _ _ _ _ _ _ _ Hc Hx) as (loc & q & bs & m & _ & [?|[Hop _]]); [done|].
  destruct Hx as (_ & Hx & _). assert (x1 = x) as -> by congruence. bool_hyps. lia.
Qed.

End Drain.
