(* ===== verification/MmNsuTyped.v ===== *)
(** * Types of the AXI-MM slave unit

    The members of [mmNocSlaveUnit] have the widths the header declares: the model keeps
    them as unbounded integers and lists, and every operation keeps every member within
    its C++ type and every array at its length, on any input of the right types, without
    any assumption on the protocol. *)
From stdpp Require Import base gmap list list_numbers fin_maps sets strings.
From Stdlib Require Import ZArith Lia.
From S2P Require Import Prelude AxiTypes MmWriteBuffer Flit MmDepack SNmu AxiCheckpoint MsgBuffer MmNmu ReqTracker MmNsu MmNsuRead MmNsuRun.
Open Scope Z_scope.

(** ** The types *)

Definition bytes_typed (n : nat) (l : list Z) : Prop := length l = n /\ Forall is_u8 l.

Definition payload_typed (p : MessagePayload) : Prop :=
  match p with
  | PAddr a => aximmRWAddr_typed a
  | PData d => aximmRWData_typed d
  | _ => True
  end.
Record mem_msg_typed (m : NocMemoryMsg) : Prop := {
  mt_payload : payload_typed (mm_payload m);
  mt_pload_len : length (mm_pload m) = 4%nat;
  mt_pload : Forall aximmRWData_typed (mm_pload m);
  mt_beat_size : is_u8 (mm_beat_size m);
  mt_num_flits : is_u8 (mm_num_flits m);
  mt_tags : bytes_typed 8 (mm_rrob_tags m);
  mt_end : is_u8 (mm_end_beat_idx m);
  mt_orig : is_u32 (mm_original_read_bytes m)
}.
Record tracker_typed (t : RequestTracker) : Prop := {
  tt_size : is_u16 (tr_size t);
  tt_ids : is_u8 (tr_num_ids t);
  tt_reqs : forall id q, axiReads t !! id = Some q -> Forall (fun r => mem_msg_typed (nq_msg r)) q
}.
Record response_typed (x : ReadResponseState) : Prop := {
  rt_buf : bytes_typed 64 (rr_accumBuffer x);
  rt_strobe : is_u64 (rr_accumStrobe x);
  rt_off : is_u8 (rr_accumOffset x);
  rt_flits : is_u8 (rr_num_flits x);
  rt_total : is_u16 (rr_total_bytes_needed x);
  rt_recv : is_u16 (rr_bytes_received x);
  rt_sent : is_u16 (rr_bytes_sent x);
  rt_beat : is_u8 (rr_original_beat_size x);
  rt_orig : is_u32 (rr_original_read_bytes x)
}.
Record read_typed (r : nsuRead) : Prop := {
  dt_tracker : tracker_typed (ns_readTracker r);
  dt_len : length (ns_state r) = 4%nat;
  dt_state : Forall response_typed (ns_state r);
  dt_msgs : forall loc m, ns_msgs r !! loc = Some m -> mem_msg_typed m;
  dt_burst : is_u16 (ns_flits_in_burst r);
  dt_flits : is_u16 (ns_flits_total r)
}.
Definition assembly_typed (a : MmWriteDataAssemblyState) : Prop :=
  bytes_typed 64 (aggregateData a) /\ is_u64 (aggregateStrobe a).
Record write_typed (w : nsuWrite) : Prop := {
  wt_tracker : tracker_typed (ns_writeTracker w);
  wt_assembly : forall p a, ns_assembly w !! p = Some a -> assembly_typed a;
  wt_total : is_u64 (ns_write_resp_total w)
}.
Definition buf_typed (b : mbuf (M := NocMemoryMsg)) : Prop := Forall (fun e => mem_msg_typed (me_msg e)) (m_prio_heap b).
Record nsu_typed (s : mmNsu) : Prop := {
  nt_read : read_typed (ns_read s);
  nt_write : write_typed (ns_write s);
  nt_AR : buf_typed (ns_AR s);
  nt_AW : buf_typed (ns_AW s);
  nt_W : buf_typed (ns_W s)
}.

(** ** Values *)

Lemma u8_is x : is_u8 (u8 x).
Proof. apply u8_range. Qed.
Lemma u16_is x : is_u16 (u16 x).
Proof. apply u16_range. Qed.
Lemma u64_is x : is_u64 (u64 x).
Proof. apply u64_range. Qed.
#[local] Hint Resolve u8_is u16_is u64_is : core.

Lemma is_u64_lor x y : is_u64 x -> is_u64 y -> is_u64 (Z.lor x y).
Proof.
  intros Hx Hy. apply is_u64_of_bits. intros i Hi. by rewrite Z.lor_spec, !is_u64_testbit.
Qed.
Lemma is_u64_shiftr_land x k m : is_u64 x -> 0 <= k -> is_u64 (Z.land (Z.shiftr x k) m).
Proof.
  intros Hx Hk. apply is_u64_of_bits. intros i Hi. rewrite Z.land_spec, Z.shiftr_spec by lia.
  by rewrite is_u64_testbit by (done || lia).
Qed.

Lemma zeros_typed n : bytes_typed n (zeros n).
Proof. unfold zeros. split; [by rewrite length_replicate|]. by apply Forall_replicate. Qed.
Lemma Forall_copy_into {A} (P : A -> Prop) dst off src :
  Forall P dst -> Forall P src -> Forall P (copy_into dst off src).
Proof.
  unfold copy_into. revert off. induction src as [|y src IH]; intros off Hd Hs; [done|].
  apply Forall_cons in Hs as [Hy Hs]. cbn. by apply Forall_insert; [apply IH|].
Qed.
Lemma copy_typed n dst off src : bytes_typed n dst -> Forall is_u8 src -> bytes_typed n (copy_into dst off src).
Proof. intros [Hl Hd] Hs. split; [by rewrite length_copy_into|]. by apply Forall_copy_into. Qed.
Lemma slice_typed l i n : Forall is_u8 l -> Forall is_u8 (slice l i n).
Proof. intros H. by apply Forall_take, Forall_drop. Qed.

(** ** Messages *)

Lemma default_typed : aximmRWData_typed aximmRWData_default.
Proof. by constructor; try apply (zeros_typed 64). Qed.
Lemma defaults_typed n : Forall aximmRWData_typed (replicate n aximmRWData_default).
Proof. apply Forall_replicate, default_typed. Qed.
#[local] Hint Resolve default_typed defaults_typed zeros_typed : core.

Lemma new_msg_typed p : payload_typed p -> mem_msg_typed (newNocMemoryMsg p (replicate 4 aximmRWData_default)).
Proof. intros Hp. constructor; try done. apply (defaults_typed 4). Qed.
Lemma src_typed i m : mem_msg_typed m -> mem_msg_typed (set_src_ni i m).
Proof. by intros []; constructor. Qed.
Lemma vnet_typed v m : mem_msg_typed m -> mem_msg_typed (set_mm_vnet v m).
Proof. by intros []; constructor. Qed.
Lemma debug_typed d m : mem_msg_typed m -> mem_msg_typed (set_debugId d m).
Proof. by intros []; constructor. Qed.

Lemma adapt_typed W a : aximmRWAddr_typed a -> aximmRWAddr_typed (adapt_request W a).
Proof. intros []. constructor; cbn; done || auto. Qed.
Lemma ra_debug_typed s b d f a : aximmRWAddr_typed a -> aximmRWAddr_typed (set_ra_debug s b d f a).
Proof. by intros []; constructor. Qed.
Lemma tile_typed a m : aximmRWAddr_typed a -> mem_msg_typed (tile_msg a m).
Proof. intros Ha. by apply src_typed, vnet_typed, new_msg_typed. Qed.

Lemma npp_typed beat id n req : aximmRWData_typed beat -> 0 <= id < 4 -> is_u8 n -> mem_msg_typed req ->
  mem_msg_typed (npp_msg beat id n req).
Proof.
  intros Hb Hid Hn Hr. constructor; cbn; try done; [|apply (mt_tags _ Hr)].
  apply Forall_cons. split; [|apply (defaults_typed 3)]. destruct default_typed. constructor; cbn; try done.
  unfold is_u32. lia.
Qed.
Lemma append_typed m beat m' : mem_msg_typed m -> aximmRWData_typed beat -> appendData m beat = Ok m' -> mem_msg_typed m'.
Proof.
  intros [] Hb E. unfold appendData in E. inv_ok. constructor; cbn; try done; [by rewrite length_insert|by apply Forall_insert].
Qed.

Lemma flit_data_typed m k d : mem_msg_typed m -> mem_getFlitData m k = Ok d -> Forall is_u8 d.
Proof.
  intros Hm E. assert (Hsl : forall i off n b d, pload_at m i = Ok b -> beat_slice b off n = Ok d -> Forall is_u8 d).
  { intros i off n b d0 Eb Ed. unfold pload_at, beat_slice in *. inv_ok.
    apply slice_typed. exact (rdt_data _ (Forall_lookup_1 _ _ _ _ (mt_pload _ Hm) Eb)). }
  unfold mem_getFlitData in E. destruct (_ <? 16) in E.
  - inv_ok. eapply (foldM_inv (Forall is_u8)); [| |exact E]; [|done]. intros acc i acc' _ Hacc Ei. cbv beta in Ei. inv_ok.
    apply Forall_app. split; [done|]. by eapply Hsl.
  - destruct (_ =? 16) in E; inv_ok; by eapply Hsl.
Qed.
Lemma payload_strobe_typed m : mem_msg_typed m -> is_u64 (payload_strobe m).
Proof.
  intros Hm. pose proof (mt_payload _ Hm) as Hp. unfold payload_strobe. destruct (mm_payload m); try done.
  destruct (rd_valid d); [apply (rdt_wstrb _ Hp)|done].
Qed.
Lemma flit_strobe_typed m k : 0 <= k -> mem_msg_typed m -> is_u64 (getFlitStrobe m k).
Proof.
  intros Hk Hm. unfold getFlitStrobe. destruct (mm_pload m !! _) as [b|] eqn:Eb; [|by apply payload_strobe_typed].
  pose proof (rdt_wstrb _ (Forall_lookup_1 _ _ _ _ (mt_pload _ Hm) Eb)) as Hs.
  destruct (negb _); [by apply payload_strobe_typed|]. destruct (64 <=? _); [|done].
  apply is_u64_shiftr_land; [done|]. pose proof (u8_range (u8 (Z.shiftl 1 (mm_beat_size m)) / 16)).
  destruct (Z.eq_dec (u8 (u8 (Z.shiftl 1 (mm_beat_size m)) / 16)) 0) as [-> |]; [rewrite Z.mod_0_r; lia|].
  pose proof (Z.mod_pos_bound k (u8 (u8 (Z.shiftl 1 (mm_beat_size m)) / 16)) ltac:(lia)). lia.
Qed.

(** ** The depacketizer *)

Lemma data_of_typed cmd id last data strobe : is_u32 id -> bytes_typed 64 data -> is_u64 strobe ->
  aximmRWData_typed (aximmRWData_of cmd id last data strobe).
Proof. intros Hi [Hl Hd] Hs. by constructor. Qed.

Lemma depack_typed W id addr a k n data strobe bytes out a' :
  0 <= W -> is_u32 id -> assembly_typed a -> Forall is_u8 data -> is_u64 strobe ->
  depacketizeMmWriteDataFlit W id addr a k n data strobe bytes = Ok (out, a') ->
  Forall (fun p => aximmRWData_typed p.1) out /\ assembly_typed a'.
Proof.
  intros HW Hid Ha Hd Hs E. unfold depacketizeMmWriteDataFlit in E. destruct (W <? 16).
  - inv_ok. simplify_eq. split; [|done].
    eapply (foldM_inv (Forall (fun p => aximmRWData_typed p.1))); [| |exact Ha0]; [|done].
    intros acc i acc' Hi Hacc Ei. apply elem_of_seqZ in Hi. cbv beta in Ei. inv_ok. apply Forall_app. split; [done|].
    apply Forall_singleton. unfold narrowBeat in Ha1. inv_ok. cbn.
    destruct (copy_typed 64 (zeros 64) 0 (slice data (zn (W * i)) (zn W))) as [H1 H2]; [done|by apply slice_typed|].
    constructor; cbn; try done. apply is_u64_shiftr_land; [done|nia].
  - destruct (W =? 16); [injection E as <- <-; split; [|done]; apply Forall_singleton, data_of_typed; auto using copy_typed|].
    inv_ok. assert (Hag : assembly_typed (mk_Assembly (copy_into (aggregateData a) (zn (k mod u8 (W / 16) * 16)) data)
      (Z.lor (aggregateStrobe a) (u64 (Z.shiftl strobe (k mod u8 (W / 16) * 16)))))).
    { destruct Ha. split; cbn; [by apply copy_typed|by apply is_u64_lor]. }
    destruct (negb _ && negb _); [by injection E as <- <-|]. inv_ok. simplify_eq.
    split; [|by split; [apply zeros_typed|]]. apply Forall_singleton, data_of_typed; [done| |auto].
    destruct (0 <? _); [|done]. apply copy_typed; [done|]. apply slice_typed, Hag.
Qed.

(** ** Trackers and buffers *)

Lemma tr_add_typed t r b t' : tracker_typed t -> mem_msg_typed (nq_msg r) -> tr_add t r = Ok (b, t') -> tracker_typed t'.
Proof.
  intros Ht Hr E. unfold tr_add in E. destruct (_ =? 0) in E; [by injection E as _ <-|]. inv_ok.
  assert (Hins : forall q, Forall (fun r => mem_msg_typed (nq_msg r)) q -> forall id q',
    <[ra_id a := q]> (axiReads t) !! id = Some q' -> Forall (fun r => mem_msg_typed (nq_msg r)) q').
  { intros q Hq id q' Eq. destruct (decide (id = ra_id a)) as [-> |Hne].
    - rewrite lookup_insert_eq in Eq. by injection Eq as <-.
    - rewrite lookup_insert_ne in Eq by done. by apply (tt_reqs _ Ht id). }
  destruct (axiReads t !! ra_id a) as [q|] eqn:Eq; [|destruct (_ =? _) in E; [by injection E as _ <-|]];
    injection E as _ <-; constructor; cbn; auto using tt_ids; apply Hins.
  - apply Forall_app. split; [by apply (tt_reqs _ Ht (ra_id a))|by apply Forall_singleton].
  - by apply Forall_singleton.
Qed.
Lemma tr_remove_typed t id r t' : tracker_typed t -> tr_readAndRemove t id = Ok (r, t') -> tracker_typed t'.
Proof.
  intros Ht E. unfold tr_readAndRemove in E. destruct (axiReads t !! id) as [[|x [|y q]]|] eqn:Eq; try done;
    injection E as _ <-; constructor; cbn; auto using tt_ids; intros j q' Ej.
  - apply lookup_delete_Some in Ej as [_ Ej]. by apply (tt_reqs _ Ht j).
  - apply lookup_insert_Some in Ej as [[<- <-]|[_ Ej]]; [|by apply (tt_reqs _ Ht j)].
    pose proof (tt_reqs _ Ht id _ Eq) as Hq. by apply Forall_cons in Hq as [_ Hq].
Qed.
Lemma tr_read_typed t id r : tracker_typed t -> tr_read t id = Ok r -> mem_msg_typed (nq_msg r).
Proof.
  intros Ht E. unfold tr_read in E. destruct (axiReads t !! id) as [[|x q]|] eqn:Eq; try done. injection E as <-.
  pose proof (tt_reqs _ Ht id _ Eq) as Hq. by apply Forall_cons in Hq as [Hq _].
Qed.
Lemma tr_remove_req_typed t id r t' : tracker_typed t -> tr_readAndRemove t id = Ok (r, t') -> mem_msg_typed (nq_msg r).
Proof.
  intros Ht E. apply (tr_read_typed t id); [done|]. unfold tr_readAndRemove, tr_read in *.
  destruct (axiReads t !! id) as [[|x [|y q]]|]; try done; by injection E as <- _.
Qed.

Lemma enqueue_typed c b m created t d rnd w bp b' : buf_typed b -> mem_msg_typed m ->
  mb_enqueue c b m created t d rnd w bp = Ok b' -> buf_typed b'.
Proof.
  intros Hb Hm E. unfold mb_enqueue in E. inv_ok. destruct (arrival _ _ _ _ _) as [at_ la]. inv_ok.
  unfold buf_typed. cbn. by apply Forall_heap_push.
Qed.
Lemma outNode_typed v b s : nsu_typed s -> buf_typed b -> nsu_typed (set_nsu_outNode v b s).
Proof. intros [] Hb. unfold set_nsu_outNode. repeat case_match; by constructor. Qed.
Lemma outNode_lookup_typed v s b : nsu_typed s -> nsu_outNode s v = Some b -> buf_typed b.
Proof. intros [] E. unfold nsu_outNode in E. repeat case_match; by simplify_eq. Qed.

(** ** The read side *)

Lemma read_state_typed r id x : read_typed r -> ns_state r !! id = Some x -> response_typed x.
Proof. intros Hr E. exact (Forall_lookup_1 _ _ _ _ (dt_state _ Hr) E). Qed.
Lemma set_state_typed r id x : read_typed r -> response_typed x -> read_typed (set_state id x r).
Proof. intros [] Hx. constructor; cbn; try done; [by rewrite length_insert|by apply Forall_insert]. Qed.
Lemma set_msg_typed r loc m next : read_typed r -> mem_msg_typed m -> read_typed (set_msgs (<[loc := m]> (ns_msgs r)) next r).
Proof.
  intros [] Hm. constructor; cbn; try done. intros l m' [[<- <-]|[_ E]]%lookup_insert_Some; [done|by eapply dt_msgs0].
Qed.
Lemma progress_typed x act sent auto : response_typed x -> is_u16 sent -> response_typed (set_progress act sent auto x).
Proof. by intros [] Hs; constructor. Qed.
Lemma set_tracker_typed r t : read_typed r -> tracker_typed t -> read_typed (set_read_tracker t r).
Proof. by intros [] Ht; constructor. Qed.
Lemma set_drain_typed r d : read_typed r -> read_typed (set_ns_drain d r).
Proof. by intros []; constructor. Qed.
Lemma set_event_typed r t : read_typed r -> read_typed (set_ns_event t r).
Proof. by intros []; constructor. Qed.
Lemma set_pace_typed r b n t : read_typed r -> is_u16 b -> is_u16 n -> read_typed (set_pace b n t r).
Proof. by intros [] Hb Hn; constructor. Qed.
Lemma touch_typed i loc r : read_typed r -> read_typed (touch_msg i loc r).
Proof.
  intros []. constructor; cbn; try done. intros l m E. rewrite lookup_alter_Some in E.
  destruct E as [(<- & m' & E & ->)|[_ E]]; [|by eapply dt_msgs0]. apply src_typed. by eapply dt_msgs0.
Qed.
Lemma set_read_typed r s : nsu_typed s -> read_typed r -> nsu_typed (set_ns_read r s).
Proof. by intros [] Hr; constructor. Qed.
Lemma set_net_typed p q s : nsu_typed s -> nsu_typed (set_ns_net p q s).
Proof. by intros []; constructor. Qed.
Lemma set_write_typed w s : nsu_typed s -> write_typed w -> nsu_typed (set_ns_write w s).
Proof. by intros [] Hw; constructor. Qed.

#[local] Hint Resolve set_state_typed set_msg_typed progress_typed set_tracker_typed set_drain_typed set_event_typed
  set_pace_typed touch_typed set_read_typed set_net_typed set_write_typed nt_read nt_write dt_burst dt_flits
  dt_tracker rt_sent src_typed vnet_typed : core.

Lemma start_typed s id beat s' : nsu_typed s -> aximmRWData_typed beat -> 0 <= id < 4 ->
  startResponse s id beat = Ok s' -> nsu_typed s'.
Proof.
  intros Hs Hb Hid E. unfold startResponse in E. inv_ok.
  pose proof (tr_read_typed _ _ _ (dt_tracker _ (nt_read _ Hs)) Ha) as Hr.
  assert (is_u16 (getTotalByteSize a0)) as Ht by apply u16_range. unfold is_u16 in Ht.
  destruct a1 as [p n]. injection E as <-.
  apply set_net_typed, set_read_typed, set_state_typed; auto using npp_typed.
  constructor; cbn; auto using u8_is; try done. pose proof (mt_orig _ Hr). destruct (0 <? _); [done|]. unfold is_u32. lia.
Qed.
Lemma accumulate_typed W beat x x' : response_typed x -> aximmRWData_typed beat -> accumulate W beat x = Ok x' -> response_typed x'.
Proof.
  intros [] Hb E. unfold accumulate in E. inv_ok. constructor; cbn; auto using is_u64_lor.
  apply copy_typed; [done|]. apply slice_typed, Hb.
Qed.
Lemma flush_typed id beat r x r' x' : read_typed r -> response_typed x -> 0 <= id < 4 -> aximmRWData_typed beat ->
  flushAccum id beat r x = Ok (r', x') -> read_typed r' /\ response_typed x'.
Proof.
  intros Hr Hx Hid Hb E. unfold flushAccum in E. destruct (_ || _) in E; [|by injection E as <- <-].
  inv_ok. simplify_eq. destruct (rt_buf _ Hx) as [Hl Hd]. split.
  - apply set_msg_typed; [done|]. eapply append_typed; [by eapply (dt_msgs _ Hr)| |exact Ha1].
    constructor; cbn; try done; [unfold is_u32; lia|apply (rt_strobe _ Hx)].
  - by destruct Hx; constructor.
Qed.
Lemma after_typed period now s x s' : nsu_typed s -> response_typed x -> afterFlit period now s x = Ok s' -> nsu_typed s'.
Proof.
  intros Hs Hx E. unfold afterFlit, nsu_schedule in E. destruct (_ <=? _) in E.
  - inv_ok. destruct a as [q t]. simplify_eq. pose proof (tr_remove_typed _ _ _ _ (dt_tracker _ (nt_read _ Hs)) Ha). auto 10.
  - destruct (injectable _ _) in E; [destruct (ns_deqEvent _) in E|]; inv_ok; simplify_eq; auto.
Qed.
Lemma dequeue_typed i period gap pgap now s s' fls : nsu_typed s ->
  nsu_dequeueIntermediate i period gap pgap now s = Ok (s', fls) -> nsu_typed s'.
Proof.
  intros Hs E. unfold nsu_dequeueIntermediate, nsu_schedule in E. destruct (negb _) in E; [by injection E as <- <-|].
  inv_ok. pose proof (read_state_typed _ _ _ (nt_read _ Hs) Ha) as Hx.
  assert (Hp : forall n, read_typed (set_pace (cooled_burst period now (ns_read s)) (ns_flits_total (ns_read s)) n (ns_read s))).
  { intros n. apply set_pace_typed; auto. unfold cooled_burst. destruct (_ && _); [done|auto]. }
  destruct (injectable _ _) in E; [|inv_ok; simplify_eq; by eapply after_typed].
  inv_ok. destruct (_ <? _) in E; [destruct (ns_deqEvent _) in E; inv_ok; simplify_eq; auto|]. inv_ok.
  destruct (injectFlit _ _ _) in E; [|destruct (ns_deqEvent _) in E; inv_ok; simplify_eq; auto].
  inv_ok. simplify_eq. eapply after_typed; [| |exact Ha5]; auto 10.
Qed.
Lemma readResponse_typed vcs n i period W gap pgap now s beat port vnet ok s' fls :
  nsu_typed s -> aximmRWData_typed beat ->
  flitisizeReadResponse vcs n i period W gap pgap now s beat port vnet = Ok (ok, s', fls) -> nsu_typed s'.
Proof.
  intros Hs Hb E. unfold flitisizeReadResponse in E. destruct (nd_valid _) in E; [by injection E as <- <- <-|]. inv_ok.
  assert (0 <= rd_id beat < 4) as Hid
    by (pose proof (rdt_id _ Hb); unfold is_u32, NUM_SUPPORTED_AXI_IDS in *; bool_hyps; lia).
  assert (nsu_typed a0) as H0 by (destruct (rr_active a); [by simplify_eq|by eapply start_typed]).
  pose proof (accumulate_typed _ _ _ _ (read_state_typed _ _ _ (nt_read _ H0) Ha1) Hb Ha2) as Hx.
  destruct a3 as [r x]. destruct (flush_typed _ _ _ _ _ _ (nt_read _ H0) Hx Hid Hb Ha3) as [Hr Hx']. inv_ok.
  destruct (injectable _ _) in E.
  - inv_ok. destruct a5 as [s1 f1]. simplify_eq. eapply dequeue_typed; [|exact Ha6]. auto 10.
  - destruct (_ <=? _) in E; [|by injection E as <- <- <-; auto]. inv_ok. destruct a5 as [q t]. simplify_eq.
    pose proof (tr_remove_typed _ _ _ _ (dt_tracker _ Hr) Ha6). auto 10.
Qed.

(** ** Requests and the write side *)

Lemma readRequest_typed c W now s req a ok s' : nsu_typed s -> mem_msg_typed (nq_msg req) -> aximmRWAddr_typed a ->
  depacketizeReadRequestFlit c W now s req a = Ok (ok, s') -> nsu_typed s'.
Proof.
  intros Hs Hr Ha E. unfold depacketizeReadRequestFlit, enqueueReadRequestToTile in E.
  destruct (negb _) in E; [by injection E as _ <-|]. inv_ok. destruct (negb _) in E; [by injection E as _ <-|]. inv_ok.
  destruct a1 as [b t]. pose proof (tr_add_typed _ _ _ _ (dt_tracker _ (nt_read _ Hs)) Hr Ha1).
  destruct (negb b) in E; [by injection E as _ <-|]. inv_ok. simplify_eq. apply outNode_typed; [auto|].
  eapply enqueue_typed; [by eapply outNode_lookup_typed| |eassumption]. auto using tile_typed, ra_debug_typed, adapt_typed.
Qed.
Lemma writeRequest_typed c W now s req a ok s' : nsu_typed s -> mem_msg_typed (nq_msg req) -> aximmRWAddr_typed a ->
  depacketizeWriteRequestFlit c W now s req a = Ok (ok, s') -> nsu_typed s'.
Proof.
  intros Hs Hr Ha E. unfold depacketizeWriteRequestFlit in E. destruct (negb _) in E; [by injection E as _ <-|]. inv_ok.
  destruct a0 as [b t]. destruct Hs as [Hrd Hw H1 H2 H3] eqn:Es. clear Es.
  pose proof (tr_add_typed _ _ _ _ (wt_tracker _ Hw) Hr Ha0).
  destruct (negb b) in E; [by injection E as _ <-|]. inv_ok. simplify_eq. apply outNode_typed.
  - apply set_write_typed; [done|]. destruct Hw. by constructor.
  - eapply enqueue_typed; [exact H2| |eassumption]. auto using tile_typed, adapt_typed.
Qed.

Lemma sendN_typed c now s ms ok s' : nsu_typed s -> Forall mem_msg_typed ms ->
  sendNWriteDataMsgs c now s ms = Ok (ok, s') -> nsu_typed s'.
Proof.
  intros Hs Hm E. unfold sendNWriteDataMsgs in E. destruct ms as [|m ms]; [by injection E as _ <-|].
  destruct (negb _) in E; [by injection E as _ <-|]. inv_ok. simplify_eq. apply outNode_typed; [done|].
  eapply (foldM_inv buf_typed); [|exact (nt_W _ Hs)|exact Ha]. intros b x b' Hx Hb Ex. cbv beta in Ex.
  eapply enqueue_typed; [exact Hb| |exact Ex]. exact (proj1 (Forall_forall _ _) Hm x Hx).
Qed.
Lemma create_typed ps d : Forall aximmRWData_typed ps -> Forall mem_msg_typed (createNWriteDataMsgs ps d).
Proof.
  intros Hp. apply Forall_fmap. apply (Forall_impl _ _ _ Hp). intros p H. cbn. by apply debug_typed, new_msg_typed.
Qed.

Lemma b2b_typed m w : write_typed w -> write_typed (set_b2b m w).
Proof. by intros []; constructor. Qed.
Lemma marks_typed now id n l w : write_typed w -> write_typed (tailMarks now id n l w).
Proof. intros []. unfold tailMarks. destruct l; by constructor. Qed.
Lemma assembly_set_typed p a w : write_typed w -> assembly_typed a ->
  write_typed (set_assembly (<[p := a]> (ns_assembly w)) w).
Proof.
  intros [] Ha. constructor; cbn; try done. intros p' a' [[<- <-]|[_ E]]%lookup_insert_Some; [done|by eapply wt_assembly0].
Qed.
Lemma assembly_delete_typed p w : write_typed w -> write_typed (set_assembly (delete p (ns_assembly w)) w).
Proof.
  intros []. constructor; cbn; try done. intros p' a' [_ E]%lookup_delete_Some. by eapply wt_assembly0.
Qed.

Lemma resp_id_typed m id : getRespAXIID m = Ok id -> is_u32 id.
Proof.
  unfold getRespAXIID. intros E. inv_ok. pose proof (u8_range (rd_id a)). unfold is_u32. lia.
Qed.
Lemma writeData_typed period c W now s pid k m ok s' : 0 <= W -> nsu_typed s -> mem_msg_typed m ->
  depacketizeWriteDataFlit period c W now s pid k m = Ok (ok, s') -> nsu_typed s'.
Proof.
  intros HW Hs Hm E. unfold depacketizeWriteDataFlit in E. inv_ok. destruct (negb (tr_has _ _)) in E; [by injection E as _ <-|].
  set (w := if _ =? 0 then _ else ns_write s) in E.
  assert (write_typed w) as Hw by (subst w; case_match; [apply b2b_typed|]; apply (nt_write _ Hs)). inv_ok.
  destruct a3 as [out staged]. inv_ok. destruct a3 as [ok1 s1].
  assert (is_u32 a) as Hid by (by apply resp_id_typed in Ha).
  assert (assembly_typed (default Assembly_empty (ns_assembly w !! pid))) as Has.
  { destruct (ns_assembly w !! pid) as [st|] eqn:Ep; [by eapply (wt_assembly _ Hw)|]. split; [apply zeros_typed|done]. }
  pose proof (flit_data_typed _ _ _ Hm Ha0) as Hd.
  pose proof (flit_strobe_typed m _ (proj1 (u8_range (u8 k - 1))) Hm) as Hsb.
  destruct (depack_typed _ _ _ _ _ _ _ _ _ _ _ HW Hid Has Hd Hsb Ha3) as [Hout Hst].
  assert (nsu_typed s1) as H1.
  { eapply sendN_typed; [|apply create_typed|exact Ha4]; [auto|]. by apply Forall_fmap. }
  destruct (negb ok1) in E; [by injection E as _ <-|]. injection E as _ <-. apply set_write_typed; [done|].
  set (w2 := if 16 <? W then _ else _). assert (write_typed w2) as Hw2.
  { subst w2. destruct (16 <? W); [|by apply nt_write].
    case_match; [apply assembly_delete_typed|apply assembly_set_typed]; try done; by apply nt_write. }
  case_match; [by apply marks_typed|done].
Qed.
Lemma writeResponse_typed vcs i period now s m b port ok s' fls : nsu_typed s ->
  flitisizeWriteResponse vcs i period now s m b port = Ok (ok, s', fls) -> nsu_typed s'.
Proof.
  intros Hs E. unfold flitisizeWriteResponse in E. inv_ok. destruct a as [q t]. inv_ok.
  pose proof (tr_remove_typed _ _ _ _ (wt_tracker _ (nt_write _ Hs)) Ha).
  assert (forall p, write_typed (set_resp_counters t p (u64 (ns_write_resp_total (ns_write s) + 1)) (ns_write s)))
    by (intros p; destruct (nt_write _ Hs); constructor; cbn; auto).
  destruct a0 as [p n]. destruct (injectFlit _ _ _) in E; injection E as _ <- _; auto.
Qed.

(** ** Every operation *)

Definition op_typed (op : nsu_op) : Prop :=
  match op with
  | OFlit fl _ => mem_msg_typed (fl_msg fl)
  | OMsg msg _ => mem_msg_typed msg
  | OTile _ b => buf_typed b
  | _ => True
  end.

Lemma init_typed pid : nsu_typed (mmNsu_init pid).
Proof.
  assert (tracker_typed RequestTracker_empty) by (constructor; done).
  constructor; [constructor; try done|by constructor|by constructor..].
  apply Forall_replicate. by constructor; try apply (zeros_typed 64).
Qed.

(** Every operation of the slave unit keeps its members within their C++ types.  From
    a state whose counters fit their widths, whose byte arrays hold 64 bytes and whose
    messages and queued requests are well formed, any operation on a well-formed input
    that does not stop the simulation leads to such a state. *)
Theorem nsu_types_preserved vcs n oport i period c W gap pgap now s op ok s' fls :
  0 <= W -> nsu_typed s -> op_typed op ->
  nsu_exec vcs n oport i period c W gap pgap now s op = Ok (ok, s', fls) -> nsu_typed s'.
Proof.
  intros HW Hs Ho E. destruct op as [fl inc|msg v| | |q|v b]; cbn [nsu_exec op_typed] in *.
  - inv_ok. destruct a as [ok1 s1]. simplify_eq. unfold nsu_depacketizeFlit in Ha. pose proof (mt_payload _ Ho) as Hp.
    destruct (mm_payload (fl_msg fl)) as [a|d| |]; try done; [|by eapply writeData_typed].
    destruct (ra_cmd a); try done; 
      [exact (readRequest_typed _ _ _ _ (mk_nsuReq (fl_msg fl) inc) _ _ _ Hs Ho Hp Ha)
      |exact (writeRequest_typed _ _ _ _ (mk_nsuReq (fl_msg fl) inc) _ _ _ Hs Ho Hp Ha)].
  - unfold nsu_flitisizeMessage in E. inv_ok. pose proof (mt_payload _ Ho) as Hp. destruct (mm_payload msg) as [|d|b|]; try done.
    + by eapply readResponse_typed.
    + inv_ok. destruct a0 as [[ok1 s1] f1]. inv_ok. simplify_eq. by eapply writeResponse_typed.
  - inv_ok. destruct a as [s1 f1]. simplify_eq. eapply dequeue_typed; [|exact Ha]. auto.
  - injection E as _ <- _. destruct Hs. by constructor.
  - injection E as _ <- _. auto.
  - injection E as _ <- _. by apply outNode_typed.
Qed.
