(* ===== verification/MmNsuWrite.v ===== *)
(** * Write packets at the AXI-MM slave unit

    The flits of a write packet of the master unit are given to [mmNocSlaveUnit] one by
    one, each again until it is accepted, while the endpoint takes beats from the W
    channel and the unit serves reads, other addresses and responses of other IDs.  What
    reaches the endpoint are the bytes and strobes of the write buffer entry. *)
From stdpp Require Import base gmap list list_numbers fin_maps sets strings.
From Stdlib Require Import ZArith Lia.
From S2P Require Import Prelude AxiTypes MmWriteBuffer Flit MmDepack SNmu MsgBuffer MmNmu MmNmuDrain ReqTracker MmNsu MmNsuRead MmNsuRun.
Open Scope Z_scope.

(** ** The packet, flit by flit *)

Section Packet.
Context (W id addr T : Z) (m : NocMemoryMsg).
Local Abbreviation step := (writeDataFlit W id addr T m).

(** After the first [k] data flits: the assembly and the beats so far. *)
Definition upto (k : Z) (a : MmWriteDataAssemblyState) (out : depack_out) : Prop :=
  foldM step (Assembly_empty, []) (seqZ 0 k) = Ok (a, out).

Lemma upto_0 : upto 0 Assembly_empty [].
Proof. done. Qed.
Lemma upto_next k n a' out' : upto n a' out' -> 0 <= k < n -> exists a out, upto k a out /\
  exists flit_data o a1, mem_getFlitData m k = Ok flit_data /\
    depacketizeMmWriteDataFlit W id addr a k (mm_num_flits m) flit_data (getFlitStrobe m k) T = Ok (o, a1) /\
    upto (k + 1) a1 (out ++ o).
Proof.
  intros Hn Hk. unfold upto in *.
  replace (seqZ 0 n) with ((seqZ 0 k ++ [k]) ++ seqZ (k + 1) (n - (k + 1))) in Hn.
  2: { replace n with (k + (1 + (n - (k + 1)))) at 2 by lia. rewrite seqZ_app, seqZ_app by lia.
       rewrite <- app_assoc. f_equal. }
  rewrite !foldM_app in Hn. apply rbind_Ok in Hn as ([a1 o1] & H1 & Hn). apply rbind_Ok in H1 as ([a out] & H0 & H1).
  exists a, out. split; [done|]. cbn [foldM] in H1. apply rbind_Ok in H1 as ([a2 o2] & H1 & E). injection E as <- <-.
  unfold writeDataFlit in H1. cbn [fst snd] in H1. apply rbind_Ok in H1 as (fd & Ed & H1).
  apply rbind_Ok in H1 as ([o a3] & Eo & H1). injection H1 as <- <-.
  exists fd, o, a3. split_and!; try done. rewrite seqZ_app by lia. rewrite foldM_app, H0. cbn [rbind foldM seqZ].
  change (seqZ (0 + k) 1) with [0 + k]. rewrite Z.add_0_l. cbn [foldM]. unfold writeDataFlit at 1. cbn [fst snd].
  rewrite Ed. cbn [rbind]. by rewrite Eo.
Qed.
Lemma upto_fun k a out a' out' : upto k a out -> upto k a' out' -> a = a' /\ out = out'.
Proof. unfold upto. intros E1 E2. rewrite E1 in E2. by injection E2 as <- <-. Qed.

(** Endpoints of at most 16 bytes need no assembly. *)
Lemma upto_narrow k a out : W <= 16 -> upto k a out -> a = Assembly_empty.
Proof.
  intros HW E. unfold upto in E. eapply (foldM_inv (fun x => x.1 = Assembly_empty)) in E; [done| |done].
  intros [a1 o1] i [a2 o2] _ Ha Ei. cbn in Ha. subst a1. unfold writeDataFlit, depacketizeMmWriteDataFlit in Ei.
  cbn [fst snd] in Ei. apply rbind_Ok in Ei as (fd & _ & Ei). apply rbind_Ok in Ei as ([o a1] & Eo & Ei).
  injection Ei as <- <-. cbn [fst].
  destruct (W <? 16) eqn:E16; [inv_ok; by simplify_eq|]. destruct (W =? 16) eqn:E17; [by simplify_eq|]. bool_hyps. lia.
Qed.
End Packet.

(** What the slave unit relies on of a packet: a complete, well-formed entry whose beats
    carry the ID of its write request. *)
Record packet_good (e : aximmWriteBufferEntry) : Prop := {
  pg_ok : wbe_ok e;
  pg_full : wb_numEmptyBytes e = 0;
  pg_valid : beats_valid e;
  pg_write : ra_cmd (wb_nppRequest e) = WRITE;
  pg_range : 0 <= ra_id (wb_nppRequest e) < 256;
  pg_id : exists b, wb_nppData e !! 0%nat = Some b /\ rd_id b = ra_id (wb_nppRequest e)
}.

(** The messages for the W channel made of beats. *)
Definition w_msgs (e : aximmWriteBufferEntry) (out : depack_out) : list NocMemoryMsg :=
  createNWriteDataMsgs out.*1 (mm_debugId (body_msg e)).
Lemma w_msgs_app e o1 o2 : w_msgs e (o1 ++ o2) = w_msgs e o1 ++ w_msgs e o2.
Proof. unfold w_msgs, createNWriteDataMsgs. by rewrite !fmap_app. Qed.

(** ** Sending beats *)

Section Send.
Context (c : mbCfg).
Hypothesis Hz : mc_allow_zero_latency c = true.
Local Abbreviation msgbuf := (mbuf (M := NocMemoryMsg)).

Lemma mb_inv_later (b : msgbuf) ins outs t t' : mb_inv c b ins outs t -> t <= t' -> mb_inv c b ins outs t'.
Proof. intros [] Ht. constructor; try done; try lia. intros u Hu. apply mi_visible. lia. Qed.

Lemma enqueue_last (b : msgbuf) m now b' : mb_enqueue c b m now now 0 None false false = Ok b' -> m_last_arrival_time b' <= now.
Proof. unfold mb_enqueue. cbn [arrival]. intros E. inv_ok. cbn. lia. Qed.

Lemma enqueue_now_ok ms : forall (b : msgbuf) ins outs t now, mb_inv c b ins outs t -> t <= now -> m_last_arrival_time b <= now ->
  mc_max_size c = 0 \/ visible b now + nz (length ms) <= mc_max_size c ->
  exists b', foldM (fun b m => mb_enqueue c b m now now 0 None false false) b ms = Ok b' /\
    mb_inv c b' (ins ++ ms) outs now /\ m_last_arrival_time b' <= now.
Proof using Hz.
  induction ms as [|m ms IH]; intros b ins outs t now Hb Ht Hl Hm.
  { exists b. rewrite app_nil_r. split; [done|]. split; [by eapply mb_inv_later|done]. }
  destruct (mb_enqueue_all_ok c b ins outs t now [(m, 0)] Hb Ht) as (b1 & E1); try done.
  { destruct Hm as [?|Hm]; [by left|right]. cbn [length] in *. lia. }
  { repeat constructor. cbn. lia. }
  { by repeat constructor. }
  unfold mb_enqueue_all in E1. cbn [foldM] in E1. apply rbind_Ok in E1 as (b2 & E1 & E). injection E as <-.
  destruct (mb_enqueue_inv c _ _ _ _ _ _ _ _ _ _ Hb Ht E1) as [Hb' Hv].
  destruct (IH b2 (ins ++ [m]) outs now now Hb') as (b' & E & Hb2 & Hl2); [lia|by eapply enqueue_last| |].
  { destruct Hm as [?|Hm]; [by left|right]. cbn [length] in Hm. lia. }
  exists b'. cbn [foldM]. rewrite E1. cbn [rbind]. rewrite <- app_assoc in Hb2. done.
Qed.

Lemma sendN_ok now s ms ins outs t : mb_inv c (ns_W s) ins outs t -> t <= now -> m_last_arrival_time (ns_W s) <= t ->
  exists (ok : bool) (b : msgbuf), sendNWriteDataMsgs c now s ms = Ok (ok, if ok then set_nsu_outNode W_VNET b s else s) /\
    (ok = true -> mb_inv c b (ins ++ ms) outs now /\ m_last_arrival_time b <= now).
Proof using Hz.
  intros Hb Ht Hl. unfold sendNWriteDataMsgs.
  destruct ms as [|m ms]; [|destruct (areNSlotsAvailable c (ns_W s) (nz (length (m :: ms))) now) eqn:Ea; cbn [negb]].
  - exists true, (ns_W s). split; [by destruct s|]. intros _. rewrite app_nil_r. split; [by eapply mb_inv_later|lia].
  - destruct (enqueue_now_ok (m :: ms) (ns_W s) ins outs t now Hb Ht) as (b & E & Hb' & Hl'); [lia| |].
    { unfold areNSlotsAvailable in Ea. destruct (Z.eqb_spec (mc_max_size c) 0); [by left|right].
      apply Z.leb_le in Ea. exact Ea. }
    exists true, b. rewrite E. done.
  - by exists false, (ns_W s).
Qed.
End Send.

(** ** What other operations keep *)

(** The write side and the W channel. *)
Definition same_write (s s' : mmNsu) : Prop := ns_write s' = ns_write s /\ ns_W s' = ns_W s.

Lemma tr_add_front t r b t' id q : tr_add t r = Ok (b, t') -> tr_read t id = Ok q -> tr_read t' id = Ok q.
Proof.
  unfold tr_add, tr_read. intros E Hq. destruct (_ =? 0) in E; [by simplify_eq|]. inv_ok.
  destruct (axiReads t !! ra_id a) as [l|] eqn:El; [|destruct (_ =? _) in E]; simplify_eq; cbn; [|done|];
    (destruct (decide (id = ra_id a)) as [-> |Hne]; [|by rewrite lookup_insert_ne]); rewrite El in Hq; [|done].
  rewrite lookup_insert_eq. by destruct l.
Qed.

Lemma after_write period now s x s' : afterFlit period now s x = Ok s' -> same_write s s'.
Proof.
  unfold afterFlit, nsu_schedule. intros E. destruct (_ <=? _) in E; [inv_ok; destruct a; by simplify_eq|].
  destruct (injectable _ _) in E; [destruct (ns_deqEvent _) in E|]; inv_ok; by simplify_eq.
Qed.
Lemma dequeue_write i period g pg now s s' fls : nsu_dequeueIntermediate i period g pg now s = Ok (s', fls) -> same_write s s'.
Proof.
  unfold nsu_dequeueIntermediate, nsu_schedule. intros E. destruct (negb _) in E; [by simplify_eq|]. inv_ok.
  destruct (injectable _ _) in E; [|inv_ok; simplify_eq; by eapply after_write].
  inv_ok. destruct (_ <? _) in E; [destruct (ns_deqEvent _) in E; inv_ok; by simplify_eq|]. inv_ok.
  destruct (injectFlit _ _ _) in E; [|destruct (ns_deqEvent _) in E; inv_ok; by simplify_eq].
  inv_ok. simplify_eq. match goal with H : afterFlit _ _ _ _ = _ |- _ => exact (after_write _ _ _ _ _ H) end.
Qed.
Lemma readResponse_write vcs n i period W g pg now s beat port vnet ok s' fls :
  flitisizeReadResponse vcs n i period W g pg now s beat port vnet = Ok (ok, s', fls) -> same_write s s'.
Proof.
  unfold flitisizeReadResponse. intros E. destruct (nd_valid _) in E; [by simplify_eq|]. inv_ok.
  assert (same_write s a0) as [Ew EW].
  { destruct (rr_active a); [by simplify_eq|]. unfold startResponse in Ha0. inv_ok. match goal with p : (Z * Z)%type |- _ => destruct p end. by injection Ha0 as <-. }
  destruct a3 as [r x]. inv_ok. destruct (injectable _ _) in E.
  - inv_ok. destruct a5 as [s1 f1]. simplify_eq. apply dequeue_write in Ha6 as [E1 E2].
    split; [exact (eq_trans E1 Ew)|exact (eq_trans E2 EW)].
  - destruct (_ <=? _) in E; [inv_ok; destruct a5|]; by simplify_eq.
Qed.

(** ** Delivery of a packet *)

Section Delivery.
Context (m_route_to_vc_map : gmap (Z * Z * Z) Z) (m_num_aximm_nmu : Z) (oport : Z -> option Z)
  (m_id period : Z) (bufCfg : mbCfg) (W : Z) (gap_cycles per_flit_gap_cycles : Z).
Context (ni_router : Z -> Z -> Z) (nmu_id : Z) (p : wpkt).
Local Abbreviation e := (wp_entry p).
Local Abbreviation req := (wb_nppRequest (wp_entry p)).
Local Abbreviation axi_id := (ra_id (wb_nppRequest (wp_entry p))).
Local Abbreviation flit := (wp_flit ni_router nmu_id p).
Local Abbreviation depacketize := (nsu_depacketizeFlit period bufCfg W).
Local Abbreviation exec :=
  (nsu_exec m_route_to_vc_map m_num_aximm_nmu oport m_id period bufCfg W gap_cycles per_flit_gap_cycles).

(** The number of data flits. *)
Definition data_flits : Z := (wb_total e + 15) / 16.

(** Operations that leave the packet alone: no write data, no response of its ID, nothing
    taken from the W channel. *)
Definition leaves (op : nsu_op) : Prop :=
  match op with
  | OFlit fl _ =>
      match mm_payload (fl_msg fl) with
      | PAddr a => ra_cmd a = READ -> mm_vnet (fl_msg fl) = AR_VNET
      | _ => False
      end
  | OMsg msg _ => match mm_payload msg with PResp b => wr_id b <> axi_id | _ => True end
  | OTile vnet _ => vnet = AR_VNET \/ vnet = AW_VNET
  | _ => True
  end.

(** The packet's flits in order, each until it is accepted; [k] data flits were accepted,
    and the endpoint took the messages [taken] from the W channel. *)
Inductive delivery (s0 : mmNsu) (t0 : Z) : mmNsu -> Z -> list NocMemoryMsg -> Z -> Prop :=
  | del_addr now incoming s :
      t0 <= now -> depacketize now s0 (flit 0) incoming = Ok (true, s) -> delivery s0 t0 s 0 [] now
  | del_data s k taken t now incoming ok s' :
      delivery s0 t0 s k taken t -> t <= now -> k < data_flits ->
      depacketize now s (flit (k + 1)) incoming = Ok (ok, s') ->
      delivery s0 t0 s' (if ok then k + 1 else k) taken now
  | del_take s k taken t now msg delay b :
      delivery s0 t0 s k taken t -> t <= now -> mb_dequeue bufCfg (ns_W s) now = Ok (msg, delay, b) ->
      delivery s0 t0 (set_nsu_outNode W_VNET b s) k (taken ++ [msg]) now
  | del_other s k taken t now op ok s' fls :
      delivery s0 t0 s k taken t -> t <= now -> leaves op -> exec now s op = Ok (ok, s', fls) ->
      delivery s0 t0 s' k taken now.

(** ** The invariant *)

Record packet_at (ins outs : list NocMemoryMsg) (s : mmNsu) (k : Z) (taken : list NocMemoryMsg) (t : Z) : Prop := {
  pa_range : 0 <= k <= data_flits;
  pa_front : exists rq, tr_read (ns_writeTracker (ns_write s)) axi_id = Ok rq /\ req_addr rq = Some req;
  pa_upto : exists a out, upto W axi_id (ra_addr req) (wb_total e) (body_msg e) k a out /\
    (k < data_flits -> default Assembly_empty (ns_assembly (ns_write s) !! wp_id p) = a) /\
    mb_inv bufCfg (ns_W s) (ins ++ w_msgs e out) (outs ++ taken) t;
  pa_last : m_last_arrival_time (ns_W s) <= t
}.

Lemma packet_frame ins outs s s' k taken t t' : packet_at ins outs s k taken t -> t <= t' ->
  tr_read (ns_writeTracker (ns_write s')) axi_id = tr_read (ns_writeTracker (ns_write s)) axi_id ->
  ns_assembly (ns_write s') = ns_assembly (ns_write s) -> ns_W s' = ns_W s -> packet_at ins outs s' k taken t'.
Proof.
  intros [Hk Hf (a & out & Hu & Ha & Hb) Hl] Ht E1 E2 E3. constructor; [done|by rewrite E1| |rewrite E3; lia].
  exists a, out. rewrite E2, E3. split_and!; try done. by eapply mb_inv_later.
Qed.

Lemma other_frame now s op ok s' fls rq : leaves op -> exec now s op = Ok (ok, s', fls) ->
  tr_read (ns_writeTracker (ns_write s)) axi_id = Ok rq ->
  tr_read (ns_writeTracker (ns_write s')) axi_id = Ok rq /\
  ns_assembly (ns_write s') = ns_assembly (ns_write s) /\ ns_W s' = ns_W s.
Proof.
  intros Hl E Hr. assert (Hsame : forall s1, same_write s s1 ->
    tr_read (ns_writeTracker (ns_write s1)) axi_id = Ok rq /\
    ns_assembly (ns_write s1) = ns_assembly (ns_write s) /\ ns_W s1 = ns_W s) by (intros s1 [-> ->]; done).
  destruct op as [fl inc|msg v| | |q|v b]; cbn [nsu_exec leaves] in *.
  - inv_ok. destruct a as [ok1 s1]. simplify_eq. unfold nsu_depacketizeFlit in Ha.
    destruct (mm_payload (fl_msg fl)) as [a| | |]; try done. destruct (ra_cmd a) eqn:Ec; [| |done].
    + unfold depacketizeReadRequestFlit, enqueueReadRequestToTile in Ha.
      destruct (negb _) in Ha; [simplify_eq; by apply Hsame|]. cbn [nq_msg] in Ha. rewrite (Hl eq_refl) in Ha. inv_ok.
      destruct (negb _) in Ha; [simplify_eq; by apply Hsame|]. inv_ok. destruct a1 as [ok2 t].
      destruct (negb ok2) in Ha; [simplify_eq; by apply Hsame|]. inv_ok. simplify_eq. by apply Hsame.
    + unfold depacketizeWriteRequestFlit in Ha. destruct (negb _) in Ha; [simplify_eq; by apply Hsame|]. inv_ok.
      destruct a0 as [ok2 t]. destruct (negb ok2) in Ha; [simplify_eq; by apply Hsame|]. inv_ok. simplify_eq.
      split; [|done]. cbn. by eapply tr_add_front.
  - unfold nsu_flitisizeMessage in E. inv_ok. destruct (mm_payload msg) as [|beat|b|]; try done.
    + apply Hsame. by eapply readResponse_write.
    + inv_ok. destruct a0 as [[ok1 s1] f1]. inv_ok. simplify_eq. unfold flitisizeWriteResponse in Ha0. inv_ok.
      destruct a0 as [q t]. inv_ok. assert (tr_read t axi_id = Ok rq) as Hr'
        by (rewrite <- Hr; by apply (readAndRemove_other _ (wr_id b) _ q)).
      match goal with p : (Z * Z)%type |- _ => destruct p end. destruct (injectFlit _ _ _) in Ha0; by simplify_eq.
  - inv_ok. destruct a as [s1 f1]. simplify_eq. apply Hsame. apply dequeue_write in Ha as [E1 E2]. done.
  - simplify_eq. by apply Hsame.
  - simplify_eq. by apply Hsame.
  - simplify_eq. apply Hsame. by destruct Hl as [-> | ->].
Qed.

Section Good.
Hypothesis Hgood : packet_good e.
Hypothesis HW : W ∈ widths.
Hypothesis Haddr : ra_addr req mod W = 0.
Hypothesis Hz : mc_allow_zero_latency bufCfg = true.

Lemma data_flits_range : 1 <= data_flits <= 16 /\ mm_num_flits (body_msg e) = data_flits.
Proof using Hgood.
  clear -Hgood. pose proof (wbe_total _ (pg_ok _ Hgood)) as HT. unfold data_flits. split; [mlia|].
  apply body_msg_flits, (pg_ok _ Hgood).
Qed.
Lemma upto_all : exists a out, upto W axi_id (ra_addr req) (wb_total e) (body_msg e) data_flits a out.
Proof using Hgood HW Haddr.
  clear -Hgood HW Haddr. destruct Hgood as [Hok Hf Hv _ _ _].
  destruct (packet_delivered e axi_id (ra_addr req) Hok Hf Hv W HW Haddr) as (out & pad & E & _).
  unfold writeDataPacket in E. apply rbind_Ok in E as ([a o] & E & E'). exists a, o. unfold upto.
  by rewrite <- (proj2 data_flits_range).
Qed.

Lemma body_id : getRespAXIID (set_src_ni nmu_id (body_msg e)) = Ok axi_id.
Proof using Hgood.
  clear -Hgood. destruct (pg_id _ Hgood) as (b & Hb & Hi). unfold getRespAXIID, pload_at.
  change (mm_pload (set_src_ni nmu_id (body_msg e))) with (wb_nppData e). change (zn 0) with 0%nat. rewrite Hb.
  cbn [of_opt rbind]. by rewrite Hi, u8_small by apply (pg_range _ Hgood).
Qed.
(** A data flit is accepted with its beats, or refused without a trace on the W channel. *)
Lemma data_step ins outs s k taken t now incoming : packet_at ins outs s k taken t -> t <= now -> k < data_flits ->
  exists ok s', depacketize now s (flit (k + 1)) incoming = Ok (ok, s') /\
    packet_at ins outs s' (if ok then k + 1 else k) taken now.
Proof using Hgood HW Haddr Hz.
  intros [Hk (rq & Hrq & Hra) (a & out & Hu & Ha & Hb) Hl] Ht Hkn. destruct data_flits_range as [Hn Hnf].
  destruct upto_all as (an & on & Hall).
  destruct (upto_next _ _ _ _ _ k _ _ _ Hall (conj (proj1 Hk) Hkn)) as (a' & out' & Hu' & fd & o & a1 & Ed & Eo & Hu1).
  destruct (upto_fun _ _ _ _ _ _ _ _ _ _ Hu Hu') as [<- <-]. clear Hu'. specialize (Ha Hkn).
  unfold nsu_depacketizeFlit, wp_flit. rewrite (proj2 (Z.eqb_neq (k + 1) 0)) by lia.
  cbn [fl_msg fl_id fl_packet_id new_flit]. change (mm_payload (set_src_ni nmu_id (body_msg e))) with (PData aximmRWData_default).
  cbv iota. unfold depacketizeWriteDataFlit. rewrite (u8_small (k + 1)) by lia.
  rewrite (proj2 (Z.eqb_neq (k + 1) 0)) by lia. cbn [negb guard].
  replace (k + 1 - 1) with k by lia. rewrite (u8_small k) by lia. rewrite body_id. cbn [rbind].
  assert (tr_has (ns_writeTracker (ns_write s)) axi_id = true) as ->.
  { unfold tr_read in Hrq. unfold tr_has. by destruct (axiReads _ !! axi_id) as [[|]|]. }
  cbn [negb]. set (w := if k =? 0 then _ else ns_write s).
  assert (ns_writeTracker w = ns_writeTracker (ns_write s) /\ ns_assembly w = ns_assembly (ns_write s)) as [Ew1 Ew2]
    by (subst w; by destruct (k =? 0)).
  change (mem_getFlitData (set_src_ni nmu_id (body_msg e)) k) with (mem_getFlitData (body_msg e) k).
  change (getFlitStrobe (set_src_ni nmu_id (body_msg e)) k) with (getFlitStrobe (body_msg e) k).
  change (mm_num_flits (set_src_ni nmu_id (body_msg e))) with (mm_num_flits (body_msg e)).
  change (mm_debugId (set_src_ni nmu_id (body_msg e))) with (mm_debugId (body_msg e)).
  rewrite Ed. cbn [rbind]. rewrite Ew1, Hrq. cbn [rbind]. rewrite Hra. cbn [of_opt rbind].
  rewrite Ew2, Ha. fold (wb_total e). rewrite Eo. cbn [rbind]. fold (w_msgs e o).
  destruct (sendN_ok bufCfg Hz now (set_ns_write w s) (w_msgs e o) _ _ t Hb Ht Hl) as (ok & b & Es & Hok).
  rewrite Es. cbn [rbind]. rewrite Hnf. destruct ok; cbn [negb]; eexists _, _; (split; [reflexivity|]).
  - destruct (Hok eq_refl) as [Hb' Hl']. set (w2 := if data_flits - 1 =? k then _ else _).
    assert (ns_writeTracker w2 = ns_writeTracker (ns_write s) /\ (k + 1 < data_flits ->
       default Assembly_empty (ns_assembly w2 !! wp_id p) = a1)) as [Hw1 Hw2].
    { subst w2. destruct (Z.eqb_spec (data_flits - 1) k) as [E|E].
      - split; [|lia]. rewrite <- Ew1. unfold tailMarks. by destruct (16 <? W), (existsb _ _).
      - destruct (Z.ltb_spec 16 W) as [Hw|Hw]; (split; [exact Ew1|intros _]); cbn.
        + by rewrite lookup_insert_eq.
        + rewrite (upto_narrow _ _ _ _ _ _ _ _ Hw Hu) in Ha. rewrite (upto_narrow _ _ _ _ _ _ _ _ Hw Hu1).
          change (default Assembly_empty (ns_assembly w !! wp_id p) = Assembly_empty). by rewrite Ew2. }
    constructor; [lia|by exists rq; rewrite <- Hw1 in Hrq| |exact Hl'].
    exists a1, (out ++ o). split; [done|]. split; [done|]. rewrite w_msgs_app, app_assoc. exact Hb'.
  - constructor; [lia|exists rq; by rewrite <- Ew1 in Hrq| |cbn; lia].
    exists a, out. split; [done|]. split; [intros _; cbn [ns_write set_ns_write]; by rewrite Ew2|].
    cbn. by eapply mb_inv_later.
Qed.

(** The address flit, when no write of its ID is outstanding. *)
Lemma addr_step s0 now incoming s l ins outs t0 : tracks (ns_writeTracker (ns_write s0)) l -> of_id axi_id l = [] ->
  ns_assembly (ns_write s0) !! wp_id p = None -> mb_inv bufCfg (ns_W s0) ins outs t0 ->
  m_last_arrival_time (ns_W s0) <= t0 -> t0 <= now ->
  depacketize now s0 (flit 0) incoming = Ok (true, s) -> packet_at ins outs s 0 [] now.
Proof using Hgood.
  intros Hl Hno Has Hb Hla Ht E. unfold nsu_depacketizeFlit, wp_flit in E. cbn [Z.eqb fl_msg new_flit] in E.
  change (mm_payload (set_src_ni nmu_id (head_msg e))) with (PAddr req) in E. cbv iota in E. rewrite (pg_write _ Hgood) in E.
  unfold depacketizeWriteRequestFlit in E. destruct (negb _) in E; [done|]. inv_ok. destruct a as [ok t].
  destruct ok; [|done]. cbn [negb] in E. inv_ok. simplify_eq.
  set (rq := mk_nsuReq (set_src_ni nmu_id (head_msg e)) incoming) in *.
  assert (req_addr rq = Some req) as Hra by done.
  destruct (tracks_add _ _ rq Hl) as (b & t1 & Et & _ & Ht1); [by eexists|]. rewrite Ha in Et. injection Et as <- <-.
  destruct data_flits_range as [Hn _].
  constructor; [lia| | |exact (Z.le_trans _ _ _ Hla Ht)].
  - exists rq. split; [|done]. change (tr_read t axi_id = Ok rq). unfold tr_read.
    rewrite (tk_queue _ _ Ht1), of_id_app, Hno. unfold of_id, req_id. cbn [filter list_filter]. rewrite Hra. cbn.
    by rewrite decide_True.
  - exists Assembly_empty, []. split; [apply upto_0|]. split; [intros _; change (default Assembly_empty
      (ns_assembly (ns_write s0) !! wp_id p) = Assembly_empty); by rewrite Has|].
    rewrite !app_nil_r. by eapply mb_inv_later.
Qed.

Lemma delivery_inv s0 t0 l ins outs s k taken t :
  tracks (ns_writeTracker (ns_write s0)) l -> of_id axi_id l = [] ->
  ns_assembly (ns_write s0) !! wp_id p = None -> mb_inv bufCfg (ns_W s0) ins outs t0 ->
  m_last_arrival_time (ns_W s0) <= t0 -> delivery s0 t0 s k taken t -> packet_at ins outs s k taken t.
Proof using Hgood HW Haddr Hz.
  intros Hl Hno Has Hb Hla Hd.
  induction Hd as [now inc s Ht E|s k taken t now inc ok s' Hd IH Ht Hk E|s k taken t now msg delay b Hd IH Ht E
                  |s k taken t now op ok s' fls Hd IH Ht Hlv E].
  - by eapply addr_step.
  - destruct (data_step ins outs s k taken t now inc IH Ht Hk) as (ok1 & s1 & E1 & Hi). rewrite E in E1.
    by injection E1 as <- <-.
  - destruct IH as [Hk Hf (a & out & Hu & Ha & Hb') Hl']. constructor; [done|done| |].
    + exists a, out. split; [done|]. split; [done|]. rewrite app_assoc. exact (mb_dequeue_inv _ _ _ _ _ _ _ _ _ Hb' Ht E).
    + cbn. unfold mb_dequeue in E. inv_ok. destruct a0 as [rdy again]. inv_ok. destruct (m_prio_heap (ns_W s)); [done|].
      simplify_eq. cbn. lia.
  - pose proof (pa_front _ _ _ _ _ _ IH) as (rq & Hrq & _).
    destruct (other_frame _ _ _ _ _ _ _ Hlv E Hrq) as (E1 & E2 & E3).
    eapply packet_frame; [exact IH|done| |done|done]. congruence.
Qed.
End Good.

(** C26: a write packet whose address is aligned to the endpoint's width, and that arrives
    while no write of its ID is outstanding, reaches the endpoint as it was buffered.  Give
    the slave unit the flits of such a packet of the master unit in order, each until it is
    accepted, in any interleaving with reads, other addresses, responses of other IDs and
    beats taken by the endpoint; the endpoint's width is one of the supported ones, the W
    channel is a zero-latency strict FIFO, and no assembly of the packet's number is open
    at the start.  No data flit faults,
    and once all are accepted, the messages the endpoint took from the W channel followed
    by those still in its buffer are the ones that were there before followed by the
    packet's: their beats carry the bytes of the write buffer entry with their strobes, in
    order, then only lanes that are not strobed; their number is the one the adapted
    address request announces, only the final one has WLAST, and all have the packet's ID. *)
Theorem nsu_write_packet_delivered s0 t0 l s k taken t outs :
  packet_good e -> W ∈ widths -> ra_addr req mod W = 0 ->
  mc_allow_zero_latency bufCfg = true -> mc_strict_fifo bufCfg = true ->
  tracks (ns_writeTracker (ns_write s0)) l -> of_id axi_id l = [] ->
  ns_assembly (ns_write s0) !! wp_id p = None ->
  mb_inv bufCfg (ns_W s0) (outs ++ (me_msg <$> m_prio_heap (ns_W s0))) outs t0 ->
  m_last_arrival_time (ns_W s0) <= t0 -> delivery s0 t0 s k taken t ->
  (forall now incoming, t <= now -> k < data_flits ->
     exists ok s', depacketize now s (flit (k + 1)) incoming = Ok (ok, s')) /\
  (k = data_flits -> exists out pad,
     taken ++ (me_msg <$> m_prio_heap (ns_W s)) = (me_msg <$> m_prio_heap (ns_W s0)) ++ w_msgs e out /\
     beats_content W out = wb_content e ++ pad /\ Forall (fun q => q.2 = false) pad /\
     nz (length out) = ra_len (adapt_request W req) + 1 /\
     lasts out = replicate (length out - 1) false ++ [true] /\ Forall (from_id axi_id) out).
Proof.
  intros Hgood HW Haddr Hz Hs Hl Hno Has Hb Hla Hd. pose proof (delivery_inv Hgood HW Haddr Hz _ _ _ _ _ _ _ _ _ Hl Hno Has Hb Hla Hd) as Hi.
  split.
  - intros now incoming Ht Hk. destruct (data_step Hgood HW Haddr Hz _ _ s k taken t now incoming Hi Ht Hk) as (ok & s' & E & _).
    by exists ok, s'.
  - intros ->. destruct Hi as [_ _ (a & o & Hu & _ & Hb') _]. destruct Hgood as [Hok Hf Hv Hw Hr Hid] eqn:Eg. clear Eg.
    destruct (packet_delivered e axi_id (ra_addr req) Hok Hf Hv W HW Haddr) as (out & pad & E & H1 & H2 & H3 & H4 & H5).
    unfold writeDataPacket in E. apply rbind_Ok in E as ([a' o'] & E & E'). injection E' as <-.
    rewrite (proj2 (data_flits_range Hgood)) in E. destruct (upto_fun _ _ _ _ _ _ _ _ _ _ Hu E) as [<- <-].
    exists o, pad. split; [|split; [done|]; split; [done|]; split; [|done]].
    + pose proof (mi_fifo _ _ _ _ _ Hb' Hs) as Eq. rewrite <- !app_assoc in Eq. by apply app_inv_head in Eq.
    + rewrite H3. unfold adapt_request. cbn. fold (wb_total e). pose proof (wbe_total _ Hok).
      rewrite u8_small; [lia|]. clear -HW H. unfold widths in HW. set_unfold. mlia.
Qed.
End Delivery.
