(* ===== verification/MmNmuEntries.v ===== *)
(** * What the AXI-MM master unit writes

    The contract of the write buffer for requests and beats an AXI master presents: the
    entries are the chunks of the accepted write requests in order, each W beat goes
    whole to the request it belongs to, and what leaves the buffer is complete.  With the
    transition system of [MmNmuDrain] this says what the injected flits carry. *)
From S2P Require Import Prelude AxiTypes Chop MmWriteBuffer SNmu AddressMap MsgBuffer MmDepack MmNmu MmNmuDrain MmNsuWrite.

(** ** The specification *)

(** Requests an AXI master presents on a bus of at most 64 bytes.  A request that decodes
    nowhere is not chopped, so it must fit one entry; a W beat follows its request. *)
Definition write_req (a : aximmRWAddr) : Prop :=
  axi_req a /\ ra_size a <= 6 /\ 0 <= ra_id a < 256.
Definition event_ok (w : aximmWriteBuffer) (ev : wevent) : Prop :=
  match ev with
  | EvWrite a => write_req a
  | EvDecErr a => write_req a /\ req_bytes a <= 256
  | EvBeat d => length (rd_data d) = 64%nat /\
      existsb (fun e => negb (wb_is_full e)) (writeBuffer w) = true
  end.

(** The packets the requests announce, with whether they are to be discarded. *)
Definition announce (ev : wevent) : list (aximmRWAddr * bool) :=
  match ev with
  | EvWrite a => (., false) <$> ok_or [] (chopInto256BRequests a)
  | EvDecErr a => [(a, true)]
  | EvBeat _ => []
  end.
Definition announced (h : list wevent) : list (aximmRWAddr * bool) := concat (announce <$> h).

(** The W beats, and the sizes of the beats the requests announce. *)
Definition w_beats (h : list wevent) : list aximmRWData :=
  omap (fun ev => match ev with EvBeat d => Some d | _ => None end) h.
Definition req_beats (a : aximmRWAddr) : list Z := replicate (zn (ra_len a + 1)) (beat_bytes a).
Definition beat_sizes (l : list (aximmRWAddr * bool)) : list Z := concat ((fun r => req_beats r.1) <$> l).

(** The bytes received, each with its strobe: the beats are those the requests announce,
    one after the other. *)
Definition received (h : list wevent) : list (Z * bool) :=
  concat (zip_with (fun d n => beat_content (rd_data d) (rd_wstrb d) n) (w_beats h)
    (beat_sizes (announced h))).

Lemma announced_snoc h ev : announced (h ++ [ev]) = announced h ++ announce ev.
Proof. unfold announced. rewrite fmap_app, concat_app. cbn. by rewrite app_nil_r. Qed.
Lemma w_beats_snoc h ev : w_beats (h ++ [ev]) = w_beats h ++ w_beats [ev].
Proof. unfold w_beats. by rewrite omap_app. Qed.
Lemma beat_sizes_app l1 l2 : beat_sizes (l1 ++ l2) = beat_sizes l1 ++ beat_sizes l2.
Proof. unfold beat_sizes. by rewrite fmap_app, concat_app. Qed.

Lemma zip_with_longer {A B C} (f : A -> B -> C) l k m :
  (length l <= length k)%nat -> zip_with f l (k ++ m) = zip_with f l k.
Proof.
  revert k. induction l as [|x l IH]; intros [|y k] Hl; try done; cbn in *; [lia|]. f_equal. apply IH. lia.
Qed.

(** More requests do not change the bytes received. *)
Lemma received_request h ev :
  w_beats [ev] = [] -> (length (w_beats h) <= length (beat_sizes (announced h)))%nat ->
  received (h ++ [ev]) = received h.
Proof.
  intros Hw Hl. unfold received. rewrite announced_snoc, w_beats_snoc, Hw, app_nil_r, beat_sizes_app.
  by rewrite zip_with_longer.
Qed.
Lemma received_beat h d n :
  beat_sizes (announced h) !! length (w_beats h) = Some n ->
  received (h ++ [EvBeat d]) = received h ++ beat_content (rd_data d) (rd_wstrb d) n.
Proof.
  intros Hn. unfold received. rewrite announced_snoc, w_beats_snoc. cbn [announce w_beats omap list_omap].
  rewrite app_nil_r. rewrite <- (take_drop_middle _ _ _ Hn). apply lookup_lt_Some in Hn.
  assert (length (w_beats h) = length (take (length (w_beats h)) (beat_sizes (announced h)))) as Hl
    by (rewrite length_take; lia).
  rewrite zip_with_app, zip_with_longer, concat_app by lia. cbn. by rewrite app_nil_r.
Qed.

(** ** Entries *)

(** What a W beat changes of an entry is the bytes and strobes: the request, whether it is
    to be discarded, and the ID and validity of its beats stay. *)
Definition beat_tags (e : aximmWriteBufferEntry) : list (bool * Z) :=
  (fun d => (rd_valid d, rd_id d)) <$> wb_nppData e.
Definition keeps (e e' : aximmWriteBufferEntry) : Prop :=
  wb_nppRequest e' = wb_nppRequest e /\ wb_isDecErr e' = wb_isDecErr e /\
  wb_axiBeatSize e' = wb_axiBeatSize e /\ beat_tags e' = beat_tags e.
#[local] Instance keeps_preorder : PreOrder keeps.
Proof. split; [by intros|]. unfold keeps. intros ? ? ? (-> & -> & -> & ->) (-> & -> & -> & ->). done. Qed.

Lemma writeRound_keeps data strb e src bit n e' : writeRound data strb e src bit n = Ok e' -> keeps e e'.
Proof.
  unfold writeRound, guard. intros E. apply rbind_Ok in E as (b & Hb & E).
  destruct (_ <=? 64) in E; [|done]. destruct (wb_nppData e !! _) as [b'|] eqn:Eb; [|done]. injection Hb as ->.
  assert (forall x y, beat_tags e = (fun d => (rd_valid d, rd_id d)) <$>
    <[zn (wb_beatIdx e) := set_rd_bytes x y b]> (wb_nppData e)) as Ht.
  { intros x y. unfold beat_tags. rewrite list_fmap_insert. symmetry. apply list_insert_id. by rewrite list_lookup_fmap, Eb. }
  destruct (_ =? 0) in E; injection E as <-; split_and!; done || (unfold beat_tags at 1; cbn; by rewrite <- Ht).
Qed.
Lemma writeRounds_keeps fuel data strb o e src bw n e' k :
  writeRounds fuel data strb o e src bw n = Ok (e', k) -> keeps e e'.
Proof.
  revert e src bw n. induction fuel as [|fuel IH]; intros e src bw n E; cbn in E; destruct (_ =? 0) in E;
    [by injection E as <-|done|by injection E as <-|].
  apply rbind_Ok in E as (e1 & E1 & E). apply writeRound_keeps in E1. apply IH in E. by etrans.
Qed.
Lemma writeEntries_keeps data strb now period dbg l src t l' t' :
  writeEntries data strb now period dbg l src t = Ok (l', t') -> Forall2 keeps l l'.
Proof.
  revert src t l'. induction l as [|e l IH]; intros src t l' E; cbn in E; [by injection E as <-|].
  apply rbind_Ok in E as ([e' n] & E1 & E).
  assert (keeps e e') as Hk.
  { apply rbind_Ok in E1 as ([e1 k] & E1 & [= <- _]). apply writeRounds_keeps in E1. exact E1. }
  destruct (_ =? _) in E; [injection E as <- _; by constructor|].
  apply rbind_Ok in E as ([es t1] & E & [= <- <-]). constructor; [done|by eapply IH].
Qed.

(** An entry the unit can send. *)
Record entry_wf (e : aximmWriteBufferEntry) : Prop := {
  ew_ok : wbe_ok e;
  ew_size : wb_axiBeatSize e = beat_bytes (wb_nppRequest e);
  ew_total : wb_total e = (ra_len (wb_nppRequest e) + 1) * beat_bytes (wb_nppRequest e);
  ew_cmd : ra_cmd (wb_nppRequest e) = WRITE;
  ew_id : 0 <= ra_id (wb_nppRequest e) < 256;
  ew_tags : beat_tags e = replicate 4 (true, ra_id (wb_nppRequest e))
}.

Lemma entry_wf_keeps e e' : keeps e e' -> entry_wf e -> wbe_ok e' -> entry_wf e'.
Proof. intros (E1 & E2 & E3 & E4) [H1 H2 H3 H4 H5 H6] Hok. unfold wb_total in *. split; unfold wb_total; congruence. Qed.

Lemma entry_wf_new a vc o met now dec :
  npp_req a -> ra_cmd a = WRITE -> 0 <= ra_id a < 256 -> entry_wf (newWriteBufferEntry a vc o met now dec).
Proof.
  intros Ha Hc Hid. pose proof (newWriteBufferEntry_ok a vc o met now dec Ha) as Hok.
  destruct Ha as (Ha & Hs & Hb). split; try done.
  - cbn. rewrite getBeatByteSize_req by done. pose proof (wbe_bs _ Hok) as Hr. cbn in Hr.
    destruct Ha as (_ & Ha & _). unfold beat_bytes in *. apply u8_small.
    pose proof (Z.pow_le_mono_r 2 (ra_size a) 6). lia.
  - unfold wb_total. cbn. by rewrite getTotalByteSize_req.
Qed.

Lemma entry_wf_good e : entry_wf e -> wb_numEmptyBytes e = 0 -> packet_good e.
Proof.
  intros [H1 H2 H3 H4 H5 H6] Hf. unfold beat_tags in H6. split; try done.
  - unfold beats_valid. rewrite Forall_lookup. intros i b Hb.
    assert (((fun d => (rd_valid d, rd_id d)) <$> wb_nppData e) !! i = Some (rd_valid b, rd_id b)) as Hi
      by (by rewrite list_lookup_fmap, Hb).
    rewrite H6 in Hi. by apply lookup_replicate in Hi as [[= <- _] _].
  - destruct (wb_nppData e) as [|b l]; [done|]. injection H6 as _ Hid _. by exists b.
Qed.

(** ** Counting beats *)

Definition entry_req (e : aximmWriteBufferEntry) : aximmRWAddr * bool := (wb_nppRequest e, wb_isDecErr e).
(** The beats an entry holds, and all it is to hold. *)
Definition beats_in (e : aximmWriteBufferEntry) : Z := wb_written e / wb_axiBeatSize e.
Definition beats_of (e : aximmWriteBufferEntry) : Z := ra_len (wb_nppRequest e) + 1.

Lemma beats_in_range e : entry_wf e ->
  0 <= beats_in e <= beats_of e /\ (wb_numEmptyBytes e = 0 -> beats_in e = beats_of e) /\
  (wb_numEmptyBytes e <> 0 -> beats_in e < beats_of e) /\ (wb_numEmptyBytes e = wb_total e -> beats_in e = 0).
Proof.
  intros [Hok Hs Ht _ _ _]. destruct Hok as [_ _ Hbs Htot Hem Hdiv _ _ _].
  unfold beats_in, beats_of, wb_written. rewrite Hs in *. rewrite Ht in *.
  set (b := beat_bytes _) in *. set (n := ra_len _ + 1) in *.
  apply Z.mod_divide in Hdiv as [m Hm]; [|lia]. rewrite Hm in *.
  replace (n * b - m * b) with ((n - m) * b) by lia. rewrite Z.div_mul by lia.
  split_and!; nia.
Qed.

Lemma sizes_cons e l :
  beat_sizes (entry_req <$> (e :: l)) = req_beats (wb_nppRequest e) ++ beat_sizes (entry_req <$> l).
Proof. done. Qed.
Lemma sizes_length l : Forall entry_wf l ->
  nz (length (beat_sizes (entry_req <$> l))) = sumZ (beats_of <$> l).
Proof.
  induction 1 as [|e l He _ IH]; [done|].
  rewrite sizes_cons, fmap_cons, sumZ_cons, <- IH, length_app. unfold req_beats. rewrite length_replicate. pose proof (beats_in_range e He). unfold beats_of in *. lia.
Qed.
Lemma sum_beats_le l : Forall entry_wf l -> sumZ (beats_in <$> l) <= sumZ (beats_of <$> l).
Proof.
  induction 1 as [|e l He _ IH]; [done|]. rewrite !fmap_cons, !sumZ_cons. pose proof (beats_in_range e He). lia.
Qed.
Lemma sum_beats_full l : Forall entry_wf l -> Forall (fun e => wb_numEmptyBytes e = 0) l ->
  sumZ (beats_in <$> l) = sumZ (beats_of <$> l).
Proof.
  induction 1 as [|e l He _ IH]; intros Hf; [done|]. apply Forall_cons in Hf as [Hf0 Hf].
  rewrite !fmap_cons, !sumZ_cons, IH by done. pose proof (beats_in_range e He) as (_ & -> & _); [lia|done].
Qed.
Lemma sum_beats_untouched l : Forall entry_wf l -> Forall (fun e => wb_numEmptyBytes e = wb_total e) l ->
  sumZ (beats_in <$> l) = 0.
Proof.
  induction 1 as [|e l He _ IH]; intros Hf; [done|]. apply Forall_cons in Hf as [Hf0 Hf].
  rewrite fmap_cons, sumZ_cons, IH by done. pose proof (beats_in_range e He) as (_ & _ & _ & ->); [lia|done].
Qed.

(** The next beat is the size of the entry it goes to. *)
Lemma next_size full e rest :
  Forall entry_wf (full ++ e :: rest) -> Forall (fun e => wb_numEmptyBytes e = 0) full ->
  wb_numEmptyBytes e <> 0 -> Forall (fun e => wb_numEmptyBytes e = wb_total e) rest ->
  beat_sizes (entry_req <$> (full ++ e :: rest)) !! zn (sumZ (beats_in <$> (full ++ e :: rest))) =
    Some (wb_axiBeatSize e).
Proof.
  intros Hwf Hf He Hr. apply Forall_app in Hwf as [Hwf Hwe]. apply Forall_cons in Hwe as [Hwe Hwr].
  pose proof (beats_in_range e Hwe) as (H0 & _ & H1 & _). specialize (H1 He).
  rewrite !fmap_app, beat_sizes_app, sizes_cons, fmap_cons, sumZ_app, sumZ_cons.
  rewrite sum_beats_full, sum_beats_untouched, <- (sizes_length full Hwf) by done. rewrite lookup_app_r by lia.
  unfold req_beats. unfold beats_of in H1. rewrite lookup_app_l by (rewrite length_replicate; lia).
  rewrite lookup_replicate_2 by lia. by rewrite (ew_size _ Hwe).
Qed.

(** ** The contract *)

(** The entries that left, [g], and those in the buffer are the announced packets [reqs]
    in order; they hold [n] beats with the bytes [bytes]. *)
Record buffer_run (reqs : list (aximmRWAddr * bool)) (n : Z) (bytes : list (Z * bool))
    (g : list aximmWriteBufferEntry) (w : aximmWriteBuffer) : Prop := {
  br_inv : wb_inv w;
  br_wf : Forall entry_wf (g ++ writeBuffer w);
  br_gone : Forall (fun e => wb_numEmptyBytes e = 0) g;
  br_reqs : entry_req <$> (g ++ writeBuffer w) = reqs;
  br_bytes : wb_stream (g ++ writeBuffer w) = bytes;
  br_count : n = sumZ (beats_in <$> (g ++ writeBuffer w))
}.
Definition buffered (h : list wevent) (g : list aximmWriteBufferEntry) (w : aximmWriteBuffer) : Prop :=
  buffer_run (announced h) (nz (length (w_beats h))) (received h) g w.

(** What does not look at the SSID mark is not changed by marking an entry. *)
Lemma fmap_mark {A} (f : aximmWriteBufferEntry -> A) (l : list aximmWriteBufferEntry) (i : nat) e :
  (forall e, f (wb_set_SSIDMet e) = f e) -> l !! i = Some e -> f <$> <[i := wb_set_SSIDMet e]> l = f <$> l.
Proof. intros Hf Hi. rewrite list_fmap_insert, Hf. apply list_insert_id. by rewrite list_lookup_fmap, Hi. Qed.

Definition fill_level (e : aximmWriteBufferEntry) : Z * Z := (wb_numEmptyBytes e, wb_total e).
Lemma filled_in_order_ext (l l' : list aximmWriteBufferEntry) : fill_level <$> l' = fill_level <$> l -> filled_in_order l -> filled_in_order l'.
Proof.
  intros E (full & rest & -> & Hf & Hr). exists (take (length full) l'), (drop (length full) l').
  rewrite take_drop. split; [done|].
  assert (fill_level <$> take (length full) l' = fill_level <$> full) as Ef.
  { rewrite fmap_take, E, fmap_app. by rewrite take_app_length' by (by rewrite length_fmap). }
  assert (fill_level <$> tail (drop (length full) l') = fill_level <$> tail rest) as Er.
  { assert (fill_level <$> drop (length full) l' = fill_level <$> rest) as Er.
    { rewrite fmap_drop, E, fmap_app. by rewrite drop_app_length' by (by rewrite length_fmap). }
    destruct (drop _ l'), rest; try done. by injection Er. }
  split.
  - apply (Forall_fmap fill_level (fun p => p.1 = 0)). rewrite Ef. by apply Forall_fmap.
  - apply (Forall_fmap fill_level (fun p => p.1 = p.2)). rewrite Er. by apply Forall_fmap.
Qed.

Lemma wbe_ok_mark e : wbe_ok e -> wbe_ok (wb_set_SSIDMet e).
Proof. intros []. by split. Qed.
Lemma entry_wf_mark e : entry_wf e -> entry_wf (wb_set_SSIDMet e).
Proof. intros H. apply (entry_wf_keeps e); [done|done|]. apply wbe_ok_mark, H. Qed.

Lemma buffered_mark h g w i e : buffered h g w -> writeBuffer w !! i = Some e ->
  buffered h g {| writeBuffer := <[i := wb_set_SSIDMet e]> (writeBuffer w); bufferSize := bufferSize w |}.
Proof.
  intros [[Hok Hord Hsz] Hwf Hg Hr Hb Hc] Hi. apply Forall_app in Hwf as [Hwg Hwf].
  split; cbn [writeBuffer bufferSize]; [split; cbn [writeBuffer bufferSize]|..].
  - apply Forall_insert; [done|]. apply wbe_ok_mark. by eapply Forall_lookup_1.
  - eapply filled_in_order_ext; [|exact Hord]. by apply fmap_mark.
  - by rewrite fmap_mark.
  - apply Forall_app. split; [done|]. apply Forall_insert; [done|]. apply entry_wf_mark. by eapply Forall_lookup_1.
  - done.
  - by rewrite fmap_app, fmap_mark, <- fmap_app.
  - by rewrite wb_stream_app in *; unfold wb_stream at 2; rewrite fmap_mark.
  - by rewrite fmap_app, fmap_mark, <- fmap_app.
Qed.

Lemma buffered_head h g w w' e : buffered h g w -> headReady w = true ->
  wb_readHead w = Ok e -> wb_removeHead w = Ok w' -> buffered h (g ++ [e]) w'.
Proof.
  intros [Hi Hwf Hg Hr Hb Hc] Hh He Hw. unfold headReady in Hh. unfold wb_readHead in He.
  destruct (writeBuffer w) as [|e0 es] eqn:Ew; [done|]. injection He as ->.
  apply andb_true_iff in Hh as [Hh _]. apply Z.eqb_eq in Hh.
  destruct (wb_removeHead_inv w e es Hi Ew Hh) as (w1 & E & Hi' & Ees & _). rewrite Hw in E. injection E as <-.
  split; rewrite ?Ees, <- ?app_assoc; try done. apply Forall_app. split; [done|by apply Forall_singleton].
Qed.

Lemma buffer_run_add R n S g w a vc o met now dec :
  buffer_run R n S g w -> npp_req a -> ra_cmd a = WRITE -> 0 <= ra_id a < 256 ->
  buffer_run (R ++ [(a, dec)]) n S g (wb_add w a vc o met now dec).
Proof.
  intros [Hi Hwf Hg Hr Hb Hc] Ha Hcmd Hid. pose proof (entry_wf_new a vc o met now dec Ha Hcmd Hid) as He.
  destruct (wb_add_inv w a vc o met now dec Hi Ha) as [Hi' Hs].
  split; [done| |done|..]; rewrite ?wb_stream_app, ?Hs, <- ?wb_stream_app; [..|done|];
    cbn [wb_add writeBuffer]; rewrite app_assoc.
  - apply Forall_app. split; [done|by apply Forall_singleton].
  - by rewrite fmap_app, Hr.
  - rewrite fmap_app, sumZ_app, <- Hc. rewrite sum_beats_untouched; [lia|by apply Forall_singleton..].
Qed.

Lemma buffer_run_add_all (npps : list aximmRWAddr) R n S g w vc o met now :
  buffer_run R n S g w -> Forall (fun a => npp_req a /\ ra_cmd a = WRITE /\ 0 <= ra_id a < 256) npps ->
  buffer_run (R ++ ((., false) <$> npps)) n S g (foldl (fun w a => wb_add w a vc o met now false) w npps).
Proof.
  intros Hb Hn. revert R w Hb. induction Hn as [|a npps (Ha & Hc & Hid) _ IH]; intros R w Hb; cbn.
  - by rewrite app_nil_r.
  - rewrite (cons_middle (a, false)), app_assoc. apply IH. by apply buffer_run_add.
Qed.

(** More requests leave the beats received where they are. *)
Lemma buffered_room h g w : buffered h g w ->
  (length (w_beats h) <= length (beat_sizes (announced h)))%nat.
Proof.
  intros [_ Hwf _ Hr _ Hc]. rewrite <- Hr. pose proof (sum_beats_le _ Hwf). pose proof (sizes_length _ Hwf). lia.
Qed.

Lemma tiled_ok a cur left npps : write_req a -> ra_cmd a = WRITE -> is_u64 cur -> tiled a cur left npps ->
  Forall (fun a => npp_req a /\ ra_cmd a = WRITE /\ 0 <= ra_id a < 256) npps.
Proof.
  intros (Ha & Hs & Hid) Hc. destruct (beat_bytes_cases a Ha) as (k & Hk & Hbk & Hb0).
  revert cur left. induction npps as [|d npps IH]; intros cur left Hu E; [constructor|].
  destruct E as (n & Hn & Hnl & Hd & -> & E). constructor; [|exact (IH _ _ (u64_range _) E)].
  pose proof (Z.mod_pos_bound cur 256). pose proof Ha as (_ & Hs0 & _). cbn. split; [|done].
  assert (1 <= n / beat_bytes a <= 256 /\ n / beat_bytes a * beat_bytes a = n) as [Hq Hq'].
  { apply Z.mod_divide in Hd as [m ->]; [|lia]. rewrite Z.div_mul by lia. nia. }
  split; [split; cbn; [lia|done]|split; [done|]]. unfold req_bytes. cbn. change (beat_bytes (set_ra_chunk _ _ _ _)) with (beat_bytes a).
  rewrite Z.sub_add. lia.
Qed.

Lemma chunks_ok a npps : write_req a -> ra_cmd a = WRITE -> chopInto256BRequests a = Ok npps ->
  Forall (fun a => npp_req a /\ ra_cmd a = WRITE /\ 0 <= ra_id a < 256) npps.
Proof. intros Ha Hc E. apply chop_tiled in E; [|apply Ha]. eapply tiled_ok; [done..| |exact E]. apply Ha. Qed.

Lemma buffered_add h g w a npps vc o met now : buffered h g w -> write_req a -> ra_cmd a = WRITE ->
  chopInto256BRequests a = Ok npps ->
  buffered (h ++ [EvWrite a]) g (foldl (fun w a => wb_add w a vc o met now false) w npps).
Proof.
  intros Hb Ha Hc E. unfold buffered. rewrite announced_snoc, received_request, w_beats_snoc, app_nil_r;
    [|done|by eapply buffered_room].
  cbn [announce]. rewrite E. apply buffer_run_add_all; [done|by eapply chunks_ok].
Qed.

Lemma buffered_decerr h g w a : buffered h g w -> write_req a -> req_bytes a <= 256 -> ra_cmd a = WRITE ->
  buffered (h ++ [EvDecErr a]) g (wb_add w a 0 None true 0 true).
Proof.
  intros Hb (Ha & Hs & Hid) Hl Hc. unfold buffered. rewrite announced_snoc, received_request, w_beats_snoc, app_nil_r;
    [|done|by eapply buffered_room].
  by apply buffer_run_add.
Qed.

Lemma keeps_reqs l l' : Forall2 keeps l l' -> entry_req <$> l' = entry_req <$> l.
Proof.
  induction 1 as [|e e' l l' (E1 & E2 & _) _ IH]; [done|]. rewrite !fmap_cons, IH. unfold entry_req. congruence.
Qed.
Lemma keeps_wf l l' : Forall2 keeps l l' -> Forall entry_wf l -> Forall wbe_ok l' -> Forall entry_wf l'.
Proof.
  induction 1 as [|e e' l l' Hk _ IH]; intros Hw Hok; [done|]. apply Forall_cons in Hw as [? ?], Hok as [? ?].
  constructor; [by eapply entry_wf_keeps|by apply IH].
Qed.

Lemma buffered_write h g w d now period dbg es t : buffered h g w -> event_ok w (EvBeat d) ->
  writeEntries (rd_data d) (rd_wstrb d) now period dbg (writeBuffer w) 0 0 = Ok (es, t) ->
  buffered (h ++ [EvBeat d]) g {| writeBuffer := es; bufferSize := u16 (bufferSize w + t) |}.
Proof.
  intros [Hi Hwf Hg Hr Hb Hc] [Hd Hex] E.
  destruct (writeEntries_appends w (rd_data d) (rd_wstrb d) now period dbg Hd Hi Hex)
    as (full & e & rest & e' & Ew & Hf & Hne & Hun & E' & Hi' & Hreq & Hem & Hct).
  pose proof (writeEntries_keeps _ _ _ _ _ _ _ _ _ _ E) as Hk. rewrite E in E'. injection E' as -> ->.
  apply Forall_app in Hwf as Hw2. destruct Hw2 as [Hwg Hww].
  assert (beat_sizes (announced h) !! length (w_beats h) = Some (wb_axiBeatSize e)) as Hn.
  { rewrite Ew, app_assoc in Hwf, Hr, Hc. rewrite <- (Nat2Z.id (length (w_beats h))), Hc, <- Hr.
    apply next_size; try done. by apply Forall_app. }
  assert (Forall2 keeps (g ++ writeBuffer w) (g ++ (wb_touch now period dbg <$> full) ++ e' :: rest)) as Hkg
    by (by apply Forall2_app).
  assert (entry_wf e) as Hwe by (rewrite Ew in Hww; by apply Forall_app in Hww as [_ [? _]%Forall_cons]).
  split; cbn [writeBuffer].
  - done.
  - eapply keeps_wf; [exact Hkg|done|]. apply Forall_app. split; [|apply Hi']. by eapply Forall_impl; [exact Hwg|apply ew_ok].
  - done.
  - rewrite (keeps_reqs _ _ Hkg), Hr, announced_snoc. cbn. by rewrite app_nil_r.
  - rewrite (received_beat _ _ _ Hn), <- Hb, Ew. rewrite !wb_stream_app. unfold wb_stream at 2. rewrite wb_touch_content.
    fold (wb_stream full). unfold wb_stream at 3 6. rewrite !fmap_cons, !concat_cons. fold (wb_stream rest).
    rewrite (wb_content_untouched rest Hun), !app_nil_r, Hct, <- !app_assoc. done.
  - rewrite w_beats_snoc, length_app. cbn. rewrite Nat2Z.inj_add, Hc, Ew.
    rewrite !fmap_app, !fmap_cons, !sumZ_app, !sumZ_cons.
    assert (beats_in <$> (wb_touch now period dbg <$> full) = beats_in <$> full) as ->
      by (rewrite <- list_fmap_compose; by apply list_fmap_ext).
    assert (beats_in e' = beats_in e + 1) as ->; [|lia].
    destruct Hwe as [Hok _ _ _ _ _]. pose proof (wbe_bs _ Hok).
    assert (wb_axiBeatSize e' = wb_axiBeatSize e) as Hs.
    { rewrite Ew in Hk. apply Forall2_app_inv in Hk as [_ Hk]; [|by rewrite length_fmap].
      by apply Forall2_cons in Hk as [(_ & _ & ? & _) _]. }
    unfold beats_in, wb_written, wb_total. rewrite Hs, Hreq, Hem.
    replace (getTotalByteSize (wb_nppRequest e) - (wb_numEmptyBytes e - wb_axiBeatSize e))
      with (getTotalByteSize (wb_nppRequest e) - wb_numEmptyBytes e + 1 * wb_axiBeatSize e) by lia.
    apply Z.div_add. lia.
Qed.

#[export] Instance axi_contract : BufferContract event_ok buffered.
Proof.
  split.
  - exact buffered_head.
  - exact buffered_mark.
  - exact buffered_write.
  - exact buffered_add.
  - intros h g w a Hb [Ha Hl]. by apply buffered_decerr.
Qed.

Lemma buffered_empty : buffered [] [] aximmWriteBuffer_empty.
Proof. split; [exact wb_inv_empty|constructor|constructor|done..]. Qed.

Section Run.
Context (source_map : list SourceAddressMapEntry) (address_map : list AddressMapEntry)
  (m_route_to_vc_map : gmap (Z * Z * Z) Z) (ni_router : Z -> Z -> Z) (oport : Z -> option Z)
  (m_id period : Z) (bufCfg : mbCfg) (m_packetize_read_req_chunks : bool)
  (m_read_response_delay_cycles : Z).

(** C22: the bytes an AXI master writes are the bytes the unit sends.  From an idle unit
    with an empty write buffer, for any interleaving in which the write requests are ones
    an AXI master presents and W beats follow their requests: the flits injected are those
    of whole packets; the packets are, in order, of the entries that left the buffer and
    did not decode to an error, and each is complete and well-formed for the slave unit;
    the entries that left and those still in the buffer are exactly the 256-byte chunks of
    the accepted requests in order; and the bytes and strobes they hold are those of the
    W beats, in order, each beat as wide as its request says. *)
Theorem mm_write_stream_sent s0 s log h :
  idle s0 -> mu_writeBuffer s0 = aximmWriteBuffer_empty ->
  mm_reach source_map address_map m_route_to_vc_map ni_router oport m_id period bufCfg
    m_packetize_read_req_chunks m_read_response_delay_cycles event_ok s0 s log h ->
  exists ps cur k g, packets_whole ni_router m_id s log ps cur k /\
    wp_entry <$> (ps ++ option_list cur) = sent_entries g /\
    Forall packet_good (sent_entries g) /\
    entry_req <$> (g ++ writeBuffer (mu_writeBuffer s)) = announced h /\
    wb_stream (g ++ writeBuffer (mu_writeBuffer s)) = received h.
Proof.
  intros Hi Hw Hr. pose proof buffered_empty as Hb. rewrite <- Hw in Hb.
  destruct (unit_packets _ _ _ _ _ (mm_reach_drain _ _ _ _ _ _ _ _ _ _ _ _ _ _ _ Hi Hb Hr))
    as (ps & cur & k & g & Hp & [_ Hwf Hg Hq Hs _] & He).
  exists ps, cur, k, g. split_and!; try done. apply Forall_app in Hwf as [Hwf _].
  apply Forall_forall. intros e [_ Hin]%list_elem_of_filter. rewrite Forall_forall in Hwf, Hg.
  apply entry_wf_good; [by apply Hwf|by apply Hg].
Qed.
End Run.
