(* ===== verification/MmNmuExample.v ===== *)
(** * Runs of the AXI-MM master unit

    A unit with one mapped destination, executed: the run that shows the hypotheses of
    the theorems hold of states with a packet under way, and runs on which the
    unit stalls, fails an assertion, or marks the wrong beat as last. *)

From S2P Require Import Prelude AxiTypes Chop WriteTracker MmWriteBuffer NppReceive Flit.
From S2P Require Import SNmu Rrob AddressMap MsgBuffer MmDepack MmNmu MmNmuDrain MmNmuRead MmNsuWrite MmNmuEntries.

(** Addresses below 65536 belong to interface 5; reads use VC 1, writes VC 2. *)
Definition nx_map : list AddressMapEntry := [mk_AddressMapEntry 0 65536 5].
Definition nx_vcs : gmap (Z * Z * Z) Z := <[(1, 5, 0) := 1]> (<[(1, 5, 1) := 2]> ∅).
Definition nx_cfg : mbCfg := mk_mbCfg 8 0 true true.

Definition nx_msg := mm_flitisizeMessage [] nx_map nx_vcs (fun ni _ => ni) (fun _ => Some 9) 1 500 nx_cfg true.
Definition nx_deq := mm_dequeueIntermediate (fun ni _ => ni) 1 500.
Definition nx_flit := mm_depacketizeFlit 500 nx_cfg (-1).

Definition nx_drain : DrainEntry :=
  mk_DrainEntry false (newWriteBufferEntry aximmRWAddr_default 0 None false 0 false) 0 0 0
    NocRouteInfo_default 0 (newNocMemoryMsg (PData aximmRWData_default) [])
    (newNocMemoryMsg (PData aximmRWData_default) []).
Definition nx_0 : mmNmu :=
  mk_mmNmu aximmWriteBuffer_empty (mk_mmCore WriteTracker_empty nx_drain None 0 0 ∅)
    {| axiListManager := newAxiListManager 64 32; numAxiReads := 0 |} false 0 0 0 mbuf_init mbuf_init
    (mk_mmPort true true ∅ ∅).

(** A request at [addr] of [len + 1] beats of [2^size] bytes, and a full W beat. *)
Definition nx_req (cmd : AximmCommand) (addr len size : Z) : MessagePayload :=
  let a := set_ra_chunk addr len size aximmRWAddr_default in
  PAddr {| ra_cmd := cmd; ra_id := 3; ra_addr := ra_addr a; ra_len := ra_len a; ra_size := ra_size a;
           ra_burst := INCR; ra_lock := false; ra_cache := 0; ra_prot := 0; ra_qos := 0; ra_region := 0;
           ra_user := 0; ra_valid := true; ra_sourceNiDebug := -1; ra_originalReadBytesDebug := 0;
           ra_debugId := -1; ra_finalReadChunkDebug := false |}.
Definition nx_w : MessagePayload := PData (aximmRWData_of WRITE 3 true (seqZ 0 64) TKEEP_ALL).

(** The endpoint's messages in order, all at tick [now]. *)
Definition nx_send (now : Z) (s : mmNmu) (ps : list MessagePayload) : res mmNmu :=
  foldM (fun s p => let* (_, s) := nx_msg now s p AR_VNET (-1) in Ok s) s ps.
(** The event fires [n] times. *)
Fixpoint nx_fire (n : nat) (s : mmNmu) : res (mmNmu * list mflit) :=
  match n with
  | O => Ok (s, [])
  | S n =>
      let* t := of_opt (FUndef "not scheduled") (deqEvent (mu_core s)) in
      let* (c, w, f) := nx_deq t (mu_core s) (mu_writeBuffer s) in
      let* (s, fs) := nx_fire n (set_wb_core w c s) in
      Ok (s, f ++ fs)
  end.

(** Response flits [(tag, flit of the row)] of 16 bytes each, all at tick [now]. *)
Definition nx_r : NocMemoryMsg :=
  {| mm_payload := PData aximmRWData_default;
     mm_pload := replicate 4 (aximmRWData_of READ 3 false (seqZ 0 64) TKEEP_ALL); mm_beat_size := 6;
     mm_num_flits := 1; mm_rrob_tags := zeros 8; mm_axi_rrob_tag := 0; mm_axi_beat_id := 0;
     mm_end_beat_idx := 0; mm_src_ni := 5; mm_vnet := R_VNET; mm_debugId := -1;
     mm_original_read_bytes := 0; mm_final_read_chunk := false |}.
Definition nx_receive (now : Z) (s : mmNmu) (l : list (Z * Z)) : res mmNmu :=
  foldM (fun s '(tag, idx) => nx_flit now s nx_r 0 tag idx) s l.

(** ** A write under way *)

Local Abbreviation nx_reach :=
  (mm_reach [] nx_map nx_vcs (fun ni _ => ni) (fun _ => Some 9) 1 500 nx_cfg true (-1) event_ok).

Lemma nx_msg_reach now s p b s' log h s0 :
  nx_reach s0 s log h -> nx_msg now s p AR_VNET (-1) = Ok (b, s') ->
  Forall (event_ok (mu_writeBuffer s)) (mm_event [] nx_map 1 s p b) ->
  nx_reach s0 s' log (h ++ mm_event [] nx_map 1 s p b).
Proof.
  intros Hr E Hok. rewrite <- (app_nil_r log). eapply reach_step; [exact Hr|]. eapply step_message; [exact E|exact Hok].
Qed.

Lemma nx_fire_reach n s s' log h fls s0 :
  nx_reach s0 s log h -> nx_fire n s = Ok (s', fls) -> nx_reach s0 s' (log ++ fls) h.
Proof.
  revert s log fls. induction n as [|n IH]; intros s log fls Hr E.
  - injection E as <- <-. by rewrite app_nil_r.
  - apply rbind_Ok in E as (t & Et & E). apply rbind_Ok in E as ([[c w] f] & E1 & E).
    apply rbind_Ok in E as ([s2 fs] & E2 & [= <- <-]). rewrite app_assoc. eapply IH; [|exact E2].
    rewrite <- (app_nil_r h). eapply reach_step; [exact Hr|]. eapply step_dequeue; [|exact E1].
    by destruct (deqEvent (mu_core s)); simplify_eq/=.
Qed.

(** A 64-byte write has sent its address flit: one firing waits for the data, the
    second sends. *)
Definition nx_1a : mmNmu := Eval vm_compute in ok_or nx_0 (nx_send 1000 nx_0 [nx_req WRITE 4096 0 6]).
Definition nx_1 : mmNmu := Eval vm_compute in ok_or nx_0 (nx_send 1000 nx_1a [nx_w]).
Definition nx_2 : mmNmu := Eval vm_compute in (ok_or (nx_0, []) (nx_fire 2 nx_1)).1.
Definition nx_2_log : list mflit := Eval vm_compute in (ok_or (nx_0, []) (nx_fire 2 nx_1)).2.
Definition nx_hist : list wevent := Eval vm_compute in
  mm_event [] nx_map 1 nx_0 (nx_req WRITE 4096 0 6) true ++ mm_event [] nx_map 1 nx_1a nx_w true.

Lemma nx_idle : idle nx_0.
Proof. by split. Qed.
Lemma nx_2_reach : nx_reach nx_0 nx_2 nx_2_log nx_hist.
Proof.
  assert (nx_msg 1000 nx_0 (nx_req WRITE 4096 0 6) AR_VNET (-1) = Ok (true, nx_1a)) as E0 by (vm_compute; reflexivity).
  assert (nx_msg 1000 nx_1a nx_w AR_VNET (-1) = Ok (true, nx_1)) as E1 by (vm_compute; reflexivity).
  assert (nx_fire 2 nx_1 = Ok (nx_2, nx_2_log)) as E2 by (vm_compute; reflexivity).
  refine (nx_fire_reach 2 nx_1 nx_2 [] _ nx_2_log nx_0 (nx_msg_reach 1000 nx_1a _ true nx_1 [] _ nx_0
    (nx_msg_reach 1000 nx_0 _ true nx_1a [] [] nx_0 (reach_init _ _ _ _ _ _ _ _ _ _ _ nx_0) E0 _) E1 _) E2).
  - repeat constructor; vm_compute; discriminate || reflexivity.
  - repeat constructor; vm_compute; reflexivity.
Qed.

Lemma mm_write_packets_whole_witness :
  fl_id <$> nx_2_log = [0] /\ exists ps cur k, packets_whole (fun ni _ => ni) 1 nx_2 nx_2_log ps cur k.
Proof.
  split; [vm_compute; reflexivity|].
  exact (mm_write_packets_whole _ _ _ _ _ _ _ _ _ _ _ nx_0 nx_2 nx_2_log nx_hist nx_idle nx_2_reach).
Defined.

Lemma mm_write_stream_sent_witness :
  received nx_hist = (fun i => (i, true)) <$> seqZ 0 64 /\
  exists ps cur k g, packets_whole (fun ni _ => ni) 1 nx_2 nx_2_log ps cur k /\
    wp_entry <$> (ps ++ option_list cur) = sent_entries g /\
    Forall packet_good (sent_entries g) /\
    entry_req <$> (g ++ writeBuffer (mu_writeBuffer nx_2)) = announced nx_hist /\
    wb_stream (g ++ writeBuffer (mu_writeBuffer nx_2)) = received nx_hist.
Proof.
  split; [vm_compute; reflexivity|].
  exact (mm_write_stream_sent _ _ _ _ _ _ _ _ _ _ nx_0 nx_2 nx_2_log nx_hist nx_idle eq_refl nx_2_reach).
Defined.

Lemma mm_drain_progress_witness :
  exists p c, mm_dequeueIntermediate (fun ni _ => ni) 1 500 7500 (mu_core nx_2) (mu_writeBuffer nx_2) =
    Ok (c, mu_writeBuffer nx_2, [wp_flit (fun ni _ => ni) 1 p (de_flit_id (currDrainEntry (mu_core nx_2)))]) /\
    deqEvent c = Some 8000.
Proof.
  destruct (mm_drain_progress _ _ _ _ _ _ _ _ _ _ _ nx_0 nx_2 nx_2_log nx_hist 7500 nx_idle nx_2_reach)
    as (p & c & _ & H & _ & He);
    [vm_compute; reflexivity|vm_compute; discriminate|vm_compute; reflexivity|vm_compute; reflexivity|]. by exists p, c.
Defined.

(** A 512-byte read is three chunks when it starts 128 bytes before a boundary. *)
Definition nx_read : aximmRWAddr :=
  match nx_req READ 128 7 6 with PAddr a => a | _ => aximmRWAddr_default end.
Definition nx_chunks : list aximmRWAddr := Eval vm_compute in ok_or [] (chopInto256BRequests nx_read).
Definition nx_3 : mmNmu := Eval vm_compute in
  (ok_or (false, nx_0) (flitisizeReadRequest (fun ni _ => ni) 1 true nx_0 nx_read AR_VNET (-1) 9 5 1)).2.

Lemma mm_read_request_sent_witness :
  length nx_chunks = 3%nat /\
  exists fls, outVc (mu_outVcs (mu_core nx_3)) 1 = outVc (mu_outVcs (mu_core nx_0)) 1 ++ fls /\
    Forall2 (read_flit_for 1 true 3 0 1 AR_VNET 5) (zip (seqZ 0 3) nx_chunks) fls.
Proof.
  split; [reflexivity|].
  destruct (mm_read_request_sent (fun ni _ => ni) 1 true nx_0 nx_read AR_VNET (-1) 9 5 1 true nx_3 nx_chunks)
    as (fls & H1 & _ & H3 & _); [vm_compute; reflexivity..|]. by exists fls.
Defined.

(** ** Where the unit does not do what it should *)

(** Three writes of which the second decodes nowhere, all data in while the first is
    draining: after the first packet the discarded entry is dropped and the complete
    third entry is left with nothing scheduled to send it. *)
Definition nx_stalled : mmNmu * list mflit :=
  ok_or (nx_0, []) (nx_fire 6 (ok_or nx_0 (nx_send 1000 nx_0
    [nx_req WRITE 4096 0 6; nx_req WRITE 70000 0 6; nx_req WRITE 8192 0 6; nx_w; nx_w; nx_w]))).
Example decerr_stalls_next_write :
  fl_id <$> nx_stalled.2 = [0; 1; 2; 3; 4] /\ headReady (mu_writeBuffer nx_stalled.1) = true /\
  idle nx_stalled.1.
Proof. unfold idle. split_and!; vm_compute; reflexivity. Qed.

(** Two 16-byte beats across a 256-byte boundary take two rows, but the last row is
    counted from the 32 bytes of the whole read: the first row is marked last. *)
Example read_across_boundary_last_wrong :
  (let* s := nx_send 1000 nx_0 [nx_req READ 240 1 4] in
   Ok ((fun n => e_contains_last (n_e n)) <$> default [] (lists (axiListManager (m_rrob s)) !! 3))) =
  Ok [true; false].
Proof. vm_compute. reflexivity. Qed.

(** The same read with one free row: the capacity check counts one row, the second
    reservation finds none and its tag is the error value -1. *)
Definition nx_full : mmNmu := set_rrob {| axiListManager := newAxiListManager 1 32; numAxiReads := 0 |} nx_0.
Example read_across_boundary_overbooks :
  (let* s := nx_send 1000 nx_full [nx_req READ 240 1 4] in
   Ok ((fun f => take 1 (mm_rrob_tags (fl_msg f))) <$> outVc (mu_outVcs (mu_core s)) 1)) = Ok [[1]; [255]].
Proof. vm_compute. reflexivity. Qed.

(** A read that decodes nowhere needs one slot per beat, of which one is checked. *)
Example read_decerr_overflows :
  nx_send 1000 nx_0 [nx_req READ 70000 15 4] = Err (FAssert "m_max_size").
Proof. vm_compute. reflexivity. Qed.

(** Two reads of one ID, the second answered first: the beats released together get
    decreasing delays, which an ordered buffer refuses. *)
Example released_beats_violate_fifo :
  nx_receive 9500 (ok_or nx_0 (nx_receive 9000
      (ok_or nx_0 (nx_send 1000 nx_0 [nx_req READ 0 0 4; nx_req READ 4096 4 4]))
      [(2, 0); (2, 1); (3, 0); (3, 1); (4, 0)])) [(1, 0)] = Err (FPanic "FIFO ordering violated").
Proof. vm_compute. reflexivity. Qed.
