(* ===== verification/MmNsuExample.v ===== *)
(** * Runs of the AXI-MM slave unit

    A unit executed: the run that shows the hypotheses of the theorems hold of states with
    a response under way and of states with a complete response, and runs on which a
    response flit leaves before its bytes are there, a request is accepted that cannot be
    answered, or the bytes of a write reach the wrong addresses. *)
From stdpp Require Import base gmap list list_numbers fin_maps sets strings.
From Stdlib Require Import ZArith Lia.
From S2P Require Import Prelude AxiTypes MmWriteBuffer Flit MmDepack SNmu MsgBuffer MmNmu MmNmuDrain MmNmuExample ReqTracker.
From S2P Require Import AxiCheckpoint MmNsu MmNsuRead MmNsuRun MmNsuDrain MmNsuTyped MmNsuWrite.
Open Scope Z_scope.

(** ** Executing a run *)

Section Exec.
Context (m_route_to_vc_map : gmap (Z * Z * Z) Z) (m_num_aximm_nmu : Z) (oport : Z -> option Z)
  (m_id period : Z) (bufCfg : mbCfg) (W : Z) (gap_cycles per_flit_gap_cycles : Z).

Definition req_goodb (r : nsuReq) : bool :=
  bool_decide (is_Some (req_addr r)) && (1 <=? T_of r) && (T_of r <=? 256) && (0 <=? req_id r) && (req_id r <? 4) &&
  bool_decide (length (mm_rrob_tags (nq_msg r)) = 8%nat) &&
  bool_decide (is_Some (m_route_to_vc_map !! (m_id, mm_src_ni (nq_msg r), 2))).
Definition beat_fitsb (r : nsuRead) (beat : aximmRWData) : bool :=
  (0 <=? rd_id beat) && (rd_id beat <? 4) && bool_decide (length (rd_data beat) = 64%nat) &&
  match awaited r (rd_id beat) with
  | Some (total, got) => bool_decide (rd_last beat = (total <=? got + W))
  | None => false
  end.
Definition op_okb (now : Z) (s : mmNsu) (op : nsu_op) : bool :=
  match op with
  | OFlit fl incoming =>
      match mm_payload (fl_msg fl) with
      | PAddr a => match ra_cmd a with READ => req_goodb (mk_nsuReq (fl_msg fl) incoming) | _ => true end
      | _ => true
      end
  | OMsg msg _ => match mm_payload msg with PData beat => beat_fitsb (ns_read s) beat | _ => true end
  | OFire => bool_decide (ns_deqEvent (ns_read s) = Some now)
  | _ => true
  end.

Lemma req_goodb_sound r : req_goodb r = true -> req_good m_route_to_vc_map m_id r.
Proof.
  unfold req_goodb. intros H. bool_hyps.
  repeat match goal with H : bool_decide _ = true |- _ => apply bool_decide_eq_true in H end. constructor; lia || done.
Qed.
Lemma op_okb_sound now s op : op_okb now s op = true -> op_ok m_route_to_vc_map m_id W now s op.
Proof.
  destruct op as [fl inc|msg v| | | |]; cbn; try done; [| |apply bool_decide_eq_true].
  - destruct (mm_payload (fl_msg fl)) as [a| | |]; try done. intros H E. rewrite E in H. by apply req_goodb_sound.
  - destruct (mm_payload msg) as [|beat| |]; try done. unfold beat_fitsb, beat_fits. intros H. bool_hyps.
    repeat match goal with H : bool_decide _ = true |- _ => apply bool_decide_eq_true in H end.
    split; [lia|]. split; [done|]. destruct (awaited _ _) as [[total got]|]; [|done]. exists total, got.
    split; [done|]. by apply bool_decide_eq_true in H0.
Qed.

(** The operations in order; an event fires at its tick. *)
Fixpoint nsu_execs (ops : list (Z * nsu_op)) (s : mmNsu) (h : history) : option (mmNsu * history) :=
  match ops with
  | [] => Some (s, h)
  | (now, op) :: ops =>
      if op_okb now s op then
        match nsu_exec m_route_to_vc_map m_num_aximm_nmu oport m_id period bufCfg W gap_cycles per_flit_gap_cycles now s op with
        | Ok (ok, s', fls) => nsu_execs ops s' (history_step W s op ok fls h)
        | Err _ => None
        end
      else None
  end.
Lemma nsu_execs_run pid ops s h s' h' :
  nsu_run m_route_to_vc_map m_num_aximm_nmu oport m_id period bufCfg W gap_cycles per_flit_gap_cycles pid s h ->
  nsu_execs ops s h = Some (s', h') ->
  nsu_run m_route_to_vc_map m_num_aximm_nmu oport m_id period bufCfg W gap_cycles per_flit_gap_cycles pid s' h'.
Proof.
  revert s h. induction ops as [|[now op] ops IH]; intros s h Hr E; cbn [nsu_execs] in E; [by injection E as <- <-|].
  destruct (op_okb now s op) eqn:Ho; [|done]. apply op_okb_sound in Ho.
  destruct (nsu_exec _ _ _ _ _ _ _ _ _ now s op) as [[[ok s1] fls]|] eqn:Ex; [|done].
  apply (IH _ _ (run_step _ _ _ _ _ _ _ _ _ _ _ _ _ _ _ _ _ Hr Ho Ex) E).
Qed.
End Exec.

(** Interface 5 with routes to interface 1, VC 7 for read and 8 for write responses. *)
Definition sx_vcs : gmap (Z * Z * Z) Z := <[(5, 1, 2) := 7]> (<[(5, 1, 3) := 8]> ∅).
Definition sx_exec (W : Z) := nsu_execs sx_vcs 2 (fun _ => Some 9) 5 500 nx_cfg W 1 0.
Definition sx_run (W : Z) := nsu_run sx_vcs 2 (fun _ => Some 9) 5 500 nx_cfg W 1 0 0.

(** A read request flit of interface 1, and beats of the endpoint. *)
Definition sx_addr (cmd : AximmCommand) (id addr len size : Z) : aximmRWAddr :=
  let a := set_ra_chunk addr len size aximmRWAddr_default in
  {| ra_cmd := cmd; ra_id := id; ra_addr := ra_addr a; ra_len := ra_len a; ra_size := ra_size a;
     ra_burst := INCR; ra_lock := false; ra_cache := 0; ra_prot := 0; ra_qos := 0; ra_region := 0;
     ra_user := 0; ra_valid := true; ra_sourceNiDebug := -1; ra_originalReadBytesDebug := 0;
     ra_debugId := -1; ra_finalReadChunkDebug := false |}.
Definition sx_request (id len size : Z) (tags : list Z) : nsu_op :=
  OFlit (new_flit 0 0 1 AR_VNET NocRouteInfo_default 1
           (read_msg 1 (sx_addr READ id 0 len size) tags AR_VNET (-1) 64 true)) (-1).
Definition sx_beat (id first : Z) (last : bool) : nsu_op :=
  OMsg (newNocMemoryMsg (PData (aximmRWData_of READ id last (seqZ first 64) TKEEP_ALL)) (replicate 4 aximmRWData_default)) R_VNET.

(** Two reads of ID 1, of 80 and of 16 bytes, at an endpoint of 32 bytes: the first is
    answered up to its fifth flit, which waits for a gap; then it is complete, and the
    second has not begun. *)
Definition sx_ops : list (Z * nsu_op) :=
  [(1000, sx_request 1 4 4 [11; 12; 13; 14; 15; 16; 17; 18]);
   (1000, sx_request 1 0 4 [21; 22; 23; 24; 25; 26; 27; 28]);
   (2000, sx_beat 1 0 false); (2500, OFire);
   (3000, sx_beat 1 32 false); (3500, OFire);
   (4000, sx_beat 1 64 true)].
Definition sx_at (ops : list (Z * nsu_op)) : mmNsu * history :=
  default (mmNsu_init 0, history_init) (sx_exec 32 ops (mmNsu_init 0) history_init).
Definition sx_1 : mmNsu * history := sx_at sx_ops.
Definition sx_2 : mmNsu * history := sx_at (sx_ops ++ [(4500, OFire)]).

Lemma sx_run_1 : sx_run 32 (sx_1.1) (sx_1.2).
Proof.
  apply (nsu_execs_run sx_vcs 2 (fun _ => Some 9) 5 500 nx_cfg 32 1 0 0 sx_ops (mmNsu_init 0) history_init _ _ (run_init _ _ _ _ _ _ _ _ _ _)).
  vm_compute. reflexivity.
Qed.
Lemma sx_run_2 : sx_run 32 (sx_2.1) (sx_2.2).
Proof.
  apply (nsu_execs_run sx_vcs 2 (fun _ => Some 9) 5 500 nx_cfg 32 1 0 0 (sx_ops ++ [(4500, OFire)]) (mmNsu_init 0) history_init _ _ (run_init _ _ _ _ _ _ _ _ _ _)).
  vm_compute. reflexivity.
Qed.
Lemma sx_width : 32 ∈ widths.
Proof. unfold widths. set_solver. Qed.

(** The flits of the complete response: their numbers, tags, halves and ticks. *)
Example sx_flits :
  (fun f => (fl_id f, rf_rrob_tag (fl_msg f), rf_rrob_flit_idx (fl_msg f), rf_time (fl_msg f))) <$> h_sent sx_2.2 =
  [(0, 11, 0, 2000); (1, 11, 1, 2500); (2, 12, 0, 3000); (3, 12, 1, 3500); (4, 13, 0, 4500)].
Proof. vm_compute. reflexivity. Qed.

Definition sx_resp : nsuReq * list Z := default (mk_nsuReq (newNocMemoryMsg (PData aximmRWData_default) []) 0, []) (h_resp sx_2.2 !! 0).

Lemma sx_no_current id x : ~ current (ns_read sx_2.1) id x.
Proof.
  intros (_ & Hx & Ha).
  assert (Forall (fun y => rr_active y = false) (ns_state (ns_read sx_2.1))) as Hf
    by (vm_compute; repeat constructor).
  pose proof (Forall_lookup_1 _ _ _ _ Hf Hx). congruence.
Qed.

Lemma nsu_read_responses_whole_witness :
  h_resp sx_2.2 !! 0 = Some sx_resp /\
  exists m packet_id, ns_msgs (ns_read sx_2.1) !! 0 = Some m /\ T_of sx_resp.1 <= nz (length sx_resp.2) /\
    Forall2 (flit_of sx_resp.1 0 packet_id) (seqZ 0 (nflits_of sx_resp.1)) (log_of 0 (h_sent sx_2.2)) /\
    forall k, 0 <= k < nflits_of sx_resp.1 -> exists data, mem_getFlitData m k = Ok data /\ length data = 16%nat /\
      forall j, 0 <= j < 16 -> 16 * k + j < T_of sx_resp.1 ->
        byte_at data (zn j) = byte_at sx_resp.2 (zn (16 * k + j)).
Proof.
  assert (h_resp sx_2.2 !! 0 = Some (sx_resp.1, sx_resp.2)) as E by (vm_compute; reflexivity). split; [exact E|].
  apply (nsu_read_responses_whole sx_vcs 2 (fun _ => Some 9) 5 500 nx_cfg 32 1 0 0 sx_2.1 sx_2.2 0 sx_resp.1 sx_resp.2
           sx_width sx_run_2 E).
  intros id x Hx. destruct (sx_no_current id x Hx).
Defined.

Lemma nsu_responses_in_order_witness :
  length (h_accepted sx_2.2) = 2%nat /\ of_id 1 (h_begun sx_2.2) `prefix_of` of_id 1 (h_accepted sx_2.2).
Proof.
  split; [vm_compute; reflexivity|].
  apply (nsu_responses_in_order sx_vcs 2 (fun _ => Some 9) 5 500 nx_cfg 32 1 0 0 sx_2.1 sx_2.2 1 sx_width sx_run_2).
  lia.
Defined.

Lemma nsu_response_path_safe_witness :
  exists ok s' fls, nsu_exec sx_vcs 2 (fun _ => Some 9) 5 500 nx_cfg 32 1 0 4500 sx_1.1 OFire = Ok (ok, s', fls).
Proof.
  destruct (nsu_response_path_safe sx_vcs 2 (fun _ => Some 9) 5 500 nx_cfg 32 1 0 0 sx_1.1 sx_1.2 4500 OFire
              sx_width sx_run_1) as (ok & s' & fls & E & _); [vm_compute; reflexivity|done|].
  exists ok, s', fls. exact E.
Defined.

Lemma nsu_drain_ends_witness :
  nd_valid (ns_drain (ns_read sx_1.1)) = true /\
  exists s' fls, drain_out 5 500 1 0 32 sx_1.1 = Ok (s', fls) /\ nd_valid (ns_drain (ns_read s')) = false.
Proof.
  split; [vm_compute; reflexivity|].
  destruct (nsu_drain_ends sx_vcs 2 (fun _ => Some 9) 5 500 nx_cfg 32 1 0 0 sx_1.1 sx_1.2 sx_width sx_run_1)
    as (s' & fls & E & _ & _ & Hv & _).
  exists s', fls. split; [exact E|exact Hv].
Defined.

(** A request is of the right types, and so is the state after it. *)
Lemma sx_request_typed : op_typed (sx_request 1 4 4 (zeros 8)).
Proof.
  constructor; cbn [mm_payload mm_pload mm_rrob_tags read_msg fl_msg new_flit]; try done.
  - by apply defaults_typed.
  - apply (zeros_typed 8).
Qed.
Lemma nsu_types_preserved_witness :
  exists ok s' fls,
    nsu_exec sx_vcs 2 (fun _ => Some 9) 5 500 nx_cfg 32 1 0 1000 (mmNsu_init 0) (sx_request 1 4 4 (zeros 8)) = Ok (ok, s', fls) /\
    nsu_typed s'.
Proof.
  destruct (nsu_exec sx_vcs 2 (fun _ => Some 9) 5 500 nx_cfg 32 1 0 1000 (mmNsu_init 0) (sx_request 1 4 4 (zeros 8)))
    as [[[ok s'] fls]|f] eqn:E; [|vm_compute in E; discriminate E].
  exists ok, s', fls. split; [reflexivity|].
  apply (nsu_types_preserved sx_vcs 2 (fun _ => Some 9) 5 500 nx_cfg 32 1 0 1000 (mmNsu_init 0) (sx_request 1 4 4 (zeros 8)) ok s' fls);
    [lia|apply init_typed|apply sx_request_typed|exact E].
Defined.

(** ** A write of 64 bytes at address 64 to an endpoint of 32 bytes *)

Definition sw_new : aximmWriteBufferEntry := newWriteBufferEntry (sx_addr WRITE 1 64 0 6) 0 (Some 9) true 0 false.
Definition sw_entry : aximmWriteBufferEntry :=
  (ok_or (sw_new, 0) (writeSingleEntry (seqZ 0 64) 0 sw_new TKEEP_ALL 0 500 (-1))).1.
Definition sw_pkt : wpkt := mk_wpkt 3 sw_entry 9 5.

Lemma sw_good : packet_good sw_entry.
Proof.
  constructor; [|by vm_compute|by repeat constructor|done|done|by eexists].
  destruct (writeSingleEntry_room (seqZ 0 64) TKEEP_ALL sw_new 0 500 (-1)) as (e & E & He & _); [done| |done|].
  - apply newWriteBufferEntry_ok. split; [by split; [|split]|]. by vm_compute.
  - unfold sw_entry. rewrite E. apply He.
Qed.

Definition sw_delivery := delivery sx_vcs 2 (fun _ => Some 9) 5 500 nx_cfg 32 1 0 (fun ni _ => ni) 1 sw_pkt (mmNsu_init 0) 0.
Definition sw_flit (s : mmNsu) (k : Z) : mmNsu :=
  (ok_or (false, s) (nsu_depacketizeFlit 500 nx_cfg 32 1000 s (wp_flit (fun ni _ => ni) 1 sw_pkt k) 0)).2.
Definition sw_after (k : Z) : mmNsu := foldl sw_flit (mmNsu_init 0) (seqZ 0 (k + 1)).

Lemma sw_flits : data_flits sw_pkt = 4.
Proof. vm_compute. reflexivity. Qed.
Lemma sw_step k : sw_delivery (sw_after k) k [] 1000 -> k < 4 ->
  nsu_depacketizeFlit 500 nx_cfg 32 1000 (sw_after k) (wp_flit (fun ni _ => ni) 1 sw_pkt (k + 1)) 0 = Ok (true, sw_after (k + 1)) ->
  sw_delivery (sw_after (k + 1)) (k + 1) [] 1000.
Proof. intros Hd Hk E. refine (del_data _ _ _ _ _ _ _ _ _ _ _ _ _ _ _ _ _ _ 1000 0 true _ Hd _ _ E); [lia|]. rewrite sw_flits. exact Hk. Qed.
Lemma sw_run : sw_delivery (sw_after 4) 4 [] 1000.
Proof.
  apply (sw_step 3); [|lia|vm_compute; reflexivity]. apply (sw_step 2); [|lia|vm_compute; reflexivity].
  apply (sw_step 1); [|lia|vm_compute; reflexivity]. apply (sw_step 0); [|lia|vm_compute; reflexivity].
  apply (del_addr _ _ _ _ _ _ _ _ _ _ _ _ _ _ 1000 0); [lia|vm_compute; reflexivity].
Qed.

Lemma nsu_write_packet_delivered_witness : exists out pad,
  [] ++ (me_msg <$> m_prio_heap (ns_W (sw_after 4))) =
    (me_msg <$> m_prio_heap (ns_W (mmNsu_init 0))) ++ w_msgs (wp_entry sw_pkt) out /\
  beats_content 32 out = wb_content (wp_entry sw_pkt) ++ pad /\
  nz (length out) = ra_len (adapt_request 32 (wb_nppRequest (wp_entry sw_pkt))) + 1.
Proof.
  destruct (nsu_write_packet_delivered sx_vcs 2 (fun _ => Some 9) 5 500 nx_cfg 32 1 0 (fun ni _ => ni) 1 sw_pkt
    (mmNsu_init 0) 0 [] (sw_after 4) 4 [] 1000 [] sw_good sx_width eq_refl eq_refl eq_refl tracks_empty eq_refl eq_refl)
    as [_ H]; [|done|exact sw_run|].
  - apply (mb_run_inv nx_cfg mbuf_init [] [] 0), mb_run_init.
  - destruct (H eq_refl) as (out & pad & H1 & H2 & _ & H4 & _). exists out, pad. split; [exact H1|]. split; [exact H2|exact H4].
Defined.

(** ** Where the unit goes wrong *)

(** At an endpoint of 16 bytes, the first flit of a 64-byte read leaves with the first
    beat, while its message holds zeros: the bytes are copied into the message only
    when 64 of them have come. *)
Definition sx_early : mmNsu * history :=
  default (mmNsu_init 0, history_init)
    (sx_exec 16 [(1000, sx_request 1 0 6 (zeros 8)); (2000, sx_beat 1 100 false)] (mmNsu_init 0) history_init).
Example nsu_flit_before_bytes :
  (fun f => (fl_id f, rf_msg (fl_msg f))) <$> h_sent sx_early.2 = [(0, RRef 0)] /\
  snd <$> h_resp sx_early.2 !! 0 = Some (seqZ 100 16) /\
  (fun m => mem_getFlitData m 0) <$> (ns_msgs (ns_read sx_early.1) !! 0) = Some (Ok (zeros 16)).
Proof. vm_compute. auto. Qed.

(** The tracker accepts a read request of any ID while fewer than four IDs are
    outstanding, and the request reaches the endpoint; the unit has response states for
    the IDs 0 to 3 only, and panics on the endpoint's answer. *)
Definition sx_exec1 (s : mmNsu) (now : Z) (op : nsu_op) : res (bool * mmNsu * list nflit) :=
  nsu_exec sx_vcs 2 (fun _ => Some 9) 5 500 nx_cfg 64 1 0 now s op.
Example nsu_unsupported_id :
  (let* (ok, s, _) := sx_exec1 (mmNsu_init 0) 1000 (sx_request 7 0 6 (zeros 8)) in
   Ok (ok, tr_getSize (ns_readTracker (ns_read s)), length (m_prio_heap (ns_AR s)))) = Ok (true, 1, 1%nat) /\
  (let* (_, s, _) := sx_exec1 (mmNsu_init 0) 1000 (sx_request 7 0 6 (zeros 8)) in
   sx_exec1 s 2000 (sx_beat 7 0 true)) = Err (FPanic "mmNocSlaveUnit: AXI ID exceeds supported max").
Proof. vm_compute. auto. Qed.

(** Writes of 16 bytes with ID 1: the address flit and the data flit. *)
Definition sx_write_addr (addr : Z) : nsu_op :=
  OFlit (new_flit 0 0 2 AW_VNET NocRouteInfo_default 2
           (read_msg 1 (sx_addr WRITE 1 addr 0 4) (zeros 8) AW_VNET (-1) 0 false)) (-1).
Definition sx_write_data (pid : Z) : nsu_op :=
  OFlit (new_flit pid 1 2 W_VNET NocRouteInfo_default 2
           {| mm_payload := PData aximmRWData_default;
              mm_pload := aximmRWData_of WRITE 1 true (seqZ 0 64) 65535 :: replicate 3 aximmRWData_default;
              mm_beat_size := 6; mm_num_flits := 1; mm_rrob_tags := zeros 8; mm_axi_rrob_tag := 0;
              mm_axi_beat_id := 0; mm_end_beat_idx := 0; mm_src_ni := 1; mm_vnet := W_VNET; mm_debugId := -1;
              mm_original_read_bytes := 0; mm_final_read_chunk := false |}) (-1).
Definition sx_strobes (ops : list nsu_op) : res (list (option Z)) :=
  let* s := foldM (fun s op => let* (_, s, _) := sx_exec1 s 1000 op in Ok s) (mmNsu_init 0) ops in
  Ok ((fun e => match mm_payload (me_msg e) with PData d => Some (rd_wstrb d) | _ => None end) <$> m_prio_heap (ns_W s)).

(** With the first of two writes of an ID still unanswered, the data of the second is
    placed with the address of the first: its bytes are meant for the lanes 16 to 31,
    where the strobe of the write alone puts them, and go to the lanes 0 to 15. *)
Example nsu_second_write_misplaced :
  sx_strobes [sx_write_addr 16; sx_write_data 1] = Ok [Some 4294901760] /\
  sx_strobes [sx_write_addr 0; sx_write_addr 16; sx_write_data 1; sx_write_data 2] = Ok [Some 65535; Some 65535].
Proof. vm_compute. auto. Qed.

(** The same happens to the packets of one long write: a write of 300 bytes travels as
    packets of 256 and 44 bytes.  At an endpoint of 4 bytes the second has 11 beats, and
    has 12 while the first is unanswered, so 76 beats reach the endpoint instead of 75. *)
Definition sx_chunk_addr (addr bytes : Z) : nsu_op :=
  OFlit (new_flit 0 0 2 AW_VNET NocRouteInfo_default 2
           (read_msg 1 (sx_addr WRITE 1 addr (bytes / 4 - 1) 2) (zeros 8) AW_VNET (-1) 0 false)) (-1).
Definition sx_chunk_data (pid bytes : Z) : list nsu_op :=
  (fun k => OFlit (new_flit pid k 2 W_VNET NocRouteInfo_default 17
     {| mm_payload := PData aximmRWData_default;
        mm_pload := replicate 4 (aximmRWData_of WRITE 1 true (seqZ 0 64) TKEEP_ALL);
        mm_beat_size := 6; mm_num_flits := (bytes + 15) / 16; mm_rrob_tags := zeros 8; mm_axi_rrob_tag := 0;
        mm_axi_beat_id := 0; mm_end_beat_idx := 0; mm_src_ni := 1; mm_vnet := W_VNET; mm_debugId := -1;
        mm_original_read_bytes := 0; mm_final_read_chunk := false |}) (-1)) <$> seqZ 1 ((bytes + 15) / 16).
Definition sx_beats (ops : list nsu_op) : res nat :=
  let* s := foldM (fun s op =>
      let* (_, s, _) := nsu_exec sx_vcs 2 (fun _ => Some 9) 5 500 (mk_mbCfg 0 0 true true) 4 1 0 1000 s op in Ok s)
    (mmNsu_init 0) ops in
  Ok (length (m_prio_heap (ns_W s))).
Example nsu_long_write_extra_beat :
  sx_beats (sx_chunk_addr 0 256 :: sx_chunk_data 1 256) = Ok 64%nat /\
  sx_beats (sx_chunk_addr 256 44 :: sx_chunk_data 2 44) = Ok 11%nat /\
  sx_beats (sx_chunk_addr 0 256 :: sx_chunk_addr 256 44 :: sx_chunk_data 1 256 ++ sx_chunk_data 2 44) = Ok 76%nat.
Proof. vm_compute. auto. Qed.

(** A write response that finds the output queue of its VC full stops the simulation;
    [getAxiBReady] looks at the credits of the router behind this queue, not at the
    queue. *)
Definition sx_resp_ok : aximmWResp := {| wr_id := 1; wr_resp := OKAY; wr_user := 0; wr_valid := true |}.
Definition sx_b : nsu_op := OMsg (newNocMemoryMsg (PResp sx_resp_ok) []) B_VNET.
Definition sx_answer (n : nat) : list nsu_op :=
  concat (replicate n [sx_write_addr 0; OTile AW_VNET mbuf_init; sx_b]).
Example nsu_write_response_panics :
  is_ok (sx_strobes (sx_answer 16)) = true /\
  sx_strobes (sx_answer 17) = Err (FPanic "Failed to flitisize write response").
Proof. vm_compute. auto. Qed.
