(* ===== verification/Router.v ===== *)
(** * The NoC router

    The packet switch of [src/src/noc/core/network/switch]: [NocRouter] with its
    [NocSwitchAllocator], on the input units, output units, routing unit and
    crossbar of [src/src/mem/ruby/network/garnet] it inherits.  A router is run by
    its wakeup event: it takes at most one flit from every incoming link and one
    credit from every outgoing one, stages flits into the shared internal pools
    (NCRB and NIDB routers), arbitrates the outputs and sends the granted flits.

    Ports and virtual channels are [nat]; a requester is an (input port, VC) pair.
    The C++ vectors indexed by ports and channels are functions on those indices.
    [r_out] and [r_upcred] list everything ever inserted in the output buffers and
    credit queues, in order; [r_trace] lists the ["grant"] events of
    [trace_arbitration].  The VC state (idle/active) and the statistics, which
    nothing here reads, are left out.  Routing is the [CUSTOM_] algorithm, the one
    that uses the routes [addNocOutPort] installs. *)

From stdpp Require Import functions.
From S2P Require Import Prelude NppReceive Flit.

Inductive Nps_Type := VNOC | HNOC | RPTR | NCRB | NIDB | INVALID.

Definition InternalIngressCapacity : Z := 8.
Definition default_initial_tokens : Z := 16.

(** (input port, input VC) *)
Abbreviation req := (nat * nat)%type.

(** What the topology fixes: the switch type, the numbers of ports and channels,
    the pipeline depth, the clock period, the installed routes by
    [NocRouteMapKey], and the downstream buffer depth of each output VC. *)
Record rcfg := mk_rcfg {
  c_nps : Nps_Type;
  c_in : nat;
  c_outs : nat;
  c_vcs : nat;
  c_pipe : Z;
  c_clk : Z;
  c_routes : gmap (Z * Z * Z) Z;
  c_max : nat * nat -> Z
}.

Definition usesInternalIngressPipeline (c : rcfg) : bool :=
  match c_nps c with NIDB | NCRB => true | _ => false end.

Definition isPassThrough (c : rcfg) : bool :=
  match c_nps c with NCRB | NIDB | RPTR => true | _ => false end.

(** [RoutingUnit::addCustomRoutes] *)
Definition addCustomRoutes (outport : Z) (keys : list (Z * Z * Z)) (m : gmap (Z * Z * Z) Z)
    : gmap (Z * Z * Z) Z :=
  foldl (fun m k => <[k := outport]> m) m keys.

Section Router.
Context {M : Type}.

(** A buffered flit with its [m_time] and the tick of its current stage. *)
Record vflit := mk_vflit { vf : flit M; vf_time : Z; vf_stage : Z }.

Definition is_tail (f : flit M) : bool :=
  match fl_type f with TAIL_ | HEAD_TAIL_ => true | _ => false end.

Definition with_route (rt : NocRouteInfo) (f : flit M) : flit M :=
  {| fl_packet_id := fl_packet_id f; fl_id := fl_id f; fl_vc := fl_vc f; fl_vnet := fl_vnet f;
     fl_route := rt; fl_size := fl_size f; fl_msg := fl_msg f; fl_type := fl_type f |}.
Definition set_vc (vc : Z) (f : flit M) : flit M :=
  {| fl_packet_id := fl_packet_id f; fl_id := fl_id f; fl_vc := vc; fl_vnet := fl_vnet f;
     fl_route := fl_route f; fl_size := fl_size f; fl_msg := fl_msg f; fl_type := fl_type f |}.
Definition hop_route (rt : NocRouteInfo) : NocRouteInfo :=
  {| rt_vnet := rt_vnet rt; rt_src_ni := rt_src_ni rt; rt_src_router := rt_src_router rt;
     rt_dest_ni := rt_dest_ni rt; rt_dest_router := rt_dest_router rt;
     rt_hops_traversed := rt_hops_traversed rt + 1 |}.
Definition increment_hops (f : flit M) : flit M := with_route (hop_route (fl_route f)) f.

(** ["grant"] events: output port, requester, flit. *)
Abbreviation grant := (nat * req * flit M)%type.

Record router := mk_router {
  r_link : nat -> list (flit M * Z);     (* incoming links: flits with their arrival tick *)
  r_clink : nat -> list (nat * Z);       (* credit links of the outputs: VC and arrival tick *)
  r_vcs : req -> list vflit;             (* input VC buffers *)
  r_int : req -> list vflit;             (* m_internalIngressBuffers *)
  r_occ : nat -> Z;                      (* m_internalIngressOccupancy *)
  r_nextvc : nat -> nat;                 (* m_internalIngressNextVc *)
  r_tokens : nat * req -> Z;             (* m_tokens *)
  r_lock : nat * nat -> option req;      (* m_output_vc_lock; [None] is {-1, -1} *)
  r_lru : nat -> list req;               (* m_outport_lru_list *)
  r_cached : req -> Z;                   (* m_cached_route *)
  r_credit : nat * nat -> Z;             (* outVcState[vc].m_credit_count by output *)
  r_xbar : nat -> list (nat * vflit);    (* switchBuffers by input, with the flit's outport *)
  r_out : nat -> list (flit M);
  r_upcred : nat -> list (nat * bool);
  r_trace : list grant;
  r_wake : gset Z;                       (* Consumer::m_wakeup_ticks *)
  r_last : Z;                            (* m_last_tick_processed_core_logic *)
  r_done : bool                          (* m_core_logic_processed_this_tick *)
}.

Definition init (c : rcfg) : router :=
  {| r_link _ := []; r_clink _ := []; r_vcs _ := []; r_int _ := []; r_occ _ := 0; r_nextvc _ := 0%nat;
     r_tokens _ := default_initial_tokens; r_lock _ := None; r_lru _ := []; r_cached _ := -1;
     r_credit := c_max c; r_xbar _ := []; r_out _ := []; r_upcred _ := []; r_trace := [];
     r_wake := ∅; r_last := 0; r_done := false |}.

(** Assignments to one member. *)
Definition put_link (x : nat -> list (flit M * Z)) (s : router) : router :=
  mk_router x (r_clink s) (r_vcs s) (r_int s) (r_occ s) (r_nextvc s) (r_tokens s) (r_lock s)
    (r_lru s) (r_cached s) (r_credit s) (r_xbar s) (r_out s) (r_upcred s) (r_trace s) (r_wake s)
    (r_last s) (r_done s).
Definition put_clink (x : nat -> list (nat * Z)) (s : router) : router :=
  mk_router (r_link s) x (r_vcs s) (r_int s) (r_occ s) (r_nextvc s) (r_tokens s) (r_lock s)
    (r_lru s) (r_cached s) (r_credit s) (r_xbar s) (r_out s) (r_upcred s) (r_trace s) (r_wake s)
    (r_last s) (r_done s).
Definition put_vcs (x : req -> list vflit) (s : router) : router :=
  mk_router (r_link s) (r_clink s) x (r_int s) (r_occ s) (r_nextvc s) (r_tokens s) (r_lock s)
    (r_lru s) (r_cached s) (r_credit s) (r_xbar s) (r_out s) (r_upcred s) (r_trace s) (r_wake s)
    (r_last s) (r_done s).
Definition put_int (x : req -> list vflit) (s : router) : router :=
  mk_router (r_link s) (r_clink s) (r_vcs s) x (r_occ s) (r_nextvc s) (r_tokens s) (r_lock s)
    (r_lru s) (r_cached s) (r_credit s) (r_xbar s) (r_out s) (r_upcred s) (r_trace s) (r_wake s)
    (r_last s) (r_done s).
Definition put_occ (x : nat -> Z) (s : router) : router :=
  mk_router (r_link s) (r_clink s) (r_vcs s) (r_int s) x (r_nextvc s) (r_tokens s) (r_lock s)
    (r_lru s) (r_cached s) (r_credit s) (r_xbar s) (r_out s) (r_upcred s) (r_trace s) (r_wake s)
    (r_last s) (r_done s).
Definition put_nextvc (x : nat -> nat) (s : router) : router :=
  mk_router (r_link s) (r_clink s) (r_vcs s) (r_int s) (r_occ s) x (r_tokens s) (r_lock s)
    (r_lru s) (r_cached s) (r_credit s) (r_xbar s) (r_out s) (r_upcred s) (r_trace s) (r_wake s)
    (r_last s) (r_done s).
Definition put_tokens (x : nat * req -> Z) (s : router) : router :=
  mk_router (r_link s) (r_clink s) (r_vcs s) (r_int s) (r_occ s) (r_nextvc s) x (r_lock s)
    (r_lru s) (r_cached s) (r_credit s) (r_xbar s) (r_out s) (r_upcred s) (r_trace s) (r_wake s)
    (r_last s) (r_done s).
Definition put_lock (x : nat * nat -> option req) (s : router) : router :=
  mk_router (r_link s) (r_clink s) (r_vcs s) (r_int s) (r_occ s) (r_nextvc s) (r_tokens s) x
    (r_lru s) (r_cached s) (r_credit s) (r_xbar s) (r_out s) (r_upcred s) (r_trace s) (r_wake s)
    (r_last s) (r_done s).
Definition put_lru (x : nat -> list req) (s : router) : router :=
  mk_router (r_link s) (r_clink s) (r_vcs s) (r_int s) (r_occ s) (r_nextvc s) (r_tokens s)
    (r_lock s) x (r_cached s) (r_credit s) (r_xbar s) (r_out s) (r_upcred s) (r_trace s) (r_wake
    s) (r_last s) (r_done s).
Definition put_cached (x : req -> Z) (s : router) : router :=
  mk_router (r_link s) (r_clink s) (r_vcs s) (r_int s) (r_occ s) (r_nextvc s) (r_tokens s)
    (r_lock s) (r_lru s) x (r_credit s) (r_xbar s) (r_out s) (r_upcred s) (r_trace s) (r_wake s)
    (r_last s) (r_done s).
Definition put_credit (x : nat * nat -> Z) (s : router) : router :=
  mk_router (r_link s) (r_clink s) (r_vcs s) (r_int s) (r_occ s) (r_nextvc s) (r_tokens s)
    (r_lock s) (r_lru s) (r_cached s) x (r_xbar s) (r_out s) (r_upcred s) (r_trace s) (r_wake s)
    (r_last s) (r_done s).
Definition put_xbar (x : nat -> list (nat * vflit)) (s : router) : router :=
  mk_router (r_link s) (r_clink s) (r_vcs s) (r_int s) (r_occ s) (r_nextvc s) (r_tokens s)
    (r_lock s) (r_lru s) (r_cached s) (r_credit s) x (r_out s) (r_upcred s) (r_trace s) (r_wake
    s) (r_last s) (r_done s).
Definition put_out (x : nat -> list (flit M)) (s : router) : router :=
  mk_router (r_link s) (r_clink s) (r_vcs s) (r_int s) (r_occ s) (r_nextvc s) (r_tokens s)
    (r_lock s) (r_lru s) (r_cached s) (r_credit s) (r_xbar s) x (r_upcred s) (r_trace s) (r_wake
    s) (r_last s) (r_done s).
Definition put_upcred (x : nat -> list (nat * bool)) (s : router) : router :=
  mk_router (r_link s) (r_clink s) (r_vcs s) (r_int s) (r_occ s) (r_nextvc s) (r_tokens s)
    (r_lock s) (r_lru s) (r_cached s) (r_credit s) (r_xbar s) (r_out s) x (r_trace s) (r_wake s)
    (r_last s) (r_done s).
Definition put_trace (x : list grant) (s : router) : router :=
  mk_router (r_link s) (r_clink s) (r_vcs s) (r_int s) (r_occ s) (r_nextvc s) (r_tokens s)
    (r_lock s) (r_lru s) (r_cached s) (r_credit s) (r_xbar s) (r_out s) (r_upcred s) x (r_wake
    s) (r_last s) (r_done s).
Definition put_wake (x : gset Z) (s : router) : router :=
  mk_router (r_link s) (r_clink s) (r_vcs s) (r_int s) (r_occ s) (r_nextvc s) (r_tokens s)
    (r_lock s) (r_lru s) (r_cached s) (r_credit s) (r_xbar s) (r_out s) (r_upcred s) (r_trace s)
    x (r_last s) (r_done s).
Definition put_core (t : Z) (d : bool) (s : router) : router :=
  mk_router (r_link s) (r_clink s) (r_vcs s) (r_int s) (r_occ s) (r_nextvc s) (r_tokens s)
    (r_lock s) (r_lru s) (r_cached s) (r_credit s) (r_xbar s) (r_out s) (r_upcred s) (r_trace s)
    (r_wake s) t d.

(** ** Buffers, links and credits *)

(** [Consumer::scheduleEvent(Cycles(k))] at a clock edge. *)
Definition schedule_wakeup (c : rcfg) (tick k : Z) (s : router) : router :=
  put_wake ({[tick + k * c_clk c]} ∪ r_wake s) s.

(** [flitBuffer::isReady] *)
Definition isReady (q : list vflit) (t : Z) : bool :=
  match q with [] => false | x :: _ => vf_time x <=? t end.
(** [VirtualChannel::need_stage(SA_, t)]; [hasReadyInternalFlit] is the same test on
    an internal buffer.  Every flit of those buffers is in the SA stage. *)
Definition need_stage (q : list vflit) (t : Z) : bool :=
  match q with [] => false | x :: _ => (vf_time x <=? t) && (vf_stage x <=? t) end.

(** [RoutingUnit::outportCompute] under the custom algorithm *)
Definition route_compute (c : rcfg) (f : flit M) (vc : nat) : res Z :=
  let* o := of_opt (FFatal "No custom route")
    (c_routes c !! (rt_src_ni (fl_route f), rt_dest_ni (fl_route f), nz vc)) in
  guard (negb (o =? -1)) (FAssert "outport != -1") (Ok o).

(** [InputUnit::nocwakeup] *)
Definition nocwakeup (c : rcfg) (tick : Z) (s : router) (i : nat) : res router :=
  match r_link s i with
  | [] => Ok s
  | (f, t) :: rest =>
      if tick <? t then Ok s else
      guard ((0 <=? fl_vc f) && (fl_vc f <? nz (c_vcs c))) (FUndef "virtualChannels[vc]") (
      let r := (i, Z.to_nat (fl_vc f)) in
      let wait := c_pipe c - 1 in
      let stage := if c_pipe c =? 1 then tick else tick + wait * c_clk c in
      let s := put_link (<[i := rest]> (r_link s)) s in
      let s := put_vcs (<[r := r_vcs s r ++ [mk_vflit (increment_hops f) t stage]]> (r_vcs s)) s in
      let* s := if c_pipe c =? 1 then Ok (schedule_wakeup c tick 1 s)
                else guard (1 <? c_pipe c) (FAssert "pipe_stages > 1")
                       (Ok (schedule_wakeup c tick wait s)) in
      match rest with
      | (_, t2) :: _ => if t2 <=? tick then Ok (schedule_wakeup c tick 1 s) else Ok s
      | [] => Ok s
      end)
  end.

(** [OutputUnit::wakeup] and [NocOutVcState::increment_credit]; the unit's own
    wakeup for a second credit is another call of this. *)
Definition output_unit_wakeup (c : rcfg) (tick : Z) (s : router) (o : nat) : res router :=
  match r_clink s o with
  | [] => Ok s
  | (v, t) :: rest =>
      if tick <? t then Ok s else
      let n := r_credit s (o, v) + 1 in
      guard (n <=? c_max c (o, v)) (FAssert "m_credit_count <= m_max_credit_count")
        (Ok (put_credit (<[(o, v) := n]> (r_credit s)) (put_clink (<[o := rest]> (r_clink s)) s)))
  end.

Definition has_noccredit (s : router) (o v : nat) : bool := 0 <? r_credit s (o, v).

(** [NocOutVcState::decrement_credit] *)
Definition decrement_credit (s : router) (o v : nat) : res router :=
  let n := r_credit s (o, v) - 1 in
  guard (0 <=? n) (FAssert "m_credit_count >= 0") (Ok (put_credit (<[(o, v) := n]> (r_credit s)) s)).

(** [InputUnit::increment_credit] *)
Definition return_credit (s : router) (r : req) (tail : bool) : router :=
  put_upcred (<[r.1 := r_upcred s r.1 ++ [(r.2, tail)]]> (r_upcred s)) s.

(** [InputUnit::getTopFlit] and [NocRouter::getInternalFlit] *)
Definition getTopFlit (s : router) (r : req) : res (vflit * router) :=
  match r_vcs s r with
  | [] => Err (FUndef "front of an empty flitBuffer")
  | x :: q => Ok (x, put_vcs (<[r := q]> (r_vcs s)) s)
  end.
Definition getInternalFlit (s : router) (r : req) : res (vflit * router) :=
  match r_int s r with
  | [] => Err (FUndef "null flit")
  | x :: q =>
      guard (0 <? r_occ s r.1) (FPanic "internal ingress link occupancy underflow")
        (Ok (x, put_int (<[r := q]> (r_int s)) (put_occ (<[r.1 := r_occ s r.1 - 1]> (r_occ s)) s)))
  end.

(** ** The internal ingress pipeline *)

(** One round of the VC loop of [stageInternalIngressFlits]: [None] continues with
    the next VC, [Some] leaves the loop. *)
Definition stageVc (c : rcfg) (tick : Z) (s : router) (r : req) : res (option router) :=
  if negb (isReady (r_vcs s r) tick) then Ok None else
  guard (r_occ s r.1 <=? InternalIngressCapacity) (FPanic "internal ingress link exceeded capacity") (
  if r_occ s r.1 =? InternalIngressCapacity then Ok (Some s) else
  guard (nz (length (r_int s r)) <? InternalIngressCapacity)
    (FPanic "internal ingress VC accounting mismatch") (
  match r_vcs s r with
  | [] => Ok None
  | x :: _ =>
      let* _ := route_compute c (vf x) r.2 in
      let* (x, s) := getTopFlit s r in
      let s := return_credit s r (is_tail (vf x)) in
      let delay := if 0 <? c_pipe c then c_pipe c - 1 else 0 in
      let ready := if 0 <? delay then tick + delay * c_clk c else tick in
      let s := put_int (<[r := r_int s r ++ [mk_vflit (vf x) (vf_time x) ready]]> (r_int s)) s in
      let s := put_occ (<[r.1 := r_occ s r.1 + 1]> (r_occ s)) s in
      let s := put_nextvc (<[r.1 := ((r.2 + 1) mod c_vcs c)%nat]> (r_nextvc s)) s in
      let s := schedule_wakeup c tick 1 s in
      Ok (Some (if 0 <? delay then schedule_wakeup c tick delay s else s))
  end)).

Fixpoint stageScan (c : rcfg) (tick : Z) (s : router) (i : nat) (vcs : list nat) : res router :=
  match vcs with
  | [] => Ok s
  | v :: vcs =>
      let* o := stageVc c tick s (i, v) in
      match o with
      | Some s => Ok s
      | None => stageScan c tick s i vcs
      end
  end.

(** The [n] indices from [first], wrapping at [n]. *)
Definition rotated (first n : nat) : list nat := (fun k => (first + k) mod n)%nat <$> seq 0 n.

Definition stageInternalIngressFlits (c : rcfg) (tick : Z) (s : router) : res router :=
  foldM (fun s i => stageScan c tick s i (rotated (r_nextvc s i) (c_vcs c))) s (seq 0 (c_in c)).

(** ** The switch allocator *)

Definition acquire_lock (s : router) (o v : nat) (r : req) : res router :=
  match r_lock s (o, v) with
  | None => Ok (put_lock (<[(o, v) := Some r]> (r_lock s)) s)
  | Some owner => guard (owner.1 =? r.1)%nat (FAssert "lock held by another input") (Ok s)
  end.
Definition release_lock (s : router) (o v : nat) : router :=
  put_lock (<[(o, v) := None]> (r_lock s)) s.

(** An unseen requester enters as least recently served.  [m_outport_lru_map] has
    exactly the entries of the list as keys. *)
Definition lru_admit (o : nat) (s : router) (r : req) : router :=
  if decide (r ∈ r_lru s o) then s else put_lru (<[o := r :: r_lru s o]> (r_lru s)) s.

Definition without_req (r : req) (l : list req) : list req := filter (fun x => x <> r) l.
(** [update_lru]: splice to the back, or push there. *)
Definition update_lru (s : router) (o : nat) (r : req) : router :=
  put_lru (<[o := without_req r (r_lru s o) ++ [r]]> (r_lru s)) s.

(** All (inport, invc) in the order of the two loops. *)
Definition all_reqs (c : rcfg) : list req :=
  i ← seq 0 (c_in c); v ← seq 0 (c_vcs c); [(i, v)].

Definition valid_outport (c : rcfg) (o : Z) : bool := (0 <=? o) && (o <? nz (c_outs c)).

(** The end of a grant that both paths share: the flit goes to the crossbar with
    its output port, VC and stage. *)
Definition grant_switch (s : router) (i o : nat) (x : vflit) : router :=
  put_xbar (<[i := r_xbar s i ++ [(o, x)]]> (r_xbar s)) s.
Definition trace_grant (s : router) (o : nat) (r : req) (f : flit M) : router :=
  put_trace (r_trace s ++ [(o, r, f)]) s.

(** *** Pass-through switches *)

(** The buffer a pass-through switch arbitrates from. *)
Definition sa_queue (c : rcfg) (s : router) (r : req) : list vflit :=
  if usesInternalIngressPipeline c then r_int s r else r_vcs s r.

Definition passRequest (c : rcfg) (tick : Z) (acc : router * (nat -> list req)) (r : req)
    : res (router * (nat -> list req)) :=
  let '(s, requests) := acc in
  match sa_queue c s r with
  | x :: _ =>
      if negb (need_stage (sa_queue c s r) tick) then Ok acc else
      let* op := route_compute c (vf x) r.2 in
      guard (valid_outport c op) (FPanic "pass-through has invalid output") (
      let o := Z.to_nat op in
      let s := lru_admit o s r in
      if negb (bool_decide (r_lock s (o, r.2) = None \/ r_lock s (o, r.2) = Some r))
      then Ok (s, requests) else
      if negb (has_noccredit s o r.2) then Ok (s, requests) else
      Ok (s, <[o := requests o ++ [r]]> requests))
  | [] => Ok acc
  end.

(** The first entry of the LRU list that satisfies [p]. *)
Definition lru_pick (p : req -> bool) (l : list req) : option req := List.find p l.

Definition passGrant (c : rcfg) (tick : Z) (s : router) (o : nat) (r : req) : res router :=
  let internal := usesInternalIngressPipeline c in
  let* (x, s) := if internal then getInternalFlit s r else getTopFlit s r in
  let tail := is_tail (vf x) in
  let s := trace_grant s o r (vf x) in
  let* s := decrement_credit s o r.2 in
  let s := grant_switch s r.1 o (mk_vflit (set_vc (nz r.2) (vf x)) (vf_time x) tick) in
  let* s := if tail then Ok (release_lock s o r.2) else acquire_lock s o r.2 r in
  let s := if internal then s else return_credit s r tail in
  Ok (update_lru s o r).

(** The grant loop; the boolean function is [input_granted], the last component
    [granted]. *)
Definition passOutput (c : rcfg) (tick : Z) (requests : nat -> list req)
    (acc : router * (nat -> bool) * bool) (o : nat) : res (router * (nat -> bool) * bool) :=
  let '(s, input_granted, granted) := acc in
  match lru_pick (fun r => negb (input_granted r.1) && bool_decide (r ∈ requests o)) (r_lru s o) with
  | None => Ok acc
  | Some r =>
      let* s := passGrant c tick s o r in
      Ok (s, <[r.1 := true]> input_granted, true)
  end.

Definition first_outport (c : rcfg) (tick : Z) : nat :=
  if (c_outs c =? 0)%nat then 0%nat else Z.to_nat (u64 (tick / c_clk c) mod nz (c_outs c)).

(** [check_for_wakeup] *)
Definition check_for_wakeup (c : rcfg) (tick : Z) (s : router) : router :=
  let next := tick + c_clk c in
  if bool_decide (next ∈ r_wake s) then s else
  if existsb (fun r => (usesInternalIngressPipeline c && need_stage (r_int s r) next)
                       || need_stage (r_vcs s r) next) (all_reqs c)
  then schedule_wakeup c tick 1 s else s.

Definition passWakeup (c : rcfg) (tick : Z) (s : router) : res router :=
  let* (s, requests) := foldM (passRequest c tick) (s, fun _ => []) (all_reqs c) in
  let* (s, _, granted) := foldM (passOutput c tick requests) (s, fun _ => false, false)
    (rotated (first_outport c tick) (c_outs c)) in
  let s := if granted then schedule_wakeup c tick 1 s else s in
  Ok (check_for_wakeup c tick s).

(** *** Token-bucket switches *)

(** Requests are (requester, priority). *)
Abbreviation prio_req := (req * Z)%type.

Definition get_request_priority (r : req) (f : flit M) : Z := 0.

Definition is_eligible (s : router) (r : req) (o : nat) : bool :=
  has_noccredit s o r.2 &&
  match r_lock s (o, r.2) with None => true | Some owner => (owner.1 =? r.1)%nat end.

Definition is_write_transaction (f : flit M) : bool :=
  match fl_type f with HEAD_ | BODY_ => true | _ => false end.

Definition grant_request (tick : Z) (s : router) (o : nat) (r : req) (x : vflit) : res router :=
  guard (0 <? r_tokens s (o, r)) (FAssert "m_tokens > 0") (
  let s := trace_grant s o r (vf x) in
  let s := put_tokens (<[(o, r) := r_tokens s (o, r) - 1]> (r_tokens s)) s in
  let* s := decrement_credit s o r.2 in
  let s := grant_switch s r.1 o (mk_vflit (set_vc (nz r.2) (vf x)) (vf_time x) tick) in
  if is_tail (vf x) then
    let s := return_credit s r true in
    let s := release_lock s o r.2 in
    Ok (put_cached (<[r := -1]> (r_cached s)) s)
  else
    let s := return_credit s r false in
    if is_write_transaction (vf x) then acquire_lock s o r.2 r else Ok s).

(** The LRU requester of a list, or its first one if the LRU list has none. *)
Definition lru_winner (l : list req) (reqs : list req) : option req :=
  match lru_pick (fun r => bool_decide (r ∈ reqs)) l with
  | Some r => Some r
  | None => head reqs
  end.

Definition arbitrate_for_output_port (tick : Z) (s : router) (reqs : list prio_req) (o : nat)
    : res (option nat * router) :=
  match reqs with
  | [] => Ok (None, s)
  | _ =>
      let high := fst <$> filter (fun q : prio_req => 0 < q.2) reqs in
      let low := fst <$> filter (fun q : prio_req => ~ 0 < q.2) reqs in
      let s := foldl (lru_admit o) s (fst <$> reqs) in
      match lru_winner (r_lru s o) (if decide (high = []) then low else high) with
      | None => Ok (None, s)
      | Some r =>
          let* (x, s) := getTopFlit s r in
          let* s := grant_request tick s o r x in
          Ok (Some r.1, update_lru s o r)
      end
  end.

(** Stage 1: the requests of each output, without and with tokens. *)
Definition token_reqs : Type := (nat -> list prio_req) * (nat -> list prio_req).

Definition tokenRequest (c : rcfg) (tick : Z) (acc : router * token_reqs) (r : req)
    : res (router * token_reqs) :=
  let '(s, (without, with_)) := acc in
  match r_vcs s r with
  | x :: _ =>
      if negb (need_stage (r_vcs s r) tick) then Ok acc else
      let* (op, s) :=
        if r_cached s r =? -1 then
          let* op := route_compute c (vf x) r.2 in
          Ok (op, put_cached (<[r := op]> (r_cached s)) s)
        else Ok (r_cached s r, s) in
      if negb (valid_outport c op) then Ok (s, (without, with_)) else
      let o := Z.to_nat op in
      if negb (is_eligible s r o) then Ok (s, (without, with_)) else
      let p := get_request_priority r (vf x) in
      if r_tokens s (o, r) <=? 0
      then Ok (s, (<[o := without o ++ [(r, p)]]> without, with_))
      else Ok (s, (without, <[o := with_ o ++ [(r, p)]]> with_))
  | [] => Ok acc
  end.

(** [m_tokens[outport] = m_initial_tokens[outport]] *)
Definition reload_tokens (o : nat) (s : router) : router :=
  put_tokens (fun k => if decide (k.1 = o) then default_initial_tokens else r_tokens s k) s.

(** Stage 2 for one output. *)
Definition tokenOutput (tick : Z) (reqs : token_reqs) (acc : router * (nat -> bool)) (o : nat)
    : res (router * (nat -> bool)) :=
  let '(s, input_granted) := acc in
  let open := filter (fun q : prio_req => input_granted q.1.1 = false) in
  let without := open (reqs.1 o) in
  let with_ := open (reqs.2 o) in
  let* (g, s) :=
    if decide (without <> [] /\ with_ = [])
    then arbitrate_for_output_port tick (reload_tokens o s) without o
    else arbitrate_for_output_port tick s with_ o in
  Ok (s, match g with Some i => <[i := true]> input_granted | None => input_granted end).

Definition tokenWakeup (c : rcfg) (tick : Z) (s : router) : res router :=
  let* (s, reqs) := foldM (tokenRequest c tick) (s, (fun _ => [], fun _ => [])) (all_reqs c) in
  let* (s, _) := foldM (tokenOutput tick reqs) (s, fun _ => false)
    (rotated (first_outport c tick) (c_outs c)) in
  Ok (check_for_wakeup c tick s).

(** [NocSwitchAllocator::wakeup] *)
Definition allocator_wakeup (c : rcfg) (tick : Z) (s : router) : res router :=
  if isPassThrough c then passWakeup c tick s else tokenWakeup c tick s.

(** ** Switch traversal and the router event *)

Definition crossbarInput (tick : Z) (s : router) (i : nat) : router :=
  match r_xbar s i with
  | [] => s
  | (o, x) :: q =>
      if (vf_time x <=? tick) && (vf_stage x <=? tick) then
        put_xbar (<[i := q]> (r_xbar s)) (put_out (<[o := r_out s o ++ [vf x]]> (r_out s)) s)
      else s
  end.
Definition crossbar_wakeup (c : rcfg) (tick : Z) (s : router) : router :=
  foldl (crossbarInput tick) s (seq 0 (c_in c)).

(** The SA/ST pass of [NocRouter::wakeup]. *)
Definition core_logic (c : rcfg) (tick : Z) (s : router) : res router :=
  let* s := if usesInternalIngressPipeline c then stageInternalIngressFlits c tick s else Ok s in
  let* s := allocator_wakeup c tick s in
  Ok (crossbar_wakeup c tick s).

Definition router_wakeup (c : rcfg) (tick : Z) (s : router) : res router :=
  let* s := foldM (nocwakeup c tick) s (seq 0 (c_in c)) in
  let* s := foldM (output_unit_wakeup c tick) s (seq 0 (c_outs c)) in
  let s := if r_last s =? tick then s else put_core tick false s in
  if r_done s then
    Ok (if usesInternalIngressPipeline c
           && existsb (fun r => isReady (r_vcs s r) tick) (all_reqs c)
        then schedule_wakeup c tick 1 s else s)
  else
    let* s := core_logic c tick s in
    Ok (put_core (r_last s) true s).

(** [Consumer::processCurrentEvent] *)
Definition processCurrentEvent (c : rcfg) (tick : Z) (s : router) : res router :=
  router_wakeup c tick (put_wake (r_wake s ∖ {[tick]}) s).

End Router.
