(* ===== verification/Stream.v ===== *)
(** * Packet streams

    What a virtual channel carries: whole packets one after the other, the last one
    possibly unfinished.  [cur] is the unfinished packet of a sequence of flits and
    [pstream] says that every flit continues it.  [pstream_packets] reads the
    invariant back as a concatenation of packets. *)

From S2P Require Import Prelude NppReceive Flit Router.

Section Stream.
Context {M : Type}.
Implicit Types (l p : list (flit M)) (f g : flit M).

Definition is_packet (p : list (flit M)) : Prop :=
  exists pid vc vnet route n (msg : M),
    (0 < n)%nat /\ p = packet_flits pid vc vnet route n msg.

(** [f] is the flit that follows [p] in some packet. *)
Definition fits (p : list (flit M)) (f : flit M) : Prop :=
  exists k, is_packet k /\ (p ++ [f]) `prefix_of` k.

Definition next_cur (p : list (flit M)) (f : flit M) : list (flit M) :=
  if is_tail f then [] else p ++ [f].
Definition cur (l : list (flit M)) : list (flit M) := foldl next_cur [] l.

Inductive pstream : list (flit M) -> Prop :=
  | ps_nil : pstream []
  | ps_snoc l f : pstream l -> fits (cur l) f -> pstream (l ++ [f]).

Lemma cur_snoc l f : cur (l ++ [f]) = next_cur (cur l) f.
Proof. unfold cur. by rewrite foldl_snoc. Qed.

Lemma pstream_snoc l f : pstream (l ++ [f]) -> pstream l /\ fits (cur l) f.
Proof.
  intros H. inversion H as [E|l2 f2 Hl Hf E]; [by destruct l|].
  apply app_inj_tail in E as [-> ->]. done.
Qed.

Lemma pstream_prefix l1 l2 : pstream (l1 ++ l2) -> pstream l1.
Proof.
  induction l2 as [|f l2 IH] using rev_ind; [by rewrite app_nil_r|].
  rewrite app_assoc. intros [H _]%pstream_snoc. auto.
Qed.

Lemma pstream_next l1 f l2 : pstream (l1 ++ f :: l2) -> fits (cur l1) f.
Proof.
  replace (l1 ++ f :: l2) with ((l1 ++ [f]) ++ l2) by by rewrite <- app_assoc.
  intros H%pstream_prefix. by apply pstream_snoc in H as [_ ?].
Qed.

(** ** The flits of one packet *)

Lemma packet_flits_lookup pid vc vnet route n (msg : M) k f :
  packet_flits pid vc vnet route n msg !! k = Some f ->
  (k < n)%nat /\ f = new_flit pid (nz k) vc vnet route (nz n) msg.
Proof.
  unfold packet_flits. intros (i & -> & Hi)%list_lookup_fmap_Some.
  apply lookup_seq in Hi as [-> ?]. auto.
Qed.

Lemma is_tail_new pid k vc vnet route n (msg : M) :
  (k < n)%nat -> is_tail (new_flit pid (nz k) vc vnet route (nz n) msg) = (S k =? n)%nat.
Proof.
  intros Hk. unfold is_tail, new_flit. cbn [fl_type].
  destruct (Z.eqb_spec (nz n) 1), (Z.eqb_spec (nz k) 0), (Z.eqb_spec (nz k) (nz n - 1)),
    (Nat.eqb_spec (S k) n); try done; lia.
Qed.

Lemma packet_same p f g : is_packet p -> f ∈ p -> g ∈ p ->
  fl_route f = fl_route g /\ fl_vc f = fl_vc g.
Proof.
  intros (pid & vc & vnet & route & n & msg & Hn & ->)
    [k [_ ->]%packet_flits_lookup]%list_elem_of_lookup [k2 [_ ->]%packet_flits_lookup]%list_elem_of_lookup.
  done.
Qed.

(** Only the last flit of a packet is a tail. *)
Lemma packet_prefix_tail p q f : is_packet p -> (q ++ [f]) `prefix_of` p ->
  (is_tail f = true <-> p = q ++ [f]) /\ Forall (fun g => is_tail g = false) q.
Proof.
  intros (pid & vc & vnet & route & n & msg & Hn & Hp) [r Hr].
  assert (Hlen : length p = n) by (subst p; apply length_packet_flits).
  assert (Hlook : forall k g, p !! k = Some g -> is_tail g = (S k =? n)%nat).
  { intros k g. rewrite Hp. intros [Hk ->]%packet_flits_lookup. by apply is_tail_new. }
  assert (Hf : p !! length q = Some f).
  { rewrite Hr, <- app_assoc, lookup_app_r by lia. by rewrite Nat.sub_diag. }
  rewrite Hr, !length_app in Hlen. cbn in Hlen. split.
  - rewrite (Hlook _ _ Hf), Nat.eqb_eq. split.
    + intros E. destruct r; [by rewrite Hr, app_nil_r|cbn in Hlen; lia].
    + intros E. rewrite E in Hr. apply (f_equal length) in Hr. rewrite !length_app in Hr. cbn in Hr. lia.
  - apply Forall_lookup. intros k g Hg. rewrite (Hlook k).
    + apply Nat.eqb_neq. apply lookup_lt_Some in Hg. lia.
    + rewrite Hr, <- app_assoc. by apply lookup_app_l_Some.
Qed.

Lemma fits_same p f g : fits p f -> g ∈ p -> fl_route g = fl_route f /\ fl_vc g = fl_vc f.
Proof.
  intros (k & Hk & [r ->]) Hg. apply (packet_same _ _ _ Hk); rewrite !elem_of_app, list_elem_of_singleton; tauto.
Qed.

(** ** Whole packets *)

Definition partial (p : list (flit M)) : Prop :=
  p = [] \/ exists k, is_packet k /\ p `prefix_of` k /\ p <> k.

Lemma pstream_packets l : pstream l ->
  exists ps, Forall is_packet ps /\ l = mjoin ps ++ cur l /\ partial (cur l).
Proof.
  induction 1 as [|l f Hl (ps & Hps & El & _) (k & Hk & Hpre)].
  { exists []. split; [constructor|split; [done|by left]]. }
  rewrite cur_snoc. unfold next_cur.
  destruct (packet_prefix_tail _ _ _ Hk Hpre) as [Ht _]. destruct (is_tail f) eqn:E.
  - exists (ps ++ [k]). split; [apply Forall_app; auto|]. split; [|by left].
    rewrite El at 1. rewrite join_app. cbn. rewrite !app_nil_r, <- app_assoc. f_equal.
    symmetry. by apply Ht.
  - exists ps. split; [done|]. split; [by rewrite app_assoc, <- El|].
    right. exists k. split; [done|]. split; [done|]. intros E2.
    enough (false = true) by done. by apply Ht.
Qed.

(** A packet is determined by any of its flits, here the first. *)
Lemma packet_first p f q : is_packet p -> p = f :: q ->
  fl_size f = nz (length p) /\
  p = packet_flits (fl_packet_id f) (fl_vc f) (fl_vnet f) (fl_route f) (zn (fl_size f)) (fl_msg f).
Proof.
  intros (pid & vc & vnet & route & n & msg & Hn & ->) E.
  assert (packet_flits pid vc vnet route n msg !! 0%nat = Some f) as H0 by (by rewrite E).
  apply packet_flits_lookup in H0 as [_ ->]. cbn. rewrite length_packet_flits. split; [done|]. by rewrite Nat2Z.id.
Qed.

(** Between packets, the flits that follow begin with a whole packet once there are as many
    as its first flit says. *)
Lemma pstream_front l f q : cur l = [] -> pstream (l ++ f :: q) -> fl_size f <= nz (length (f :: q)) ->
  is_packet (take (zn (fl_size f)) (f :: q)).
Proof.
  intros Hc Hs Hlen.
  destruct (pstream_next l f q Hs) as (K & HK & [r Hr]). rewrite Hc in Hr. cbn in Hr.
  destruct (packet_first K f r HK Hr) as [Hn HKe].
  enough (forall m, (m <= length K)%nat -> take m (f :: q) = take m K /\ ((m < length K)%nat -> cur (l ++ take m (f :: q)) = take m K)) as H.
  { rewrite Hn, Nat2Z.id. destruct (H (length K) (le_n _)) as [-> _]. by rewrite firstn_all. }
  induction m as [|m IH]; intros Hm; [cbn; by rewrite app_nil_r|].
  destruct (IH ltac:(lia)) as [E1 E2]. specialize (E2 ltac:(lia)).
  destruct ((f :: q) !! m) as [g|] eqn:Eg; [|apply lookup_ge_None in Eg; lia].
  assert (K !! m = Some g) as HKg.
  { rewrite <- (take_drop_middle _ _ _ Eg), app_assoc in Hs. apply pstream_next in Hs as (K' & HK' & [r' Hr']).
    rewrite E2 in Hr'. destruct m as [|m]; [injection Eg as <-; by rewrite Hr|].
    assert (K' = f :: (take m r ++ [g]) ++ r') as HK0 by (rewrite Hr', Hr; done).
    destruct (packet_first K' f _ HK' HK0) as [_ HKe']. rewrite <- HKe in HKe'. rewrite HKe' in Hr'.
    pose proof (f_equal (fun l => l !! S m) Hr') as Hl. cbv beta in Hl. rewrite <- app_assoc in Hl.
    rewrite lookup_app_r in Hl; rewrite length_take in *; [|lia].
    by replace (S m - S m `min` length K)%nat with 0%nat in Hl by lia. }
  assert (take (S m) (f :: q) = take (S m) K) as E3 by (rewrite (take_S_r _ _ _ Eg), (take_S_r _ _ _ HKg); congruence).
  split; [done|]. intros Hlt. rewrite E3, (take_S_r _ _ _ HKg), app_assoc, <- E1, cur_snoc, E2. unfold next_cur.
  assert (is_tail g = false) as ->; [|by rewrite E1].
  rewrite HKe in HKg. apply packet_flits_lookup in HKg as [_ ->]. rewrite is_tail_new by lia. apply Nat.eqb_neq. lia.
Qed.

(** Packets one after the other are a stream. *)
Lemma pstream_packet l K m : pstream l -> cur l = [] -> is_packet K -> (m <= length K)%nat ->
  pstream (l ++ take m K) /\ cur (l ++ take m K) = if (m =? length K)%nat then [] else take m K.
Proof.
  intros Hl Hc HK. assert (0 < length K)%nat as Hpos by (destruct HK as (? & ? & ? & ? & n & ? & Hn & ->); by rewrite length_packet_flits).
  induction m as [|m IH]; intros Hm.
  { cbn. rewrite app_nil_r, Hc. destruct (length K); [lia|done]. }
  destruct (IH ltac:(lia)) as [H1 H2]. rewrite (proj2 (Nat.eqb_neq _ _)) in H2 by lia.
  destruct (K !! m) as [g|] eqn:Eg; [|apply lookup_ge_None in Eg; lia].
  rewrite (take_S_r _ _ _ Eg), app_assoc, cur_snoc, H2. split.
  - constructor; [done|]. rewrite H2. exists K. split; [done|]. rewrite <- (take_S_r _ _ _ Eg). apply prefix_take.
  - unfold next_cur. destruct HK as (pid & vc & vnet & route & n & msg & Hn & ->).
    apply packet_flits_lookup in Eg as [Hlt ->]. by rewrite is_tail_new, length_packet_flits.
Qed.
Lemma pstream_concat ps : Forall is_packet ps -> pstream (concat ps) /\ cur (concat ps) = [].
Proof.
  induction ps as [|K ps IH] using rev_ind; intros Hps; [split; [constructor|done]|].
  apply Forall_app in Hps as [Hps HK]. rewrite Forall_singleton in HK. destruct (IH Hps) as [H1 H2].
  rewrite concat_app. cbn. rewrite app_nil_r. pose proof (pstream_packet _ K (length K) H1 H2 HK (le_n _)) as Hp.
  by rewrite firstn_all, Nat.eqb_refl in Hp.
Qed.

(** ** Streams under a change of the route *)

Lemma is_tail_hop f : is_tail (increment_hops f) = is_tail f.
Proof. done. Qed.

Lemma is_packet_hop p : is_packet p -> is_packet (increment_hops <$> p).
Proof.
  intros (pid & vc & vnet & route & n & msg & Hn & ->).
  exists pid, vc, vnet, (hop_route route), n, msg. split; [done|].
  unfold packet_flits. by rewrite <- list_fmap_compose.
Qed.

Lemma cur_hop l : cur (increment_hops <$> l) = increment_hops <$> cur l.
Proof.
  induction l as [|f l IH] using rev_ind; [done|].
  rewrite fmap_app. change (increment_hops <$> [f]) with [increment_hops f].
  rewrite !cur_snoc, IH. unfold next_cur. rewrite is_tail_hop.
  destruct (is_tail f); [done|by rewrite fmap_app].
Qed.

Lemma pstream_hop l : pstream l -> pstream (increment_hops <$> l).
Proof.
  induction 1 as [|l f Hl IH (k & Hk & [r Hr])]; [constructor|].
  rewrite fmap_app. constructor; [done|]. exists (increment_hops <$> k).
  split; [by apply is_packet_hop|]. rewrite cur_hop, Hr, !fmap_app. by eexists.
Qed.

End Stream.
