(* ===== verification/RouterSafety.v ===== *)
(** * Safety of the router

    The invariant of [Router.v]: flits keep their order from an input VC to the
    output, an output VC is locked exactly while a packet is open on it, credits and
    tokens stay in their bounds and the internal pools within their capacity.  Every
    handler preserves it and none of the code's assertions fails under it. *)

From stdpp Require Import functions.
From S2P Require Import Prelude NppReceive Flit Router Stream.

Section Safety.
Context {M : Type} (c : rcfg).
Implicit Types (s : router (M := M)) (r : req) (f : flit M) (x : vflit (M := M)).

(** The route of a flit on VC [v] leads to output [o]. *)
Definition dest (f : flit M) (v o : nat) : Prop :=
  c_routes c !! (rt_src_ni (fl_route f), rt_dest_ni (fl_route f), nz v) = Some (nz o) /\
  (o < c_outs c)%nat.

Lemma route_dest f v o : dest f v o -> route_compute c f v = Ok (nz o).
Proof.
  intros [H _]. unfold route_compute. rewrite H. cbn.
  by destruct (Z.eqb_spec (nz o) (-1)); [lia|].
Qed.

Lemma dest_valid f v o : dest f v o -> valid_outport c (nz o) = true.
Proof. intros [_ H]. unfold valid_outport. apply andb_true_iff. rewrite Z.leb_le, Z.ltb_lt. lia. Qed.

Lemma dest_fun f v o o' : dest f v o -> dest f v o' -> o = o'.
Proof. intros [H _] [H' _]. rewrite H in H'. injection H'. lia. Qed.

(** ** The trace seen from an input VC and from an output VC *)

Definition from (r : req) (tr : list (nat * req * flit M)) : list (flit M) :=
  snd <$> filter (fun g => g.1.2 = r) tr.
Definition outs (k : nat * nat) (tr : list (nat * req * flit M)) : list (flit M) :=
  snd <$> filter (fun g => (g.1.1, g.1.2.2) = k) tr.

Lemma from_snoc r tr o r' f :
  from r (tr ++ [(o, r', f)]) = from r tr ++ (if decide (r' = r) then [f] else []).
Proof.
  unfold from. rewrite filter_app, fmap_app, filter_cons, filter_nil. cbn.
  by destruct (decide (r' = r)).
Qed.
Lemma outs_snoc k tr o r' f :
  outs k (tr ++ [(o, r', f)]) = outs k tr ++ (if decide ((o, r'.2) = k) then [f] else []).
Proof.
  unfold outs. rewrite filter_app, fmap_app, filter_cons, filter_nil. cbn.
  by destruct (decide ((o, r'.2) = k)).
Qed.

(** The flits buffered for [r], oldest first. *)
Definition held (s : router (M := M)) (r : req) : list (flit M) :=
  (vf <$> r_int s r) ++ (vf <$> r_vcs s r).

(** ** The flow invariant

    [arr r] are the flits input VC [r] has taken from its link. *)
Record flow_inv (arr : req -> list (flit M)) (s : router (M := M)) : Prop := {
  fi_flow r : from r (r_trace s) ++ held s r = arr r;
  fi_int r : usesInternalIngressPipeline c = false -> r_int s r = [];
  fi_stream r : pstream (arr r);
  fi_flit r f : f ∈ arr r -> fl_vc f = nz r.2 /\ exists o, dest f r.2 o;
  fi_range r : arr r <> [] -> (r.1 < c_in c)%nat /\ (r.2 < c_vcs c)%nat;
  fi_lock o v : cur (outs (o, v) (r_trace s)) =
    match r_lock s (o, v) with Some r => cur (from r (r_trace s)) | None => [] end;
  fi_owner o v r : r_lock s (o, v) = Some r ->
    r.2 = v /\ cur (from r (r_trace s)) <> [] /\
    forall f, f ∈ cur (from r (r_trace s)) -> dest f v o;
  fi_held r : cur (from r (r_trace s)) <> [] -> exists o, r_lock s (o, r.2) = Some r;
  fi_ostream k : pstream (outs k (r_trace s));
  fi_trace o r f : (o, r, f) ∈ r_trace s -> dest f r.2 o;
  fi_cached r : r_cached s r = -1 \/ isPassThrough c = false /\ exists f o,
    dest f r.2 o /\ r_cached s r = nz o /\
    (f ∈ cur (from r (r_trace s)) \/ cur (from r (r_trace s)) = [] /\ head (held s r) = Some f)
}.

Definition flow_view (s : router (M := M)) := (r_int s, r_vcs s, r_trace s, r_lock s, r_cached s).
Lemma flow_inv_view arr s s' : flow_view s' = flow_view s -> flow_inv arr s -> flow_inv arr s'.
Proof.
  intros E. injection E as E1 E2 E3 E4 E5. intros []. unfold held in *.
  split; unfold held; rewrite ?E1, ?E2, ?E3, ?E4, ?E5; auto.
Qed.

(** The flit at the front of [r] continues the packet open on [r]. *)
Lemma flow_fits arr s r f q : flow_inv arr s -> held s r = f :: q ->
  fits (cur (from r (r_trace s))) f /\ fl_vc f = nz r.2.
Proof.
  intros H E. pose proof (fi_flow _ _ H r) as Hf. rewrite E in Hf. split.
  - apply (pstream_next _ _ q). rewrite Hf. apply H.
  - apply (fi_flit _ _ H). rewrite <- Hf. apply elem_of_app. right. left.
Qed.

Lemma flow_dest arr s r f q : flow_inv arr s -> held s r = f :: q -> exists o, dest f r.2 o.
Proof.
  intros H E. apply (fi_flit _ _ H). rewrite <- (fi_flow _ _ H r), E. apply elem_of_app. right. left.
Qed.

Lemma dest_same f g v o : fl_route f = fl_route g -> dest f v o -> dest g v o.
Proof. unfold dest. by intros ->. Qed.

(** ** What a grant does *)

Record grants (tick : Z) (o : nat) (r : req) (x : vflit) (s s' : router (M := M)) : Prop := {
  g_trace : r_trace s' = r_trace s ++ [(o, r, vf x)];
  g_pop : held s r = vf x :: held s' r;
  g_other r' : r' <> r -> r_int s' r' = r_int s r' /\ r_vcs s' r' = r_vcs s r';
  g_int : r_int s' r `suffix_of` r_int s r;
  g_vcs : r_vcs s' r `suffix_of` r_vcs s r;
  g_lock k : r_lock s' k = if decide (k = (o, r.2)) then
                             if is_tail (vf x) then None else Some r
                           else r_lock s k;
  g_credit k : r_credit s' k = if decide (k = (o, r.2)) then r_credit s k - 1 else r_credit s k;
  g_xbar i : r_xbar s' i = r_xbar s i ++
    (if decide (i = r.1) then [(o, mk_vflit (vf x) (vf_time x) tick)] else []);
  g_lru k : r_lru s' k = if decide (k = o) then without_req r (r_lru s k) ++ [r] else r_lru s k;
  g_tokens k : k.1 <> o -> r_tokens s' k = r_tokens s k;
  g_cached r' : r_cached s' r' = r_cached s r' \/ r' = r /\ is_tail (vf x) = true /\ r_cached s' r = -1;
  g_tail : is_tail (vf x) = true -> isPassThrough c = false -> r_cached s' r = -1;
  g_same : (r_link s', r_clink s', r_out s', r_wake s', r_nextvc s', r_last s', r_done s') =
           (r_link s, r_clink s, r_out s, r_wake s, r_nextvc s, r_last s, r_done s)
}.

(** What makes a grant of [o] to [r] correct. *)
Record elig (tick : Z) (o : nat) (r : req) (x : vflit) (s : router (M := M)) : Prop := {
  e_head : exists q, sa_queue c s r = x :: q;
  e_dest : dest (vf x) r.2 o;
  e_credit : 0 < r_credit s (o, r.2);
  e_lock : r_lock s (o, r.2) = None \/ r_lock s (o, r.2) = Some r;
  e_time : vf_time x <= tick
}.

Lemma elig_held arr tick o r x s : flow_inv arr s -> elig tick o r x s ->
  exists q, held s r = vf x :: q.
Proof.
  intros H He. destruct (e_head _ _ _ _ _ He) as [q Hq]. unfold sa_queue in Hq. unfold held.
  destruct (usesInternalIngressPipeline c) eqn:E.
  - rewrite Hq. by eexists.
  - rewrite (fi_int _ _ H r E), Hq. by eexists.
Qed.

Section Grant.
Context (arr : req -> list (flit M)) (s s' : router (M := M)) (tick : Z) (o : nat) (r : req) (x : vflit (M := M)).
Hypothesis Hinv : flow_inv arr s.
Hypothesis He : elig tick o r x s.
Hypothesis Hg : grants tick o r x s s'.

(** The only lock [r] can hold is the one of the output it requests. *)
Lemma grant_own o' v : r_lock s (o', v) = Some r -> o' = o /\ v = r.2.
Proof using Hinv He.
  intros Hl. destruct (fi_owner _ _ Hinv _ _ _ Hl) as (Hv & Hne & Hd).
  destruct (elig_held _ _ _ _ _ _ Hinv He) as [q Hq].
  destruct (flow_fits _ _ _ _ _ Hinv Hq) as [Hfit _].
  destruct (cur (from r (r_trace s))) as [|g l] eqn:E; [done|].
  assert (g ∈ g :: l) as Hin by left.
  destruct (fits_same _ _ _ Hfit Hin) as [Hr _]. split; [|done].
  apply (dest_fun (vf x) r.2); [|apply He]. subst v. apply (dest_same g); [done|by apply Hd].
Qed.

Lemma grant_cur : cur (outs (o, r.2) (r_trace s)) = cur (from r (r_trace s)).
Proof using Hinv He.
  rewrite (fi_lock _ _ Hinv). destruct (e_lock _ _ _ _ _ He) as [El| ->]; [|done]. rewrite El.
  destruct (cur (from r (r_trace s))) as [|g l] eqn:E; [done|].
  destruct (fi_held _ _ Hinv r) as [o' Ho']; [by rewrite E|].
  destruct (grant_own _ _ Ho') as [-> _]. by rewrite El in Ho'.
Qed.

Lemma grant_from r' : from r' (r_trace s') =
  from r' (r_trace s) ++ (if decide (r = r') then [vf x] else []).
Proof using Hg. by rewrite (g_trace _ _ _ _ _ _ Hg), from_snoc. Qed.

Lemma grant_outs k : outs k (r_trace s') =
  outs k (r_trace s) ++ (if decide ((o, r.2) = k) then [vf x] else []).
Proof using Hg. by rewrite (g_trace _ _ _ _ _ _ Hg), outs_snoc. Qed.

Lemma grant_cur_from r' : cur (from r' (r_trace s')) =
  if decide (r = r') then next_cur (cur (from r (r_trace s))) (vf x) else cur (from r' (r_trace s)).
Proof using Hg.
  rewrite grant_from. case_decide; [subst r'; by rewrite cur_snoc|by rewrite app_nil_r].
Qed.

Lemma grant_held r' : r' <> r -> held s' r' = held s r'.
Proof using Hg. intros Hr. destruct (g_other _ _ _ _ _ _ Hg r' Hr) as [E1 E2]. unfold held. by rewrite E1, E2. Qed.

Lemma grant_fits : fits (cur (from r (r_trace s))) (vf x).
Proof using Hinv He.
  destruct (elig_held _ _ _ _ _ _ Hinv He) as [q Hq]. by apply (flow_fits _ _ _ _ _ Hinv Hq).
Qed.

(** A flit of the open packet after the grant has the granted flit's destination. *)
Lemma grant_next_dest g : g ∈ next_cur (cur (from r (r_trace s))) (vf x) -> dest g r.2 o.
Proof using Hinv He.
  unfold next_cur. destruct (is_tail (vf x)); [by intros ?%not_elem_of_nil|].
  rewrite elem_of_app, list_elem_of_singleton. intros [Hg'| ->]; [|apply He].
  destruct (fits_same _ _ _ grant_fits Hg') as [Hr _]. apply (dest_same (vf x)); [done|apply He].
Qed.

Lemma grant_lock_inv o' v : cur (outs (o', v) (r_trace s')) =
  match r_lock s' (o', v) with Some r' => cur (from r' (r_trace s')) | None => [] end.
Proof using Hinv He Hg.
  rewrite grant_outs, (g_lock _ _ _ _ _ _ Hg).
  destruct (decide ((o, r.2) = (o', v))) as [<-|Hne].
  - rewrite decide_True by done. rewrite cur_snoc, grant_cur.
    destruct (is_tail (vf x)) eqn:E; [unfold next_cur; by rewrite E|].
    by rewrite grant_cur_from, decide_True.
  - rewrite decide_False by congruence. rewrite app_nil_r, (fi_lock _ _ Hinv).
    destruct (r_lock s (o', v)) as [r'|] eqn:El; [|done].
    rewrite grant_cur_from. case_decide; [|done]. subst r'.
    destruct (grant_own _ _ El) as [-> ->]. done.
Qed.

Lemma grant_owner o' v r' : r_lock s' (o', v) = Some r' ->
  r'.2 = v /\ cur (from r' (r_trace s')) <> [] /\
  forall g, g ∈ cur (from r' (r_trace s')) -> dest g v o'.
Proof using Hinv He Hg.
  rewrite (g_lock _ _ _ _ _ _ Hg), grant_cur_from. case_decide as Hk.
  - injection Hk as -> ->. destruct (is_tail (vf x)) eqn:E; [done|]. intros [= <-].
    rewrite decide_True by done. split; [done|]. split; [|apply grant_next_dest].
    unfold next_cur. rewrite E. by destruct (cur _).
  - intros Hl. destruct (decide (r = r')) as [<-|Hne]; [|by apply Hinv].
    destruct (grant_own _ _ Hl) as [-> ->]. done.
Qed.

Lemma grant_flow_inv : flow_inv arr s'.
Proof using Hinv He Hg.
  split.
  - intros r'. rewrite grant_from. destruct (decide (r = r')) as [<-|Hne].
    + rewrite <- (fi_flow _ _ Hinv r), (g_pop _ _ _ _ _ _ Hg), <- app_assoc. done.
    + rewrite app_nil_r, grant_held by done. apply Hinv.
  - intros r' Hi. destruct (decide (r' = r)) as [->|Hne].
    + pose proof (g_int _ _ _ _ _ _ Hg) as Hs. rewrite (fi_int _ _ Hinv r Hi) in Hs.
      by apply suffix_nil_inv in Hs.
    + destruct (g_other _ _ _ _ _ _ Hg r' Hne) as [-> _]. by apply Hinv.
  - apply Hinv.
  - apply Hinv.
  - apply Hinv.
  - apply grant_lock_inv.
  - apply grant_owner.
  - intros r'. rewrite grant_cur_from. case_decide as Hr.
    + subst r'. intros Hne. exists o. rewrite (g_lock _ _ _ _ _ _ Hg), decide_True by done.
      unfold next_cur in Hne. by destruct (is_tail (vf x)).
    + intros [o' Ho']%(fi_held _ _ Hinv). exists o'. rewrite (g_lock _ _ _ _ _ _ Hg).
      case_decide as Hk; [|done]. injection Hk as -> Hv. rewrite Hv in Ho'.
      destruct (e_lock _ _ _ _ _ He); congruence.
  - intros k. rewrite grant_outs. case_decide as Hk; [|rewrite app_nil_r; apply Hinv].
    subst k. constructor; [apply Hinv|]. rewrite grant_cur. apply grant_fits.
  - intros o' r' g. rewrite (g_trace _ _ _ _ _ _ Hg). intros [?|[= -> -> ->]]%elem_snoc; [by apply Hinv|apply He].
  - intros r'. destruct (g_cached _ _ _ _ _ _ Hg r') as [E|(-> & _ & E)]; [|by left]. rewrite E.
    destruct (fi_cached _ _ Hinv r') as [?|(Hp & g & o' & Hd & Hc & Hin)]; [by left|].
    rewrite grant_cur_from. destruct (decide (r = r')) as [<-|Hne].
    2:{ right. split; [done|]. exists g, o'. by rewrite grant_held. }
    destruct (is_tail (vf x)) eqn:Et; [left; rewrite <- E; by apply Hg|].
    right. split; [done|]. exists (vf x), o'. split; [|split; [done|]].
    2:{ left. unfold next_cur. rewrite Et, elem_of_app. right. by left. }
    destruct Hin as [Hin|[_ Hh]].
    + destruct (fits_same _ _ _ grant_fits Hin) as [Hr _]. by apply (dest_same g).
    + rewrite (g_pop _ _ _ _ _ _ Hg) in Hh. injection Hh as <-. done.
Qed.

End Grant.

(** ** Resources *)

(** Flits in the internal pool of input [i]. *)
Definition pool (s : router (M := M)) (i : nat) : Z :=
  sumZ ((fun v => nz (length (r_int s (i, v)))) <$> seq 0 (c_vcs c)).
(** Credits for VC [v] on their way to output [o]. *)
Definition in_flight (s : router (M := M)) (k : nat * nat) : Z :=
  nz (length (filter (fun p : nat * Z => p.1 = k.2) (r_clink s k.1))).

(** [given k] is the number of credits the consumer of output VC [k] has sent. *)
Record res_inv (given : nat * nat -> Z) (s : router (M := M)) : Prop := {
  ri_tokens k : 0 <= r_tokens s k <= default_initial_tokens;
  ri_credit k : 0 <= r_credit s k;
  ri_account k : r_credit s k + in_flight s k + nz (length (outs k (r_trace s))) = c_max c k + given k;
  ri_given k : given k <= nz (length (outs k (r_trace s)));
  ri_lru o : NoDup (r_lru s o);
  ri_lru_range o r : r ∈ r_lru s o -> (r.1 < c_in c)%nat /\ (r.2 < c_vcs c)%nat;
  ri_occ i : r_occ s i = pool s i;
  ri_cap i : pool s i <= InternalIngressCapacity
}.

Definition res_view (s : router (M := M)) :=
  (r_tokens s, r_credit s, r_clink s, r_trace s, r_lru s, r_occ s, r_int s).
Lemma res_inv_view given s s' : res_view s' = res_view s -> res_inv given s -> res_inv given s'.
Proof.
  intros E. injection E as E1 E2 E3 E4 E5 E6 E7. intros []. unfold pool, in_flight in *.
  split; unfold pool, in_flight; rewrite ?E1, ?E2, ?E3, ?E4, ?E5, ?E6, ?E7; auto.
Qed.

Lemma fn_lookup {A B} `{EqDecision A} (f : A -> B) a b k :
  (<[a := b]> f) k = if decide (k = a) then b else f k.
Proof.
  destruct (decide (k = a)) as [->|]; [by rewrite fn_lookup_insert|by rewrite fn_lookup_insert_ne].
Qed.

(** The total over the channels of an input after one of them changed. *)
Lemma pool_update s s' i v d : (v < c_vcs c)%nat ->
  nz (length (r_int s' (i, v))) = nz (length (r_int s (i, v))) + d ->
  (forall v', v' <> v -> r_int s' (i, v') = r_int s (i, v')) -> pool s' i = pool s i + d.
Proof.
  intros Hv Hd Ho. unfold pool.
  assert (seq 0 (c_vcs c) = seq 0 v ++ v :: seq (S v) (c_vcs c - S v)) as ->.
  { replace (c_vcs c) with (v + S (c_vcs c - S v))%nat at 1 by lia. by rewrite seq_app. }
  rewrite !fmap_app, !fmap_cons, !sumZ_app, !sumZ_cons, Hd.
  rewrite !(list_fmap_ext (fun v' => nz (length (r_int s' (i, v')))) (fun v' => nz (length (r_int s (i, v'))))).
  - lia.
  - intros k j [-> Hj]%lookup_seq. by rewrite Ho by lia.
  - intros k j [-> Hj]%lookup_seq. by rewrite Ho by lia.
Qed.

Lemma pool_same s s' i : (forall v, r_int s' (i, v) = r_int s (i, v)) -> pool s' i = pool s i.
Proof. intros H. unfold pool. f_equal. apply list_fmap_ext. intros k v _. by rewrite H. Qed.

Lemma pool_ge s i v : (v < c_vcs c)%nat -> nz (length (r_int s (i, v))) <= pool s i.
Proof.
  intros Hv. unfold pool.
  assert (seq 0 (c_vcs c) = seq 0 v ++ v :: seq (S v) (c_vcs c - S v)) as ->.
  { replace (c_vcs c) with (v + S (c_vcs c - S v))%nat at 1 by lia. by rewrite seq_app. }
  rewrite fmap_app, fmap_cons, sumZ_app, sumZ_cons.
  assert (forall l, 0 <= sumZ ((fun v' => nz (length (r_int s (i, v')))) <$> l)) as H.
  { intros l. apply sumZ_nonneg, Forall_fmap, Forall_forall. intros; cbn; lia. }
  pose proof (H (seq 0 v)). pose proof (H (seq (S v) (c_vcs c - S v))). lia.
Qed.

Lemma held_range arr s r : flow_inv arr s -> held s r <> [] ->
  (r.1 < c_in c)%nat /\ (r.2 < c_vcs c)%nat.
Proof.
  intros H Hh. apply (fi_range _ _ H). rewrite <- (fi_flow _ _ H r). by destruct (from _ _).
Qed.

Lemma without_req_NoDup r l : NoDup l -> NoDup (without_req r l ++ [r]).
Proof.
  intros H. apply NoDup_app. split; [by apply NoDup_filter|]. split; [|apply NoDup_singleton].
  intros y [Hy _]%list_elem_of_filter ->%list_elem_of_singleton. done.
Qed.

(** Resources after a grant: one credit less on its output VC, and the flit out of
    the pool. *)
Lemma grant_res_inv arr given tick o r x s s' :
  flow_inv arr s -> res_inv given s -> elig tick o r x s -> grants tick o r x s s' ->
  (forall k, 0 <= r_tokens s' k <= default_initial_tokens) ->
  (forall i, r_occ s' i = pool s' i) -> (forall i, pool s' i <= pool s i) ->
  res_inv given s'.
Proof.
  intros Hf Hr He Hg Htok Hocc Hpool.
  pose proof (g_same _ _ _ _ _ _ Hg) as E. injection E as _ E2 _ _ _ _ _.
  assert (Hlen : forall k, nz (length (outs k (r_trace s'))) =
    nz (length (outs k (r_trace s))) + if decide (k = (o, r.2)) then 1 else 0).
  { intros k. rewrite (grant_outs _ _ _ _ _ _ Hg), length_app.
    destruct (decide (k = (o, r.2))) as [->|]; [rewrite decide_True by done; cbn; lia|].
    rewrite decide_False by congruence. cbn. lia. }
  split.
  - done.
  - intros k. rewrite (g_credit _ _ _ _ _ _ Hg). pose proof (ri_credit _ _ Hr k).
    case_decide; [|done]. subst k. pose proof (e_credit _ _ _ _ _ He). lia.
  - intros k. rewrite (g_credit _ _ _ _ _ _ Hg), Hlen. pose proof (ri_account _ _ Hr k) as Ha.
    unfold in_flight in *. rewrite E2. case_decide; lia.
  - intros k. rewrite Hlen. pose proof (ri_given _ _ Hr k). case_decide; lia.
  - intros k. rewrite (g_lru _ _ _ _ _ _ Hg). case_decide; [apply without_req_NoDup|]; apply Hr.
  - intros k r'. rewrite (g_lru _ _ _ _ _ _ Hg). case_decide; [|apply Hr].
    rewrite elem_of_app, list_elem_of_singleton. intros [[_ ?]%list_elem_of_filter| ->]; [by eapply Hr|].
    apply (held_range _ _ _ Hf). rewrite (g_pop _ _ _ _ _ _ Hg). done.
  - done.
  - intros i. pose proof (Hpool i). pose proof (ri_cap _ _ Hr i). lia.
Qed.

Lemma set_vc_id (f : flit M) v : fl_vc f = v -> set_vc v f = f.
Proof. intros <-. by destruct f. Qed.

(** The part of a grant after the flit has left its buffer ([s1]). *)
Section Finish.
Context (arr : req -> list (flit M)) (given : nat * nat -> Z) (s s1 : router (M := M)) (tick : Z).
Context (o : nat) (r : req) (x : vflit (M := M)).
Hypothesis Hf : flow_inv arr s.
Hypothesis He : elig tick o r x s.
Hypothesis Hpop : held s r = vf x :: held s1 r.
Hypothesis Hother : forall r', r' <> r -> r_int s1 r' = r_int s r' /\ r_vcs s1 r' = r_vcs s r'.
Hypothesis Hint : r_int s1 r `suffix_of` r_int s r.
Hypothesis Hvcs : r_vcs s1 r `suffix_of` r_vcs s r.
Hypothesis Hsame :
  (r_lock s1, r_credit s1, r_xbar s1, r_lru s1, r_cached s1, r_trace s1, r_tokens s1) =
  (r_lock s, r_credit s, r_xbar s, r_lru s, r_cached s, r_trace s, r_tokens s).
Hypothesis Hframe : (r_link s1, r_clink s1, r_out s1, r_wake s1, r_nextvc s1, r_last s1, r_done s1) =
           (r_link s, r_clink s, r_out s, r_wake s, r_nextvc s, r_last s, r_done s).

Lemma finish_vc : set_vc (nz r.2) (vf x) = vf x.
Proof using Hf Hpop. apply set_vc_id. by apply (flow_fits _ _ _ _ _ Hf Hpop). Qed.

(** The state a grant leaves, up to the fields its effect does not mention. *)
Lemma finish_grants s2 :
  r_trace s2 = r_trace s1 ++ [(o, r, vf x)] ->
  (r_int s2, r_vcs s2) = (r_int s1, r_vcs s1) ->
  (forall k, r_lock s2 k = if decide (k = (o, r.2)) then
     if is_tail (vf x) then None else Some r else r_lock s1 k) ->
  r_credit s2 = <[(o, r.2) := r_credit s1 (o, r.2) - 1]> (r_credit s1) ->
  r_xbar s2 = <[r.1 := r_xbar s1 r.1 ++ [(o, mk_vflit (set_vc (nz r.2) (vf x)) (vf_time x) tick)]]> (r_xbar s1) ->
  r_lru s2 = <[o := without_req r (r_lru s1 o) ++ [r]]> (r_lru s1) ->
  (forall k, k.1 <> o -> r_tokens s2 k = r_tokens s1 k) ->
  (r_cached s2 = r_cached s1 /\ (is_tail (vf x) = true -> isPassThrough c = true) \/
   is_tail (vf x) = true /\ r_cached s2 = <[r := -1]> (r_cached s1)) ->
  (r_link s2, r_clink s2, r_out s2, r_wake s2, r_nextvc s2, r_last s2, r_done s2) =
  (r_link s1, r_clink s1, r_out s1, r_wake s1, r_nextvc s1, r_last s1, r_done s1) ->
  grants tick o r x s s2.
Proof using Hf Hpop Hother Hint Hvcs Hsame Hframe.
  intros Ht Eq Hl Hcr Hx Hlru Htk Hca Hfr.
  injection Hsame as El Ec Ex Elr Ecc Et Etk. injection Eq as Ei Ev.
  split; unfold held; rewrite ?Ei, ?Ev; auto.
  - by rewrite Ht, Et.
  - intros k. by rewrite Hl, El.
  - intros k. rewrite Hcr, fn_lookup, Ec. by case_decide; [subst k|].
  - intros i. rewrite Hx, fn_lookup, Ex, finish_vc. case_decide; [by subst i|by rewrite app_nil_r].
  - intros k. rewrite Hlru, fn_lookup, Elr. by case_decide; [subst k|].
  - intros k Hk. by rewrite Htk, Etk.
  - intros r'. destruct Hca as [[Hca _]|[Htl Hca]]; rewrite Hca, Ecc; [by left|].
    rewrite !fn_lookup. case_decide; [right|by left]. by rewrite decide_True.
  - intros Htl Hp. destruct Hca as [[_ Hca]|[_ Hca]]; [by rewrite Hca in Hp|].
    by rewrite Hca, fn_lookup_insert.
  - by rewrite Hfr.
Qed.

(** The lock after the grant in a state with the locks of [s]. *)
Lemma finish_lock (t : router (M := M)) : r_lock t = r_lock s -> exists l,
  (if is_tail (vf x) then Ok (release_lock t o r.2) else acquire_lock t o r.2 r) = Ok (put_lock l t) /\
  forall k, l k = if decide (k = (o, r.2)) then if is_tail (vf x) then None else Some r else r_lock s k.
Proof using He.
  intros E. destruct (is_tail (vf x)).
  { eexists. split; [done|]. intros k. by rewrite fn_lookup, E. }
  unfold acquire_lock. rewrite E. destruct (e_lock _ _ _ _ _ He) as [El|El]; rewrite El.
  - eexists. split; [done|]. intros k. by rewrite fn_lookup.
  - exists (r_lock t). unfold guard. rewrite Nat.eqb_refl. split; [by destruct t|].
    intros k. rewrite E. by case_decide; [subst k|].
Qed.

Lemma finish_credit : (0 <=? r_credit s (o, r.2) - 1) = true.
Proof using He. apply Z.leb_le. pose proof (e_credit _ _ _ _ _ He). lia. Qed.

End Finish.

Section Handlers.
Context (arr : req -> list (flit M)) (given : nat * nat -> Z).

Definition safe (s : router (M := M)) : Prop := flow_inv arr s /\ res_inv given s.

Lemma grant_safe tick o r x s s' :
  safe s -> elig tick o r x s -> grants tick o r x s s' ->
  (forall k, 0 <= r_tokens s' k <= default_initial_tokens) ->
  (forall i, r_occ s' i = pool s' i) -> (forall i, pool s' i <= pool s i) -> safe s'.
Proof.
  intros [Hf Hr] He Hg ???. split; [by eapply grant_flow_inv|by eapply grant_res_inv].
Qed.

(** Taking the front flit out of an input VC. *)
Lemma pop_vcs tick o r x s : safe s -> usesInternalIngressPipeline c = false -> elig tick o r x s ->
  exists q, r_vcs s r = x :: q /\ r_int s r = [] /\
    getTopFlit s r = Ok (x, put_vcs (<[r := q]> (r_vcs s)) s) /\
    held s r = vf x :: held (put_vcs (<[r := q]> (r_vcs s)) s) r.
Proof.
  intros [Hf Hr] Hi He. destruct (e_head _ _ _ _ _ He) as [q Hq]. unfold sa_queue in Hq.
  rewrite Hi in Hq. exists q. split; [done|].
  split; [by apply (fi_int _ _ Hf)|]. unfold getTopFlit, held. rewrite Hq.
  split; [done|]. cbn. rewrite fn_lookup_insert, (fi_int _ _ Hf r Hi). done.
Qed.

Definition popped_int (s : router (M := M)) (r : req) (q : list vflit) : router :=
  put_int (<[r := q]> (r_int s)) (put_occ (<[r.1 := r_occ s r.1 - 1]> (r_occ s)) s).

Lemma pop_int tick o r x s : safe s -> usesInternalIngressPipeline c = true -> elig tick o r x s ->
  exists q, r_int s r = x :: q /\ getInternalFlit s r = Ok (x, popped_int s r q) /\
    held s r = vf x :: held (popped_int s r q) r /\
    forall i, pool (popped_int s r q) i = if decide (i = r.1) then pool s i - 1 else pool s i.
Proof.
  intros [Hf Hr] Hi He. destruct (e_head _ _ _ _ _ He) as [q Hq]. unfold sa_queue in Hq.
  rewrite Hi in Hq. exists q. split; [done|].
  destruct (elig_held _ _ _ _ _ _ Hf He) as [q' Hq'].
  assert (Hrange : (r.2 < c_vcs c)%nat) by (apply (held_range _ _ _ Hf); by rewrite Hq').
  destruct r as [i v]. pose proof (pool_ge s i v Hrange) as Hge. rewrite Hq in Hge. cbn in Hge.
  unfold getInternalFlit, guard. rewrite Hq. cbn [fst snd]. rewrite (ri_occ _ _ Hr i).
  replace (0 <? pool s i) with true by (symmetry; apply Z.ltb_lt; lia).
  split; [unfold popped_int; cbn; by rewrite (ri_occ _ _ Hr i)|]. split.
  - unfold held, popped_int. cbn. by rewrite Hq, fn_lookup_insert.
  - intros j. case_decide as Hj.
    + subst j. cbn [fst]. assert (H : pool (popped_int s (i, v) q) i = pool s i + -1); [|lia].
      apply (pool_update s _ i v); [done| |]; unfold popped_int; cbn.
      * rewrite fn_lookup_insert, Hq. cbn. lia.
      * intros v' Hv. rewrite fn_lookup_insert_ne by congruence. done.
    + apply pool_same. intros v'. unfold popped_int. cbn. cbn in Hj. by rewrite fn_lookup_insert_ne by congruence.
Qed.

(** Run the end of a grant: credit, crossbar, lock. *)
Ltac finish_grant He :=
  cbn [rbind]; unfold decrement_credit, guard; cbn;
  rewrite (finish_credit _ _ _ _ _ He); cbn [rbind];
  match goal with |- context [if is_tail _ then Ok (release_lock ?t _ _) else _] =>
    let l := fresh "l" in let E := fresh "E" in
    destruct (finish_lock _ _ _ _ _ He t eq_refl) as (l & E & Hl); rewrite E; clear E
  end; cbn [rbind].

Lemma passGrant_ok tick o r x s : safe s -> isPassThrough c = true -> elig tick o r x s ->
  exists s', passGrant c tick s o r = Ok s' /\ grants tick o r x s s' /\ safe s'.
Proof.
  intros Hs Hp He. pose proof Hs as [Hf Hr]. unfold passGrant.
  destruct (usesInternalIngressPipeline c) eqn:Hi.
  - destruct (pop_int _ _ _ _ _ Hs Hi He) as (q & Hq & -> & Hpop & Hpool).
    finish_grant He. eexists. split; [done|].
    match goal with |- grants _ _ _ _ _ ?t /\ _ => assert (Hg : grants tick o r x s t) end.
    { apply (finish_grants arr s (popped_int s r q)); auto.
      - intros r' Hne. cbn. by rewrite fn_lookup_insert_ne by done.
      - cbn. rewrite fn_lookup_insert, Hq. by exists [x]. }
    split; [exact Hg|]. apply (grant_safe tick o r x s); [done|done|exact Hg|apply Hr| |].
    + intros i. change (r_occ (popped_int s r q) i = pool (popped_int s r q) i). rewrite Hpool.
      cbn. rewrite fn_lookup, !(ri_occ _ _ Hr). by case_decide; [subst i|].
    + intros i. change (pool (popped_int s r q) i <= pool s i). rewrite Hpool. case_decide; lia.
  - destruct (pop_vcs _ _ _ _ _ Hs Hi He) as (q & Hq & Hn & -> & Hpop).
    finish_grant He. eexists. split; [done|].
    match goal with |- grants _ _ _ _ _ ?t /\ _ => assert (Hg : grants tick o r x s t) end.
    { apply (finish_grants arr s (put_vcs (<[r := q]> (r_vcs s)) s)); auto.
      - intros r' Hne. cbn. by rewrite fn_lookup_insert_ne by done.
      - cbn. rewrite fn_lookup_insert, Hq. by exists [x]. }
    split; [exact Hg|]. apply (grant_safe tick o r x s); [done|done|exact Hg|apply Hr|apply Hr|done].
Qed.

Lemma token_not_internal : isPassThrough c = false -> usesInternalIngressPipeline c = false.
Proof. unfold isPassThrough, usesInternalIngressPipeline. by destruct (c_nps c). Qed.

Lemma grant_request_ok tick o r x s : safe s -> isPassThrough c = false ->
  elig tick o r x s -> 0 < r_tokens s (o, r) ->
  exists s', (let* (x, s) := getTopFlit s r in
              let* s := grant_request tick s o r x in
              Ok (Some r.1, update_lru s o r)) = Ok (Some r.1, s') /\
    grants tick o r x s s' /\ safe s'.
Proof.
  intros Hs Hp He Htok. pose proof Hs as [Hf Hr].
  destruct (pop_vcs _ _ _ _ _ Hs (token_not_internal Hp) He) as (q & Hq & Hn & -> & Hpop).
  cbn [rbind]. unfold grant_request, decrement_credit, guard. cbn.
  apply Z.ltb_lt in Htok as Htok'. rewrite Htok'. cbn. rewrite (finish_credit _ _ _ _ _ He). cbn [rbind].
  set (t0 := grant_switch _ _ _ _).
  pose proof (finish_lock _ _ _ _ _ He (return_credit t0 r (is_tail (vf x))) eq_refl) as (l & El & Hl).
  assert (exists s', (if is_tail (vf x) then
      Ok (put_cached (<[r := -1]> (r_cached t0)) (release_lock (return_credit t0 r true) o r.2))
    else if is_write_transaction (vf x) then acquire_lock (return_credit t0 r false) o r.2 r
         else Ok (return_credit t0 r false)) = Ok s' /\ grants tick o r x s (update_lru s' o r) /\
    r_tokens s' = <[(o, r) := r_tokens s (o, r) - 1]> (r_tokens s) /\
    r_occ s' = r_occ s /\ r_int s' = r_int s) as (s' & E & Hg & Et & Eo & Ei).
  { assert (Hgr : forall s2, r_trace s2 = r_trace t0 -> (r_int s2, r_vcs s2) = (r_int t0, r_vcs t0) ->
      r_lock s2 = l -> (r_credit s2, r_xbar s2, r_lru s2, r_tokens s2) =
        (r_credit t0, r_xbar t0, r_lru t0, r_tokens t0) ->
      (is_tail (vf x) = false /\ r_cached s2 = r_cached s \/
       is_tail (vf x) = true /\ r_cached s2 = <[r := -1]> (r_cached s)) ->
      (r_link s2, r_clink s2, r_out s2, r_wake s2, r_nextvc s2, r_last s2, r_done s2) =
      (r_link t0, r_clink t0, r_out t0, r_wake t0, r_nextvc t0, r_last t0, r_done t0) ->
      grants tick o r x s (update_lru s2 o r)).
    { intros s2 E1 E2 E3 E4 Hca E5. injection E4 as E4 E6 E7 E8.
      apply (finish_grants arr s (put_vcs (<[r := q]> (r_vcs s)) s)); auto; cbn.
      - intros r' Hne. by rewrite fn_lookup_insert_ne by done.
      - rewrite fn_lookup_insert, Hq. by exists [x].
      - by rewrite E3.
      - by rewrite E7.
      - intros k Hk. rewrite E8. cbn. rewrite fn_lookup_insert_ne; [done|]. by intros <-.
      - destruct Hca as [[Hca ?]|?]; [left|by right]. split; [done|]. by rewrite Hca. }
    destruct (is_tail (vf x)) eqn:Ht.
    - eexists. split; [done|]. split; [|done]. injection El as El. apply Hgr; auto.
    - assert (is_write_transaction (vf x) = true) as ->.
      { revert Ht. unfold is_tail, is_write_transaction. by destruct (fl_type (vf x)). }
      eexists. split; [exact El|]. split; [|done]. apply Hgr; auto. }
  cbn in E |- *. rewrite E. cbn [rbind]. eexists. split; [done|]. split; [exact Hg|].
  apply (grant_safe tick o r x s); [done|done|exact Hg| | |].
  - intros k. cbn. rewrite Et, fn_lookup. case_decide; [subst k|apply Hr].
    pose proof (ri_tokens _ _ Hr (o, r)). lia.
  - intros i. cbn. rewrite Eo, (ri_occ _ _ Hr). symmetry. apply pool_same. intros v. cbn. by rewrite Ei.
  - intros i. erewrite pool_same; [done|]. intros v. cbn. by rewrite Ei.
Qed.

(** ** One arbitration cycle

    From [s0], the grants [g] have been made on the outputs of [seen]; [served] marks
    the inputs they went to. *)

Definition g_outs (g : list (nat * req * flit M)) : list nat := (fun e => e.1.1) <$> g.
Definition g_ins (g : list (nat * req * flit M)) : list nat := (fun e => e.1.2.1) <$> g.

Record cycle (tick : Z) (s0 s : router (M := M)) (g : list (nat * req * flit M))
    (served : nat -> bool) (seen : list nat) : Prop := {
  cy_safe : safe s;
  cy_trace : r_trace s = r_trace s0 ++ g;
  cy_xbar i : (fun p => (p.1, vf p.2)) <$> r_xbar s i =
              (fun e => (e.1.1, e.2)) <$> filter (fun e => e.1.2.1 = i) g;
  cy_ready i : Forall (fun p => vf_time p.2 <= tick /\ vf_stage p.2 <= tick) (r_xbar s i);
  cy_outs : NoDup (g_outs g);
  cy_ins : NoDup (g_ins g);
  cy_seen o : o ∈ g_outs g -> o ∈ seen;
  cy_served i : served i = true <-> i ∈ g_ins g;
  cy_range i : i ∈ g_ins g -> (i < c_in c)%nat;
  cy_frame : (r_link s, r_clink s, r_out s, r_wake s, r_nextvc s, r_last s, r_done s) =
             (r_link s0, r_clink s0, r_out s0, r_wake s0, r_nextvc s0, r_last s0, r_done s0);
  cy_outputs o : o ∉ seen -> (forall v, r_credit s (o, v) = r_credit s0 (o, v)) /\
    (forall v, r_lock s (o, v) = r_lock s0 (o, v)) /\ (forall r, r_tokens s (o, r) = r_tokens s0 (o, r));
  cy_inputs r : served r.1 = false -> r_int s r = r_int s0 r /\ r_vcs s r = r_vcs s0 r;
  cy_suffix r : r_int s r `suffix_of` r_int s0 r /\ r_vcs s r `suffix_of` r_vcs s0 r
}.

Lemma cycle_start tick s : safe s -> (forall i, r_xbar s i = []) ->
  cycle tick s s [] (fun _ => false) [].
Proof.
  intros Hs Hx. split; auto; try by intros; rewrite Hx.
  - by rewrite app_nil_r.
  - constructor.
  - constructor.
  - intros i. split; [done|]. by intros ?%not_elem_of_nil.
  - intros i. by intros ?%not_elem_of_nil.
Qed.

Lemma cycle_elig tick s0 s g served seen o r x :
  cycle tick s0 s g served seen -> elig tick o r x s0 -> o ∉ seen -> served r.1 = false ->
  elig tick o r x s.
Proof.
  intros Hc [[q Hq] Hd Hcr Hl Ht] Ho Hs.
  destruct (cy_outputs _ _ _ _ _ _ Hc _ Ho) as (E1 & E2 & _).
  destruct (cy_inputs _ _ _ _ _ _ Hc _ Hs) as [E3 E4].
  split; [|done|by rewrite E1|by rewrite E2|done].
  exists q. unfold sa_queue in *. by rewrite E3, E4.
Qed.

(** An output without a grant. *)
Lemma cycle_skip tick s0 s g served seen o :
  cycle tick s0 s g served seen -> cycle tick s0 s g served (seen ++ [o]).
Proof.
  intros []. split; auto.
  - intros o' ?. apply elem_of_app. auto.
  - intros o' Ho. apply cy_outputs0. contradict Ho. apply elem_of_app. auto.
Qed.

(** An output that goes to [r]. *)
Lemma cycle_grant tick s0 s s' g served seen o r x :
  cycle tick s0 s g served seen -> o ∈ seen -> o ∉ g_outs g -> served r.1 = false ->
  elig tick o r x s -> grants tick o r x s s' -> safe s' ->
  cycle tick s0 s' (g ++ [(o, r, vf x)]) (<[r.1 := true]> served) seen.
Proof.
  intros Hc Ho Hog Hsv He Hg Hs.
  assert (Hnin : r.1 ∉ g_ins g).
  { intros Hin. apply (cy_served _ _ _ _ _ _ Hc) in Hin. congruence. }
  split; unfold g_outs, g_ins; rewrite ?fmap_app.
  - done.
  - by rewrite (g_trace _ _ _ _ _ _ Hg), (cy_trace _ _ _ _ _ _ Hc), app_assoc.
  - intros i. rewrite (g_xbar _ _ _ _ _ _ Hg), fmap_app, (cy_xbar _ _ _ _ _ _ Hc).
    rewrite filter_app, fmap_app, filter_cons, filter_nil. f_equal. cbn.
    destruct (decide (i = r.1)), (decide (r.1 = i)); congruence || done.
  - intros i. rewrite (g_xbar _ _ _ _ _ _ Hg). apply Forall_app. split; [apply Hc|].
    case_decide; constructor; [|done]. cbn. split; [apply He|done].
  - apply NoDup_app. split; [apply Hc|]. split; [|apply NoDup_singleton].
    intros o' Hin ->%list_elem_of_singleton. done.
  - apply NoDup_app. split; [apply Hc|]. split; [|apply NoDup_singleton].
    intros i Hin ->%list_elem_of_singleton. done.
  - intros o' [H| ->%list_elem_of_singleton]%elem_of_app; [by apply Hc|done].
  - intros i. rewrite fn_lookup, elem_of_app. cbn. rewrite list_elem_of_singleton.
    rewrite <- (cy_served _ _ _ _ _ _ Hc i). case_decide; [tauto|].
    split; [by left|by intros [?| ?]].
  - intros i [H| ->%list_elem_of_singleton]%elem_of_app; [by apply Hc|]. cbn.
    apply (held_range arr s r); [apply (cy_safe _ _ _ _ _ _ Hc)|].
    by rewrite (g_pop _ _ _ _ _ _ Hg).
  - rewrite (g_same _ _ _ _ _ _ Hg). apply Hc.
  - intros o' Hn. assert (o' <> o) as Hn2 by by intros ->.
    destruct (cy_outputs _ _ _ _ _ _ Hc _ Hn) as (E1 & E2 & E3). split; [|split].
    + intros v. rewrite (g_credit _ _ _ _ _ _ Hg), decide_False by congruence. apply E1.
    + intros v. rewrite (g_lock _ _ _ _ _ _ Hg), decide_False by congruence. apply E2.
    + intros r'. rewrite (g_tokens _ _ _ _ _ _ Hg); [apply E3|done].
  - intros r'. rewrite fn_lookup. case_decide; [done|]. intros Hf.
    destruct (g_other _ _ _ _ _ _ Hg r') as [-> ->]; [by intros ->|]. by apply Hc.
  - intros r'. destruct (cy_suffix _ _ _ _ _ _ Hc r') as [S1 S2].
    destruct (decide (r' = r)) as [->|Hne].
    + split; [etrans; [apply Hg|done]|etrans; [apply Hg|done]].
    + destruct (g_other _ _ _ _ _ _ Hg r' Hne) as [-> ->]. done.
Qed.

(** *** Gathering requests *)

Lemma elem_all_reqs r : r ∈ all_reqs c <-> (r.1 < c_in c)%nat /\ (r.2 < c_vcs c)%nat.
Proof.
  unfold all_reqs. destruct r as [i v]. rewrite list_elem_of_bind. cbn. split.
  - intros (i' & H & Hi). apply list_elem_of_bind in H as (v' & Hv & Hv').
    apply list_elem_of_singleton in Hv as [= -> ->]. apply elem_of_seq in Hi, Hv'. lia.
  - intros [Hi Hv]. exists i. split; [|apply elem_of_seq; lia].
    apply list_elem_of_bind. exists v. split; [by left|apply elem_of_seq; lia].
Qed.

(** [r] asks for [o] with a flit that is ready and may be sent. *)
Definition ready (tick : Z) (o : nat) (r : req) (x : vflit) (s : router (M := M)) : Prop :=
  elig tick o r x s /\ vf_stage x <= tick.

Record gathered (tick : Z) (s : router (M := M)) (seen : list req)
    (acc : router (M := M) * (nat -> list req)) : Prop := {
  ga_lru : exists l, acc.1 = put_lru l s /\
    forall o, exists new, l o = new ++ r_lru s o /\ Forall (fun r => r ∈ all_reqs c) new;
  ga_safe : safe acc.1;
  ga_reqs o r : r ∈ acc.2 o -> (exists x, elig tick o r x s) /\ r ∈ r_lru acc.1 o;
  ga_all o r x : r ∈ seen -> ready tick o r x s -> r ∈ acc.2 o
}.

Lemma lru_admit_spec (s : router (M := M)) o r : exists l, lru_admit o s r = put_lru l s /\ r ∈ l o /\
  forall k, l k = r_lru s k \/ k = o /\ l k = r :: r_lru s k /\ r ∉ r_lru s k.
Proof.
  unfold lru_admit. case_decide as Hin.
  - exists (r_lru s). split; [by destruct s|]. auto.
  - exists (<[o := r :: r_lru s o]> (r_lru s)). split; [done|]. rewrite fn_lookup_insert. split; [by left|].
    intros k. rewrite fn_lookup. case_decide; [subst k; right|by left]. auto.
Qed.

Lemma put_lru_safe s l : safe s -> (forall o, NoDup (l o)) ->
  (forall o r, r ∈ l o -> (r.1 < c_in c)%nat /\ (r.2 < c_vcs c)%nat) -> safe (put_lru l s).
Proof. intros [Hf []] Hn Hr. split; [by apply (flow_inv_view _ s)|]. split; auto. Qed.

Lemma lru_admit_safe s o r : safe s -> r ∈ all_reqs c -> safe (lru_admit o s r).
Proof.
  intros Hs Hin%elem_all_reqs. destruct (lru_admit_spec s o r) as (l & -> & _ & Hl).
  pose proof Hs as [_ Hr]. apply put_lru_safe; [done| |].
  - intros k. destruct (Hl k) as [->|(_ & -> & Hn)]; [apply Hr|]. constructor; [done|apply Hr].
  - intros k r'. destruct (Hl k) as [->|(_ & -> & _)]; [apply Hr|].
    intros [->|?]%elem_of_cons; [done|by eapply Hr].
Qed.

Lemma sa_queue_held s r x q : safe s -> sa_queue c s r = x :: q -> exists h, held s r = vf x :: h.
Proof.
  intros [Hf _] Hq. unfold held. unfold sa_queue in Hq.
  destruct (usesInternalIngressPipeline c) eqn:E; rewrite ?(fi_int _ _ Hf r E), Hq; by eexists.
Qed.

Lemma sa_queue_dest s r x q : safe s -> sa_queue c s r = x :: q -> exists o, dest (vf x) r.2 o.
Proof. intros Hs Hq. destruct (sa_queue_held _ _ _ _ Hs Hq) as [h Hh]. by apply (flow_dest arr s r _ h (proj1 Hs)). Qed.

(** A requester that turns out not to ask for anything. *)
Lemma gathered_skip tick s seen acc r : gathered tick s seen acc ->
  (forall o x, ~ ready tick o r x s) -> gathered tick s (seen ++ [r]) acc.
Proof.
  intros [] Hn. split; auto. intros o r' x [?| ->%list_elem_of_singleton]%elem_of_app; [eauto|].
  by intros ?%Hn.
Qed.

Lemma lru_admit_gathered tick s seen acc r o : gathered tick s seen acc -> r ∈ all_reqs c ->
  gathered tick s seen (lru_admit o acc.1 r, acc.2).
Proof.
  intros [(l & El & Hl) Hs Hq Ha] Hr. pose proof (lru_admit_safe _ o r Hs Hr) as Hs'.
  destruct (lru_admit_spec acc.1 o r) as (l' & E' & Hin & Hl'). split; cbn; auto.
  - exists l'. rewrite E', El. split; [done|]. intros k. destruct (Hl k) as (new & E & Hnew).
    rewrite El in Hl'. destruct (Hl' k) as [->|(_ & -> & _)]; cbn; rewrite E; eauto.
    exists (r :: new). auto.
  - intros o' r' Hr'. destruct (Hq _ _ Hr') as [Hx Hlru]. split; [done|]. rewrite E'. cbn.
    destruct (Hl' o') as [->|(_ & -> & _)]; [done|]. by right.
Qed.

Lemma passRequest_step tick s seen acc r : gathered tick s seen acc -> r ∈ all_reqs c ->
  exists acc', passRequest c tick acc r = Ok acc' /\ gathered tick s (seen ++ [r]) acc'.
Proof.
  intros Hg Hr. destruct acc as [s1 reqs]. pose proof (ga_safe _ _ _ _ Hg) as Hs. cbn in Hs.
  destruct (ga_lru _ _ _ _ Hg) as (l & El & _). cbn in El.
  assert (Eq : sa_queue c s1 r = sa_queue c s r) by by rewrite El.
  unfold passRequest. rewrite Eq.
  assert (Hready : forall o x, ready tick o r x s -> exists q, sa_queue c s r = x :: q /\
            need_stage (sa_queue c s r) tick = true /\ dest (vf x) r.2 o).
  { intros o x [[[q Hq] ? ? ? ?] ?]. exists q. rewrite Hq. split; [done|]. split; [|done]. cbn.
    apply andb_true_iff. by rewrite !Z.leb_le. }
  destruct (sa_queue c s r) as [|x q] eqn:Hq.
  { eexists. split; [done|]. apply gathered_skip; [done|]. intros o x (q & ? & _)%Hready. done. }
  destruct (need_stage (x :: q) tick) eqn:Hst; cbn [negb].
  2:{ eexists. split; [done|]. apply gathered_skip; [done|]. intros o y (q' & _ & ? & _)%Hready. done. }
  destruct (sa_queue_dest s1 r x q Hs) as [o Ho]; [by rewrite Eq|].
  rewrite (route_dest _ _ _ Ho). cbn [rbind]. unfold guard. rewrite (dest_valid _ _ _ Ho), Nat2Z.id.
  pose proof (lru_admit_gathered _ _ _ _ r o Hg Hr) as Hg1. cbn in Hg1.
  destruct (lru_admit_spec s1 o r) as (l' & E' & Hin' & _). cbn in Hst.
  apply andb_true_iff in Hst as [Ht Hst]. apply Z.leb_le in Ht, Hst.
  assert (Hcase : forall o' y, ready tick o' r y s -> o' = o /\ y = x).
  { intros o' y (q' & [= <- <-] & _ & Hd)%Hready. by split; [apply (dest_fun (vf x) r.2)|]. }
  rewrite E', El. cbn. case_bool_decide as Hlk; cbn [negb].
  2:{ eexists. split; [done|]. rewrite E', El in Hg1. apply gathered_skip; [exact Hg1|].
      intros o' y Hy. destruct (Hcase _ _ Hy) as [-> ->]. by apply Hlk, Hy. }
  unfold has_noccredit. cbn. destruct (Z.ltb_spec 0 (r_credit s (o, r.2))) as [Hc|Hc]; cbn [negb].
  2:{ eexists. split; [done|]. rewrite E', El in Hg1. apply gathered_skip; [exact Hg1|].
      intros o' y Hy. destruct (Hcase _ _ Hy) as [-> ->]. destruct Hy as [[? ? ? ? ?] ?]. lia. }
  eexists. split; [done|]. rewrite E', El in Hg1. destruct Hg1 as [G1 G2 G3 G4]. split; cbn in *; auto.
  - intros o' r'. rewrite fn_lookup. case_decide; [subst o'|apply G3].
    intros [?| ->%list_elem_of_singleton]%elem_of_app; [by apply G3|]. split; [|done].
    exists x. split; [by exists q|done..].
  - intros o' r' y [Hr'| ->%list_elem_of_singleton]%elem_of_app Hy; rewrite fn_lookup.
    + case_decide; [subst o'; apply elem_of_app; left|]; by eapply G4.
    + destruct (Hcase _ _ Hy) as [-> ->]. rewrite decide_True by done. apply elem_of_app. right. by left.
Qed.

Lemma passRequests_ok tick s : safe s ->
  exists acc, foldM (passRequest c tick) (s, fun _ => []) (all_reqs c) = Ok acc /\
    gathered tick s (all_reqs c) acc.
Proof.
  intros Hs. apply (foldM_total_seen (gathered tick s)).
  - intros seen acc r rest E Hg. apply passRequest_step; [done|]. rewrite E. apply elem_of_app. right. by left.
  - split; cbn; auto.
    + exists (r_lru s). split; [by destruct s|]. intros o. by exists [].
    + intros o r H. by apply not_elem_of_nil in H.
Qed.

Lemma elem_rotated first n o : (0 < n)%nat -> o ∈ rotated first n <-> (o < n)%nat.
Proof.
  intros Hn. unfold rotated. rewrite list_elem_of_fmap. split.
  - intros (k & -> & _). by apply Nat.mod_upper_bound; lia.
  - intros Ho. exists ((o + (n - first mod n)) mod n)%nat. split.
    + rewrite Nat.Div0.add_mod_idemp_r. rewrite (Nat.div_mod_eq first n) at 1.
      pose proof (Nat.mod_upper_bound first n ltac:(lia)).
      replace (n * (first / n) + first mod n + (o + (n - first mod n)))%nat
        with (o + (1 + first / n) * n)%nat by nia.
      rewrite Nat.Div0.mod_add. symmetry. by apply Nat.mod_small.
    + apply elem_of_seq. pose proof (Nat.mod_upper_bound (o + (n - first mod n)) n). lia.
Qed.

Lemma rotated_NoDup first n : NoDup (rotated first n).
Proof.
  unfold rotated. apply NoDup_fmap_2_strong; [|apply NoDup_seq].
  intros a b Ha%elem_of_seq Hb%elem_of_seq E.
  pose proof (Nat.div_mod_eq (first + a) n) as Ea. pose proof (Nat.div_mod_eq (first + b) n) as Eb.
  rewrite E in Ea. destruct (Nat.lt_trichotomy ((first + a) / n) ((first + b) / n)) as [H|[H|H]]; nia.
Qed.

(** *** Granting, pass-through *)

(** [r] is the first of the LRU list among those that ask and are not served. *)
Definition least_recent (l : list req) (reqs : list req) (served : nat -> bool) (r : req) : Prop :=
  exists l1 l2, l = l1 ++ r :: l2 /\ forall r', r' ∈ l1 -> r' ∈ reqs -> served r'.1 = true.

Record passed (tick : Z) (s0 : router (M := M)) (reqs : nat -> list req) (seen : list nat)
    (acc : router (M := M) * (nat -> bool) * bool) (g : list (nat * req * flit M)) : Prop := {
  pa_cycle : cycle tick s0 acc.1.1 g acc.1.2 seen;
  pa_busy o r : o ∈ seen -> r ∈ reqs o -> acc.1.2 r.1 = true \/ o ∈ g_outs g;
  pa_lru o : o ∉ g_outs g -> r_lru acc.1.1 o = r_lru s0 o;
  pa_win o r f : (o, r, f) ∈ g -> r ∈ reqs o /\
    r_lru acc.1.1 o = without_req r (r_lru s0 o) ++ [r] /\
    least_recent (r_lru s0 o) (reqs o) acc.1.2 r;
  (* every input is free for the output that is looked at first *)
  pa_first o r : head seen = Some o -> r ∈ reqs o -> exists w f, (o, w, f) ∈ g /\
    least_recent (r_lru s0 o) (reqs o) (fun _ => false) w
}.

Lemma lru_pick_some p l r : lru_pick p l = Some r ->
  p r = true /\ exists l1 l2, l = l1 ++ r :: l2 /\ forall r', r' ∈ l1 -> p r' = false.
Proof.
  unfold lru_pick. induction l as [|y l IH]; [done|]. cbn. destruct (p y) eqn:E.
  - intros [= ->]. split; [done|]. exists [], l. split; [done|]. by intros ? ?%not_elem_of_nil.
  - intros (Hp & l1 & l2 & -> & H)%IH. split; [done|]. exists (y :: l1), l2. split; [done|].
    intros r' [->|?]%elem_of_cons; auto.
Qed.

Lemma lru_pick_none p l r : lru_pick p l = None -> r ∈ l -> p r = false.
Proof.
  unfold lru_pick. induction l as [|y l IH]; cbn; [by intros _ ?%not_elem_of_nil|].
  destruct (p y) eqn:E; [done|]. intros H [->|?]%elem_of_cons; auto.
Qed.

Lemma g_outs_snoc g o r f : g_outs (g ++ [(o, r, f)]) = g_outs g ++ [o].
Proof. unfold g_outs. by rewrite fmap_app. Qed.

Lemma elem_g_outs g o r f : (o, r, f) ∈ g -> o ∈ g_outs g.
Proof. intros H. unfold g_outs. apply list_elem_of_fmap. by exists (o, r, f). Qed.

Section Pass.
Context (tick : Z) (s0 : router (M := M)) (reqs : nat -> list req).
Hypothesis Hpass : isPassThrough c = true.
Hypothesis Hreqs : forall o r, r ∈ reqs o -> (exists x, elig tick o r x s0) /\ r ∈ r_lru s0 o.

Lemma passed_fresh seen acc g o : passed tick s0 reqs seen acc g -> head (seen ++ [o]) = Some o -> o ∉ seen ->
  seen = [] /\ forall i, acc.1.2 i = false.
Proof.
  intros [Hc _ _ _ _] Hh Ho. assert (seen = []) as -> by (destruct seen; [done|]; injection Hh as ->; exfalso; apply Ho; left).
  split; [done|]. intros i. destruct (acc.1.2 i) eqn:E; [|done]. apply (cy_served _ _ _ _ _ _ Hc) in E.
  apply list_elem_of_fmap in E as ([[o' w] f] & _ & He). apply elem_g_outs, (cy_seen _ _ _ _ _ _ Hc) in He. by apply not_elem_of_nil in He.
Qed.

Lemma head_snoc_ne (seen : list nat) o o' : head (seen ++ [o]) = Some o' -> o' <> o -> head seen = Some o'.
Proof. destruct seen; cbn; congruence. Qed.

Lemma passOutput_step seen acc g o : passed tick s0 reqs seen acc g -> o ∉ seen ->
  exists acc' g', passOutput c tick reqs acc o = Ok acc' /\ passed tick s0 reqs (seen ++ [o]) acc' g'.
Proof using Hpass Hreqs.
  intros Hpa Ho. pose proof Hpa as [Hc Hb Hl Hw Hf]. destruct acc as [[s served] gr]. cbn in *.
  assert (Hog : o ∉ g_outs g) by by intros ?%(cy_seen _ _ _ _ _ _ Hc).
  unfold passOutput. destruct (lru_pick _ (r_lru s o)) as [r|] eqn:Hp.
  - apply lru_pick_some in Hp as (Hp & l1 & l2 & El & Hn).
    apply andb_true_iff in Hp as [Hsv Hin]. apply negb_true_iff in Hsv. apply bool_decide_eq_true in Hin.
    destruct (Hreqs _ _ Hin) as [[x Hx] _].
    pose proof (cycle_elig _ _ _ _ _ _ _ _ _ Hc Hx Ho Hsv) as He.
    destruct (passGrant_ok _ _ _ _ _ (cy_safe _ _ _ _ _ _ Hc) Hpass He) as (s' & -> & Hg & Hs').
    cbn. eexists _, (g ++ [(o, r, vf x)]). split; [done|].
    split; cbn; rewrite ?g_outs_snoc.
    + eapply cycle_grant; [by apply cycle_skip|apply elem_of_app; right; by left|done..].
    + intros o' r' Hin' Hr'. rewrite elem_of_app, list_elem_of_singleton, fn_lookup.
      apply elem_of_app in Hin' as [Hin'| ->%list_elem_of_singleton]; [|tauto].
      destruct (Hb _ _ Hin' Hr') as [E|?]; [left; by case_decide|tauto].
    + intros o' Hn'. rewrite elem_of_app, list_elem_of_singleton in Hn'.
      rewrite (g_lru _ _ _ _ _ _ Hg), decide_False by tauto. apply Hl. tauto.
    + assert (Hmono : forall i, served i = true -> (<[r.1 := true]> served) i = true).
      { intros i Hi. rewrite fn_lookup. by case_decide. }
      intros o' r' f' [Hin'|Hin']%elem_of_app.
      * destruct (Hw _ _ _ Hin') as (A1 & A2 & k1 & k2 & A3 & A4). split; [done|].
        rewrite (g_lru _ _ _ _ _ _ Hg), decide_False.
        2:{ intros ->. by apply elem_g_outs in Hin'. }
        split; [done|]. exists k1, k2. split; [done|]. auto.
      * apply list_elem_of_singleton in Hin' as [= -> -> ->]. split; [done|].
        rewrite (g_lru _ _ _ _ _ _ Hg), decide_True by done. rewrite (Hl o Hog) in *. split; [done|].
        exists l1, l2. split; [done|]. intros r' Hr1 Hr2. apply Hmono. specialize (Hn _ Hr1).
        apply andb_false_iff in Hn as [Hn|Hn]; [by apply negb_false_iff in Hn|].
        by apply bool_decide_eq_false in Hn.
    + intros o' r' Hh Hr'. destruct (decide (o' = o)) as [->|Hne].
      * destruct (passed_fresh _ _ _ _ Hpa Hh Ho) as [-> Hsv0]. cbn in Hsv0. exists r, (vf x).
        split; [apply elem_of_app; right; by left|]. rewrite (Hl o Hog) in El. exists l1, l2. split; [done|].
        intros r2 Hr1 Hr2. specialize (Hn _ Hr1). rewrite Hsv0 in Hn. cbn in Hn. by apply bool_decide_eq_false in Hn.
      * destruct (Hf o' r' (head_snoc_ne _ _ _ Hh Hne) Hr') as (w & f & H1 & H2). exists w, f. split; [|done].
        apply elem_of_app. by left.
  - eexists _, g. split; [done|]. split; cbn; auto.
    + by apply cycle_skip.
    + intros o' r' [?| ->%list_elem_of_singleton]%elem_of_app Hr'; [auto|]. left.
      destruct (Hreqs _ _ Hr') as [_ Hin]. rewrite <- (Hl o Hog) in Hin.
      pose proof (lru_pick_none _ _ _ Hp Hin) as E.
      apply andb_false_iff in E as [E|E]; [by apply negb_false_iff in E|]. by apply bool_decide_eq_false in E.
    + intros o' r' Hh Hr'. destruct (decide (o' = o)) as [->|Hne]; [|by eapply Hf, Hr'; apply (head_snoc_ne _ o)].
      destruct (passed_fresh _ _ _ _ Hpa Hh Ho) as [-> Hsv0]. cbn in Hsv0. exfalso.
      destruct (Hreqs _ _ Hr') as [_ Hin]. rewrite <- (Hl o Hog) in Hin. pose proof (lru_pick_none _ _ _ Hp Hin) as E.
      cbn in E. rewrite Hsv0 in E. cbn in E. by apply bool_decide_eq_false in E.
Qed.

Lemma passOutputs_ok L : safe s0 -> (forall i, r_xbar s0 i = []) -> NoDup L ->
  exists acc g, foldM (passOutput c tick reqs) (s0, fun _ => false, false) L = Ok acc /\
    passed tick s0 reqs L acc g.
Proof using Hpass Hreqs.
  intros Hs Hx HL.
  destruct (foldM_total_seen (fun seen acc => exists g, passed tick s0 reqs seen acc g)
    (passOutput c tick reqs) L (s0, fun _ => false, false)) as (acc & E & g & H); [| |eauto].
  - intros seen acc o rest E [g Hg]. destruct (passOutput_step _ _ _ o Hg) as (acc' & g' & ? & ?); [|eauto].
    rewrite E in HL. apply NoDup_app in HL as (_ & HL & _). intros Hin. apply (HL _ Hin). left.
  - exists []. split; cbn; auto.
    + by apply cycle_start.
    + intros o r f H. by apply not_elem_of_nil in H.
    + done.
Qed.

End Pass.

(** *** Gathering, token buckets *)

Record tgathered (tick : Z) (s : router (M := M)) (seen : list req)
    (acc : router (M := M) * token_reqs) : Prop := {
  tg_cached : exists h, acc.1 = put_cached h s;
  tg_safe : safe acc.1;
  tg_without o q : q ∈ acc.2.1 o -> exists x, elig tick o q.1 x s;
  tg_with o q : q ∈ acc.2.2 o -> (exists x, elig tick o q.1 x s) /\ 0 < r_tokens s (o, q.1);
  tg_all o r x : r ∈ seen -> ready tick o r x s -> exists p, (r, p) ∈ acc.2.1 o \/ (r, p) ∈ acc.2.2 o
}.

Section Tokens.
Hypothesis Htoken : isPassThrough c = false.

Lemma token_queue s r : sa_queue c s r = r_vcs s r.
Proof using Htoken. unfold sa_queue. by rewrite token_not_internal. Qed.

(** A cached route is the route of the flit at the front. *)
Lemma cached_dest s r x q : safe s -> r_vcs s r = x :: q -> r_cached s r <> -1 ->
  exists o, dest (vf x) r.2 o /\ r_cached s r = nz o.
Proof using Htoken.
  intros Hs Hq Hc. pose proof Hs as [Hf _].
  destruct (sa_queue_held s r x q Hs) as [h Hh]; [by rewrite token_queue|].
  destruct (fi_cached _ _ Hf r) as [?|(_ & f & o & Hd & Ho & Hin)]; [done|].
  exists o. split; [|done]. destruct Hin as [Hin|[_ Hin]].
  - destruct (flow_fits _ _ _ _ _ Hf Hh) as [Hfit _].
    destruct (fits_same _ _ _ Hfit Hin) as [Hr _]. by apply (dest_same f).
  - rewrite Hh in Hin. by injection Hin as <-.
Qed.

Lemma put_cached_safe s r x q o : safe s -> r_vcs s r = x :: q -> dest (vf x) r.2 o ->
  safe (put_cached (<[r := nz o]> (r_cached s)) s).
Proof using Htoken.
  intros Hs Hq Hd. pose proof Hs as [Hf Hr]. split; [|by apply (res_inv_view _ s)].
  destruct (sa_queue_held s r x q Hs) as [h Hh]; [by rewrite token_queue|].
  destruct (flow_fits _ _ _ _ _ Hf Hh) as [Hfit _].
  destruct Hf. split; auto. intros r'. cbn [r_cached r_trace put_cached]. rewrite fn_lookup. case_decide; [subst r'|apply fi_cached0].
  right. split; [done|].
  destruct (cur (from r (r_trace s))) as [|f l] eqn:E.
  - exists (vf x), o. split; [done|]. split; [done|]. right. split; [done|].
    change (head (held s r) = Some (vf x)). by rewrite Hh.
  - exists f, o. destruct (fits_same _ _ f Hfit) as [Hrt _]; [left|].
    split; [by apply (dest_same (vf x))|]. split; [done|]. left. left.
Qed.

Lemma is_eligible_iff s r o : safe s -> is_eligible s r o = true <->
  0 < r_credit s (o, r.2) /\ (r_lock s (o, r.2) = None \/ r_lock s (o, r.2) = Some r).
Proof.
  intros [Hf _]. unfold is_eligible, has_noccredit. rewrite andb_true_iff, Z.ltb_lt.
  destruct (r_lock s (o, r.2)) as [w|] eqn:E; [|intuition].
  destruct (fi_owner _ _ Hf _ _ _ E) as [Hv _]. rewrite Nat.eqb_eq. split.
  - intros [? Hi]. split; [done|]. right. destruct w, r. cbn in *. by subst.
  - intros [? [?|[= ->]]]; [done|auto].
Qed.

Lemma tgathered_skip tick s seen acc r : tgathered tick s seen acc ->
  (forall o x, ~ ready tick o r x s) -> tgathered tick s (seen ++ [r]) acc.
Proof.
  intros [] Hn. split; auto. intros o r' x [?| ->%list_elem_of_singleton]%elem_of_app; [eauto|].
  by intros ?%Hn.
Qed.

Lemma tokenRequest_step tick s seen acc r : tgathered tick s seen acc ->
  exists acc', tokenRequest c tick acc r = Ok acc' /\ tgathered tick s (seen ++ [r]) acc'.
Proof using Htoken.
  intros Hg. destruct acc as [s1 [wo wi]]. pose proof (tg_safe _ _ _ _ Hg) as Hs. cbn in Hs.
  destruct (tg_cached _ _ _ _ Hg) as (h & Eh). cbn in Eh.
  assert (Eq : r_vcs s1 r = r_vcs s r) by by rewrite Eh.
  assert (Hready : forall o x, ready tick o r x s -> exists q, r_vcs s r = x :: q /\
            need_stage (r_vcs s r) tick = true /\ dest (vf x) r.2 o).
  { intros o x [[[q Hq] ? ? ? ?] ?]. rewrite token_queue in Hq. exists q. rewrite Hq. split; [done|].
    split; [|done]. cbn. apply andb_true_iff. by rewrite !Z.leb_le. }
  unfold tokenRequest. rewrite Eq. destruct (r_vcs s r) as [|x q] eqn:Hq.
  { eexists. split; [done|]. apply tgathered_skip; [done|]. intros o x (q & ? & _)%Hready. done. }
  destruct (need_stage (x :: q) tick) eqn:Hst; cbn [negb].
  2:{ eexists. split; [done|]. apply tgathered_skip; [done|]. intros o y (q' & _ & ? & _)%Hready. done. }
  assert (exists o h', dest (vf x) r.2 o /\ safe (put_cached h' s) /\
    (if r_cached s1 r =? -1 then
       let* op := route_compute c (vf x) r.2 in Ok (op, put_cached (<[r := op]> (r_cached s1)) s1)
     else Ok (r_cached s1 r, s1)) = Ok (nz o, put_cached h' s)) as (o & h' & Ho & Hs2 & ->).
  { destruct (Z.eqb_spec (r_cached s1 r) (-1)) as [Hc|Hc].
    - destruct (sa_queue_dest s1 r x q Hs) as [o Ho]; [by rewrite token_queue|].
      exists o, (<[r := nz o]> (r_cached s1)). rewrite (route_dest _ _ _ Ho). cbn. split; [done|].
      pose proof (put_cached_safe s1 r x q o Hs Eq Ho) as Hs2. rewrite Eh in Hs2 |- *. done.
    - destruct (cached_dest s1 r x q Hs Eq Hc) as (o & Ho & Hco). exists o, h. rewrite <- Eh, Hco. done. }
  cbn [rbind]. rewrite (dest_valid _ _ _ Ho), Nat2Z.id. cbn [negb]. cbn in Hst.
  apply andb_true_iff in Hst as [Ht Hst]. apply Z.leb_le in Ht, Hst.
  assert (Hcase : forall o' y, ready tick o' r y s -> o' = o /\ y = x).
  { intros o' y (q' & [= <- <-] & _ & Hd)%Hready. by split; [apply (dest_fun (vf x) r.2)|]. }
  assert (Hg2 : tgathered tick s seen (put_cached h' s, (wo, wi))).
  { destruct Hg as [? ? G3 G4 G5]. split; cbn in *; eauto. }
  destruct (is_eligible (put_cached h' s) r o) eqn:Hel; cbn [negb].
  2:{ eexists. split; [done|]. apply tgathered_skip; [done|]. intros o' y Hy.
      destruct (Hcase _ _ Hy) as [-> ->]. apply not_true_iff_false in Hel. apply Hel.
      apply is_eligible_iff; [done|]. destruct Hy as [[? ? ? ? ?] ?]. done. }
  apply is_eligible_iff in Hel as [Hcr Hlk]; [|done]. cbn in Hcr, Hlk.
  assert (He : elig tick o r x s) by (split; [exists q; by rewrite token_queue|done..]).
  destruct Hg2 as [G1 G2 G3 G4 G5]. cbn in G3, G4, G5. cbn.
  destruct (Z.leb_spec (r_tokens s (o, r)) 0) as [Htk|Htk]; eexists; (split; [done|]); split; cbn; auto.
  - intros o' q'. rewrite fn_lookup. case_decide; [subst o'|apply G3].
    intros [?| ->%list_elem_of_singleton]%elem_of_app; [by apply G3|by exists x].
  - intros o' r' y [Hr'| ->%list_elem_of_singleton]%elem_of_app Hy; rewrite fn_lookup.
    + destruct (G5 _ _ _ Hr' Hy) as [p [?|?]]; exists p; [left|by right].
      case_decide; [subst o'; apply elem_of_app; by left|done].
    + destruct (Hcase _ _ Hy) as [-> ->]. exists 0. left. rewrite decide_True by done.
      apply elem_of_app. right. by left.
  - intros o' q'. rewrite fn_lookup. case_decide; [subst o'|apply G4].
    intros [?| ->%list_elem_of_singleton]%elem_of_app; [by apply G4|]. split; [by exists x|done].
  - intros o' r' y [Hr'| ->%list_elem_of_singleton]%elem_of_app Hy; rewrite fn_lookup.
    + destruct (G5 _ _ _ Hr' Hy) as [p [?|?]]; exists p; [by left|right].
      case_decide; [subst o'; apply elem_of_app; by left|done].
    + destruct (Hcase _ _ Hy) as [-> ->]. exists 0. right. rewrite decide_True by done.
      apply elem_of_app. right. by left.
Qed.

Lemma tokenRequests_ok tick s : safe s ->
  exists acc, foldM (tokenRequest c tick) (s, (fun _ => [], fun _ => [])) (all_reqs c) = Ok acc /\
    tgathered tick s (all_reqs c) acc.
Proof using Htoken.
  intros Hs. apply (foldM_total_seen (tgathered tick s)).
  - intros seen acc r rest E Hg. by apply tokenRequest_step.
  - split; cbn; auto.
    + exists (r_cached s). by destruct s.
    + intros o q H. by apply not_elem_of_nil in H.
    + intros o q H. by apply not_elem_of_nil in H.
    + intros o r x H. by apply not_elem_of_nil in H.
Qed.

(** *** Granting, token buckets *)

Lemma lru_admits_safe s o l : safe s -> Forall (fun r => r ∈ all_reqs c) l ->
  safe (foldl (lru_admit o) s l) /\ exists h, foldl (lru_admit o) s l = put_lru h s.
Proof.
  revert s. induction l as [|r l IH]; intros s Hs Hl; cbn.
  { split; [done|]. exists (r_lru s). by destruct s. }
  apply Forall_cons in Hl as [Hr Hl].
  destruct (IH _ (lru_admit_safe s o r Hs Hr) Hl) as (H1 & h & E). split; [done|].
  destruct (lru_admit_spec s o r) as (l' & E' & _). rewrite E, E'. by exists h.
Qed.

Lemma lru_winner_in l reqs : reqs <> [] -> exists r, lru_winner l reqs = Some r /\ r ∈ reqs.
Proof.
  intros Hne. unfold lru_winner. destruct (lru_pick _ l) as [r|] eqn:E.
  - apply lru_pick_some in E as [E%bool_decide_eq_true _]. eauto.
  - destruct reqs as [|r reqs]; [done|]. exists r. split; [done|left].
Qed.

(** The candidates of the highest priority present are among the requests. *)
Lemma priority_class (reqs : list (req * Z)) : reqs <> [] ->
  let high := fst <$> filter (fun q : req * Z => 0 < q.2) reqs in
  let low := fst <$> filter (fun q : req * Z => ~ 0 < q.2) reqs in
  let l := if decide (high = []) then low else high in
  l <> [] /\ forall r, r ∈ l -> exists p, (r, p) ∈ reqs.
Proof.
  intros Hne high low l.
  assert (Hsub : forall r, r ∈ l -> exists p, (r, p) ∈ reqs).
  { intros r. subst l high low. case_decide;
      intros ([r' p] & -> & [_ ?]%list_elem_of_filter)%list_elem_of_fmap; eauto. }
  split; [|done]. subst l. case_decide as Hh; [|done]. destruct reqs as [|[r p] reqs]; [done|].
  subst low high. rewrite filter_cons in *. cbn in *.
  destruct (decide (0 < p)), (decide (~ 0 < p)); done.
Qed.

Lemma cycle_view tick s0 s s' g served seen : cycle tick s0 s g served seen -> safe s' ->
  (r_trace s', r_xbar s', r_credit s', r_lock s', r_int s', r_vcs s') =
  (r_trace s, r_xbar s, r_credit s, r_lock s, r_int s, r_vcs s) ->
  (forall k, k.1 ∉ seen -> r_tokens s' k = r_tokens s k) ->
  (r_link s', r_clink s', r_out s', r_wake s', r_nextvc s', r_last s', r_done s') =
  (r_link s, r_clink s, r_out s, r_wake s, r_nextvc s, r_last s, r_done s) ->
  cycle tick s0 s' g served seen.
Proof.
  intros [] Hs E Ht Ef. injection E as E1 E2 E3 E4 E5 E6.
  split; rewrite ?E1, ?E2, ?E5, ?E6, ?Ef; auto.
  intros o Ho. destruct (cy_outputs0 o Ho) as (A1 & A2 & A3). rewrite E3, E4.
  split; [done|]. split; [done|]. intros r. by rewrite Ht, A3.
Qed.

Lemma elig_view tick o r x s s' :
  (r_int s', r_vcs s', r_credit s', r_lock s') = (r_int s, r_vcs s, r_credit s, r_lock s) ->
  elig tick o r x s -> elig tick o r x s'.
Proof.
  intros E [H1 H2 H3 H4 H5]. injection E as E1 E2 E3 E4.
  split; [unfold sa_queue in *; by rewrite E1, E2|done|by rewrite E3|by rewrite E4|done].
Qed.

Lemma arbitrate_ok tick s0 s g served seen o reqs :
  cycle tick s0 s g served seen -> o ∈ seen -> o ∉ g_outs g -> reqs <> [] ->
  (forall q, q ∈ reqs -> served q.1.1 = false /\ 0 < r_tokens s (o, q.1) /\ exists x, elig tick o q.1 x s) ->
  exists s' r f, arbitrate_for_output_port tick s reqs o = Ok (Some r.1, s') /\
    cycle tick s0 s' (g ++ [(o, r, f)]) (<[r.1 := true]> served) seen.
Proof using Htoken.
  intros Hc Ho Hog Hne Hq. pose proof (cy_safe _ _ _ _ _ _ Hc) as Hs.
  unfold arbitrate_for_output_port. destruct (priority_class reqs Hne) as [Hl Hsub].
  destruct reqs as [|q0 reqs0] eqn:Er; [done|]. rewrite <- Er in *.
  destruct (lru_admits_safe s o (fst <$> reqs) Hs) as (Hs1 & h & E1).
  { apply Forall_fmap, Forall_forall. intros q Hin. destruct (Hq _ Hin) as (_ & _ & x & Hx). cbn.
    apply elem_all_reqs. destruct (elig_held _ _ _ _ _ _ (proj1 Hs) Hx) as [q' Hq'].
    apply (held_range arr s); [apply Hs|]. by rewrite Hq'. }
  rewrite E1 in *. cbn [r_lru put_lru].
  destruct (lru_winner_in (h o) _ Hl) as (r & -> & Hr).
  destruct (Hsub _ Hr) as [p Hp]. destruct (Hq _ Hp) as (Hsv & Htk & x & Hx). cbn in Hsv, Htk, Hx.
  destruct (grant_request_ok tick o r x (put_lru h s) Hs1 Htoken) as (s' & E & Hg & Hs').
  { by apply (elig_view _ _ _ _ s). } { done. }
  exists s', r, (vf x). split; [exact E|].
  apply (cycle_grant _ _ (put_lru h s)); [|done..|by apply (elig_view _ _ _ _ s)|done|done].
  by apply (cycle_view _ _ s).
Qed.

Definition requests (reqs : token_reqs) (o : nat) (r : req) : Prop :=
  exists p, (r, p) ∈ reqs.1 o \/ (r, p) ∈ reqs.2 o.

Record tpassed (tick : Z) (s0 : router (M := M)) (reqs : token_reqs) (seen : list nat)
    (acc : router (M := M) * (nat -> bool)) (g : list (nat * req * flit M)) : Prop := {
  tp_cycle : cycle tick s0 acc.1 g acc.2 seen;
  tp_busy o r : o ∈ seen -> requests reqs o r -> acc.2 r.1 = true \/ o ∈ g_outs g
}.

Section TokenOutputs.
Context (tick : Z) (s0 : router (M := M)) (reqs : token_reqs).
Hypothesis Hwo : forall o q, q ∈ reqs.1 o -> exists x, elig tick o q.1 x s0.
Hypothesis Hwi : forall o q, q ∈ reqs.2 o -> (exists x, elig tick o q.1 x s0) /\ 0 < r_tokens s0 (o, q.1).

Lemma reload_cycle s g served seen o : cycle tick s0 s g served seen -> o ∈ seen ->
  cycle tick s0 (reload_tokens o s) g served seen.
Proof.
  intros Hc Ho. apply (cycle_view _ _ s); [done| |done| |done].
  - destruct (cy_safe _ _ _ _ _ _ Hc) as [Hf []]. split; [by apply (flow_inv_view _ s)|].
    split; auto. intros k. cbn. case_decide; [by unfold default_initial_tokens|done].
  - intros k Hk. cbn. rewrite decide_False; [done|]. by intros <-.
Qed.

Lemma tokenOutput_step seen acc g o : tpassed tick s0 reqs seen acc g -> o ∉ seen ->
  exists acc' g', tokenOutput tick reqs acc o = Ok acc' /\ tpassed tick s0 reqs (seen ++ [o]) acc' g'.
Proof using Htoken Hwo Hwi.
  intros [Hc Hb] Ho. destruct acc as [s served]. cbn in *. unfold tokenOutput.
  assert (Hog : o ∉ g_outs g) by by intros ?%(cy_seen _ _ _ _ _ _ Hc).
  assert (Ho' : o ∈ seen ++ [o]) by (apply elem_of_app; right; by left).
  set (wo := filter _ (reqs.1 o)). set (wi := filter _ (reqs.2 o)).
  assert (Hel : forall q, served q.1.1 = false -> q ∈ reqs.1 o \/ q ∈ reqs.2 o -> exists x, elig tick o q.1 x s).
  { intros q Hsv Hq. assert (exists x, elig tick o q.1 x s0) as [x Hx].
    { destruct Hq; [by apply Hwo|by apply Hwi]. }
    exists x. by apply (cycle_elig _ s0 _ g served seen). }
  assert (Hgrant : forall s1 l, cycle tick s0 s1 g served (seen ++ [o]) -> l <> [] ->
    (forall q, q ∈ l -> served q.1.1 = false /\ 0 < r_tokens s1 (o, q.1) /\ exists x, elig tick o q.1 x s1) ->
    exists acc' g', (let* (gr, s) := arbitrate_for_output_port tick s1 l o in
      Ok (s, match gr with Some i => <[i := true]> served | None => served end)) = Ok acc' /\
      tpassed tick s0 reqs (seen ++ [o]) acc' g').
  { intros s1 l Hc1 Hl Hq. destruct (arbitrate_ok _ _ _ _ _ _ _ _ Hc1 Ho' Hog Hl Hq) as (s' & r & f & -> & Hc').
    cbn. eexists _, _. split; [done|]. split; cbn; [exact Hc'|].
    intros o' r' Hin Hr'. rewrite g_outs_snoc, elem_of_app, list_elem_of_singleton, fn_lookup.
    apply elem_of_app in Hin as [Hin| ->%list_elem_of_singleton]; [|tauto].
    destruct (Hb _ _ Hin Hr') as [E|?]; [left; by case_decide|tauto]. }
  pose proof (cycle_skip _ _ _ _ _ _ o Hc) as Hc1.
  destruct (decide (wo <> [] /\ wi = [])) as [[Hw _]|Hw].
  - apply Hgrant; [by apply reload_cycle|done|].
    intros q [Hsv Hin]%list_elem_of_filter. split; [done|]. cbn. rewrite decide_True by done. split; [done|].
    destruct (Hel q Hsv (or_introl Hin)) as [x Hx]. exists x. by apply (elig_view _ _ _ _ s).
  - destruct (decide (wi = [])) as [Hwi0|Hwi0].
    + rewrite Hwi0. cbn. eexists _, g. split; [done|]. split; cbn; [done|].
      intros o' r' [?| ->%list_elem_of_singleton]%elem_of_app Hr'; [auto|]. left.
      assert (Hwo0 : wo = []) by (destruct wo; [done|by destruct Hw]).
      destruct (served r'.1) eqn:Hsv; [done|]. exfalso. destruct Hr' as [p [Hp|Hp]].
      * apply (not_elem_of_nil (r', p)). rewrite <- Hwo0. by apply list_elem_of_filter.
      * apply (not_elem_of_nil (r', p)). rewrite <- Hwi0. by apply list_elem_of_filter.
    + apply Hgrant; [done|done|]. intros q [Hsv Hin]%list_elem_of_filter. split; [done|].
      destruct (cy_outputs _ _ _ _ _ _ Hc o Ho) as (_ & _ & ->).
      split; [by apply Hwi|by apply Hel; [|right]].
Qed.

Lemma tokenOutputs_ok L : safe s0 -> (forall i, r_xbar s0 i = []) -> NoDup L ->
  exists acc g, foldM (tokenOutput tick reqs) (s0, fun _ => false) L = Ok acc /\
    tpassed tick s0 reqs L acc g.
Proof using Htoken Hwo Hwi.
  intros Hs Hx HL.
  destruct (foldM_total_seen (fun seen acc => exists g, tpassed tick s0 reqs seen acc g)
    (tokenOutput tick reqs) L (s0, fun _ => false)) as (acc & E & g & H); [| |eauto].
  - intros seen acc o rest E [g Hg]. destruct (tokenOutput_step _ _ _ o Hg) as (acc' & g' & ? & ?); [|eauto].
    rewrite E in HL. apply NoDup_app in HL as (_ & HL & _). intros Hin. apply (HL _ Hin). left.
  - exists []. split; cbn; [by apply cycle_start|]. intros o r H. by apply not_elem_of_nil in H.
Qed.

End TokenOutputs.
End Tokens.

(** *** The allocator *)

Definition wants (s : router (M := M)) (r : req) (t : Z) : bool :=
  (usesInternalIngressPipeline c && need_stage (r_int s r) t) || need_stage (r_vcs s r) t.

Record allocated (tick : Z) (s s' : router (M := M)) (g : list (nat * req * flit M)) : Prop := {
  al_safe : safe s';
  al_trace : r_trace s' = r_trace s ++ g;
  al_xbar i : (fun p => (p.1, vf p.2)) <$> r_xbar s' i =
              (fun e => (e.1.1, e.2)) <$> filter (fun e => e.1.2.1 = i) g;
  al_ready i : Forall (fun p => vf_time p.2 <= tick /\ vf_stage p.2 <= tick) (r_xbar s' i);
  al_outs : NoDup (g_outs g);
  al_ins : NoDup (g_ins g);
  al_range i : i ∈ g_ins g -> (i < c_in c)%nat;
  al_frame : (r_link s', r_clink s', r_out s', r_last s', r_done s') =
             (r_link s, r_clink s, r_out s, r_last s, r_done s);
  al_suffix r : r_int s' r `suffix_of` r_int s r /\ r_vcs s' r `suffix_of` r_vcs s r;
  al_busy o r x : (o < c_outs c)%nat -> ready tick o r x s -> r.1 ∈ g_ins g \/ o ∈ g_outs g;
  al_wake : r_wake s ⊆ r_wake s' /\ r_wake s' ⊆ {[tick + c_clk c]} ∪ r_wake s;
  al_next r : r ∈ all_reqs c -> wants s' r (tick + c_clk c) = true -> tick + c_clk c ∈ r_wake s'
}.

Lemma put_wake_safe s w : safe s -> safe (put_wake w s).
Proof. intros [Hf Hr]. split; [by apply (flow_inv_view _ s)|by apply (res_inv_view _ s)]. Qed.

Lemma check_for_wakeup_spec tick s : exists w, check_for_wakeup c tick s = put_wake w s /\
  r_wake s ⊆ w /\ w ⊆ {[tick + c_clk c]} ∪ r_wake s /\
  forall r, r ∈ all_reqs c -> wants s r (tick + c_clk c) = true -> tick + c_clk c ∈ w.
Proof.
  unfold check_for_wakeup. case_bool_decide as Hin.
  { exists (r_wake s). split; [by destruct s|]. split; [done|]. split; [apply union_subseteq_r|done]. }
  fold (wants s). destruct (existsb _ (all_reqs c)) eqn:E.
  - unfold schedule_wakeup. rewrite Z.mul_1_l. eexists. split; [done|]. split; [apply union_subseteq_r|].
    split; [done|]. intros. by apply elem_of_union_l, elem_of_singleton.
  - exists (r_wake s). split; [by destruct s|]. split; [done|]. split; [apply union_subseteq_r|].
    intros r Hr Hw. exfalso. apply not_true_iff_false in E. apply E, existsb_exists.
    exists r. split; [by apply list_elem_of_In|done].
Qed.

(** The end of both paths. *)
Lemma allocated_finish tick s0 s s1 g served L w1 :
  cycle tick s0 s1 g served L ->
  (r_trace s0, r_link s0, r_clink s0, r_out s0, r_last s0, r_done s0, r_wake s0, r_int s0, r_vcs s0) =
  (r_trace s, r_link s, r_clink s, r_out s, r_last s, r_done s, r_wake s, r_int s, r_vcs s) ->
  (r_wake s ⊆ w1 /\ w1 ⊆ {[tick + c_clk c]} ∪ r_wake s) ->
  (forall o r x, (o < c_outs c)%nat -> ready tick o r x s -> r.1 ∈ g_ins g \/ o ∈ g_outs g) ->
  allocated tick s (check_for_wakeup c tick (put_wake w1 s1)) g.
Proof.
  intros Hc E [Hw1 Hw2] Hb. injection E as E1 E2 E3 E4 E5 E6 E7 E8 E9.
  destruct (check_for_wakeup_spec tick (put_wake w1 s1)) as (w & -> & W1 & W2 & W3). cbn in W1, W2.
  destruct Hc. split; cbn; auto.
  - by apply put_wake_safe, put_wake_safe.
  - by rewrite <- E1.
  - injection cy_frame0 as -> -> -> _ _ -> ->. by rewrite E2, E3, E4, E5, E6.
  - intros r. rewrite <- E8, <- E9. apply cy_suffix0.
  - split; [by etrans|]. etrans; [done|]. apply union_subseteq. split; [apply union_subseteq_l|done].
Qed.

Lemma first_rotated tick o : (o < c_outs c)%nat -> o ∈ rotated (first_outport c tick) (c_outs c).
Proof. intros Ho. apply elem_rotated; lia. Qed.

Lemma ready_range tick o r x s : safe s -> ready tick o r x s -> r ∈ all_reqs c.
Proof.
  intros Hs [He _]. apply elem_all_reqs. destruct (elig_held _ _ _ _ _ _ (proj1 Hs) He) as [q Hq].
  apply (held_range arr s); [apply Hs|]. by rewrite Hq.
Qed.

Lemma passWakeup_ok tick s : isPassThrough c = true -> safe s -> (forall i, r_xbar s i = []) ->
  exists s' g, passWakeup c tick s = Ok s' /\ allocated tick s s' g.
Proof.
  intros Hp Hs Hx. unfold passWakeup.
  destruct (passRequests_ok tick s Hs) as ([s0 reqs] & -> & [(l & El & _) Hs0 Hq Ha]). cbn in *.
  destruct (passOutputs_ok tick s0 reqs Hp) with (L := rotated (first_outport c tick) (c_outs c))
    as ([[s1 served] gr] & g & -> & [Hc Hb _ _ _]); [|done|by rewrite El|apply rotated_NoDup|].
  { intros o r Hr. destruct (Hq _ _ Hr) as [[x Hx'] ?]. split; [|done]. exists x. rewrite El.
    by apply (elig_view _ _ _ _ s). }
  cbn in *. eexists _, g. split; [done|].
  assert (exists w1, (if gr then schedule_wakeup c tick 1 s1 else s1) = put_wake w1 s1 /\
    r_wake s ⊆ w1 /\ w1 ⊆ {[tick + c_clk c]} ∪ r_wake s) as (w1 & -> & Hw).
  { pose proof (cy_frame _ _ _ _ _ _ Hc) as Ef. injection Ef as _ _ _ Ew _ _ _.
    rewrite El in Ew. cbn in Ew. destruct gr.
    - unfold schedule_wakeup. rewrite Z.mul_1_l, Ew. eexists. split; [done|]. split; [apply union_subseteq_r|done].
    - exists (r_wake s1). rewrite Ew. split; [rewrite <- Ew; by destruct s1|]. split; [done|apply union_subseteq_r]. }
  eapply allocated_finish; [exact Hc|by rewrite El|done|].
  intros o r x Ho Hr. pose proof (Ha o r x (ready_range _ _ _ _ _ Hs Hr) Hr) as Hin.
  destruct (Hb o r (first_rotated tick o Ho) Hin) as [E|?]; [left|by right]. by apply (cy_served _ _ _ _ _ _ Hc).
Qed.

Lemma tokenWakeup_ok tick s : isPassThrough c = false -> safe s -> (forall i, r_xbar s i = []) ->
  exists s' g, tokenWakeup c tick s = Ok s' /\ allocated tick s s' g.
Proof.
  intros Hp Hs Hx. unfold tokenWakeup.
  destruct (tokenRequests_ok Hp tick s Hs) as ([s0 reqs] & -> & [(h & Eh) Hs0 Ho Hi Ha]). cbn in *.
  destruct (tokenOutputs_ok Hp tick s0 reqs) with (L := rotated (first_outport c tick) (c_outs c))
    as ([s1 served] & g & -> & [Hc Hb]); [| |done|by rewrite Eh|apply rotated_NoDup|].
  { intros o q Hq. destruct (Ho _ _ Hq) as [x Hx']. exists x. rewrite Eh. by apply (elig_view _ _ _ _ s). }
  { intros o q Hq. destruct (Hi _ _ Hq) as [[x Hx'] Ht]. rewrite Eh. split; [|done]. exists x.
    by apply (elig_view _ _ _ _ s). }
  cbn in *. eexists _, g. split; [done|].
  replace s1 with (put_wake (r_wake s1) s1) by by destruct s1.
  pose proof (cy_frame _ _ _ _ _ _ Hc) as Ef. injection Ef as _ _ _ Ew _ _ _. rewrite Eh in Ew. cbn in Ew.
  eapply allocated_finish; [exact Hc|by rewrite Eh|rewrite Ew; split; [done|apply union_subseteq_r]|].
  intros o r x Hoo Hr. pose proof (Ha o r x (ready_range _ _ _ _ _ Hs Hr) Hr) as Hin.
  destruct (Hb o r (first_rotated tick o Hoo) Hin) as [E|?]; [left|by right]. by apply (cy_served _ _ _ _ _ _ Hc).
Qed.

Lemma allocator_wakeup_ok tick s : safe s -> (forall i, r_xbar s i = []) ->
  exists s' g, allocator_wakeup c tick s = Ok s' /\ allocated tick s s' g.
Proof.
  intros. unfold allocator_wakeup.
  destruct (isPassThrough c) eqn:E; [by apply passWakeup_ok|by apply tokenWakeup_ok].
Qed.

(** *** The crossbar *)

Definition sent_on (o : nat) (g : list (nat * req * flit M)) : list (flit M) :=
  snd <$> filter (fun e => e.1.1 = o) g.

Section Crossbar.
Context (tick : Z) (s : router (M := M)) (g : list (nat * req * flit M)).
Hypothesis Hxbar : forall i, (fun p => (p.1, vf p.2)) <$> r_xbar s i =
              (fun e => (e.1.1, e.2)) <$> filter (fun e => e.1.2.1 = i) g.
Hypothesis Hready : forall i, Forall (fun p => vf_time p.2 <= tick /\ vf_stage p.2 <= tick) (r_xbar s i).
Hypothesis Houts : NoDup (g_outs g).
Hypothesis Hins : NoDup (g_ins g).

(** The crossbar buffer of an input holds its grant, if any. *)
Lemma xbar_cases i : (r_xbar s i = [] /\ forall e, e ∈ g -> e.1.2.1 <> i) \/
  exists e x, e ∈ g /\ e.1.2.1 = i /\ r_xbar s i = [(e.1.1, x)] /\ vf x = e.2 /\
    vf_time x <= tick /\ vf_stage x <= tick.
Proof using Hxbar Hready Hins.
  pose proof (Hxbar i) as Hx. pose proof (Hready i) as Hr.
  destruct (filter (fun e => e.1.2.1 = i) g) as [|e l] eqn:E.
  - left. split; [by destruct (r_xbar s i)|]. intros e He Hi. apply (not_elem_of_nil e).
    rewrite <- E. by apply list_elem_of_filter.
  - right. assert (He : e ∈ filter (fun e => e.1.2.1 = i) g) by (rewrite E; left).
    apply list_elem_of_filter in He as [Hi He].
    rewrite (filter_unique (fun e => e.1.2.1) _ g e Hins He) in E by congruence.
    rewrite decide_True in E by done. injection E as <-. cbn in Hx.
    destruct (r_xbar s i) as [|[o x] q]; [done|]. destruct q; [|done].
    cbn in Hx. injection Hx as -> Hv. exists e, x. apply Forall_cons in Hr as [Hr _]. auto.
Qed.

Definition sent_from (o : nat) (ins : list nat) : list (flit M) :=
  snd <$> filter (fun e => e.1.1 = o /\ e.1.2.1 ∈ ins) g.

Lemma crossbar_prefix ins : NoDup ins ->
  exists X O, foldl (crossbarInput tick) s ins = put_xbar X (put_out O s) /\
    (forall i, X i = if decide (i ∈ ins) then [] else r_xbar s i) /\
    (forall o, O o = r_out s o ++ sent_from o ins).
Proof using Hxbar Hready Hins Houts.
  clear arr given. induction ins as [|i ins IH] using rev_ind; intros Hn.
  { exists (r_xbar s), (r_out s). split; [by destruct s|]. split; [done|].
    intros o. unfold sent_from. assert (filter (fun e => e.1.1 = o /\ e.1.2.1 ∈ []) g = []) as ->.
    - apply filter_none. intros e _ [_ He]. by apply not_elem_of_nil in He.
    - by rewrite app_nil_r. }
  apply NoDup_app in Hn as (Hn & Hd & _).
  assert (Hi : i ∉ ins) by (intros Hin; apply (Hd _ Hin); by left).
  destruct (IH Hn) as (X & O & E & HX & HO). rewrite foldl_snoc, E. unfold crossbarInput. cbn.
  rewrite HX, decide_False by done.
  destruct (xbar_cases i) as [[-> Hno]|(e & x & He & Hei & -> & Hv & Ht & Hst)].
  - exists X, O. split; [done|]. split.
    + intros j. rewrite HX. destruct (decide (j ∈ ins ++ [i])) as [Hj|Hj]; rewrite elem_snoc in Hj.
      * case_decide; [done|]. destruct Hj as [?| ->]; [done|].
        destruct (xbar_cases i) as [[? _]|(e & x & He & Hei & _)]; [done|]. by destruct (Hno e He).
      * rewrite decide_False by tauto. done.
    + intros o. rewrite HO. f_equal. unfold sent_from. f_equal. apply filter_ext_in.
      intros e' He'. rewrite elem_of_app, list_elem_of_singleton.
      pose proof (Hno e' He'). tauto.
  - replace ((vf_time x <=? tick) && (vf_stage x <=? tick)) with true
      by (symmetry; apply andb_true_iff; by rewrite !Z.leb_le).
    eexists _, _. split; [done|]. split.
    + intros j. rewrite fn_lookup, HX. destruct (decide (j ∈ ins ++ [i])) as [Hj|Hj]; rewrite elem_snoc in Hj.
      * repeat case_decide; tauto.
      * rewrite !decide_False by tauto. done.
    + intros o. rewrite !HO, Hv. unfold sent_from. case_decide as Ho.
      * subst o. rewrite <- app_assoc. f_equal.
        rewrite !(filter_unique (fun e => e.1.1) _ g e Houts He) by tauto.
        rewrite decide_False, decide_True; [done| |].
        -- split; [done|]. apply elem_of_app. right. rewrite Hei. by left.
        -- intros [_ Hin]. by rewrite Hei in Hin.
      * f_equal. f_equal. apply filter_ext_in. intros e' He'.
        rewrite elem_of_app, list_elem_of_singleton. split; [tauto|].
        intros [Ho' [?|Hi']]; [done|]. exfalso. apply Ho. rewrite <- Ho'. do 2 f_equal.
        apply (NoDup_key (fun e => e.1.2.1) g e e' Hins He He'). cbn. congruence.
Qed.

End Crossbar.

(** *** Staging into the internal pools *)

Lemma flow_inv_held s s' : flow_inv arr s -> (forall r, held s' r = held s r) ->
  (forall r, usesInternalIngressPipeline c = false -> r_int s' r = []) ->
  (r_trace s', r_lock s', r_cached s') = (r_trace s, r_lock s, r_cached s) -> flow_inv arr s'.
Proof.
  intros [] Hh Hi E. injection E as E1 E2 E3.
  split; intros; rewrite ?E1, ?E2, ?E3, ?Hh in *; auto.
Qed.

(** What staging changes: flits move from the input VCs to the pools. *)
Record staged (tick : Z) (s s' : router (M := M)) : Prop := {
  st_safe : safe s';
  st_frame : (r_link s', r_clink s', r_out s', r_xbar s', r_trace s', r_last s', r_done s') =
             (r_link s, r_clink s, r_out s, r_xbar s, r_trace s, r_last s, r_done s);
  st_held r : held s' r = held s r;
  st_vcs r : r_vcs s' r `suffix_of` r_vcs s r;
  st_int r y : y ∈ r_int s' r -> y ∈ r_int s r \/
    (vf_time y <= tick /\ (vf_stage y <= tick \/ vf_stage y ∈ r_wake s'));
  st_wake : r_wake s ⊆ r_wake s' /\ forall w, w ∈ r_wake s' -> w ∈ r_wake s \/ tick < w
}.

Lemma staged_refl tick s : safe s -> staged tick s s.
Proof. intros Hs. split; auto. Qed.

Lemma staged_trans tick s1 s2 s3 : staged tick s1 s2 -> staged tick s2 s3 -> staged tick s1 s3.
Proof.
  intros [A1 A2 A3 A4 A5 [A6 A7]] [B1 B2 B3 B4 B5 [B6 B7]]. split.
  - done.
  - by rewrite B2, A2.
  - intros r. by rewrite B3, A3.
  - intros r. exact (transitivity (B4 r) (A4 r)).
  - intros r y Hy. destruct (B5 _ _ Hy) as [Hy2|?]; [|by right].
    destruct (A5 _ _ Hy2) as [?|(? & [?|?])]; [by left| |]; right; split; auto.
  - split; [by etrans|]. intros w [Hw|?]%B7; [by apply A7|by right].
Qed.

Hypothesis Hclk : 0 < c_clk c.

Lemma stageVc_ok tick s r : usesInternalIngressPipeline c = true -> safe s ->
  stageVc c tick s r = Ok None \/ exists s', stageVc c tick s r = Ok (Some s') /\ staged tick s s'.
Proof using Hclk.
  intros Hi Hs. pose proof Hs as [Hf Hr]. unfold stageVc, isReady.
  destruct (r_vcs s r) as [|x q] eqn:Hq; [by left|].
  destruct (Z.leb_spec (vf_time x) tick) as [Ht|Ht]; cbn [negb]; [|by left]. right.
  pose proof (ri_occ _ _ Hr r.1) as Hocc. pose proof (ri_cap _ _ Hr r.1) as Hcap.
  unfold guard. rewrite Hocc, (proj2 (Z.leb_le _ _) Hcap).
  destruct (Z.eqb_spec (pool s r.1) InternalIngressCapacity) as [E|E].
  { exists s. split; [done|]. by apply staged_refl. }
  assert (Hrange : (r.1 < c_in c)%nat /\ (r.2 < c_vcs c)%nat).
  { apply (held_range arr s); [done|]. unfold held. rewrite Hq. by destruct (vf <$> r_int s r). }
  destruct r as [i v]. cbn [fst snd] in *. pose proof (pool_ge s i v (proj2 Hrange)) as Hge.
  rewrite (proj2 (Z.ltb_lt _ _)) by lia.
  destruct (fi_flit _ _ Hf (i, v) (vf x)) as [_ [o Ho]].
  { rewrite <- (fi_flow _ _ Hf (i, v)). unfold held. rewrite Hq. apply elem_of_app. right.
    apply elem_of_app. right. by left. }
  cbn [snd] in Ho. rewrite (route_dest _ _ _ Ho). cbn [rbind]. unfold getTopFlit. rewrite Hq. cbn [rbind].
  set (delay := if 0 <? c_pipe c then c_pipe c - 1 else 0).
  set (y := mk_vflit (vf x) (vf_time x) _).
  set (base := put_nextvc _ _). set (W := {[tick + 1 * c_clk c]} ∪ r_wake s).
  set (W' := if 0 <? delay then {[tick + delay * c_clk c]} ∪ W else W).
  exists (put_wake W' base). split; [subst W'; by destruct (0 <? delay)|].
  assert (Hheld : forall r, held base r = held s r).
  { intros r. unfold held, base. cbn. rewrite !fn_lookup. case_decide; [subst r|done].
    rewrite Hq, fmap_app, <- app_assoc. done. }
  assert (Hpool : forall j, pool base j = if decide (j = i) then pool s j + 1 else pool s j).
  { intros j. case_decide; [subst j; apply (pool_update s base i v); [tauto| |]|apply pool_same];
      intros; unfold base; cbn; rewrite fn_lookup.
    - rewrite decide_True, length_app by done. cbn. lia.
    - by rewrite decide_False by congruence.
    - by rewrite decide_False by congruence. }
  split.
  - apply put_wake_safe. split.
    + apply (flow_inv_held s); [done|done| |done]. by rewrite Hi.
    + destruct Hr. split; auto; intros j; rewrite Hpool; [|case_decide; [subst j; lia|done]].
      unfold base. cbn. rewrite fn_lookup. case_decide; [subst j; lia|done].
  - done.
  - exact Hheld.
  - intros r. unfold base. cbn. rewrite fn_lookup. case_decide; [subst r|done]. rewrite Hq. by exists [x].
  - intros r z. unfold base. cbn. rewrite fn_lookup. case_decide; [subst r|by left].
    rewrite elem_snoc. intros [?| ->]; [by left|]. right. split; [done|]. subst y W'. cbn.
    destruct (0 <? delay); [right; by apply elem_of_union_l, elem_of_singleton|by left].
  - subst W' W. cbn. split.
    { destruct (0 <? delay); [etrans; [|apply union_subseteq_r]|]; apply union_subseteq_r. }
    intros w.
    destruct (Z.ltb_spec 0 delay); rewrite ?elem_of_union, ?elem_of_singleton; intros Hw;
      repeat destruct Hw as [Hw|Hw]; subst; first [by left|right; nia].
Qed.

Lemma stageScan_ok tick s i vs : usesInternalIngressPipeline c = true -> safe s ->
  exists s', stageScan c tick s i vs = Ok s' /\ staged tick s s'.
Proof using Hclk.
  intros Hi. revert s. induction vs as [|v vs IH]; intros s Hs; cbn.
  { eexists. split; [done|by apply staged_refl]. }
  destruct (stageVc_ok tick s (i, v) Hi Hs) as [->|(s' & -> & H)]; cbn; [by apply IH|eauto].
Qed.

Lemma stageInternal_ok tick s : usesInternalIngressPipeline c = true -> safe s ->
  exists s', stageInternalIngressFlits c tick s = Ok s' /\ staged tick s s'.
Proof using Hclk.
  intros Hi Hs. unfold stageInternalIngressFlits.
  apply (foldM_total (staged tick s)); [|by apply staged_refl].
  intros s1 i _ H1.
  destruct (stageScan_ok tick s1 i (rotated (r_nextvc s1 i) (c_vcs c)) Hi (st_safe _ _ _ H1)) as (s2 & E & H2).
  exists s2. split; [done|by eapply staged_trans].
Qed.

(** *** The SA/ST pass *)

Record core (tick : Z) (s s' : router (M := M)) (g : list (nat * req * flit M)) : Prop := {
  co_safe : safe s';
  co_xbar i : r_xbar s' i = [];
  co_trace : r_trace s' = r_trace s ++ g;
  co_out o : r_out s' o = r_out s o ++ sent_on o g;
  co_frame : (r_link s', r_clink s', r_last s', r_done s') = (r_link s, r_clink s, r_last s, r_done s);
  co_vcs r y : y ∈ r_vcs s' r -> y ∈ r_vcs s r;
  co_int r y : y ∈ r_int s' r -> y ∈ r_int s r \/
    (vf_time y <= tick /\ (vf_stage y <= tick \/ vf_stage y ∈ r_wake s'));
  co_wake : r_wake s ⊆ r_wake s' /\ forall w, w ∈ r_wake s' -> w ∈ r_wake s \/ tick < w;
  co_next r : r ∈ all_reqs c -> wants s' r (tick + c_clk c) = true -> tick + c_clk c ∈ r_wake s'
}.

Lemma suffix_elem {A} (l k : list A) a : l `suffix_of` k -> a ∈ l -> a ∈ k.
Proof. intros [p ->] Ha. apply elem_of_app. by right. Qed.

Lemma core_logic_ok tick s : safe s -> (forall i, r_xbar s i = []) ->
  exists s' g, core_logic c tick s = Ok s' /\ core tick s s' g.
Proof using Hclk.
  intros Hs Hx. unfold core_logic.
  assert (exists s1, (if usesInternalIngressPipeline c then stageInternalIngressFlits c tick s else Ok s) =
    Ok s1 /\ staged tick s s1) as (s1 & -> & Hst).
  { destruct (usesInternalIngressPipeline c) eqn:E; [by apply stageInternal_ok|].
    exists s. split; [done|by apply staged_refl]. }
  cbn [rbind]. pose proof (st_frame _ _ _ Hst) as E. injection E as E1 E2 E3 E4 E5 E6 E7.
  destruct (allocator_wakeup_ok tick s1 (st_safe _ _ _ Hst)) as (s2 & g & -> & Ha).
  { intros i. by rewrite E4. }
  cbn [rbind]. eexists _, g. split; [done|].
  pose proof (al_frame _ _ _ _ Ha) as F. injection F as F1 F2 F3 F4 F5.
  destruct (crossbar_prefix tick s2 g (al_xbar _ _ _ _ Ha) (al_ready _ _ _ _ Ha) (al_outs _ _ _ _ Ha)
    (al_ins _ _ _ _ Ha) (seq 0 (c_in c)) (NoDup_seq _ _)) as (X & O & EX & HX & HO).
  unfold crossbar_wakeup. rewrite EX. destruct Ha. split; cbn; auto.
  - destruct al_safe0. split; [by apply (flow_inv_view _ s2)|by apply (res_inv_view _ s2)].
  - intros i. rewrite HX. case_decide as Hi; [done|].
    pose proof (al_xbar0 i) as Hxi. rewrite filter_none in Hxi.
    + by destruct (r_xbar s2 i).
    + intros e He <-. apply Hi, elem_of_seq. split; [lia|]. apply al_range0.
      by apply (list_elem_of_fmap_2 (fun e => e.1.2.1)).
  - by rewrite al_trace0, E5.
  - intros o. rewrite HO, F3, E3. f_equal. unfold sent_from, sent_on. f_equal. apply filter_ext_in.
    intros e He. split; [tauto|]. intros Ho. split; [done|]. apply elem_of_seq. split; [lia|].
    apply al_range0. by apply (list_elem_of_fmap_2 (fun e => e.1.2.1)).
  - by rewrite F1, F2, F4, F5, E1, E2, E6, E7.
  - intros r y Hy. apply (suffix_elem _ _ _ (st_vcs _ _ _ Hst r)).
    by apply (suffix_elem _ _ _ (proj2 (al_suffix0 r))).
  - intros r y Hy. apply (suffix_elem _ _ _ (proj1 (al_suffix0 r))) in Hy.
    destruct (st_int _ _ _ Hst r y Hy) as [?|(? & [?|?])]; [by left| |]; right; split; auto.
    right. by apply (proj1 al_wake0).
  - destruct al_wake0 as [A1 A2], (st_wake _ _ _ Hst) as [B1 B2]. split; [by etrans|].
    intros w Hw%A2. apply elem_of_union in Hw as [->%elem_of_singleton|Hw]; [right; lia|by apply B2].
Qed.

End Handlers.

End Safety.
