(* ===== verification/RouterReach.v ===== *)
(** * Runs of the router

    The environment puts flits on the incoming links and credits on the credit
    links; the event queue runs the router's wakeups in time order.  In every
    reachable state: no assertion of the code can fail, every input VC's flits are
    sent in order, every output VC carries whole packets, the consumer's buffers
    cannot overflow, and a wakeup is pending as long as a flit is waiting. *)

From stdpp Require Import functions.
From S2P Require Import Prelude NppReceive Flit Router Stream RouterSafety.

Section Reach.
Context {M : Type} (c : rcfg).
Hypothesis Hpipe : 1 <= c_pipe c.
Hypothesis Hclk : 0 < c_clk c.
Implicit Types (s : router (M := M)) (r : req) (f : flit M) (x : vflit (M := M)).

(** The flits of VC [k.2] sent on output [k.1]. *)
Definition sent (s : router (M := M)) (k : nat * nat) : list (flit M) :=
  filter (fun f => fl_vc f = nz k.2) (r_out s k.1).

(** [raw r] lists the flits put on the link for [r], [given k] counts the credits put
    on the credit link for [k], [now] is the tick of the last wakeup. *)
Inductive reach : router (M := M) -> (req -> list (flit M)) -> (nat * nat -> Z) -> Z -> Prop :=
  | reach_init : reach (init c) (fun _ => []) (fun _ => 0) 0
  | reach_flit s raw given now i f t :
      reach s raw given now -> (i < c_in c)%nat -> 0 <= fl_vc f < nz (c_vcs c) ->
      (exists o, dest c f (zn (fl_vc f)) o) -> fits (cur (raw (i, zn (fl_vc f)))) f -> now <= t ->
      reach (put_link (<[i := r_link s i ++ [(f, t)]]> (r_link s)) (put_wake ({[t]} ∪ r_wake s) s))
        (<[(i, zn (fl_vc f)) := raw (i, zn (fl_vc f)) ++ [f]]> raw) given now
  | reach_credit s raw given now o v t :
      reach s raw given now -> given (o, v) < nz (length (sent s (o, v))) -> now <= t ->
      reach (put_clink (<[o := r_clink s o ++ [(v, t)]]> (r_clink s)) (put_wake ({[t]} ∪ r_wake s) s))
        raw (<[(o, v) := given (o, v) + 1]> given) now
  | reach_event s raw given now tick s' :
      reach s raw given now -> tick ∈ r_wake s -> (forall w, w ∈ r_wake s -> tick <= w) ->
      processCurrentEvent c tick s = Ok s' -> reach s' raw given tick
  | reach_output_unit s raw given now o tick s' :
      reach s raw given now -> output_unit_wakeup c tick s o = Ok s' -> reach s' raw given now.

(** ** The invariant *)

Definition link_flits (s : router (M := M)) (r : req) : list (flit M) :=
  filter (fun f => fl_vc f = nz r.2) (fst <$> r_link s r.1).

Record sys_inv (raw : req -> list (flit M)) (given : nat * nat -> Z) (s : router (M := M)) : Prop := {
  sy_safe : exists arr, safe c arr given s /\
    forall r, increment_hops <$> raw r = arr r ++ (increment_hops <$> link_flits s r);
  sy_stream r : pstream (raw r);
  sy_raw r f : f ∈ raw r -> fl_vc f = nz r.2 /\ exists o, dest c f r.2 o;
  sy_range r : raw r <> [] -> (r.1 < c_in c)%nat /\ (r.2 < c_vcs c)%nat;
  sy_link i f t : (f, t) ∈ r_link s i -> (i < c_in c)%nat /\ 0 <= fl_vc f < nz (c_vcs c);
  sy_xbar i : r_xbar s i = [];
  sy_out o : r_out s o = sent_on o (r_trace s)
}.

Definition buffered (s : router (M := M)) (r : req) (y : vflit) : Prop := y ∈ r_vcs s r \/ y ∈ r_int s r.

(** Pending wakeups; [strict] excludes the current tick. *)
Record live (now : Z) (s : router (M := M)) : Prop := {
  lv_wake w : w ∈ r_wake s -> now <= w;
  lv_link i f t : (f, t) ∈ r_link s i -> now < t -> t ∈ r_wake s;
  lv_head i f t q : r_link s i = (f, t) :: q -> t <= now -> now ∈ r_wake s \/ now + c_clk c ∈ r_wake s;
  lv_time r y : buffered s r y -> vf_time y <= now;
  lv_stage r y : buffered s r y -> now + c_clk c < vf_stage y -> vf_stage y ∈ r_wake s;
  lv_next r : r ∈ all_reqs c -> wants c s r (now + c_clk c) = true -> now + c_clk c ∈ r_wake s;
  lv_core : r_done s = true -> r_last s = now
}.

(** The same inside the wakeup at [tick], with the links of [seen] read. *)
Record waking (now tick : Z) (seen : list nat) (s : router (M := M)) : Prop := {
  wk_wake w : w ∈ r_wake s -> tick < w;
  wk_link i f t : (f, t) ∈ r_link s i -> tick < t -> t ∈ r_wake s;
  wk_head i f t q : i ∈ seen -> r_link s i = (f, t) :: q -> t <= tick -> tick + c_clk c ∈ r_wake s;
  wk_time r y : buffered s r y -> vf_time y <= tick;
  wk_stage r y : buffered s r y -> tick + c_clk c < vf_stage y -> vf_stage y ∈ r_wake s;
  wk_next r : tick = now -> r ∈ all_reqs c -> wants c s r (tick + c_clk c) = true -> tick + c_clk c ∈ r_wake s;
  wk_core : r_done s = true -> r_last s = now
}.

(** ** A flit enters an input VC *)

Lemma dest_hop f v o : dest c f v o -> dest c (increment_hops f) v o.
Proof. done. Qed.

Lemma flow_arrive arr s r (y : vflit) :
  flow_inv c arr s -> pstream (arr r ++ [vf y]) -> fl_vc (vf y) = nz r.2 ->
  (exists o, dest c (vf y) r.2 o) -> (r.1 < c_in c)%nat /\ (r.2 < c_vcs c)%nat ->
  flow_inv c (<[r := arr r ++ [vf y]]> arr) (put_vcs (<[r := r_vcs s r ++ [y]]> (r_vcs s)) s).
Proof.
  intros Hf Hp Hv Hd Hr. set (s' := put_vcs _ s).
  assert (Hheld : forall r', held s' r' = held s r' ++ if decide (r' = r) then [vf y] else []).
  { intros r'. unfold held, s'. cbn. rewrite fn_lookup. case_decide; [subst r'|by rewrite app_nil_r].
    by rewrite fmap_app, app_assoc. }
  destruct Hf. split; try done.
  - intros r'. rewrite Hheld, app_assoc, fn_lookup. change (r_trace s') with (r_trace s).
    rewrite fi_flow. case_decide; [by subst|by rewrite app_nil_r].
  - intros r'. rewrite fn_lookup. case_decide; [by subst|done].
  - intros r' f. rewrite fn_lookup. case_decide; [subst r'|by auto].
    intros [?| ->]%elem_snoc; by auto.
  - intros r'. rewrite fn_lookup. case_decide; [by subst|by auto].
  - intros r'. destruct (fi_cached r') as [?|(Hp' & f & o & A1 & A2 & A3)]; [by left|].
    right. split; [done|]. exists f, o. split; [done|]. split; [done|].
    destruct A3 as [?|[? Hh]]; [by left|]. right. split; [done|].
    rewrite Hheld. by destruct (held s r').
Qed.

(** The state after a flit [f] with arrival tick [t] was read from link [i]. *)
Definition taken (tick : Z) (s : router (M := M)) (i : nat) (f : flit M) (t : Z)
    (rest : list (flit M * Z)) (W : gset Z) : router :=
  let r := (i, zn (fl_vc f)) in
  let stage := if c_pipe c =? 1 then tick else tick + (c_pipe c - 1) * c_clk c in
  put_wake W (put_vcs (<[r := r_vcs s r ++ [mk_vflit (increment_hops f) t stage]]> (r_vcs s))
    (put_link (<[i := rest]> (r_link s)) s)).

Lemma nocwakeup_taken tick s i f t rest :
  r_link s i = (f, t) :: rest -> t <= tick -> 0 <= fl_vc f < nz (c_vcs c) ->
  exists W, nocwakeup c tick s i = Ok (taken tick s i f t rest W) /\ r_wake s ⊆ W /\
    (forall w, w ∈ W -> w ∈ r_wake s \/ tick < w) /\
    (c_pipe c = 1 -> tick + c_clk c ∈ W) /\
    (c_pipe c <> 1 -> tick + (c_pipe c - 1) * c_clk c ∈ W) /\
    (forall f2 t2 q, rest = (f2, t2) :: q -> t2 <= tick -> tick + c_clk c ∈ W).
Proof using Hclk Hpipe.
  intros El Ht Hv. unfold nocwakeup. rewrite El, (proj2 (Z.ltb_ge _ _)) by lia.
  unfold guard. rewrite (proj2 (andb_true_iff _ _)); [|by rewrite Z.leb_le, Z.ltb_lt].
  set (k := if c_pipe c =? 1 then 1 else c_pipe c - 1).
  assert (Hk : 0 < k * c_clk c) by (subst k; destruct (Z.eqb_spec (c_pipe c) 1); nia).
  assert (exists W, W = {[tick + k * c_clk c]} ∪ r_wake s) as [W EW] by eauto.
  set (W2 := match rest with (_, t2) :: _ => if t2 <=? tick then {[tick + 1 * c_clk c]} ∪ W else W | [] => W end).
  exists W2. split.
  { unfold taken, W2. rewrite EW. subst k. destruct (Z.eqb_spec (c_pipe c) 1) as [E|E].
    - cbn. destruct rest as [|[f2 t2] rest]; [done|]. by destruct (t2 <=? tick).
    - rewrite (proj2 (Z.ltb_lt _ _)) by lia. cbn. destruct rest as [|[f2 t2] rest]; [done|]. by destruct (t2 <=? tick). }
  assert (HW : W ⊆ W2).
  { subst W2. destruct rest as [|[f2 t2] rest]; [done|]. destruct (t2 <=? tick); [apply union_subseteq_r|done]. }
  assert (HW2 : forall w, w ∈ W2 -> w ∈ W \/ w = tick + c_clk c).
  { subst W2. intros w. destruct rest as [|[f2 t2] rest]; [by left|].
    destruct (t2 <=? tick); [|by left]. rewrite elem_of_union, elem_of_singleton, Z.mul_1_l. tauto. }
  split; [|split; [|split; [|split]]].
  - etrans; [|done]. rewrite EW. apply union_subseteq_r.
  - intros w [Hw| ->]%HW2; [|right; lia]. rewrite EW, elem_of_union, elem_of_singleton in Hw.
    destruct Hw as [->|?]; [right; lia|by left].
  - intros E. apply HW. rewrite EW. subst k. rewrite E. cbn. rewrite Z.mul_1_l. by apply elem_of_union_l, elem_of_singleton.
  - intros E. apply HW. rewrite EW. subst k. destruct (Z.eqb_spec (c_pipe c) 1); [done|].
    by apply elem_of_union_l, elem_of_singleton.
  - intros f2 t2 q -> Ht2. subst W2. cbn. rewrite (proj2 (Z.leb_le _ _)) by done. rewrite Z.mul_1_l.
    by apply elem_of_union_l, elem_of_singleton.
Qed.

Lemma taken_sys raw given tick s i f t rest W : sys_inv raw given s ->
  r_link s i = (f, t) :: rest -> sys_inv raw given (taken tick s i f t rest W).
Proof.
  intros Hi El. pose proof Hi as [(arr & [Hf Hr] & Ha) H2 H3 H4 H5 H6 H7].
  destruct (H5 i f t) as [Hin Hv]; [rewrite El; left|].
  set (r := (i, zn (fl_vc f))). set (stage := if c_pipe c =? 1 then tick else tick + (c_pipe c - 1) * c_clk c).
  assert (Evc : fl_vc f = nz r.2) by (cbn; lia).
  assert (Elf : link_flits s r = f :: filter (fun f => fl_vc f = nz r.2) (fst <$> rest)).
  { unfold link_flits. cbn [fst r]. rewrite El, fmap_cons, filter_cons. cbn [fst]. by rewrite decide_True. }
  pose proof (Ha r) as Hraw. rewrite Elf, fmap_cons in Hraw.
  assert (f ∈ raw r) as Hfr.
  { assert (increment_hops f ∈ increment_hops <$> raw r) as (g & Eg & Hg)%list_elem_of_fmap.
    { rewrite Hraw. apply elem_of_app. right. left. }
    assert (f = g) as ->; [|done]. destruct f as [? ? ? ? [] ? ? ?], g as [? ? ? ? [] ? ? ?].
    unfold increment_hops, with_route, hop_route in Eg. cbn in Eg. injection Eg. intros. f_equal; try done.
    f_equal; lia || done. }
  split; cbn; auto.
  - exists (<[r := arr r ++ [increment_hops f]]> arr). split; [split|].
    + apply (flow_inv_view c _ (put_vcs (<[r := r_vcs s r ++ [mk_vflit (increment_hops f) t stage]]> (r_vcs s)) s)); [done|].
      apply (flow_arrive arr s r (mk_vflit (increment_hops f) t stage)); [done| |done|exact (proj2 (H3 r f Hfr))|].
      * apply (pstream_prefix _ (increment_hops <$> filter (fun f => fl_vc f = nz r.2) (fst <$> rest))).
        match goal with |- pstream ?l => replace l with (increment_hops <$> raw r) end; [by apply pstream_hop|].
        rewrite Hraw, <- app_assoc. done.
      * apply H4. by destruct (raw r); [apply not_elem_of_nil in Hfr|].
    + by apply (res_inv_view c _ s).
    + intros r'. unfold link_flits. cbn [r_link taken put_wake put_vcs put_link]. rewrite !fn_lookup.
      destruct (decide (r' = r)) as [->|Hne].
      * rewrite Hraw, <- app_assoc. cbn [fst r]. by rewrite decide_True.
      * rewrite Ha. f_equal. f_equal. unfold link_flits. destruct (decide (r'.1 = i)) as [E|]; [|done].
        rewrite E, El, fmap_cons, filter_cons. cbn [fst]. rewrite decide_False; [done|].
        intros Hv'. apply Hne. destruct r' as [i' v']. unfold r. cbn in *. subst. f_equal. lia.
  - intros j f' t'. rewrite fn_lookup. case_decide; [subst j|apply H5].
    intros Hj. apply (H5 i f' t'). rewrite El. by right.
Qed.

Lemma waking_skip now tick seen s i : waking now tick seen s ->
  (forall f t q, r_link s i = (f, t) :: q -> tick < t) -> waking now tick (seen ++ [i]) s.
Proof.
  intros [] Hi. split; auto. intros j f t q [?| ->]%elem_snoc E Ht; [by eapply wk_head0|].
  apply Hi in E. lia.
Qed.

Lemma taken_waking now tick seen s i f t rest W : waking now tick seen s ->
  r_link s i = (f, t) :: rest -> t <= tick -> r_wake s ⊆ W ->
  (forall w, w ∈ W -> w ∈ r_wake s \/ tick < w) ->
  (c_pipe c = 1 -> tick + c_clk c ∈ W) ->
  (c_pipe c <> 1 -> tick + (c_pipe c - 1) * c_clk c ∈ W) ->
  (forall f2 t2 q, rest = (f2, t2) :: q -> t2 <= tick -> tick + c_clk c ∈ W) ->
  waking now tick (seen ++ [i]) (taken tick s i f t rest W).
Proof using Hclk Hpipe.
  intros [H1 H2 H3 H4 H5 H6 H7] El Ht HW W1 W2 W3 W4.
  set (r0 := (i, zn (fl_vc f))). set (s' := taken tick s i f t rest W).
  set (y0 := mk_vflit (increment_hops f) t (if c_pipe c =? 1 then tick else tick + (c_pipe c - 1) * c_clk c)).
  assert (Hbuf : forall r y, buffered s' r y -> buffered s r y \/ y = y0).
  { intros r y. unfold buffered, s', taken. cbn. rewrite fn_lookup. case_decide; [subst r|tauto].
    rewrite elem_snoc. tauto. }
  split.
  - intros w [?|?]%W1; auto.
  - intros j g u. unfold s', taken. cbn. rewrite fn_lookup. case_decide; [subst j|by intros; apply HW; eauto].
    intros Hin Hu. apply HW, (H2 i g); [rewrite El; by right|done].
  - intros j g u q Hj. unfold s', taken. cbn. rewrite fn_lookup. case_decide as E; [by eauto|].
    intros Hl Hu. apply elem_snoc in Hj as [?| ->]; [|done]. apply HW. by eapply H3.
  - intros r y [?| ->]%Hbuf; [by eapply H4|done].
  - intros r y [Hy| ->]%Hbuf Hs; [apply HW; by eapply H5|]. cbn in *.
    destruct (Z.eqb_spec (c_pipe c) 1); [lia|by apply W3].
  - intros r E Hr. unfold wants, s', taken. cbn. rewrite fn_lookup. case_decide as Er.
    2:{ intros Hw. apply HW, (H6 r E Hr Hw). }
    subst r. fold r0 y0. destruct (r_vcs s r0) as [|y q] eqn:Ev.
    2:{ intros Hw. apply HW, (H6 r0 E Hr). unfold wants. rewrite Ev. exact Hw. }
    intros [Hw|Hw]%orb_true_iff.
    { apply HW, (H6 r0 E Hr). unfold wants. by rewrite Hw. }
    cbn in Hw. apply andb_true_iff in Hw as [_ Hw]. apply Z.leb_le in Hw.
    destruct (Z.eqb_spec (c_pipe c) 1) as [?|Hp]; [by apply W2|].
    assert (c_pipe c = 2) as Ep by nia. specialize (W3 Hp). rewrite Ep in W3.
    by replace (tick + c_clk c) with (tick + (2 - 1) * c_clk c) by lia.
  - done.
Qed.

Lemma nocwakeup_ok raw given now tick seen s i : sys_inv raw given s -> waking now tick seen s ->
  exists s', nocwakeup c tick s i = Ok s' /\ sys_inv raw given s' /\ waking now tick (seen ++ [i]) s'.
Proof using Hclk Hpipe.
  intros Hs Hw. destruct (r_link s i) as [|[f t] rest] eqn:El.
  { exists s. unfold nocwakeup. rewrite El. split; [done|]. split; [done|].
    apply waking_skip; [done|]. by rewrite El. }
  destruct (Z.lt_ge_cases tick t) as [Ht|Ht].
  { exists s. unfold nocwakeup. rewrite El, (proj2 (Z.ltb_lt _ _)) by done. split; [done|]. split; [done|].
    apply waking_skip; [done|]. intros f' t' q. rewrite El. by intros [= <- <- <-]. }
  destruct (sy_link _ _ _ Hs i f t) as [_ Hv]; [rewrite El; left|].
  destruct (nocwakeup_taken tick s i f t rest El Ht Hv) as (W & -> & W0 & W1 & W2 & W3 & W4).
  eexists. split; [done|]. split; [by apply taken_sys|by apply taken_waking].
Qed.

(** ** Credits *)

Lemma output_unit_ok raw given tick s o : sys_inv raw given s ->
  exists C L, output_unit_wakeup c tick s o = Ok (put_credit C (put_clink L s)) /\
    sys_inv raw given (put_credit C (put_clink L s)).
Proof.
  intros Hs. unfold output_unit_wakeup. destruct (r_clink s o) as [|[v t] rest] eqn:El.
  { exists (r_credit s), (r_clink s). split; by destruct s. }
  destruct (tick <? t). { exists (r_credit s), (r_clink s). split; by destruct s. }
  pose proof Hs as [(arr & [Hf Hr] & Ha) ? ? ? ? ? ?].
  assert (Hfl : in_flight s (o, v) = 1 + nz (length (filter (fun p : nat * Z => p.1 = v) rest))).
  { unfold in_flight. cbn [fst snd]. rewrite El, filter_cons. cbn [fst]. rewrite decide_True by done. cbn. lia. }
  pose proof (ri_account _ _ _ Hr (o, v)) as Hac. pose proof (ri_given _ _ _ Hr (o, v)) as Hgv.
  unfold guard. assert (Hle : (r_credit s (o, v) + 1 <=? c_max c (o, v)) = true) by (apply Z.leb_le; lia).
  rewrite Hle. eexists _, _. split; [done|].
  split; auto. exists arr. split; [|done]. split; [by apply (flow_inv_view c _ s)|].
  destruct Hr. split; auto.
  - intros k. cbn. rewrite fn_lookup. case_decide; [subst k|done]. pose proof (ri_credit (o, v)). lia.
  - intros k. pose proof (ri_account k) as Hk. unfold in_flight in *.
    cbn [r_credit r_clink r_trace put_credit put_clink]. rewrite !fn_lookup.
    destruct (decide (k = (o, v))) as [->|Hne].
    + cbn [fst snd] in *. rewrite decide_True by done. lia.
    + case_decide as Ek; [|done]. rewrite Ek, El, filter_cons in Hk. cbn in Hk.
      rewrite decide_False in Hk; [done|]. intros ->. apply Hne. destruct k. cbn in *. by subst.
Qed.

(** ** One wakeup *)

Lemma sys_inv_view raw given s s' : flow_view s' = flow_view s -> res_view s' = res_view s ->
  (r_link s', r_xbar s', r_out s') = (r_link s, r_xbar s, r_out s) ->
  sys_inv raw given s -> sys_inv raw given s'.
Proof.
  intros E1 E2 E3 [(arr & [Hf Hr] & Ha) H2 H3 H4 H5 H6 H7]. injection E3 as E4 E5 E6.
  pose proof E1 as E7. injection E7 as _ _ E7 _ _.
  split; rewrite ?E4, ?E5, ?E6, ?E7; auto. exists arr.
  split; [split; [by apply (flow_inv_view c _ s)|by apply (res_inv_view c _ s)]|].
  intros r. unfold link_flits. rewrite E4. apply Ha.
Qed.

Lemma waking_view now tick seen s s' :
  (r_wake s', r_link s', r_vcs s', r_int s', r_done s', r_last s') =
  (r_wake s, r_link s, r_vcs s, r_int s, r_done s, r_last s) ->
  waking now tick seen s -> waking now tick seen s'.
Proof.
  intros E. injection E as E1 E2 E3 E4 E5 E6. intros []. unfold buffered, wants in *.
  split; unfold buffered, wants; rewrite ?E1, ?E2, ?E3, ?E4, ?E5, ?E6; auto.
Qed.

Lemma waking_start now tick s : live now s -> tick ∈ r_wake s ->
  (forall w, w ∈ r_wake s -> tick <= w) -> waking now tick [] (put_wake (r_wake s ∖ {[tick]}) s).
Proof using Hclk.
  intros [H1 H2 H3 H4 H5 H6 H7] Hin Hmin. pose proof (H1 _ Hin) as Hnow.
  assert (Hd : forall w, tick < w -> w ∈ r_wake s -> w ∈ r_wake s ∖ {[tick]}).
  { intros w Hw Hw'. apply elem_of_difference. split; [done|]. rewrite elem_of_singleton. lia. }
  split; cbn; auto.
  - intros w [Hw Hne]%elem_of_difference. rewrite elem_of_singleton in Hne. apply Hmin in Hw. lia.
  - intros i f t Hl Ht. apply Hd; [done|]. apply (H2 i f); [done|lia].
  - intros i f t q H. by apply not_elem_of_nil in H.
  - intros r y Hy. pose proof (H4 r y Hy). lia.
  - intros r y Hy Hs. apply Hd; [lia|]. apply (H5 r y Hy). lia.
  - intros r -> Hr Hw. apply Hd; [lia|]. by apply (H6 r).
Qed.

Lemma inputs_ok raw given now tick s : sys_inv raw given s -> waking now tick [] s ->
  exists s', foldM (nocwakeup c tick) s (seq 0 (c_in c)) = Ok s' /\ sys_inv raw given s' /\
    waking now tick (seq 0 (c_in c)) s'.
Proof using Hclk Hpipe.
  intros Hs Hw.
  apply (foldM_total_seen (fun seen s => sys_inv raw given s /\ waking now tick seen s)); [|done].
  intros seen s1 i rest _ [H1 H2]. by apply nocwakeup_ok.
Qed.

Lemma outputs_ok raw given now tick seen s : sys_inv raw given s -> waking now tick seen s ->
  exists s', foldM (output_unit_wakeup c tick) s (seq 0 (c_outs c)) = Ok s' /\ sys_inv raw given s' /\
    waking now tick seen s'.
Proof.
  intros Hs Hw. apply (foldM_total (fun s => sys_inv raw given s /\ waking now tick seen s)); [|done].
  intros s1 o _ [H1 H2]. destruct (output_unit_ok raw given tick s1 o H1) as (C & L & -> & H3).
  eexists. split; [done|]. split; [done|]. by apply (waking_view _ _ _ s1).
Qed.

(** After the SA/ST pass, or when it had already run at this tick. *)
Lemma live_core now tick s s' arr given g : waking now tick (seq 0 (c_in c)) s ->
  (forall i f t, (f, t) ∈ r_link s i -> (i < c_in c)%nat) ->
  core c arr given tick s s' g -> r_last s' = tick -> live tick (put_core (r_last s') true s').
Proof using Hclk.
  intros [H1 H2 H3 H4 H5 H6 H7] Hl [C1 C2 C3 C4 C5 C6 C7 [C8 C9] C10] Et.
  injection C5 as E1 E2 E3 E4. split; cbn; rewrite ?E1.
  - intros w [?|?]%C9; [|lia]. apply H1 in H. lia.
  - intros i f t Hin Ht. apply C8. by eapply H2.
  - intros i f t q El Ht. right. apply C8. eapply H3; [|done|done]. apply elem_of_seq.
    split; [lia|]. apply (Hl i f t). rewrite El. left.
  - intros r y [Hy%C6|[Hy|[? _]]%C7]; [eapply H4; by left|eapply H4; by right|done].
  - intros r y [Hy%C6|[Hy|[_ [?|?]]]%C7] Hs; [apply C8; eapply H5; [by left|done]| |lia|done].
    apply C8. eapply H5; [by right|done].
  - intros r Hr Hw. by apply (C10 r).
  - by intros _.
Qed.

Lemma live_again tick s W : waking tick tick (seq 0 (c_in c)) s ->
  (forall i f t, (f, t) ∈ r_link s i -> (i < c_in c)%nat) ->
  r_wake s ⊆ W -> (forall w, w ∈ W -> w ∈ r_wake s \/ tick < w) -> live tick (put_wake W s).
Proof.
  intros [H1 H2 H3 H4 H5 H6 H7] Hl HW HW2. split; cbn; auto.
  - intros w [?|?]%HW2; [|lia]. apply H1 in H. lia.
  - intros i f t Hin Ht. apply HW. by eapply H2.
  - intros i f t q El Ht. right. apply HW. eapply H3; [|done|done]. apply elem_of_seq.
    split; [lia|]. apply (Hl i f t). rewrite El. left.
  - intros r y Hy Hs. apply HW. by eapply H5.
  - intros r Hr Hw. apply HW. by apply (H6 r).
Qed.

Lemma event_ok raw given now tick s : sys_inv raw given s -> live now s -> tick ∈ r_wake s ->
  (forall w, w ∈ r_wake s -> tick <= w) ->
  exists s', processCurrentEvent c tick s = Ok s' /\ sys_inv raw given s' /\ live tick s'.
Proof using Hclk Hpipe.
  intros Hs Hl Hin Hmin. unfold processCurrentEvent, router_wakeup.
  pose proof (waking_start _ _ _ Hl Hin Hmin) as Hw.
  destruct (inputs_ok raw given now tick (put_wake (r_wake s ∖ {[tick]}) s)) as (s1 & -> & Hs1 & Hw1);
    [by apply (sys_inv_view _ _ s)|done|].
  cbn [rbind]. destruct (outputs_ok _ _ _ _ _ _ Hs1 Hw1) as (s2 & -> & Hs2 & Hw2). cbn [rbind].
  assert (Hlink : forall s, sys_inv raw given s -> forall i f t, (f, t) ∈ r_link s i -> (i < c_in c)%nat).
  { intros s' Hs' i f t Hi. by apply (sy_link _ _ _ Hs' i f t). }
  set (s3 := if r_last s2 =? tick then s2 else put_core tick false s2).
  destruct (r_done s3) eqn:Hd.
  - subst s3. destruct (Z.eqb_spec (r_last s2) tick) as [E|E]; [|done].
    assert (now = tick) as -> by (rewrite <- E; symmetry; by apply Hw2).
    eexists. split; [done|]. destruct (usesInternalIngressPipeline c && _).
    + split; [by apply (sys_inv_view _ _ s2)|]. apply live_again; [done|by apply Hlink|apply union_subseteq_r|].
      intros w. rewrite elem_of_union, elem_of_singleton. intros [->|?]; [right; lia|by left].
    + split; [done|]. replace s2 with (put_wake (r_wake s2) s2) by by destruct s2.
      apply live_again; [done|by apply Hlink|done|by left].
  - assert (Hs3 : sys_inv raw given s3) by (subst s3; destruct (_ =? _); [done|by apply (sys_inv_view _ _ s2)]).
    assert (waking now tick (seq 0 (c_in c)) s3 /\ r_last s3 = tick) as [Hw3 Ht3].
    { subst s3. destruct (Z.eqb_spec (r_last s2) tick); [done|]. split; [|done].
      destruct Hw2. split; auto. done. }
    destruct (sy_safe _ _ _ Hs3) as (arr & Hsafe & Ha).
    destruct (core_logic_ok c arr given Hclk tick s3 Hsafe (sy_xbar _ _ _ Hs3)) as (s4 & g & -> & Hc).
    cbn [rbind]. eexists. split; [done|]. pose proof (co_frame _ _ _ _ _ _ _ Hc) as E. injection E as E1 E2 E3 E4.
    split.
    + apply (sys_inv_view _ _ s4); [done|done|done|]. destruct Hs3. split; auto.
      * exists arr. split; [apply Hc|]. intros r. unfold link_flits. rewrite E1. apply Ha.
      * by rewrite E1.
      * apply Hc.
      * intros o. rewrite (co_out _ _ _ _ _ _ _ Hc), (co_trace _ _ _ _ _ _ _ Hc), sy_out0.
        unfold sent_on. by rewrite filter_app, fmap_app.
    + eapply live_core; [exact Hw3|by apply Hlink|exact Hc|by rewrite E3].
Qed.

(** ** Reachable states *)

Hypothesis Hmax : forall k, 0 <= c_max c k.

Lemma sent_outs raw given s k : sys_inv raw given s -> sent s k = outs k (r_trace s).
Proof.
  intros [(arr & [Hf _] & _) _ _ _ _ _ Ho]. unfold sent, outs. rewrite Ho. unfold sent_on.
  assert (Hvc : forall e, e ∈ r_trace s -> fl_vc e.2 = nz e.1.2.2).
  { intros [[o r] f] He. apply (fi_flit _ _ _ Hf r f). rewrite <- (fi_flow _ _ _ Hf r).
    apply elem_of_app. left. unfold from. apply list_elem_of_fmap. exists (o, r, f).
    split; [done|]. by apply list_elem_of_filter. }
  revert Hvc. generalize (r_trace s). intros l. induction l as [|[[o r] f] l IH]; intros Hvc; [done|].
  assert (fl_vc f = nz r.2) as Ev by (apply (Hvc (o, r, f)); left).
  specialize (IH (fun e He => Hvc e (list_elem_of_further _ _ _ He))).
  rewrite !(filter_cons _ (o, r, f)). cbn [fst snd]. destruct k as [o' v']. cbn [fst snd] in *.
  destruct (decide (o = o')) as [->|Hne].
  - rewrite fmap_cons. cbn [snd]. rewrite filter_cons, Ev, IH.
    destruct (decide (nz r.2 = nz v')) as [E|E].
    + rewrite decide_True; [done|]. f_equal. lia.
    + rewrite decide_False; [done|]. intros [= Hv]. apply E. by rewrite Hv.
  - rewrite IH, decide_False; [done|]. congruence.
Qed.

Lemma pool_empty s i : (forall v, r_int s (i, v) = []) -> pool c s i = 0.
Proof.
  intros H. unfold pool. induction (seq 0 (c_vcs c)) as [|v l IH]; [done|].
  by rewrite fmap_cons, sumZ_cons, IH, H.
Qed.

Lemma init_sys : sys_inv (fun _ => []) (fun _ => 0) (init c).
Proof using Hmax.
  split; try done.
  - exists (fun _ => []). split; [|done]. split.
    + split; try done; intros; first [by left|solve [constructor]|
        match goal with H : _ ∈ _ |- _ => by apply not_elem_of_nil in H end].
    + split; try done.
      * intros k. unfold in_flight, outs. cbn. lia.
      * intros o. constructor.
      * intros o r H. by apply not_elem_of_nil in H.
      * intros i. by rewrite pool_empty.
      * intros i. by rewrite pool_empty.
  - intros r. constructor.
  - intros r f H. by apply not_elem_of_nil in H.
  - intros i f t H. by apply not_elem_of_nil in H.
Qed.

Lemma init_live : live 0 (init c).
Proof.
  split; try done.
  - intros i f t H. by apply not_elem_of_nil in H.
  - intros r y [H|H]; by apply not_elem_of_nil in H.
  - intros r y [H|H]; by apply not_elem_of_nil in H.
  - intros r _. unfold wants. cbn. by rewrite andb_false_r.
Qed.

Lemma flit_sys raw given s i f t w : sys_inv raw given s -> (i < c_in c)%nat ->
  0 <= fl_vc f < nz (c_vcs c) -> (exists o, dest c f (zn (fl_vc f)) o) ->
  fits (cur (raw (i, zn (fl_vc f)))) f ->
  sys_inv (<[(i, zn (fl_vc f)) := raw (i, zn (fl_vc f)) ++ [f]]> raw) given
    (put_link (<[i := r_link s i ++ [(f, t)]]> (r_link s)) (put_wake w s)).
Proof.
  intros [(arr & [Hf Hr] & Ha) H2 H3 H4 H5 H6 H7] Hi Hv Hd Hfit. set (r := (i, zn (fl_vc f))) in *.
  assert (Evc : fl_vc f = nz r.2) by (cbn; lia).
  split; cbn [r_link r_xbar r_out r_trace put_link put_wake]; auto.
  - exists arr. split; [split; [by apply (flow_inv_view c _ s)|by apply (res_inv_view c _ s)]|].
    intros r'. unfold link_flits. cbn [r_link put_link]. rewrite !fn_lookup.
    destruct (decide (r'.1 = i)) as [E|E].
    + rewrite fmap_app, filter_app. rewrite <- E at 1. rewrite fmap_app, app_assoc.
      fold (link_flits s r'). rewrite <- Ha. destruct (decide (r' = r)) as [->|Hne].
      * rewrite fmap_app. f_equal. cbn [fmap list_fmap fst]. by rewrite filter_cons, decide_True.
      * cbn [fmap list_fmap fst]. rewrite filter_cons, decide_False, filter_nil; [by rewrite app_nil_r|].
        intros Hv'. apply Hne. destruct r' as [i' v']. unfold r. cbn in *. subst. f_equal. lia.
    + rewrite decide_False by (intros ->; done). fold (link_flits s r'). apply Ha.
  - intros r'. rewrite fn_lookup. case_decide; [subst r'|done]. by constructor.
  - intros r' g. rewrite fn_lookup. case_decide; [subst r'|apply H3].
    intros [?| ->]%elem_snoc; [by apply H3|done].
  - intros r'. rewrite fn_lookup. case_decide; [subst r'; intros _; cbn; lia|apply H4].
  - intros j g u. rewrite fn_lookup. case_decide; [subst j|apply H5].
    intros [?|[= -> ->]]%elem_snoc; [by eapply H5|done].
Qed.

Lemma flit_live now s i f t : live now s -> now <= t ->
  live now (put_link (<[i := r_link s i ++ [(f, t)]]> (r_link s)) (put_wake ({[t]} ∪ r_wake s) s)).
Proof.
  intros [H1 H2 H3 H4 H5 H6 H7] Ht.
  assert (Hw : forall w, w ∈ r_wake s -> w ∈ {[t]} ∪ r_wake s) by (intros; by apply elem_of_union_r).
  assert (Hin : t ∈ {[t]} ∪ r_wake s) by by apply elem_of_union_l, elem_of_singleton.
  split; cbn; auto.
  - intros w [->%elem_of_singleton|?]%elem_of_union; auto.
  - intros j g u. rewrite fn_lookup. case_decide; [|by intros; apply Hw; eauto]. subst j.
    intros [?|[= -> ->]]%elem_snoc Hu; [apply Hw; by eapply H2|done].
  - intros j g u q. rewrite fn_lookup. case_decide.
    + subst j. destruct (r_link s i) as [|[g' u'] q'] eqn:El.
      * intros [= -> -> <-] Hu. left. assert (u = now) as <- by lia. done.
      * intros [= -> -> <-] Hu. destruct (H3 i _ _ _ El Hu); [left|right]; auto.
    + intros El Hu. destruct (H3 j _ _ _ El Hu); [left|right]; auto.
  - intros r y Hy Hs. apply Hw. by eapply H5.
  - intros r Hr Hx. apply Hw. by eapply (H6 r).
Qed.

Lemma credit_sys raw given s o v t w : sys_inv raw given s ->
  given (o, v) < nz (length (sent s (o, v))) ->
  sys_inv raw (<[(o, v) := given (o, v) + 1]> given)
    (put_clink (<[o := r_clink s o ++ [(v, t)]]> (r_clink s)) (put_wake w s)).
Proof.
  intros Hs Hlt. rewrite (sent_outs _ _ _ _ Hs) in Hlt.
  destruct Hs as [(arr & [Hf Hr] & Ha) H2 H3 H4 H5 H6 H7]. split; auto.
  exists arr. split; [|done]. split; [by apply (flow_inv_view c _ s)|]. destruct Hr. split; auto.
  - intros k. pose proof (ri_account k) as Hk. unfold in_flight in *.
    cbn [r_credit r_clink r_trace put_clink put_wake]. rewrite !fn_lookup.
    destruct (decide (k = (o, v))) as [->|Hne].
    + cbn [fst snd] in *. rewrite decide_True, filter_app, length_app by done.
      rewrite filter_cons, decide_True by done. cbn [length filter list_filter]. lia.
    + destruct (decide (k.1 = o)) as [E|]; [|done]. rewrite <- E, filter_app, length_app, filter_cons.
      cbn [fst]. rewrite decide_False; [cbn [length filter list_filter]; lia|].
      intros ->. apply Hne. destruct k. cbn in *. by subst.
  - intros k. cbn. rewrite fn_lookup. case_decide; [subst k; fold (outs (o, v) (r_trace s)); lia|apply ri_given].
Qed.

Lemma credit_live now s o v t : live now s -> now <= t ->
  live now (put_clink (<[o := r_clink s o ++ [(v, t)]]> (r_clink s)) (put_wake ({[t]} ∪ r_wake s) s)).
Proof.
  intros [H1 H2 H3 H4 H5 H6 H7] Ht.
  assert (Hw : forall w, w ∈ r_wake s -> w ∈ {[t]} ∪ r_wake s) by (intros; by apply elem_of_union_r).
  split; cbn; auto.
  - intros w [->%elem_of_singleton|?]%elem_of_union; auto.
  - intros i f u Hi Hu. apply Hw. by eapply H2.
  - intros i f u q El Hu. destruct (H3 i _ _ _ El Hu); [left|right]; auto.
  - intros r y Hy Hs. apply Hw. by eapply H5.
  - intros r Hr Hx. apply Hw. by eapply (H6 r).
Qed.

Lemma reach_inv s raw given now : reach s raw given now -> sys_inv raw given s /\ live now s.
Proof using Hclk Hpipe Hmax.
  induction 1 as [|s raw given now i f t H [IH1 IH2]|s raw given now o v t H [IH1 IH2]
    |s raw given now tick s' H [IH1 IH2] Hin Hmin E|s raw given now o tick s' H [IH1 IH2] E].
  - split; [apply init_sys|apply init_live].
  - split; [by apply flit_sys|by apply flit_live].
  - split; [by apply credit_sys|by apply credit_live].
  - destruct (event_ok _ _ _ _ _ IH1 IH2 Hin Hmin) as (s2 & E2 & ?). rewrite E in E2. injection E2 as ->. done.
  - destruct (output_unit_ok raw given tick s o IH1) as (C & L & E2 & Hs). rewrite E in E2.
    injection E2 as ->. split; [done|]. by destruct IH2.
Qed.

Lemma need_stage_front (y : vflit) (q : list (vflit (M := M))) now t : now <= t ->
  (forall z, z ∈ y :: q -> vf_time z <= now) -> vf_stage y <= t -> need_stage (y :: q) t = true.
Proof.
  intros Ht Hz Hs. pose proof (Hz y (list_elem_of_here _ _)). cbn. apply andb_true_iff.
  rewrite !Z.leb_le. lia.
Qed.

(** A wakeup is scheduled for the front of a nonempty buffer. *)
Lemma held_awake arr s r now : flow_inv c arr s -> live now s -> held s r <> [] ->
  exists w, w ∈ r_wake s.
Proof using Hclk.
  intros Hf [_ _ _ H4 H5 H6 _] Hr.
  assert (Hin : r ∈ all_reqs c) by (apply elem_all_reqs, (held_range c arr s r Hf Hr)).
  assert (exists y, buffered s r y /\ (vf_stage y <= now + c_clk c -> wants c s r (now + c_clk c) = true))
    as (y & Hy & Hst).
  { unfold held in Hr. destruct (r_int s r) as [|y q] eqn:Ei.
    - destruct (r_vcs s r) as [|y q] eqn:Ev; [done|]. exists y. split; [left; rewrite Ev; left|].
      intros Hst. unfold wants. rewrite Ev, (need_stage_front y q now), orb_true_r; [done|lia| |done].
      intros z Hz. apply (H4 r). left. by rewrite Ev.
    - exists y. split; [right; rewrite Ei; left|]. intros Hst. unfold wants.
      destruct (usesInternalIngressPipeline c) eqn:Eu; [|by rewrite (fi_int _ _ _ Hf r Eu) in Ei].
      rewrite Ei, (need_stage_front y q now); [done|lia| |done]. intros z Hz. apply (H4 r). right. by rewrite Ei. }
  destruct (Z.lt_ge_cases (now + c_clk c) (vf_stage y)).
  - exists (vf_stage y). by apply (H5 r).
  - exists (now + c_clk c). apply (H6 r Hin). by apply Hst.
Qed.

(** ** Theorems *)

(** C24: From a reachable state the router's next wakeup succeeds: no assertion, panic
    or fatal of the input units, the output units, the internal pools, the allocator
    or the crossbar is reached.  Reachable means: flits come in whole packets on each input
    VC and have a configured route, a credit comes back only for a flit that was sent, and
    wakeups run in the order of their ticks. *)
Theorem router_no_fault s raw given now tick : reach s raw given now ->
  tick ∈ r_wake s -> (forall w, w ∈ r_wake s -> tick <= w) ->
  exists s', processCurrentEvent c tick s = Ok s'.
Proof using Hclk Hpipe Hmax.
  intros [Hs Hl]%reach_inv Hin Hmin. destruct (event_ok _ _ _ _ _ Hs Hl Hin Hmin) as (s' & E & _). eauto.
Qed.

(** The router loses, duplicates and reorders nothing.  The flits put on the link
    of an input VC are, in order, those granted from it, those in its buffers and
    those still on the link; what left through an output are the grants of that
    output, and every grant is for the output its flit's route names. *)
Theorem router_in_order s raw given now : reach s raw given now ->
  (forall r, increment_hops <$> raw r =
     from r (r_trace s) ++ held s r ++ (increment_hops <$> link_flits s r)) /\
  (forall o, r_out s o = sent_on o (r_trace s)) /\
  (forall o r f, (o, r, f) ∈ r_trace s -> dest c f r.2 o).
Proof using Hclk Hpipe Hmax.
  intros [[(arr & [Hf _] & Ha) _ _ _ _ _ Ho] _]%reach_inv. split; [|split; [done|apply Hf]].
  intros r. by rewrite Ha, <- (fi_flow _ _ _ Hf r), <- app_assoc.
Qed.

(** C6: Packets do not interleave: the flits sent on a virtual channel of an output are
    whole packets one after the other, followed by the beginning of at most one
    more, although packets of several inputs compete for it. *)
Theorem router_whole_packets s raw given now k : reach s raw given now ->
  exists ps, Forall is_packet ps /\ sent s k = mjoin ps ++ cur (sent s k) /\ partial (cur (sent s k)).
Proof using Hclk Hpipe Hmax.
  intros [Hs _]%reach_inv. rewrite (sent_outs _ _ _ _ Hs). apply pstream_packets.
  destruct Hs as [(arr & [Hf _] & _) _ _ _ _ _ _]. apply Hf.
Qed.

(** A consumer's buffer never overflows: the flits sent on a virtual channel exceed
    the credits the consumer returned by at most the depth of its buffer. *)
Theorem router_respects_credits s raw given now k : reach s raw given now ->
  nz (length (sent s k)) <= c_max c k + given k.
Proof using Hclk Hpipe Hmax.
  intros [Hs _]%reach_inv. rewrite (sent_outs _ _ _ _ Hs).
  destruct Hs as [(arr & [_ Hr] & _) _ _ _ _ _ _].
  pose proof (ri_account _ _ _ Hr k). pose proof (ri_credit _ _ _ Hr k). unfold in_flight in *. lia.
Qed.

(** C31: The router never sleeps on a flit: while a flit is on an incoming link, in an
    input VC or in an internal pool, a wakeup is scheduled. *)
Theorem router_stays_awake s raw given now : reach s raw given now ->
  (exists i, r_link s i <> []) \/ (exists r, held s r <> []) ->
  exists w, w ∈ r_wake s /\ now <= w.
Proof using Hclk Hpipe Hmax.
  intros [Hs Hl]%reach_inv Hne. pose proof Hl as [H1 H2 H3 _ _ _ _].
  enough (exists w, w ∈ r_wake s) as [w Hw] by eauto.
  destruct Hne as [[i Hi]|[r Hr]].
  - destruct (r_link s i) as [|[f t] q] eqn:El; [done|]. destruct (Z.lt_ge_cases now t).
    + exists t. apply (H2 i f); [rewrite El; left|done].
    + destruct (H3 i f t q El); eauto.
  - destruct (sy_safe _ _ _ Hs) as (arr & [Hf _] & _). by apply (held_awake arr s r now).
Qed.

(** An arbitration of a reachable router grants each output at most once and serves
    each input at most once, and it is work-conserving: a flit that is ready, has a
    credit and is not blocked by another packet loses only to another grant of its
    output or of its input. *)
Theorem allocator_work_conserving s raw given now tick : reach s raw given now ->
  exists s' g, allocator_wakeup c tick s = Ok s' /\ r_trace s' = r_trace s ++ g /\
    NoDup (g_outs g) /\ NoDup (g_ins g) /\
    forall o r x, ready c tick o r x s -> r.1 ∈ g_ins g \/ o ∈ g_outs g.
Proof using Hclk Hpipe Hmax.
  intros [Hs _]%reach_inv. destruct (sy_safe _ _ _ Hs) as (arr & Hsafe & _).
  destruct (allocator_wakeup_ok c arr given tick s Hsafe (sy_xbar _ _ _ Hs)) as (s' & g & E & Ha).
  exists s', g. destruct Ha. split; [done|]. split; [done|]. split; [done|]. split; [done|].
  intros o r x Hr. apply (al_busy o r x); [apply Hr|done].
Qed.

End Reach.
