(* ===== verification/RouterFair.v ===== *)
(** * Fairness of the pass-through switches

    The outputs are looked at in an order that rotates every cycle, and each has an LRU
    list of requesters.  When a requester's output is looked at first, another requester
    that takes it was ahead and goes to the back of the list; in any other cycle the
    requester keeps its place; requesters seen for the first time only take places nobody
    had.  A requester that is ready in every cycle is therefore served after a bounded
    number of cycles. *)

From stdpp Require Import functions.
From S2P Require Import Prelude NppReceive Flit Router Stream RouterSafety RouterReach.

(** Entries before [r]; [0] for a requester that is not in the list. *)
Fixpoint ahead (r : req) (l : list req) : nat :=
  match l with
  | [] => 0
  | y :: l => if decide (y = r) then 0 else if decide (r ∈ l) then S (ahead r l) else 0
  end%nat.

Lemma ahead_split r l1 l2 : r ∉ l1 -> ahead r (l1 ++ r :: l2) = length l1.
Proof.
  induction l1 as [|y l1 IH]; intros Hr; cbn; [by rewrite decide_True|].
  rewrite decide_False by (intros ->; apply Hr; left).
  rewrite decide_True by (apply elem_of_app; right; left).
  rewrite IH; [done|]. intros H. apply Hr. by right.
Qed.

Lemma ahead_absent r l : r ∉ l -> ahead r l = 0%nat.
Proof.
  destruct l as [|y l]; [done|]. intros Hr. cbn.
  rewrite !decide_False; [done|intros H; apply Hr; by right|intros ->; apply Hr; left].
Qed.

Lemma elem_split (r : req) l : r ∈ l -> exists l1 l2, l = l1 ++ r :: l2 /\ r ∉ l1.
Proof.
  induction l as [|y l IH]; intros H; [by apply not_elem_of_nil in H|].
  destruct (decide (y = r)) as [->|Hne]. { exists [], l. split; [done|]. by intros ?%not_elem_of_nil. }
  apply elem_of_cons in H as [H|H]; [by subst|]. destruct (IH H) as (l1 & l2 & -> & Hn).
  exists (y :: l1), l2. split; [done|]. by intros [?|?]%elem_of_cons.
Qed.

Section Fair.
Context {M : Type} (c : rcfg).
Hypothesis Hpipe : 1 <= c_pipe c.
Hypothesis Hclk : 0 < c_clk c.
Hypothesis Hmax : forall k, 0 <= c_max c k.
Hypothesis Hpass : isPassThrough c = true.
Implicit Types (s : router (M := M)) (r : req).

Definition requesters : nat := (c_in c * c_vcs c)%nat.

(** How many requesters [r] may still have to let pass on output [o]. *)
Definition rank (s : router (M := M)) (o : nat) (r : req) : Z :=
  nz requesters - nz (length (r_lru s o)) + nz (ahead r (r_lru s o)).

Lemma length_all_reqs : length (all_reqs c) = requesters.
Proof.
  unfold all_reqs, requesters.
  assert (Hin : forall (i : nat) l, length (v ← l; [(i, v)]) = length (l : list nat)).
  { intros i l. induction l as [|v l IH]; [done|]. cbn. by rewrite <- IH. }
  assert (Hout : forall l, length (i ← l; v ← seq 0 (c_vcs c); [(i, v)]) = (length (l : list nat) * c_vcs c)%nat).
  { induction l as [|i l IH]; [done|]. rewrite bind_cons, length_app, IH, Hin, length_seq. done. }
  by rewrite Hout, length_seq.
Qed.

Lemma lru_length arr given s o : safe c arr given s -> (length (r_lru s o) <= requesters)%nat.
Proof.
  intros [_ Hr]. rewrite <- length_all_reqs. apply submseteq_length, NoDup_submseteq; [apply Hr|].
  intros r H. apply elem_all_reqs. by eapply Hr.
Qed.

Lemma ahead_le r l : (ahead r l <= length l)%nat.
Proof. induction l as [|y l IH]; cbn; [done|]. repeat case_decide; lia. Qed.

(** Requesters seen for the first time do not increase the rank. *)
Lemma rank_admit r (new l : list req) : NoDup (new ++ l) -> r ∈ new ++ l ->
  nz (ahead r (new ++ l)) - nz (length (new ++ l)) <= nz (ahead r l) - nz (length l).
Proof.
  intros Hn Hin. rewrite length_app. apply elem_of_app in Hin as [Hin|Hin].
  - apply NoDup_app in Hn as (_ & Hd & _). rewrite (ahead_absent r l) by by apply Hd.
    apply elem_split in Hin as (l1 & l2 & -> & Hr). rewrite <- app_assoc. cbn.
    rewrite ahead_split by done. rewrite length_app. cbn. lia.
  - apply NoDup_app in Hn as (_ & Hd & _). apply elem_split in Hin as (l1 & l2 & -> & Hr).
    rewrite app_assoc, !ahead_split, length_app; [lia|done|].
    intros [H|H]%elem_of_app; [|done]. apply (Hd _ H). apply elem_of_app. right. left.
Qed.

Lemma without_split w (l1 l2 : list req) : NoDup (l1 ++ w :: l2) -> without_req w (l1 ++ w :: l2) = l1 ++ l2.
Proof.
  intros (_ & Hd & Hn)%NoDup_app. apply NoDup_cons in Hn as [Hw Hn].
  unfold without_req. rewrite filter_app, filter_cons, decide_False by (intros H; by apply H).
  rewrite !filter_all; [done| |].
  - intros y Hy ->. done.
  - intros y Hy ->. apply (Hd _ Hy). left.
Qed.

Lemma split_unique (w : req) l1 l2 k1 k2 : l1 ++ w :: l2 = k1 ++ w :: k2 -> NoDup (l1 ++ w :: l2) -> l1 = k1 /\ l2 = k2.
Proof.
  revert k1. induction l1 as [|y l1 IH]; intros [|z k1] E Hn; cbn in *; injection E; intros; subst.
  - done.
  - apply NoDup_cons in Hn as [Hn _]. exfalso. apply Hn, elem_of_app. right. left.
  - apply NoDup_cons in Hn as [Hn _]. exfalso. apply Hn, elem_of_app. right. left.
  - apply NoDup_cons in Hn as [_ Hn]. by destruct (IH k1) as [-> ->].
Qed.

(** A requester that was ahead and is granted goes to the back. *)
Lemma rank_grant r w (l l1 l2 : list req) : NoDup l -> l = l1 ++ w :: l2 -> r ∈ l -> r ∉ l1 -> r <> w ->
  (S (ahead r (without_req w l ++ [w])) = ahead r l)%nat /\ length (without_req w l ++ [w]) = length l.
Proof.
  intros Hn -> Hin Hl1 Hne. rewrite (without_split w l1 l2 Hn). apply elem_of_app in Hin as [?|[?|Hin]%elem_of_cons]; [done|done|].
  apply elem_split in Hin as (k1 & k2 & -> & Hk). split.
  - replace ((l1 ++ k1 ++ r :: k2) ++ [w]) with ((l1 ++ k1) ++ r :: (k2 ++ [w]))
      by (rewrite <- !app_assoc; done).
    replace (l1 ++ w :: k1 ++ r :: k2) with ((l1 ++ w :: k1) ++ r :: k2) by (rewrite <- !app_assoc; done).
    rewrite !ahead_split, !length_app; [cbn; lia| |].
    + intros [?|[?|?]%elem_of_cons]%elem_of_app; done.
    + intros [?|?]%elem_of_app; done.
  - rewrite !length_app. cbn. rewrite !length_app. cbn. lia.
Qed.

(** A requester that is ahead and is not granted keeps its place. *)
Lemma rank_skip r w (l l1 l2 : list req) : NoDup l -> l = l1 ++ w :: l2 -> r ∈ l1 ->
  ahead r (without_req w l ++ [w]) = ahead r l /\ length (without_req w l ++ [w]) = length l.
Proof.
  intros Hn -> Hin. rewrite (without_split w l1 l2 Hn). apply NoDup_app in Hn as (_ & Hd & Hn).
  apply elem_split in Hin as (k1 & k2 & -> & Hk). split.
  - rewrite <- !app_assoc. cbn. by rewrite !ahead_split.
  - rewrite !length_app. cbn. lia.
Qed.

Lemma check_for_wakeup_lru tick (t : router (M := M)) : r_lru (check_for_wakeup c tick t) = r_lru t /\ r_trace (check_for_wakeup c tick t) = r_trace t.
Proof. destruct (check_for_wakeup_spec c tick t) as (w & -> & _). done. Qed.

Lemma rotated_head first n : (first < n)%nat -> head (rotated first n) = Some first.
Proof. intros H. unfold rotated. destruct n; [lia|]. cbn [seq fmap list_fmap head]. by rewrite Nat.add_0_r, Nat.mod_small. Qed.

Lemma from_same r (tr g : list (nat * req * flit M)) : from r (tr ++ g) = from r tr -> from r g = [].
Proof.
  unfold from. rewrite filter_app, fmap_app. intros E%(f_equal length). rewrite length_app in E.
  apply length_zero_iff_nil. lia.
Qed.

Lemma from_none r (g : list (nat * req * flit M)) o f : from r g = [] -> (o, r, f) ∉ g.
Proof.
  unfold from. intros E H. apply fmap_nil_inv in E. apply (not_elem_of_nil (o, r, f)). rewrite <- E. by apply list_elem_of_filter.
Qed.

(** The LRU list of output [o] after the output was looked at. *)
Record looked (o : nat) (r : req) (l0 l : list req) (first : bool) : Prop := {
  lk_cases : (l = l0 /\ first = false) \/
    exists w l1 l2, w <> r /\ l = without_req w l0 ++ [w] /\ l0 = l1 ++ w :: l2 /\ (first = true -> r ∉ l1)
}.

(** One pass of the grant loop in which [r] asks for [o] and gets nothing. *)
Lemma passOutputs_looked tick s0 reqs L acc g arr given o r : passed c arr given tick s0 reqs L acc g ->
  NoDup (r_lru s0 o) -> r ∈ reqs o -> from r g = [] ->
  looked o r (r_lru s0 o) (r_lru acc.1.1 o) (bool_decide (head L = Some o)).
Proof.
  intros [Hc _ Hl Hw Hf] Hnd Hin Hg. split. destruct (decide (o ∈ g_outs g)) as [Ho|Ho].
  - right. unfold g_outs in Ho. apply list_elem_of_fmap in Ho as ([[o' w] f] & -> & He). cbn in *.
    destruct (Hw _ _ _ He) as (_ & Hl' & l1 & l2 & E3 & _). exists w, l1, l2.
    split; [intros ->; by apply (from_none r g o' f)|]. split; [done|]. split; [done|].
    intros Hh%bool_decide_eq_true Hr1. destruct (Hf o' r Hh Hin) as (w' & f' & He' & k1 & k2 & E4 & Hk).
    pose proof (cy_outs _ _ _ _ _ _ _ _ _ Hc) as Ho.
    assert (w' = w) as ->.
    { apply list_elem_of_lookup in He as [i Hi], He' as [j Hj].
      assert (i = j) as <- by (eapply (NoDup_lookup _ _ _ o' Ho); unfold g_outs; by rewrite list_lookup_fmap, ?Hi, ?Hj). congruence. }
    rewrite E3 in E4, Hnd. apply split_unique in E4 as [-> ->]; [|done]. specialize (Hk r Hr1 Hin). done.
  - left. split; [by apply Hl|]. apply bool_decide_eq_false. intros Hh. destruct (Hf o r Hh Hin) as (w & f & He & _).
    by apply Ho, (elem_g_outs g o w f).
Qed.

(** An arbitration in which [r] asks for [o] and gets nothing does not move [r] back; it
    moves [r] forward when [o] is the output looked at first. *)
Lemma lost_rank arr given tick b a o r x : safe c arr given b -> (forall i, r_xbar b i = []) ->
  ready c tick o r x b -> allocator_wakeup c tick b = Ok a -> from r (r_trace a) = from r (r_trace b) ->
  rank a o r + (if decide (first_outport c tick = o) then 1 else 0) <= rank b o r.
Proof using Hpass.
  intros Hs Hx Hr Ea Et. unfold allocator_wakeup in Ea. rewrite Hpass in Ea. unfold passWakeup in Ea.
  destruct (passRequests_ok c arr given tick b Hs) as ([s0 reqs] & E1 & [(l & El & Hnew) Hs0 Hq Hall]).
  rewrite E1 in Ea. cbn in Ea, El, Hs0, Hq, Hall.
  destruct (passOutputs_ok c arr given tick s0 reqs Hpass) with (L := rotated (first_outport c tick) (c_outs c))
    as ([[s1 served] gr] & g & E2 & Hpa); [|done|by rewrite El|apply rotated_NoDup|].
  { intros o' r' Hr'. destruct (Hq _ _ Hr') as [[y Hy] ?]. split; [|done]. exists y. rewrite El.
    by apply (elig_view c _ _ _ _ b). }
  rewrite E2 in Ea. cbn in Ea. injection Ea as <-.
  destruct (check_for_wakeup_lru tick (if gr then schedule_wakeup c tick 1 s1 else s1)) as [Hlru Htr].
  unfold rank. rewrite Hlru. rewrite Htr in Et.
  replace (r_lru (if gr then schedule_wakeup c tick 1 s1 else s1)) with (r_lru s1) by by destruct gr.
  replace (r_trace (if gr then schedule_wakeup c tick 1 s1 else s1)) with (r_trace s1) in Et by by destruct gr.
  pose proof (cy_trace _ _ _ _ _ _ _ _ _ (pa_cycle _ _ _ _ _ _ _ _ _ Hpa)) as Htr1. cbn in Htr1. rewrite Htr1, El in Et.
  cbn in Et. apply from_same in Et.
  pose proof (Hall o r x (ready_range _ _ _ _ _ _ _ _ Hs Hr) Hr) as Hin. pose proof (ri_lru _ _ _ (proj2 Hs0) o) as Hnd.
  destruct (Hq _ _ Hin) as [_ Hrl]. destruct (Hnew o) as (new & En & _).
  assert (En' : r_lru s0 o = new ++ r_lru b o) by (by rewrite El).
  pose proof (rank_admit r new (r_lru b o) ltac:(by rewrite <- En') ltac:(by rewrite <- En')) as Hadm. rewrite <- En' in Hadm.
  destruct (passOutputs_looked _ _ _ _ _ _ _ _ o r Hpa Hnd Hin Et) as [[[Hl Hf]|(w & l1 & l2 & Hw & Hl & E3 & Hf)]]; cbn in Hl; rewrite Hl.
  - destruct (decide (first_outport c tick = o)) as [Ho|Ho]; [|lia]. apply bool_decide_eq_false in Hf. destruct Hf. rewrite Ho. apply rotated_head. subst o. apply Hr.
  - destruct (decide (first_outport c tick = o)) as [Ho|Ho].
    + destruct (rank_grant r w _ l1 l2 Hnd E3 Hrl) as [A1 A2]; [|done|lia]. apply Hf, bool_decide_eq_true.
      rewrite Ho. apply rotated_head. subst o. apply Hr.
    + destruct (decide (r ∈ l1)); [destruct (rank_skip r w _ l1 l2 Hnd E3) as [A1 A2]; [done|lia]|].
      destruct (rank_grant r w _ l1 l2 Hnd E3 Hrl) as [A1 A2]; [done|done|lia].
Qed.

(** ** The wakeups of a run *)

(** [router_wakeup] up to the arbitration; [None] when this tick had one already. *)
Definition before_arbitration (tick : Z) (s : router (M := M)) : res (option (router (M := M))) :=
  let* s := foldM (nocwakeup c tick) (put_wake (r_wake s ∖ {[tick]}) s) (seq 0 (c_in c)) in
  let* s := foldM (output_unit_wakeup c tick) s (seq 0 (c_outs c)) in
  let s := if r_last s =? tick then s else put_core tick false s in
  if r_done s then Ok None else
  let* s := if usesInternalIngressPipeline c then stageInternalIngressFlits c tick s else Ok s in
  Ok (Some s).

(** The wakeup at [tick] arbitrates, [r] has a flit that may go to [o], and no flit of [r]
    is granted. *)
Definition loses (tick : Z) (o : nat) (r : req) (s : router (M := M)) : Prop :=
  exists b a x, before_arbitration tick s = Ok (Some b) /\ ready c tick o r x b /\
    allocator_wakeup c tick b = Ok a /\ from r (r_trace a) = from r (r_trace b).

Definition next_event (tick : Z) (s : router (M := M)) : Prop :=
  tick ∈ r_wake s /\ forall w, w ∈ r_wake s -> tick <= w.

(** [waits o r n s raw given now]: a run with [n] arbitrations of [r] for [o], on the clock
    edges of the router, that [r] all lost; its steps are those of [reach]. *)
Inductive waits (o : nat) (r : req) : nat -> router (M := M) -> (req -> list (flit M)) -> (nat * nat -> Z) -> Z -> Prop :=
  | waits_first s raw given now tick s' :
      reach c s raw given now -> next_event tick s -> (c_clk c | tick) -> loses tick o r s ->
      processCurrentEvent c tick s = Ok s' -> waits o r 1 s' raw given tick
  | waits_more n s raw given now tick s' :
      waits o r n s raw given now -> next_event tick s -> (c_clk c | tick) -> loses tick o r s ->
      processCurrentEvent c tick s = Ok s' -> waits o r (S n) s' raw given tick
  | waits_again n s raw given now tick s' :
      waits o r n s raw given now -> next_event tick s -> before_arbitration tick s = Ok None ->
      processCurrentEvent c tick s = Ok s' -> waits o r n s' raw given tick
  | waits_flit n s raw given now i f t :
      waits o r n s raw given now -> (i < c_in c)%nat -> 0 <= fl_vc f < nz (c_vcs c) ->
      (exists o, dest c f (zn (fl_vc f)) o) -> fits (cur (raw (i, zn (fl_vc f)))) f -> now <= t ->
      waits o r n (put_link (<[i := r_link s i ++ [(f, t)]]> (r_link s)) (put_wake ({[t]} ∪ r_wake s) s))
        (<[(i, zn (fl_vc f)) := raw (i, zn (fl_vc f)) ++ [f]]> raw) given now
  | waits_credit n s raw given now k v t :
      waits o r n s raw given now -> given (k, v) < nz (length (sent s (k, v))) -> now <= t ->
      waits o r n (put_clink (<[k := r_clink s k ++ [(v, t)]]> (r_clink s)) (put_wake ({[t]} ∪ r_wake s) s))
        raw (<[(k, v) := given (k, v) + 1]> given) now
  | waits_output_unit n s raw given now k tick s' :
      waits o r n s raw given now -> output_unit_wakeup c tick s k = Ok s' -> waits o r n s' raw given now.

Lemma waits_reach o r n s raw given now : waits o r n s raw given now -> reach c s raw given now.
Proof.
  induction 1 as [s raw given now tick s' H [H1 H2] _ _ E|n s raw given now tick s' _ IH [H1 H2] _ _ E
    |n s raw given now tick s' _ IH [H1 H2] _ E| | |].
  - by apply (reach_event c s raw given now).
  - by apply (reach_event c s raw given now).
  - by apply (reach_event c s raw given now).
  - by apply reach_flit.
  - by apply reach_credit.
  - by eapply reach_output_unit.
Qed.

(** *** Nothing but the arbitration touches the LRU lists *)

Lemma output_unit_keeps tick s k s' : output_unit_wakeup c tick s k = Ok s' ->
  (r_lru s', r_wake s', r_last s', r_done s') = (r_lru s, r_wake s, r_last s, r_done s).
Proof.
  unfold output_unit_wakeup. destruct (r_clink s k) as [|[v t] q]; [by intros [= <-]|].
  destruct (tick <? t); [by intros [= <-]|]. intros [_ E]%guard_Ok. by injection E as <-.
Qed.

(** The LRU lists stay and no wakeup is dropped. *)
Definition kept (s s' : router (M := M)) : Prop :=
  (r_lru s', r_last s', r_done s') = (r_lru s, r_last s, r_done s) /\ r_wake s ⊆ r_wake s'.
#[local] Instance kept_preorder : PreOrder kept.
Proof. split; [done|]. intros a b d [A1 A2] [B1 B2]. split; [congruence|]. by etrans. Qed.

Lemma nocwakeup_kept tick s i s' : nocwakeup c tick s i = Ok s' -> kept s s'.
Proof.
  unfold nocwakeup. destruct (r_link s i) as [|[f t] q]; [by intros [= <-]|].
  destruct (tick <? t); [by intros [= <-]|]. intros [_ E]%guard_Ok. apply rbind_Ok in E as (s1 & E1 & E2).
  assert (forall k s, kept s (schedule_wakeup c tick k s)) as Hk by (intros k u; split; [done|]; unfold schedule_wakeup; cbn; apply union_subseteq_r).
  trans s1.
  { destruct (c_pipe c =? 1); [injection E1 as <-|apply guard_Ok in E1 as [_ E1]; injection E1 as <-];
      exact (Hk _ (put_vcs _ (put_link _ s))). }
  destruct q as [|[f2 t2] q]; [by injection E2 as <-|]. destruct (t2 <=? tick); injection E2 as <-; [apply Hk|done].
Qed.

Lemma stageVc_lru tick s r s' : stageVc c tick s r = Ok (Some s') -> r_lru s' = r_lru s.
Proof.
  unfold stageVc. destruct (negb _); [done|]. intros [_ E]%guard_Ok.
  destruct (_ =? _); [by injection E as <-|]. apply guard_Ok in E as [_ E]. destruct (r_vcs s r) as [|x q] eqn:Ev; [done|].
  apply rbind_Ok in E as (p & _ & E). apply rbind_Ok in E as ([y s1] & E1 & E). unfold getTopFlit in E1. rewrite Ev in E1.
  injection E1 as <- <-. injection E as <-. by destruct (0 <? _).
Qed.

Lemma stageInternal_lru tick s s' : stageInternalIngressFlits c tick s = Ok s' -> r_lru s' = r_lru s.
Proof.
  intros E. apply (foldM_inv (fun t => r_lru t = r_lru s)) in E; [done| |done]. clear. intros t i t' _ <-.
  generalize (rotated (r_nextvc t i) (c_vcs c)). intros l. induction l as [|v l IH]; cbn; [by intros [= <-]|].
  intros (x & E & H)%rbind_Ok. destruct x as [t1|]; [|by apply IH]. injection H as <-. by apply stageVc_lru in E.
Qed.

(** The part of a wakeup that is always run. *)
Lemma inputs_kept tick s s1 s2 : foldM (nocwakeup c tick) s (seq 0 (c_in c)) = Ok s1 ->
  foldM (output_unit_wakeup c tick) s1 (seq 0 (c_outs c)) = Ok s2 -> kept s s2.
Proof.
  intros E1 E2. apply (foldM_inv (kept s)) in E1; [|intros t i t' _ Ht H%nocwakeup_kept; by trans t|done].
  apply (foldM_inv (kept s)) in E2; [done| |done]. intros t i t' _ [Ht1 Ht2] H%output_unit_keeps. injection H as H1 H2 H3 H4.
  unfold kept. by rewrite H1, H2, H3, H4.
Qed.

Lemma crossbar_keeps tick s : (r_lru (crossbar_wakeup c tick s), r_wake (crossbar_wakeup c tick s)) = (r_lru s, r_wake s).
Proof.
  unfold crossbar_wakeup. revert s. induction (seq 0 (c_in c)) as [|i l IH]; intros s; [done|]. cbn. rewrite IH.
  unfold crossbarInput. destruct (r_xbar s i) as [|[o x] q]; [done|]. by destruct (_ && _).
Qed.

(** ** One lost arbitration in a run *)

Lemma before_split tick s b : before_arbitration tick s = Ok b -> exists s1 s2,
  foldM (nocwakeup c tick) (put_wake (r_wake s ∖ {[tick]}) s) (seq 0 (c_in c)) = Ok s1 /\
  foldM (output_unit_wakeup c tick) s1 (seq 0 (c_outs c)) = Ok s2 /\
  let s3 := if r_last s2 =? tick then s2 else put_core tick false s2 in
  match b with
  | None => r_done s3 = true
  | Some b => r_done s3 = false /\ (if usesInternalIngressPipeline c then stageInternalIngressFlits c tick s3 else Ok s3) = Ok b
  end.
Proof.
  unfold before_arbitration. intros E. apply rbind_Ok in E as (s1 & E1 & E). apply rbind_Ok in E as (s2 & E2 & E).
  exists s1, s2. split; [done|]. split; [done|]. cbv zeta in *. destruct (r_done _) eqn:Hd; [by injection E as <-|].
  apply rbind_Ok in E as (s3 & E3 & [= <-]). done.
Qed.

(** The state in which the arbitration runs. *)
Lemma before_safe raw given now tick s b : sys_inv c raw given s -> live c now s -> next_event tick s ->
  before_arbitration tick s = Ok (Some b) ->
  r_lru b = r_lru s /\ (forall i, r_xbar b i = []) /\ exists arr, safe c arr given b.
Proof using Hclk Hpipe.
  intros Hs Hl [Hin Hmin] (s1 & s2 & E1 & E2 & _ & E3)%before_split.
  destruct (inputs_kept _ _ _ _ E1 E2) as [Hk _]. injection Hk as Hk _ _. pose proof (waking_start c Hclk _ _ _ Hl Hin Hmin) as Hw.
  destruct (inputs_ok c Hpipe Hclk raw given now tick (put_wake (r_wake s ∖ {[tick]}) s)) as (s1' & E & Hs1 & Hw1);
    [by apply (sys_inv_view _ _ _ s)|done|]. rewrite E1 in E. injection E as <-.
  destruct (outputs_ok c _ _ _ _ _ _ Hs1 Hw1) as (s2' & E & Hs2 & Hw2). rewrite E2 in E. injection E as <-.
  set (s3 := if r_last s2 =? tick then s2 else put_core tick false s2) in *.
  assert (sys_inv c raw given s3 /\ r_lru s3 = r_lru s) as [Hs3 Hk3].
  { subst s3. destruct (_ =? _); [done|]. split; [by apply (sys_inv_view _ _ _ s2)|done]. }
  destruct (sy_safe _ _ _ _ Hs3) as (arr & Hsafe & _). pose proof (sy_xbar _ _ _ _ Hs3) as Hx.
  destruct (usesInternalIngressPipeline c) eqn:Hi.
  - destruct (stageInternal_ok c arr given Hclk tick s3 Hi Hsafe) as (b' & E & Hst). rewrite E3 in E. injection E as <-.
    pose proof (st_frame _ _ _ _ _ _ Hst) as Hf. injection Hf as _ _ _ Hf _ _ _.
    rewrite (stageInternal_lru _ _ _ E3), Hf. split; [done|]. split; [done|]. exists arr. apply Hst.
  - injection E3 as <-. split; [done|]. split; [done|]. by exists arr.
Qed.

Lemma event_arbitrates tick s b a s' : before_arbitration tick s = Ok (Some b) -> allocator_wakeup c tick b = Ok a ->
  processCurrentEvent c tick s = Ok s' -> r_lru s' = r_lru a /\ r_wake s' = r_wake a /\ r_done s' = true.
Proof.
  intros (s1 & s2 & E1 & E2 & Hd & E3)%before_split Ea. unfold processCurrentEvent, router_wakeup. rewrite E1. cbn [rbind]. rewrite E2.
  cbn [rbind]. rewrite Hd. unfold core_logic. rewrite E3. cbn [rbind]. rewrite Ea. cbn [rbind]. intros [= <-].
  pose proof (crossbar_keeps tick a) as H. injection H as H1 H2. cbn. by rewrite H1, H2.
Qed.

Lemma event_again raw given now tick s s' : sys_inv c raw given s -> live c now s -> next_event tick s ->
  before_arbitration tick s = Ok None -> processCurrentEvent c tick s = Ok s' ->
  tick = now /\ r_lru s' = r_lru s /\ r_done s' = true /\ forall w, tick < w -> w ∈ r_wake s -> w ∈ r_wake s'.
Proof using Hclk Hpipe.
  intros Hs Hl [Hin Hmin] (s1 & s2 & E1 & E2 & Hd)%before_split. pose proof (inputs_kept _ _ _ _ E1 E2) as [Hk1 Hk2]. injection Hk1 as Hk1 _ _.
  pose proof (waking_start c Hclk _ _ _ Hl Hin Hmin) as Hw.
  destruct (inputs_ok c Hpipe Hclk raw given now tick (put_wake (r_wake s ∖ {[tick]}) s)) as (s1' & E & Hs1 & Hw1);
    [by apply (sys_inv_view _ _ _ s)|done|]. rewrite E1 in E. injection E as <-.
  destruct (outputs_ok c _ _ _ _ _ _ Hs1 Hw1) as (s2' & E & _ & Hw2). rewrite E2 in E. injection E as <-.
  unfold processCurrentEvent, router_wakeup. rewrite E1. cbn [rbind]. rewrite E2. cbn [rbind].
  cbv zeta in Hd. destruct (Z.eqb_spec (r_last s2) tick) as [El|El]; [|done]. rewrite Hd. intros [= <-].
  assert (forall w, tick < w -> w ∈ r_wake s -> w ∈ r_wake s2) as Hw'.
  { intros w Hlt Hw'. apply Hk2. cbn. apply elem_of_difference. split; [done|]. rewrite elem_of_singleton. lia. }
  split; [rewrite <- El; by apply Hw2|]. destruct (_ && _); cbn; split_and!; try done.
  intros w Hlt Hws. apply elem_of_union_r. by apply Hw'.
Qed.

(** A requester that gets nothing keeps its flits, so the router wakes up again. *)
Lemma lost_wakes arr given tick (b a : router (M := M)) o r x : safe c arr given b -> (forall i, r_xbar b i = []) ->
  ready c tick o r x b -> allocator_wakeup c tick b = Ok a -> from r (r_trace a) = from r (r_trace b) ->
  tick + c_clk c ∈ r_wake a.
Proof using Hclk.
  intros Hs Hx Hr Ea Et. destruct (allocator_wakeup_ok c arr given tick b Hs Hx) as (a' & g & E & Ha).
  rewrite Ea in E. injection E as <-. pose proof (ready_range _ _ _ _ _ _ _ _ Hs Hr) as Hin. apply (al_next _ _ _ _ _ _ _ Ha r Hin).
  destruct (al_suffix _ _ _ _ _ _ _ Ha r) as [[k1 S1] [k2 S2]].
  assert (length (held a r) = length (held b r)) as Hlen.
  { pose proof (fi_flow _ _ _ (proj1 Hs) r) as F1. pose proof (fi_flow _ _ _ (proj1 (al_safe _ _ _ _ _ _ _ Ha)) r) as F2.
    rewrite <- F1, Et in F2. by apply app_inv_head in F2 as ->. }
  unfold held in Hlen. rewrite S1, S2 in Hlen. rewrite !length_app, !length_fmap, !length_app in Hlen.
  assert (k1 = [] /\ k2 = []) as [-> ->] by (split; apply length_zero_iff_nil; lia). cbn in S1, S2.
  destruct Hr as [[[q Hq] _ _ _ Ht] Hst]. unfold wants, sa_queue in *. rewrite <- S1, <- S2.
  assert (need_stage (x :: q) (tick + c_clk c) = true) as Hn by (cbn; apply andb_true_iff; rewrite !Z.leb_le; lia).
  destruct (usesInternalIngressPipeline c); rewrite Hq, Hn; [done|]. by rewrite orb_true_r.
Qed.

Lemma lost_event raw given now tick o r s s' : reach c s raw given now -> next_event tick s -> loses tick o r s ->
  processCurrentEvent c tick s = Ok s' ->
  rank s' o r + (if decide (first_outport c tick = o) then 1 else 0) <= rank s o r /\
  tick + c_clk c ∈ r_wake s' /\ r_done s' = true /\ (o < c_outs c)%nat.
Proof using Hclk Hpipe Hmax Hpass.
  intros [Hs Hl]%reach_inv Hn (b & a & x & Eb & Hr & Ea & Et) E; [|done..].
  destruct (before_safe _ _ _ _ _ _ Hs Hl Hn Eb) as (Hb & Hx & arr & Hsafe).
  destruct (event_arbitrates _ _ _ _ _ Eb Ea E) as (H1 & H2 & H3). rewrite H2, H3.
  pose proof (lost_rank arr given tick b a o r x Hsafe Hx Hr Ea Et) as Hrank. unfold rank in *. rewrite Hb in Hrank. rewrite H1.
  split; [done|]. split; [by eapply lost_wakes|]. split; [done|]. apply Hr.
Qed.

(** Two arbitrations are not in the same tick. *)
Lemma arbitrates_once tick s b : before_arbitration tick s = Ok (Some b) -> r_done s = true -> r_last s <> tick.
Proof.
  intros (s1 & s2 & E1 & E2 & Hd & _)%before_split Hs Hl. destruct (inputs_kept _ _ _ _ E1 E2) as [Hk _]. cbn in Hk.
  injection Hk as _ K1 K2. rewrite K1, Hl, Z.eqb_refl, K2 in Hd. congruence.
Qed.

Lemma reach_now s raw given now : reach c s raw given now -> 0 <= now.
Proof using Hclk Hpipe Hmax.
  induction 1 as [| | |s raw given now tick s' H IH Hin _ _|]; try done.
  apply reach_inv in H as [_ Hl]; [|done..]. pose proof (lv_wake _ _ _ Hl _ Hin). lia.
Qed.

(** The cycles among the last [n] in which output [o] is looked at first. *)
Definition firsts (o n : nat) (now : Z) : Z :=
  (now / c_clk c - nz o) / nz (c_outs c) - (now / c_clk c - nz n - nz o) / nz (c_outs c).

Lemma window m k o : 0 <= o < m -> (k - o) / m = (k - 1 - o) / m + (if decide (k mod m = o) then 1 else 0).
Proof.
  intros Ho. pose proof (Z.div_mod (k - o) m ltac:(lia)) as E. pose proof (Z.mod_pos_bound (k - o) m ltac:(lia)) as Hb.
  set (q := (k - o) / m) in *. set (t := (k - o) mod m) in *. case_decide as Hk.
  - assert (t = 0) as Ht. { subst t. rewrite Zminus_mod, Hk, (Z.mod_small o) by lia. by rewrite Z.sub_diag, Z.mod_0_l by lia. }
    assert ((k - 1 - o) / m = q - 1) by (symmetry; apply (Z.div_unique _ _ _ (m - 1)); lia). lia.
  - assert (t <> 0). { intros Ht. apply Hk. symmetry. apply (Z.mod_unique _ _ q); lia. }
    assert ((k - 1 - o) / m = q) by (symmetry; apply (Z.div_unique _ _ _ (t - 1)); lia). lia.
Qed.

Lemma first_at tick o : 0 <= tick < 2 ^ 64 -> (o < c_outs c)%nat ->
  first_outport c tick = o <-> (tick / c_clk c) mod nz (c_outs c) = nz o.
Proof using Hclk.
  intros Ht Ho. unfold first_outport. destruct (Nat.eqb_spec (c_outs c) 0); [lia|].
  pose proof (Z.div_pos tick (c_clk c) ltac:(lia) Hclk). pose proof (Z.div_le_upper_bound tick (c_clk c) tick Hclk ltac:(nia)).
  unfold u64. rewrite (Z.mod_small (tick / c_clk c)) by lia. pose proof (Z.mod_pos_bound (tick / c_clk c) (nz (c_outs c)) ltac:(lia)). lia.
Qed.

Lemma firsts_more o n now tick : tick / c_clk c = now / c_clk c + 1 -> 0 <= tick < 2 ^ 64 -> (o < c_outs c)%nat ->
  firsts o (S n) tick = firsts o n now + (if decide (first_outport c tick = o) then 1 else 0).
Proof using Hclk.
  intros E Ht Ho. unfold firsts. rewrite (window (nz (c_outs c)) (tick / c_clk c) (nz o)) by lia.
  replace (tick / c_clk c - nz (S n) - nz o) with (now / c_clk c - nz n - nz o) by lia.
  replace (tick / c_clk c - 1 - nz o) with (now / c_clk c - nz o) by lia.
  destruct (decide (first_outport c tick = o)) as [F|F]; rewrite (first_at tick o Ht Ho) in F; case_decide; lia || done.
Qed.

Record waiting (o : nat) (r : req) (n : nat) (s : router (M := M)) (now : Z) : Prop := {
  wt_edge : (c_clk c | now);
  wt_wake : now + c_clk c ∈ r_wake s;
  wt_done : r_done s = true;
  wt_out : (o < c_outs c)%nat;
  wt_rank : now < 2 ^ 64 -> rank s o r + firsts o n now <= nz requesters
}.

Lemma waits_inv o r n s raw given now : waits o r n s raw given now -> waiting o r n s now.
Proof using Hclk Hpipe Hmax Hpass.
  induction 1 as [s raw given now tick s' H Hn He Hl E|n s raw given now tick s' H [I1 I2 I3 I4 I5] Hn He Hl E
    |n s raw given now tick s' H [I1 I2 I3 I4 I5] Hn Hb E|n s raw given now i f t H [I1 I2 I3 I4 I5]
    |n s raw given now k v t H [I1 I2 I3 I4 I5]|n s raw given now k tick s' H [I1 I2 I3 I4 I5] E].
  - destruct (lost_event _ _ _ _ _ _ _ _ H Hn Hl E) as (H1 & H2 & H3 & H4). split; try done. intros Hlt.
    pose proof (ahead_le r (r_lru s o)). pose proof (reach_now _ _ _ _ H). apply reach_inv in H as [_ Hlv]; [|done..].
    pose proof (lv_wake _ _ _ Hlv _ (proj1 Hn)). rewrite (firsts_more o 0 (tick - c_clk c) tick); [|rewrite <- (Z.mul_1_l (c_clk c)) at 2; rewrite <- Z.add_opp_r, <- Z.mul_opp_l, Z.div_add by lia; lia|lia|done].
    unfold firsts. rewrite Z.sub_0_r, Z.sub_diag. unfold rank in *. lia.
  - pose proof (waits_reach _ _ _ _ _ _ _ H) as Hr. destruct (lost_event _ _ _ _ _ _ _ _ Hr Hn Hl E) as (H1 & H2 & H3 & _).
    split; try done. intros Hlt. pose proof (reach_now _ _ _ _ Hr). apply reach_inv in Hr as [_ Hlv]; [|done..].
    pose proof (lv_wake _ _ _ Hlv _ (proj1 Hn)) as Hge. pose proof (proj2 Hn _ I2) as Hle.
    destruct Hl as (b & _ & _ & Hb & _). pose proof (arbitrates_once _ _ _ Hb I3) as Hne. rewrite (lv_core _ _ _ Hlv I3) in Hne.
    destruct I1 as [p ->], He as [q ->]. assert (q = p + 1) as -> by nia.
    rewrite (firsts_more o n (p * c_clk c)); [specialize (I5 ltac:(lia)); lia|by rewrite !Z.div_mul by lia|lia|done].
  - apply waits_reach in H. apply reach_inv in H as [Hs Hlv]; [|done..].
    destruct (event_again _ _ _ _ _ _ Hs Hlv Hn Hb E) as (-> & H1 & H2 & H3). split; try done; [apply H3; [lia|done]|].
    unfold rank in *. by rewrite H1.
  - split; try done. cbn. by apply elem_of_union_r.
  - split; try done. cbn. by apply elem_of_union_r.
  - apply output_unit_keeps in E. injection E as E1 E2 E3 E4. split; try done; [by rewrite E2|by rewrite E4|]. unfold rank in *. by rewrite E1.
Qed.

(** C32: Bounded waiting on the pass-through switches (NCRB, NIDB, RPTR).  Take a run in
    which a requester, an input VC, has at every arbitration a flit that may go to one output:
    the flit is in the switch stage, the output has a credit for the VC and no other
    requester holds the lock of the output VC.  If the router runs on its clock edges and ticks
    fit 64 bits, the requester loses fewer than
    outputs * ((input, VC) pairs + 1) arbitrations in a row, whether it is passed over for
    the output or its input serves another output. *)
Theorem pass_through_bounded_wait o r n s raw given now : waits o r n s raw given now -> now < 2 ^ 64 ->
  (n < c_outs c * (c_in c * c_vcs c + 1))%nat.
Proof using Hclk Hpipe Hmax Hpass.
  intros H Hlt. pose proof (waits_inv _ _ _ _ _ _ _ H) as [_ _ _ Ho Hr]. specialize (Hr Hlt).
  apply waits_reach, reach_inv in H as [Hs _]; [|done..]. destruct (sy_safe _ _ _ _ Hs) as (arr & Hsafe & _).
  pose proof (lru_length arr given s o Hsafe) as Hlen. unfold rank, firsts, requesters in *. set (m := nz (c_outs c)) in *.
  set (x := now / c_clk c - nz o) in *. replace (now / c_clk c - nz n - nz o) with (x - nz n) in Hr by (subst x; lia).
  pose proof (Z.div_mod x m ltac:(lia)). pose proof (Z.mod_pos_bound x m ltac:(lia)).
  pose proof (Z.div_mod (x - nz n) m ltac:(lia)). pose proof (Z.mod_pos_bound (x - nz n) m ltac:(lia)).
  apply Nat2Z.inj_lt. rewrite !Nat2Z.inj_mul, Nat2Z.inj_add, Nat2Z.inj_mul. fold m.
  assert (x / m - (x - nz n) / m <= nz (c_in c) * nz (c_vcs c)) by lia. nia.
Qed.

End Fair.
