(* ===== verification/RouterExample.v ===== *)
(** * A run of a two-input switch

    Two inputs send to one output over one virtual channel: a two-flit packet from
    network interface 1 and a one-flit packet from network interface 2.  The states of
    the run are computed; the theorems on reachable routers are applied to them. *)

From stdpp Require Import functions.
From S2P Require Import Prelude NppReceive Flit Router Stream RouterSafety RouterReach RouterFair.

Definition ex_cfg (t : Nps_Type) : rcfg :=
  mk_rcfg t 2 1 1 2 500 (addCustomRoutes 0 [(1, 9, 0); (2, 9, 0)] ∅) (fun _ => 5).

Definition ex_route (src : Z) : NocRouteInfo :=
  {| rt_vnet := 0; rt_src_ni := src; rt_src_router := 0; rt_dest_ni := 9; rt_dest_router := 1;
     rt_hops_traversed := 0 |}.
Definition ex_flit (src n i : Z) : flit unit := new_flit src i 0 0 (ex_route src) n ().

(** Putting a flit on a link, as the link does it. *)
Definition ex_put (i : nat) (f : flit unit) (t : Z) (s : router (M := unit)) : router :=
  put_link (<[i := r_link s i ++ [(f, t)]]> (r_link s)) (put_wake ({[t]} ∪ r_wake s) s).

Definition ex_links : router :=
  ex_put 1 (ex_flit 2 1 0) 500 (ex_put 0 (ex_flit 1 2 0) 500 (init (ex_cfg RPTR))).
Definition ex_s1 : router := ok_or ex_links (processCurrentEvent (ex_cfg RPTR) 500 ex_links).
Definition ex_s2 : router := ok_or ex_links (processCurrentEvent (ex_cfg RPTR) 1000 ex_s1).

Definition ex_sent (i : nat) (f : flit unit) (raw : req -> list (flit unit)) : req -> list (flit unit) :=
  <[(i, zn (fl_vc f)) := raw (i, zn (fl_vc f)) ++ [f]]> raw.
Definition ex_raw : req -> list (flit unit) :=
  ex_sent 1 (ex_flit 2 1 0) (ex_sent 0 (ex_flit 1 2 0) (fun _ => [])).

Lemma ex_fits src n : (0 < n)%nat -> fits [] (ex_flit src (nz n) 0).
Proof.
  intros Hn. exists (packet_flits src 0 0 (ex_route src) n ()). split; [by repeat eexists|].
  destruct n; [lia|]. exists (tail (packet_flits src 0 0 (ex_route src) (S n) ())). done.
Qed.

Lemma ex_put_reach i src n s raw given now :
  reach (ex_cfg RPTR) s raw given now -> now <= 500 -> (i < 2)%nat -> (0 < n)%nat ->
  (src = 1 \/ src = 2) -> cur (raw (i, 0%nat)) = [] ->
  reach (ex_cfg RPTR) (ex_put i (ex_flit src (nz n) 0) 500 s) (ex_sent i (ex_flit src (nz n) 0) raw) given now.
Proof.
  intros Hr Ht Hi Hn Hs Hc. apply reach_flit; [done..|cbn; lia| | |done].
  - exists 0%nat. split; [by destruct Hs; subst|cbn; lia].
  - change (fits (cur (raw (i, 0%nat))) (ex_flit src (nz n) 0)). rewrite Hc. by apply ex_fits.
Qed.

Lemma ex_links_reach : reach (ex_cfg RPTR) ex_links ex_raw (fun _ => 0) 0.
Proof.
  apply (ex_put_reach 1 2 1); [|lia|lia|lia|by right|done].
  apply (ex_put_reach 0 1 2); [|lia|lia|lia|by left|done]. constructor.
Qed.

(** The earliest pending wakeup, decided by computation. *)
Definition earliest (t : Z) (W : gset Z) : bool :=
  bool_decide (t ∈ W) && bool_decide (set_Forall (fun w => t <= w) W).
Lemma earliest_spec t W : earliest t W = true -> t ∈ W /\ forall w, w ∈ W -> t <= w.
Proof. intros [H1%bool_decide_eq_true H2%bool_decide_eq_true]%andb_prop. split; [done|]. apply H2. Qed.

Lemma ex_event tick (s s0 : router (M := unit)) raw given now : reach (ex_cfg RPTR) s raw given now ->
  earliest tick (r_wake s) = true -> is_ok (processCurrentEvent (ex_cfg RPTR) tick s) = true ->
  reach (ex_cfg RPTR) (ok_or s0 (processCurrentEvent (ex_cfg RPTR) tick s)) raw given tick.
Proof.
  intros Hr [H1 H2]%earliest_spec E. apply (reach_event _ s raw given now tick); [done..|].
  by apply ok_or_eq.
Qed.

Lemma ex_s1_reach : reach (ex_cfg RPTR) ex_s1 ex_raw (fun _ => 0) 500.
Proof. apply (ex_event _ _ _ _ _ 0 ex_links_reach); by vm_compute. Qed.
Lemma ex_s2_reach : reach (ex_cfg RPTR) ex_s2 ex_raw (fun _ => 0) 1000.
Proof. apply (ex_event _ _ _ _ _ 500 ex_s1_reach); by vm_compute. Qed.

Lemma ex_max t k : 0 <= c_max (ex_cfg t) k.
Proof. cbn. lia. Qed.

(** ** The theorems at these states *)

Lemma router_no_fault_witness : exists s', processCurrentEvent (ex_cfg RPTR) 1000 ex_s1 = Ok s'.
Proof.
  destruct (earliest_spec 1000 (r_wake ex_s1)) as [H1 H2]; [by vm_compute|].
  apply (router_no_fault (ex_cfg RPTR) ltac:(cbn; lia) ltac:(cbn; lia) (ex_max RPTR) _ _ _ _ _ ex_s1_reach H1 H2).
Defined.

(** After the arbitration at tick 1000 the packet of input 1 left and the flit of
    input 0 waits. *)
Lemma router_in_order_witness :
  (length (from (1, 0)%nat (r_trace ex_s2)), length (held ex_s2 (0, 0)%nat)) = (1, 1)%nat /\
  forall r, increment_hops <$> ex_raw r =
    from r (r_trace ex_s2) ++ held ex_s2 r ++ (increment_hops <$> link_flits ex_s2 r).
Proof.
  split; [by vm_compute|].
  apply (router_in_order (ex_cfg RPTR) ltac:(cbn; lia) ltac:(cbn; lia) (ex_max RPTR) _ _ _ _ ex_s2_reach).
Defined.

Lemma router_whole_packets_witness : exists ps, Forall is_packet ps /\
  sent ex_s2 (0, 0)%nat = mjoin ps ++ cur (sent ex_s2 (0, 0)%nat) /\ partial (cur (sent ex_s2 (0, 0)%nat)).
Proof.
  apply (router_whole_packets (ex_cfg RPTR) ltac:(cbn; lia) ltac:(cbn; lia) (ex_max RPTR) _ _ _ _ _ ex_s2_reach).
Defined.

Lemma router_respects_credits_witness : nz (length (sent ex_s2 (0, 0)%nat)) <= 5 + 0.
Proof.
  apply (router_respects_credits (ex_cfg RPTR) ltac:(cbn; lia) ltac:(cbn; lia) (ex_max RPTR) _ _ _ _ (0, 0)%nat ex_s2_reach).
Defined.

Lemma router_stays_awake_witness : exists w, w ∈ r_wake ex_s2 /\ 1000 <= w.
Proof.
  apply (router_stays_awake (ex_cfg RPTR) ltac:(cbn; lia) ltac:(cbn; lia) (ex_max RPTR) _ _ _ _ ex_s2_reach).
  right. exists (0, 0)%nat. by vm_compute.
Defined.

Definition ex_head : vflit (M := unit) := mk_vflit (increment_hops (ex_flit 1 2 0)) 500 1000.
Lemma ex_ready : ready (ex_cfg RPTR) 1000 0 (0, 0)%nat ex_head ex_s1.
Proof.
  split; [|cbn; lia]. split; [by eexists|by split; [|cbn; lia]|by vm_compute|by left|cbn; lia].
Qed.

Lemma allocator_work_conserving_witness : exists s' g,
  allocator_wakeup (ex_cfg RPTR) 1000 ex_s1 = Ok s' /\ (0%nat ∈ g_ins (M := unit) g \/ 0%nat ∈ g_outs g).
Proof.
  destruct (allocator_work_conserving (ex_cfg RPTR) ltac:(cbn; lia) ltac:(cbn; lia) (ex_max RPTR) _ _ _ _ 1000 ex_s1_reach)
    as (s' & g & E & _ & _ & _ & H). exists s', g. split; [done|]. apply (H _ _ _ ex_ready).
Defined.

Definition ex_before : router := default ex_s1 (ok_or None (before_arbitration (ex_cfg RPTR) 1000 ex_s1)).
Lemma ex_loses : loses (ex_cfg RPTR) 1000 0 (0, 0)%nat ex_s1.
Proof.
  exists ex_before, (ok_or ex_s1 (allocator_wakeup (ex_cfg RPTR) 1000 ex_before)), ex_head. split_and!.
  - unfold ex_before. destruct (before_arbitration (ex_cfg RPTR) 1000 ex_s1) as [[b|]|e] eqn:E; [done| |];
      apply (f_equal (fun x => is_ok x && bool_decide (is_Some (ok_or None x)))) in E; by vm_compute in E.
  - split; [|cbn; lia]. split; [by eexists|by split; [|cbn; lia]|by vm_compute|by left|cbn; lia].
  - by apply ok_or_eq; vm_compute.
  - by vm_compute.
Qed.

Lemma pass_through_bounded_wait_witness : exists s, waits (M := unit) (ex_cfg RPTR) 0 (0, 0)%nat 1 s ex_raw (fun _ => 0) 1000 /\
  (1 < 1 * (2 * 1 + 1))%nat.
Proof.
  assert (Hp : waits (ex_cfg RPTR) 0 (0, 0)%nat 1 ex_s2 ex_raw (fun _ => 0) 1000).
  { apply (waits_first _ _ _ ex_s1 ex_raw (fun _ => 0) 500 1000 ex_s2);
      [apply ex_s1_reach|apply earliest_spec; by vm_compute|by exists 2|apply ex_loses|by apply ok_or_eq; vm_compute]. }
  exists ex_s2. split; [done|].
  apply (pass_through_bounded_wait (ex_cfg RPTR) ltac:(cbn; lia) ltac:(cbn; lia) (ex_max RPTR) eq_refl _ _ _ _ _ _ _ Hp). lia.
Defined.
