(* ===== verification/NetIface.v ===== *)
(** * The network interface

    [NetworkInterface] of [src/src/noc/core/network/NocNetworkInterface.{hh,cc}], the
    object every master and slave unit derives from: it takes messages from the protocol
    buffers and gives them to the unit, sends the unit's flits to the routers under credits
    with round-robin arbitration of the channels, collects arriving flits per input port
    and channel in assemblers, and gives them to the unit one packet at a time.

    The unit is a parameter: its two virtual methods are the operations of a [NocUnit].
    Ports and channels are [nat], and vectors indexed by them are functions.  [no_inj],
    [no_sent], [ni_arr] and [ni_dlv] list what was injected, sent to an output port,
    received from a link and accepted by the unit, in order.  Left out: the idle state and
    busy counters of the channels, which only [calculateVC] reads and nothing calls; the
    flit widths; [m_ni_out_vcs_enqueue_time], which is only written. *)

From stdpp Require Import functions.
From S2P Require Import Prelude NppReceive Flit MsgBuffer Router MmNmu.

Definition NPP_MAX_FLITS : Z := 64 / 16.

(** ** Buffer depths

    The credits of the network's switch types and the overrides for data and control
    channels. *)
Record depths := mk_depths {
  m_data_physical_vcs : list Z;
  m_vnet_is_data : list bool;
  m_buffers_per_data_vc : option Z;      (* [Some] when overridden *)
  m_buffers_per_ctrl_vc : option Z;
  m_vnoc_credits : Z; m_hnoc_credits : Z; m_rptr_credits : Z; m_ncrb_credits : Z; m_nidb_credits : Z;
  m_router_types : list (Z * Nps_Type)   (* by router: channels per vnet and type *)
}.

Definition get_nps_credits (d : depths) (t : Nps_Type) : Z :=
  match t with
  | VNOC => m_vnoc_credits d | HNOC => m_hnoc_credits d | RPTR => m_rptr_credits d
  | NCRB => m_ncrb_credits d | NIDB => m_nidb_credits d | INVALID => m_vnoc_credits d
  end.
Definition get_effective_buffer_depth_for_class (d : depths) (is_data_vc : bool) (t : Nps_Type) : res Z :=
  match is_data_vc, m_buffers_per_data_vc d, m_buffers_per_ctrl_vc d with
  | true, Some n, _ => guard (1 <=? n) (FFatal "buffers_per_data_vc override must be at least 1") (Ok n)
  | false, _, Some n => guard (1 <=? n) (FFatal "buffers_per_ctrl_vc override must be at least 1") (Ok n)
  | _, _, _ => Ok (get_nps_credits d t)
  end.
Definition get_effective_vc_buffer_depth (d : depths) (vnet : Z) (t : Nps_Type) : res Z :=
  let is_data := (0 <=? vnet) && default false (m_vnet_is_data d !! zn vnet) in
  get_effective_buffer_depth_for_class d is_data t.
Definition get_effective_physical_vc_buffer_depth (d : depths) (physical_vc consumerVcs : Z) (t : Nps_Type) : res Z :=
  match m_data_physical_vcs d with
  | [] => get_effective_vc_buffer_depth d (if 0 <? consumerVcs then physical_vc / consumerVcs else 0) t
  | l => get_effective_buffer_depth_for_class d (existsb (Z.eqb physical_vc) l) t
  end.
Definition get_ni_receive_credit_depth (d : depths) (router_id physical_vc : Z) : res Z :=
  guard (0 <=? router_id) (FFatal "NI receive credit lookup has invalid router") (
  let* (vcs, t) := of_opt (FFatal "NI receive credit lookup has invalid router")
                     (m_router_types d !! zn router_id) in
  get_effective_physical_vc_buffer_depth d physical_vc vcs t).

(** ** Configuration *)

Record nicfg := mk_nicfg {
  nc_period : Z;
  nc_ins : nat;                 (* input ports *)
  nc_outs : nat;                (* output ports *)
  nc_vcs : nat;                 (* niOutVcs.size(), and assemblers per input port *)
  nc_vnets : nat -> list Z;     (* OutputPort::_vnets; empty: all *)
  nc_orouter : nat -> Z;        (* OutputPort::_routerID *)
  nc_irouter : nat -> Z;        (* InputPort::_routerID *)
  nc_max : nat -> Z;            (* m_max_credit_count by channel *)
  nc_depths : depths;
  nc_wired : list bool;         (* outNode_ptr: which queues are not null *)
  nc_mb : mbCfg                 (* of the protocol buffers *)
}.

Section Iface.
Context {M : Type}.

(** The output side: queues of flits with the tick they are ready, credits, the
    round-robin pointers, and the ticks the output links are scheduled for. *)
Record niOut := mk_niOut {
  no_q : nat -> list (flit M * Z);
  no_credit : nat -> Z;
  no_rr : nat -> nat;
  no_link : nat -> gset Z;
  no_inj : list (nat * flit M);          (* channel, flit *)
  no_sent : list (nat * nat * flit M)    (* output port, channel, flit *)
}.

Definition isVnetSupported (vnets : list Z) (v : Z) : bool :=
  match vnets with [] => true | _ => existsb (Z.eqb v) vnets end.

(** The first output port that satisfies [P]. *)
Definition first_port (c : nicfg) (P : nat -> bool) : option nat :=
  head (filter (fun p => P p = true) (seq 0 (nc_outs c))).
Definition getOutportForVnet (c : nicfg) (vnet : Z) : option nat :=
  first_port c (fun p => isVnetSupported (nc_vnets c p) vnet).

(** [NetworkInterface::scheduleFlit]: the port of the flit's source router, else the first
    that supports its vnet. *)
Definition flit_port (c : nicfg) (f : flit M) : option nat :=
  let r := rt_src_router (fl_route f) in
  match (if 0 <=? r then first_port c (fun p => isVnetSupported (nc_vnets c p) (fl_vnet f) && (nc_orouter c p =? r))
         else None) with
  | Some p => Some p
  | None => getOutportForVnet c (fl_vnet f)
  end.
Definition scheduleFlit (c : nicfg) (now : Z) (o : niOut) (vc : nat) (f : flit M) : res niOut :=
  let* p := of_opt (FPanic "No output port found for vnet") (flit_port c f) in
  Ok {| no_q := no_q o; no_credit := no_credit o; no_rr := no_rr o;
        no_link := <[p := {[now + nc_period c]} ∪ no_link o p]> (no_link o);
        no_inj := no_inj o; no_sent := no_sent o ++ [(p, vc, f)] |}.

(** What [scheduleOutputPort] does with the front flit of the channel it picks:
    [decrement_credit], [getTopFlit] and [scheduleFlit]. *)
Definition sendFlit (c : nicfg) (now : Z) (o : niOut) (p vc : nat) (f : flit M) (rest : list (flit M * Z)) : res niOut :=
  let n := no_credit o vc - 1 in
  guard (0 <=? n) (FAssert "m_credit_count >= 0")
    (scheduleFlit c now {| no_q := <[vc := rest]> (no_q o); no_credit := <[vc := n]> (no_credit o);
                           no_rr := <[p := vc]> (no_rr o); no_link := no_link o;
                           no_inj := no_inj o; no_sent := no_sent o |} vc f).

(** A flit of source router [r] may leave by port [p]. *)
Definition port_takes (c : nicfg) (p : nat) (f : flit M) : bool :=
  let r := rt_src_router (fl_route f) in negb ((0 <=? r) && negb (r =? nc_orouter c p)).

Definition next_vc (c : nicfg) (vc : nat) : nat := if (S vc =? nc_vcs c)%nat then 0%nat else S vc.

(** The loop of [NetworkInterface::scheduleOutputPort]: [n] iterations are left. *)
Fixpoint schedulePortLoop (c : nicfg) (now : Z) (p : nat) (n : nat) (vc : nat) (o : niOut) : res niOut :=
  match n with
  | O => Ok o
  | S n =>
      let vc := next_vc c vc in
      match no_q o vc with
      | (f, t) :: rest =>
          if (t <=? now) && (0 <? no_credit o vc) && port_takes c p f
          then sendFlit c now o p vc f rest
          else schedulePortLoop c now p n vc o
      | [] => schedulePortLoop c now p n vc o
      end
  end.
Definition scheduleOutputPort (c : nicfg) (now : Z) (o : niOut) (p : nat) : res niOut :=
  schedulePortLoop c now p (nc_vcs c) (no_rr o p) o.

(** [NetworkInterface::scheduleOutputLink] *)
Definition scheduleOutputLink (c : nicfg) (now : Z) (o : niOut) : res niOut :=
  foldM (scheduleOutputPort c now) o (seq 0 (nc_outs c)).

(** [NetworkInterface::injectFlit] of a flit that is ready at tick [t]. *)
Definition ni_injectFlit (c : nicfg) (now : Z) (o : niOut) (f : flit M) (vc : nat) (t : Z) : res (bool * niOut) :=
  guard (vc <? nc_vcs c)%nat (FUndef "niOutVcs[vc]") (
  if kNiOutVcMaxFlits <=? nz (length (no_q o vc)) then Ok (false, o)
  else
    let* o := scheduleOutputLink c now
      {| no_q := <[vc := no_q o vc ++ [(f, t)]]> (no_q o); no_credit := no_credit o; no_rr := no_rr o;
         no_link := no_link o; no_inj := no_inj o ++ [(vc, f)]; no_sent := no_sent o |} in
    Ok (true, o)).

(** ** The input side *)

Record niIn := mk_niIn {
  ii_link : nat -> list (flit M * Z);     (* incoming links: flits with their arrival tick *)
  ii_asm : nat * nat -> list (flit M);    (* m_npp_assemblers *)
  ii_next : nat -> nat;                   (* _nextAssemblerVc *)
  ii_cred : nat -> list (Z * bool);       (* _outCreditQueue: channel and free signal *)
  ii_cwake : nat -> gset Z;               (* what the credit links are scheduled for *)
  ii_lock : option (nat * nat);           (* m_locked_assembler_*; [None] is -1 *)
  ii_nextport : nat                       (* m_next_assembler_input_port *)
}.
Definition set_asm (x : nat * nat -> list (flit M)) (i : niIn) : niIn :=
  mk_niIn (ii_link i) x (ii_next i) (ii_cred i) (ii_cwake i) (ii_lock i) (ii_nextport i).
Definition set_lock (x : option (nat * nat)) (i : niIn) : niIn :=
  mk_niIn (ii_link i) (ii_asm i) (ii_next i) (ii_cred i) (ii_cwake i) x (ii_nextport i).
(** [InputPort::sendCredit] *)
Definition sendCredit (p : nat) (vc : Z) (free : bool) (i : niIn) : niIn :=
  mk_niIn (ii_link i) (ii_asm i) (ii_next i) (<[p := ii_cred i p ++ [(vc, free)]]> (ii_cred i)) (ii_cwake i)
    (ii_lock i) (ii_nextport i).

(** A flit the unit accepted: where from, and whether it bypassed a locked packet. *)
Record delivery := mk_delivery { dl_port : nat; dl_vc : nat; dl_flit : flit M; dl_bypass : bool }.

Record netif (U : Type) := mk_netif {
  ni_unit : U;
  ni_in : list (option (@mbuf M));        (* inNode_ptr *)
  ni_out : niOut;
  ni_clink : nat -> list (nat * bool * Z);(* credit links of the outputs: channel, free signal, arrival tick *)
  ni_rx : niIn;
  ni_cb : gset Z;                         (* vnets whose queue calls [dequeueCallback] *)
  ni_wake : gset Z;                       (* Consumer::m_wakeup_ticks *)
  ni_arr : list (nat * flit M);           (* input port, flit *)
  ni_dlv : list delivery
}.
End Iface.
Arguments niOut : clear implicits.
Arguments niIn : clear implicits.
Arguments delivery : clear implicits.
Arguments netif : clear implicits.
Arguments mk_netif {M U}.
Arguments ni_unit {M U}.
Arguments ni_in {M U}.
Arguments ni_out {M U}.
Arguments ni_clink {M U}.
Arguments ni_rx {M U}.
Arguments ni_cb {M U}.
Arguments ni_wake {M U}.
Arguments ni_arr {M U}.
Arguments ni_dlv {M U}.

(** The virtual methods of a unit.  [flitisizeMessage] may inject flits; its result is
    whether it took the message.  [depacketizeFlit] gets the router the flit came from; its
    result is whether it took the flit. *)
Class NocUnit (M U : Type) := {
  u_flitisizeMessage : Z -> U -> niOut M -> M -> Z -> res (bool * U * niOut M);
  u_depacketizeFlit : Z -> U -> flit M -> Z -> res (bool * U);
  u_is_axis : M -> bool                   (* getData() holds an axisPayload *)
}.

Section Wakeup.
Context {M U : Type} `{!NocUnit M U} (c : nicfg).
Implicit Types (s : netif M U) (i : niIn M).

Definition set_unit (u : U) s : netif M U :=
  mk_netif u (ni_in s) (ni_out s) (ni_clink s) (ni_rx s) (ni_cb s) (ni_wake s) (ni_arr s) (ni_dlv s).
Definition set_out (o : niOut M) s : netif M U :=
  mk_netif (ni_unit s) (ni_in s) o (ni_clink s) (ni_rx s) (ni_cb s) (ni_wake s) (ni_arr s) (ni_dlv s).
Definition set_rx (i : niIn M) s : netif M U :=
  mk_netif (ni_unit s) (ni_in s) (ni_out s) (ni_clink s) i (ni_cb s) (ni_wake s) (ni_arr s) (ni_dlv s).
Definition set_in (l : list (option (@mbuf M))) s : netif M U :=
  mk_netif (ni_unit s) l (ni_out s) (ni_clink s) (ni_rx s) (ni_cb s) (ni_wake s) (ni_arr s) (ni_dlv s).
Definition set_clink (l : nat -> list (nat * bool * Z)) s : netif M U :=
  mk_netif (ni_unit s) (ni_in s) (ni_out s) l (ni_rx s) (ni_cb s) (ni_wake s) (ni_arr s) (ni_dlv s).
Definition set_cb (x : gset Z) s : netif M U :=
  mk_netif (ni_unit s) (ni_in s) (ni_out s) (ni_clink s) (ni_rx s) x (ni_wake s) (ni_arr s) (ni_dlv s).
Definition set_wake (x : gset Z) s : netif M U :=
  mk_netif (ni_unit s) (ni_in s) (ni_out s) (ni_clink s) (ni_rx s) (ni_cb s) x (ni_arr s) (ni_dlv s).
Definition log_arr (l : list (nat * flit M)) s : netif M U :=
  mk_netif (ni_unit s) (ni_in s) (ni_out s) (ni_clink s) (ni_rx s) (ni_cb s) (ni_wake s) (ni_arr s ++ l) (ni_dlv s).
Definition log_dlv (l : list (delivery M)) s : netif M U :=
  mk_netif (ni_unit s) (ni_in s) (ni_out s) (ni_clink s) (ni_rx s) (ni_cb s) (ni_wake s) (ni_arr s) (ni_dlv s ++ l).

(** [Consumer::scheduleEventAbsolute] rounds up to a clock edge; [scheduleEvent(Cycles(1))]
    and [scheduleEventAbsolute(clockEdge(Cycles(1)))] at an edge are the next cycle. *)
Definition wake_at (t : Z) s : netif M U :=
  set_wake ({[(t + nc_period c - 1) / nc_period c * nc_period c]} ∪ ni_wake s) s.
Definition wake_next (now : Z) s : netif M U := set_wake ({[now + nc_period c]} ∪ ni_wake s) s.

(** [NetworkInterface::dequeueCallback] *)
Definition dequeueCallback (now : Z) s : netif M U := wake_next now s.

(** ** Messages from the protocol *)

(** One round of the loop over [inNode_ptr]. *)
Definition takeMessage (now : Z) s (vnet : nat) : res (netif M U) :=
  match ni_in s !! vnet with
  | Some (Some b) =>
      let* (ready, again) := mb_isReady (nc_mb c) b now in
      let s := if again then wake_next now s else s in
      if ready then
        let* msg := mb_peek b in
        let* (ok, u, o) := u_flitisizeMessage now (ni_unit s) (ni_out s) msg (nz vnet) in
        let s := set_out o (set_unit u s) in
        if ok then
          let* (_, _, b) := mb_dequeue (nc_mb c) b now in
          Ok (set_in (<[vnet := Some b]> (ni_in s)) s)
        else Ok s
      else Ok s
  | _ => Ok s
  end.

(** ** Flits from the links *)

(** The loop over the flits of an input link that have arrived; the last component says
    that it stopped at a full assembler. *)
Fixpoint receiveLoop (now : Z) (p : nat) (link : list (flit M * Z)) (asm : nat * nat -> list (flit M))
    (got : list (nat * flit M)) : res (list (flit M * Z) * (nat * nat -> list (flit M)) * list (nat * flit M) * bool) :=
  match link with
  | (f, t) :: rest =>
      if now <? t then Ok (link, asm, got, false)
      else
        guard ((0 <=? fl_vc f) && (fl_vc f <? nz (nc_vcs c))) (FAssert "vc < m_npp_assemblers.size()") (
        let k := (p, zn (fl_vc f)) in
        if kNppAssemblerMaxFlits <=? nz (length (asm k)) then Ok (link, asm, got, true)
        else receiveLoop now p rest (<[k := asm k ++ [f]]> asm) (got ++ [(p, f)]))
  | [] => Ok (link, asm, got, false)
  end.
Definition receivePort (now : Z) s (p : nat) : res (netif M U) :=
  let i := ni_rx s in
  let* (link, asm, got, full) := receiveLoop now p (ii_link i p) (ii_asm i) [] in
  let i := mk_niIn (<[p := link]> (ii_link i)) asm (ii_next i) (ii_cred i) (ii_cwake i) (ii_lock i) (ii_nextport i) in
  let s := log_arr got (set_rx i s) in
  Ok (if full then wake_next now s else s).

(** ** Choosing a packet *)

(** The channels in the order the loops visit them, from port [p0] on. *)
Definition scan_order i (p0 : nat) : list (nat * nat) :=
  concat ((fun off => let p := ((p0 + off) mod nc_ins c)%nat in
            (fun voff => (p, ((ii_next i p + voff) mod nc_vcs c)%nat)) <$> seq 0 (nc_vcs c))
          <$> seq 0 (nc_ins c)).

(** Whether the packet at the front of an assembler can be drained: stream packets only
    when they have arrived completely. *)
Definition assembler_ready i (k : nat * nat) : res bool :=
  match ii_asm i k with
  | [] => Ok false
  | f :: _ =>
      if u_is_axis (fl_msg f) then
        let* depth := get_ni_receive_credit_depth (nc_depths c) (nc_irouter c k.1) (nz k.2) in
        let receive_window := Z.min kNppAssemblerMaxFlits depth in
        match nc_status (checkNppReceivePrefix (receive_view <$> ii_asm i k) NPP_MAX_FLITS receive_window) with
        | Invalid | InsufficientWindow => Err (FFatal "AXIS receive packet")
        | Incomplete => Ok false
        | Complete => Ok true
        end
      else Ok true
  end.
Fixpoint find_ready i (l : list (nat * nat)) : res (option (nat * nat)) :=
  match l with
  | [] => Ok None
  | k :: l => let* r := assembler_ready i k in if r then Ok (Some k) else find_ready i l
  end.
Definition lockAssembler i : res (niIn M) :=
  match ii_lock i with
  | Some _ => Ok i
  | None =>
      let* r := find_ready i (scan_order i (ii_nextport i)) in
      match r with
      | None => Ok i
      | Some (p, vc) =>
          Ok (mk_niIn (ii_link i) (ii_asm i) (<[p := ((vc + 1) mod nc_vcs c)%nat]> (ii_next i)) (ii_cred i)
                (ii_cwake i) (Some (p, vc)) ((p + 1) mod nc_ins c)%nat)
      end
  end.

(** ** Giving flits to the unit *)

(** A single-flit address packet. *)
Definition is_control (f : flit M) : bool :=
  match fl_type f with
  | HEAD_TAIL_ => (fl_vnet f =? AR_VNET) || (fl_vnet f =? AW_VNET)
  | _ => false
  end.

(** The first address packet of another channel the unit takes. *)
Fixpoint tryBypass (now : Z) (u : U) i (lock : nat * nat) (l : list (nat * nat))
    : res (U * option (nat * nat * flit M)) :=
  match l with
  | [] => Ok (u, None)
  | k :: l =>
      if decide (k = lock) then tryBypass now u i lock l
      else match ii_asm i k with
      | [] => tryBypass now u i lock l
      | f :: _ =>
          if is_control f then
            let* (ok, u) := u_depacketizeFlit now u f (nc_irouter c k.1) in
            if ok then Ok (u, Some (k, f)) else tryBypass now u i lock l
          else tryBypass now u i lock l
      end
  end.

(** The front flit of assembler [k] was taken. *)
Definition popFlit (k : nat * nat) (f : flit M) (free bypass : bool) s : netif M U :=
  let i := ni_rx s in
  log_dlv [mk_delivery k.1 k.2 f bypass]
    (set_rx (sendCredit k.1 (fl_vc f) free (set_asm (<[k := tail (ii_asm i k)]> (ii_asm i)) i)) s).

Definition drainLocked (now : Z) s : res (netif M U) :=
  let i := ni_rx s in
  match ii_lock i with
  | None => Ok s
  | Some k =>
      guard (k.1 <? nc_ins c)%nat (FPanic "locked assembler input port out of range") (
      guard (k.2 <? nc_vcs c)%nat (FAssert "vc < m_npp_assemblers.size()") (
      match ii_asm i k with
      | [] => Ok (wake_next now s)
      | f :: _ =>
          let* (u, bypass) := if is_tail f then Ok (ni_unit s, None)
                              else tryBypass now (ni_unit s) i k (scan_order i k.1) in
          let s := set_unit u s in
          match bypass with
          | Some (k', f') => Ok (wake_next now (popFlit k' f' true true s))
          | None =>
              let* (ok, u) := u_depacketizeFlit now (ni_unit s) f (nc_irouter c k.1) in
              let s := set_unit u s in
              if ok then
                let s := popFlit k f (is_tail f) false s in
                Ok (if is_tail f then set_rx (set_lock None (ni_rx s)) s else wake_next now s)
              else
                guard ((0 <=? fl_vnet f) && (fl_vnet f <? nz (length (nc_wired c))))
                  (FPanic "stalled flit vnet out of range") (
                guard (default false (nc_wired c !! zn (fl_vnet f))) (FPanic "null outNode")
                  (Ok (set_cb ({[fl_vnet f]} ∪ ni_cb s) s)))
          end
      end))
  end.

(** ** Credits *)

(** The credit an output port gets in a wakeup, if any. *)
Definition takeCredit (now : Z) s (p : nat) : res (netif M U) :=
  match ni_clink s p with
  | (vc, free, t) :: rest =>
      if now <? t then Ok s
      else
        let o := ni_out s in
        let n := no_credit o vc + 1 in
        guard (vc <? nc_vcs c)%nat (FUndef "outVcState[vc]") (
        guard (n <=? nc_max c vc) (FAssert "m_credit_count <= m_max_credit_count")
          (Ok (set_clink (<[p := rest]> (ni_clink s))
                (set_out (mk_niOut (no_q o) (<[vc := n]> (no_credit o)) (no_rr o) (no_link o) (no_inj o) (no_sent o)) s))))
  | [] => Ok s
  end.

(** The credit links of ports with credits to send are scheduled. *)
Definition scheduleCreditLinks (now : Z) s : netif M U :=
  let i := ni_rx s in
  set_rx (mk_niIn (ii_link i) (ii_asm i) (ii_next i) (ii_cred i)
            (fun p => if (p <? nc_ins c)%nat && (0 <? nz (length (ii_cred i p)))
                      then {[now + nc_period c]} ∪ ii_cwake i p else ii_cwake i p)
            (ii_lock i) (ii_nextport i)) s.

(** ** Sleeping *)

(** Whether a protocol buffer has a message for now; a buffer at its dequeue limit asks
    for the next cycle. *)
Fixpoint anyReady (now : Z) (l : list (option (@mbuf M))) : res (bool * bool) :=
  match l with
  | [] => Ok (false, false)
  | None :: l => anyReady now l
  | Some b :: l =>
      let* (r, again) := mb_isReady (nc_mb c) b now in
      if r then Ok (true, again)
      else let* (r, again') := anyReady now l in Ok (r, again || again')
  end.
Definition front_times (o : niOut M) : list Z :=
  omap (fun vc => snd <$> head (no_q o vc)) (seq 0 (nc_vcs c)).
Definition link_ready {A} (now : Z) (l : list (A * Z)) : bool :=
  match l with (_, t) :: _ => t <=? now | [] => false end.
(** A locked packet, flits in an assembler, or a flit or credit on a link. *)
Definition work_left (now : Z) s : bool :=
  let i := ni_rx s in
  match ii_lock i with Some _ => true | None => false end
  || existsb (fun p => existsb (fun vc => match ii_asm i (p, vc) with [] => false | _ => true end)
                         (seq 0 (nc_vcs c))) (seq 0 (nc_ins c))
  || existsb (fun p => link_ready now (ii_link i p)) (seq 0 (nc_ins c))
  || existsb (fun p => link_ready now (ni_clink s p)) (seq 0 (nc_outs c)).
(** [NetworkInterface::checkReschedule] *)
Definition checkReschedule (now : Z) s : res (netif M U) :=
  let* (ready, again) := anyReady now (ni_in s) in
  let s := if again then wake_next now s else s in
  if ready then Ok (wake_next now s)
  else if existsb (fun t => t <=? now + nc_period c) (front_times (ni_out s)) then Ok (wake_next now s)
  else
    let earliest := match front_times (ni_out s) with [] => None | t :: l => Some (foldr Z.min t l) end in
    let work := if work_left now s then wake_next now s else s in
    match earliest with
    | Some t => Ok (if now <? t then wake_at t s else work)
    | None => Ok work
    end.

(** ** The wakeup event *)

(** [NetworkInterface::wakeup] *)
Definition wakeup (now : Z) s : res (netif M U) :=
  let* s := foldM (takeMessage now) s (seq 0 (length (ni_in s))) in
  let* o := scheduleOutputLink c now (ni_out s) in
  let s := set_out o s in
  let* s := foldM (receivePort now) s (seq 0 (nc_ins c)) in
  let* i := lockAssembler (ni_rx s) in
  let* s := drainLocked now (set_rx i s) in
  let* s := foldM (takeCredit now) s (seq 0 (nc_outs c)) in
  checkReschedule now (scheduleCreditLinks now s).

(** [Consumer::processCurrentEvent] *)
Definition processCurrentEvent (now : Z) s : res (netif M U) :=
  wakeup now (set_wake (ni_wake s ∖ {[now]}) s).
End Wakeup.
