(* ===== verification/NetIfaceRun.v ===== *)
(** * Runs of a network interface

    A network interface with any unit, any endpoint and any network around it.  What a unit
    injects leaves in order on its channel and by the port of its route, under credits;
    what arrives reaches the unit in order per channel and one packet at a time, with one
    credit returned per flit. *)

From stdpp Require Import functions.
From S2P Require Import Prelude NppReceive Flit MsgBuffer Router Stream MmNmu NetIface.

(** ** The output side *)

Section Output.
Context {M : Type} (c : nicfg).
Implicit Types (o : niOut M).

(** What was injected in and sent from a channel. *)
Definition inj_on (v : nat) o : list (flit M) := (filter (fun x => x.1 = v) (no_inj o)).*2.
Definition sent_on (v : nat) o : list (flit M) := (filter (fun x => x.1.2 = v) (no_sent o)).*2.

(** The two changes of the output side: a flit leaves the front of a channel with credit, or
    a flit enters a channel with room. *)
Inductive out_step o : niOut M -> Prop :=
| os_send v f t rest p rr link :
    no_q o v = (f, t) :: rest -> 0 < no_credit o v -> flit_port c f = Some p ->
    out_step o (mk_niOut (<[v := rest]> (no_q o)) (<[v := no_credit o v - 1]> (no_credit o)) rr link
                  (no_inj o) (no_sent o ++ [(p, v, f)]))
| os_push v f t :
    (v < nc_vcs c)%nat -> nz (length (no_q o v)) < kNiOutVcMaxFlits -> fl_vc f = nz v ->
    out_step o (mk_niOut (<[v := no_q o v ++ [(f, t)]]> (no_q o)) (no_credit o) (no_rr o) (no_link o)
                  (no_inj o ++ [(v, f)]) (no_sent o)).

Lemma schedulePortLoop_step now p n vc o o' :
  schedulePortLoop c now p n vc o = Ok o' -> o' = o \/ out_step o o'.
Proof.
  revert vc. induction n as [|n IH]; intros vc E; cbn in E; [left; by injection E|].
  destruct (no_q o (next_vc c vc)) as [|[f t] rest] eqn:Eq; [by eapply IH|].
  destruct ((t <=? now) && _ && _) eqn:Hb; [|by eapply IH]. right. bool_hyps.
  unfold sendFlit in E. apply guard_Ok in E as [_ E]. unfold scheduleFlit in E.
  apply rbind_Ok in E as (q & Hq & E). apply of_opt_Ok in Hq. injection E as <-. cbn. by eapply os_send.
Qed.
Lemma scheduleOutputLink_steps now o o' : scheduleOutputLink c now o = Ok o' -> rtc out_step o o'.
Proof.
  intros E. eapply (foldM_inv (fun x => rtc out_step o x)) in E; [done| |done].
  intros o1 p o2 _ H1 E2. apply schedulePortLoop_step in E2 as [-> |E2]; [done|]. by eapply rtc_r.
Qed.

(** What a unit can do to the output side: inject flits. *)
Inductive injects (now : Z) : niOut M -> niOut M -> Prop :=
| inj_done o : injects now o o
| inj_flit o f v t b o1 o2 :
    fl_vc f = nz v -> ni_injectFlit c now o f v t = Ok (b, o1) -> injects now o1 o2 -> injects now o o2.

Lemma injects_steps now o o' : injects now o o' -> rtc out_step o o'.
Proof.
  induction 1 as [|o f v t b o1 o2 Hf E _ IH]; [done|]. unfold ni_injectFlit in E.
  apply guard_Ok in E as [Hv E]. apply Nat.ltb_lt in Hv. destruct (_ <=? _) eqn:Hl; [by injection E as <- <-|].
  apply rbind_Ok in E as (o3 & E & [= <- <-]). apply scheduleOutputLink_steps in E. apply Z.leb_gt in Hl.
  eapply rtc_l; [by apply os_push|]. by etrans.
Qed.

(** The state of the output side. *)
Record out_ok o : Prop := {
  oo_fifo v : inj_on v o = sent_on v o ++ (no_q o v).*1;
  oo_room v : nz (length (no_q o v)) <= kNiOutVcMaxFlits;
  oo_credit v : 0 <= no_credit o v;
  oo_port : Forall (fun x => flit_port c x.2 = Some x.1.1 /\ fl_vc x.2 = nz x.1.2) (no_sent o);
  oo_vc v : Forall (fun x => fl_vc x.1 = nz v) (no_q o v)
}.

Lemma out_step_ok o o' : out_ok o -> out_step o o' -> out_ok o'.
Proof.
  intros [H1 H2 H3 H4 H5] [v f t rest p rr link Hq Hc Hp|v f t Hv Hl Hf]; split; cbn.
  - intros w. unfold inj_on, sent_on in *. cbn. rewrite filter_app, fmap_app, H1, <- app_assoc. f_equal.
    rewrite filter_cons. cbn. destruct (decide (v = w)) as [-> |Hne].
    + by rewrite Hq, fn_lookup_insert.
    + by rewrite fn_lookup_insert_ne.
  - intros w. destruct (decide (w = v)) as [-> |Hne]; [rewrite fn_lookup_insert|by rewrite fn_lookup_insert_ne].
    specialize (H2 v). rewrite Hq in H2. cbn in H2. lia.
  - intros w. destruct (decide (w = v)) as [-> |Hne]; [rewrite fn_lookup_insert; lia|by rewrite fn_lookup_insert_ne].
  - apply Forall_app. split; [done|]. apply Forall_singleton. split; [done|]. specialize (H5 v). rewrite Hq in H5.
    by apply Forall_cons in H5 as [? _].
  - intros w. destruct (decide (w = v)) as [-> |Hne]; [rewrite fn_lookup_insert|by rewrite fn_lookup_insert_ne].
    specialize (H5 v). rewrite Hq in H5. by apply Forall_cons in H5 as [_ ?].
  - intros w. unfold inj_on, sent_on in *. cbn. rewrite filter_app, fmap_app, H1, <- app_assoc. f_equal.
    rewrite filter_cons. cbn. destruct (decide (v = w)) as [-> |Hne].
    + by rewrite fn_lookup_insert, fmap_app.
    + rewrite fn_lookup_insert_ne by done. by rewrite app_nil_r.
  - intros w. destruct (decide (w = v)) as [-> |Hne]; [rewrite fn_lookup_insert|by rewrite fn_lookup_insert_ne].
    rewrite length_app. cbn. lia.
  - done.
  - done.
  - intros w. destruct (decide (w = v)) as [-> |Hne]; [rewrite fn_lookup_insert|by rewrite fn_lookup_insert_ne].
    apply Forall_app. split; [done|]. by apply Forall_singleton.
Qed.
Lemma out_steps_ok o o' : out_ok o -> rtc out_step o o' -> out_ok o'.
Proof. intros Ho. induction 1; [done|]. eauto using out_step_ok. Qed.

(** Sending only takes credits. *)
Lemma out_steps_credit o o' v : rtc out_step o o' -> no_credit o' v <= no_credit o v.
Proof.
  induction 1 as [|o o1 o' [w f t rest p rr link _ _ _|w f t _ _ _] _ IH]; [lia|..]; cbn in IH; [|done].
  destruct (decide (v = w)) as [-> |Hne]; [rewrite fn_lookup_insert in IH|rewrite fn_lookup_insert_ne in IH by done]; lia.
Qed.
End Output.

(** ** The input side *)

Section Input.
Context {M U : Type} `{!NocUnit M U} (c : nicfg).
Implicit Types (s : netif M U) (f : flit M) (k : nat * nat).

(** What matters of the input side to the flits: links, assemblers, credits, the lock, and
    the histories. *)
Record wire := mk_wire {
  w_link : nat -> list (flit M * Z);
  w_asm : nat * nat -> list (flit M);
  w_cred : nat -> list (Z * bool);
  w_lock : option (nat * nat);
  w_arr : list (nat * flit M);
  w_dlv : list (delivery M)
}.
Definition wires s : wire :=
  mk_wire (ii_link (ni_rx s)) (ii_asm (ni_rx s)) (ii_cred (ni_rx s)) (ii_lock (ni_rx s)) (ni_arr s) (ni_dlv s).
Implicit Types (w : wire).

(** A flit leaves an assembler for the unit. *)
Definition deliver k f (bypass : bool) (lock : option (nat * nat)) w : wire :=
  mk_wire (w_link w) (<[k := tail (w_asm w k)]> (w_asm w))
    (<[k.1 := w_cred w k.1 ++ [(fl_vc f, is_tail f)]]> (w_cred w)) lock (w_arr w)
    (w_dlv w ++ [mk_delivery k.1 k.2 f bypass]).

(** Whether a packet may be started: stream packets only when all flits are there. *)
Definition startable k w : Prop :=
  exists f rest, w_asm w k = f :: rest /\
    (u_is_axis (fl_msg f) = true -> exists window,
       nc_status (checkNppReceivePrefix (receive_view <$> w_asm w k) NPP_MAX_FLITS window) = Complete).

(** The same links, assemblers and credits, index by index. *)
Definition wire_eq w w' : Prop :=
  (forall p, w_link w' p = w_link w p) /\ (forall k, w_asm w' k = w_asm w k) /\ (forall p, w_cred w' p = w_cred w p) /\
  w_lock w' = w_lock w /\ w_arr w' = w_arr w /\ w_dlv w' = w_dlv w.

Inductive rx_step w : wire -> Prop :=
| rs_same w' : wire_eq w w' -> rx_step w w'
| rs_receive p f t rest v :
    w_link w p = (f, t) :: rest -> fl_vc f = nz v -> (v < nc_vcs c)%nat ->
    nz (length (w_asm w (p, v))) < kNppAssemblerMaxFlits ->
    rx_step w (mk_wire (<[p := rest]> (w_link w)) (<[(p, v) := w_asm w (p, v) ++ [f]]> (w_asm w)) (w_cred w)
                 (w_lock w) (w_arr w ++ [(p, f)]) (w_dlv w))
| rs_lock k : w_lock w = None -> startable k w -> (k.1 < nc_ins c)%nat -> (k.2 < nc_vcs c)%nat ->
    rx_step w (mk_wire (w_link w) (w_asm w) (w_cred w) (Some k) (w_arr w) (w_dlv w))
| rs_deliver k f rest : w_lock w = Some k -> w_asm w k = f :: rest ->
    rx_step w (deliver k f false (if is_tail f then None else Some k) w)
| rs_bypass k k' f rest : w_lock w = Some k -> k' <> k -> w_asm w k' = f :: rest -> fl_type f = HEAD_TAIL_ ->
    rx_step w (deliver k' f true (w_lock w) w).

Lemma receiveLoop_steps now p link asm got cred lock arr dlv links link' asm' got' full :
  links p = link -> receiveLoop c now p link asm got = Ok (link', asm', got', full) ->
  rtc rx_step (mk_wire links asm cred lock (arr ++ got) dlv)
    (mk_wire (<[p := link']> links) asm' cred lock (arr ++ got') dlv).
Proof.
  revert links asm got. induction link as [|[f t] link IH]; intros links asm got El E; cbn in E.
  { injection E as <- <- <- _. apply rtc_once, rs_same. split; [|done]. intros q. cbn.
    destruct (decide (q = p)) as [-> |]; [by rewrite fn_lookup_insert|by rewrite fn_lookup_insert_ne]. }
  assert (forall r : bool, Ok ((f, t) :: link, asm, got, r) = Ok (link', asm', got', full) ->
    rtc rx_step (mk_wire links asm cred lock (arr ++ got) dlv)
      (mk_wire (<[p := link']> links) asm' cred lock (arr ++ got') dlv)) as Hstop.
  { intros r E'. injection E' as <- <- <- _. apply rtc_once, rs_same. split; [|done]. intros q. cbn.
    destruct (decide (q = p)) as [-> |]; [by rewrite fn_lookup_insert|by rewrite fn_lookup_insert_ne]. }
  destruct (now <? t); [by eapply Hstop|]. apply guard_Ok in E as [Hv E]. bool_hyps.
  destruct (_ <=? _) eqn:Hl; [by eapply Hstop|]. apply Z.leb_gt in Hl. clear Hstop.
  eapply rtc_l; [eapply (rs_receive _ p f t link (zn (fl_vc f))); cbn; [done|lia|lia|done]|]. cbn.
  rewrite <- app_assoc. apply (IH (<[p := link]> links)) in E; [|by rewrite fn_lookup_insert].
  etrans; [exact E|]. apply rtc_once, rs_same. split; [|done]. intros q. cbn.
  destruct (decide (q = p)) as [-> |]; [by rewrite !fn_lookup_insert|by rewrite !fn_lookup_insert_ne].
Qed.

Lemma receivePort_steps now s p s' : receivePort c now s p = Ok s' ->
  rtc rx_step (wires s) (wires s') /\ ni_out s' = ni_out s /\ ni_clink s' = ni_clink s.
Proof.
  intros E. apply rbind_Ok in E as ([[[link asm] got] full] & E & [= <-]).
  apply (receiveLoop_steps now p _ _ _ (ii_cred (ni_rx s)) (ii_lock (ni_rx s)) (ni_arr s) (ni_dlv s) (ii_link (ni_rx s))) in E; [|done].
  rewrite app_nil_r in E. by destruct full.
Qed.

Lemma assembler_ready_startable (i : niIn M) k : assembler_ready c i k = Ok true -> forall cred arr dlv link lock,
  startable k (mk_wire link (ii_asm i) cred lock arr dlv).
Proof.
  unfold assembler_ready. intros E. intros. destruct (ii_asm i k) as [|f rest] eqn:Ea; [done|].
  exists f, rest. split; [done|]. cbn. intros Hax. rewrite Hax, Ea in *. apply rbind_Ok in E as (d & _ & E).
  exists (Z.min kNppAssemblerMaxFlits d). by destruct (nc_status _).
Qed.

Lemma find_ready_Some (i : niIn M) l k : find_ready c i l = Ok (Some k) -> k ∈ l /\ assembler_ready c i k = Ok true.
Proof.
  induction l as [|k' l IH]; cbn; [done|]. intros E. apply rbind_Ok in E as (r & E1 & E).
  destruct r; [injection E as <-; split; [by left|done]|]. destruct (IH E). split; [by right|done].
Qed.

Lemma scan_order_range (i : niIn M) p0 k : k ∈ scan_order c i p0 -> (k.1 < nc_ins c)%nat /\ (k.2 < nc_vcs c)%nat.
Proof.
  unfold scan_order. intros Hk. apply list_elem_of_In, in_concat in Hk as (l & Hl & Hk).
  apply list_elem_of_In in Hl, Hk. apply list_elem_of_fmap in Hl as (x & -> & Hx). apply list_elem_of_fmap in Hk as (y & -> & Hy). apply elem_of_seq in Hx, Hy. cbn.
  split; apply Nat.mod_upper_bound; lia.
Qed.

Lemma lockAssembler_steps s i : lockAssembler c (ni_rx s) = Ok i -> rtc rx_step (wires s) (wires (set_rx i s)).
Proof.
  unfold lockAssembler. intros E. destruct (ii_lock (ni_rx s)) eqn:El; [injection E as <-; done|].
  apply rbind_Ok in E as (r & Er & E). destruct r as [[p v]|]; [|injection E as <-; done]. injection E as <-.
  apply find_ready_Some in Er as [Hin Hr]. apply scan_order_range in Hin as [Hp Hv].
  apply rtc_once. exact (rs_lock (wires s) (p, v) El (assembler_ready_startable _ _ Hr _ _ _ _ _) Hp Hv).
Qed.

Lemma tryBypass_Some now u i lock l u' k f :
  tryBypass c now u i lock l = Ok (u', Some (k, f)) ->
  k <> lock /\ k ∈ l /\ is_control f = true /\ exists rest, ii_asm i k = f :: rest.
Proof.
  revert u. induction l as [|k' l IH]; intros u E; cbn in E; [done|].
  assert (forall u, tryBypass c now u i lock l = Ok (u', Some (k, f)) ->
    k <> lock /\ k ∈ k' :: l /\ is_control f = true /\ exists rest, ii_asm i k = f :: rest) as Hnext.
  { intros u1 E1. destruct (IH u1 E1) as (? & ? & ? & ?). split_and!; [done|by right|done|done]. }
  case_decide as Hk; [by eapply Hnext|]. destruct (ii_asm i k') as [|f' rest] eqn:Ea; [by eapply Hnext|].
  destruct (is_control f') eqn:Hc; [|by eapply Hnext]. apply rbind_Ok in E as ([ok u1] & _ & E).
  destruct ok; [|by eapply Hnext]. injection E as <- <- <-. split_and!; [done|by left|done|by eexists].
Qed.

Lemma drainLocked_steps now s s' : drainLocked c now s = Ok s' ->
  rtc rx_step (wires s) (wires s') /\ ni_out s' = ni_out s /\ ni_clink s' = ni_clink s.
Proof.
  unfold drainLocked. intros E. destruct (ii_lock (ni_rx s)) as [k|] eqn:El; [|by injection E as <-].
  apply guard_Ok in E as [_ E]. apply guard_Ok in E as [_ E].
  destruct (ii_asm (ni_rx s) k) as [|f rest] eqn:Ea; [by injection E as <-|].
  apply rbind_Ok in E as ([u [[k' f']|]] & Eb & E).
  - injection E as <-. split; [|done]. destruct (is_tail f); [done|].
    apply tryBypass_Some in Eb as (Hk & _ & Hc & rest' & Ea'). unfold is_control in Hc.
    destruct (fl_type f') eqn:Et; try done. assert (is_tail f' = true) as Ht by (unfold is_tail; by rewrite Et).
    assert (w_lock (wires s) = Some k) as Hlock by (cbn; done).
    pose proof (rs_bypass (wires s) k k' f' rest' Hlock Hk Ea' Et) as Hs. unfold deliver in Hs. rewrite Ht in Hs.
    by apply rtc_once.
  - apply rbind_Ok in E as ([ok u'] & _ & E). destruct ok.
    + injection E as <-. split; [|by destruct (is_tail f)]. assert (w_lock (wires s) = Some k) as Hlock by (cbn; done).
      pose proof (rs_deliver (wires s) k f rest Hlock Ea) as Hs. apply rtc_once.
      unfold deliver in Hs. destruct (is_tail f); [exact Hs|]. unfold wires at 2. cbn. rewrite El. exact Hs.
    + apply guard_Ok in E as [_ E]. apply guard_Ok in E as [_ E]. by injection E as <-.
Qed.

(** ** What the input side keeps *)

(** The flits of a port, of a channel, and those given to the unit. *)
Definition on_port (p : nat) (l : list (nat * flit M)) : list (flit M) := (filter (fun x => x.1 = p) l).*2.
Definition on_vc (v : nat) (l : list (flit M)) : list (flit M) := filter (fun f => fl_vc f = nz v) l.
Definition dlv_on k (l : list (delivery M)) : list (flit M) :=
  dl_flit <$> filter (fun d => (dl_port d, dl_vc d) = k) l.
Definition dlv_port (p : nat) (l : list (delivery M)) : list (flit M) := dl_flit <$> filter (fun d => dl_port d = p) l.
(** The packets the unit was given: what did not bypass one. *)
Definition main_stream (l : list (delivery M)) : list (flit M) := dl_flit <$> filter (fun d => dl_bypass d = false) l.
Definition credit_of f : Z * bool := (fl_vc f, is_tail f).
Definition ret_port (p : nat) (l : list (nat * (Z * bool))) : list (Z * bool) := (filter (fun x => x.1 = p) l).*2.

(** [put] lists what the links carried to the interface, [ret] the credits they took. *)
Record rx_inv (put : list (nat * flit M)) (ret : list (nat * (Z * bool))) w : Prop := {
  ri_link p : on_port p put = on_port p (w_arr w) ++ (w_link w p).*1;
  ri_asm p v : on_vc v (on_port p (w_arr w)) = dlv_on (p, v) (w_dlv w) ++ w_asm w (p, v);
  ri_room k : nz (length (w_asm w k)) <= kNppAssemblerMaxFlits;
  ri_cred p : ret_port p ret ++ w_cred w p = credit_of <$> dlv_port p (w_dlv w);
  ri_bypass : Forall (fun d => dl_bypass d = true -> fl_type (dl_flit d) = HEAD_TAIL_) (w_dlv w)
}.

Lemma on_port_snoc p l q f : on_port p (l ++ [(q, f)]) = on_port p l ++ if decide (q = p) then [f] else [].
Proof. unfold on_port. rewrite filter_app, fmap_app, filter_cons. cbn. by case_decide. Qed.
Lemma on_vc_snoc v l f : on_vc v (l ++ [f]) = on_vc v l ++ if decide (fl_vc f = nz v) then [f] else [].
Proof. unfold on_vc. rewrite filter_app, filter_cons. cbn. by case_decide. Qed.
Lemma dlv_on_snoc k l d : dlv_on k (l ++ [d]) = dlv_on k l ++ if decide ((dl_port d, dl_vc d) = k) then [dl_flit d] else [].
Proof. unfold dlv_on. rewrite filter_app, fmap_app, filter_cons. cbn. by case_decide. Qed.
Lemma dlv_port_snoc p l d : dlv_port p (l ++ [d]) = dlv_port p l ++ if decide (dl_port d = p) then [dl_flit d] else [].
Proof. unfold dlv_port. rewrite filter_app, fmap_app, filter_cons. cbn. by case_decide. Qed.
Lemma main_stream_snoc l d : main_stream (l ++ [d]) = main_stream l ++ if dl_bypass d then [] else [dl_flit d].
Proof. unfold main_stream. rewrite filter_app, fmap_app, filter_cons. cbn. destruct (dl_bypass d); by case_decide. Qed.

Lemma deliver_inv put ret w k f rest bypass lock : rx_inv put ret w -> w_asm w k = f :: rest ->
  (bypass = true -> fl_type f = HEAD_TAIL_) -> rx_inv put ret (deliver k f bypass lock w).
Proof.
  intros [H1 H2 H3 H4 H5] Ha Hb. destruct k as [p v]. split; unfold deliver;
    cbn [w_link w_asm w_cred w_arr w_dlv fst snd].
  - done.
  - intros q u. rewrite dlv_on_snoc. cbn [dl_port dl_vc dl_flit]. case_decide as E.
    + injection E as -> ->. rewrite fn_lookup_insert, Ha, H2, Ha, <- app_assoc. done.
    + rewrite fn_lookup_insert_ne, app_nil_r by done. apply H2.
  - intros q. destruct (decide (q = (p, v))) as [-> |Hne]; [rewrite fn_lookup_insert|by rewrite fn_lookup_insert_ne].
    specialize (H3 (p, v)). rewrite Ha in *. cbn in *. lia.
  - intros q. rewrite dlv_port_snoc. cbn [dl_port dl_vc dl_flit]. case_decide as E.
    + subst q. rewrite fn_lookup_insert, app_assoc, H4, fmap_app. done.
    + rewrite fn_lookup_insert_ne, app_nil_r by done. apply H4.
  - apply Forall_app. split; [done|]. by apply Forall_singleton.
Qed.

Lemma rx_step_inv put ret w w' : rx_inv put ret w -> rx_step w w' -> rx_inv put ret w'.
Proof.
  intros Hi Hs. destruct Hs as [w' (E1 & E2 & E3 & E4 & E5 & E6)|p f t rest v Hl Hf Hv Hr|k Hlk Hst Hk1 Hk2
    |k f rest Hlk Ha|k k' f rest Hlk Hk Ha Ht].
  - destruct Hi as [H1 H2 H3 H4 H5]. split; intros; rewrite ?E1, ?E2, ?E3, ?E5, ?E6; done.
  - destruct Hi as [H1 H2 H3 H4 H5]. split; cbn [w_link w_asm w_cred w_arr w_dlv]; try done.
    + intros q. rewrite on_port_snoc, H1, <- app_assoc. f_equal. case_decide as E.
      * subst q. by rewrite fn_lookup_insert, Hl.
      * by rewrite fn_lookup_insert_ne.
    + intros q u. rewrite on_port_snoc. case_decide as E.
      * subst q. rewrite on_vc_snoc, H2, <- app_assoc. f_equal. case_decide as Eu.
        -- assert (u = v) as -> by lia. by rewrite fn_lookup_insert.
        -- rewrite fn_lookup_insert_ne by congruence. by rewrite app_nil_r.
      * rewrite app_nil_r, fn_lookup_insert_ne by congruence. apply H2.
    + intros q. destruct (decide (q = (p, v))) as [-> |Hne]; [rewrite fn_lookup_insert|by rewrite fn_lookup_insert_ne].
      rewrite length_app. cbn. lia.
  - destruct Hi. by split.
  - by eapply deliver_inv.
  - by eapply deliver_inv.
Qed.
Lemma rx_steps_inv put ret w w' : rx_inv put ret w -> rtc rx_step w w' -> rx_inv put ret w'.
Proof. intros Hi. induction 1; eauto using rx_step_inv. Qed.

(** *** Packets *)

(** The unit is in the middle of the packet of the locked channel, and of no other. *)
Record packet_inv w : Prop := {
  pk_main : pstream (main_stream (w_dlv w));
  pk_lock k : w_lock w = Some k -> cur (dlv_on k (w_dlv w)) = cur (main_stream (w_dlv w));
  pk_other k : w_lock w <> Some k -> cur (dlv_on k (w_dlv w)) = [];
  pk_none : w_lock w = None -> cur (main_stream (w_dlv w)) = []
}.

(** The links carry whole packets on every channel, the last one possibly unfinished. *)
Definition packets_arrive (put : list (nat * flit M)) : Prop := forall p v, pstream (on_vc v (on_port p put)).

Lemma front_fits put ret w k f rest : packets_arrive put -> rx_inv put ret w -> w_asm w k = f :: rest ->
  fits (cur (dlv_on k (w_dlv w))) f.
Proof.
  intros Hp Hi Ha. destruct k as [p v]. specialize (Hp p v). rewrite (ri_link _ _ _ Hi) in Hp.
  unfold on_vc in Hp. rewrite filter_app in Hp. fold (on_vc v (on_port p (w_arr w))) in Hp.
  rewrite (ri_asm _ _ _ Hi), Ha, <- app_assoc in Hp. by apply pstream_next in Hp.
Qed.

Lemma dlv_on_deliver k k' f b l : dlv_on k (l ++ [mk_delivery k'.1 k'.2 f b]) = dlv_on k l ++ if decide (k' = k) then [f] else [].
Proof. destruct k'. apply dlv_on_snoc. Qed.

Lemma rx_step_packet put ret w w' : packets_arrive put -> rx_inv put ret w -> packet_inv w -> rx_step w w' -> packet_inv w'.
Proof.
  intros Hp Hi [H1 H2 H3 H4] Hs. destruct Hs as [w' (E1 & E2 & E3 & E4 & E5 & E6)|p f t rest v Hl Hf Hv Hr|k Hlk Hst Hk1 Hk2
    |k f rest Hlk Ha|k k' f rest Hlk Hk Ha Ht].
  - split; intros; rewrite ?E4, ?E6 in *; auto.
  - by split.
  - split; cbn [w_lock w_dlv]; try done.
    + intros k' [= <-]. rewrite H3 by congruence. by rewrite H4.
    + intros k' _. apply H3. congruence.
  - pose proof (front_fits _ _ _ _ _ _ Hp Hi Ha) as Hfit. rewrite (H2 k Hlk) in Hfit.
    split; unfold deliver; cbn [w_lock w_dlv]; rewrite ?main_stream_snoc; cbn [dl_bypass dl_flit].
    + by constructor.
    + intros k' E. destruct (is_tail f) eqn:Ht; [done|]. injection E as <-.
      rewrite dlv_on_deliver, decide_True, !cur_snoc, H2 by done. done.
    + intros k' E. rewrite dlv_on_deliver. case_decide as Ek.
      * subst k'. rewrite cur_snoc. unfold next_cur. by destruct (is_tail f).
      * rewrite app_nil_r. apply H3. congruence.
    + destruct (is_tail f) eqn:Ht; [|done]. intros _. rewrite cur_snoc. unfold next_cur. by rewrite Ht.
  - split; unfold deliver; cbn [w_lock w_dlv]; rewrite ?main_stream_snoc; cbn [dl_bypass dl_flit]; rewrite ?app_nil_r; try done.
    + intros k2 E. rewrite dlv_on_deliver. rewrite decide_False by congruence. rewrite app_nil_r. by apply H2.
    + intros k2 E. rewrite dlv_on_deliver. case_decide as Ek.
      * rewrite cur_snoc. unfold next_cur, is_tail. by rewrite Ht.
      * rewrite app_nil_r. by apply H3.
Qed.
Lemma rx_steps_packet put ret w w' : packets_arrive put -> rx_inv put ret w -> packet_inv w -> rtc rx_step w w' ->
  packet_inv w'.
Proof. intros Hp Hi Hk. induction 1; eauto using rx_step_inv, rx_step_packet. Qed.

(** *** Stream packets *)

(** The packet of the locked channel has started or can start; if it is a stream packet, the
    flits the unit has not got yet are all in the assembler. *)
Definition locked_whole w : Prop := forall k, w_lock w = Some k ->
  let sofar := cur (main_stream (w_dlv w)) in
  exists f rest, sofar ++ w_asm w k = f :: rest /\
    (u_is_axis (fl_msg f) = true ->
     exists r, r <> [] /\ r `prefix_of` w_asm w k /\ is_packet (sofar ++ r)).

Lemma complete_size (q : list (flit M)) f rest m window : q = f :: rest ->
  nc_status (checkNppReceivePrefix (receive_view <$> q) m window) = Complete ->
  1 <= fl_size f <= nz (length q).
Proof.
  intros -> E. rewrite fmap_cons in E. apply checkNppReceivePrefix_accepts in E as [((Hn & _) & _) [_ Hc]]; [|by left].
  specialize (proj1 Hc eq_refl). cbn [nf_count receive_view length] in *. rewrite length_fmap. lia.
Qed.

Lemma rx_step_whole put ret w w' : packets_arrive put -> rx_inv put ret w -> packet_inv w -> locked_whole w ->
  rx_step w w' -> locked_whole w'.
Proof.
  intros Hp Hi Hk Hw Hs. destruct Hs as [w' (E1 & E2 & E3 & E4 & E5 & E6)|p f t rest v Hl Hf Hv Hr|k Hlk Hst Hk1 Hk2
    |k f rest Hlk Ha|k k' f rest Hlk Hne Ha Ht]; intros q Eq; cbn zeta.
  - rewrite E4, E6, E2 in *. by apply Hw.
  - cbn [w_lock w_dlv w_asm] in *. destruct (Hw q Eq) as (g & rest' & Eg & Hg).
    destruct (decide (q = (p, v))) as [-> |Hq]; [rewrite fn_lookup_insert|rewrite fn_lookup_insert_ne by done; by exists g, rest'].
    exists g, (rest' ++ [f]). rewrite app_assoc, Eg. split; [done|]. intros Hax. destruct (Hg Hax) as (r & Hr1 & Hr2 & Hr3).
    exists r. split; [done|]. split; [by apply prefix_app_r|done].
  - injection Eq as <-. cbn [w_lock w_dlv w_asm] in *. rewrite (pk_none _ Hk Hlk). destruct Hst as (f & rest & Ea & Hax).
    exists f, rest. split; [done|]. intros Hx. destruct (Hax Hx) as (window & Hwin).
    pose proof (complete_size _ _ _ _ _ Ea Hwin) as Hsz. exists (take (zn (fl_size f)) (w_asm w k)). split_and!.
    + rewrite Ea. destruct (zn (fl_size f)) eqn:En; [lia|done].
    + apply prefix_take.
    + cbn. rewrite Ea in *. apply (pstream_front (dlv_on k (w_dlv w))); [|destruct k as [p v]|lia].
      * apply (pk_other _ Hk). congruence.
      * specialize (Hp p v). rewrite (ri_link _ _ _ Hi) in Hp. unfold on_vc in Hp. rewrite filter_app in Hp.
        fold (on_vc v (on_port p (w_arr w))) in Hp. rewrite (ri_asm _ _ _ Hi), Ea in Hp. by apply pstream_prefix in Hp.
  - cbn [deliver w_lock] in Eq. destruct (is_tail f) eqn:Ht; [done|]. injection Eq as <-. unfold deliver. cbn [w_dlv w_asm].
    rewrite main_stream_snoc, fn_lookup_insert, Ha. cbn [dl_bypass dl_flit tail]. rewrite cur_snoc. unfold next_cur. rewrite Ht.
    destruct (Hw k Hlk) as (g & rest' & Eg & Hg). rewrite Ha in Eg, Hg. rewrite <- app_assoc. exists g, rest'. split; [exact Eg|].
    intros Hax. destruct (Hg Hax) as (r & Hr1 & [r2 Hr2] & Hr3). destruct r as [|f' r]; [done|]. injection Hr2 as <- Hr2.
    exists r. split_and!; [|by exists r2|by rewrite <- app_assoc].
    intros ->. destruct (packet_prefix_tail (cur (main_stream (w_dlv w)) ++ [f]) (cur (main_stream (w_dlv w))) f Hr3) as [Htl _]; [done|].
    rewrite (proj2 Htl eq_refl) in Ht. done.
  - cbn [deliver w_lock] in Eq. unfold deliver. cbn [w_dlv w_asm]. rewrite main_stream_snoc. cbn [dl_bypass]. rewrite app_nil_r.
    assert (q = k) as -> by congruence. rewrite fn_lookup_insert_ne by done. by apply Hw.
Qed.
Lemma rx_steps_whole put ret w w' : packets_arrive put -> rx_inv put ret w -> packet_inv w -> locked_whole w ->
  rtc rx_step w w' -> locked_whole w'.
Proof. intros Hp Hi Hk Hw. induction 1; eauto using rx_step_inv, rx_step_packet, rx_step_whole. Qed.
End Input.

(** ** Runs *)

(** A unit touches the output side only by injecting flits. *)
Class UnitInjects {M U : Type} `{!NocUnit M U} (c : nicfg) : Prop :=
  u_injects now (u : U) (o : niOut M) m v ok u' o' :
    u_flitisizeMessage now u o m v = Ok (ok, u', o') -> injects c now o o'.

Section Run.
Context {M U : Type} `{!NocUnit M U} (c : nicfg) `{!UnitInjects c}.
Implicit Types (s : netif M U).

(** The credits of a channel under way to the interface. *)
Definition pending (v : nat) s : Z :=
  sumZ ((fun p => nz (length (filter (fun x => x.1.1 = v) (ni_clink s p)))) <$> seq 0 (nc_outs c)).

Definition ni_init (u : U) (bufs : list (option (@mbuf M))) : netif M U :=
  {| ni_unit := u; ni_in := bufs;
     ni_out := mk_niOut (fun _ => []) (nc_max c) (fun _ => 0%nat) (fun _ => ∅) [] [];
     ni_clink _ := [];
     ni_rx := mk_niIn (fun _ => []) (fun _ => []) (fun _ => 0%nat) (fun _ => []) (fun _ => ∅) None 0%nat;
     ni_cb := ∅; ni_wake := ∅; ni_arr := []; ni_dlv := [] |}.

Definition put_link (p : nat) (f : flit M) (t : Z) s : netif M U :=
  let i := ni_rx s in
  set_rx (mk_niIn (<[p := ii_link i p ++ [(f, t)]]> (ii_link i)) (ii_asm i) (ii_next i) (ii_cred i) (ii_cwake i)
            (ii_lock i) (ii_nextport i)) s.
Definition take_credit (p : nat) (rest : list (Z * bool)) s : netif M U :=
  let i := ni_rx s in
  set_rx (mk_niIn (ii_link i) (ii_asm i) (ii_next i) (<[p := rest]> (ii_cred i)) (ii_cwake i) (ii_lock i)
            (ii_nextport i)) s.

(** The interface wakes up, the unit or the endpoint does something, a flit or a credit
    arrives on a link, or a link takes a credit.  A router returns credits for flits it got. *)
Inductive ni_reach : netif M U -> list (nat * flit M) -> list (nat * (Z * bool)) -> Prop :=
| nr_init u bufs : ni_reach (ni_init u bufs) [] []
| nr_wakeup s put ret now s' :
    ni_reach s put ret -> processCurrentEvent c now s = Ok s' -> ni_reach s' put ret
| nr_unit s put ret now u o :
    ni_reach s put ret -> injects c now (ni_out s) o -> ni_reach (set_out o (set_unit u s)) put ret
| nr_endpoint s put ret bufs cb wake :
    ni_reach s put ret -> ni_reach (set_in bufs (set_cb cb (set_wake wake s))) put ret
| nr_arrive s put ret p f t :
    ni_reach s put ret -> ni_reach (put_link p f t s) (put ++ [(p, f)]) ret
| nr_credit s put ret p v free t :
    ni_reach s put ret -> (p < nc_outs c)%nat -> no_credit (ni_out s) v + pending v s < nc_max c v ->
    ni_reach (set_clink (<[p := ni_clink s p ++ [(v, free, t)]]> (ni_clink s)) s) put ret
| nr_taken s put ret p x rest :
    ni_reach s put ret -> ii_cred (ni_rx s) p = x :: rest -> ni_reach (take_credit p rest s) put (ret ++ [(p, x)]).

Lemma takeMessage_steps now s v s' : takeMessage c now s v = Ok s' ->
  rtc (out_step c) (ni_out s) (ni_out s') /\ wires s' = wires s /\ ni_clink s' = ni_clink s.
Proof using UnitInjects0.
  unfold takeMessage. intros E. destruct (ni_in s !! v) as [[b|]|]; [|by injection E as <-..].
  apply rbind_Ok in E as ([ready again] & _ & E).
  set (s1 := if again then wake_next c now s else s) in E.
  assert (ni_out s1 = ni_out s /\ wires s1 = wires s /\ ni_clink s1 = ni_clink s) as (H1 & H2 & H3)
    by (unfold s1; by destruct again).
  destruct ready; [|by injection E as <-; rewrite H1]. apply rbind_Ok in E as (m & _ & E).
  apply rbind_Ok in E as ([[ok u] o] & Eu & E). apply u_injects, injects_steps in Eu. rewrite H1 in Eu.
  destruct ok; [apply rbind_Ok in E as ([[? ?] b'] & _ & E)|]; injection E as <-; done.
Qed.

(** Changing one summand. *)
Lemma sum_change (g h : nat -> Z) p n : (p < n)%nat -> (forall q, q <> p -> h q = g q) ->
  sumZ (h <$> seq 0 n) = sumZ (g <$> seq 0 n) - g p + h p.
Proof.
  intros Hp Hh. induction n as [|n IH]; [lia|]. rewrite seq_S, !fmap_app, !sumZ_app. cbn.
  destruct (decide (p = n)) as [-> |Hne]; [|rewrite IH, (Hh n) by lia; lia].
  assert (h <$> seq 0 n = g <$> seq 0 n) as -> by (apply list_fmap_ext; intros i x Hx; apply lookup_seq in Hx as [-> ?]; apply Hh; lia).
  lia.
Qed.

(** Taking credits from the links. *)
Definition credits_taken s s' : Prop :=
  wires s' = wires s /\ no_q (ni_out s') = no_q (ni_out s) /\ no_inj (ni_out s') = no_inj (ni_out s) /\
  no_sent (ni_out s') = no_sent (ni_out s) /\
  forall v, no_credit (ni_out s) v <= no_credit (ni_out s') v /\
    no_credit (ni_out s') v + pending v s' = no_credit (ni_out s) v + pending v s.

Lemma takeCredit_taken now s p s' : (p < nc_outs c)%nat -> takeCredit c now s p = Ok s' -> credits_taken s s'.
Proof.
  unfold takeCredit. intros Hp E. destruct (ni_clink s p) as [|[[v free] t] rest] eqn:El; [by injection E as <-|].
  destruct (now <? t); [by injection E as <-|]. apply guard_Ok in E as [_ E]. apply guard_Ok in E as [_ E].
  injection E as <-. split_and!; try done. intros w. cbn.
  assert (pending w (set_clink (<[p := rest]> (ni_clink s))
     (set_out (mk_niOut (no_q (ni_out s)) (<[v := no_credit (ni_out s) v + 1]> (no_credit (ni_out s))) (no_rr (ni_out s))
        (no_link (ni_out s)) (no_inj (ni_out s)) (no_sent (ni_out s))) s)) = pending w s - if decide (v = w) then 1 else 0) as Hpend.
  { unfold pending. cbn. rewrite (sum_change (fun p => nz (length (filter (fun x => x.1.1 = w) (ni_clink s p)))) _ p);
      [|done|intros q Hq; by rewrite fn_lookup_insert_ne].
    rewrite fn_lookup_insert, El, filter_cons. cbn. case_decide; cbn; lia. }
  rewrite Hpend. destruct (decide (v = w)) as [-> |Hne]; [rewrite fn_lookup_insert|rewrite fn_lookup_insert_ne by done]; lia.
Qed.

Lemma credits_taken_trans s1 s2 s3 : credits_taken s1 s2 -> credits_taken s2 s3 -> credits_taken s1 s3.
Proof.
  intros (A1 & A2 & A3 & A4 & A5) (B1 & B2 & B3 & B4 & B5). split_and!; [congruence..|].
  intros v. destruct (A5 v), (B5 v). lia.
Qed.

Lemma checkReschedule_wake now s s' : checkReschedule c now s = Ok s' -> exists wk, s' = set_wake wk s.
Proof.
  unfold checkReschedule. intros E. apply rbind_Ok in E as ([r a] & _ & E).
  assert (exists wk, (if a then wake_next c now s else s) = set_wake wk s) as [wk Hw]
    by (destruct a; [by eexists|exists (ni_wake s); by destruct s]).
  rewrite Hw in E. destruct r; [injection E as <-; by eexists|]. destruct (existsb _ _); [injection E as <-; by eexists|].
  destruct (front_times _ _); [|destruct (now <? _); [injection E as <-; by eexists|]];
    destruct (work_left _ _ _); injection E as <-; by eexists.
Qed.

(** What a wakeup does: flits are injected and sent, then flits are received and given to
    the unit, then credits are taken. *)
Lemma wakeup_steps now s s' : wakeup c now s = Ok s' ->
  exists s1, rtc (out_step c) (ni_out s) (ni_out s1) /\ rtc (rx_step c) (wires s) (wires s1) /\
    ni_clink s1 = ni_clink s /\ credits_taken s1 s'.
Proof using UnitInjects0.
  unfold wakeup. intros E. apply rbind_Ok in E as (s1 & E1 & E). apply rbind_Ok in E as (o & E2 & E).
  apply rbind_Ok in E as (s3 & E3 & E). apply rbind_Ok in E as (i & E4 & E). apply rbind_Ok in E as (s5 & E5 & E).
  apply rbind_Ok in E as (s6 & E6 & E). exists s5.
  eapply (foldM_inv (fun x => rtc (out_step c) (ni_out s) (ni_out x) /\ wires x = wires s /\ ni_clink x = ni_clink s)) in E1
    as (A1 & A2 & A3); [|intros x v y _ (B1 & B2 & B3) (C1 & C2 & C3)%takeMessage_steps; split_and!; [by etrans|congruence..]|done].
  apply scheduleOutputLink_steps in E2.
  eapply (foldM_inv (fun x => rtc (rx_step c) (wires s) (wires x) /\ ni_out x = o /\ ni_clink x = ni_clink s)) in E3
    as (B1 & B2 & B3);
    [|intros x p y _ (C1 & C2 & C3) (F1 & F2 & F3)%receivePort_steps; split_and!; [by etrans|congruence..]
    |split_and!; [change (wires (set_out o s1)) with (wires s1); by rewrite A2|done|done]].
  apply lockAssembler_steps in E4. destruct (drainLocked_steps _ _ _ _ E5) as (D1 & D2 & D3). split_and!.
  - rewrite D2. change (ni_out (set_rx i s3)) with (ni_out s3). rewrite B2. by etrans.
  - etrans; [exact B1|]. etrans; [exact E4|exact D1].
  - rewrite D3. exact B3.
  - assert (credits_taken s5 s6) as H6.
    { eapply (foldM_inv (fun x => credits_taken s5 x)) in E6; [done| |done].
      intros x p y Hin Hx Hy. eapply credits_taken_trans; [exact Hx|]. eapply takeCredit_taken; [|exact Hy].
      apply elem_of_seq in Hin. lia. }
    eapply credits_taken_trans; [exact H6|]. apply checkReschedule_wake in E as [wk ->]. done.
Qed.

(** ** The invariant of a run *)

Record ni_inv s (put : list (nat * flit M)) (ret : list (nat * (Z * bool))) : Prop := {
  nv_out : out_ok c (ni_out s);
  nv_credit v : no_credit (ni_out s) v + pending v s <= nc_max c v;
  nv_rx : rx_inv put ret (wires s)
}.

Lemma credits_taken_ok s s' : credits_taken s s' -> out_ok c (ni_out s) -> out_ok c (ni_out s').
Proof.
  intros (_ & E1 & E2 & E3 & E4) [H1 H2 H3 H4 H5]. unfold inj_on, sent_on in *. split; unfold inj_on, sent_on; rewrite ?E1, ?E2, ?E3; try done.
  intros v. destruct (E4 v). specialize (H3 v). lia.
Qed.

Lemma wakeup_inv now s s' put ret : ni_inv s put ret -> wakeup c now s = Ok s' -> ni_inv s' put ret.
Proof using UnitInjects0.
  intros [H1 H2 H3] (s1 & E1 & E2 & E3 & E4)%wakeup_steps. split.
  - eapply credits_taken_ok; [exact E4|]. by eapply out_steps_ok.
  - intros v. destruct E4 as (_ & _ & _ & _ & E4). destruct (E4 v) as [_ ->]. specialize (H2 v).
    apply (out_steps_credit _ _ _ v) in E1. unfold pending in *. rewrite E3. lia.
  - destruct E4 as (-> & _). by eapply rx_steps_inv.
Qed.

Lemma arrive_inv put ret (w : @wire M) p f t : rx_inv put ret w ->
  rx_inv (put ++ [(p, f)]) ret (mk_wire (<[p := w_link w p ++ [(f, t)]]> (w_link w)) (w_asm w) (w_cred w) (w_lock w) (w_arr w) (w_dlv w)).
Proof.
  intros [H1 H2 H3 H4 H5]. split; try done. intros q. rewrite on_port_snoc, H1, <- app_assoc. cbn [w_arr w_link]. f_equal.
  case_decide as E; [subst q; by rewrite fn_lookup_insert, fmap_app|]. rewrite fn_lookup_insert_ne by done. by rewrite app_nil_r.
Qed.

Lemma pending_nil v s : (forall p, ni_clink s p = []) -> pending v s = 0.
Proof.
  intros H. unfold pending. induction (seq 0 (nc_outs c)) as [|x l IH]; [done|]. rewrite fmap_cons, sumZ_cons, IH, H. done.
Qed.

Lemma ni_reach_inv s put ret : (forall v, 0 <= nc_max c v) -> ni_reach s put ret -> ni_inv s put ret.
Proof using UnitInjects0.
  intros Hmax. induction 1 as [u bufs|s put ret now s' _ [H1 H2 H3] E|s put ret now u o _ [H1 H2 H3] E|s put ret bufs cb wake _ [H1 H2 H3]
    |s put ret p f t _ [H1 H2 H3]|s put ret p v free t _ [H1 H2 H3] Hp Hc|s put ret p x rest _ [H1 H2 H3] Hc].
  - split; [by split|intros v|by split]. rewrite pending_nil by done. cbn. lia.
  - eapply wakeup_inv; [|exact E]. by split.
  - apply injects_steps in E. split; [by eapply out_steps_ok| |done].
    intros v. apply (out_steps_credit _ _ _ v) in E. specialize (H2 v). unfold pending in *. cbn. lia.
  - by split.
  - split; [done|done|]. exact (arrive_inv _ _ (wires s) p f t H3).
  - split; [done| |done]. intros w. unfold pending. cbn.
    rewrite (sum_change (fun p => nz (length (filter (fun x => x.1.1 = w) (ni_clink s p)))) _ p);
      [|done|intros q Hq; by rewrite fn_lookup_insert_ne].
    rewrite fn_lookup_insert, filter_app, length_app, filter_cons. cbn. fold (pending w s). specialize (H2 w).
    case_decide; cbn; subst; lia.
  - split; [done|done|]. destruct H3 as [A1 A2 A3 A4 A5]. split; try done. intros q. cbn [take_credit set_rx wires w_cred w_dlv ni_rx ni_dlv ii_cred].
    unfold ret_port. rewrite filter_app, fmap_app, filter_cons. cbn. fold (ret_port q ret). rewrite <- A4.
    case_decide as E; [subst q; rewrite fn_lookup_insert; cbn; rewrite Hc, <- app_assoc; done|].
    rewrite fn_lookup_insert_ne by done. cbn. by rewrite app_nil_r.
Qed.

Lemma packets_before (put : list (nat * flit M)) x : packets_arrive (put ++ [x]) -> packets_arrive put.
Proof.
  intros H p v. specialize (H p v). destruct x as [q f]. rewrite on_port_snoc in H. unfold on_vc in *.
  rewrite filter_app in H. by apply pstream_prefix in H.
Qed.

Lemma ni_reach_packet s put ret : (forall v, 0 <= nc_max c v) -> ni_reach s put ret -> packets_arrive put ->
  packet_inv (wires s) /\ locked_whole (wires s).
Proof using UnitInjects0.
  intros Hmax. induction 1 as [u bufs|s put ret now s' Hr IH E|s put ret now u o _ IH E|s put ret bufs cb wake _ IH
    |s put ret p f t _ IH|s put ret p v free t _ IH Hp Hc|s put ret p x rest _ IH Hc]; intros Hput; try (exact (IH Hput)).
  - split; [split; try done; constructor|done].
  - apply wakeup_steps in E as (s1 & _ & E & _ & (-> & _)). destruct (IH Hput) as [Hk Hw].
    pose proof (nv_rx _ _ _ (ni_reach_inv _ _ _ Hmax Hr)) as Hi. split.
    + by eapply (rx_steps_packet c put ret (wires s)).
    + by eapply (rx_steps_whole c put ret (wires s)).
  - apply packets_before in Hput. destruct (IH Hput) as [[] Hw]. split; [by split|exact Hw].
  - destruct (IH Hput) as [[] Hw]. split; [by split|exact Hw].
Qed.

(** C34: the flits a unit injects leave the interface in order.  In every run, the flits
    injected in a channel are those sent from it followed by those in its queue of at most
    sixteen; every flit was sent by the output port of its source router that supports its
    virtual network, or else the first port that does; and the credits of a channel are
    never negative and never exceed, with those on the links, the depth of the router's
    buffer. *)
Theorem ni_sends_in_order s put ret v :
  (forall v, 0 <= nc_max c v) -> ni_reach s put ret ->
  inj_on v (ni_out s) = sent_on v (ni_out s) ++ (no_q (ni_out s) v).*1 /\
  nz (length (no_q (ni_out s) v)) <= kNiOutVcMaxFlits /\
  Forall (fun x => flit_port c x.2 = Some x.1.1 /\ fl_vc x.2 = nz x.1.2) (no_sent (ni_out s)) /\
  0 <= no_credit (ni_out s) v /\ no_credit (ni_out s) v + pending v s <= nc_max c v.
Proof using UnitInjects0.
  intros Hmax Hr. destruct (ni_reach_inv _ _ _ Hmax Hr) as [[H1 H2 H3 H4 H5] Hc _]. by split_and!.
Qed.

(** C7: the unit gets what arrives, one packet at a time.  If every channel of every link
    carries whole packets, then in every run: the flits of a channel are those the unit
    took, then those in its assembler, at most seven, then those on the link; the flits the
    unit took form whole packets, not interleaved, followed by a part of one packet that is
    there only while a channel is locked; only packets of one flit bypass this order; and
    the credits returned on a link are those of the flits taken from it, in order, with
    the free signal on tails. *)
Theorem ni_delivers_packets s put ret :
  (forall v, 0 <= nc_max c v) -> ni_reach s put ret -> packets_arrive put ->
  (forall p v, on_vc v (on_port p put) =
     dlv_on (p, v) (ni_dlv s) ++ ii_asm (ni_rx s) (p, v) ++ on_vc v (ii_link (ni_rx s) p).*1 /\
     nz (length (ii_asm (ni_rx s) (p, v))) <= kNppAssemblerMaxFlits) /\
  pstream (main_stream (ni_dlv s)) /\
  (ii_lock (ni_rx s) = None -> cur (main_stream (ni_dlv s)) = []) /\
  Forall (fun d => dl_bypass d = true -> fl_type (dl_flit d) = HEAD_TAIL_) (ni_dlv s) /\
  (forall p, ret_port p ret ++ ii_cred (ni_rx s) p = credit_of <$> dlv_port p (ni_dlv s)).
Proof using UnitInjects0.
  intros Hmax Hr Hput. destruct (ni_reach_inv _ _ _ Hmax Hr) as [_ _ [H1 H2 H3 H4 H5]].
  destruct (ni_reach_packet _ _ _ Hmax Hr Hput) as [[P1 P2 P3 P4] _]. split_and!; try done.
  intros p v. split; [|apply H3]. rewrite (H1 p). unfold on_vc at 1. rewrite filter_app. fold (on_vc v (on_port p (ni_arr s))).
  cbn [wires w_arr w_link]. rewrite app_assoc. f_equal. apply H2.
Qed.

(** A stream packet never holds the unit while it waits for the network.  In every run
    where channels carry whole packets, the packet of a locked channel has a first flit,
    taken or in the assembler, and if it is a stream packet, all its flits that the unit has
    not taken are in the assembler. *)
Theorem ni_stream_packet_there s put ret k :
  (forall v, 0 <= nc_max c v) -> ni_reach s put ret -> packets_arrive put -> ii_lock (ni_rx s) = Some k ->
  let taken := cur (main_stream (ni_dlv s)) in
  exists f rest, taken ++ ii_asm (ni_rx s) k = f :: rest /\
    (u_is_axis (fl_msg f) = true ->
     exists r, r <> [] /\ r `prefix_of` ii_asm (ni_rx s) k /\ is_packet (taken ++ r)).
Proof using UnitInjects0.
  intros Hmax Hr Hput Hk. destruct (ni_reach_packet _ _ _ Hmax Hr Hput) as [_ Hw]. exact (Hw k Hk).
Qed.
End Run.
