(* ===== verification/NetIfaceLive.v ===== *)
(** * Progress of a network interface

    No wakeup is lost: an interface that has work left when it goes to sleep has a wakeup
    scheduled.  The round robin of the output ports passes a channel that can send over at
    most as many times as there are other channels.  With senders that respect the
    receive window, assemblers never stop a link. *)

From stdpp Require Import functions.
From S2P Require Import Prelude NppReceive Flit MsgBuffer Router Stream MmNmu NetIface NetIfaceRun.

(** ** Wakeups *)

Section Wake.
Context {M U : Type} `{!NocUnit M U} (c : nicfg).
Implicit Types (s : netif M U).

(** What an interface may have left to do at [now]: a message whose arrival tick has passed is at
    the front of a protocol buffer, a flit waits in an output queue, a packet is locked, an
    assembler holds flits, or the flit or credit at the front of a link has arrived. *)
Inductive has_work (now : Z) s : Prop :=
| hw_message b e rest : Some b ∈ ni_in s -> m_prio_heap b = e :: rest -> me_time e <= now -> has_work now s
| hw_queued v : (v < nc_vcs c)%nat -> no_q (ni_out s) v <> [] -> has_work now s
| hw_locked k : ii_lock (ni_rx s) = Some k -> has_work now s
| hw_assembled p v : (p < nc_ins c)%nat -> (v < nc_vcs c)%nat -> ii_asm (ni_rx s) (p, v) <> [] -> has_work now s
| hw_flit p f t rest : (p < nc_ins c)%nat -> ii_link (ni_rx s) p = (f, t) :: rest -> t <= now -> has_work now s
| hw_credit p x t rest : (p < nc_outs c)%nat -> ni_clink s p = (x, t) :: rest -> t <= now -> has_work now s.

Lemma has_work_wake now wk s : has_work now (set_wake wk s) -> has_work now s.
Proof. by destruct 1; [eapply hw_message|eapply hw_queued|eapply hw_locked|eapply hw_assembled|eapply hw_flit|eapply hw_credit]. Qed.

Lemma existsb_seq (f : nat -> bool) n i : (i < n)%nat -> f i = true -> existsb f (seq 0 n) = true.
Proof. intros Hi Hf. apply existsb_exists. exists i. split; [apply in_seq; lia|done]. Qed.

(** The test of [checkReschedule] finds the work of the receiving side and on the credit links. *)
Lemma has_work_cases now s : has_work now s ->
  (exists b e rest, Some b ∈ ni_in s /\ m_prio_heap b = e :: rest /\ me_time e <= now) \/
  (exists v, (v < nc_vcs c)%nat /\ no_q (ni_out s) v <> []) \/ work_left c now s = true.
Proof.
  intros [b e rest H1 H2 H3|v H1 H2|k H1|p v H1 H2 H3|p f t rest H1 H2 H3|p x t rest H1 H2 H3]; [left; by eauto 6|right; left; by eauto|..];
    right; right; unfold work_left; rewrite ?orb_true_iff.
  - left. left. left. by rewrite H1.
  - left. left. right. eapply existsb_seq; [exact H1|]. eapply existsb_seq; [exact H2|]. by destruct (ii_asm _ _).
  - left. right. eapply existsb_seq; [exact H1|]. rewrite H2. by apply Z.leb_le.
  - right. eapply existsb_seq; [exact H1|]. rewrite H2. by apply Z.leb_le.
Qed.

(** The tick a flit that is ready at [t] wakes the interface. *)
Definition wake_tick (t : Z) : Z := (t + nc_period c - 1) / nc_period c * nc_period c.

Lemma front_times_spec (o : niOut M) t :
  t ∈ front_times c o <-> exists v f rest, (v < nc_vcs c)%nat /\ no_q o v = (f, t) :: rest.
Proof.
  unfold front_times. rewrite list_elem_of_omap. split.
  - intros (v & Hv & Ht). apply elem_of_seq in Hv. destruct (no_q o v) as [|[f t'] rest] eqn:Eq; [done|].
    cbn in Ht. injection Ht as <-. exists v, f, rest. split; [lia|done].
  - intros (v & f & rest & Hv & Hq). exists v. split; [apply elem_of_seq; lia|]. by rewrite Hq.
Qed.

Lemma arrived_ready (b : @mbuf M) now e rest r a : m_prio_heap b = e :: rest -> me_time e <= now ->
  mb_isReady (nc_mb c) b now = Ok (r, a) -> r || a = true.
Proof.
  intros Eb He E. unfold mb_isReady in E. apply guard_Ok in E as [_ E]. rewrite Eb, (proj2 (Z.leb_le _ _) He) in E.
  injection E as <- <-. rewrite !andb_true_r. apply orb_negb_r.
Qed.
Lemma anyReady_asks now (l : list (option (@mbuf M))) ra b : anyReady c now l = Ok ra -> Some b ∈ l ->
  (exists x, mb_isReady (nc_mb c) b now = Ok x) \/ ra.1 = true.
Proof.
  revert ra. induction l as [|x l IH]; intros [r a] E Hin; [by apply not_elem_of_nil in Hin|]. cbn in E.
  apply elem_of_cons in Hin as [<-|Hin]; [apply rbind_Ok in E as (y & E & _); left; by exists y|].
  destruct x as [b'|]; [|by eapply IH]. apply rbind_Ok in E as ([r1 a1] & _ & E). destruct r1; [injection E as <- <-; by right|].
  apply rbind_Ok in E as ([r2 a2] & E & [= <- <-]). exact (IH (r2, a2) E Hin).
Qed.
Lemma anyReady_true now (l : list (option (@mbuf M))) r a b ready again : anyReady c now l = Ok (r, a) ->
  Some b ∈ l -> mb_isReady (nc_mb c) b now = Ok (ready, again) -> ready || again = true -> r || a = true.
Proof.
  revert r a. induction l as [|x l IH]; intros r a E Hin Hb Hr; [by apply not_elem_of_nil in Hin|].
  cbn in E. apply elem_of_cons in Hin as [<-|Hin].
  - rewrite Hb in E. cbn in E. destruct ready; [injection E as <- <-; done|]. cbn in Hr. subst again.
    apply rbind_Ok in E as ([r1 a1] & _ & [= <- <-]). by rewrite orb_true_r.
  - destruct x as [b'|]; [|by eapply IH]. apply rbind_Ok in E as ([r1 a1] & _ & E).
    destruct r1; [by injection E as <- <-|]. apply rbind_Ok in E as ([r2 a2] & E & [= <- <-]).
    pose proof (IH _ _ E Hin Hb Hr) as H. destruct r2; [done|]. cbn in *. subst a2. by rewrite orb_true_r.
Qed.

Lemma fold_min_elem t l : foldr Z.min t l ∈ t :: l.
Proof.
  induction l as [|x l IH]; cbn; [by left|]. apply elem_of_cons in IH as [E|IH].
  - rewrite E. destruct (Z.min_spec x t) as [[_ ->]|[_ ->]]; [by right; left|by left].
  - destruct (Z.min_spec x (foldr Z.min t l)) as [[_ ->]|[_ ->]]; [by right; left|by right; right].
Qed.

Lemma wake_tick_ge t : 0 < nc_period c -> t <= wake_tick t.
Proof. intros. unfold wake_tick. mlia. Qed.

(** The tick [checkReschedule] leaves scheduled. *)
Definition wakes_at (now : Z) s (t : Z) : Prop :=
  now < t /\ t ∈ ni_wake s /\
  (t = now + nc_period c \/ exists v f x rest, (v < nc_vcs c)%nat /\ no_q (ni_out s) v = (f, x) :: rest /\ t = wake_tick x).

Lemma wake_next_at now s : 0 < nc_period c -> wakes_at now (wake_next c now s) (now + nc_period c).
Proof. intros. split; [lia|]. split; [cbn; set_solver|by left]. Qed.

Lemma checkReschedule_wakes now s s' : 0 < nc_period c -> checkReschedule c now s = Ok s' -> has_work now s ->
  exists t, wakes_at now s' t.
Proof.
  intros Hp E Hw. unfold checkReschedule in E. apply rbind_Ok in E as ([r a] & Ea & E).
  set (s1 := if a then wake_next c now s else s) in E.
  assert (ni_out s1 = ni_out s /\ work_left c now s1 = work_left c now s) as [Eo El] by (unfold s1; by destruct a).
  destruct r; [injection E as <-; eexists; by apply wake_next_at|].
  destruct (existsb _ _) eqn:Ee in E; [injection E as <-; eexists; by apply wake_next_at|].
  destruct a; [exists (now + nc_period c)|].
  { assert (wakes_at now s1 (now + nc_period c)) as (H1 & H2 & _) by (by apply wake_next_at). split; [done|].
    split; [|by left]. destruct (front_times _ _); [|destruct (now <? _); [injection E as <-; by apply elem_of_union_r|]];
      (destruct (work_left _ _ _); injection E as <-; [by apply elem_of_union_r|done]). }
  subst s1. rewrite <- not_true_iff_false, existsb_exists in Ee.
  destruct (front_times c (ni_out s)) as [|t l] eqn:Ef.
  - apply has_work_cases in Hw as [(b & e & rest & Hin & Hb & Hr)|[(v & Hv & Hq)|Hw]].
    + exfalso. destruct (anyReady_asks _ _ _ _ Ea Hin) as [[[r1 a1] E1]|?]; [|done].
      pose proof (anyReady_true _ _ _ _ _ _ _ Ea Hin E1 (arrived_ready _ _ _ _ _ _ Hb Hr E1)). done.
    + exfalso. destruct (no_q (ni_out s) v) as [|[f x] rest] eqn:Eq; [done|].
      assert (x ∈ front_times c (ni_out s)) as Hx by (apply front_times_spec; eauto). rewrite Ef in Hx.
      by apply not_elem_of_nil in Hx.
    + rewrite Hw in E. injection E as <-. eexists. by apply wake_next_at.
  - assert (foldr Z.min t l ∈ front_times c (ni_out s)) as Hm by (rewrite Ef; apply fold_min_elem).
    assert (now + nc_period c < foldr Z.min t l) as Hlt.
    { apply Z.nle_gt. intros Hle. apply Ee. exists (foldr Z.min t l). split; [by apply list_elem_of_In; rewrite <- Ef|by apply Z.leb_le]. }
    rewrite (proj2 (Z.ltb_lt now _)) in E by lia. injection E as <-.
    apply front_times_spec in Hm as (v & f & rest & Hv & Hq). exists (wake_tick (foldr Z.min t l)).
    pose proof (wake_tick_ge (foldr Z.min t l) Hp). split; [lia|]. split; [cbn; unfold wake_tick; set_solver|].
    right. by exists v, f, (foldr Z.min t l), rest.
Qed.

(** C33: no wakeup is lost.  After a wakeup at [now], if a message at the front of a
    protocol buffer has arrived, a flit waits in an output queue, a packet is locked, an assembler
    holds a flit, or a flit or credit has arrived on a link, then a later wakeup is scheduled:
    in the next cycle, or at the tick a flit in an output queue becomes ready.  Links of
    ports with credits to return are scheduled for the next cycle. *)
Theorem ni_wakes_for_work now s s' :
  0 < nc_period c -> wakeup c now s = Ok s' ->
  (has_work now s' -> exists t, wakes_at now s' t) /\
  (forall p, (p < nc_ins c)%nat -> ii_cred (ni_rx s') p <> [] -> now + nc_period c ∈ ii_cwake (ni_rx s') p).
Proof.
  intros Hp E. unfold wakeup in E. do 6 (apply rbind_Ok in E as (? & _ & E)). cbv beta zeta in E.
  match goal with H : checkReschedule _ _ (scheduleCreditLinks _ _ ?x) = _ |- _ => rename x into s6 end.
  pose proof (checkReschedule_wake _ _ _ _ E) as [wk ->]. split.
  - intros Hw%has_work_wake. eapply checkReschedule_wakes; [done|exact E|exact Hw].
  - intros p Hpi Hc. unfold scheduleCreditLinks in *. cbn [ni_rx set_wake set_rx ii_cred ii_cwake] in *. rewrite (proj2 (Nat.ltb_lt _ _) Hpi).
    destruct (ii_cred (ni_rx s6) p); [done|]. cbn. by apply elem_of_union_l, elem_of_singleton.
Qed.
End Wake.

(** ** Round robin *)

Section RoundRobin.
Context {M : Type} (c : nicfg) (p v : nat).
Hypothesis Hv : (v < nc_vcs c)%nat.
Implicit Types (o : niOut M).

(** Channel [v] has a flit port [p] can send at [now]. *)
Definition can_send (now : Z) o : Prop :=
  exists f t rest, no_q o v = (f, t) :: rest /\ t <= now /\ 0 < no_credit o v /\ port_takes c p f = true.

Ltac split_ltb :=
  repeat match goal with
  | |- context [(?x <? ?y)%nat] => destruct (Nat.ltb_spec x y)
  | H : context [(?x <? ?y)%nat] |- _ => destruct (Nat.ltb_spec x y)
  end.

(** How many channels come before [w] in the order that starts after [a]. *)
Definition before (a w : nat) : nat := ((w + nc_vcs c - S a) mod nc_vcs c)%nat.

Lemma before_lt a w : (a < nc_vcs c)%nat -> (before a w < nc_vcs c)%nat.
Proof. intros. apply Nat.mod_upper_bound. lia. Qed.
Lemma before_cases a w : (a < nc_vcs c)%nat -> (w < nc_vcs c)%nat ->
  before a w = if (a <? w)%nat then (w - S a)%nat else (w + nc_vcs c - S a)%nat.
Proof.
  intros Ha Hw. unfold before. destruct (Nat.ltb_spec a w).
  - replace (w + nc_vcs c - S a)%nat with (w - S a + 1 * nc_vcs c)%nat by lia. rewrite Nat.Div0.mod_add. apply Nat.mod_small. lia.
  - apply Nat.mod_small. lia.
Qed.
Lemma next_vc_lt a : (a < nc_vcs c)%nat -> (next_vc c a < nc_vcs c)%nat.
Proof. intros. unfold next_vc. destruct (Nat.eqb_spec (S a) (nc_vcs c)); lia. Qed.
Lemma before_next a w : (a < nc_vcs c)%nat -> (w < nc_vcs c)%nat ->
  (w = next_vc c a /\ before a w = 0)%nat \/ (w <> next_vc c a /\ before a w = S (before (next_vc c a) w))%nat.
Proof.
  intros Ha Hw. pose proof (next_vc_lt a Ha) as Hn. rewrite (before_cases a w), (before_cases (next_vc c a) w) by done.
  unfold next_vc in *. destruct (Nat.eqb_spec (S a) (nc_vcs c)); split_ltb; lia.
Qed.

(** The loop serves the first channel in its order that can send. *)
Lemma schedulePortLoop_serves now k a o o' : (a < nc_vcs c)%nat -> can_send now o -> (before a v < k)%nat ->
  schedulePortLoop c now p k a o = Ok o' ->
  exists w q f, no_sent o' = no_sent o ++ [(q, w, f)] /\ no_rr o' p = w /\ (w < nc_vcs c)%nat /\
    (before a w <= before a v)%nat.
Proof using Hv.
  intros Ha Hc. revert a Ha. induction k as [|k IH]; intros a Ha Hk E; [lia|]. cbn in E.
  pose proof (next_vc_lt a Ha) as Hn.
  assert (w_next : before a (next_vc c a) = 0%nat) by (destruct (before_next a (next_vc c a) Ha Hn) as [[_ ->]|[? _]]; done).
  assert (Hskip : next_vc c a <> v -> schedulePortLoop c now p k (next_vc c a) o = Ok o' ->
    exists w q f, no_sent o' = no_sent o ++ [(q, w, f)] /\ no_rr o' p = w /\ (w < nc_vcs c)%nat /\ (before a w <= before a v)%nat).
  { intros Hne E'. destruct (before_next a v Ha Hv) as [[? _]|[_ Hb]]; [congruence|].
    destruct (IH _ Hn ltac:(lia) E') as (w & q & f & H1 & H2 & H3 & H4). exists w, q, f. split_and!; try done.
    destruct (before_next a w Ha H3) as [[_ ->]|[_ ->]]; lia. }
  destruct (no_q o (next_vc c a)) as [|[f t] rest] eqn:Eq.
  { apply Hskip; [|done]. intros E1. rewrite E1 in Eq. destruct Hc as (? & ? & ? & Hq & _). congruence. }
  destruct ((t <=? now) && _ && _) eqn:Hb.
  - unfold sendFlit in E. apply guard_Ok in E as [_ E]. apply rbind_Ok in E as (q & _ & E). injection E as <-. cbn.
    exists (next_vc c a), q, f. rewrite fn_lookup_insert. split_and!; [done..|lia].
  - apply Hskip; [|done]. intros E1. rewrite E1 in *. destruct Hc as (f' & t' & rest' & Hq & Ht & Hcr & Hpt).
    rewrite Eq in Hq. injection Hq as <- <- <-. rewrite Hpt, andb_true_r in Hb.
    apply andb_false_iff in Hb as [Hb|Hb]; [apply Z.leb_gt in Hb|apply Z.ltb_ge in Hb]; lia.
Qed.

(** [k] calls of [scheduleOutputPort] passed over channel [v] although it could send;
    anything else may change in between but the port's pointer. *)
Inductive passed_over o : nat -> niOut M -> Prop :=
| po_start : passed_over o 0 o
| po_other k o1 o2 : passed_over o k o1 -> no_rr o2 p = no_rr o1 p -> passed_over o k o2
| po_call k o1 o2 now : passed_over o k o1 -> can_send now o1 -> scheduleOutputPort c now o1 p = Ok o2 ->
    sent_on v o2 = sent_on v o1 -> passed_over o (S k) o2.

Lemma passed_over_before o k o' : (no_rr o p < nc_vcs c)%nat -> passed_over o k o' ->
  (no_rr o' p < nc_vcs c /\ k + before (no_rr o' p) v <= before (no_rr o p) v)%nat.
Proof using Hv.
  intros Hr. induction 1 as [|k o1 o2 _ IH E|k o1 o2 now _ [Hr1 IH] Hc E Hs]; [lia|by rewrite E|].
  destruct (schedulePortLoop_serves now (nc_vcs c) (no_rr o1 p) o1 o2 Hr1 Hc (before_lt _ _ Hr1) E)
    as (w & q & f & Hse & Hrr & Hw & Hb).
  rewrite Hrr. split; [done|]. assert (w <> v) as Hne.
  { intros ->. unfold sent_on in Hs. rewrite Hse, filter_app, fmap_app in Hs. apply (f_equal length) in Hs.
    rewrite length_app in Hs. rewrite filter_cons_True in Hs by done. cbn in Hs. lia. }
  rewrite !before_cases in * by done. split_ltb; lia.
Qed.

(** The round robin is fair: the port passes a channel that has a ready flit for it and
    a credit over fewer times than there are channels. *)
Theorem ni_round_robin_fair o k o' :
  (no_rr o p < nc_vcs c)%nat -> passed_over o k o' -> (k < nc_vcs c)%nat.
Proof using Hv.
  intros Hr Hp. destruct (passed_over_before _ _ _ Hr Hp). pose proof (before_lt (no_rr o p) v Hr). lia.
Qed.
End RoundRobin.

(** ** The receive window *)

Section Window.
Context {M U : Type} `{!NocUnit M U} (c : nicfg) `{!UnitInjects c}.
Implicit Types (s : netif M U).

(** Flits sent to channel [v] of port [p] for which no credit was taken back. *)
Definition outstanding (put : list (nat * flit M)) (ret : list (nat * (Z * bool))) (p v : nat) : Z :=
  nz (length (on_vc v (on_port p put))) - nz (length (filter (fun x => x.1 = nz v) (ret_port p ret))).

Lemma receiveLoop_all now p link asm got link' asm' got' full :
  (forall v, nz (length (asm (p, v))) + nz (length (on_vc v link.*1)) <= kNppAssemblerMaxFlits) ->
  receiveLoop (M := M) c now p link asm got = Ok (link', asm', got', full) -> full = false /\ link_ready now link' = false.
Proof.
  revert asm got. induction link as [|[f t] link IH]; intros asm got Hw E; cbn in E; [by injection E as <- <- <- <-|].
  destruct (Z.ltb_spec now t) as [Hlt|Hle]; [injection E as <- <- <- <-; split; [done|]; apply Z.leb_gt; lia|].
  apply guard_Ok in E as [Hv E]. bool_hyps. assert (fl_vc f = nz (zn (fl_vc f))) as Hf by lia.
  pose proof (Hw (zn (fl_vc f))) as Hwf. unfold on_vc in Hwf. rewrite fmap_cons, filter_cons_True in Hwf by done. cbn in Hwf.
  rewrite (proj2 (Z.leb_gt _ _)) in E by lia. eapply IH; [|exact E]. intros v.
  specialize (Hw v). unfold on_vc in *. rewrite fmap_cons, filter_cons in Hw. cbn [fst] in Hw.
  destruct (decide (v = zn (fl_vc f))) as [-> |Hne].
  - rewrite fn_lookup_insert, length_app. rewrite decide_True in Hw by done. cbn in *. lia.
  - rewrite fn_lookup_insert_ne by congruence. case_decide; cbn in *; lia.
Qed.

Lemma dlv_counts put ret (w : @wire M) p v : rx_inv put ret w ->
  length (filter (fun f => fl_vc f = nz v) (dlv_port p (w_dlv w))) = length (dlv_on (p, v) (w_dlv w)).
Proof.
  intros Hi. assert (Forall (fun d => fl_vc (dl_flit d) = nz (dl_vc d)) (w_dlv w)) as Hd.
  { apply Forall_forall. intros d Hin. pose proof (ri_asm _ _ _ Hi (dl_port d) (dl_vc d)) as E.
    assert (dl_flit d ∈ on_vc (dl_vc d) (on_port (dl_port d) (w_arr w))) as H.
    { rewrite E. apply elem_of_app. left. apply list_elem_of_fmap. exists d. split; [done|]. by apply list_elem_of_filter. }
    by apply list_elem_of_filter in H as [H _]. }
  unfold dlv_port, dlv_on. induction Hd as [|d l Hd _ IH]; [done|]. rewrite !filter_cons. case_decide as E1.
  - rewrite fmap_cons, filter_cons, Hd. case_decide as E2.
    + rewrite decide_True by (assert (dl_vc d = v) by lia; congruence). cbn. by rewrite IH.
    + rewrite decide_False by (intros [= _ E3]; lia). done.
  - rewrite decide_False by congruence. done.
Qed.

Lemma credits_count (l : list (flit M)) v :
  length (filter (fun x => x.1 = nz v) (credit_of <$> l)) = length (filter (fun f => fl_vc f = nz v) l).
Proof.
  induction l as [|f l IH]; [done|]. rewrite fmap_cons, !filter_cons. cbn [credit_of fst]. case_decide; cbn; by rewrite IH.
Qed.

(** A sender that respects the window is never blocked.  If on every channel at most
    seven flits are sent for which no credit was returned, the interface takes every flit
    that has arrived on a link in the wakeup that finds it. *)
Theorem ni_link_never_blocked s put ret now p s' :
  (forall v, 0 <= nc_max c v) -> ni_reach c s put ret ->
  (forall v, outstanding put ret p v <= kNppAssemblerMaxFlits) ->
  receivePort c now s p = Ok s' -> link_ready now (ii_link (ni_rx s') p) = false.
Proof using UnitInjects0.
  intros Hmax Hr Hw E. pose proof (nv_rx _ _ _ _ (ni_reach_inv _ _ _ _ Hmax Hr)) as Hi.
  apply rbind_Ok in E as ([[[link asm] got] full] & E & [= <-]).
  apply receiveLoop_all in E as [-> Hl].
  { cbn. by rewrite fn_lookup_insert. }
  intros v. specialize (Hw v). unfold outstanding in Hw. rewrite (ri_link _ _ _ Hi) in Hw. unfold on_vc in Hw at 1.
  rewrite filter_app, length_app in Hw. fold (on_vc v (on_port p (w_arr (wires s)))) in Hw.
  rewrite (ri_asm _ _ _ Hi), length_app, <- (dlv_counts _ _ _ p v Hi) in Hw.
  pose proof (f_equal (fun l => length (filter (fun x => x.1 = nz v) l)) (ri_cred _ _ _ Hi p)) as Hc. cbv beta in Hc.
  rewrite filter_app, length_app, credits_count in Hc.
  cbn [wires w_link w_asm w_dlv w_arr] in *. unfold on_vc. lia.
Qed.
End Window.
