(* ===== verification/SNsu.v ===== *)
(** * AXI-Stream slave unit

    [sNocSlaveUnit] of [src/src/noc/core/network/nsu_types/sNocSlaveUnit.{hh,cc}]:
    the flits of stream packets become beats of the endpoint's width.  In hardware
    mode the beats of a flit go to the endpoint's buffer at once; in reassembly mode
    they are collected in a frame per source, TID and TDEST, and complete frames
    leave through a bounded queue, a beat per cycle.

    [su_in] and [su_sent] are history: the beats taken from flits and the beats put
    into the endpoint's buffer.  The capture file is left out. *)

From S2P Require Import Prelude AxiTypes AxisWriteBuffer AxisDepack NppReceive Flit SNmu MsgBuffer.

(** A buffer-mode [NocStreamMsg]. *)
Record beatMsg := mk_beatMsg {
  bm_time : Z;
  bm_beat : axisData;
  bm_src : Z;
  bm_debugIds : list Z;
  bm_debugId : Z
}.

Record Frame := mk_Frame { fr_beats : list beatMsg; fr_storedBytes : Z }.
Definition Frame_empty : Frame := mk_Frame [] 0.

Record sNsu := mk_sNsu {
  su_agg : gmap Z (list Z);               (* depacketizeWriteDataAggregateByPacket *)
  su_partial : gmap (Z * Z * Z) Frame;    (* by source, TID and TDEST *)
  su_complete : list Frame;
  su_drain : option Z;                    (* the tick of drainFrameEvent *)
  su_W : mbuf (M := beatMsg);             (* outNode_ptr[W_VNET] *)
  su_in : list beatMsg;
  su_sent : list beatMsg
}.

Record snsuCfg := mk_snsuCfg {
  sc_id : Z;
  sc_width : Z;                           (* S_DATA_WIDTH *)
  axisReassembleFrames : bool;
  axisTidWidth : Z;
  axisMaxFrameBytes : Z;
  axisCompleteFrames : Z;
  sc_tdest_map : gmap Z (gmap Z Z);
  sc_mb : mbCfg;
  sc_period : Z
}.

Definition set_agg (x : gmap Z (list Z)) (s : sNsu) : sNsu :=
  mk_sNsu x (su_partial s) (su_complete s) (su_drain s) (su_W s) (su_in s) (su_sent s).
Definition set_partial (x : gmap (Z * Z * Z) Frame) (s : sNsu) : sNsu :=
  mk_sNsu (su_agg s) x (su_complete s) (su_drain s) (su_W s) (su_in s) (su_sent s).
Definition set_complete (x : list Frame) (s : sNsu) : sNsu :=
  mk_sNsu (su_agg s) (su_partial s) x (su_drain s) (su_W s) (su_in s) (su_sent s).
Definition set_drain (x : option Z) (s : sNsu) : sNsu :=
  mk_sNsu (su_agg s) (su_partial s) (su_complete s) x (su_W s) (su_in s) (su_sent s).
Definition set_W (x : mbuf) (s : sNsu) : sNsu :=
  mk_sNsu (su_agg s) (su_partial s) (su_complete s) (su_drain s) x (su_in s) (su_sent s).
Definition log_in (l : list beatMsg) (s : sNsu) : sNsu :=
  mk_sNsu (su_agg s) (su_partial s) (su_complete s) (su_drain s) (su_W s) (su_in s ++ l) (su_sent s).
Definition log_sent (l : list beatMsg) (s : sNsu) : sNsu :=
  mk_sNsu (su_agg s) (su_partial s) (su_complete s) (su_drain s) (su_W s) (su_in s) (su_sent s ++ l).

Definition sNsu_init : sNsu := mk_sNsu ∅ ∅ [] None mbuf_init [] [].

Section Nsu.
Context (c : snsuCfg).

(** The constructor's checks. *)
Definition snsu_new : res sNsu :=
  let W := sc_width c in
  guard (negb ((W =? 0) || negb (W mod 8 =? 0) || (512 <? W)))
    (FFatal "AXIS data width must be byte aligned and at most 512 bits") (
  guard (axisTidWidth c <=? 32) (FFatal "AXIS TID width must be at most 32") (
  guard (negb (axisReassembleFrames c && ((axisMaxFrameBytes c <? W / 8) || (axisCompleteFrames c =? 0))))
    (FFatal "AXIS frame storage and completed-frame FIFO must be nonzero") (Ok sNsu_init))).

(** [if (!drainFrameEvent.scheduled()) schedule(drainFrameEvent, clockEdge(Cycles(1)))] *)
Definition scheduleDrain (now : Z) (s : sNsu) : sNsu :=
  match su_drain s with
  | Some _ => s
  | None => set_drain (Some (now + sc_period c)) s
  end.

(** [tid >= (uint64_t(1) << axisTidWidth)] for a width below 32. *)
Definition tid_fits (b : axisData) : bool :=
  negb ((axisTidWidth c <? 32) && (Z.shiftl 1 (axisTidWidth c) <=? tid b)).

(** [sNocSlaveUnit::createNWriteDataMsgs] *)
Fixpoint createNWriteDataMsgs (now : Z) (payloads : list axisData) (src_nmu : Z)
    (ids : list (list Z)) (fallback : Z) : res (list beatMsg) :=
  match payloads with
  | [] => Ok []
  | p :: payloads =>
      guard (tid_fits p) (FFatal "AXIS TID exceeds configured axis_tid_width") (
      let dbg_ids := default [] (head ids) in
      let m := mk_beatMsg now p (s32 src_nmu) dbg_ids (default fallback (head dbg_ids)) in
      let* ret := createNWriteDataMsgs now payloads src_nmu (tail ids) fallback in
      Ok (m :: ret))
  end.

(** [sNocSlaveUnit::sendNWriteDataMsgs] *)
Definition sendNWriteDataMsgs (now : Z) (s : sNsu) (msgs : list beatMsg) : res (bool * sNsu) :=
  match msgs with
  | [] => Ok (true, s)
  | _ =>
      let max_sz := mc_max_size (sc_mb c) in
      guard (negb ((0 <? max_sz) && (max_sz <? nz (length msgs))))
        (FPanic "sendNWriteDataMsgs needs more slots than the W MessageBuffer has") (
      if areNSlotsAvailable (sc_mb c) (su_W s) (nz (length msgs)) now then
        let* b := foldM (fun b m => mb_enqueue (sc_mb c) b m (bm_time m) now 0 None false false) (su_W s) msgs in
        Ok (true, log_sent msgs (set_W b s))
      else Ok (false, s))
  end.

(** The stream of a beat: [FrameKey]. *)
Definition frame_key (m : beatMsg) : Z * Z * Z := (u32 (bm_src m), tid (bm_beat m), tdest (bm_beat m)).

(** [sNocSlaveUnit::bufferFrameMsgs] *)
Definition bufferFrameMsgs (now : Z) (s : sNsu) (messages : list beatMsg) : res (bool * sNsu) :=
  match messages with
  | [] => Ok (true, s)
  | first :: _ =>
      let key := frame_key first in
      let source := u32 (bm_src first) in
      let completes := from_option (fun m => tlast (bm_beat m)) false (last messages) in
      guard (tid_fits (bm_beat first)) (FFatal "AXIS TID exceeds configured axis_tid_width") (
      guard (getAxisDestNi (sc_tdest_map c) (s32 source) (s32 (tdest (bm_beat first))) =? sc_id c)
        (FFatal "AXIS frame has no route to this NSU") (
      if completes && (axisCompleteFrames c <=? nz (length (su_complete s))) then Ok (false, scheduleDrain now s)
      else
        let frame := default Frame_empty (su_partial s !! key) in
        let extraBytes := nz (length messages) * (sc_width c / 8) in
        guard (u64 (fr_storedBytes frame + extraBytes) <=? axisMaxFrameBytes c)
          (FFatal "AXIS frame exceeds axis_max_frame_bytes") (
        guard (forallb (fun m => bool_decide (frame_key m = key)) messages)
          (FPanic "one AXIS NPP contains multiple stream identities") (
        let frame := mk_Frame (fr_beats frame ++ messages) (u64 (fr_storedBytes frame + extraBytes)) in
        if completes then
          Ok (true, scheduleDrain now (set_partial (delete key (su_partial s))
                                         (set_complete (su_complete s ++ [frame]) s)))
        else Ok (true, set_partial (<[key := frame]> (su_partial s)) s)))))
  end.

(** The fired [drainFrameEvent]: [sNocSlaveUnit::drainFrame]; [true] when the network
    interface is woken by [dequeueCallback]. *)
Definition drainFrame (now : Z) (s0 : sNsu) : res (bool * sNsu) :=
  let s := set_drain None s0 in
  match su_complete s with
  | [] => Ok (false, s)
  | frame :: rest =>
      match fr_beats frame with
      | [] => Err (FPanic "empty completed AXIS frame")
      | b :: beats =>
          let* (ok, s) := sendNWriteDataMsgs now s [b] in
          let complete := if ok then match beats with
                                     | [] => rest
                                     | _ => mk_Frame beats (fr_storedBytes frame) :: rest
                                     end
                          else su_complete s in
          let s := set_complete complete s in
          let woken := ok && match beats with [] => true | _ => false end in
          Ok (woken, match complete with [] => s | _ => set_drain (Some (now + sc_period c)) s end)
      end
  end.

(** [sNocSlaveUnit::depacketizeWriteDataFlit] *)
Definition depacketizeWriteDataFlit (now : Z) (s : sNsu) (fl : flit NocStreamMsg) : res (bool * sNsu) :=
  guard (sc_width c mod 8 =? 0) (FPanic "S_DATA_WIDTH must be multiple of 8 bits") (
  let msg := fl_msg fl in
  let ap := sm_pload msg in
  let packet_id := fl_packet_id fl in
  let flit_id := u8 (fl_id fl) in
  guard (flit_id <? sm_numFlits msg) (FPanic "sNocSlaveUnit received flit outside packet") (
  let is_tail_flit := sm_numFlits msg - 1 =? flit_id in
  let flit_data := getFlitData ap flit_id in
  let agg := if flit_id =? 0 then zeros 64 else default (zeros 64) (su_agg s !! packet_id) in
  let src_nmu := u32 (rt_src_ni (fl_route fl)) in
  let* (agg, d) := depacketizeAxisPayloadFlit ap (sc_width c) agg flit_id (sm_numFlits msg)
                     (negb (ap_last ap =? 0)) flit_data (sm_debugId msg) in
  let s := set_agg (<[packet_id := agg]> (su_agg s)) s in
  let* messages := createNWriteDataMsgs now (df_payloads d) src_nmu (df_debugIds d) (sm_debugId msg) in
  let* (accepted, s) := if axisReassembleFrames c then bufferFrameMsgs now s messages
                        else sendNWriteDataMsgs now s messages in
  if accepted then
    let s := log_in messages s in
    Ok (true, if is_tail_flit then set_agg (delete packet_id (su_agg s)) s else s)
  else Ok (false, s))).

(** [sNocSlaveUnit::depacketizeFlit]; a [NocStreamMsg] holds an [axisPayload]. *)
Definition snsu_depacketizeFlit (now : Z) (s : sNsu) (fl : flit NocStreamMsg) : res (bool * sNsu) :=
  depacketizeWriteDataFlit now s fl.

(** ** Sending *)

Lemma sendN_spec now s ms ok s' : sendNWriteDataMsgs now s ms = Ok (ok, s') ->
  if ok then exists b, s' = log_sent ms (set_W b s) /\
    foldM (fun b m => mb_enqueue (sc_mb c) b m (bm_time m) now 0 None false false) (su_W s) ms = Ok b
  else s' = s /\ areNSlotsAvailable (sc_mb c) (su_W s) (nz (length ms)) now = false.
Proof.
  unfold sendNWriteDataMsgs. destruct ms as [|m ms].
  - intros [= <- <-]. exists (su_W s). split; [|done]. destruct s. unfold log_sent. cbn. by rewrite app_nil_r.
  - intros E. apply guard_Ok in E as [_ E]. destruct (areNSlotsAvailable _ _ _ _); [|by injection E as <- <-].
    apply rbind_Ok in E as (b & Eb & [= <- <-]). by exists b.
Qed.

Lemma enqueues_run now b ins outs t ms b' : mb_run (sc_mb c) b ins outs t -> t <= now ->
  foldM (fun b m => mb_enqueue (sc_mb c) b m (bm_time m) now 0 None false false) b ms = Ok b' ->
  exists t', t' <= now /\ mb_run (sc_mb c) b' (ins ++ ms) outs t'.
Proof.
  revert b ins t. induction ms as [|m ms IH]; intros b ins t Hr Ht E; cbn in E.
  - injection E as <-. exists t. by rewrite app_nil_r.
  - apply rbind_Ok in E as (b1 & E1 & E). rewrite cons_middle, app_assoc. apply (IH b1 _ now); [|lia|exact E].
    eapply mb_run_enqueue; [exact Hr|exact Ht|exact E1].
Qed.

(** The beats of the messages made from a flit. *)
Lemma create_beats now ps src ids fb ms : createNWriteDataMsgs now ps src ids fb = Ok ms ->
  bm_beat <$> ms = ps /\ Forall (fun m => bm_src m = s32 src /\ bm_time m = now) ms.
Proof.
  revert ids ms. induction ps as [|p ps IH]; intros ids ms E; cbn in E; [by injection E as <-|].
  apply guard_Ok in E as [_ E]. apply rbind_Ok in E as (r & Er & [= <-]).
  apply IH in Er as [E1 E2]. split; [cbn; by rewrite E1|by constructor].
Qed.
End Nsu.

(** ** Flags

    Of the beats of one flit only the last can have TLAST. *)
Definition last_flag_only (l : list axisData) : Prop :=
  l = [] \/ exists b, tlast <$> l = flags_end (length l) b.

Lemma narrow_flags p W before v data tl fb agg (w c k : nat) (lastSub : Z) :
  W / 8 = nz w -> (1 <= w)%nat -> (forall j, (j < c <-> j * w < v))%nat ->
  let '(_, r) := foldl (narrowSubBeat p W before (nz v) data lastSub tl fb)
    (agg, {| df_payloads := []; df_debugIds := [] |}) (seq 0 k) in
  tlast <$> df_payloads r = (fun j : nat => tl && (nz j =? lastSub)) <$> seq 0 (Nat.min k c).
Proof.
  intros Hw Hw1 Hc. induction k as [|k IH]; [done|].
  rewrite seq_S, foldl_app, Nat.add_0_l. cbn [foldl]. destruct (foldl _ _ _) as [agg' r].
  unfold narrowSubBeat. rewrite Hw. specialize (Hc k).
  destruct (Z.leb_spec (Z.min (nz w) (Z.max 0 (nz v - nz k * nz w))) 0) as [Hle|Hgt].
  - by replace (Nat.min (S k) c) with (Nat.min k c) by lia.
  - cbn [df_payloads]. rewrite fmap_app, IH. rewrite (Nat.min_l k), (Nat.min_l (S k)), seq_S, fmap_app by lia.
    f_equal. cbn. by rewrite depackBeat_tlast.
Qed.

Lemma depack_flags p W agg f n lst data fb agg' r :
  depacketizeAxisPayloadFlit p W agg f n lst data fb = Ok (agg', r) -> 0 <= W -> last_flag_only (df_payloads r).
Proof.
  intros E HW. unfold depacketizeAxisPayloadFlit in E. apply guard_Ok in E as [_ E], E as [G E].
  set (w := zn (W / 8)). assert (W / 8 = nz w) as Hw by (unfold w; mlia). rewrite Hw in *.
  bool_hyps. assert (1 <= w)%nat as Hw1 by lia. set (v := zn (Z.min 16 (Z.max 0 (ap_totalBytes p - f * 16)))).
  assert (Z.min 16 (Z.max 0 (ap_totalBytes p - f * 16)) = nz v) as Hv by lia. rewrite Hv in *.
  destruct (nz w <? 16).
  - set (K := zn (16 / nz w)) in *. pose proof (subbeats_count p w v Hw1) as Hc. set (q := ((v + w - 1) / w)%nat) in *.
    rewrite (lastValidSubBeat_spec p w v q) in E by done.
    set (tl := (0 <? n) && _ && _) in E.
    pose proof (narrow_flags p W (f * 16) v data tl fb agg w q K (nz (Nat.min K q) - 1) Hw Hw1 Hc) as Hn.
    injection E as E. rewrite E in Hn. destruct (decide (1 <= Nat.min K q)%nat) as [H1|H1].
    + right. exists tl. rewrite <- (length_fmap tlast), Hn, length_fmap, length_seq. by apply fmap_last_flag.
    + left. apply (f_equal length) in Hn. rewrite !length_fmap, length_seq in Hn.
      apply nil_length_inv. lia.
  - destruct (nz w =? 16).
    + injection E as _ <-. right. eexists. cbn. by rewrite depackBeat_tlast.
    + apply guard_Ok in E as [_ E]. destruct (_ || _); injection E as _ <-; [right|by left].
      eexists. cbn. by rewrite depackBeat_tlast.
Qed.
