(* ===== verification/SNsuRun.v ===== *)
(** * Runs of the AXI-Stream slave unit

    A slave unit with flits offered by its network interface, its drain event and an
    endpoint that reads its buffer.  The beats taken from the flits of a packet carry the
    packet's bytes, whatever packets interleave; reassembly hands the endpoint whole
    frames, one after the other, and keeps every stream in order. *)

From S2P Require Import Prelude AxiTypes AxisWriteBuffer AxisDepack NppReceive Flit SNmu MsgBuffer SNsu.

(** ** Frames *)

(** The source, TID and TDEST of a beat. *)
Definition stream_of (m : beatMsg) : Z * Z * Z := (u32 (bm_src m), tid (bm_beat m), tdest (bm_beat m)).
Definition beat_last (m : beatMsg) : bool := tlast (bm_beat m).
Definition on_key (k : Z * Z * Z) (l : list beatMsg) : list beatMsg := filter (fun m => stream_of m = k) l.

(** A frame: the beats of one stream, up to the first TLAST. *)
Definition is_frame (l : list beatMsg) : Prop :=
  l <> [] /\ (exists k, Forall (fun m => stream_of m = k) l) /\ beat_last <$> l = flags_end (length l) true.

Lemma on_key_all k l : Forall (fun m => stream_of m = k) l -> on_key k l = l.
Proof. intros H. unfold on_key. induction H as [|m l Hm _ IH]; [done|]. by rewrite filter_cons_True, IH. Qed.
Lemma on_key_none k k' l : k <> k' -> Forall (fun m => stream_of m = k') l -> on_key k l = [].
Proof.
  intros Hne H. unfold on_key. induction H as [|m l Hm _ IH]; [done|]. rewrite filter_cons_False; [done|congruence].
Qed.
Lemma on_key_app k l l' : on_key k (l ++ l') = on_key k l ++ on_key k l'.
Proof. apply filter_app. Qed.

Lemma no_last_flags l : Forall (fun m => beat_last m = false) l -> beat_last <$> l = replicate (length l) false.
Proof. induction 1 as [|m l Hm _ IH]; [done|]. cbn. by rewrite Hm, IH. Qed.

(** The messages of one flit: the last flag decides. *)
Lemma last_flag_cases (ms : list beatMsg) : last_flag_only (bm_beat <$> ms) ->
  if from_option beat_last false (last ms) then beat_last <$> ms = flags_end (length ms) true
  else Forall (fun m => beat_last m = false) ms.
Proof.
  assert (tlast <$> (bm_beat <$> ms) = beat_last <$> ms) as Hf by (by rewrite <- list_fmap_compose).
  intros [H|[b H]]; [apply fmap_nil_inv in H as ->; by constructor|]. rewrite Hf, length_fmap in H.
  destruct ms as [|m ms _] using rev_ind; [by constructor|]. rewrite last_snoc. cbn [from_option].
  unfold flags_end in *. rewrite length_app, Nat.add_sub in *. rewrite fmap_app in H |- *. cbn in H |- *.
  apply app_inj_tail in H as [H Hb]. rewrite Hb. destruct b; [by rewrite H|].
  apply Forall_app. split; [|by apply Forall_singleton].
  apply Forall_forall. intros x Hx. assert (beat_last x ∈ replicate (length ms) false) as Hr.
  { rewrite <- H. by apply list_elem_of_fmap_2. }
  by apply elem_of_replicate in Hr as [].
Qed.

Section Frames.
Context (c : snsuCfg).

Definition completes (ms : list beatMsg) : bool := from_option beat_last false (last ms).

(** What [bufferFrameMsgs] does. *)
Lemma bufferFrame_cases now s ms ok s' : bufferFrameMsgs c now s ms = Ok (ok, s') ->
  (ms = [] /\ ok = true /\ s' = s) \/
  (ok = false /\ completes ms = true /\ axisCompleteFrames c <= nz (length (su_complete s)) /\
   s' = scheduleDrain c now s) \/
  (ms <> [] /\ ok = true /\ exists key, Forall (fun m => stream_of m = key) ms /\
   let old := default Frame_empty (su_partial s !! key) in
   let stored := u64 (fr_storedBytes old + nz (length ms) * (sc_width c / 8)) in
   let frame := mk_Frame (fr_beats old ++ ms) stored in
   stored <= axisMaxFrameBytes c /\
   if completes ms then nz (length (su_complete s)) < axisCompleteFrames c /\
     s' = scheduleDrain c now (set_partial (delete key (su_partial s)) (set_complete (su_complete s ++ [frame]) s))
   else s' = set_partial (<[key := frame]> (su_partial s)) s).
Proof.
  unfold bufferFrameMsgs. destruct ms as [|m ms]; [intros [= <- <-]; by left|]. intros E. right.
  apply guard_Ok in E as [_ E], E as [_ E].
  change (from_option (fun m => tlast (bm_beat m)) false (last (m :: ms))) with (completes (m :: ms)) in E.
  destruct (completes (m :: ms)) eqn:Ec; cbn [andb] in E.
  1: destruct (Z.leb_spec (axisCompleteFrames c) (nz (length (su_complete s)))); [injection E as <- <-; by left|].
  all: right; split; [done|]; apply guard_Ok in E as [Hm E], E as [Hk E]; injection E as <- <-; (split; [done|]);
    exists (stream_of m); apply Z.leb_le in Hm; split_and!; try done;
    apply Forall_forall; intros x Hx; rewrite forallb_forall in Hk;
    apply list_elem_of_In, Hk in Hx; by apply bool_decide_eq_true in Hx.
Qed.

(** What [drainFrame] does. *)
Lemma drainFrame_cases now s woken s' : drainFrame c now s = Ok (woken, s') ->
  (su_complete s = [] /\ woken = false /\ s' = set_drain None s) \/
  exists f rest m ms, su_complete s = f :: rest /\ fr_beats f = m :: ms /\
    ((areNSlotsAvailable (sc_mb c) (su_W s) 1 now = false /\ woken = false /\
      s' = set_drain (Some (now + sc_period c)) s) \/
     exists b d, mb_enqueue (sc_mb c) (su_W s) m (bm_time m) now 0 None false false = Ok b /\
       let complete := match ms with [] => rest | _ => mk_Frame ms (fr_storedBytes f) :: rest end in
       s' = set_drain d (set_complete complete (log_sent [m] (set_W b s))) /\
       (complete <> [] -> d = Some (now + sc_period c)) /\ woken = bool_decide (ms = [])).
Proof.
  unfold drainFrame. cbn [su_complete set_drain]. destruct (su_complete s) as [|f rest] eqn:Ef; [intros [= <- <-]; by left|].
  destruct (fr_beats f) as [|m ms] eqn:Em; [done|]. intros E. right. exists f, rest, m, ms. split; [done|split; [done|]].
  apply rbind_Ok in E as ([ok s1] & E1 & E). apply sendN_spec in E1. destruct ok.
  - destruct E1 as (b & -> & Eb). cbn in Eb. apply rbind_Ok in Eb as (b1 & Eb & [= ->]). right. exists b.
    destruct ms as [|m' ms]; [destruct rest as [|f' rest]|]; injection E as <- <-; eexists; (split; [exact Eb|]);
      cbn; split_and!; try done; by destruct s.
  - destruct E1 as [-> Hn]. left. cbn [su_complete set_drain] in E. rewrite Ef in E. injection E as <- <-.
    split_and!; [done..|]. destruct s; cbn in *. by subst.
Qed.

(** The beats in the frame of stream [k]. *)
Definition partial_beats (k : Z * Z * Z) (s : sNsu) : list beatMsg :=
  fr_beats (default Frame_empty (su_partial s !! k)).
(** The beats of complete frames, sent or queued. *)
Definition framed (s : sNsu) : list beatMsg := su_sent s ++ concat (fr_beats <$> su_complete s).

Record frames_inv (s : sNsu) : Prop := {
  fi_frames : exists frames, framed s = concat frames /\ Forall is_frame frames;
  fi_order k : on_key k (su_in s) = on_key k (framed s) ++ partial_beats k s;
  fi_partial k : Forall (fun m => stream_of m = k /\ beat_last m = false) (partial_beats k s);
  fi_complete : Forall (fun f => fr_beats f <> []) (su_complete s);
  fi_count : nz (length (su_complete s)) <= axisCompleteFrames c;
  fi_drain : su_complete s <> [] -> is_Some (su_drain s)
}.

Lemma scheduleDrain_eq now s : exists d, scheduleDrain c now s = set_drain (Some d) s.
Proof. unfold scheduleDrain. destruct (su_drain s) as [d|] eqn:E; [exists d; destruct s; cbn in *; by subst|by eexists]. Qed.

Lemma frames_ext s s' : frames_inv s -> framed s' = framed s -> su_in s' = su_in s -> su_partial s' = su_partial s ->
  Forall (fun f => fr_beats f <> []) (su_complete s') -> nz (length (su_complete s')) <= axisCompleteFrames c ->
  (su_complete s' <> [] -> is_Some (su_drain s')) -> frames_inv s'.
Proof.
  intros [H1 H2 H3 H4 H5 H6] Ef Ei Ep Hc Hn Hd. split; try done.
  - by rewrite Ef.
  - intros k. unfold partial_beats. rewrite Ef, Ei, Ep. apply H2.
  - intros k. unfold partial_beats. rewrite Ep. apply H3.
Qed.

(** A frame is completed by [ms]. *)
Lemma frames_finish s key ms fr d : frames_inv s -> ms <> [] -> Forall (fun m => stream_of m = key) ms ->
  beat_last <$> ms = flags_end (length ms) true -> nz (length (su_complete s)) < axisCompleteFrames c ->
  fr_beats fr = partial_beats key s ++ ms ->
  frames_inv (log_in ms (set_drain (Some d) (set_partial (delete key (su_partial s)) (set_complete (su_complete s ++ [fr]) s)))).
Proof.
  intros [(frames & H1 & H1f) H2 H3 H4 H5 H6] Hne Hk Hl Hn Hfr. set (s' := log_in _ _).
  assert (Hfk : Forall (fun m => stream_of m = key) (fr_beats fr)).
  { rewrite Hfr. apply Forall_app. split; [|done]. eapply Forall_impl; [apply H3|]. by intros ? []. }
  assert (Hf : framed s' = framed s ++ fr_beats fr).
  { unfold framed. cbn. rewrite fmap_app, concat_app. cbn. by rewrite app_nil_r, app_assoc. }
  split.
  - exists (frames ++ [fr_beats fr]). rewrite Hf, H1, concat_app. split; [cbn [concat]; by rewrite app_nil_r|].
    apply Forall_app. split; [done|]. apply Forall_singleton.
    split; [rewrite Hfr; by intros [_ ?]%app_nil|]. split; [by exists key|]. rewrite Hfr, fmap_app, Hl, length_app. unfold flags_end.
    assert (beat_last <$> partial_beats key s = replicate (length (partial_beats key s)) false) as ->.
    { apply no_last_flags. eapply Forall_impl; [apply H3|]. by intros ? []. }
    rewrite app_assoc, <- replicate_add. do 2 f_equal. destruct ms; [done|]. cbn [length]. lia.
  - intros k. rewrite Hf. unfold partial_beats. cbn [s' su_in su_partial log_in set_drain set_partial set_complete].
    rewrite !on_key_app, H2. destruct (decide (k = key)) as [-> |Hk'].
    + rewrite lookup_delete_eq. cbn. rewrite app_nil_r, (on_key_all _ _ Hfk), (on_key_all key ms), Hfr by done.
      by rewrite <- app_assoc.
    + rewrite lookup_delete_ne by done. by rewrite (on_key_none _ _ _ Hk' Hfk), (on_key_none _ _ _ Hk' Hk), !app_nil_r.
  - intros k. unfold partial_beats. cbn. destruct (decide (k = key)) as [-> |Hk']; [by rewrite lookup_delete_eq; constructor|].
    rewrite lookup_delete_ne by done. apply H3.
  - cbn. apply Forall_app. split; [done|]. apply Forall_singleton. rewrite Hfr. by intros [_ ?]%app_nil.
  - cbn. rewrite length_app. cbn. lia.
  - by eexists.
Qed.

(** A frame is continued by [ms]. *)
Lemma frames_extend s key ms fr : frames_inv s -> Forall (fun m => stream_of m = key) ms ->
  Forall (fun m => beat_last m = false) ms -> fr_beats fr = partial_beats key s ++ ms ->
  frames_inv (log_in ms (set_partial (<[key := fr]> (su_partial s)) s)).
Proof.
  intros [H1 H2 H3 H4 H5 H6] Hk Hl Hfr. split; try done.
  - intros k. change (framed _) with (framed s). unfold partial_beats. cbn [su_in su_partial log_in set_partial].
    rewrite on_key_app, H2.
    destruct (decide (k = key)) as [-> |Hk'].
    + rewrite lookup_insert_eq. cbn. rewrite (on_key_all key ms), Hfr by done. by rewrite <- app_assoc.
    + by rewrite lookup_insert_ne, (on_key_none _ _ _ Hk' Hk), app_nil_r by done.
  - intros k. unfold partial_beats. cbn. destruct (decide (k = key)) as [-> |Hk'].
    + rewrite lookup_insert_eq. cbn. rewrite Hfr. apply Forall_app. split; [apply H3|].
      apply Forall_and. by split.
    + rewrite lookup_insert_ne by done. apply H3.
Qed.

(** Beats of a flit are offered. *)
Lemma frames_buffer now s ms ok s' : last_flag_only (bm_beat <$> ms) -> frames_inv s ->
  bufferFrameMsgs c now s ms = Ok (ok, s') -> frames_inv (if ok then log_in ms s' else s').
Proof.
  intros Hl Hi E. apply last_flag_cases in Hl. change (from_option _ _ _) with (completes ms) in Hl.
  apply bufferFrame_cases in E as [(-> & -> & ->)|[(-> & _ & _ & ->)|(Hne & -> & key & Hk & Hst & E)]].
  - eapply frames_ext; [exact Hi|done| |done|apply Hi..]. cbn. by rewrite app_nil_r.
  - destruct (scheduleDrain_eq now s) as [d ->]. eapply frames_ext; [exact Hi|done|done|done|apply Hi..|]. by eexists.
  - destruct (completes ms).
    + destruct E as [Hn ->]. match goal with |- context [scheduleDrain c now ?x] => destruct (scheduleDrain_eq now x) as [d ->] end.
      by apply frames_finish.
    + subst s'. by apply frames_extend.
Qed.

Lemma frames_drain now s woken s' : frames_inv s -> drainFrame c now s = Ok (woken, s') -> frames_inv s'.
Proof.
  intros Hi E. pose proof (fi_complete s Hi) as Hc. pose proof (fi_count s Hi) as Hn.
  apply drainFrame_cases in E as [(E & _ & ->)|(f & rest & m & ms & Ef & Em & [(_ & _ & ->)|(b & d & _ & -> & Hd & _)])].
  - by apply (frames_ext s).
  - by apply (frames_ext s).
  - rewrite Ef in *. apply Forall_cons in Hc as [_ Hc]. cbn [length] in Hn.
    apply (frames_ext s); try done.
    + unfold framed. cbn. rewrite Ef. destruct ms; cbn; rewrite Em; by rewrite <- app_assoc.
    + cbn. destruct ms; [done|by constructor].
    + cbn. destruct ms; cbn; lia.
    + cbn. intros Hne. rewrite (Hd Hne). by eexists.
Qed.
End Frames.

(** ** Runs *)

Section Run.
Context (c : snsuCfg) (offered : list (flit NocStreamMsg) -> Prop).

(** The interface offers a flit, which the unit takes or refuses; the drain event fires; the
    endpoint reads.  [tr] are the flits taken, and [offered (tr ++ [fl])] says what is known
    of the flits the interface offers; [outs] is what the endpoint read. *)
Inductive sn_reach : sNsu -> list (flit NocStreamMsg) -> list beatMsg -> Z -> Prop :=
| sr_init s : snsu_new c = Ok s -> sn_reach s [] [] 0
| sr_flit s tr outs t now fl ok s' :
    sn_reach s tr outs t -> t <= now -> offered (tr ++ [fl]) -> snsu_depacketizeFlit c now s fl = Ok (ok, s') ->
    sn_reach s' (if ok then tr ++ [fl] else tr) outs now
| sr_drain s tr outs t now woken s' :
    sn_reach s tr outs t -> t <= now -> su_drain s = Some now -> drainFrame c now s = Ok (woken, s') ->
    sn_reach s' tr outs now
| sr_endpoint s tr outs t now m d b :
    sn_reach s tr outs t -> t <= now -> mb_dequeue (sc_mb c) (su_W s) now = Ok (m, d, b) ->
    sn_reach (set_W b s) tr (outs ++ [m]) now.

(** The aggregate a flit is added to. *)
Definition agg_of (s : sNsu) (fl : flit NocStreamMsg) : list Z :=
  if u8 (fl_id fl) =? 0 then zeros 64 else default (zeros 64) (su_agg s !! fl_packet_id fl).
(** The beats and the new aggregate of a flit. *)
Definition depack_of (s : sNsu) (fl : flit NocStreamMsg) : res (list Z * AxisDepacketizedFlit) :=
  let ap := sm_pload (fl_msg fl) in
  depacketizeAxisPayloadFlit ap (sc_width c) (agg_of s fl) (u8 (fl_id fl)) (sm_numFlits (fl_msg fl))
    (negb (ap_last ap =? 0)) (getFlitData ap (u8 (fl_id fl))) (sm_debugId (fl_msg fl)).

Lemma flit_step now s fl ok s' : snsu_depacketizeFlit c now s fl = Ok (ok, s') ->
  exists agg r ms s1, depack_of s fl = Ok (agg, r) /\
    createNWriteDataMsgs c now (df_payloads r) (u32 (rt_src_ni (fl_route fl))) (df_debugIds r) (sm_debugId (fl_msg fl)) = Ok ms /\
    (if axisReassembleFrames c then bufferFrameMsgs c else sendNWriteDataMsgs c) now
      (set_agg (<[fl_packet_id fl := agg]> (su_agg s)) s) ms = Ok (ok, s1) /\
    s' = if ok then (if sm_numFlits (fl_msg fl) - 1 =? u8 (fl_id fl)
                     then set_agg (delete (fl_packet_id fl) (su_agg s1)) (log_in ms s1) else log_in ms s1) else s1.
Proof.
  intros E. apply guard_Ok in E as [_ E], E as [_ E]. apply rbind_Ok in E as ([agg r] & E1 & E).
  apply rbind_Ok in E as (ms & E2 & E), E as ([ok1 s1] & E3 & E).
  exists agg, r, ms, s1. split; [exact E1|]. split; [exact E2|].
  assert (ok1 = ok) as -> by (destruct ok1; by injection E). split; [by destruct (axisReassembleFrames c)|].
  destruct ok; [|by injection E as <-]. by injection E as <-; destruct (_ =? _).
Qed.

(** Beats leave a hardware-mode unit at once. *)
Definition mode_inv (s : sNsu) : Prop :=
  if axisReassembleFrames c then frames_inv c s else su_sent s = su_in s /\ su_complete s = [] /\ su_partial s = ∅.

Definition buffer_inv (s : sNsu) (outs : list beatMsg) (now : Z) : Prop :=
  exists t, t <= now /\ mb_run (sc_mb c) (su_W s) (su_sent s) outs t.

Lemma bufferFrame_buffer now s ms ok s' : bufferFrameMsgs c now s ms = Ok (ok, s') -> su_W s' = su_W s /\ su_sent s' = su_sent s.
Proof.
  intros E. apply bufferFrame_cases in E as [(-> & -> & ->)|[(-> & _ & _ & ->)|(Hne & -> & key & Hk & Hst & E)]]; [done| |].
  - by destruct (scheduleDrain_eq c now s) as [d ->].
  - destruct (completes ms); [destruct E as [_ ->]|by subst s'].
    match goal with |- context [scheduleDrain c now ?x] => by destruct (scheduleDrain_eq c now x) as [d ->] end.
Qed.

Hypothesis Hcfg : is_u32 (sc_width c) /\ is_u32 (axisCompleteFrames c).

Lemma sn_reach_inv s tr outs now : sn_reach s tr outs now -> mode_inv s /\ buffer_inv s outs now.
Proof using Hcfg.
  induction 1 as [s E|s tr outs t now fl ok s' _ [IH (t' & Ht' & IHb)] Ht _ E
    |s tr outs t now woken s' _ [IH (t' & Ht' & IHb)] Ht _ E|s tr outs t now m d b _ [IH (t' & Ht' & IHb)] Ht E].
  - unfold snsu_new in E. apply guard_Ok in E as [_ E], E as [_ E], E as [_ E]. injection E as <-.
    split; [|exists 0; split; [done|constructor]]. unfold mode_inv. destruct (axisReassembleFrames c); [|done].
    split; [by exists []|done|intros k; by constructor|by constructor|cbn; destruct Hcfg as [_ []]; lia|done].
  - apply flit_step in E as (agg & r & ms & s1 & E1 & E2 & E3 & ->).
    apply create_beats in E2 as [E2 _].
    assert (last_flag_only (bm_beat <$> ms)) as Hl.
    { rewrite E2. eapply depack_flags; [exact E1|]. destruct Hcfg as [[] _]. lia. }
    unfold mode_inv in *. destruct (axisReassembleFrames c).
    + assert (frames_inv c (set_agg (<[fl_packet_id fl := agg]> (su_agg s)) s)) as IH' by (destruct IH; by split).
      pose proof (frames_buffer c now _ ms ok s1 Hl IH' E3) as Hf. apply bufferFrame_buffer in E3 as [Ew Es]. split.
      * destruct ok; [|done]. destruct (_ =? _); [|done]. destruct Hf; by split.
      * exists t'. split; [lia|]. destruct ok; [destruct (_ =? _)|]; cbn; by rewrite Ew, Es.
    + apply sendN_spec in E3. destruct ok.
      * destruct E3 as (b & -> & E3). destruct (enqueues_run c now _ _ _ _ _ _ IHb ltac:(lia) E3) as (t2 & Ht2 & Hr).
        split; [|exists t2; split; [lia|]]; destruct (_ =? _); cbn; try done; destruct IH as (-> & -> & ->); done.
      * destruct E3 as [-> _]. split; [done|]. exists t'. split; [lia|done].
  - split.
    + unfold mode_inv in *. destruct (axisReassembleFrames c); [by eapply frames_drain|]. destruct IH as (H1 & H2 & H3).
      apply drainFrame_cases in E as [(_ & _ & ->)|(f & rest & m & ms & Ef & _)]; [by split_and!|congruence].
    + apply drainFrame_cases in E as [(_ & _ & ->)|(f & rest & m & ms & _ & _ & [(_ & _ & ->)|(b & d & E & -> & _)])];
        [exists t'; split; [lia|done]..|].
      exists now. split; [lia|]. eapply mb_run_enqueue; [exact IHb|lia|exact E].
  - split; [unfold mode_inv in *; destruct (axisReassembleFrames c); [destruct IH; by split|done]|].
    exists now. split; [lia|]. eapply mb_run_dequeue; [exact IHb|lia|exact E].
Qed.

(** C8: reassembly hands out whole frames.  In every run in reassembly mode, the beats put into
    the endpoint's buffer followed by those of the complete frames that wait are a sequence of
    frames: beats of one source, TID and TDEST, with TLAST on the last beat only; the beats of
    every stream are there in the order the unit took them, except those of its unfinished
    frame; and no more frames wait than are configured. *)
Theorem snsu_frames_whole s tr outs now :
  axisReassembleFrames c = true -> sn_reach s tr outs now ->
  (exists frames, framed s = concat frames /\ Forall is_frame frames) /\
  (forall k, on_key k (su_in s) = on_key k (framed s) ++ partial_beats k s /\
     Forall (fun m => beat_last m = false) (partial_beats k s)) /\
  nz (length (su_complete s)) <= axisCompleteFrames c.
Proof using Hcfg.
  intros Hm Hr. destruct (sn_reach_inv _ _ _ _ Hr) as [Hi _]. unfold mode_inv in Hi. rewrite Hm in Hi.
  destruct Hi as [H1 H2 H3 _ H5 _]. split_and!; [done| |done]. intros k. split; [apply H2|].
  eapply Forall_impl; [apply H3|]. by intros ? [].
Qed.

(** ** The queue of complete frames always moves *)

(** Messages are not from the future. *)
Record times_inv (s : sNsu) (now : Z) : Prop := {
  ti_last : m_last_arrival_time (su_W s) <= now;
  ti_complete : Forall (fun f => Forall (fun m => bm_time m <= now) (fr_beats f)) (su_complete s);
  ti_partial k : Forall (fun m => bm_time m <= now) (partial_beats k s)
}.

Lemma times_mono s t now : times_inv s t -> t <= now -> times_inv s now.
Proof.
  intros [H1 H2 H3] Ht. split; [lia| |].
  - eapply Forall_impl; [exact H2|]. intros f Hf. eapply Forall_impl; [exact Hf|]. cbn. lia.
  - intros k. eapply Forall_impl; [apply H3|]. cbn. lia.
Qed.
Lemma enqueue_arrival now b m b' : mb_enqueue (sc_mb c) b m (bm_time m) now 0 None false false = Ok b' ->
  m_last_arrival_time b' = now.
Proof. unfold mb_enqueue. intros E. do 5 (apply guard_Ok in E as [_ E]; try (cbn [arrival] in E)). injection E as <-. cbn. lia. Qed.
Lemma enqueues_arrival now b ms b' t : m_last_arrival_time b <= t -> t <= now ->
  foldM (fun b m => mb_enqueue (sc_mb c) b m (bm_time m) now 0 None false false) b ms = Ok b' ->
  m_last_arrival_time b' <= now.
Proof.
  intros Hb Ht E. eapply (foldM_inv (fun b => m_last_arrival_time b <= now)) in E; [done| |lia].
  intros b1 m b2 _ _ E1. rewrite (enqueue_arrival _ _ _ _ E1). lia.
Qed.

Lemma times_buffer now s ms ok s' : times_inv s now -> Forall (fun m => bm_time m <= now) ms ->
  bufferFrameMsgs c now s ms = Ok (ok, s') -> times_inv s' now.
Proof.
  intros [H1 H2 H3] Hms E.
  apply bufferFrame_cases in E as [(-> & -> & ->)|[(-> & _ & _ & ->)|(Hne & -> & key & Hk & Hst & E)]]; [done| |].
  { destruct (scheduleDrain_eq c now s) as [d ->]. by split. }
  pose proof (H3 key) as Hkey. unfold partial_beats in Hkey. destruct (completes ms).
  - destruct E as [_ ->]. match goal with |- context [scheduleDrain c now ?x] => destruct (scheduleDrain_eq c now x) as [d ->] end.
    split; [done|cbn; apply Forall_app; split; [done|]; apply Forall_singleton; cbn; by apply Forall_app|].
    intros k. unfold partial_beats. cbn. destruct (decide (k = key)) as [-> |Hk']; [by rewrite lookup_delete_eq; constructor|].
    rewrite lookup_delete_ne by done. apply H3.
  - subst s'. split; [done|done|]. intros k. unfold partial_beats. cbn.
    destruct (decide (k = key)) as [-> |Hk']; [rewrite lookup_insert_eq; cbn; by apply Forall_app|].
    rewrite lookup_insert_ne by done. apply H3.
Qed.

Lemma sn_reach_times s tr outs now : sn_reach s tr outs now -> times_inv s now.
Proof.
  induction 1 as [s E|s tr outs t now fl ok s' _ IH Ht _ E|s tr outs t now woken s' _ IH Ht _ E
    |s tr outs t now m d b _ IH Ht E]; try apply (times_mono _ _ now) in IH; try done.
  - unfold snsu_new in E. apply guard_Ok in E as [_ E], E as [_ E], E as [_ E]. injection E as <-.
    split; [done|by constructor|intros k; by constructor].
  - apply flit_step in E as (agg & r & ms & s1 & _ & E2 & E3 & ->). apply create_beats in E2 as [_ E2].
    assert (Forall (fun m => bm_time m <= now) ms) as Hms by (eapply Forall_impl; [exact E2|]; cbn; intros m [_ ->]; lia).
    assert (times_inv s1 now) as H1; [|destruct ok; [destruct (_ =? _)|]; destruct H1; by split].
    assert (times_inv (set_agg (<[fl_packet_id fl := agg]> (su_agg s)) s) now) as IH' by (destruct IH; by split).
    destruct (axisReassembleFrames c); [by eapply times_buffer|].
    apply sendN_spec in E3. destruct ok; [destruct E3 as (b & -> & E3)|by destruct E3 as [-> _]].
    destruct IH' as [H1 H2 H3]. split; [|done|done]. eapply enqueues_arrival; [exact H1|lia|exact E3].
  - destruct IH as [H1 H2 H3].
    apply drainFrame_cases in E as [(_ & _ & ->)|(f & rest & m & ms & Ef & Em & [(_ & _ & ->)|(b & d & E & -> & _)])];
      [by split..|]. rewrite Ef in H2. apply Forall_cons in H2 as [Hf H2]. rewrite Em in Hf. apply Forall_cons in Hf as [_ Hf].
    split; [cbn; rewrite (enqueue_arrival _ _ _ _ E); lia| |done]. cbn. destruct ms; [done|by constructor].
  - destruct IH as [H1 H2 H3]. split; [|done|done]. cbn. unfold mb_dequeue in E. apply rbind_Ok in E as ([rd ag] & _ & E).
    apply guard_Ok in E as [_ E]. destruct (m_prio_heap (su_W s)); [done|]. by injection E as _ _ <-.
Qed.

(** Reassembly cannot lock up.  In every run in reassembly mode: whenever a complete frame
    waits, the drain event is scheduled; a flit is refused only when it ends a frame and the
    queue of complete frames is full, and then the event is scheduled too; and the event, when
    the endpoint's buffer has a slot, always moves one beat of the oldest frame there, waking
    the network interface when that was the frame's last. *)
Theorem snsu_reassembly_progress s tr outs t now :
  axisReassembleFrames c = true -> mc_allow_zero_latency (sc_mb c) = true -> sn_reach s tr outs t -> t <= now ->
  (su_complete s <> [] -> is_Some (su_drain s)) /\
  (forall fl s', snsu_depacketizeFlit c now s fl = Ok (false, s') ->
     nz (length (su_complete s)) = axisCompleteFrames c /\ su_complete s' = su_complete s /\ is_Some (su_drain s')) /\
  (su_complete s <> [] -> areNSlotsAvailable (sc_mb c) (su_W s) 1 now = true ->
     exists m woken s', drainFrame c now s = Ok (woken, s') /\ su_sent s' = su_sent s ++ [m] /\
       concat (fr_beats <$> su_complete s) = m :: concat (fr_beats <$> su_complete s') /\
       length (su_complete s) = (length (su_complete s') + if woken then 1 else 0)%nat).
Proof using Hcfg.
  intros Hm Hz Hr Ht. destruct (sn_reach_inv _ _ _ _ Hr) as [Hi (t' & Ht' & Hb)]. unfold mode_inv in Hi. rewrite Hm in Hi.
  destruct (sn_reach_times _ _ _ _ Hr) as [T1 T2 _]. split; [apply Hi|]. split.
  - intros fl s' E. apply flit_step in E as (agg & r & ms & s1 & _ & _ & E3 & ->). rewrite Hm in E3.
    apply bufferFrame_cases in E3 as [(_ & ? & _)|[(_ & _ & Hn & ->)|(_ & ? & _)]]; [done| |done].
    pose proof (fi_count _ _ Hi). destruct (scheduleDrain_eq c now (set_agg (<[fl_packet_id fl:=agg]> (su_agg s)) s)) as [d ->].
    cbn in *. split; [lia|]. split; [done|by eexists].
  - intros Hne Hs. pose proof (fi_complete _ _ Hi) as Hc. unfold drainFrame. cbn [su_complete set_drain].
    destruct (su_complete s) as [|f rest]; [done|]. apply Forall_cons in Hc as [Hc _], T2 as [T2 _].
    destruct (fr_beats f) as [|m ms] eqn:Em; [done|]. apply Forall_cons in T2 as [T2 _].
    unfold sendNWriteDataMsgs. cbn [length su_W set_drain]. change (nz 1) with 1.
    assert (negb ((0 <? mc_max_size (sc_mb c)) && (mc_max_size (sc_mb c) <? 1)) = true) as ->.
    { destruct (Z.ltb_spec 0 (mc_max_size (sc_mb c))), (Z.ltb_spec (mc_max_size (sc_mb c)) 1); done || lia. }
    rewrite Hs. cbn [guard foldM].
    destruct (mb_slot_enqueue (sc_mb c) (su_W s) _ _ _ now m (bm_time m) Hb ltac:(lia) Hs Hz ltac:(lia) ltac:(lia)) as [b Eb].
    rewrite Eb. cbn [rbind]. exists m. destruct ms as [|m' ms]; [destruct rest as [|f' rest]|]; eexists _, _;
      (split; [reflexivity|]); cbn; rewrite Em; split_and!; try done; lia.
Qed.
End Run.
