(* ===== verification/SNsuPackets.v ===== *)
(** * Packets through the AXI-Stream slave unit

    Every flit of a packet adds the packet's next bytes: the aggregates are kept per
    packet, so packets may interleave, and a flit that was refused can be offered again. *)

From S2P Require Import Prelude AxiTypes AxisWriteBuffer AxisDepack NppReceive Flit SNmu MsgBuffer SNsu SNsuRun.

(** ** A refused flit *)

Lemma narrow_length p W before v data ls tl fb l agg r :
  length (foldl (narrowSubBeat p W before v data ls tl fb) (agg, r) l).1 = length agg.
Proof.
  revert agg r. induction l as [|i l IH]; intros agg r; [done|]. cbn [foldl].
  unfold narrowSubBeat at 2. destruct (_ <=? 0); [apply IH|]. by rewrite IH, !length_copy_into.
Qed.

(** Depacketizing a flit leaves what it needs to depacketize it again. *)
Lemma depack_again p W agg (f : nat) n lst data fb agg' r : good_width W ->
  depacketizeAxisPayloadFlit p W agg (nz f) n lst data fb = Ok (agg', r) ->
  agg_state p W f agg -> agg_state p W f agg'.
Proof.
  intros HW E [Ha Hagg]. unfold depacketizeAxisPayloadFlit in E. apply guard_Ok in E as [_ E], E as [_ E].
  destruct (Z.ltb_spec (W / 8) 16); [|destruct (Z.eqb_spec (W / 8) 16)].
  - injection E as E. split; [|lia]. pose proof (f_equal (fun x => length x.1) E) as El. cbn [fst] in El.
    rewrite <- El, narrow_length. done.
  - injection E as <- _. split; [by rewrite !length_copy_into|lia].
  - destruct (wide_q p W HW ltac:(lia)) as [HWq Hq]. set (q := flitsPerBeatOf W) in *.
    assert (W / 8 / 16 = nz q) as Hqz by (rewrite HWq, Z.mul_comm; apply Z.div_mul; lia). rewrite Hqz in E.
    apply guard_Ok in E as [_ E]. rewrite <- Nat2Z.inj_mod in E.
    assert (exists d, agg' = copy_into agg (16 * (f mod q)) d) as [d ->].
    { replace (zn (nz (f mod q) * 16)) with (16 * (f mod q))%nat in E by lia.
      destruct (_ || _); injection E as <- _; by eexists. }
    assert (length (copy_into agg (16 * (f mod q)) d) = 64%nat) as Hl by (by rewrite length_copy_into).
    split; [done|]. intros Hg. destruct (Hagg Hg) as [_ Hs]. split; [done|]. fold q in Hs |- *. rewrite <- Hs.
    pose proof (Nat.mod_upper_bound f q ltac:(lia)) as Hm. apply list_eq. intros i.
    destruct (decide (i < 16 * (f mod q))%nat).
    + rewrite !lookup_slice by done. by rewrite lookup_copy_into_out by lia.
    + rewrite !lookup_ge_None_2; rewrite ?length_slice; rewrite ?Hl; lia || done.
Qed.

(** ** Interleaved packets *)

Definition on_packet (pid : Z) (l : list (flit NocStreamMsg)) : list (flit NocStreamMsg) :=
  filter (fun f => fl_packet_id f = pid) l.
Definition of_packet (pid : Z) (ms : list (Z * list beatMsg)) : list beatMsg :=
  concat (filter (fun x => x.1 = pid) ms).*2.

(** What a master unit makes of a packet. *)
Definition packet_sent (k : sent) : Prop :=
  npp_ok (sm_pload (st_msg k)) /\ sm_numFlits (st_msg k) = nz (st_n k).

Lemma sent_packet_sent tdm vcm id k : sent_ok tdm vcm id k -> packet_sent k.
Proof. intros [H _ _ _ Hn]. by split. Qed.

(** The flits offered are those of the packets [pks], each packet's in order. *)
Record arrivals (pks : list sent) (tr : list (flit NocStreamMsg)) : Prop := {
  ar_known : Forall (fun f => exists k, k ∈ pks /\ fl_packet_id f = st_pid k) tr;
  ar_order k : k ∈ pks -> on_packet (st_pid k) tr `prefix_of` st_flits k
}.

(** The beats [bs] of the first [n] flits of packet [k]. *)
Definition packet_part (W : Z) (k : sent) (n : nat) (bs : list beatMsg) : Prop :=
  let p := sm_pload (st_msg k) in
  concat (kept_bytes <$> (bm_beat <$> bs)) = slice (payload_bytes p) 0 (doneBefore p W n) /\
  Forall (fun m => DATA_WIDTH (bm_beat m) = W /\ bm_src m = s32 (u32 (rt_src_ni (st_route k))) /\
                   Forall (fun b => tid (bm_beat m) = tid b /\ tdest (bm_beat m) = tdest b) (ap_beats p)) bs /\
  beat_last <$> bs = if bool_decide (n = st_n k) then flags_end (length bs) (ap_last p =? 1)
                     else replicate (length bs) false.

Lemma st_n_flits k : packet_sent k -> st_n k = numFlitsOf (sm_pload (st_msg k)) /\ (1 <= st_n k <= 4)%nat.
Proof.
  intros [Hn _]. pose proof (npp_range _ Hn). pose proof (npp_total _ Hn) as Ht. unfold st_n, numFlitsOf.
  rewrite Ht. split; [|mlia]. rewrite <- (Nat2Z.inj_add _ 15), <- (Nat2Z.inj_div _ 16). apply Nat2Z.id.
Qed.

Lemma st_flits_lookup k n fl : st_flits k !! n = Some fl -> (n < st_n k)%nat /\
  fl = new_flit (st_pid k) (nz n) (st_vc k) W_VNET (st_route k) (nz (st_n k)) (st_msg k).
Proof.
  unfold st_flits, packet_flits. rewrite list_lookup_fmap. intros H.
  apply fmap_Some in H as (j & Hj & ->). by apply lookup_seq in Hj as [-> Hj].
Qed.

Lemma packet_part_nil W k : good_width W -> packet_sent k -> packet_part W k 0 [].
Proof.
  intros HW Hk. destruct (st_n_flits k Hk) as [Hn Hr]. split; [|split; [constructor|by rewrite bool_decide_false by lia]].
  unfold doneBefore. rewrite bool_decide_false by (rewrite <- Hn; lia). rewrite Nat.Div0.div_0_l, !Nat.mul_0_r.
  by destruct (16 <? W / 8).
Qed.

Lemma packet_part_step c s k n fl agg r now ms bs : good_width (sc_width c) -> packet_sent k -> st_flits k !! n = Some fl ->
  agg_state (sm_pload (st_msg k)) (sc_width c) n (agg_of s fl) -> depack_of c s fl = Ok (agg, r) ->
  createNWriteDataMsgs c now (df_payloads r) (u32 (rt_src_ni (fl_route fl))) (df_debugIds r) (sm_debugId (fl_msg fl)) = Ok ms ->
  packet_part (sc_width c) k n bs ->
  ((S n < st_n k)%nat -> agg_state (sm_pload (st_msg k)) (sc_width c) (S n) agg) /\
  packet_part (sc_width c) k (S n) (bs ++ ms).
Proof.
  intros HW Hk Hfl Ha Ed Em (Hb1 & Hb2 & Hb3). destruct (st_n_flits k Hk) as [Hn Hr]. destruct Hk as [Hnpp Hcount].
  apply st_flits_lookup in Hfl as [Hlt ->]. apply create_beats in Em as [Em1 Em2].
  unfold depack_of in Ed. set (A := agg_of s _) in *. clearbody A. set (p := sm_pload (st_msg k)) in *. cbn [new_flit fl_id fl_msg fl_route] in Ed, Em2.
  assert (u8 (nz n) = nz n) as Hu by (apply Z.mod_small; lia). rewrite Hu, Hcount, Hn in Ed. fold p in Ed.
  destruct Hnpp as [Hwf (i & d & Hid) _ Htot Hrange Hlast _]. fold p in Hwf, Hid, Htot, Hrange, Hlast.
  destruct (depack_flit p (sc_width c) i d (sm_debugId (st_msg k)) HW Hwf Hid Htot n _ (negb (ap_last p =? 0)) ltac:(lia) Ha)
    as (agg1 & r1 & E1 & Hs & Hmono & [Hbytes Hall] & Hfl). rewrite Ed in E1. injection E1 as <- <-.
  split; [intros ?; apply Hs; lia|]. split; [|split].
  - rewrite !fmap_app, concat_app, Hb1, Em1, Hbytes, slice_add. f_equal. fold p. lia.
  - apply Forall_app. split; [done|]. apply Forall_forall. intros m Hm. rewrite Forall_forall in Hall. rewrite (Forall_forall _ ms) in Em2.
    destruct (Hall (bm_beat m)) as (Hw & Hi & Hd); [rewrite <- Em1; by apply list_elem_of_fmap_2|].
    split; [done|]. split; [by apply Em2|]. eapply Forall_impl; [exact Hid|]. cbn. intros b [-> ->]. done.
  - rewrite fmap_app, Hb3, length_app. rewrite (bool_decide_false (n = st_n k)) by lia.
    assert (beat_last <$> ms = tlast <$> df_payloads r) as -> by (rewrite <- Em1, <- list_fmap_compose; done).
    assert (length (df_payloads r) = length ms) as Hlen by (by rewrite <- Em1, length_fmap).
    rewrite Hfl, Hlen. unfold isTail. rewrite <- Hn. destruct (decide (S n = st_n k)) as [E|E];
      [rewrite !bool_decide_true by done|rewrite !bool_decide_false by done; by rewrite replicate_add].
    assert (1 <= length ms)%nat as Hge.
    { rewrite <- Hlen, <- (length_fmap tlast), Hfl. unfold isTail. rewrite <- Hn, bool_decide_true by done.
      unfold flags_end. rewrite length_app. cbn. lia. }
    assert (negb (ap_last p =? 0) = (ap_last p =? 1)) as -> by (by destruct Hlast as [-> | ->]).
    unfold flags_end. rewrite app_assoc, <- replicate_add. do 2 f_equal. lia.
Qed.

Section Packets.
Context (c : snsuCfg) (pks : list sent).
Hypothesis HW : good_width (sc_width c).
Hypothesis Hpks : NoDup (st_pid <$> pks) /\ Forall packet_sent pks.

Record packets_inv (s : sNsu) (tr : list (flit NocStreamMsg)) (ms : list (Z * list beatMsg)) : Prop := {
  pi_ids : ms.*1 = fl_packet_id <$> tr;
  pi_in : concat ms.*2 = su_in s;
  pi_agg k : k ∈ pks -> (0 < length (on_packet (st_pid k) tr) < st_n k)%nat ->
    exists agg, su_agg s !! st_pid k = Some agg /\
      agg_state (sm_pload (st_msg k)) (sc_width c) (length (on_packet (st_pid k) tr)) agg;
  pi_part k : k ∈ pks -> packet_part (sc_width c) k (length (on_packet (st_pid k) tr)) (of_packet (st_pid k) ms)
}.

Lemma same_packet k k' : k ∈ pks -> k' ∈ pks -> st_pid k = st_pid k' -> k = k'.
Proof using Hpks.
  intros Hk Hk' E. apply list_elem_of_lookup in Hk as [i Hi], Hk' as [j Hj].
  assert (i = j) as -> ; [|congruence]. eapply NoDup_lookup; [apply Hpks|rewrite list_lookup_fmap, Hi; reflexivity|].
  rewrite list_lookup_fmap, Hj. cbn. by rewrite E.
Qed.

(** The packet and position of an offered flit. *)
Lemma offered_flit tr fl : arrivals pks (tr ++ [fl]) -> exists k, k ∈ pks /\ fl_packet_id fl = st_pid k /\
  st_flits k !! length (on_packet (st_pid k) tr) = Some fl.
Proof.
  intros [Hk Ho]. apply Forall_app in Hk as [_ Hk]. rewrite Forall_singleton in Hk. destruct Hk as (k & Hk & Hp).
  exists k. split; [done|]. split; [done|]. specialize (Ho k Hk). unfold on_packet in Ho. rewrite filter_app, filter_cons_True in Ho by done.
  eapply prefix_lookup_Some; [|exact Ho]. by rewrite lookup_app_r, Nat.sub_diag by done.
Qed.

Lemma agg_of_state s tr ms k fl : packets_inv s tr ms -> k ∈ pks ->
  st_flits k !! length (on_packet (st_pid k) tr) = Some fl ->
  agg_state (sm_pload (st_msg k)) (sc_width c) (length (on_packet (st_pid k) tr)) (agg_of s fl).
Proof using HW Hpks.
  intros Hi Hk Hfl. apply st_flits_lookup in Hfl as [Hlt ->]. unfold agg_of. cbn [new_flit fl_id fl_packet_id].
  destruct (st_n_flits k) as [_ Hr]; [by apply (proj1 (Forall_forall _ _) (proj2 Hpks))|].
  unfold u8. rewrite Z.mod_small by lia. destruct (Z.eqb_spec (nz (length (on_packet (st_pid k) tr))) 0) as [E|E].
  - assert (length (on_packet (st_pid k) tr) = 0%nat) as -> by lia. by apply agg_state_zero.
  - by destruct (pi_agg _ _ _ Hi k Hk ltac:(lia)) as (agg & -> & Ha).
Qed.

(** Storing the beats of a flit touches neither the aggregates nor the log. *)
Lemma store_keeps now s ms ok s' :
  (if axisReassembleFrames c then bufferFrameMsgs c else sendNWriteDataMsgs c) now s ms = Ok (ok, s') ->
  su_agg s' = su_agg s /\ su_in s' = su_in s.
Proof.
  destruct (axisReassembleFrames c); intros E.
  - apply bufferFrame_cases in E as [(-> & -> & ->)|[(-> & _ & _ & ->)|(_ & -> & key & _ & _ & E)]]; [done| |].
    + by destruct (scheduleDrain_eq c now s) as [d ->].
    + destruct (completes ms); [destruct E as [_ ->]|by subst s'].
      match goal with |- context [scheduleDrain c now ?x] => by destruct (scheduleDrain_eq c now x) as [d ->] end.
  - apply sendN_spec in E. destruct ok; [by destruct E as (b & -> & _)|by destruct E as [-> _]].
Qed.

Lemma on_packet_snoc pid tr fl :
  on_packet pid (tr ++ [fl]) = on_packet pid tr ++ (if decide (fl_packet_id fl = pid) then [fl] else []).
Proof. unfold on_packet. rewrite filter_app, filter_cons. by case_decide. Qed.
Lemma of_packet_snoc pid ms x :
  of_packet pid (ms ++ [x]) = of_packet pid ms ++ (if decide (x.1 = pid) then x.2 else []).
Proof.
  unfold of_packet. rewrite filter_app, fmap_app, concat_app, filter_cons. f_equal. case_decide; [cbn; by rewrite app_nil_r|done].
Qed.

(** A flit of packet [k] was refused: only its aggregate changed. *)
Lemma packets_refused s tr ms k fl agg r s' : packets_inv s tr ms -> k ∈ pks ->
  st_flits k !! length (on_packet (st_pid k) tr) = Some fl ->
  agg_state (sm_pload (st_msg k)) (sc_width c) (length (on_packet (st_pid k) tr)) (agg_of s fl) ->
  depack_of c s fl = Ok (agg, r) -> su_in s' = su_in s -> su_agg s' = <[st_pid k := agg]> (su_agg s) ->
  packets_inv s' tr ms.
Proof using HW Hpks.
  intros [H1 H2 H3 H4] Hk Hfl Ha E1 Ei Eg. split; [done|by rewrite Ei| |done]. intros k' Hk' Hn. rewrite Eg.
  destruct (decide (st_pid k' = st_pid k)) as [Ek|Ek].
  - apply (same_packet k' k Hk' Hk) in Ek as ->. exists agg. rewrite lookup_insert_eq. split; [done|].
    apply st_flits_lookup in Hfl as [Hlt Efl].
    destruct (st_n_flits k) as [_ Hr]; [by apply (proj1 (Forall_forall _ _) (proj2 Hpks))|].
    unfold depack_of in E1. rewrite Efl in E1 at 1 3 4 5 6 7 8. cbn [new_flit fl_id fl_msg] in E1. unfold u8 in E1.
    rewrite Z.mod_small in E1 by lia. eapply depack_again; [exact HW|exact E1|exact Ha].
  - rewrite lookup_insert_ne by congruence. by apply H3.
Qed.

(** The interface offers a flit. *)
Lemma packets_flit s tr ms now fl ok s' : packets_inv s tr ms -> arrivals pks (tr ++ [fl]) ->
  snsu_depacketizeFlit c now s fl = Ok (ok, s') ->
  exists ms', packets_inv s' (if ok then tr ++ [fl] else tr) ms'.
Proof using HW Hpks.
  intros Hi Hoff E. destruct (offered_flit tr fl Hoff) as (k & Hk & Hpid & Hfl).
  pose proof (proj1 (Forall_forall _ _) (proj2 Hpks) k Hk) as Hsk.
  pose proof (agg_of_state s tr ms k fl Hi Hk Hfl) as Ha. destruct Hi as [H1 H2 H3 H4].
  apply flit_step in E as (agg & r & bs & s1 & E1 & E2 & E3 & ->). apply store_keeps in E3 as [Eg Ei]. cbn in Eg, Ei.
  destruct ok.
  - destruct (packet_part_step c s k _ fl agg r now bs _ HW Hsk Hfl Ha E1 E2 (H4 k Hk)) as [Hnext Hpart].
    apply st_flits_lookup in Hfl as [Hlt Efl]. exists (ms ++ [(fl_packet_id fl, bs)]).
    assert (Hlen : forall k', k' ∈ pks -> st_pid k' <> st_pid k -> on_packet (st_pid k') (tr ++ [fl]) = on_packet (st_pid k') tr).
    { intros k' _ Hne. rewrite on_packet_snoc, decide_False by congruence. apply app_nil_r. }
    assert (Hme : length (on_packet (st_pid k) (tr ++ [fl])) = S (length (on_packet (st_pid k) tr))).
    { rewrite on_packet_snoc, decide_True by done. rewrite length_app. cbn. lia. }
    split.
    + rewrite !fmap_app, H1. done.
    + rewrite fmap_app, concat_app, H2. cbn. rewrite app_nil_r. by destruct (_ =? _); cbn; rewrite Ei.
    + intros k' Hk' Hn. destruct (decide (st_pid k' = st_pid k)) as [Ek|Ek].
      * apply (same_packet k' k Hk' Hk) in Ek as ->. rewrite Hme in Hn |- *. exists agg. split; [|apply Hnext; lia].
        assert ((sm_numFlits (fl_msg fl) - 1 =? u8 (fl_id fl)) = false) as ->.
        { rewrite Efl. cbn. rewrite (proj2 Hsk). destruct (st_n_flits k Hsk) as [_ Hr]. unfold u8.
          rewrite Z.mod_small by lia. apply Z.eqb_neq. lia. }
        cbn. by rewrite Eg, Hpid, lookup_insert_eq.
      * rewrite (Hlen k' Hk' Ek) in Hn |- *. destruct (H3 k' Hk' Hn) as (agg' & Hl & Ha'). exists agg'. split; [|done].
        destruct (_ =? _); cbn; rewrite Eg, ?lookup_delete_ne, lookup_insert_ne by congruence; done.
    + intros k' Hk'. rewrite of_packet_snoc. cbn [fst snd]. destruct (decide (st_pid k' = st_pid k)) as [Ek|Ek].
      * apply (same_packet k' k Hk' Hk) in Ek as ->. by rewrite Hme, decide_True.
      * rewrite (Hlen k' Hk' Ek), decide_False, app_nil_r by congruence. by apply H4.
  - exists ms. eapply packets_refused; [by split|done|done|done|exact E1|done|by rewrite Eg, Hpid].
Qed.

Lemma sn_reach_packets s tr outs now : sn_reach c (arrivals pks) s tr outs now -> exists ms, packets_inv s tr ms.
Proof using HW Hpks.
  induction 1 as [s E|s tr outs t now fl ok s' _ [ms IH] _ Hoff E|s tr outs t now woken s' _ [ms [H1 H2 H3 H4]] _ _ E
    |s tr outs t now m d b _ [ms [H1 H2 H3 H4]] _ E].
  - unfold snsu_new in E. apply guard_Ok in E as [_ E], E as [_ E], E as [_ E]. injection E as <-. exists [].
    split; [done|done|intros k _ Hn; cbn in Hn; lia|]. intros k Hk. apply packet_part_nil; [done|].
    by apply (proj1 (Forall_forall _ _) (proj2 Hpks)).
  - by eapply packets_flit.
  - exists ms. apply drainFrame_cases in E as
      [(_ & _ & ->)|(f & rest & m & l & _ & _ & [(_ & _ & ->)|(b & d & _ & -> & _)])]; by split.
  - exists ms. by split.
Qed.
End Packets.

(** What the beats of a packet are, when the flits [tr] were taken. *)
Definition packet_beats (W : Z) (tr : list (flit NocStreamMsg)) (k : sent) (bs : list beatMsg) : Prop :=
  concat (kept_bytes <$> (bm_beat <$> bs)) `prefix_of` st_bytes k /\
  Forall (fun m => DATA_WIDTH (bm_beat m) = W /\ bm_src m = s32 (u32 (rt_src_ni (st_route k))) /\
    Forall (fun b => tid (bm_beat m) = tid b /\ tdest (bm_beat m) = tdest b) (ap_beats (sm_pload (st_msg k)))) bs /\
  (on_packet (st_pid k) tr = st_flits k ->
   concat (kept_bytes <$> (bm_beat <$> bs)) = st_bytes k /\
   beat_last <$> bs = flags_end (length bs) (ap_last (sm_pload (st_msg k)) =? 1)).

Lemma beats_delivered c pks s tr outs now :
  good_width (sc_width c) -> is_u32 (axisCompleteFrames c) -> NoDup (st_pid <$> pks) -> Forall packet_sent pks ->
  sn_reach c (arrivals pks) s tr outs now ->
  exists ms, ms.*1 = fl_packet_id <$> tr /\ concat ms.*2 = su_in s /\
    (forall k, k ∈ pks -> packet_beats (sc_width c) tr k (of_packet (st_pid k) ms)) /\
    (axisReassembleFrames c = false -> su_sent s = su_in s) /\
    (mc_strict_fifo (sc_mb c) = true -> su_sent s = outs ++ (me_msg <$> m_prio_heap (su_W s))).
Proof.
  intros HW Hn Hd Hp Hr. destruct (sn_reach_packets c pks HW (conj Hd Hp) s tr outs now Hr) as [ms [H1 H2 _ H4]].
  assert (is_u32 (sc_width c)) as Hw by (destruct HW as (? & ? & _); split; mlia).
  destruct (sn_reach_inv c _ (conj Hw Hn) s tr outs now Hr) as [Hm (t & _ & Hb)].
  exists ms. split_and!; [done|done| | |].
  - intros k Hk. destruct (H4 k Hk) as (Hb1 & Hb2 & Hb3). unfold packet_beats. rewrite Hb1. split; [by apply prefix_take|]. split; [done|].
    pose proof (proj1 (Forall_forall _ _) Hp k Hk) as Hk'. destruct (st_n_flits k Hk') as [Hf _].
    assert (length (st_flits k) = st_n k) as Hl by apply length_packet_flits.
    intros E. rewrite E, Hl in Hb3 |- *. rewrite bool_decide_true in Hb3 by done.
    split; [|done]. rewrite Hf. unfold doneBefore. rewrite bool_decide_true by done. unfold slice. rewrite drop_0. by apply take_ge.
  - intros E. unfold mode_inv in Hm. rewrite E in Hm. apply Hm.
  - intros Hs. by apply (mi_fifo _ _ _ _ _ (mb_run_inv _ _ _ _ _ Hb)).
Qed.

(** The beats an AXI-Stream slave unit takes from the flits of a packet carry that
    packet, whatever packets interleave and however often flits are refused: their bytes
    are the packet's bytes, in order, as far as its flits have come; they have the
    endpoint's width and the packet's source, TID and TDEST; and when all flits of the packet
    have been taken, all its bytes are there and TLAST is on the last beat exactly when the
    packet ends its stream packet.  In hardware mode the beats go to the endpoint's buffer in
    the order they are taken, and an ordered buffer gives them to the endpoint in that
    order. *)
Theorem snsu_beats_delivered c pks s tr outs now :
  good_width (sc_width c) -> is_u32 (axisCompleteFrames c) -> NoDup (st_pid <$> pks) -> Forall packet_sent pks ->
  sn_reach c (arrivals pks) s tr outs now ->
  exists ms, ms.*1 = fl_packet_id <$> tr /\ concat ms.*2 = su_in s /\
    (forall k, k ∈ pks -> packet_beats (sc_width c) tr k (of_packet (st_pid k) ms)) /\
    (axisReassembleFrames c = false -> su_sent s = su_in s) /\
    (mc_strict_fifo (sc_mb c) = true -> su_sent s = outs ++ (me_msg <$> m_prio_heap (su_W s))).
Proof. apply beats_delivered. Qed.
