(* ===== verification/SNsuExample.v ===== *)
(** * Examples for the AXI-Stream slave unit

    A unit with 4-byte beats takes an 8-byte packet in both modes.  The examples discharge
    the hypotheses of the theorems about runs. *)

From S2P Require Import Prelude AxiTypes AxisWriteBuffer AxisDepack NppReceive Flit SNmu MsgBuffer SNsu SNsuRun SNsuPackets.

(** Interface 5, reached from interface 1 with TDEST 1. *)
Definition ex_snsu (reassemble : bool) : snsuCfg := mk_snsuCfg 5 32 reassemble 6 64 1 ex_tdm ex_mbCfg 10.
Definition ex_flit : flit NocStreamMsg :=
  new_flit (st_pid ex_sent) 0 (st_vc ex_sent) W_VNET (st_route ex_sent) 1 (st_msg ex_sent).

(** The unit after the flit at tick 10, and what it makes of the drain event at tick 20. *)
Definition ex_su (reassemble : bool) : sNsu := Eval vm_compute in
  (ok_or (false, sNsu_init) (snsu_depacketizeFlit (ex_snsu reassemble) 10 sNsu_init ex_flit)).2.
Definition ex_su_drained : sNsu := Eval vm_compute in
  (ok_or (false, sNsu_init) (drainFrame (ex_snsu true) 20 (ex_su true))).2.

Lemma ex_flit_offered : arrivals [ex_sent] ([] ++ [ex_flit]).
Proof.
  split.
  - apply Forall_singleton. exists ex_sent. split; [by left|]. vm_compute. reflexivity.
  - intros k Hk. apply list_elem_of_singleton in Hk as ->. exists []. vm_compute. reflexivity.
Qed.

Lemma ex_su_reach : sn_reach (ex_snsu false) (arrivals [ex_sent]) (ex_su false) [ex_flit] [] 10.
Proof.
  apply (sr_flit _ _ sNsu_init [] [] 0 10 ex_flit true (ex_su false)); [|lia|apply ex_flit_offered|vm_compute; reflexivity].
  apply sr_init. vm_compute. reflexivity.
Qed.
Lemma ex_su_reach_frames : sn_reach (ex_snsu true) (arrivals [ex_sent]) (ex_su true) [ex_flit] [] 10.
Proof.
  apply (sr_flit _ _ sNsu_init [] [] 0 10 ex_flit true (ex_su true)); [|lia|apply ex_flit_offered|vm_compute; reflexivity].
  apply sr_init. vm_compute. reflexivity.
Qed.
Lemma ex_su_reach_drained : sn_reach (ex_snsu true) (arrivals [ex_sent]) ex_su_drained [ex_flit] [] 20.
Proof.
  apply (sr_drain _ _ (ex_su true) [ex_flit] [] 10 20 false ex_su_drained ex_su_reach_frames);
    [lia|vm_compute; reflexivity|vm_compute; reflexivity].
Qed.

Lemma ex_snsu_typed b : is_u32 (sc_width (ex_snsu b)) /\ is_u32 (axisCompleteFrames (ex_snsu b)).
Proof. cbn. unfold is_u32. lia. Qed.

Lemma snsu_beats_delivered_witness :
  exists ms, ms.*1 = [10] /\ concat ms.*2 = su_in (ex_su false) /\ su_sent (ex_su false) = su_in (ex_su false) /\
    concat (kept_bytes <$> (bm_beat <$> of_packet 10 ms)) = [1; 2; 3; 4; 5; 6; 7; 8].
Proof.
  assert (good_width (sc_width (ex_snsu false))) as HW by (split; [done|]; split; [by vm_compute|]; left; by vm_compute).
  destruct (snsu_beats_delivered (ex_snsu false) [ex_sent] (ex_su false) [ex_flit] [] 10 HW)
    as (ms & H1 & H2 & H3 & H4 & _).
  - apply ex_snsu_typed.
  - apply NoDup_singleton.
  - apply Forall_singleton. exact (sent_packet_sent _ _ _ _ ex_sent_ok).
  - exact ex_su_reach.
  - exists ms. split; [exact H1|]. split; [exact H2|]. split; [by apply H4|].
    destruct (H3 ex_sent) as (_ & _ & H5); [by left|]. destruct H5 as [H5 _]; [vm_compute; reflexivity|]. exact H5.
Defined.

Lemma snsu_frames_whole_witness :
  (exists frames, framed ex_su_drained = concat frames /\ Forall is_frame frames) /\
  length (su_sent ex_su_drained) = 1%nat /\ length (framed ex_su_drained) = 2%nat.
Proof.
  split; [|split; vm_compute; reflexivity].
  apply (snsu_frames_whole (ex_snsu true) (arrivals [ex_sent]) (ex_snsu_typed true) _ _ _ _ eq_refl ex_su_reach_drained).
Defined.

Lemma snsu_reassembly_progress_witness :
  exists m woken s', drainFrame (ex_snsu true) 20 (ex_su true) = Ok (woken, s') /\
    su_sent s' = su_sent (ex_su true) ++ [m].
Proof.
  destruct (snsu_reassembly_progress (ex_snsu true) (arrivals [ex_sent]) (ex_snsu_typed true) (ex_su true) [ex_flit] [] 10 20
    eq_refl eq_refl ex_su_reach_frames ltac:(lia)) as (_ & _ & H).
  destruct H as (m & w & s' & H1 & H2 & _); [done|vm_compute; reflexivity|]. by exists m, w, s'.
Defined.
