(* ===== verification/AxisReceive.v ===== *)
(** * The AXI-Stream receive path

    A network interface with an AXI-Stream slave unit: flits that arrive on its links become
    beats in the endpoint's buffer.  The interface guarantees what the unit's theorems ask
    for: the flits of every packet are offered in order. *)

From stdpp Require Import functions.
From S2P Require Import Prelude AxiTypes AxisWriteBuffer AxisDepack NppReceive Flit SNmu MsgBuffer.
From S2P Require Import Router Stream MmNmu NetIface NetIfaceRun SNsu SNsuRun SNsuPackets.

(** The slave unit as the unit of a network interface. *)
Definition snsu_unit (sc : snsuCfg) : NocUnit NocStreamMsg sNsu := {|
  u_flitisizeMessage _ u o _ _ := Ok (false, u, o);
  u_depacketizeFlit now u fl _ := snsu_depacketizeFlit sc now u fl;
  u_is_axis _ := true
|}.

Section Receive.
Context (sc : snsuCfg) (c : nicfg).
#[local] Instance the_unit : NocUnit NocStreamMsg sNsu := snsu_unit sc.
Implicit Types (s : netif NocStreamMsg sNsu).

#[local] Instance snsu_injects : UnitInjects c.
Proof. intros now u o m v ok u' o' [= _ _ <-]. constructor. Qed.

(** Runs: the interface wakes up, the unit's drain event fires, the endpoint reads a beat and
    may offer messages and call back, a flit arrives, or a link takes a credit. *)
Inductive rx_reach : netif NocStreamMsg sNsu -> list (nat * flit NocStreamMsg) -> list (nat * (Z * bool)) ->
    list beatMsg -> Z -> Prop :=
| rx_init u bufs : snsu_new sc = Ok u -> rx_reach (ni_init c u bufs) [] [] [] 0
| rx_wakeup s put ret outs t now s' :
    rx_reach s put ret outs t -> t <= now -> processCurrentEvent c now s = Ok s' -> rx_reach s' put ret outs now
| rx_drain s put ret outs t now woken u :
    rx_reach s put ret outs t -> t <= now -> su_drain (ni_unit s) = Some now ->
    drainFrame sc now (ni_unit s) = Ok (woken, u) ->
    rx_reach (if woken then dequeueCallback c now (set_unit u s) else set_unit u s) put ret outs now
| rx_endpoint s put ret outs t now m d b bufs cb wake :
    rx_reach s put ret outs t -> t <= now -> mb_dequeue (sc_mb sc) (su_W (ni_unit s)) now = Ok (m, d, b) ->
    rx_reach (set_in bufs (set_cb cb (set_wake wake (set_unit (set_W b (ni_unit s)) s)))) put ret (outs ++ [m]) now
| rx_arrive s put ret outs now p f t :
    rx_reach s put ret outs now -> rx_reach (put_link p f t s) (put ++ [(p, f)]) ret outs now
| rx_taken s put ret outs now p x rest :
    rx_reach s put ret outs now -> ii_cred (ni_rx s) p = x :: rest ->
    rx_reach (take_credit p rest s) put (ret ++ [(p, x)]) outs now.

Lemma rx_reach_ni s put ret outs now : rx_reach s put ret outs now -> ni_reach c s put ret.
Proof.
  assert (Hu : forall s put ret u, ni_reach c s put ret -> ni_reach c (set_unit u s) put ret).
  { intros s0 put0 ret0 u Hr. pose proof (nr_unit c s0 put0 ret0 0 u (ni_out s0) Hr (inj_done c 0 _)) as H. by destruct s0. }
  assert (He : forall s put ret bufs cb wake, ni_reach c s put ret -> ni_reach c (set_in bufs (set_cb cb (set_wake wake s))) put ret)
    by (intros; by apply nr_endpoint).
  induction 1 as [u bufs _|s put ret outs t now s' _ IH _ E|s put ret outs t now woken u _ IH _ _ _
    |s put ret outs t now m d b bufs cb wake _ IH _ _|s put ret outs now p f t _ IH|s put ret outs now p x rest _ IH Hc].
  - constructor.
  - by eapply nr_wakeup.
  - destruct woken; [|by apply Hu]. apply (Hu _ _ _ u) in IH.
    apply (He _ _ _ (ni_in s) (ni_cb s) ({[now + nc_period c]} ∪ ni_wake s)) in IH. by destruct s.
  - by apply He, Hu.
  - by apply nr_arrive.
  - by eapply nr_taken.
Qed.

Lemma rx_reach_wires s put ret outs now : (forall v, 0 <= nc_max c v) -> rx_reach s put ret outs now -> rx_inv put ret (wires s).
Proof. intros Hmax Hr. exact (nv_rx _ _ _ _ (ni_reach_inv c _ _ _ Hmax (rx_reach_ni _ _ _ _ _ Hr))). Qed.

(** ** What a wakeup does to the unit *)

Lemma takeMessage_unit now s v s' : takeMessage c now s v = Ok s' -> ni_unit s' = ni_unit s.
Proof.
  unfold takeMessage. intros E. destruct (ni_in s !! v) as [[b|]|]; [|by injection E as <-..].
  apply rbind_Ok in E as ([ready again] & _ & E). destruct ready; [|injection E as <-; by destruct again].
  apply rbind_Ok in E as (m & _ & E). apply rbind_Ok in E as ([[ok u] o] & Eu & E). injection Eu as <- <- _.
  injection E as <-. by destruct again.
Qed.

(** The state in which [drainLocked] runs. *)
Lemma wakeup_drain now s s' : wakeup c now s = Ok s' ->
  exists sd s5, rtc (rx_step c) (wires s) (wires sd) /\ ni_unit sd = ni_unit s /\ ni_dlv sd = ni_dlv s /\
    drainLocked c now sd = Ok s5 /\ ni_unit s' = ni_unit s5 /\ ni_dlv s' = ni_dlv s5.
Proof.
  unfold wakeup. intros E. apply rbind_Ok in E as (s1 & E1 & E). apply rbind_Ok in E as (o & _ & E).
  apply rbind_Ok in E as (s3 & E3 & E). apply rbind_Ok in E as (i & E4 & E). apply rbind_Ok in E as (s5 & E5 & E).
  apply rbind_Ok in E as (s6 & E6 & E). exists (set_rx i s3), s5.
  eapply (foldM_inv (fun x => ni_unit x = ni_unit s /\ wires x = wires s)) in E1 as (A1 & A2);
    [|intros x v y _ (B1 & B2) Ey; pose proof (takeMessage_unit _ _ _ _ Ey);
      destruct (takeMessage_steps c _ _ _ _ Ey) as (_ & C2 & _); split; congruence|done].
  eapply (foldM_inv (fun x => rtc (rx_step c) (wires s) (wires x) /\ ni_unit x = ni_unit s /\ ni_dlv x = ni_dlv s)) in E3
    as (B1 & B2 & B3).
  2:{ intros x p y _ (C1 & C2 & C3) Ey. pose proof (receivePort_steps _ _ _ _ _ Ey) as (D1 & _).
      apply rbind_Ok in Ey as ([[[link asm] got] full] & _ & [= <-]). split; [by etrans|]. by destruct full. }
  2:{ split; [change (wires (set_out o s1)) with (wires s1); by rewrite A2|]. split; [done|].
      change (ni_dlv (set_out o s1)) with (w_dlv (wires s1)). by rewrite A2. }
  apply lockAssembler_steps in E4. split_and!; [by etrans|done..| |].
  all: eapply (foldM_inv (fun x => ni_unit x = ni_unit s5 /\ ni_dlv x = ni_dlv s5)) in E6 as (D1 & D2);
    [|intros x p y _ (F1 & F2) Ey; unfold takeCredit in Ey; destruct (ni_clink x p) as [|[[v fr] t] rest];
      [by injection Ey as <-|]; destruct (now <? t); [by injection Ey as <-|];
      apply guard_Ok in Ey as [_ Ey], Ey as [_ Ey]; by injection Ey as <-|done];
    by apply checkReschedule_wake in E as [wk ->].
Qed.

Lemma tryBypass_none now (u : sNsu) (i : niIn NocStreamMsg) lock l : (forall k f rest, ii_asm i k = f :: rest -> is_control f = false) ->
  tryBypass c now u i lock l = Ok (u, None).
Proof.
  intros Hn. induction l as [|k l IH]; [done|]. cbn. case_decide; [done|].
  destruct (ii_asm i k) as [|f rest] eqn:Ea; [done|]. by rewrite (Hn _ _ _ Ea).
Qed.

Lemma drainLocked_unit now s s' : (forall k f rest, ii_asm (ni_rx s) k = f :: rest -> is_control f = false) ->
  drainLocked c now s = Ok s' ->
  (ni_unit s' = ni_unit s /\ ni_dlv s' = ni_dlv s) \/
  exists k f rest ok, ii_asm (ni_rx s) k = f :: rest /\ snsu_depacketizeFlit sc now (ni_unit s) f = Ok (ok, ni_unit s') /\
    ni_dlv s' = ni_dlv s ++ if ok then [mk_delivery k.1 k.2 f false] else [].
Proof.
  intros Hn E. unfold drainLocked in E. destruct (ii_lock (ni_rx s)) as [k|]; [|injection E as <-; by left].
  apply guard_Ok in E as [_ E], E as [_ E]. destruct (ii_asm (ni_rx s) k) as [|f rest] eqn:Ea; [injection E as <-; by left|].
  assert ((if is_tail f then Ok (ni_unit s, None) else tryBypass c now (ni_unit s) (ni_rx s) k (scan_order c (ni_rx s) k.1))
    = Ok (ni_unit s, None)) as Eb by (destruct (is_tail f); [done|by apply tryBypass_none]).
  rewrite Eb in E. cbn [rbind] in E. apply rbind_Ok in E as ([ok u] & Eu & E). right. exists k, f, rest, ok.
  split; [done|]. destruct ok.
  - injection E as <-. by destruct (is_tail f).
  - apply guard_Ok in E as [_ E], E as [_ E]. injection E as <-. split; [done|]. cbn. by rewrite app_nil_r.
Qed.

(** ** Packets on channels *)

Context (pks : list sent) (chan : nat * nat -> list sent).

(** [chan k] are the packets sent to channel [k]; a packet is sent once. *)
Record channels : Prop := {
  ch_ids : NoDup (st_pid <$> pks);
  ch_sent : Forall packet_sent pks;
  ch_known k x : x ∈ chan k -> x ∈ pks;
  ch_once k : NoDup (chan k);
  ch_own j k x : x ∈ chan j -> x ∈ chan k -> j = k
}.
Hypothesis Hch : channels.

(** Every channel carries its packets one after the other. *)
Definition carried (put : list (nat * flit NocStreamMsg)) : Prop :=
  forall p v, on_vc v (on_port p put) `prefix_of` concat (st_flits <$> chan (p, v)).

Lemma in_st_flits f x : f ∈ st_flits x -> fl_packet_id f = st_pid x /\ fl_vnet f = W_VNET.
Proof. intros [n Hn]%list_elem_of_lookup. apply st_flits_lookup in Hn as [_ ->]. done. Qed.

Lemma in_channel f k l : l `prefix_of` concat (st_flits <$> chan k) -> f ∈ l -> exists x, x ∈ chan k /\ f ∈ st_flits x.
Proof.
  intros [r Hr] Hf. assert (f ∈ concat (st_flits <$> chan k)) as H by (rewrite Hr; apply elem_of_app; by left).
  apply list_elem_of_In, in_concat in H as (y & Hy & H). apply list_elem_of_In in Hy, H.
  apply list_elem_of_fmap in Hy as (x & -> & Hx). by exists x.
Qed.

Lemma on_packet_none pid l : Forall (fun f => fl_packet_id f <> pid) l -> on_packet pid l = [].
Proof. intros H. unfold on_packet. induction H; [done|]. by rewrite filter_cons_False. Qed.
Lemma on_packet_all x : on_packet (st_pid x) (st_flits x) = st_flits x.
Proof.
  unfold on_packet. assert (Forall (fun f => fl_packet_id f = st_pid x) (st_flits x)) as H
    by (apply Forall_forall; intros f Hf; by apply in_st_flits in Hf as [? _]).
  induction H as [|f l Hf _ IH]; [done|]. by rewrite filter_cons_True, IH.
Qed.

Lemma on_packet_channel xs x : NoDup xs -> (forall y, y ∈ xs -> y ∈ pks) -> x ∈ xs ->
  on_packet (st_pid x) (concat (st_flits <$> xs)) = st_flits x.
Proof using Hch.
  intros Hn. induction Hn as [|y xs Hy _ IH]; intros Hk Hx; [by apply not_elem_of_nil in Hx|].
  assert (x ∈ pks) as Hxp by by apply Hk. cbn [fmap list_fmap concat]. unfold on_packet. rewrite filter_app.
  fold (on_packet (st_pid x) (st_flits y)) (on_packet (st_pid x) (concat (st_flits <$> xs))).
  pose proof (same_packet pks (conj (ch_ids Hch) (ch_sent Hch))) as Hsame.
  destruct (decide (st_pid x = st_pid y)) as [Exy|Hne].
  - apply Hsame in Exy as ->; [|done|by apply Hk; left]. rewrite on_packet_all, on_packet_none, app_nil_r; [done|]. apply Forall_forall. intros f Hf E.
    apply list_elem_of_In, in_concat in Hf as (z & Hz & Hf). apply list_elem_of_In in Hz, Hf.
    apply list_elem_of_fmap in Hz as (z' & -> & Hz). apply in_st_flits in Hf as [Hf _]. rewrite E in Hf.
    apply Hsame in Hf; [|done|by apply Hk; right]. by subst z'.
  - apply elem_of_cons in Hx as [-> |Hx]; [done|]. rewrite (on_packet_none _ (st_flits y)); [by apply IH; [intros; apply Hk; right|]|].
    apply Forall_forall. intros f Hf E. apply in_st_flits in Hf as [Hf _]. congruence.
Qed.

(** Deliveries in the order of their channels are arrivals of packets. *)
Lemma deliveries_arrive (l : list (delivery NocStreamMsg)) :
  (forall k, dlv_on k l `prefix_of` concat (st_flits <$> chan k)) -> arrivals pks (dl_flit <$> l).
Proof using Hch.
  intros Hl. assert (Hof : forall d, d ∈ l -> exists x, x ∈ chan (dl_port d, dl_vc d) /\ dl_flit d ∈ st_flits x).
  { intros d Hd. eapply in_channel; [apply Hl|]. apply list_elem_of_fmap_2. by apply list_elem_of_filter. }
  split.
  - apply Forall_forall. intros f Hf. apply list_elem_of_fmap in Hf as (d & -> & Hd).
    destruct (Hof d Hd) as (x & Hx & Hf). exists x. split; [by eapply ch_known|]. by apply in_st_flits in Hf as [? _].
  - intros x Hx. destruct (on_packet (st_pid x) (dl_flit <$> l)) as [|f r] eqn:E; [by exists (st_flits x)|]. rewrite <- E.
    assert (f ∈ on_packet (st_pid x) (dl_flit <$> l)) as Hf by (rewrite E; by left).
    apply list_elem_of_filter in Hf as [Hp Hf]. apply list_elem_of_fmap in Hf as (d & -> & Hd).
    destruct (Hof d Hd) as (y & Hy & Hfy). apply in_st_flits in Hfy as [Hfy _]. rewrite Hp in Hfy.
    apply (same_packet pks (conj (ch_ids Hch) (ch_sent Hch))) in Hfy as <-; [|done|by eapply ch_known].
    set (k := (dl_port d, dl_vc d)) in *.
    assert (on_packet (st_pid x) (dl_flit <$> l) = on_packet (st_pid x) (dlv_on k l)) as ->.
    { clear - Hof Hch Hx Hy. unfold dlv_on. induction l as [|e l IH]; [done|].
      assert (IH' := IH (fun d Hd => Hof d (list_elem_of_further _ _ _ Hd))). clear IH. unfold on_packet in *.
      rewrite fmap_cons, !filter_cons. rewrite IH'. case_decide as E1; case_decide as E2.
      - by rewrite fmap_cons, filter_cons_True.
      - exfalso. apply E2. destruct (Hof e ltac:(by left)) as (z & Hz & Hf). apply in_st_flits in Hf as [Hf _]. rewrite E1 in Hf.
        apply (same_packet pks (conj (ch_ids Hch) (ch_sent Hch))) in Hf as <-; [|done|by eapply ch_known]. by eapply ch_own.
      - by rewrite fmap_cons, filter_cons_False.
      - done. }
    rewrite <- (on_packet_channel (chan k) x); [|apply (ch_once Hch)|intros; by eapply ch_known|done].
    destruct (Hl k) as [r' Hr']. rewrite Hr'. unfold on_packet. rewrite filter_app. by eexists.
Qed.

Lemma carried_before put x : carried (put ++ [x]) -> carried put.
Proof.
  intros H p v. specialize (H p v). destruct x as [q f]. rewrite on_port_snoc in H. unfold on_vc in *.
  rewrite filter_app in H. by eapply prefix_app_l.
Qed.

(** What was taken from a channel and what waits in its assembler. *)
Lemma taken_prefix put ret (w : @wire NocStreamMsg) p v : rx_inv put ret w ->
  (dlv_on (p, v) (w_dlv w) ++ w_asm w (p, v)) `prefix_of` on_vc v (on_port p put).
Proof.
  intros Hi. rewrite (ri_link _ _ _ Hi), <- (ri_asm _ _ _ Hi). unfold on_vc. rewrite filter_app. by eexists.
Qed.
Lemma channel_prefix put ret (w : @wire NocStreamMsg) k : carried put -> rx_inv put ret w ->
  (dlv_on k (w_dlv w) ++ w_asm w k) `prefix_of` concat (st_flits <$> chan k).
Proof. intros Hc Hi. destruct k as [p v]. etrans; [by eapply taken_prefix|apply (Hc p v)]. Qed.

(** The interface offers the unit the flits of its packets in order. *)
Lemma rx_reach_unit s put ret outs now : (forall v, 0 <= nc_max c v) -> rx_reach s put ret outs now -> carried put ->
  (exists t, t <= now /\ sn_reach sc (arrivals pks) (ni_unit s) (dl_flit <$> ni_dlv s) outs t) /\
  Forall (fun d => dl_bypass d = false) (ni_dlv s).
Proof using Hch.
  intros Hmax. induction 1 as [u bufs E|s put ret outs t now s' Hr IH Ht E|s put ret outs t now woken u _ IH Ht Hd E
    |s put ret outs t now m d b bufs cb wake _ IH Ht E|s put ret outs now p f t _ IH|s put ret outs now p x rest _ IH Hc]; intros Hput.
  - split; [|by constructor]. exists 0. split; [done|]. by constructor.
  - destruct (IH Hput) as [(t' & Ht' & Hs) Hb]. apply wakeup_drain in E as (sd & s5 & E1 & E2 & E3 & E4 & -> & ->).
    assert (rx_inv put ret (wires sd)) as Hi.
    { eapply rx_steps_inv; [|exact E1]. exact (rx_reach_wires _ _ _ _ _ Hmax Hr). }
    pose proof (fun k => channel_prefix put ret (wires sd) k Hput Hi) as Hpre. cbn [wires w_dlv w_asm] in Hpre. cbn in E2, E3.
    apply drainLocked_unit in E4 as [[-> ->]|(k & f & rest & ok & Ea & Eu & ->)].
    + rewrite E2, E3. split; [|done]. exists t'. split; [lia|done].
    + rewrite E2 in Eu. rewrite E3 in Hpre |- *. split; [|apply Forall_app; split; [done|]; destruct ok; [by apply Forall_singleton|constructor]].
      exists now. split; [lia|].
      pose proof (deliveries_arrive (ni_dlv s ++ [mk_delivery k.1 k.2 f false])) as Har. rewrite fmap_app in Har. cbn in Har.
      pose proof (sr_flit sc (arrivals pks) (ni_unit s) _ outs t' now f ok (ni_unit s5) Hs ltac:(lia)) as Hstep. rewrite fmap_app.
      destruct ok; [|cbn; rewrite app_nil_r]; apply Hstep; try exact Eu; apply Har; intros k'; rewrite dlv_on_deliver;
        (etrans; [|apply (Hpre k')]); apply prefix_app; (case_decide; [subst k'; rewrite Ea; by exists rest|apply prefix_nil]).
    + intros k f rest Ea. destruct (in_channel f k _ (Hpre k)) as (x & _ & Hx); [apply elem_of_app; right; rewrite Ea; by left|].
      apply in_st_flits in Hx as [_ Hx]. unfold is_control. rewrite Hx. by destruct (fl_type f).
  - destruct (IH Hput) as [(t' & Ht' & Hs) Hb]. split; [|by destruct woken]. exists now. split; [lia|].
    replace (ni_unit (if woken then _ else _)) with u by by destruct woken.
    replace (ni_dlv (if woken then _ else _)) with (ni_dlv s) by by destruct woken. eapply sr_drain; [exact Hs|lia|exact Hd|exact E].
  - destruct (IH Hput) as [(t' & Ht' & Hs) Hb]. split; [|done]. exists now. split; [lia|]. eapply sr_endpoint; [exact Hs|lia|exact E].
  - by apply carried_before, IH in Hput.
  - by apply IH.
Qed.

(** The beats in the endpoint's buffer and read by it. *)
Lemma receive_beats s put ret outs now :
  (forall v, 0 <= nc_max c v) -> good_width (sc_width sc) -> is_u32 (axisCompleteFrames sc) ->
  rx_reach s put ret outs now -> carried put ->
  exists ms, ms.*1 = fl_packet_id <$> (dl_flit <$> ni_dlv s) /\
    (forall k, k ∈ pks -> packet_beats (sc_width sc) (dl_flit <$> ni_dlv s) k (of_packet (st_pid k) ms)) /\
    (axisReassembleFrames sc = false -> mc_strict_fifo (sc_mb sc) = true ->
     outs ++ (me_msg <$> m_prio_heap (su_W (ni_unit s))) = concat ms.*2).
Proof using Hch.
  intros Hmax HW Hn Hr Hput. destruct (rx_reach_unit _ _ _ _ _ Hmax Hr Hput) as [(t & Ht & Hs) _].
  destruct (beats_delivered sc pks _ _ _ _ HW Hn (ch_ids Hch) (ch_sent Hch) Hs) as (ms & H1 & H2 & H3 & H4 & H5).
  exists ms. split; [done|]. split; [done|]. intros Hm Hf. by rewrite H2, <- H4, H5.
Qed.

(** C5: the AXI-Stream receive path.  If every channel of every link carries whole stream
    packets one after the other, then in every run of a network interface with an
    AXI-Stream slave unit: the unit takes the flits packet by packet, without interleaving;
    the beats it makes carry their packets' bytes in order, source, TID, TDEST and, once a
    packet is complete, its TLAST; and in hardware mode with an ordered buffer, the beats the
    endpoint has read followed by those in its buffer are exactly these beats, in order. *)
Theorem axis_receive_path s put ret outs now :
  (forall v, 0 <= nc_max c v) -> good_width (sc_width sc) -> is_u32 (axisCompleteFrames sc) ->
  rx_reach s put ret outs now -> carried put ->
  pstream (dl_flit <$> ni_dlv s) /\
  exists ms, ms.*1 = fl_packet_id <$> (dl_flit <$> ni_dlv s) /\
    (forall k, k ∈ pks -> packet_beats (sc_width sc) (dl_flit <$> ni_dlv s) k (of_packet (st_pid k) ms)) /\
    (axisReassembleFrames sc = false -> mc_strict_fifo (sc_mb sc) = true ->
     outs ++ (me_msg <$> m_prio_heap (su_W (ni_unit s))) = concat ms.*2).
Proof using Hch.
  intros Hmax HW Hn Hr Hput. split; [|by eapply receive_beats].
  destruct (rx_reach_unit _ _ _ _ _ Hmax Hr Hput) as [_ Hb].
  replace (dl_flit <$> ni_dlv s) with (main_stream (ni_dlv s)).
  2:{ clear - Hb. unfold main_stream. induction Hb as [|d l Hd _ IH]; [done|]. by rewrite filter_cons_True, !fmap_cons, IH. }
  apply rx_reach_ni in Hr. apply (ni_reach_packet c _ _ _ Hmax Hr). intros p v. destruct (Hput p v) as [r E].
  eapply pstream_prefix. rewrite <- E. apply pstream_concat. apply Forall_forall. intros l Hl.
  apply list_elem_of_fmap in Hl as (x & -> & Hx). destruct (st_n_flits x) as [_ Hx'].
  { apply (proj1 (Forall_forall _ _) (ch_sent Hch)). by eapply ch_known. }
  exists (st_pid x), (st_vc x), W_VNET, (st_route x), (st_n x), (st_msg x). split; [lia|done].
Qed.
End Receive.
