(* ===== verification/AxisEndToEnd.v ===== *)
(** * A stream from master unit to endpoint

    Composition of the AXI-Stream master unit that sends a stream and the receive path of the
    network interface it goes to.  In between, routers add to the hop count of a flit and keep
    the order of each channel. *)

From stdpp Require Import functions.
From S2P Require Import Prelude AxiTypes AxisWriteBuffer AxisDepack NppReceive Flit SNmu MsgBuffer.
From S2P Require Import Router Stream MmNmu NetIface NetIfaceRun SNsu SNsuRun SNsuPackets AxisReceive.

(** ** Packets after some hops *)

Definition hop (n : nat) (f : flit NocStreamMsg) : flit NocStreamMsg := Nat.iter n increment_hops f.
Definition sent_hop (n : nat) (k : sent) : sent :=
  mk_sent (st_pid k) (st_vc k) (Nat.iter n hop_route (st_route k)) (st_msg k).

Lemma hop_new_flit n pid i vc vnet rt m (msg : NocStreamMsg) :
  hop n (new_flit pid i vc vnet rt m msg) = new_flit pid i vc vnet (Nat.iter n hop_route rt) m msg.
Proof. induction n as [|n IH]; [done|]. change (increment_hops (hop n (new_flit pid i vc vnet rt m msg)) = new_flit pid i vc vnet (hop_route (Nat.iter n hop_route rt)) m msg). by rewrite IH. Qed.

Lemma st_flits_hop n k : hop n <$> st_flits k = st_flits (sent_hop n k).
Proof.
  unfold st_flits, packet_flits. rewrite <- list_fmap_compose. apply list_fmap_ext. intros _ i _. apply hop_new_flit.
Qed.
Lemma concat_flits_hop n l : hop n <$> concat (st_flits <$> l) = concat (st_flits <$> (sent_hop n <$> l)).
Proof. induction l as [|k l IH]; [done|]. cbn. by rewrite fmap_app, st_flits_hop, IH. Qed.

Lemma hop_route_ends n rt : rt_src_ni (Nat.iter n hop_route rt) = rt_src_ni rt /\ rt_dest_ni (Nat.iter n hop_route rt) = rt_dest_ni rt.
Proof. induction n as [|n [IH1 IH2]]; [done|]. done. Qed.

(** A packet is determined by any of its flits. *)
Lemma flit_of f x : f ∈ st_flits x -> x = mk_sent (fl_packet_id f) (fl_vc f) (fl_route f) (fl_msg f).
Proof. intros [n Hn]%list_elem_of_lookup. apply st_flits_lookup in Hn as [_ ->]. by destruct x. Qed.

(** Selecting flits by their route selects packets. *)
Section Select.
Context (P : NocRouteInfo -> Prop) {Hdec : forall r, Decision (P r)}.

Lemma select_flits x l : l `prefix_of` st_flits x ->
  filter (fun f => P (fl_route f)) l = if decide (P (st_route x)) then l else [].
Proof.
  intros [r Hr]. assert (Forall (fun f => fl_route f = st_route x) l) as H.
  { apply Forall_forall. intros f Hf. assert (f ∈ st_flits x) as H by (rewrite Hr; apply elem_of_app; by left).
    apply flit_of in H. by rewrite H. }
  clear Hr. induction H as [|f l Hf _ IH]; [by case_decide|]. rewrite filter_cons, Hf, IH. by case_decide.
Qed.
Lemma select_packets xs :
  filter (fun f => P (fl_route f)) (concat (st_flits <$> xs)) = concat (st_flits <$> filter (fun x => P (st_route x)) xs).
Proof.
  induction xs as [|x xs IH]; [done|]. cbn [fmap list_fmap concat]. rewrite filter_app, IH, (select_flits x), filter_cons by done.
  by case_decide.
Qed.
End Select.

(** ** The bytes of a channel *)

#[local] Abbreviation bytes_of ms := (concat (kept_bytes <$> (bm_beat <$> ms))).
Lemma bytes_of_app l1 l2 : bytes_of (l1 ++ l2) = bytes_of l1 ++ bytes_of l2.
Proof. by rewrite !fmap_app, concat_app. Qed.

Lemma of_packet_app pid ms1 ms2 : of_packet pid (ms1 ++ ms2) = of_packet pid ms1 ++ of_packet pid ms2.
Proof. unfold of_packet. by rewrite filter_app, fmap_app, concat_app. Qed.
Lemma of_packet_same pid ms : Forall (fun p => p = pid) ms.*1 -> of_packet pid ms = concat ms.*2.
Proof.
  intros H. unfold of_packet. induction ms as [|x ms IH]; [done|]. cbn in H. apply Forall_cons in H as [Hx H].
  rewrite filter_cons_True by done. cbn. by rewrite IH.
Qed.
Lemma of_packet_none pid ms : Forall (fun p => p <> pid) ms.*1 -> of_packet pid ms = [].
Proof.
  intros H. unfold of_packet. induction ms as [|x ms IH]; [done|]. cbn in H. apply Forall_cons in H as [Hx H].
  rewrite filter_cons_False by done. by apply IH.
Qed.

Lemma ids_of_flits x l : l `prefix_of` st_flits x -> Forall (fun p => p = st_pid x) (fl_packet_id <$> l).
Proof.
  intros [r Hr]. apply Forall_fmap, Forall_forall. intros f Hf. assert (f ∈ st_flits x) as H by (rewrite Hr; apply elem_of_app; by left).
  by apply in_st_flits in H as [? _].
Qed.
Lemma ids_of_packets xs tr : tr `prefix_of` concat (st_flits <$> xs) -> Forall (fun p => p ∈ st_pid <$> xs) (fl_packet_id <$> tr).
Proof.
  intros Hp. apply Forall_fmap, Forall_forall. intros f Hf. destruct (in_channel (fun _ => xs) f (0%nat, 0%nat) tr Hp Hf) as (x & Hx & Hfx).
  apply in_st_flits in Hfx as [E _]. cbn. rewrite E. by apply list_elem_of_fmap_2.
Qed.

Lemma on_packet_app pid l1 l2 : on_packet pid (l1 ++ l2) = on_packet pid l1 ++ on_packet pid l2.
Proof. apply filter_app. Qed.
Lemma on_packet_absent pid l : Forall (fun p => p <> pid) (fl_packet_id <$> l) -> on_packet pid l = [].
Proof. intros H. rewrite Forall_fmap in H. by apply on_packet_none. Qed.

(** The beats of the first packet and those after it. *)
Lemma beats_split W x (xs : list sent) tr (ms1 ms2 : list (Z * list beatMsg)) :
  st_pid x ∉ st_pid <$> xs -> st_flits x <> [] -> tr `prefix_of` concat (st_flits <$> xs) ->
  ms1.*1 = fl_packet_id <$> st_flits x -> ms2.*1 = fl_packet_id <$> tr ->
  (forall y, y ∈ x :: xs -> on_packet (st_pid y) (st_flits x ++ tr) <> [] ->
    packet_beats W (st_flits x ++ tr) y (of_packet (st_pid y) (ms1 ++ ms2))) ->
  bytes_of (concat ms1.*2) = st_bytes x /\
  (forall y, y ∈ xs -> on_packet (st_pid y) tr <> [] -> packet_beats W tr y (of_packet (st_pid y) ms2)).
Proof.
  intros Hx Hx0 Hp H1 H2 Hb. pose proof (ids_of_flits x _ (reflexivity _)) as Hid1. pose proof (ids_of_packets xs tr Hp) as Hid2.
  assert (Forall (fun p => p <> st_pid x) (fl_packet_id <$> tr)) as Hid2' by (eapply Forall_impl; [exact Hid2|]; cbn; by intros p Hpx ->).
  split.
  - assert (on_packet (st_pid x) (st_flits x ++ tr) = st_flits x) as Ex
      by by rewrite on_packet_app, on_packet_all, on_packet_absent, app_nil_r.
    destruct (Hb x) as (_ & _ & Hb3); [by left|by rewrite Ex|]. destruct (Hb3 Ex) as [Hall _].
    rewrite of_packet_app, (of_packet_none _ ms2), app_nil_r, of_packet_same in Hall; by rewrite ?H1, ?H2.
  - intros y Hy Hny. assert (Forall (fun p => p <> st_pid y) (fl_packet_id <$> st_flits x)) as Hid.
    { eapply Forall_impl; [exact Hid1|]. cbn. intros p -> E. apply Hx. rewrite E. by apply list_elem_of_fmap_2. }
    specialize (Hb y). rewrite of_packet_app, (of_packet_none _ ms1) in Hb by by rewrite H1. unfold packet_beats in Hb.
    rewrite on_packet_app, (on_packet_absent _ (st_flits x)) in Hb by done. apply Hb; [by right|done].
Qed.

(** Flits [tr] of the packets [xs], one after the other, gave the beats [ms], flit by flit,
    and the beats of each packet seen are that packet's: then they carry the packets' bytes in
    order, and all of them once all flits have come. *)
Lemma channel_bytes W xs tr ms : NoDup (st_pid <$> xs) -> Forall (fun x => st_flits x <> []) xs ->
  tr `prefix_of` concat (st_flits <$> xs) -> ms.*1 = fl_packet_id <$> tr ->
  (forall x, x ∈ xs -> on_packet (st_pid x) tr <> [] -> packet_beats W tr x (of_packet (st_pid x) ms)) ->
  bytes_of (concat ms.*2) `prefix_of` concat (st_bytes <$> xs) /\
  (tr = concat (st_flits <$> xs) -> bytes_of (concat ms.*2) = concat (st_bytes <$> xs)).
Proof.
  revert tr ms. induction xs as [|x xs IH]; intros tr ms Hn Hne Hp Hi Hb.
  { apply prefix_nil_inv in Hp as ->. apply fmap_nil_inv in Hi as ->. done. }
  cbn [fmap list_fmap concat] in Hn, Hp |- *. apply NoDup_cons in Hn as [Hx Hn]. apply Forall_cons in Hne as [Hx0 Hne].
  destruct (decide (length tr < length (st_flits x))%nat) as [Hlt|Hge].
  - assert (tr `prefix_of` st_flits x) as Hpx.
    { destruct Hp as [r Hr]. apply app_eq_inv in Hr as [(k & -> & _)|(k & Hk & _)]; [by eexists|].
      apply (f_equal length) in Hk. rewrite length_app in Hk. lia. }
    split; [|intros ->; rewrite length_app in Hlt; lia].
    destruct tr as [|f tr]; [apply fmap_nil_inv in Hi as ->; apply prefix_nil|].
    pose proof (ids_of_flits x _ Hpx) as Hids. rewrite <- (of_packet_same (st_pid x)) by by rewrite Hi.
    destruct (Hb x) as (Hb1 & _); [by left| |by apply prefix_app_r].
    apply Forall_inv in Hids. unfold on_packet. by rewrite filter_cons_True.
  - assert (exists tr', tr = st_flits x ++ tr') as [tr' ->].
    { destruct Hp as [r Hr]. apply app_eq_inv in Hr as [(k & Hk & _)|(k & -> & _)]; [|by exists k].
      exists []. rewrite Hk in Hge |- *. rewrite length_app in Hge. destruct k; [by rewrite !app_nil_r|cbn in Hge; lia]. }
    apply prefix_app_inv in Hp. rewrite fmap_app in Hi. apply fmap_app_inv in Hi as (ms1 & ms2 & H1 & H2 & ->).
    destruct (beats_split W x xs tr' ms1 ms2) as [Hall Hrest]; [done..|]. destruct (IH tr' ms2) as [IH1 IH2]; [done..|].
    rewrite fmap_app, concat_app, bytes_of_app, Hall. split; [by apply prefix_app|]. intros E. apply app_inv_head in E. by rewrite IH2.
Qed.

(** ** The beats of one source *)

(** The source that the endpoint sees on a beat. *)
Definition src_of (rt : NocRouteInfo) : Z := s32 (u32 (rt_src_ni rt)).
Definition from_src (id : Z) (l : list (flit NocStreamMsg)) : list (flit NocStreamMsg) :=
  filter (fun f => src_of (fl_route f) = id) l.
Definition beats_from (id : Z) (l : list beatMsg) : list beatMsg := filter (fun m => bm_src m = id) l.

Lemma beats_from_all id rt l : Forall (fun m => bm_src m = src_of rt) l ->
  beats_from id l = if decide (src_of rt = id) then l else [].
Proof.
  unfold beats_from. induction 1 as [|m l Hm _ IH]; [by case_decide|]. rewrite filter_cons, Hm, IH. by case_decide.
Qed.

Lemma select_beats id tr ms :
  Forall2 (fun f x => x.1 = fl_packet_id f /\ Forall (fun m => bm_src m = src_of (fl_route f)) x.2) tr ms ->
  exists ms', ms'.*1 = fl_packet_id <$> from_src id tr /\ concat ms'.*2 = beats_from id (concat ms.*2) /\
    forall pid, Forall (fun f => fl_packet_id f = pid -> src_of (fl_route f) = id) tr -> of_packet pid ms' = of_packet pid ms.
Proof.
  induction 1 as [|f [p bs] tr ms [Hp Hs] _ (ms' & H1 & H2 & H3)]; [by exists []|]. cbn [fst snd] in Hp, Hs.
  unfold from_src, beats_from in *. exists ((if decide (src_of (fl_route f) = id) then [(p, bs)] else []) ++ ms'). split_and!.
  - rewrite filter_cons. case_decide; [cbn; by rewrite Hp, H1|exact H1].
  - rewrite fmap_cons. cbn [concat snd]. rewrite filter_app, <- H2. fold (beats_from id bs). rewrite (beats_from_all _ _ _ Hs).
    by case_decide.
  - intros pid [Hf Hall]%Forall_cons. specialize (H3 pid Hall). rewrite of_packet_app, H3, (of_packet_app pid [(p, bs)] ms : of_packet pid ((p, bs) :: ms) = _). f_equal.
    case_decide as E; [done|]. symmetry. apply of_packet_none. constructor; [|constructor]. cbn. rewrite Hp. by intros ?%Hf.
Qed.

Lemma on_packet_from id pid tr : Forall (fun f => fl_packet_id f = pid -> src_of (fl_route f) = id) tr ->
  on_packet pid (from_src id tr) = on_packet pid tr.
Proof.
  unfold on_packet, from_src. induction 1 as [|f tr Hf _ IH]; [done|]. rewrite !filter_cons, <- IH.
  case_decide as E1; case_decide as E2; rewrite ?filter_cons_True, ?filter_cons_False by done; try done.
  exfalso. by apply E1, Hf.
Qed.

(** ** The packets of the sender *)

Lemma sorted_nodup (l : list Z) : StronglySorted Z.lt l -> NoDup l.
Proof.
  induction 1 as [|x l _ IH Hx]; [constructor|]. apply NoDup_cons. split; [|done]. intros Hin.
  rewrite Forall_forall in Hx. specialize (Hx x Hin). lia.
Qed.

Lemma sent_hop_pids n (P : sent -> Prop) `{!forall x, Decision (P x)} l :
  NoDup (st_pid <$> l) -> NoDup (st_pid <$> (sent_hop n <$> filter P l)).
Proof.
  intros Hn. rewrite <- list_fmap_compose. change (st_pid ∘ sent_hop n) with st_pid.
  induction l as [|x l IH]; [done|]. cbn in Hn. apply NoDup_cons in Hn as [Hx Hn]. rewrite filter_cons. case_decide; [|by apply IH].
  cbn. apply NoDup_cons. split; [|by apply IH]. intros (y & E & [_ Hy]%list_elem_of_filter)%list_elem_of_fmap.
  apply Hx. rewrite E. by apply list_elem_of_fmap_2.
Qed.

(** What the sender injects for [d] are flits of its packets for [d]. *)
Lemma sent_to (P : NocRouteInfo -> Prop) `{!forall r, Decision (P r)} pks cur m :
  filter (fun f => P (fl_route f)) (concat (st_flits <$> pks) ++ take m (from_option st_flits [] cur)) `prefix_of`
  concat (st_flits <$> filter (fun x => P (st_route x)) (pks ++ option_list cur)).
Proof.
  rewrite <- select_packets, fmap_app, concat_app, !filter_app. apply prefix_app. destruct cur as [x|]; cbn; [|by rewrite take_nil].
  rewrite app_nil_r, (select_flits P x) by by apply prefix_take. rewrite (select_flits P x) by done.
  case_decide; [by apply prefix_take|done].
Qed.

(** The sender's packets for [d], as they come after [n] hops. *)
Definition sent_for (n : nat) (d : Z) (ks : list sent) : list sent :=
  sent_hop n <$> filter (fun k => rt_dest_ni (st_route k) = d) ks.

Lemma sent_for_bytes n d ks : st_bytes <$> sent_for n d ks = st_bytes <$> filter (fun k => rt_dest_ni (st_route k) = d) ks.
Proof. unfold sent_for. by rewrite <- list_fmap_compose. Qed.

Lemma sender_flits tdm vcm id n d sn bytes fls ps cur : nmu_inv tdm vcm id sn bytes fls ps cur ->
  let ys := sent_for n d (ps ++ option_list cur) in
  NoDup (st_pid <$> ys) /\ Forall (fun y => st_flits y <> []) ys /\
  (hop n <$> filter (fun f => rt_dest_ni (fl_route f) = d) fls) `prefix_of` concat (st_flits <$> ys) /\
  (np_valid (currNPPInfo (nm_core sn)) = false ->
   (hop n <$> filter (fun f => rt_dest_ni (fl_route f) = d) fls) = concat (st_flits <$> ys)).
Proof.
  intros [_ _ Hs Hc Hf _ Hp _] ys. unfold ys, sent_for. rewrite <- concat_flits_hop. split_and!.
  - by apply sent_hop_pids, sorted_nodup.
  - apply Forall_forall. intros y (k & -> & [_ Hk]%list_elem_of_filter)%list_elem_of_fmap.
    rewrite Forall_forall in Hs. destruct (st_n_flits k (sent_packet_sent _ _ _ k (Hs k Hk))) as [_ Hr]. intros E. apply (f_equal length) in E.
    unfold st_flits in E. rewrite length_packet_flits in E. change (st_n (sent_hop n k)) with (st_n k) in E. cbn in E. lia.
  - assert (exists m, fls = concat (st_flits <$> ps) ++ take m (from_option st_flits [] cur)) as [m ->].
    { eexists. rewrite Hf. destruct cur; [reflexivity|]. cbn. by rewrite take_nil. }
    destruct (sent_to (fun r => rt_dest_ni r = d) ps cur m) as [r ->]. rewrite fmap_app. by eexists.
  - intros Hv. destruct cur as [k|]; [destruct Hc as [Hc _]; congruence|]. cbn in Hf |- *. rewrite Hf, !app_nil_r. f_equal.
    exact (select_packets (fun r => rt_dest_ni r = d) ps).
Qed.

Lemma sender_routes tdm vcm id sn bytes fls ps cur : nmu_inv tdm vcm id sn bytes fls ps cur ->
  Forall (fun k => (exists f, f ∈ fls /\ fl_route f = st_route k) \/
    (np_valid (currNPPInfo (nm_core sn)) = true /\ np_route (currNPPInfo (nm_core sn)) = st_route k)) (ps ++ option_list cur).
Proof.
  intros [_ _ Hs Hc Hf _ _ _]. apply Forall_app in Hs as [Hs _]. apply Forall_app. split.
  - apply Forall_forall. intros k Hk. left. rewrite Forall_forall in Hs.
    destruct (st_n_flits k (sent_packet_sent _ _ _ k (Hs k Hk))) as [_ Hn]. destruct (st_flits k) as [|f r] eqn:E.
    { apply (f_equal length) in E. unfold st_flits in E. rewrite length_packet_flits in E. cbn in E. lia. }
    assert (f ∈ st_flits k) as Hfk by (rewrite E; by left). exists f. split; [|by apply flit_of in Hfk as ->].
    rewrite Hf. apply elem_of_app. left. apply list_elem_of_In, in_concat. exists (st_flits k).
    split; apply list_elem_of_In; [by apply list_elem_of_fmap_2|done].
  - destruct cur as [k|]; [|constructor]. apply Forall_singleton. right. by destruct Hc as (Hv & _ & _ & _ & Hr & _).
Qed.

Section EndToEnd.
Context (sc : snsuCfg) (c : nicfg) (pks : list sent) (chan : nat * nat -> list sent).
Hypothesis Hch : channels pks chan.
Implicit Types (s : netif NocStreamMsg sNsu).

(** Every flit taken is a flit of a packet of its channel. *)
Lemma taken_flits s put ret outs now d : (forall v, 0 <= nc_max c v) -> rx_reach sc c s put ret outs now -> carried chan put ->
  d ∈ ni_dlv s -> exists x, x ∈ chan (dl_port d, dl_vc d) /\ dl_flit d ∈ st_flits x.
Proof.
  intros Hmax Hr Hput Hd. pose proof (rx_reach_wires sc c _ _ _ _ _ Hmax Hr) as Hi.
  pose proof (channel_prefix chan put ret (wires s) (dl_port d, dl_vc d) Hput Hi) as Hp.
  eapply in_channel; [eapply prefix_app_l, Hp|]. apply list_elem_of_fmap_2, list_elem_of_filter. done.
Qed.

(** The beats of a flit show the source of the flit. *)
Lemma beats_sources W tr ms : ms.*1 = fl_packet_id <$> tr -> (forall f, f ∈ tr -> exists x, x ∈ pks /\ f ∈ st_flits x) ->
  (forall x, x ∈ pks -> packet_beats W tr x (of_packet (st_pid x) ms)) ->
  Forall2 (fun f x => x.1 = fl_packet_id f /\ Forall (fun m => bm_src m = src_of (fl_route f)) x.2) tr ms.
Proof.
  intros Hi Hf Hb. apply Forall2_same_length_lookup. split; [by rewrite <- (length_fmap fl_packet_id), <- Hi, length_fmap|].
  intros i f [p bs] Hfi Hmi. assert (p = fl_packet_id f) as ->.
  { apply (f_equal (.!! i)) in Hi. rewrite !list_lookup_fmap, Hfi, Hmi in Hi. by injection Hi. }
  split; [done|]. destruct (Hf f) as (x & Hx & Hfx); [by eapply list_elem_of_lookup_2|]. destruct (Hb x Hx) as (_ & Hs & _).
  apply in_st_flits in Hfx as Hid. destruct Hid as [Hid _]. apply flit_of in Hfx. apply Forall_forall. intros m Hm.
  rewrite Forall_forall in Hs. destruct (Hs m) as (_ & -> & _); [|by rewrite Hfx].
  apply list_elem_of_In, in_concat. exists bs. split; [|by apply list_elem_of_In]. apply list_elem_of_In, list_elem_of_fmap.
  exists (fl_packet_id f, bs). split; [done|]. apply list_elem_of_filter. split; [done|by eapply list_elem_of_lookup_2].
Qed.

(** The beats of one source, whose flits are those of the packets [ys]. *)
Lemma source_bytes W id tr ms ys : ms.*1 = fl_packet_id <$> tr -> (forall f, f ∈ tr -> exists x, x ∈ pks /\ f ∈ st_flits x) ->
  (forall x, x ∈ pks -> packet_beats W tr x (of_packet (st_pid x) ms)) ->
  NoDup (st_pid <$> ys) -> Forall (fun y => st_flits y <> []) ys -> from_src id tr `prefix_of` concat (st_flits <$> ys) ->
  bytes_of (beats_from id (concat ms.*2)) `prefix_of` concat (st_bytes <$> ys) /\
  (from_src id tr = concat (st_flits <$> ys) -> bytes_of (beats_from id (concat ms.*2)) = concat (st_bytes <$> ys)).
Proof using Hch.
  intros Hi Hf Hb Hn Hne Hp. destruct (select_beats id tr ms) as (ms' & H1 & <- & H3); [by eapply beats_sources|].
  apply (channel_bytes W); [done..|]. intros y Hy Hny.
  destruct (on_packet (st_pid y) (from_src id tr)) as [|f l] eqn:Ey; [done|]. clear Hny.
  assert (f ∈ on_packet (st_pid y) (from_src id tr)) as Hfy by (rewrite Ey; by left).
  apply list_elem_of_filter in Hfy as [Hpid Hfs]. destruct (in_channel (fun _ => ys) f (0%nat, 0%nat) _ Hp Hfs) as (y' & Hy' & Hfy').
  apply list_elem_of_filter in Hfs as [Hsrc Hft]. destruct (Hf f Hft) as (x & Hx & Hfx).
  assert (x = y') as -> by (apply flit_of in Hfx, Hfy'; congruence). apply in_st_flits in Hfy' as Hid. destruct Hid as [Hid _].
  assert (y' = y) as ->.
  { apply list_elem_of_lookup in Hy as [i Hyi], Hy' as [j Hyj]. assert (j = i) as -> ; [|congruence].
    eapply NoDup_lookup; [exact Hn|rewrite list_lookup_fmap, Hyj; reflexivity|]. rewrite list_lookup_fmap, Hyi. cbn. congruence. }
  assert (Forall (fun g => fl_packet_id g = st_pid y -> src_of (fl_route g) = id) tr) as Hall.
  { apply Forall_forall. intros g Hg Eg. destruct (Hf g Hg) as (z & Hz & Hgz). apply in_st_flits in Hgz as Hz'. destruct Hz' as [Hz' _].
    rewrite Eg in Hz'. apply (same_packet pks (conj (ch_ids pks chan Hch) (ch_sent pks chan Hch))) in Hz' as <-; [|done..].
    apply flit_of in Hgz, Hfx. rewrite Hgz in Hfx. injection Hfx. intros _ -> _ _. done. }
  rewrite (H3 _ Hall). unfold packet_beats. rewrite (on_packet_from _ _ _ Hall). by apply Hb.
Qed.

(** A source whose packets all come on channel [k0]. *)
Lemma from_src_channel id k0 (l : list (delivery NocStreamMsg)) :
  (forall d, d ∈ l -> src_of (fl_route (dl_flit d)) = id -> (dl_port d, dl_vc d) = k0) ->
  from_src id (dl_flit <$> l) = from_src id (dlv_on k0 l).
Proof.
  unfold from_src, dlv_on. induction l as [|d l IH]; intros Hl; [done|].
  rewrite fmap_cons, !filter_cons, IH by (intros; apply Hl; [by right|done]).
  case_decide as E1; case_decide as E2; rewrite ?fmap_cons, ?filter_cons_True, ?filter_cons_False by done; try done.
  exfalso. apply E2, Hl; [by left|done].
Qed.

(** A stream from an AXI-Stream master unit to the endpoint at network interface [d].
    Take a run of master unit [id], which accepted [bytes] and injected [fls], and a run of
    the receiving interface whose channels carry whole stream packets, of any number of
    sources.  If the packets of [id] come on one channel and the network in between keeps
    the order of what [id] sent to [d] (it may add hops and other sources' packets, and not
    everything need have come), then the bytes that the endpoint has read and has in its
    buffer from source [id] are, in order, the bytes of the packets [id] made for [d]; these
    packets are cut from the accepted stream in order, and have a flit in [fls] or are being
    sent.  When the sender is idle and all
    its flits for [d] have been taken, all those bytes are there. *)
Lemma stream_end_to_end tdm vcm router id sn bytes fls s put ret outs now k0 hops d :
  nmu_reach tdm vcm router id sn bytes fls ->
  (forall v, 0 <= nc_max c v) -> good_width (sc_width sc) -> is_u32 (axisCompleteFrames sc) ->
  axisReassembleFrames sc = false -> mc_strict_fifo (sc_mb sc) = true ->
  rx_reach sc c s put ret outs now -> carried chan put ->
  (forall k x, x ∈ chan k -> src_of (st_route x) = id -> k = k0) ->
  from_src id (on_vc k0.2 (on_port k0.1 put)) `prefix_of` (hop hops <$> filter (fun f => rt_dest_ni (fl_route f) = d) fls) ->
  let got := concat (kept_bytes <$> (bm_beat <$> beats_from id (outs ++ (me_msg <$> m_prio_heap (su_W (ni_unit s)))))) in
  exists ks, Forall (fun k => (exists f, f ∈ fls /\ fl_route f = st_route k) \/
      (np_valid (currNPPInfo (nm_core sn)) = true /\ np_route (currNPPInfo (nm_core sn)) = st_route k)) ks /\
    bytes = concat (st_bytes <$> ks) ++ aw_stream (aw_writeBuffer (nm_writeBuffer sn)) /\
    let to_d := concat (st_bytes <$> filter (fun k => rt_dest_ni (st_route k) = d) ks) in
    got `prefix_of` to_d /\
    (np_valid (currNPPInfo (nm_core sn)) = false ->
     from_src id (dl_flit <$> ni_dlv s) = (hop hops <$> filter (fun f => rt_dest_ni (fl_route f) = d) fls) -> got = to_d).
Proof using Hch.
  intros Hn Hmax HW Hf Hhw Hfifo Hr Hput Hk0 Hnet got. subst got.
  destruct (nmu_reach_inv _ _ _ _ _ _ _ Hn) as (ps & cur & Hi). exists (ps ++ option_list cur).
  split; [by eapply sender_routes|]. split; [apply (ni_bytes _ _ _ _ _ _ _ _ Hi)|].
  destruct (receive_beats sc c pks chan Hch s put ret outs now) as (ms & H1 & H2 & H3); [done..|]. rewrite (H3 Hhw Hfifo).
  destruct (sender_flits _ _ _ hops d _ _ _ _ _ Hi) as (Y1 & Y2 & Y3 & Y4).
  pose proof (taken_flits s put ret outs now) as Ht. assert (from_src id (dl_flit <$> ni_dlv s) `prefix_of`
    concat (st_flits <$> sent_for hops d (ps ++ option_list cur))) as Hpre.
  { rewrite (from_src_channel id k0).
    - etrans; [|exact Y3]. etrans; [|exact Hnet]. destruct k0 as [p v].
      destruct (taken_prefix put ret (wires s) p v (rx_reach_wires sc c _ _ _ _ _ Hmax Hr)) as [r E]. cbn [fst snd] in *.
      rewrite E. unfold from_src. rewrite <- app_assoc, filter_app. by eexists.
    - intros e He Hs. destruct (Ht e) as (x & Hx & Hfx); [done..|]. apply (Hk0 _ x Hx). apply flit_of in Hfx. by rewrite Hfx. }
  destruct (source_bytes (sc_width sc) id _ ms (sent_for hops d (ps ++ option_list cur)) H1) as [G1 G2]; [|done..|].
  { intros f (e & -> & He)%list_elem_of_fmap. destruct (Ht e) as (x & Hx & Hfx); [done..|]. exists x. split; [|done].
    by apply (ch_known pks chan Hch) in Hx. }
  rewrite sent_for_bytes in G1, G2. split; [exact G1|]. intros Hv E. apply G2. by rewrite E, Y4.
Qed.
End EndToEnd.
