(* ===== verification/AxisHandler.v ===== *)
(** * The AXI-Stream node interface

    [NocInterface] with an [AXISHandler] ([src/src/noc/core/interface/NocInterface.cc],
    [src/src/noc/core/interface/protocols/AXISHandler.cc]): the boundary between an endpoint
    and its network interface.  On the endpoint's clock [nodeSideUpdate] takes the endpoint's
    signals and prepares the next state, which [tick] makes current; on the clock of the
    network [nocSideUpdate] moves a beat between the clock-domain crossing queue and the
    message buffer.  A master interface takes beats for a master unit; a slave interface
    drives the beats of a slave unit.  Both watch the handshakes with a [ProtocolChecker].

    The interface has the one channel W.  The traffic monitor and the probe, which only
    observe, are left out. *)

From S2P Require Import Prelude AxiTypes AxisWriteBuffer NppReceive Flit SNmu MsgBuffer SNsu.
From S2P Require Import Checkpoint AxiCheckpoint CdcQueue.

Inductive ifRole := Master | Slave.

Record axisIfCfg := mk_axisIfCfg {
  ac_role : ifRole;
  axisDataWidth : Z;
  axisIdWidth : Z;
  axisDestWidth : Z;
  ac_period : Z;               (* clock period of the interface *)
  ac_mb : mbCfg;
  ac_unset : Z                 (* [m_src_ni_id] of a new message, which no constructor sets *)
}.

(** ** The stream contract *)

Record StreamObservation := mk_StreamObservation {
  so_valid : bool;
  so_ready : bool;
  so_last : option bool;
  so_dest : option Z;
  so_payload : list Z
}.

(** [appendU64] and [appendU32]: the low [n] bytes, lowest first. *)
Definition append_le (n : nat) (v : Z) : list Z :=
  (fun i : nat => Z.land (Z.shiftr v (8 * nz i)) 255) <$> seq 0 n.

Definition bool_byte (b : bool) : Z := if b then 1 else 0.

(** [axisStablePayloadFingerprint] *)
Definition axisStablePayloadFingerprint (d : axisData) : list Z :=
  tdata d ++ append_le 8 (tkeep d) ++ append_le 4 (tid d) ++ append_le 4 (tdest d) ++
  append_le 4 (tuser d) ++ [bool_byte (tlast d)].

(** The payload [AXISHandler::observeStream] records: [appendU8] takes TUSER. *)
Definition observed_payload (d : axisData) : list Z :=
  tdata d ++ append_le 8 (tkeep d) ++ append_le 8 (tid d) ++ append_le 8 (tdest d) ++
  [u8 (tuser d)] ++ [bool_byte (tlast d)].

(** [AXISHandler::observeStream] *)
Definition observeStream (sending receiving : State) : option StreamObservation :=
  match st_body sending, st_body receiving with
  | SAxisMaster m, SAxisSlave tready =>
      let d := ams_data m in
      Some (mk_StreamObservation (tvalid d) tready (Some (tlast d)) (Some (tdest d)) (observed_payload d))
  | _, _ => None
  end.

Record ProtocolChecker := mk_ProtocolChecker {
  pc_hasPrev : bool;
  pc_prevValid : bool;
  pc_prevReady : bool;
  pc_prevLast : option bool;
  pc_prevDest : option Z;
  pc_prevPayload : list Z;
  pc_inPacket : bool;
  pc_packetDest : Z
}.
Definition ProtocolChecker_init : ProtocolChecker := mk_ProtocolChecker false false false None None [] false 0.

Definition is_last (l : option bool) : bool := default false l.

(** The part of [protocolCheck] that tracks the destination of a packet. *)
Definition checkDest (pc : ProtocolChecker) (cur : StreamObservation) : res (bool * Z) :=
  match so_dest cur with
  | None => Ok (pc_inPacket pc, pc_packetDest pc)
  | Some d =>
      guard (negb (pc_inPacket pc && so_valid cur && negb (d =? pc_packetDest pc)))
        (FPanic "Contract violation: dest changed mid-packet") (
      if so_valid cur && so_ready cur then
        let dest := if pc_inPacket pc then pc_packetDest pc else d in
        Ok (negb (is_last (so_last cur)), dest)
      else Ok (pc_inPacket pc, pc_packetDest pc))
  end.

(** [NocInterface::ProtocolChecker::protocolCheck] *)
Definition protocolCheck (pc : ProtocolChecker) (cur : StreamObservation) : res ProtocolChecker :=
  let waiting := pc_hasPrev pc && pc_prevValid pc && negb (pc_prevReady pc) in
  guard (negb (waiting && negb (so_valid cur)))
    (FPanic "Contract violation: valid deasserted before handshake") (
  guard (negb (waiting && is_last (pc_prevLast pc) && negb (is_last (so_last cur))))
    (FPanic "Contract violation: last deasserted before handshake") (
  guard (negb (waiting && so_valid cur && negb (so_ready cur) &&
               negb (bool_decide (so_payload cur = pc_prevPayload pc))))
    (FPanic "Contract violation: payload changed while stalled (valid && !ready)") (
  let* (inPacket, packetDest) := checkDest pc cur in
  Ok (mk_ProtocolChecker true (so_valid cur) (so_ready cur) (so_last cur) (so_dest cur)
        (so_payload cur) inPacket packetDest)))).

(** ** The interface *)

Record nocIf := mk_nocIf {
  currentState : State;
  nextState : State;
  nodeState : State;
  if_cdc : CDCQueue;
  if_checker : ProtocolChecker;
  write_delay : Z;
  last_enqueue_tick : Z
}.

Definition put_cdc (q : CDCQueue) (i : nocIf) : nocIf :=
  mk_nocIf (currentState i) (nextState i) (nodeState i) q (if_checker i) (write_delay i) (last_enqueue_tick i).
Definition put_next (s : State) (i : nocIf) : nocIf :=
  mk_nocIf (currentState i) s (nodeState i) (if_cdc i) (if_checker i) (write_delay i) (last_enqueue_tick i).
Definition put_checker (pc : ProtocolChecker) (i : nocIf) : nocIf :=
  mk_nocIf (currentState i) (nextState i) (nodeState i) (if_cdc i) pc (write_delay i) (last_enqueue_tick i).

Definition set_data (d : axisData) (m : axisMasterState) : axisMasterState :=
  mk_axisMasterState d (ams_ni_tready m) (ams_cdc_enqueue_ready m) (ams_node_input_tready m).
Definition set_tvalid (v : bool) (d : axisData) : axisData :=
  mk_axisData (DATA_WIDTH d) (DATA_WIDTH_BITS d) (DST_ID_WIDTH d) (ID_WIDTH d) (tdata d) (tid d) (tdest d)
    (tkeep d) (tuser d) (tlast d) v.

Section Interface.
Context (c : axisIfCfg).

(** [axisMasterState(axisDataWidth, axisIdWidth, axisDestWidth)] and [axisSlaveState()] *)
Definition new_axisMaster : State :=
  new_State (SAxisMaster (mk_axisMasterState
    (axisData_of_width (axisDataWidth c) (axisIdWidth c) (axisDestWidth c)) false false false)).
Definition new_axisSlave : State := new_State (SAxisSlave true).

(** [AXISHandler::createNodeInterfaceState] and [createNodeState] *)
Definition createNodeInterfaceState : State :=
  match ac_role c with Master => new_axisSlave | Slave => new_axisMaster end.
Definition createNodeState : State :=
  match ac_role c with Master => new_axisMaster | Slave => new_axisSlave end.

(** The constructor with [initChannelMap], and [NocInterface::init]. *)
Definition nocIf_init : nocIf :=
  mk_nocIf createNodeInterfaceState createNodeInterfaceState createNodeState (newCDCQueue 8)
    ProtocolChecker_init 0 0.

(** [AXISHandler::isTransactionReady] *)
Definition isTransactionReady (sending receiving : State) : res bool :=
  match st_body sending, st_body receiving with
  | SAxisMaster m, SAxisSlave tready => Ok (tready && tvalid (ams_data m))
  | _, _ => Err (FAssert "slave && master")
  end.

(** [AXISHandler::currChannelValid] *)
Definition currChannelValid (s : State) : bool :=
  match st_body s with SAxisMaster m => tvalid (ams_data m) | _ => false end.

Definition cdcEnqueueReady (i : nocIf) : bool := negb (isFull (if_cdc i)).
Definition cdcDequeueReady (i : nocIf) (now : Z) : bool := canDequeueToNoC (if_cdc i) now.

(** [AXISHandler::cdcEnqueue]; what [CDCQueue::enqueue] returns is ignored. *)
Definition cdcEnqueue (now : Z) (s : State) (info : option ResponseInfo) (i : nocIf) : nocIf :=
  put_cdc (match info with
           | Some ri => enqueueResp (if_cdc i) (Some s) ri now
           | None => enqueue (if_cdc i) (Some s) now
           end).2 i.

(** The bytes of the lanes TKEEP enables, over the whole of TDATA. *)
Definition beat_bytes (d : axisData) : list Z :=
  (fun i => byte_at (tdata d) i) <$>
    filter (fun i : nat => Is_true (Z.testbit (tkeep d) (nz i))) (seq 0 (length (tdata d))).

(** *** The side of the network *)

(** [AXISHandler::channelBufferReady] *)
Definition channelBufferReady (q : mbuf (M := beatMsg)) (now : Z) : res bool :=
  match m_prio_heap q with
  | [] => Ok false
  | _ => let* (ready, _) := mb_isReady (ac_mb c) q (now + 1) in Ok ready
  end.

(** [AXISHandler::getStateFromChannelQueue] into the master state [s]. *)
Definition getStateFromChannelQueue (now : Z) (s : State) (q : mbuf) : res State :=
  match st_body s with
  | SAxisMaster m =>
      let* ready := channelBufferReady q now in
      if ready then
        let* msg := mb_peek q in
        Ok (mk_State (bm_debugId msg) (SAxisMaster (set_data (bm_beat msg) m)))
      else
        (* [axisData data;], of the default widths *)
        Ok (mk_State (st_debugId s) (SAxisMaster (set_data (axisData_of_width 512 6 4) m)))
  | _ => Err (FAssert "master")
  end.

(** [AXISHandler::getResponseInfoFromChannelQueue] of a slave interface. *)
Definition getResponseInfoFromChannelQueue (now : Z) (q : mbuf) : res ResponseInfo :=
  let* ready := channelBufferReady q now in
  guard ready (FPanic "getResponseInfoFromChannelQueue: No data available in queue") (
  let* msg := mb_peek q in
  let d := bm_beat msg in
  Ok (mk_ResponseInfo true true RT_WRITE 0 0 (u32 (bm_src msg)) (beat_bytes d) (tlast d) (s32 (tdest d)))).

(** [NocInterface::nocSideUpdate] on the channel of a slave interface: a message becomes an
    entry of the crossing queue. *)
Definition nocSideIn (now : Z) (i : nocIf) (q : mbuf) : res (nocIf * mbuf) :=
  if cdcEnqueueReady i then
    let* ready := channelBufferReady q now in
    if ready then
      let* staged := getStateFromChannelQueue now createNodeInterfaceState q in
      let* info := getResponseInfoFromChannelQueue now q in
      let i := cdcEnqueue now staged (Some info) i in
      let* (_, _, q) := mb_dequeue (ac_mb c) q now in
      Ok (i, q)
    else Ok (i, q)
  else Ok (i, q).

(** [AXISHandler::cdcDequeueNiReady] of a master interface: the unit's ready signal for the
    beat at the front. *)
Definition cdcDequeueNiReady (now : Z) (i : nocIf) (nmu : sNmu) : res bool :=
  if canDequeueToNoC (if_cdc i) now then
    match peekFrontState (if_cdc i) now with
    | Some st => match st_body st with
                 | SAxisMaster m => Ok (s_getAxiWReady nmu (ams_data m))
                 | _ => Err (FPanic "cdcDequeueNiReady: expected axisMasterState in CDC")
                 end
    | None => Err (FPanic "cdcDequeueNiReady: expected axisMasterState in CDC")
    end
  else Ok (s_getAxiWReady nmu (axisData_of_width (axisDataWidth c) (axisIdWidth c) (axisDestWidth c))).

(** [AXISHandler::generateWriteDataToNoC]: the message and the book-keeping of the delay,
    which ends up in no message. *)
Definition next_write_delay (size edge : Z) (i : nocIf) : Z :=
  let num_flits := (size + 15) / 16 in
  let temp := 8 + (if num_flits <? 15 then num_flits - (num_flits + 3) / 4 else 15 - 4) in
  let delta_cycles := if negb (last_enqueue_tick i =? 0) && negb (ac_period c =? 0)
                      then u64 (u64 (edge - last_enqueue_tick i) + (ac_period c - 1)) / ac_period c else 0 in
  Z.max temp (u64 ((if 0 <? delta_cycles then delta_cycles - 1 else 0) + write_delay i)).
Definition generateWriteDataToNoC (d : axisData) (edge : Z) (i : nocIf) : beatMsg * nocIf :=
  (mk_beatMsg edge d (ac_unset c) [] (-1),
   mk_nocIf (currentState i) (nextState i) (nodeState i) (if_cdc i) (if_checker i)
     (next_write_delay (axis_getTotalByteSize d) edge i) edge).

(** [AXISHandler::createMessage] *)
Definition createMessage (s : State) (edge : Z) (i : nocIf) : res (beatMsg * nocIf) :=
  match st_body s with
  | SAxisMaster m =>
      let '(msg, i) := generateWriteDataToNoC (ams_data m) edge i in
      Ok (if 0 <=? st_debugId s
          then mk_beatMsg (bm_time msg) (bm_beat msg) (bm_src msg) (bm_debugIds msg) (st_debugId s)
          else msg, i)
  | _ => Err (FAssert "nodeState must be aximmMasterState for W channels")
  end.

(** [NocInterface::nocSideUpdate] on the channel of a master interface: the oldest entry
    becomes a message, nine cycles under way from the clock edge [edge]. *)
Definition nocSideOut (now edge : Z) (random : option Z) (i : nocIf) (q : mbuf) (nmu : sNmu)
    : res (nocIf * mbuf * sNmu) :=
  if cdcDequeueReady i now then
    let* ready := cdcDequeueNiReady now i nmu in
    if ready then
      let '(fromCdc, cdc) := dequeue (if_cdc i) now in
      let i := put_cdc cdc i in
      match fromCdc with
      | Some s =>
          let* (msg, i) := createMessage s edge i in
          let* q := mb_enqueue (ac_mb c) q msg (bm_time msg) edge (ac_period c * 9) random false false in
          Ok (i, q, enqueueBytes nmu (nz (length (beat_bytes (bm_beat msg)))))
      | None => Ok (i, q, nmu)
      end
    else Ok (i, q, nmu)
  else Ok (i, q, nmu).

(** *** The side of the endpoint *)

(** [AXISHandler::cdcDequeueToNode] *)
Definition cdcDequeueToNode (now : Z) (i : nocIf) : res nocIf :=
  let '(dequeued, cdc) := dequeue (if_cdc i) now in
  let i := put_cdc cdc i in
  match dequeued with
  | None => Ok i
  | Some from =>
      match st_body (nextState i), st_body from with
      | SAxisMaster m, SAxisMaster f =>
          Ok (put_next (mk_State (st_debugId from) (SAxisMaster (set_data (ams_data f) m))) i)
      | _, _ => Err (FAssert "master && from")
      end
  end.

(** [AXISHandler::copyChannelFromCurrentState] *)
Definition copyChannelFromCurrentState (i : nocIf) : res nocIf :=
  match st_body (currentState i), st_body (nextState i) with
  | SAxisMaster cur, SAxisMaster nex =>
      Ok (put_next (mk_State (st_debugId (currentState i)) (SAxisMaster (set_data (ams_data cur) nex))) i)
  | _, _ => Err (FPanic "copyChannelFromCurrentState: expected axisMasterState")
  end.

(** [AXISHandler::setChannelNextValidFalse] *)
Definition setChannelNextValidFalse (i : nocIf) : nocIf :=
  match st_body (nextState i) with
  | SAxisMaster m =>
      put_next (mk_State (st_debugId (nextState i)) (SAxisMaster (set_data (set_tvalid false (ams_data m)) m))) i
  | _ => i
  end.

(** The endpoint's TREADY is noted in the next state. *)
Definition note_input_tready (input : State) (i : nocIf) : nocIf :=
  match st_body (nextState i) with
  | SAxisMaster m =>
      let t := match st_body input with SAxisSlave tready => tready | _ => false end in
      put_next (mk_State (st_debugId (nextState i))
        (SAxisMaster (mk_axisMasterState (ams_data m) (ams_ni_tready m) (ams_cdc_enqueue_ready m) t))) i
  | _ => i
  end.

(** [NocInterface::nodeSideUpdate] starts from the current state and the endpoint's. *)
Definition start_update (input : State) (i : nocIf) : nocIf :=
  mk_nocIf (currentState i) (currentState i) input (if_cdc i) (if_checker i) (write_delay i) (last_enqueue_tick i).

Definition observe (sending receiving : State) (i : nocIf) : res nocIf :=
  match observeStream sending receiving with
  | Some o => let* pc := protocolCheck (if_checker i) o in Ok (put_checker pc i)
  | None => Ok i
  end.

(** The next beat of a slave interface: from the queue when none is driven or the driven one
    is taken, else none when it is taken, else the same. *)
Definition driveNext (now : Z) (input : State) (i : nocIf) : res nocIf :=
  let* take := if cdcDequeueReady i now then
                 if currChannelValid (currentState i) then isTransactionReady (currentState i) input else Ok true
               else Ok false in
  if take : bool then
    guard (match peekResponseInfo (if_cdc i) with
           | Some ri => negb (ri_responseEnd ri) || match ri_type ri with RT_NONE => false | _ => true end
           | None => true
           end) (FPanic "Unknown traffic monitor end type") (
    let* i := cdcDequeueToNode now i in Ok (note_input_tready input i))
  else
    let* done := isTransactionReady (currentState i) input in
    if done : bool then Ok (setChannelNextValidFalse i) else copyChannelFromCurrentState i.

(** [nodeSideUpdate] on the channel of a slave interface, with the message buffer [q]. *)
Definition nodeSideIn (now : Z) (input : State) (i : nocIf) (q : mbuf (M := beatMsg)) : res nocIf :=
  let* i := observe (currentState i) input (start_update input i) in
  let* i := driveNext now input i in
  let* _ := mb_isReady (ac_mb c) q now in
  Ok i.

(** [AXISHandler::snapshotNodeStateForToCdcProbe] writes into the endpoint's own state. *)
Definition snapshotNodeStateForToCdcProbe (node : State) (i : nocIf) : State :=
  match st_body node with
  | SAxisMaster m =>
      let t := match st_body (currentState i) with SAxisSlave tready => tready | _ => false end in
      mk_State (st_debugId node)
        (SAxisMaster (mk_axisMasterState (ams_data m) t (cdcEnqueueReady i) (ams_node_input_tready m)))
  | _ => node
  end.

(** [AXISHandler::updateChannelNextReady] *)
Definition updateChannelNextReady (node : State) (i : nocIf) : res nocIf :=
  match st_body (nextState i), st_body (currentState i), st_body node with
  | SAxisSlave _, SAxisSlave _, SAxisMaster _ =>
      Ok (put_next (mk_State (st_debugId (nextState i)) (SAxisSlave (cdcEnqueueReady i))) i)
  | _, _, _ => Err (FAssert "updateChannelNextReady")
  end.

(** [nodeSideUpdate] on the channel of a master interface; also the endpoint's state. *)
Definition nodeSideOut (now : Z) (input : State) (i : nocIf) : res (nocIf * State) :=
  let* i := observe input (currentState i) (start_update input i) in
  let input := snapshotNodeStateForToCdcProbe input i in
  let* i := if cdcEnqueueReady i then
              let* h := isTransactionReady input (currentState i) in
              Ok (if h : bool then cdcEnqueue now input None i else i)
            else Ok i in
  let* i := updateChannelNextReady input i in
  Ok (i, input).

(** [NocInterface::tick] *)
Definition if_tick (i : nocIf) : nocIf :=
  mk_nocIf (nextState i) (nextState i) (nodeState i) (if_cdc i) (if_checker i) (write_delay i) (last_enqueue_tick i).
End Interface.
