(* ===== verification/AxisContract.v ===== *)
(** * The AXI-Stream contract

    What a sender of beats promises, independent of the code, and what
    [ProtocolChecker::protocolCheck] makes of it; and the beats in a clock-domain crossing
    queue.  Both kinds of node interface are proved against these. *)

From S2P Require Import Prelude AxiTypes AxisWriteBuffer NppReceive Flit SNmu MsgBuffer SNsu.
From S2P Require Import Checkpoint AxiCheckpoint CdcQueue AxisHandler.

(** ** Packets of a stream of beats *)

(** The destination of the packet that is open after the beats, and that TDEST stays the
    same within packets. *)
Definition open_after (o : option Z) (d : axisData) : option Z :=
  if tlast d then None else Some (default (tdest d) o).
Fixpoint dest_stable (o : option Z) (l : list axisData) : Prop :=
  match l with
  | [] => True
  | d :: l => (forall x, o = Some x -> tdest d = x) /\ dest_stable (open_after o d) l
  end.

Lemma dest_stable_app o l1 l2 :
  dest_stable o (l1 ++ l2) <-> dest_stable o l1 /\ dest_stable (foldl open_after o l1) l2.
Proof. revert o. induction l1 as [|d l1 IH]; intros o; cbn; [tauto|]. rewrite IH. tauto. Qed.

(** ** The checker *)

Definition offered (d : axisData) : option axisData := if tvalid d then Some d else None.
Definition observation (d : axisData) (tready : bool) : StreamObservation :=
  mk_StreamObservation (tvalid d) tready (Some (tlast d)) (Some (tdest d)) (observed_payload d).

(** What the checker remembers of a stream of which [hs] were taken: the packet that is open,
    and a beat that was refused, which is [w]. *)
Record checker_inv (pc : ProtocolChecker) (w : option axisData) (hs : list axisData) : Prop := {
  ci_open : foldl open_after None hs = if pc_inPacket pc then Some (pc_packetDest pc) else None;
  ci_wait : pc_hasPrev pc && pc_prevValid pc && negb (pc_prevReady pc) = true ->
    exists d, w = Some d /\ pc_prevLast pc = Some (tlast d) /\ pc_prevPayload pc = observed_payload d
}.

Lemma checker_inv_init : checker_inv ProtocolChecker_init None [].
Proof. by split. Qed.
Lemma checker_inv_weaken pc w w' hs : (forall d, w = Some d -> w' = Some d) -> checker_inv pc w hs -> checker_inv pc w' hs.
Proof. intros Hw [Ho Hx]. split; [done|]. intros H. destruct (Hx H) as (d & E & Hd). exists d. split; [by apply Hw|done]. Qed.

(** While a refused beat is offered again and TDEST is stable, the checker has nothing to say. *)
Lemma protocolCheck_ok pc d tready w hs : checker_inv pc w hs -> (forall x, w = Some x -> x = d /\ tvalid d = true) ->
  dest_stable (foldl open_after None hs) (option_list (offered d)) ->
  exists pc', protocolCheck pc (observation d tready) = Ok pc'.
Proof.
  intros [Ho Hw] Hx Hd. unfold protocolCheck, checkDest. cbn [observation so_valid so_ready so_last so_dest so_payload].
  rewrite Ho in Hd. set (v := pc_hasPrev pc && pc_prevValid pc && negb (pc_prevReady pc)) in *.
  assert (v && negb (tvalid d) = false /\ v && is_last (pc_prevLast pc) && negb (tlast d) = false /\
    v && tvalid d && negb tready && negb (bool_decide (observed_payload d = pc_prevPayload pc)) = false) as (-> & G & ->).
  { destruct v; [|done]. destruct (Hw eq_refl) as (x & Hwx & -> & ->). destruct (Hx x Hwx) as [-> ->].
    rewrite bool_decide_true by done. by destruct (tlast d), tready. }
  change (is_last (Some (tlast d))) with (tlast d). rewrite G. cbn [negb guard]. unfold offered in Hd.
  destruct (pc_inPacket pc), (tvalid d); cbn [andb negb guard rbind] in *; try (destruct tready; by eexists).
  destruct Hd as [Hd _]. rewrite (Hd _ eq_refl), Z.eqb_refl. cbn. destruct tready; by eexists.
Qed.

Lemma protocolCheck_next pc d tready w hs pc' : checker_inv pc w hs -> protocolCheck pc (observation d tready) = Ok pc' ->
  checker_inv pc' (if tvalid d && negb tready then Some d else None) (hs ++ if tready then option_list (offered d) else []).
Proof.
  intros [Ho Hw] E. unfold protocolCheck in E. apply guard_Ok in E as [_ E], E as [_ E], E as [_ E].
  apply rbind_Ok in E as ([p x] & E & [= <-]). unfold checkDest in E.
  cbn [observation so_valid so_ready so_last so_dest so_payload] in *. apply guard_Ok in E as [Hg E].
  split; cbn [pc_inPacket pc_packetDest pc_hasPrev pc_prevValid pc_prevReady pc_prevLast pc_prevPayload].
  - rewrite foldl_app, Ho. unfold offered. destruct (tvalid d), tready; cbn [andb foldl option_list] in *; injection E as <- <-; cbn; try done.
    unfold open_after. by destruct (tlast d), (pc_inPacket pc).
  - cbn [andb]. intros Hx. rewrite Hx. by exists d.
Qed.

(** The beat a state drives. *)
Definition driven (s : State) : option axisData :=
  match st_body s with
  | SAxisMaster m => offered (ams_data m)
  | _ => None
  end.
Lemma driven_data s m : st_body s = SAxisMaster m -> driven s = offered (ams_data m).
Proof. unfold driven. by intros ->. Qed.

(** ** Entries of the crossing queue *)

(** Entry [e] holds a state that drives beat [d], with [ok] response information; nothing
    delays it. *)
Definition entry_of (ok : option ResponseInfo -> Prop) (d : axisData) (e : FIFOEntry) : Prop :=
  ok (fe_responseInfo e) /\ fe_dequeueTickValid e = false /\
  exists st m, fe_data e = Some st /\ st_body st = SAxisMaster m /\ ams_data m = d.
Record cdc_holds (ok : option ResponseInfo -> Prop) (ds : list axisData) (q : CDCQueue) : Prop := {
  ch_size : maxSize q = 8;
  ch_room : (length ds <= 8)%nat;
  ch_entries : Forall2 (entry_of ok) ds (fifo q)
}.

Lemma cdc_holds_new ok : cdc_holds ok [] (newCDCQueue 8).
Proof. split; [done|cbn; lia|constructor]. Qed.

Lemma cdc_holds_full ok ds q : cdc_holds ok ds q -> isFull q = bool_decide (length ds = 8%nat).
Proof.
  intros [Hs Hr He]. apply Forall2_length in He. rewrite (isFull_bound 8) by (lia || done). rewrite <- He.
  destruct (Z.leb_spec 8 (nz (length ds))); symmetry; [apply bool_decide_true|apply bool_decide_false]; lia.
Qed.

Lemma cdc_holds_push ok ds q e d : cdc_holds ok ds q -> isFull q = false -> entry_of ok d e -> cdc_holds ok (ds ++ [d]) (cdc_push q e).
Proof.
  intros Hq Hf He. rewrite (cdc_holds_full _ _ _ Hq) in Hf. apply bool_decide_eq_false in Hf. destruct Hq as [Hs Hr Hall].
  split; [done|rewrite length_app; cbn; lia|]. cbn. apply Forall2_app; [done|by constructor].
Qed.

(** The oldest entry can always be taken. *)
Lemma cdc_holds_front ok ds q now : cdc_holds ok ds q ->
  match ds with
  | [] => canDequeueToNoC q now = false
  | d :: rest => canDequeueToNoC q now = true /\ ok (peekResponseInfo q) /\
      exists st m q', dequeue q now = (Some st, q') /\ peekFrontState q now = Some st /\ st_body st = SAxisMaster m /\
        ams_data m = d /\ cdc_holds ok rest q'
  end.
Proof.
  intros [Hs Hr He]. unfold dequeue, peekFrontState, peekResponseInfo, canDequeueToNoC, cdc_gated.
  destruct ds as [|d rest]; inversion He as [|? e ? l (Hok & Hv & st & m & Hd & Hb & Hm) Hl]; subst; [done|].
  rewrite Hv. cbn. split; [done|]. split; [done|]. exists st, m, (mk_CDCQueue (maxSize q) l).
  rewrite Hd. split_and!; try done. split; [done|cbn in Hr; lia|done].
Qed.

(** ** Fingerprints *)

Lemma append_le_inj n v w : 0 <= v < 2 ^ (8 * nz n) -> 0 <= w < 2 ^ (8 * nz n) -> append_le n v = append_le n w -> v = w.
Proof.
  intros Hv Hw E. apply Z.bits_inj'. intros k Hk. destruct (Z.lt_ge_cases k (8 * nz n)) as [Hlt|Hge].
  - apply (f_equal (.!! zn (k / 8))) in E. unfold append_le in E. rewrite !list_lookup_fmap, !lookup_seq_lt in E by (apply Nat2Z.inj_lt; rewrite Z2Nat.id; [apply Z.div_lt_upper_bound; lia|apply Z.div_pos; lia]).
    cbn in E. apply (f_equal (fun o => Z.testbit (default 0 o) (k mod 8))) in E. cbn in E. change 255 with (Z.ones 8) in E.
    rewrite !Z.land_spec, !Z.ones_spec_low, !andb_true_r, !Z.shiftr_spec in E by mlia.
    replace (k mod 8 + 8 * nz (zn (k / 8))) with k in E by mlia. done.
  - rewrite <- (Z.mod_small v (2 ^ (8 * nz n))), <- (Z.mod_small w (2 ^ (8 * nz n))) by done. by rewrite !Z.mod_pow2_bits_high by lia.
Qed.
Lemma length_append_le n v : length (append_le n v) = n.
Proof. unfold append_le. by rewrite length_fmap, length_seq. Qed.
Lemma bool_byte_inj a b : bool_byte a = bool_byte b -> a = b.
Proof. by destruct a, b. Qed.

(** The signals that AXI-Stream requires to be stable while a beat waits. *)
Definition same_payload (a b : axisData) : Prop :=
  tdata a = tdata b /\ tkeep a = tkeep b /\ tid a = tid b /\ tdest a = tdest b /\ tuser a = tuser b /\ tlast a = tlast b.

(** The fingerprint of [axisStablePayloadFingerprint] identifies the payload: two beats of
    one bus width have the same fingerprint exactly when every stable signal agrees. *)
Theorem fingerprint_exact a b : axisData_typed a -> axisData_typed b -> length (tdata a) = length (tdata b) ->
  axisStablePayloadFingerprint a = axisStablePayloadFingerprint b <-> same_payload a b.
Proof.
  intros Ha Hb Hl. unfold axisStablePayloadFingerprint, same_payload. split; [|by intros (-> & -> & -> & -> & -> & ->)].
  intros E. apply app_inj_1 in E as [-> E]; [|done].
  apply app_inj_1 in E as [K E]; [|by rewrite !length_append_le]. apply app_inj_1 in E as [I E]; [|by rewrite !length_append_le].
  apply app_inj_1 in E as [D E]; [|by rewrite !length_append_le]. apply app_inj_1 in E as [U E]; [|by rewrite !length_append_le].
  injection E as E. apply bool_byte_inj in E. destruct Ha, Hb. unfold is_u32, is_u64 in *.
  apply append_le_inj in K, I, D, U; cbn; done.
Qed.

(** The payload that the handler compares leaves out all but the low byte of TUSER. *)
Theorem observed_payload_tuser a : observed_payload (set_sideband (tid a) (tdest a) (tuser a + 2 ^ 8) a) = observed_payload a.
Proof.
  unfold observed_payload, set_sideband. cbn [tdata tkeep tid tdest tuser tlast]. unfold u8.
  by rewrite <- (Z.mul_1_l (2 ^ 8)) at 1; rewrite Z.mod_add by done.
Qed.
