(* ===== verification/AxisSlaveIf.v ===== *)
(** * Beats through a slave interface

    Runs of the node interface of an AXI-Stream slave: every beat taken from the message
    buffer is driven to the endpoint exactly once and in order, and the signals the endpoint
    sees keep the AXI-Stream contract. *)

From S2P Require Import Prelude AxiTypes AxisWriteBuffer NppReceive Flit SNmu MsgBuffer SNsu.
From S2P Require Import Checkpoint AxiCheckpoint CdcQueue AxisHandler AxisContract.

(** ** Runs *)

Definition write_info (ri : option ResponseInfo) : Prop := exists r, ri = Some r /\ ri_type r = RT_WRITE.

Definition msgs_of (q : mbuf (M := beatMsg)) : list beatMsg := me_msg <$> m_prio_heap q.

Section SlaveIf.
Context (c : axisIfCfg).
Hypothesis Hrole : ac_role c = Slave.
Implicit Types (i : nocIf) (taken : list beatMsg) (hs : list axisData).

(** [sif_reach i taken hs]: [taken] were taken from the message buffer and [hs] were
    handed to the endpoint, a beat per cycle with TVALID and TREADY.  The clocks of the
    endpoint and of the network tick independently or together. *)
Inductive sif_reach : nocIf -> list beatMsg -> list axisData -> Prop :=
| sif_init : sif_reach (nocIf_init c) [] []
| sif_noc i taken hs now q i' q' ms :
    sif_reach i taken hs -> nocSideIn c now i q = Ok (i', q') -> msgs_of q = ms ++ msgs_of q' ->
    sif_reach (if_tick i') (taken ++ ms) hs
| sif_node i taken hs now input tready q i' :
    sif_reach i taken hs -> st_body input = SAxisSlave tready -> nodeSideIn c now input i q = Ok i' ->
    sif_reach (if_tick i') taken (hs ++ if tready then option_list (driven (currentState i)) else [])
| sif_both i taken hs now input tready q i1 i2 q' ms :
    sif_reach i taken hs -> st_body input = SAxisSlave tready -> nodeSideIn c now input i q = Ok i1 ->
    nocSideIn c now i1 q = Ok (i2, q') -> msgs_of q = ms ++ msgs_of q' ->
    sif_reach (if_tick i2) (taken ++ ms) (hs ++ if tready then option_list (driven (currentState i)) else []).

(** [s] is the state that becomes current; [ds] are the beats in the queue. *)
Record sif_inv (s : State) (cdc : CDCQueue) taken hs (ds : list axisData) : Prop := {
  si_body : exists m, st_body s = SAxisMaster m;
  si_cdc : cdc_holds write_info ds cdc;
  si_flow : Forall (fun m => tvalid (bm_beat m) = true) taken -> bm_beat <$> taken = hs ++ option_list (driven s) ++ ds
}.

(** A message becomes an entry. *)
Lemma nocSideIn_spec now i q i' q' ds : cdc_holds write_info ds (if_cdc i) -> nocSideIn c now i q = Ok (i', q') ->
  exists ms, msgs_of q = ms ++ msgs_of q' /\ cdc_holds write_info (ds ++ (bm_beat <$> ms)) (if_cdc i') /\
    currentState i' = currentState i /\ nextState i' = nextState i /\ if_checker i' = if_checker i.
Proof using Hrole.
  intros Hc E. unfold nocSideIn in E. unfold cdcEnqueueReady in E. destruct (isFull (if_cdc i)) eqn:Hf; cbn [negb] in E.
  { injection E as <- <-. exists []. by rewrite app_nil_r. }
  apply rbind_Ok in E as (ready & Er & E). destruct ready; [|injection E as <- <-; exists []; by rewrite app_nil_r].
  apply rbind_Ok in E as (staged & Es & E). apply rbind_Ok in E as (info & Ei & E). apply rbind_Ok in E as ([[m d] b] & Ed & E).
  injection E as <- <-. unfold getStateFromChannelQueue, createNodeInterfaceState in Es. rewrite Hrole in Es. cbn in Es.
  rewrite Er in Es. cbn in Es. apply rbind_Ok in Es as (msg & Em & Es). injection Es as <-.
  unfold getResponseInfoFromChannelQueue in Ei. rewrite Er in Ei. cbn in Ei. rewrite Em in Ei. cbn in Ei. injection Ei as <-.
  unfold mb_dequeue in Ed. apply rbind_Ok in Ed as ([rdy again] & _ & Ed). apply guard_Ok in Ed as [_ Ed].
  unfold mb_peek in Em. unfold msgs_of. destruct (m_prio_heap q) as [|e heap] eqn:Eh; [done|]. injection Em as <-. injection Ed as <- <- <-.
  exists [me_msg e]. split; [done|]. split; [|done]. unfold cdcEnqueue, enqueueResp. rewrite Hf. cbn [snd put_cdc if_cdc].
  apply cdc_holds_push; [done|done|]. split; [by eexists|]. split; [done|]. by eexists _, _.
Qed.

(** What a cycle of the endpoint does: the driven beat stays until it is taken, and then the
    next one is driven. *)
Record drives_next (tready : bool) (i i2 : nocIf) (ds ds' : list axisData) : Prop := {
  dn_body : exists m, st_body (nextState i2) = SAxisMaster m;
  dn_cdc : cdc_holds write_info ds' (if_cdc i2);
  dn_checker : if_checker i2 = if_checker i;
  dn_flow : Forall (fun d => tvalid d = true) ds ->
    option_list (driven (currentState i)) ++ ds =
      (if tready then option_list (driven (currentState i)) else []) ++ option_list (driven (nextState i2)) ++ ds';
  dn_stall d : tready = false -> driven (currentState i) = Some d -> driven (nextState i2) = Some d
}.

Lemma driveNext_spec now input tready i ds m : st_body (currentState i) = SAxisMaster m -> nextState i = currentState i ->
  st_body input = SAxisSlave tready -> cdc_holds write_info ds (if_cdc i) ->
  exists i2 ds', driveNext now input i = Ok i2 /\ drives_next tready i i2 ds ds'.
Proof.
  intros Hm Hn Hin Hc. assert (Hd : driven (currentState i) = if tvalid (ams_data m) then Some (ams_data m) else None)
    by exact (driven_data _ _ Hm).
  assert (Hkeep : exists i2, (let* done := isTransactionReady (currentState i) input in
      if done : bool then Ok (setChannelNextValidFalse i) else copyChannelFromCurrentState i) = Ok i2 /\
    if_cdc i2 = if_cdc i /\ if_checker i2 = if_checker i /\ (exists m', st_body (nextState i2) = SAxisMaster m') /\
    driven (nextState i2) = if tready && tvalid (ams_data m) then None else driven (currentState i)).
  { unfold isTransactionReady. rewrite Hm, Hin. cbn. unfold setChannelNextValidFalse, copyChannelFromCurrentState. rewrite Hn, Hm.
    rewrite Hd. destruct (tready && tvalid (ams_data m)); eexists; (split; [done|]); split_and!; try done; by eexists. }
  pose proof (cdc_holds_front _ _ _ now Hc) as Hf. unfold driveNext, cdcDequeueReady, currChannelValid. rewrite Hm.
  destruct ds as [|d rest].
  - rewrite Hf. cbn [rbind]. destruct Hkeep as (i2 & -> & E1 & E2 & E3 & E4). exists i2, []. split; [done|].
    split; [done|by rewrite E1|done| |intros ? Ht0 ?; by rewrite E4, Ht0].
    rewrite E4, Hd. intros _. by destruct tready, (tvalid (ams_data m)).
  - destruct Hf as (-> & (r & Hr & Ht) & st & ms & q' & Eq & _ & Hb & Hms & Hq'). unfold isTransactionReady at 1. rewrite Hm, Hin.
    destruct (tvalid (ams_data m)) eqn:Ev; [destruct tready|]; cbn [andb rbind]; [|
      destruct Hkeep as (i2 & -> & E1 & E2 & E3 & E4); exists i2, (d :: rest); split; [done|];
      split; [done|by rewrite E1|done| |intros ? _ ?; by rewrite E4]; rewrite E4, Hd; done|].
    all: rewrite Hr, Ht, orb_true_r; cbn [guard]; unfold cdcDequeueToNode; rewrite Eq; cbn [put_cdc nextState];
      rewrite Hn, Hm, Hb; cbn [rbind]; eexists _, rest; (split; [done|]); unfold note_input_tready; cbn;
      (split; cbn [nextState put_next put_cdc if_cdc if_checker currentState st_body ams_data set_data];
       [by eexists|done|done|intros [Hv _]%Forall_cons; rewrite Hd|intros ? Hf Hx; rewrite Hd in Hx; done]).
    + unfold driven, offered. cbn. by rewrite Hms, Hv.
    + unfold driven, offered. cbn. rewrite Hms, Hv. by destruct tready.
Qed.

(** *** The invariant *)

Definition all_valid taken : Prop := Forall (fun m => tvalid (bm_beat m) = true) taken.

Lemma waiting_valid s cdc taken hs ds : sif_inv s cdc taken hs ds -> all_valid taken -> Forall (fun d => tvalid d = true) ds.
Proof.
  intros [_ _ Hf] Hv. specialize (Hf Hv). assert (Forall (fun d => tvalid d = true) (bm_beat <$> taken)) as H by by apply Forall_fmap.
  rewrite Hf, !Forall_app in H. apply H.
Qed.

Lemma node_step i taken hs ds now input tready q i' :
  sif_inv (currentState i) (if_cdc i) taken hs ds -> checker_inv (if_checker i) (driven (currentState i)) hs ->
  st_body input = SAxisSlave tready -> nodeSideIn c now input i q = Ok i' ->
  let hs' := hs ++ if tready then option_list (driven (currentState i)) else [] in
  exists ds', sif_inv (nextState i') (if_cdc i') taken hs' ds' /\ checker_inv (if_checker i') (driven (nextState i')) hs'.
Proof.
  intros Hi Hc Hin E. pose proof Hi as [[m Hm] Hq Hf]. unfold nodeSideIn, observe, observeStream in E. rewrite Hm, Hin in E.
  change (if_checker (start_update input i)) with (if_checker i) in E. fold (observation (ams_data m) tready) in E.
  apply rbind_Ok in E as (i1 & E1 & E). apply rbind_Ok in E1 as (pc & Ep & [= <-]).
  destruct (driveNext_spec now input tready (put_checker pc (start_update input i)) ds m) as (i2 & ds' & E2 & [D1 D2 D3 D4 D5]); [done..|].
  rewrite E2 in E. cbn [rbind] in E. apply rbind_Ok in E as (x & _ & [= <-]). exists ds'. split.
  - split; [done|done|]. intros Hv. specialize (D4 (waiting_valid _ _ _ _ _ Hi Hv)). cbn in D4. by rewrite (Hf Hv), D4, <- app_assoc.
  - rewrite D3. eapply checker_inv_weaken; [|rewrite (driven_data _ _ Hm); by eapply protocolCheck_next].
    intros d. destruct (tvalid (ams_data m)) eqn:Ev, tready; cbn; try done. intros [= <-]. apply D5; [done|].
    change (driven (currentState i) = Some (ams_data m)). rewrite (driven_data _ _ Hm). unfold offered. by rewrite Ev.
Qed.

Lemma noc_step s i taken hs ds now q i' q' ms : s = nextState i ->
  sif_inv s (if_cdc i) taken hs ds -> nocSideIn c now i q = Ok (i', q') -> msgs_of q = ms ++ msgs_of q' ->
  nextState i' = s /\ if_checker i' = if_checker i /\ sif_inv s (if_cdc i') (taken ++ ms) hs (ds ++ (bm_beat <$> ms)).
Proof using Hrole.
  intros -> [Hb Hq Hf] E Hms. destruct (nocSideIn_spec _ _ _ _ _ _ Hq E) as (ms' & Hms' & Hq' & _ & E1 & E2).
  rewrite Hms in Hms'. apply app_inv_tail in Hms' as <-. split_and!; [done..|]. split; [done|done|].
  intros [Hv _]%Forall_app. by rewrite fmap_app, (Hf Hv), <- !app_assoc.
Qed.

Lemma sif_reach_inv i taken hs : sif_reach i taken hs -> nextState i = currentState i /\
  checker_inv (if_checker i) (driven (currentState i)) hs /\ exists ds, sif_inv (currentState i) (if_cdc i) taken hs ds.
Proof using Hrole.
  induction 1 as [|i taken hs now q i' q' ms _ (H1 & H2 & ds & H3) E Hms|i taken hs now input tready q i' _ (H1 & H2 & ds & H3) Hin E
    |i taken hs now input tready q i1 i2 q' ms _ (H1 & H2 & ds & H3) Hin E1 E2 Hms].
  - assert (createNodeInterfaceState c = new_axisMaster c) as Hn by (unfold createNodeInterfaceState; by rewrite Hrole).
    split; [done|]. cbn. rewrite Hn. split; [by split|]. exists []. split; [by eexists|apply cdc_holds_new|]. intros _. cbn.
    unfold driven. cbn. done.
  - destruct (noc_step (currentState i) _ _ _ _ _ _ _ _ _ (eq_sym H1) H3 E Hms) as (E1 & E2 & E3). split; [done|]. cbn. rewrite E1, E2. eauto.
  - destruct (node_step _ _ _ _ _ _ _ _ _ H3 H2 Hin E) as (ds' & E1 & E2). split; [done|]. cbn. eauto.
  - destruct (node_step _ _ _ _ _ _ _ _ _ H3 H2 Hin E1) as (ds' & F1 & F2).
    destruct (noc_step _ _ _ _ _ _ _ _ _ _ eq_refl F1 E2 Hms) as (G1 & G2 & G3). split; [done|]. cbn. rewrite G1, G2. eauto.
Qed.

(** *** Results *)

(** C10: a slave interface neither loses, duplicates nor reorders a beat.  In every run the
    beats taken from the message buffer are those the endpoint took, then the one that is
    driven, if any, then those in the crossing queue, at most eight. *)
Theorem slave_if_delivers i taken hs : sif_reach i taken hs -> Forall (fun m => tvalid (bm_beat m) = true) taken ->
  exists ds, bm_beat <$> taken = hs ++ option_list (driven (currentState i)) ++ ds /\
    length (fifo (if_cdc i)) = length ds /\ (length ds <= 8)%nat.
Proof using Hrole.
  intros Hr Hv. destruct (sif_reach_inv _ _ _ Hr) as (_ & _ & ds & [_ [_ Hl He] Hf]). exists ds.
  split; [by apply Hf|]. apply Forall2_length in He. done.
Qed.

(** C38: a slave interface keeps the AXI-Stream contract: if TDEST does not change within the
    packets taken from the buffer, no cycle of the endpoint can fail, whether the endpoint is
    ready or not.  In particular the checker never finds TVALID or TLAST withdrawn or the
    payload changed before a handshake. *)
Theorem slave_if_contract i taken hs now input tready q : sif_reach i taken hs ->
  Forall (fun m => tvalid (bm_beat m) = true) taken -> dest_stable None (bm_beat <$> taken) ->
  st_body input = SAxisSlave tready -> m_time_last_time_pop q <= now ->
  exists i', nodeSideIn c now input i q = Ok i'.
Proof using Hrole.
  intros Hr Hv Hd Hin Hnow. destruct (sif_reach_inv _ _ _ Hr) as (_ & Hc & ds & [[m Hm] Hq Hf]).
  rewrite (Hf Hv), !dest_stable_app in Hd. destruct Hd as (_ & Hd & _).
  destruct (protocolCheck_ok (if_checker i) (ams_data m) tready (driven (currentState i)) hs) as [pc Ep]; [done| |by rewrite <- (driven_data _ _ Hm)|].
  { intros x Hx. rewrite (driven_data _ _ Hm) in Hx. unfold offered in Hx. destruct (tvalid (ams_data m)); [|done]. by injection Hx. }
  destruct (driveNext_spec now input tready (put_checker pc (start_update input i)) ds m) as (i2 & ds' & E2 & _); [done..|].
  unfold nodeSideIn, observe, observeStream. rewrite Hm, Hin. change (if_checker (start_update input i)) with (if_checker i).
  fold (observation (ams_data m) tready). rewrite Ep. cbn [rbind]. rewrite E2. cbn [rbind]. unfold mb_isReady.
  rewrite (proj2 (Z.leb_le _ _)) by done. by eexists.
Qed.
End SlaveIf.
