(* ===== verification/AxisMasterIf.v ===== *)
(** * Beats through a master interface

    Runs of the node interface of an AXI-Stream master: every beat that the endpoint hands
    over becomes a message for the master unit, once and in order, because TREADY is only
    driven when the crossing queue has room; and an endpoint that keeps the AXI-Stream contract
    is never found to break it. *)

From S2P Require Import Prelude AxiTypes AxisWriteBuffer NppReceive Flit SNmu MsgBuffer SNsu.
From S2P Require Import Checkpoint AxiCheckpoint CdcQueue AxisHandler AxisContract.

(** ** What the endpoint offers

    A cycle is the beat on the endpoint's wires, valid or not, and the interface's TREADY. *)
Definition cycle : Type := axisData * bool.

(** The beats that are handed over. *)
Definition handed (l : list cycle) : list axisData := concat ((fun x : cycle => if x.2 then option_list (offered x.1) else []) <$> l).

(** The contract: a valid beat stays on the wires until the cycle in which it is handed over,
    and TDEST is the same throughout a packet.  [w] is the beat that has to stay. *)
Definition refused (x : cycle) : option axisData := if tvalid x.1 && negb x.2 then Some x.1 else None.
Fixpoint stays (w : option axisData) (l : list cycle) : Prop :=
  match l with
  | [] => True
  | x :: l => (forall d, w = Some d -> x.1 = d) /\ stays (refused x) l
  end.
Definition keeps_contract (l : list cycle) : Prop :=
  stays None l /\ dest_stable None (handed l ++ from_option (fun x => option_list (refused x)) [] (last l)).

Lemma handed_snoc l x : handed (l ++ [x]) = handed l ++ if x.2 then option_list (offered x.1) else [].
Proof. unfold handed. rewrite fmap_app, concat_app. cbn. by rewrite app_nil_r. Qed.
Lemma stays_snoc w l x : stays w (l ++ [x]) ->
  stays w l /\ forall d, (match last l with Some y => refused y | None => w end) = Some d -> x.1 = d.
Proof.
  revert w. induction l as [|y l IH]; intros w; cbn; [tauto|]. intros [Hy Hl]. destruct (IH _ Hl) as [H1 H2].
  split; [done|]. rewrite last_cons. destruct (last l); exact H2.
Qed.

Section MasterIf.
Context (c : axisIfCfg).
Hypothesis Hrole : ac_role c = Master.
Implicit Types (i : nocIf) (l : list cycle) (sent : list beatMsg).

Definition msgs_in (q : mbuf (M := beatMsg)) : list beatMsg := me_msg <$> m_prio_heap q.

(** [mif_reach i l sent]: the endpoint's cycles were [l], and the messages [sent] were put in
    the buffer of the master unit. *)
Definition ready_of (s : State) : bool := match st_body s with SAxisSlave tready => tready | _ => false end.
Inductive mif_reach : nocIf -> list cycle -> list beatMsg -> Prop :=
| mif_init : mif_reach (nocIf_init c) [] []
| mif_node i l sent now input m i' input' :
    mif_reach i l sent -> st_body input = SAxisMaster m -> nodeSideOut now input i = Ok (i', input') ->
    mif_reach (if_tick i') (l ++ [(ams_data m, ready_of (currentState i))]) sent
| mif_noc i l sent now edge random q nmu i' q' nmu' ms :
    mif_reach i l sent -> nocSideOut c now edge random i q nmu = Ok (i', q', nmu') -> msgs_in q' ≡ₚ msgs_in q ++ ms ->
    mif_reach (if_tick i') l (sent ++ ms)
| mif_both i l sent now input m i1 input' edge random q nmu i2 q' nmu' ms :
    mif_reach i l sent -> st_body input = SAxisMaster m -> nodeSideOut now input i = Ok (i1, input') ->
    nocSideOut c now edge random i1 q nmu = Ok (i2, q', nmu') -> msgs_in q' ≡ₚ msgs_in q ++ ms ->
    mif_reach (if_tick i2) (l ++ [(ams_data m, ready_of (currentState i))]) (sent ++ ms).

Definition no_info (ri : option ResponseInfo) : Prop := ri = None.

(** [s] is the state that becomes current, [ds] the beats in the queue: TREADY promises a
    free place. *)
Record mif_inv (s : State) (cdc : CDCQueue) (hs : list axisData) sent (ds : list axisData) : Prop := {
  mv_body : exists tready, st_body s = SAxisSlave tready /\ (tready = true -> (length ds < 8)%nat);
  mv_cdc : cdc_holds no_info ds cdc;
  mv_flow : hs = (bm_beat <$> sent) ++ ds
}.

(** ** The side of the network *)

Lemma heap_push_perm (x : mbEntry (M := beatMsg)) h : heap_push x h ≡ₚ h ++ [x].
Proof.
  induction h as [|y h IH]; [done|]. cbn. destruct (msg_before y x); [by rewrite IH|]. by rewrite Permutation_cons_append.
Qed.

(** Either nothing happens, or the oldest beat, for which the unit is ready, becomes a
    message whose bytes the unit counts. *)
Lemma nocSideOut_spec now edge random i q nmu i' q' nmu' ds :
  cdc_holds no_info ds (if_cdc i) -> nocSideOut c now edge random i q nmu = Ok (i', q', nmu') ->
  currentState i' = currentState i /\ nextState i' = nextState i /\ if_checker i' = if_checker i /\
  ((i', q', nmu') = (i, q, nmu) \/
   exists d rest msg, ds = d :: rest /\ bm_beat msg = d /\ bm_time msg = edge /\ cdc_holds no_info rest (if_cdc i') /\
     s_getAxiWReady nmu d = true /\ mb_enqueue (ac_mb c) q msg edge edge (ac_period c * 9) random false false = Ok q' /\
     nmu' = enqueueBytes nmu (nz (length (beat_bytes d)))).
Proof.
  intros Hc E. pose proof (cdc_holds_front _ _ _ now Hc) as Hf. unfold nocSideOut, cdcDequeueReady in E.
  destruct ds as [|d rest]; [rewrite Hf in E; injection E as <- <- <-; split_and!; try done; by left|].
  destruct Hf as (Hcan & _ & st & m & cdc & Ed & Ep & Hb & Hm & Hrest). rewrite Hcan in E. unfold cdcDequeueNiReady in E. rewrite Hcan, Ep, Hb in E.
  cbn [rbind] in E. destruct (s_getAxiWReady nmu (ams_data m)) eqn:Er; [|injection E as <- <- <-; split_and!; try done; by left].
  rewrite Ed in E. unfold createMessage in E. rewrite Hb, Hm in E. cbn [generateWriteDataToNoC rbind] in E.
  match type of E with context [if _ then ?a else ?b] => set (msg := if 0 <=? st_debugId st then a else b) in E end.
  assert (bm_time msg = edge /\ bm_beat msg = d) as [Ht Hbeat] by (unfold msg; by destruct (0 <=? st_debugId st)).
  apply rbind_Ok in E as (b & Eb & E). injection E as <- <- <-. rewrite Ht in Eb. rewrite Hm in Er.
  split_and!; try done. right. exists d, rest, msg. split_and!; try done. by rewrite Hbeat.
Qed.

(** The new messages. *)
Lemma nocSideOut_msgs now edge random i q nmu i' q' nmu' ds ms : cdc_holds no_info ds (if_cdc i) ->
  nocSideOut c now edge random i q nmu = Ok (i', q', nmu') -> msgs_in q' ≡ₚ msgs_in q ++ ms ->
  exists ds', ds = (bm_beat <$> ms) ++ ds' /\ cdc_holds no_info ds' (if_cdc i').
Proof.
  intros Hc E Hp. destruct (nocSideOut_spec _ _ _ _ _ _ _ _ _ _ Hc E) as (_ & _ & _ & [[= -> -> ->]|(d & rest & msg & -> & Hd & _ & Hr & _ & Eb & _)]).
  - rewrite <- (app_nil_r (msgs_in q)) in Hp at 1. apply Permutation_app_inv_l, Permutation_nil_l in Hp as <-. by exists ds.
  - unfold mb_enqueue in Eb. inv_ok. destruct (arrival _ _ _ _ _) as [at_ la]. inv_ok. unfold msgs_in in Hp. cbn in Hp.
    rewrite heap_push_perm, fmap_app in Hp. apply Permutation_app_inv_l in Hp. cbn in Hp.
    apply Permutation_singleton_l in Hp as <-. exists rest. by subst.
Qed.

(** ** The side of the endpoint *)

Lemma node_out i hs sent ds now input m i' input' w :
  mif_inv (currentState i) (if_cdc i) hs sent ds -> checker_inv (if_checker i) w hs ->
  st_body input = SAxisMaster m -> nodeSideOut now input i = Ok (i', input') ->
  let x := (ams_data m, ready_of (currentState i)) in
  let hs' := hs ++ if x.2 then option_list (offered x.1) else [] in
  exists ds', mif_inv (nextState i') (if_cdc i') hs' sent ds' /\ checker_inv (if_checker i') (refused x) hs'.
Proof.
  intros [(tready & Hs & Ht) Hc Hf] Hk Hin E. unfold ready_of. rewrite Hs. cbn [fst snd].
  unfold nodeSideOut, observe, observeStream in E. rewrite Hin, Hs in E. fold (observation (ams_data m) tready) in E.
  apply rbind_Ok in E as (i1 & E1 & E). apply rbind_Ok in E1 as (pc & Ep & [= <-]). cbn [start_update if_checker] in Ep.
  apply (protocolCheck_next _ _ _ w hs) in Ep; [|done]. unfold snapshotNodeStateForToCdcProbe in E. rewrite Hin in E.
  set (in' := mk_State _ _) in E. unfold cdcEnqueueReady in E. cbn [start_update put_checker if_cdc currentState] in E.
  apply rbind_Ok in E as (i2 & E2 & E). apply rbind_Ok in E as (i3 & E3 & [= <- _]).
  assert (exists ds', cdc_holds no_info ds' (if_cdc i2) /\ if_checker i2 = pc /\
    ds' = ds ++ if tready then option_list (offered (ams_data m)) else []) as (ds' & Hq' & Hpc & Hds).
  { pose proof (cdc_holds_full _ _ _ Hc) as Hfull. destruct (isFull (if_cdc i)) eqn:Ef; cbn [negb] in E2.
    - injection E2 as <-. exists ds. symmetry in Hfull. apply bool_decide_eq_true in Hfull.
      destruct tready; [specialize (Ht eq_refl); lia|]. by rewrite app_nil_r.
    - unfold isTransactionReady in E2. cbn [in' st_body] in E2. rewrite Hs in E2. cbn [rbind ams_data] in E2. injection E2 as <-.
      destruct tready; [|exists ds; by rewrite app_nil_r]. unfold offered. cbn [andb]. destruct (tvalid (ams_data m)) eqn:Ev; [|exists ds; by rewrite app_nil_r].
      exists (ds ++ [ams_data m]). unfold cdcEnqueue, enqueue. cbn [if_cdc put_checker start_update]. rewrite Ef. cbn [snd put_cdc if_cdc].
      split_and!; [|done|done]. apply cdc_holds_push; [done|done|]. split; [done|]. split; [done|]. by eexists _, _. }
  exists ds'. unfold updateChannelNextReady in E3.
  destruct (st_body (nextState i2)) eqn:En; try done. destruct (st_body (currentState i2)) eqn:Ec; try done. cbn [in' st_body] in E3.
  injection E3 as <-. split; [|cbn; by rewrite Hpc]. split; cbn [nextState put_next if_cdc]; [|done|by rewrite Hf, Hds, <- app_assoc].
  eexists. split; [done|]. intros Hr. unfold cdcEnqueueReady in Hr. rewrite (cdc_holds_full _ _ _ Hq') in Hr. apply negb_true_iff, bool_decide_eq_false in Hr.
  pose proof (AxisContract.ch_room _ _ _ Hq'). lia.
Qed.

(** ** The invariant *)

Definition pending l : option axisData := match last l with Some x => refused x | None => None end.

Lemma noc_out s i hs sent ds now edge random q nmu i' q' nmu' ms : s = nextState i ->
  mif_inv s (if_cdc i) hs sent ds -> nocSideOut c now edge random i q nmu = Ok (i', q', nmu') -> msgs_in q' ≡ₚ msgs_in q ++ ms ->
  nextState i' = s /\ if_checker i' = if_checker i /\ exists ds', mif_inv s (if_cdc i') hs (sent ++ ms) ds'.
Proof.
  intros -> [(t & Hs & Ht) Hc Hf] E Hp. destruct (nocSideOut_spec _ _ _ _ _ _ _ _ _ _ Hc E) as (_ & E1 & E2 & _).
  destruct (nocSideOut_msgs _ _ _ _ _ _ _ _ _ _ _ Hc E Hp) as (ds' & -> & Hc'). split_and!; [done..|]. exists ds'.
  split; [|done|by rewrite Hf, fmap_app, <- app_assoc]. exists t. split; [done|]. intros Htt. specialize (Ht Htt). rewrite length_app in Ht. lia.
Qed.

Lemma mif_reach_inv i l sent : mif_reach i l sent -> nextState i = currentState i /\
  checker_inv (if_checker i) (pending l) (handed l) /\ exists ds, mif_inv (currentState i) (if_cdc i) (handed l) sent ds.
Proof using Hrole.
  induction 1 as [|i l sent now input m i' input' _ (H1 & H2 & ds & H3) Hin E|i l sent now edge random q nmu i' q' nmu' ms _ (H1 & H2 & ds & H3) E Hp
    |i l sent now input m i1 input' edge random q nmu i2 q' nmu' ms _ (H1 & H2 & ds & H3) Hin E1 E2 Hp].
  - assert (createNodeInterfaceState c = new_axisSlave) as Hn by (unfold createNodeInterfaceState; by rewrite Hrole).
    split; [done|]. cbn. rewrite Hn. split; [apply checker_inv_init|]. exists [].
    split; [exists true; split; [done|cbn; lia]|apply cdc_holds_new|done].
  - destruct (node_out _ _ _ _ _ _ _ _ _ _ H3 H2 Hin E) as (ds' & F1 & F2). split; [done|]. unfold pending. rewrite last_snoc, handed_snoc. eauto.
  - destruct (noc_out (currentState i) _ _ _ _ _ _ _ _ _ _ _ _ _ (eq_sym H1) H3 E Hp) as (E1 & E2 & ds' & E3). split; [done|]. cbn. rewrite E1, E2. eauto.
  - destruct (node_out _ _ _ _ _ _ _ _ _ _ H3 H2 Hin E1) as (ds' & F1 & F2).
    destruct (noc_out _ _ _ _ _ _ _ _ _ _ _ _ _ _ eq_refl F1 E2 Hp) as (G1 & G2 & ds2 & G3). split; [done|]. unfold pending.
    rewrite last_snoc, handed_snoc. cbn. rewrite G1, G2. eauto.
Qed.

(** ** Results *)

(** C11: a master interface takes what it is given.  In every run the beats handed over by the
    endpoint, in the cycles with TVALID and TREADY, are those of the messages given to the
    master unit followed by those in the crossing queue, in order; TREADY is driven only when
    the queue of eight has a free place. *)
Theorem master_if_takes i l sent : mif_reach i l sent ->
  exists ds, handed l = (bm_beat <$> sent) ++ ds /\ length (fifo (if_cdc i)) = length ds /\ (length ds <= 8)%nat /\
    (ready_of (currentState i) = true -> (length ds < 8)%nat).
Proof using Hrole.
  intros Hr. destruct (mif_reach_inv _ _ _ Hr) as (_ & _ & ds & [(t & Hs & Ht) [_ Hl He] Hf]). exists ds.
  apply Forall2_length in He. split_and!; try done. unfold ready_of. by rewrite Hs.
Qed.

(** An endpoint that keeps the AXI-Stream contract is never found to break it: if the
    cycles so far and the beat it offers now keep the contract, the update of a master
    interface succeeds. *)
Theorem master_if_contract i l sent now input m : mif_reach i l sent -> st_body input = SAxisMaster m ->
  keeps_contract (l ++ [(ams_data m, ready_of (currentState i))]) ->
  exists i' input', nodeSideOut now input i = Ok (i', input').
Proof using Hrole.
  intros Hr Hin [Hst Hd]. destruct (mif_reach_inv _ _ _ Hr) as (_ & Hc & ds & [(t & Hs & Ht) Hq Hf]).
  unfold ready_of in *. rewrite Hs in *. apply stays_snoc in Hst as [_ Hst]. cbn [fst] in Hst.
  destruct (protocolCheck_ok (if_checker i) (ams_data m) t (pending l) (handed l)) as [pc Ep]; [done| | |].
  - intros x Hx. rewrite (Hst x Hx). split; [done|]. unfold pending, refused in Hx. destruct (last l) as [y|]; [|done].
    destruct (tvalid y.1) eqn:Ev; [|done]. destruct y.2; [done|]. by injection Hx as <-.
  - rewrite handed_snoc, last_snoc, dest_stable_app in Hd. destruct Hd as [Hd1 Hd2]. rewrite dest_stable_app in Hd1.
    cbn [fst snd] in *. unfold refused, offered in *. cbn in Hd2. destruct t; [apply Hd1|]. rewrite app_nil_r in Hd2. by destruct (tvalid (ams_data m)).
  - unfold nodeSideOut, observe, observeStream. rewrite Hin, Hs. fold (observation (ams_data m) t).
    change (if_checker (start_update input i)) with (if_checker i). rewrite Ep. cbn [rbind].
    unfold snapshotNodeStateForToCdcProbe. rewrite Hin. set (in' := mk_State _ _).
    unfold isTransactionReady, updateChannelNextReady. cbn [in' st_body currentState put_checker start_update]. rewrite Hs.
    destruct (cdcEnqueueReady _); cbn [rbind]; [destruct (t && _)|]; cbn; rewrite Hs; by eexists _, _.
Qed.
End MasterIf.
