(* ===== verification/AxisTransmit.v ===== *)
(** * The AXI-Stream transmit path

    A master interface, its message buffer and the AXI-Stream master unit behind it.  The
    unit's ready signal counts the bytes that are on their way, so the write buffer of the
    unit never holds more than its 512 bytes, and every beat of the endpoint is packetized in
    order. *)

From S2P Require Import Prelude AxiTypes AxisWriteBuffer NppReceive Flit SNmu MsgBuffer SNsu.
From S2P Require Import Checkpoint AxiCheckpoint CdcQueue AxisHandler AxisContract AxisMasterIf.

(** ** An ordered buffer at any ticks *)

Section Ordered.
Context {M : Type} (mc : mbCfg).
Hypothesis Hstrict : mc_strict_fifo mc = true.

(** [ins] entered and [outs] left. *)
Record ordered (b : mbuf (M := M)) (ins outs : list M) : Prop := {
  or_bypass : m_last_message_strict_fifo_bypassed b = false;
  or_last : Forall (fun e => me_counter e <= m_msg_counter b /\ me_time e <= m_last_arrival_time b) (m_prio_heap b);
  or_fifo : ins = outs ++ (me_msg <$> m_prio_heap b)
}.

Lemma ordered_init : ordered mbuf_init [] [].
Proof. by split; [|constructor|]. Qed.

Lemma ordered_enqueue b ins outs msg created t delta random b' : ordered b ins outs ->
  mb_enqueue mc b msg created t delta random false false = Ok b' -> ordered b' (ins ++ [msg]) outs.
Proof using Hstrict.
  intros [Hb Hl ->] E. unfold mb_enqueue in E. inv_ok. destruct (arrival mc b t delta random) as [at_ la] eqn:Ea. inv_ok.
  rewrite Hb, Hstrict in *. cbn [orb negb andb] in *. bool_hyps.
  assert (m_last_arrival_time b <= la) as Hla.
  { unfold arrival in Ea. rewrite Hstrict in Ea. destruct random; injection Ea as _ <-; [|lia]. destruct (Z.ltb_spec (m_last_arrival_time b) t); lia. }
  set (x := mk_mbEntry msg at_ _ _).
  assert (heap_push x (m_prio_heap b) = m_prio_heap b ++ [x]) as Hx.
  { apply heap_push_end. eapply Forall_impl; [exact Hl|]. intros e [H1 H2]. unfold msg_before. subst x. cbn.
    destruct (Z.ltb_spec (me_time e) at_); [done|]. rewrite (proj2 (Z.eqb_eq _ _)), (proj2 (Z.leb_le _ _)) by lia. done. }
  split; cbn; rewrite ?Hx; [done| |by rewrite fmap_app, app_assoc]. apply Forall_app. split; [|apply Forall_singleton; subst x; cbn; lia].
  eapply Forall_impl; [exact Hl|]. cbn. intros e [H1 H2]. lia.
Qed.

Lemma ordered_dequeue b ins outs t msg d b' : ordered b ins outs -> mb_dequeue mc b t = Ok (msg, d, b') -> ordered b' ins (outs ++ [msg]).
Proof.
  intros [Hb Hl ->] E. unfold mb_dequeue in E. inv_ok. destruct a as [ready again]. inv_ok.
  destruct (m_prio_heap b) as [|e heap]; [done|]. injection E as <- <- <-. apply Forall_cons in Hl as [_ Hl].
  split; [done|exact Hl|]. cbn. by rewrite <- app_assoc.
Qed.
End Ordered.

(** ** Room in the write buffer *)

Section Room.
Context (tdm : gmap Z (gmap Z Z)) (vcm : gmap (Z * Z * Z) Z) (router : Z -> Z -> Z) (id : Z).

Lemma ready_shrinks c w b c' w' : aw_inv w ->
  checkDequeueReady (Some (bufferHeadReadyHandler tdm vcm router id)) c w = Ok (b, (c', w')) -> aw_bufferSize w' <= aw_bufferSize w.
Proof.
  intros Hi E. unfold checkDequeueReady in E. destruct (Z.eqb_spec (nextDequeuePos w) (-1)) as [Hn|Hn]; cbn [negb] in E.
  { by injection E as _ _ <-. }
  apply rbind_Ok in E as ([c1 w1] & E & [= _ _ ->]). unfold bufferHeadReadyHandler in E.
  destruct (np_valid (currNPPInfo c)); [by injection E as _ <-|].
  destruct (popNextPacket_npp w Hi Hn) as (p & w2 & Hp & _ & Hi2 & Hst). rewrite Hp in E.
  destruct (match pop_out _ _ _ with Some _ => _ | None => _ end) as [oPort dbg]. apply guard_Ok in E as [_ E].
  apply rbind_Ok in E as ([pid nx] & _ & E). apply rbind_Ok in E as (b0 & _ & E). apply rbind_Ok in E as (vc & _ & E). apply rbind_Ok in E as (c2 & _ & [= _ <-]).
  rewrite (awi_size _ Hi), (awi_size _ Hi2), <- Hst, length_app. lia.
Qed.

Lemma deq_shrinks c w c' w' new : aw_inv w -> dequeueIntermediate tdm vcm router id c w = Ok (c', w', new) ->
  aw_bufferSize w' <= aw_bufferSize w.
Proof.
  intros Hi E. unfold dequeueIntermediate in E. destruct (_ <=? _); [by injection E as _ <- _|].
  destruct (outVc_isFull _ _); [apply rbind_Ok in E as (x & _ & [= _ <- _]); done|].
  apply rbind_Ok in E as (m & _ & E). destruct (injectFlit _ _ _); [|apply rbind_Ok in E as (x & _ & [= _ <- _]); done].
  destruct (_ =? _); [|apply rbind_Ok in E as (x & _ & [= _ <- _]); done].
  apply rbind_Ok in E as ([b [c1 w1]] & E & [= _ -> _]). by eapply ready_shrinks.
Qed.

Lemma beat_grows s d oPort dbg s' : aw_inv (nm_writeBuffer s) -> axis_beat_ok d -> aw_bufferSize (nm_writeBuffer s) + 64 < 2 ^ 16 ->
  flitisizeMessage tdm vcm router id s d oPort dbg = Ok s' ->
  breaks_packet (nm_writeBuffer s) d = false /\ inQueueBytes s' = inQueueBytes s - axis_getTotalByteSize d /\
  aw_bufferSize (nm_writeBuffer s') <= aw_bufferSize (nm_writeBuffer s) + axis_getTotalByteSize d.
Proof.
  intros Hi Hd Hr E. pose proof (aw_push_inv _ d oPort 0 dbg Hi Hd Hr) as Hp. unfold flitisizeMessage, aw_add in E.
  apply rbind_Ok in E as ([c w] & E & [= <-]). apply rbind_Ok in E as (w1 & E1 & E). apply rbind_Ok in E as ([b [c1 w2]] & E & [= -> ->]).
  destruct (breaks_packet (nm_writeBuffer s) d); [by rewrite E1 in Hp|]. split_and!; [done..|].
  destruct Hp as (w3 & Hw3 & Hi3 & Hst). rewrite E1 in Hw3. injection Hw3 as <-. apply ready_shrinks in E; [|done]. cbn.
  rewrite (awi_size _ Hi3), Hst, length_app in E. rewrite (awi_size _ Hi), (axis_getTotalByteSize_kept d) by apply Hd. lia.
Qed.
End Room.

(** ** Runs of the path *)

Section Transmit.
Context (c : axisIfCfg) (tdm : gmap Z (gmap Z Z)) (vcm : gmap (Z * Z * Z) Z) (router : Z -> Z -> Z) (id : Z).
Hypothesis Hrole : ac_role c = Master.
Hypothesis Hstrict : mc_strict_fifo (ac_mb c) = true.
Implicit Types (i : nocIf) (q : mbuf (M := beatMsg)) (u : sNmu) (l : list cycle) (took : list beatMsg).

(** [tx_reach i q u l took fls]: the endpoint's cycles were [l]; the unit took the messages
    [took] and injected [fls].  The endpoint offers well-formed beats.  The interface moves
    beats on the clock of the network, the unit takes a message that is ready, its dequeue
    event fires, the link takes a flit, and other units draw packet ids. *)
Inductive tx_reach : nocIf -> mbuf -> sNmu -> list cycle -> list beatMsg -> list (flit NocStreamMsg) -> Prop :=
| tx_init pid : tx_reach (nocIf_init c) mbuf_init (sNmu_init pid) [] [] []
| tx_node i q u l took fls now input m i' input' :
    tx_reach i q u l took fls -> st_body input = SAxisMaster m -> (tvalid (ams_data m) = true -> axis_beat_ok (ams_data m)) ->
    nodeSideOut now input i = Ok (i', input') ->
    tx_reach (if_tick i') q u (l ++ [(ams_data m, ready_of (currentState i))]) took fls
| tx_noc i q u l took fls now edge random i' q' u' :
    tx_reach i q u l took fls -> nocSideOut c now edge random i q u = Ok (i', q', u') ->
    tx_reach (if_tick i') q' u' l took fls
| tx_both i q u l took fls now input m i1 input' edge random i2 q' u' :
    tx_reach i q u l took fls -> st_body input = SAxisMaster m -> (tvalid (ams_data m) = true -> axis_beat_ok (ams_data m)) ->
    nodeSideOut now input i = Ok (i1, input') -> nocSideOut c now edge random i1 q u = Ok (i2, q', u') ->
    tx_reach (if_tick i2) q' u' (l ++ [(ams_data m, ready_of (currentState i))]) took fls
| tx_take i q u l took fls now msg delay q' oPort u' :
    tx_reach i q u l took fls -> mb_dequeue (ac_mb c) q now = Ok (msg, delay, q') ->
    flitisizeMessage tdm vcm router id u (bm_beat msg) oPort (bm_debugId msg) = Ok u' ->
    tx_reach i q' u' l (took ++ [msg]) fls
| tx_deq i q u l took fls core w new :
    tx_reach i q u l took fls -> deqScheduled (nm_core u) = true ->
    dequeueIntermediate tdm vcm router id (nm_core u) (nm_writeBuffer u) = Ok (core, w, new) ->
    tx_reach i q {| nm_writeBuffer := w; nm_core := core; inQueueBytes := inQueueBytes u |} l took (fls ++ new)
| tx_link i q u l took fls vc :
    tx_reach i q u l took fls ->
    tx_reach i q {| nm_writeBuffer := nm_writeBuffer u; nm_core := link_take (nm_core u) vc; inQueueBytes := inQueueBytes u |} l took fls
| tx_ids i q u l took fls n :
    tx_reach i q u l took fls ->
    tx_reach i q {| nm_writeBuffer := nm_writeBuffer u; nm_core := other_packet_ids (nm_core u) n; inQueueBytes := inQueueBytes u |} l took fls.

Definition byte_count (ms : list beatMsg) : Z := foldr (fun m n => axis_getTotalByteSize (bm_beat m) + n) 0 ms.
Definition bytes_in (ms : list beatMsg) : list Z := concat (kept_bytes <$> (bm_beat <$> ms)).
Definition beats_ok (ms : list beatMsg) : Prop := Forall (fun m => axis_beat_ok (bm_beat m)) ms.

(** The messages made are those taken and those in the buffer, whose bytes the unit counts;
    with them its write buffer holds at most 512 bytes. *)
Record tx_inv i q u l took fls (sent : list beatMsg) : Prop := {
  ti_if : mif_reach c i l sent;
  ti_offers : Forall axis_beat_ok (handed l);
  ti_order : ordered q sent took;
  ti_nmu : nmu_reach tdm vcm router id u (bytes_in took) fls;
  ti_count : inQueueBytes u = byte_count (msgs_in q);
  ti_room : aw_bufferSize (nm_writeBuffer u) + inQueueBytes u <= 512
}.

Lemma byte_count_app a b : byte_count (a ++ b) = byte_count a + byte_count b.
Proof. unfold byte_count. induction a as [|m a IH]; [done|]. cbn. rewrite IH. lia. Qed.
Lemma byte_count_pos ms : beats_ok ms -> 0 <= byte_count ms.
Proof.
  unfold byte_count. induction 1 as [|m ms Hm _ IH]; [done|]. cbn. pose proof (axis_getTotalByteSize_range (bm_beat m)) as H.
  destruct Hm as [[Hw _] _]. specialize (H Hw). lia.
Qed.

Lemma tx_beats_ok i q u l took fls sent : tx_inv i q u l took fls sent -> beats_ok sent.
Proof using Hrole.
  intros [Hi Ho _ _ _ _]. destruct (mif_reach_inv c Hrole _ _ _ Hi) as (_ & _ & ds & [_ _ Hf]). rewrite Hf in Ho.
  apply Forall_app in Ho as [Ho _]. by rewrite Forall_fmap in Ho.
Qed.
Lemma tx_queue_ok i q u l took fls sent : tx_inv i q u l took fls sent -> beats_ok (msgs_in q).
Proof using Hrole. intros Hi. pose proof (tx_beats_ok _ _ _ _ _ _ _ Hi) as H. rewrite (or_fifo _ _ _ (ti_order _ _ _ _ _ _ _ Hi)) in H. by apply Forall_app in H as [_ H]. Qed.

Lemma beat_bytes_kept d : axis_wf d -> beat_bytes d = kept_bytes d.
Proof. intros (_ & Hl & _). unfold beat_bytes, kept_bytes. by rewrite Hl. Qed.
Lemma other_none core : other_packet_ids core 0 = core.
Proof. destruct core. unfold other_packet_ids. cbn. by rewrite Z.add_0_r. Qed.

Lemma buffer_pos u bytes fls : nmu_reach tdm vcm router id u bytes fls -> 0 <= aw_bufferSize (nm_writeBuffer u).
Proof. intros Hn. destruct (nmu_reach_inv _ _ _ _ _ _ _ Hn) as (pks & cur & [Hi _ _ _ _ _ _ _]). rewrite (awi_size _ Hi). lia. Qed.

(** *** The interface moves a beat *)

(** Of the unit, only the count of bytes changes. *)
Lemma nocSideOut_unit now edge random i q u i' q' u' : nocSideOut c now edge random i q u = Ok (i', q', u') ->
  nm_writeBuffer u' = nm_writeBuffer u /\ nm_core u' = nm_core u.
Proof.
  intros E. unfold nocSideOut in E. destruct (cdcDequeueReady _ _); [|by injection E as _ _ <-].
  apply rbind_Ok in E as (b & _ & E). destruct b; [|by injection E as _ _ <-]. destruct (dequeue _ _) as [[s|] cdc]; [|by injection E as _ _ <-].
  apply rbind_Ok in E as ([msg i1] & _ & E). by apply rbind_Ok in E as (q1 & _ & [= _ _ <-]).
Qed.

Lemma noc_moves i q u took fls sent ds now edge random i' q' u' : cdc_holds no_info ds (if_cdc i) -> Forall axis_beat_ok ds ->
  ordered q sent took -> beats_ok (msgs_in q) -> nmu_reach tdm vcm router id u (bytes_in took) fls ->
  inQueueBytes u = byte_count (msgs_in q) -> aw_bufferSize (nm_writeBuffer u) + inQueueBytes u <= 512 ->
  nocSideOut c now edge random i q u = Ok (i', q', u') ->
  exists ms, msgs_in q' = msgs_in q ++ ms /\ ordered q' (sent ++ ms) took /\ nmu_reach tdm vcm router id u' (bytes_in took) fls /\
    inQueueBytes u' = byte_count (msgs_in q') /\ aw_bufferSize (nm_writeBuffer u') + inQueueBytes u' <= 512.
Proof using Hstrict.
  intros Hc Hok Ho Hq Hn Hcnt Hroom E.
  destruct (nocSideOut_spec c _ _ _ _ _ _ _ _ _ _ Hc E) as (_ & _ & _ & [[= -> -> ->]|(d & rest & msg & -> & Hd & _ & _ & Hrdy & Eb & ->)]).
  { exists []. by rewrite !app_nil_r. }
  apply Forall_cons in Hok as [[Hwf _] _]. pose proof (ordered_enqueue _ Hstrict _ _ _ _ _ _ _ _ _ Ho Eb) as Ho'.
  assert (msgs_in q' = msgs_in q ++ [msg]) as Hm.
  { pose proof (or_fifo _ _ _ Ho') as H. rewrite (or_fifo _ _ _ Ho), <- app_assoc in H. by apply app_inv_head in H. }
  assert (0 <= aw_bufferSize (nm_writeBuffer u)) as H0 by by eapply buffer_pos.
  pose proof (byte_count_pos _ Hq) as Hpos. pose proof (s_getAxiWReady_room _ _ _ _ _ _ _ _ Hn Hwf ltac:(lia) Hrdy) as Hfit.
  rewrite beat_bytes_kept, <- axis_getTotalByteSize_kept by apply Hwf. exists [msg]. split_and!; [done|done| | |cbn; lia].
  - pose proof (reach_env _ _ _ _ _ _ _ 0 (inQueueBytes u + axis_getTotalByteSize d) Hn) as H. by rewrite other_none in H.
  - rewrite Hm, byte_count_app. unfold byte_count at 2. cbn. rewrite Hd. lia.
Qed.

(** *** The unit takes a message *)
Lemma unit_takes q u took fls sent now msg delay q' oPort u' : ordered q sent took -> beats_ok (msgs_in q) ->
  nmu_reach tdm vcm router id u (bytes_in took) fls -> inQueueBytes u = byte_count (msgs_in q) ->
  aw_bufferSize (nm_writeBuffer u) + inQueueBytes u <= 512 -> mb_dequeue (ac_mb c) q now = Ok (msg, delay, q') ->
  flitisizeMessage tdm vcm router id u (bm_beat msg) oPort (bm_debugId msg) = Ok u' ->
  ordered q' sent (took ++ [msg]) /\ nmu_reach tdm vcm router id u' (bytes_in (took ++ [msg])) fls /\
  inQueueBytes u' = byte_count (msgs_in q') /\ aw_bufferSize (nm_writeBuffer u') + inQueueBytes u' <= 512.
Proof.
  intros Ho Hq Hn Hcnt Hroom Ed Ef. pose proof (ordered_dequeue _ _ _ _ _ _ _ _ Ho Ed) as Ho'.
  assert (msgs_in q = msg :: msgs_in q') as Hm.
  { pose proof (or_fifo _ _ _ Ho') as H. rewrite (or_fifo _ _ _ Ho), <- app_assoc in H. by apply app_inv_head in H. }
  rewrite Hm in Hq, Hcnt. apply Forall_cons in Hq as [Hd Hq]. pose proof (byte_count_pos _ Hq) as Hpos. unfold byte_count in Hcnt. cbn in Hcnt.
  fold (byte_count (msgs_in q')) in Hcnt. destruct (nmu_reach_inv _ _ _ _ _ _ _ Hn) as (pks & cur & Hi).
  pose proof (axis_getTotalByteSize_range (bm_beat msg) (proj1 (proj1 Hd))) as Hs.
  destruct (beat_grows tdm vcm router id u (bm_beat msg) oPort (bm_debugId msg) u') as (Hbr & Hiq & Hsz); [by apply (ni_wb _ _ _ _ _ _ _ _ Hi)|done|lia|done|].
  split_and!; [done| |lia|lia]. unfold bytes_in. rewrite !fmap_app, concat_app. cbn. rewrite app_nil_r.
  eapply reach_beat; [exact Hn|exact Hd|exact Hbr|lia|exact Ef].
Qed.

(** *** The invariant *)

Lemma handed_ok l d (t : bool) : Forall axis_beat_ok (handed l) -> (tvalid d = true -> axis_beat_ok d) -> Forall axis_beat_ok (handed (l ++ [(d, t)])).
Proof.
  intros Hl Hd. rewrite handed_snoc. cbn [fst snd]. apply Forall_app. split; [done|]. destruct t; [|constructor].
  unfold offered. destruct (tvalid d); [|constructor]. apply Forall_singleton. by apply Hd.
Qed.

(** The beats that wait in the crossing queue of [i], reached by [l]. *)
Lemma queue_beats_ok s cdc l sent ds : mif_inv s cdc (handed l) sent ds -> Forall axis_beat_ok (handed l) -> Forall axis_beat_ok ds.
Proof. intros [_ _ ->]. by intros [_ H]%Forall_app. Qed.

Lemma tx_reach_inv i q u l took fls : tx_reach i q u l took fls -> exists sent, tx_inv i q u l took fls sent.
Proof using Hrole Hstrict.
  induction 1 as [pid|i q u l took fls now input m i' input' _ [sent H] Hin Hm E|i q u l took fls now edge random i' q' u' _ [sent H] E
    |i q u l took fls now input m i1 input' edge random i2 q' u' _ [sent H] Hin Hm E1 E2|i q u l took fls now msg delay q' oPort u' _ [sent H] Ed Ef
    |i q u l took fls core w new _ [sent H] Hs E|i q u l took fls vc _ [sent H]|i q u l took fls n _ [sent H]];
    [|pose proof (tx_queue_ok _ _ _ _ _ _ _ H) as Hq; destruct H as [H1 H2 H3 H4 H5 H6]..].
  - exists []. split; [constructor|constructor|apply ordered_init|constructor|done|done].
  - exists sent. split; try done; [by eapply mif_node|by apply handed_ok].
  - destruct (mif_reach_inv c Hrole _ _ _ H1) as (_ & _ & ds & Hds). pose proof (queue_beats_ok _ _ _ _ _ Hds H2) as Hdok.
    destruct (noc_moves i q u took fls sent ds now edge random i' q' u') as (ms & M1 & M2 & M3 & M4 & M5); [apply Hds|done..|].
    exists (sent ++ ms). split; try done. eapply mif_noc; [exact H1|exact E|by rewrite M1].
  - destruct (mif_reach_inv c Hrole _ _ _ H1) as (_ & Hc & ds & Hds).
    destruct (node_out i (handed l) sent ds now input m i1 input' (pending l)) as (ds1 & Hds1 & _); [done..|].
    rewrite <- handed_snoc in Hds1. pose proof (handed_ok l _ (ready_of (currentState i)) H2 Hm) as Hok.
    pose proof (queue_beats_ok _ _ _ _ _ Hds1 Hok) as Hdok.
    destruct (noc_moves i1 q u took fls sent ds1 now edge random i2 q' u') as (ms & M1 & M2 & M3 & M4 & M5); [apply Hds1|done..|].
    exists (sent ++ ms). split; try done. eapply mif_both; [exact H1|exact Hin|exact E1|exact E2|by rewrite M1].
  - destruct (unit_takes q u took fls sent now msg delay q' oPort u') as (U1 & U2 & U3 & U4); [done..|]. exists sent. by split.
  - exists sent. split; try done; [by eapply reach_deq|]. destruct (nmu_reach_inv _ _ _ _ _ _ _ H4) as (pks & cur & [Hi _ _ _ _ _ _ _]).
    apply deq_shrinks in E; [|done]. cbn. lia.
  - exists sent. split; try done. by apply reach_link.
  - exists sent. split; try done. by apply reach_env.
Qed.

(** *** Results *)

(** C3: the AXI-Stream transmit path loses nothing and never overruns.  In every run, with an
    endpoint that offers well-formed beats: the beats handed over are those the unit took,
    those of the messages in its buffer and those in the crossing queue, in order; the flits
    injected are those of a run of the unit that accepted the bytes taken; the unit's count
    of bytes on their way is exact; and with them its write buffer holds at most its 512
    bytes, so no beat it is given is beyond its capacity. *)
Theorem axis_transmit_path i q u l took fls : tx_reach i q u l took fls ->
  (exists ds, handed l = (bm_beat <$> took) ++ (bm_beat <$> msgs_in q) ++ ds /\ (length ds <= 8)%nat) /\
  nmu_reach tdm vcm router id u (bytes_in took) fls /\
  inQueueBytes u = nz (length (bytes_in (msgs_in q))) /\
  aw_bufferSize (nm_writeBuffer u) + inQueueBytes u <= 512.
Proof using Hrole Hstrict.
  intros Hr. destruct (tx_reach_inv _ _ _ _ _ _ Hr) as [sent Hi]. pose proof (tx_queue_ok _ _ _ _ _ _ _ Hi) as Hq. destruct Hi as [H1 H2 H3 H4 H5 H6].
  destruct (mif_reach_inv c Hrole _ _ _ H1) as (_ & _ & ds & [_ [_ Hl _] Hf]). split_and!; [|done| |done].
  - exists ds. split; [|done]. by rewrite Hf, (or_fifo _ _ _ H3), fmap_app, <- app_assoc.
  - rewrite H5. clear -Hq. unfold bytes_in, byte_count. induction Hq as [|m ms Hm _ IH]; [done|].
    cbn. rewrite IH, length_app, axis_getTotalByteSize_kept by apply Hm. lia.
Qed.
End Transmit.
