(* ===== verification/AxisNetwork.v ===== *)
(** * Paths through the network

    Network interfaces, links and routers one after the other.  Each stage keeps the order of
    the flits of a flow, the flits from one interface to another, and each router adds a hop. *)

From stdpp Require Import functions.
From S2P Require Import Prelude AxiTypes AxisWriteBuffer NppReceive Flit SNmu MsgBuffer Router Stream.
From S2P Require Import RouterSafety RouterReach MmNmu NetIface NetIfaceRun SNsu SNsuRun SNsuPackets AxisReceive AxisEndToEnd.

(** The flits from interface [id] to interface [d], by the source an endpoint sees. *)
Section Flow.
Context (id d : Z).
Definition in_flow (rt : NocRouteInfo) : Prop := src_of rt = id /\ rt_dest_ni rt = d.
#[local] Instance in_flow_dec rt : Decision (in_flow rt) := _.
Definition flow (l : list (flit NocStreamMsg)) : list (flit NocStreamMsg) := filter (fun f => in_flow (fl_route f)) l.

Lemma flow_app l1 l2 : flow (l1 ++ l2) = flow l1 ++ flow l2.
Proof. apply filter_app. Qed.
Lemma flow_prefix l1 l2 : l1 `prefix_of` l2 -> flow l1 `prefix_of` flow l2.
Proof. intros [r ->]. rewrite flow_app. by eexists. Qed.
Lemma flow_hop l : flow (increment_hops <$> l) = increment_hops <$> flow l.
Proof.
  unfold flow. induction l as [|f l IH]; [done|]. rewrite fmap_cons, !filter_cons, IH.
  change (in_flow (fl_route (increment_hops f))) with (in_flow (fl_route f)). by case_decide; case_decide.
Qed.

(** ** Through a router *)

Record router_ok (rc : rcfg) : Prop := {
  ro_pipe : 1 <= c_pipe rc;
  ro_clk : 0 < c_clk rc;
  ro_max k : 0 <= c_max rc k
}.

(** The flow enters router [rc] on the input VC [r] only and is routed to output [o]. *)
Definition routed_by (rc : rcfg) (raw : req -> list (flit NocStreamMsg)) (r : req) (o : nat) : Prop :=
  (forall r', r' <> r -> flow (raw r') = []) /\ Forall (fun f => dest rc f r.2 o) (flow (raw r)).

Lemma router_flow rc s raw given now r o : router_ok rc -> reach rc s raw given now -> routed_by rc raw r o ->
  flow (RouterReach.sent s (o, r.2)) `prefix_of` (increment_hops <$> flow (raw r)).
Proof.
  intros [Hp Hc Hm] Hr [Hother Hroute]. apply (reach_inv rc Hp Hc Hm) in Hr as [Hs _]. rewrite (sent_outs rc _ _ _ _ Hs).
  destruct Hs as [(arr & [Hf _] & Ha) _ _ _ _ _ _].
  assert (Hin : forall o' r' f, (o', r', f) ∈ r_trace s -> exists g, g ∈ raw r' /\ f = increment_hops g).
  { intros o' r' f Hg. assert (f ∈ increment_hops <$> raw r') as Hx.
    { rewrite Ha, <- (fi_flow _ _ _ Hf r'). apply elem_of_app. left. apply elem_of_app. left. unfold from.
      apply list_elem_of_fmap. exists (o', r', f). split; [done|]. by apply list_elem_of_filter. }
    apply list_elem_of_fmap in Hx as (g & -> & Hg'). by exists g. }
  assert (flow (outs (o, r.2) (r_trace s)) = flow (from r (r_trace s))) as ->.
  { pose proof (fi_trace _ _ _ Hf) as Hd. clear -Hin Hd Hother Hroute. unfold outs, from, flow in *. revert Hin Hd.
    generalize (r_trace s) as tr. induction tr as [|[[o' r'] f] tr IH]; intros Hin Hd; [done|].
    assert (in_flow (fl_route f) -> (o', r'.2) = (o, r.2) <-> r' = r) as Hiff.
    { intros Hfl. destruct (Hin o' r' f ltac:(by left)) as (g & Hg & ->).
      assert (r' = r) as ->.
      { destruct (decide (r' = r)) as [|Hne]; [done|]. exfalso. apply (not_elem_of_nil g). rewrite <- (Hother r' Hne).
        apply list_elem_of_filter. split; [exact Hfl|done]. }
      rewrite Forall_forall in Hroute. specialize (Hroute g). rewrite list_elem_of_filter in Hroute.
      split; [done|]. intros _. f_equal. eapply dest_fun; [apply Hd; by left|]. apply dest_hop. by apply Hroute. }
    specialize (IH (fun o r f H => Hin o r f (list_elem_of_further _ _ _ H)) (fun o r f H => Hd o r f (list_elem_of_further _ _ _ H))).
    rewrite !filter_cons. cbn [fst snd]. destruct (decide (in_flow (fl_route f))) as [Hfl|Hfl].
    - case_decide as E1; case_decide as E2; [|by apply Hiff in E1|by apply Hiff in E2|exact IH].
      rewrite !fmap_cons, !filter_cons. cbn [snd]. rewrite decide_True, decide_True by done. by rewrite IH.
    - case_decide; case_decide; rewrite ?fmap_cons, ?filter_cons; cbn [snd]; rewrite ?decide_False by done; exact IH. }
  rewrite <- flow_hop. apply flow_prefix. rewrite Ha, <- (fi_flow _ _ _ Hf r), <- app_assoc. by eexists.
Qed.

(** ** A path *)

(** [path n l out]: [l] is what the sender injects, and [out] is what comes out after [n]
    routers.  On a wire some flits of the flow may still be under way. *)
Inductive path : nat -> list (flit NocStreamMsg) -> list (flit NocStreamMsg) -> Prop :=
| path_start l : path 0 l l
| path_wire n l out arr : path n l out -> flow arr `prefix_of` flow out -> path n l arr
| path_interface n l {U} {unit : NocUnit NocStreamMsg U} (c : nicfg) (s : netif NocStreamMsg U) put ret v :
    UnitInjects c -> (forall v, 0 <= nc_max c v) -> ni_reach c s put ret ->
    path n l (inj_on v (ni_out s)) -> path n l (NetIfaceRun.sent_on v (ni_out s))
| path_router n l rc s raw given now r o :
    path n l (raw r) -> router_ok rc -> reach rc s raw given now -> routed_by rc raw r o ->
    path (S n) l (RouterReach.sent s (o, r.2)).

Lemma path_order n l out : path n l out -> flow out `prefix_of` (hop n <$> flow l).
Proof.
  induction 1 as [l|n l out arr _ IH Hp|n l U unit c s put ret v Hu Hmax Hr _ IH|n l rc s raw given now r o _ IH Hrc Hr Hby].
  - by rewrite list_fmap_id.
  - by etrans.
  - etrans; [|exact IH]. apply flow_prefix. destruct (ni_reach_inv c _ _ _ Hmax Hr) as [[H _ _ _ _] _ _].
    rewrite (H v). by eexists.
  - etrans; [by eapply router_flow|]. destruct IH as [x E]. apply (f_equal (fmap increment_hops)) in E.
    rewrite fmap_app, <- list_fmap_compose in E. exists (increment_hops <$> x). exact E.
Qed.
End Flow.
