(* ===== verification/AxisNode.v ===== *)
(** * A stream from endpoint to endpoint

    The whole way of a stream: the sending endpoint's cycles, the master interface, the master
    unit, a path of network interfaces, links and routers, the receiving network interface
    with its slave unit, and the slave interface that drives the receiving endpoint. *)

From stdpp Require Import functions.
From S2P Require Import Prelude AxiTypes AxisWriteBuffer AxisDepack NppReceive Flit SNmu MsgBuffer Router Stream.
From S2P Require Import RouterSafety RouterReach MmNmu NetIface NetIfaceRun SNsu SNsuRun SNsuPackets AxisReceive AxisEndToEnd.
From S2P Require Import CdcQueue AxisHandler AxisContract AxisSlaveIf AxisMasterIf AxisTransmit AxisNetwork.

(** ** The slave unit makes valid beats *)

Lemma depackBeat_valid p W agg lst start v : tvalid (depackBeat p W agg lst start v) = true.
Proof. unfold depackBeat, applySidebandForByteRange. by destruct (findSourceBeatForByteRange p start v). Qed.

Lemma narrow_valid p W before v data ls tl fb l agg r : Forall (fun d => tvalid d = true) (df_payloads r) ->
  Forall (fun d => tvalid d = true) (df_payloads (foldl (narrowSubBeat p W before v data ls tl fb) (agg, r) l).2).
Proof.
  revert agg r. induction l as [|i l IH]; intros agg r Hr; [done|]. cbn [foldl]. unfold narrowSubBeat at 2.
  destruct (_ <=? 0); [by apply IH|]. apply IH. cbn. apply Forall_app. split; [done|]. apply Forall_singleton, depackBeat_valid.
Qed.

Lemma depack_valid p W agg n k lst data fb agg' r : depacketizeAxisPayloadFlit p W agg n k lst data fb = Ok (agg', r) ->
  Forall (fun d => tvalid d = true) (df_payloads r).
Proof.
  intros E. unfold depacketizeAxisPayloadFlit in E. apply guard_Ok in E as [_ E], E as [_ E].
  destruct (_ <? 16); [injection E as E; apply (f_equal snd) in E; cbn in E; rewrite <- E; by apply narrow_valid|].
  destruct (_ =? 16); [injection E as _ <-; apply Forall_singleton, depackBeat_valid|]. apply guard_Ok in E as [_ E].
  destruct (_ || _); injection E as _ <-; [apply Forall_singleton, depackBeat_valid|constructor].
Qed.

Lemma sn_reach_valid c ok s tr outs now : sn_reach c ok s tr outs now -> Forall (fun m => tvalid (bm_beat m) = true) (su_in s).
Proof.
  induction 1 as [s E|s tr outs t now fl okf s' _ IH _ _ E|s tr outs t now woken s' _ IH _ _ E|s tr outs t now m d b _ IH _ E].
  - unfold snsu_new in E. apply guard_Ok in E as [_ E], E as [_ E], E as [_ E]. injection E as <-. constructor.
  - apply flit_step in E as (agg & r & ms & s1 & E1 & E2 & E3 & ->). apply store_keeps in E3 as [_ Ei]. cbn in Ei.
    apply depack_valid in E1. apply create_beats in E2 as [Em _].
    assert (Forall (fun m => tvalid (bm_beat m) = true) ms) as Hms by (rewrite <- Em in E1; by rewrite Forall_fmap in E1).
    destruct okf; [|by rewrite Ei]. destruct (_ =? _); cbn; rewrite Ei; by apply Forall_app.
  - apply drainFrame_cases in E as [(_ & _ & ->)|(f & rest & m & l & _ & _ & [(_ & _ & ->)|(b & d & _ & -> & _)])]; done.
  - done.
Qed.

(** ** The destination of a stream *)

Section Dest.
Context (P : axisData -> Prop).
Hypothesis Hkeep : forall k b, P b -> P (set_tkeep k b).
Hypothesis Hlast : forall t b, P b -> P (set_tlast t b).

Lemma popLoop_from l ret out n t size : Forall (fun e => P (aw_nppData e)) l -> Forall P (ap_beats ret) ->
  let r := popLoop l ret out n t size in Forall (fun e => P (aw_nppData e)) r.1.1.1 /\ Forall P (ap_beats r.1.1.2).
Proof using Hkeep Hlast.
  intros Hl. revert ret out n size. induction Hl as [|e l He Hl IH]; intros ret out n size Hr; cbn [popLoop]; [by split|].
  destruct (_ <? _); [|by split; [constructor|]]. destruct (_ <=? _).
  - apply IH. cbn. apply Forall_app. by split; [|constructor].
  - destruct (split_tkeep _ _) as [lo hi]. cbn. split; [constructor; [by apply Hkeep|done]|].
    apply Forall_app. split; [done|]. apply Forall_singleton. by apply Hlast, Hkeep.
Qed.

Lemma popNextPacket_from w p out w' : Forall (fun e => P (aw_nppData e)) (aw_writeBuffer w) -> popNextPacket w = (p, out, w') ->
  Forall P (ap_beats p) /\ Forall (fun e => P (aw_nppData e)) (aw_writeBuffer w').
Proof using Hkeep Hlast.
  intros Hw E. unfold popNextPacket in E.
  pose proof (popLoop_from _ axisPayload_empty None 0 (nextDequeuePos w) (aw_bufferSize w) Hw (List.Forall_nil _)) as H.
  destruct (popLoop _ _ _ _ _ _) as [[[l ret] o] size]. destruct H as [H1 H2]. cbn in H1, H2.
  destruct (tlastPositions w) as [|t ts]; [|destruct (_ =? _)]; injection E as <- <- <-; done.
Qed.
End Dest.

(** ** The flow of a sender *)

Section Node.
Context (id d : Z) (tdm : gmap Z (gmap Z Z)) (vcm : gmap (Z * Z * Z) Z) (router : Z -> Z -> Z).
Hypothesis Hid : 0 <= id < 2 ^ 31.

(** A beat whose TDEST goes to [d], and a unit that has had no others. *)
Definition goes_to (b : axisData) : Prop := axisDest tdm id (tdest b) = d.
Definition buf_to (w : axisWriteBuffer) : Prop := Forall (fun e => goes_to (aw_nppData e)) (aw_writeBuffer w).
Definition cur_to (c : sNmuCore) : Prop := np_valid (currNPPInfo c) = true -> rt_src_ni (np_route (currNPPInfo c)) = id /\ rt_dest_ni (np_route (currNPPInfo c)) = d.
Definition flits_to (fls : list (flit NocStreamMsg)) : Prop := Forall (fun f => rt_src_ni (fl_route f) = id /\ rt_dest_ni (fl_route f) = d) fls.

Lemma ready_to c w b c' w' : buf_to w -> cur_to c ->
  checkDequeueReady (Some (bufferHeadReadyHandler tdm vcm router id)) c w = Ok (b, (c', w')) -> buf_to w' /\ cur_to c'.
Proof.
  intros Hw Hc E. unfold checkDequeueReady in E. destruct (nextDequeuePos w =? -1); cbn [negb] in E; [by injection E as _ <- <-|].
  apply rbind_Ok in E as ([c1 w1] & E & [= _ -> ->]). unfold bufferHeadReadyHandler in E.
  destruct (np_valid (currNPPInfo c)); [by injection E as <- <-|]. destruct (popNextPacket w) as [[p out] w2] eqn:Ep.
  destruct (popNextPacket_from goes_to ltac:(done) ltac:(done) _ _ _ _ Hw Ep) as [Hp Hw2].
  destruct (match out with Some _ => _ | None => _ end) as [oPort dbg]. apply guard_Ok in E as [_ E].
  apply rbind_Ok in E as ([pid nx] & _ & E). apply rbind_Ok in E as (b0 & Hb0 & E). apply rbind_Ok in E as (vc & _ & E). apply rbind_Ok in E as (c2 & Es & [= <- <-]).
  split; [done|]. unfold scheduleDeq in Es. apply guard_Ok in Es as [_ [= <-]]. intros _. cbn. split; [done|].
  destruct (ap_beats p) as [|x xs]; [done|]. injection Hb0 as <-. by apply Forall_cons in Hp as [Hp _].
Qed.

Lemma schedule_to c c' : scheduleDeq c = Ok c' -> cur_to c -> cur_to c'.
Proof. unfold scheduleDeq. by intros [_ [= <-]]%guard_Ok. Qed.

Lemma deq_to c w c' w' new : buf_to w -> cur_to c -> deqScheduled c = np_valid (currNPPInfo c) -> deqScheduled c = true ->
  dequeueIntermediate tdm vcm router id c w = Ok (c', w', new) -> buf_to w' /\ cur_to c' /\ flits_to new.
Proof.
  intros Hw Hc Hv Hs E. rewrite Hv in Hs. specialize (Hc Hs) as Hr. unfold dequeueIntermediate in E.
  destruct (_ <=? _); [injection E as <- <- <-; by split_and!; [| |constructor]|].
  destruct (outVc_isFull _ _); [apply rbind_Ok in E as (x & Ex & [= <- <- <-]); split_and!; [done|by eapply schedule_to|constructor]|].
  apply rbind_Ok in E as (m & _ & E). destruct (injectFlit _ _ _).
  - destruct (_ =? _).
    + apply rbind_Ok in E as ([b [c1 w1]] & E & [= <- <- <-]). apply ready_to in E as [H1 H2]; [|done|done].
      split_and!; [done|done|by apply Forall_singleton].
    + apply rbind_Ok in E as (x & Ex & [= <- <- <-]). split_and!; [done|by eapply schedule_to|by apply Forall_singleton].
  - apply rbind_Ok in E as (x & Ex & [= <- <- <-]). split_and!; [done|by eapply schedule_to|constructor].
Qed.

Lemma beat_to s b oPort dbg s' : buf_to (nm_writeBuffer s) -> cur_to (nm_core s) -> goes_to b ->
  flitisizeMessage tdm vcm router id s b oPort dbg = Ok s' -> buf_to (nm_writeBuffer s') /\ cur_to (nm_core s').
Proof.
  intros Hw Hc Hb E. unfold flitisizeMessage, aw_add in E. apply rbind_Ok in E as ([c w] & E & [= <-]).
  apply rbind_Ok in E as (w1 & E1 & E). apply rbind_Ok in E as ([x [c1 w2]] & E & [= -> ->]).
  eapply ready_to; [|exact Hc|exact E]. unfold aw_push in E1. apply guard_Ok in E1 as [_ [= <-]]. unfold buf_to. cbn.
  apply Forall_app. by split; [|constructor].
Qed.

(** A unit whose endpoint has handed over beats for [d] only. *)
Lemma tx_reach_to ci i q u l took fls : ac_role ci = Master -> mc_strict_fifo (ac_mb ci) = true ->
  tx_reach ci tdm vcm router id i q u l took fls -> Forall goes_to (handed l) ->
  buf_to (nm_writeBuffer u) /\ cur_to (nm_core u) /\ flits_to fls.
Proof.
  intros Hm Hs. induction 1 as [pid|i q u l took fls now input m i' input' Hr IH Hin Hb E|i q u l took fls now edge random i' q' u' Hr IH E
    |i q u l took fls now input m i1 input' edge random i2 q' u' Hr IH Hin Hb E1 E2|i q u l took fls now msg delay q' oPort u' Hr IH Ed Ef
    |i q u l took fls core w new Hr IH Hd E|i q u l took fls vc Hr IH|i q u l took fls n Hr IH]; intros Hh.
  - by split_and!; [constructor| |constructor].
  - apply IH. rewrite handed_snoc in Hh. by apply Forall_app in Hh as [Hh _].
  - destruct (IH Hh) as (H1 & H2 & H3). by destruct (nocSideOut_unit _ _ _ _ _ _ _ _ _ _ E) as [-> ->].
  - rewrite handed_snoc in Hh. apply Forall_app in Hh as [Hh _]. destruct (IH Hh) as (H1 & H2 & H3).
    by destruct (nocSideOut_unit _ _ _ _ _ _ _ _ _ _ E2) as [-> ->].
  - destruct (IH Hh) as (H1 & H2 & H3). destruct (tx_reach_inv ci tdm vcm router id Hm Hs _ _ _ _ _ _ Hr) as [sent Hi].
    assert (goes_to (bm_beat msg)) as Hg.
    { pose proof (ti_order _ _ _ _ _ _ _ _ _ _ _ _ Hi) as Ho. apply (ordered_dequeue _ _ _ _ _ _ _ _ Ho), or_fifo in Ed.
      destruct (mif_reach_inv ci Hm _ _ _ (ti_if _ _ _ _ _ _ _ _ _ _ _ _ Hi)) as (_ & _ & ds & [_ _ Hf]).
      rewrite Hf, Ed, !fmap_app in Hh. apply Forall_app in Hh as [Hh _]. apply Forall_app in Hh as [Hh _].
      apply Forall_app in Hh as [_ Hh]. by apply Forall_cons in Hh as [Hh _]. }
    destruct (beat_to _ _ _ _ _ H1 H2 Hg Ef) as [H4 H5]. done.
  - destruct (IH Hh) as (H1 & H2 & H3). destruct (tx_reach_inv ci tdm vcm router id Hm Hs _ _ _ _ _ _ Hr) as [sent Hi].
    destruct (nmu_reach_inv _ _ _ _ _ _ _ (ti_nmu _ _ _ _ _ _ _ _ _ _ _ _ Hi)) as (ps & cur & Hn).
    destruct (deq_to _ _ _ _ _ H1 H2 (ni_sched _ _ _ _ _ _ _ _ Hn) Hd E) as (H4 & H5 & H6). split_and!; [done..|]. apply Forall_app. done.
  - exact (IH Hh).
  - exact (IH Hh).
Qed.

Lemma src_of_id rt : rt_src_ni rt = id -> src_of rt = id.
Proof using Hid.
  intros E. unfold src_of, s32, u32. rewrite E. clear -Hid. rewrite (Z.mod_small id), (Z.mod_small (id + 2 ^ 31)) by lia. lia.
Qed.

Lemma sender_flow fls : flits_to fls ->
  Forall (fun f => in_flow id d (fl_route f)) fls /\ filter (fun f => rt_dest_ni (fl_route f) = d) fls = fls.
Proof using Hid.
  intros H. split; [eapply Forall_impl; [exact H|]; intros f [H1 H2]; split; [by apply src_of_id|done]|].
  induction H as [|f l [_ Hf] _ IH]; [done|]. by rewrite filter_cons_True, IH.
Qed.

Lemma flow_all l : Forall (fun f => in_flow id d (fl_route f)) l -> flow id d l = l.
Proof. unfold flow. induction 1 as [|f l Hf _ IH]; [done|]. by rewrite filter_cons_True, IH. Qed.

(** ** The receiver *)

Section Receiver.
Context (sc : snsuCfg) (c : nicfg) (pks : list SNmu.sent) (chan : nat * nat -> list SNmu.sent) (k0 : nat * nat).
Hypothesis Hmax : forall v, 0 <= nc_max c v.
Hypothesis HW : good_width (sc_width sc).
Hypothesis Hframes : is_u32 (axisCompleteFrames sc).
(** Hardware mode, and an ordered buffer. *)
Hypothesis Hhw : axisReassembleFrames sc = false.
Hypothesis Hfifo : mc_strict_fifo (sc_mb sc) = true.
Hypothesis Hch : channels pks chan.
(** What comes from [id] comes for [d], on channel [k0]. *)
Hypothesis Hk0 : forall k x, x ∈ chan k -> src_of (st_route x) = id -> k = k0 /\ rt_dest_ni (st_route x) = d.

Lemma outs_valid s put ret outs now : rx_reach sc c s put ret outs now -> carried chan put ->
  Forall (fun m => tvalid (bm_beat m) = true) outs.
Proof using Hmax HW Hframes Hhw Hfifo Hch.
  intros Hr Hput. destruct (rx_reach_unit sc c pks chan Hch _ _ _ _ _ Hmax Hr Hput) as [(t & _ & Hs) _].
  destruct (beats_delivered sc pks _ _ _ _ HW Hframes (ch_ids _ _ Hch) (ch_sent _ _ Hch) Hs) as (ms & _ & _ & _ & H4 & H5).
  pose proof (sn_reach_valid _ _ _ _ _ _ Hs) as Hv. rewrite <- H4, H5 in Hv by done. by apply Forall_app in Hv as [Hv _].
Qed.

(** What arrives of the flow is all that arrives from [id]. *)
Lemma arrivals_flow put : carried chan put ->
  flow id d (on_vc k0.2 (on_port k0.1 put)) = from_src id (on_vc k0.2 (on_port k0.1 put)).
Proof using Hk0.
  intros Hput. specialize (Hput k0.1 k0.2). set (l := on_vc k0.2 (on_port k0.1 put)) in *.
  assert (forall f, f ∈ l -> src_of (fl_route f) = id -> rt_dest_ni (fl_route f) = d) as Hl.
  { intros f Hf Hs. destruct (in_channel chan f (k0.1, k0.2) l Hput Hf) as (x & Hx & Hfx). apply flit_of in Hfx.
    destruct (Hk0 _ x Hx) as [_ Hd]; [by rewrite Hfx|]. by rewrite Hfx in Hd. }
  clearbody l. unfold flow, from_src. clear -Hl. induction l as [|f l IH]; [done|].
  rewrite !filter_cons, IH by (intros; apply Hl; [by right|done]). case_decide as E1; case_decide as E2; [done| | |done].
  - by destruct E1.
  - exfalso. apply E1. split; [done|]. apply Hl; [by left|done].
Qed.

(** What the sender's unit accepted against what the endpoint's side has got. *)
Lemma unit_to_endpoint u bytes fls s put ret outs now n : nmu_reach tdm vcm router id u bytes fls -> cur_to (nm_core u) -> flits_to fls ->
  rx_reach sc c s put ret outs now -> carried chan put -> path id d n fls (on_vc k0.2 (on_port k0.1 put)) ->
  let got := bytes_in (beats_from id (outs ++ (me_msg <$> m_prio_heap (su_W (ni_unit s))))) in
  got `prefix_of` bytes /\
  (np_valid (currNPPInfo (nm_core u)) = false -> aw_bufferSize (nm_writeBuffer u) = 0 ->
   from_src id (dl_flit <$> ni_dlv s) = hop n <$> fls -> got = bytes).
Proof using All.
  intros Hn Hcur Hfls Hr Hput Hp got. destruct (sender_flow fls Hfls) as [Hall Hfd]. apply path_order in Hp.
  rewrite (arrivals_flow put Hput), (flow_all fls Hall), <- Hfd in Hp.
  destruct (stream_end_to_end sc c pks chan Hch tdm vcm router id u bytes fls s put ret outs now k0 n d) as (ks & Hks & Hb & Hpre & Heq);
    [done..|by intros k x Hx Hs; apply (Hk0 k x Hx Hs)|done|].
  assert (filter (fun k => rt_dest_ni (st_route k) = d) ks = ks) as Hf.
  { clear -Hks Hcur Hfls. induction Hks as [|k ks Hk _ IH]; [done|]. rewrite filter_cons_True, IH; [done|].
    destruct Hk as [(f & Hf & <-)|[Hv <-]]; [|by apply Hcur]. unfold flits_to in Hfls. rewrite Forall_forall in Hfls. by apply Hfls. }
  rewrite Hf, Hfd in *. split; [rewrite Hb; by apply prefix_app_r|]. intros Hv H0 Hd. unfold got, bytes_in. rewrite (Heq Hv Hd), Hb.
  destruct (nmu_reach_inv _ _ _ _ _ _ _ Hn) as (ps & cur & [Hi _ _ _ _ _ _ _]). rewrite (awi_size _ Hi) in H0.
  by rewrite (nil_length_inv (aw_stream (aw_writeBuffer (nm_writeBuffer u)))), app_nil_r by lia.
Qed.

Lemma beats_from_prefix l1 l2 : l1 `prefix_of` l2 -> bytes_in (beats_from id l1) `prefix_of` bytes_in (beats_from id l2).
Proof.
  intros [r ->]. unfold beats_from, bytes_in. rewrite filter_app, !fmap_app, concat_app. by eexists.
Qed.

(** C1: a stream arrives.  A sending endpoint hands well-formed beats, whose TDEST goes to
    interface [d], to the master interface of unit [id]; a path of network interfaces, links
    and routers leads there; at [d] a slave unit in hardware mode and a slave interface drive
    the receiving endpoint, which may hear other sources too.  Then the beats the receiving
    endpoint has taken are the first the unit made, and those from [id] carry, in order, the
    first bytes of the beats the sending endpoint has handed over: nothing is lost, repeated,
    reordered or altered on the way.  When nothing is under way any more, all the bytes have
    arrived. *)
Theorem axis_node_to_node ci i1 q1 u1 l took fls s put ret outs now n co i2 hs :
  ac_role ci = Master -> mc_strict_fifo (ac_mb ci) = true -> tx_reach ci tdm vcm router id i1 q1 u1 l took fls ->
  Forall goes_to (handed l) -> path id d n fls (on_vc k0.2 (on_port k0.1 put)) ->
  rx_reach sc c s put ret outs now -> carried chan put ->
  ac_role co = Slave -> sif_reach co i2 outs hs ->
  exists outs1, outs1 `prefix_of` outs /\ hs = bm_beat <$> outs1 /\
    bytes_in (beats_from id outs1) `prefix_of` concat (kept_bytes <$> handed l) /\
    (length (handed l) = length took -> np_valid (currNPPInfo (nm_core u1)) = false -> aw_bufferSize (nm_writeBuffer u1) = 0 ->
     from_src id (dl_flit <$> ni_dlv s) = hop n <$> fls -> m_prio_heap (su_W (ni_unit s)) = [] -> length hs = length outs ->
     bytes_in (beats_from id outs1) = concat (kept_bytes <$> handed l)).
Proof using All.
  intros Hmr Hms Htx Hto Hp Hr Hput Hsr Hsif. destruct (tx_reach_to ci _ _ _ _ _ _ Hmr Hms Htx Hto) as (_ & Hcur & Hfls).
  destruct (tx_reach_inv ci tdm vcm router id Hmr Hms _ _ _ _ _ _ Htx) as [sent Hti].
  destruct (mif_reach_inv ci Hmr _ _ _ (ti_if _ _ _ _ _ _ _ _ _ _ _ _ Hti)) as (_ & _ & ds & [_ _ Hfl]).
  rewrite (or_fifo _ _ _ (ti_order _ _ _ _ _ _ _ _ _ _ _ _ Hti)), fmap_app, <- app_assoc in Hfl.
  destruct (unit_to_endpoint _ _ _ s put ret outs now n (ti_nmu _ _ _ _ _ _ _ _ _ _ _ _ Hti) Hcur Hfls Hr Hput Hp) as [Hgot Hfull].
  destruct (sif_reach_inv co Hsr _ _ _ Hsif) as (_ & _ & es & [_ _ Hs]). specialize (Hs (outs_valid _ _ _ _ _ Hr Hput)).
  apply fmap_app_inv in Hs as (outs1 & outs2 & -> & _ & ->). exists outs1. split; [by eexists|]. split; [done|]. split.
  - etrans; [apply (beats_from_prefix _ ((outs1 ++ outs2) ++ (me_msg <$> m_prio_heap (su_W (ni_unit s))))); rewrite <- app_assoc; by eexists|].
    etrans; [exact Hgot|]. rewrite Hfl, fmap_app, concat_app. by eexists.
  - intros Hl Hv H0 Hall Hheap Hh. rewrite Hheap, length_fmap, length_app in *. assert (outs2 = []) as -> by (apply nil_length_inv; lia).
    rewrite Hfl, !length_app, !length_fmap in Hl. rewrite !app_nil_r in Hfull. rewrite (Hfull Hv H0 Hall), Hfl.
    destruct (me_msg <$> m_prio_heap q1) eqn:Eq; [|apply (f_equal length) in Eq; rewrite length_fmap in Eq; cbn in Eq; lia].
    destruct ds; [|cbn in Hl; lia]. by rewrite !app_nil_r.
Qed.
End Receiver.
End Node.
