(* ===== verification/NetIfaceExample.v ===== *)
(** * Examples for network interfaces

    Small interfaces whose runs discharge the hypotheses of the theorems about network
    interfaces and the receive path, and two runs that show what the scheduling does not
    promise. *)

From stdpp Require Import functions.
From S2P Require Import Prelude AxiTypes AxisWriteBuffer AxisDepack NppReceive Flit SNmu MsgBuffer Router.
From S2P Require Import Stream MmNmu NetIface NetIfaceRun NetIfaceLive SNsu SNsuRun SNsuPackets SNsuExample AxisReceive.

(** A unit that takes every flit and sends nothing. *)
#[local] Instance sink_unit : NocUnit bool unit := {|
  u_flitisizeMessage _ u o _ _ := Ok (false, u, o);
  u_depacketizeFlit _ u _ _ := Ok (true, u);
  u_is_axis m := m
|}.
(** One link in, one out, three channels. *)
Definition ex_nic : nicfg :=
  mk_nicfg 10 1 1 3 (fun _ => []) (fun _ => 0) (fun _ => 0) (fun _ => 2)
    (mk_depths [] [] None None 7 7 7 7 7 [(3, VNOC)]) [true; true; true; true; true] ex_mbCfg.
#[local] Instance sink_injects : UnitInjects (M := bool) (U := unit) ex_nic.
Proof. intros now u o m v ok u' o' [= _ _ <-]. constructor. Qed.

Definition ex_route : NocRouteInfo := mk_NocRouteInfo 4 1 0 5 0 0.
(** Flit [i] of [n] of packet [pid] in channel [vc], of a stream packet if [axis]. *)
Definition nf (pid vc vnet : Z) (n i : nat) (axis : bool) : flit bool := new_flit pid (nz i) vc vnet ex_route (nz n) axis.

(** A stream packet of two flits arrives and the interface wakes up. *)
Definition ex_ni0 : netif bool unit := ni_init ex_nic tt [].
Definition ex_ni1 : netif bool unit := put_link 0 (nf 1 0 4 2 1 true) 0 (put_link 0 (nf 1 0 4 2 0 true) 0 ex_ni0).
Definition ex_ni2 : netif bool unit := ok_or ex_ni0 (processCurrentEvent ex_nic 10 ex_ni1).
Definition ex_put : list (nat * flit bool) := [(0%nat, nf 1 0 4 2 0 true); (0%nat, nf 1 0 4 2 1 true)].

Lemma ex_ni1_reach : ni_reach ex_nic ex_ni1 ex_put [].
Proof.
  apply (nr_arrive ex_nic _ [(0%nat, nf 1 0 4 2 0 true)] []). apply (nr_arrive ex_nic _ [] []). constructor.
Qed.
Lemma ex_ni2_reach : ni_reach ex_nic ex_ni2 ex_put [].
Proof. apply (nr_wakeup ex_nic ex_ni1 _ _ 10); [apply ex_ni1_reach|]. apply (ok_or_eq ex_ni0). vm_compute. reflexivity. Qed.
Lemma ex_nic_max v : 0 <= nc_max ex_nic v.
Proof. cbn. lia. Qed.

Lemma ex_put_packets : packets_arrive ex_put.
Proof.
  assert (pstream [nf 1 0 4 2 0 true; nf 1 0 4 2 1 true]) as H.
  { refine (proj1 (pstream_concat [packet_flits 1 0 4 ex_route 2 true] _)). apply Forall_singleton.
    exists 1, 0, 4, ex_route, 2%nat, true. split; [lia|done]. }
  intros p v. unfold ex_put, on_port. rewrite !filter_cons. cbn [fst]. case_decide; [|constructor]. cbn [filter list_filter].
  unfold on_vc. cbn [fmap list_fmap snd]. rewrite !filter_cons. cbn [nf new_flit fl_vc]. case_decide; [exact H|constructor].
Qed.

Lemma ni_delivers_packets_witness :
  pstream (main_stream (ni_dlv ex_ni2)) /\ length (ni_dlv ex_ni2) = 1%nat /\ ii_lock (ni_rx ex_ni2) = Some (0%nat, 0%nat).
Proof.
  split; [|split; vm_compute; reflexivity].
  apply (ni_delivers_packets ex_nic ex_ni2 ex_put [] ex_nic_max ex_ni2_reach ex_put_packets).
Defined.

Lemma ni_stream_packet_there_witness :
  exists f rest, cur (main_stream (ni_dlv ex_ni2)) ++ ii_asm (ni_rx ex_ni2) (0%nat, 0%nat) = f :: rest /\
    (u_is_axis (fl_msg f) = true ->
     exists r, r <> [] /\ r `prefix_of` ii_asm (ni_rx ex_ni2) (0%nat, 0%nat) /\ is_packet (cur (main_stream (ni_dlv ex_ni2)) ++ r)).
Proof.
  apply (ni_stream_packet_there ex_nic ex_ni2 ex_put [] (0%nat, 0%nat) ex_nic_max ex_ni2_reach ex_put_packets).
  vm_compute. reflexivity.
Defined.

Lemma ni_wakes_for_work_witness : exists t, wakes_at ex_nic 10 ex_ni2 t.
Proof.
  apply (ni_wakes_for_work ex_nic 10 (set_wake (ni_wake ex_ni1 ∖ {[10]}) ex_ni1) ex_ni2).
  - vm_compute. reflexivity.
  - apply (ok_or_eq ex_ni0). vm_compute. reflexivity.
  - apply (hw_locked ex_nic 10 ex_ni2 (0%nat, 0%nat)). vm_compute. reflexivity.
Defined.

Definition ex_ni1_rx : netif bool unit := ok_or ex_ni0 (receivePort ex_nic 10 ex_ni1 0).
Lemma ni_link_never_blocked_witness : link_ready 10 (ii_link (ni_rx ex_ni1_rx) 0) = false.
Proof.
  apply (ni_link_never_blocked ex_nic ex_ni1 ex_put [] 10 0 ex_ni1_rx ex_nic_max ex_ni1_reach).
  - intros v. unfold outstanding, kNppAssemblerMaxFlits. pose proof (length_filter (fun f => fl_vc f = nz v) (on_port 0 ex_put)) as H.
    change (length (on_port 0 ex_put)) with 2%nat in H. unfold on_vc. lia.
  - apply (ok_or_eq ex_ni0). vm_compute. reflexivity.
Defined.

(** The unit injects a flit on channel 0 and one on channel 1. *)
Definition ex_out1 : niOut bool := (ok_or (false, ni_out ex_ni0) (ni_injectFlit ex_nic 10 (ni_out ex_ni0) (nf 7 0 4 1 0 false) 0 30)).2.
Definition ex_out2 : niOut bool := (ok_or (false, ex_out1) (ni_injectFlit ex_nic 10 ex_out1 (nf 8 1 4 1 0 false) 1 30)).2.
Lemma ex_out2_injects : injects ex_nic 10 (ni_out ex_ni0) ex_out2.
Proof.
  apply (inj_flit ex_nic 10 _ (nf 7 0 4 1 0 false) 0 30 true ex_out1); [done| |].
  - apply (ok_or_eq (false, ni_out ex_ni0)). vm_compute. reflexivity.
  - apply (inj_flit ex_nic 10 _ (nf 8 1 4 1 0 false) 1 30 true ex_out2); [done| |constructor].
    apply (ok_or_eq (false, ex_out1)). vm_compute. reflexivity.
Qed.
Definition ex_ni3 : netif bool unit := set_out ex_out2 (set_unit tt ex_ni0).
Lemma ex_ni3_reach : ni_reach ex_nic ex_ni3 [] [].
Proof. apply (nr_unit ex_nic ex_ni0 [] [] 10); [constructor|apply ex_out2_injects]. Qed.

(** At tick 30 the interface wakes up and its port sends the flit of channel 1. *)
Definition ex_ni3' : netif bool unit := set_in (ni_in ex_ni3) (set_cb (ni_cb ex_ni3) (set_wake {[30]} ex_ni3)).
Definition ex_ni4 : netif bool unit := ok_or ex_ni3 (processCurrentEvent ex_nic 30 ex_ni3').
Lemma ex_ni4_reach : ni_reach ex_nic ex_ni4 [] [].
Proof.
  apply (nr_wakeup ex_nic ex_ni3' _ _ 30); [by apply nr_endpoint, ex_ni3_reach|].
  apply (ok_or_eq ex_ni3). vm_compute. reflexivity.
Qed.
Lemma ni_sends_in_order_witness :
  inj_on 1 (ni_out ex_ni4) = sent_on 1 (ni_out ex_ni4) ++ (no_q (ni_out ex_ni4) 1).*1 /\
  inj_on 0 (ni_out ex_ni4) = sent_on 0 (ni_out ex_ni4) ++ (no_q (ni_out ex_ni4) 0).*1 /\
  length (no_sent (ni_out ex_ni4)) = 1%nat.
Proof.
  split; [|split; [|vm_compute; reflexivity]].
  - apply (ni_sends_in_order ex_nic ex_ni4 [] [] 1 ex_nic_max ex_ni4_reach).
  - apply (ni_sends_in_order ex_nic ex_ni4 [] [] 0 ex_nic_max ex_ni4_reach).
Defined.

(** At tick 30 both flits are ready; the port serves channel 1 first. *)
Definition ex_out3 : niOut bool := ok_or ex_out2 (scheduleOutputPort ex_nic 30 ex_out2 0).
Lemma ex_passed : passed_over ex_nic 0 0 ex_out2 1 ex_out3.
Proof.
  apply (po_call ex_nic 0 0 ex_out2 0 ex_out2 ex_out3 30); [constructor| | |vm_compute; reflexivity].
  - exists (nf 7 0 4 1 0 false), 30, []. split_and!; [vm_compute; reflexivity|done|vm_compute; reflexivity..].
  - apply (ok_or_eq ex_out2). vm_compute. reflexivity.
Qed.
Lemma ni_round_robin_fair_witness : (1 < 3)%nat.
Proof.
  apply (ni_round_robin_fair ex_nic 0 0 ltac:(cbn; lia) ex_out2 1 ex_out3); [|exact ex_passed].
  change (no_rr ex_out2 0) with 0%nat. cbn. lia.
Defined.

(** ** The receive path *)

Definition ex_rx0 : netif NocStreamMsg sNsu := ni_init ex_nic sNsu_init [].
Definition ex_rx1 : netif NocStreamMsg sNsu := put_link 0 ex_flit 0 ex_rx0.
Definition ex_rx2 : netif NocStreamMsg sNsu :=
  ok_or ex_rx0 (processCurrentEvent (NocUnit0 := the_unit (ex_snsu false)) ex_nic 10 ex_rx1).
Definition ex_chan (k : nat * nat) : list sent := if decide (k = (0%nat, 2%nat)) then [ex_sent] else [].

Lemma ex_rx2_reach : rx_reach (ex_snsu false) ex_nic ex_rx2 [(0%nat, ex_flit)] [] [] 10.
Proof.
  apply (rx_wakeup _ _ ex_rx1 _ _ _ 0 10); [|lia|apply (ok_or_eq ex_rx0); vm_compute; reflexivity].
  apply (rx_arrive _ _ ex_rx0 [] []). apply rx_init. vm_compute. reflexivity.
Qed.
Lemma ex_channels : channels [ex_sent] ex_chan.
Proof.
  split.
  - apply NoDup_singleton.
  - apply Forall_singleton. exact (sent_packet_sent _ _ _ _ ex_sent_ok).
  - intros k x. unfold ex_chan. case_decide; [done|]. by intros ?%not_elem_of_nil.
  - intros k. unfold ex_chan. case_decide; [apply NoDup_singleton|constructor].
  - intros j k x. unfold ex_chan. case_decide; [|by intros ?%not_elem_of_nil].
    case_decide; [congruence|]. by intros _ ?%not_elem_of_nil.
Qed.
Lemma ex_carried : carried ex_chan [(0%nat, ex_flit)].
Proof.
  intros p v. unfold on_port. rewrite filter_cons. cbn [fst filter list_filter]. case_decide as Ep; [subst p|apply prefix_nil].
  unfold on_vc. cbn [fmap list_fmap snd filter list_filter].
  destruct (decide (v = 2)%nat) as [-> |Hv]; [exists []; vm_compute; reflexivity|].
  rewrite decide_False; [apply prefix_nil|]. change (fl_vc ex_flit) with 2. lia.
Qed.

Lemma axis_receive_path_witness :
  exists ms, ms.*1 = [10] /\ concat (kept_bytes <$> (bm_beat <$> of_packet 10 ms)) = [1; 2; 3; 4; 5; 6; 7; 8] /\
    me_msg <$> m_prio_heap (su_W (ni_unit ex_rx2)) = concat ms.*2.
Proof.
  assert (good_width (sc_width (ex_snsu false))) as HW by (split; [done|]; split; [by vm_compute|]; left; by vm_compute).
  destruct (axis_receive_path (ex_snsu false) ex_nic [ex_sent] ex_chan ex_channels ex_rx2 [(0%nat, ex_flit)] [] [] 10
    ex_nic_max HW (proj2 (ex_snsu_typed false)) ex_rx2_reach ex_carried) as (_ & ms & H1 & H2 & H3).
  exists ms. split; [exact H1|]. split; [|by apply H3].
  destruct (H2 ex_sent) as (_ & _ & H4); [by left|]. destruct H4 as [H4 _]; [vm_compute; reflexivity|exact H4].
Defined.

(** ** What the scheduling does not promise *)

(** An address packet in another channel is taken before the next flit of the locked packet,
    every cycle: with one arriving per cycle the locked packet does not move. *)
Definition ex_wake (now : Z) (s : netif bool unit) : netif bool unit := ok_or s (processCurrentEvent ex_nic now s).
Definition ex_starved (n : nat) : netif bool unit :=
  foldl (fun s i => ex_wake (20 + 10 * nz i) (put_link 0 (nf (5 + nz i) 1 AR_VNET 1 0 false) 0 s))
    (ex_wake 10 (put_link 0 (nf 2 0 W_VNET 3 1 false) 0 (put_link 0 (nf 2 0 W_VNET 3 0 false) 0 ex_ni0))) (seq 0 n).
Example bypass_starves_locked_packet :
  (fl_packet_id <$> (dl_flit <$> ni_dlv (ex_starved 6))) = [2; 5; 6; 7; 8; 9; 10] /\
  length (ii_asm (ni_rx (ex_starved 6)) (0%nat, 0%nat)) = 1%nat.
Proof. split; vm_compute; reflexivity. Qed.

(** A flit in an output queue that is ready only at tick 1000 is the only wakeup scheduled,
    although a packet waits in an assembler. *)
Definition ex_waits : netif bool unit :=
  let s := put_link 0 (nf 4 1 W_VNET 1 0 false) 0 (put_link 0 (nf 3 0 W_VNET 1 0 false) 0 ex_ni0) in
  ex_wake 10 (set_out (ok_or (false, ni_out s) (ni_injectFlit ex_nic 0 (ni_out s) (nf 7 0 4 1 0 false) 0 1000)).2 s).
Example future_flit_delays_wakeup :
  length (ii_asm (ni_rx ex_waits) (0%nat, 1%nat)) = 1%nat /\ elements (ni_wake ex_waits) = [1000].
Proof. split; vm_compute; reflexivity. Qed.
