(* ===== verification/AxisNodeExample.v ===== *)
(** * Examples for a stream from endpoint to endpoint

    An endpoint hands one beat of eight bytes to a master interface.  The master unit makes a
    packet of one flit, which goes through the output side of the network interface and one
    router to the slave unit of interface 5; that makes two beats of four bytes, which a slave
    interface drives to the other endpoint. *)

From stdpp Require Import functions.
From S2P Require Import Prelude AxiTypes AxisWriteBuffer AxisDepack NppReceive Flit SNmu MsgBuffer Router Stream.
From S2P Require Import RouterSafety RouterReach MmNmu NetIface NetIfaceRun SNsu SNsuRun SNsuPackets SNsuExample AxisReceive AxisEndToEnd.
From S2P Require Import Checkpoint AxiCheckpoint CdcQueue AxisHandler AxisContract AxisSlaveIf AxisMasterIf AxisTransmit AxisNetwork AxisNode NetIfaceExample.

(** ** The sending endpoint *)

Definition ex_mcfg : axisIfCfg := mk_axisIfCfg Master 64 6 4 10 ex_mbCfg 0.
Definition ex_beat : axisData := beat8 255 1 true.
(** The endpoint's wires with a beat and with none. *)
Definition wires_of (d : axisData) : State := mk_State 0 (SAxisMaster (mk_axisMasterState d false false false)).
Definition ex_cycle : cycle := (ex_beat, true).

(** The beat is handed over at tick 10, becomes a message at tick 20, reaches the unit at tick
    110, and its flit is injected. *)
Definition ex_tx1 : nocIf := (ok_or (nocIf_init ex_mcfg, wires_of ex_beat) (nodeSideOut 10 (wires_of ex_beat) (nocIf_init ex_mcfg))).1.
Definition ex_txq : nocIf * mbuf (M := beatMsg) * sNmu :=
  ok_or (nocIf_init ex_mcfg, mbuf_init, sNmu_init 10) (nocSideOut ex_mcfg 20 20 None (if_tick ex_tx1) mbuf_init (sNmu_init 10)).
Definition ex_txd : beatMsg * Z * mbuf (M := beatMsg) := ok_or (mk_beatMsg 0 ex_beat 0 [] 0, 0, mbuf_init) (mb_dequeue ex_mbCfg ex_txq.1.2 110).
Definition ex_txu : sNmu := ok_or (sNmu_init 10)
  (flitisizeMessage ex_tdm ex_vcm ex_router 1 ex_txq.2 (bm_beat ex_txd.1.1) (Some 7) (bm_debugId ex_txd.1.1)).
Definition ex_txf : sNmuCore * axisWriteBuffer * list (flit NocStreamMsg) :=
  ok_or (nm_core ex_txu, nm_writeBuffer ex_txu, []) (dequeueIntermediate ex_tdm ex_vcm ex_router 1 (nm_core ex_txu) (nm_writeBuffer ex_txu)).
Definition ex_sender : sNmu := mk_sNmu ex_txf.1.2 ex_txf.1.1 (inQueueBytes ex_txu).

Lemma ex_beat_ok : axis_beat_ok ex_beat.
Proof. exact beat8_last_ok. Qed.

Lemma ex_tx_reach : tx_reach ex_mcfg ex_tdm ex_vcm ex_router 1 (if_tick ex_txq.1.1) ex_txd.2 ex_sender [ex_cycle] [ex_txd.1.1] [ex_flit].
Proof.
  assert (ex_txf = (ex_txf.1.1, ex_txf.1.2, [ex_flit])) as Ef by (vm_compute; reflexivity).
  apply (tx_deq _ _ _ _ _ _ _ ex_txu _ _ [] ex_txf.1.1 ex_txf.1.2 [ex_flit]); [|vm_compute; reflexivity|].
  2:{ rewrite <- Ef. apply ok_or_eq. vm_compute. reflexivity. }
  apply (tx_take _ _ _ _ _ _ ex_txq.1.2 ex_txq.2 _ [] [] 110 ex_txd.1.1 ex_txd.1.2 ex_txd.2 (Some 7) ex_txu);
    [|vm_compute; reflexivity|apply ok_or_eq; vm_compute; reflexivity].
  apply (tx_noc _ _ _ _ _ (if_tick ex_tx1) mbuf_init (sNmu_init 10) _ [] [] 20 20 None); [|vm_compute; reflexivity].
  apply (tx_node _ _ _ _ _ (nocIf_init ex_mcfg) _ _ [] [] [] 10 (wires_of ex_beat) (mk_axisMasterState ex_beat false false false)
    ex_tx1 (snapshotNodeStateForToCdcProbe (wires_of ex_beat) (nocIf_init ex_mcfg)));
    [constructor|done|intros _; exact ex_beat_ok|vm_compute; reflexivity].
Qed.

Lemma axis_transmit_path_witness :
  handed [ex_cycle] = [ex_beat] /\ nmu_reach ex_tdm ex_vcm ex_router 1 ex_sender [1; 2; 3; 4; 5; 6; 7; 8] [ex_flit] /\
  aw_bufferSize (nm_writeBuffer ex_sender) + inQueueBytes ex_sender <= 512.
Proof.
  destruct (axis_transmit_path ex_mcfg ex_tdm ex_vcm ex_router 1 eq_refl eq_refl _ _ _ _ _ _ ex_tx_reach) as (_ & H1 & _ & H2).
  split; [vm_compute; reflexivity|]. split; [exact H1|exact H2].
Defined.

(** ** The network *)

(** The output side of the sender's network interface, behind router 7: the unit's flit is
    sent at tick 30. *)
Definition ex_snic : nicfg :=
  mk_nicfg 10 1 1 3 (fun _ => []) (fun _ => 7) (fun _ => 7) (fun _ => 2)
    (mk_depths [] [] None None 7 7 7 7 7 [(3, VNOC)]) [true; true; true; true; true] ex_mbCfg.
#[local] Instance no_unit : NocUnit NocStreamMsg unit := {|
  u_flitisizeMessage _ u o _ _ := Ok (false, u, o);
  u_depacketizeFlit _ u _ _ := Ok (true, u);
  u_is_axis _ := true
|}.
#[local] Instance no_unit_injects : UnitInjects (M := NocStreamMsg) (U := unit) ex_snic.
Proof. intros now u o m v ok u' o' [= _ _ <-]. constructor. Qed.
Definition ex_if0 : netif NocStreamMsg unit := ni_init ex_snic tt [].
Definition ex_ifo : niOut NocStreamMsg := (ok_or (false, ni_out ex_if0) (ni_injectFlit ex_snic 10 (ni_out ex_if0) ex_flit 2 30)).2.
Definition ex_if1 : netif NocStreamMsg unit := set_out ex_ifo (set_unit tt ex_if0).
Definition ex_if2 : netif NocStreamMsg unit := ok_or ex_if1 (processCurrentEvent ex_snic 30 ex_if1).

Lemma ex_if2_reach : ni_reach ex_snic ex_if2 [] [].
Proof.
  apply (nr_wakeup ex_snic ex_if1 [] [] 30); [|apply ok_or_eq; vm_compute; reflexivity].
  apply (nr_unit ex_snic ex_if0 [] [] 10); [constructor|].
  apply (inj_flit ex_snic 10 _ ex_flit 2 30 true ex_ifo); [done| |constructor].
  apply (ok_or_eq (false, ni_out ex_if0)). vm_compute. reflexivity.
Qed.

(** A router with one input, one output and three channels. *)
Definition ex_rc : rcfg := mk_rcfg RPTR 1 1 3 2 500 {[(1, 5, 2) := 0]} (fun _ => 5).
Definition ex_idle : router (M := NocStreamMsg) := Router.init ex_rc.
Definition ex_r0 : router :=
  Router.put_link (<[0%nat := r_link ex_idle 0%nat ++ [(ex_flit, 500)]]> (r_link ex_idle)) (put_wake ({[500]} ∪ r_wake ex_idle) ex_idle).
Definition ex_r1 : router := ok_or ex_r0 (Router.processCurrentEvent ex_rc 500 ex_r0).
Definition ex_r2 : router := ok_or ex_r1 (Router.processCurrentEvent ex_rc 1000 ex_r1).
Definition ex_at : req := (0, 2)%nat.
Definition ex_rraw : req -> list (flit NocStreamMsg) := <[ex_at := [ex_flit]]> (fun _ => []).

Lemma ex_flit_packet : st_flits ex_sent = [ex_flit].
Proof. vm_compute. reflexivity. Qed.
Lemma ex_r0_reach : reach ex_rc ex_r0 ex_rraw (fun _ => 0) 0.
Proof.
  apply (reach_flit ex_rc ex_idle (fun _ => []) (fun _ => 0) 0 0 ex_flit 500); [constructor|cbn; lia|cbn; lia| | |lia].
  - exists 0%nat. split; [vm_compute; reflexivity|cbn; lia].
  - exists (st_flits ex_sent). rewrite ex_flit_packet. split; [|by exists []].
    exists 10, 2, W_VNET, (st_route ex_sent), 1%nat, (st_msg ex_sent). split; [lia|vm_compute; reflexivity].
Qed.
Lemma ex_r2_reach : reach ex_rc ex_r2 ex_rraw (fun _ => 0) 1000.
Proof.
  assert (forall t s s0 now, reach ex_rc s ex_rraw (fun _ => 0) now -> r_wake s = {[t]} ->
    is_ok (Router.processCurrentEvent ex_rc t s) = true ->
    reach ex_rc (ok_or s0 (Router.processCurrentEvent ex_rc t s)) ex_rraw (fun _ => 0) t) as H.
  { intros t s s0 now Hr Hw Ho.
    apply (reach_event _ s _ _ now); [done|rewrite Hw; by apply elem_of_singleton|intros w; rewrite Hw, elem_of_singleton; by intros ->|by apply ok_or_eq]. }
  eapply H; [eapply H; [exact ex_r0_reach|vm_compute; reflexivity..]|vm_compute; reflexivity..].
Qed.

Lemma ex_rc_ok : router_ok ex_rc.
Proof. by split; cbn; lia. Qed.
Lemma ex_routed : routed_by 1 5 ex_rc ex_rraw ex_at 0.
Proof.
  split.
  - intros r Hr. unfold ex_rraw. by rewrite fn_lookup_insert_ne.
  - unfold ex_rraw. rewrite fn_lookup_insert. apply Forall_forall. intros f [_ ->%list_elem_of_singleton]%list_elem_of_filter.
    split; [vm_compute; reflexivity|cbn; lia].
Qed.

(** The flit behind the router. *)
Definition ex_flit1 : flit NocStreamMsg := increment_hops ex_flit.
Lemma ex_path : path 1 5 1 [ex_flit] [ex_flit1].
Proof.
  apply (path_wire _ _ _ _ (RouterReach.sent ex_r2 (0, 2)%nat)); [|exists []; vm_compute; reflexivity].
  apply (path_router _ _ 0 _ ex_rc ex_r2 ex_rraw (fun _ => 0) 1000 ex_at 0); [|exact ex_rc_ok|exact ex_r2_reach|exact ex_routed].
  apply (path_wire _ _ _ _ (NetIfaceRun.sent_on 2 (ni_out ex_if2))); [|exists []; vm_compute; reflexivity].
  apply (path_interface _ _ _ _ ex_snic ex_if2 [] []); [apply _|intros v; cbn; lia|exact ex_if2_reach|].
  replace (inj_on 2 (ni_out ex_if2)) with [ex_flit] by (vm_compute; reflexivity). constructor.
Qed.

(** ** The receiving endpoint *)

(** The flit arrives and the slave unit makes two beats at tick 10, which the endpoint's side
    takes at ticks 40 and 50. *)
Definition ex_node1 : netif NocStreamMsg sNsu := put_link 0 ex_flit1 0 ex_rx0.
Definition ex_node2 : netif NocStreamMsg sNsu :=
  ok_or ex_rx0 (processCurrentEvent (NocUnit0 := the_unit (ex_snsu false)) ex_nic 10 ex_node1).
Definition ex_read (now : Z) (s : netif NocStreamMsg sNsu) : beatMsg * Z * mbuf (M := beatMsg) :=
  ok_or (mk_beatMsg 0 ex_beat 0 [] 0, 0, mbuf_init) (mb_dequeue ex_mbCfg (su_W (ni_unit s)) now).
Definition ex_after (now : Z) (s : netif NocStreamMsg sNsu) : netif NocStreamMsg sNsu :=
  set_in (ni_in s) (set_cb (ni_cb s) (set_wake (ni_wake s) (set_unit (set_W (ex_read now s).2 (ni_unit s)) s))).
Definition ex_node3 : netif NocStreamMsg sNsu := ex_after 40 ex_node2.
Definition ex_node4 : netif NocStreamMsg sNsu := ex_after 50 ex_node3.
Definition ex_outs : list beatMsg := [(ex_read 40 ex_node2).1.1; (ex_read 50 ex_node3).1.1].

Lemma ex_node4_reach : rx_reach (ex_snsu false) ex_nic ex_node4 [(0%nat, ex_flit1)] [] ex_outs 50.
Proof.
  assert (forall s put ret outs t now, rx_reach (ex_snsu false) ex_nic s put ret outs t -> t <= now ->
    is_ok (mb_dequeue ex_mbCfg (su_W (ni_unit s)) now) = true ->
    rx_reach (ex_snsu false) ex_nic (ex_after now s) put ret (outs ++ [(ex_read now s).1.1]) now) as H.
  { intros s put ret outs t now Hr Ht Ho. apply (rx_endpoint _ _ _ _ _ _ t now _ (ex_read now s).1.2); [done..|].
    unfold ex_read. rewrite <- !surjective_pairing. by apply ok_or_eq. }
  apply (H ex_node3 _ _ [(ex_read 40 ex_node2).1.1] 40); [|lia|vm_compute; reflexivity].
  apply (H ex_node2 _ _ [] 10); [|lia|vm_compute; reflexivity].
  apply (rx_wakeup _ _ ex_node1 _ _ _ 0 10); [|lia|apply (ok_or_eq ex_rx0); vm_compute; reflexivity].
  apply (rx_arrive _ _ ex_rx0 [] []). apply rx_init. vm_compute. reflexivity.
Qed.

Definition ex_sent1 : SNmu.sent := sent_hop 1 ex_sent.
Definition ex_nchan (k : req) : list SNmu.sent := if decide (k = ex_at) then [ex_sent1] else [].
Lemma ex_nchannels : channels [ex_sent1] ex_nchan.
Proof.
  split.
  - apply NoDup_singleton.
  - apply Forall_singleton. exact (sent_packet_sent _ _ _ _ ex_sent_ok).
  - intros k x. unfold ex_nchan. case_decide; [done|]. by intros ?%not_elem_of_nil.
  - intros k. unfold ex_nchan. case_decide; [apply NoDup_singleton|constructor].
  - intros j k x. unfold ex_nchan. case_decide; [|by intros ?%not_elem_of_nil].
    case_decide; [congruence|]. by intros _ ?%not_elem_of_nil.
Qed.
Lemma ex_ncarried : carried ex_nchan [(0%nat, ex_flit1)].
Proof.
  intros p v. unfold on_port. rewrite filter_cons. cbn [fst filter list_filter]. case_decide as Ep; [subst p|apply prefix_nil].
  unfold on_vc. cbn [fmap list_fmap snd filter list_filter].
  destruct (decide (v = 2)%nat) as [-> |Hv]; [exists []; vm_compute; reflexivity|].
  rewrite decide_False; [apply prefix_nil|]. change (fl_vc ex_flit1) with 2. lia.
Qed.

(** The slave interface takes a message at ticks 40 and 50 and drives both beats. *)
Definition ex_scfg : axisIfCfg := mk_axisIfCfg Slave 32 6 4 10 ex_mbCfg 0.
Definition ex_ready (t : bool) : State := new_State (SAxisSlave t).
Definition ex_take (now : Z) (i : nocIf) (s : netif NocStreamMsg sNsu) : nocIf :=
  if_tick (ok_or (i, mbuf_init) (nocSideIn ex_scfg now i (su_W (ni_unit s)))).1.
Definition ex_drive (now : Z) (t : bool) (i : nocIf) : nocIf := if_tick (ok_or i (nodeSideIn ex_scfg now (ex_ready t) i mbuf_init)).
Definition ex_sl1 : nocIf := ex_take 50 (ex_take 40 (nocIf_init ex_scfg) ex_node2) ex_node3.
Definition ex_sl2 : nocIf := ex_drive 70 false (ex_drive 60 true ex_sl1).
Definition ex_sl3 : nocIf := ex_drive 90 true (ex_drive 80 true ex_sl2).

Lemma ex_take_reach now i taken hs s m : sif_reach ex_scfg i taken hs -> is_ok (nocSideIn ex_scfg now i (su_W (ni_unit s))) = true ->
  msgs_of (su_W (ni_unit s)) = m :: msgs_of (ok_or (i, mbuf_init) (nocSideIn ex_scfg now i (su_W (ni_unit s)))).2 ->
  sif_reach ex_scfg (ex_take now i s) (taken ++ [m]) hs.
Proof.
  intros Hr Ho Hm. eapply (sif_noc ex_scfg i taken hs now (su_W (ni_unit s))); [done| |exact Hm].
  rewrite <- surjective_pairing. by apply ok_or_eq.
Qed.
Lemma ex_drive_reach now t i taken hs : sif_reach ex_scfg i taken hs -> is_ok (nodeSideIn ex_scfg now (ex_ready t) i mbuf_init) = true ->
  sif_reach ex_scfg (ex_drive now t i) taken (hs ++ if t then option_list (driven (currentState i)) else []).
Proof. intros Hr Ho. apply (sif_node ex_scfg i taken hs now (ex_ready t) t mbuf_init); [done|done|by apply ok_or_eq]. Qed.

Lemma ex_sl2_reach : sif_reach ex_scfg ex_sl2 ex_outs [].
Proof.
  apply (ex_drive_reach 70 false (ex_drive 60 true ex_sl1) ex_outs []); [|vm_compute; reflexivity].
  apply (ex_drive_reach 60 true ex_sl1 ex_outs []); [|vm_compute; reflexivity].
  apply (ex_take_reach 50 _ [(ex_read 40 ex_node2).1.1]); [|vm_compute; reflexivity..].
  apply (ex_take_reach 40 _ []); [constructor|vm_compute; reflexivity..].
Qed.
Lemma ex_sl3_reach : sif_reach ex_scfg ex_sl3 ex_outs (bm_beat <$> ex_outs).
Proof.
  apply (ex_drive_reach 90 true (ex_drive 80 true ex_sl2) ex_outs [bm_beat (ex_read 40 ex_node2).1.1]); [|vm_compute; reflexivity].
  apply (ex_drive_reach 80 true ex_sl2 ex_outs []); [exact ex_sl2_reach|vm_compute; reflexivity].
Qed.

(** ** The theorems at this run *)

Lemma slave_if_delivers_witness :
  exists ds, bm_beat <$> ex_outs = [] ++ option_list (driven (currentState ex_sl2)) ++ ds /\ length ds = 1%nat.
Proof.
  destruct (slave_if_delivers ex_scfg eq_refl ex_sl2 ex_outs [] ex_sl2_reach) as (ds & H1 & H2 & _); [by repeat constructor|].
  exists ds. split; [exact H1|]. rewrite <- H2. vm_compute. reflexivity.
Defined.

Lemma slave_if_contract_witness : exists i', nodeSideIn ex_scfg 80 (ex_ready false) ex_sl2 mbuf_init = Ok i'.
Proof.
  apply (slave_if_contract ex_scfg eq_refl ex_sl2 ex_outs [] 80 (ex_ready false) false mbuf_init ex_sl2_reach); [by repeat constructor| |done|cbn; lia].
  vm_compute. split; [done|]. split; [by intros x [= <-]|done].
Defined.

Definition ex_mif : nocIf := if_tick ex_tx1.
Lemma ex_mif_reach : mif_reach ex_mcfg ex_mif [ex_cycle] [].
Proof.
  apply (mif_node ex_mcfg (nocIf_init ex_mcfg) [] [] 10 (wires_of ex_beat) (mk_axisMasterState ex_beat false false false)
    ex_tx1 (snapshotNodeStateForToCdcProbe (wires_of ex_beat) (nocIf_init ex_mcfg))); [constructor|done|vm_compute; reflexivity].
Qed.
Lemma master_if_takes_witness : exists ds, [ex_beat] = [] ++ ds /\ length (fifo (if_cdc ex_mif)) = length ds /\ (length ds < 8)%nat.
Proof.
  destruct (master_if_takes ex_mcfg eq_refl ex_mif [ex_cycle] [] ex_mif_reach) as (ds & H1 & H2 & _ & H3).
  exists ds. split; [exact H1|]. split; [exact H2|]. apply H3. vm_compute. reflexivity.
Defined.

Lemma master_if_contract_witness : exists i' input', nodeSideOut 20 (wires_of ex_beat) ex_mif = Ok (i', input').
Proof.
  apply (master_if_contract ex_mcfg eq_refl ex_mif [ex_cycle] [] 20 (wires_of ex_beat) (mk_axisMasterState ex_beat false false false)
    ex_mif_reach eq_refl). split; vm_compute; repeat split; done.
Defined.

Lemma fingerprint_exact_witness :
  axisStablePayloadFingerprint ex_beat <> axisStablePayloadFingerprint (set_sideband 1 1 256 ex_beat).
Proof.
  assert (axisData_typed ex_beat /\ axisData_typed (set_sideband 1 1 256 ex_beat)) as [H1 H2] by (repeat split; vm_compute; try done; by repeat constructor).
  intros E. apply (fingerprint_exact _ _ H1 H2 eq_refl) in E as (_ & _ & _ & _ & E & _). discriminate E.
Defined.

Lemma axis_node_to_node_witness :
  exists outs1, outs1 `prefix_of` ex_outs /\ bm_beat <$> ex_outs = bm_beat <$> outs1 /\
    bytes_in (beats_from 1 outs1) = [1; 2; 3; 4; 5; 6; 7; 8].
Proof.
  assert (good_width (sc_width (ex_snsu false))) as HW by (split; [done|]; split; [by vm_compute|]; left; by vm_compute).
  destruct (axis_node_to_node 1 5 ex_tdm ex_vcm ex_router ltac:(lia) (ex_snsu false) ex_nic [ex_sent1] ex_nchan ex_at ex_nic_max HW
    (proj2 (ex_snsu_typed false)) eq_refl eq_refl ex_nchannels) with (co := ex_scfg) (n := 1%nat) (ci := ex_mcfg) (i2 := ex_sl3)
    (i1 := if_tick ex_txq.1.1) (q1 := ex_txd.2) (u1 := ex_sender) (l := [ex_cycle]) (took := [ex_txd.1.1]) (fls := [ex_flit])
    (s := ex_node4) (put := [(0%nat, ex_flit1)]) (ret := @nil (nat * (Z * bool))) (now := 50) (outs := ex_outs) (hs := bm_beat <$> ex_outs)
    as (outs1 & H1 & H2 & _ & H3); [|done|done|exact ex_tx_reach| |exact ex_path|exact ex_node4_reach|exact ex_ncarried|done|exact ex_sl3_reach|].
  - intros k x. unfold ex_nchan. case_decide; [|by intros ?%not_elem_of_nil]. by intros ->%list_elem_of_singleton _.
  - apply Forall_singleton. vm_compute. reflexivity.
  - exists outs1. split; [done|]. split; [done|]. rewrite H3; vm_compute; reflexivity.
Defined.

(** ** What the checker does not see *)

Definition ex_refused : ProtocolChecker := ok_or ProtocolChecker_init (protocolCheck ProtocolChecker_init (observation ex_beat false)).

(** A payload that changes in the cycle in which the receiver becomes ready passes: the bytes
    that are taken are not those that were offered before. *)
Example checker_misses_change_at_handshake :
  is_ok (protocolCheck ex_refused (observation (beat8 15 1 true) false)) = false /\
  is_ok (protocolCheck ex_refused (observation (beat8 15 1 true) true)) = true.
Proof. split; vm_compute; reflexivity. Qed.
