(* ===== verification/NocNodes.v ===== *)
(** * AXI-Stream endpoints

    The endpoints of [src/src/noc/endpoints] that end or forward a stream: [AxisSinkNode],
    [AxisPacketCheckerSink], [AxisFifoNode] and [AxisBackpressureShimNode], behind the common
    class [NocNode].  [Control] passes an endpoint the state of its interface with [update] and
    clocks it with [tick].

    A master endpoint is kept as the beat on its wires; the fields of [axisMasterState] that
    the interface writes for the probe are read by no endpoint.  The random numbers of a sink
    are an argument; printing and metric files are left out.  Port names are in [ControlBuild]. *)

From S2P Require Import Prelude AxiTypes AxisWriteBuffer AxisPacket Checkpoint AxiCheckpoint CdcQueue AxisHandler.

(** The virtual operations of [NocNode] that run during simulation, at tick [now]. *)
Class NocNode (N : Type) := {
  node_update : Z -> Z -> State -> N -> res N;            (* now, portID *)
  getCurrentState : Z -> N -> res State;                  (* portID *)
  node_tick : Z -> Z -> N -> res (bool * N);              (* now, clockDomain *)
  node_done : N -> bool
}.

Definition master_in (who : string) (st : State) : res axisData :=
  match st_body st with SAxisMaster m => Ok (ams_data m) | _ => Err (FPanic who) end.
Definition slave_in (who : string) (st : State) : res bool :=
  match st_body st with SAxisSlave tready => Ok tready | _ => Err (FPanic who) end.
Definition slave_wires (tready : bool) : State := new_State (SAxisSlave tready).
Definition master_wires (d : axisData) : State := new_State (SAxisMaster (mk_axisMasterState d false false false)).

(** [clockDomains[0]] *)
Definition in_domain (clockDomains : list Z) (cd : Z) : bool :=
  match clockDomains with [] => false | d :: _ => cd =? d end.

(** ** [AxisSinkNode] *)

Record sinkCfg := mk_sinkCfg {
  sk_readyPercent : Z;
  sk_startAfter : Z;             (* m_readyPercentStartAfterPackets *)
  sk_expectedPackets : Z;
  sk_clockDomains : list Z;
  sk_roll : nat -> Z             (* the numbers [m_dist100(m_rng)] gives *)
}.
Record sink := mk_sink {
  sk_current : bool;
  sk_next : bool;
  sk_masterIn : axisData;
  sk_numPackets : Z;
  sk_draws : nat
}.

Section Sink.
Context (c : sinkCfg).

Definition sink_init (d0 : axisData) : sink := mk_sink true true d0 0 0.

Definition sink_update (now portID : Z) (st : State) (s : sink) : res sink :=
  guard (portID =? 0) (FPanic "AxisSinkNode::update invalid portID") (
  let* d := master_in "AxisSinkNode::update expected axisMasterState" st in
  Ok (if sk_numPackets s <? s32 (sk_startAfter c)
      then mk_sink (sk_current s) true d (sk_numPackets s) (sk_draws s)
      else mk_sink (sk_current s) (sk_roll c (sk_draws s) <? sk_readyPercent c) d (sk_numPackets s) (S (sk_draws s)))).

Definition sink_getCurrentState (portID : Z) (s : sink) : res State :=
  guard (portID =? 0) (FPanic "AxisSinkNode::getCurrentState invalid portID") (Ok (slave_wires (sk_current s))).

Definition sink_tick (now cd : Z) (s : sink) : res (bool * sink) :=
  if in_domain (sk_clockDomains c) cd then
    let accept := sk_current s && tvalid (sk_masterIn s) in
    let n := if accept && tlast (sk_masterIn s) then sk_numPackets s + 1 else sk_numPackets s in
    Ok (true, mk_sink (sk_next s) (sk_next s) (sk_masterIn s) n (sk_draws s))
  else Ok (false, s).

Definition sink_done (s : sink) : bool := sk_expectedPackets c <=? u32 (sk_numPackets s).

#[export] Instance sink_node : NocNode sink := {|
  node_update := sink_update; getCurrentState := sink_getCurrentState; node_tick := sink_tick; node_done := sink_done
|}.
End Sink.

(** ** [AxisFifoNode] *)

Record fifoCfg := mk_fifoCfg {
  ff_expectedPackets : Z;
  ff_fifoDepth : Z;
  ff_delayTicks : Z;
  ff_clockDomains : list Z
}.
Record fifoNode := mk_fifoNode {
  ff_currentSlave : bool;
  ff_nextSlave : bool;
  ff_currentMaster : axisData;
  ff_nextMaster : axisData;
  ff_slaveIn : bool;
  ff_masterIn : axisData;
  ff_numPackets : Z;
  ff_fifo : list (axisData * Z)     (* beat and ready_cycle *)
}.

Section Fifo.
Context (c : fifoCfg).

Definition fifo_init (d0 : axisData) : fifoNode :=
  let idle := set_tvalid false d0 in mk_fifoNode true true idle idle true d0 0 [].

Definition fifo_update (now portID : Z) (st : State) (s : fifoNode) : res fifoNode :=
  if portID =? 0 then
    let* d := master_in "AxisFifoNode::update expected axisMasterState on port 0" st in
    let tready := if ff_fifoDepth c =? 0 then false else nz (length (ff_fifo s)) <? ff_fifoDepth c in
    Ok (mk_fifoNode (ff_currentSlave s) tready (ff_currentMaster s) (ff_nextMaster s) (ff_slaveIn s) d
          (ff_numPackets s) (ff_fifo s))
  else if portID =? 1 then
    let* t := slave_in "AxisFifoNode::update expected axisSlaveState on port 1" st in
    let next := if tvalid (ff_currentMaster s) && t then set_tvalid false (ff_currentMaster s) else ff_currentMaster s in
    let next := match ff_fifo s with
                | (d, ready_cycle) :: _ => if negb (tvalid next) && (ready_cycle <=? now) then set_tvalid true d else next
                | [] => next
                end in
    Ok (mk_fifoNode (ff_currentSlave s) (ff_nextSlave s) (ff_currentMaster s) next t (ff_masterIn s)
          (ff_numPackets s) (ff_fifo s))
  else Err (FPanic "AxisFifoNode::update invalid portID").

Definition fifo_getCurrentState (portID : Z) (s : fifoNode) : res State :=
  if portID =? 0 then Ok (slave_wires (ff_currentSlave s))
  else if portID =? 1 then Ok (master_wires (ff_currentMaster s))
  else Err (FPanic "AxisFifoNode::getCurrentState invalid portID").

(** The next states become current first; then both handshakes are evaluated. *)
Definition fifo_tick (now cd : Z) (s : fifoNode) : res (bool * fifoNode) :=
  if in_domain (ff_clockDomains c) cd then
    let slave := ff_nextSlave s in
    let master := ff_nextMaster s in
    let push := slave && tvalid (ff_masterIn s) in
    let n := if push && tlast (ff_masterIn s) then ff_numPackets s + 1 else ff_numPackets s in
    guard (negb (push && ((ff_fifoDepth c =? 0) || (ff_fifoDepth c <=? nz (length (ff_fifo s))))))
      (FPanic "AxisFifoNode: FIFO is unexpectedly full") (
    let q := if push then ff_fifo s ++ [(set_tvalid true (ff_masterIn s), u64 (now + ff_delayTicks c))] else ff_fifo s in
    let pop := tvalid master && ff_slaveIn s in
    guard (negb (pop && match q with [] => true | _ => false end))
      (FPanic "AxisFifoNode: FIFO is unexpectedly empty") (
    Ok (true, mk_fifoNode slave slave master master (ff_slaveIn s) (ff_masterIn s) n (if pop then tail q else q))))
  else Ok (false, s).

Definition fifo_done (s : fifoNode) : bool :=
  (ff_expectedPackets c <=? u32 (ff_numPackets s)) && match ff_fifo s with [] => true | _ => false end &&
  negb (tvalid (ff_currentMaster s)).

#[export] Instance fifo_node : NocNode fifoNode := {|
  node_update := fifo_update; getCurrentState := fifo_getCurrentState; node_tick := fifo_tick; node_done := fifo_done
|}.
End Fifo.

(** ** [AxisBackpressureShimNode] *)

Record shimCfg := mk_shimCfg {
  sh_expectedPackets : Z;
  sh_fifoDepth : Z;
  sh_enabled : bool;
  sh_period : Z;
  sh_allow : Z;
  sh_scope : string;
  sh_clockDomains : list Z
}.
(** The members set from the parameters. *)
Definition new_shimCfg (expected_packets fifo_depth : Z) (backpressure_enabled : bool)
    (backpressure_period backpressure_allow : Z) (scope : string) (clockDomains : list Z) : shimCfg :=
  mk_shimCfg expected_packets (Z.max 1 fifo_depth) backpressure_enabled (Z.max 1 backpressure_period)
    (Z.min (Z.max 1 backpressure_period) backpressure_allow) scope clockDomains.

Record ReadyValidCounters := mk_ReadyValidCounters { rv_readyValid : Z; rv_validOnly : Z; rv_readyOnly : Z; rv_idle : Z }.
Record StabilityTracker := mk_StabilityTracker { tr_stalled : bool; tr_beat : axisData }.
(** What [recordInputBeat] and [recordOutputBeat] keep of one side. *)
Record sideMetrics := mk_sideMetrics {
  me_accepted : Z; me_bytes : Z; me_packets : Z; me_first : Z; me_last : Z; me_saw : bool
}.
(** [m_axisStabilityViolation] with its tick, signal and side. *)
Definition violation : Type := option (Z * string * string).

Record shim := mk_shim {
  sh_slave : bool;
  sh_master : axisData;
  sh_masterIn : axisData;
  sh_slaveIn : bool;
  sh_fifo : list axisData;
  sh_fifoMaxOccupancy : Z;
  sh_activeCycles : Z;
  sh_validGatedPhase : Z;
  sh_outputPacketsSeen : Z;
  sh_inCounters : ReadyValidCounters;
  sh_outCounters : ReadyValidCounters;
  sh_inMetrics : sideMetrics;
  sh_outMetrics : sideMetrics;
  sh_violation : violation;
  sh_inStability : StabilityTracker;
  sh_outStability : StabilityTracker
}.

Definition recordReadyValid (k : ReadyValidCounters) (valid ready : bool) : ReadyValidCounters :=
  let '(mk_ReadyValidCounters a b d e) := k in
  if valid && ready then mk_ReadyValidCounters (u64 (a + 1)) b d e
  else if valid then mk_ReadyValidCounters a (u64 (b + 1)) d e
  else if ready then mk_ReadyValidCounters a b (u64 (d + 1)) e
  else mk_ReadyValidCounters a b d (u64 (e + 1)).

(** [axisEqual]: the first signal that differs, if any. *)
Definition axisEqual (l r : axisData) : option string :=
  if negb (eqb (tvalid l) (tvalid r)) then Some "tvalid"
  else if negb (bool_decide (tdata l = tdata r)) then Some "tdata"
  else if negb (tkeep l =? tkeep r) then Some "tkeep"
  else if negb (eqb (tlast l) (tlast r)) then Some "tlast"
  else if negb (tuser l =? tuser r) then Some "tuser"
  else if negb (tid l =? tid r) then Some "tid"
  else if negb (tdest l =? tdest r) then Some "tdest"
  else None.

Definition checkStability (now : Z) (v : violation) (t : StabilityTracker) (valid ready : bool) (beat : axisData)
    (side : string) : violation * StabilityTracker :=
  match v with
  | Some _ => (v, t)
  | None =>
      if tr_stalled t then
        if negb valid then (Some (now, "tvalid", side), t)
        else match axisEqual beat (tr_beat t) with
             | Some signal => (Some (now, signal, side), t)
             | None => (None, if ready then mk_StabilityTracker false (tr_beat t) else t)
             end
      else (None, if valid && negb ready then mk_StabilityTracker true beat else t)
  end.

(** The accepted beat is counted, then [recordInputBeat] or [recordOutputBeat]. *)
Definition recordBeat (now : Z) (m : sideMetrics) (beat : axisData) : sideMetrics :=
  mk_sideMetrics (u64 (me_accepted m + 1)) (u64 (me_bytes m + axis_getTotalByteSize beat))
    (if tlast beat then u64 (me_packets m + 1) else me_packets m)
    (if me_saw m then me_first m else now) now true.

Section Shim.
Context (c : shimCfg).

Definition shim_init (d0 : axisData) : shim :=
  let no := mk_ReadyValidCounters 0 0 0 0 in
  let none := mk_sideMetrics 0 0 0 0 0 false in
  let quiet := mk_StabilityTracker false d0 in
  mk_shim true (set_tvalid false d0) d0 true [] 0 0 0 0 no no none none None quiet quiet.

Definition shim_update (now portID : Z) (st : State) (s : shim) : res shim :=
  let put d t := mk_shim (sh_slave s) (sh_master s) d t (sh_fifo s) (sh_fifoMaxOccupancy s) (sh_activeCycles s)
    (sh_validGatedPhase s) (sh_outputPacketsSeen s) (sh_inCounters s) (sh_outCounters s) (sh_inMetrics s)
    (sh_outMetrics s) (sh_violation s) (sh_inStability s) (sh_outStability s) in
  if portID =? 0 then
    let* d := master_in "AxisBackpressureShimNode::update expected axisMasterState on port 0" st in Ok (put d (sh_slaveIn s))
  else if portID =? 1 then
    let* t := slave_in "AxisBackpressureShimNode::update expected axisSlaveState on port 1" st in Ok (put (sh_masterIn s) t)
  else Err (FPanic "AxisBackpressureShimNode::update invalid portID").

Definition shim_getCurrentState (portID : Z) (s : shim) : res State :=
  if portID =? 0 then Ok (slave_wires (sh_slave s))
  else if portID =? 1 then Ok (master_wires (sh_master s))
  else Err (FPanic "AxisBackpressureShimNode::getCurrentState invalid portID").

Definition no_pattern : bool := negb (sh_enabled c) || (sh_period c <=? 1).
Definition patternReady (activeCycles : Z) : bool := no_pattern || (activeCycles mod sh_period c <? sh_allow c).
Definition validGatedBackpressure : bool := String.eqb (sh_scope c) "dma_fed_axis_valid_gated_backpressure_v1".
Definition inputPatternReady (activeCycles phase : Z) : bool :=
  no_pattern || (if validGatedBackpressure then phase <? sh_allow c else patternReady activeCycles).
Definition advanceInputPattern (phase : Z) (inputValid : bool) : Z :=
  if negb validGatedBackpressure || no_pattern || negb inputValid then phase else u32 (phase + 1) mod sh_period c.

Definition shim_tick (now cd : Z) (s : shim) : res (bool * shim) :=
  if match sh_clockDomains c with [] => true | d :: _ => cd =? d end then
    let outputValid := tvalid (sh_master s) in
    let outputReady := sh_slaveIn s in
    let inputValid := tvalid (sh_masterIn s) in
    let inputReady := sh_slave s in
    let '(v, inStab) := checkStability now (sh_violation s) (sh_inStability s) inputValid inputReady (sh_masterIn s) "dma_to_shim" in
    let '(v, outStab) := checkStability now v (sh_outStability s) outputValid outputReady (sh_master s) "shim_to_checker" in
    let handshakeOut := outputValid && outputReady in
    let handshakeIn := inputValid && inputReady in
    let outMetrics := if handshakeOut then recordBeat now (sh_outMetrics s) (sh_master s) else sh_outMetrics s in
    let seen := if handshakeOut && tlast (sh_master s) then u32 (sh_outputPacketsSeen s + 1) else sh_outputPacketsSeen s in
    let master := if handshakeOut then set_tvalid false (sh_master s) else sh_master s in
    let q := if handshakeOut then tail (sh_fifo s) else sh_fifo s in
    let inMetrics := if handshakeIn then recordBeat now (sh_inMetrics s) (sh_masterIn s) else sh_inMetrics s in
    guard (negb (handshakeIn && (sh_fifoDepth c <=? nz (length q))))
      (FPanic "AxisBackpressureShimNode: accepted beat while FIFO full") (
    let q := if handshakeIn then q ++ [set_tvalid true (sh_masterIn s)] else q in
    let occ := if handshakeIn then Z.max (sh_fifoMaxOccupancy s) (u32 (nz (length q))) else sh_fifoMaxOccupancy s in
    let master := match q with
                  | d :: _ => if tvalid master then master else set_tvalid true d
                  | [] => master
                  end in
    let phase := advanceInputPattern (sh_validGatedPhase s) inputValid in
    let tready := inputPatternReady (sh_activeCycles s) phase && (u32 (nz (length q)) <? sh_fifoDepth c) in
    Ok (true, mk_shim tready master (sh_masterIn s) (sh_slaveIn s) q occ (u64 (sh_activeCycles s + 1)) phase seen
                (recordReadyValid (sh_inCounters s) inputValid inputReady)
                (recordReadyValid (sh_outCounters s) outputValid outputReady)
                inMetrics outMetrics v inStab outStab))
  else Ok (false, s).

Definition shim_done (s : shim) : bool :=
  (0 <? sh_expectedPackets c) && (sh_expectedPackets c <=? sh_outputPacketsSeen s) &&
  match sh_fifo s with [] => true | _ => false end && negb (tvalid (sh_master s)).

#[export] Instance shim_node : NocNode shim := {|
  node_update := shim_update; getCurrentState := shim_getCurrentState; node_tick := shim_tick; node_done := shim_done
|}.
End Shim.

(** ** [AxisPacketCheckerSink] *)

Inductive CheckMode := Exact | Ipv4 | NatOutbound.

Record checkerCfg := mk_checkerCfg {
  ck_mode : CheckMode;
  ck_dataWidthBits : Z;
  ck_expectedPackets : Z;
  ck_readyPercent : Z;
  ck_validateIpv4Checksum : bool;
  ck_validateL4Checksum : bool;
  ck_validationSkipBytes : nat;
  ck_checkTdest : bool;
  ck_expectedTdest : Z;
  ck_natPublicIp : Z;
  ck_natBasePort : Z;
  ck_natPortCount : Z;
  ck_expectedStream : list axisData;
  ck_clockDomains : list Z;
  ck_roll : nat -> Z
}.
Record checker := mk_checker {
  ck_current : bool;
  ck_next : bool;
  ck_masterIn : axisData;
  ck_draws : nat;
  ck_packetBytes : list Z;
  ck_packetsReceived : Z;
  ck_beatsReceived : Z;
  ck_bytesReceived : Z;
  ck_firstBeatTick : Z;
  ck_lastBeatTick : Z;
  ck_sawBeat : bool;
  ck_expectedBeat : nat
}.

Definition readBe32 (bytes : list Z) (off : nat) : res Z :=
  let* a := at_get bytes off in
  let* b := at_get bytes (off + 1) in
  let* d := at_get bytes (off + 2) in
  let* e := at_get bytes (off + 3) in
  Ok (Z.lor (Z.lor (Z.lor (u32 (Z.shiftl a 24)) (Z.shiftl b 16)) (Z.shiftl d 8)) e).

(** [keepIsPrefix], over the byte lanes [lanes]. *)
Fixpoint keepScan (keep : Z) (seenZero : bool) (lanes : list nat) : bool :=
  match lanes with
  | [] => true
  | i :: lanes => if Z.testbit keep (nz i) then negb seenZero && keepScan keep seenZero lanes else keepScan keep true lanes
  end.
Definition keepIsPrefix (keep dataWidthBits : Z) : bool := keepScan keep false (seq 0 (zn (dataWidthBits / 8))).

Section Checker.
Context (c : checkerCfg).

Definition checker_init (d0 : axisData) : checker := mk_checker true true d0 0 [] 0 0 0 0 0 false 0.

Definition set_ck (bytes : list Z) (packets beats nbytes first last : Z) (saw : bool) (expected : nat) (s : checker) : checker :=
  mk_checker (ck_current s) (ck_next s) (ck_masterIn s) (ck_draws s) bytes packets beats nbytes first last saw expected.

Definition checkExactBeat (expectedBeat : nat) (beat : axisData) : res nat :=
  match ck_expectedStream c !! expectedBeat with
  | None => Err (FFatal "received more beats than expected")
  | Some expected =>
      guard (tkeep beat =? tkeep expected) (FFatal "TKEEP mismatch") (
      guard (eqb (tlast beat) (tlast expected)) (FFatal "TLAST mismatch") (
      guard ((tid beat =? tid expected) && (tdest beat =? tdest expected) && (tuser beat =? tuser expected))
        (FFatal "sideband mismatch") (
      let* _ := foldM (fun _ i =>
          let* b := idx_get (tdata beat) i in
          let* e := idx_get (tdata expected) i in
          guard (b =? e) (FFatal "byte mismatch") (Ok tt))
        tt (seq 0 (zn (axis_getTotalByteSize expected))) in
      Ok (S expectedBeat))))
  end.

Definition checkNatOutboundPacket (packetBytes : list Z) : res unit :=
  guard (24 <=? length packetBytes)%nat (FFatal "NAT output packet too short") (
  let* srcIp := readBe32 packetBytes 12 in
  let* srcPort := readBe16 packetBytes 20 in
  guard (srcIp =? ck_natPublicIp c) (FFatal "NAT src IP mismatch") (
  guard (negb ((srcPort <? ck_natBasePort c) || (u16 (ck_natBasePort c + ck_natPortCount c) <=? srcPort)))
    (FFatal "NAT src port outside expected range") (Ok tt))).

Definition checkPacket (packetBytes : list Z) : res unit :=
  guard (ck_validationSkipBytes c <=? length packetBytes)%nat (FFatal "validation skip exceeds packet size") (
  let* v := validateIpv4Packet (drop (ck_validationSkipBytes c) packetBytes)
              (ck_validateIpv4Checksum c) (ck_validateL4Checksum c) in
  guard (fst v) (FFatal "invalid IPv4 packet") (
  match ck_mode c with NatOutbound => checkNatOutboundPacket packetBytes | _ => Ok tt end)).

Definition acceptBeat (now : Z) (beat : axisData) (s : checker) : res checker :=
  guard (keepIsPrefix (tkeep beat) (ck_dataWidthBits c)) (FFatal "non-prefix TKEEP") (
  let* expected := match ck_mode c with
                   | Exact => checkExactBeat (ck_expectedBeat s) beat
                   | _ => guard (negb (ck_checkTdest c && negb (tdest beat =? ck_expectedTdest c)))
                            (FFatal "TDEST mismatch") (Ok (ck_expectedBeat s))
                   end in
  let validBytes := axis_getTotalByteSize beat in
  guard (validBytes <=? nz (length (tdata beat))) (FFatal "beat reports more bytes than TDATA holds") (
  let bytes := ck_packetBytes s ++ take (zn validBytes) (tdata beat) in
  let s := set_ck bytes (ck_packetsReceived s) (u64 (ck_beatsReceived s + 1)) (u64 (ck_bytesReceived s + validBytes))
             (if ck_sawBeat s then ck_firstBeatTick s else now) now true expected s in
  if tlast beat then
    let* _ := checkPacket bytes in
    Ok (set_ck [] (u32 (ck_packetsReceived s + 1)) (ck_beatsReceived s) (ck_bytesReceived s) (ck_firstBeatTick s)
          (ck_lastBeatTick s) (ck_sawBeat s) (ck_expectedBeat s) s)
  else Ok s)).

Definition checker_update (now portID : Z) (st : State) (s : checker) : res checker :=
  guard (portID =? 0) (FPanic "AxisPacketCheckerSink::update invalid portID") (
  let* d := master_in "AxisPacketCheckerSink::update expected axisMasterState" st in
  Ok (mk_checker (ck_current s) (ck_roll c (ck_draws s) <? ck_readyPercent c) d (S (ck_draws s)) (ck_packetBytes s)
        (ck_packetsReceived s) (ck_beatsReceived s) (ck_bytesReceived s) (ck_firstBeatTick s) (ck_lastBeatTick s)
        (ck_sawBeat s) (ck_expectedBeat s))).

Definition checker_getCurrentState (portID : Z) (s : checker) : res State :=
  guard (portID =? 0) (FPanic "AxisPacketCheckerSink::getCurrentState invalid portID") (Ok (slave_wires (ck_current s))).

Definition checker_tick (now cd : Z) (s : checker) : res (bool * checker) :=
  if match ck_clockDomains c with [] => true | d :: _ => cd =? d end then
    let* s := if ck_current s && tvalid (ck_masterIn s) then acceptBeat now (ck_masterIn s) s else Ok s in
    Ok (true, mk_checker (ck_next s) (ck_next s) (ck_masterIn s) (ck_draws s) (ck_packetBytes s) (ck_packetsReceived s)
                (ck_beatsReceived s) (ck_bytesReceived s) (ck_firstBeatTick s) (ck_lastBeatTick s) (ck_sawBeat s) (ck_expectedBeat s))
  else Ok (false, s).

Definition checker_done (s : checker) : bool := (ck_expectedPackets c =? 0) || (ck_expectedPackets c <=? ck_packetsReceived s).

#[export] Instance checker_node : NocNode checker := {|
  node_update := checker_update; getCurrentState := checker_getCurrentState; node_tick := checker_tick; node_done := checker_done
|}.
End Checker.

(** ** An endpoint of any of these classes *)

Inductive streamNode :=
| SinkNode (c : sinkCfg) (n : sink)
| FifoNode (c : fifoCfg) (n : fifoNode)
| ShimNode (c : shimCfg) (n : shim)
| CheckerNode (c : checkerCfg) (n : checker).

#[export] Instance stream_node : NocNode streamNode := {|
  node_update now portID st n := match n with
    | SinkNode c n => let* n := node_update (NocNode := sink_node c) now portID st n in Ok (SinkNode c n)
    | FifoNode c n => let* n := node_update (NocNode := fifo_node c) now portID st n in Ok (FifoNode c n)
    | ShimNode c n => let* n := node_update (NocNode := shim_node c) now portID st n in Ok (ShimNode c n)
    | CheckerNode c n => let* n := node_update (NocNode := checker_node c) now portID st n in Ok (CheckerNode c n)
    end;
  getCurrentState portID n := match n with
    | SinkNode c n => getCurrentState (NocNode := sink_node c) portID n
    | FifoNode c n => getCurrentState (NocNode := fifo_node c) portID n
    | ShimNode c n => getCurrentState (NocNode := shim_node c) portID n
    | CheckerNode c n => getCurrentState (NocNode := checker_node c) portID n
    end;
  node_tick now cd n := match n with
    | SinkNode c n => let* (b, n) := node_tick (NocNode := sink_node c) now cd n in Ok (b, SinkNode c n)
    | FifoNode c n => let* (b, n) := node_tick (NocNode := fifo_node c) now cd n in Ok (b, FifoNode c n)
    | ShimNode c n => let* (b, n) := node_tick (NocNode := shim_node c) now cd n in Ok (b, ShimNode c n)
    | CheckerNode c n => let* (b, n) := node_tick (NocNode := checker_node c) now cd n in Ok (b, CheckerNode c n)
    end;
  node_done n := match n with
    | SinkNode c n => node_done (NocNode := sink_node c) n
    | FifoNode c n => node_done (NocNode := fifo_node c) n
    | ShimNode c n => node_done (NocNode := shim_node c) n
    | CheckerNode c n => node_done (NocNode := checker_node c) n
    end
|}.
