(* ===== verification/NocNodesRun.v ===== *)
(** * Runs of the stream endpoints

    What the endpoints do with the beats they are handed, one cycle of both ports after the
    other.  The shim forwards every beat in order, keeps the AXI-Stream contract towards the
    next interface, and never blocks a beat longer than its pattern says. *)

From S2P Require Import Prelude AxiTypes AxisWriteBuffer AxisPacket Checkpoint AxiCheckpoint CdcQueue.
From S2P Require Import AxisHandler AxisContract AxisMasterIf NocNodes.

(** ** Beats and cycles *)

Lemma set_tvalid_same d : tvalid d = true -> set_tvalid true d = d.
Proof. destruct d. cbn. by intros ->. Qed.
Lemma offered_Some d x : offered d = Some x -> d = x /\ tvalid d = true.
Proof. unfold offered. destruct (tvalid d) eqn:E; [|done]. by intros [= <-]. Qed.
Lemma handed_valid l : Forall (fun d => tvalid d = true) (handed l).
Proof.
  unfold handed. induction l as [|[d t] l IH]; [constructor|]. cbn. apply Forall_app. split; [|done].
  destruct t; [|constructor]. unfold offered. destruct (tvalid d) eqn:E; [by apply Forall_singleton|constructor].
Qed.

Lemma stays_snoc_intro w l x : stays w l -> (forall d, (match last l with Some y => refused y | None => w end) = Some d -> x.1 = d) ->
  stays w (l ++ [x]).
Proof.
  revert w. induction l as [|y l IH]; intros w; cbn; [by intros _ H|]. intros [Hy Hl] Hx. split; [done|]. apply IH; [done|].
  rewrite last_cons in Hx. by destruct (last l).
Qed.
Lemma dest_stable_prefix o l1 l2 : l1 `prefix_of` l2 -> dest_stable o l2 -> dest_stable o l1.
Proof. intros [r ->]. rewrite dest_stable_app. by intros [? _]. Qed.

Lemma keeps_contract_prefix l x : keeps_contract (l ++ [x]) -> keeps_contract l.
Proof.
  intros [Hs Hd]. destruct (stays_snoc _ _ _ Hs) as [Hl Hx]. split; [done|]. eapply dest_stable_prefix; [|exact Hd].
  rewrite handed_snoc, last_snoc, <- app_assoc. apply prefix_app. destruct (last l) as [y|]; cbn; [|apply prefix_nil].
  destruct (refused y) as [d|] eqn:Er; cbn; [|apply prefix_nil]. rewrite <- (Hx d eq_refl) in *. unfold refused, offered in *.
  destruct (tvalid y.1) eqn:Ey, y.2; try done. injection Er as Er. rewrite <- Er, Ey. destruct x.2; cbn; by eexists.
Qed.

(** ** The shim *)

Section Shim.
Context (c : shimCfg) (d0 : axisData).
Hypothesis Hdepth : 1 <= sh_fifoDepth c < 2 ^ 32.
Implicit Types (s : shim) (lin lout : list cycle).

(** A cycle of the shim: both ports see their interfaces, then the shim is clocked. *)
Definition shim_cycle (now cd : Z) (d : axisData) (t : bool) (s : shim) : res (bool * shim) :=
  let* s := shim_update now 0 (master_wires d) s in
  let* s := shim_update now 1 (slave_wires t) s in
  shim_tick c now cd s.

(** [shim_reach s lin lout]: the cycles of the two ports. *)
Inductive shim_reach : shim -> list cycle -> list cycle -> Prop :=
| shr_init : shim_reach (shim_init d0) [] []
| shr_cycle s lin lout now cd d t s' :
    shim_reach s lin lout -> shim_cycle now cd d t s = Ok (true, s') ->
    shim_reach s' (lin ++ [(d, sh_slave s)]) (lout ++ [(sh_master s, t)]).

Record shim_inv s lin lout : Prop := {
  sv_flow : handed lin = handed lout ++ sh_fifo s;
  sv_front : offered (sh_master s) = head (sh_fifo s);
  sv_room : nz (length (sh_fifo s)) <= sh_fifoDepth c;
  sv_ready : sh_slave s = true -> nz (length (sh_fifo s)) < sh_fifoDepth c;
  sv_stays : stays None lout;
  sv_pending d : (match last lout with Some y => refused y | None => None end) = Some d -> sh_master s = d
}.

(** What one cycle does to the queue and the wires. *)
Lemma shim_cycle_eq now cd d t s :
  match sh_clockDomains c with [] => true | x :: _ => cd =? x end = true ->
  let out := tvalid (sh_master s) && t in
  let inp := tvalid d && sh_slave s in
  let q := (if out then tail (sh_fifo s) else sh_fifo s) in
  let q' := if inp then q ++ [set_tvalid true d] else q in
  (inp = true -> nz (length q) < sh_fifoDepth c) ->
  exists s', shim_cycle now cd d t s = Ok (true, s') /\ sh_fifo s' = q' /\
    sh_slave s' = inputPatternReady c (sh_activeCycles s) (sh_validGatedPhase s') && (u32 (nz (length q')) <? sh_fifoDepth c) /\
    sh_validGatedPhase s' = advanceInputPattern c (sh_validGatedPhase s) (tvalid d) /\
    sh_activeCycles s' = u64 (sh_activeCycles s + 1) /\
    sh_master s' = (match q' with
                    | x :: _ => if tvalid (sh_master s) && negb out then sh_master s else set_tvalid true x
                    | [] => if out then set_tvalid false (sh_master s) else sh_master s
                    end).
Proof.
  intros Hcd out inp q q' Hroom. unfold shim_cycle, shim_update. cbn [Z.eqb Pos.eqb rbind master_in slave_in st_body master_wires slave_wires new_State ams_data].
  unfold shim_tick. rewrite Hcd. cbn [sh_slave sh_master sh_masterIn sh_slaveIn sh_fifo sh_fifoMaxOccupancy sh_activeCycles
    sh_validGatedPhase sh_outputPacketsSeen sh_inCounters sh_outCounters sh_inMetrics sh_outMetrics sh_violation sh_inStability sh_outStability].
  destruct (checkStability now (sh_violation s) _ _ _ _ _) as [v ts]. destruct (checkStability now v _ _ _ _ _) as [v' os].
  fold out inp. fold q. assert (negb (inp && (sh_fifoDepth c <=? nz (length q))) = true) as ->.
  { destruct inp; [|done]. specialize (Hroom eq_refl). by rewrite (proj2 (Z.leb_gt _ _)) by lia. }
  cbn [guard]. fold q'. eexists. split; [reflexivity|]. cbn. split_and!; try done.
  destruct q' as [|x r]; [done|]. destruct out eqn:E; cbn [negb]; rewrite ?andb_true_r, ?andb_false_r; done.
Qed.

Lemma shim_domain now cd d t s s' : shim_cycle now cd d t s = Ok (true, s') ->
  match sh_clockDomains c with [] => true | x :: _ => cd =? x end = true.
Proof.
  intros E. unfold shim_cycle in E. apply rbind_Ok in E as (s1 & _ & E). apply rbind_Ok in E as (s2 & _ & E). unfold shim_tick in E.
  by destruct (match sh_clockDomains c with [] => true | x :: _ => cd =? x end).
Qed.

(** The beats of the queue, the one on the wires first. *)
Lemma shim_out s lin lout t : shim_inv s lin lout ->
  sh_fifo s = (if tvalid (sh_master s) && t then [sh_master s] else []) ++ (if tvalid (sh_master s) && t then tail (sh_fifo s) else sh_fifo s).
Proof.
  intros [_ Hf _ _ _ _]. unfold offered in Hf. destruct (tvalid (sh_master s)), t; try done. cbn. destruct (sh_fifo s) as [|x r]; [done|].
  by injection Hf as ->.
Qed.

Lemma shim_room s lin lout d t : shim_inv s lin lout -> tvalid d && sh_slave s = true ->
  nz (length (if tvalid (sh_master s) && t then tail (sh_fifo s) else sh_fifo s)) < sh_fifoDepth c.
Proof.
  intros Hi [_ Hr]%andb_prop. pose proof (sv_ready _ _ _ Hi Hr). pose proof (f_equal length (shim_out _ _ _ t Hi)) as Hl.
  rewrite length_app in Hl. lia.
Qed.

Lemma shim_inv_init : shim_inv (shim_init d0) [] [].
Proof using Hdepth. split; cbn; try done; lia. Qed.

Lemma shim_inv_cycle now cd d t s lin lout s' : shim_inv s lin lout -> shim_cycle now cd d t s = Ok (true, s') ->
  shim_inv s' (lin ++ [(d, sh_slave s)]) (lout ++ [(sh_master s, t)]).
Proof using Hdepth.
  intros Hi E. destruct (shim_cycle_eq now cd d t s (shim_domain _ _ _ _ _ _ E) (shim_room _ _ _ d t Hi)) as (s1 & E1 & Hq & Hs & _ & _ & Hm).
  rewrite E in E1. injection E1 as <-. pose proof (shim_out _ _ _ t Hi) as Ho. pose proof (shim_room _ _ _ d t Hi) as Hroom.
  set (out := tvalid (sh_master s) && t) in *. set (q := if out then tail (sh_fifo s) else sh_fifo s) in *.
  assert (Hflow : handed (lin ++ [(d, sh_slave s)]) = handed (lout ++ [(sh_master s, t)]) ++ sh_fifo s').
  { rewrite !handed_snoc, (sv_flow _ _ _ Hi), Ho, Hq, <- !app_assoc. cbn [fst snd]. f_equal. unfold out, offered.
    destruct (tvalid (sh_master s)), t, (tvalid d) eqn:Ed, (sh_slave s); cbn; rewrite ?app_nil_r, ?set_tvalid_same; done. }
  assert (Forall (fun x => tvalid x = true) (sh_fifo s')) as Hv.
  { pose proof (handed_valid (lin ++ [(d, sh_slave s)])) as H. rewrite Hflow in H. by apply Forall_app in H as [_ H]. }
  assert (Hlen : nz (length (sh_fifo s')) <= sh_fifoDepth c).
  { pose proof (sv_room _ _ _ Hi) as Hr. rewrite Ho, length_app in Hr. rewrite Hq. destruct (tvalid d && sh_slave s); [|lia].
    specialize (Hroom eq_refl). rewrite length_app. cbn. lia. }
  split; [done| |done| | |].
  - rewrite Hm. rewrite <- Hq. destruct (sh_fifo s') as [|x r] eqn:Es.
    + unfold out, offered. destruct (tvalid (sh_master s)) eqn:Et, t; cbn; rewrite ?Et; try done. exfalso.
      unfold q in Hq. pose proof (sv_front _ _ _ Hi) as Hf. unfold out, offered in *. rewrite Et in *. cbn in Hq. destruct (sh_fifo s); [done|]. destruct (tvalid d && sh_slave s); done.
    + apply Forall_cons in Hv as [Hx _]. rewrite set_tvalid_same by done. destruct (tvalid (sh_master s) && negb out) eqn:Ek; [|unfold offered; by rewrite Hx].
      apply andb_prop in Ek as [Et Ek]. pose proof (sv_front _ _ _ Hi) as Hf. rewrite Hf. unfold q in Hq.
      destruct out; [done|]. unfold offered in Hf. rewrite Et in Hf. destruct (sh_fifo s) as [|y l]; [done|]. cbn.
      destruct (tvalid d && sh_slave s); cbn in Hq; by simplify_eq.
  - intros Hr. rewrite Hs in Hr. apply andb_prop in Hr as [_ Hr]. apply Z.ltb_lt in Hr. rewrite <- Hq, u32_small in Hr by lia. lia.
  - apply stays_snoc_intro; [apply Hi|]. intros x Hx. by apply Hi.
  - intros x. rewrite last_snoc. unfold refused. cbn [fst snd]. destruct (tvalid (sh_master s)) eqn:Et, t; try done. cbn. intros [= <-].
    rewrite Hm. unfold out. cbn. pose proof (sv_front _ _ _ Hi) as Hf. unfold offered in Hf. rewrite Et in Hf.
    unfold q, out. cbn. destruct (sh_fifo s); [done|]. by destruct (tvalid d && sh_slave s).
Qed.

Lemma shim_reach_inv s lin lout : shim_reach s lin lout -> shim_inv s lin lout.
Proof using Hdepth. induction 1; [apply shim_inv_init|by eapply shim_inv_cycle]. Qed.

Lemma shim_contract s lin lout t : shim_inv s lin lout -> dest_stable None (handed lin) -> keeps_contract (lout ++ [(sh_master s, t)]).
Proof.
  intros Hi Hd. split; [apply stays_snoc_intro; [apply Hi|]; intros x Hx; by apply Hi|].
  eapply dest_stable_prefix; [|exact Hd]. rewrite (sv_flow _ _ _ Hi), last_snoc, handed_snoc, <- app_assoc. apply prefix_app. cbn.
  pose proof (sv_front _ _ _ Hi) as Hf. unfold refused, offered in *. cbn [fst snd].
  destruct (tvalid (sh_master s)), t; cbn; try apply prefix_nil.
  all: destruct (sh_fifo s) as [|x r]; [done|]; injection Hf as ->; by exists r.
Qed.

(** C14: the shim forwards a stream.  In every run the beats taken on the input are those handed
    over on the output followed by those in the queue, in order, and the queue is within its
    depth; no cycle fails, so no beat is accepted without room; and if TDEST is stable within
    the packets of the input, the output keeps the AXI-Stream contract, whatever the receiver
    does. *)
Theorem shim_forwards s lin lout : shim_reach s lin lout ->
  handed lin = handed lout ++ sh_fifo s /\ nz (length (sh_fifo s)) <= sh_fifoDepth c /\
  (forall now cd d t, match sh_clockDomains c with [] => true | x :: _ => cd =? x end = true ->
    exists s', shim_cycle now cd d t s = Ok (true, s')) /\
  (forall t, dest_stable None (handed lin) -> keeps_contract (lout ++ [(sh_master s, t)])).
Proof using Hdepth.
  intros Hr. apply shim_reach_inv in Hr as Hi. split_and!; [apply Hi|apply Hi| |].
  - intros now cd d t Hcd. destruct (shim_cycle_eq now cd d t s Hcd (shim_room _ _ _ d t Hi)) as (s' & E & _). by exists s'.
  - intros t. by apply (shim_contract _ lin).
Qed.

(** *** The stability monitor *)

Definition tracks (t : StabilityTracker) (w : option axisData) : Prop :=
  match w with
  | Some d => tr_stalled t = true /\ axisEqual d (tr_beat t) = None
  | None => tr_stalled t = false
  end.

Lemma axisEqual_refl d : axisEqual d d = None.
Proof. unfold axisEqual. by rewrite !eqb_reflx, bool_decide_true, !Z.eqb_refl. Qed.

(** A side that keeps its beat is not blamed, and the tracker remembers a refused beat. *)
Lemma checkStability_step now t w d ready side : tracks t w -> (forall x, w = Some x -> tvalid x = true) ->
  match checkStability now None t (tvalid d) ready d side with
  | (None, t') => tracks t' (refused (d, ready))
  | (Some (_, _, side'), _) => side' = side /\ ~ (forall x, w = Some x -> d = x)
  end.
Proof.
  intros Ht Hv. unfold checkStability, refused. cbn [fst snd]. destruct w as [x|]; cbn in Ht.
  - destruct Ht as [Ht Hx]. rewrite Ht. destruct (tvalid d) eqn:Ed; cbn [negb].
    + destruct (axisEqual d (tr_beat t)) as [sig|] eqn:Es; [|destruct ready; cbn; [done|by split]]. split; [done|].
      intros H. rewrite (H x eq_refl), Hx in Es. done.
    + split; [done|]. intros H. specialize (Hv x eq_refl). rewrite (H x eq_refl) in Ed. congruence.
  - rewrite Ht. destruct (tvalid d), ready; cbn; try done. split; [done|apply axisEqual_refl].
Qed.

Lemma shim_cycle_stability now cd d t s s' : shim_cycle now cd d t s = Ok (true, s') ->
  let r1 := checkStability now (sh_violation s) (sh_inStability s) (tvalid d) (sh_slave s) d "dma_to_shim" in
  let r2 := checkStability now r1.1 (sh_outStability s) (tvalid (sh_master s)) t (sh_master s) "shim_to_checker" in
  sh_violation s' = r2.1 /\ sh_inStability s' = r1.2 /\ sh_outStability s' = r2.2.
Proof.
  intros E. pose proof (shim_domain _ _ _ _ _ _ E) as Hcd. unfold shim_cycle, shim_update in E.
  cbn [Z.eqb Pos.eqb rbind master_in slave_in st_body master_wires slave_wires new_State ams_data] in E. unfold shim_tick in E. rewrite Hcd in E.
  cbn [sh_slave sh_master sh_masterIn sh_slaveIn sh_fifo sh_violation sh_inStability sh_outStability] in E.
  destruct (checkStability now (sh_violation s) _ _ _ _ _) as [v ts]. cbn [fst snd]. destruct (checkStability now v _ _ _ _ _) as [v' os].
  apply guard_Ok in E as [_ [= <-]]. done.
Qed.

Definition blames s lin lout : Prop :=
  match sh_violation s with
  | Some (_, _, side) => side = "dma_to_shim"%string /\ ~ stays None lin
  | None => tracks (sh_inStability s) (pending lin) /\ tracks (sh_outStability s) (pending lout)
  end.

Lemma pending_valid l x : pending l = Some x -> tvalid x = true.
Proof. unfold pending, refused. destruct (last l) as [y|]; [|done]. destruct (tvalid y.1) eqn:E, y.2; try done. cbn. by intros [= <-]. Qed.

Lemma shim_blames s lin lout : shim_reach s lin lout -> blames s lin lout.
Proof using Hdepth.
  induction 1 as [|s lin lout now cd d t s' Hr IH E]; [done|]. apply shim_reach_inv in Hr.
  apply shim_cycle_stability in E as (Hv & Hin & Hout). unfold blames in *. rewrite Hv, Hin, Hout. clear Hv Hin Hout.
  assert (Hstay : stays None (lin ++ [(d, sh_slave s)]) -> stays None lin /\ forall x, pending lin = Some x -> d = x) by apply stays_snoc.
  destruct (sh_violation s) as [[[tk sg] side]|].
  - cbn. destruct IH as [H1 H2]. split; [done|]. intros H3. by apply H2, Hstay.
  - destruct IH as [H1 H2]. pose proof (checkStability_step now _ _ d (sh_slave s) "dma_to_shim" H1 (pending_valid lin)) as G1.
    destruct (checkStability now None (sh_inStability s) _ _ _ _) as [[[[tk sg] side]|] ts]; cbn [fst snd].
    + destruct G1 as [-> G1]. split; [done|]. intros H3. by apply G1, Hstay.
    + pose proof (checkStability_step now _ _ (sh_master s) t "shim_to_checker" H2 (pending_valid lout)) as G2.
      destruct (checkStability now None (sh_outStability s) _ _ _ _) as [[[[tk sg] side]|] os]; cbn [fst snd].
      * destruct G2 as [_ []]. intros x Hx. by apply (sv_pending _ _ _ Hr).
      * unfold pending. by rewrite !last_snoc.
Qed.

(** The shim's stability monitor blames the sender only, and only for a contract it broke:
    a recorded violation is of the input side, and then a refused beat was withdrawn or
    changed. *)
Theorem shim_blames_sender s lin lout tk sg side : shim_reach s lin lout -> sh_violation s = Some (tk, sg, side) ->
  side = "dma_to_shim"%string /\ ~ stays None lin.
Proof using Hdepth. intros Hr Hv. apply shim_blames in Hr. unfold blames in Hr. by rewrite Hv in Hr. Qed.

(** *** The back-pressure pattern *)

Hypothesis Hperiod : 1 <= sh_period c < 2 ^ 32.
Hypothesis Hallow : 1 <= sh_allow c <= sh_period c.

(** [n] cycles in which a valid beat is refused although the receiver is ready. *)
Inductive shim_waits : nat -> shim -> shim -> Prop :=
| sw_none s : shim_waits 0 s s
| sw_more n s s1 now cd d s2 :
    shim_waits n s s1 -> tvalid d = true -> sh_slave s1 = false -> shim_cycle now cd d true s1 = Ok (true, s2) ->
    shim_waits (S n) s s2.

Lemma residues_below a p w (k : nat) : 0 < p -> 1 <= w -> (forall i, (i < k)%nat -> w <= (a + nz i) mod p) -> nz k <= Z.max 0 (p - w).
Proof.
  intros Hp Hw H. destruct (Z.le_gt_cases (nz k) (Z.max 0 (p - w))) as [|Hk]; [done|]. exfalso.
  pose proof (H 0%nat ltac:(lia)) as H0. rewrite Z.add_0_r in H0. pose proof (Z.mod_pos_bound a p Hp).
  specialize (H (zn (p - a mod p)) ltac:(lia)). rewrite Z2Nat.id in H by lia.
  replace (a + (p - a mod p)) with (0 + (a / p + 1) * p) in H by (pose proof (Z.div_mod a p); lia).
  rewrite Z.mod_add in H by lia. rewrite Z.mod_0_l in H; lia.
Qed.

(** The phase the pattern has reached after [n] more valid beats. *)
Definition phase_after (p0 : Z) (n : nat) : Z := if validGatedBackpressure c && negb (no_pattern c) then (p0 + nz n) mod sh_period c else p0.

Lemma phase_step p0 n : 0 <= p0 -> advanceInputPattern c (phase_after p0 n) true = phase_after p0 (S n).
Proof using Hperiod.
  intros H0. unfold advanceInputPattern, phase_after. destruct (validGatedBackpressure c), (no_pattern c); cbn [negb orb andb]; try done.
  pose proof (Z.mod_pos_bound (p0 + nz n) (sh_period c) ltac:(lia)). rewrite u32_small by lia.
  rewrite Z.add_mod_idemp_l by lia. f_equal. lia.
Qed.

Lemma shim_reach_pattern s lin lout : shim_reach s lin lout -> 0 <= sh_validGatedPhase s < sh_period c /\ 0 <= sh_activeCycles s < 2 ^ 64.
Proof using Hdepth Hperiod.
  induction 1 as [|s lin lout now cd d t s' Hr [IH1 IH2] E]; [cbn; lia|]. apply shim_reach_inv in Hr as Hi.
  destruct (shim_cycle_eq now cd d t s (shim_domain _ _ _ _ _ _ E) (shim_room _ _ _ d t Hi)) as (s1 & E1 & _ & _ & Hp & Ha & _).
  rewrite E in E1. injection E1 as <-. rewrite Hp, Ha. split; [|apply u64_range]. unfold advanceInputPattern.
  destruct (_ || _ || _); [done|]. apply Z.mod_pos_bound. lia.
Qed.

Lemma phase_0 p0 : 0 <= p0 < sh_period c -> phase_after p0 0 = p0.
Proof. intros H. unfold phase_after. destruct (_ && _); [|done]. rewrite Z.add_0_r. by apply Z.mod_small. Qed.

(** The waiting cycles saw a pattern that was not ready. *)
Lemma shim_waits_pattern n s s' lin lout : shim_waits n s s' -> shim_reach s lin lout -> sh_activeCycles s + nz n < 2 ^ 64 ->
  (exists lin' lout', shim_reach s' lin' lout') /\
  sh_activeCycles s' = sh_activeCycles s + nz n /\ sh_validGatedPhase s' = phase_after (sh_validGatedPhase s) n /\
  (forall i, (S i < n)%nat -> inputPatternReady c (sh_activeCycles s + nz i) (phase_after (sh_validGatedPhase s) (S i)) = false) /\
  ((0 < n)%nat -> sh_slave s' = inputPatternReady c (sh_activeCycles s + nz (pred n)) (sh_validGatedPhase s')).
Proof using Hdepth Hperiod.
  induction 1 as [s|n s s1 now cd d s2 Hw IH Hd Hs E]; intros Hr Hb.
  { destruct (shim_reach_pattern _ _ _ Hr) as [H1 _]. split_and!; [by eexists _, _|lia|by rewrite phase_0|intros; lia|lia]. }
  destruct (shim_reach_pattern _ _ _ Hr) as [Hph Hac].
  destruct (IH Hr ltac:(lia)) as ((lin' & lout' & Hr1) & Ha & Hp & Hall & Hlast). clear IH.
  apply shim_reach_inv in Hr1 as Hi. assert (tvalid d && sh_slave s1 = false) as Hno by (by rewrite Hs, andb_false_r).
  destruct (shim_cycle_eq now cd d true s1 (shim_domain _ _ _ _ _ _ E) (shim_room _ _ _ d true Hi)) as (s3 & E3 & Hq & Hsl & Hp3 & Ha3 & _).
  rewrite E in E3. injection E3 as <-. rewrite Hno, Hd in *. rewrite Hp, phase_step in Hp3 by lia. rewrite Ha, u64_small in Ha3 by lia.
  split_and!; [by eexists _, _; eapply shr_cycle|lia|done| |].
  - intros i Hin. destruct (decide (S i = n)) as [<-|]; [|apply Hall; lia]. specialize (Hlast ltac:(lia)). rewrite Hs, Hp in Hlast. done.
  - intros _. rewrite Hsl, Ha. change (pred (S n)) with n. rewrite (proj2 (Z.ltb_lt _ _)); [by rewrite andb_true_r|].
    pose proof (shim_out _ _ _ true Hi) as Ho. pose proof (sv_front _ _ _ Hi) as Hf. pose proof (sv_room _ _ _ Hi) as Hroom.
    unfold offered in Hf. destruct (tvalid (sh_master s1)); cbn in Ho |- *.
    + rewrite Ho in Hroom. cbn in Hroom. rewrite u32_small; lia.
    + destruct (sh_fifo s1); [cbn; rewrite u32_small; lia|done].
Qed.

(** The shim does not block a stream longer than its pattern.  While the receiver is ready, a
    valid beat is refused in at most [period - allow + 1] cycles in a row, for the free-running
    and for the valid-gated pattern. *)
Theorem shim_bounded_wait n s s' lin lout : shim_reach s lin lout -> shim_waits n s s' -> sh_activeCycles s + nz n < 2 ^ 64 ->
  nz n <= sh_period c - sh_allow c + 1.
Proof using Hdepth Hperiod Hallow.
  intros Hr Hw Hb. destruct (shim_waits_pattern _ _ _ _ _ Hw Hr Hb) as (_ & _ & _ & Hall & _).
  destruct n as [|[|n]]; [lia|lia|]. assert (Hall' : forall i, (i < S n)%nat -> inputPatternReady c (sh_activeCycles s + nz i)
    (phase_after (sh_validGatedPhase s) (S i)) = false) by (intros; apply Hall; lia).
  unfold inputPatternReady, patternReady, phase_after in Hall'. destruct (no_pattern c).
  { specialize (Hall' 0%nat ltac:(lia)). done. }
  cbn [orb negb] in Hall'. rewrite andb_true_r in Hall'. destruct (validGatedBackpressure c); cbn in Hall'.
  - pose proof (residues_below (sh_validGatedPhase s + 1) (sh_period c) (sh_allow c) (S n)) as H.
    rewrite Z.max_r in H by lia. enough (nz (S n) <= sh_period c - sh_allow c) by lia. apply H; [lia|lia|].
    intros i Hi. specialize (Hall' i Hi). apply Z.ltb_ge in Hall'. replace (sh_validGatedPhase s + 1 + nz i) with (sh_validGatedPhase s + nz (S i)) by lia. exact Hall'.
  - pose proof (residues_below (sh_activeCycles s) (sh_period c) (sh_allow c) (S n)) as H.
    rewrite Z.max_r in H by lia. enough (nz (S n) <= sh_period c - sh_allow c) by lia. apply H; [lia|lia|].
    intros i Hi. specialize (Hall' i Hi). by apply Z.ltb_ge in Hall'.
Qed.
End Shim.
