(* ===== verification/CheckerRun.v ===== *)
(** * Runs of the packet checker

    What [AxisPacketCheckerSink] accepts is what it says: in exact mode the expected beats in
    order, and in every mode only packets that validate.  It accepts every stream that
    [buildAxisPacketStream] makes. *)

From S2P Require Import Prelude AxiTypes AxisWriteBuffer AxisDepack AxisPacket Checkpoint AxiCheckpoint CdcQueue.
From S2P Require Import AxisHandler AxisContract AxisMasterIf NocNodes NocNodesRun.

(** ** The bytes of a beat *)

Definition lanes (b : axisData) : list Z := take (zn (axis_getTotalByteSize b)) (tdata b).

Lemma keepScan_closed keep a m : keepScan keep true (seq a m) = true -> filter (fun i : nat => Is_true (Z.testbit keep (nz i))) (seq a m) = [].
Proof.
  revert a. induction m as [|m IH]; intros a; cbn [seq keepScan]; [done|]. rewrite filter_cons. destruct (Z.testbit keep (nz a)); [done|].
  intros H. rewrite decide_False by (cbn; tauto). by apply IH.
Qed.
Lemma keepScan_open keep a m : keepScan keep false (seq a m) = true ->
  exists k, (k <= m)%nat /\ filter (fun i : nat => Is_true (Z.testbit keep (nz i))) (seq a m) = seq a k.
Proof.
  revert a. induction m as [|m IH]; intros a; cbn [seq keepScan]; [by exists 0%nat|]. rewrite filter_cons. destruct (Z.testbit keep (nz a)).
  - cbn [negb andb]. intros H. destruct (IH _ H) as (k & Hk & E). exists (S k). split; [lia|]. rewrite decide_True by done. cbn [seq]. by rewrite E.
  - intros H. exists 0%nat. split; [lia|]. rewrite decide_False by (cbn; tauto). by apply keepScan_closed.
Qed.
Lemma keepScan_prefix keep n z a m : (forall i, (a <= i < a + m)%nat -> Z.testbit keep (nz i) = (nz i <? n)) -> (z = true -> n <= nz a) ->
  keepScan keep z (seq a m) = true.
Proof.
  revert z a. induction m as [|m IH]; intros z a Hb Hz; [done|]. cbn [seq keepScan]. rewrite Hb by lia.
  destruct (Z.ltb_spec (nz a) n) as [Hlt|Hge].
  - destruct z; [specialize (Hz eq_refl); lia|]. cbn. apply IH; [|done]. intros; apply Hb; lia.
  - apply IH; [intros; apply Hb; lia|]. lia.
Qed.

(** The bytes the checker appends are those TKEEP selects. *)
Lemma lanes_kept b : axis_wf b -> keepIsPrefix (tkeep b) (DATA_WIDTH b) = true -> lanes b = kept_bytes b.
Proof.
  intros (Hw & Hl & _) Hk. unfold keepIsPrefix in Hk. apply keepScan_open in Hk as (k & Hk & E).
  unfold lanes. rewrite axis_getTotalByteSize_kept by lia. unfold kept_bytes. rewrite E, length_fmap, length_seq, Nat2Z.id.
  symmetry. apply fmap_byte_at_seq. lia.
Qed.

(** ** Packets of a stream of beats *)

(** The packets that are closed by TLAST, and the bytes after the last one. *)
Definition add_beat (x : list (list Z) * list Z) (b : axisData) : list (list Z) * list Z :=
  if tlast b then (x.1 ++ [x.2 ++ lanes b], []) else (x.1, x.2 ++ lanes b).
Definition packets_of (bs : list axisData) : list (list Z) * list Z := foldl add_beat ([], []) bs.
Lemma packets_of_snoc bs b : packets_of (bs ++ [b]) = add_beat (packets_of bs) b.
Proof. unfold packets_of. by rewrite foldl_app. Qed.

(** ** The checker *)

Section Checker.
Context (c : checkerCfg) (d0 : axisData).
Implicit Types (s : checker) (l : list cycle).

Definition checker_cycle (now cd : Z) (d : axisData) (s : checker) : res (bool * checker) :=
  let* s := checker_update c now 0 (master_wires d) s in checker_tick c now cd s.
Inductive checker_reach : checker -> list cycle -> Prop :=
| ckr_init : checker_reach (checker_init d0) []
| ckr_cycle s l now cd d s' :
    checker_reach s l -> checker_cycle now cd d s = Ok (true, s') -> checker_reach s' (l ++ [(d, ck_current s)]).

(** The beats agree in every signal the checker compares. *)
Definition same_beat (b e : axisData) : Prop :=
  tkeep b = tkeep e /\ tlast b = tlast e /\ tid b = tid e /\ tdest b = tdest e /\ tuser b = tuser e /\
  take (zn (axis_getTotalByteSize e)) (tdata b) = take (zn (axis_getTotalByteSize e)) (tdata e).

(** What the checker has accepted against its counters. *)
Record checked s (bs : list axisData) : Prop := {
  cd_open : ck_packetBytes s = (packets_of bs).2;
  cd_closed : Forall (fun p => checkPacket c p = Ok tt) (packets_of bs).1;
  cd_packets : ck_packetsReceived s = u32 (nz (length (packets_of bs).1));
  cd_beats : ck_beatsReceived s = u64 (nz (length bs));
  cd_bytes : ck_bytesReceived s = u64 (sumZ (axis_getTotalByteSize <$> bs));
  cd_keep : Forall (fun b => keepIsPrefix (tkeep b) (ck_dataWidthBits c) = true) bs;
  cd_exact : ck_mode c = Exact -> ck_expectedBeat s = length bs /\ (length bs <= length (ck_expectedStream c))%nat /\
    Forall2 same_beat bs (take (length bs) (ck_expectedStream c))
}.

Lemma same_bytes b e n : foldM (fun (_ : unit) i => let* x := idx_get (tdata b) i in let* y := idx_get (tdata e) i in
    guard (x =? y) (FFatal "byte mismatch") (Ok tt)) tt (seq 0 n) = Ok tt -> take n (tdata b) = take n (tdata e).
Proof.
  induction n as [|n IH]; [done|]. rewrite seq_S, foldM_app. intros E. apply rbind_Ok in E as ([] & E1 & E). cbn [foldM Nat.add] in E.
  apply rbind_Ok in E as (u & E & _). apply rbind_Ok in E as (x & Ex & E). apply rbind_Ok in E as (y & Ey & E). apply guard_Ok in E as [E _].
  apply Z.eqb_eq in E as ->. apply of_opt_Ok in Ex, Ey. rewrite !(take_S_r _ _ y), IH; done.
Qed.

Lemma checkExactBeat_same k b k' : checkExactBeat c k b = Ok k' -> k' = S k /\ exists e, ck_expectedStream c !! k = Some e /\ same_beat b e.
Proof.
  unfold checkExactBeat. destruct (ck_expectedStream c !! k) as [e|]; [|done]. intros E. apply guard_Ok in E as [E1 E], E as [E2 E], E as [E3 E].
  apply rbind_Ok in E as ([] & E4 & [= <-]). split; [done|]. exists e. split; [done|].
  apply andb_prop in E3 as [E3 E5]. apply andb_prop in E3 as [E3 E6]. apply Z.eqb_eq in E1, E3, E5, E6. apply eqb_prop in E2.
  unfold same_beat. split_and!; try done. by apply same_bytes.
Qed.

Lemma u32_add_1 x : u32 (u32 x + 1) = u32 (x + 1).
Proof. unfold u32. by rewrite Z.add_mod_idemp_l. Qed.
Lemma u64_add_l x y : u64 (u64 x + y) = u64 (x + y).
Proof. unfold u64. by rewrite Z.add_mod_idemp_l. Qed.

Lemma acceptBeat_checked now b s s' bs : checked s bs -> acceptBeat c now b s = Ok s' -> checked s' (bs ++ [b]) /\
  ck_current s' = ck_current s /\ ck_next s' = ck_next s /\ ck_masterIn s' = ck_masterIn s /\ ck_draws s' = ck_draws s.
Proof.
  intros [H1 H2 H3 H4 H5 H6 H7] E. unfold acceptBeat in E. apply guard_Ok in E as [Hk E]. apply rbind_Ok in E as (k & Ek & E).
  apply guard_Ok in E as [_ E]. fold (lanes b) in E.
  assert (Hexact : ck_mode c = Exact -> k = length (bs ++ [b]) /\ (length (bs ++ [b]) <= length (ck_expectedStream c))%nat /\
    Forall2 same_beat (bs ++ [b]) (take (length (bs ++ [b])) (ck_expectedStream c))).
  { intros Hm. rewrite Hm in Ek. destruct (H7 Hm) as (Hb & _ & Hall). rewrite Hb in Ek. apply checkExactBeat_same in Ek as (-> & e & He & Hs).
    rewrite length_app, Nat.add_1_r. split; [done|]. split; [by apply lookup_lt_Some in He|]. rewrite (take_S_r _ _ _ He).
    apply Forall2_app; [done|by constructor]. }
  assert (Hcount : forall st, ck_beatsReceived st = u64 (ck_beatsReceived s + 1) ->
    ck_bytesReceived st = u64 (ck_bytesReceived s + axis_getTotalByteSize b) ->
    ck_beatsReceived st = u64 (nz (length (bs ++ [b]))) /\ ck_bytesReceived st = u64 (sumZ (axis_getTotalByteSize <$> (bs ++ [b])))).
  { intros st -> ->. rewrite H4, H5, !u64_add_l, length_app, fmap_app, sumZ_app. cbn. split; f_equal; lia. }
  assert (Forall (fun x => keepIsPrefix (tkeep x) (ck_dataWidthBits c) = true) (bs ++ [b])) as Hkeep
    by (apply Forall_app; split; [done|by apply Forall_singleton]).
  destruct (tlast b) eqn:Et.
  - apply rbind_Ok in E as ([] & Ep & [= <-]). split; [|done].
    edestruct Hcount as [Hc1 Hc2]; [..|split; try eassumption]; try reflexivity; rewrite packets_of_snoc; unfold add_beat; rewrite Et; cbn [fst snd].
    + done.
    + apply Forall_app. split; [done|]. apply Forall_singleton. by rewrite <- H1.
    + cbn. rewrite H3, u32_add_1, length_app. cbn. f_equal. lia.
  - injection E as <-. split; [|done].
    edestruct Hcount as [Hc1 Hc2]; [..|split; try eassumption]; try reflexivity; rewrite packets_of_snoc; unfold add_beat; rewrite Et; cbn [fst snd].
    + cbn. by rewrite H1.
    + done.
    + done.
Qed.

Lemma checker_reach_checked s l : checker_reach s l -> checked s (handed l).
Proof.
  induction 1 as [|s l now cd d s' _ IH E]; [split; try done; intros _; split_and!; [done|cbn; lia|constructor]|].
  unfold checker_cycle, checker_update in E. cbn [Z.eqb guard rbind master_in st_body master_wires new_State ams_data] in E.
  unfold checker_tick in E. destruct (match ck_clockDomains c with [] => true | x :: _ => cd =? x end); [|done]. apply rbind_Ok in E as (s1 & E & [= <-]).
  cbn [ck_current ck_masterIn] in E. rewrite handed_snoc. cbn [fst snd]. unfold offered.
  assert (Hmove : forall st bs, checked st bs -> forall a e m dr, checked (mk_checker a e m dr (ck_packetBytes st) (ck_packetsReceived st)
    (ck_beatsReceived st) (ck_bytesReceived st) (ck_firstBeatTick st) (ck_lastBeatTick st) (ck_sawBeat st) (ck_expectedBeat st)) bs)
    by (intros st bs [] a e m dr; by split).
  destruct (ck_current s); cbn [andb] in E; [|injection E as <-; rewrite app_nil_r; by apply (Hmove _ _ IH)].
  destruct (tvalid d); [|injection E as <-; rewrite app_nil_r; by apply (Hmove _ _ IH)].
  eapply acceptBeat_checked in E as [E _]; [|by apply (Hmove _ _ IH)]. by apply Hmove.
Qed.

(** C39: the packet checker is sound.  In a run without failure every packet received validated,
    with the configured checksums; the counters of packets, beats and bytes are the numbers
    received, at their widths of 32, 64 and 64 bits; and in exact mode the beats received
    are the first beats of the expected stream, equal in TKEEP, TLAST, TID, TDEST, TUSER and in
    every byte. *)
Theorem checker_sound s l : checker_reach s l ->
  Forall (fun p => exists r, validateIpv4Packet (drop (ck_validationSkipBytes c) p) (ck_validateIpv4Checksum c) (ck_validateL4Checksum c)
    = Ok (true, r)) (packets_of (handed l)).1 /\
  ck_packetsReceived s = u32 (nz (length (packets_of (handed l)).1)) /\
  ck_beatsReceived s = u64 (nz (length (handed l))) /\
  ck_bytesReceived s = u64 (sumZ (axis_getTotalByteSize <$> handed l)) /\
  (ck_mode c = Exact -> Forall2 same_beat (handed l) (take (length (handed l)) (ck_expectedStream c))).
Proof.
  intros Hr. apply checker_reach_checked in Hr as [_ H2 H3 H4 H5 _ H7]. split_and!; [|done..|intros Hm; by apply H7].
  eapply Forall_impl; [exact H2|]. cbn. intros p E. unfold checkPacket in E. apply guard_Ok in E as [_ E].
  apply rbind_Ok in E as ([ok r] & E & E2). apply guard_Ok in E2 as [E2 _]. cbn in E2. subst ok. by exists r.
Qed.

(** *** Streams that pass *)

(** A beat whose bytes are all in TDATA, lowest lanes first. *)
Definition fine (b : axisData) : Prop :=
  keepIsPrefix (tkeep b) (ck_dataWidthBits c) = true /\ 0 <= axis_getTotalByteSize b <= nz (length (tdata b)).
(** The rest of a stream when [cur] bytes of a packet are there. *)
Fixpoint passes (cur : list Z) (bs : list axisData) : Prop :=
  match bs with
  | [] => True
  | b :: bs => fine b /\ if tlast b then checkPacket c (cur ++ lanes b) = Ok tt /\ passes [] bs else passes (cur ++ lanes b) bs
  end.

Lemma passes_packet cur bs rest : bs <> [] -> Forall fine bs -> tlast <$> bs = flags_end (length bs) true ->
  checkPacket c (cur ++ concat (lanes <$> bs)) = Ok tt -> passes [] rest -> passes cur (bs ++ rest).
Proof.
  intros Hne Hf. revert cur Hne. induction Hf as [|b bs Hb Hf IH]; intros cur Hne Ht Hc Hrest; [done|]. cbn [app passes]. split; [done|].
  unfold flags_end in Ht. destruct bs as [|b' bs].
  - cbn in Ht. injection Ht as ->. cbn in Hc. rewrite app_nil_r in Hc. done.
  - cbn in Ht. injection Ht as -> Ht. rewrite fmap_cons in Hc. cbn [concat] in Hc. rewrite app_assoc in Hc.
    apply IH; [done| |done|done]. cbn. rewrite Nat.sub_0_r. exact Ht.
Qed.

Lemma own_bytes b n : (n <= length (tdata b))%nat -> foldM (fun (_ : unit) i => let* x := idx_get (tdata b) i in let* y := idx_get (tdata b) i in
    guard (x =? y) (FFatal "byte mismatch") (Ok tt)) tt (seq 0 n) = Ok tt.
Proof.
  induction n as [|n IH]; [done|]. intros Hn. rewrite seq_S, foldM_app, IH by lia. cbn [rbind foldM Nat.add]. unfold idx_get.
  destruct (lookup_lt_is_Some_2 (tdata b) n ltac:(lia)) as [x ->]. cbn. by rewrite Z.eqb_refl.
Qed.

Lemma acceptBeat_passes now b bs s : ck_mode c = Exact -> drop (ck_expectedBeat s) (ck_expectedStream c) = b :: bs ->
  passes (ck_packetBytes s) (b :: bs) -> exists s', acceptBeat c now b s = Ok s' /\
    drop (ck_expectedBeat s') (ck_expectedStream c) = bs /\ passes (ck_packetBytes s') bs /\ ck_next s' = ck_next s.
Proof.
  intros Hm Hd [[Hk Hb] Hp]. assert (ck_expectedStream c !! ck_expectedBeat s = Some b) as He.
  { rewrite <- (Nat.add_0_r (ck_expectedBeat s)), <- lookup_drop, Hd. done. }
  assert (drop (S (ck_expectedBeat s)) (ck_expectedStream c) = bs) as Hd'.
  { rewrite <- Nat.add_1_r, <- drop_drop, Hd. done. }
  unfold acceptBeat. rewrite Hk, Hm. cbn [guard]. unfold checkExactBeat. rewrite He, !Z.eqb_refl, eqb_reflx. cbn [guard andb].
  rewrite own_bytes by lia. cbn [rbind]. rewrite (proj2 (Z.leb_le _ _)) by lia. cbn [guard]. fold (lanes b). destruct (tlast b).
  - destruct Hp as [-> Hp]. cbn [rbind]. by eexists.
  - by eexists.
Qed.

(** The checker at the start of, or inside, a stream that passes. *)
Lemma checker_cycle_passes now cd d s bs : ck_mode c = Exact -> match ck_clockDomains c with [] => true | x :: _ => cd =? x end = true ->
  drop (ck_expectedBeat s) (ck_expectedStream c) = bs -> passes (ck_packetBytes s) bs ->
  (ck_current s = true -> tvalid d = true -> head bs = Some d) ->
  exists s', checker_cycle now cd d s = Ok (true, s') /\
    drop (ck_expectedBeat s') (ck_expectedStream c) = (if ck_current s && tvalid d then tail bs else bs) /\
    passes (ck_packetBytes s') (if ck_current s && tvalid d then tail bs else bs).
Proof.
  intros Hm Hcd Hd Hp Hh. unfold checker_cycle, checker_update. cbn [Z.eqb guard rbind master_in st_body master_wires new_State ams_data].
  unfold checker_tick. rewrite Hcd. cbn [ck_current ck_masterIn]. destruct (ck_current s) eqn:Ec; cbn [andb]; [|by eexists].
  destruct (tvalid d) eqn:Ed; [|by eexists]. destruct bs as [|b bs]; [by specialize (Hh eq_refl eq_refl)|].
  assert (b = d) as -> by (specialize (Hh eq_refl eq_refl); by injection Hh).
  edestruct acceptBeat_passes as (s' & -> & H1 & H2 & _); [exact Hm| | |]; [exact Hd|exact Hp|]. cbn [rbind]. by eexists.
Qed.
End Checker.

(** ** The streams of the generator *)

Lemma validate_weaker p a b r : validateIpv4Packet p true true = Ok (true, r) -> exists r', validateIpv4Packet p a b = Ok (true, r').
Proof.
  unfold validateIpv4Packet. destruct (_ <? _)%nat; [done|]. destruct (idx_get p 0) as [b0|]; [|done]. cbn [rbind].
  destruct (_ || _); [done|]. destruct (_ <? _)%nat; [done|]. destruct (readBe16 p 2) as [len|]; [|done]. cbn [rbind].
  destruct (negb _); [done|]. destruct (internetChecksum _) as [sum|]; [|done]. cbn [rbind andb].
  destruct (negb (sum =? 0)) eqn:Es; [done|]. destruct (idx_get p 9) as [proto|] eqn:E9; [|done]. cbn [rbind].
  intros H. replace (let* ipSum := if a then Ok sum else Ok 0 in if a && negb (ipSum =? 0) then vfail "invalid IPv4 header checksum" else _) with
    (if proto =? 17 then validateUdp p (zn (Z.land b0 15 * 4)) (length p - zn (Z.land b0 15 * 4)) b
     else if proto =? 6 then validateTcp p (zn (Z.land b0 15 * 4)) (length p - zn (Z.land b0 15 * 4)) b else vfail "unsupported IPv4 protocol")
    by (destruct a; cbn [rbind andb]; rewrite ?Es; done).
  destruct (proto =? 17); [|destruct (proto =? 6); [|discriminate H]].
  - unfold validateUdp in *. destruct (_ <? _)%nat; [done|]. destruct (readBe16 p _) as [ul|]; [|discriminate H]. cbn [rbind] in *. destruct (negb (ul =? _)); [done|].
    destruct (l4Checksum _ _ _ _) as [us|]; [|discriminate H]. cbn [rbind] in *. destruct (readBe16 p _) as [fl|]; [|discriminate H]. cbn [rbind andb] in H.
    destruct b; cbn [rbind andb]; [|by eexists]. destruct (_ && _); [discriminate H|by eexists].
  - unfold validateTcp in *. destruct (_ <? _)%nat; [done|]. destruct (idx_get p (_ + 12)) as [off|]; [|discriminate H]. cbn [rbind] in *. destruct (_ || _); [discriminate H|].
    destruct (l4Checksum _ _ _ _) as [us|]; [|discriminate H]. cbn [rbind andb] in *. destruct b; cbn [andb]; [|by eexists]. destruct (checksumBad us); [discriminate H|by eexists].
Qed.

Section Generated.
Context (c : checkerCfg) (d0 : axisData) (profile : Profile) (fc dw idw dstw i d u srcIp dstIp srcPort dstPort : Z)
  (prefixBytes : nat) (prefixValue : Z) (sizes : list nat).
Hypothesis Hdw : 0 < dw <= 512.
Hypothesis Hmod : dw mod 8 = 0.
Hypothesis Hwidth : ck_dataWidthBits c = dw.
Hypothesis Hmode : ck_mode c = Exact.
Hypothesis Hskip : ck_validationSkipBytes c = prefixBytes.

#[local] Abbreviation round := (streamRound profile fc dw idw dstw i d u srcIp dstIp srcPort dstPort false false prefixBytes prefixValue).

Lemma beatsFrom_beats fuel packet off beats : beatsFrom fuel packet dw idw dstw i d u off = Ok beats ->
  Forall (fun b => exists o, b = packetBeat packet dw idw dstw i d u o) beats.
Proof.
  revert off beats. induction fuel as [|fuel IH]; intros off beats; cbn [beatsFrom]; (destruct (_ <=? _)%nat; [by intros [= <-]|]); [done|].
  intros E. apply rbind_Ok in E as (rest & E & [= <-]). constructor; [by eexists|by eapply IH].
Qed.

Lemma packetBeat_fine packet o : fine c (packetBeat packet dw idw dstw i d u o).
Proof using Hdw Hmod Hwidth Hskip.
  pose proof (packetBeat_wf packet dw idw dstw i d u Hdw o) as Hwf. destruct Hwf as (Hw & Hl & _). split.
  - unfold keepIsPrefix. rewrite Hwidth. cbn [tkeep packetBeat]. rewrite prefixKeep_valid. apply (keepScan_prefix _ (nz (Nat.min (zn (dw / 8)) (length packet - o)))); [|done].
    intros k Hk. clear -Hdw Hmod Hk. apply tkeepForValidBytes_bits; mlia.
  - rewrite axis_getTotalByteSize_kept by done. split; [lia|]. rewrite Hl. unfold kept_bytes. rewrite length_fmap.
    etrans; [apply Nat2Z.inj_le, length_filter|]. by rewrite length_seq.
Qed.

Lemma withPrefix_drop packet : (prefixBytes <= length (withPrefix prefixBytes prefixValue packet))%nat /\
  drop prefixBytes (withPrefix prefixBytes prefixValue packet) = packet.
Proof.
  unfold withPrefix. destruct (Nat.ltb_spec 0 prefixBytes) as [H|H].
  - rewrite length_app, length_fmap, length_seq. split; [lia|]. apply drop_app_length'. by rewrite length_fmap, length_seq.
  - replace prefixBytes with 0%nat by lia. split; [lia|done].
Qed.

Lemma round_passes k n bs : round k n = Ok bs ->
  bs <> [] /\ Forall (fine c) bs /\ tlast <$> bs = flags_end (length bs) true /\ checkPacket c (concat (lanes <$> bs)) = Ok tt.
Proof using Hdw Hmod Hwidth Hmode Hskip.
  unfold streamRound. intros E. apply guard_Ok in E as [_ E]. apply rbind_Ok in E as (packet & Ep & E).
  assert (nz (20 + (if isTcp profile (nz k) then 20 else 8) + n) <= 65535) as Hmax.
  { unfold buildIpv4Packet in Ep. apply guard_Ok in Ep as [H _]. by apply Z.leb_le in H. }
  destruct (built_packet_spec profile (nz k) fc n srcIp dstIp srcPort dstPort false false Hmax) as (clean & p & Ec & Hv & _).
  rewrite Ep in Ec. injection Ec as <-. destruct (withPrefix_drop packet) as [Hlen Hdrop].
  assert (packet <> []) as Hne by (intros ->; discriminate Hv).
  assert (withPrefix prefixBytes prefixValue packet <> []) as Hne'.
  { intros E'. rewrite E' in Hdrop. rewrite drop_nil in Hdrop. by subst packet. }
  destruct (packetToAxisBeats_roundtrip _ dw idw dstw i d u Hdw Hmod Hne') as (beats & Eb & Hb & Hall & Hfl).
  rewrite Eb in E. injection E as <-. unfold packetToAxisBeats in Eb. apply guard_Ok in Eb as [_ Eb]. apply guard_Ok in Eb as [_ Eb].
  apply beatsFrom_beats in Eb. assert (Forall (fine c) beats) as Hfine.
  { eapply Forall_impl; [exact Eb|]. intros b (o & ->). apply packetBeat_fine. }
  assert (lanes <$> beats = kept_bytes <$> beats) as El.
  { clear -Hall Hfine Hwidth. induction Hall as [|b bs (Hwf & Hw & _) _ IH]; [done|]. apply Forall_cons in Hfine as [[Hk _] Hf].
    rewrite !fmap_cons, (IH Hf), lanes_kept; [done|done|]. by rewrite Hw, <- Hwidth. }
  split_and!; [intros ->; done|done|done|]. rewrite El, Hb. unfold checkPacket. rewrite Hskip, Hdrop, (proj2 (Nat.leb_le _ _)) by done. cbn [guard].
  destruct (validate_weaker _ (ck_validateIpv4Checksum c) (ck_validateL4Checksum c) _ Hv) as [r ->]. cbn [rbind fst guard]. by rewrite Hmode.
Qed.

Lemma rounds_pass l bss : mapM (fun '(k, n) => round k n) l = Ok bss ->
  passes c [] (concat bss) /\ length (packets_of (concat bss)).1 = length l.
Proof using Hdw Hmod Hwidth Hmode Hskip.
  assert (Hfold : forall bs x, bs <> [] -> tlast <$> bs = flags_end (length bs) true -> foldl add_beat x bs = (x.1 ++ [x.2 ++ concat (lanes <$> bs)], [])).
  { induction bs as [|b bs IH]; intros x Hne Ht; [done|]. cbn [foldl]. unfold flags_end in Ht. destruct bs as [|b' bs].
    - cbn in Ht. injection Ht as Ht. unfold add_beat. rewrite Ht. cbn. by rewrite app_nil_r.
    - cbn in Ht. injection Ht as Hb Ht. rewrite IH; [|done|cbn; by rewrite Nat.sub_0_r]. unfold add_beat. rewrite Hb. cbn. by rewrite <- app_assoc. }
  unfold packets_of. enough (forall x, mapM (fun '(k, n) => round k n) l = Ok bss -> passes c [] (concat bss) /\
    length (foldl add_beat (x, []) (concat bss)).1 = (length x + length l)%nat) as H by exact (H []).
  revert bss. induction l as [|[k n] l IH]; intros bss x; cbn [mapM].
  - intros [= <-]. cbn. by rewrite Nat.add_0_r.
  - intros E. apply rbind_Ok in E as (bs & E & E2). apply rbind_Ok in E2 as (rest & E2 & [= <-]). apply round_passes in E as (H1 & H2 & H3 & H4).
    cbn [concat length]. rewrite foldl_app, (Hfold bs) by done. cbn [fst snd]. destruct (IH rest (x ++ [[] ++ concat (lanes <$> bs)]) E2) as [P1 P2].
    split; [by apply passes_packet|]. rewrite P2, length_app. cbn. lia.
Qed.

(** A run that was handed a prefix of the stream. *)
Lemma checker_reach_passes s l : passes c [] (ck_expectedStream c) -> checker_reach c d0 s l -> handed l `prefix_of` ck_expectedStream c ->
  passes c (ck_packetBytes s) (drop (length (handed l)) (ck_expectedStream c)).
Proof using Hmode.
  intros Hp. induction 1 as [|s l now cd d' s' Hr IH E]; intros Hpre; [done|]. rewrite handed_snoc in Hpre |- *. cbn [fst snd] in *.
  specialize (IH (prefix_app_l _ _ _ Hpre)). pose proof (checker_reach_checked _ _ _ _ Hr) as [_ _ _ _ _ _ H7]. destruct (H7 Hmode) as (He & _ & _).
  assert (Hcd : match ck_clockDomains c with [] => true | x :: _ => cd =? x end = true).
  { unfold checker_cycle in E. apply rbind_Ok in E as (s1 & _ & E). unfold checker_tick in E. by destruct (match ck_clockDomains c with [] => true | x :: _ => cd =? x end). }
  destruct (checker_cycle_passes c now cd d' s (drop (length (handed l)) (ck_expectedStream c)) Hmode Hcd ltac:(by rewrite He) IH) as (s1 & E1 & _ & H2).
  - intros Hc Hv. rewrite Hc in Hpre. unfold offered in Hpre. rewrite Hv in Hpre. destruct Hpre as [r ->]. cbn [option_list].
    rewrite <- app_assoc, drop_app_length. done.
  - rewrite E in E1. injection E1 as <-. unfold offered. destruct (ck_current s), (tvalid d'); cbn [andb option_list] in *; rewrite ?app_nil_r; try done.
    rewrite length_app. cbn [length]. rewrite <- drop_drop. by destruct (drop (length (handed l)) (ck_expectedStream c)).
Qed.

(** The checker accepts what the generator makes.  If the expected stream is one that
    [buildAxisPacketStream] builds, with any packet sizes, ports, prefix and checksum options,
    then a sink that is handed the beats of that stream in order never fails, and after the last
    one it has counted all the packets. *)
Theorem checker_accepts_generated s l now cd b :
  buildStreamWith profile fc dw idw dstw i d u srcIp dstIp srcPort dstPort false false prefixBytes prefixValue sizes = Ok (ck_expectedStream c) ->
  checker_reach c d0 s l -> handed l `prefix_of` ck_expectedStream c ->
  (handed l = ck_expectedStream c -> ck_packetsReceived s = u32 (nz (length sizes))) /\
  (match ck_clockDomains c with [] => true | x :: _ => cd =? x end = true ->
   (ck_current s = true -> tvalid b = true -> ck_expectedStream c !! length (handed l) = Some b) ->
   exists s', checker_cycle c now cd b s = Ok (true, s')).
Proof using Hdw Hmod Hwidth Hmode Hskip.
  intros Hb Hr Hpre. unfold buildStreamWith in Hb. apply rbind_Ok in Hb as (bss & Hb & [= Hs]). apply rounds_pass in Hb as [Hp Hlen].
  rewrite Hs in Hp, Hlen. pose proof (checker_reach_passes s l Hp Hr Hpre) as Hpass. pose proof (checker_reach_checked _ _ _ _ Hr) as [_ _ H3 _ _ _ H7].
  split.
  - intros E. rewrite H3, E, Hlen, length_zip_with, length_seq, Nat.min_id. done.
  - intros Hcd Hnext. destruct (H7 Hmode) as (He & _ & _).
    destruct (checker_cycle_passes c now cd b s (drop (length (handed l)) (ck_expectedStream c)) Hmode Hcd ltac:(by rewrite He) Hpass) as (s1 & E1 & _); [|by exists s1].
    intros H1 H2. specialize (Hnext H1 H2). rewrite <- (Nat.add_0_r (length (handed l))), <- lookup_drop in Hnext. by destruct (drop _ _).
Qed.
End Generated.
