(* ===== verification/Control.v ===== *)
(** * The scheduler

    [Control] of [src/src/noc/core/control/Control.cc]: on the clock of a domain it passes
    states between the interfaces and the endpoints of that domain, clocks the endpoints and
    commits the interfaces; on the clock of the network it also moves beats between the
    crossing queues and the message buffers, for all interfaces.

    The interfaces are AXI-Stream interfaces, each with the message buffer and, for a master,
    the master unit it talks to; between ticks the network changes those two. *)

From S2P Require Import Prelude AxiTypes AxisWriteBuffer NppReceive Flit SNmu MsgBuffer SNsu AxisPacket.
From S2P Require Import Checkpoint AxiCheckpoint CdcQueue AxisHandler NocNodes.

(** An interface with its surroundings. *)
Record endpoint := mk_endpoint {
  ep_cfg : axisIfCfg;
  ep_if : nocIf;
  ep_q : mbuf (M := beatMsg);
  ep_nmu : sNmu
}.
Definition put_if (i : nocIf) (e : endpoint) : endpoint := mk_endpoint (ep_cfg e) i (ep_q e) (ep_nmu e).

(** [NocInterface::nodeSideUpdate] and [nocSideUpdate]; an AXI-Stream interface has one
    channel, whose direction is that of its role. *)
Definition nodeSideUpdate (now : Z) (input : State) (e : endpoint) : res endpoint :=
  match ac_role (ep_cfg e) with
  | Slave => let* i := nodeSideIn (ep_cfg e) now input (ep_if e) (ep_q e) in Ok (put_if i e)
  | Master => let* (i, _) := nodeSideOut now input (ep_if e) in Ok (put_if i e)
  end.
Definition nocSideUpdate (now edge : Z) (random : option Z) (e : endpoint) : res endpoint :=
  match ac_role (ep_cfg e) with
  | Slave => let* (i, q) := nocSideIn (ep_cfg e) now (ep_if e) (ep_q e) in Ok (mk_endpoint (ep_cfg e) i q (ep_nmu e))
  | Master => let* (i, q, u) := nocSideOut (ep_cfg e) now edge random (ep_if e) (ep_q e) (ep_nmu e) in
              Ok (mk_endpoint (ep_cfg e) i q u)
  end.

Record Connection := mk_Connection { cn_if : nat; cn_node : nat; cn_port : Z; cn_domain : Z }.
Record DirectConnection := mk_DirectConnection {
  dc_source : nat; dc_target : nat; dc_sourcePort : Z; dc_targetPort : Z; dc_domain : Z
}.

Record controlCfg := mk_controlCfg {
  connections : list Connection;
  directConnections : list DirectConnection;
  nocClockDomainMhz : Z;
  simCycles : Z;
  sim_Frequency : Z;
  (* [clockEdge()] of an interface, and the random delay of its messages, at a tick *)
  clock_edge : nat -> Z -> Z;
  random_delay : nat -> Z -> option Z
}.

Record control (N : Type) := mk_control {
  nocInterfaces : list endpoint;
  nodes : list N;
  nodeDone : list bool
}.
Arguments mk_control {N}.
Arguments nocInterfaces {N}.
Arguments nodes {N}.
Arguments nodeDone {N}.

(** Element [k] of a list is replaced. *)
Definition at_index {A} (k : nat) (f : A -> res A) (l : list A) : res (list A) :=
  let* a := of_opt (FUndef "vector index out of range") (l !! k) in
  let* a := f a in Ok (<[k := a]> l).
Definition index {A} (k : nat) (l : list A) : res A := of_opt (FUndef "vector index out of range") (l !! k).

Section Control.
Context {N : Type} `{!NocNode N} (c : controlCfg).
Implicit Types (ifs : list endpoint) (ns : list N).

Definition in_clock (cd : Z) : list Connection := filter (fun x => cn_domain x = cd) (connections c).
Definition direct_in_clock (cd : Z) : list DirectConnection := filter (fun x => dc_domain x = cd) (directConnections c).

(** The interfaces see the current states of the endpoints, *)
Definition update_interfaces (now : Z) ns ifs (l : list Connection) : res (list endpoint) :=
  foldM (fun ifs x => at_index (cn_if x) (fun e =>
    let* n := index (cn_node x) ns in
    let* st := getCurrentState (cn_port x) n in
    nodeSideUpdate now st e) ifs) ifs l.
(** the endpoints those of the interfaces, *)
Definition update_nodes (now : Z) ifs ns (l : list Connection) : res (list N) :=
  foldM (fun ns x => at_index (cn_node x) (fun n =>
    let* e := index (cn_if x) ifs in
    node_update now (cn_port x) (currentState (ep_if e)) n) ns) ns l.
(** and directly connected endpoints each other's. *)
Definition update_direct (now : Z) ns (l : list DirectConnection) : res (list N) :=
  foldM (fun ns x =>
    let* target := index (dc_target x) ns in
    let* st := getCurrentState (dc_targetPort x) target in
    let* ns := at_index (dc_source x) (node_update now (dc_sourcePort x) st) ns in
    let* source := index (dc_source x) ns in
    let* st := getCurrentState (dc_sourcePort x) source in
    at_index (dc_target x) (node_update now (dc_targetPort x) st) ns) ns l.

(** [nodesToTick], each once in the order they are met. *)
Definition note_node (l : list nat) (n : nat) : list nat := if bool_decide (n ∈ l) then l else l ++ [n].
Definition nodesToTick (cd : Z) : list nat :=
  foldl note_node (foldl note_node [] (cn_node <$> in_clock cd))
    (concat ((fun x => [dc_source x; dc_target x]) <$> direct_in_clock cd)).
Definition tick_nodes (now cd : Z) ns (l : list nat) : res (list N) :=
  foldM (fun ns k => at_index k (fun n => let* (_, n) := node_tick now cd n in Ok n) ns) ns l.

(** Interfaces commit on the clock of their endpoint, and all of them on that of the network. *)
Definition tick_if (e : endpoint) : endpoint := put_if (if_tick (ep_if e)) e.
Definition commit_endpoints (cd : Z) ifs : res (list endpoint) :=
  if cd =? nocClockDomainMhz c then Ok ifs
  else foldM (fun ifs x => at_index (cn_if x) (fun e => Ok (tick_if e)) ifs) ifs (in_clock cd).
Definition commit_network (now cd : Z) ifs : res (list endpoint) :=
  if cd =? nocClockDomainMhz c
  then foldM (fun ifs k => at_index k (fun e =>
         let* e := nocSideUpdate now (clock_edge c k now) (random_delay c k now) e in Ok (tick_if e)) ifs)
         ifs (seq 0 (length ifs))
  else Ok ifs.

(** The states of a tick. *)
Definition tick_states (now cd : Z) (s : control N) : res (list endpoint * list N) :=
  let* ifs := update_interfaces now (nodes s) (nocInterfaces s) (in_clock cd) in
  let* ns := update_nodes now ifs (nodes s) (in_clock cd) in
  let* ns := update_direct now ns (direct_in_clock cd) in
  let* ns := tick_nodes now cd ns (nodesToTick cd) in
  let* ifs := commit_endpoints cd ifs in
  let* ifs := commit_network now cd ifs in
  Ok (ifs, ns).

Definition ALL_DONE : string := "Reads and writes completed".
Definition OUT_OF_TIME : string := "Network Tester completed simCycles".

(** [Control::tick]: the new state, the calls of [exitSimLoop], and the tick at which the event
    of this domain is scheduled again. *)
Definition control_tick (now cd : Z) (s : control N) : res (control N * list string * option Z) :=
  let* (ifs, ns) := tick_states now cd s in
  let finished := if forallb id (nodeDone s) then nodeDone s
                  else zip_with (fun d n => d || node_done n) (nodeDone s) ns in
  let exits := (if forallb id finished then [ALL_DONE] else []) ++ (if simCycles c <=? now then [OUT_OF_TIME] else []) in
  let mhz := u64 (cd * 1000000) in
  guard (negb (forallb id finished) || (0 <? length ifs)%nat) (FUndef "vector index out of range") (
  guard ((simCycles c <=? now) || negb (mhz =? 0)) (FUndef "division by zero") (
  Ok (mk_control ifs ns finished, exits, if simCycles c <=? now then None else Some (now + sim_Frequency c / mhz)))).

Lemma control_tick_states now cd s s' exits next : control_tick now cd s = Ok (s', exits, next) ->
  tick_states now cd s = Ok (nocInterfaces s', nodes s').
Proof.
  unfold control_tick. intros E. apply rbind_Ok in E as ([ifs ns] & E & H). by apply guard_Ok in H as [_ [_ [= <- _ _]]%guard_Ok].
Qed.
End Control.
