(* ===== verification/ControlRun.v ===== *)
(** * Runs of the scheduler

    A run of [Control] is, for each interface, a run of that interface with the cycles its
    endpoint saw; and for a shim between two interfaces a run of the shim with the same cycles.
    So what the theorems on interfaces and endpoints say holds of the composed system. *)

From S2P Require Import Prelude AxiTypes AxisWriteBuffer NppReceive Flit SNmu MsgBuffer SNsu AxisPacket.
From S2P Require Import Checkpoint AxiCheckpoint CdcQueue AxisHandler AxisContract AxisSlaveIf AxisMasterIf NocNodes NocNodesRun CheckerRun Control.

(** ** Loops that update elements of a list *)

Section Loops.
Context {X A : Type} (g : X -> nat) (h : X -> A -> res A).
#[local] Abbreviation loop l0 xs := (foldM (fun l x => at_index (g x) (h x) l) l0 xs).

Lemma at_index_Ok k f (l l' : list A) : at_index k f l = Ok l' -> exists a a', l !! k = Some a /\ f a = Ok a' /\ l' = <[k := a']> l.
Proof.
  unfold at_index. intros E. apply rbind_Ok in E as (a & Ea & E). apply rbind_Ok in E as (a' & E & [= <-]). apply of_opt_Ok in Ea. by exists a, a'.
Qed.

Lemma loop_length xs l l' : loop l xs = Ok l' -> length l' = length l.
Proof.
  revert l. induction xs as [|x xs IH]; intros l; cbn [foldM]; [by intros [= <-]|]. intros E. apply rbind_Ok in E as (l1 & E1 & E).
  apply at_index_Ok in E1 as (a & a' & _ & _ & ->). rewrite (IH _ E). apply length_insert.
Qed.

(** Element [k] goes through the steps of its own. *)
Lemma loop_at xs l l' k a : loop l xs = Ok l' -> l !! k = Some a ->
  exists a', l' !! k = Some a' /\ foldM (fun a x => h x a) a (filter (fun x => g x = k) xs) = Ok a'.
Proof.
  revert l a. induction xs as [|x xs IH]; intros l a; cbn [foldM]; [intros [= <-] Ha; by exists a|].
  intros E Ha. apply rbind_Ok in E as (l1 & E1 & E). apply at_index_Ok in E1 as (b & b' & Hb & Hf & ->). rewrite filter_cons. case_decide as Ek.
  - subst k. rewrite Hb in Ha. injection Ha as <-. destruct (IH _ b' E) as (a' & H1 & H2).
    { rewrite list_lookup_insert_eq by by eapply lookup_lt_Some. done. }
    exists a'. split; [done|]. cbn [foldM]. by rewrite Hf.
  - destruct (IH _ a E) as (a' & H1 & H2); [by rewrite list_lookup_insert_ne|]. by exists a'.
Qed.
End Loops.

Lemma note_node_in l k n : k ∈ note_node l n <-> k ∈ l \/ k = n.
Proof. unfold note_node. destruct (bool_decide_reflect (n ∈ l)) as [H|H]; [|by rewrite elem_snoc]. split; [tauto|]. by intros [?| ->]. Qed.
Lemma note_node_nodup l n : NoDup l -> NoDup (note_node l n).
Proof.
  intros Hl. unfold note_node. destruct (bool_decide_reflect (n ∈ l)) as [H|H]; [done|]. apply NoDup_app. split_and!; [done| |apply NoDup_singleton].
  intros x Hx ->%list_elem_of_singleton. done.
Qed.
Lemma note_nodes l ns : (NoDup l -> NoDup (foldl note_node l ns)) /\ forall k, k ∈ foldl note_node l ns <-> k ∈ l \/ k ∈ ns.
Proof.
  revert l. induction ns as [|n ns IH]; intros l; cbn [foldl]; [split; [done|]; intros k; by rewrite elem_of_nil; tauto|].
  destruct (IH (note_node l n)) as [H1 H2]. split; [intros H; by apply H1, note_node_nodup|]. intros k. rewrite H2, note_node_in, elem_of_cons. tauto.
Qed.

(** ** Runs *)

Section Run.
Context {N : Type} `{!NocNode N} (c : controlCfg) (s0 : control N).
(** The interfaces are new, and each has at most one connection. *)
Hypothesis Hnew : Forall (fun e => ep_if e = nocIf_init (ep_cfg e)) (nocInterfaces s0).
Hypothesis Hone : NoDup (cn_if <$> connections c).
Implicit Types (s : control N) (log : nat -> list cycle) (mv : nat -> list beatMsg).

Definition data_of (st : State) : axisData :=
  match st_body st with SAxisMaster m => ams_data m | _ => axisData_of_width 512 6 4 end.
(** The cycle an interface and its endpoint, in state [st], go through. *)
Definition cycle_of (e : endpoint) (st : State) : cycle :=
  match ac_role (ep_cfg e) with
  | Slave => (data_of (currentState (ep_if e)), ready_of st)
  | Master => (data_of st, ready_of (currentState (ep_if e)))
  end.
Definition cycles_at (cd : Z) s (k : nat) : list cycle :=
  concat ((fun x => match nocInterfaces s !! k, nodes s !! cn_node x with
                    | Some e, Some n => match getCurrentState (cn_port x) n with Ok st => [cycle_of e st] | Err _ => [] end
                    | _, _ => []
                    end) <$> filter (fun x => cn_if x = k) (in_clock c cd)).

(** The endpoint of a connection is a slave to a slave interface and a master to a master. *)
Definition wired s : Prop := forall x e n st, x ∈ connections c -> nocInterfaces s !! cn_if x = Some e -> nodes s !! cn_node x = Some n ->
  getCurrentState (cn_port x) n = Ok st ->
  match ac_role (ep_cfg e) with Slave => exists t, st_body st = SAxisSlave t | Master => exists m, st_body st = SAxisMaster m end.

(** The messages that an interface took from its buffer, or put into it. *)
Definition moved (e e' : endpoint) (ms : list beatMsg) : Prop :=
  match ac_role (ep_cfg e) with
  | Slave => msgs_in (ep_q e) = ms ++ msgs_in (ep_q e')
  | Master => msgs_in (ep_q e') ≡ₚ msgs_in (ep_q e) ++ ms
  end.

(** [ctl_reach s log mv]: the cycles of the interfaces and the messages they moved.  Between
    ticks the network changes buffers and units. *)
Inductive ctl_reach : control N -> (nat -> list cycle) -> (nat -> list beatMsg) -> Prop :=
| ctl_start : ctl_reach s0 (fun _ => []) (fun _ => [])
| ctl_network s log mv ifs :
    ctl_reach s log mv -> Forall2 (fun e e' => ep_cfg e' = ep_cfg e /\ ep_if e' = ep_if e) (nocInterfaces s) ifs ->
    ctl_reach (mk_control ifs (nodes s) (nodeDone s)) log mv
| ctl_tick s log mv now cd s' exits next ms :
    ctl_reach s log mv -> wired s -> control_tick c now cd s = Ok (s', exits, next) ->
    (forall k e e', nocInterfaces s !! k = Some e -> nocInterfaces s' !! k = Some e' -> moved e e' (ms k)) ->
    ctl_reach s' (fun k => log k ++ cycles_at cd s k) (fun k => mv k ++ ms k).

(** The run of one interface. *)
Definition if_run (e : endpoint) (l : list cycle) (ms : list beatMsg) : Prop :=
  match ac_role (ep_cfg e) with
  | Slave => sif_reach (ep_cfg e) (ep_if e) ms (handed l)
  | Master => mif_reach (ep_cfg e) (ep_if e) l ms
  end.

(** An interface has one connection in a clock domain, or none. *)
Lemma own_connection cd k : filter (fun x => cn_if x = k) (in_clock c cd) = [] \/
  exists x, filter (fun x => cn_if x = k) (in_clock c cd) = [x] /\ x ∈ connections c /\ cn_if x = k.
Proof using Hone.
  unfold in_clock. clear -Hone. induction (connections c) as [|x l IH]; [by left|]. cbn in Hone. apply NoDup_cons in Hone as [Hx Hone].
  specialize (IH Hone). rewrite filter_cons. case_decide as Ed.
  - rewrite filter_cons. case_decide as Ek; [|destruct IH as [?|(y & ? & ? & ?)]; [by left|right; exists y; split_and!; [done|by right|done]]].
    right. exists x. split_and!; [|by left|done]. f_equal. destruct IH as [?|(y & _ & Hy & Eq)]; [done|].
    exfalso. apply Hx. rewrite Ek, <- Eq. by apply list_elem_of_fmap_2.
  - destruct IH as [?|(y & ? & ? & ?)]; [by left|right; exists y; split_and!; [done|by right|done]].
Qed.

(** What a tick does to interface [k]. *)
Record if_step (now cd : Z) s (k : nat) (e e1 e' : endpoint) : Prop := {
  is_node : match filter (fun x => cn_if x = k) (in_clock c cd) with
            | x :: _ => exists n st, nodes s !! cn_node x = Some n /\ getCurrentState (cn_port x) n = Ok st /\ nodeSideUpdate now st e = Ok e1
            | [] => e1 = e
            end;
  is_commit : if cd =? nocClockDomainMhz c
              then exists e2, nocSideUpdate now (clock_edge c k now) (random_delay c k now) e1 = Ok e2 /\ e' = tick_if e2
              else e' = match filter (fun x => cn_if x = k) (in_clock c cd) with _ :: _ => tick_if e1 | [] => e1 end
}.

Lemma tick_interface now cd s s' exits next k e : control_tick c now cd s = Ok (s', exits, next) -> nocInterfaces s !! k = Some e ->
  exists e1 e', nocInterfaces s' !! k = Some e' /\ if_step now cd s k e e1 e'.
Proof using Hone.
  intros E He. apply control_tick_states in E. destruct s' as [ifs' ns' fin']. cbn [nocInterfaces nodes] in *. unfold tick_states in E.
  apply rbind_Ok in E as (ifs1 & E1 & E). apply rbind_Ok in E as (ns1 & _ & E). apply rbind_Ok in E as (ns2 & _ & E).
  apply rbind_Ok in E as (ns3 & _ & E). apply rbind_Ok in E as (ifs2 & E2 & E). apply rbind_Ok in E as (ifs3 & E3 & [= <- <-]). cbn [nocInterfaces].
  destruct (loop_at cn_if _ _ _ _ k e E1 He) as (e1 & He1 & F1). exists e1. clear E1.
  assert (exists e2, ifs2 !! k = Some e2 /\ e2 = if cd =? nocClockDomainMhz c then e1 else
    match filter (fun x => cn_if x = k) (in_clock c cd) with _ :: _ => tick_if e1 | [] => e1 end) as (e2 & He2 & Hc2).
  { unfold commit_endpoints in E2. destruct (cd =? nocClockDomainMhz c); [injection E2 as <-; by exists e1|].
    destruct (loop_at cn_if _ _ _ _ k e1 E2 He1) as (e2 & He2 & F2). exists e2. split; [done|].
    destruct (own_connection cd k) as [H|(x & H & _)]; rewrite H in *; cbn in F2; by injection F2. }
  unfold commit_network in E3. destruct (cd =? nocClockDomainMhz c) eqn:Ed.
  - destruct (loop_at (fun k => k) _ _ _ _ k e2 E3 He2) as (e' & He' & F3). exists e'. split; [done|].
    assert (filter (fun x => x = k) (seq 0 (length ifs2)) = [k]) as Hk.
    { rewrite (filter_unique (fun x : nat => x) _ _ k); [by rewrite decide_True|rewrite list_fmap_id; apply NoDup_seq| |done].
      apply elem_of_seq. apply lookup_lt_Some in He2. lia. }
    rewrite Hk in F3. cbn [foldM] in F3. apply rbind_Ok in F3 as (e3 & F3 & [= ->]). apply rbind_Ok in F3 as (e4 & F3 & [= <-]). subst e2.
    split; [|rewrite Ed; by exists e4]. destruct (own_connection cd k) as [H|(x & H & _)]; rewrite H in *; cbn [foldM] in F1; [by injection F1|].
    apply rbind_Ok in F1 as (e5 & F1 & [= ->]). apply rbind_Ok in F1 as (n & Hn & F1). apply rbind_Ok in F1 as (st & Hst & F1).
    apply of_opt_Ok in Hn. by exists n, st.
  - injection E3 as <-. exists e2. split; [done|]. split; [|by rewrite Ed].
    destruct (own_connection cd k) as [H|(x & H & _)]; rewrite H in *; cbn [foldM] in F1; [by injection F1|].
    apply rbind_Ok in F1 as (e5 & F1 & [= ->]). apply rbind_Ok in F1 as (n & Hn & F1). apply rbind_Ok in F1 as (st & Hst & F1).
    apply of_opt_Ok in Hn. by exists n, st.
Qed.

Lemma driven_data_of st : driven st = offered (data_of st).
Proof. unfold driven, data_of. by destruct (st_body st). Qed.
Lemma nodeSideUpdate_keeps now st e e1 : nodeSideUpdate now st e = Ok e1 -> e1 = put_if (ep_if e1) e.
Proof.
  unfold nodeSideUpdate. destruct (ac_role _); intros E; [apply rbind_Ok in E as ([i x] & _ & [= <-])|apply rbind_Ok in E as (i & _ & [= <-])]; done.
Qed.
Lemma nocSideUpdate_keeps now edge random e e2 : nocSideUpdate now edge random e = Ok e2 -> ep_cfg e2 = ep_cfg e.
Proof.
  unfold nocSideUpdate. destruct (ac_role _); intros E; [apply rbind_Ok in E as ([[i q] u] & _ & [= <-])|apply rbind_Ok in E as ([i q] & _ & [= <-])]; done.
Qed.
Lemma moved_none e e' ms : ep_q e' = ep_q e -> moved e e' ms -> ms = [].
Proof.
  unfold moved. intros ->. destruct (ac_role (ep_cfg e)).
  - intros H. rewrite <- (app_nil_r (msgs_in (ep_q e))) in H at 1. apply Permutation_app_inv_l in H. by apply Permutation_nil in H.
  - intros H. apply (f_equal length) in H. rewrite length_app in H. apply nil_length_inv. lia.
Qed.

(** The node's side of a slave interface, then of a master interface. *)
Lemma slave_step now cd s k e e1 e' l ms0 ms : ac_role (ep_cfg e) = Slave -> if_run e l ms0 -> wired s -> nocInterfaces s !! k = Some e ->
  if_step now cd s k e e1 e' -> moved e e' ms -> if_run e' (l ++ cycles_at cd s k) (ms0 ++ ms) /\ ep_cfg e' = ep_cfg e.
Proof using Hone.
  intros Hrole Hr Hw He [Hn Hc] Hm. unfold if_run in *. rewrite Hrole in Hr. unfold cycles_at. destruct (own_connection cd k) as [Hx|(x & Hx & Hxc & Hxk)]; rewrite Hx in *.
  - subst e1. cbn [fmap list_fmap concat]. rewrite app_nil_r. destruct (cd =? nocClockDomainMhz c).
    + destruct Hc as (e2 & Hc & ->). pose proof (nocSideUpdate_keeps _ _ _ _ _ Hc) as Hk2. cbn. rewrite Hk2, Hrole. split; [|done].
      unfold nocSideUpdate in Hc. rewrite Hrole in Hc. apply rbind_Ok in Hc as ([i q] & Ei & [= <-]). unfold moved in Hm. rewrite Hrole in Hm.
      by eapply sif_noc.
    + subst e'. rewrite Hrole. apply moved_none in Hm as ->; [|done]. by rewrite app_nil_r.
  - destruct Hn as (n & st & Hnode & Hst & Hn). subst k. pose proof (Hw x e n st Hxc He Hnode Hst) as Ht. rewrite Hrole in Ht. destruct Ht as [t Ht].
    cbn [fmap list_fmap concat]. rewrite He, Hnode, Hst. cbn [app]. unfold cycle_of. rewrite Hrole, handed_snoc. cbn [fst snd]. rewrite <- driven_data_of.
    unfold nodeSideUpdate in Hn. rewrite Hrole in Hn. apply rbind_Ok in Hn as (i & Ei & [= <-]).
    assert (ready_of st = t) as -> by (unfold ready_of; by rewrite Ht).
    destruct (cd =? nocClockDomainMhz c).
    + destruct Hc as (e2 & Hc & ->). pose proof (nocSideUpdate_keeps _ _ _ _ _ Hc) as Hk2. cbn in Hk2 |- *. rewrite Hk2, Hrole. split; [|done].
      unfold nocSideUpdate in Hc. cbn in Hc. rewrite Hrole in Hc. apply rbind_Ok in Hc as ([i2 q] & Ei2 & [= <-]). unfold moved in Hm. rewrite Hrole in Hm.
      by eapply sif_both.
    + subst e'. cbn. rewrite Hrole. apply moved_none in Hm as ->; [|done]. rewrite app_nil_r. split; [|done]. by eapply sif_node.
Qed.
Lemma master_step now cd s k e e1 e' l ms0 ms : ac_role (ep_cfg e) = Master -> if_run e l ms0 -> wired s -> nocInterfaces s !! k = Some e ->
  if_step now cd s k e e1 e' -> moved e e' ms -> if_run e' (l ++ cycles_at cd s k) (ms0 ++ ms) /\ ep_cfg e' = ep_cfg e.
Proof using Hone.
  intros Hrole Hr Hw He [Hn Hc] Hm. unfold if_run in *. rewrite Hrole in Hr. unfold cycles_at. destruct (own_connection cd k) as [Hx|(x & Hx & Hxc & Hxk)]; rewrite Hx in *.
  - subst e1. cbn [fmap list_fmap concat]. rewrite app_nil_r. destruct (cd =? nocClockDomainMhz c).
    + destruct Hc as (e2 & Hc & ->). pose proof (nocSideUpdate_keeps _ _ _ _ _ Hc) as Hk2. cbn. rewrite Hk2, Hrole. split; [|done].
      unfold nocSideUpdate in Hc. rewrite Hrole in Hc. apply rbind_Ok in Hc as ([[i q] u] & Ei & [= <-]). unfold moved in Hm. rewrite Hrole in Hm.
      by eapply mif_noc.
    + subst e'. rewrite Hrole. apply moved_none in Hm as ->; [|done]. by rewrite app_nil_r.
  - destruct Hn as (n & st & Hnode & Hst & Hn). subst k. pose proof (Hw x e n st Hxc He Hnode Hst) as Ht. rewrite Hrole in Ht. destruct Ht as [m Ht].
    cbn [fmap list_fmap concat]. rewrite He, Hnode, Hst. cbn [app]. unfold cycle_of. rewrite Hrole.
    unfold nodeSideUpdate in Hn. rewrite Hrole in Hn. apply rbind_Ok in Hn as ([i st'] & Ei & [= <-]).
    assert (data_of st = ams_data m) as -> by (unfold data_of; by rewrite Ht).
    destruct (cd =? nocClockDomainMhz c).
    + destruct Hc as (e2 & Hc & ->). pose proof (nocSideUpdate_keeps _ _ _ _ _ Hc) as Hk2. cbn in Hk2 |- *. rewrite Hk2, Hrole. split; [|done].
      unfold nocSideUpdate in Hc. cbn in Hc. rewrite Hrole in Hc. apply rbind_Ok in Hc as ([[i2 q] u] & Ei2 & [= <-]). unfold moved in Hm. rewrite Hrole in Hm.
      by eapply mif_both.
    + subst e'. cbn. rewrite Hrole. apply moved_none in Hm as ->; [|done]. rewrite app_nil_r. split; [|done]. by eapply mif_node.
Qed.

Lemma tick_length now cd s s' exits next : control_tick c now cd s = Ok (s', exits, next) -> length (nocInterfaces s') = length (nocInterfaces s).
Proof.
  intros E. apply control_tick_states in E. destruct s' as [ifs' ns' fin']. cbn [nocInterfaces nodes] in *. unfold tick_states in E.
  apply rbind_Ok in E as (ifs1 & E1 & E). apply rbind_Ok in E as (ns1 & _ & E). apply rbind_Ok in E as (ns2 & _ & E).
  apply rbind_Ok in E as (ns3 & _ & E). apply rbind_Ok in E as (ifs2 & E2 & E). apply rbind_Ok in E as (ifs3 & E3 & [= <- <-]). cbn [nocInterfaces].
  rewrite <- (loop_length cn_if _ _ _ _ E1). unfold commit_endpoints, commit_network in *. destruct (cd =? nocClockDomainMhz c).
  - injection E2 as <-. exact (loop_length (fun k => k) _ _ _ _ E3).
  - injection E3 as <-. exact (loop_length cn_if _ _ _ _ E2).
Qed.

Lemma interface_run s log mv k e : ctl_reach s log mv -> nocInterfaces s !! k = Some e ->
  exists e0, nocInterfaces s0 !! k = Some e0 /\ ep_cfg e = ep_cfg e0 /\ if_run e (log k) (mv k).
Proof using Hone Hnew.
  intros Hr. revert k e. induction Hr as [|s log mv ifs _ IH Hifs|s log mv now cd s' exits next ms _ IH Hw E Hm]; intros k e He.
  - exists e. split_and!; [done..|]. pose proof (Forall_lookup_1 _ _ _ _ Hnew He) as Hi. unfold if_run. rewrite Hi. destruct (ac_role (ep_cfg e)); constructor.
  - cbn in He. destruct (Forall2_lookup_r _ _ _ _ _ Hifs He) as (e1 & He1 & Hc & Hi). destruct (IH k e1 He1) as (e0 & ? & ? & Hrun).
    exists e0. split_and!; [done|congruence|]. unfold if_run in *. by rewrite Hc, Hi.
  - destruct (nocInterfaces s !! k) as [e1|] eqn:He1; [|].
    + destruct (IH k e1 He1) as (e0 & ? & ? & Hrun). destruct (tick_interface _ _ _ _ _ _ _ _ E He1) as (e2 & e' & He' & Hs).
      rewrite He in He'. injection He' as <-. exists e0. split; [done|].
      assert (if_run e (log k ++ cycles_at cd s k) (mv k ++ ms k) /\ ep_cfg e = ep_cfg e1) as [? ?]; [|by split; [congruence|]].
      destruct (ac_role (ep_cfg e1)) eqn:Hrole; [eapply master_step|eapply slave_step]; eauto.
    + apply lookup_ge_None in He1. apply lookup_lt_Some in He. rewrite (tick_length _ _ _ _ _ _ E) in He. lia.
Qed.
Lemma reach_length s log mv : ctl_reach s log mv -> length (nocInterfaces s) = length (nocInterfaces s0).
Proof.
  induction 1 as [|s log mv ifs _ <- Hifs|s log mv now cd s' exits next ms _ <- _ E _]; [done| |by eapply tick_length].
  cbn. symmetry. by eapply Forall2_length.
Qed.

(** The scheduler clocks interfaces as their theorems assume.  In every run of [Control],
    with several clock domains, the interface that was built as number [k] goes through a run of
    its own: a master interface one in which its endpoint is in the cycles [log k] and the
    messages [mv k] enter its buffer, a slave interface one in which it takes the messages
    [mv k] from its buffer and its endpoint accepts the beats of [log k]. *)
Theorem control_runs_interfaces s log mv k e : ctl_reach s log mv -> nocInterfaces s !! k = Some e ->
  exists e0, nocInterfaces s0 !! k = Some e0 /\ ep_cfg e = ep_cfg e0 /\ if_run e (log k) (mv k).
Proof using Hone Hnew. apply interface_run. Qed.
End Run.
