(* ===== verification/ControlNodes.v ===== *)
(** * Endpoints in runs of the scheduler

    A shim that [Control] clocks between two interfaces goes through a run of its own, whose
    cycles are those of the two interfaces.  With the theorems on interfaces this gives what
    the composed system does with a stream. *)

From S2P Require Import Prelude AxiTypes AxisWriteBuffer NppReceive Flit SNmu MsgBuffer SNsu AxisPacket.
From S2P Require Import Checkpoint AxiCheckpoint CdcQueue AxisHandler AxisContract AxisSlaveIf AxisMasterIf NocNodes NocNodesRun CheckerRun Control ControlRun.

(** ** One endpoint in a tick *)

Lemma filter_comm {A} (P Q : A -> Prop) `{!forall a, Decision (P a)} `{!forall a, Decision (Q a)} (l : list A) :
  filter P (filter Q l) = filter Q (filter P l).
Proof. rewrite !list_filter_filter. apply list_filter_iff. tauto. Qed.

Lemma observe_current a b i i' : observe a b i = Ok i' -> currentState i' = currentState i.
Proof. unfold observe. destruct (observeStream a b); intros E; [apply rbind_Ok in E as (pc & _ & [= <-])|injection E as <-]; done. Qed.
Lemma driveNext_current now input i i' : driveNext now input i = Ok i' -> currentState i' = currentState i.
Proof.
  unfold driveNext. intros E. apply rbind_Ok in E as (take & _ & E). destruct take.
  - apply guard_Ok in E as [_ E]. apply rbind_Ok in E as (i1 & E & [= <-]). assert (currentState i1 = currentState i) as <-.
    { unfold cdcDequeueToNode in E. destruct (dequeue (if_cdc i) now) as [[f|] q]; [|by injection E as <-].
      destruct (st_body (nextState _)); try done. destruct (st_body f); try done. by injection E as <-. }
    unfold note_input_tready. by destruct (st_body (nextState i1)), (st_body input).
  - apply rbind_Ok in E as (b & _ & E). destruct b.
    + injection E as <-. unfold setChannelNextValidFalse. by destruct (st_body (nextState i)).
    + unfold copyChannelFromCurrentState in E. destruct (st_body (nextState i)), (st_body (currentState i)); try done; by injection E as <-.
Qed.
Lemma nodeSideUpdate_current now st e e1 : nodeSideUpdate now st e = Ok e1 -> currentState (ep_if e1) = currentState (ep_if e).
Proof.
  unfold nodeSideUpdate, nodeSideIn, nodeSideOut. destruct (ac_role _); intros E.
  - apply rbind_Ok in E as ([i1 st1] & E & [= <-]). apply rbind_Ok in E as (i2 & Eo & E). apply rbind_Ok in E as (i3 & E3 & E).
    apply rbind_Ok in E as (i4 & E4 & [= <- _]). apply observe_current in Eo. cbn. transitivity (currentState i3).
    + unfold updateChannelNextReady in E4. destruct (st_body (nextState i3)), (st_body (currentState i3)), (st_body (snapshotNodeStateForToCdcProbe st i2)); try done.
      by injection E4 as <-.
    + transitivity (currentState i2); [|done]. destruct (cdcEnqueueReady i2); [|by injection E3 as <-].
      apply rbind_Ok in E3 as (b & _ & [= <-]). by destruct b.
  - apply rbind_Ok in E as (i1 & E & [= <-]). apply rbind_Ok in E as (i2 & Eo & E). apply rbind_Ok in E as (i3 & E3 & E).
    apply rbind_Ok in E as (r & _ & [= <-]). cbn. apply observe_current in Eo. rewrite (driveNext_current _ _ _ _ E3). done.
Qed.

Section Nodes.
Context {N : Type} `{!NocNode N} (c : controlCfg).
Implicit Types (s : control N) (ns : list N).

Lemma update_interfaces_current now ns ifs xs ifs1 k e1 : update_interfaces now ns ifs xs = Ok ifs1 -> ifs1 !! k = Some e1 ->
  exists e, ifs !! k = Some e /\ currentState (ep_if e1) = currentState (ep_if e).
Proof.
  unfold update_interfaces. revert ifs. induction xs as [|x xs IH]; intros ifs; cbn [foldM]; [intros [= <-]; eauto|].
  intros E He. apply rbind_Ok in E as (ifs2 & E1 & E). destruct (IH _ E He) as (e2 & He2 & ->).
  apply at_index_Ok in E1 as (a & a' & Ha & E1 & ->). apply rbind_Ok in E1 as (n & _ & E1). apply rbind_Ok in E1 as (st & _ & E1).
  apply nodeSideUpdate_current in E1. destruct (decide (cn_if x = k)) as [<-|Hk].
  - rewrite list_lookup_insert_eq in He2 by by eapply lookup_lt_Some. injection He2 as <-. eauto.
  - rewrite list_lookup_insert_ne in He2 by done. eauto.
Qed.

Lemma update_direct_other now ns xs ns' k : update_direct now ns xs = Ok ns' -> Forall (fun x => dc_source x <> k /\ dc_target x <> k) xs ->
  ns' !! k = ns !! k.
Proof.
  unfold update_direct. revert ns. induction xs as [|x xs IH]; intros ns; cbn [foldM]; [by intros [= <-]|].
  intros E [[Hs Ht] Hf]%Forall_cons. apply rbind_Ok in E as (ns1 & E1 & E). rewrite (IH _ E Hf).
  apply rbind_Ok in E1 as (tg & _ & E1). apply rbind_Ok in E1 as (st & _ & E1). apply rbind_Ok in E1 as (ns2 & E2 & E1).
  apply rbind_Ok in E1 as (so & _ & E1). apply rbind_Ok in E1 as (st2 & _ & E1).
  apply at_index_Ok in E2 as (a & a' & _ & _ & ->). apply at_index_Ok in E1 as (b & b' & _ & _ & ->).
  by rewrite !list_lookup_insert_ne.
Qed.

(** What its connections show to an endpoint. *)
Definition shown (now : Z) s (n : N) (xs : list Connection) : res N :=
  foldM (fun n x => let* e := index (cn_if x) (nocInterfaces s) in node_update now (cn_port x) (currentState (ep_if e)) n) n xs.

Lemma apart_in_clock cd k : Forall (fun x => dc_source x <> k /\ dc_target x <> k) (directConnections c) ->
  Forall (fun x => dc_source x <> k /\ dc_target x <> k) (direct_in_clock c cd).
Proof. rewrite !Forall_forall. intros H x Hx. apply list_elem_of_filter in Hx as [_ Hx]. by apply H. Qed.

Lemma nodesToTick_in cd k : Forall (fun x => dc_source x <> k /\ dc_target x <> k) (directConnections c) ->
  NoDup (nodesToTick c cd) /\ (k ∈ nodesToTick c cd <-> filter (fun x => cn_node x = k) (in_clock c cd) <> []).
Proof.
  intros Hd. unfold nodesToTick. destruct (note_nodes [] (cn_node <$> in_clock c cd)) as [H1 H2]. set (l := foldl note_node [] _) in *.
  destruct (note_nodes l (concat ((fun x => [dc_source x; dc_target x]) <$> direct_in_clock c cd))) as [H3 H4].
  split; [by apply H3, H1, NoDup_nil_2|]. rewrite H4, H2. split.
  - intros [[?%elem_of_nil|Hk]|Hk]; [done| |].
    + apply list_elem_of_fmap in Hk as (x & -> & Hx). intros Hf. apply (elem_of_nil x). rewrite <- Hf. by apply list_elem_of_filter.
    + exfalso. apply (apart_in_clock cd) in Hd.
      clear -Hk Hd. induction Hd as [|x l [? ?] _ IH]; cbn in Hk; [by apply elem_of_nil in Hk|]. rewrite !elem_of_cons in Hk. destruct Hk as [?|[?|?]]; auto.
  - intros Hf. left. right. destruct (filter _ _) as [|x xs] eqn:E; [done|]. assert (x ∈ x :: xs) as Hx by left. rewrite <- E in Hx.
    apply list_elem_of_filter in Hx as [<- Hx]. by apply list_elem_of_fmap_2.
Qed.

Lemma tick_node now cd s s' exits next k n : control_tick c now cd s = Ok (s', exits, next) -> nodes s !! k = Some n ->
  Forall (fun x => dc_source x <> k /\ dc_target x <> k) (directConnections c) ->
  let xs := filter (fun x => cn_node x = k) (in_clock c cd) in
  exists n1 n', nodes s' !! k = Some n' /\ shown now s n xs = Ok n1 /\
    match xs with [] => n' = n1 | _ :: _ => exists b, node_tick now cd n1 = Ok (b, n') end.
Proof.
  intros E Hn Hd xs. destruct (nodesToTick_in cd k Hd) as [Hnd Hin]. fold xs in Hin.
  apply control_tick_states in E. destruct s' as [ifs' ns' fin']. cbn [nocInterfaces nodes] in *. unfold tick_states in E.
  apply rbind_Ok in E as (ifs1 & E1 & E). apply rbind_Ok in E as (ns1 & E2 & E). apply rbind_Ok in E as (ns2 & E3 & E).
  apply rbind_Ok in E as (ns3 & E4 & E). apply rbind_Ok in E as (ifs2 & _ & E). apply rbind_Ok in E as (ifs3 & _ & [= _ <-]). cbn [nodes].
  destruct (loop_at cn_node _ _ _ _ k n E2 Hn) as (n1 & Hn1 & F). exists n1. fold xs in F.
  apply update_direct_other with (k := k) in E3; [|by apply apart_in_clock]. rewrite Hn1 in E3.
  destruct (loop_at (fun k => k) _ _ _ _ k n1 E4 E3) as (n' & Hn' & G). exists n'. split_and!; [done| |].
  - clear -F E1. unfold shown. revert n F. induction xs as [|x xs IH]; intros n; cbn [foldM]; [done|]. intros F.
    apply rbind_Ok in F as (n2 & F & F2). apply rbind_Ok in F as (e1 & He1 & F). apply of_opt_Ok in He1.
    destruct (update_interfaces_current _ _ _ _ _ _ _ E1 He1) as (e & He & Hc). unfold index at 1. rewrite He. cbn [of_opt rbind].
    rewrite <- Hc, F. cbn [rbind]. by apply IH.
  - destruct (decide (k ∈ nodesToTick c cd)) as [Hk|Hk].
    + rewrite (filter_unique (fun x : nat => x) _ _ k) in G; [|by rewrite list_fmap_id|done|done]. rewrite decide_True in G by done.
      cbn [foldM] in G. apply rbind_Ok in G as (n2 & G & [= ->]). apply rbind_Ok in G as ([b n3] & G & [= ->]).
      apply Hin in Hk. destruct xs; [done|]. by exists b.
    + assert (filter (fun x : nat => x = k) (nodesToTick c cd) = []) as Hf.
      { destruct (filter (fun x : nat => x = k) _) as [|y l] eqn:Ef; [done|]. assert (y ∈ y :: l) as Hy by left. rewrite <- Ef in Hy. apply list_elem_of_filter in Hy as [-> Hy]. done. }
      rewrite Hf in G. injection G as <-. destruct xs; [done|]. exfalso. by apply Hk, Hin.
Qed.
End Nodes.

(** ** A shim between two interfaces *)

Section Relay.
Context (c : controlCfg) (s0 : control streamNode) (sc : shimCfg) (d0 : axisData) (k : nat) (x0 x1 : Connection).
Hypothesis Hnew : Forall (fun e => ep_if e = nocIf_init (ep_cfg e)) (nocInterfaces s0).
Hypothesis Hone : NoDup (cn_if <$> connections c).
(** Endpoint [k] is a shim.  Its two ports are connected, both on its clock. *)
Hypothesis Hnode : nodes s0 !! k = Some (ShimNode sc (shim_init d0)).
Hypothesis Hconn : filter (fun x => cn_node x = k) (connections c) ≡ₚ [x0; x1].
Hypothesis Hports : cn_port x0 = 0 /\ cn_port x1 = 1.
Hypothesis Hdom : cn_domain x1 = cn_domain x0.
Hypothesis Hclk : match sh_clockDomains sc with [] => true | x :: _ => cn_domain x0 =? x end = true.
Hypothesis Hapart : Forall (fun x => dc_source x <> k /\ dc_target x <> k) (directConnections c).
Implicit Types (s : control streamNode).

Lemma own_connections cd : filter (fun x => cn_node x = k) (in_clock c cd) ≡ₚ if cn_domain x0 =? cd then [x0; x1] else [].
Proof using Hconn Hdom.
  unfold in_clock. rewrite filter_comm, Hconn, !filter_cons, filter_nil, Hdom. destruct (Z.eqb_spec (cn_domain x0) cd) as [->|Hne].
  - by rewrite !decide_True.
  - by rewrite !decide_False.
Qed.

Lemma connected x : x ∈ [x0; x1] -> x ∈ connections c /\ cn_node x = k.
Proof using Hconn. intros Hx. rewrite <- Hconn in Hx. apply list_elem_of_filter in Hx as [? ?]. done. Qed.

(** The connection of an interface is the one that shows it cycles. *)
Lemma cycles_own cd s x : x ∈ [x0; x1] ->
  cycles_at c cd s (cn_if x) =
    if cn_domain x0 =? cd then
      match nocInterfaces s !! cn_if x, nodes s !! k with
      | Some e, Some n => match getCurrentState (cn_port x) n with Ok st => [cycle_of e st] | Err _ => [] end
      | _, _ => []
      end
    else [].
Proof using Hone Hconn Hdom.
  intros Hx. destruct (connected x Hx) as [Hc Hk]. assert (cn_domain x = cn_domain x0) as Hxd.
  { apply elem_of_cons in Hx as [-> | ->%list_elem_of_singleton]; [done|apply Hdom]. }
  unfold cycles_at, in_clock. rewrite filter_comm, (filter_unique cn_if (fun y => cn_if y = cn_if x) _ x) by done. rewrite decide_True by done.
  rewrite filter_cons, filter_nil, Hxd. destruct (Z.eqb_spec (cn_domain x0) cd) as [->|Hne].
  - rewrite decide_True by done. cbn [fmap list_fmap concat]. by rewrite Hk, app_nil_r.
  - by rewrite decide_False.
Qed.

Lemma shim_shown now s sh xs n1 : xs ≡ₚ [x0; x1] -> shown now s (ShimNode sc sh) xs = Ok n1 ->
  exists e0 e1 sh1, nocInterfaces s !! cn_if x0 = Some e0 /\ nocInterfaces s !! cn_if x1 = Some e1 /\ n1 = ShimNode sc sh1 /\
    forall cd, shim_cycle sc now cd (data_of (currentState (ep_if e0))) (ready_of (currentState (ep_if e1))) sh = shim_tick sc now cd sh1.
Proof using Hports.
  destruct Hports as [Hp0 Hp1]. unfold shim_cycle, shim_update, data_of, ready_of, shown, index. intros Hxs E.
  apply Permutation_sym, Permutation_length_2_inv in Hxs as [-> | ->]; cbn [foldM node_update stream_node shim_node] in E; rewrite Hp0, Hp1 in E.
  all: apply rbind_Ok in E as (n2 & E & E2); apply rbind_Ok in E2 as (n3 & E2 & [= <-]).
  all: apply rbind_Ok in E as (e0 & He0 & E); apply of_opt_Ok in He0; apply rbind_Ok in E as (sh2 & E & [= <-]).
  all: apply rbind_Ok in E2 as (e1 & He1 & E2); apply of_opt_Ok in He1; apply rbind_Ok in E2 as (sh3 & E2 & [= <-]).
  all: unfold shim_update in E, E2; cbn [Z.eqb Pos.eqb] in E, E2; unfold master_in, slave_in in *.
  - destruct (st_body (currentState (ep_if e0))) eqn:Eb; try done. destruct (st_body (currentState (ep_if e1))) eqn:Eb1; try done.
    exists e0, e1, sh3. rewrite Eb, Eb1. split_and!; [done..|]. intros cd. cbn in E |- *. injection E as <-. cbn in E2. by injection E2 as <-.
  - destruct (st_body (currentState (ep_if e0))) eqn:Eb; try done. destruct (st_body (currentState (ep_if e1))) eqn:Eb1; try done.
    exists e1, e0, sh3. rewrite Eb, Eb1. split_and!; [done..|]. intros cd. cbn in E |- *. injection E as <-. cbn in E2. by injection E2 as <-.
Qed.

Lemma shim_in_control s log mv : ctl_reach c s0 s log mv ->
  exists sh, nodes s !! k = Some (ShimNode sc sh) /\ shim_reach sc d0 sh (log (cn_if x0)) (log (cn_if x1)).
Proof using Hone Hnode Hconn Hports Hdom Hclk Hapart.
  induction 1 as [|s log mv ifs _ IH _|s log mv now cd s' exits next ms _ (sh & Hn & Hr) Hw E _]; [exists (shim_init d0); split; [done|constructor]|done|].
  assert (x0 ∈ [x0; x1]) as Hx0 by left. assert (x1 ∈ [x0; x1]) as Hx1 by (right; left).
  rewrite (cycles_own cd s x0 Hx0), (cycles_own cd s x1 Hx1). destruct Hports as [Hp0 Hp1].
  destruct (tick_node c _ _ _ _ _ _ k _ E Hn Hapart) as (n1 & n' & Hn' & Hs & Ht). pose proof (own_connections cd) as Hoc.
  destruct (Z.eqb_spec (cn_domain x0) cd) as [Hcd|Hcd].
  - destruct (shim_shown _ _ _ _ _ Hoc Hs) as (e0 & e1 & sh1 & He0 & He1 & -> & Hcyc).
    destruct (filter _ (in_clock c cd)) as [|y l]; [by apply Permutation_nil_l in Hoc|]. destruct Ht as [b Ht]. cbn [node_tick stream_node shim_node] in Ht.
    apply rbind_Ok in Ht as ([b1 sh2] & Ht & [= -> <-]). exists sh2. split; [done|].
    rewrite He0, He1, Hn, Hp0, Hp1. cbn [getCurrentState stream_node shim_node]. unfold shim_getCurrentState. cbn [Z.eqb Pos.eqb].
    pose proof (Hw x0 e0 (ShimNode sc sh) (slave_wires (sh_slave sh)) (proj1 (connected x0 Hx0)) He0) as W0. rewrite (proj2 (connected x0 Hx0)), Hp0 in W0. specialize (W0 Hn eq_refl).
    pose proof (Hw x1 e1 (ShimNode sc sh) (master_wires (sh_master sh)) (proj1 (connected x1 Hx1)) He1) as W1. rewrite (proj2 (connected x1 Hx1)), Hp1 in W1. specialize (W1 Hn eq_refl).
    unfold cycle_of. destruct (ac_role (ep_cfg e0)); [by destruct W0|]. destruct (ac_role (ep_cfg e1)); [|by destruct W1].
    eapply (shr_cycle sc d0 sh _ _ now cd); [done|]. rewrite Hcyc.
    assert (b = true) as <-; [|done]. unfold shim_tick in Ht. rewrite <- Hcd, Hclk in Ht.
    destruct (checkStability now _ _ _ _ _ _) as [v ts]. destruct (checkStability now _ _ _ _ _ _) as [v' os]. apply guard_Ok in Ht as [_ Ht]. by injection Ht.
  - apply Permutation_nil_r in Hoc. rewrite Hoc in *. subst n'. injection Hs as <-. exists sh. rewrite !app_nil_r. done.
Qed.

(** C2: a shim in a system relays a stream.  In every run of [Control] the beats of the messages
    that the interface before the shim took from the network are those of the messages that the
    interface after it gave to the network, followed by those on the way, in order; at most
    [depth + 17] beats are on the way.  If TDEST is stable within the packets that came from
    the network, the shim keeps the AXI-Stream contract towards the second interface. *)
Theorem control_relays_stream e0 e1 s log mv : 1 <= sh_fifoDepth sc < 2 ^ 32 ->
  nocInterfaces s0 !! cn_if x0 = Some e0 -> ac_role (ep_cfg e0) = Slave ->
  nocInterfaces s0 !! cn_if x1 = Some e1 -> ac_role (ep_cfg e1) = Master ->
  ctl_reach c s0 s log mv -> Forall (fun m => tvalid (bm_beat m) = true) (mv (cn_if x0)) ->
  exists waiting, bm_beat <$> mv (cn_if x0) = (bm_beat <$> mv (cn_if x1)) ++ waiting /\
    nz (length waiting) <= sh_fifoDepth sc + 17 /\
    (dest_stable None (bm_beat <$> mv (cn_if x0)) -> keeps_contract (log (cn_if x1))).
Proof using Hnew Hone Hnode Hconn Hports Hdom Hclk Hapart.
  intros Hdepth He0 Hr0 He1 Hr1 Hr Hv. destruct (shim_in_control _ _ _ Hr) as (sh & _ & Hsh).
  pose proof (shim_reach_inv _ _ Hdepth _ _ _ Hsh) as Hi. pose proof (reach_length _ _ _ _ _ Hr) as Hlen.
  destruct (lookup_lt_is_Some_2 (nocInterfaces s) (cn_if x0)) as [f0 Hf0]; [rewrite Hlen; by eapply lookup_lt_Some|].
  destruct (lookup_lt_is_Some_2 (nocInterfaces s) (cn_if x1)) as [f1 Hf1]; [rewrite Hlen; by eapply lookup_lt_Some|].
  destruct (interface_run c s0 Hnew Hone _ _ _ _ _ Hr Hf0) as (? & Hg0 & Hc0 & H0). rewrite He0 in Hg0. injection Hg0 as <-.
  destruct (interface_run c s0 Hnew Hone _ _ _ _ _ Hr Hf1) as (? & Hg1 & Hc1 & H1). rewrite He1 in Hg1. injection Hg1 as <-.
  unfold if_run in *. rewrite Hc0, Hr0 in H0. rewrite Hc1, Hr1 in H1.
  destruct (sif_reach_inv _ Hr0 _ _ _ H0) as (_ & _ & ds & [_ [_ Hl He] Hfl]). apply Forall2_length in He.
  specialize (Hfl Hv). pose proof Hfl as Hfl0.
  destruct (mif_reach_inv _ Hr1 _ _ _ H1) as (_ & _ & ds1 & [_ [_ Hl1 Hel] Hfl1]). apply Forall2_length in Hel.
  rewrite (sv_flow _ _ _ _ Hi), Hfl1, <- !app_assoc in Hfl. eexists. split; [exact Hfl|]. split.
  - rewrite !length_app. pose proof (sv_room _ _ _ _ Hi). destruct (driven _); cbn; lia.
  - intros Hd. eapply keeps_contract_prefix, (shim_contract sc sh (log (cn_if x0)) _ true); [done|].
    eapply dest_stable_prefix; [|exact Hd]. eexists. exact Hfl0.
Qed.
End Relay.
