(* ===== verification/ControlBuild.v ===== *)
(** * Building the scheduler

    The constructor of [Control] ([src/src/noc/core/control/Control.cc]), which wires endpoints
    to interfaces and to each other, and [assignPort] of the endpoints it calls, which turns the
    name of an interface into a port number.

    Pointers are positions: endpoint [k] is the [k]-th endpoint object, of which the first ones
    are those given to [Control] as its nodes; an interface is known by its endpoint name. *)

From S2P Require Import Prelude AxiTypes AxisHandler NocNodes Control ControlRun.

(** ** Port numbers *)

(** What a class of endpoints remembers about its ports. *)
Inductive portUse :=
| SinkPorts (portAssigned : bool)
| CheckerPorts (portAssigned : bool)
| BramPorts (portAssigned : bool)
| ShimPorts (ingress egress : bool)
| FifoPorts (portAssigned : Z).

(** [portEndpointNames[i]] *)
Definition port_name (names : list string) (i : nat) : res string := of_opt (FUndef "vector index out of range") (names !! i).
(** the name, where the code tests the size of the vector first *)
Definition port_named (names : list string) (i : nat) (name : string) : bool := bool_decide (names !! i = Some name).

Definition sink_assignPort (who : string) (names : list string) (name : string) (portAssigned : bool) : res Z :=
  let* n0 := port_name names 0 in
  if bool_decide (name = n0) && negb portAssigned then Ok 0 else Err (FPanic who).
Definition checker_assignPort (names : list string) (name : string) (portAssigned : bool) : res Z :=
  if port_named names 0 name && negb portAssigned then Ok 0 else Err (FPanic "AxisPacketCheckerSink::assignPort invalid endpointName").
Definition shim_assignPort (names : list string) (name : string) (ingress egress : bool) : res (Z * bool * bool) :=
  if port_named names 0 name && negb ingress then Ok (0, true, egress)
  else if port_named names 1 name && negb egress then Ok (1, ingress, true)
  else Err (FPanic "AxisBackpressureShimNode::assignPort invalid endpointName").
Definition fifo_assignPort (names : list string) (name : string) (portAssigned : Z) : res (Z * Z) :=
  let* n0 := port_name names 0 in
  if bool_decide (name = n0) && (portAssigned <? 2) then Ok (0, portAssigned + 1)
  else
    let* n1 := port_name names 1 in
    if bool_decide (name = n1) && (portAssigned <? 2) then Ok (1, portAssigned + 1)
    else Err (FPanic "AxisFifoNode::assignPort invalid endpointName").

(** An endpoint with the part of [NocNode] that the wiring uses. *)
Record portNode (N : Type) := mk_portNode {
  pn_node : N;
  portEndpointNames : list string;
  pn_clockDomains : list Z;
  pn_ports : portUse
}.
Arguments mk_portNode {N}.
Arguments pn_node {N}.
Arguments portEndpointNames {N}.
Arguments pn_clockDomains {N}.
Arguments pn_ports {N}.

Definition assign (names : list string) (name : string) (u : portUse) : res (Z * portUse) :=
  match u with
  | SinkPorts a => let* p := sink_assignPort "AxisSinkNode::assignPort invalid endpointName" names name a in Ok (p, SinkPorts true)
  | CheckerPorts a => let* p := checker_assignPort names name a in Ok (p, CheckerPorts true)
  | BramPorts a => let* p := sink_assignPort "BramEndpoint::assignPort invalid endpointName" names name a in Ok (p, BramPorts true)
  | ShimPorts a b => let* (p, a, b) := shim_assignPort names name a b in Ok (p, ShimPorts a b)
  | FifoPorts n => let* (p, n) := fifo_assignPort names name n in Ok (p, FifoPorts n)
  end.
Definition assignPort {N} (name : string) (n : portNode N) : res (Z * portNode N) :=
  let* (p, u) := assign (portEndpointNames n) name (pn_ports n) in
  Ok (p, mk_portNode (pn_node n) (portEndpointNames n) (pn_clockDomains n) u).

Definition getPortClockDomain {N} (portID : Z) (n : portNode N) : Z :=
  if (portID <? 0) || (nz (length (pn_clockDomains n)) <=? portID) then 0 else default 0 (pn_clockDomains n !! zn portID).

(** ** The constructor *)

Record controlParams := mk_controlParams {
  p_noc_interfaces : list string;       (* their endpoint names *)
  p_nodes : nat;                        (* the number of nodes *)
  adjacencyList : list Z;
  adjacencyIndex : list Z;
  p_noc_clock_domain_mhz : Z;
  p_direct_sources : list nat;
  p_direct_targets : list nat;
  p_direct_source_ports : list string;
  p_direct_target_ports : list string
}.

Record wiring (N : Type) := mk_wiring {
  wi_nodes : list (portNode N);
  wi_connections : list Connection;
  wi_direct : list DirectConnection;
  clockDomains : list Z;
  clockDomainConnections : gmap Z (list nat)
}.
Arguments mk_wiring {N}.
Arguments wi_nodes {N}.
Arguments wi_connections {N}.
Arguments wi_direct {N}.
Arguments clockDomains {N}.
Arguments clockDomainConnections {N}.

Section Build.
Context {N : Type} `{!NocNode N} (p : controlParams).
Implicit Types (w : wiring N).

Definition note_domain (cd : Z) (l : list Z) : list Z := if bool_decide (cd ∈ l) then l else l ++ [cd].

(** One entry of the adjacency list: node [k] is connected to interface [i]. *)
Definition connect (k : nat) w (i : Z) : res (wiring N) :=
  guard ((0 <=? i) && (i <? s32 (nz (length (p_noc_interfaces p))))) (FPanic "Control: invalid noc interface index") (
  let* n := index k (wi_nodes w) in
  let* name := index (zn i) (p_noc_interfaces p) in
  let* (port, n) := assignPort name n in
  let cd := getPortClockDomain port n in
  Ok (mk_wiring (<[k := n]> (wi_nodes w)) (wi_connections w ++ [mk_Connection (zn i) k port cd]) (wi_direct w)
        (note_domain cd (clockDomains w))
        (<[cd := default [] (clockDomainConnections w !! cd) ++ [length (wi_connections w)]]> (clockDomainConnections w)))).

(** The entries of node [k]: those from [start] to [end]. *)
Definition adjacency_start (k : nat) : Z := default 0 (adjacencyIndex p !! k).
Definition adjacency_end (k : nat) : Z :=
  if (k + 1 <? length (adjacencyIndex p))%nat then adjacency_start (k + 1) else s32 (nz (length (adjacencyList p))).
Definition adjacency (k : nat) : list Z :=
  take (zn (adjacency_end k - adjacency_start k)) (drop (zn (adjacency_start k)) (adjacencyList p)).
Definition connect_node w (k : nat) : res (wiring N) :=
  guard ((0 <=? adjacency_start k) && (adjacency_start k <=? adjacency_end k) && (adjacency_end k <=? s32 (nz (length (adjacencyList p)))))
    (FPanic "Control: invalid adjacency range") (
  foldM (connect k) w (adjacency k)).

Definition is_master (st : State) : bool := match st_body st with SAxisMaster _ => true | _ => false end.
Definition is_slave (st : State) : bool := match st_body st with SAxisSlave _ => true | _ => false end.

(** An end of a direct connection must be a port of a node that is not in use. *)
Definition use_port (used : list (nat * Z)) (x : nat * Z) : res (list (nat * Z)) :=
  guard (negb (bool_decide (x ∈ used))) (FPanic "Control: endpoint port is connected more than once") (
  guard (x.1 <? p_nodes p)%nat (FPanic "Control: direct endpoint is missing from nodes") (Ok (used ++ [x]))).

(** Direct connection [i]. *)
Definition connect_direct (x : wiring N * list (nat * Z)) (i : nat) : res (wiring N * list (nat * Z)) :=
  let '(w, used) := x in
  let* a := index i (p_direct_sources p) in
  let* b := index i (p_direct_targets p) in
  let* na := index i (p_direct_source_ports p) in
  let* nb := index i (p_direct_target_ports p) in
  let* source := index a (wi_nodes w) in
  let* (sp, source) := assignPort na source in
  let nodes := <[a := source]> (wi_nodes w) in
  let* target := index b nodes in
  let* (tp, target) := assignPort nb target in
  let nodes := <[b := target]> nodes in
  let* source := index a nodes in
  let cd := getPortClockDomain sp source in
  guard ((0 <? cd) && (getPortClockDomain tp target =? cd)) (FPanic "Control: direct links require matching positive endpoint clocks") (
  let* sst := getCurrentState sp (pn_node source) in
  let* tst := if is_master sst then getCurrentState tp (pn_node target) else Ok sst in
  guard (is_master sst && is_slave tst) (FPanic "Control: direct links must connect an AXIS master to an AXIS slave") (
  let* used := use_port used (a, sp) in
  let* used := use_port used (b, tp) in
  Ok (mk_wiring nodes (wi_connections w) (wi_direct w ++ [mk_DirectConnection a b sp tp cd])
        (note_domain cd (clockDomains w)) (clockDomainConnections w), used))).

(** The wiring of the endpoint objects [objs]. *)
Definition build (objs : list (portNode N)) : res (wiring N) :=
  guard (length (adjacencyIndex p) =? p_nodes p)%nat (FPanic "Control: adjacency_index size does not match nodes size") (
  let* w := foldM connect_node (mk_wiring objs [] [] [] ∅) (seq 0 (p_nodes p)) in
  let w := mk_wiring (wi_nodes w) (wi_connections w) (wi_direct w)
             (note_domain (s32 (p_noc_clock_domain_mhz p)) (clockDomains w)) (clockDomainConnections w) in
  let count := length (p_direct_sources p) in
  guard ((length (p_direct_targets p) =? count)%nat && (length (p_direct_source_ports p) =? count)%nat &&
         (length (p_direct_target_ports p) =? count)%nat) (FPanic "Control: incomplete direct AXIS connections") (
  let* (w, _) := foldM connect_direct (w, (fun x => (cn_node x, cn_port x)) <$> wi_connections w) (seq 0 count) in
  Ok w)).

(** ** The wiring that is built *)

(** The ports an endpoint has given out; a FIFO does not remember which. *)
Definition used_ports (u : portUse) : list Z :=
  match u with
  | SinkPorts a | CheckerPorts a | BramPorts a => if a then [0] else []
  | ShimPorts a b => (if a then [0] else []) ++ (if b then [1] else [])
  | FifoPorts _ => []
  end.
Definition is_fifo (u : portUse) : bool := match u with FifoPorts _ => true | _ => false end.

Lemma sink_assignPort_Ok who names name a port : sink_assignPort who names name a = Ok port -> port = 0 /\ a = false.
Proof.
  unfold sink_assignPort. intros E. apply rbind_Ok in E as (n0 & _ & E). destruct a; [by rewrite andb_false_r in E|].
  destruct (bool_decide _); cbn in E; [|done]. by injection E.
Qed.
Lemma checker_assignPort_Ok names name a port : checker_assignPort names name a = Ok port -> port = 0 /\ a = false.
Proof.
  unfold checker_assignPort. intros E. destruct a; [by rewrite andb_false_r in E|]. destruct (port_named _ _ _); cbn in E; [|done]. by injection E.
Qed.
Lemma shim_assignPort_Ok names name a b port a' b' : shim_assignPort names name a b = Ok (port, a', b') ->
  port = 0 /\ a = false /\ a' = true /\ b' = b \/ port = 1 /\ b = false /\ a' = a /\ b' = true.
Proof.
  unfold shim_assignPort. destruct (port_named names 0 name), (port_named names 1 name), a, b; cbn; intros [= <- <- <-]; tauto.
Qed.

Lemma assign_fresh names name u port u' : assign names name u = Ok (port, u') -> is_fifo u' = is_fifo u /\
  (is_fifo u = false -> port ∉ used_ports u /\ forall q, q ∈ used_ports u' <-> q = port \/ q ∈ used_ports u).
Proof.
  destruct u as [a|a|a|a b|n]; cbn [assign]; intros E; apply rbind_Ok in E as (x & H & E).
  - injection E as <- <-. apply sink_assignPort_Ok in H as [-> ->]. split; [done|]. intros _. set_solver.
  - injection E as <- <-. apply checker_assignPort_Ok in H as [-> ->]. split; [done|]. intros _. set_solver.
  - injection E as <- <-. apply sink_assignPort_Ok in H as [-> ->]. split; [done|]. intros _. set_solver.
  - destruct x as [[x a'] b']. injection E as <- <-. cbn [used_ports]. split; [done|]. intros _.
    apply shim_assignPort_Ok in H as [(-> & -> & -> & ->)|(-> & -> & -> & ->)]; [destruct b|destruct a]; set_solver.
  - destruct x as [x n']. by injection E as <- <-.
Qed.

Section Wired.
Context (objs : list (portNode N)).

Definition same_object (a b : portNode N) : Prop :=
  pn_node b = pn_node a /\ pn_clockDomains b = pn_clockDomains a /\ is_fifo (pn_ports b) = is_fifo (pn_ports a).
Definition conn_ok (x : Connection) : Prop :=
  (cn_if x < length (p_noc_interfaces p))%nat /\ exists n, objs !! cn_node x = Some n /\ cn_domain x = getPortClockDomain (cn_port x) n.
Definition conn_end (x : Connection) : nat * Z := (cn_node x, cn_port x).
Definition direct_ends (d : DirectConnection) : list (nat * Z) := [(dc_source d, dc_sourcePort d); (dc_target d, dc_targetPort d)].
Definition directs w : list (nat * Z) := concat (direct_ends <$> wi_direct w).
Definition ends w : list (nat * Z) := (conn_end <$> wi_connections w) ++ directs w.
(** Endpoint [k] is a FIFO. *)
Definition fifo_at (k : nat) : bool := match objs !! k with Some n => is_fifo (pn_ports n) | None => false end.
Definition not_fifo (x : nat * Z) : Prop := fifo_at x.1 = false.
#[local] Instance not_fifo_dec x : Decision (not_fifo x).
Proof. unfold not_fifo. apply _. Defined.
(** The ports given out are remembered, except by a FIFO. *)
Definition port_used (ns : list (portNode N)) (x : Connection) : Prop :=
  fifo_at (cn_node x) = false -> exists n, ns !! cn_node x = Some n /\ cn_port x ∈ used_ports (pn_ports n).
Definition conn_ids (x : Connection) : nat * Z := (cn_node x, nz (cn_if x)).
Definition by_domain w (cd : Z) : list nat := default [] (clockDomainConnections w !! cd).

Record conn_inv (entries : list (nat * Z)) w : Prop := {
  ci_objs : Forall2 same_object objs (wi_nodes w);
  ci_ids : conn_ids <$> wi_connections w = entries;
  ci_ok : Forall conn_ok (wi_connections w);
  ci_used : Forall (port_used (wi_nodes w)) (wi_connections w);
  ci_nodup : NoDup (filter not_fifo (conn_end <$> wi_connections w));
  ci_domains : NoDup (clockDomains w) /\ forall cd, cd ∈ clockDomains w <-> cd ∈ (cn_domain <$> wi_connections w);
  ci_by : forall cd, Forall (fun i => (i < length (wi_connections w))%nat) (by_domain w cd) /\
    omap (fun i => wi_connections w !! i) (by_domain w cd) = filter (fun x => cn_domain x = cd) (wi_connections w);
  ci_direct : wi_direct w = []
}.

Lemma note_domain_spec cd l : NoDup l -> NoDup (note_domain cd l) /\ forall x, x ∈ note_domain cd l <-> x ∈ l \/ x = cd.
Proof.
  unfold note_domain. intros Hl. destruct (bool_decide_reflect (cd ∈ l)) as [H|H]; [set_solver|].
  split; [|set_solver]. apply NoDup_app. split_and!; [done|set_solver|apply NoDup_singleton].
Qed.

Lemma assignPort_same name n port n' : assignPort name n = Ok (port, n') ->
  same_object n n' /\ assign (portEndpointNames n) name (pn_ports n) = Ok (port, pn_ports n').
Proof. unfold assignPort. intros E. apply rbind_Ok in E as ([q u] & E & [= <- <-]). split; [|done]. by apply assign_fresh in E as [E _]. Qed.
Lemma same_domain a b port : same_object a b -> getPortClockDomain port b = getPortClockDomain port a.
Proof. unfold getPortClockDomain. by intros (_ & -> & _). Qed.

Lemma insert_same (ns : list (portNode N)) k n n' : Forall2 same_object objs ns -> ns !! k = Some n -> same_object n n' ->
  Forall2 same_object objs (<[k := n']> ns).
Proof.
  intros Hs Hn (H1 & H2 & H5). destruct (Forall2_lookup_r _ _ _ _ _ Hs Hn) as (o & Ho & H3 & H4 & H6).
  apply Forall2_lookup. intros j. destruct (decide (j = k)) as [->|Hj].
  - rewrite list_lookup_insert_eq by by eapply lookup_lt_Some. rewrite Ho. constructor. split_and!; congruence.
  - rewrite list_lookup_insert_ne by done. by apply Forall2_lookup.
Qed.

(** A port that is given out now is not the port of an earlier connection. *)
Lemma fresh_end (ns : list (portNode N)) k n port n' (l : list Connection) :
  ns !! k = Some n -> assign (portEndpointNames n) port.1 (pn_ports n) = Ok (port.2, pn_ports n') -> is_fifo (pn_ports n) = fifo_at k ->
  Forall (port_used ns) l -> (fifo_at k = false -> (k, port.2) ∉ conn_end <$> l) /\ Forall (port_used (<[k := n']> ns)) l.
Proof.
  intros Hn Ha Hk Hl. destruct (assign_fresh _ _ _ _ _ Ha) as (_ & Hfu). rewrite Hk in Hfu. split.
  - intros Hf. destruct (Hfu Hf) as [Hfresh _]. intros (x & [= Ek Ep] & Hx)%list_elem_of_fmap. rewrite Forall_forall in Hl.
    destruct (Hl x Hx) as (m & Hm & Hin); congruence.
  - eapply Forall_impl; [exact Hl|]. intros x Hx Hf. destruct (Hx Hf) as (m & Hm & Hin). destruct (decide (cn_node x = k)) as [E|E].
    + rewrite E in *. rewrite Hn in Hm. injection Hm as <-. exists n'. split; [apply list_lookup_insert_eq; by eapply lookup_lt_Some|].
      destruct (Hfu Hf) as [_ Hused]. apply Hused. by right.
    + exists m. by rewrite list_lookup_insert_ne.
Qed.

Lemma omap_grow {A} (l : list A) x js : Forall (fun i => (i < length l)%nat) js ->
  omap (fun i => (l ++ [x]) !! i) js = omap (fun i => l !! i) js.
Proof. induction 1 as [|i js Hi _ IH]; [done|]. cbn. by rewrite lookup_app_l, IH. Qed.

Lemma by_domain_step w x cd :
  (Forall (fun i => (i < length (wi_connections w))%nat) (by_domain w cd) /\
   omap (fun i => wi_connections w !! i) (by_domain w cd) = filter (fun x => cn_domain x = cd) (wi_connections w)) ->
  let js := default [] (<[cn_domain x := by_domain w (cn_domain x) ++ [length (wi_connections w)]]> (clockDomainConnections w) !! cd) in
  Forall (fun i => (i < length (wi_connections w ++ [x]))%nat) js /\
  omap (fun i => (wi_connections w ++ [x]) !! i) js = filter (fun x => cn_domain x = cd) (wi_connections w ++ [x]).
Proof.
  intros [H1 H2]. cbv zeta. rewrite filter_app, length_app. cbn [length].
  assert (Forall (fun i => (i < length (wi_connections w) + 1)%nat) (by_domain w cd)) as H3 by (eapply Forall_impl; [exact H1|cbn; lia]).
  destruct (decide (cn_domain x = cd)) as [E|E].
  - rewrite E, lookup_insert_eq, filter_cons_True, filter_nil by done. cbn [default option_map]. split; [apply Forall_app; split; [done|constructor; [lia|done]]|].
    unfold id. rewrite omap_app, omap_grow, H2 by done. cbn. by rewrite lookup_app_r, Nat.sub_diag by lia.
  - rewrite lookup_insert_ne, filter_cons_False, filter_nil, app_nil_r by done. split; [done|]. change (default [] _) with (by_domain w cd).
    by rewrite omap_grow.
Qed.

Lemma connect_step entries w k i w' : conn_inv entries w -> connect k w i = Ok w' -> conn_inv (entries ++ [(k, i)]) w'.
Proof.
  intros Hi E. unfold connect in E. apply guard_Ok in E as [Hg E]. apply rbind_Ok in E as (n & Hn%of_opt_Ok & E).
  apply rbind_Ok in E as (name & Hname%of_opt_Ok & E). apply rbind_Ok in E as ([port n'] & Hp & [= <-]).
  apply assignPort_same in Hp as [Hsame Ha]. destruct Hi as [Hobj Hids Hok Hused Hnd [Hd1 Hd2] Hby Hdir].
  destruct (Forall2_lookup_r _ _ _ _ _ Hobj Hn) as (o & Ho & Hos).
  assert (is_fifo (pn_ports n) = fifo_at k) as Hk by (unfold fifo_at; rewrite Ho; apply Hos).
  destruct (assign_fresh _ _ _ _ _ Ha) as (_ & Hu). rewrite Hk in Hu. destruct (fresh_end _ _ _ (name, port) n' _ Hn Ha Hk Hused) as [Hfresh Hused'].
  apply andb_true_iff in Hg as [Hg _].
  destruct (note_domain_spec (getPortClockDomain port n') (clockDomains w) Hd1) as [Hd3 Hd4].
  split; cbn [wi_nodes wi_connections wi_direct clockDomains clockDomainConnections].
  - by eapply insert_same.
  - rewrite fmap_app, Hids. cbn. unfold conn_ids. cbn. by rewrite Z2Nat.id by lia.
  - apply Forall_app. split; [done|]. constructor; [|done]. split; cbn; [by eapply lookup_lt_Some|]. exists o. split; [done|].
    by rewrite (same_domain n n'), (same_domain o n).
  - apply Forall_app. split; [done|]. constructor; [|done]. intros Hf. exists n'. cbn in *. split; [apply list_lookup_insert_eq; by eapply lookup_lt_Some|].
    apply (Hu Hf). by left.
  - rewrite fmap_app, filter_app. cbn [fmap list_fmap conn_end cn_node cn_port]. rewrite filter_cons, filter_nil. case_decide as Hf; [|by rewrite app_nil_r].
    apply NoDup_app. split_and!; [done| |apply NoDup_singleton]. intros x [_ Hx]%list_elem_of_filter ->%list_elem_of_singleton. by apply Hfresh in Hf.
  - split; [done|]. intros cd. rewrite Hd4, Hd2, fmap_app, elem_of_app. cbn. by rewrite list_elem_of_singleton.
  - intros cd. exact (by_domain_step w (mk_Connection (zn i) k port _) cd (Hby cd)).
  - done.
Qed.

Definition range_ok (k : nat) : Prop := 0 <= adjacency_start k <= adjacency_end k /\ adjacency_end k <= nz (length (adjacencyList p)).
Definition entries_of (k : nat) : list (nat * Z) := pair k <$> adjacency k.

Lemma connect_node_step entries w k w' : nz (length (adjacencyList p)) < 2 ^ 31 -> conn_inv entries w -> connect_node w k = Ok w' ->
  conn_inv (entries ++ entries_of k) w' /\ range_ok k.
Proof.
  intros Hsz Hi E. unfold connect_node in E. rewrite s32_small in E by lia. apply guard_Ok in E as [Hg E]. split; [|unfold range_ok; lia].
  eapply (foldM_inv_seen (fun seen w => conn_inv (entries ++ (pair k <$> seen)) w)); [|by rewrite app_nil_r|exact E].
  intros seen w1 i rest w2 _ H1 H2. rewrite fmap_app, app_assoc. by eapply connect_step.
Qed.

Lemma connect_nodes_inv w0 w l : nz (length (adjacencyList p)) < 2 ^ 31 -> conn_inv [] w0 -> foldM connect_node w0 l = Ok w ->
  conn_inv (concat (entries_of <$> l)) w /\ Forall range_ok l.
Proof.
  intros Hsz H0 E.
  eapply (foldM_inv_seen (fun seen w => conn_inv (concat (entries_of <$> seen)) w /\ Forall range_ok seen)); [|by split|exact E].
  intros seen w1 k rest w2 _ [H1 H2] H3. destruct (connect_node_step _ _ _ _ Hsz H1 H3) as [H4 H5].
  rewrite fmap_app, concat_app. cbn [fmap list_fmap concat]. rewrite app_nil_r. split; [done|]. apply Forall_app. split; [done|]. constructor; [done|constructor].
Qed.

Lemma entries_adjacency l : snd <$> concat (entries_of <$> l) = concat (adjacency <$> l).
Proof.
  induction l as [|k l IH]; [done|]. cbn [fmap list_fmap concat]. rewrite fmap_app. f_equal; [|exact IH].
  unfold entries_of. rewrite <- list_fmap_compose. apply list_fmap_id.
Qed.

(** The ranges of the nodes follow each other. *)
Lemma adjacency_tiles n : nz (length (adjacencyList p)) < 2 ^ 31 -> length (adjacencyIndex p) = n -> Forall range_ok (seq 0 n) ->
  forall m k, (k + S m = n)%nat -> concat (adjacency <$> seq k (S m)) = drop (zn (adjacency_start k)) (adjacencyList p).
Proof.
  intros Hsz Hn Hr. assert (forall k, (k < n)%nat -> range_ok k) as Hrk by (intros k Hk; rewrite Forall_forall in Hr; apply Hr, elem_of_seq; lia).
  induction m as [|m IH]; intros k Hk; pose proof (Hrk k ltac:(lia)) as [H1 H2].
  - assert (adjacency_end k = nz (length (adjacencyList p))) as He.
    { unfold adjacency_end. by rewrite (proj2 (Nat.ltb_ge _ _)), s32_small by lia. }
    cbn [seq fmap list_fmap concat]. rewrite app_nil_r. unfold adjacency. rewrite He in *. apply take_ge. rewrite length_drop. lia.
  - assert (adjacency_end k = adjacency_start (S k)) as He.
    { unfold adjacency_end. by rewrite (proj2 (Nat.ltb_lt _ _)), Nat.add_1_r by lia. }
    change (concat (adjacency <$> seq k (S (S m)))) with (adjacency k ++ concat (adjacency <$> seq (S k) (S m))). rewrite IH by lia.
    unfold adjacency. rewrite He in *. rewrite <- (take_drop (zn (adjacency_start (S k) - adjacency_start k)) (drop (zn (adjacency_start k)) _)) at 2.
    f_equal. rewrite drop_drop. f_equal. lia.
Qed.

(** A direct connection joins an AXI-Stream master to a slave on one clock. *)
Definition direct_ok (d : DirectConnection) : Prop :=
  exists a b sst tst, objs !! dc_source d = Some a /\ objs !! dc_target d = Some b /\
    (dc_source d < p_nodes p)%nat /\ (dc_target d < p_nodes p)%nat /\
    getCurrentState (dc_sourcePort d) (pn_node a) = Ok sst /\ is_master sst = true /\
    getCurrentState (dc_targetPort d) (pn_node b) = Ok tst /\ is_slave tst = true /\
    0 < dc_domain d /\ getPortClockDomain (dc_sourcePort d) a = dc_domain d /\ getPortClockDomain (dc_targetPort d) b = dc_domain d.

Definition mhz : Z := s32 (p_noc_clock_domain_mhz p).
Definition domain_used w (cd : Z) : Prop :=
  cd = mhz \/ cd ∈ (cn_domain <$> wi_connections w) \/ cd ∈ (dc_domain <$> wi_direct w).

Record direct_inv w0 (x : wiring N * list (nat * Z)) : Prop := {
  di_objs : Forall2 same_object objs (wi_nodes x.1);
  di_conns : wi_connections x.1 = wi_connections w0 /\ clockDomainConnections x.1 = clockDomainConnections w0;
  di_ends : x.2 = ends x.1 /\ NoDup (directs x.1) /\ forall e, e ∈ directs x.1 -> e ∉ conn_end <$> wi_connections x.1;
  di_ok : Forall direct_ok (wi_direct x.1);
  di_domains : NoDup (clockDomains x.1) /\ forall cd, cd ∈ clockDomains x.1 <-> domain_used x.1 cd
}.

Lemma use_port_Ok used x used' : use_port used x = Ok used' -> used' = used ++ [x] /\ x ∉ used /\ (x.1 < p_nodes p)%nat.
Proof.
  unfold use_port. intros E. apply guard_Ok in E as [Hx E]. apply guard_Ok in E as [Hn [= <-]].
  destruct (bool_decide_reflect (x ∈ used)) as [|Hu]; [done|]. split_and!; [done|done|by apply Nat.ltb_lt].
Qed.

Lemma connect_direct_step w0 x i x' : direct_inv w0 x -> connect_direct x i = Ok x' -> direct_inv w0 x'.
Proof.
  destruct x as [w used]. intros [Hobj [Hc1 Hc2] (He & Hnd & Hne) Hok [Hd1 Hd2]] E. cbn [fst snd] in *. unfold connect_direct in E.
  apply rbind_Ok in E as (a & _ & E). apply rbind_Ok in E as (b & _ & E). apply rbind_Ok in E as (na & _ & E). apply rbind_Ok in E as (nb & _ & E).
  apply rbind_Ok in E as (s1 & Hs1%of_opt_Ok & E). apply rbind_Ok in E as ([sp s2] & [Hs2 _]%assignPort_same & E).
  apply rbind_Ok in E as (t1 & Ht1%of_opt_Ok & E). apply rbind_Ok in E as ([tp t2] & [Ht2 _]%assignPort_same & E).
  apply rbind_Ok in E as (s3 & Hs3%of_opt_Ok & E). apply guard_Ok in E as [Hcd E].
  apply rbind_Ok in E as (sst & Hsst & E). apply rbind_Ok in E as (tst & Htst & E). apply guard_Ok in E as [Hst E].
  apply rbind_Ok in E as (u1 & Hu1%use_port_Ok & E). apply rbind_Ok in E as (u2 & Hu2%use_port_Ok & [= <-]).
  destruct Hu1 as (-> & Hn1 & Ha), Hu2 as (-> & Hn2 & Hb). cbn in Ha, Hb. apply andb_true_iff in Hst as [Hm Hsl]. rewrite Hm in Htst.
  pose proof (insert_same _ _ _ _ Hobj Hs1 Hs2) as Ho1. pose proof (insert_same _ _ _ _ Ho1 Ht1 Ht2) as Ho2.
  destruct (Forall2_lookup_r _ _ _ _ _ Ho2 Hs3) as (oa & Hoa & Hsa). destruct (Forall2_lookup_r _ _ _ _ _ Ho1 Ht1) as (ob & Hob & Hsb).
  assert (same_object ob t2) as Hsb' by (destruct Hsb as (? & ? & ?), Ht2 as (? & ? & ?); split_and!; congruence).
  destruct (note_domain_spec (getPortClockDomain sp s3) _ Hd1) as [Hd3 Hd4].
  set (w' := mk_wiring _ _ _ _ _).
  assert (directs w' = directs w ++ [(a, sp); (b, tp)]) as Hends by (unfold directs, w'; cbn; by rewrite fmap_app, concat_app).
  split; cbn [fst snd wi_nodes wi_connections wi_direct clockDomains clockDomainConnections].
  - done.
  - done.
  - rewrite He in Hn1, Hn2. unfold ends in *. rewrite Hends, He, <- !app_assoc. split; [done|]. rewrite !elem_of_app, list_elem_of_singleton in Hn2.
    rewrite elem_of_app in Hn1. split.
    + apply NoDup_app. split_and!; [done| |].
      * intros e H1 H2. apply elem_of_cons in H2 as [->|H2%list_elem_of_singleton]; [tauto|]. subst e. tauto.
      * constructor; [|apply NoDup_singleton]. intros E2%list_elem_of_singleton. symmetry in E2. tauto.
    + intros e [H1|H1]%elem_of_app; [by apply Hne|]. apply elem_of_cons in H1 as [->|H1%list_elem_of_singleton]; [tauto|]. subst e. tauto.
  - apply Forall_app. split; [done|]. constructor; [|constructor]. exists oa, ob, sst, tst. cbn.
    rewrite <- (proj1 Hsa), <- (proj1 Hsb'), <- (same_domain oa s3), <- (same_domain ob t2) by done. split_and!; try done; lia.
  - split; [done|]. intros cd. subst w'. cbn. rewrite Hd4, Hd2. unfold domain_used. cbn. rewrite fmap_app, elem_of_app. cbn. rewrite list_elem_of_singleton. tauto.
Qed.

Lemma conn_inv_init : conn_inv [] (mk_wiring objs [] [] [] ∅).
Proof.
  split; cbn [wi_nodes wi_connections wi_direct clockDomains]; try done; try (by constructor).
  - apply Forall2_lookup. intros i. destruct (objs !! i); by constructor.
  - split; [constructor|]. intros cd. cbn. by rewrite !elem_of_nil.
Qed.

Lemma build_inv w : nz (length (adjacencyList p)) < 2 ^ 31 -> build objs = Ok w ->
  exists w0 used, conn_inv (concat (entries_of <$> seq 0 (p_nodes p))) w0 /\ Forall range_ok (seq 0 (p_nodes p)) /\
    length (adjacencyIndex p) = p_nodes p /\ direct_inv w0 (w, used).
Proof.
  intros Hsz E. unfold build in E. apply guard_Ok in E as [Hlen E]. apply rbind_Ok in E as (w0 & E0 & E).
  apply guard_Ok in E as [_ E]. apply rbind_Ok in E as ([w1 used] & E1 & [= <-]).
  destruct (connect_nodes_inv _ _ _ Hsz conn_inv_init E0) as [Hi Hr].
  exists w0, used. split_and!; [done..|by apply Nat.eqb_eq in Hlen|].
  eapply (foldM_inv (fun x => direct_inv w0 x)); [| |exact E1]; [intros x i x' _ H1 H2; by eapply connect_direct_step|].
  destruct Hi as [Hobj _ _ _ _ [Hd1 Hd2] _ Hdir]. destruct (note_domain_spec (s32 (p_noc_clock_domain_mhz p)) _ Hd1) as [Hd3 Hd4].
  split; cbn [fst snd wi_nodes wi_connections wi_direct clockDomains clockDomainConnections]; unfold ends, directs, domain_used; cbn; rewrite ?Hdir; try done.
  - rewrite app_nil_r. split_and!; [done|apply NoDup_nil_2|]. intros e H. by apply elem_of_nil in H.
  - split; [done|]. intros cd. rewrite Hd4, Hd2. unfold mhz. cbn. rewrite elem_of_nil. tauto.
Qed.

Lemma no_fifos (l : list (nat * Z)) : Forall (fun n => is_fifo (pn_ports n) = false) objs -> filter not_fifo l = l.
Proof.
  intros Hall. induction l as [|x l IH]; [done|]. rewrite filter_cons_True; [by rewrite IH|]. unfold not_fifo, fifo_at.
  destruct (objs !! x.1) as [n|] eqn:E; [|done]. exact (Forall_lookup_1 _ _ _ _ Hall E).
Qed.

(** No interface is connected twice if none is listed twice. *)
Lemma built_once w0 w used : nz (length (adjacencyList p)) < 2 ^ 31 -> conn_inv (concat (entries_of <$> seq 0 (p_nodes p))) w0 ->
  Forall range_ok (seq 0 (p_nodes p)) -> length (adjacencyIndex p) = p_nodes p -> direct_inv w0 (w, used) ->
  NoDup (adjacencyList p) -> NoDup (cn_if <$> wi_connections w).
Proof.
  intros Hsz Hi Hr Hlen Hd Hadj. pose proof (proj1 (di_conns _ _ Hd)) as Hc. cbn in Hc. rewrite Hc. pose proof (ci_ids _ _ Hi) as Hids.
  apply (NoDup_fmap_1 nz). rewrite <- list_fmap_compose.
  assert (nz ∘ cn_if <$> wi_connections w0 = concat (adjacency <$> seq 0 (p_nodes p))) as ->.
  { change (nz ∘ cn_if) with (snd ∘ conn_ids). by rewrite list_fmap_compose, Hids, entries_adjacency. }
  destruct (p_nodes p) as [|n] eqn:En; [constructor|]. rewrite (adjacency_tiles (S n) Hsz Hlen Hr n 0) by done.
  eapply sublist_NoDup; [exact Hadj|]. apply sublist_drop.
Qed.

(** C21: the wiring.  When the constructor succeeds the connections are the entries of the
    adjacency list, node by node, each at an existing interface and in the clock domain of its
    port; direct connections join an AXI-Stream master to a slave on one clock.  A port of a
    direct connection has no other connection, and two entries of the adjacency list never get
    the same port of an endpoint other than a FIFO, which does not remember its ports: without
    FIFOs no port is connected twice.  The clock domains are those in use and the one of the
    network, each once, and [clockDomainConnections] has for each domain its connections in
    order.  If no interface is listed twice, none is connected twice. *)
Theorem control_wiring w : nz (length (adjacencyList p)) < 2 ^ 31 -> build objs = Ok w ->
  conn_ids <$> wi_connections w = concat (entries_of <$> seq 0 (p_nodes p)) /\
  Forall conn_ok (wi_connections w) /\ Forall direct_ok (wi_direct w) /\
  NoDup (directs w) /\ (forall e, e ∈ directs w -> e ∉ conn_end <$> wi_connections w) /\
  NoDup (filter not_fifo (conn_end <$> wi_connections w)) /\
  (Forall (fun n => is_fifo (pn_ports n) = false) objs -> NoDup (ends w)) /\
  NoDup (clockDomains w) /\ (forall cd, cd ∈ clockDomains w <-> domain_used w cd) /\
  (forall cd, omap (fun i => wi_connections w !! i) (by_domain w cd) = filter (fun x => cn_domain x = cd) (wi_connections w)) /\
  (NoDup (adjacencyList p) -> NoDup (cn_if <$> wi_connections w)).
Proof.
  intros Hsz E. destruct (build_inv _ Hsz E) as (w0 & used & Hi & Hr & Hlen & Hd).
  pose proof (built_once _ _ _ Hsz Hi Hr Hlen Hd) as Honce. destruct Hd as [_ [Hc1 Hc2] (_ & Hnd & Hne) Hok [Hd1 Hd2]], Hi as [_ Hids Hcok _ Hnf _ Hby _].
  cbn [fst snd] in *. unfold by_domain in *. rewrite Hc1, Hc2 in *. split_and!; try done; [|intros cd; apply Hby].
  intros Hall. unfold ends. rewrite Hc1. apply NoDup_app. split_and!; [|intros e H1 H2; by apply (Hne e)|done].
  rewrite no_fifos in Hnf by done. done.
Qed.

(** A built scheduler clocks its interfaces as their theorems assume. *)
Lemma built_runs_interfaces (c : controlCfg) (s0 : control N) w s log mv k e : nz (length (adjacencyList p)) < 2 ^ 31 ->
  build objs = Ok w -> NoDup (adjacencyList p) -> connections c = wi_connections w ->
  Forall (fun e => ep_if e = nocIf_init (ep_cfg e)) (nocInterfaces s0) -> ctl_reach c s0 s log mv -> nocInterfaces s !! k = Some e ->
  exists e0, nocInterfaces s0 !! k = Some e0 /\ ep_cfg e = ep_cfg e0 /\ if_run e (log k) (mv k).
Proof.
  intros Hsz E Hadj Hc Hnew. apply interface_run; [done|]. rewrite Hc.
  destruct (build_inv _ Hsz E) as (w0 & used & Hi & Hr & Hlen & Hd). by eapply built_once.
Qed.
End Wired.
End Build.
