(* ===== verification/NodeExample.v ===== *)
(** * Examples for the stream endpoints and the scheduler

    Concrete runs of the shim, the packet checker and the scheduler, what [AxisFifoNode] does
    when it fills up, and the port range of the checker's NAT mode. *)

From S2P Require Import Prelude AxiTypes AxisWriteBuffer NppReceive Flit SNmu MsgBuffer SNsu AxisPacket.
From S2P Require Import Checkpoint AxiCheckpoint CdcQueue AxisHandler AxisContract AxisSlaveIf AxisMasterIf NocNodes NocNodesRun CheckerRun Control ControlRun ControlNodes ControlBuild.

(** ** The shim *)

Definition ex_a : axisData := beat8 255 1 false.
Definition ex_b : axisData := beat8 255 1 true.
Definition ex_idle : axisData := set_tvalid false ex_a.
Definition ex_shcfg : shimCfg := new_shimCfg 1 2 true 4 2 "" [].
(** Two beats of a packet come in while the receiver is not ready. *)
Definition ex_sh (d : axisData) (t : bool) (s : shim) : shim := (ok_or (false, s) (shim_cycle ex_shcfg 5 1 d t s)).2.
Definition ex_sh1 : shim := ex_sh ex_a false (shim_init ex_idle).
Definition ex_sh2 : shim := ex_sh ex_b false ex_sh1.
Definition ex_lin : list cycle := [(ex_a, true); (ex_b, true)].
Definition ex_lout : list cycle := [(ex_idle, false); (ex_a, false)].

Lemma ex_sh_reach s lin lout d t : shim_reach ex_shcfg ex_idle s lin lout ->
  (ok_or (false, s) (shim_cycle ex_shcfg 5 1 d t s)).1 = true ->
  shim_reach ex_shcfg ex_idle (ex_sh d t s) (lin ++ [(d, sh_slave s)]) (lout ++ [(sh_master s, t)]).
Proof.
  intros Hr E. apply (shr_cycle ex_shcfg ex_idle s lin lout 5 1); [done|]. unfold ex_sh.
  destruct (shim_cycle ex_shcfg 5 1 d t s) as [[b s']|]; [|done]. cbn in *. by subst b.
Qed.
Lemma ex_sh2_reach : shim_reach ex_shcfg ex_idle ex_sh2 ex_lin ex_lout.
Proof.
  apply (ex_sh_reach ex_sh1 [(ex_a, true)] [(ex_idle, false)]); [|vm_compute; reflexivity].
  apply (ex_sh_reach (shim_init ex_idle) [] []); [constructor|vm_compute; reflexivity].
Qed.
Lemma ex_depth : 1 <= sh_fifoDepth ex_shcfg < 2 ^ 32.
Proof. cbn. lia. Qed.

Lemma shim_forwards_witness : handed ex_lin = [ex_a; ex_b] /\ handed ex_lout = [] /\ sh_fifo ex_sh2 = [ex_a; ex_b] /\
  keeps_contract (ex_lout ++ [(sh_master ex_sh2, true)]).
Proof.
  destruct (shim_forwards ex_shcfg ex_idle ex_depth ex_sh2 ex_lin ex_lout ex_sh2_reach) as (H & _ & _ & Hk).
  split_and!; [reflexivity|reflexivity|exact (eq_sym H)|]. apply Hk. split; [by intros x [=]|split; [by intros x [= <-]|exact I]].
Defined.

(** A sender that changes a beat it was refused. *)
Definition ex_sh3 : shim := ex_sh ex_a false ex_sh2.
Definition ex_sh4 : shim := ex_sh ex_b false ex_sh3.
Lemma shim_blames_sender_witness : sh_violation ex_sh4 = Some (5, "tlast"%string, "dma_to_shim"%string) /\
  ~ stays None (ex_lin ++ [(ex_a, false); (ex_b, false)]).
Proof.
  assert (sh_violation ex_sh4 = Some (5, "tlast"%string, "dma_to_shim"%string)) as Hv by (vm_compute; reflexivity).
  split; [exact Hv|].
  refine (proj2 (shim_blames_sender ex_shcfg ex_idle ex_depth ex_sh4 _ (ex_lout ++ [(ex_a, false); (ex_a, false)]) _ _ _ _ Hv)).
  apply (ex_sh_reach ex_sh3 (ex_lin ++ [(ex_a, false)]) (ex_lout ++ [(ex_a, false)])); [|vm_compute; reflexivity].
  apply (ex_sh_reach ex_sh2 ex_lin ex_lout); [exact ex_sh2_reach|vm_compute; reflexivity].
Defined.

(** With a pattern of two cycles in four, a beat waits three cycles. *)
Definition ex_sh5 : shim := ex_sh ex_a true (ex_sh ex_a true (ex_sh ex_a true ex_sh2)).
Lemma ex_sh_waits n s s1 : shim_waits ex_shcfg n s s1 -> sh_slave s1 = false ->
  (ok_or (false, s1) (shim_cycle ex_shcfg 5 1 ex_a true s1)).1 = true -> shim_waits ex_shcfg (S n) s (ex_sh ex_a true s1).
Proof.
  intros Hw Hs E. apply (sw_more ex_shcfg n s s1 5 1 ex_a); [done|reflexivity|done|]. unfold ex_sh.
  destruct (shim_cycle ex_shcfg 5 1 ex_a true s1) as [[b s']|]; [|done]. cbn in *. by subst b.
Qed.
Lemma ex_waits : shim_waits ex_shcfg 3 ex_sh2 ex_sh5.
Proof. repeat (apply ex_sh_waits; [|vm_compute; reflexivity..]). constructor. Qed.
Lemma shim_bounded_wait_witness : sh_slave ex_sh5 = true /\ nz 3 <= sh_period ex_shcfg - sh_allow ex_shcfg + 1.
Proof.
  split; [vm_compute; reflexivity|]. refine (shim_bounded_wait ex_shcfg ex_idle ex_depth _ _ 3 ex_sh2 ex_sh5 ex_lin ex_lout ex_sh2_reach ex_waits _).
  - cbn. lia.
  - cbn. lia.
  - vm_compute. reflexivity.
Defined.

(** ** [AxisFifoNode]

    A cycle as [Control] gives it: both ports see their interfaces, then the node is clocked.  The
    interface takes TREADY, and the wires, from before the clock. *)
Definition ex_fcfg : fifoCfg := mk_fifoCfg 1 1 0 [1].
Definition fifo_cycle (d : axisData) (t : bool) (x : fifoNode * list cycle * list cycle) : res (fifoNode * list cycle * list cycle) :=
  let '(s, lin, lout) := x in
  let* s1 := fifo_update ex_fcfg 0 0 (master_wires d) s in
  let* s1 := fifo_update ex_fcfg 0 1 (slave_wires t) s1 in
  let* (_, s1) := fifo_tick ex_fcfg 0 1 s1 in
  Ok (s1, lin ++ [(d, ff_currentSlave s)], lout ++ [(ff_currentMaster s, t)]).
Definition fifo_run (l : list (axisData * bool)) : res (fifoNode * list cycle * list cycle) :=
  foldM (fun x '(d, t) => fifo_cycle d t x) (fifo_init ex_idle, [], []) l.
Definition fifo_flow (r : res (fifoNode * list cycle * list cycle)) : option (list axisData * list axisData * list axisData) :=
  match r with Ok (s, lin, lout) => Some (handed lin, handed lout, (ff_fifo s).*1) | Err _ => None end.

(** A FIFO of depth one whose receiver is not ready takes two beats and keeps the first. *)
Example fifo_loses_beat : fifo_flow (fifo_run [(ex_a, false); (ex_b, false)]) = Some ([ex_a; ex_b], [], [ex_a]).
Proof. vm_compute. reflexivity. Qed.

(** A beat that the receiver first refuses is handed over twice: the node drives the front of
    the queue again in the cycle in which it is taken. *)
Example fifo_sends_twice :
  fifo_flow (fifo_run [(ex_a, false); (ex_idle, false); (ex_idle, true); (ex_idle, true)]) = Some ([ex_a], [ex_a; ex_a], []).
Proof. vm_compute. reflexivity. Qed.

(** ** The packet checker *)

(** A port range that ends at 65535: the end of the range wraps to zero, and the checker
    rejects the first port of it. *)
Definition ex_nat : checkerCfg :=
  mk_checkerCfg NatOutbound 64 1 100 true true 0 false 0 16909060 65000 536 [] [] (fun _ => 0).
Definition ex_nat_packet : list Z := repeat 0 12 ++ [1; 2; 3; 4] ++ repeat 0 4 ++ [65000 / 256; 65000 mod 256; 0; 0].
Example nat_range_end_wraps : checkNatOutboundPacket ex_nat ex_nat_packet = Err (FFatal "NAT src port outside expected range").
Proof. vm_compute. reflexivity. Qed.

(** A stream of two packets, checked with a prefix of four bytes. *)
Definition ex_build : res (list axisData) :=
  buildStreamWith Ipv4Udp 2 256 6 4 1 2 3 167772161 167772162 1000 2000 false false 4 170 [5%nat; 40%nat].
Definition ex_stream : list axisData := ok_or [] ex_build.
Definition ex_ckcfg : checkerCfg := mk_checkerCfg Exact 256 2 100 true true 4 false 0 0 0 0 ex_stream [] (fun _ => 0).
Definition ex_ck (s : checker) (d : axisData) : checker := (ok_or (false, s) (checker_cycle ex_ckcfg 5 1 d s)).2.
Definition ex_ck_end : checker := foldl ex_ck (checker_init ex_idle) ex_stream.
Definition ex_ckl : list cycle := (fun d => (d, true)) <$> ex_stream.

Fixpoint ex_fed (s : checker) (ds : list axisData) : bool :=
  match ds with
  | [] => true
  | d :: ds => ck_current s && match checker_cycle ex_ckcfg 5 1 d s with Ok (true, s') => ex_fed s' ds | _ => false end
  end.
Lemma ex_ck_reach ds s l : checker_reach ex_ckcfg ex_idle s l -> ex_fed s ds = true ->
  checker_reach ex_ckcfg ex_idle (foldl ex_ck s ds) (l ++ ((fun d => (d, true)) <$> ds)).
Proof.
  revert s l. induction ds as [|d ds IH]; intros s l Hr E; cbn [foldl fmap list_fmap ex_fed] in *; [by rewrite app_nil_r|].
  apply andb_prop in E as [Ec E]. unfold ex_ck at 2. destruct (checker_cycle ex_ckcfg 5 1 d s) as [[[] s']|] eqn:Es; try done.
  rewrite cons_middle, app_assoc. apply IH; [|exact E]. rewrite <- Ec. by apply (ckr_cycle ex_ckcfg ex_idle s l 5 1).
Qed.
Lemma ex_ck_end_reach : checker_reach ex_ckcfg ex_idle ex_ck_end ex_ckl.
Proof. apply (ex_ck_reach ex_stream (checker_init ex_idle) []); [constructor|vm_compute; reflexivity]. Qed.

Lemma checker_sound_witness : ck_packetsReceived ex_ck_end = 2 /\ Forall2 same_beat ex_stream ex_stream.
Proof.
  destruct (checker_sound ex_ckcfg ex_idle ex_ck_end ex_ckl ex_ck_end_reach) as (_ & _ & _ & _ & H).
  split; [vm_compute; reflexivity|]. specialize (H eq_refl).
  assert (handed ex_ckl = ex_stream) as E by (vm_compute; reflexivity). rewrite E in H. rewrite take_ge in H by reflexivity. exact H.
Defined.

Lemma checker_accepts_generated_witness : length ex_stream = 5%nat /\ ck_packetsReceived ex_ck_end = 2 /\
  exists s', checker_cycle ex_ckcfg 5 1 ex_idle ex_ck_end = Ok (true, s').
Proof.
  assert (handed ex_ckl = ex_stream) as E by (vm_compute; reflexivity).
  assert (0 < 256 <= 512) as H1 by lia.
  destruct (checker_accepts_generated ex_ckcfg ex_idle Ipv4Udp 2 256 6 4 1 2 3 167772161 167772162 1000 2000 4 170 [5%nat; 40%nat]
    H1 eq_refl eq_refl eq_refl eq_refl ex_ck_end ex_ckl 5 1 ex_idle) as [H H2].
  - apply ok_or_eq. vm_compute. reflexivity.
  - exact ex_ck_end_reach.
  - rewrite E. by exists [].
  - split_and!; [vm_compute; reflexivity|exact (H E)|]. by apply H2.
Defined.

(** ** The scheduler

    Interface 0 has a message of one beat in its buffer, a shim takes the beat to interface 1.
    The network is clocked at 200 MHz, the shim at 100 MHz. *)
Definition ex_beats_in : mbuf := ok_or mbuf_init (mb_enqueue ex_mbCfg mbuf_init (mk_beatMsg 0 ex_b 0 [] 0) 0 0 1 None false false).
Definition ex_e0 : endpoint :=
  let c := mk_axisIfCfg Slave 64 6 4 10 ex_mbCfg 0 in mk_endpoint c (nocIf_init c) ex_beats_in (sNmu_init 10).
Definition ex_e1 : endpoint :=
  let c := mk_axisIfCfg Master 64 6 4 10 ex_mbCfg 0 in mk_endpoint c (nocIf_init c) mbuf_init (sNmu_init 10).
Definition ex_x0 : Connection := mk_Connection 0 0 0 100.
Definition ex_x1 : Connection := mk_Connection 1 0 1 100.
Definition ex_ctl : controlCfg := mk_controlCfg [ex_x0; ex_x1] [] 200 1000000 1000000000000 (fun _ now => now) (fun _ _ => None).
Definition ex_c0 : control streamNode := mk_control [ex_e0; ex_e1] [ShimNode ex_shcfg (shim_init ex_idle)] [false].
Definition ex_ct (now cd : Z) (s : control streamNode) : control streamNode := (ok_or (s, [], None) (control_tick ex_ctl now cd s)).1.1.
Definition ex_c1 : control streamNode := ex_ct 5 200 ex_c0.
Definition ex_c2 : control streamNode := ex_ct 10 100 ex_c1.
Definition ex_c3 : control streamNode := ex_ct 20 100 ex_c2.
Definition ex_c4 : control streamNode := ex_ct 30 100 ex_c3.
Definition ex_c5 : control streamNode := ex_ct 35 200 ex_c4.

(** The messages that a tick moves. *)
Definition ex_moved (s s' : control streamNode) (k : nat) : list beatMsg :=
  match nocInterfaces s !! k, nocInterfaces s' !! k with
  | Some e, Some e' => match ac_role (ep_cfg e) with
                       | Slave => take (length (msgs_in (ep_q e)) - length (msgs_in (ep_q e'))) (msgs_in (ep_q e))
                       | Master => drop (length (msgs_in (ep_q e))) (msgs_in (ep_q e'))
                       end
  | _, _ => []
  end.
Definition ex_step (cd : Z) (s s' : control streamNode) (x : (nat -> list cycle) * (nat -> list beatMsg)) :
    (nat -> list cycle) * (nat -> list beatMsg) :=
  (fun k => x.1 k ++ cycles_at ex_ctl cd s k, fun k => x.2 k ++ ex_moved s s' k).
Definition ex_run : (nat -> list cycle) * (nat -> list beatMsg) :=
  ex_step 200 ex_c4 ex_c5 (ex_step 100 ex_c3 ex_c4 (ex_step 100 ex_c2 ex_c3 (ex_step 100 ex_c1 ex_c2 (ex_step 200 ex_c0 ex_c1 (fun _ => [], fun _ => []))))).

Lemma ex_ct_reach now cd s x : ctl_reach ex_ctl ex_c0 s x.1 x.2 -> is_ok (control_tick ex_ctl now cd s) = true ->
  (exists e0 e1 sh, s = mk_control [e0; e1] [ShimNode ex_shcfg sh] (nodeDone s) /\ ac_role (ep_cfg e0) = Slave /\ ac_role (ep_cfg e1) = Master) ->
  (exists e0 e1, nocInterfaces (ex_ct now cd s) = [e0; e1]) ->
  (forall k e e', nocInterfaces s !! k = Some e -> nocInterfaces (ex_ct now cd s) !! k = Some e' -> (k < 2)%nat -> moved e e' (ex_moved s (ex_ct now cd s) k)) ->
  ctl_reach ex_ctl ex_c0 (ex_ct now cd s) (ex_step cd s (ex_ct now cd s) x).1 (ex_step cd s (ex_ct now cd s) x).2.
Proof.
  intros Hr Hok (e0 & e1 & sh & Hs & R0 & R1) (f0 & f1 & Hf) Hm. unfold ex_ct in *.
  destruct (control_tick ex_ctl now cd s) as [[[s' ex] nx]|] eqn:E; [|done]. cbn [ok_or fst snd] in *.
  apply (ctl_tick ex_ctl ex_c0 s x.1 x.2 now cd s' ex nx (ex_moved s s')); [done| |done|].
  - rewrite Hs. intros y e n st Hy. apply elem_of_cons in Hy as [-> | Hy%list_elem_of_singleton]; [|subst y]; cbn; intros [= <-] [= <-]; cbn;
      intros [= <-]; rewrite ?R0, ?R1; by eexists.
  - intros k e e' He He'. apply Hm; [done..|]. rewrite Hf in He'. apply lookup_lt_Some in He'. exact He'.
Qed.

Lemma ex_c5_reach : ctl_reach ex_ctl ex_c0 ex_c5 ex_run.1 ex_run.2.
Proof.
  unfold ex_run. do 5 (apply ex_ct_reach; [|vm_compute; reflexivity|vm_compute; by eexists _, _, _|vm_compute; by eexists _, _|
    intros [|[|k]] e e'; vm_compute; [intros [= <-] [= <-] _; reflexivity..|done]]). constructor.
Qed.

Lemma ex_new : Forall (fun e => ep_if e = nocIf_init (ep_cfg e)) (nocInterfaces ex_c0).
Proof. repeat constructor. Qed.
Lemma ex_one : NoDup (cn_if <$> connections ex_ctl).
Proof. cbn. apply (bool_decide_unpack _). vm_compute. exact I. Qed.

Lemma control_runs_interfaces_witness : exists e,
  nocInterfaces ex_c5 !! 1%nat = Some e /\ handed (ex_run.1 1%nat) = [ex_b] /\ if_run e (ex_run.1 1%nat) (ex_run.2 1%nat).
Proof.
  destruct (nocInterfaces ex_c5 !! 1%nat) as [e|] eqn:E; [|vm_compute in E; discriminate E].
  destruct (control_runs_interfaces ex_ctl ex_c0 ex_new ex_one ex_c5 ex_run.1 ex_run.2 1 e ex_c5_reach E) as (e0 & _ & _ & H).
  exists e. split_and!; [reflexivity|vm_compute; reflexivity|exact H].
Defined.

Lemma control_relays_stream_witness :
  bm_beat <$> ex_run.2 0%nat = [ex_b] /\ bm_beat <$> ex_run.2 1%nat = [ex_b] /\ keeps_contract (ex_run.1 1%nat).
Proof.
  assert (bm_beat <$> ex_run.2 0%nat = [ex_b]) as E by (vm_compute; reflexivity).
  split_and!; [exact E|vm_compute; reflexivity|].
  destruct (control_relays_stream ex_ctl ex_c0 ex_shcfg ex_idle 0 ex_x0 ex_x1 ex_new ex_one eq_refl (Permutation_refl _) (conj eq_refl eq_refl)
    eq_refl eq_refl (Forall_nil_2 _) ex_e0 ex_e1 ex_c5 ex_run.1 ex_run.2 ex_depth eq_refl eq_refl eq_refl eq_refl ex_c5_reach) as (w & _ & _ & H).
  - vm_compute. repeat constructor.
  - apply H. change (cn_if ex_x0) with 0%nat. rewrite E. split; [by intros x [=]|exact I].
Defined.

(** ** Wiring *)

(** A shim between two interfaces, and one that feeds a checker directly. *)
Definition ex_objs : list (portNode streamNode) :=
  [mk_portNode (ShimNode ex_shcfg (shim_init ex_idle)) ["a"; "b"] [100; 100] (ShimPorts false false);
   mk_portNode (ShimNode ex_shcfg (shim_init ex_idle)) ["c"; "d"] [100; 50] (ShimPorts false false);
   mk_portNode (CheckerNode ex_ckcfg (checker_init ex_idle)) ["e"] [50] (CheckerPorts false)].
Definition ex_params : controlParams := mk_controlParams ["a"; "b"; "c"] 3 [0; 1; 2] [0; 2; 3] 200 [1%nat] [2%nat] ["d"] ["e"].
Definition ex_wired : wiring streamNode := ok_or (mk_wiring [] [] [] [] ∅) (build ex_params ex_objs).

Lemma control_wiring_witness : build ex_params ex_objs = Ok ex_wired /\
  wi_connections ex_wired = [ex_x0; ex_x1; mk_Connection 2 1 0 100] /\ wi_direct ex_wired = [mk_DirectConnection 1 2 1 0 50] /\
  clockDomains ex_wired = [100; 200; 50] /\ NoDup (cn_if <$> wi_connections ex_wired) /\ NoDup (ends ex_wired).
Proof.
  assert (build ex_params ex_objs = Ok ex_wired) as E by (vm_compute; reflexivity).
  destruct (control_wiring ex_params ex_objs ex_wired ltac:(cbn; lia) E) as (_ & _ & _ & _ & _ & _ & Hn & _ & _ & _ & Ho).
  split; [exact E|]. split; [vm_compute; reflexivity|]. split; [vm_compute; reflexivity|]. split; [vm_compute; reflexivity|].
  split; [apply Ho; apply (bool_decide_unpack _); vm_compute; exact I|]. apply Hn. by repeat constructor.
Defined.

(** A FIFO counts its ports but does not remember which it gave out: two interfaces with the
    name of its first port both get port 0. *)
Example fifo_port_twice : let f := mk_portNode tt ["in"; "out"] [100; 100] (FifoPorts 0) in
  match assignPort "in" f with
  | Ok (port, f) => port = 0 /\ match assignPort "in" f with Ok (port, _) => port = 0 | Err _ => False end
  | Err _ => False
  end.
Proof. by vm_compute. Qed.

(** A port without a clock domain is connected in domain 0, whose tick divides by zero. *)
Example missing_clock_divides_by_zero :
  let o := [mk_portNode (ShimNode ex_shcfg (shim_init ex_idle)) ["a"; "b"] [] (ShimPorts false false)] in
  let p := mk_controlParams ["a"; "b"] 1 [0; 1] [0] 200 [] [] [] [] in
  match build p o with
  | Ok w => clockDomains w = [0; 200] /\
      control_tick (mk_controlCfg (wi_connections w) [] 200 1000000 1000000000000 (fun _ now => now) (fun _ _ => None)) 5 0 ex_c0 =
      Err (FUndef "division by zero")
  | Err _ => False
  end.
Proof. by vm_compute. Qed.
