(* ===== verification/HbmArbiter.v ===== *)
(** * The arbiter of the HBM endpoints

    [HBMArbiter] of [src/src/noc/hbm/HBMArbiter.cc] grants one endpoint at a time, round robin
    among those that want to issue, and spaces grants so that the configured bandwidths are
    kept.  Endpoints are numbers; whether one wants to issue ([arbiterWantsIssue]) is an input.

    [bwSpacingTicks] divides in [long double].  With its 64-bit significand the result is the
    ceiling of the exact quotient whenever the dividend is below [2^63]; the model computes
    that. *)

From S2P Require Import Prelude.

Definition hbmBurstBytes : Z := 32.

Record hbmCfg := mk_hbmCfg {
  issueIntervalCycles : Z;
  sharedBwMBps : Z;
  nmuBwMBps : Z;
  hb_Frequency : Z              (* ticks per second *)
}.
Record HBMArbiter := mk_HBMArbiter {
  hb_endpoints : list nat;
  endpointNextGrantTick : gmap nat Z;
  rrNextIndex : nat;
  nextGrantTick : Z
}.
Definition HBMArbiter_init : HBMArbiter := mk_HBMArbiter [] ∅ 0 0.

Definition ceil_div (a b : Z) : Z := (a + b - 1) / b.

Section Arbiter.
Context (c : hbmCfg).
Implicit Types (s : HBMArbiter) (wants : nat -> bool).

Definition bwSpacingTicks (bwMBps requestBytes : Z) : Z :=
  if bwMBps =? 0 then 0 else u64 (ceil_div (Z.max requestBytes 1 * hb_Frequency c) (bwMBps * 1000 * 1000)).

Definition addEndpoint (e : nat) s : HBMArbiter :=
  if bool_decide (e ∈ hb_endpoints s) then s
  else mk_HBMArbiter (hb_endpoints s ++ [e])
         (match endpointNextGrantTick s !! e with Some _ => endpointNextGrantTick s | None => <[e := 0]> (endpointNextGrantTick s) end)
         (rrNextIndex s) (nextGrantTick s).

(** The search from offset [off], for the remaining [n] offsets. *)
Fixpoint winnerFrom wants s (now : Z) (off n : nat) : option nat :=
  match n with
  | O => None
  | S n =>
      match hb_endpoints s !! ((rrNextIndex s + off) mod length (hb_endpoints s))%nat with
      | Some e => if (default 0 (endpointNextGrantTick s !! e) <=? now) && wants e then Some e
                  else winnerFrom wants s now (S off) n
      | None => None
      end
  end.
Definition selectWinner wants s (now : Z) : option nat :=
  if (now <? nextGrantTick s) || (length (hb_endpoints s) =? 0)%nat then None
  else winnerFrom wants s now 0 (length (hb_endpoints s)).
Definition grantFor wants s (e : nat) (now : Z) : bool := bool_decide (selectWinner wants s now = Some e).

Definition minBurstTicks (clockPeriod requestBytes : Z) : Z :=
  if 0 <? issueIntervalCycles c
  then Z.max clockPeriod (u64 ((Z.max requestBytes 1 + hbmBurstBytes - 1) / hbmBurstBytes * issueIntervalCycles c * clockPeriod))
  else 0.
Definition sharedSpacingTicks (clockPeriod requestBytes : Z) : Z :=
  Z.max (minBurstTicks clockPeriod requestBytes) (bwSpacingTicks (sharedBwMBps c) requestBytes).

Fixpoint index_of (e : nat) (l : list nat) : option nat :=
  match l with
  | [] => None
  | x :: l => if decide (x = e) then Some 0%nat else S <$> index_of e l
  end.
Definition noteIssued (e : nat) (now clockPeriod requestBytes : Z) s : HBMArbiter :=
  match index_of e (hb_endpoints s) with
  | Some i =>
      mk_HBMArbiter (hb_endpoints s) (<[e := u64 (now + bwSpacingTicks (nmuBwMBps c) requestBytes)]> (endpointNextGrantTick s))
        ((i + 1) mod length (hb_endpoints s))%nat (u64 (now + sharedSpacingTicks clockPeriod requestBytes))
  | None => s
  end.

(** ** Runs *)

(** An issue: at [iss_now] endpoint [iss_ep] is granted and sends a request. *)
Record issue := mk_issue { iss_now : Z; iss_ep : nat; iss_period : Z; iss_bytes : Z; iss_wants : nat -> bool }.

(** [hbm_run s l s']: the issues [l] lead from [s] to [s']; no tick overflows. *)
Inductive hbm_run : HBMArbiter -> list issue -> HBMArbiter -> Prop :=
| hr_none s : hbm_run s [] s
| hr_issue s l s1 x :
    hbm_run s l s1 -> 0 <= iss_now x -> 0 <= iss_period x -> 0 <= iss_bytes x ->
    selectWinner (iss_wants x) s1 (iss_now x) = Some (iss_ep x) ->
    Z.max (iss_bytes x) 1 * hb_Frequency c < 2 ^ 63 ->
    iss_now x + sharedSpacingTicks (iss_period x) (iss_bytes x) < 2 ^ 64 ->
    iss_now x + bwSpacingTicks (nmuBwMBps c) (iss_bytes x) < 2 ^ 64 ->
    hbm_run s (l ++ [x]) (noteIssued (iss_ep x) (iss_now x) (iss_period x) (iss_bytes x) s1).

(** The states an arbiter can be in. *)
Inductive hbm_reach : HBMArbiter -> Prop :=
| hbr_init : hbm_reach HBMArbiter_init
| hbr_add e s : hbm_reach s -> hbm_reach (addEndpoint e s)
| hbr_issued e now period bytes s : hbm_reach s -> hbm_reach (noteIssued e now period bytes s).

Record hbm_ok s : Prop := {
  ho_nodup : NoDup (hb_endpoints s);
  ho_rr : (rrNextIndex s < Nat.max 1 (length (hb_endpoints s)))%nat
}.

Lemma index_of_Some e l i : index_of e l = Some i -> l !! i = Some e.
Proof.
  revert i. induction l as [|x l IH]; intros i; cbn; [done|]. case_decide as E; [intros [= <-]; by subst|].
  destruct (index_of e l) as [j|]; [|done]. intros [= <-]. by apply IH.
Qed.
Lemma index_of_lookup e l i : NoDup l -> l !! i = Some e -> index_of e l = Some i.
Proof.
  revert i. induction l as [|x l IH]; intros i Hnd; [done|]. apply NoDup_cons in Hnd as [Hx Hn]. cbn. destruct i as [|i]; cbn.
  - intros [= ->]. by rewrite decide_True.
  - intros Hi. rewrite decide_False by (intros ->; by apply list_elem_of_lookup_2 in Hi). by rewrite (IH i).
Qed.
Lemma noteIssued_endpoints e now p b s : hb_endpoints (noteIssued e now p b s) = hb_endpoints s.
Proof. unfold noteIssued. by destruct (index_of e _). Qed.

Lemma hbm_reach_ok s : hbm_reach s -> hbm_ok s.
Proof.
  induction 1 as [|e s _ [Hn Hr]|e now p b s _ [Hn Hr]].
  - split; [apply NoDup_nil_2|cbn; lia].
  - unfold addEndpoint. case_bool_decide as He; [by split|]. split; cbn.
    + apply NoDup_app. split_and!; [done| |apply NoDup_singleton]. by intros x Hx ->%list_elem_of_singleton.
    + rewrite length_app. cbn. destruct (hb_endpoints s); cbn in *; lia.
  - split; rewrite ?noteIssued_endpoints; [done|]. unfold noteIssued. destruct (index_of e (hb_endpoints s)) as [i|] eqn:E; [|done].
    cbn. apply index_of_Some, lookup_lt_Some in E. pose proof (Nat.mod_upper_bound (i + 1) (length (hb_endpoints s))). lia.
Qed.

(** ** Fairness *)

(** The offset at which the search meets endpoint [e]. *)
Definition offset_of (e : nat) s : nat :=
  let n := length (hb_endpoints s) in
  match index_of e (hb_endpoints s) with Some i => (i + n - rrNextIndex s) mod n | None => n end%nat.

Lemma offset_lookup e s i : hbm_ok s -> index_of e (hb_endpoints s) = Some i ->
  (offset_of e s < length (hb_endpoints s))%nat /\ ((rrNextIndex s + offset_of e s) mod length (hb_endpoints s))%nat = i.
Proof.
  intros [_ Hr] E. pose proof (lookup_lt_Some _ _ _ (index_of_Some _ _ _ E)) as Hi. unfold offset_of. rewrite E.
  set (n := length (hb_endpoints s)) in *. split; [apply Nat.mod_upper_bound; lia|].
  rewrite Nat.Div0.add_mod_idemp_r. replace (rrNextIndex s + (i + n - rrNextIndex s))%nat with (i + 1 * n)%nat by lia.
  rewrite Nat.Div0.mod_add. by apply Nat.mod_small.
Qed.

(** The search stops at the first endpoint that wants to issue and may. *)
Lemma winnerFrom_first wants s now n off w : winnerFrom wants s now off n = Some w ->
  exists k, (off <= k < off + n)%nat /\ hb_endpoints s !! ((rrNextIndex s + k) mod length (hb_endpoints s))%nat = Some w /\
    wants w = true /\ default 0 (endpointNextGrantTick s !! w) <= now /\
    forall j e, (off <= j < k)%nat -> hb_endpoints s !! ((rrNextIndex s + j) mod length (hb_endpoints s))%nat = Some e ->
      ~ (wants e = true /\ default 0 (endpointNextGrantTick s !! e) <= now).
Proof.
  revert off. induction n as [|n IH]; intros off; cbn [winnerFrom]; [done|].
  destruct (hb_endpoints s !! _) as [e|] eqn:Ee; [|done]. destruct ((_ <=? now) && wants e) eqn:Ew.
  - intros [= <-]. apply andb_prop in Ew as [Et Ew]. exists off. split_and!; [lia|lia|done|done|lia|]. intros; lia.
  - intros H. destruct (IH _ H) as (k & Hk & Hl & Hw & Ht & Hall). exists k. split_and!; [lia|lia|done..|]. intros j e' Hj He' [H1 H2].
    destruct (decide (j = off)) as [->|]; [|exact (Hall j e' ltac:(lia) He' (conj H1 H2))]. rewrite Ee in He'. injection He' as <-.
    rewrite H1, andb_true_r in Ew. lia.
Qed.

Lemma mod_once x n : (x < 2 * n)%nat -> (x mod n = if decide (x < n) then x else x - n)%nat.
Proof.
  intros H. case_decide; [by apply Nat.mod_small|]. replace x with (x - n + 1 * n)%nat at 1 by lia. rewrite Nat.Div0.mod_add. apply Nat.mod_small. lia.
Qed.

(** The winner stands before every endpoint that could have been granted. *)
Lemma winner_before wants s now e w : hbm_ok s -> e ∈ hb_endpoints s -> wants e = true ->
  default 0 (endpointNextGrantTick s !! e) <= now -> selectWinner wants s now = Some w -> w <> e ->
  w ∈ hb_endpoints s /\ (offset_of w s < offset_of e s)%nat.
Proof.
  intros Hok He Hw Ht Hs Hne. unfold selectWinner in Hs. destruct (_ || _); [done|].
  apply winnerFrom_first in Hs as (k & Hk & Hl & _ & _ & Hall). split; [by eapply list_elem_of_lookup_2|].
  apply list_elem_of_lookup in He as [i Hi]. pose proof (index_of_lookup _ _ _ (ho_nodup _ Hok) Hi) as Ei.
  pose proof (index_of_lookup _ _ _ (ho_nodup _ Hok) Hl) as Ej. destruct (offset_lookup _ _ _ Hok Ei) as [Ho Hoi].
  assert (k < offset_of e s)%nat as Hlt.
  { destruct (decide (k = offset_of e s)) as [->|]; [rewrite Hoi, Hi in Hl; congruence|].
    destruct (decide (offset_of e s < k)%nat); [|lia]. exfalso. apply (Hall (offset_of e s) e); [lia|by rewrite Hoi|done]. }
  enough (offset_of w s = k) by lia. unfold offset_of. rewrite Ej. set (n := length (hb_endpoints s)) in *.
  assert (rrNextIndex s < n)%nat as Hr by (pose proof (ho_rr _ Hok); apply lookup_lt_Some in Hi; lia).
  pose proof (mod_once (rrNextIndex s + k) n ltac:(lia)) as H1. assert ((rrNextIndex s + k) mod n < n)%nat by (apply Nat.mod_upper_bound; lia).
  set (j := ((rrNextIndex s + k) mod n)%nat) in *. clearbody j. rewrite mod_once by lia. repeat case_decide; lia.
Qed.

(** An issue turns the order behind the winner. *)
Lemma issue_turns w now p b s x : hbm_ok s -> w ∈ hb_endpoints s -> x ∈ hb_endpoints s ->
  offset_of x (noteIssued w now p b s) = if decide (offset_of w s < offset_of x s)%nat then (offset_of x s - S (offset_of w s))%nat
    else (offset_of x s + length (hb_endpoints s) - S (offset_of w s))%nat.
Proof.
  intros Hok [j Hj]%list_elem_of_lookup [i Hi]%list_elem_of_lookup.
  pose proof (index_of_lookup _ _ _ (ho_nodup _ Hok) Hi) as Ei. pose proof (index_of_lookup _ _ _ (ho_nodup _ Hok) Hj) as Ej.
  destruct (offset_lookup _ _ _ Hok Ei) as [Ho Hoi], (offset_lookup _ _ _ Hok Ej) as [Hw Hwj].
  unfold offset_of at 1. rewrite noteIssued_endpoints, Ei. unfold noteIssued. rewrite Ej. cbn [rrNextIndex].
  set (n := length (hb_endpoints s)) in *. set (o := offset_of x s) in *. set (k := offset_of w s) in *. set (r := rrNextIndex s) in *.
  assert (r < n)%nat as Hr by (pose proof (ho_rr _ Hok); apply lookup_lt_Some in Hi; lia).
  pose proof (mod_once (r + k) n ltac:(lia)) as H1. pose proof (mod_once (r + o) n ltac:(lia)) as H2. rewrite Hwj in H1. rewrite Hoi in H2.
  clearbody n o k r. pose proof (mod_once (j + 1) n) as H4. assert (j < n /\ i < n)%nat as [Hjn Hin] by (repeat case_decide; lia).
  specialize (H4 ltac:(lia)). assert ((j + 1) mod n < n)%nat as H5 by (apply Nat.mod_upper_bound; lia).
  set (r2 := ((j + 1) mod n)%nat) in *. clearbody r2. rewrite mod_once by lia. repeat case_decide; lia.
Qed.

Lemma hbm_run_ok s l s' : hbm_run s l s' -> hbm_reach s -> hbm_reach s' /\ hb_endpoints s' = hb_endpoints s.
Proof.
  induction 1 as [|s l s1 x _ IH]; [done|]. intros Hs. destruct (IH Hs) as [G1 G2]. split; [by constructor|]. by rewrite noteIssued_endpoints.
Qed.
Lemma noteIssued_other e w now p b s : w <> e -> endpointNextGrantTick (noteIssued w now p b s) !! e = endpointNextGrantTick s !! e.
Proof. intros H. unfold noteIssued. destruct (index_of w _); [|done]. by apply lookup_insert_ne. Qed.

(** While [e] waits, the endpoints that were granted stand behind it. *)
Lemma run_behind s l s' e : hbm_reach s -> hbm_run s l s' -> e ∈ hb_endpoints s ->
  Forall (fun x => iss_wants x e = true /\ default 0 (endpointNextGrantTick s !! e) <= iss_now x /\ iss_ep x <> e) l ->
  endpointNextGrantTick s' !! e = endpointNextGrantTick s !! e /\ NoDup (iss_ep <$> l) /\
  (forall x, x ∈ iss_ep <$> l -> x ∈ hb_endpoints s /\ (offset_of e s' < offset_of x s')%nat).
Proof.
  intros Hs Hr He. induction Hr as [s|s l s1 x Hr IH _ _ _ Hsel _ _ _]; intros Hall.
  { split_and!; [done|apply NoDup_nil_2|intros x Hx; by apply elem_of_nil in Hx]. }
  apply Forall_app in Hall as [Hall [[Hw [Ht Hne]] _]%Forall_cons]. destruct (IH Hs He Hall) as (Hn & Hd & Hb).
  destruct (hbm_run_ok _ _ _ Hr Hs) as [Hs1%hbm_reach_ok He1]. rewrite <- Hn in Ht. rewrite <- He1 in He.
  destruct (winner_before _ _ _ _ _ Hs1 He Hw Ht Hsel Hne) as [Hin Hlt].
  split; [by rewrite noteIssued_other|]. rewrite fmap_app. split.
  - apply NoDup_app. split_and!; [done| |apply NoDup_singleton]. intros y Hy ->%list_elem_of_singleton. destruct (Hb _ Hy). lia.
  - intros y [Hy|Hy%list_elem_of_singleton]%elem_of_app.
    + destruct (Hb _ Hy) as [Hy1 Hy2]. split; [done|]. rewrite <- He1 in Hy1. rewrite !issue_turns by done. repeat case_decide; lia.
    + cbn in Hy. subst y. split; [by rewrite <- He1|]. rewrite !issue_turns by done. rewrite decide_True by done. rewrite decide_False by lia.
      apply list_elem_of_lookup in He as [i Hi]. pose proof (index_of_lookup _ _ _ (ho_nodup _ Hs1) Hi) as Ei. destruct (offset_lookup _ _ _ Hs1 Ei). lia.
Qed.

(** C40: the arbiter is fair.  While an endpoint wants to issue, and its own spacing has passed,
    no other endpoint is granted twice before it is: the issues that pass it over are those of
    different endpoints, so among [n] endpoints there are fewer than [n] of them. *)
Theorem hbm_fair s l s' e : hbm_reach s -> hbm_run s l s' -> e ∈ hb_endpoints s ->
  Forall (fun x => iss_wants x e = true /\ default 0 (endpointNextGrantTick s !! e) <= iss_now x /\ iss_ep x <> e) l ->
  NoDup (iss_ep <$> l) /\ (length l < length (hb_endpoints s))%nat.
Proof.
  intros Hs Hr He Hall. destruct (run_behind _ _ _ _ Hs Hr He Hall) as (_ & Hd & Hb). split; [done|].
  assert (NoDup (e :: (iss_ep <$> l))) as Hd'.
  { constructor; [|done]. intros (x & -> & Hx)%list_elem_of_fmap. rewrite Forall_forall in Hall. by apply (Hall x Hx). }
  assert (e :: (iss_ep <$> l) ⊆+ hb_endpoints s) as Hsub.
  { apply NoDup_submseteq; [done|]. intros x [->|Hx]%elem_of_cons; [done|by apply Hb]. }
  apply submseteq_length in Hsub. cbn in Hsub. rewrite length_fmap in Hsub. lia.
Qed.

(** ** Bandwidth *)

Definition issued_bytes (l : list issue) : Z := sumZ ((fun x => Z.max (iss_bytes x) 1) <$> l).

Lemma ceil_div_ge a b : 0 < b -> a <= b * ceil_div a b.
Proof. intros Hb. unfold ceil_div. pose proof (Z.div_mod (a + b - 1) b). pose proof (Z.mod_pos_bound (a + b - 1) b). lia. Qed.

Hypothesis Hfreq : 0 < hb_Frequency c.

Lemma bwSpacing_enough bw bytes : 0 < bw -> Z.max bytes 1 * hb_Frequency c < 2 ^ 63 ->
  Z.max bytes 1 * hb_Frequency c <= bw * 1000 * 1000 * bwSpacingTicks bw bytes /\ 0 <= bwSpacingTicks bw bytes.
Proof using Hfreq.
  intros Hbw Hlt. unfold bwSpacingTicks. rewrite (proj2 (Z.eqb_neq _ _)) by lia.
  set (a := Z.max bytes 1 * hb_Frequency c) in *. assert (0 < a) by (unfold a; nia).
  pose proof (ceil_div_ge a (bw * 1000 * 1000) ltac:(lia)) as Hc.
  assert (0 <= ceil_div a (bw * 1000 * 1000) <= a) as Hb.
  { unfold ceil_div. split; [apply Z.div_pos; lia|]. apply Z.div_le_upper_bound; nia. }
  rewrite u64_small by lia. lia.
Qed.

(** What an issue does to the two times. *)
Lemma issue_times s x : hbm_reach s -> selectWinner (iss_wants x) s (iss_now x) = Some (iss_ep x) -> 0 <= iss_now x -> 0 <= iss_period x ->
  Z.max (iss_bytes x) 1 * hb_Frequency c < 2 ^ 63 ->
  iss_now x + sharedSpacingTicks (iss_period x) (iss_bytes x) < 2 ^ 64 ->
  iss_now x + bwSpacingTicks (nmuBwMBps c) (iss_bytes x) < 2 ^ 64 ->
  let s' := noteIssued (iss_ep x) (iss_now x) (iss_period x) (iss_bytes x) s in
  nextGrantTick s <= iss_now x /\ default 0 (endpointNextGrantTick s !! iss_ep x) <= iss_now x /\
  (0 < sharedBwMBps c -> iss_now x + bwSpacingTicks (sharedBwMBps c) (iss_bytes x) <= nextGrantTick s') /\
  (0 < nmuBwMBps c -> endpointNextGrantTick s' !! iss_ep x = Some (iss_now x + bwSpacingTicks (nmuBwMBps c) (iss_bytes x))).
Proof using Hfreq.
  intros Hs Hsel Hnow Hper Hb H1 H2 s'. unfold selectWinner in Hsel. destruct (Z.ltb_spec (iss_now x) (nextGrantTick s)); [done|]. cbn [orb] in Hsel.
  destruct (length (hb_endpoints s) =? 0)%nat; [done|]. apply winnerFrom_first in Hsel as (k & _ & Hl & _ & Ht & _).
  pose proof (index_of_lookup _ _ _ (ho_nodup _ (hbm_reach_ok _ Hs)) Hl) as Ei. unfold s', noteIssued. rewrite Ei. cbn.
  split_and!; [done..| |].
  - intros Hbw. destruct (bwSpacing_enough _ _ Hbw Hb) as [_ H0]. unfold sharedSpacingTicks in *. rewrite u64_small; lia.
  - intros Hbw. destruct (bwSpacing_enough _ _ Hbw Hb) as [_ H0]. rewrite lookup_insert_eq, u64_small by lia. done.
Qed.
Lemma issued_snoc l x : issued_bytes (l ++ [x]) = issued_bytes l + Z.max (iss_bytes x) 1.
Proof. unfold issued_bytes. rewrite fmap_app, sumZ_app. cbn. lia. Qed.

Lemma run_shared s l s' : hbm_run s l s' -> hbm_reach s -> 0 < sharedBwMBps c -> forall x t, l = x :: t ->
  issued_bytes l * hb_Frequency c <= sharedBwMBps c * 1000 * 1000 * (nextGrantTick s' - iss_now x).
Proof using Hfreq.
  induction 1 as [|s l s1 y Hr IH Hn Hp _ Hsel Hb H1 H2]; intros Hs Hbw x t E; [done|].
  destruct (hbm_run_ok _ _ _ Hr Hs) as [Hs1 _]. destruct (issue_times _ _ Hs1 Hsel Hn Hp Hb H1 H2) as (T1 & _ & T2 & _). specialize (T2 Hbw).
  destruct (bwSpacing_enough _ _ Hbw Hb) as [H3 _]. rewrite issued_snoc. set (s2 := noteIssued _ _ _ _ _) in *.
  destruct l as [|z l]; cbn in E; injection E as <- <-.
  - change (issued_bytes []) with 0. nia.
  - specialize (IH Hs Hbw z l eq_refl). nia.
Qed.
Lemma run_endpoint e s l s' : hbm_run s l s' -> hbm_reach s -> 0 < nmuBwMBps c -> forall x t, filter (fun x => iss_ep x = e) l = x :: t ->
  issued_bytes (x :: t) * hb_Frequency c <= nmuBwMBps c * 1000 * 1000 * (default 0 (endpointNextGrantTick s' !! e) - iss_now x).
Proof using Hfreq.
  induction 1 as [|s l s1 y Hr IH Hn Hp _ Hsel Hb H1 H2]; intros Hs Hbw x t E; [done|].
  destruct (hbm_run_ok _ _ _ Hr Hs) as [Hs1 _]. destruct (issue_times _ _ Hs1 Hsel Hn Hp Hb H1 H2) as (_ & T1 & _ & T2). specialize (T2 Hbw).
  destruct (bwSpacing_enough _ _ Hbw Hb) as [H3 _]. rewrite filter_app, filter_cons, filter_nil in E. case_decide as Ey.
  - subst e. rewrite <- E, issued_snoc, T2. cbn [from_option id]. destruct (filter _ l) as [|z r]; cbn in E; injection E as <- <-.
    + change (issued_bytes []) with 0. nia.
    + specialize (IH Hs Hbw z r eq_refl). nia.
  - rewrite app_nil_r in E. rewrite noteIssued_other by done. by apply IH.
Qed.

(** The arbiter keeps the bandwidths.  From an issue to any later one the bytes issued, the
    last excluded, are at most what the shared bandwidth allows in the time between; and
    between two issues of one endpoint its bytes are within the bandwidth of an endpoint. *)
Theorem hbm_bandwidth s l s' x mid y : hbm_reach s -> hbm_run s l s' -> l = x :: mid ++ [y] ->
  (0 < sharedBwMBps c -> issued_bytes (x :: mid) * hb_Frequency c <= sharedBwMBps c * 1000 * 1000 * (iss_now y - iss_now x)) /\
  (0 < nmuBwMBps c -> iss_ep x = iss_ep y ->
   issued_bytes (filter (fun z => iss_ep z = iss_ep y) (x :: mid)) * hb_Frequency c <= nmuBwMBps c * 1000 * 1000 * (iss_now y - iss_now x)).
Proof using Hfreq.
  intros Hs Hr E. destruct Hr as [|s l s1 z Hr Hn Hp Hb0 Hsel Hb H1 H2]; [done|].
  rewrite app_comm_cons in E. apply app_inj_tail in E as [-> ->]. destruct (hbm_run_ok _ _ _ Hr Hs) as [Hs1 _].
  destruct (issue_times _ _ Hs1 Hsel Hn Hp Hb H1 H2) as (T1 & T2 & _). split.
  - intros Hbw. pose proof (run_shared _ _ _ Hr Hs Hbw x mid eq_refl). nia.
  - intros Hbw Hxy. pose proof (run_endpoint (iss_ep y) _ _ _ Hr Hs Hbw x (filter (fun z => iss_ep z = iss_ep y) mid)) as H.
    rewrite filter_cons, decide_True in * by done. specialize (H eq_refl). nia.
Qed.
End Arbiter.

(** ** Examples *)

(** Three endpoints that all want to issue, 64 bytes at a time, at 1000 MB/s shared and 500 MB/s each. *)
Definition ex_hbm : hbmCfg := mk_hbmCfg 1 1000 500 1000000000000.
Definition ex_arb : HBMArbiter := addEndpoint 2 (addEndpoint 1 (addEndpoint 0 HBMArbiter_init)).
Definition ex_issue (now : Z) (e : nat) : issue := mk_issue now e 1000 64 (fun _ => true).
Definition ex_note (now : Z) (e : nat) (s : HBMArbiter) : HBMArbiter := noteIssued ex_hbm e now 1000 64 s.

Lemma ex_arb_reach : hbm_reach ex_hbm ex_arb.
Proof. repeat constructor. Qed.
Lemma ex_note_run s l now e : hbm_run ex_hbm ex_arb l s -> 0 <= now < 1000000 -> selectWinner (fun _ => true) s now = Some e ->
  hbm_run ex_hbm ex_arb (l ++ [ex_issue now e]) (ex_note now e s).
Proof.
  intros Hr Hn Hs. apply (hr_issue ex_hbm ex_arb l s (ex_issue now e)); try done; try (cbn; lia).
  - change (now + 64000 < 2 ^ 64). lia.
  - change (now + 128000 < 2 ^ 64). lia.
Qed.
Lemma ex_hbm_run : hbm_run ex_hbm ex_arb [ex_issue 0 0; ex_issue 64000 1; ex_issue 128000 2; ex_issue 192000 0]
  (ex_note 192000 0 (ex_note 128000 2 (ex_note 64000 1 (ex_note 0 0 ex_arb)))).
Proof.
  apply (ex_note_run _ [_; _; _]); [|lia|vm_compute; reflexivity]. apply (ex_note_run _ [_; _]); [|lia|vm_compute; reflexivity].
  apply (ex_note_run _ [_]); [|lia|vm_compute; reflexivity]. apply (ex_note_run _ []); [constructor|lia|vm_compute; reflexivity].
Qed.

Lemma hbm_fair_witness : NoDup (iss_ep <$> [ex_issue 0 0; ex_issue 64000 1]) /\ (length [ex_issue 0 0; ex_issue 64000 1] < length (hb_endpoints ex_arb))%nat.
Proof.
  apply (hbm_fair ex_hbm ex_arb [ex_issue 0 0; ex_issue 64000 1] (ex_note 64000 1 (ex_note 0 0 ex_arb)) 2 ex_arb_reach).
  - apply (ex_note_run _ [_]); [|lia|vm_compute; reflexivity]. apply (ex_note_run _ []); [constructor|lia|vm_compute; reflexivity].
  - apply (bool_decide_unpack _). vm_compute. exact I.
  - constructor; [|constructor; [|constructor]]; (split; [done|split; [vm_compute; done|done]]).
Defined.

Lemma hbm_bandwidth_witness : issued_bytes [ex_issue 0 0; ex_issue 64000 1; ex_issue 128000 2] * 1000000000000 <= 1000 * 1000 * 1000 * 192000 /\
  issued_bytes [ex_issue 0 0] * 1000000000000 <= 500 * 1000 * 1000 * 192000.
Proof.
  destruct (hbm_bandwidth ex_hbm eq_refl ex_arb _ _ (ex_issue 0 0) [ex_issue 64000 1; ex_issue 128000 2] (ex_issue 192000 0) ex_arb_reach ex_hbm_run eq_refl)
    as [H1 H2].
  split; [exact (H1 eq_refl)|exact (H2 eq_refl eq_refl)].
Defined.
