(* ===== verification/NetLink.v ===== *)
(** * Links

    [NetworkLink] of [src/src/mem/ruby/network/garnet/NetworkLink.cc], which carries flits, and
    as [CreditLink] credits, between network interfaces and routers: it moves one entry per
    cycle from the queue of the sender to its own buffer, where the receiver finds it after
    the latency of the link.

    The link is a consumer: the sender schedules it for the tick at which the entry is ready,
    and it schedules its receiver. *)

From S2P Require Import Prelude Flit SNmu AxisNetwork.

Record linkCfg (F : Type) := mk_linkCfg {
  lk_period : Z;
  m_latency : Z;
  lk_get_vc : F -> Z;
  (* the width and the virtual network of an entry are those of the link, or the type of the link was not set *)
  lk_fits : F -> bool
}.
Arguments mk_linkCfg {F}.
Arguments lk_period {F}.
Arguments m_latency {F}.
Arguments lk_get_vc {F}.
Arguments lk_fits {F}.

Record netLink (F : Type) := mk_netLink {
  link_srcQueue : list (F * Z);     (* entries with their time *)
  linkBuffer : list (F * Z);
  lk_wakeups : gset Z;              (* the ticks the link is scheduled for *)
  lk_consumer : gset Z;             (* those it scheduled its receiver for *)
  m_link_utilized : Z;
  m_vc_load : list Z
}.
Arguments mk_netLink {F}.
Arguments link_srcQueue {F}.
Arguments linkBuffer {F}.
Arguments lk_wakeups {F}.
Arguments lk_consumer {F}.
Arguments m_link_utilized {F}.
Arguments m_vc_load {F}.

Section Link.
Context {F : Type} (c : linkCfg F).
Implicit Types (s : netLink F).

(** [setVcsPerVnet] resizes the counters. *)
Definition link_init (m_virt_nets consumerVcs : nat) : netLink F := mk_netLink [] [] ∅ ∅ 0 (replicate (m_virt_nets * consumerVcs) 0).

Definition link_isReady (q : list (F * Z)) (now : Z) : bool := match q with [] => false | (_, t) :: _ => t <=? now end.

(** The entry at the front is sent. *)
Definition link_send (now : Z) s : res (netLink F) :=
  match link_srcQueue s with
  | [] => Ok s
  | (f, _) :: rest =>
      guard (lk_fits c f) (FAssert "width or virtual network of the flit") (
      let arrival := now + m_latency c * lk_period c in
      let vc := zn (lk_get_vc c f) in
      let* n := of_opt (FUndef "vector index out of range") (m_vc_load s !! vc) in
      Ok (mk_netLink rest (linkBuffer s ++ [(f, arrival)]) (lk_wakeups s) ({[arrival]} ∪ lk_consumer s)
            (u32 (m_link_utilized s + 1)) (<[vc := u32 (n + 1)]> (m_vc_load s))))
  end.

Definition link_wakeup (now : Z) s : res (netLink F) :=
  guard (now mod lk_period c =? 0) (FAssert "curTick() == clockEdge()") (
  let* s := if link_isReady (link_srcQueue s) now then link_send now s else Ok s in
  Ok (match link_srcQueue s with
      | [] => s
      | _ => mk_netLink (link_srcQueue s) (linkBuffer s) ({[now + lk_period c]} ∪ lk_wakeups s) (lk_consumer s)
               (m_link_utilized s) (m_vc_load s)
      end)).

(** The event at tick [now]: it is taken off the schedule, then the link is woken. *)
Definition link_event (now : Z) s : res (netLink F) :=
  link_wakeup now (mk_netLink (link_srcQueue s) (linkBuffer s) (lk_wakeups s ∖ {[now]}) (lk_consumer s) (m_link_utilized s) (m_vc_load s)).

(** The sender's side: the entry goes into the queue and the link is scheduled. *)
Definition link_put (f : F) (t : Z) s : netLink F :=
  mk_netLink (link_srcQueue s ++ [(f, t)]) (linkBuffer s) ({[t]} ∪ lk_wakeups s) (lk_consumer s) (m_link_utilized s) (m_vc_load s).
(** The receiver's side: [isReady] and [consumeLink]. *)
Definition consumeLink (now : Z) s : option (F * netLink F) :=
  match linkBuffer s with
  | (f, t) :: rest => if t <=? now then Some (f, mk_netLink (link_srcQueue s) rest (lk_wakeups s) (lk_consumer s) (m_link_utilized s) (m_vc_load s)) else None
  | [] => None
  end.

(** ** Runs *)

Context (vnets vcs : nat).
Hypothesis Hperiod : 0 < lk_period c.

(** An entry that may be sent on this link. *)
Definition link_ok (f : F) : Prop := lk_fits c f = true /\ (zn (lk_get_vc c f) < vnets * vcs)%nat.

(** [link_reach s put got now]: the entries put in with the tick at which they are ready, and
    those consumed with the tick at which they were. *)
Inductive link_reach : netLink F -> list (F * Z) -> list (F * Z) -> Z -> Prop :=
| lr_init : link_reach (link_init vnets vcs) [] [] 0
| lr_put s put got now f t :
    link_reach s put got now -> now <= t -> t mod lk_period c = 0 -> link_ok f ->
    link_reach (link_put f t s) (put ++ [(f, t)]) got now
| lr_event s put got now t s' :
    link_reach s put got now -> t ∈ lk_wakeups s -> (forall w, w ∈ lk_wakeups s -> t <= w) -> link_event t s = Ok s' ->
    link_reach s' put got t
| lr_get s put got now t f s' :
    link_reach s put got now -> now <= t -> (forall w, w ∈ lk_wakeups s -> t <= w) -> consumeLink t s = Some (f, s') ->
    link_reach s' put (got ++ [(f, t)]) t.

(** An entry that is consumed, or waits in the buffer, had the latency of the link. *)
Definition delayed (p g : F * Z) : Prop := p.1 = g.1 /\ p.2 + m_latency c * lk_period c <= g.2.

Record link_inv s (put got : list (F * Z)) (now : Z) : Prop := {
  li_flow : exists sent, put = sent ++ link_srcQueue s /\ Forall2 delayed sent (got ++ linkBuffer s);
  li_now w : w ∈ lk_wakeups s -> now <= w /\ w mod lk_period c = 0;
  li_wake : forall f t r, link_srcQueue s = (f, t) :: r -> exists w, w ∈ lk_wakeups s /\ w <= Z.max t (now + lk_period c);
  li_consumer : Forall (fun x => x.2 ∈ lk_consumer s) (linkBuffer s);
  li_load : length (m_vc_load s) = (vnets * vcs)%nat;
  li_ok : Forall (fun x => link_ok x.1) (link_srcQueue s)
}.

Lemma link_inv_put s put got now f t : link_inv s put got now -> now <= t -> t mod lk_period c = 0 -> link_ok f ->
  link_inv (link_put f t s) (put ++ [(f, t)]) got now.
Proof.
  intros [(sent & Hp & Hs) Hn Hw Hc Hl Ho] Ht Hm Hf. split; cbn; [| | |done|done|].
  - exists sent. by rewrite app_assoc, Hp.
  - intros w [->%elem_of_singleton|Hx]%elem_of_union; [done|by apply Hn].
  - intros f' t' r E. destruct (link_srcQueue s) as [|[g tg] q]; cbn in E; injection E as <- <- <-.
    + exists t. split; [apply elem_of_union; left; by apply elem_of_singleton|lia].
    + destruct (Hw g tg q eq_refl) as (w & H1 & H2). exists w. split; [apply elem_of_union; by right|done].
  - apply Forall_app. by split; [|apply Forall_singleton].
Qed.

Lemma link_send_spec s t : length (m_vc_load s) = (vnets * vcs)%nat -> Forall (fun x => link_ok x.1) (link_srcQueue s) ->
  link_isReady (link_srcQueue s) t = true ->
  exists f tf r s', link_srcQueue s = (f, tf) :: r /\ tf <= t /\ link_send t s = Ok s' /\
    link_srcQueue s' = r /\ linkBuffer s' = linkBuffer s ++ [(f, t + m_latency c * lk_period c)] /\
    lk_wakeups s' = lk_wakeups s /\ lk_consumer s' = {[t + m_latency c * lk_period c]} ∪ lk_consumer s /\ length (m_vc_load s') = (vnets * vcs)%nat.
Proof.
  intros Hl Ho Hr. unfold link_send. destruct (link_srcQueue s) as [|[f tf] r]; [done|]. cbn in Hr. apply Forall_cons in Ho as [[Hf Hv] _].
  cbn in Hf, Hv. destruct (lookup_lt_is_Some_2 (m_vc_load s) (zn (lk_get_vc c f))) as [n Hn]; [lia|].
  rewrite Hf, Hn. cbn [guard of_opt rbind]. eexists f, tf, r, _. split_and!; try done; [lia|]. cbn. by rewrite length_insert.
Qed.

Lemma link_inv_event s put got now t : link_inv s put got now -> t ∈ lk_wakeups s -> (forall w, w ∈ lk_wakeups s -> t <= w) ->
  exists s', link_event t s = Ok s' /\ link_inv s' put got t /\
    (link_isReady (link_srcQueue s) t = true -> link_srcQueue s' = tail (link_srcQueue s)).
Proof using Hperiod.
  intros Hi Ht Hmin. destruct (li_now _ _ _ _ Hi t Ht) as [Hnow Hm]. unfold link_event, link_wakeup. rewrite Hm. cbn [guard Z.eqb].
  set (s1 := mk_netLink _ _ (lk_wakeups s ∖ {[t]}) _ _ _). destruct Hi as [(sent & Hp & Hs) Hn Hw Hc Hl Ho].
  assert (Hw1 : forall w, w ∈ lk_wakeups s1 -> t <= w /\ w mod lk_period c = 0).
  { intros w Hx. cbn in Hx. apply elem_of_difference in Hx as [Hx _]. split; [by apply Hmin|by apply Hn]. }
  assert (H1 : exists s2, (if link_isReady (link_srcQueue s1) t then link_send t s1 else Ok s1) = Ok s2 /\
    (exists sent, put = sent ++ link_srcQueue s2 /\ Forall2 delayed sent (got ++ linkBuffer s2)) /\ lk_wakeups s2 = lk_wakeups s1 /\
    Forall (fun x => x.2 ∈ lk_consumer s2) (linkBuffer s2) /\ length (m_vc_load s2) = (vnets * vcs)%nat /\
    Forall (fun x => link_ok x.1) (link_srcQueue s2) /\ (link_isReady (link_srcQueue s) t = true -> link_srcQueue s2 = tail (link_srcQueue s))).
  { destruct (link_isReady (link_srcQueue s1) t) eqn:Er; [|exists s1; split_and!; try done; [by exists sent|cbn in Er; congruence]].
    destruct (link_send_spec s1 t Hl Ho Er) as (f & tf & r & s2 & E1 & E2 & E3 & E4 & E5 & E6 & E7 & E8). exists s2. cbn in E1, E5, E7.
    rewrite E1 in Hp, Ho |- *. rewrite E4, E5, E7. apply Forall_cons in Ho as [_ Ho]. split_and!; try done.
    - exists (sent ++ [(f, tf)]). rewrite <- app_assoc. split; [done|]. rewrite app_assoc. apply Forall2_app; [done|].
      constructor; [|done]. split; cbn; [done|lia].
    - apply Forall_app. split; [|apply Forall_singleton, elem_of_union; left; by apply elem_of_singleton].
      eapply Forall_impl; [exact Hc|]. intros x Hx. apply elem_of_union. by right. }
  destruct H1 as (s2 & -> & Hf & Ew & Hc2 & Hl2 & Ho2 & Htl). cbn [rbind]. eexists. split; [reflexivity|].
  destruct (link_srcQueue s2) as [|y q] eqn:Eq.
  - split; [|intros H; by rewrite Eq, <- (Htl H)]. split; [by rewrite Eq|by rewrite Ew|by rewrite Eq|done|done|by rewrite Eq].
  - split; [|by intros H; cbn; rewrite (Htl H)]. rewrite <- Eq in Hf, Ho2. split; cbn; [by rewrite <- Eq| | |done|done|by rewrite <- Eq].
    + intros w [->%elem_of_singleton|Hx]%elem_of_union; [|rewrite Ew in Hx; by apply Hw1]. split; [lia|].
      rewrite <- Hm, <- (Z.mod_add t 1) by lia. f_equal. lia.
    + intros f tf r _. exists (t + lk_period c). split; [apply elem_of_union; left; by apply elem_of_singleton|lia].
Qed.

Lemma link_reach_inv s put got now : link_reach s put got now -> link_inv s put got now.
Proof using Hperiod.
  induction 1 as [|s put got now f t _ IH Ht Hm Hf|s put got now t s' _ IH Ht Hmin E|s put got now t f s' _ IH Ht Hmin E].
  - split; cbn; [by exists []|by intros w ?%elem_of_empty|done|constructor|by rewrite length_replicate|constructor].
  - by apply link_inv_put.
  - destruct (link_inv_event _ _ _ _ _ IH Ht Hmin) as (s1 & E1 & Hi & _). rewrite E in E1. by injection E1 as <-.
  - destruct IH as [(sent & Hp & Hs) Hn Hw Hc Hl Ho]. unfold consumeLink in E. destruct (linkBuffer s) as [|[g tg] r]; [done|].
    destruct (Z.leb_spec tg t) as [Hle|]; [|done]. injection E as -> <-. apply Forall_cons in Hc as [_ Hc]. split; cbn; try done.
    + exists sent. split; [done|]. rewrite <- app_assoc. apply Forall2_app_inv_r in Hs as (p1 & p2 & H1 & H2 & ->).
      apply Forall2_app; [done|]. inversion H2 as [|p q l1 l2 [H3 H4] H5]; subst. cbn. constructor; [split; cbn in *; [done|lia]|done].
    + intros w Hx. split; [by apply Hmin|by apply Hn].
    + intros g' tg' r' Eq. destruct (Hw _ _ _ Eq) as (w & Hx & Hb). exists w. split; [done|]. lia.
Qed.

(** C20: a link carries what it is given.  In every run the entries put in are those that were
    consumed, those in its buffer and those in the sender's queue, in order; each was under way
    for at least the latency of the link.  No event fails, an event moves the entry at the
    front when it is ready; while entries wait, the link is scheduled, and for every entry in
    the buffer the receiver is. *)
Theorem link_carries s put got now : link_reach s put got now ->
  (exists sent, put = sent ++ link_srcQueue s /\ Forall2 delayed sent (got ++ linkBuffer s)) /\
  (forall t, t ∈ lk_wakeups s -> (forall w, w ∈ lk_wakeups s -> t <= w) ->
    exists s', link_event t s = Ok s' /\ (link_isReady (link_srcQueue s) t = true -> link_srcQueue s' = tail (link_srcQueue s))) /\
  (forall f t r, link_srcQueue s = (f, t) :: r -> exists w, w ∈ lk_wakeups s /\ w <= Z.max t (now + lk_period c)) /\
  Forall (fun x => x.2 ∈ lk_consumer s) (linkBuffer s).
Proof using Hperiod.
  intros Hr. apply link_reach_inv in Hr as Hi. split_and!; [apply Hi| |apply Hi|apply Hi].
  intros t Ht Hmin. destruct (link_inv_event _ _ _ _ _ Hi Ht Hmin) as (s' & E & _ & H). by exists s'.
Qed.
End Link.

(** A link between two parts of a network extends a path. *)
Lemma link_path (c : linkCfg (flit NocStreamMsg)) vnets vcs src dst s put got now n l : 0 < lk_period c ->
  link_reach c vnets vcs s put got now -> path src dst n l put.*1 -> path src dst n l got.*1.
Proof.
  intros Hp Hr Hpath. apply (path_wire _ _ n l put.*1); [done|]. apply flow_prefix.
  destruct (li_flow _ _ _ _ _ _ _ (link_reach_inv _ _ _ Hp _ _ _ _ Hr)) as (sent & -> & Hs).
  apply Forall2_app_inv_r in Hs as (p1 & p2 & H1 & _ & ->). rewrite <- app_assoc, fmap_app. assert (p1.*1 = got.*1) as ->; [|by eexists].
  clear -H1. induction H1 as [|p g l1 l2 [E _] _ IH]; [done|]. cbn. by rewrite E, IH.
Qed.

(** ** Example: two flits on a link of latency 3 *)

Definition ex_lkc : linkCfg Z := mk_linkCfg 10 3 (fun _ => 1) (fun _ => true).
Definition ex_lk1 : netLink Z := link_put 8 30 (link_put 7 20 (link_init 1 2)).
Definition ex_lk2 : netLink Z := ok_or ex_lk1 (link_event ex_lkc 20 ex_lk1).
Definition ex_lk3 : netLink Z := ok_or ex_lk2 (link_event ex_lkc 30 ex_lk2).
Definition ex_lk4 : netLink Z := match consumeLink 50 ex_lk3 with Some (_, s) => s | None => ex_lk3 end.

Lemma ex_lk_wakeups (s : netLink Z) (t : Z) : forallb (fun w => t <=? w) (elements (lk_wakeups s)) = true ->
  forall w, w ∈ lk_wakeups s -> t <= w.
Proof.
  intros H w Hw. rewrite forallb_forall in H. apply elem_of_elements, list_elem_of_In, H in Hw. by apply Z.leb_le.
Qed.
Lemma ex_lk_reach : link_reach ex_lkc 1 2 ex_lk4 [(7, 20); (8, 30)] [(7, 50)] 50.
Proof.
  apply (lr_get ex_lkc 1 2 ex_lk3 [(7, 20); (8, 30)] [] 30 50 7); [|lia|by apply ex_lk_wakeups|vm_compute; reflexivity].
  apply (lr_event ex_lkc 1 2 ex_lk2 _ _ 20); [|by apply (bool_decide_unpack _)|by apply ex_lk_wakeups|vm_compute; reflexivity].
  apply (lr_event ex_lkc 1 2 ex_lk1 _ _ 0); [|by apply (bool_decide_unpack _)|by apply ex_lk_wakeups|vm_compute; reflexivity].
  apply (lr_put ex_lkc 1 2 _ [(7, 20)]); [|lia|done|split; [done|cbn; lia]].
  apply (lr_put ex_lkc 1 2 _ []); [constructor|lia|done|split; [done|cbn; lia]].
Qed.
Lemma link_carries_witness : linkBuffer ex_lk4 = [(8, 60)] /\ link_srcQueue ex_lk4 = [] /\
  exists sent, [(7, 20); (8, 30)] = sent ++ link_srcQueue ex_lk4 /\ Forall2 (delayed ex_lkc) sent ([(7, 50)] ++ linkBuffer ex_lk4).
Proof.
  split_and!; [vm_compute; reflexivity|vm_compute; reflexivity|].
  exact (proj1 (link_carries ex_lkc 1 2 eq_refl ex_lk4 [(7, 20); (8, 30)] [(7, 50)] 50 ex_lk_reach)).
Defined.
