(* ===== verification/Bram.v ===== *)
(** * The BRAM endpoint

    [BramEndpoint] of [src/src/noc/endpoints/memory/bram/BramEndpoint.cc]: a memory behind an
    AXI-MM slave port.  Each cycle [Control] shows it the master's channels ([update]) and
    clocks it ([tick]).  Bytes are numbers, the storage is a list of them. *)

From S2P Require Import Prelude AxiTypes Checkpoint AxiCheckpoint CdcQueue AxisHandler NocNodes.

Record bramCfg := mk_bramCfg {
  br_baseAddr : Z;
  br_memorySize : Z;
  br_period : Z                   (* [tile_controller->clockPeriod()] *)
}.
Record ReadRequestEntry := mk_ReadRequestEntry { re_addr : aximmRWAddr; re_beatIdx : Z; re_readyTick : Z }.
Record bram := mk_bram {
  br_memory : list Z;             (* memoryStorage *)
  br_current : aximmSlaveState;
  br_next : aximmSlaveState;
  br_in : aximmMasterState;       (* tileControllerState *)
  br_readRequests : list ReadRequestEntry;
  br_readRequestsdelay : list ReadRequestEntry;
  br_readResponses : list aximmRWData;
  br_writeRequests : list aximmRWAddr;
  br_writeResponses : list aximmWResp;
  br_last_w_last_tick : Z;
  br_delayed : list (aximmWResp * Z);   (* delayedWriteResponses *)
  br_currWrite : aximmRWAddr;
  br_beatIdx : Z;                 (* currWriteBeatIdx *)
  br_inProgress : bool            (* writeInProgress *)
}.

Definition aximmSlaveState_default : aximmSlaveState := mk_aximmSlaveState true aximmRWData_default true true aximmWResp_default.
Definition aximmMasterState_default : aximmMasterState :=
  mk_aximmMasterState aximmRWAddr_default false aximmRWAddr_default aximmRWData_default false false.
Definition set_rd_valid (v : bool) (d : aximmRWData) : aximmRWData :=
  mk_aximmRWData (rd_cmd d) (rd_id d) (rd_resp d) (rd_last d) (rd_user d) v (rd_ready d) (rd_data d) (rd_wstrb d).

(** ** Storage *)

Section Bram.
Context (c : bramCfg).
Implicit Types (s : bram) (mem : list Z).

Definition bram_init : bram :=
  mk_bram (zeros (zn (br_memorySize c)))
    (mk_aximmSlaveState false (set_rd_valid false aximmRWData_default) false false (mk_aximmWResp 0 OKAY 0 false))
    aximmSlaveState_default aximmMasterState_default [] [] [] [] [] 0 [] aximmRWAddr_default 0 false.

Definition isValidAddress (addr size : Z) : bool :=
  (br_baseAddr c <=? addr) && (u64 (addr + u16 size) <=? u64 (br_baseAddr c + br_memorySize c)).
Definition toLocalAddr (addr : Z) : Z := u64 (addr - br_baseAddr c).

(** [memoryStorage[a] = v], which C++ leaves undefined out of range. *)
Definition store (mem : list Z) (a v : Z) : res (list Z) :=
  guard (zn a <? length mem)%nat (FUndef "vector index out of range") (Ok (<[zn a := v]> mem)).

Definition functionalWrite (addr : Z) (data : list Z) mem : res (list Z) :=
  guard (isValidAddress addr (nz (length data))) (FPanic "BramEndpoint::functionalWrite: Address out of range!") (
  foldM (fun mem i => store mem (u64 (toLocalAddr addr + nz i)) (byte_at data i)) mem (seq 0 (length data))).
Definition functionalRead (addr size : Z) mem : res (list Z) :=
  guard (isValidAddress addr size) (FPanic "BramEndpoint::functionalRead: Address out of range!") (
  mapM (fun i => of_opt (FUndef "vector index out of range") (mem !! zn (u64 (toLocalAddr addr + nz i)))) (seq 0 (zn size))).

Definition writeToStorage (localAddr : Z) (data : list Z) (wstrb beatSize : Z) mem : res (list Z) :=
  foldM (fun mem i =>
    if Z.testbit wstrb (nz i) && (u64 (localAddr + nz i) <? br_memorySize c)
    then store mem (u64 (localAddr + nz i)) (byte_at data i) else Ok mem) mem (seq 0 (zn (Z.min beatSize 64))).
Definition readFromStorage (localAddr : Z) (data : list Z) (beatSize : Z) mem : res (list Z) :=
  foldM (fun data i =>
    if u64 (localAddr + nz i) <? br_memorySize c
    then let* b := of_opt (FUndef "vector index out of range") (mem !! zn (u64 (localAddr + nz i))) in Ok (<[i := b]> data)
    else Ok (<[i := 0]> data)) data (seq 0 (zn (Z.min beatSize 64))).

(** The address of beat [idx] of a burst. *)
Definition beatAddr (a : aximmRWAddr) (beatSize idx : Z) : res Z :=
  match ra_burst a with
  | INCR => Ok (u64 (ra_addr a + idx * beatSize))
  | FIXED => Ok (ra_addr a)
  | WRAP =>
      let wrapBoundary := (ra_len a + 1) * beatSize in
      guard (negb (wrapBoundary =? 0)) (FUndef "division by zero") (
      let offset := (idx * beatSize) mod wrapBoundary in
      let alignedAddr := Z.land (ra_addr a) (u64 (Z.lnot (wrapBoundary - 1))) in
      Ok (u64 (alignedAddr + offset)))
  end.

(** ** Writes *)

(** The storage and the beat number after a W beat. *)
Definition handleWriteData (w : aximmRWData) s : res (list Z * Z) :=
  if br_inProgress s then
    let beatSize := u8 (Z.shiftl 1 (ra_size (br_currWrite s))) in
    let* addr := beatAddr (br_currWrite s) beatSize (br_beatIdx s) in
    let* mem := if isValidAddress addr beatSize
                then writeToStorage (toLocalAddr addr) (rd_data w) (rd_wstrb w) beatSize (br_memory s) else Ok (br_memory s) in
    Ok (mem, u8 (br_beatIdx s + 1))
  else Ok (br_memory s, br_beatIdx s).

(** The request that a response is for, and the requests left. *)
Definition respRequest (w : aximmRWData) (writeRequests : list aximmRWAddr) (currWrite : aximmRWAddr) (inProgress : bool)
    : aximmRWAddr * list aximmRWAddr :=
  match writeRequests with
  | a :: l => (a, l)
  | [] => (if inProgress then currWrite
           else mk_aximmRWAddr NONE (rd_id w) (br_baseAddr c) 0 6 INCR false 0 0 0 0 0 true (-1) 0 (-1) false, [])
  end.
Definition writeResp (req : aximmRWAddr) : aximmWResp :=
  mk_aximmWResp (ra_id req) (if isValidAddress (ra_addr req) (getTotalByteSize req) then OKAY else DECERR) 0 true.
Definition apply_penalty (now last_w_last_tick : Z) : bool :=
  negb (last_w_last_tick =? 0) && (u64 (now - last_w_last_tick) / br_period c <? 3).

(** ** Reads *)

Definition generateBeatPayload (a : aximmRWAddr) (last : bool) (beatIdx : Z) mem : res aximmRWData :=
  let size := if 6 <? ra_size a then 6 else ra_size a in
  let beatSize := Z.min (u8 (Z.shiftl 1 size)) 64 in
  let* addr := beatAddr a beatSize beatIdx in
  let* data := if isValidAddress addr beatSize then readFromStorage (toLocalAddr addr) (zeros 64) beatSize mem else Ok (zeros 64) in
  Ok (mk_aximmRWData READ (ra_id a) (if isValidAddress addr beatSize then OKAY else DECERR) last 0 true false data TKEEP_ALL).

Definition generateNextReadRespBeat mem (requests delay : list ReadRequestEntry) (responses : list aximmRWData)
    : res (list ReadRequestEntry * list ReadRequestEntry * list aximmRWData) :=
  let* (requests, responses) := match requests with
    | r :: rest =>
        let last := re_beatIdx r =? ra_len (re_addr r) in
        let* p := generateBeatPayload (re_addr r) last (re_beatIdx r) mem in
        Ok (if last then rest else mk_ReadRequestEntry (re_addr r) (u8 (re_beatIdx r + 1)) (re_readyTick r) :: rest, responses ++ [p])
    | [] => Ok ([], responses)
    end in
  Ok (match delay with r :: rest => (requests ++ [r], rest, responses) | [] => (requests, [], responses) end).
Definition getNextAxiResponse (l : list aximmRWData) : aximmRWData :=
  match l with r :: _ => r | [] => set_rd_valid false aximmRWData_default end.
Definition getNextWriteResponse (l : list aximmWResp) : aximmWResp :=
  match l with b :: _ => b | [] => mk_aximmWResp 0 OKAY 0 false end.

(** ** Cycles *)

Definition pop_front {A} (l : list A) : res (list A) :=
  match l with _ :: l => Ok l | [] => Err (FUndef "pop_front of an empty deque") end.

(** [updateTileNSU] *)
Definition updateTileNSU (m : aximmMasterState) s : res bram :=
  let cur := br_current s in
  let takeR := mms_rReady m && rd_valid (mss_r cur) in
  let* rr := if takeR then pop_front (br_readResponses s) else Ok (br_readResponses s) in
  let r := if takeR || negb (rd_valid (mss_r cur)) then getNextAxiResponse rr else mss_r cur in
  let takeB := mms_bReady m && wr_valid (mss_b cur) in
  let* wr := if takeB then pop_front (br_writeResponses s) else Ok (br_writeResponses s) in
  let b := if takeB || negb (wr_valid (mss_b cur)) then getNextWriteResponse wr else mss_b cur in
  Ok (mk_bram (br_memory s) cur (mk_aximmSlaveState true r true true b) m (br_readRequests s) (br_readRequestsdelay s) rr
        (br_writeRequests s) wr (br_last_w_last_tick s) (br_delayed s) (br_currWrite s) (br_beatIdx s) (br_inProgress s)).

Definition bram_update (now portID : Z) (st : State) s : res bram :=
  guard (portID =? 0) (FPanic "BramEndpoint::update invalid portID") (
  match st_body st with
  | SAximmMaster m => updateTileNSU m s
  | _ => Err (FPanic "BramEndpoint::update expected aximmMasterState")
  end).
Definition bram_getCurrentState (portID : Z) s : res State :=
  guard (portID =? 0) (FPanic "BramEndpoint::getCurrentState invalid portID") (Ok (new_State (SAximmSlave (br_current s)))).

(** The W beat, the released response and the response to the last beat. *)
Definition accept_aw s : bram :=
  if mss_awReady (br_current s) && ra_valid (mms_aw (br_in s)) then
    mk_bram (br_memory s) (br_current s) (br_next s) (br_in s) (br_readRequests s) (br_readRequestsdelay s) (br_readResponses s)
      (br_writeRequests s ++ [mms_aw (br_in s)]) (br_writeResponses s) (br_last_w_last_tick s) (br_delayed s)
      (mms_aw (br_in s)) 0 true
  else s.
Definition accept_w s : res bram :=
  if mss_wReady (br_current s) && rd_valid (mms_w (br_in s)) then
    let* (mem, idx) := handleWriteData (mms_w (br_in s)) s in
    Ok (mk_bram mem (br_current s) (br_next s) (br_in s) (br_readRequests s) (br_readRequestsdelay s) (br_readResponses s)
          (br_writeRequests s) (br_writeResponses s) (br_last_w_last_tick s) (br_delayed s) (br_currWrite s) idx (br_inProgress s))
  else Ok s.
Definition release_delayed (now : Z) s : bram :=
  match br_delayed s with
  | (b, t) :: rest =>
      if t <=? now then
        mk_bram (br_memory s) (br_current s) (br_next s) (br_in s) (br_readRequests s) (br_readRequestsdelay s) (br_readResponses s)
          (br_writeRequests s) (br_writeResponses s ++ [b]) (br_last_w_last_tick s) rest (br_currWrite s) (br_beatIdx s) (br_inProgress s)
      else s
  | [] => s
  end.
Definition generateNextWriteResp (now : Z) s : bram :=
  let '(req, requests) := respRequest (mms_w (br_in s)) (br_writeRequests s) (br_currWrite s) (br_inProgress s) in
  let penalty := apply_penalty now (br_last_w_last_tick s) in
  mk_bram (br_memory s) (br_current s) (br_next s) (br_in s) (br_readRequests s) (br_readRequestsdelay s) (br_readResponses s)
    requests (if penalty then br_writeResponses s else br_writeResponses s ++ [writeResp req]) now
    (if penalty then br_delayed s ++ [(writeResp req, u64 (now + br_period c))] else br_delayed s)
    (br_currWrite s) (br_beatIdx s) false.
Definition answer_w (now : Z) s : bram :=
  if mss_wReady (br_current s) && rd_valid (mms_w (br_in s)) && rd_last (mms_w (br_in s)) then generateNextWriteResp now s else s.

Definition bram_tick (now cd : Z) s : res (bool * bram) :=
  let delay := if mss_arReady (br_current s) && ra_valid (mms_ar (br_in s))
               then br_readRequestsdelay s ++ [mk_ReadRequestEntry (mms_ar (br_in s)) 0 (u64 (now + br_period c))]
               else br_readRequestsdelay s in
  let* s := accept_w (accept_aw s) in
  let s := answer_w now (release_delayed now s) in
  let* (requests, delay, responses) := generateNextReadRespBeat (br_memory s) (br_readRequests s) delay (br_readResponses s) in
  Ok (true, mk_bram (br_memory s) (br_next s) (br_next s) (br_in s) requests delay responses (br_writeRequests s) (br_writeResponses s)
              (br_last_w_last_tick s) (br_delayed s) (br_currWrite s) (br_beatIdx s) (br_inProgress s)).

Definition bram_done s : bool := true.

#[export] Instance bram_node : NocNode bram := {|
  node_update := bram_update; getCurrentState := bram_getCurrentState; node_tick := bram_tick; node_done := bram_done
|}.
End Bram.
