(* ===== verification/BramRun.v ===== *)
(** * Runs of the BRAM endpoint

    Reads return what was written last, every read burst is answered with its beats in order,
    and every write with one response.  A run is a sequence of cycles in which the master
    drives requests of at most 64 bytes per beat, below the top of the address space. *)

From S2P Require Import Prelude AxiTypes Checkpoint AxiCheckpoint CdcQueue AxisHandler NocNodes Bram.

Section BramRun.
Context (c : bramCfg).
Hypothesis Hbase : 0 <= br_baseAddr c.
Hypothesis Hsize : 0 <= br_memorySize c.
Hypothesis Htop : br_baseAddr c + br_memorySize c < 2 ^ 64.
Implicit Types (s : bram) (mem : list Z).

(** ** Storage *)

Definition addr_inside (x n : Z) : Prop := br_baseAddr c <= x /\ x + n <= br_baseAddr c + br_memorySize c.
#[local] Instance in_range_dec x n : Decision (addr_inside x n).
Proof. unfold addr_inside. apply _. Defined.

Lemma isValidAddress_spec x n : 0 <= x -> 0 <= n < 2 ^ 16 -> x + n < 2 ^ 64 -> isValidAddress c x n = bool_decide (addr_inside x n).
Proof using Hbase Hsize Htop.
  intros Hx Hn Hxn. unfold isValidAddress. rewrite (u16_small n), !u64_small by lia. unfold addr_inside.
  destruct (Z.leb_spec (br_baseAddr c) x), (Z.leb_spec (x + n) (br_baseAddr c + br_memorySize c)); cbn [andb]; symmetry;
    first [apply bool_decide_true; lia|apply bool_decide_false; lia].
Qed.

(** A memory as a function of the local address. *)
Definition holds (mem : list Z) (m : Z -> Z) : Prop :=
  nz (length mem) = br_memorySize c /\ forall y, 0 <= y < br_memorySize c -> mem !! zn y = Some (m y).

Definition written (m : Z -> Z) (base n : Z) (data : list Z) (wstrb : Z) : Z -> Z :=
  fun y => if decide (base <= y < base + n) then if Z.testbit wstrb (y - base) then byte_at data (zn (y - base)) else m y else m y.

Lemma writeToStorage_spec local data wstrb n mem m : holds mem m -> 0 <= local -> 0 <= n <= 64 -> local + n <= br_memorySize c ->
  exists mem', writeToStorage c local data wstrb n mem = Ok mem' /\ holds mem' (written m local n data wstrb).
Proof using Hbase Hsize Htop.
  intros Hm Hl Hn Hr. unfold writeToStorage. rewrite Z.min_l by lia.
  enough (forall k : nat, nz k <= n -> exists mem', foldM (fun mem i => if Z.testbit wstrb (nz i) && (u64 (local + nz i) <? br_memorySize c)
    then store mem (u64 (local + nz i)) (byte_at data i) else Ok mem) mem (seq 0 k) = Ok mem' /\ holds mem' (written m local (nz k) data wstrb)) as H.
  { destruct (H (zn n)) as (mem' & E & Hh); [lia|]. exists mem'. rewrite Z2Nat.id in Hh by lia. done. }
  intros k. induction k as [|k IH]; intros Hk.
  { exists mem. split; [done|]. destruct Hm as [H1 H2]. split; [done|]. intros y Hy. unfold written. rewrite decide_False by lia. by apply H2. }
  destruct IH as (mem1 & E & H1 & H2); [lia|]. rewrite seq_S, foldM_app, E. cbn [rbind foldM Nat.add].
  rewrite u64_small by lia. rewrite (proj2 (Z.ltb_lt _ _)), andb_true_r by lia.
  assert (Hs : forall y, (y = local + nz k -> Z.testbit wstrb (nz k) = false) -> written m local (nz (S k)) data wstrb y = written m local (nz k) data wstrb y).
  { intros y Hy. unfold written. destruct (decide (local <= y < local + nz k)); [by rewrite decide_True by lia|].
    destruct (decide (local <= y < local + nz (S k))) as [Hin|]; [|done]. assert (y - local = nz k) as -> by lia. by rewrite Hy by lia. }
  destruct (Z.testbit wstrb (nz k)) eqn:Et; cbn [rbind].
  - unfold store. rewrite (proj2 (Nat.ltb_lt _ _)) by lia. cbn [guard rbind]. eexists. split; [reflexivity|]. split; [by rewrite length_insert|].
    intros y Hy. destruct (decide (y = local + nz k)) as [->|Hne].
    + rewrite list_lookup_insert_eq by lia. unfold written. rewrite decide_True by lia. replace (local + nz k - local) with (nz k) by lia.
      by rewrite Et, Nat2Z.id.
    + rewrite list_lookup_insert_ne by lia. rewrite Hs by done. by apply H2.
  - exists mem1. split; [done|]. split; [done|]. intros y Hy. rewrite Hs by done. by apply H2.
Qed.

(** Byte [i] of what is read: zero beyond the beat. *)
Lemma readFromStorage_spec local n mem m : holds mem m -> 0 <= local -> 0 <= n <= 64 -> local + n <= br_memorySize c ->
  exists data, readFromStorage c local (zeros 64) n mem = Ok data /\ length data = 64%nat /\
    forall i, (i < 64)%nat -> byte_at data i = if decide (nz i < n) then m (local + nz i) else 0.
Proof using Hbase Hsize Htop.
  intros [H1 H2] Hl Hn Hr. unfold readFromStorage. rewrite Z.min_l by lia.
  enough (forall k : nat, nz k <= n -> exists data, foldM (fun data i => if u64 (local + nz i) <? br_memorySize c
    then let* b := of_opt (FUndef "vector index out of range") (mem !! zn (u64 (local + nz i))) in Ok (<[i := b]> data)
    else Ok (<[i := 0]> data)) (zeros 64) (seq 0 k) = Ok data /\ length data = 64%nat /\
    forall i, (i < 64)%nat -> data !! i = Some (if decide (i < k)%nat then m (local + nz i) else 0)) as H.
  { destruct (H (zn n)) as (data & E & Hlen & Hh); [lia|]. exists data. split_and!; [done..|]. intros i Hi. apply byte_at_lookup.
    rewrite Hh by done. f_equal. destruct (decide (i < zn n)%nat), (decide (nz i < n)); try done; lia. }
  intros k. induction k as [|k IH]; intros Hk.
  { exists (zeros 64). split_and!; [done|apply length_replicate|]. intros i Hi. rewrite decide_False by lia. by apply lookup_replicate_2. }
  destruct IH as (data & E & Hlen & Hh); [lia|]. rewrite seq_S, foldM_app, E. cbn [rbind foldM Nat.add].
  rewrite u64_small by lia. rewrite (proj2 (Z.ltb_lt _ _)) by lia. rewrite H2 by lia. cbn [of_opt rbind]. eexists. split; [reflexivity|].
  split; [by rewrite length_insert|]. intros i Hi. destruct (decide (i = k)) as [->|Hne].
  - rewrite list_lookup_insert_eq by lia. by rewrite decide_True by lia.
  - rewrite list_lookup_insert_ne by done. rewrite Hh by done. f_equal. destruct (decide (i < k)%nat), (decide (i < S k)%nat); try done; lia.
Qed.

(** ** Requests *)

Record req_ok (a : aximmRWAddr) : Prop := {
  rq_size : 0 <= ra_size a <= 6;
  rq_len : 0 <= ra_len a <= 255;
  rq_addr : 0 <= ra_addr a < 2 ^ 64 - 2 ^ 15
}.
Definition bsize (a : aximmRWAddr) : Z := 2 ^ ra_size a.

Lemma bsize_range a : req_ok a -> 1 <= bsize a <= 64.
Proof.
  intros [Hs _ _]. unfold bsize. assert (ra_size a = 0 \/ ra_size a = 1 \/ ra_size a = 2 \/ ra_size a = 3 \/ ra_size a = 4 \/ ra_size a = 5 \/ ra_size a = 6) as H by lia.
  repeat destruct H as [-> |H]; [lia..|]. rewrite H. lia.
Qed.
Lemma bsize_u8 a : req_ok a -> u8 (Z.shiftl 1 (ra_size a)) = bsize a.
Proof. intros Ha. pose proof (bsize_range a Ha). rewrite Z.shiftl_1_l. apply u8_small. unfold bsize in *. lia. Qed.

(** Where beat [k] of a burst belongs.  A WRAP burst begins at its boundary, the address without
    the bits below its length. *)
Definition beat_place (a : aximmRWAddr) (k : Z) : Z :=
  match ra_burst a with
  | FIXED => ra_addr a
  | INCR => ra_addr a + k * bsize a
  | WRAP => let total := (ra_len a + 1) * bsize a in Z.ldiff (ra_addr a) (total - 1) + (k * bsize a) mod total
  end.

Lemma land_u64_lnot x y : 0 <= x < 2 ^ 64 -> Z.land x (u64 (Z.lnot y)) = Z.ldiff x y.
Proof.
  intros Hx. apply Z.bits_inj'. intros n Hn. unfold u64. rewrite Z.land_spec, Z.ldiff_spec. destruct (Z.ltb_spec n 64).
  - rewrite Z.mod_pow2_bits_low by done. by rewrite Z.lnot_spec.
  - rewrite (Z.bits_above_log2 x) by (destruct (decide (x = 0)) as [->|]; [cbn; lia|]; try (assert (Z.log2 x < 64) by (apply Z.log2_lt_pow2; lia); lia); lia). done.
Qed.
Lemma ldiff_bounds x y : 0 <= x -> 0 <= Z.ldiff x y <= x.
Proof.
  intros Hx. split; [apply Z.ldiff_nonneg; by left|]. apply Z.ldiff_le; [done|]. apply Z.bits_inj'. intros n Hn.
  rewrite !Z.ldiff_spec, Z.bits_0. by destruct (Z.testbit x n), (Z.testbit y n).
Qed.

Lemma beatAddr_place a k : req_ok a -> 0 <= k <= 255 -> beatAddr a (bsize a) k = Ok (beat_place a k) /\ 0 <= beat_place a k /\ beat_place a k + 64 < 2 ^ 64.
Proof.
  intros Ha Hk. pose proof (bsize_range a Ha) as Hb. destruct Ha as [_ Hl Haddr]. unfold beatAddr, beat_place.
  destruct (ra_burst a).
  - split; [done|]. lia.
  - rewrite u64_small by nia. split; [done|]. nia.
  - rewrite (proj2 (Z.eqb_neq _ _)) by nia. cbn [negb guard]. rewrite land_u64_lnot by lia.
    pose proof (Z.mod_pos_bound (k * bsize a) ((ra_len a + 1) * bsize a) ltac:(nia)) as Hm.
    pose proof (ldiff_bounds (ra_addr a) ((ra_len a + 1) * bsize a - 1) ltac:(lia)) as Hla.
    assert ((ra_len a + 1) * bsize a <= 2 ^ 14) by nia. rewrite u64_small by lia. split; [done|lia].
Qed.

(** For the lengths of a legal WRAP burst the boundary is the multiple of its length below the address. *)
Lemma wrap_boundary x n : 0 <= n -> Z.ldiff x (2 ^ n - 1) = x / 2 ^ n * 2 ^ n.
Proof. intros Hn. replace (2 ^ n - 1) with (Z.ones n) by (rewrite Z.ones_equiv; lia). by rewrite Z.ldiff_ones_r, Z.shiftr_div_pow2, Z.shiftl_mul_pow2 by done. Qed.

(** ** The specification *)

(** The AW and W handshakes, and the read beats that are answered, in the order of a run. *)
Inductive event :=
| EA (a : aximmRWAddr)
| EW (w : aximmRWData)
| ER (a : aximmRWAddr) (k : Z) (p : aximmRWData).

(** The memory and the write burst that is open, with the number of its next beat. *)
Definition spec_state : Type := (Z -> Z) * option (aximmRWAddr * Z).
Implicit Types (st : spec_state).

Definition stored (m : Z -> Z) (a : aximmRWAddr) (k : Z) (w : aximmRWData) : Z -> Z :=
  let x := beat_place a k in
  if decide (addr_inside x (bsize a)) then written m (x - br_baseAddr c) (bsize a) (rd_data w) (rd_wstrb w) else m.
(** A W beat is the next one of the open burst; numbers have eight bits. *)
Definition beat_in st (w : aximmRWData) : spec_state :=
  match st.2 with Some (a, k) => (stored st.1 a k w, Some (a, (k + 1) mod 256)) | None => st end.
(** An address opens a burst, and WLAST ends it. *)
Definition spec_step st (e : event) : spec_state :=
  match e with
  | EA a => (st.1, Some (a, 0))
  | EW w => let st' := beat_in st w in (st'.1, if rd_last w then None else st'.2)
  | ER _ _ _ => st
  end.
Definition spec_init : spec_state := (fun _ => 0, None).
Definition spec_after (log : list event) : spec_state := foldl spec_step spec_init log.
Definition spec_mem (log : list event) : Z -> Z := (spec_after log).1.

Record read_beat (m : Z -> Z) (a : aximmRWAddr) (k : Z) (p : aximmRWData) : Prop := {
  rb_valid : rd_valid p = true;
  rb_id : rd_id p = ra_id a;
  rb_last : rd_last p = (k =? ra_len a);
  rb_resp : rd_resp p = (if decide (addr_inside (beat_place a k) (bsize a)) then OKAY else DECERR);
  rb_data i : (i < 64)%nat -> byte_at (rd_data p) i =
    if decide (addr_inside (beat_place a k) (bsize a) /\ nz i < bsize a) then m (beat_place a k - br_baseAddr c + nz i) else 0
}.

Lemma generateBeatPayload_spec a k mem m : req_ok a -> 0 <= k <= 255 -> holds mem m ->
  exists p, generateBeatPayload c a (k =? ra_len a) k mem = Ok p /\ read_beat m a k p.
Proof using Hbase Hsize Htop.
  intros Ha Hk Hm. destruct (beatAddr_place a k Ha Hk) as (Ex & Hx0 & Hx1). set (x := beat_place a k) in *. pose proof (bsize_range a Ha) as Hb.
  unfold generateBeatPayload. rewrite (proj2 (Z.ltb_ge _ _)) by (destruct Ha; lia). rewrite bsize_u8, Z.min_l, Ex by (done || lia). cbn [rbind].
  rewrite isValidAddress_spec by lia. destruct (bool_decide_reflect (addr_inside x (bsize a))) as [Hin|Hin].
  - destruct Hin as [Hin1 Hin2]. unfold toLocalAddr. rewrite u64_small by lia.
    destruct (readFromStorage_spec (x - br_baseAddr c) (bsize a) mem m Hm) as (data & -> & _ & Hd); [lia..|]. cbn [rbind].
    eexists. split; [reflexivity|]. split; cbn [rd_valid rd_id rd_last rd_resp rd_data]; fold x; try done; [by rewrite decide_True by (by split)|].
    intros i Hi. rewrite Hd by done. destruct (decide (nz i < bsize a)).
    + rewrite decide_True by (by repeat split). done.
    + rewrite decide_False by (by intros [_ ?]). done.
  - cbn [rbind]. eexists. split; [reflexivity|]. split; cbn [rd_valid rd_id rd_last rd_resp rd_data]; fold x; try done; [by rewrite decide_False by done|].
    intros i Hi. rewrite decide_False by (by intros [? _]). by apply byte_at_lookup, lookup_replicate_2.
Qed.

Lemma handleWriteData_spec w s m : holds (br_memory s) m -> (br_inProgress s = true -> req_ok (br_currWrite s)) -> 0 <= br_beatIdx s <= 255 ->
  exists mem, handleWriteData c w s = Ok (mem, if br_inProgress s then (br_beatIdx s + 1) mod 256 else br_beatIdx s) /\
    holds mem (if br_inProgress s then stored m (br_currWrite s) (br_beatIdx s) w else m).
Proof using Hbase Hsize Htop.
  intros Hm Hok Hk. unfold handleWriteData. destruct (br_inProgress s); [|by eexists]. specialize (Hok eq_refl).
  destruct (beatAddr_place _ _ Hok Hk) as (Ex & Hx0 & Hx1). pose proof (bsize_range _ Hok) as Hb. unfold stored.
  rewrite bsize_u8, Ex by done. cbn [rbind]. set (x := beat_place _ _) in *. rewrite isValidAddress_spec by lia.
  destruct (bool_decide_reflect (addr_inside x (bsize (br_currWrite s)))) as [Hin|Hin].
  - rewrite decide_True by done. destruct Hin as [Hi1 Hi2]. unfold toLocalAddr. rewrite u64_small by lia.
    destruct (writeToStorage_spec (x - br_baseAddr c) (rd_data w) (rd_wstrb w) (bsize (br_currWrite s)) _ m Hm) as (mem & -> & Hh); [lia..|].
    cbn [rbind]. by eexists.
  - rewrite decide_False by done. cbn [rbind]. by eexists.
Qed.

(** ** Runs *)

Record blog := mk_blog {
  lg_events : list event;
  lg_ars : list aximmRWAddr;                (* the requests accepted *)
  lg_aws : list aximmRWAddr;
  lg_lasts : nat;                           (* the W beats with WLAST accepted *)
  lg_r : list (aximmRWData * bool);         (* the cycles of the R channel: wires and RREADY *)
  lg_b : list (aximmWResp * bool);
  lg_now : Z
}.

Definition ar_taken s (m : aximmMasterState) : list aximmRWAddr := if mss_arReady (br_current s) && ra_valid (mms_ar m) then [mms_ar m] else [].
Definition aw_taken s (m : aximmMasterState) : list aximmRWAddr := if mss_awReady (br_current s) && ra_valid (mms_aw m) then [mms_aw m] else [].
Definition w_taken s (m : aximmMasterState) : bool := mss_wReady (br_current s) && rd_valid (mms_w m).
Definition w_events s (m : aximmMasterState) : list event := (EA <$> aw_taken s m) ++ if w_taken s m then [EW (mms_w m)] else [].
(** The read beat that is generated. *)
Definition r_event s s' : list event :=
  match br_readRequests s, last (br_readResponses s') with
  | r :: _, Some p => [ER (re_addr r) (re_beatIdx r) p]
  | _, _ => []
  end.
Definition log_cycle (now : Z) (m : aximmMasterState) s s' (g : blog) : blog :=
  mk_blog (lg_events g ++ w_events s m ++ r_event s s') (lg_ars g ++ ar_taken s m) (lg_aws g ++ aw_taken s m)
    (if w_taken s m && rd_last (mms_w m) then S (lg_lasts g) else lg_lasts g)
    (lg_r g ++ [(mss_r (br_current s), mms_rReady m)]) (lg_b g ++ [(mss_b (br_current s), mms_bReady m)]) now.

(** Valid requests are within the limits, and a burst ends only after its address was given. *)
Record inputs_ok s (m : aximmMasterState) (g : blog) : Prop := {
  io_ar : ra_valid (mms_ar m) = true -> req_ok (mms_ar m);
  io_aw : ra_valid (mms_aw m) = true -> req_ok (mms_aw m);
  io_last : w_taken s m && rd_last (mms_w m) = true -> (lg_lasts g < length (lg_aws g ++ aw_taken s m))%nat
}.

Definition bram_cycle (now cd : Z) (m : aximmMasterState) s : res (bool * bram) :=
  let* s := bram_update now 0 (new_State (SAximmMaster m)) s in bram_tick c now cd s.

Inductive bram_reach : bram -> blog -> Prop :=
| brr_init : bram_reach (bram_init c) (mk_blog [] [] [] 0 [] [] 0)
| brr_cycle s g now cd m s' :
    bram_reach s g -> inputs_ok s m g -> lg_now g + br_period c <= now -> now + br_period c < 2 ^ 64 ->
    bram_cycle now cd m s = Ok (true, s') -> bram_reach s' (log_cycle now m s s' g).

(** ** The invariant *)

(** What the steps of a tick leave alone. *)
Definition read_part s := (br_current s, br_next s, br_in s, br_readRequests s, br_readRequestsdelay s, br_readResponses s).
Definition resp_part s := (br_writeResponses s, br_last_w_last_tick s, br_delayed s).

Record write_inv s st : Prop := {
  wi_mem : holds (br_memory s) st.1;
  wi_open : st.2 = if br_inProgress s then Some (br_currWrite s, br_beatIdx s) else None;
  wi_req : br_inProgress s = true -> req_ok (br_currWrite s);
  wi_idx : 0 <= br_beatIdx s <= 255
}.

Lemma accept_aw_part s st : write_inv s st -> (ra_valid (mms_aw (br_in s)) = true -> req_ok (mms_aw (br_in s))) ->
  write_inv (accept_aw s) (foldl spec_step st (EA <$> aw_taken s (br_in s))) /\
  br_writeRequests (accept_aw s) = br_writeRequests s ++ aw_taken s (br_in s) /\
  read_part (accept_aw s) = read_part s /\ resp_part (accept_aw s) = resp_part s.
Proof.
  intros Hi Hok. unfold accept_aw, aw_taken. destruct (mss_awReady (br_current s) && ra_valid (mms_aw (br_in s))) eqn:E; [|by rewrite app_nil_r].
  apply andb_prop in E as [_ E]. destruct Hi as [Hm _ _ _]. cbn. split_and!; try done. split; cbn; [done..|intros _; by apply Hok|lia].
Qed.
Lemma accept_part s st mm : write_inv s st -> br_in s = mm -> (ra_valid (mms_aw mm) = true -> req_ok (mms_aw mm)) ->
  let st1 := foldl spec_step st (EA <$> aw_taken s mm) in
  exists s', accept_w c (accept_aw s) = Ok s' /\ write_inv s' (if w_taken s mm then beat_in st1 (mms_w mm) else st1) /\
    br_writeRequests s' = br_writeRequests s ++ aw_taken s mm /\ read_part s' = read_part s /\ resp_part s' = resp_part s.
Proof using Hbase Hsize Htop.
  intros Hi <- Hok st1. destruct (accept_aw_part s st Hi Hok) as (Hi1 & Hq & Hrd & Hrp). fold st1 in Hi1. set (s1 := accept_aw s) in *.
  assert (mss_wReady (br_current s1) && rd_valid (mms_w (br_in s1)) = w_taken s (br_in s) /\ br_in s1 = br_in s) as [Hcur Hin].
  { unfold read_part in Hrd. injection Hrd as H1 _ H2 _ _ _. rewrite H1, H2. done. }
  unfold accept_w. rewrite Hcur. destruct (w_taken s (br_in s)); [|by exists s1]. destruct Hi1 as [Hm Ho Hr Hx].
  destruct (handleWriteData_spec (mms_w (br_in s1)) s1 st1.1 Hm Hr Hx) as (mem & -> & Hh). cbn [rbind].
  eexists. split; [reflexivity|]. rewrite Hin in Hh. split; [|done]. unfold beat_in. rewrite Ho. destruct (br_inProgress s1) eqn:Ep.
  - split; cbn; rewrite ?Ep; try done. pose proof (Z.mod_pos_bound (br_beatIdx s1 + 1) 256). lia.
  - split; cbn; rewrite ?Ep; done.
Qed.

(** Responses on their way out. *)
Definition answers s : list aximmWResp := br_writeResponses s ++ (br_delayed s).*1.

Lemma release_part now s : (forall b t, (b, t) ∈ br_delayed s -> t <= now) -> (length (br_delayed s) <= 1)%nat ->
  let s' := release_delayed now s in
  br_delayed s' = [] /\ answers s' = answers s /\ br_writeResponses s `prefix_of` br_writeResponses s' /\ read_part s' = read_part s /\
  br_writeRequests s' = br_writeRequests s /\ (forall st, write_inv s st -> write_inv s' st).
Proof.
  intros Ht Hl. unfold release_delayed, answers. destruct (br_delayed s) as [|[b t] [|? ?]] eqn:E; cbn in Hl; [|..|lia].
  - rewrite E. split_and!; done.
  - rewrite (proj2 (Z.leb_le _ _)) by (eapply Ht; left). cbn. rewrite app_nil_r. split_and!; try done; [by eexists|]. intros m [? ? ? ?]. by split.
Qed.

Lemma answer_part now s : 0 <= now -> now + br_period c < 2 ^ 64 -> 0 <= br_period c -> br_delayed s = [] ->
  (w_taken s (br_in s) && rd_last (mms_w (br_in s)) = true -> br_writeRequests s <> []) ->
  let s' := answer_w c now s in
  let due := if w_taken s (br_in s) && rd_last (mms_w (br_in s)) then option_list (head (br_writeRequests s)) else [] in
  answers s' = br_writeResponses s ++ (writeResp c <$> due) /\ br_writeRequests s = due ++ br_writeRequests s' /\
  (forall b t, (b, t) ∈ br_delayed s' -> t <= now + br_period c) /\ (length (br_delayed s') <= 1)%nat /\
  br_writeResponses s `prefix_of` br_writeResponses s' /\ read_part s' = read_part s /\
  (forall st, write_inv s st -> write_inv s' (st.1, if w_taken s (br_in s) && rd_last (mms_w (br_in s)) then None else st.2)).
Proof.
  intros Hn Ht Hp Hd Hq. unfold answer_w, answers. fold (w_taken s (br_in s)). destruct (w_taken s (br_in s) && rd_last (mms_w (br_in s))).
  2:{ rewrite Hd. cbn. split_and!; first [done|by rewrite app_nil_r|by intros b t ?%elem_of_nil|lia|by intros [? ?]]. }
  specialize (Hq eq_refl). unfold generateNextWriteResp, respRequest. destruct (br_writeRequests s) as [|a l]; [done|]. cbn.
  rewrite Hd. cbn. destruct (apply_penalty c now (br_last_w_last_tick s)); cbn.
  - split_and!; first [done|lia|by intros st [? ? ? ?]; split|idtac]. intros b t H%list_elem_of_singleton. injection H as _ ->. rewrite u64_small by lia. lia.
  - rewrite app_nil_r. split_and!; first [done|lia|by eexists|by intros b t ?%elem_of_nil|by intros st [? ? ? ?]; split].
Qed.

(** The beats a queued request still has to be answered with. *)
Definition pend (r : ReadRequestEntry) : list (aximmRWAddr * Z) :=
  (fun i : nat => (re_addr r, re_beatIdx r + nz i)) <$> seq 0 (zn (ra_len (re_addr r) + 1 - re_beatIdx r)).
Definition entry_ok (r : ReadRequestEntry) : Prop := req_ok (re_addr r) /\ 0 <= re_beatIdx r <= ra_len (re_addr r).

Lemma pend_last r : re_beatIdx r = ra_len (re_addr r) -> pend r = [(re_addr r, re_beatIdx r)].
Proof. intros E. unfold pend. rewrite <- E. replace (zn (re_beatIdx r + 1 - re_beatIdx r)) with 1%nat by lia. cbn. by rewrite Z.add_0_r. Qed.
Lemma pend_more r t : 0 <= re_beatIdx r < ra_len (re_addr r) ->
  pend r = (re_addr r, re_beatIdx r) :: pend (mk_ReadRequestEntry (re_addr r) (re_beatIdx r + 1) t).
Proof.
  intros Hk. unfold pend. cbn [re_addr re_beatIdx].
  replace (zn (ra_len (re_addr r) + 1 - re_beatIdx r)) with (S (zn (ra_len (re_addr r) + 1 - (re_beatIdx r + 1)))) by lia.
  cbn [seq fmap list_fmap]. rewrite Z.add_0_r. f_equal. rewrite <- fmap_S_seq, <- list_fmap_compose. apply list_fmap_ext. intros i x _. cbn. f_equal. lia.
Qed.

Definition due_beat (reqs : list ReadRequestEntry) : list (aximmRWAddr * Z) :=
  match reqs with r :: _ => [(re_addr r, re_beatIdx r)] | [] => [] end.

Lemma read_step mem m reqs delay resps : holds mem m -> Forall entry_ok (reqs ++ delay) ->
  exists reqs' delay' ps, generateNextReadRespBeat c mem reqs delay resps = Ok (reqs', delay', resps ++ ps) /\
    Forall2 (fun x p => read_beat m x.1 x.2 p) (due_beat reqs) ps /\
    concat (pend <$> reqs ++ delay) = due_beat reqs ++ concat (pend <$> reqs' ++ delay') /\ Forall entry_ok (reqs' ++ delay').
Proof using Hbase Hsize Htop.
  intros Hm Hok. unfold generateNextReadRespBeat.
  assert (H1 : exists reqs1 ps, match reqs with
    | r :: rest => let* p := generateBeatPayload c (re_addr r) (re_beatIdx r =? ra_len (re_addr r)) (re_beatIdx r) mem in
        Ok (if re_beatIdx r =? ra_len (re_addr r) then rest else mk_ReadRequestEntry (re_addr r) (u8 (re_beatIdx r + 1)) (re_readyTick r) :: rest, resps ++ [p])
    | [] => Ok ([], resps) end = Ok (reqs1, resps ++ ps) /\
    Forall2 (fun x p => read_beat m x.1 x.2 p) (due_beat reqs) ps /\
    concat (pend <$> reqs) = due_beat reqs ++ concat (pend <$> reqs1) /\ Forall entry_ok (reqs1 ++ delay)).
  { destruct reqs as [|r rest]; [exists [], []; rewrite app_nil_r; by split_and!|]. cbn [app] in Hok. apply Forall_cons in Hok as [[Ha Hk] Hok].
    pose proof (rq_len _ Ha). destruct (generateBeatPayload_spec (re_addr r) (re_beatIdx r) mem m Ha ltac:(lia) Hm) as (p & -> & Hp). cbn [rbind].
    destruct (Z.eqb_spec (re_beatIdx r) (ra_len (re_addr r))) as [E|E].
    - exists rest, [p]. split_and!; [done|constructor; [exact Hp|constructor]|cbn; by rewrite pend_last|done].
    - eexists (_ :: rest), [p]. split_and!; [done|constructor; [exact Hp|constructor]| |].
      + cbn. rewrite u8_small by lia. by rewrite (pend_more r (re_readyTick r)) by lia.
      + constructor; [|done]. split; cbn; [done|]. rewrite u8_small by lia. lia. }
  destruct H1 as (reqs1 & ps & -> & Hp & Hc & Hf). cbn [rbind].
  destruct delay as [|d delay]; eexists _, _, ps; (split; [reflexivity|]); (split; [done|]).
  - rewrite !app_nil_r in *. by split.
  - rewrite !fmap_app, !concat_app, Hc, <- !app_assoc in *. cbn [app fmap list_fmap concat]. split; [|done]. cbn. by rewrite app_nil_r.
Qed.

(** ** The response channels *)

(** What is handed over in the cycles of a channel, and that a refused beat stays. *)
Definition took {A} (v : A -> bool) (l : list (A * bool)) : list A := concat ((fun x : A * bool => if x.2 && v x.1 then [x.1] else []) <$> l).
Definition kept {A} (v : A -> bool) (l : list (A * bool)) : Prop :=
  forall i x y, l !! i = Some (x, false) -> v x = true -> l !! S i = Some y -> y.1 = x.

Lemma took_snoc {A} (v : A -> bool) l x t : took v (l ++ [(x, t)]) = took v l ++ if t && v x then [x] else [].
Proof. unfold took. rewrite fmap_app, concat_app. cbn. by rewrite app_nil_r. Qed.
Lemma kept_snoc {A} (v : A -> bool) l y : kept v l -> (forall x, last l = Some (x, false) -> v x = true -> y.1 = x) -> kept v (l ++ [y]).
Proof.
  intros Hk Hl i x z Hi Hv Hz. destruct (decide (S i < length l)%nat).
  - rewrite lookup_app_l in Hi, Hz by lia. by eapply Hk.
  - pose proof (lookup_lt_Some _ _ _ Hz) as Hlen. rewrite length_app in Hlen. cbn in Hlen. assert (length l = S i) as El by lia.
    rewrite lookup_app_l in Hi by lia. rewrite lookup_app_r, El, Nat.sub_diag in Hz by lia. injection Hz as <-. apply Hl; [|done].
    by rewrite last_lookup, El.
Qed.

(** One cycle of a channel that drives the front of a queue. *)
Lemma channel_step {A} (v : A -> bool) (idle cur : A) (q : list A) (ready : bool) : v idle = false -> (v cur = true -> head q = Some cur) ->
  let take := ready && v cur in
  exists q', (if take then pop_front q else Ok q) = Ok q' /\ q = (if take then [cur] else []) ++ q' /\
    let nxt := if take || negb (v cur) then default idle (head q') else cur in
    (v nxt = true -> head q' = Some nxt) /\ (v cur = true -> ready = false -> nxt = cur).
Proof.
  intros Hi Hh take. unfold take. destruct (v cur) eqn:Ev; rewrite ?andb_false_r, ?andb_true_r; cbn [negb orb].
  - specialize (Hh eq_refl). destruct q as [|x q]; [done|]. injection Hh as ->. destruct ready; cbn [orb].
    + exists q. split_and!; [done..| |done]. destruct q; cbn; [by rewrite Hi|done].
    + exists (cur :: q). by split_and!.
  - exists q. split_and!; [done..| |done]. destruct q; cbn; [by rewrite Hi|done].
Qed.
Lemma getNextAxiResponse_head l : getNextAxiResponse l = default (set_rd_valid false aximmRWData_default) (head l).
Proof. by destruct l. Qed.
Lemma getNextWriteResponse_head l : getNextWriteResponse l = default (mk_aximmWResp 0 OKAY 0 false) (head l).
Proof. by destruct l. Qed.

Lemma update_part m s : (rd_valid (mss_r (br_current s)) = true -> head (br_readResponses s) = Some (mss_r (br_current s))) ->
  (wr_valid (mss_b (br_current s)) = true -> head (br_writeResponses s) = Some (mss_b (br_current s))) ->
  let r := mss_r (br_current s) in let b := mss_b (br_current s) in
  exists rr wr r' b', updateTileNSU m s = Ok (mk_bram (br_memory s) (br_current s) (mk_aximmSlaveState true r' true true b') m (br_readRequests s)
      (br_readRequestsdelay s) rr (br_writeRequests s) wr (br_last_w_last_tick s) (br_delayed s) (br_currWrite s) (br_beatIdx s) (br_inProgress s)) /\
    br_readResponses s = (if mms_rReady m && rd_valid r then [r] else []) ++ rr /\
    br_writeResponses s = (if mms_bReady m && wr_valid b then [b] else []) ++ wr /\
    (rd_valid r' = true -> head rr = Some r') /\ (rd_valid r = true -> mms_rReady m = false -> r' = r) /\
    (wr_valid b' = true -> head wr = Some b') /\ (wr_valid b = true -> mms_bReady m = false -> b' = b).
Proof.
  intros Hr Hb r b. destruct (channel_step rd_valid (set_rd_valid false aximmRWData_default) r _ (mms_rReady m) eq_refl Hr) as (rr & E1 & Q1 & N1 & K1).
  destruct (channel_step wr_valid (mk_aximmWResp 0 OKAY 0 false) b _ (mms_bReady m) eq_refl Hb) as (wr & E2 & Q2 & N2 & K2).
  unfold updateTileNSU. fold r b. rewrite E1. cbn [rbind]. rewrite E2. cbn [rbind]. rewrite getNextAxiResponse_head, getNextWriteResponse_head.
  eexists rr, wr, _, _. split_and!; [reflexivity|done..].
Qed.

(** ** All of it *)

Hypothesis Hperiod : 0 <= br_period c.

Definition reads (l : list event) : list (aximmRWAddr * Z * aximmRWData) := omap (fun e => match e with ER a k p => Some (a, k, p) | _ => None end) l.
(** The W beats taken. *)
Definition w_beats (l : list event) : list aximmRWData := omap (fun e => match e with EW w => Some w | _ => None end) l.
(** The beats of a burst. *)
Definition burst (a : aximmRWAddr) : list (aximmRWAddr * Z) := (fun i : nat => (a, nz i)) <$> seq 0 (zn (ra_len a + 1)).
Lemma burst_pend a t : burst a = pend (mk_ReadRequestEntry a 0 t).
Proof. unfold burst, pend. cbn. by rewrite Z.sub_0_r. Qed.

(** Every read beat of a log is right for the memory at its place. *)
Fixpoint checks st (l : list event) : Prop :=
  match l with
  | [] => True
  | e :: l => match e with ER a k p => read_beat st.1 a k p | _ => True end /\ checks (spec_step st e) l
  end.
Lemma checks_app st l1 l2 : checks st (l1 ++ l2) <-> checks st l1 /\ checks (foldl spec_step st l1) l2.
Proof. revert st. induction l1 as [|e l1 IH]; intros st; cbn; [tauto|]. rewrite IH. tauto. Qed.

Record bram_inv s (g : blog) : Prop := {
  bv_write : write_inv s (spec_after (lg_events g));
  bv_spec : checks spec_init (lg_events g);
  bv_r : rd_valid (mss_r (br_current s)) = true -> head (br_readResponses s) = Some (mss_r (br_current s));
  bv_rflow : (reads (lg_events g)).*2 = took rd_valid (lg_r g) ++ br_readResponses s;
  bv_rkept : kept rd_valid (lg_r g) /\ forall x, last (lg_r g) = Some (x, false) -> rd_valid x = true -> mss_r (br_current s) = x;
  bv_keys : (reads (lg_events g)).*1 ++ concat (pend <$> br_readRequests s ++ br_readRequestsdelay s) = concat (burst <$> lg_ars g);
  bv_reqs : Forall entry_ok (br_readRequests s ++ br_readRequestsdelay s);
  bv_b : wr_valid (mss_b (br_current s)) = true -> head (br_writeResponses s) = Some (mss_b (br_current s));
  bv_bflow : took wr_valid (lg_b g) ++ answers s = writeResp c <$> take (lg_lasts g) (lg_aws g);
  bv_bkept : kept wr_valid (lg_b g) /\ forall x, last (lg_b g) = Some (x, false) -> wr_valid x = true -> mss_b (br_current s) = x;
  bv_wq : (lg_lasts g <= length (lg_aws g))%nat /\ br_writeRequests s = drop (lg_lasts g) (lg_aws g);
  bv_delay : (forall b t, (b, t) ∈ br_delayed s -> t <= lg_now g + br_period c) /\ (length (br_delayed s) <= 1)%nat;
  bv_now : 0 <= lg_now g
}.

Lemma bram_inv_init : bram_inv (bram_init c) (mk_blog [] [] [] 0 [] [] 0).
Proof using Hsize.
  split; cbn; try done.
  - split; cbn; [|done|done|lia]. split; [unfold zeros; rewrite length_replicate; lia|]. intros y Hy. apply lookup_replicate_2. lia.
  - split; [intros b t H; by apply elem_of_nil in H|lia].
Qed.

Lemma spec_after_app l1 l2 : spec_after (l1 ++ l2) = foldl spec_step (spec_after l1) l2.
Proof. unfold spec_after. apply foldl_app. Qed.
Lemma reads_app l1 l2 : reads (l1 ++ l2) = reads l1 ++ reads l2.
Proof. apply omap_app. Qed.
Lemma w_events_reads s m : reads (w_events s m) = [].
Proof. unfold w_events, aw_taken. by destruct (_ && _), (w_taken s m). Qed.
Lemma w_events_checks s st m : checks st (w_events s m).
Proof. unfold w_events, aw_taken. by destruct (_ && _), (w_taken s m). Qed.
Lemma w_events_spec s m st : foldl spec_step st (w_events s m) =
  let st1 := foldl spec_step st (EA <$> aw_taken s m) in
  let st2 := if w_taken s m then beat_in st1 (mms_w m) else st1 in (st2.1, if w_taken s m && rd_last (mms_w m) then None else st2.2).
Proof. unfold w_events. rewrite foldl_app. cbn zeta. destruct (w_taken s m); [done|]. cbn. by destruct (foldl _ _ _). Qed.

(** What a cycle leaves behind, [r'] and [b'] being what is driven next. *)
Record cycle_facts s (m : aximmMasterState) (g : blog) (now : Z) s' (r' : aximmRWData) (b' : aximmWResp)
    (rr ps : list aximmRWData) (wr : list aximmWResp) : Prop := {
  cf_cur : br_current s' = mk_aximmSlaveState true r' true true b';
  cf_write : write_inv s' (spec_after (lg_events g ++ w_events s m));
  cf_rr : br_readResponses s' = rr ++ ps;
  cf_ps : Forall2 (fun x p => read_beat (spec_after (lg_events g ++ w_events s m)).1 x.1 x.2 p) (due_beat (br_readRequests s)) ps;
  cf_pend : concat (pend <$> br_readRequests s ++ br_readRequestsdelay s) ++ concat (burst <$> ar_taken s m) =
    due_beat (br_readRequests s) ++ concat (pend <$> br_readRequests s' ++ br_readRequestsdelay s');
  cf_reqs : Forall entry_ok (br_readRequests s' ++ br_readRequestsdelay s');
  cf_wr : wr `prefix_of` br_writeResponses s';
  cf_answers : exists due, answers s' = wr ++ (br_delayed s).*1 ++ (writeResp c <$> due) /\
    br_writeRequests s ++ aw_taken s m = due ++ br_writeRequests s' /\ length due = (if w_taken s m && rd_last (mms_w m) then 1 else 0)%nat;
  cf_delay : (forall b t, (b, t) ∈ br_delayed s' -> t <= now + br_period c) /\ (length (br_delayed s') <= 1)%nat
}.

Lemma read_part_eq s s' : read_part s' = read_part s ->
  br_current s' = br_current s /\ br_next s' = br_next s /\ br_in s' = br_in s /\ br_readRequests s' = br_readRequests s /\
  br_readResponses s' = br_readResponses s.
Proof. unfold read_part. intros H. injection H as ? ? ? ? ? ?. by split_and!. Qed.

Lemma delay_ok s m t : Forall entry_ok (br_readRequests s ++ br_readRequestsdelay s) -> (ra_valid (mms_ar m) = true -> req_ok (mms_ar m)) ->
  let delay := if mss_arReady (br_current s) && ra_valid (mms_ar m) then br_readRequestsdelay s ++ [mk_ReadRequestEntry (mms_ar m) 0 t]
               else br_readRequestsdelay s in
  Forall entry_ok (br_readRequests s ++ delay) /\
  concat (pend <$> br_readRequests s ++ delay) = concat (pend <$> br_readRequests s ++ br_readRequestsdelay s) ++ concat (burst <$> ar_taken s m).
Proof.
  intros Hf Hok. unfold ar_taken. destruct (mss_arReady (br_current s) && ra_valid (mms_ar m)) eqn:E; [|by rewrite app_nil_r].
  apply andb_prop in E as [_ E]. specialize (Hok E). rewrite app_assoc. split.
  - apply Forall_app. split; [done|]. apply Forall_singleton. split; cbn; [done|]. destruct Hok. lia.
  - rewrite fmap_app, concat_app. cbn. by rewrite (burst_pend _ t).
Qed.

Lemma left_over {A} n (l x : list A) : (n <= length l)%nat -> (n < length (l ++ x))%nat -> drop n l ++ x <> [].
Proof. intros H1 H2 H. apply (f_equal length) in H. rewrite length_app in *. rewrite length_drop in H. cbn in H. lia. Qed.

Lemma bram_cycle_facts s g now cd m : bram_inv s g -> inputs_ok s m g -> lg_now g + br_period c <= now -> now + br_period c < 2 ^ 64 ->
  exists s' rr ps wr r' b', bram_cycle now cd m s = Ok (true, s') /\ cycle_facts s m g now s' r' b' rr ps wr /\
    let r := mss_r (br_current s) in let b := mss_b (br_current s) in
    br_readResponses s = (if mms_rReady m && rd_valid r then [r] else []) ++ rr /\
    br_writeResponses s = (if mms_bReady m && wr_valid b then [b] else []) ++ wr /\
    (rd_valid r' = true -> head rr = Some r') /\ (rd_valid r = true -> mms_rReady m = false -> r' = r) /\
    (wr_valid b' = true -> head wr = Some b') /\ (wr_valid b = true -> mms_bReady m = false -> b' = b).
Proof using Hbase Hsize Htop Hperiod.
  intros Hi [Har Haw Hlast] Hnow Htop64. destruct Hi as [Hw Hsp Hr Hrf Hrk Hkeys Hreqs Hb Hbf Hbk [Hql Hq] [Hd1 Hd2] H0].
  destruct (update_part m s Hr Hb) as (rr & wr & r' & b' & Eu & Q).
  unfold bram_cycle, bram_update. cbn [Z.eqb guard st_body new_State]. rewrite Eu. cbn [rbind]. clear Eu. set (s1 := mk_bram _ _ _ _ _ _ _ _ _ _ _ _ _ _) in *.
  assert (Hw1 : write_inv s1 (spec_after (lg_events g))) by (destruct Hw; by split).
  destruct (accept_part s1 _ m Hw1 eq_refl Haw) as (s2 & E2 & Hw2 & Hq2 & Hrd2 & Hrp2). unfold resp_part in Hrp2. injection Hrp2 as G1 _ G2.
  destruct (release_part now s2) as (R1 & R2 & R3 & R4 & R5 & R6).
  { rewrite G2. intros b t Hbt. specialize (Hd1 b t Hbt). lia. }
  { by rewrite G2. }
  rewrite Hrd2 in R4. set (s3 := release_delayed now s2) in *. destruct (read_part_eq _ _ R4) as (P1 & P2 & P3 & P4 & P5).
  assert (Hwt : w_taken s3 (br_in s3) && rd_last (mms_w (br_in s3)) = w_taken s m && rd_last (mms_w m)) by (unfold w_taken; by rewrite P1, P3).
  rewrite Hq2 in R5.
  destruct (answer_part now s3) as (A1 & A2 & A3 & A4 & A5 & A6 & A7); [lia|lia|done|done| |].
  { rewrite Hwt, R5. intros Hl. change (br_writeRequests s1) with (br_writeRequests s). rewrite Hq. by apply left_over, Hlast. }
  rewrite Hwt in A1, A2. rewrite R4 in A6. set (s4 := answer_w c now s3) in *. destruct (read_part_eq _ _ A6) as (U1 & U2 & U3 & U4 & U5).
  destruct (delay_ok s m (u64 (now + br_period c)) Hreqs Har) as [D1 D2].
  pose proof (A7 _ (R6 _ Hw2)) as Hw4. rewrite Hwt in Hw4. change (aw_taken s1 m) with (aw_taken s m) in Hw4.
  change (w_taken s1 m) with (w_taken s m) in Hw4. rewrite <- w_events_spec, <- spec_after_app in Hw4. pose proof (wi_mem _ _ Hw4) as Hm4.
  destruct (read_step (br_memory s4) _ (br_readRequests s) _ rr Hm4 D1) as (reqs' & delay' & ps & Eg & Hps & Hc & Hf).
  unfold bram_tick. rewrite E2. cbn [rbind]. fold s3 s4. rewrite U4, U5.
  change (br_readRequestsdelay s1) with (br_readRequestsdelay s). change (br_readRequests s1) with (br_readRequests s).
  change (br_current s1) with (br_current s). change (br_in s1) with m. change (br_readResponses s1) with rr. rewrite Eg. cbn [rbind].
  eexists _, rr, ps, wr, r', b'. split; [reflexivity|]. split; [|exact Q]. split; cbn.
  - by rewrite U2.
  - destruct Hw4. by split.
  - done.
  - done.
  - by rewrite <- D2.
  - done.
  - etrans; [|exact A5]. by rewrite <- G1.
  - eexists. split; [|split; [rewrite <- A2, R5; reflexivity|]].
    + etrans; [exact A1|]. unfold answers in R2. rewrite R1, G1, G2, app_nil_r in R2. by rewrite R2, <- app_assoc.
    + destruct (w_taken s m && rd_last (mms_w m)) eqn:El; [|done]. destruct (br_writeRequests s3) as [|a l] eqn:Eq; [|done]. exfalso.
      apply (left_over _ _ _ Hql (Hlast eq_refl)). rewrite <- Hq. change (br_writeRequests s ++ aw_taken s m) with (br_writeRequests s1 ++ aw_taken s1 m). congruence.
  - done.
Qed.

Lemma r_event_facts st s s' rr ps : br_readResponses s' = rr ++ ps -> Forall2 (fun x p => read_beat st.1 x.1 x.2 p) (due_beat (br_readRequests s)) ps ->
  (reads (r_event s s')).*1 = due_beat (br_readRequests s) /\ (reads (r_event s s')).*2 = ps /\ checks st (r_event s s') /\
  foldl spec_step st (r_event s s') = st.
Proof.
  intros E Hf. unfold r_event. rewrite E. destruct (br_readRequests s) as [|r q]; cbn in Hf; inversion Hf as [|x p l1 l2 Hp Hl]; subst; [done|].
  inversion Hl; subst. rewrite last_snoc. done.
Qed.

Lemma queue_step {A} n (l t d q : list A) : (n <= length l)%nat -> drop n l ++ t = d ++ q ->
  take (n + length d) (l ++ t) = take n l ++ d /\ (n + length d <= length (l ++ t))%nat /\ q = drop (n + length d) (l ++ t).
Proof.
  intros Hn E. assert (l ++ t = take n l ++ d ++ q) as -> by (by rewrite <- E, app_assoc, take_drop).
  assert (length (take n l) = n) as Hl by (rewrite length_take; lia). rewrite app_assoc. split_and!.
  - rewrite take_app_length'; [done|rewrite length_app; lia].
  - rewrite !length_app. lia.
  - rewrite drop_app_length'; [done|rewrite length_app; lia].
Qed.

Lemma bram_inv_cycle s g now cd m : bram_inv s g -> inputs_ok s m g -> lg_now g + br_period c <= now -> now + br_period c < 2 ^ 64 ->
  exists s', bram_cycle now cd m s = Ok (true, s') /\ bram_inv s' (log_cycle now m s s' g).
Proof using Hbase Hsize Htop Hperiod.
  intros Hi Hin Hnow Ht. destruct (bram_cycle_facts s g now cd m Hi Hin Hnow Ht) as (s' & rr & ps & wr & r' & b' & E & F & Q1 & Q2 & N1 & K1 & N2 & K2).
  exists s'. split; [done|]. destruct F as [Fc Fw Frr Fps Fp Fq Fwr (due & Fa & Fd & Fl) Fdel].
  destruct (r_event_facts _ s s' rr ps Frr Fps) as (V1 & V2 & V3 & V4). destruct Hi as [Hw Hsp Hr Hrf Hrk Hkeys Hreqs Hb Hbf Hbk [Hql Hq] [Hd1 Hd2] H0].
  rewrite Hq in Fd. destruct (queue_step _ _ _ _ _ Hql Fd) as (T1 & T2 & T3).
  assert (lg_lasts g + length due = if w_taken s m && rd_last (mms_w m) then S (lg_lasts g) else lg_lasts g)%nat as El
    by (rewrite Fl; destruct (w_taken s m && rd_last (mms_w m)); lia).
  split; cbn [lg_events lg_ars lg_aws lg_lasts lg_r lg_b lg_now log_cycle]; rewrite ?Fc; cbn [mss_r mss_b].
  - by rewrite app_assoc, spec_after_app, V4.
  - rewrite app_assoc, !checks_app. split_and!; [done|apply w_events_checks|].
    fold (spec_after (lg_events g ++ w_events s m)). exact V3.
  - rewrite Frr. intros Hv. specialize (N1 Hv). by destruct rr.
  - by rewrite !reads_app, w_events_reads, app_nil_l, fmap_app, V2, Hrf, took_snoc, Frr, Q1, <- !app_assoc.
  - destruct Hrk as [Hk1 Hk2]. split; [by apply kept_snoc|]. intros x. rewrite last_snoc. intros [= <- Hrd] Hv. by apply K1.
  - by rewrite !reads_app, w_events_reads, app_nil_l, fmap_app, V1, (fmap_app burst), concat_app, <- Hkeys, <- (app_assoc _ (due_beat _)), <- Fp, app_assoc.
  - done.
  - intros Hv. specialize (N2 Hv). destruct Fwr as [z ->]. by destruct wr.
  - rewrite took_snoc, Fa, <- El, T1, fmap_app, <- Hbf. unfold answers. by rewrite Q2, <- !app_assoc.
  - destruct Hbk as [Hk1 Hk2]. split; [by apply kept_snoc|]. intros x. rewrite last_snoc. intros [= <- Hrd] Hv. by apply K2.
  - by rewrite <- El.
  - done.
  - lia.
Qed.

Lemma bram_reach_inv s g : bram_reach s g -> bram_inv s g.
Proof using Hbase Hsize Htop Hperiod.
  induction 1 as [|s g now cd m s' _ IH Hin Hnow Ht E]; [apply bram_inv_init|].
  destruct (bram_inv_cycle s g now cd m IH Hin Hnow Ht) as (s1 & E1 & Hi). rewrite E in E1. by injection E1 as <-.
Qed.

Lemma checks_reads m l : checks m l -> Forall (fun x => rd_id x.2 = ra_id x.1.1 /\ rd_last x.2 = (x.1.2 =? ra_len x.1.1)) (reads l).
Proof.
  revert m. induction l as [|[a|w|a k p] l IH]; intros m; cbn; [constructor|intros [_ H]; by eapply IH..|].
  intros [H1 H2]. constructor; [cbn; by destruct H1|by eapply IH].
Qed.

(** ** Results *)

(** C15: reads return what was written last.  The record of a run holds the AW and W handshakes of
    the master and the read beats that are answered.  In every run, read beat number [n] is for
    beat number [n] of the accepted read bursts, and it has, byte for byte, the contents of the
    memory made by the W beats before it: the [k]-th W beat after an address and up to WLAST is
    stored at the place of beat [k] of that burst, under its strobes.  A beat outside of the
    memory is zero and answered with DECERR. *)
Theorem bram_reads_last_write s g l1 a k p l2 : bram_reach s g -> lg_events g = l1 ++ ER a k p :: l2 ->
  concat (burst <$> lg_ars g) !! length (reads l1) = Some (a, k) /\ read_beat (spec_mem l1) a k p.
Proof using Hbase Hsize Htop Hperiod.
  intros Hr E. apply bram_reach_inv in Hr as [_ Hc _ _ _ Hk _ _ _ _ _ _ _]. split.
  - rewrite <- Hk, E, reads_app, fmap_app, <- app_assoc. cbn [reads omap list_omap fmap list_fmap app fst].
    rewrite <- (length_fmap fst (reads l1)). by rewrite lookup_app_r, Nat.sub_diag.
  - rewrite E, checks_app in Hc. apply Hc.
Qed.

(** C16: every request is answered.  In every run the read beats handed over are answers to the
    beats of the accepted bursts, in order, with their IDs and with RLAST on the last beat of
    a burst only; the write responses handed over are those of the accepted bursts, in order;
    on both channels a refused response stays until it is taken; and no cycle fails. *)
Theorem bram_answers s g : bram_reach s g ->
  took rd_valid (lg_r g) `prefix_of` (reads (lg_events g)).*2 /\ (reads (lg_events g)).*1 `prefix_of` concat (burst <$> lg_ars g) /\
  (br_readRequests s = [] -> br_readRequestsdelay s = [] -> br_readResponses s = [] ->
   took rd_valid (lg_r g) = (reads (lg_events g)).*2 /\ (reads (lg_events g)).*1 = concat (burst <$> lg_ars g)) /\
  Forall (fun x => rd_id x.2 = ra_id x.1.1 /\ rd_last x.2 = (x.1.2 =? ra_len x.1.1)) (reads (lg_events g)) /\
  took wr_valid (lg_b g) ++ answers s = writeResp c <$> take (lg_lasts g) (lg_aws g) /\
  kept rd_valid (lg_r g) /\ kept wr_valid (lg_b g) /\
  (forall now cd m, inputs_ok s m g -> lg_now g + br_period c <= now -> now + br_period c < 2 ^ 64 ->
    exists s', bram_cycle now cd m s = Ok (true, s')).
Proof using Hbase Hsize Htop Hperiod.
  intros Hr. apply bram_reach_inv in Hr as Hi. pose proof Hi as [_ Hc _ Hrf [Hrk _] Hkeys _ _ Hbf [Hbk _] _ _ _]. split_and!; try done.
  - rewrite Hrf. by eexists.
  - rewrite <- Hkeys. by eexists.
  - intros E1 E2 E3. rewrite E1, E2 in Hkeys. rewrite E3 in Hrf. rewrite !app_nil_r in *. done.
  - by eapply checks_reads.
  - intros now cd m Hin Hnow Ht. destruct (bram_inv_cycle s g now cd m Hi Hin Hnow Ht) as (s' & E & _). by exists s'.
Qed.
End BramRun.
