(* ===== verification/BramExample.v ===== *)
(** * Examples for the BRAM endpoint

    A burst of two beats is written and read back.  Then what happens to overlapping bursts, to
    wrapping bursts and to long functional writes. *)

From S2P Require Import Prelude AxiTypes Checkpoint AxiCheckpoint CdcQueue AxisHandler NocNodes Bram BramRun.

Definition ex_brc : bramCfg := mk_bramCfg 4096 64 10.
Definition ex_addr (cmd : AximmCommand) (i addr len : Z) (b : BurstType) : aximmRWAddr :=
  mk_aximmRWAddr cmd i addr len 2 b false 0 0 0 0 0 true (-1) 0 (-1) false.
Definition ex_wbeat (x : Z) (lst : bool) : aximmRWData := aximmRWData_of WRITE 7 lst ([x; x + 1; x + 2; x + 3] ++ zeros 60) 15.
Definition ex_none : aximmRWAddr := aximmRWAddr_default.
Definition ex_drive (ar aw : aximmRWAddr) (w : aximmRWData) : aximmMasterState := mk_aximmMasterState ar true aw w true false.
Definition ex_quiet : aximmMasterState := ex_drive ex_none ex_none aximmRWData_default.

(** A run from a list of inputs, one per period, with its log. *)
Definition ex_cycle (x : bram * blog) (m : aximmMasterState) : bram * blog :=
  let now := lg_now x.2 + 10 in
  match bram_cycle ex_brc now 1 m x.1 with Ok (_, s') => (s', log_cycle now m x.1 s' x.2) | Err _ => x end.
Definition ex_start : bram * blog := (bram_init ex_brc, mk_blog [] [] [] 0 [] [] 0).
Definition ex_go (l : list aximmMasterState) : bram * blog := foldl ex_cycle ex_start l.

Definition ex_aw : aximmRWAddr := ex_addr WRITE 7 4100 1 INCR.
Definition ex_ar : aximmRWAddr := ex_addr READ 9 4100 1 INCR.
Definition ex_inputs : list aximmMasterState :=
  [ex_quiet; ex_drive ex_none ex_aw (ex_wbeat 10 false); ex_drive ex_none ex_none (ex_wbeat 20 true);
   ex_drive ex_ar ex_none aximmRWData_default; ex_quiet; ex_quiet; ex_quiet; ex_quiet; ex_quiet].

Definition ex_check (x : bram * blog) (m : aximmMasterState) : bool :=
  match bram_cycle ex_brc (lg_now x.2 + 10) 1 m x.1 with Ok (true, _) => true | _ => false end &&
  (if w_taken x.1 m && rd_last (mms_w m) then (lg_lasts x.2 <? length (lg_aws x.2 ++ aw_taken x.1 m))%nat else true).
Fixpoint ex_checks (x : bram * blog) (l : list aximmMasterState) : bool :=
  match l with [] => true | m :: l => ex_check x m && ex_checks (ex_cycle x m) l end.

Definition inputs_legal (m : aximmMasterState) : Prop :=
  (ra_valid (mms_ar m) = true -> req_ok (mms_ar m)) /\ (ra_valid (mms_aw m) = true -> req_ok (mms_aw m)).
Lemma ex_go_reach l x : bram_reach ex_brc x.1 x.2 -> Forall inputs_legal l -> ex_checks x l = true -> 0 <= lg_now x.2 ->
  lg_now x.2 + 10 * nz (length l) < 2 ^ 63 -> bram_reach ex_brc (foldl ex_cycle x l).1 (foldl ex_cycle x l).2.
Proof.
  revert x. induction l as [|m l IH]; intros [s g] Hr Hl Hc H0 Hb; [done|]. cbn [foldl ex_checks] in *. apply andb_prop in Hc as [Hc Hcs].
  apply Forall_cons in Hl as [[Ha Hw] Hl]. apply andb_prop in Hc as [Hc1 Hc2]. unfold ex_cycle in *. cbn [fst snd] in *.
  destruct (bram_cycle ex_brc (lg_now g + 10) 1 m s) as [[[] s']|] eqn:E; try done.
  apply IH; [|done|done|cbn; lia|cbn [log_cycle lg_now snd length] in *; lia].
  apply (brr_cycle ex_brc s g _ 1); [done| |cbn; lia|cbn [length] in *; cbn; lia|done]. split; [done..|]. intros Hlast. rewrite Hlast in Hc2.
  by apply Nat.ltb_lt.
Qed.

Lemma ex_run_reach : bram_reach ex_brc (ex_go ex_inputs).1 (ex_go ex_inputs).2.
Proof.
  apply (ex_go_reach ex_inputs ex_start); [constructor| |vm_compute; reflexivity|cbn; lia|cbn; lia].
  repeat (constructor; [split; intros H; first [discriminate H|split; cbn; lia]|]). constructor.
Qed.

Definition ex_written : list event := [EA ex_aw; EW (ex_wbeat 10 false); EW (ex_wbeat 20 true)].
Lemma bram_reads_last_write_witness : exists p q,
  lg_events (ex_go ex_inputs).2 = (ex_written ++ [ER ex_ar 0 p]) ++ ER ex_ar 1 q :: [] /\
  concat (burst <$> lg_ars (ex_go ex_inputs).2) !! 1%nat = Some (ex_ar, 1) /\
  read_beat ex_brc (spec_mem ex_brc (ex_written ++ [ER ex_ar 0 p])) ex_ar 1 q /\ rd_data q = [20; 21; 22; 23] ++ zeros 60.
Proof.
  assert (exists p q, lg_events (ex_go ex_inputs).2 = (ex_written ++ [ER ex_ar 0 p]) ++ ER ex_ar 1 q :: [] /\ rd_data q = [20; 21; 22; 23] ++ zeros 60)
    as (p & q & E & Hq) by (eexists _, _; split; vm_compute; reflexivity).
  exists p, q. split; [exact E|].
  destruct (bram_reads_last_write ex_brc ltac:(cbn; lia) ltac:(cbn; lia) ltac:(cbn; lia) ltac:(cbn; lia) (ex_go ex_inputs).1 (ex_go ex_inputs).2 _ _ _ _ _
    ex_run_reach E) as [H1 H2].
  split; [exact H1|]. split; [exact H2|exact Hq].
Defined.

Lemma bram_answers_witness : (rd_data <$> took rd_valid (lg_r (ex_go ex_inputs).2)) = [[10; 11; 12; 13] ++ zeros 60; [20; 21; 22; 23] ++ zeros 60] /\
  (reads (lg_events (ex_go ex_inputs).2)).*1 = [(ex_ar, 0); (ex_ar, 1)] /\ took wr_valid (lg_b (ex_go ex_inputs).2) = [mk_aximmWResp 7 OKAY 0 true].
Proof.
  destruct (bram_answers ex_brc ltac:(cbn; lia) ltac:(cbn; lia) ltac:(cbn; lia) ltac:(cbn; lia) _ _ ex_run_reach) as (_ & _ & H & _ & Hb & _).
  destruct H as [_ H2]; [vm_compute; reflexivity..|].
  split_and!; [vm_compute; reflexivity|exact H2|]. change (answers (ex_go ex_inputs).1) with (@nil aximmWResp) in Hb. rewrite app_nil_r in Hb. exact Hb.
Defined.

(** ** What the endpoint does not do *)

(** A second address that is accepted before the first burst has ended, which AXI allows,
    takes over: the last beat of the first burst is stored at the second address. *)
Definition ex_overlap : list aximmMasterState :=
  [ex_quiet; ex_drive ex_none ex_aw (ex_wbeat 10 false); ex_drive ex_none (ex_addr WRITE 8 4120 0 INCR) (ex_wbeat 20 true)].
Example second_address_takes_over :
  (fun a => br_memory (ex_go ex_overlap).1 !! zn (a - 4096)) <$> [4100; 4104; 4120] = [Some 10; Some 0; Some 20] /\
  br_writeResponses (ex_go ex_overlap).1 = [mk_aximmWResp 7 OKAY 0 true].
Proof. vm_compute. done. Qed.

(** A wrapping burst of four beats of four bytes at 4104 starts at 4096 instead of 4104. *)
Example wrap_starts_at_boundary :
  (fun k => beatAddr (ex_addr READ 1 4104 3 WRAP) 4 k) <$> [0; 1; 2; 3] = [Ok 4096; Ok 4100; Ok 4104; Ok 4108].
Proof. vm_compute. reflexivity. Qed.

(** A fixed burst of two beats to the last word is stored, and answered with DECERR. *)
Example fixed_burst_decerr : isValidAddress ex_brc 4156 4 = true /\
  wr_resp (writeResp ex_brc (ex_addr WRITE 1 4156 1 FIXED)) = DECERR.
Proof. vm_compute. done. Qed.

(** The range check has 16 bits for the size: a write of 65536 bytes passes it and leaves the storage. *)
Example long_write_leaves_storage :
  functionalWrite ex_brc 4096 (zeros (zn 65536)) (zeros 64) = Err (FUndef "vector index out of range").
Proof. vm_compute. reflexivity. Qed.
