(* ===== verification/MmHandler.v ===== *)
(** * The AXI-MM node interface

    [NocInterface] with an [AXIMMHandler] ([src/src/noc/core/interface/NocInterface.cc],
    [src/src/noc/core/interface/protocols/AXIMMHandler.cc]): the boundary between an AXI-MM
    endpoint and its network interface.  It has the five channels of AXI, each with a
    crossing queue and a message buffer of its own; those of the requests lead from a master
    endpoint to its unit, those of the responses back, and the other way round at a slave.

    A channel is a part of the two state structs: the sender's has its payload, the receiver's
    its ready signal.  The traffic monitor and the probe, which only observe, are left out. *)

From stdpp Require Import functions.
From S2P Require Import Prelude AxiTypes NppReceive Flit MmDepack WriteTracker MmWriteBuffer Rrob MsgBuffer MmNmu MmNsu.
From S2P Require Import Checkpoint AxiCheckpoint CdcQueue AxisHandler Bram.

Inductive mmChan := AR | AW | R | W | B.
#[export] Instance mmChan_eq_dec : EqDecision mmChan.
Proof. solve_decision. Defined.

(** The order of [initChannelMap]. *)
Definition channelMap : list mmChan := [AR; AW; R; W; B].
(** [dir]: towards the endpoint (1) or towards the network (0). *)
Definition to_node (role : ifRole) (ch : mmChan) : bool :=
  match role, ch with
  | Master, (R | B) => true
  | Master, _ => false
  | Slave, (R | B) => false
  | Slave, _ => true
  end.

(** ** Channels of a state *)

Inductive chanData := DAddr (a : aximmRWAddr) | DData (d : aximmRWData) | DResp (b : aximmWResp).

Definition set_ra_valid (v : bool) (a : aximmRWAddr) : aximmRWAddr :=
  mk_aximmRWAddr (ra_cmd a) (ra_id a) (ra_addr a) (ra_len a) (ra_size a) (ra_burst a) (ra_lock a) (ra_cache a) (ra_prot a)
    (ra_qos a) (ra_region a) (ra_user a) v (ra_sourceNiDebug a) (ra_originalReadBytesDebug a) (ra_debugId a) (ra_finalReadChunkDebug a).
Definition set_wr_valid (v : bool) (b : aximmWResp) : aximmWResp := mk_aximmWResp (wr_id b) (wr_resp b) (wr_user b) v.

Definition chan_valid (d : chanData) : bool :=
  match d with DAddr a => ra_valid a | DData d => rd_valid d | DResp b => wr_valid b end.
Definition chan_invalid (d : chanData) : chanData :=
  match d with DAddr a => DAddr (set_ra_valid false a) | DData d => DData (set_rd_valid false d) | DResp b => DResp (set_wr_valid false b) end.

(** The payload of a channel, [None] for a state of another kind. *)
Definition chan_get (ch : mmChan) (s : StateBody) : option chanData :=
  match ch, s with
  | AR, SAximmMaster m => Some (DAddr (mms_ar m))
  | AW, SAximmMaster m => Some (DAddr (mms_aw m))
  | W, SAximmMaster m => Some (DData (mms_w m))
  | R, SAximmSlave s => Some (DData (mss_r s))
  | B, SAximmSlave s => Some (DResp (mss_b s))
  | _, _ => None
  end.
Definition chan_set (ch : mmChan) (d : chanData) (s : StateBody) : option StateBody :=
  match ch, d, s with
  | AR, DAddr a, SAximmMaster m => Some (SAximmMaster (mk_aximmMasterState a (mms_rReady m) (mms_aw m) (mms_w m) (mms_bReady m) (mms_cdc_enqueue_ready m)))
  | AW, DAddr a, SAximmMaster m => Some (SAximmMaster (mk_aximmMasterState (mms_ar m) (mms_rReady m) a (mms_w m) (mms_bReady m) (mms_cdc_enqueue_ready m)))
  | W, DData d, SAximmMaster m => Some (SAximmMaster (mk_aximmMasterState (mms_ar m) (mms_rReady m) (mms_aw m) d (mms_bReady m) (mms_cdc_enqueue_ready m)))
  | R, DData d, SAximmSlave s => Some (SAximmSlave (mk_aximmSlaveState (mss_arReady s) d (mss_awReady s) (mss_wReady s) (mss_b s)))
  | B, DResp b, SAximmSlave s => Some (SAximmSlave (mk_aximmSlaveState (mss_arReady s) (mss_r s) (mss_awReady s) (mss_wReady s) b))
  | _, _, _ => None
  end.
(** The ready signal of a channel. *)
Definition chan_ready (ch : mmChan) (s : StateBody) : option bool :=
  match ch, s with
  | AR, SAximmSlave s => Some (mss_arReady s)
  | AW, SAximmSlave s => Some (mss_awReady s)
  | W, SAximmSlave s => Some (mss_wReady s)
  | R, SAximmMaster m => Some (mms_rReady m)
  | B, SAximmMaster m => Some (mms_bReady m)
  | _, _ => None
  end.
Definition chan_set_ready (ch : mmChan) (v : bool) (s : StateBody) : option StateBody :=
  match ch, s with
  | AR, SAximmSlave s => Some (SAximmSlave (mk_aximmSlaveState v (mss_r s) (mss_awReady s) (mss_wReady s) (mss_b s)))
  | AW, SAximmSlave s => Some (SAximmSlave (mk_aximmSlaveState (mss_arReady s) (mss_r s) v (mss_wReady s) (mss_b s)))
  | W, SAximmSlave s => Some (SAximmSlave (mk_aximmSlaveState (mss_arReady s) (mss_r s) (mss_awReady s) v (mss_b s)))
  | R, SAximmMaster m => Some (SAximmMaster (mk_aximmMasterState (mms_ar m) v (mms_aw m) (mms_w m) (mms_bReady m) (mms_cdc_enqueue_ready m)))
  | B, SAximmMaster m => Some (SAximmMaster (mk_aximmMasterState (mms_ar m) (mms_rReady m) (mms_aw m) (mms_w m) v (mms_cdc_enqueue_ready m)))
  | _, _ => None
  end.

(** ** The interface *)

Record mmIfCfg := mk_mmIfCfg {
  mc_role : ifRole;
  mc_period : Z;
  mc_mb : mmChan -> mbCfg
}.
Record mmIf := mk_mmIf {
  mi_current : State;
  mi_next : State;
  mi_node : State;
  mi_cdc : mmChan -> CDCQueue;
  readBeatSize : list Z
}.
Definition mput_cdc (ch : mmChan) (q : CDCQueue) (i : mmIf) : mmIf :=
  mk_mmIf (mi_current i) (mi_next i) (mi_node i) (<[ch := q]> (mi_cdc i)) (readBeatSize i).
Definition mput_next (s : State) (i : mmIf) : mmIf := mk_mmIf (mi_current i) s (mi_node i) (mi_cdc i) (readBeatSize i).

(** What an interface asks of its unit: whether it takes what is at the front of a queue, and
    that it notes a read response that was taken from it. *)
Record mmUnitOps (U : Type) := mk_mmUnitOps {
  unit_ready : mmChan -> option StateBody -> Z -> U -> res (bool * U);
  unit_read : NocMemoryMsg -> U -> res U
}.
Arguments mk_mmUnitOps {U}.
Arguments unit_ready {U}.
Arguments unit_read {U}.

Definition is_some_body (o : option StateBody) : bool := match o with Some _ => true | None => false end.
(** A master unit; [buffered] are the messages in the buffer of the channel. *)
Definition nmu_ops : mmUnitOps mmNmu := mk_mmUnitOps
  (fun ch up buffered s => match ch with
     | AR => Ok (getAxiRAddrReady s (is_some_body up) buffered)
     | AW => Ok (getAxiWAddrReady s (is_some_body up) buffered)
     | W => Ok (getAxiWReady s, s)
     | _ => Err (FPanic "AXIMMHandler::cdcDequeueNiReady: unexpected channel")
     end)
  (fun msg s => msgReadCallback s msg).
(** A slave unit, with the credits of its output VCs. *)
Definition nsu_ops (m_route_to_vc_map : gmap (Z * Z * Z) Z) (m_id : Z) (has_credit : Z -> bool) : mmUnitOps mmNsu := mk_mmUnitOps
  (fun ch up _ s => match ch with
     | R => Ok (getAxiRReady s)
     | B => let b := match up with Some (SAximmSlave x) => mss_b x | _ => aximmWResp_default end in
            let* ready := getAxiBReady m_route_to_vc_map m_id s (is_some_body up) b has_credit in Ok (ready, s)
     | _ => Err (FPanic "AXIMMHandler::cdcDequeueNiReady: unexpected channel")
     end)
  (fun _ s => Ok s).

Section MmInterface.
Context (c : mmIfCfg).
Implicit Types (i : mmIf) (ch : mmChan) (q : mbuf (M := NocMemoryMsg)).

Definition invalid_resp : aximmWResp := mk_aximmWResp 0 OKAY 0 false.
Definition mm_slave_state : State :=
  new_State (SAximmSlave (mk_aximmSlaveState true (set_rd_valid false aximmRWData_default) true true invalid_resp)).
Definition mm_master_state : State := new_State (SAximmMaster aximmMasterState_default).

(** [AXIMMHandler::createNodeInterfaceState] and [createNodeState] *)
Definition mm_createNodeInterfaceState : State := match mc_role c with Master => mm_slave_state | Slave => mm_master_state end.
Definition mm_createNodeState : State := match mc_role c with Master => mm_master_state | Slave => mm_slave_state end.

Definition mmIf_init : mmIf :=
  mk_mmIf mm_createNodeInterfaceState mm_createNodeInterfaceState mm_createNodeState (fun _ => newCDCQueue 8) (zeros (zn NUM_SUPPORTED_AXI_IDS)).

(** [AXIMMHandler::isTransactionReady] *)
Definition mm_isTransactionReady ch (sending receiving : State) : res bool :=
  match chan_get ch (st_body sending), chan_ready ch (st_body receiving) with
  | Some d, Some ready => Ok (chan_valid d && ready)
  | _, _ => Err (FAssert "slave && master")
  end.
Definition mm_currChannelValid ch (s : State) : bool := match chan_get ch (st_body s) with Some d => chan_valid d | None => false end.
Definition mm_cdcEnqueueReady ch i : bool := negb (isFull (mi_cdc i ch)).
Definition mm_cdcEnqueue ch (now : Z) (s : State) (info : option ResponseInfo) i : mmIf :=
  mput_cdc ch (match info with
               | Some ri => enqueueResp (mi_cdc i ch) (Some s) ri now
               | None => enqueue (mi_cdc i ch) (Some s) now
               end).2 i.

(** *** The side of the network *)

Definition mm_channelBufferReady ch q (now : Z) : res bool :=
  match m_prio_heap q with
  | [] => Ok false
  | _ => let* (ready, _) := mb_isReady (mc_mb c ch) q (now + 1) in Ok ready
  end.

(** The payload of a message for a channel: of a read response the first beat. *)
Definition msg_data ch (msg : NocMemoryMsg) : res chanData :=
  match ch, mm_payload msg with
  | R, _ => let* d := pload_at msg 0 in Ok (DData d)
  | (AR | AW), PAddr a => Ok (DAddr a)
  | W, PData d => Ok (DData d)
  | B, PResp b => Ok (DResp b)
  | _, _ => Err (FPanic "Unsupported payload type")
  end.
(** What the code takes when there is no message. *)
Definition no_data ch : chanData :=
  match ch with
  | AR | AW => DAddr (set_ra_valid false aximmRWAddr_default)
  | R | W => DData (set_rd_valid false aximmRWData_default)
  | B => DResp invalid_resp
  end.

(** [AXIMMHandler::getStateFromChannelQueue] into the state [s]; the handler also notes the beat
    size of a read request, in an array of four. *)
Definition mm_getStateFromChannelQueue ch (now : Z) (s : State) q i : res (State * mmIf) :=
  let* ready := mm_channelBufferReady ch q now in
  let* (d, debugId) := if ready then let* msg := mb_peek q in let* d := msg_data ch msg in Ok (d, mm_debugId msg)
                       else Ok (no_data ch, st_debugId s) in
  let* body := of_opt (FAssert "slave or master state") (chan_set ch d (st_body s)) in
  let* i := match ch, d with
            | AR, DAddr a =>
                if ra_valid a then
                  guard (ra_id a <? NUM_SUPPORTED_AXI_IDS) (FUndef "array index out of range")
                    (Ok (mk_mmIf (mi_current i) (mi_next i) (mi_node i) (mi_cdc i) (<[zn (ra_id a) := ra_size a]> (readBeatSize i))))
                else Ok i
            | _, _ => Ok i
            end in
  Ok (mk_State debugId body, i).

(** [AXIMMHandler::optionalResponseInfoForCdcEnqueue] with [getResponseInfoFromChannelQueue] *)
Definition mm_responseInfo ch (now : Z) q : res (option ResponseInfo) :=
  match ch with
  | R | B =>
      let* ready := mm_channelBufferReady ch q now in
      guard ready (FPanic "AXIMMHandler::getResponseInfoFromChannelQueue: No data available in queue") (
      let* msg := mb_peek q in
      let* d := msg_data ch msg in
      Ok (Some (match d with
                | DData d => if rd_last d then mk_ResponseInfo true false RT_READ (rd_id d) 1 0 [] false 0
                             else mk_ResponseInfo false false RT_NONE 0 0 0 [] false 0
                | DResp b => mk_ResponseInfo true false RT_WRITE (wr_id b) 0 0 [] false 0
                | DAddr _ => mk_ResponseInfo false false RT_NONE 0 0 0 [] false 0
                end)))
  | _ => Ok None
  end.

(** [NocInterface::nocSideUpdate] on a channel towards the endpoint. *)
Definition mm_nocIn {U} (ops : mmUnitOps U) (now : Z) ch i q (u : U) : res (mmIf * mbuf * U) :=
  if mm_cdcEnqueueReady ch i then
    let* ready := mm_channelBufferReady ch q now in
    if ready then
      let* u := match ch with R => let* msg := mb_peek q in unit_read ops msg u | _ => Ok u end in
      let* (staged, i) := mm_getStateFromChannelQueue ch now mm_createNodeInterfaceState q i in
      let* info := mm_responseInfo ch now q in
      let i := mm_cdcEnqueue ch now staged info i in
      let* (_, _, q) := mb_dequeue (mc_mb c ch) q now in
      Ok (i, q, u)
    else Ok (i, q, u)
  else Ok (i, q, u).

(** The state at the front of the queue, for the unit: it must be one of the endpoint. *)
Definition upstream ch (now : Z) i : res (option StateBody) :=
  if canDequeueToNoC (mi_cdc i ch) now then
    match peekFrontState (mi_cdc i ch) now with
    | Some st => match mc_role c, st_body st with
                 | Master, SAximmMaster _ | Slave, SAximmSlave _ => Ok (Some (st_body st))
                 | _, _ => Err (FPanic "AXIMMHandler::cdcDequeueNiReady: wrong state in CDC")
                 end
    | None => Err (FPanic "AXIMMHandler::cdcDequeueNiReady: wrong state in CDC")
    end
  else Ok None.
(** [AXIMMHandler::cdcDequeueNiReady] *)
Definition mm_cdcDequeueNiReady {U} (ops : mmUnitOps U) (now : Z) ch i q (u : U) : res (bool * U) :=
  let* up := upstream ch now i in
  guard (match mc_role c, st_body (mi_current i) with Slave, SAximmMaster _ => true | Slave, _ => false | Master, _ => true end)
    (FPanic "AXIMM Slave NI: expected aximmMasterState interface state") (
  unit_ready ops ch up (u16 (nz (length (m_prio_heap q)))) u).

(** The message of a payload, and its delay in cycles: [generateReadAddrToNoC] and so on. *)
Definition new_msg (d : chanData) : NocMemoryMsg :=
  newNocMemoryMsg (match d with DAddr a => PAddr a | DData d => PData d | DResp b => PResp b end) (replicate 4 aximmRWData_default).
Definition msg_delay ch : Z := match ch with AR => 5 | R => 1 | AW | W | B => 0 end.
Definition set_debugId (n : Z) (m : NocMemoryMsg) : NocMemoryMsg :=
  mk_NocMemoryMsg (mm_payload m) (mm_pload m) (mm_beat_size m) (mm_num_flits m) (mm_rrob_tags m) (mm_axi_rrob_tag m) (mm_axi_beat_id m)
    (mm_end_beat_idx m) (mm_src_ni m) (mm_vnet m) n (mm_original_read_bytes m) (mm_final_read_chunk m).
(** [AXIMMHandler::createMessage] *)
Definition mm_createMessage ch (s : State) : res NocMemoryMsg :=
  guard (negb (to_node (mc_role c) ch)) (FAssert "checkTickAssertions") (
  let* d := of_opt (FAssert "nodeState") (chan_get ch (st_body s)) in
  Ok (if 0 <=? st_debugId s then set_debugId (st_debugId s) (new_msg d) else new_msg d)).

(** [nocSideUpdate] on a channel towards the network. *)
Definition mm_nocOut {U} (ops : mmUnitOps U) (now edge : Z) (random : option Z) ch i q (u : U) : res (mmIf * mbuf * U) :=
  if canDequeueToNoC (mi_cdc i ch) now then
    let* (ready, u) := mm_cdcDequeueNiReady ops now ch i q u in
    if ready : bool then
      let '(fromCdc, cdc) := dequeue (mi_cdc i ch) now in
      let i := mput_cdc ch cdc i in
      match fromCdc with
      | Some s =>
          let* msg := mm_createMessage ch s in
          let* q := mb_enqueue (mc_mb c ch) q msg edge edge (mc_period c * msg_delay ch) random false false in
          Ok (i, q, u)
      | None => Ok (i, q, u)
      end
    else Ok (i, q, u)
  else Ok (i, q, u).

Definition mm_nocChannel {U} (ops : mmUnitOps U) (now edge : Z) (random : mmChan -> option Z)
    (x : mmIf * (mmChan -> mbuf (M := NocMemoryMsg)) * U) ch : res (mmIf * (mmChan -> mbuf (M := NocMemoryMsg)) * U) :=
  let '(i, qs, u) := x in
  let* (i, q, u) := if to_node (mc_role c) ch then mm_nocIn ops now ch i (qs ch) u
                    else mm_nocOut ops now edge (random ch) ch i (qs ch) u in
  Ok (i, <[ch := q]> qs, u).
Definition mm_nocSideUpdate {U} (ops : mmUnitOps U) (now edge : Z) (random : mmChan -> option Z) i qs (u : U) :=
  foldM (mm_nocChannel ops now edge random) (i, qs, u) channelMap.

(** *** The side of the endpoint *)

(** [AXIMMHandler::cdcDequeueToNode] *)
Definition mm_cdcDequeueToNode ch (now : Z) i : res mmIf :=
  let '(dequeued, cdc) := dequeue (mi_cdc i ch) now in
  let i := mput_cdc ch cdc i in
  match dequeued with
  | None => Ok i
  | Some from =>
      let* d := of_opt (FAssert "from") (chan_get ch (st_body from)) in
      let* body := of_opt (FAssert "slave or master state") (chan_set ch d (st_body (mi_next i))) in
      Ok (mput_next (mk_State (st_debugId from) body) i)
  end.

(** [AXIMMHandler::copyChannelFromCurrentState] *)
Definition mm_copyChannelFromCurrentState ch i : res mmIf :=
  let* d := of_opt (FPanic "copyChannelFromCurrentState") (chan_get ch (st_body (mi_current i))) in
  let* body := of_opt (FPanic "copyChannelFromCurrentState") (chan_set ch d (st_body (mi_next i))) in
  Ok (mput_next (mk_State (st_debugId (mi_next i)) body) i).

(** [AXIMMHandler::setChannelNextValidFalse] *)
Definition mm_setChannelNextValidFalse ch i : mmIf :=
  match chan_get ch (st_body (mi_next i)) with
  | Some d => match chan_set ch (chan_invalid d) (st_body (mi_next i)) with
              | Some body => mput_next (mk_State (st_debugId (mi_next i)) body) i
              | None => i
              end
  | None => i
  end.

(** [nodeSideUpdate] on a channel towards the endpoint. *)
Definition mm_driveNext (now : Z) (input : State) ch i : res mmIf :=
  let* take := if canDequeueToNoC (mi_cdc i ch) now then
                 if mm_currChannelValid ch (mi_current i) then mm_isTransactionReady ch (mi_current i) input else Ok true
               else Ok false in
  if take : bool then
    guard (match peekResponseInfo (mi_cdc i ch) with
           | Some ri => negb (ri_responseEnd ri) || match ri_type ri with RT_NONE => false | _ => true end
           | None => true
           end) (FPanic "Unknown traffic monitor end type") (
    mm_cdcDequeueToNode ch now i)
  else
    let* done := mm_isTransactionReady ch (mi_current i) input in
    if done : bool then Ok (mm_setChannelNextValidFalse ch i) else mm_copyChannelFromCurrentState ch i.
Definition mm_nodeIn (now : Z) (input : State) ch i q : res mmIf :=
  let* i := mm_driveNext now input ch i in
  let* _ := mb_isReady (mc_mb c ch) q now in
  Ok i.

(** [AXIMMHandler::snapshotNodeStateForToCdcProbe] writes into the endpoint's own state. *)
Definition mm_snapshot ch (node : State) i : State :=
  match st_body node with
  | SAximmMaster m =>
      mk_State (st_debugId node)
        (SAximmMaster (mk_aximmMasterState (mms_ar m) (mms_rReady m) (mms_aw m) (mms_w m) (mms_bReady m) (mm_cdcEnqueueReady ch i)))
  | _ => node
  end.

(** [AXIMMHandler::updateChannelNextReady] *)
Definition mm_updateChannelNextReady ch (node : State) i : res mmIf :=
  match chan_get ch (st_body node), chan_ready ch (st_body (mi_current i)), chan_set_ready ch (mm_cdcEnqueueReady ch i) (st_body (mi_next i)) with
  | Some _, Some _, Some body => Ok (mput_next (mk_State (st_debugId (mi_next i)) body) i)
  | _, _, _ => Err (FAssert "updateChannelNextReady")
  end.

(** [nodeSideUpdate] on a channel towards the network. *)
Definition mm_nodeOut (now : Z) (input : State) ch i : res (mmIf * State) :=
  let input := mm_snapshot ch input i in
  let* i := if mm_cdcEnqueueReady ch i then
              let* h := mm_isTransactionReady ch input (mi_current i) in
              Ok (if h : bool then mm_cdcEnqueue ch now input None i else i)
            else Ok i in
  let* i := mm_updateChannelNextReady ch input i in
  Ok (i, input).

(** [NocInterface::nodeSideUpdate]; also the endpoint's state. *)
Definition mm_nodeChannel (now : Z) (qs : mmChan -> mbuf (M := NocMemoryMsg)) (x : mmIf * State) ch : res (mmIf * State) :=
  let '(i, input) := x in
  if to_node (mc_role c) ch then let* i := mm_nodeIn now input ch i (qs ch) in Ok (i, input)
  else mm_nodeOut now input ch i.
Definition mm_start_update (input : State) i : mmIf := mk_mmIf (mi_current i) (mi_current i) input (mi_cdc i) (readBeatSize i).
Definition mm_nodeSideUpdate (now : Z) (input : State) i (qs : mmChan -> mbuf (M := NocMemoryMsg)) : res (mmIf * State) :=
  foldM (mm_nodeChannel now qs) (mm_start_update input i, input) channelMap.

(** [NocInterface::tick] *)
Definition mm_if_tick i : mmIf := mk_mmIf (mi_next i) (mi_next i) (mi_node i) (mi_cdc i) (readBeatSize i).
End MmInterface.
