(* ===== verification/MmIfRun.v ===== *)
(** * Transfers through an AXI-MM interface

    Runs of an AXI-MM node interface of either role: on each of the five channels what comes in
    goes out once and in order, and a payload that is driven stays until it is taken. *)

From stdpp Require Import functions.
From S2P Require Import Prelude AxiTypes NppReceive Flit MmDepack WriteTracker MmWriteBuffer Rrob MsgBuffer MmNmu MmNsu.
From S2P Require Import Checkpoint AxiCheckpoint CdcQueue AxisHandler Bram MmHandler.

(** ** Channels of a state *)

(** What a state drives on a channel, and its ready signal. *)
Definition valid_only (o : option chanData) : option chanData := match o with Some d => if chan_valid d then Some d else None | None => None end.
Definition drives (ch : mmChan) (s : State) : option chanData := valid_only (chan_get ch (st_body s)).
Definition accepts (ch : mmChan) (s : State) : bool := default false (chan_ready ch (st_body s)).

Lemma chan_set_get ch d s s' : chan_set ch d s = Some s' -> chan_get ch s' = Some d.
Proof. by destruct ch, d, s; intros [= <-]. Qed.
Lemma chan_set_other ch ch' d s s' : chan_set ch d s = Some s' -> ch' <> ch -> chan_get ch' s' = chan_get ch' s.
Proof. by destruct ch, ch', d, s; intros [= <-]. Qed.
Lemma chan_set_ready_same ch ch' d s s' : chan_set ch d s = Some s' -> chan_ready ch' s' = chan_ready ch' s.
Proof. by destruct ch, ch', d, s; intros [= <-]. Qed.
Lemma chan_set_Some ch d s0 s e : chan_get ch s0 = Some d -> chan_get ch s = Some e -> exists s', chan_set ch d s = Some s'.
Proof. destruct ch, s0, s; intros [= <-] [= <-]; by eexists. Qed.
Lemma chan_set_invalid ch d s : chan_get ch s = Some d -> exists s', chan_set ch (chan_invalid d) s = Some s'.
Proof. destruct ch, s; intros [= <-]; by eexists. Qed.
Lemma chan_invalid_valid d : chan_valid (chan_invalid d) = false.
Proof. by destruct d. Qed.
Lemma ready_set_ready ch v s s' : chan_set_ready ch v s = Some s' -> chan_ready ch s' = Some v.
Proof. by destruct ch, s; intros [= <-]. Qed.
Lemma ready_set_other ch ch' v s s' : chan_set_ready ch v s = Some s' -> ch' <> ch -> chan_ready ch' s' = chan_ready ch' s.
Proof. by destruct ch, ch', s; intros [= <-]. Qed.
Lemma ready_set_get ch ch' v s s' : chan_set_ready ch v s = Some s' -> chan_get ch' s' = chan_get ch' s.
Proof. by destruct ch, ch', s; intros [= <-]. Qed.

(** The states of an interface and of its endpoint. *)
Definition if_side (role : ifRole) (s : StateBody) : Prop :=
  match role with Master => exists x, s = SAximmSlave x | Slave => exists x, s = SAximmMaster x end.
Definition node_side (role : ifRole) (s : StateBody) : Prop := if_side (match role with Master => Slave | Slave => Master end) s.

Lemma chan_set_side role ch d s s' : chan_set ch d s = Some s' -> if_side role s -> if_side role s'.
Proof. destruct role; cbn; intros E [x ->]; destruct ch, d; try done; injection E as <-; by eexists. Qed.
Lemma chan_set_ready_side role ch v s s' : chan_set_ready ch v s = Some s' -> if_side role s -> if_side role s'.
Proof. destruct role; cbn; intros E [x ->]; destruct ch; try done; injection E as <-; by eexists. Qed.
(** On a channel to the endpoint the interface has the payload and the endpoint the ready signal. *)
Lemma to_node_sides role ch s n : to_node role ch = true -> if_side role s -> node_side role n ->
  (exists d, chan_get ch s = Some d) /\ exists r, chan_ready ch n = Some r.
Proof. unfold node_side. destruct role; cbn; intros Ht [x ->] [y ->]; destruct ch; try done; split; by eexists. Qed.
Lemma to_net_sides role ch s n : to_node role ch = false -> if_side role s -> node_side role n ->
  (exists d, chan_get ch n = Some d) /\ (exists r, chan_ready ch s = Some r) /\ forall v, exists s', chan_set_ready ch v s = Some s'.
Proof. unfold node_side. destruct role; cbn; intros Ht [x ->] [y ->]; destruct ch; try done; split_and!; intros; by eexists. Qed.

(** ** Entries of a crossing queue *)

Definition info_fine (o : option ResponseInfo) : bool :=
  match o with
  | Some ri => negb (ri_responseEnd ri) || match ri_type ri with RT_NONE => false | _ => true end
  | None => true
  end.
(** Entry [e] holds payload [d] of the channel, and nothing delays it. *)
Definition chan_entry (ch : mmChan) (d : chanData) (e : FIFOEntry) : Prop :=
  info_fine (fe_responseInfo e) = true /\ fe_dequeueTickValid e = false /\
  exists st, fe_data e = Some st /\ chan_get ch (st_body st) = Some d.
Record chan_holds (ch : mmChan) (ds : list chanData) (q : CDCQueue) : Prop := {
  cq_size : maxSize q = 8;
  cq_room : (length ds <= 8)%nat;
  cq_entries : Forall2 (chan_entry ch) ds (fifo q)
}.
Lemma chan_holds_new ch : chan_holds ch [] (newCDCQueue 8).
Proof. split; [done|cbn; lia|constructor]. Qed.
Lemma chan_holds_full ch ds q : chan_holds ch ds q -> isFull q = bool_decide (length ds = 8%nat).
Proof.
  intros [Hs Hr He]. apply Forall2_length in He. rewrite (isFull_bound 8) by (lia || done). rewrite <- He.
  destruct (Z.leb_spec 8 (nz (length ds))); symmetry; [apply bool_decide_true|apply bool_decide_false]; lia.
Qed.
Lemma chan_holds_push ch ds q e d : chan_holds ch ds q -> isFull q = false -> chan_entry ch d e -> chan_holds ch (ds ++ [d]) (cdc_push q e).
Proof.
  intros Hq Hf He. rewrite (chan_holds_full _ _ _ Hq) in Hf. apply bool_decide_eq_false in Hf. destruct Hq as [Hs Hr Hall].
  split; [done|rewrite length_app; cbn; lia|]. cbn. apply Forall2_app; [done|by constructor].
Qed.
Lemma chan_holds_front ch ds q now : chan_holds ch ds q ->
  match ds with
  | [] => canDequeueToNoC q now = false
  | d :: rest => canDequeueToNoC q now = true /\ info_fine (peekResponseInfo q) = true /\
      exists st q', dequeue q now = (Some st, q') /\ peekFrontState q now = Some st /\ chan_get ch (st_body st) = Some d /\ chan_holds ch rest q'
  end.
Proof.
  intros [Hs Hr He]. unfold dequeue, peekFrontState, peekResponseInfo, canDequeueToNoC, cdc_gated.
  destruct ds as [|d rest]; inversion He as [|? e ? l (Hok & Hv & st & Hd & Hb) Hl]; subst; [done|].
  rewrite Hv. cbn. split; [done|]. split; [done|]. exists st, (mk_CDCQueue (maxSize q) l).
  rewrite Hd. split_and!; try done. split; [done|cbn in Hr; lia|done].
Qed.

(** The payloads in a queue. *)
Definition held (ch : mmChan) (q : CDCQueue) : list chanData :=
  omap (fun e => match fe_data e with Some st => chan_get ch (st_body st) | None => None end) (fifo q).
Lemma holds_held ch ds q : chan_holds ch ds q -> held ch q = ds.
Proof.
  intros [_ _ He]. unfold held. induction He as [|d e ds l (_ & _ & st & Hd & Hg) _ IH]; [done|]. cbn. rewrite Hd, Hg. by f_equal.
Qed.

(** ** The side of the endpoint *)

Section MmIf.
Context (c : mmIfCfg).
Implicit Types (i : mmIf) (ch : mmChan) (ds : list chanData).

(** The part of an interface that belongs to a channel. *)
Definition chan_view ch i := (mi_cdc i ch, chan_get ch (st_body (mi_next i)), chan_ready ch (st_body (mi_next i))).
Definition all_valid ds : Prop := Forall (fun d => chan_valid d = true) ds.
Definition valid_ones ds : list chanData := filter (fun d => chan_valid d = true) ds.
Lemma valid_ones_cons d ds : valid_ones (d :: ds) = option_list (valid_only (Some d)) ++ valid_ones ds.
Proof. unfold valid_ones. rewrite filter_cons. cbn. by destruct (chan_valid d). Qed.
Lemma valid_ones_app ds1 ds2 : valid_ones (ds1 ++ ds2) = valid_ones ds1 ++ valid_ones ds2.
Proof. apply filter_app. Qed.

(** A step on channel [ch]. *)
Record chan_step ch i i' : Prop := {
  cs_current : mi_current i' = mi_current i;
  cs_side : if_side (mc_role c) (st_body (mi_next i)) -> if_side (mc_role c) (st_body (mi_next i'));
  cs_others ch' : ch' <> ch -> chan_view ch' i' = chan_view ch' i
}.
Lemma chan_step_refl ch i : chan_step ch i i.
Proof. by split. Qed.
Lemma chan_step_trans ch i1 i2 i3 : chan_step ch i1 i2 -> chan_step ch i2 i3 -> chan_step ch i1 i3.
Proof. intros [A1 A2 A3] [B1 B2 B3]. split; [congruence|auto|]. intros ch' H. by rewrite B3, A3. Qed.
Lemma chan_step_cdc ch q i : chan_step ch i (mput_cdc ch q i).
Proof. split; [done|done|]. intros ch' H. unfold chan_view. cbn. by rewrite fn_lookup_insert_ne. Qed.
Lemma chan_step_set ch d i id s : chan_set ch d (st_body (mi_next i)) = Some s -> chan_step ch i (mput_next (mk_State id s) i).
Proof.
  intros E. split; [done|cbn; by apply (chan_set_side _ _ _ _ _ E)|]. intros ch' H. unfold chan_view. cbn.
  by rewrite (chan_set_other _ _ _ _ _ E H), (chan_set_ready_same _ ch' _ _ _ E).
Qed.
Lemma chan_step_set_ready ch v i id s : chan_set_ready ch v (st_body (mi_next i)) = Some s -> chan_step ch i (mput_next (mk_State id s) i).
Proof.
  intros E. split; [done|cbn; by apply (chan_set_ready_side _ _ _ _ _ E)|]. intros ch' H. unfold chan_view. cbn.
  by rewrite (ready_set_other _ _ _ _ _ E H), (ready_set_get _ ch' _ _ _ E).
Qed.

(** What a cycle of the endpoint does to a channel towards it: the driven payload stays until it
    is taken, and then the next one is driven. *)
Record drives_on ch (ready : bool) (cur : State) ds i' ds' : Prop := {
  do_cdc : chan_holds ch ds' (mi_cdc i' ch);
  do_flow : all_valid ds -> option_list (drives ch cur) ++ ds =
    (if ready then option_list (drives ch cur) else []) ++ option_list (drives ch (mi_next i')) ++ ds';
  do_valid : option_list (drives ch cur) ++ valid_ones ds =
    (if ready then option_list (drives ch cur) else []) ++ option_list (drives ch (mi_next i')) ++ valid_ones ds';
  do_stall d : ready = false -> drives ch cur = Some d -> drives ch (mi_next i') = Some d
}.

(** No payload is taken from the queue. *)
Lemma keep_spec input ch i d e r : chan_get ch (st_body (mi_current i)) = Some d -> chan_get ch (st_body (mi_next i)) = Some e ->
  chan_ready ch (st_body input) = Some r ->
  exists i', (let* done := mm_isTransactionReady ch (mi_current i) input in
              if done : bool then Ok (mm_setChannelNextValidFalse ch i) else mm_copyChannelFromCurrentState ch i) = Ok i' /\
    chan_step ch i i' /\ mi_cdc i' = mi_cdc i /\
    drives ch (mi_next i') = if chan_valid d && r then None else valid_only (Some d).
Proof.
  intros Hd He Hr. unfold mm_isTransactionReady. rewrite Hd, Hr. cbn [rbind]. destruct (chan_valid d && r).
  - unfold mm_setChannelNextValidFalse. rewrite He. destruct (chan_set_invalid _ _ _ He) as [s Hs]. rewrite Hs. eexists. split; [done|].
    split; [by eapply chan_step_set|]. split; [done|]. unfold drives. cbn. rewrite (chan_set_get _ _ _ _ Hs). cbn. by rewrite chan_invalid_valid.
  - unfold mm_copyChannelFromCurrentState. rewrite Hd. cbn [of_opt rbind]. destruct (chan_set_Some _ _ _ _ _ Hd He) as [s Hs]. rewrite Hs.
    eexists. split; [done|]. split; [by eapply chan_step_set|]. split; [done|]. unfold drives. cbn. by rewrite (chan_set_get _ _ _ _ Hs).
Qed.

Lemma take_spec now ch i e st q : dequeue (mi_cdc i ch) now = (Some st, q) -> chan_get ch (st_body (mi_next i)) = Some e ->
  forall x, chan_get ch (st_body st) = Some x ->
  exists i', mm_cdcDequeueToNode ch now i = Ok i' /\ chan_step ch i i' /\ mi_cdc i' ch = q /\ drives ch (mi_next i') = valid_only (Some x).
Proof.
  intros Hq He x Hx. unfold mm_cdcDequeueToNode. rewrite Hq, Hx. cbn [of_opt rbind]. destruct (chan_set_Some _ _ _ _ _ Hx He) as [s Hs].
  change (mi_next (mput_cdc ch q i)) with (mi_next i). rewrite Hs. eexists. split; [done|].
  split; [eapply chan_step_trans; [apply chan_step_cdc|by eapply chan_step_set]|]. split; [cbn; by rewrite fn_lookup_insert|].
  unfold drives. cbn. by rewrite (chan_set_get _ _ _ _ Hs).
Qed.

Lemma driveNext_total now input ch i ds r : to_node (mc_role c) ch = true -> if_side (mc_role c) (st_body (mi_current i)) ->
  if_side (mc_role c) (st_body (mi_next i)) -> node_side (mc_role c) (st_body input) -> chan_ready ch (st_body input) = Some r ->
  chan_holds ch ds (mi_cdc i ch) ->
  exists i' ds', mm_driveNext now input ch i = Ok i' /\ chan_step ch i i' /\ drives_on ch r (mi_current i) ds i' ds'.
Proof.
  intros Ht Hc Hn Hin Hr Hh. destruct (to_node_sides _ _ _ _ Ht Hc Hin) as [[d Hd] _]. destruct (to_node_sides _ _ _ _ Ht Hn Hin) as [[e He] _].
  destruct (keep_spec input ch i d e r Hd He Hr) as (ik & Ek & Sk & Ck & Dk).
  assert (drives ch (mi_current i) = valid_only (Some d)) as Hcur by (unfold drives; by rewrite Hd).
  pose proof (chan_holds_front _ _ _ now Hh) as Hf. unfold mm_driveNext, mm_currChannelValid. rewrite Hd.
  destruct ds as [|x rest].
  - rewrite Hf. cbn [rbind]. rewrite Ek. exists ik, []. split; [done|]. split; [done|]. split; [by rewrite Ck| | |].
    + intros _. rewrite Dk, Hcur. cbn. destruct (chan_valid d), r; cbn; by rewrite ?app_nil_r.
    + rewrite Dk, Hcur. cbn. destruct (chan_valid d), r; cbn; by rewrite ?app_nil_r.
    + intros y -> Hy. rewrite Dk, andb_false_r. by rewrite <- Hcur.
  - destruct Hf as (-> & Hi & st & q & Hq & _ & Hx & Hrest). unfold mm_isTransactionReady at 1. rewrite Hd, Hr.
    destruct (take_spec now ch i e st q Hq He x Hx) as (it & Et & St & Ct & Dt). fold (info_fine (peekResponseInfo (mi_cdc i ch))).
    destruct (chan_valid d) eqn:Hv; [destruct r|]; cbn [andb rbind].
    + rewrite Hi. cbn [guard]. exists it, rest. split; [done|]. split; [done|]. split; [by rewrite Ct| | |done].
      * intros [Hxv _]%Forall_cons. rewrite Hcur, Dt. cbn. by rewrite Hv, Hxv.
      * by rewrite Dt, valid_ones_cons.
    + rewrite Ek. exists ik, (x :: rest). split; [done|]. split; [done|]. split; [by rewrite Ck| | |].
      * intros _. rewrite Dk, Hcur. done.
      * rewrite Dk, Hcur. done.
      * intros y _ Hy. by rewrite Dk, <- Hcur.
    + rewrite Hi. cbn [guard]. exists it, rest. split; [done|]. split; [done|]. split; [by rewrite Ct| | |].
      * intros [Hxv _]%Forall_cons. rewrite Hcur, Dt. cbn. rewrite Hv, Hxv. by destruct r.
      * rewrite valid_ones_cons, Dt. rewrite Hcur. assert (valid_only (Some d) = None) as -> by (cbn; by rewrite Hv). by destruct r.
      * intros y _. rewrite Hcur. cbn. by rewrite Hv.
Qed.

(** The snapshot changes no signal. *)
Definition same_signals (s s' : State) : Prop :=
  (forall ch, chan_get ch (st_body s') = chan_get ch (st_body s)) /\ (forall ch, chan_ready ch (st_body s') = chan_ready ch (st_body s)) /\
  forall role, if_side role (st_body s) -> if_side role (st_body s').
Lemma snapshot_same ch s i : same_signals s (mm_snapshot ch s i).
Proof.
  unfold same_signals, mm_snapshot. destruct (st_body s) as [t|m|x|m] eqn:E; rewrite ?E; try done. cbn. split_and!.
  - intros ch'. by destruct ch'.
  - intros ch'. by destruct ch'.
  - intros role. destruct role; intros [x Hx]; [done|by eexists].
Qed.
Lemma same_signals_trans s1 s2 s3 : same_signals s1 s2 -> same_signals s2 s3 -> same_signals s1 s3.
Proof. intros (A1 & A2 & A3) (B1 & B2 & B3). split_and!; intros; [by rewrite B1|by rewrite B2|auto]. Qed.

(** What a cycle of the endpoint does to a channel from it. *)
Record takes_on ch (cur input : State) ds i' ds' : Prop := {
  to_cdc : chan_holds ch ds' (mi_cdc i' ch);
  to_flow : ds' = ds ++ if accepts ch cur then option_list (drives ch input) else [];
  to_room : accepts ch (mi_next i') = true -> (length ds' < 8)%nat
}.

Lemma nodeOut_total now input ch i ds : to_node (mc_role c) ch = false -> if_side (mc_role c) (st_body (mi_current i)) ->
  if_side (mc_role c) (st_body (mi_next i)) -> node_side (mc_role c) (st_body input) ->
  chan_holds ch ds (mi_cdc i ch) -> (accepts ch (mi_current i) = true -> (length ds < 8)%nat) ->
  exists i' input' ds', mm_nodeOut now input ch i = Ok (i', input') /\ chan_step ch i i' /\ takes_on ch (mi_current i) input ds i' ds' /\
    same_signals input input'.
Proof.
  intros Ht Hc Hn Hin Hh Hroom. unfold mm_nodeOut. pose proof (snapshot_same ch input i) as Hsame. set (input' := mm_snapshot ch input i) in *.
  destruct Hsame as (Hg & Hy & Hs). destruct (to_net_sides _ _ _ _ Ht Hc Hin) as ([d Hd] & [r Hr] & _).
  set (h := chan_valid d && r).
  assert (exists i1 ds', (if mm_cdcEnqueueReady ch i then let* h := mm_isTransactionReady ch input' (mi_current i) in
       Ok (if h : bool then mm_cdcEnqueue ch now input' None i else i) else Ok i) = Ok i1 /\ chan_step ch i i1 /\ mi_next i1 = mi_next i /\
     chan_holds ch ds' (mi_cdc i1 ch) /\ ds' = ds ++ if h then [d] else []) as (i1 & ds' & -> & S1 & N1 & H1 & E1).
  { unfold mm_cdcEnqueueReady, mm_isTransactionReady. rewrite Hg, Hd, Hr. cbn [rbind]. fold h. destruct (isFull (mi_cdc i ch)) eqn:Hf; cbn [negb].
    - exists i, ds. split_and!; [done|apply chan_step_refl|done|done|]. rewrite (chan_holds_full _ _ _ Hh) in Hf. apply bool_decide_eq_true in Hf.
      unfold h. destruct r; [|by rewrite andb_false_r, app_nil_r]. unfold accepts in Hroom. rewrite Hr in Hroom. specialize (Hroom eq_refl). lia.
    - destruct h; [|exists i, ds; rewrite app_nil_r; split_and!; try done; apply chan_step_refl].
      eexists _, (ds ++ [d]). split; [done|]. split; [apply chan_step_cdc|]. split; [done|]. split; [|done].
      unfold mm_cdcEnqueue, enqueue. rewrite Hf. cbn [snd mput_cdc mi_cdc]. rewrite fn_lookup_insert. apply chan_holds_push; [done|done|].
      split; [done|]. split; [done|]. exists input'. by rewrite Hg. }
  cbn [rbind]. unfold mm_updateChannelNextReady. rewrite Hg, Hd, (cs_current _ _ _ S1), Hr, N1.
  destruct (to_net_sides _ _ _ _ Ht Hn Hin) as (_ & _ & Hset). destruct (Hset (mm_cdcEnqueueReady ch i1)) as [s Es]. rewrite Es. cbn [rbind].
  eexists _, input', ds'. split; [done|]. split; [eapply chan_step_trans; [exact S1|]; eapply chan_step_set_ready; by rewrite N1|].
  split; [|done]. split; [done| |].
  - rewrite E1. unfold accepts, drives, h. rewrite Hr, Hd. cbn. by destruct (chan_valid d), r.
  - unfold accepts. cbn. rewrite (ready_set_ready _ _ _ _ Es). cbn. unfold mm_cdcEnqueueReady. rewrite (chan_holds_full _ _ _ H1).
    destruct (bool_decide_reflect (length ds' = 8%nat)) as [|Hl]; [done|]. intros _. pose proof (cq_room _ _ _ H1). lia.
Qed.

(** One channel of a cycle from interface [i0] with signals [input]; [seen] are done. *)
Section Cycle.
Context (i0 : mmIf) (input : State).

Definition chan_ok ch (s : State) (q : CDCQueue) : Prop :=
  chan_holds ch (held ch q) q /\ (to_node (mc_role c) ch = false -> accepts ch s = true -> (length (held ch q) < 8)%nat).
Definition cycled ch i : Prop :=
  let ds := held ch (mi_cdc i0 ch) in let ds' := held ch (mi_cdc i ch) in
  if to_node (mc_role c) ch then drives_on ch (accepts ch input) (mi_current i0) ds i ds' else takes_on ch (mi_current i0) input ds i ds'.
Lemma cycled_view ch i i' : chan_view ch i' = chan_view ch i -> cycled ch i -> cycled ch i'.
Proof.
  intros [= E1 E2 E3]. unfold cycled. rewrite E1. destruct (to_node (mc_role c) ch).
  - assert (drives ch (mi_next i') = drives ch (mi_next i)) as Ed by (unfold drives; by rewrite E2).
    intros [H1 H2 H3]. split; rewrite ?E1, ?Ed; done.
  - intros [H1 H2 H3]. split; [by rewrite E1|done|]. unfold accepts in *. by rewrite E3.
Qed.

Record cycle_inv (seen : list mmChan) (x : mmIf * State) : Prop := {
  ci_current : mi_current x.1 = mi_current i0;
  ci_side : if_side (mc_role c) (st_body (mi_next x.1));
  ci_input : same_signals input x.2;
  ci_view ch : if bool_decide (ch ∈ seen) then cycled ch x.1 else chan_view ch x.1 = chan_view ch i0
}.

Hypothesis Hcur : if_side (mc_role c) (st_body (mi_current i0)).
Hypothesis Hin : node_side (mc_role c) (st_body input).
Hypothesis Hok : forall ch, chan_ok ch (mi_current i0) (mi_cdc i0 ch).

Lemma cycle_inv_next seen x ch i' input' : cycle_inv seen x -> chan_step ch x.1 i' -> same_signals x.2 input' -> cycled ch i' ->
  cycle_inv (seen ++ [ch]) (i', input').
Proof.
  intros [H1 H2 H3 H4] [S1 S2 S3] Hs Hc. split; cbn; [congruence|auto|by eapply same_signals_trans|].
  intros ch'. destruct (decide (ch' = ch)) as [->|Hne].
  - rewrite bool_decide_true; [done|]. apply elem_of_app. right. apply list_elem_of_singleton. done.
  - specialize (H4 ch'). specialize (S3 ch' Hne).
    assert (bool_decide (ch' ∈ seen ++ [ch]) = bool_decide (ch' ∈ seen)) as ->.
    { apply bool_decide_ext. rewrite elem_of_app, list_elem_of_singleton. tauto. }
    destruct (bool_decide (ch' ∈ seen)); [by eapply cycled_view|congruence].
Qed.

Lemma nodeChannel_step seen x now qs ch : cycle_inv seen x -> ch ∉ seen ->
  exists y, cycle_inv (seen ++ [ch]) y /\ (forall y', mm_nodeChannel c now qs x ch = Ok y' -> y' = y) /\
    (m_time_last_time_pop (qs ch) <= now -> mm_nodeChannel c now qs x ch = Ok y).
Proof using Hcur Hin Hok.
  intros Hi Hch. pose proof Hi as [H1 H2 (G1 & G2 & G3) H4]. specialize (H4 ch). rewrite bool_decide_false in H4 by done. injection H4 as V1 V2 V3.
  destruct x as [i inp]. cbn [fst snd] in *. destruct (Hok ch) as [Hh Hroom]. rewrite <- V1 in Hh, Hroom. unfold mm_nodeChannel.
  assert (node_side (mc_role c) (st_body inp)) as Hin' by by apply G3. rewrite <- H1 in Hcur, Hroom.
  destruct (to_node (mc_role c) ch) eqn:Ht.
  - destruct (to_node_sides _ _ _ _ Ht Hcur Hin') as [_ [r Hr]].
    destruct (driveNext_total now inp ch i _ r Ht Hcur H2 Hin' Hr Hh) as (i' & ds' & E & Hs & Hd). exists (i', inp). split.
    + eapply cycle_inv_next; [done|done| |]; [by split_and!|]. unfold cycled. rewrite Ht.
      assert (accepts ch input = r) as -> by (unfold accepts; by rewrite <- G2, Hr).
      rewrite <- H1, <- V1, (holds_held _ _ _ (do_cdc _ _ _ _ _ _ Hd)). done.
    + unfold mm_nodeIn. rewrite E. cbn [rbind]. split; [intros y' Ey; inv_ok; congruence|].
      intros Hnow. unfold mb_isReady. rewrite (proj2 (Z.leb_le _ _)) by done. done.
  - destruct (nodeOut_total now inp ch i _ Ht Hcur H2 Hin' Hh (Hroom eq_refl)) as (i' & inp' & ds' & E & Hs & Hd & Hsame).
    exists (i', inp'). split; [|rewrite E; split; [by intros y' [= <-]|done]].
    eapply cycle_inv_next; [done|done|done|]. unfold cycled. rewrite Ht. destruct Hd as [D1 D2 D3].
    rewrite <- H1, <- V1, (holds_held _ _ _ D1). split; [done| |done]. unfold drives in *. by rewrite <- G1.
Qed.

Lemma node_cycle now qs : mi_next i0 = mi_current i0 ->
  (forall x, mm_nodeSideUpdate c now input i0 qs = Ok x -> cycle_inv channelMap x) /\
  ((forall ch, m_time_last_time_pop (qs ch) <= now) -> exists x, mm_nodeSideUpdate c now input i0 qs = Ok x).
Proof using Hcur Hin Hok.
  intros Hn. assert (cycle_inv [] (mm_start_update input i0, input)) as H0.
  { split; [done|done|by split_and!|]. intros ch. cbn. unfold chan_view. by rewrite Hn. }
  assert (forall seen ch rest, channelMap = seen ++ ch :: rest -> ch ∉ seen) as Hnew.
  { intros seen ch rest E Hch. assert (NoDup channelMap) as Hd by (apply (bool_decide_unpack _); done).
    rewrite E in Hd. apply NoDup_app in Hd as (_ & Hd & _). apply (Hd ch Hch). left. }
  unfold mm_nodeSideUpdate. split.
  - intros x E. eapply (foldM_inv_seen cycle_inv); [|exact H0|exact E]. intros seen y ch rest y' Em Hy Ey.
    destruct (nodeChannel_step seen y now qs ch Hy (Hnew _ _ _ Em)) as (z & Hz & Heq & _). by rewrite (Heq _ Ey).
  - intros Hpop. destruct (foldM_total_seen cycle_inv (mm_nodeChannel c now qs) channelMap (mm_start_update input i0, input)) as (x & E & _);
      [|done|by exists x]. intros seen y ch rest Em Hy.
    destruct (nodeChannel_step seen y now qs ch Hy (Hnew _ _ _ Em)) as (z & Hz & _ & Ez). exists z. split; [by apply Ez|done].
Qed.
End Cycle.

(** ** The side of the network *)

Definition mm_msgs (q : mbuf (M := NocMemoryMsg)) : list NocMemoryMsg := me_msg <$> m_prio_heap q.
Definition payload_of (d : chanData) : MessagePayload := match d with DAddr a => PAddr a | DData d => PData d | DResp b => PResp b end.

(** [moved ch q q' l]: the payloads [l] were taken from, or put into, the message buffer. *)
Definition moved ch (q q' : mbuf (M := NocMemoryMsg)) (l : list chanData) : Prop :=
  if to_node (mc_role c) ch
  then exists ms, mm_msgs q = ms ++ mm_msgs q' /\ Forall2 (fun m d => msg_data ch m = Ok d) ms l
  else exists ms, mm_msgs q' ≡ₚ mm_msgs q ++ ms /\ Forall2 (fun m d => mm_payload m = payload_of d) ms l.

Lemma payload_of_inj d d' : payload_of d = payload_of d' -> d = d'.
Proof. destruct d, d'; cbn; congruence. Qed.
Lemma moved_in ch q q' ms l l' : to_node (mc_role c) ch = true -> moved ch q q' l' ->
  mm_msgs q = ms ++ mm_msgs q' -> Forall2 (fun m d => msg_data ch m = Ok d) ms l -> l' = l.
Proof.
  intros Ht Hm E Hl. unfold moved in Hm. rewrite Ht in Hm. destruct Hm as (ms' & E' & Hl'). rewrite E in E'. apply app_inv_tail in E' as <-.
  clear -Hl Hl'. revert l' Hl'. induction Hl as [|m d ms l Hd _ IH]; intros l' Hl'; inversion Hl'; subst; [done|]. f_equal; [congruence|by apply IH].
Qed.
Lemma moved_out ch q q' ms l l' : to_node (mc_role c) ch = false -> moved ch q q' l' -> (length ms <= 1)%nat ->
  mm_msgs q' ≡ₚ mm_msgs q ++ ms -> Forall2 (fun m d => mm_payload m = payload_of d) ms l -> l' = l.
Proof.
  intros Ht Hm Hlen E Hl. unfold moved in Hm. rewrite Ht in Hm. destruct Hm as (ms' & E' & Hl'). rewrite E in E'. apply Permutation_app_inv_l in E'.
  destruct ms as [|m [|? ?]]; [apply Permutation_nil_l in E' as <-|apply Permutation_singleton_l in E' as <-|cbn in Hlen; lia].
  - inversion Hl; inversion Hl'; by subst.
  - inversion Hl as [|? d ? ? Hd Hn]; inversion Hl' as [|? d' ? ? Hd' Hn']; subst. inversion Hn; inversion Hn'; subst.
    f_equal. apply payload_of_inj. congruence.
Qed.

Lemma responseInfo_fine ch now q info : mm_responseInfo c ch now q = Ok info -> info_fine info = true.
Proof.
  unfold mm_responseInfo. destruct ch; intros E; try (by injection E as <-).
  all: apply rbind_Ok in E as (ready & _ & E); apply guard_Ok in E as [_ E]; apply rbind_Ok in E as (msg & _ & E); apply rbind_Ok in E as (d & _ & [= <-]).
  all: destruct d as [a|d|b]; [done| |done]; cbn; by destruct (rd_last d).
Qed.

(** A message becomes an entry. *)
Lemma nocIn_spec {U} (ops : mmUnitOps U) now ch i q u i' q' u' ds : to_node (mc_role c) ch = true -> chan_holds ch ds (mi_cdc i ch) ->
  mm_nocIn c ops now ch i q u = Ok (i', q', u') ->
  chan_step ch i i' /\ mi_next i' = mi_next i /\ exists ms l, mm_msgs q = ms ++ mm_msgs q' /\
    Forall2 (fun m d => msg_data ch m = Ok d) ms l /\ chan_holds ch (ds ++ l) (mi_cdc i' ch).
Proof.
  intros Ht Hh E. unfold mm_nocIn, mm_cdcEnqueueReady in E.
  assert (Hnone : (i, q, u) = (i', q', u') -> chan_step ch i i' /\ mi_next i' = mi_next i /\ exists ms l, mm_msgs q = ms ++ mm_msgs q' /\
    Forall2 (fun m d => msg_data ch m = Ok d) ms l /\ chan_holds ch (ds ++ l) (mi_cdc i' ch)).
  { intros [= <- <- <-]. split; [apply chan_step_refl|]. split; [done|]. exists [], []. rewrite app_nil_r. split; [done|]; by split; [constructor|]. }
  destruct (isFull (mi_cdc i ch)) eqn:Hf; cbn [negb] in E; [apply Hnone; congruence|].
  apply rbind_Ok in E as (ready & Er & E). destruct ready; [clear Hnone|apply Hnone; congruence].
  apply rbind_Ok in E as (u1 & _ & E). apply rbind_Ok in E as ([staged i1] & Es & E). apply rbind_Ok in E as (info & Ei & E).
  apply rbind_Ok in E as ([[m dly] q1] & Eq & [= <- <- <-]).
  unfold mm_getStateFromChannelQueue in Es. rewrite Er in Es. cbn [rbind] in Es. apply rbind_Ok in Es as ([d dbg] & Ed & Es).
  apply rbind_Ok in Ed as (msg & Em & Ed). apply rbind_Ok in Ed as (d1 & Ed1 & [= -> <-]).
  apply rbind_Ok in Es as (body & Eb%of_opt_Ok & Es). apply rbind_Ok in Es as (i2 & Ei2 & [= <- <-]).
  assert (mi_current i2 = mi_current i /\ mi_next i2 = mi_next i /\ mi_cdc i2 = mi_cdc i) as (C1 & C2 & C3).
  { destruct ch, d; try (by injection Ei2 as <-). destruct (ra_valid a); [apply guard_Ok in Ei2 as [_ Ei2]|]; by injection Ei2 as <-. }
  split; [|split].
  - eapply chan_step_trans; [|apply chan_step_cdc]. split; [done|by rewrite C2|]. intros ch' _. unfold chan_view. by rewrite C2, C3.
  - exact C2.
  - unfold mb_dequeue in Eq. apply rbind_Ok in Eq as ([rdy again] & _ & Eq). apply guard_Ok in Eq as [_ Eq].
    unfold mb_peek in Em. unfold mm_msgs. destruct (m_prio_heap q) as [|e heap] eqn:Eh; [done|]. injection Em as <-. injection Eq as <- <- <-.
    exists [me_msg e], [d]. split; [done|]. split; [by constructor|].
    unfold mm_cdcEnqueue. cbn [mput_cdc mi_cdc]. rewrite fn_lookup_insert, C3. unfold enqueueResp, enqueue. rewrite Hf.
    pose proof (responseInfo_fine _ _ _ _ Ei). destruct info; cbn [snd]; (apply chan_holds_push; [done|done|]).
    all: split; [done|]; split; [done|]; eexists; split; [done|]; by eapply chan_set_get.
Qed.

Lemma mm_heap_push_perm (x : mbEntry (M := NocMemoryMsg)) h : heap_push x h ≡ₚ h ++ [x].
Proof.
  induction h as [|y h IH]; [done|]. cbn. destruct (msg_before y x); [by rewrite IH|]. by rewrite Permutation_cons_append.
Qed.

(** The oldest entry becomes a message. *)
Lemma nocOut_spec {U} (ops : mmUnitOps U) now edge random ch i q u i' q' u' ds : chan_holds ch ds (mi_cdc i ch) ->
  mm_nocOut c ops now edge random ch i q u = Ok (i', q', u') ->
  chan_step ch i i' /\ mi_next i' = mi_next i /\ exists ms l rest, ds = l ++ rest /\ (length ms <= 1)%nat /\ mm_msgs q' ≡ₚ mm_msgs q ++ ms /\
    Forall2 (fun m d => mm_payload m = payload_of d) ms l /\ chan_holds ch rest (mi_cdc i' ch).
Proof.
  intros Hh E. unfold mm_nocOut in E. pose proof (chan_holds_front _ _ _ now Hh) as Hf.
  assert (Hnone : i' = i -> q' = q -> chan_step ch i i' /\ mi_next i' = mi_next i /\ exists ms l rest, ds = l ++ rest /\ (length ms <= 1)%nat /\
    mm_msgs q' ≡ₚ mm_msgs q ++ ms /\ Forall2 (fun m d => mm_payload m = payload_of d) ms l /\ chan_holds ch rest (mi_cdc i' ch)).
  { intros -> ->. split; [apply chan_step_refl|]. split; [done|]. exists [], [], ds. rewrite app_nil_r. split_and!; [done|cbn; lia|done|constructor|done]. }
  destruct ds as [|d rest]; [rewrite Hf in E; apply Hnone; congruence|]. destruct Hf as (Hcan & _ & st & cdc & Hq & _ & Hd & Hrest). rewrite Hcan in E.
  apply rbind_Ok in E as ([ready u1] & _ & E). destruct ready; [clear Hnone|apply Hnone; congruence]. rewrite Hq in E.
  apply rbind_Ok in E as (msg & Em & E). apply rbind_Ok in E as (q1 & Eq & [= <- <- <-]).
  split; [apply chan_step_cdc|]. split; [done|]. unfold mm_createMessage in Em. apply guard_Ok in Em as [_ Em]. rewrite Hd in Em. cbn [of_opt rbind] in Em.
  exists [msg], [d], rest. split; [done|]. split; [cbn; lia|]. split; [|split].
  - unfold mb_enqueue in Eq. inv_ok. destruct (arrival _ _ _ _ _) as [at_ la]. inv_ok. unfold mm_msgs. cbn. by rewrite mm_heap_push_perm, fmap_app.
  - constructor; [|constructor]. injection Em as <-. destruct d; by destruct (0 <=? st_debugId st).
  - cbn. by rewrite fn_lookup_insert.
Qed.

Section NocCycle.
Context {U : Type} (ops : mmUnitOps U) (now edge : Z) (random : mmChan -> option Z) (i0 : mmIf) (qs0 : mmChan -> mbuf (M := NocMemoryMsg)).

Definition exchanged ch i (qs : mmChan -> mbuf (M := NocMemoryMsg)) : Prop :=
  let ds := held ch (mi_cdc i0 ch) in
  exists l ds', (forall l', moved ch (qs0 ch) (qs ch) l' -> l' = l) /\ chan_holds ch ds' (mi_cdc i ch) /\
    if to_node (mc_role c) ch then ds' = ds ++ l else ds = l ++ ds'.
Record noc_inv (seen : list mmChan) (x : mmIf * (mmChan -> mbuf (M := NocMemoryMsg)) * U) : Prop := {
  ni_current : mi_current x.1.1 = mi_current i0;
  ni_next : mi_next x.1.1 = mi_next i0;
  ni_view ch : if bool_decide (ch ∈ seen) then exchanged ch x.1.1 x.1.2 else mi_cdc x.1.1 ch = mi_cdc i0 ch /\ x.1.2 ch = qs0 ch
}.

Lemma noc_inv_next seen x ch i' q' u' : noc_inv seen x -> chan_step ch x.1.1 i' -> mi_next i' = mi_next x.1.1 ->
  exchanged ch i' (<[ch := q']> x.1.2) -> noc_inv (seen ++ [ch]) (i', <[ch := q']> x.1.2, u').
Proof.
  intros [H1 H2 H3] [S1 _ S3] Hn Hx. split; cbn; [congruence|congruence|]. intros ch'. destruct (decide (ch' = ch)) as [->|Hne].
  - rewrite bool_decide_true; [done|]. apply elem_of_app. right. apply list_elem_of_singleton. done.
  - specialize (H3 ch'). specialize (S3 ch' Hne). injection S3 as S3 _ _. unfold exchanged in *. rewrite fn_lookup_insert_ne, S3 by done.
    assert (bool_decide (ch' ∈ seen ++ [ch]) = bool_decide (ch' ∈ seen)) as ->; [|done].
    apply bool_decide_ext. rewrite elem_of_app, list_elem_of_singleton. tauto.
Qed.

Lemma nocChannel_step seen x ch x' : (forall ch, chan_holds ch (held ch (mi_cdc i0 ch)) (mi_cdc i0 ch)) -> noc_inv seen x -> ch ∉ seen ->
  mm_nocChannel c ops now edge random x ch = Ok x' -> noc_inv (seen ++ [ch]) x'.
Proof.
  intros Hh Hi Hch E. destruct x as [[i qs] u]. pose proof (ni_view _ _ Hi ch) as V. rewrite bool_decide_false in V by done. destruct V as [V1 V2].
  cbn in V1, V2. unfold mm_nocChannel in E. apply rbind_Ok in E as ([[i' q'] u'] & E & [= <-]). specialize (Hh ch).
  pose proof Hh as Hh'. rewrite <- V1 in Hh at 2. eapply (noc_inv_next seen (i, qs, u)); [done|..]; cbn [fst snd].
  all: destruct (to_node (mc_role c) ch) eqn:Ht.
  all: try (destruct (nocIn_spec ops now ch i _ u _ _ _ _ Ht Hh E) as (S1 & S2 & ms & l & M1 & M2 & M3)).
  all: try (destruct (nocOut_spec ops now edge (random ch) ch i _ u _ _ _ _ Hh E) as (S1 & S2 & ms & l & rest & M1 & M2 & M3 & M4 & M5)).
  all: try done.
  - exists l, (held ch (mi_cdc i0 ch) ++ l). rewrite Ht, fn_lookup_insert. split; [|by split].
    intros l' Hl. rewrite V2 in M1. by eapply moved_in.
  - exists l, rest. rewrite Ht, fn_lookup_insert. split; [|by split]. intros l' Hl. rewrite V2 in M3. by eapply moved_out.
Qed.
End NocCycle.

(** ** Runs *)

Abbreviation chanLog := (mmChan -> list chanData).
(** What a cycle of the endpoint adds to the log: a payload is handed over when its sender
    drives it and its receiver is ready. *)
Definition hands_over ch (sender receiver : State) : list chanData := if accepts ch receiver then option_list (drives ch sender) else [].
Definition node_log (cur input : State) ch : list chanData * list chanData :=
  if to_node (mc_role c) ch then ([], hands_over ch cur input) else (hands_over ch input cur, []).
Definition noc_log (l : chanLog) ch : list chanData * list chanData := if to_node (mc_role c) ch then (l ch, []) else ([], l ch).
Definition pair_app (a b : list chanData * list chanData) : list chanData * list chanData := (a.1 ++ b.1, a.2 ++ b.2).
Definition add_log (log d : mmChan -> list chanData * list chanData) (ch : mmChan) := pair_app (log ch) (d ch).

(** [mm_reach committed i log]: on each channel [log] has what came in and what went out.
    [committed] is false between the updates of a cycle and the tick that ends it. *)
Inductive mm_reach : bool -> mmIf -> (mmChan -> list chanData * list chanData) -> Prop :=
| mr_init : mm_reach true (mmIf_init c) (fun _ => ([], []))
| mr_idle i log : mm_reach true i log -> mm_reach false i log
| mr_node i log now input qs i' input' :
    mm_reach true i log -> node_side (mc_role c) (st_body input) -> mm_nodeSideUpdate c now input i qs = Ok (i', input') ->
    mm_reach false i' (add_log log (node_log (mi_current i) input))
| mr_noc {U} (ops : mmUnitOps U) i log now edge random qs u i' qs' u' l :
    mm_reach false i log -> mm_nocSideUpdate c ops now edge random i qs u = Ok (i', qs', u') ->
    (forall ch, moved ch (qs ch) (qs' ch) (l ch)) -> mm_reach false i' (add_log log (noc_log l))
| mr_tick i log : mm_reach false i log -> mm_reach true (mm_if_tick i) log.

Record chan_inv ch (s : State) (q : CDCQueue) (inn out : list chanData) : Prop := {
  cv_ok : chan_ok ch s q;
  cv_flow : if to_node (mc_role c) ch then all_valid inn -> inn = out ++ option_list (drives ch s) ++ held ch q else inn = out ++ held ch q;
  cv_valid : to_node (mc_role c) ch = true -> valid_ones inn = out ++ option_list (drives ch s) ++ valid_ones (held ch q)
}.
Record mm_inv (committed : bool) i (log : mmChan -> list chanData * list chanData) : Prop := {
  mv_committed : committed = true -> mi_next i = mi_current i;
  mv_side : if_side (mc_role c) (st_body (mi_next i));
  mv_chan ch : chan_inv ch (mi_next i) (mi_cdc i ch) (log ch).1 (log ch).2
}.

Lemma mm_inv_init : mm_inv true (mmIf_init c) (fun _ => ([], [])).
Proof.
  split; [done|cbn; unfold mm_createNodeInterfaceState; destruct (mc_role c); by eexists|]. intros ch. cbn.
  split; [split; [apply chan_holds_new|cbn; lia]| |]; unfold mm_createNodeInterfaceState;
  destruct (mc_role c) eqn:Er; destruct ch; try done.
Qed.

Lemma mm_inv_node i log now input qs i' input' : mm_inv true i log -> node_side (mc_role c) (st_body input) ->
  mm_nodeSideUpdate c now input i qs = Ok (i', input') -> mm_inv false i' (add_log log (node_log (mi_current i) input)).
Proof.
  intros [Hc Hs Hch] Hin E. specialize (Hc eq_refl). rewrite Hc in *.
  destruct (proj1 (node_cycle i input Hs Hin (fun ch => cv_ok _ _ _ _ _ (Hch ch)) now qs Hc) _ E) as [H1 H2 _ H4]. cbn [fst snd] in *.
  split; [done|done|]. intros ch. specialize (H4 ch). rewrite bool_decide_true in H4 by (destruct ch; repeat constructor).
  destruct (Hch ch) as [[Hh _] Hf Hfv]. unfold cycled in H4. unfold add_log, pair_app, node_log. destruct (to_node (mc_role c) ch) eqn:Ht; cbn [fst snd].
  - destruct H4 as [D1 D2 D4 _]. split; [split; [done|by rewrite Ht]| |].
    + rewrite Ht, app_nil_r. intros Hv. specialize (Hf Hv).
      assert (all_valid (held ch (mi_cdc i ch))) as Hd by (unfold all_valid in *; rewrite Hf, !Forall_app in Hv; tauto).
      rewrite Hf, D2 by done. by rewrite <- app_assoc.
    + intros _. by rewrite app_nil_r, (Hfv eq_refl), D4, <- app_assoc.
  - destruct H4 as [D1 D2 D3]. split; [split; [done|]; intros _; exact D3| |by rewrite Ht]. rewrite Ht, app_nil_r, Hf, D2. by rewrite <- app_assoc.
Qed.

Lemma mm_inv_noc {U} (ops : mmUnitOps U) i log now edge random qs u i' qs' u' l : mm_inv false i log ->
  mm_nocSideUpdate c ops now edge random i qs u = Ok (i', qs', u') -> (forall ch, moved ch (qs ch) (qs' ch) (l ch)) ->
  mm_inv false i' (add_log log (noc_log l)).
Proof.
  intros [_ Hs Hch] E Hm. assert (noc_inv i qs channelMap (i', qs', u')) as [_ Hn Hx].
  { eapply (foldM_inv_seen (noc_inv i qs)); [| |exact E]; [|by split].
    intros seen x ch rest x' Em Hx Ex. eapply nocChannel_step; [intros ch'; apply (Hch ch')|done| |done].
    intros Hin. assert (NoDup channelMap) as Hd by (apply (bool_decide_unpack _); done). rewrite Em in Hd.
    apply NoDup_app in Hd as (_ & Hd & _). apply (Hd ch Hin). left. }
  cbn [fst snd] in *. split; [done|by rewrite Hn|]. intros ch. rewrite Hn. specialize (Hx ch).
  rewrite bool_decide_true in Hx by (destruct ch; repeat constructor). destruct Hx as (l1 & ds' & Hl & Hh & Hd). rewrite <- (Hl _ (Hm ch)) in Hd.
  destruct (Hch ch) as [[Hh0 Hroom] Hf Hfv]. unfold add_log, pair_app, noc_log. pose proof (holds_held _ _ _ Hh) as Hheld.
  destruct (to_node (mc_role c) ch) eqn:Ht; cbn [fst snd]; (split; [split; [by rewrite Hheld|]| |]); rewrite ?Ht, ?app_nil_r, ?Hheld; try done.
  - rewrite Hd. unfold all_valid. rewrite Forall_app. intros [Hv _]. rewrite (Hf Hv), <- !app_assoc. done.
  - intros _. by rewrite Hd, !valid_ones_app, (Hfv eq_refl), <- !app_assoc.
  - intros _ Ha. specialize (Hroom eq_refl Ha). rewrite Hd, length_app in Hroom. lia.
  - by rewrite Hf, Hd, app_assoc.
Qed.

Lemma mm_reach_inv b i log : mm_reach b i log -> mm_inv b i log.
Proof.
  induction 1 as [|i log _ [H1 H2 H3]|i log now input qs i' input' _ IH Hin E|U ops i log now edge random qs u i' qs' u' l _ IH E Hm|i log _ [H1 H2 H3]].
  - apply mm_inv_init.
  - by split.
  - by eapply mm_inv_node.
  - by eapply mm_inv_noc.
  - by split.
Qed.

Lemma mm_reach_flow b i log ch : mm_reach b i log -> (to_node (mc_role c) ch = true -> all_valid (log ch).1) ->
  (log ch).1 = (log ch).2 ++ (if to_node (mc_role c) ch then option_list (drives ch (mi_next i)) else []) ++ held ch (mi_cdc i ch) /\
  (length (held ch (mi_cdc i ch)) <= 8)%nat.
Proof.
  intros Hr Hv. destruct (mv_chan _ _ _ (mm_reach_inv _ _ _ Hr) ch) as [[[_ Hl _] _] Hf _]. split; [|done].
  destruct (to_node (mc_role c) ch); [by apply Hf, Hv|by rewrite Hf].
Qed.

(** C12: an AXI-MM interface neither loses, duplicates nor reorders a valid payload.  In every run
    of an interface of either role, on each of its channels: towards the endpoint, the valid
    payloads of the messages taken from the message buffer are those the endpoint took, then the
    one that is driven, then the valid ones in the crossing queue, and a payload that is not
    valid is dropped; towards the network, the payloads the endpoint handed over are those of the
    messages given to the unit, then those in the queue.  A queue holds at most eight, and ready
    is driven only when there is a free place. *)
Theorem mm_if_transfers b i log ch : mm_reach b i log ->
  (if to_node (mc_role c) ch
   then valid_ones (log ch).1 = (log ch).2 ++ option_list (drives ch (mi_next i)) ++ valid_ones (held ch (mi_cdc i ch)) /\
        (all_valid (log ch).1 -> valid_ones (held ch (mi_cdc i ch)) = held ch (mi_cdc i ch))
   else (log ch).1 = (log ch).2 ++ held ch (mi_cdc i ch)) /\
  length (fifo (mi_cdc i ch)) = length (held ch (mi_cdc i ch)) /\ (length (held ch (mi_cdc i ch)) <= 8)%nat /\
  (to_node (mc_role c) ch = false -> accepts ch (mi_next i) = true -> (length (held ch (mi_cdc i ch)) < 8)%nat).
Proof.
  intros Hr. destruct (mv_chan _ _ _ (mm_reach_inv _ _ _ Hr) ch) as [[[_ Hl He] Hroom] Hf Hfv]. apply Forall2_length in He.
  split; [|done]. destruct (to_node (mc_role c) ch); [|done]. split; [by apply Hfv|]. intros Hv. specialize (Hf Hv).
  unfold all_valid in Hv. rewrite Hf, !Forall_app in Hv. destruct Hv as (_ & _ & Hv).
  unfold valid_ones. clear -Hv. induction Hv as [|d l Hd _ IH]; [done|]. by rewrite filter_cons_True, IH.
Qed.

End MmIf.
