(* ===== verification/MmBram.v ===== *)
(** * A memory behind an AXI-MM interface

    The BRAM endpoint connected to a slave interface, as [Control] runs them: in a cycle of the
    endpoint the interface sees the state of the endpoint and the endpoint that of the
    interface, then both are clocked.  What the unit behind the interface gets back is what
    the memory has to answer. *)

From stdpp Require Import functions.
From S2P Require Import Prelude AxiTypes NppReceive Flit MmDepack WriteTracker MmWriteBuffer Rrob MsgBuffer MmNmu MmNsu.
From S2P Require Import Checkpoint AxiCheckpoint CdcQueue AxisHandler NocNodes Bram BramRun MmHandler MmIfRun.

Section MmBram.
Context (c : mmIfCfg) (bc : bramCfg).
Hypothesis Hrole : mc_role c = Slave.
Hypothesis Hbase : 0 <= br_baseAddr bc.
Hypothesis Hsize : 0 <= br_memorySize bc.
Hypothesis Htop : br_baseAddr bc + br_memorySize bc < 2 ^ 64.
Hypothesis Hperiod : 0 <= br_period bc.
Implicit Types (i : mmIf) (s : bram) (log : mmChan -> list chanData * list chanData) (g : blog).

(** [mb_reach committed i s log g]: the interface with what went through it, the memory with its
    own record. *)
Inductive mb_reach : bool -> mmIf -> bram -> (mmChan -> list chanData * list chanData) -> blog -> Prop :=
| mbr_init : mb_reach true (mmIf_init c) (bram_init bc) (fun _ => ([], [])) (mk_blog [] [] [] 0 [] [] 0)
| mbr_idle i s log g : mb_reach true i s log g -> mb_reach false i s log g
| mbr_node i s log g now cd qs m i' input' s' :
    mb_reach true i s log g -> st_body (mi_current i) = SAximmMaster m ->
    mm_nodeSideUpdate c now (new_State (SAximmSlave (br_current s))) i qs = Ok (i', input') ->
    inputs_ok s m g -> lg_now g + br_period bc <= now -> now + br_period bc < 2 ^ 64 -> bram_cycle bc now cd m s = Ok (true, s') ->
    mb_reach false i' s' (add_log log (node_log c (mi_current i) (new_State (SAximmSlave (br_current s))))) (log_cycle now m s s' g)
| mbr_noc {U} (ops : mmUnitOps U) i s log g now edge random qs u i' qs' u' l :
    mb_reach false i s log g -> mm_nocSideUpdate c ops now edge random i qs u = Ok (i', qs', u') ->
    (forall ch, moved c ch (qs ch) (qs' ch) (l ch)) -> mb_reach false i' s (add_log log (noc_log c l)) g
| mbr_tick i s log g : mb_reach false i s log g -> mb_reach true (mm_if_tick i) s log g.

(** What the endpoint took and gave is what the interface handed over. *)
Record agrees log g : Prop := {
  ag_ar : (log AR).2 = DAddr <$> lg_ars g;
  ag_aw : (log AW).2 = DAddr <$> lg_aws g;
  ag_w : (log W).2 = DData <$> w_beats (lg_events g);
  ag_r : (log R).1 = DData <$> took rd_valid (lg_r g);
  ag_b : (log B).1 = DResp <$> took wr_valid (lg_b g)
}.

Lemma w_beats_cycle s m s' g : w_beats (lg_events g ++ w_events s m ++ r_event s s') = w_beats (lg_events g) ++ if w_taken s m then [mms_w m] else [].
Proof.
  unfold w_beats. rewrite !omap_app. f_equal. unfold w_events, r_event, aw_taken.
  destruct (_ && _), (w_taken s m), (br_readRequests s), (last (br_readResponses s')); done.
Qed.

Lemma mb_reach_parts b i s log g : mb_reach b i s log g -> mm_reach c b i log /\ bram_reach bc s g /\ agrees log g.
Proof using Hrole.
  induction 1 as [|i s log g _ (H1 & H2 & H3)|i s log g now cd qs m i' input' s' _ (H1 & H2 & H3) Hm E Hin Hn1 Hn2 Eb
    |U ops i s log g now edge random qs u i' qs' u' l _ (H1 & H2 & H3) E Hl|i s log g _ (H1 & H2 & H3)].
  - split; [constructor|]. split; [constructor|]. by split.
  - split; [by constructor|done].
  - split; [eapply mr_node; [done| |done]; rewrite Hrole; by eexists|]. split; [by eapply brr_cycle|].
    destruct H3 as [A1 A2 A5 A3 A4].
    split; unfold add_log, pair_app, node_log, log_cycle, hands_over, drives, accepts; rewrite Hrole; cbn -[took]; rewrite Hm; cbn -[took].
    + rewrite A1, fmap_app. f_equal. unfold ar_taken. by destruct (mss_arReady _), (ra_valid _).
    + rewrite A2, fmap_app. f_equal. unfold aw_taken. by destruct (mss_awReady _), (ra_valid _).
    + rewrite A5, w_beats_cycle, fmap_app. f_equal. unfold w_taken. by destruct (mss_wReady _), (rd_valid _).
    + rewrite A3, took_snoc, fmap_app. f_equal. by destruct (mms_rReady m), (rd_valid _).
    + rewrite A4, took_snoc, fmap_app. f_equal. by destruct (mms_bReady m), (wr_valid _).
  - split; [by eapply mr_noc|]. split; [done|]. destruct H3 as [A1 A2 A5 A3 A4].
    split; unfold add_log, pair_app, noc_log; rewrite Hrole; cbn; by rewrite app_nil_r.
  - split; [by constructor|done].
Qed.

(** What is between the message buffers and the endpoint on a channel. *)
Definition waiting ch i : list chanData := (if to_node (mc_role c) ch then option_list (drives ch (mi_next i)) else []) ++ held ch (mi_cdc i ch).

(** C13: a memory behind an interface serves its unit.  In every run the read and write requests
    and W beats taken from the unit are those the memory accepted and those on the way, at most
    nine, provided the unit hands over payloads that are valid; the
    read beats given to the unit, with those on the way, are answers of the memory to the beats
    of the accepted bursts, in order; the write responses given to the unit are those of the
    bursts that are complete, in order; every read beat has what the W beats taken before it
    left in memory; and when nothing is on the way and the memory is idle, every beat of every
    read request has been answered. *)
Theorem mm_bram_serves b i s log g : mb_reach b i s log g -> all_valid (log AR).1 -> all_valid (log AW).1 ->
  (log AR).1 = (DAddr <$> lg_ars g) ++ waiting AR i /\ (log AW).1 = (DAddr <$> lg_aws g) ++ waiting AW i /\
  (length (waiting AR i) <= 9)%nat /\ (length (waiting AW i) <= 9)%nat /\
  (all_valid (log W).1 -> (log W).1 = (DData <$> w_beats (lg_events g)) ++ waiting W i /\ (length (waiting W i) <= 9)%nat) /\
  (log R).2 ++ waiting R i `prefix_of` DData <$> (reads (lg_events g)).*2 /\ (reads (lg_events g)).*1 `prefix_of` concat (burst <$> lg_ars g) /\
  (log B).2 ++ waiting B i ++ (DResp <$> answers s) = DResp <$> (writeResp bc <$> take (lg_lasts g) (lg_aws g)) /\
  (forall l1 a k p l2, lg_events g = l1 ++ ER a k p :: l2 -> read_beat bc (spec_mem bc l1) a k p) /\
  (waiting AR i = [] -> waiting R i = [] -> br_readRequests s = [] -> br_readRequestsdelay s = [] -> br_readResponses s = [] ->
   (log R).2 = DData <$> (reads (lg_events g)).*2 /\ (log AR).1 = DAddr <$> lg_ars g /\ (reads (lg_events g)).*1 = concat (burst <$> lg_ars g)).
Proof using Hrole Hbase Hsize Htop Hperiod.
  intros Hr Var Vaw. destruct (mb_reach_parts _ _ _ _ _ Hr) as (Hm & Hb & [A1 A2 A5 A3 A4]).
  assert (forall ch, (to_node (mc_role c) ch = true -> all_valid (log ch).1) -> (log ch).1 = (log ch).2 ++ waiting ch i /\ (length (waiting ch i) <= 9)%nat) as Hflow.
  { intros ch Hv. destruct (mm_reach_flow c b i log ch Hm Hv) as [H1 H2]. split; [done|]. unfold waiting. rewrite length_app.
    destruct (to_node (mc_role c) ch); [destruct (drives ch (mi_next i))|]; cbn; lia. }
  destruct (Hflow AR (fun _ => Var)) as [F1 L1], (Hflow AW (fun _ => Vaw)) as [F2 L2].
  destruct (Hflow R ltac:(by rewrite Hrole)) as [F3 _], (Hflow B ltac:(by rewrite Hrole)) as [F4 _].
  rewrite A1 in F1. rewrite A2 in F2. rewrite A3 in F3. rewrite A4 in F4.
  destruct (bram_reach_inv bc Hbase Hsize Htop Hperiod _ _ Hb) as [_ Hc _ Hrf _ Hkeys _ _ Hbf _ _ _ _].
  split_and!; try done.
  - intros Vw. rewrite <- A5. exact (Hflow W (fun _ => Vw)).
  - rewrite <- F3, Hrf, fmap_app. by eexists.
  - rewrite <- Hkeys. by eexists.
  - rewrite app_assoc, <- F4, <- fmap_app, Hbf. done.
  - intros l1 a k p l2 E. rewrite E, checks_app in Hc. apply Hc.
  - intros W1 W2 E1 E2 E3. rewrite E1, E2 in Hkeys. rewrite E3 in Hrf. rewrite W2 in F3. rewrite W1 in F1. rewrite !app_nil_r in *. by rewrite Hrf, F3.
Qed.
End MmBram.
