(* ===== verification/MmExample.v ===== *)
(** * Examples for the AXI-MM interface

    A slave interface with a BRAM endpoint: a burst of two beats is written and read back
    through the message buffers.  Then a request with an ID that the interface has no place
    for. *)

From stdpp Require Import functions.
From S2P Require Import Prelude AxiTypes NppReceive Flit MmDepack WriteTracker MmWriteBuffer Rrob MsgBuffer MmNmu MmNsu.
From S2P Require Import Checkpoint AxiCheckpoint CdcQueue AxisHandler NocNodes Bram BramRun BramExample MmHandler MmIfRun MmBram.

#[export] Instance aximmRWAddr_eq_dec : EqDecision aximmRWAddr.
Proof. solve_decision. Defined.
#[export] Instance aximmRWData_eq_dec : EqDecision aximmRWData.
Proof. solve_decision. Defined.
#[export] Instance aximmWResp_eq_dec : EqDecision aximmWResp.
Proof. solve_decision. Defined.
#[export] Instance axisData_eq_dec : EqDecision axisData.
Proof. solve_decision. Defined.
#[export] Instance MessagePayload_eq_dec : EqDecision MessagePayload.
Proof. solve_decision. Defined.
#[export] Instance NocMemoryMsg_eq_dec : EqDecision NocMemoryMsg.
Proof. solve_decision. Defined.

Definition ex_mmc : mmIfCfg := mk_mmIfCfg Slave 10 (fun _ => mk_mbCfg 0 0 true true).
(** A unit that is always ready. *)
Definition ex_ops : mmUnitOps unit := mk_mmUnitOps (fun _ _ _ u => Ok (true, u)) (fun _ u => Ok u).
Definition ex_put (q : mbuf) (x : chanData * Z) : mbuf := ok_or q (mb_enqueue (mk_mbCfg 0 0 true true) q (new_msg x.1) 0 0 x.2 None false false).
Definition ex_ar2 : aximmRWAddr := ex_addr READ 2 4100 1 INCR.
Definition ex_qs (ch : mmChan) : mbuf :=
  match ch with
  | AW => foldl ex_put mbuf_init [(DAddr ex_aw, 5)]
  | W => foldl ex_put mbuf_init [(DData (ex_wbeat 10 false), 5); (DData (ex_wbeat 20 true), 5)]
  | AR => foldl ex_put mbuf_init [(DAddr ex_ar2, 45)]
  | _ => mbuf_init
  end.

(** The interface, the endpoint, the buffers and the record. *)
Record exMb := mk_exMb { xm_i : mmIf; xm_s : bram; xm_q : mmChan -> mbuf (M := NocMemoryMsg);
  xm_log : mmChan -> list chanData * list chanData; xm_g : blog }.

Definition ex_data (ch : mmChan) (m : NocMemoryMsg) : chanData := ok_or (no_data ch) (msg_data ch m).
Definition ex_payload (m : NocMemoryMsg) : chanData :=
  match mm_payload m with PAddr a => DAddr a | PData d => DData d | PResp b => DResp b | PAxis _ => no_data AR end.
Definition ex_moved_msgs (ch : mmChan) (q q' : mbuf (M := NocMemoryMsg)) : list NocMemoryMsg :=
  if to_node Slave ch then take (length (mm_msgs q) - length (mm_msgs q')) (mm_msgs q) else drop (length (mm_msgs q)) (mm_msgs q').
Definition ex_moved_data (qs qs' : mmChan -> mbuf (M := NocMemoryMsg)) (ch : mmChan) : list chanData :=
  (if to_node Slave ch then ex_data ch else ex_payload) <$> ex_moved_msgs ch (qs ch) (qs' ch).
Definition ex_moved_ok (qs qs' : mmChan -> mbuf (M := NocMemoryMsg)) (ch : mmChan) : bool :=
  let ms := ex_moved_msgs ch (qs ch) (qs' ch) in
  if to_node Slave ch
  then bool_decide (mm_msgs (qs ch) = ms ++ mm_msgs (qs' ch)) && forallb (fun m => is_ok (msg_data ch m)) ms
  else bool_decide (mm_msgs (qs' ch) = mm_msgs (qs ch) ++ ms) && forallb (fun m => bool_decide (mm_payload m = payload_of (ex_payload m))) ms.
Definition req_okb (a : aximmRWAddr) : bool :=
  negb (ra_valid a) || ((0 <=? ra_size a) && (ra_size a <=? 6) && (0 <=? ra_len a) && (ra_len a <=? 255) && (0 <=? ra_addr a) && (ra_addr a <? 2 ^ 64 - 2 ^ 15)).

Lemma ex_moved_spec qs qs' ch : ex_moved_ok qs qs' ch = true -> moved ex_mmc ch (qs ch) (qs' ch) (ex_moved_data qs qs' ch).
Proof.
  unfold ex_moved_ok, moved, ex_moved_data. change (mc_role ex_mmc) with Slave.
  destruct (to_node Slave ch); intros [H1%bool_decide_eq_true H2%Is_true_true_2%forallb_True]%andb_prop; eexists; (split; [by first [exact H1|rewrite H1]|]).
  all: apply Forall2_fmap_r, Forall_Forall2_diag; eapply Forall_impl; [exact H2|]; intros m Hm; cbn in Hm.
  - cbn. unfold ex_data. by destruct (msg_data ch m).
  - cbn. by apply bool_decide_unpack in Hm.
Qed.
Lemma req_okb_spec a : req_okb a = true -> ra_valid a = true -> req_ok a.
Proof. unfold req_okb. intros H Hv. rewrite Hv in H. cbn [negb orb] in H. split; lia. Qed.

(** One cycle with both clocks. *)
Definition ex_mb_next (x : exMb) : option exMb :=
  let now := lg_now (xm_g x) + 10 in let '(mk_exMb i s qs log g) := x in
  match st_body (mi_current i), mm_nodeSideUpdate ex_mmc now (new_State (SAximmSlave (br_current s))) i qs with
  | SAximmMaster m, Ok (i1, _) =>
      match bram_cycle ex_brc now 1 m s, mm_nocSideUpdate ex_mmc ex_ops now now (fun _ => None) i1 qs tt with
      | Ok (true, s'), Ok (i2, qs', _) =>
          if req_okb (mms_ar m) && req_okb (mms_aw m) &&
             (if w_taken s m && rd_last (mms_w m) then (lg_lasts g <? length (lg_aws g ++ aw_taken s m))%nat else true) &&
             forallb (ex_moved_ok qs qs') channelMap
          then Some (mk_exMb (mm_if_tick i2) s' qs'
                 (add_log (add_log log (node_log ex_mmc (mi_current i) (new_State (SAximmSlave (br_current s)))))
                    (noc_log ex_mmc (ex_moved_data qs qs'))) (log_cycle now m s s' g))
          else None
      | _, _ => None
      end
  | _, _ => None
  end.
Definition mb_ok (x : exMb) : Prop := mb_reach ex_mmc ex_brc true (xm_i x) (xm_s x) (xm_log x) (xm_g x).
Lemma ex_mb_next_ok x x' : mb_ok x -> 0 <= lg_now (xm_g x) < 2 ^ 63 -> ex_mb_next x = Some x' -> mb_ok x' /\ lg_now (xm_g x') = lg_now (xm_g x) + 10.
Proof.
  destruct x as [i s qs log g]. unfold mb_ok, ex_mb_next. cbn [xm_i xm_s xm_q xm_log xm_g]. intros Hr H0 E.
  destruct (st_body (mi_current i)) as [| | |m] eqn:Em; try done.
  destruct (mm_nodeSideUpdate _ _ _ _ _) as [[i1 inp]|] eqn:E1; [|done].
  destruct (bram_cycle _ _ _ _ _) as [[[] s']|] eqn:E2; try done. destruct (mm_nocSideUpdate _ _ _ _ _ _ _ _) as [[[i2 qs'] []]|] eqn:E3; [|done].
  match type of E with (if ?b then _ else _) = _ => destruct b eqn:Eb; [|done] end. injection E as <-.
  apply andb_prop in Eb as [[[Ha Hw]%andb_prop Hl]%andb_prop Hm%Is_true_true_2%forallb_True]. cbn [xm_i xm_s xm_q xm_log xm_g]. split; [|done].
  apply mbr_tick. eapply mbr_noc; [|exact E3|].
  - eapply mbr_node; [exact Hr|exact Em|exact E1| |cbn; lia|cbn; lia|exact E2].
    split; [by apply req_okb_spec|by apply req_okb_spec|]. intros Hlast. rewrite Hlast in Hl. by apply Nat.ltb_lt.
  - intros ch. apply ex_moved_spec. rewrite Forall_forall in Hm. apply Is_true_true, Hm. destruct ch; repeat constructor.
Qed.

Fixpoint ex_mb_run (n : nat) (x : exMb) : option exMb :=
  match n with O => Some x | S n => match ex_mb_next x with Some x => ex_mb_run n x | None => None end end.
Lemma ex_mb_run_ok n x x' : mb_ok x -> 0 <= lg_now (xm_g x) -> lg_now (xm_g x) + 10 * nz n < 2 ^ 62 -> ex_mb_run n x = Some x' -> mb_ok x'.
Proof.
  revert x. induction n as [|n IH]; intros x Hr H0 Hn E; cbn in E; [by injection E as <-|]. destruct (ex_mb_next x) as [y|] eqn:Ey; [|done].
  destruct (ex_mb_next_ok _ _ Hr ltac:(lia) Ey) as [Hy Ht]. eapply IH; [exact Hy| | |exact E]; lia.
Qed.

Definition ex_mb0 : exMb := mk_exMb (mmIf_init ex_mmc) (bram_init ex_brc) ex_qs (fun _ => ([], [])) (mk_blog [] [] [] 0 [] [] 0).
Definition ex_mb (n : nat) : exMb := default ex_mb0 (ex_mb_run n ex_mb0).

Lemma ex_mb_reach n : is_Some (ex_mb_run n ex_mb0) -> 10 * nz n < 2 ^ 61 -> mb_ok (ex_mb n).
Proof.
  intros [x E] Hn. unfold ex_mb. rewrite E. cbn. apply (ex_mb_run_ok n ex_mb0); [constructor|cbn; lia|cbn; lia|exact E].
Qed.
Lemma ex_mb_is_Some n : bool_decide (is_Some (ex_mb_run n ex_mb0)) = true -> is_Some (ex_mb_run n ex_mb0).
Proof. apply bool_decide_eq_true. Qed.

Lemma mm_if_transfers_witness : let x := ex_mb 2 in
  (xm_log x W).1 = [DData (ex_wbeat 10 false); DData (ex_wbeat 20 true)] /\ (xm_log x W).2 = [] /\
  valid_ones (xm_log x W).1 = (xm_log x W).2 ++ option_list (drives W (mi_next (xm_i x))) ++ valid_ones (held W (mi_cdc (xm_i x) W)) /\
  drives W (mi_next (xm_i x)) = Some (DData (ex_wbeat 10 false)).
Proof.
  cbv zeta. pose proof (ex_mb_reach 2 (ex_mb_is_Some 2 ltac:(vm_compute; reflexivity)) ltac:(cbn; lia)) as Hr.
  destruct (mb_reach_parts ex_mmc ex_brc eq_refl _ _ _ _ _ Hr) as (Hm & _ & _).
  assert ((xm_log (ex_mb 2) W).1 = [DData (ex_wbeat 10 false); DData (ex_wbeat 20 true)]) as El by (vm_compute; reflexivity).
  destruct (mm_if_transfers ex_mmc true _ _ W Hm) as [[H _] _].
  split; [exact El|]. split; [vm_compute; reflexivity|]. split; [exact H|]. vm_compute; reflexivity.
Defined.


Lemma mm_bram_serves_witness : let x := ex_mb 16 in
  (xm_log x R).2 = (DData <$> (reads (lg_events (xm_g x))).*2) /\ (reads (lg_events (xm_g x))).*1 = [(ex_ar2, 0); (ex_ar2, 1)] /\
  (xm_log x B).2 = [DResp (mk_aximmWResp 7 OKAY 0 true)] /\
  ((fun d => match d with DData d => rd_data d | _ => [] end) <$> (xm_log x R).2) = [[10; 11; 12; 13] ++ zeros 60; [20; 21; 22; 23] ++ zeros 60].
Proof.
  cbv zeta. pose proof (ex_mb_reach 16 (ex_mb_is_Some 16 ltac:(vm_compute; reflexivity)) ltac:(cbn; lia)) as Hr.
  destruct (mm_bram_serves ex_mmc ex_brc eq_refl ltac:(cbn; lia) ltac:(cbn; lia) ltac:(cbn; lia) ltac:(cbn; lia) _ _ _ _ _ Hr) as (_ & _ & _ & _ & _ & _ & _ & _ & _ & H).
  - assert ((xm_log (ex_mb 16) AR).1 = [DAddr ex_ar2]) as -> by (vm_compute; reflexivity). repeat constructor.
  - assert ((xm_log (ex_mb 16) AW).1 = [DAddr ex_aw]) as -> by (vm_compute; reflexivity). repeat constructor.
  - destruct H as (H1 & _ & H3); [vm_compute; reflexivity..|].
    split; [exact H1|]. split; [rewrite H3; vm_compute; reflexivity|]. split; vm_compute; reflexivity.
Defined.

(** A read request with an ID of 4 or more is written past the end of [readBeatSize]; the next
    member of the handler is the delay of read responses. *)
Example mm_if_id_out_of_range : let q := foldl ex_put mbuf_init [(DAddr ex_ar, 5)] in
  mm_nocIn ex_mmc ex_ops 10 AR (mmIf_init ex_mmc) q tt = Err (FUndef "array index out of range").
Proof. vm_compute. reflexivity. Qed.

(** The read beats with DECERR that the master unit makes for an address that decodes nowhere have
    their data in the payload of the message, not in the array of beats the interface reads.  The
    payload the interface takes is not valid, so the endpoint never gets the answer. *)
Example read_decerr_beat_lost : let msg := newNocMemoryMsg (PData (decerr_beat ex_ar true)) (replicate 4 aximmRWData_default) in
  rd_valid (decerr_beat ex_ar true) = true /\ valid_only (match msg_data R msg with Ok d => Some d | Err _ => None end) = None.
Proof. vm_compute. done. Qed.
