(* ===== verification/MonitorCheckpoint.v ===== *)
(** * Checkpoints of the traffic monitor

    The part of an interface's checkpoint that the traffic monitor writes for a master:
    [serializeEndpointCheckpoint], [unserializeEndpointCheckpointStash] and
    [applyDeferredEndpointCheckpoint] of [src/src/noc/monitors/NocTrafficMonitor.cc], with the
    export and import functions they use.

    The monitor is a map from the number of an interface to its values: [registerNode] gives an
    interface its local index, its protocol and its values together. *)

From stdpp Require Import pretty.
From S2P Require Import Prelude Checkpoint.

(** ** Values *)

Record TransactionInfo := mk_TransactionInfo {
  ti_startTime : Z;
  ti_dataSize : Z;
  ti_receiverID : Z
}.

(** [m_writeDataBuffers] is a [std::map<int, ...>]: an association list in the order of the keys. *)
Inductive MonitorValues :=
  | AXIMonitorValues (m_outstandingReads m_outstandingWrites : list (list TransactionInfo))
  | AXISMonitorValues (m_axisWrites : list (list TransactionInfo)) (m_writeDataBuffers : list (Z * list Z))
      (m_writeDataBuffer : list Z).

Abbreviation monitor := (gmap Z MonitorValues).

Definition NUM_MONITORED_AXI_IDS : nat := 4.

Definition exportAxisWriteDataBuffer (m : monitor) (id : Z) : option (list Z) :=
  match m !! id with Some (AXISMonitorValues _ _ b) => Some b | _ => None end.
Definition exportAxisOutstandingWrites (m : monitor) (id : Z) : option (list (list TransactionInfo)) :=
  match m !! id with Some (AXISMonitorValues w _ _) => Some w | _ => None end.
Definition exportAxiOutstandingTxns (m : monitor) (id : Z)
    : option (list (list TransactionInfo) * list (list TransactionInfo)) :=
  match m !! id with Some (AXIMonitorValues r w) => Some (r, w) | _ => None end.

Definition importAxisWriteDataBuffer (m : monitor) (id : Z) (l : list Z) : res monitor :=
  match m !! id with
  | None => Err (FPanic "importAxisWriteDataBuffer: AXIS node not registered")
  | Some (AXISMonitorValues w d _) => Ok (<[id := AXISMonitorValues w d l]> m)
  | Some _ => Err (FPanic "importAxisWriteDataBuffer: node is not AXIS")
  end.
Definition importAxisOutstandingWrites (m : monitor) (id : Z) (l : list (list TransactionInfo)) : res monitor :=
  match m !! id with
  | None => Err (FPanic "importAxisOutstandingWrites: AXIS node not registered")
  | Some (AXISMonitorValues _ d b) => Ok (<[id := AXISMonitorValues l d b]> m)
  | Some _ => Err (FPanic "importAxisOutstandingWrites: node is not AXIS")
  end.
(** The arrays are cleared and their first [n] elements filled. *)
Definition refill (n : nat) (l : list (list TransactionInfo)) : list (list TransactionInfo) :=
  (fun k => if (k <? n)%nat then default [] (l !! k) else []) <$> seq 0 NUM_MONITORED_AXI_IDS.
Definition importAxiOutstandingTxns (m : monitor) (id : Z) (reads writes : list (list TransactionInfo)) : res monitor :=
  match m !! id with
  | None => Err (FPanic "importAxiOutstandingTxns: AXIMM node not registered")
  | Some (AXIMonitorValues _ _) =>
      let n := Nat.min (Nat.min (length reads) (length writes)) NUM_MONITORED_AXI_IDS in
      Ok (<[id := AXIMonitorValues (refill n reads) (refill n writes)]> m)
  | Some _ => Err (FPanic "importAxiOutstandingTxns: node is not AXIMM")
  end.

(** ** Writing *)

(** [csprintf("<prefix>%d", i)] *)
Definition numbered (prefix : string) (i : nat) : string := String.append prefix (pretty (N.of_nat i)).

Definition txn_lines (t : TransactionInfo) : list line :=
  paramOut p_u64 "startTime" (ti_startTime t) ++ paramOut p_u64 "dataSize" (ti_dataSize t) ++
  paramOut p_i64 "receiverID" (ti_receiverID t).
Definition txns_lines (sec : section) (prefix : string) (l : list TransactionInfo) : list line :=
  indexed sec (numbered prefix) 0 (txn_lines <$> l).

Definition buffer_lines (x : Z * list Z) : list line :=
  paramOut p_int "destination" x.1 ++ paramOut p_bytes "bytes" x.2.
Definition tdest_lines (sec : section) (k : nat) (l : list TransactionInfo) : list line :=
  paramOut p_u64 "n" (nz (length l)) ++ txns_lines (numbered "tm_axis_tdest_" k :: sec) "e" l.
Definition axi_id_lines (sec : section) (k : nat) (x : list TransactionInfo * list TransactionInfo) : list line :=
  let sc := numbered "tm_axi_id_" k :: sec in
  paramOut p_u64 "reads_n" (nz (length x.1)) ++ txns_lines sc "r" x.1 ++
  paramOut p_u64 "writes_n" (nz (length x.2)) ++ txns_lines sc "w" x.2.

(** [axis->m_writeDataBuffers], read when the write buffer was exported. *)
Definition destination_buffers (m : monitor) (id : Z) : list (Z * list Z) :=
  match m !! id with Some (AXISMonitorValues _ d _) => d | _ => [] end.

(** The values of the interface's own section, and the sections below it. *)
Definition tm_entries (m : monitor) (id : Z) : list line :=
  let buf := exportAxisWriteDataBuffer m id in
  let out := exportAxisOutstandingWrites m id in
  let axi := exportAxiOutstandingTxns m id in
  paramOut p_bool "tm_axis_has_write_buf" (bool_decide (is_Some buf)) ++
  paramOut p_bool "tm_axis_has_outstanding_writes" (bool_decide (is_Some out)) ++
  paramOut p_bool "tm_axi_has_outstanding_txns" (bool_decide (is_Some axi)) ++
  match out with Some l => paramOut p_u64 "tm_axis_outstanding_tdest_n" (nz (length l)) | None => [] end ++
  match axi with Some (r, _) => paramOut p_u64 "tm_axi_id_n" (nz (length r)) | None => [] end ++
  match buf with
  | Some b => paramOut p_bytes "tm_axis_write_buf" b ++
              paramOut p_u64 "tm_axis_destination_buf_n" (nz (length (destination_buffers m id)))
  | None => []
  end.
Definition tm_sections (sec : section) (m : monitor) (id : Z) : list line :=
  match exportAxisWriteDataBuffer m id with
  | Some _ => indexed sec (numbered "tm_axis_destination_buf_") 0 (buffer_lines <$> destination_buffers m id)
  | None => []
  end ++
  match exportAxisOutstandingWrites m id with
  | Some l => indexed sec (numbered "tm_axis_tdest_") 0 (imap (tdest_lines sec) l)
  | None => []
  end ++
  match exportAxiOutstandingTxns m id with
  | Some (r, w) => indexed sec (numbered "tm_axi_id_") 0 (imap (axi_id_lines sec) (zip r w))
  | None => []
  end.

Definition serializeEndpointCheckpoint (sec : section) (m : monitor) (id : Z) : list line :=
  tm_entries m id ++ tm_sections sec m id.

(** ** Reading *)

Record DeferredEndpointCkpt := mk_DeferredEndpointCkpt {
  has_axis_write_buf : bool;
  axis_write_buf : list Z;
  axis_destination_buffers : list (Z * list Z);
  has_axis_outstanding_writes : bool;
  axis_outstanding_writes : list (list TransactionInfo);
  has_axi_outstanding_txns : bool;
  axi_outstanding_reads : list (list TransactionInfo);
  axi_outstanding_writes : list (list TransactionInfo)
}.
Abbreviation ckptStash := (gmap Z DeferredEndpointCkpt).

Definition read_txn (cp : checkpoint) (sec : section) : res TransactionInfo :=
  let* start := paramIn p_u64 cp sec "startTime" in
  let* size := paramIn p_u64 cp sec "dataSize" in
  let* rid := paramIn p_i64 cp sec "receiverID" in
  Ok (mk_TransactionInfo start size (u32 rid)).
Definition read_txns (cp : checkpoint) (sec : section) (prefix : string) (n : Z) : res (list TransactionInfo) :=
  mapM (fun i => read_txn cp (numbered prefix i :: sec)) (seq 0 (zn n)).

(** [std::map<int, ...>::operator[]] followed by the assignment of the read bytes. *)
Fixpoint map_set (k : Z) (v : list Z) (l : list (Z * list Z)) : list (Z * list Z) :=
  match l with
  | [] => [(k, v)]
  | x :: r => if k <? x.1 then (k, v) :: l else if k =? x.1 then (k, v) :: r else x :: map_set k v r
  end.
Definition read_buffer (cp : checkpoint) (sec : section) (bufs : list (Z * list Z)) (k : nat) : res (list (Z * list Z)) :=
  let sc := numbered "tm_axis_destination_buf_" k :: sec in
  let* d := paramIn p_int cp sc "destination" in
  let* b := paramIn p_bytes cp sc "bytes" in
  Ok (map_set d b bufs).
Definition read_tdest (cp : checkpoint) (sec : section) (k : nat) : res (list TransactionInfo) :=
  let sc := numbered "tm_axis_tdest_" k :: sec in
  let* n := paramIn p_u64 cp sc "n" in read_txns cp sc "e" n.
Definition read_axi_id (cp : checkpoint) (sec : section) (k : nat) : res (list TransactionInfo * list TransactionInfo) :=
  let sc := numbered "tm_axi_id_" k :: sec in
  let* rn := paramIn p_u64 cp sc "reads_n" in
  let* wn := paramIn p_u64 cp sc "writes_n" in
  let* r := read_txns cp sc "r" rn in
  let* w := read_txns cp sc "w" wn in
  Ok (r, w).

Definition unserializeEndpointCheckpointStash (cp : checkpoint) (sec : section) (id : Z) (stash : ckptStash) : res ckptStash :=
  let stash := delete id stash in
  let has_buf := optParamIn p_bool cp sec "tm_axis_has_write_buf" false in
  let has_out := optParamIn p_bool cp sec "tm_axis_has_outstanding_writes" false in
  let has_axi := optParamIn p_bool cp sec "tm_axi_has_outstanding_txns" false in
  if negb has_buf && negb has_out && negb has_axi then Ok stash
  else
    let* (buf, bufs) := if has_buf : bool then
        let* b := paramIn p_bytes cp sec "tm_axis_write_buf" in
        let n := optParamIn p_u64 cp sec "tm_axis_destination_buf_n" 0 in
        let* bufs := foldM (read_buffer cp sec) [] (seq 0 (zn n)) in Ok (b, bufs)
      else Ok ([], []) in
    let* out := if has_out : bool then
        let* n := paramIn p_u64 cp sec "tm_axis_outstanding_tdest_n" in mapM (read_tdest cp sec) (seq 0 (zn n))
      else Ok [] in
    let* axi := if has_axi : bool then
        let* n := paramIn p_u64 cp sec "tm_axi_id_n" in mapM (read_axi_id cp sec) (seq 0 (zn n))
      else Ok [] in
    Ok (<[id := mk_DeferredEndpointCkpt has_buf buf bufs has_out out has_axi axi.*1 axi.*2]> stash).

(** The assignment to [m_writeDataBuffers] in [applyDeferredEndpointCheckpoint]. *)
Definition set_destination_buffers (m : monitor) (id : Z) (d : list (Z * list Z)) : monitor :=
  match m !! id with Some (AXISMonitorValues w _ b) => <[id := AXISMonitorValues w d b]> m | _ => m end.
Definition is_axis (v : MonitorValues) : bool := match v with AXISMonitorValues _ _ _ => true | _ => false end.

Definition applyDeferredEndpointCheckpoint (m : monitor) (stash : ckptStash) (id : Z) : res (monitor * ckptStash) :=
  match stash !! id with
  | None => Ok (m, stash)
  | Some d =>
      let stash := delete id stash in
      let* v := of_opt (FPanic "applyDeferredEndpointCheckpoint: node not registered") (m !! id) in
      let* m := if has_axis_write_buf d || has_axis_outstanding_writes d then
          guard (is_axis v) (FPanic "applyDeferredEndpointCheckpoint: AXIS checkpoint data for non-AXIS node") (
          let* m := if has_axis_write_buf d then
              let* m := importAxisWriteDataBuffer m id (axis_write_buf d) in
              Ok (set_destination_buffers m id (foldl (fun l x => map_set x.1 x.2 l) [] (axis_destination_buffers d)))
            else Ok m in
          if has_axis_outstanding_writes d then importAxisOutstandingWrites m id (axis_outstanding_writes d) else Ok m)
        else Ok m in
      let* m := if has_axi_outstanding_txns d then
          guard (negb (is_axis v)) (FPanic "applyDeferredEndpointCheckpoint: AXI checkpoint data for non-AXI node")
            (importAxiOutstandingTxns m id (axi_outstanding_reads d) (axi_outstanding_writes d))
        else Ok m in
      Ok (m, stash)
  end.

(** ** Restoring *)

Definition txn_typed (t : TransactionInfo) : Prop :=
  0 <= ti_startTime t < 2 ^ 64 /\ 0 <= ti_dataSize t < 2 ^ 64 /\ 0 <= ti_receiverID t < 2 ^ 32.
Definition txns_typed (l : list TransactionInfo) : Prop := Forall txn_typed l /\ nz (length l) < 2 ^ 64.
Definition bytes_typed (l : list Z) : Prop := Forall (fun z => 0 <= z <= 2 ^ 8 - 1) l.

(** The keys of a [std::map<int, ...>] increase. *)
Definition buffers_typed (l : list (Z * list Z)) : Prop :=
  StronglySorted Z.lt l.*1 /\ Forall (fun x => - 2 ^ 31 <= x.1 <= 2 ^ 31 - 1 /\ bytes_typed x.2) l /\ nz (length l) < 2 ^ 64.
Definition values_typed (v : MonitorValues) : Prop :=
  match v with
  | AXIMonitorValues r w => length r = NUM_MONITORED_AXI_IDS /\ length w = NUM_MONITORED_AXI_IDS /\ Forall txns_typed r /\ Forall txns_typed w
  | AXISMonitorValues w d b => Forall txns_typed w /\ nz (length w) < 2 ^ 64 /\ buffers_typed d /\ bytes_typed b
  end.

Lemma numbered_inj prefix : Inj (=) (=) (numbered prefix).
Proof. intros i j E. unfold numbered in E. apply (inj (String.append prefix)) in E. apply (inj pretty) in E. lia. Qed.

Lemma txn_bodies_ok sec prefix l : indexed_ok sec (numbered prefix) 0 (txn_lines <$> l).
Proof. intros k b Hb. apply list_lookup_fmap_Some in Hb as (t & -> & _). by repeat constructor. Qed.
Lemma txns_blocks sec (N : string -> Prop) prefix l : (forall k, N (numbered prefix k)) -> blocks sec N (txns_lines sec prefix l).
Proof. intros HN. by apply blocks_indexed; [apply txn_bodies_ok|]. Qed.

Lemma read_txn_written cp sec t : agrees cp sec (LSection sec :: txn_lines t) -> txn_typed t -> read_txn cp sec = Ok t.
Proof.
  intros Hag (H1 & H2 & H3). assert (H : holds cp sec (txn_lines t)) by (apply agrees_holds; [done|by repeat constructor]).
  unfold read_txn. do 3 cp_read H. rewrite u32_small by lia. by destruct t.
Qed.

(** Transactions that follow the values of their section. *)
Lemma read_txns_written cp sec (N : string -> Prop) ents l1 prefix l l2 :
  agrees cp sec (LSection sec :: ents ++ l1 ++ txns_lines sec prefix l ++ l2) -> after_entries ents = [] -> blocks sec N l1 -> blocks sec N l2 ->
  (forall k, ~ N (numbered prefix k)) -> txns_typed l -> read_txns cp sec prefix (nz (length l)) = Ok l.
Proof.
  intros Hag He H1 H2 HN [Ht _]. unfold read_txns. rewrite Nat2Z.id. apply mapM_seq. intros k t Hk.
  apply read_txn_written; [|by eapply Forall_lookup_1 in Ht].
  eapply (blocks_indexed_agrees cp sec N N ents l1 (numbered prefix) (txn_lines <$> l) l2); try done.
  - apply numbered_inj.
  - apply txn_bodies_ok.
  - by rewrite list_lookup_fmap, Hk.
Qed.

(** *** Destination buffers *)

Lemma map_set_last k v l : Forall (fun x => x < k) l.*1 -> map_set k v l = l ++ [(k, v)].
Proof.
  induction l as [|x l IH]; [done|]. rewrite fmap_cons. intros [Hx Hl]%Forall_cons. cbn [map_set app].
  rewrite (proj2 (Z.ltb_ge _ _)), (proj2 (Z.eqb_neq _ _)) by lia. by rewrite IH.
Qed.
Lemma sorted_take (l : list (Z * list Z)) k x : StronglySorted Z.lt l.*1 -> l !! k = Some x -> Forall (fun y => y < x.1) (take k l).*1.
Proof.
  intros Hs Hk. rewrite <- (take_drop_middle l k x Hk), fmap_app in Hs. revert Hs. generalize ((take k l).*1).
  intros p Hs. induction p as [|y p IH]; [done|]. apply StronglySorted_inv in Hs as [Hs Hy]. constructor; [|by apply IH].
  apply Forall_app in Hy as [_ Hy]. by apply Forall_cons in Hy as [Hy _].
Qed.
Lemma map_set_take l k x : StronglySorted Z.lt l.*1 -> l !! k = Some x -> map_set x.1 x.2 (take k l) = take (S k) l.
Proof. intros Hs Hk. rewrite map_set_last by (by eapply sorted_take). rewrite (take_S_r l k x) by done. by destruct x. Qed.

Lemma map_set_all l : StronglySorted Z.lt l.*1 -> foldl (fun l x => map_set x.1 x.2 l) [] l = l.
Proof.
  intros Hs. enough (forall k, (k <= length l)%nat -> foldl (fun l x => map_set x.1 x.2 l) [] (take k l) = take k l) as H.
  { rewrite <- (firstn_all l) at 1. rewrite H by done. apply firstn_all. }
  induction k as [|k IH]; intros Hk; [done|]. destruct (lookup_lt_is_Some_2 l k) as [x Hx]; [lia|].
  rewrite (take_S_r l k x Hx) at 1. rewrite foldl_app, IH by lia. cbn. by apply map_set_take.
Qed.
Lemma read_buffers_all cp sec l : StronglySorted Z.lt l.*1 ->
  (forall k x bufs, l !! k = Some x -> read_buffer cp sec bufs k = Ok (map_set x.1 x.2 bufs)) ->
  foldM (read_buffer cp sec) [] (seq 0 (length l)) = Ok l.
Proof.
  intros Hs Hr. enough (forall k, (k <= length l)%nat -> foldM (read_buffer cp sec) [] (seq 0 k) = Ok (take k l)) as H by (by rewrite H, firstn_all).
  induction k as [|k IH]; intros Hk; [done|]. destruct (lookup_lt_is_Some_2 l k) as [x Hx]; [lia|].
  rewrite seq_S, foldM_app, IH by lia. cbn [rbind foldM Nat.add]. rewrite (Hr k x) by done. cbn. by rewrite map_set_take.
Qed.

(** *** The monitor's part of an interface's section *)

(** The names of the monitor's sections. *)
Definition tm_name (a : string) : Prop :=
  exists k, a = numbered "tm_axis_destination_buf_" k \/ a = numbered "tm_axis_tdest_" k \/ a = numbered "tm_axi_id_" k.

Lemma buffer_bodies_ok sec l : indexed_ok sec (numbered "tm_axis_destination_buf_") 0 (buffer_lines <$> l).
Proof. intros k b Hb. apply list_lookup_fmap_Some in Hb as (t & -> & _). by repeat constructor. Qed.
Lemma tdest_bodies_ok sec l : indexed_ok sec (numbered "tm_axis_tdest_") 0 (imap (tdest_lines sec) l).
Proof.
  intros k b Hb. apply list_lookup_imap_Some in Hb as (t & _ & ->). apply Forall_app_2; [by repeat constructor|].
  apply indexed_under, txn_bodies_ok.
Qed.
Lemma axi_bodies_ok sec l : indexed_ok sec (numbered "tm_axi_id_") 0 (imap (axi_id_lines sec) l).
Proof.
  intros k b Hb. apply list_lookup_imap_Some in Hb as (t & _ & ->).
  repeat apply Forall_app_2; try (by repeat constructor); apply indexed_under, txn_bodies_ok.
Qed.

Lemma tm_sections_blocks sec m id : blocks sec tm_name (tm_sections sec m id).
Proof.
  unfold tm_sections. repeat apply blocks_app.
  - destruct (exportAxisWriteDataBuffer m id); [|done]. apply blocks_indexed; [apply buffer_bodies_ok|]. intros k. exists k. by left.
  - destruct (exportAxisOutstandingWrites m id); [|done]. apply blocks_indexed; [apply tdest_bodies_ok|]. intros k. exists k. right. by left.
  - destruct (exportAxiOutstandingTxns m id) as [[r w]|]; [|done]. apply blocks_indexed; [apply axi_bodies_ok|]. intros k. exists k. right. by right.
Qed.
Lemma tm_entries_values m id : after_entries (tm_entries m id) = [].
Proof.
  unfold tm_entries, exportAxisWriteDataBuffer, exportAxisOutstandingWrites, exportAxiOutstandingTxns.
  by destruct (m !! id) as [[r w|w d b]|].
Qed.

Section Stash.
Context (cp : checkpoint) (sec : section) (m : monitor) (id : Z) (head rest : list line) (N : string -> Prop).
Hypothesis Hag : agrees cp sec (LSection sec :: head ++ serializeEndpointCheckpoint sec m id ++ rest).
Hypothesis Hhead : after_entries head = [].
Hypothesis Hrest : blocks sec N rest.
Hypothesis HN : forall a, N a -> ~ tm_name a.

Lemma tm_entry n : cp !! (sec, n) = findEntry n (tm_entries m id) (findEntry n head None).
Proof using Hag Hhead Hrest.
  unfold serializeEndpointCheckpoint in Hag. rewrite <- app_assoc, app_assoc in Hag.
  rewrite (blocks_entry cp sec (fun _ => True) (head ++ tm_entries m id) _ n Hag).
  - by apply findEntry_app.
  - rewrite after_entries_app by done. apply tm_entries_values.
  - apply blocks_app; [eapply blocks_weaken; [|apply tm_sections_blocks]|eapply blocks_weaken; [|exact Hrest]]; done.
Qed.

Lemma stash_unregistered stash : m !! id = None -> unserializeEndpointCheckpointStash cp sec id stash = Ok (delete id stash).
Proof using Hag Hhead Hrest.
  intros E. unfold unserializeEndpointCheckpointStash, optParamIn, paramInImpl, iniFind. rewrite !tm_entry.
  unfold tm_entries, exportAxisWriteDataBuffer, exportAxisOutstandingWrites, exportAxiOutstandingTxns. by rewrite E.
Qed.

Lemma tm_holds : holds cp sec (tm_entries m id).
Proof using Hag Hhead Hrest. intros n v Hv. rewrite tm_entry. by apply findEntry_some. Qed.

(** The element [k] of one of the three families of sections, of which only one is before and one
    is after the others. *)
Lemma tm_element nm bodies l1 l2 k b (N1 N2 : string -> Prop) : tm_sections sec m id = l1 ++ indexed sec nm 0 bodies ++ l2 ->
  blocks sec N1 l1 -> blocks sec N2 l2 -> Inj (=) (=) nm -> indexed_ok sec nm 0 bodies -> bodies !! k = Some b ->
  ~ N1 (nm k) -> ~ N2 (nm k) -> tm_name (nm k) -> agrees cp (nm k :: sec) (LSection (nm k :: sec) :: b).
Proof using Hag Hhead Hrest HN.
  intros E H1 H2 Hi Hok Hk Hn1 Hn2 Hn. pose proof Hag as Hg. unfold serializeEndpointCheckpoint in Hg. rewrite E, <- !app_assoc, app_assoc in Hg.
  eapply (blocks_indexed_agrees cp sec N1 (fun a => N2 a \/ N a) _ l1 nm bodies (l2 ++ rest)); try done.
  - rewrite after_entries_app by done. apply tm_entries_values.
  - apply blocks_app; (eapply blocks_weaken; [|done]); auto.
  - intros [?|Hr]; [done|]. by apply (HN _ Hr).
Qed.

Lemma tm_sections_axis w d b : m !! id = Some (AXISMonitorValues w d b) ->
  tm_sections sec m id = indexed sec (numbered "tm_axis_destination_buf_") 0 (buffer_lines <$> d) ++
    indexed sec (numbered "tm_axis_tdest_") 0 (imap (tdest_lines sec) w).
Proof using Type.
  intros E. unfold tm_sections, exportAxisWriteDataBuffer, exportAxisOutstandingWrites, exportAxiOutstandingTxns, destination_buffers.
  rewrite E. by rewrite app_nil_r.
Qed.
Lemma tdest_not_buffer i j : numbered "tm_axis_tdest_" i <> numbered "tm_axis_destination_buf_" j.
Proof using Type. unfold numbered. cbn. intros E. by simplify_eq. Qed.

Lemma axis_tdest_read w d b k l : m !! id = Some (AXISMonitorValues w d b) -> w !! k = Some l -> txns_typed l -> read_tdest cp sec k = Ok l.
Proof using Hag Hhead Hrest HN.
  intros E Hk [Ht Hl]. set (sc := numbered "tm_axis_tdest_" k :: sec).
  assert (agrees cp sc (LSection sc :: tdest_lines sec k l)) as Ha.
  { eapply (tm_element _ (imap (tdest_lines sec) w) (indexed sec (numbered "tm_axis_destination_buf_") 0 (buffer_lines <$> d)) [] k _
      (fun a => exists i, a = numbered "tm_axis_destination_buf_" i) (fun _ => False)).
    - rewrite app_nil_r. by apply (tm_sections_axis w d b).
    - apply blocks_indexed; [apply buffer_bodies_ok|eauto].
    - apply blocks_nil.
    - apply numbered_inj.
    - apply tdest_bodies_ok.
    - by rewrite list_lookup_imap, Hk.
    - intros [i Hi]. by apply tdest_not_buffer in Hi.
    - by intros [].
    - exists k. right. by left. }
  assert (Hh : holds cp sc [LEntry "n" (VNum (nz (length l)))]).
  { intros n v Hv. by rewrite (blocks_entry _ _ (fun _ => True) [LEntry "n" (VNum (nz (length l)))] _ n Ha); [..|apply txns_blocks]. }
  unfold read_tdest. fold sc. cp_read Hh.
  by apply (read_txns_written cp _ (fun _ => False) [LEntry "n" (VNum (nz (length l)))] [] "e" l []); [rewrite app_nil_r|..|intros ? []|].
Qed.

Lemma axis_buffer_read w d b k x bufs : m !! id = Some (AXISMonitorValues w d b) -> d !! k = Some x ->
  - 2 ^ 31 <= x.1 <= 2 ^ 31 - 1 -> bytes_typed x.2 -> read_buffer cp sec bufs k = Ok (map_set x.1 x.2 bufs).
Proof using Hag Hhead Hrest HN.
  intros E Hk Hx1 Hx2. set (sc := numbered "tm_axis_destination_buf_" k :: sec).
  assert (agrees cp sc (LSection sc :: buffer_lines x)) as Ha.
  { eapply (tm_element _ (buffer_lines <$> d) [] (indexed sec (numbered "tm_axis_tdest_") 0 (imap (tdest_lines sec) w)) k _
      (fun _ => False) (fun a => exists i, a = numbered "tm_axis_tdest_" i)).
    - by apply (tm_sections_axis w d b).
    - apply blocks_nil.
    - apply blocks_indexed; [apply tdest_bodies_ok|eauto].
    - apply numbered_inj.
    - apply buffer_bodies_ok.
    - by rewrite list_lookup_fmap, Hk.
    - by intros [].
    - intros [i Hi]. symmetry in Hi. by apply tdest_not_buffer in Hi.
    - exists k. by left. }
  assert (Hh : holds cp sc (buffer_lines x)) by (apply agrees_holds; [done|by repeat constructor]).
  unfold read_buffer. fold sc. do 2 cp_read Hh. done.
Qed.

Lemma stash_axis stash w d b : m !! id = Some (AXISMonitorValues w d b) -> values_typed (AXISMonitorValues w d b) ->
  unserializeEndpointCheckpointStash cp sec id stash = Ok (<[id := mk_DeferredEndpointCkpt true b d true w false [] []]> (delete id stash)).
Proof using Hag Hhead Hrest HN.
  intros E (Hw & Hlw & (Hds & Hd & Hld) & Hb). pose proof tm_holds as H.
  unfold tm_entries, exportAxisWriteDataBuffer, exportAxisOutstandingWrites, exportAxiOutstandingTxns, destination_buffers in H.
  rewrite E in H. cbn in H. unfold unserializeEndpointCheckpointStash. do 6 cp_read H. cbn [negb andb].
  rewrite !Nat2Z.id, read_buffers_all; [|done|].
  - cbn [rbind]. rewrite (mapM_seq _ w); [done|]. intros k l Hk.
    apply (axis_tdest_read w d b); [done|done|]. by apply (proj1 (Forall_lookup _ _) Hw k).
  - intros k x bufs Hk. destruct (proj1 (Forall_lookup _ _) Hd _ _ Hk). by apply (axis_buffer_read w d b).
Qed.

(** *** AXI *)

Lemma axi_agrees r w k x : m !! id = Some (AXIMonitorValues r w) -> zip r w !! k = Some x ->
  agrees cp (numbered "tm_axi_id_" k :: sec) (LSection (numbered "tm_axi_id_" k :: sec) :: axi_id_lines sec k x).
Proof using Hag Hhead Hrest HN.
  intros E Hk. eapply (tm_element _ (imap (axi_id_lines sec) (zip r w)) [] [] k _ (fun _ => False) (fun _ => False)).
  - unfold tm_sections, exportAxisWriteDataBuffer, exportAxisOutstandingWrites, exportAxiOutstandingTxns. rewrite E. by rewrite app_nil_r.
  - apply blocks_nil.
  - apply blocks_nil.
  - apply numbered_inj.
  - apply axi_bodies_ok.
  - by rewrite list_lookup_imap, Hk.
  - by intros [].
  - by intros [].
  - exists k. right. by right.
Qed.

(** Without an outstanding read the two counts are in the section of the ID. *)
Lemma axi_id_read r w k lw : m !! id = Some (AXIMonitorValues r w) -> zip r w !! k = Some ([], lw) -> txns_typed lw ->
  read_axi_id cp sec k = Ok ([], lw).
Proof using Hag Hhead Hrest HN.
  intros E Hk [Ht Hl]. pose proof (axi_agrees r w k _ E Hk) as Ha. set (sc := numbered "tm_axi_id_" k :: sec) in *.
  set (ents := [LEntry "reads_n" (VNum 0); LEntry "writes_n" (VNum (nz (length lw)))]).
  assert (Hh : holds cp sc ents).
  { intros n v Hv. by rewrite (blocks_entry _ _ (fun _ => True) ents _ n Ha); [..|apply txns_blocks]. }
  unfold read_axi_id. fold sc. do 2 cp_read Hh. cbn.
  by rewrite (read_txns_written cp sc (fun _ => False) ents [] "w" lw []) by (done || (by rewrite app_nil_r) || by intros ? []).
Qed.
(** With one, the number of writes is in the section of the last read. *)
Lemma axi_id_lost r w k t lr lw : m !! id = Some (AXIMonitorValues r w) -> zip r w !! k = Some (t :: lr, lw) ->
  is_ok (read_axi_id cp sec k) = false.
Proof using Hag Hhead Hrest HN.
  intros E Hk. pose proof (axi_agrees r w k _ E Hk) as Ha. unfold read_axi_id. set (sc := numbered "tm_axi_id_" k :: sec) in *.
  destruct (paramIn p_u64 cp sc "reads_n"); [|done]. cbn [rbind]. rewrite paramIn_none; [done|].
  rewrite (agrees_entry _ _ _ "writes_n" Ha); [done|].
  change (Forall (not_header sc) (txns_lines sc "r" (t :: lr) ++ paramOut p_u64 "writes_n" (nz (length lw)) ++ txns_lines sc "w" lw)).
  apply Forall_app_2; [|constructor; [done|]]; by apply (blocks_not_header sc (fun _ => True)), txns_blocks.
Qed.
Lemma stash_axi_reads stash r w : m !! id = Some (AXIMonitorValues r w) -> length r = NUM_MONITORED_AXI_IDS ->
  unserializeEndpointCheckpointStash cp sec id stash =
    let* axi := mapM (read_axi_id cp sec) (seq 0 (length r)) in
    Ok (<[id := mk_DeferredEndpointCkpt false [] [] false [] true axi.*1 axi.*2]> (delete id stash)).
Proof using Hag Hhead Hrest.
  intros E Hr. pose proof tm_holds as H.
  unfold tm_entries, exportAxisWriteDataBuffer, exportAxisOutstandingWrites, exportAxiOutstandingTxns, destination_buffers in H.
  rewrite E in H. cbn in H. unfold unserializeEndpointCheckpointStash. rewrite Hr in *.
  erewrite !(optParamIn_some p_bool cp sec); [|eapply H; reflexivity|cp_parse|eapply H; reflexivity|cp_parse|eapply H; reflexivity|cp_parse].
  cbn [negb andb rbind]. cp_read H. done.
Qed.
Lemma stash_axi stash r w : m !! id = Some (AXIMonitorValues r w) -> values_typed (AXIMonitorValues r w) -> Forall (fun l => l = []) r ->
  unserializeEndpointCheckpointStash cp sec id stash = Ok (<[id := mk_DeferredEndpointCkpt false [] [] false [] true r w]> (delete id stash)).
Proof using Hag Hhead Hrest HN.
  intros E (Hr & Hw & _ & Hwt) Hno. rewrite (stash_axi_reads _ _ _ E Hr). replace (length r) with (length (zip r w)) by (rewrite length_zip_with; lia).
  rewrite (mapM_seq _ (zip r w)).
  - cbn [rbind]. rewrite fst_zip, snd_zip by lia. done.
  - intros k [lr lw] Hk. pose proof Hk as [Hk1 Hk2]%lookup_zip_Some. pose proof (proj1 (Forall_lookup _ _) Hno _ _ Hk1) as E0. cbn in E0. subst lr.
    apply (axi_id_read r w); [done|done|]. by apply (proj1 (Forall_lookup _ _) Hwt k).
Qed.
Lemma stash_axi_lost stash r w : m !! id = Some (AXIMonitorValues r w) -> values_typed (AXIMonitorValues r w) -> ~ Forall (fun l => l = []) r ->
  is_ok (unserializeEndpointCheckpointStash cp sec id stash) = false.
Proof using Hag Hhead Hrest HN.
  intros E (Hr & Hw & _) Hno. rewrite (stash_axi_reads _ _ _ E Hr). destruct (mapM _ _) as [l|] eqn:El; [exfalso|done]. apply Hno.
  apply Forall_lookup. intros k lr Hk. destruct lr as [|t lr]; [done|exfalso]. pose proof (lookup_lt_Some _ _ _ Hk) as Hlt.
  destruct (lookup_lt_is_Some_2 w k) as [lw Hlw]; [lia|]. destruct (mapM_Ok_each _ _ _ k El) as [x Hx]; [apply elem_of_seq; lia|].
  pose proof (axi_id_lost r w k t lr lw E) as Hf. rewrite Hx in Hf. by specialize (Hf ltac:(by apply lookup_zip_Some)).
Qed.
End Stash.

(** *** Applying what was read *)

(** The values that can be read back: no outstanding read. *)
Definition reads_done (v : MonitorValues) : Prop :=
  match v with AXIMonitorValues r _ => Forall (fun l => l = []) r | AXISMonitorValues _ _ _ => True end.
#[export] Instance reads_done_dec v : Decision (reads_done v).
Proof. destruct v; cbn; apply _. Defined.

Definition deferred (v : MonitorValues) : DeferredEndpointCkpt :=
  match v with
  | AXISMonitorValues w d b => mk_DeferredEndpointCkpt true b d true w false [] []
  | AXIMonitorValues r w => mk_DeferredEndpointCkpt false [] [] false [] true r w
  end.

Lemma refill_all l : length l = NUM_MONITORED_AXI_IDS -> refill NUM_MONITORED_AXI_IDS l = l.
Proof. destruct l as [|a [|b [|c [|d [|]]]]]; try done. Qed.

Lemma apply_deferred m v v' stash id : m !! id = Some v' -> is_axis v' = is_axis v -> values_typed v ->
  applyDeferredEndpointCheckpoint m (<[id := deferred v]> stash) id = Ok (<[id := v]> m, delete id stash).
Proof.
  intros Hm Hp Hv. unfold applyDeferredEndpointCheckpoint. rewrite lookup_insert_eq, delete_insert_eq, Hm. cbn [of_opt rbind].
  destruct v as [r w|w d b], v' as [r' w'|w' d' b']; try discriminate Hp; cbn.
  - unfold importAxiOutstandingTxns. rewrite Hm. cbn [rbind]. destruct Hv as (Hr & Hw & _). rewrite Hr, Hw. cbn [Nat.min NUM_MONITORED_AXI_IDS].
    by rewrite !(refill_all _) by done.
  - unfold importAxisWriteDataBuffer. rewrite Hm. cbn [rbind]. unfold set_destination_buffers. rewrite lookup_insert_eq.
    unfold importAxisOutstandingWrites. rewrite insert_insert_eq, lookup_insert_eq. cbn [rbind]. rewrite insert_insert_eq.
    destruct Hv as (_ & _ & (Hs & _) & _). by rewrite map_set_all.
Qed.
