(* ===== verification/IfCheckpoint.v ===== *)
(** * Checkpoints of a node interface

    [NocInterface::serialize] and [unserialize] ([src/src/noc/core/interface/NocInterface.cc])
    with [serializeInterfaceState] and [unserializeInterfaceState] of the two protocol handlers
    ([AXISHandler.cc], [AXIMMHandler.cc]): the three states of the interface and the crossing
    queue of each channel, and for a master the part of the traffic monitor
    ([MonitorCheckpoint]). *)

From stdpp Require Import pretty.
From S2P Require Import Prelude AxiTypes Checkpoint AxiCheckpoint CdcQueue AxisHandler MonitorCheckpoint.

(** ** States *)

(** A handler's format of a state. *)
Record stateFormat := mk_stateFormat {
  sf_serialize : section -> State -> res (list line);
  sf_unserialize : checkpoint -> section -> res State
}.

Definition axis_serializeInterfaceState (sec : section) (s : State) : res (list line) :=
  match st_body s with
  | SAxisSlave tready => Ok (paramOut p_string "kind" "axisSlaveState" ++ paramOut p_bool "tready" tready)
  | SAxisMaster a =>
      Ok (paramOut p_string "kind" "axisMasterState" ++
          scoped sec "axisData" (fun _ =>
            serialize_axisData (ams_data a) ++
            paramOut p_bool "ni_tready" (ams_ni_tready a) ++
            paramOut p_bool "cdc_enqueue_ready" (ams_cdc_enqueue_ready a) ++
            paramOut p_bool "node_input_tready" (ams_node_input_tready a)))
  | _ => Err (FPanic "AXISHandler::serializeInterfaceState: unsupported State type")
  end.
Definition axis_unserializeInterfaceState (cp : checkpoint) (sec : section) : res State :=
  let* kind := paramIn p_string cp sec "kind" in
  if String.eqb kind "axisSlaveState" then
    let* tready := paramIn p_bool cp sec "tready" in Ok (new_State (SAxisSlave tready))
  else if String.eqb kind "axisMasterState" then
    let sec1 := "axisData" :: sec in
    let* d := unserialize_axisData cp sec1 in
    Ok (new_State (SAxisMaster (mk_axisMasterState d (optParamIn p_bool cp sec1 "ni_tready" false)
          (optParamIn p_bool cp sec1 "cdc_enqueue_ready" false) (optParamIn p_bool cp sec1 "node_input_tready" false))))
  else Err (FPanic "AXISHandler::unserializeInterfaceState: bad kind").

Definition mm_slave_lines (sec : section) (a : aximmSlaveState) : list line :=
  paramOut p_string "kind" "aximmSlaveState" ++
  paramOut p_bool "arReady" (mss_arReady a) ++
  paramOut p_bool "awReady" (mss_awReady a) ++
  paramOut p_bool "wReady" (mss_wReady a) ++
  paramOut p_bool "bReady" true ++
  scoped sec "r" (fun _ => serialize_aximmRWData (mss_r a)) ++
  scoped sec "b" (fun _ => serialize_aximmWResp (mss_b a)).
Definition mm_master_lines (sec : section) (a : aximmMasterState) : list line :=
  paramOut p_string "kind" "aximmMasterState" ++
  paramOut p_bool "rReady" (mms_rReady a) ++
  paramOut p_bool "bReady" (mms_bReady a) ++
  paramOut p_bool "cdc_enqueue_ready" (mms_cdc_enqueue_ready a) ++
  scoped sec "ar" (fun _ => serialize_aximmRWAddr (mms_ar a)) ++
  scoped sec "aw" (fun _ => serialize_aximmRWAddr (mms_aw a)) ++
  scoped sec "w" (fun _ => serialize_aximmRWData (mms_w a)).
Definition mm_serializeInterfaceState (sec : section) (s : State) : res (list line) :=
  match st_body s with
  | SAximmSlave a => Ok (mm_slave_lines sec a)
  | SAximmMaster a => Ok (mm_master_lines sec a)
  | _ => Err (FPanic "AXIMMHandler::serializeInterfaceState: unsupported State type")
  end.
Definition mm_unserializeInterfaceState (cp : checkpoint) (sec : section) : res State :=
  let* kind := paramIn p_string cp sec "kind" in
  if String.eqb kind "aximmSlaveState" then
    let* arReady := paramIn p_bool cp sec "arReady" in
    let* awReady := paramIn p_bool cp sec "awReady" in
    let* wReady := paramIn p_bool cp sec "wReady" in
    let* r := unserialize_aximmRWData cp ("r" :: sec) in
    let* b := unserialize_aximmWResp cp ("b" :: sec) in
    Ok (new_State (SAximmSlave (mk_aximmSlaveState arReady r awReady wReady b)))
  else if String.eqb kind "aximmMasterState" then
    let* rReady := paramIn p_bool cp sec "rReady" in
    let* bReady := paramIn p_bool cp sec "bReady" in
    let cdc := optParamIn p_bool cp sec "cdc_enqueue_ready" false in
    let* ar := unserialize_aximmRWAddr cp ("ar" :: sec) in
    let* aw := unserialize_aximmRWAddr cp ("aw" :: sec) in
    let* w := unserialize_aximmRWData cp ("w" :: sec) in
    Ok (new_State (SAximmMaster (mk_aximmMasterState ar rReady aw w bReady cdc)))
  else Err (FPanic "AXIMMHandler::unserializeInterfaceState: bad kind").

Definition axis_format : stateFormat := mk_stateFormat axis_serializeInterfaceState axis_unserializeInterfaceState.
Definition mm_format : stateFormat := mk_stateFormat mm_serializeInterfaceState mm_unserializeInterfaceState.

(** ** The interface *)

Record chanDesc := mk_chanDesc { cd_name : string; cd_dir : Z; cd_vnet : Z }.
Record ifSnapshot := mk_ifSnapshot {
  sn_waiting_mem_retry : bool;
  sn_mem_ctrl_waiting_retry : bool;
  sn_is_blocking : bool;
  sn_current : State;
  sn_next : State;
  sn_node : State;
  sn_queues : list CDCQueue
}.

(** [csprintf("ch%d", i)] *)
Definition chname (i : nat) : string := String.append "ch" (pretty (N.of_nat i)).

Definition chan_head (d : chanDesc) : list line :=
  paramOut p_string "name" (cd_name d) ++ paramOut p_int "dir" (cd_dir d) ++ paramOut p_int "vnet" (cd_vnet d) ++ paramOut p_bool "hasCdc" true.
Definition chan_serialize (sec : section) (d : chanDesc) (q : CDCQueue) : res (list line) :=
  let* ls := cdc_serialize ("cdc" :: sec) q in
  Ok (chan_head d ++ scoped sec "cdc" (fun _ => ls)).

Definition if_head (s : ifSnapshot) : list line :=
  paramOut p_bool "m_waiting_mem_retry" (sn_waiting_mem_retry s) ++
  paramOut p_bool "m_mem_ctrl_waiting_retry" (sn_mem_ctrl_waiting_retry s) ++
  paramOut p_bool "m_is_blocking" (sn_is_blocking s) ++
  paramOut p_u64 "numChannels" (nz (length (sn_queues s))).

(** Where the interface is: its role, its number [m_version] and the traffic monitor of
    [m_netwk_ptr], if there is a network. *)
Record ifPlace := mk_ifPlace { pl_role : ifRole; pl_version : Z; pl_monitor : option monitor }.
Definition monitor_lines (c : ifPlace) (sec : section) : list line :=
  match pl_monitor c, pl_role c with
  | Some m, Master => serializeEndpointCheckpoint sec m (pl_version c)
  | _, _ => []
  end.

(** [NocInterface::serialize] *)
Definition if_serialize (f : stateFormat) (descs : nat -> chanDesc) (c : ifPlace) (sec : section) (s : ifSnapshot) : res (list line) :=
  let* cur := sf_serialize f ("currentState" :: sec) (sn_current s) in
  let* nxt := sf_serialize f ("nextState" :: sec) (sn_next s) in
  let* node := sf_serialize f ("nodeState" :: sec) (sn_node s) in
  let* chans := mapM (fun p => chan_serialize (chname p.1 :: sec) (descs p.1) p.2) (zip (seq 0 (length (sn_queues s))) (sn_queues s)) in
  Ok (if_head s ++ monitor_lines c sec ++ scoped sec "currentState" (fun _ => cur) ++ scoped sec "nextState" (fun _ => nxt) ++
      scoped sec "nodeState" (fun _ => node) ++ indexed sec chname 0 chans).

Definition chan_unserialize (cp : checkpoint) (sec : section) (q : CDCQueue) : res CDCQueue :=
  let* _ := paramIn p_string cp sec "name" in
  let* hasCdc := paramIn p_bool cp sec "hasCdc" in
  if hasCdc : bool then cdc_unserialize cp ("cdc" :: sec) else Ok q.

(** [NocInterface::unserialize] into an interface at [c] whose queues are [queues], with the
    monitors' stash [stash]; the result has the monitor and the stash afterwards. *)
Definition if_unserialize (f : stateFormat) (c : ifPlace) (stash : ckptStash) (queues : list CDCQueue) (cp : checkpoint) (sec : section)
    : res (ifSnapshot * option monitor * ckptStash) :=
  let* waiting := paramIn p_bool cp sec "m_waiting_mem_retry" in
  let* ctrl := paramIn p_bool cp sec "m_mem_ctrl_waiting_retry" in
  let* blocking := paramIn p_bool cp sec "m_is_blocking" in
  let* stash := match pl_role c with
                | Master => unserializeEndpointCheckpointStash cp sec (pl_version c) stash
                | Slave => Ok stash
                end in
  let* cur := sf_unserialize f cp ("currentState" :: sec) in
  let* nxt := sf_unserialize f cp ("nextState" :: sec) in
  let* node := sf_unserialize f cp ("nodeState" :: sec) in
  let* n := paramIn p_u64 cp sec "numChannels" in
  let* qs := mapM (fun p => if nz p.1 <? n then chan_unserialize cp (chname p.1 :: sec) p.2 else Ok p.2) (zip (seq 0 (length queues)) queues) in
  let* (mon, stash) := match pl_role c, pl_monitor c with
                       | Master, Some m =>
                           let* (m, stash) := applyDeferredEndpointCheckpoint m stash (pl_version c) in Ok (Some m, stash)
                       | _, _ => Ok (pl_monitor c, stash)
                       end in
  Ok (mk_ifSnapshot waiting ctrl blocking cur nxt node qs, mon, stash).

(** ** Restoring *)

(** What a format promises: states [typed] are written below their section and are read back as
    [restored]. *)
Record format_ok (f : stateFormat) (typed : State -> Prop) (restored : State -> State) : Prop := {
  fo_write sec s : typed s -> exists ls, sf_serialize f sec s = Ok ls /\ Forall (under sec) ls;
  fo_read cp sec s ls : typed s -> sf_serialize f sec s = Ok ls -> agrees cp sec (LSection sec :: ls) -> sf_unserialize f cp sec = Ok (restored s)
}.

Lemma axis_format_ok : format_ok axis_format axis_state_typed state_restored.
Proof.
  assert (forall sec s, axis_state_typed s -> axis_serializeInterfaceState sec s = Ok (state_lines sec s)) as Hw.
  { intros sec s Hs. unfold axis_serializeInterfaceState, state_lines, axis_state_typed in *. by destruct (st_body s). }
  split.
  - intros sec s Hs. exists (state_lines sec s). split; [by apply Hw|apply state_lines_under].
  - intros cp sec s ls Hs E Hag. cbn in E. rewrite Hw in E by done. injection E as <-. pose proof (state_restore _ _ _ Hs Hag) as Hr.
    unfold unserialize_state in Hr. cbn. unfold axis_unserializeInterfaceState. destruct (paramIn p_string cp sec "kind") as [k|]; [|done]. cbn [rbind] in *.
    destruct (String.eqb k "axisSlaveState"); [done|]. destruct (String.eqb k "axisMasterState"); [done|].
    exfalso. unfold state_restored, axis_state_typed in *. destruct (String.eqb k "aximmSlaveState"), (String.eqb k "aximmMasterState"); inv_ok.
    all: destruct (st_body s); congruence.
Qed.

Record wresp_typed (b : aximmWResp) : Prop := { wrt_id : is_u32 (wr_id b); wrt_user : is_u8 (wr_user b) }.
Lemma aximmWResp_restored cp sec b : holds cp sec (serialize_aximmWResp b) -> wresp_typed b -> unserialize_aximmWResp cp sec = Ok b.
Proof.
  intros H []. unfold is_u8, is_u32 in *. unfold unserialize_aximmWResp. pose proof (resp_of_int_of (wr_resp b)) as Hr.
  assert (0 <= int_of_resp (wr_resp b) <= 3) by (destruct (wr_resp b); simpl; lia).
  do 2 cp_read H. rewrite Hr. cbn [rbind]. do 2 cp_read H. rewrite u8_small by lia. by destruct b.
Qed.

Definition mm_state_typed (s : State) : Prop :=
  match st_body s with
  | SAximmSlave a => aximmRWData_typed (mss_r a) /\ wresp_typed (mss_b a)
  | SAximmMaster a => aximmRWAddr_typed (mms_ar a) /\ aximmRWAddr_typed (mms_aw a) /\ aximmRWData_typed (mms_w a)
  | _ => False
  end.
(** The restored state: no debug ids. *)
Definition mm_state_restored (s : State) : State :=
  new_State match st_body s with
            | SAximmMaster a => SAximmMaster (mk_aximmMasterState (addr_restored (mms_ar a)) (mms_rReady a) (addr_restored (mms_aw a)) (mms_w a)
                                  (mms_bReady a) (mms_cdc_enqueue_ready a))
            | b => b
            end.

(** The value lines of a section that is followed by subsections. *)
Lemma sub_holds cp sec a pre body post : agrees cp sec (LSection sec :: pre ++ (LSection (a :: sec) :: body) ++ post) ->
  Forall (outside (a :: sec)) pre -> Forall (outside (a :: sec)) post -> headed post -> after_entries body = [] -> holds cp (a :: sec) body.
Proof.
  intros Hag H1 H2 H3 Hb. apply agrees_holds; [|by rewrite Hb].
  apply (agrees_sub cp sec a (LSection sec :: pre) body post); [done|constructor; [apply sub_not_suffix|done]|done|done].
Qed.

Lemma sub_outside sec a b : a <> b -> outside (b :: sec) (LSection (a :: sec)).
Proof. intros H. cbn. intros [l E]. apply H. destruct l as [|x l]; [by injection E|]. apply (f_equal length) in E. cbn in E. rewrite length_app in E. cbn in E. lia. Qed.
(** One piece of a state: it is outside of the sections that are read for the others. *)
Ltac outside_lines := repeat (apply Forall_app_2 || constructor); first [done | by apply sub_outside | exact I].

Lemma mm_slave_restore cp sec a : agrees cp sec (LSection sec :: mm_slave_lines sec a) -> aximmRWData_typed (mss_r a) -> wresp_typed (mss_b a) ->
  mm_unserializeInterfaceState cp sec = Ok (new_State (SAximmSlave a)).
Proof.
  intros Hag Hr Hb. assert (H : holds cp sec (mm_slave_lines sec a)).
  { apply agrees_holds; [done|]. cbn. repeat constructor; cbn; apply sub_ne. }
  assert (Hh : holds cp ("r" :: sec) (serialize_aximmRWData (mss_r a))).
  { eapply (sub_holds cp sec "r" (take 5 (mm_slave_lines sec a))); [exact Hag|..]; try done; outside_lines. }
  assert (Hh' : holds cp ("b" :: sec) (serialize_aximmWResp (mss_b a))).
  { eapply (sub_holds cp sec "b" (take 15 (mm_slave_lines sec a)) _ []); [exact Hag|..]; try done; outside_lines. }
  unfold mm_unserializeInterfaceState. do 4 cp_read H. cbn. rewrite (aximmRWData_restore _ _ _ Hh Hr). cbn [rbind].
  rewrite (aximmWResp_restored _ _ _ Hh' Hb). cbn [rbind]. by destruct a.
Qed.
Lemma mm_master_restore cp sec a : agrees cp sec (LSection sec :: mm_master_lines sec a) -> aximmRWAddr_typed (mms_ar a) -> aximmRWAddr_typed (mms_aw a) ->
  aximmRWData_typed (mms_w a) ->
  mm_unserializeInterfaceState cp sec = Ok (new_State (SAximmMaster (mk_aximmMasterState (addr_restored (mms_ar a)) (mms_rReady a) (addr_restored (mms_aw a))
    (mms_w a) (mms_bReady a) (mms_cdc_enqueue_ready a)))).
Proof.
  intros Hag Har Haw Hw. assert (H : holds cp sec (mm_master_lines sec a)).
  { apply agrees_holds; [done|]. cbn. repeat constructor; cbn; apply sub_ne. }
  assert (H1 : holds cp ("ar" :: sec) (serialize_aximmRWAddr (mms_ar a))).
  { eapply (sub_holds cp sec "ar" (take 4 (mm_master_lines sec a))); [exact Hag|..]; try done; outside_lines. }
  assert (H2 : holds cp ("aw" :: sec) (serialize_aximmRWAddr (mms_aw a))).
  { eapply (sub_holds cp sec "aw" (take 18 (mm_master_lines sec a))); [exact Hag|..]; try done; outside_lines. }
  assert (H3 : holds cp ("w" :: sec) (serialize_aximmRWData (mms_w a))).
  { eapply (sub_holds cp sec "w" (take 32 (mm_master_lines sec a)) _ []); [exact Hag|..]; try done; outside_lines. }
  unfold mm_unserializeInterfaceState. cp_read H. cbn [String.eqb Ascii.eqb Bool.eqb]. do 3 cp_read H.
  by rewrite (aximmRWAddr_restore _ _ _ H1 Har), (aximmRWAddr_restore _ _ _ H2 Haw), (aximmRWData_restore _ _ _ H3 Hw).
Qed.

Lemma mm_format_ok : format_ok mm_format mm_state_typed mm_state_restored.
Proof.
  split.
  - intros sec s Hs. cbn. unfold mm_serializeInterfaceState, mm_state_typed in *. destruct (st_body s); try done; eexists; (split; [done|]).
    all: unfold mm_slave_lines, mm_master_lines, scoped; cbn; repeat constructor; cbn; by apply suffix_cons_r.
  - intros cp sec s ls Hs E Hag. cbn in *. unfold mm_serializeInterfaceState, mm_state_typed, mm_state_restored in *. destruct (st_body s); try done.
    + injection E as <-. destruct Hs. by apply mm_slave_restore.
    + injection E as <-. destruct Hs as (? & ? & ?). by apply mm_master_restore.
Qed.

Lemma outside_sub sec a l : outside sec l -> outside (a :: sec) l.
Proof. destruct l as [q|]; [|done]. cbn. intros H [k E]. apply H. exists (k ++ [a]). rewrite E, <- app_assoc. done. Qed.
(** A subsection of a section that was written. *)
Lemma written_sub cp sec a pre body post : written cp sec (pre ++ (LSection (a :: sec) :: body) ++ post) ->
  Forall (outside (a :: sec)) pre -> Forall (outside (a :: sec)) post -> headed post -> written cp (a :: sec) body.
Proof.
  intros (P & Q & -> & H1 & H2 & H3) Hpre Hpost Hh. exists (P ++ LSection sec :: pre), (post ++ Q). split_and!.
  - f_equal. repeat (rewrite <- app_assoc || rewrite <- app_comm_cons). done.
  - apply Forall_app. split; [eapply Forall_impl; [exact H1|intros; by apply outside_sub]|]. constructor; [apply sub_not_suffix|done].
  - apply Forall_app. split; [done|]. eapply Forall_impl; [exact H2|intros; by apply outside_sub].
  - destruct post; [done|exact Hh].
Qed.

Lemma mapM_ext_in {A B} (f g : A -> res B) l : (forall x, x ∈ l -> f x = g x) -> mapM f l = mapM g l.
Proof. induction l as [|x l IH]; intros H; [done|]. cbn. rewrite (H x), IH; [done|intros; apply H; by right|left]. Qed.

Lemma chname_inj : Inj (=) (=) chname.
Proof. intros i j E. unfold chname in E. apply (inj (String.append "ch")) in E. apply (inj pretty) in E. lia. Qed.

(** The names of the sections of the states and the channels. *)
Definition if_name (a : string) : Prop := a ∈ ["currentState"; "nextState"; "nodeState"] \/ exists k, a = chname k.
Lemma if_name_tm a : if_name a -> ~ tm_name a.
Proof. intros [Ha|[k ->]] (i & [Hi|[Hi|Hi]]); [| | |done..]; rewrite Hi, !elem_of_cons, elem_of_nil in Ha; by destruct Ha as [?|[?|[?|[]]]]. Qed.

(** The values the monitor has of the interface. *)
Definition monitored (c : ifPlace) : option MonitorValues :=
  match pl_role c with Master => pl_monitor c ≫= lookup (pl_version c) | Slave => None end.
(** The interface is loaded into the same place: its role and number, and whether the network
    and the registration of its protocol are there. *)
Definition same_place (c c' : ifPlace) : Prop :=
  pl_role c' = pl_role c /\ pl_version c' = pl_version c /\
  (pl_role c = Master -> (is_Some (pl_monitor c') <-> is_Some (pl_monitor c)) /\ is_axis <$> monitored c' = is_axis <$> monitored c).
(** The monitor after loading: the values of this interface are those that were saved. *)
Definition monitor_restored (c c' : ifPlace) : option monitor :=
  match monitored c with Some v => insert (pl_version c) v <$> pl_monitor c' | None => pl_monitor c' end.
Definition stash_restored (c : ifPlace) (stash : ckptStash) : ckptStash :=
  match pl_role c with Master => delete (pl_version c) stash | Slave => stash end.

Section Restore.
Context (f : stateFormat) (typed : State -> Prop) (restored : State -> State) (descs : nat -> chanDesc).
Hypothesis Hf : format_ok f typed restored.
Context (c : ifPlace) (sec : section) (s : ifSnapshot) (ls : list line) (cp : checkpoint).
Hypothesis Htyped : typed (sn_current s) /\ typed (sn_next s) /\ typed (sn_node s).
Hypothesis Hnull : Forall no_null (sn_queues s).
Hypothesis Hsize : nz (length (sn_queues s)) < 2 ^ 64.
Hypothesis Hls : if_serialize f descs c sec s = Ok ls.
Hypothesis Hcp : written cp sec ls.

Definition queue_lines (q : CDCQueue) (sc : section) : list line := cdc_head q ++ indexed sc ename 0 (imap (entry_body sc) (fifo q)).
Definition chan_body (i : nat) (q : CDCQueue) : list line :=
  chan_head (descs i) ++ scoped (chname i :: sec) "cdc" (fun sc => queue_lines q sc).
Lemma chan_body_under i q : Forall (under (chname i :: sec)) (chan_body i q).
Proof.
  apply Forall_app_2; [by repeat constructor|]. eapply under_weaken, scoped_under. apply Forall_app_2; [by repeat constructor|].
  apply indexed_under, cdc_bodies_ok.
Qed.
Lemma chan_bodies_ok : indexed_ok sec chname 0 (imap chan_body (sn_queues s)).
Proof. intros k b Hb. apply list_lookup_imap_Some in Hb as (q & _ & ->). apply chan_body_under. Qed.

(** The lines of the states and of the channels. *)
Definition states_lines (cur nxt node : list line) : list line :=
  scoped sec "currentState" (fun _ => cur) ++ scoped sec "nextState" (fun _ => nxt) ++ scoped sec "nodeState" (fun _ => node).
Definition chans_lines : list line := indexed sec chname 0 (imap chan_body (sn_queues s)).

Lemma if_lines : exists cur nxt node,
  sf_serialize f ("currentState" :: sec) (sn_current s) = Ok cur /\ sf_serialize f ("nextState" :: sec) (sn_next s) = Ok nxt /\
  sf_serialize f ("nodeState" :: sec) (sn_node s) = Ok node /\
  Forall (under ("currentState" :: sec)) cur /\ Forall (under ("nextState" :: sec)) nxt /\ Forall (under ("nodeState" :: sec)) node /\
  ls = if_head s ++ monitor_lines c sec ++ states_lines cur nxt node ++ chans_lines.
Proof using Hf Htyped Hnull Hls.
  destruct Htyped as (T1 & T2 & T3).
  destruct (fo_write _ _ _ Hf ("currentState" :: sec) _ T1) as (cur & E1 & U1), (fo_write _ _ _ Hf ("nextState" :: sec) _ T2) as (nxt & E2 & U2),
    (fo_write _ _ _ Hf ("nodeState" :: sec) _ T3) as (node & E3 & U3).
  exists cur, nxt, node. split_and!; try done. unfold if_serialize in Hls. rewrite E1, E2, E3 in Hls. cbn [rbind] in Hls.
  rewrite (mapM_zip_seq _ chan_body) in Hls.
  - injection Hls as E. rewrite <- E. unfold states_lines, chans_lines. by rewrite <- !app_assoc.
  - intros k q Hq. cbn. unfold chan_serialize. rewrite cdc_serialize_lines; [done|]. by eapply Forall_lookup_1 in Hnull.
Qed.

(** The monitor's values and sections; none for a slave or without a network. *)
Definition mon_entries : list line :=
  match pl_monitor c, pl_role c with Some m, Master => tm_entries m (pl_version c) | _, _ => [] end.
Definition mon_sections : list line :=
  match pl_monitor c, pl_role c with Some m, Master => tm_sections sec m (pl_version c) | _, _ => [] end.
Lemma mon_split : monitor_lines c sec = mon_entries ++ mon_sections.
Proof using Type. unfold monitor_lines, mon_entries, mon_sections. by destruct (pl_monitor c), (pl_role c). Qed.
Lemma mon_entries_values : after_entries mon_entries = [].
Proof using Type. unfold mon_entries. destruct (pl_monitor c), (pl_role c); try done. apply tm_entries_values. Qed.
Lemma mon_blocks : blocks sec tm_name mon_sections.
Proof using Type. unfold mon_sections. destruct (pl_monitor c), (pl_role c); try apply blocks_nil. apply tm_sections_blocks. Qed.
Lemma mon_names n : n ∈ entry_names (if_head s) -> n ∉ entry_names mon_entries.
Proof using Type.
  intros Hn Hm. unfold mon_entries in Hm. destruct (pl_monitor c) as [m|], (pl_role c); try by apply not_elem_of_nil in Hm.
  unfold tm_entries, exportAxisWriteDataBuffer, exportAxisOutstandingWrites, exportAxiOutstandingTxns in Hm. cbn in Hn.
  rewrite !elem_of_cons, elem_of_nil in Hn.
  destruct (m !! pl_version c) as [[]|]; cbn in Hm; rewrite !elem_of_cons, elem_of_nil in Hm; by destruct_or!; subst.
Qed.
Lemma head_entries : after_entries (if_head s ++ mon_entries) = [].
Proof using Type. rewrite after_entries_app by done. apply mon_entries_values. Qed.

Lemma states_blocks cur nxt node : Forall (under ("currentState" :: sec)) cur -> Forall (under ("nextState" :: sec)) nxt ->
  Forall (under ("nodeState" :: sec)) node -> blocks sec (fun a => a ∈ ["currentState"; "nextState"; "nodeState"]) (states_lines cur nxt node).
Proof using Type. intros U1 U2 U3. repeat apply blocks_app; (apply blocks_scoped; [by repeat constructor|done]). Qed.
Lemma chans_blocks : blocks sec (fun a => exists k, a = chname k) chans_lines.
Proof using Type. apply blocks_indexed; [apply chan_bodies_ok|eauto]. Qed.

(** The scalars and the three states. *)
Lemma if_head_read n : cp !! (sec, n) = findEntry n (if_head s ++ mon_entries) None.
Proof using Hf Htyped Hnull Hls Hcp.
  destruct if_lines as (cur & nxt & node & _ & _ & _ & U1 & U2 & U3 & El). pose proof Hcp as Hag%written_agrees.
  rewrite El, mon_split, <- app_assoc, app_assoc in Hag. apply (blocks_entry _ _ (fun _ => True) _ _ n Hag); [apply head_entries|].
  apply blocks_app; [eapply blocks_weaken; [|apply mon_blocks]; done|].
  apply blocks_app; [eapply blocks_weaken; [|by apply states_blocks]; done|]. eapply blocks_weaken; [|apply chans_blocks]; done.
Qed.
Lemma if_states_read :
  sf_unserialize f cp ("currentState" :: sec) = Ok (restored (sn_current s)) /\ sf_unserialize f cp ("nextState" :: sec) = Ok (restored (sn_next s)) /\
  sf_unserialize f cp ("nodeState" :: sec) = Ok (restored (sn_node s)).
Proof using Hf Htyped Hnull Hls Hcp.
  clear Hsize. destruct if_lines as (cur & nxt & node & E1 & E2 & E3 & U1 & U2 & U3 & El). destruct Htyped as (T1 & T2 & T3).
  pose proof Hcp as Hag%written_agrees. rewrite El, mon_split in Hag. unfold states_lines in Hag. repeat rewrite <- app_assoc in Hag.
  rewrite app_assoc in Hag. pose proof head_entries as He. pose proof mon_blocks as Hm. pose proof chans_blocks as Hc.
  assert (forall a, a ∈ ["currentState"; "nextState"; "nodeState"] -> ~ tm_name a) as Htm by (intros a Ha; apply if_name_tm; by left).
  split; [|split].
  - eapply (fo_read _ _ _ Hf); [done|exact E1|].
    eapply (blocks_scoped_agrees _ _ tm_name (fun a => a ∈ ["nextState"; "nodeState"] \/ exists k, a = chname k)); [exact Hag|done|done|..].
    + repeat apply blocks_app; [apply blocks_scoped; [set_solver|done]..|]. eapply blocks_weaken; [|exact Hc]. by right.
    + apply Htm. set_solver.
    + intros [Ha|[k Hk]]; [set_solver|done].
  - eapply (fo_read _ _ _ Hf); [done|exact E2|].
    eapply (blocks_scoped_agrees _ _ (fun a => tm_name a \/ a = "currentState") (fun a => a ∈ ["nodeState"] \/ exists k, a = chname k) (if_head s ++ mon_entries)
      (mon_sections ++ scoped sec "currentState" (fun _ => cur)) "nextState" nxt (scoped sec "nodeState" (fun _ => node) ++ chans_lines));
      [rewrite <- (app_assoc mon_sections); exact Hag|done|..].
    + apply blocks_app; [eapply blocks_weaken; [|exact Hm]; by left|apply blocks_scoped; [by right|done]].
    + apply blocks_app; [apply blocks_scoped; [set_solver|done]|]. eapply blocks_weaken; [|exact Hc]. by right.
    + intros [Ha|Ha]; [|done]. revert Ha. apply Htm. set_solver.
    + intros [Ha|[k Hk]]; [set_solver|done].
  - eapply (fo_read _ _ _ Hf); [done|exact E3|].
    eapply (blocks_scoped_agrees _ _ (fun a => tm_name a \/ a ∈ ["currentState"; "nextState"]) (fun a => exists k, a = chname k) (if_head s ++ mon_entries)
      (mon_sections ++ scoped sec "currentState" (fun _ => cur) ++ scoped sec "nextState" (fun _ => nxt)) "nodeState" node chans_lines);
      [rewrite <- (app_assoc mon_sections), <- (app_assoc (scoped _ _ _)); exact Hag|done|..|done| |].
    + repeat apply blocks_app; [eapply blocks_weaken; [|exact Hm]; by left|apply blocks_scoped; [set_solver|done]..].
    + intros [Ha|Ha]; [|set_solver]. revert Ha. apply Htm. set_solver.
    + by intros [k Hk].
Qed.

(** The queue of a channel. *)
Lemma if_queue_written k q : sn_queues s !! k = Some q ->
  cdc_written cp ("cdc" :: chname k :: sec) q /\ holds cp (chname k :: sec) (chan_head (descs k)).
Proof using Hf Htyped Hnull Hls Hcp.
  intros Hk. destruct if_lines as (cur & nxt & node & _ & _ & _ & U1 & U2 & U3 & El). pose proof chan_bodies_ok as Hb.
  destruct (indexed_split sec chname 0 (imap chan_body (sn_queues s)) k (chan_body k q)) as (pre & post & E & H1 & H2 & H3).
  { apply chname_inj. } { done. } { by rewrite list_lookup_imap, Hk. }
  cbn [Nat.add] in *. assert (written cp (chname k :: sec) (chan_body k q)) as Hw.
  { eapply (written_sub cp sec (chname k) (if_head s ++ monitor_lines c sec ++ states_lines cur nxt node ++ pre) _ post); [|..|done|done].
    - pose proof Hcp as Hc. unfold chans_lines in El. rewrite El, E in Hc. repeat rewrite <- app_assoc in *. exact Hc.
    - rewrite mon_split, <- app_assoc, app_assoc. apply Forall_app_2; [apply entries_outside, head_entries|]. apply Forall_app_2; [|apply Forall_app_2].
      + apply (blocks_outside sec tm_name); [apply mon_blocks|]. apply if_name_tm. right. by exists k.
      + eapply (blocks_outside sec); [by apply states_blocks|]. rewrite !elem_of_cons, elem_of_nil. by intros [?|[?|[?|[]]]].
      + done. }
  split.
  - exists (queue_lines q ("cdc" :: chname k :: sec)). split; [by apply cdc_serialize_lines; eapply Forall_lookup_1 in Hnull|].
    eapply (written_sub cp (chname k :: sec) "cdc" (chan_head (descs k)) _ []); [by rewrite app_nil_r|by repeat constructor|done|done].
  - apply written_agrees in Hw. intros n v Hv. rewrite (agrees_entry _ _ _ n Hw); [exact Hv|]. cbn [chan_body chan_head paramOut app after_entries scoped].
    constructor; [apply sub_ne|]. eapply (under_not_header (chname k :: sec) "cdc"). apply Forall_app_2; [by repeat constructor|].
    apply indexed_under, cdc_bodies_ok.
Qed.

(** *** The monitor *)

Hypothesis Hmon : forall v, monitored c = Some v -> values_typed v.

Lemma monitor_agrees m : pl_role c = Master -> pl_monitor c = Some m -> exists rest,
  agrees cp sec (LSection sec :: if_head s ++ serializeEndpointCheckpoint sec m (pl_version c) ++ rest) /\ blocks sec if_name rest.
Proof using Hf Htyped Hnull Hls Hcp.
  intros Hr Hm. destruct if_lines as (cur & nxt & node & _ & _ & _ & U1 & U2 & U3 & El). pose proof Hcp as Hag%written_agrees.
  rewrite El in Hag. unfold monitor_lines in Hag. rewrite Hr, Hm in Hag. eexists. split; [exact Hag|]. apply blocks_app.
  - eapply blocks_weaken; [|by apply states_blocks]. by left.
  - eapply blocks_weaken; [|apply chans_blocks]. by right.
Qed.

(** Without values of the monitor nothing is stashed. *)
Lemma monitor_nothing stash : pl_role c = Master -> monitored c = None ->
  unserializeEndpointCheckpointStash cp sec (pl_version c) stash = Ok (delete (pl_version c) stash).
Proof using Hf Htyped Hnull Hls Hcp.
  intros Hr Hn. unfold monitored in Hn. rewrite Hr in Hn. destruct (pl_monitor c) as [m|] eqn:Hm.
  - destruct (monitor_agrees m Hr Hm) as (rest & Hag & Hb). by apply (stash_unregistered cp sec m _ (if_head s) rest if_name).
  - unfold unserializeEndpointCheckpointStash, optParamIn, paramInImpl, iniFind. rewrite !if_head_read. unfold mon_entries. by rewrite Hm.
Qed.
Lemma monitor_stashed stash v : monitored c = Some v -> reads_done v ->
  unserializeEndpointCheckpointStash cp sec (pl_version c) stash = Ok (<[pl_version c := deferred v]> (delete (pl_version c) stash)).
Proof using Hf Htyped Hnull Hls Hcp Hmon.
  intros Hv Hd. pose proof (Hmon v Hv) as Ht. unfold monitored in Hv. destruct (pl_role c) eqn:Hr; [|done].
  destruct (pl_monitor c) as [m|] eqn:Hm; [|done]. destruct (monitor_agrees m Hr Hm) as (rest & Hag & Hb). destruct v as [r w|w d b].
  - by apply (stash_axi cp sec m _ (if_head s) rest if_name Hag eq_refl Hb if_name_tm).
  - by apply (stash_axis cp sec m _ (if_head s) rest if_name Hag eq_refl Hb if_name_tm).
Qed.
(** An outstanding read cannot be read back. *)
Lemma monitor_lost stash v : monitored c = Some v -> ~ reads_done v ->
  is_ok (unserializeEndpointCheckpointStash cp sec (pl_version c) stash) = false.
Proof using Hf Htyped Hnull Hls Hcp Hmon.
  intros Hv Hd. pose proof (Hmon v Hv) as Ht. unfold monitored in Hv. destruct (pl_role c) eqn:Hr; [|done].
  destruct (pl_monitor c) as [m|] eqn:Hm; [|done]. destruct (monitor_agrees m Hr Hm) as (rest & Hag & Hb). destruct v as [r w|w d b]; [|by destruct Hd].
  by apply (stash_axi_lost cp sec m _ (if_head s) rest if_name Hag eq_refl Hb if_name_tm _ r w).
Qed.

Context (c' : ifPlace).
Hypothesis Hsame : same_place c c'.

Lemma monitor_read stash : (forall v, monitored c = Some v -> reads_done v) -> exists st,
  match pl_role c' with Master => unserializeEndpointCheckpointStash cp sec (pl_version c') stash | Slave => Ok stash end = Ok st /\
  match pl_role c', pl_monitor c' with
  | Master, Some m => let* (m, stash) := applyDeferredEndpointCheckpoint m st (pl_version c') in Ok (Some m, stash)
  | _, _ => Ok (pl_monitor c', st)
  end = Ok (monitor_restored c c', stash_restored c stash).
Proof using Hf Htyped Hnull Hls Hcp Hmon Hsame.
  intros Hd. destruct Hsame as (Er & Ev & Hm). rewrite Er, Ev. unfold monitor_restored, stash_restored.
  destruct (pl_role c) eqn:Hr; [|exists stash; unfold monitored; by rewrite Hr]. destruct (Hm eq_refl) as [Hn Hp].
  pose proof (monitor_stashed stash) as Hst. pose proof (monitor_nothing stash Hr) as Hno. pose proof Hmon as Ht.
  destruct (monitored c) as [v|].
  - exists (<[pl_version c := deferred v]> (delete (pl_version c) stash)). split; [by apply Hst; auto|].
    unfold monitored in Hp. rewrite Er, Ev in Hp. destruct (pl_monitor c') as [m'|]; [|done]. cbn in Hp.
    destruct (m' !! pl_version c) as [v'|] eqn:Hv'; [|done]. injection Hp as Hp.
    rewrite (apply_deferred m' v v'); auto. cbn. by rewrite delete_delete_eq.
  - exists (delete (pl_version c) stash). split; [by apply Hno|]. destruct (pl_monitor c') as [m'|]; [|done].
    unfold applyDeferredEndpointCheckpoint. by rewrite lookup_delete_eq.
Qed.

(** Reading the whole interface, up to its queues. *)
Lemma if_read (queues : list CDCQueue) stash : length queues = length (sn_queues s) -> (forall v, monitored c = Some v -> reads_done v) ->
  if_unserialize f c' stash queues cp sec =
    let* qs := mapM (fun p => cdc_unserialize cp ("cdc" :: chname p.1 :: sec)) (zip (seq 0 (length queues)) queues) in
    Ok (mk_ifSnapshot (sn_waiting_mem_retry s) (sn_mem_ctrl_waiting_retry s) (sn_is_blocking s) (restored (sn_current s)) (restored (sn_next s))
      (restored (sn_node s)) qs, monitor_restored c c', stash_restored c stash).
Proof using Hf Htyped Hnull Hsize Hls Hcp Hmon Hsame.
  intros Hl Hd. destruct if_states_read as (R1 & R2 & R3). destruct (monitor_read stash Hd) as (st & M1 & M2).
  assert (H : holds cp sec (if_head s)).
  { intros n v Hv. rewrite if_head_read, findEntry_app, Hv by done. apply findEntry_names in Hv. rewrite findEntry_absent; [done|]. revert Hv. apply mon_names. }
  unfold if_unserialize. do 3 cp_read H. rewrite M1. cbn [rbind]. rewrite R1, R2, R3. cbn [rbind]. cp_read H. rewrite M2.
  match goal with |- rbind (mapM ?g _) _ = rbind (mapM ?h _) _ => rewrite (mapM_ext_in g h) end; [by destruct (mapM _ _)|].
  intros [k q] [i Hi]%list_elem_of_lookup. apply lookup_zip_Some in Hi as [[-> Hi]%lookup_seq Hq]. cbn [fst snd Nat.add] in *.
  destruct (Z.ltb_spec (nz i) (nz (length (sn_queues s)))) as [_|Hge]; [|exfalso; clear -Hge Hi Hl; lia].
  destruct (lookup_lt_is_Some_2 (sn_queues s) i) as [q' Hq']; [lia|]. destruct (if_queue_written i q' Hq') as [_ Hh].
  unfold chan_unserialize. do 2 cp_read Hh. done.
Qed.
Lemma if_lost (queues : list CDCQueue) stash v : monitored c = Some v -> ~ reads_done v -> is_ok (if_unserialize f c' stash queues cp sec) = false.
Proof using Hf Htyped Hnull Hls Hcp Hmon Hsame.
  intros Hv Hd. destruct Hsame as (Er & Ev & _). pose proof (monitor_lost stash v Hv Hd) as Hs. unfold monitored in Hv. destruct (pl_role c) eqn:Hr; [|done].
  unfold if_unserialize. do 3 (destruct (paramIn _ _ _ _); [|done]; cbn [rbind]). rewrite Er, Ev. by destruct (unserializeEndpointCheckpointStash _ _ _ _).
Qed.
End Restore.

Definition queue_typed (q : CDCQueue) : Prop := Forall axis_entry_typed (fifo q) /\ int_range (maxSize q) /\ nz (length (fifo q)) < 2^31.
Definition mm_queue (q : CDCQueue) : Prop :=
  no_null q /\ int_range (maxSize q) /\ nz (length (fifo q)) < 2^31 /\ Forall (fun e => exists s, fe_data e = Some s /\ is_mm_state s) (fifo q).

#[local] Instance all_done_dec c : Decision (forall v, monitored c = Some v -> reads_done v).
Proof.
  destruct (monitored c) as [v|]; [|left; done].
  destruct (decide (reads_done v)) as [H|H]; [left; by intros ? [= <-]|right; intros Hv; by apply H, Hv].
Defined.

(** Queues that are all read back are empty. *)
Lemma mm_queues_read (secs : nat -> section) cp (qs queues : list CDCQueue) : Forall mm_queue qs -> length queues = length qs ->
  (forall k q, qs !! k = Some q -> cdc_written cp (secs k) q) ->
  is_ok (mapM (fun p => cdc_unserialize cp (secs p.1)) (zip (seq 0 (length queues)) queues)) = true -> Forall (fun q => fifo q = []) qs.
Proof.
  intros Hq Hl Hw H. apply Forall_lookup. intros k q Hk. destruct (fifo q) as [|e l] eqn:Ef; [done|exfalso].
  destruct (mapM _ _) as [r|] eqn:E; [|done]. destruct (lookup_lt_is_Some_2 queues k) as [q' Hk']; [rewrite Hl; by eapply lookup_lt_Some|].
  destruct (mapM_Ok_each _ _ _ (k, q') E) as [x Hx].
  { apply list_elem_of_lookup. exists k. apply lookup_zip_Some. split; [|done]. apply lookup_seq. split; [done|by eapply lookup_lt_Some]. }
  destruct (proj1 (Forall_lookup _ _) Hq _ _ Hk) as (Hnn & _ & Hlen & Hmm). destruct (proj1 (Forall_lookup _ _) Hmm 0%nat e) as (st & Hst & Hm); [by rewrite Ef|].
  assert (is_ok (cdc_unserialize cp (secs k)) = false) as Hf by (eapply (cdc_checkpoint_mm_lost _ _ q 0); [done|by rewrite Ef|done..|by apply Hw]).
  cbn in Hx. by rewrite Hx in Hf.
Qed.

(** C35: the checkpoint of an AXI-Stream interface, master or slave, brings it back: whatever else
    the checkpoint holds, and whatever the queues of the interface it is loaded into, the flags, the
    three signal states and every CDC queue are read as they were written, except for the fields the
    format leaves out (the debug identifiers, and TUSER above 8 bits).  For a master registered with
    the traffic monitor, the outstanding writes and the data bytes the monitor checks against are
    those that were saved, and nothing of the interface is left in the monitors' stash. *)
Theorem axis_if_restores descs c c' sec s ls cp queues stash :
  axis_state_typed (sn_current s) /\ axis_state_typed (sn_next s) /\ axis_state_typed (sn_node s) -> Forall queue_typed (sn_queues s) ->
  nz (length (sn_queues s)) < 2 ^ 64 -> length queues = length (sn_queues s) ->
  same_place c c' -> (forall v, monitored c = Some v -> values_typed v /\ is_axis v = true) ->
  if_serialize axis_format descs c sec s = Ok ls -> written cp sec ls ->
  if_unserialize axis_format c' stash queues cp sec =
    Ok (mk_ifSnapshot (sn_waiting_mem_retry s) (sn_mem_ctrl_waiting_retry s) (sn_is_blocking s) (state_restored (sn_current s))
          (state_restored (sn_next s)) (state_restored (sn_node s)) (cdc_restored <$> sn_queues s),
        monitor_restored c c', stash_restored c stash).
Proof.
  intros Ht Hq Hsz Hl Hpl Hm Hls Hcp. assert (Forall no_null (sn_queues s)) as Hn by (eapply Forall_impl; [exact Hq|intros q []; by apply axis_no_null]).
  erewrite if_read; [|apply axis_format_ok|done..|intros v Hv; by apply Hm|done|done|intros v Hv; destruct (Hm v Hv), v; done].
  rewrite (mapM_zip_seq _ (fun k _ => cdc_restored (default (mk_CDCQueue 0 []) (sn_queues s !! k)))).
  - cbn [rbind]. do 4 f_equal. apply list_eq. intros k. rewrite list_lookup_imap, list_lookup_fmap.
    destruct (sn_queues s !! k) as [q|] eqn:E.
    + destruct (lookup_lt_is_Some_2 queues k) as [q' ->]; [rewrite Hl; by eapply lookup_lt_Some|done].
    + by rewrite lookup_ge_None_2 by (rewrite Hl; by apply lookup_ge_None_1).
  - intros k q' Hk. cbn. apply lookup_lt_Some in Hk. destruct (lookup_lt_is_Some_2 (sn_queues s) k) as [q E]; [lia|]. rewrite E. cbn.
    destruct (proj1 (Forall_lookup _ _) Hq _ _ E) as (? & ? & ?). apply cdc_checkpoint_axis; try done.
    eapply if_queue_written; try done. apply axis_format_ok.
Qed.

(** C37: an AXI memory-mapped interface can be loaded from its checkpoint exactly when all its CDC
    queues were empty when it was saved and, for a master the traffic monitor watches, no read was
    outstanding.  The signal states are read back, but a queued state is written in sections of its
    own, where the reader does not look; and the number of outstanding writes of an ID follows the
    sections of its reads, so that it is found in the last of them only. *)
Theorem mm_if_restores_iff_idle descs c c' sec s ls cp queues stash :
  mm_state_typed (sn_current s) /\ mm_state_typed (sn_next s) /\ mm_state_typed (sn_node s) -> Forall mm_queue (sn_queues s) ->
  nz (length (sn_queues s)) < 2 ^ 64 -> length queues = length (sn_queues s) ->
  same_place c c' -> (forall v, monitored c = Some v -> values_typed v) ->
  if_serialize mm_format descs c sec s = Ok ls -> written cp sec ls ->
  is_ok (if_unserialize mm_format c' stash queues cp sec) = true <->
    Forall (fun q => fifo q = []) (sn_queues s) /\ (forall v, monitored c = Some v -> reads_done v).
Proof.
  intros Ht Hq Hsz Hl Hpl Hm Hls Hcp. assert (Forall no_null (sn_queues s)) as Hn by (eapply Forall_impl; [exact Hq|by intros q []]).
  destruct (decide (forall v, monitored c = Some v -> reads_done v)) as [Hd|Hd]; cycle 1.
  { destruct (monitored c) as [v|] eqn:Hv; [|by destruct Hd].
    assert (~ reads_done v) as Hr by (intros H; apply Hd; by intros ? [= <-]).
    erewrite (if_lost mm_format _ _ descs mm_format_ok c sec s ls cp) by (done || (by rewrite Hv)). split; [done|]. intros [_ H]. by destruct Hr; apply H. }
  erewrite (if_read mm_format _ _ descs mm_format_ok c sec s ls cp) by done. split.
  - intros H. split; [|done]. apply (mm_queues_read (fun k => "cdc" :: chname k :: sec) cp _ queues); try done; [|by destruct (mapM _ _)].
    intros k q Hk. eapply if_queue_written; try done. apply mm_format_ok.
  - intros [H _]. rewrite (mapM_zip_seq _ (fun k _ => cdc_restored (default (mk_CDCQueue 0 []) (sn_queues s !! k)))); [done|].
    intros k q' Hk. cbn. apply lookup_lt_Some in Hk. destruct (lookup_lt_is_Some_2 (sn_queues s) k) as [q E]; [lia|]. rewrite E. cbn.
    destruct (proj1 (Forall_lookup _ _) Hq _ _ E) as (? & ? & ? & _). pose proof (proj1 (Forall_lookup _ _) H _ _ E) as Hq0. cbn in Hq0.
    apply cdc_checkpoint_axis; [rewrite Hq0; constructor|done..|]. eapply if_queue_written; try done. apply mm_format_ok.
Qed.

(** ** Instances *)

Definition ex_descs (i : nat) : chanDesc := mk_chanDesc "T" 0 (nz i).
Definition ex_slave_state : State := new_State (SAxisSlave true).
Definition ex_axis_if : ifSnapshot := mk_ifSnapshot false true false ex_axis_state ex_axis_state ex_slave_state [ex_queue ex_axis_state].
Definition ex_mm_slave : State := new_State (SAximmSlave (mk_aximmSlaveState true aximmRWData_default true false (mk_aximmWResp 3 OKAY 0 false))).
Definition ex_mm_queue : CDCQueue := (enqueue (newCDCQueue 4) (Some ex_mm_state) 10).2.
Definition ex_mm_if (qs : list CDCQueue) : ifSnapshot := mk_ifSnapshot false false true ex_mm_state ex_mm_slave ex_mm_slave qs.

(** A master whose monitor entry is [v], and the place it is loaded into. *)
Definition ex_place (v : MonitorValues) : ifPlace := mk_ifPlace Master 7 (Some {[7 := v]}).
Definition ex_txn : TransactionInfo := mk_TransactionInfo 1000 64 3.
Definition ex_axis_values : MonitorValues := AXISMonitorValues [[]; [ex_txn; ex_txn]] [(3, [1; 2]); (5, [])] [].
Definition ex_axi_values (reads : list TransactionInfo) : MonitorValues := AXIMonitorValues [[]; reads; []; []] [[ex_txn]; []; []; []].
Definition ex_axis_new : MonitorValues := AXISMonitorValues [] [] [].
Definition ex_axi_new : MonitorValues := AXIMonitorValues [[]; []; []; []] [[]; []; []; []].
Lemma ex_monitored v : monitored (ex_place v) = Some v.
Proof. unfold monitored. cbn. apply lookup_singleton_eq. Qed.
Lemma ex_same v v' : is_axis v' = is_axis v -> same_place (ex_place v) (ex_place v').
Proof. intros H. split_and!; [done|done|]. intros _. split; [done|]. rewrite !ex_monitored. exact (f_equal Some H). Qed.

(** A checkpoint with the interface between two other sections. *)
Definition ex_if_lines (f : stateFormat) (c : ifPlace) (s : ifSnapshot) : list line := match if_serialize f ex_descs c ["nif"; "noc"] s with Ok ls => ls | Err _ => [] end.
Definition ex_if_cp (f : stateFormat) (c : ifPlace) (s : ifSnapshot) : checkpoint :=
  iniLoad ([LSection ["noc"]; LEntry "ticks" (VNum 5)] ++ (LSection ["nif"; "noc"] :: ex_if_lines f c s) ++ [LSection ["root"]; LEntry "tick" (VNum 5)]).
Lemma ex_if_written f c s : written (ex_if_cp f c s) ["nif"; "noc"] (ex_if_lines f c s).
Proof.
  eexists _, _. split_and!; [reflexivity|..|done].
  - constructor; [|by repeat constructor]. intros [l E]. apply (f_equal length) in E. rewrite length_app in E. cbn in E. lia.
  - constructor; [|by repeat constructor]. intros [l E]. apply (f_equal length) in E. rewrite length_app in E. cbn in E. lia.
Qed.

Lemma axis_if_restores_witness :
  if_unserialize axis_format (ex_place ex_axis_new) ∅ [newCDCQueue 4] (ex_if_cp axis_format (ex_place ex_axis_values) ex_axis_if) ["nif"; "noc"] =
    Ok (mk_ifSnapshot false true false (state_restored ex_axis_state) (state_restored ex_axis_state) (state_restored ex_slave_state)
          [cdc_restored (ex_queue ex_axis_state)], Some {[7 := ex_axis_values]}, ∅).
Proof.
  rewrite (axis_if_restores ex_descs (ex_place ex_axis_values) (ex_place ex_axis_new) ["nif"; "noc"] ex_axis_if
    (ex_if_lines axis_format (ex_place ex_axis_values) ex_axis_if)); [by vm_compute|..|apply ex_if_written].
  - split_and!; [repeat constructor; by vm_compute..|done].
  - constructor; [|constructor]. split_and!; [|done..].
    repeat constructor; try (by vm_compute); try done; try (eexists; split; [reflexivity|]; repeat constructor; by vm_compute).
  - done.
  - done.
  - by apply ex_same.
  - intros v. rewrite ex_monitored. intros [= <-]. split; [|done]. cbn. unfold txns_typed, txn_typed, buffers_typed, bytes_typed. cbn.
    split_and!; repeat constructor; cbn; lia.
  - vm_compute. reflexivity.
Defined.

(** With an outstanding read the interface of a master cannot be loaded. *)
Lemma mm_if_restores_iff_idle_witness :
  is_ok (if_unserialize mm_format (ex_place ex_axi_new) ∅ [newCDCQueue 4; newCDCQueue 4]
    (ex_if_cp mm_format (ex_place (ex_axi_values [ex_txn])) (ex_mm_if [newCDCQueue 4; newCDCQueue 4])) ["nif"; "noc"]) = true <->
  Forall (fun q => fifo q = []) [newCDCQueue 4; newCDCQueue 4] /\
  (forall v, monitored (ex_place (ex_axi_values [ex_txn])) = Some v -> reads_done v).
Proof.
  apply (mm_if_restores_iff_idle ex_descs (ex_place (ex_axi_values [ex_txn])) (ex_place ex_axi_new) ["nif"; "noc"] (ex_mm_if [newCDCQueue 4; newCDCQueue 4])
           (ex_if_lines mm_format (ex_place (ex_axi_values [ex_txn])) (ex_mm_if [newCDCQueue 4; newCDCQueue 4]))); [..|apply ex_if_written].
  - split_and!; repeat constructor; by vm_compute.
  - repeat constructor; by vm_compute.
  - done.
  - done.
  - by apply ex_same.
  - intros v. rewrite ex_monitored. intros [= <-]. cbn. unfold txns_typed, txn_typed. cbn. split_and!; repeat constructor; cbn; lia.
  - vm_compute. reflexivity.
Defined.
(** The same with a queued request, and without either. *)
Example mm_if_queued_lost :
  is_ok (if_unserialize mm_format (ex_place ex_axi_new) ∅ [newCDCQueue 4]
    (ex_if_cp mm_format (ex_place (ex_axi_values [])) (ex_mm_if [ex_mm_queue])) ["nif"; "noc"]) = false.
Proof. vm_compute. reflexivity. Qed.
Example mm_if_idle_loaded :
  rmap (fun x => x.1.2) (if_unserialize mm_format (ex_place ex_axi_new) ∅ [newCDCQueue 4]
    (ex_if_cp mm_format (ex_place (ex_axi_values [])) (ex_mm_if [newCDCQueue 4])) ["nif"; "noc"]) = Ok (Some {[7 := ex_axi_values []]}).
Proof. vm_compute. reflexivity. Qed.
