(* ===== verification/HbmTile.v ===== *)
(** * The HBM endpoint

    [tileNSU_HBM] of [src/src/noc/endpoints/memory/hbm/tileNSU_HBM.cc]: an AXI-MM slave in front
    of a memory controller.  Requests become packets for the port to the memory, sent in order
    when the shared arbiter grants it and the bank is free; answers come back in any order and
    are handed to the master in order per AXI ID.

    The members are grouped in three records: what belongs to reads, to writes, and to the port.
    Arbiters and schedulers are shared between endpoints, in registries.  The memory is outside:
    whether it takes a packet is an argument.  Trace and statistics files are left out. *)

From S2P Require Import Prelude AxiTypes Checkpoint AxiCheckpoint CdcQueue AxisHandler NocNodes Bram HbmArbiter.

Inductive MemCmdType := CmdRead | CmdWrite.
Record MemCmd := mk_MemCmd { mc_type : MemCmdType; mc_hbm : Z; mc_addr : aximmRWAddr; mc_writeData : list Z; mc_eligibleTick : Z }.
Record ScheduledMemResp := mk_ScheduledMemResp {
  sr_readyTick : Z; sr_isRead : bool; sr_axiId : Z; sr_hbmId : Z; sr_size : Z; sr_len : Z; sr_data : list Z
}.
(** A packet to the memory, with its [AxiSenderState]. *)
Record hbmPkt := mk_hbmPkt {
  pk_addr : Z; pk_bytes : Z; pk_isRead : bool; pk_data : list Z; pk_axi : Z; pk_hbm : Z; pk_size : Z; pk_len : Z
}.

Record BankState := mk_BankState { bk_rowValid : bool; bk_openRow : Z; bk_readyTick : Z }.
Record PseudoChannelState := mk_PseudoChannelState { pc_banks : list BankState; pc_nextCmdTick : Z }.
Record schedKnobs := mk_schedKnobs {
  banksPerPseudoChannel : Z;     (* at least 1 *)
  rowHitLatencyCycles : Z;
  rowMissLatencyCycles : Z;
  bankBusyCycles : Z;
  cmdBusCycles : Z;
  closePage : bool
}.
#[export] Instance schedKnobs_eq_dec : EqDecision schedKnobs. Proof. solve_decision. Defined.
Record ControllerSchedulerState := mk_ControllerSchedulerState { cs_knobs : schedKnobs; cs_pseudoChannels : list PseudoChannelState }.

Record hbmTileCfg := mk_hbmTileCfg {
  hbmControllerId : Z;
  hbmPseudoChannelId : Z;
  hbmPseudoChannelBaseAddr : Z;
  hbmPseudoChannelSize : Z;
  readLatencyCycles : Z;
  writeLatencyCycles : Z;
  respLatencyCycles : Z;
  portQueueDepth : Z;
  maxOutstandingReads : Z;
  maxOutstandingWrites : Z;
  ht_banks : Z;                  (* the parameter [banks_per_pseudo_channel] *)
  ht_knobs : schedKnobs;         (* the other scheduler parameters *)
  ht_arbiter : hbmCfg;           (* the arbiter parameters *)
  ht_clockDomains : list Z
}.

Record readSide := mk_readSide {
  readResponses : gmap Z (gmap Z (list aximmRWData));
  inOrderReadResp_Queue : gmap Z (list Z);
  axi_pack_read_id : Z;
  outstandingReadCmds : Z;
  activeReadRespAxiId : Z;
  activeReadRespHbmId : Z;
  lastReadRespAxiId : Z
}.
Record writeSide := mk_writeSide {
  ws_requests : gmap Z (aximmRWAddr * list aximmRWData);     (* writeRequests *)
  pendingWriteDataIds : list Z;
  ws_responses : gmap Z (gmap Z aximmWResp);                 (* writeResponses *)
  inOrderWriteResp_Queue : gmap Z (list Z);
  axi_pack_write_id : Z;
  outstandingWriteCmds : Z;
  lastWriteRespAxiId : Z
}.
Record portSide := mk_portSide {
  blockedOnRetry : bool;
  needToRetry : bool;
  retry_pkt : option hbmPkt;
  pendingCmds : list MemCmd;
  scheduledResponses : list ScheduledMemResp
}.
Record hbmTile := mk_hbmTile {
  ht_current : aximmSlaveState;
  ht_next : aximmSlaveState;
  ht_in : aximmMasterState;      (* tileControllerState *)
  ht_r : readSide;
  ht_w : writeSide;
  ht_p : portSide
}.

(** The registries; the second part of an entry is shared by the endpoints of its key. *)
Record hbmShared := mk_hbmShared {
  arbiterRegistry : gmap (Z * Z) (hbmCfg * HBMArbiter);
  schedulerRegistry : gmap Z ControllerSchedulerState
}.

(** [m[k]] of a map of queues. *)
Definition queue_at (m : gmap Z (list Z)) (k : Z) : list Z := default [] (m !! k).

Section HbmTile.
Context (c : hbmTileCfg).

Definition cyclesToTicks (cycles : Z) : Z :=
  let mhz := Z.max 1 (match ht_clockDomains c with d :: _ => d | [] => 0 end) in u64 (cycles * (1000000 / mhz)).
Definition bytesForAxiRequest (a : aximmRWAddr) : Z := (ra_len a + 1) * u32 (Z.shiftl 1 (ra_size a)).
Definition hbmTransferUnits (a : aximmRWAddr) : Z := Z.max 1 ((bytesForAxiRequest a + 32 - 1) / 32).

(** ** Banks *)

Definition relativePseudoChannelAddr (addr : Z) : Z :=
  let base := hbmPseudoChannelBaseAddr c in
  if negb (hbmPseudoChannelSize c =? 0) && (base <=? addr) && (addr - base <? hbmPseudoChannelSize c) then addr - base else addr.
Definition bankCount : Z := Z.max 1 (ht_banks c).
Definition decodeBankIndex (a : aximmRWAddr) : Z :=
  u32 (u64 (relativePseudoChannelAddr (ra_addr a) / 32 + hbmTransferUnits a - 1) mod bankCount).
Definition decodeRowIndex (a : aximmRWAddr) : Z := relativePseudoChannelAddr (ra_addr a) / 32 / bankCount.

Definition schedulerPseudoChannelState (sh : hbmShared) : res (schedKnobs * PseudoChannelState) :=
  let* s := of_opt (FPanic "HBM controller scheduler state was not registered") (schedulerRegistry sh !! hbmControllerId c) in
  let* pc := of_opt (FPanic "HBM controller is missing scheduler state for pseudo channel") (cs_pseudoChannels s !! zn (hbmPseudoChannelId c)) in
  Ok (cs_knobs s, pc).
Definition schedulerDelayFor (sh : hbmShared) (cmd : MemCmd) : res Z :=
  let* (k, pc) := schedulerPseudoChannelState sh in
  let* bank := of_opt (FUndef "vector index out of range") (pc_banks pc !! zn (decodeBankIndex (mc_addr cmd))) in
  let rowHit := bk_rowValid bank && (bk_openRow bank =? decodeRowIndex (mc_addr cmd)) in
  let policyDelay := cyclesToTicks (if rowHit then rowHitLatencyCycles k else rowMissLatencyCycles k) in
  Ok (u64 (Z.max (mc_eligibleTick cmd) (Z.max (bk_readyTick bank) (pc_nextCmdTick pc)) + policyDelay)).
Definition schedulerCanIssue (sh : hbmShared) (cmd : MemCmd) (now : Z) : res bool :=
  let* t := schedulerDelayFor sh cmd in Ok (t <=? now).
Definition noteSchedulerIssued (sh : hbmShared) (cmd : MemCmd) (now : Z) : res hbmShared :=
  let* (k, pc) := schedulerPseudoChannelState sh in
  let i := zn (decodeBankIndex (mc_addr cmd)) in
  let* bank := of_opt (FUndef "vector index out of range") (pc_banks pc !! i) in
  let bank := mk_BankState (negb (closePage k)) (if closePage k then bk_openRow bank else decodeRowIndex (mc_addr cmd))
                (u64 (now + cyclesToTicks (bankBusyCycles k))) in
  let pc := mk_PseudoChannelState (<[i := bank]> (pc_banks pc)) (u64 (now + cyclesToTicks (cmdBusCycles k))) in
  Ok (mk_hbmShared (arbiterRegistry sh)
        (alter (fun s => mk_ControllerSchedulerState (cs_knobs s) (<[zn (hbmPseudoChannelId c) := pc]> (cs_pseudoChannels s)))
           (hbmControllerId c) (schedulerRegistry sh))).

(** ** Registration *)

Definition new_banks (n : Z) : PseudoChannelState := mk_PseudoChannelState (replicate (zn n) (mk_BankState false 0 0)) 0.
Definition own_knobs : schedKnobs :=
  mk_schedKnobs bankCount (rowHitLatencyCycles (ht_knobs c)) (rowMissLatencyCycles (ht_knobs c)) (bankBusyCycles (ht_knobs c))
    (cmdBusCycles (ht_knobs c)) (closePage (ht_knobs c)).
Definition registerScheduler (sh : hbmShared) : res hbmShared :=
  let s := default (mk_ControllerSchedulerState own_knobs []) (schedulerRegistry sh !! hbmControllerId c) in
  guard (bool_decide (cs_knobs s = own_knobs)) (FPanic "HBM controller scheduler was created with different scheduler knobs") (
  let pcs := cs_pseudoChannels s ++ replicate (S (zn (hbmPseudoChannelId c)) - length (cs_pseudoChannels s)) (mk_PseudoChannelState [] 0) in
  let* pc := of_opt (FUndef "vector index out of range") (pcs !! zn (hbmPseudoChannelId c)) in
  guard (match pc_banks pc with [] => true | l => nz (length l) =? banksPerPseudoChannel (cs_knobs s) end)
    (FPanic "HBM controller scheduler has inconsistent bank-state sizing") (
  let pc := match pc_banks pc with [] => mk_PseudoChannelState (pc_banks (new_banks bankCount)) (pc_nextCmdTick pc) | _ => pc end in
  Ok (mk_hbmShared (arbiterRegistry sh)
        (<[hbmControllerId c := mk_ControllerSchedulerState (cs_knobs s) (<[zn (hbmPseudoChannelId c) := pc]> pcs)]> (schedulerRegistry sh))))).
Definition arbiterKey : Z * Z := (hbmControllerId c, hbmPseudoChannelId c).
Definition same_timing (a b : hbmCfg) : bool :=
  (issueIntervalCycles a =? issueIntervalCycles b) && (sharedBwMBps a =? sharedBwMBps b) && (nmuBwMBps a =? nmuBwMBps b).
(** The endpoint has number [e]. *)
Definition registerWithArbiter (e : nat) (sh : hbmShared) : res hbmShared :=
  let '(k, a) := default (ht_arbiter c, HBMArbiter_init) (arbiterRegistry sh !! arbiterKey) in
  guard (same_timing k (ht_arbiter c)) (FPanic "HBM controller arbiter was created with different timing knobs") (
  Ok (mk_hbmShared (<[arbiterKey := (k, addEndpoint e a)]> (arbiterRegistry sh)) (schedulerRegistry sh))).

(** The constructor. *)
Definition hbmTile_init : hbmTile :=
  let no_r := aximmRWData_default in let no_b := mk_aximmWResp 0 OKAY 0 false in
  mk_hbmTile (mk_aximmSlaveState false no_r false false no_b) (mk_aximmSlaveState true no_r true true no_b) aximmMasterState_default
    (mk_readSide ∅ ∅ 0 0 (-1) (-1) (-1)) (mk_writeSide ∅ [] ∅ ∅ 0 0 (-1)) (mk_portSide false false None [] []).
Definition hbmTile_new (e : nat) (sh : hbmShared) : res (hbmTile * hbmShared) :=
  let* sh := registerScheduler sh in
  let* sh := registerWithArbiter e sh in
  Ok (hbmTile_init, sh).

(** ** Room *)

Definition queued (t : hbmTile) : Z := nz (length (pendingCmds (ht_p t))) + nz (size (ws_requests (ht_w t))).
Definition canAcceptRead (t : hbmTile) : bool := (queued t <? portQueueDepth c) && (outstandingReadCmds (ht_r t) <? maxOutstandingReads c).
Definition canAcceptWriteAddr (t : hbmTile) : bool := (queued t <? portQueueDepth c) && (outstandingWriteCmds (ht_w t) <? maxOutstandingWrites c).
Definition canAcceptWriteData (w : writeSide) : bool :=
  match pendingWriteDataIds w with
  | [] => false
  | k :: _ => match ws_requests w !! k with
              | Some (a, beats) => nz (length beats) <? ra_len a + 1
              | None => false
              end
  end.
Definition frontCommandReady (p : portSide) (now : Z) : bool :=
  match pendingCmds p with cmd :: _ => mc_eligibleTick cmd <=? now | [] => false end.
Definition arbiterWantsIssue (sh : hbmShared) (p : portSide) (now : Z) : res bool :=
  match pendingCmds p with
  | cmd :: _ => if frontCommandReady p now && negb (blockedOnRetry p) then schedulerCanIssue sh cmd now else Ok false
  | [] => Ok false
  end.

(** ** Answers of the memory *)

(** Beat [b] of a completed read: [memcpy] of its bytes into a zeroed payload. *)
Definition readBeat (r : ScheduledMemResp) (b : nat) : res aximmRWData :=
  let beat_bytes := Z.shiftl 1 (sr_size r) in
  guard ((beat_bytes <=? 64) && ((nz b + 1) * beat_bytes <=? nz (length (sr_data r)))) (FUndef "memcpy out of range") (
  Ok (mk_aximmRWData READ (sr_axiId r) OKAY (nz b =? sr_len r) 0 true false
        (copy_into (zeros 64) 0 (slice (sr_data r) (b * zn beat_bytes) (zn beat_bytes))) TKEEP_ALL)).
Definition set_readResponses (m : gmap Z (gmap Z (list aximmRWData))) (r : readSide) : readSide :=
  mk_readSide m (inOrderReadResp_Queue r) (axi_pack_read_id r) (outstandingReadCmds r) (activeReadRespAxiId r) (activeReadRespHbmId r) (lastReadRespAxiId r).
Definition enqueueCompletedRead (resp : ScheduledMemResp) (r : readSide) : res readSide :=
  let* beats := mapM (readBeat resp) (seq 0 (zn (sr_len resp + 1))) in
  let id := s32 (sr_axiId resp) in let k := s32 (sr_hbmId resp) in
  let m := default ∅ (readResponses r !! id) in
  Ok (set_readResponses (<[id := <[k := default [] (m !! k) ++ beats]> m]> (readResponses r)) r).
Definition set_writeResponses (m : gmap Z (gmap Z aximmWResp)) (w : writeSide) : writeSide :=
  mk_writeSide (ws_requests w) (pendingWriteDataIds w) m (inOrderWriteResp_Queue w) (axi_pack_write_id w) (outstandingWriteCmds w) (lastWriteRespAxiId w).
Definition enqueueCompletedWrite (resp : ScheduledMemResp) (w : writeSide) : writeSide :=
  let id := s32 (sr_axiId resp) in
  set_writeResponses (<[id := <[s32 (sr_hbmId resp) := mk_aximmWResp (sr_axiId resp) OKAY 0 true]> (default ∅ (ws_responses w !! id))]> (ws_responses w)) w.

Fixpoint serviceScheduledResponses (now : Z) (l : list ScheduledMemResp) (r : readSide) (w : writeSide) : res (list ScheduledMemResp * readSide * writeSide) :=
  match l with
  | [] => Ok ([], r, w)
  | resp :: rest =>
      if sr_readyTick resp <=? now then
        if sr_isRead resp then let* r := enqueueCompletedRead resp r in serviceScheduledResponses now rest r w
        else serviceScheduledResponses now rest r (enqueueCompletedWrite resp w)
      else Ok (l, r, w)
  end.

(** ** Selecting responses *)

(** The lowest ID above [last] in the sorted list [ids], else the lowest. *)
Definition select_after (last : Z) (ids : list Z) : option Z :=
  match filter (fun x => last < x) ids with x :: _ => Some x | [] => head ids end.
Definition sorted_ids {V} (ready : Z -> V -> bool) (m : gmap Z V) : list Z :=
  merge_sort Z.le (filter (fun kv : Z * V => ready kv.1 kv.2) (map_to_list m)).*1.

Definition set_active (a h : Z) (r : readSide) : readSide :=
  mk_readSide (readResponses r) (inOrderReadResp_Queue r) (axi_pack_read_id r) (outstandingReadCmds r) a h (lastReadRespAxiId r).
(** [readResponses[a][h]], where it is there. *)
Definition beats_at (r : readSide) (a h : Z) : option (list aximmRWData) := readResponses r !! a ≫= (.!! h).
Definition clearActiveReadResponseIfDone (r : readSide) : readSide :=
  if (activeReadRespAxiId r <? 0) || (activeReadRespHbmId r <? 0) then r
  else match beats_at r (activeReadRespAxiId r) (activeReadRespHbmId r) with
       | Some (_ :: _) => r
       | _ => set_active (-1) (-1) r
       end.

Definition active_beat (r : readSide) : option aximmRWData :=
  let a := activeReadRespAxiId r in let h := activeReadRespHbmId r in
  if (0 <=? a) && (0 <=? h) then
    match beats_at r a h, queue_at (inOrderReadResp_Queue r) a with
    | Some (p :: _), k :: _ => if k =? h then Some p else None
    | _, _ => None
    end
  else None.
Definition read_ready (r : readSide) (id : Z) (m : gmap Z (list aximmRWData)) : bool :=
  match queue_at (inOrderReadResp_Queue r) id with
  | k :: _ => match m !! k with Some (_ :: _) => true | _ => false end
  | [] => false
  end.
Definition getNextAxiResponse (r : readSide) : aximmRWData * readSide :=
  let r := clearActiveReadResponseIfDone r in
  match active_beat r with
  | Some p => (p, r)
  | None =>
      match select_after (lastReadRespAxiId r) (sorted_ids (read_ready r) (readResponses r)) with
      | Some id =>
          let k := default 0 (head (queue_at (inOrderReadResp_Queue r) id)) in
          (default aximmRWData_default (head (default [] (beats_at r id k))),
           mk_readSide (readResponses r) (inOrderReadResp_Queue r) (axi_pack_read_id r) (outstandingReadCmds r) id k id)
      | None => (aximmRWData_default, r)
      end
  end.

Definition write_ready (w : writeSide) (id : Z) (m : gmap Z aximmWResp) : bool :=
  match queue_at (inOrderWriteResp_Queue w) id with k :: _ => bool_decide (is_Some (m !! k)) | [] => false end.
Definition getNextWriteResponse (w : writeSide) : aximmWResp * writeSide :=
  match select_after (lastWriteRespAxiId w) (sorted_ids (write_ready w) (ws_responses w)) with
  | Some id =>
      let k := default 0 (head (queue_at (inOrderWriteResp_Queue w) id)) in
      (default aximmWResp_default (ws_responses w !! id ≫= (.!! k)),
       mk_writeSide (ws_requests w) (pendingWriteDataIds w) (ws_responses w) (inOrderWriteResp_Queue w) (axi_pack_write_id w) (outstandingWriteCmds w) id)
  | None => (mk_aximmWResp 0 OKAY 0 false, w)
  end.

(** ** The port to the memory *)

(** The packet of a command.  A write copies as many bytes as its address request announces. *)
Definition cmdPkt (cmd : MemCmd) : res hbmPkt :=
  let a := mc_addr cmd in
  let total := (ra_len a + 1) * Z.shiftl 1 (ra_size a) in
  match mc_type cmd with
  | CmdRead => Ok (mk_hbmPkt (ra_addr a) total true [] (ra_id a) (u32 (mc_hbm cmd)) (ra_size a) (ra_len a))
  | CmdWrite => guard (total <=? nz (length (mc_writeData cmd))) (FUndef "memcpy out of range") (
                Ok (mk_hbmPkt (ra_addr a) total false (take (zn total) (mc_writeData cmd)) (ra_id a) (u32 (mc_hbm cmd)) (ra_size a) (ra_len a)))
  end.
(** [send_port_ptr], or the second try; [send] says whether the memory takes the packet. *)
Definition send_front (send : bool) (p : portSide) : res (portSide * list hbmPkt) :=
  if needToRetry p then
    let* pkt := of_opt (FUndef "null packet") (retry_pkt p) in
    Ok (if send then (mk_portSide false false None (tail (pendingCmds p)) (scheduledResponses p), [pkt])
        else (mk_portSide true true (retry_pkt p) (pendingCmds p) (scheduledResponses p), []))
  else
    let* cmd := of_opt (FUndef "front of an empty queue") (head (pendingCmds p)) in
    let* pkt := cmdPkt cmd in
    Ok (if send then (mk_portSide (blockedOnRetry p) false (retry_pkt p) (tail (pendingCmds p)) (scheduledResponses p), [pkt])
        else (mk_portSide true true (Some pkt) (pendingCmds p) (scheduledResponses p), [])).

(** The part of [updateTileNSU] that issues a command; [others] are the endpoints that want to. *)
Definition issueCommand (e : nat) (others : nat -> bool) (now : Z) (send : bool) (sh : hbmShared) (p : portSide)
    : res (portSide * hbmShared * list hbmPkt) :=
  let* own := arbiterWantsIssue sh p now in
  let* (k, a) := of_opt (FUndef "no arbiter") (arbiterRegistry sh !! arbiterKey) in
  if grantFor (fun i => if decide (i = e) then own else others i) a e now && frontCommandReady p now then
    match pendingCmds p with
    | [] => Ok (p, sh, [])
    | cmd :: _ =>
        let* (p, sent) := send_front send p in
        if send then
          let* sh := noteSchedulerIssued sh cmd now in
          Ok (p, mk_hbmShared (<[arbiterKey := (k, noteIssued k e now (cyclesToTicks 1) (bytesForAxiRequest (mc_addr cmd)) a)]> (arbiterRegistry sh))
                   (schedulerRegistry sh), sent)
        else Ok (p, sh, sent)
    end
  else Ok (p, sh, []).

(** [NoC_SidePort::recvTimingResp]; [data] are the bytes of the packet. *)
Definition recvTimingResp (now : Z) (pkt : hbmPkt) (data : list Z) (p : portSide) : res portSide :=
  guard (negb (pk_isRead pkt) || ((pk_len pkt + 1) * Z.shiftl 1 (pk_size pkt) <=? nz (length data))) (FUndef "memcpy out of range") (
  let bytes := if pk_isRead pkt then take (zn ((pk_len pkt + 1) * Z.shiftl 1 (pk_size pkt))) data else [] in
  Ok (mk_portSide (blockedOnRetry p) (needToRetry p) (retry_pkt p) (pendingCmds p)
        (scheduledResponses p ++
           [mk_ScheduledMemResp (u64 (now + cyclesToTicks (respLatencyCycles c))) (pk_isRead pkt) (pk_axi pkt) (pk_hbm pkt) (pk_size pkt) (pk_len pkt) bytes]))).
(** [NoC_SidePort::recvReqRetry] *)
Definition recvReqRetry (p : portSide) : portSide := mk_portSide false (needToRetry p) (retry_pkt p) (pendingCmds p) (scheduledResponses p).

(** ** A cycle *)

Definition count_down (n : Z) : Z := if 0 <? n then n - 1 else n.
Definition pop_read (id : Z) (r : readSide) : res readSide :=
  match queue_at (inOrderReadResp_Queue r) id with
  | [] => Err (FUndef "front of an empty queue")
  | k :: q =>
      let m := default ∅ (readResponses r !! id) in
      match default [] (m !! k) with
      | [] => Err (FUndef "pop_front of an empty queue")
      | [_] => Ok (mk_readSide (<[id := delete k m]> (readResponses r)) (<[id := q]> (inOrderReadResp_Queue r)) (axi_pack_read_id r)
                     (count_down (outstandingReadCmds r)) (activeReadRespAxiId r) (activeReadRespHbmId r) (lastReadRespAxiId r))
      | _ :: rest => Ok (set_readResponses (<[id := <[k := rest]> m]> (readResponses r)) r)
      end
  end.
(** The read response for the next cycle. *)
Definition next_read (rReady : bool) (cur : aximmRWData) (r : readSide) : res (aximmRWData * readSide) :=
  if rReady && rd_valid cur then
    let* r := pop_read (s32 (rd_id cur)) r in
    Ok (getNextAxiResponse (clearActiveReadResponseIfDone r))
  else if negb (rd_valid cur) then Ok (getNextAxiResponse r) else Ok (cur, r).

Definition pop_write (id : Z) (w : writeSide) : res writeSide :=
  match queue_at (inOrderWriteResp_Queue w) id with
  | [] => Err (FUndef "front of an empty queue")
  | k :: q => Ok (mk_writeSide (ws_requests w) (pendingWriteDataIds w) (<[id := delete k (default ∅ (ws_responses w !! id))]> (ws_responses w))
                    (<[id := q]> (inOrderWriteResp_Queue w)) (axi_pack_write_id w) (count_down (outstandingWriteCmds w)) (lastWriteRespAxiId w))
  end.
Definition next_write (bReady : bool) (cur : aximmWResp) (w : writeSide) : res (aximmWResp * writeSide) :=
  if bReady && wr_valid cur then let* w := pop_write (s32 (wr_id cur)) w in Ok (getNextWriteResponse w)
  else if negb (wr_valid cur) then Ok (getNextWriteResponse w) else Ok (cur, w).

Definition set_pending (l : list MemCmd) (p : portSide) : portSide :=
  mk_portSide (blockedOnRetry p) (needToRetry p) (retry_pkt p) l (scheduledResponses p).
Definition set_scheduled (l : list ScheduledMemResp) (p : portSide) : portSide :=
  mk_portSide (blockedOnRetry p) (needToRetry p) (retry_pkt p) (pendingCmds p) l.

Definition tile_updateTileNSU (e : nat) (others : nat -> bool) (now : Z) (send : bool) (m : aximmMasterState) (sh : hbmShared) (t : hbmTile)
    : res (hbmTile * hbmShared * list hbmPkt) :=
  let* (x, w) := serviceScheduledResponses now (scheduledResponses (ht_p t)) (ht_r t) (ht_w t) in
  let '(sched, r) := x in
  let* (x, sent) := issueCommand e others now send sh (set_scheduled sched (ht_p t)) in
  let '(p, sh) := x in
  let* (nr, r) := next_read (mms_rReady m) (mss_r (ht_current t)) r in
  let* (nb, w) := next_write (mms_bReady m) (mss_b (ht_current t)) w in
  let t := mk_hbmTile (ht_current t) (ht_next t) (ht_in t) r w p in
  Ok (mk_hbmTile (ht_current t) (mk_aximmSlaveState (canAcceptRead t) nr (canAcceptWriteAddr t) (canAcceptWriteData w) nb) m r w p, sh, sent).

Definition tile_accept_ar (now : Z) (t : hbmTile) : res hbmTile :=
  if mss_arReady (ht_current t) && ra_valid (mms_ar (ht_in t)) then
    let ar := mms_ar (ht_in t) in let r := ht_r t in let k := axi_pack_read_id r in
    guard (k + 1 <? 2 ^ 31) (FUndef "signed overflow") (
    let cmd := mk_MemCmd CmdRead k ar [] (u64 (now + cyclesToTicks (readLatencyCycles c))) in
    let id := s32 (ra_id ar) in
    let r := mk_readSide (readResponses r) (<[id := queue_at (inOrderReadResp_Queue r) id ++ [k]]> (inOrderReadResp_Queue r)) (k + 1)
               (outstandingReadCmds r + 1) (activeReadRespAxiId r) (activeReadRespHbmId r) (lastReadRespAxiId r) in
    Ok (mk_hbmTile (ht_current t) (ht_next t) (ht_in t) r (ht_w t) (set_pending (pendingCmds (ht_p t) ++ [cmd]) (ht_p t))))
  else Ok t.
Definition tile_accept_aw (w : writeSide) (aw : aximmRWAddr) : res writeSide :=
  let k := axi_pack_write_id w in
  guard (k + 1 <? 2 ^ 31) (FUndef "signed overflow") (
  let id := s32 (ra_id aw) in
  let beats := (default (aximmRWAddr_default, []) (ws_requests w !! k)).2 in
  Ok (mk_writeSide (<[k := (aw, beats)]> (ws_requests w)) (pendingWriteDataIds w ++ [k]) (ws_responses w)
        (<[id := queue_at (inOrderWriteResp_Queue w) id ++ [k]]> (inOrderWriteResp_Queue w)) (k + 1) (outstandingWriteCmds w + 1) (lastWriteRespAxiId w))).

(** The bytes of a burst: as many of each beat as the size says, whatever its strobes. *)
Definition burstBytes (size : Z) (beats : list aximmRWData) : list Z := concat ((fun b => take (zn (Z.shiftl 1 size)) (rd_data b)) <$> beats).
Definition buffer_writeRequestPacket (now k : Z) (a : aximmRWAddr) (beats : list aximmRWData) : res MemCmd :=
  guard (Z.shiftl 1 (ra_size a) <=? 64) (FUndef "array index out of range") (
  Ok (mk_MemCmd CmdWrite k a (burstBytes (ra_size a) beats) (u64 (now + cyclesToTicks (writeLatencyCycles c))))).
Definition set_wdata (reqs : gmap Z (aximmRWAddr * list aximmRWData)) (ids : list Z) (w : writeSide) : writeSide :=
  mk_writeSide reqs ids (ws_responses w) (inOrderWriteResp_Queue w) (axi_pack_write_id w) (outstandingWriteCmds w) (lastWriteRespAxiId w).
(** A W beat; the last one makes the command. *)
Definition tile_accept_w (now : Z) (beat : aximmRWData) (w : writeSide) (pending : list MemCmd) : res (writeSide * list MemCmd) :=
  match pendingWriteDataIds w with
  | [] => Err (FUndef "front of an empty queue")
  | k :: ids =>
      let '(a, beats) := default (aximmRWAddr_default, []) (ws_requests w !! k) in
      let beats := beats ++ [beat] in
      if rd_last beat then
        let* cmd := buffer_writeRequestPacket now k a beats in
        Ok (set_wdata (delete k (ws_requests w)) ids w, pending ++ [cmd])
      else Ok (set_wdata (<[k := (a, beats)]> (ws_requests w)) (k :: ids) w, pending)
  end.

Definition hbm_tick (now cd : Z) (t : hbmTile) : res (bool * hbmTile) :=
  let* t := tile_accept_ar now t in
  let cur := ht_current t in let m := ht_in t in
  let* w := if mss_awReady cur && ra_valid (mms_aw m) then tile_accept_aw (ht_w t) (mms_aw m) else Ok (ht_w t) in
  let* (w, pending) := if mss_wReady cur && rd_valid (mms_w m) then tile_accept_w now (mms_w m) w (pendingCmds (ht_p t)) else Ok (w, pendingCmds (ht_p t)) in
  Ok (true, mk_hbmTile (ht_next t) (ht_next t) m (ht_r t) w (set_pending pending (ht_p t))).

(** [BramEndpoint::update] *)
Definition hbm_update (e : nat) (others : nat -> bool) (now portID : Z) (send : bool) (st : State) (sh : hbmShared) (t : hbmTile)
    : res (hbmTile * hbmShared * list hbmPkt) :=
  guard (portID =? 0) (FPanic "BramEndpoint::update invalid portID") (
  match st_body st with
  | SAximmMaster m => tile_updateTileNSU e others now send m sh t
  | _ => Err (FPanic "BramEndpoint::update expected aximmMasterState")
  end).
Definition hbm_getCurrentState (portID : Z) (t : hbmTile) : res State :=
  guard (portID =? 0) (FPanic "tileNSU_HBM::getCurrentState invalid portID") (Ok (new_State (SAximmSlave (ht_current t)))).
End HbmTile.
