(* ===== verification/HbmOrder.v ===== *)
(** * Responses in order per ID

    What [tileNSU_HBM] does with its responses, for reads and writes alike: requests are
    numbered in the order in which they are accepted; a queue per AXI ID has the numbers that
    are not answered yet; answers are kept per ID and number until they are handed over, one
    whole answer after the other. *)

From S2P Require Import Prelude AxiTypes.

(** Request number [k]. *)
Definition number (reqs : list aximmRWAddr) (k : Z) : option aximmRWAddr := if 0 <=? k then reqs !! zn k else None.
(** The numbers of the requests with ID [id], in order. *)
Definition nums (reqs : list aximmRWAddr) (id : Z) : list Z :=
  filter (fun k => (ra_id <$> number reqs k) = Some id) (nz <$> seq 0 (length reqs)).

Lemma number_range reqs k a : number reqs k = Some a -> 0 <= k < nz (length reqs).
Proof. unfold number. destruct (Z.leb_spec 0 k); [|done]. intros E%lookup_lt_Some. lia. Qed.
Lemma number_app reqs x k a : number reqs k = Some a -> number (reqs ++ x) k = Some a.
Proof. unfold number. destruct (0 <=? k); [|done]. apply lookup_app_l_Some. Qed.
Lemma number_new reqs a : number (reqs ++ [a]) (nz (length reqs)) = Some a.
Proof. unfold number. rewrite (proj2 (Z.leb_le _ _)) by lia. rewrite Nat2Z.id. apply list_lookup_middle. done. Qed.
Lemma number_old reqs a k : k <> nz (length reqs) -> number (reqs ++ [a]) k = number reqs k.
Proof.
  intros Hk. unfold number. destruct (Z.leb_spec 0 k); [|done]. destruct (decide (zn k < length reqs)%nat).
  - by apply lookup_app_l.
  - rewrite !lookup_ge_None_2; [done|lia|rewrite length_app; cbn; lia].
Qed.
Lemma filter_same {A} (P Q : A -> Prop) `{!forall x, Decision (P x), !forall x, Decision (Q x)} (l : list A) :
  (forall x, x ∈ l -> P x <-> Q x) -> filter P l = filter Q l.
Proof.
  induction l as [|x l IH]; intros Hx; [done|]. rewrite !filter_cons, IH by (intros; apply Hx; by right).
  assert (P x <-> Q x) by (apply Hx; left). repeat case_decide; tauto.
Qed.
Lemma nums_snoc reqs a id : nums (reqs ++ [a]) id = nums reqs id ++ (if decide (ra_id a = id) then [nz (length reqs)] else []).
Proof.
  unfold nums. rewrite length_app, Nat.add_1_r, seq_S, fmap_app, filter_app. f_equal.
  - apply filter_same. intros k (i & -> & Hi%elem_of_seq)%list_elem_of_fmap. rewrite number_old; [done|lia].
  - cbn [fmap list_fmap Nat.add]. rewrite filter_cons, filter_nil, number_new. cbn. repeat case_decide; congruence.
Qed.

Section Order.
Context {B : Type}.
Implicit Types (reqs : list aximmRWAddr) (want : Z -> option (list B)) (have : Z -> Z -> option (list B)) (q : Z -> list Z) (act : option (Z * Z)).

(** [want k] is the whole answer to request [k], once it is known; [have id k] what is kept of
    it; [act] is the answer that is being handed over, of which [part] is gone; [infl] are the
    requests under way. *)
Record ord_inv reqs want have q (served : list Z) act (part : list B) (infl : list Z) : Prop := {
  oi_queue id : filter (fun k => (ra_id <$> number reqs k) = Some id) served ++ q id = nums reqs id;
  oi_nodup : NoDup infl;
  oi_infl k : k ∈ infl -> (k ∉ served) /\ exists a, number reqs k = Some a /\ have (ra_id a) k = None;
  oi_have id k l : have id k = Some l -> (k ∉ served) /\ l <> [] /\ exists a, number reqs k = Some a /\ ra_id a = id /\
    want k = Some ((if decide (act = Some (id, k)) then part else []) ++ l);
  oi_served k : k ∈ served -> is_Some (want k) /\ is_Some (number reqs k);
  oi_act : match act with Some (id, k) => is_Some (have id k) /\ head (q id) = Some k | None => part = [] end;
  oi_all k a : number reqs k = Some a -> k ∈ infl \/ is_Some (have (ra_id a) k) \/ k ∈ served
}.

(** [cur], with its valid signal [v], is the first piece of the chosen answer. *)
Definition showing have act (v : bool) (cur : B) (id_of : B -> Z) : Prop :=
  match act with
  | Some (id, k) => v = true /\ id_of cur = id /\ exists l, have id k = Some (cur :: l)
  | None => v = false
  end.
(** No answer can be chosen. *)
Definition idle have q : Prop := forall i k, head (q i) = Some k -> have i k = None.

(** What has been handed over. *)
Definition handed want (served : list Z) (part : list B) : list B := concat ((fun k => default [] (want k)) <$> served) ++ part.

Lemma ord_init want : ord_inv [] want (fun _ _ => None) (fun _ => []) [] None [] [].
Proof.
  split; try done.
  - apply NoDup_nil_2.
  - by intros k ?%elem_of_nil.
  - by intros k ?%elem_of_nil.
  - intros k a H%number_range. cbn in H. lia.
Qed.

Lemma ord_perm reqs want have q served act part infl infl' : infl ≡ₚ infl' ->
  ord_inv reqs want have q served act part infl -> ord_inv reqs want have q served act part infl'.
Proof.
  intros Hp []. split; try done.
  - by rewrite <- Hp.
  - intros k Hk. rewrite <- Hp in Hk. by apply oi_infl0.
  - intros k a Ha. rewrite <- Hp. by apply oi_all0.
Qed.

(** More answers are known, to requests that are under way. *)
Lemma ord_answer reqs want want' have q served act part infl : (forall k l, k ∉ infl -> want k = Some l -> want' k = Some l) ->
  ord_inv reqs want have q served act part infl -> ord_inv reqs want' have q served act part infl.
Proof.
  intros Hw []. split; try done.
  - intros id k l Hk. destruct (oi_have0 id k l Hk) as (? & ? & a & Ha & <- & ?). split_and!; [done..|]. exists a. split_and!; [done..|].
    apply Hw; [|done]. intros Hi. destruct (oi_infl0 k Hi) as (_ & a' & Ha' & Hn). rewrite Ha in Ha'. injection Ha' as <-. congruence.
  - intros k Hk. destruct (oi_served0 k Hk) as [[l Hl] ?]. split; [exists l; apply Hw; [|done]|done]. intros Hi. by destruct (oi_infl0 k Hi).
Qed.

(** An answer arrives. *)
Lemma ord_arrive reqs want have have' q served act part infl k a l : ord_inv reqs want have q served act part (k :: infl) ->
  number reqs k = Some a -> want k = Some l -> l <> [] ->
  (forall id j, have' id j = if decide ((id, j) = (ra_id a, k)) then Some l else have id j) ->
  ord_inv reqs want have' q served act part infl.
Proof.
  intros [] Ha Hl Hne Hh. destruct (oi_infl0 k ltac:(left)) as (Hns & a' & Ha' & Hnone). rewrite Ha in Ha'. injection Ha' as <-.
  apply NoDup_cons in oi_nodup0 as [Hnot Hnd]. split; try done.
  - intros j Hj. destruct (oi_infl0 j ltac:(by right)) as (? & a1 & ? & ?). split; [done|]. exists a1. split; [done|].
    rewrite Hh, decide_False; [done|]. intros [= _ ->]. done.
  - intros id j l' Hj. rewrite Hh in Hj. case_decide as E; [|by apply oi_have0]. injection E as -> ->. injection Hj as <-.
    split_and!; [done..|]. exists a. split_and!; [done..|]. rewrite decide_False; [done|]. intros ->. destruct oi_act0 as [[? Hx] _]. congruence.
  - destruct act as [[id j]|]; [|done]. destruct oi_act0 as [[x Hx] Hq]. split; [|done]. rewrite Hh. case_decide; eauto.
  - intros j b Hb. destruct (oi_all0 j b Hb) as [Hj |[Hj |Hj]]; [|right; left|by right; right].
    + apply elem_of_cons in Hj as [-> |Hj]; [|by left]. right. left. rewrite Ha in Hb. injection Hb as <-. rewrite Hh, decide_True by done. eauto.
    + rewrite Hh. case_decide; eauto.
Qed.

(** A request is accepted. *)
Lemma ord_accept reqs want have q q' served act part infl a : ord_inv reqs want have q served act part infl ->
  (forall id, q' id = q id ++ (if decide (ra_id a = id) then [nz (length reqs)] else [])) ->
  ord_inv (reqs ++ [a]) want have q' served act part (nz (length reqs) :: infl).
Proof.
  intros [] Hq. set (n := nz (length reqs)). assert (number reqs n = None) as Hn.
  { destruct (number reqs n) as [x|] eqn:E; [|done]. apply number_range in E. lia. }
  assert (forall k, k ∈ served -> number (reqs ++ [a]) k = number reqs k) as Hs.
  { intros k Hk. destruct (oi_served0 k Hk) as [_ [x Hx]]. rewrite Hx. by apply number_app. }
  split; try done.
  - intros id. rewrite nums_snoc, <- oi_queue0, Hq, app_assoc. do 2 f_equal. apply filter_same. intros k Hk. by rewrite Hs.
  - constructor; [|done]. intros Hi. destruct (oi_infl0 n Hi) as (_ & x & Hx & _). congruence.
  - intros k [-> |Hk]%elem_of_cons.
    + split; [intros Hk; destruct (oi_served0 n Hk) as [_ [x Hx]]; congruence|]. exists a. split; [apply number_new|].
      destruct (have (ra_id a) n) eqn:E; [|done]. destruct (oi_have0 _ _ _ E) as (_ & _ & x & Hx & _). congruence.
    + destruct (oi_infl0 k Hk) as (? & x & Hx & ?). split; [done|]. exists x. split; [by apply number_app|done].
  - intros id k l Hk. destruct (oi_have0 id k l Hk) as (? & ? & x & Hx & ? & ?). split_and!; [done..|]. exists x. split_and!; [by apply number_app|done..].
  - intros k Hk. rewrite Hs by done. by apply oi_served0.
  - destruct act as [[id k]|]; [|done]. destruct oi_act0 as [? Hh]. split; [done|]. rewrite Hq. by destruct (q id).
  - intros k x Hx. destruct (decide (k = n)) as [-> |Hk]; [left; left|]. rewrite number_old in Hx by done.
    destruct (oi_all0 k x Hx) as [? |[? |?]]; [left; by right|eauto..].
Qed.

(** An answer is chosen. *)
Lemma ord_choose reqs want have q served infl id k : ord_inv reqs want have q served None [] infl ->
  is_Some (have id k) -> head (q id) = Some k -> ord_inv reqs want have q served (Some (id, k)) [] infl.
Proof.
  intros [] Hh Hq. split; try done. intros i j l Hj. destruct (oi_have0 i j l Hj) as (? & ? & a & ? & ? & Hw). split_and!; [done..|].
  exists a. split_and!; [done..|]. rewrite Hw. by repeat case_decide.
Qed.

(** One piece of the chosen answer is handed over. *)
Lemma ord_more reqs want have have' q served part infl id k b l : ord_inv reqs want have q served (Some (id, k)) part infl ->
  have id k = Some (b :: l) -> l <> [] -> (forall i j, have' i j = if decide ((i, j) = (id, k)) then Some l else have i j) ->
  ord_inv reqs want have' q served (Some (id, k)) (part ++ [b]) infl.
Proof.
  intros [] Hk Hne Hh. split; try done.
  - intros j Hj. destruct (oi_infl0 j Hj) as (? & a & Ha & Hn). split; [done|]. exists a. split; [done|]. rewrite Hh. case_decide as E; [|done].
    injection E as <- ->. congruence.
  - intros i j l' Hj. rewrite Hh in Hj. case_decide as E.
    + injection E as -> ->. injection Hj as <-. destruct (oi_have0 _ _ _ Hk) as (? & _ & a & ? & ? & Hw). split_and!; [done..|]. exists a.
      split_and!; [done..|]. rewrite decide_True in * by done. by rewrite Hw, <- app_assoc.
    + destruct (oi_have0 i j l' Hj) as (? & ? & a & ? & ? & Hw). split_and!; [done..|]. exists a. split_and!; [done..|].
      rewrite decide_False in * by (intros [= -> ->]; done). done.
  - destruct oi_act0. split; [|done]. rewrite Hh, decide_True by done. eauto.
  - intros j a Ha. destruct (oi_all0 j a Ha) as [? |[? |?]]; [by left| |by right; right]. right. left. rewrite Hh. case_decide; eauto.
Qed.
Lemma ord_last reqs want have have' q q' served part infl id k b : ord_inv reqs want have q served (Some (id, k)) part infl ->
  have id k = Some [b] -> (forall i j, have' i j = if decide ((i, j) = (id, k)) then None else have i j) ->
  (forall i, q' i = if decide (i = id) then tail (q i) else q i) ->
  ord_inv reqs want have' q' (served ++ [k]) None [] infl /\ want k = Some (part ++ [b]).
Proof.
  intros [] Hk Hh Hq. destruct (oi_have0 _ _ _ Hk) as (Hns & _ & a & Ha & Hid & Hw). rewrite decide_True in Hw by done.
  split; [|done]. destruct oi_act0 as [_ Hhd]. split; try done.
  - intros i. rewrite filter_app, filter_cons, filter_nil, Ha, Hq, <- oi_queue0. cbn. destruct (decide (i = id)) as [-> |Hne].
    + rewrite decide_True by congruence. rewrite <- app_assoc. f_equal. by destruct (q id); [|injection Hhd as ->].
    + rewrite decide_False by congruence. by rewrite app_nil_r.
  - intros j Hj. destruct (oi_infl0 j Hj) as (? & x & Hx & Hn). split.
    + rewrite elem_of_app, list_elem_of_singleton. intros [? | ->]; [done|]. rewrite Ha in Hx. injection Hx as <-. congruence.
    + exists x. split; [done|]. rewrite Hh. by case_decide.
  - intros i j l Hj. rewrite Hh in Hj. case_decide as E; [done|]. destruct (oi_have0 i j l Hj) as (? & ? & x & Hx & Hi & Hwj). split_and!; [|done|].
    + rewrite elem_of_app, list_elem_of_singleton. intros [? | ->]; [done|]. apply E. rewrite Ha in Hx. congruence.
    + exists x. split_and!; [done..|]. rewrite decide_False in Hwj by (intros [= -> ->]; done). by rewrite decide_False by done.
  - intros j [Hj | ->%list_elem_of_singleton]%elem_of_app; [by apply oi_served0|eauto].
  - intros j x Hx. rewrite elem_of_app, list_elem_of_singleton. destruct (oi_all0 j x Hx) as [? |[Hj |?]]; [by left| |tauto].
    destruct (decide (j = k)) as [-> |Hjk]; [tauto|]. right. left. rewrite Hh, decide_False; [done|congruence].
Qed.

(** Answers are given in order of the requests of an ID. *)
Lemma ord_order reqs want have q served act part infl id : ord_inv reqs want have q served act part infl ->
  filter (fun k => (ra_id <$> number reqs k) = Some id) served `prefix_of` nums reqs id.
Proof. intros []. rewrite <- oi_queue0. by eexists. Qed.

Lemma nums_NoDup reqs id : NoDup (nums reqs id).
Proof. apply NoDup_filter, NoDup_fmap_2; [apply _|apply NoDup_seq]. Qed.
Lemma elem_of_nums reqs id k : k ∈ nums reqs id -> (ra_id <$> number reqs k) = Some id.
Proof. unfold nums. rewrite list_elem_of_filter. tauto. Qed.

(** When nothing is under way and no answer can be chosen, all requests are answered. *)
Lemma ord_rest reqs want have q served part id : ord_inv reqs want have q served None part [] ->
  idle have q ->
  filter (fun k => (ra_id <$> number reqs k) = Some id) served = nums reqs id.
Proof.
  intros [] Hidle. specialize (oi_queue0 id). destruct (q id) as [|k l] eqn:E; [by rewrite app_nil_r in oi_queue0|]. exfalso.
  assert (k ∈ nums reqs id) as Hk by (rewrite <- oi_queue0; set_solver). apply elem_of_nums in Hk.
  destruct (number reqs k) as [a|] eqn:Ha; [|done]. injection Hk as Hid.
  destruct (oi_all0 k a Ha) as [? %elem_of_nil|[[x Hx] |Hs]]; [done|rewrite Hid in Hx; rewrite (Hidle id k) in Hx; [done|by rewrite E]|].
  pose proof (nums_NoDup reqs id) as Hnd. rewrite <- oi_queue0 in Hnd. apply NoDup_app in Hnd as (_ & Hnd & _).
  apply (Hnd k); [|left]. apply list_elem_of_filter. split; [by rewrite Ha; cbn; f_equal|done].
Qed.

Lemma handed_more want served part b : handed want served (part ++ [b]) = handed want served part ++ [b].
Proof. unfold handed. by rewrite app_assoc. Qed.
Lemma handed_last want served part b k : want k = Some (part ++ [b]) -> handed want (served ++ [k]) [] = handed want served part ++ [b].
Proof. intros H. unfold handed. rewrite fmap_app, concat_app. cbn. rewrite H. cbn. by rewrite !app_nil_r, app_assoc. Qed.
Lemma handed_same want want' served part : (forall k, k ∈ served -> want k = want' k) -> handed want served part = handed want' served part.
Proof. intros H. unfold handed. do 2 f_equal. apply list_fmap_ext. intros i k Hi. rewrite H; [done|]. by eapply list_elem_of_lookup_2. Qed.
End Order.
