(* ===== verification/HbmTileRun.v ===== *)
(** * Runs of the HBM endpoint

    An HBM endpoint in its environment: a master whose requests are well formed, any other
    endpoints at the arbiter, and a memory that takes packets when it likes and answers each
    at most once, in any order.  The responses the master gets are in order per ID, whole, and
    those of the memory. *)

From S2P Require Import Prelude AxiTypes Checkpoint AxiCheckpoint CdcQueue AxisHandler NocNodes Bram HbmArbiter HbmTile HbmOrder.

(** ** Selecting *)

Lemma elem_of_sorted_ids {V} (ready : Z -> V -> bool) (m : gmap Z V) x : x ∈ sorted_ids ready m <-> exists v, m !! x = Some v /\ ready x v = true.
Proof.
  unfold sorted_ids. rewrite (merge_sort_Permutation Z.le), list_elem_of_fmap. split.
  - intros ([k v] & -> & [Hr Hv]%list_elem_of_filter). apply elem_of_map_to_list in Hv. exists v. split; [done|]. by apply Is_true_true.
  - intros (v & Hv & Hr). exists (x, v). split; [done|]. apply list_elem_of_filter. split; [by apply Is_true_true|]. by apply elem_of_map_to_list.
Qed.
Lemma select_after_Some last ids x : select_after last ids = Some x -> x ∈ ids.
Proof.
  unfold select_after. destruct (filter _ ids) as [|y l] eqn:E.
  - destruct ids; [done|]. cbn. intros [= ->]. left.
  - intros [= ->]. assert (x ∈ filter (fun y => last < y) ids) as H by (rewrite E; left). apply list_elem_of_filter in H. tauto.
Qed.
Lemma select_after_None last ids : select_after last ids = None -> ids = [].
Proof. unfold select_after. destruct (filter _ ids) as [|y l]; [|done]. by destruct ids. Qed.

(** Maps of maps. *)
Lemma nested_insert {V} (m : gmap Z (gmap Z V)) id k v i j :
  <[id := <[k := v]> (default ∅ (m !! id))]> m !! i ≫= (.!! j) = if decide ((i, j) = (id, k)) then Some v else m !! i ≫= (.!! j).
Proof.
  destruct (decide (i = id)) as [-> |Hi]; [rewrite lookup_insert_eq|rewrite lookup_insert_ne by done; rewrite decide_False by congruence; done].
  cbn. destruct (decide (j = k)) as [-> |Hj]; [by rewrite lookup_insert_eq, decide_True|]. rewrite lookup_insert_ne, decide_False by congruence.
  by destruct (m !! id).
Qed.
Lemma nested_delete {V} (m : gmap Z (gmap Z V)) id k i j :
  <[id := delete k (default ∅ (m !! id))]> m !! i ≫= (.!! j) = if decide ((i, j) = (id, k)) then None else m !! i ≫= (.!! j).
Proof.
  destruct (decide (i = id)) as [-> |Hi]; [rewrite lookup_insert_eq|rewrite lookup_insert_ne by done; rewrite decide_False by congruence; done].
  cbn. destruct (decide (j = k)) as [-> |Hj]; [by rewrite lookup_delete_eq, decide_True|]. rewrite lookup_delete_ne, decide_False by congruence.
  by destruct (m !! id).
Qed.
Lemma queue_insert (m : gmap Z (list Z)) id l i : queue_at (<[id := l]> m) i = if decide (i = id) then l else queue_at m i.
Proof. unfold queue_at. case_decide as E; [subst; by rewrite lookup_insert_eq|by rewrite lookup_insert_ne]. Qed.

(** ** Requests *)

Record hreq_ok (a : aximmRWAddr) : Prop := {
  hq_id : 0 <= ra_id a < 2 ^ 31;
  hq_len : 0 <= ra_len a <= 255;
  hq_size : 0 <= ra_size a <= 6
}.
Lemma s32_id a : hreq_ok a -> s32 (ra_id a) = ra_id a.
Proof. intros []. apply s32_small. lia. Qed.

(** ** Reads *)

Definition act_of (r : readSide) : option (Z * Z) :=
  if (activeReadRespAxiId r <? 0) || (activeReadRespHbmId r <? 0) then None else Some (activeReadRespAxiId r, activeReadRespHbmId r).

Section Reads.
Context (ars : list aximmRWAddr) (want : Z -> option (list aximmRWData)).
Hypothesis Hars : Forall hreq_ok ars.
Hypothesis Hwant : forall k a l b, number ars k = Some a -> want k = Some l -> b ∈ l -> rd_valid b = true /\ rd_id b = ra_id a.

Definition rord (r : readSide) := ord_inv ars want (beats_at r) (queue_at (inOrderReadResp_Queue r)).
Definition rshowing (r : readSide) (cur : aximmRWData) := showing (beats_at r) (act_of r) (rd_valid cur) cur rd_id.
Definition ridle (r : readSide) := act_of r = None -> idle (beats_at r) (queue_at (inOrderReadResp_Queue r)).

Lemma number_ok k a : number ars k = Some a -> hreq_ok a.
Proof using Hars. unfold number. destruct (0 <=? k); [|done]. intros H. by eapply Forall_lookup_1 in Hars. Qed.

(** A beat that is kept. *)
Lemma have_beat r served act part infl id k b l : rord r served act part infl -> beats_at r id k = Some (b :: l) ->
  rd_valid b = true /\ rd_id b = id /\ 0 <= id < 2 ^ 31 /\ 0 <= k.
Proof using Hars Hwant.
  intros Ho Hb. destruct (oi_have _ _ _ _ _ _ _ _ Ho _ _ _ Hb) as (_ & _ & a & Ha & <- & Hw).
  destruct (Hwant k a _ b Ha Hw) as [? ?]; [rewrite elem_of_app; right; left|]. destruct (number_ok _ _ Ha) as [? _ _]. apply number_range in Ha. split_and!; try done; lia.
Qed.

Lemma clear_same r served part infl : rord r served (act_of r) part infl -> clearActiveReadResponseIfDone r = r.
Proof.
  intros Ho. pose proof (oi_act _ _ _ _ _ _ _ _ Ho) as Ha. unfold clearActiveReadResponseIfDone, act_of in *.
  destruct (_ || _); [done|]. destruct Ha as [[l Hl] _]. rewrite Hl.
  destruct (oi_have _ _ _ _ _ _ _ _ Ho _ _ _ Hl) as (_ & Hne & _). by destruct l.
Qed.

Lemma getNext_spec r served part infl : rord r served (act_of r) part infl ->
  let x := getNextAxiResponse r in
  rord x.2 served (act_of x.2) part infl /\ rshowing x.2 x.1 /\ ridle x.2 /\ axi_pack_read_id x.2 = axi_pack_read_id r /\
  outstandingReadCmds x.2 = outstandingReadCmds r.
Proof using Hars Hwant.
  intros Ho. cbn zeta. unfold getNextAxiResponse. rewrite (clear_same _ _ _ _ Ho). destruct (act_of r) as [[id k]|] eqn:Eact.
  - pose proof (oi_act _ _ _ _ _ _ _ _ Ho) as [[l Hl] Hq]. destruct l as [|b l]; [by destruct (oi_have _ _ _ _ _ _ _ _ Ho _ _ _ Hl) as (_ & ? & _)|].
    destruct (have_beat _ _ _ _ _ _ _ _ _ Ho Hl) as (Hv & Hid & Hr & Hk).
    assert (activeReadRespAxiId r = id /\ activeReadRespHbmId r = k) as [E1 E2] by (unfold act_of in Eact; destruct (_ || _); [done|by injection Eact]).
    unfold active_beat. rewrite E1, E2, (proj2 (Z.leb_le _ _)), (proj2 (Z.leb_le _ _)), Hl by lia. cbn [andb].
    destruct (queue_at _ id) as [|k' q]; [done|]. injection Hq as ->. rewrite Z.eqb_refl. cbn. rewrite Eact. split_and!; try done.
    + unfold rshowing, showing. rewrite Eact. eauto.
    + by intros H; rewrite Eact in H.
  - assert (active_beat r = None) as ->.
    { unfold act_of, active_beat in *. destruct (Z.ltb_spec (activeReadRespAxiId r) 0), (Z.ltb_spec (activeReadRespHbmId r) 0); cbn in Eact; try done.
      - by rewrite (proj2 (Z.leb_gt _ _)).
      - by rewrite (proj2 (Z.leb_gt _ _)).
      - by rewrite (proj2 (Z.leb_gt (0) (activeReadRespHbmId r))), andb_false_r. }
    destruct (select_after _ _) as [id|] eqn:Es.
    + apply select_after_Some, elem_of_sorted_ids in Es as (m & Hm & Hr). unfold read_ready in Hr. destruct (queue_at _ id) as [|k q] eqn:Eq; [done|].
      destruct (m !! k) as [[|b l]|] eqn:Ek; try done.
      assert (beats_at r id k = Some (b :: l)) as Hl by (unfold beats_at; by rewrite Hm).
      destruct (have_beat _ _ _ _ _ _ _ _ _ Ho Hl) as (Hv & Hid & Hrg & Hk). change (default 0 (head (k :: q))) with k. rewrite Hl. change (default aximmRWData_default (head (default [] (Some (b :: l))))) with b. cbn [fst snd].
      set (r' := mk_readSide _ _ _ _ _ _ _). assert (act_of r' = Some (id, k)) as Ea.
      { unfold act_of. cbn. by rewrite (proj2 (Z.ltb_ge _ _)), (proj2 (Z.ltb_ge _ _)) by lia. }
      pose proof (oi_act _ _ _ _ _ _ _ _ Ho) as ->. rewrite Ea. split_and!; try done.
      * apply ord_choose; [done|by eexists|]. cbn. by rewrite Eq.
      * unfold rshowing, showing. rewrite Ea. cbn. eauto.
      * by intros H; rewrite Ea in H.
    + cbn. rewrite Eact. split_and!; try done.
      * unfold rshowing, showing. by rewrite Eact.
      * intros _ i k Hk. destruct (beats_at r i k) as [l|] eqn:El; [exfalso|done]. apply select_after_None in Es.
        unfold beats_at in El. destruct (readResponses r !! i) as [m|] eqn:Em; [|done]. cbn in El.
        assert (i ∈ sorted_ids (read_ready r) (readResponses r)) as Hin; [|rewrite Es in Hin; by apply elem_of_nil in Hin].
        apply elem_of_sorted_ids. exists m. split; [done|]. unfold read_ready. destruct (queue_at _ i); [done|]. injection Hk as ->. rewrite El.
        destruct l; [|done]. by destruct (oi_have _ _ _ _ _ _ _ _ Ho i k []) as (_ & ? & _); [unfold beats_at; by rewrite Em|].
Qed.

Lemma act_of_Some r id k : act_of r = Some (id, k) -> activeReadRespAxiId r = id /\ activeReadRespHbmId r = k /\ 0 <= id /\ 0 <= k.
Proof. unfold act_of. destruct (Z.ltb_spec (activeReadRespAxiId r) 0), (Z.ltb_spec (activeReadRespHbmId r) 0); cbn; try done. intros [= <- <-]. done. Qed.

(** A beat is handed over. *)
Lemma pop_read_spec r served part infl cur : rord r served (act_of r) part infl -> rshowing r cur -> rd_valid cur = true ->
  exists r1 served' part', pop_read (s32 (rd_id cur)) r = Ok r1 /\ rord (clearActiveReadResponseIfDone r1) served' (act_of (clearActiveReadResponseIfDone r1)) part' infl /\
    handed want served' part' = handed want served part ++ [cur] /\
    axi_pack_read_id (clearActiveReadResponseIfDone r1) = axi_pack_read_id r /\
    outstandingReadCmds (clearActiveReadResponseIfDone r1) <= Z.max 0 (outstandingReadCmds r).
Proof using Hars Hwant.
  intros Ho Hs Hv. unfold rshowing, showing in Hs. destruct (act_of r) as [[id k]|] eqn:Ea; [|congruence]. destruct Hs as (_ & Hid & l & Hl).
  destruct (have_beat _ _ _ _ _ _ _ _ _ Ho Hl) as (_ & _ & Hr & Hk). rewrite Hid, s32_small by lia.
  destruct (act_of_Some _ _ _ Ea) as (E1 & E2 & _ & _). pose proof (oi_act _ _ _ _ _ _ _ _ Ho) as [_ Hq].
  unfold pop_read. destruct (queue_at (inOrderReadResp_Queue r) id) as [|k' q] eqn:Eq; [done|]. injection Hq as ->.
  assert (default ∅ (readResponses r !! id) !! k = Some (cur :: l)) as -> by (unfold beats_at in Hl; by destruct (readResponses r !! id)). cbn [default].
  destruct l as [|b l].
  - eexists _, (served ++ [k]), []. split; [reflexivity|]. set (r1 := mk_readSide _ _ _ _ _ _ _).
    assert (forall i j, beats_at r1 i j = if decide ((i, j) = (id, k)) then None else beats_at r i j) as Hh by apply nested_delete.
    assert (clearActiveReadResponseIfDone r1 = set_active (-1) (-1) r1) as ->.
    { unfold clearActiveReadResponseIfDone. cbn [r1 activeReadRespAxiId activeReadRespHbmId]. rewrite E1, E2, (proj2 (Z.ltb_ge _ _)), (proj2 (Z.ltb_ge _ _)) by lia.
      cbn [orb]. fold r1. by rewrite Hh, decide_True. }
    edestruct (ord_last ars want _ (beats_at r1) _ (queue_at (inOrderReadResp_Queue r1)) served part infl id k cur Ho Hl Hh) as [Ho' Hw].
    { intros i. cbn. rewrite queue_insert. destruct (decide (i = id)) as [-> |]; [by rewrite Eq|done]. }
    split_and!; [done|by apply handed_last|done|]. cbn. unfold count_down. destruct (Z.ltb_spec 0 (outstandingReadCmds r)); lia.
  - eexists _, served, (part ++ [cur]). split; [reflexivity|]. set (r1 := set_readResponses _ _).
    assert (forall i j, beats_at r1 i j = if decide ((i, j) = (id, k)) then Some (b :: l) else beats_at r i j) as Hh by apply nested_insert.
    assert (act_of r1 = Some (id, k)) as Ea1 by done.
    assert (rord r1 served (act_of r1) (part ++ [cur]) infl) as Ho1 by (rewrite Ea1; by eapply ord_more).
    rewrite (clear_same _ _ _ _ Ho1). split_and!; [done|apply handed_more|done|]. cbn. lia.
Qed.

Lemma next_read_spec rReady cur r served part infl : rord r served (act_of r) part infl -> rshowing r cur ->
  exists p r' served' part', next_read rReady cur r = Ok (p, r') /\ rord r' served' (act_of r') part' infl /\ rshowing r' p /\ ridle r' /\
    handed want served' part' = handed want served part ++ (if rReady && rd_valid cur then [cur] else []) /\
    axi_pack_read_id r' = axi_pack_read_id r /\ outstandingReadCmds r' <= Z.max 0 (outstandingReadCmds r).
Proof using Hars Hwant.
  intros Ho Hs. unfold next_read. destruct (rReady && rd_valid cur) eqn:Et.
  - apply andb_true_iff in Et as [_ Hv]. destruct (pop_read_spec _ _ _ _ _ Ho Hs Hv) as (r1 & served' & part' & -> & Ho1 & Hh & Hc & Hout). cbn [rbind].
    pose proof (getNext_spec _ _ _ _ Ho1) as (G1 & G2 & G3 & G4 & G5). destruct (getNextAxiResponse _) as [p r']. cbn [fst snd] in *.
    exists p, r', served', part'. split_and!; try done; congruence || lia.
  - destruct (rd_valid cur) eqn:Hv; cbn [negb].
    + exists cur, r, served, part. rewrite app_nil_r. split_and!; try done; [|lia]. intros H. unfold rshowing, showing in Hs. rewrite H in Hs. congruence.
    + pose proof (getNext_spec _ _ _ _ Ho) as (G1 & G2 & G3 & G4 & G5). destruct (getNextAxiResponse _) as [p r']. cbn [fst snd] in *.
      exists p, r', served, part. rewrite app_nil_r. split_and!; try done. lia.
Qed.
End Reads.

(** ** Writes *)

Definition have_w (w : writeSide) (id k : Z) : option (list aximmWResp) := (fun b => [b]) <$> (ws_responses w !! id ≫= (.!! k)).

Section Writes.
Context (aws : list aximmRWAddr) (want : Z -> option (list aximmWResp)).
Hypothesis Haws : Forall hreq_ok aws.
Hypothesis Hwant : forall k a l b, number aws k = Some a -> want k = Some l -> b ∈ l -> wr_valid b = true /\ wr_id b = ra_id a.

Definition word (w : writeSide) := ord_inv aws want (have_w w) (queue_at (inOrderWriteResp_Queue w)).
Definition wshowing (w : writeSide) (act : option (Z * Z)) (cur : aximmWResp) := showing (have_w w) act (wr_valid cur) cur wr_id.
Definition widle (w : writeSide) (act : option (Z * Z)) := act = None -> idle (have_w w) (queue_at (inOrderWriteResp_Queue w)).

Lemma have_resp w served act part infl id k b : word w served act part infl -> have_w w id k = Some [b] ->
  wr_valid b = true /\ wr_id b = id /\ 0 <= id < 2 ^ 31.
Proof using Haws Hwant.
  intros Ho Hb. destruct (oi_have _ _ _ _ _ _ _ _ Ho _ _ _ Hb) as (_ & _ & a & Ha & <- & Hw).
  destruct (Hwant k a _ b Ha Hw) as [? ?]; [rewrite elem_of_app; right; left|]. destruct (number_ok _ Haws _ _ Ha) as [? _ _]. done.
Qed.

Lemma getNextWrite_spec w served infl : word w served None [] infl ->
  let x := getNextWriteResponse w in exists act,
  word x.2 served act [] infl /\ wshowing x.2 act x.1 /\ widle x.2 act /\
  (forall r, set_writeResponses r x.2 = set_writeResponses r (mk_writeSide (ws_requests w) (pendingWriteDataIds w) (ws_responses w) (inOrderWriteResp_Queue w)
     (axi_pack_write_id w) (outstandingWriteCmds w) (lastWriteRespAxiId x.2))).
Proof using Haws Hwant.
  intros Ho. cbn zeta. unfold getNextWriteResponse. destruct (select_after _ _) as [id|] eqn:Es.
  - apply select_after_Some, elem_of_sorted_ids in Es as (m & Hm & Hr). unfold write_ready in Hr. destruct (queue_at _ id) as [|k q] eqn:Eq; [done|].
    apply bool_decide_eq_true in Hr as [b Hk]. change (default 0 (head (k :: q))) with k. rewrite Hm. cbn [mbind option_bind]. rewrite Hk.
    change (default aximmWResp_default (Some b)) with b. assert (have_w w id k = Some [b]) as Hb by (unfold have_w; by rewrite Hm; cbn; rewrite Hk).
    destruct (have_resp _ _ _ _ _ _ _ _ Ho Hb) as (Hv & Hid & _). exists (Some (id, k)). cbn [fst snd]. split_and!; try done.
    + apply ord_choose; [done|by eexists|]. cbn. by rewrite Eq.
    + unfold wshowing, showing. eauto.
  - exists None. cbn [fst snd]. split_and!; try done.
    + intros _ i k Hk. destruct (have_w w i k) as [l|] eqn:El; [exfalso|done]. apply select_after_None in Es.
      unfold have_w in El. destruct (ws_responses w !! i) as [m|] eqn:Em; [|done]. cbn in El.
      assert (i ∈ sorted_ids (write_ready w) (ws_responses w)) as Hin; [|rewrite Es in Hin; by apply elem_of_nil in Hin].
      apply elem_of_sorted_ids. exists m. split; [done|]. unfold write_ready. destruct (queue_at _ i); [done|]. injection Hk as ->.
      apply bool_decide_eq_true. destruct (m !! k); [by eexists|done].
Qed.

(** The members of the write side that responses do not change. *)
Definition wframe (w w' : writeSide) : Prop :=
  ws_requests w' = ws_requests w /\ pendingWriteDataIds w' = pendingWriteDataIds w /\ axi_pack_write_id w' = axi_pack_write_id w.

Lemma next_write_spec bReady cur w served act infl : word w served act [] infl -> wshowing w act cur ->
  exists p w' served' act', next_write bReady cur w = Ok (p, w') /\ word w' served' act' [] infl /\ wshowing w' act' p /\ widle w' act' /\
    handed want served' [] = handed want served [] ++ (if bReady && wr_valid cur then [cur] else []) /\
    wframe w w' /\ outstandingWriteCmds w' <= Z.max 0 (outstandingWriteCmds w).
Proof using Haws Hwant.
  intros Ho Hs. unfold next_write, wshowing, showing in *. destruct act as [[id k]|].
  - destruct Hs as (Hv & Hid & l & Hl). rewrite Hv, andb_true_r. cbn [negb].
    assert (l = []) as -> by (unfold have_w in Hl; destruct (_ ≫= _); [by injection Hl as <- <-|done]).
    destruct (have_resp _ _ _ _ _ _ _ _ Ho Hl) as (_ & _ & Hr). destruct bReady; [|exists cur, w, served, (Some (id, k)); rewrite app_nil_r; split_and!; try done; [eauto|lia]].
    rewrite Hid, s32_small by lia. pose proof (oi_act _ _ _ _ _ _ _ _ Ho) as [_ Hq].
    unfold pop_write. destruct (queue_at (inOrderWriteResp_Queue w) id) as [|k' q] eqn:Eq; [done|]. injection Hq as ->. cbn [rbind].
    set (w1 := mk_writeSide _ _ _ _ _ _ _).
    assert (forall i j, have_w w1 i j = if decide ((i, j) = (id, k)) then None else have_w w i j) as Hh.
    { intros i j. unfold have_w. cbn. rewrite nested_delete. by case_decide. }
    edestruct (ord_last aws want _ (have_w w1) _ (queue_at (inOrderWriteResp_Queue w1)) served [] infl id k cur Ho Hl Hh) as [Ho' Hw].
    { intros i. cbn. rewrite queue_insert. destruct (decide (i = id)) as [-> |]; [by rewrite Eq|done]. }
    pose proof (getNextWrite_spec w1 _ _ Ho') as (act' & G1 & G2 & G3 & G4). destruct (getNextWriteResponse w1) as [p w']. cbn [fst snd] in *.
    specialize (G4 ∅). injection G4 as F1 F2 F3 F4 F5. exists p, w', (served ++ [k]), act'. split_and!; try done.
    + by apply handed_last.
    + rewrite F5. cbn. unfold count_down. destruct (Z.ltb_spec 0 (outstandingWriteCmds w)); lia.
  - rewrite Hs, andb_false_r. cbn [negb]. pose proof (getNextWrite_spec w _ _ Ho) as (act' & G1 & G2 & G3 & G4).
    destruct (getNextWriteResponse w) as [p w']. cbn [fst snd] in *. specialize (G4 ∅). injection G4 as F1 F2 F3 F4 F5.
    exists p, w', served, act'. rewrite app_nil_r. split_and!; try done. lia.
Qed.
End Writes.

(** ** The history of a run *)

Record hlog := mk_hlog {
  hg_ars : list aximmRWAddr;          (* requests and beats taken from the master *)
  hg_aws : list aximmRWAddr;
  hg_ws : list aximmRWData;
  hg_cmds : list (bool * Z);          (* commands in the order they were complete: is it a read, and its number *)
  hg_sent : list hbmPkt;              (* packets the memory took *)
  hg_out : list hbmPkt;               (* those it has not answered *)
  hg_ans : gmap Z (list Z);           (* the bytes it answered to reads *)
  hg_wans : gset Z;                   (* the writes it answered *)
  hg_r : list aximmRWData;            (* responses handed to the master *)
  hg_b : list aximmWResp
}.

(** W beats as bursts: those that have ended, and the beats after them. *)
Definition add_beat (x : list (list aximmRWData) * list aximmRWData) (b : aximmRWData) : list (list aximmRWData) * list aximmRWData :=
  if rd_last b then (x.1 ++ [x.2 ++ [b]], []) else (x.1, x.2 ++ [b]).
Definition bursts (ws : list aximmRWData) : list (list aximmRWData) * list aximmRWData := foldl add_beat ([], []) ws.

(** The beats of the answer [d] to a read. *)
Definition rbeat (a : aximmRWAddr) (d : list Z) (b : nat) : aximmRWData :=
  mk_aximmRWData READ (ra_id a) OKAY (nz b =? ra_len a) 0 true false
    (copy_into (zeros 64) 0 (slice d (b * zn (2 ^ ra_size a)) (zn (2 ^ ra_size a)))) TKEEP_ALL.
Definition rbeats (a : aximmRWAddr) (d : list Z) : list aximmRWData := rbeat a d <$> seq 0 (zn (ra_len a + 1)).
Definition total (a : aximmRWAddr) : Z := (ra_len a + 1) * 2 ^ ra_size a.

Definition rwant (g : hlog) (k : Z) : option (list aximmRWData) := a ← number (hg_ars g) k; rbeats a <$> hg_ans g !! k.
Definition wwant (g : hlog) (k : Z) : option (list aximmWResp) :=
  a ← number (hg_aws g) k; if decide (k ∈ hg_wans g) then Some [mk_aximmWResp (ra_id a) OKAY 0 true] else None.

(** The packet of a command. *)
Definition pkt_for (g : hlog) (ev : bool * Z) (pkt : hbmPkt) : Prop :=
  if ev.1 then exists a, number (hg_ars g) ev.2 = Some a /\ pkt = mk_hbmPkt (ra_addr a) (total a) true [] (ra_id a) ev.2 (ra_size a) (ra_len a)
  else exists a bs, number (hg_aws g) ev.2 = Some a /\ (bursts (hg_ws g)).1 !! zn ev.2 = Some bs /\ total a <= nz (length (burstBytes (ra_size a) bs)) /\
         pkt = mk_hbmPkt (ra_addr a) (total a) false (take (zn (total a)) (burstBytes (ra_size a) bs)) (ra_id a) ev.2 (ra_size a) (ra_len a).

Definition hlog_init : hlog := mk_hlog [] [] [] [] [] [] ∅ ∅ [] [].
Definition taken {A} (b : bool) (x : A) : list A := if b then [x] else [].
(** A cycle of [t] with the master's signals [m], in which the packets [sent] leave. *)
Definition log_cycle (m : aximmMasterState) (t : hbmTile) (sent : list hbmPkt) (g : hlog) : hlog :=
  let cur := ht_current t in
  let ar := mss_arReady cur && ra_valid (mms_ar m) in
  let w := mss_wReady cur && rd_valid (mms_w m) in
  mk_hlog (hg_ars g ++ taken ar (mms_ar m)) (hg_aws g ++ taken (mss_awReady cur && ra_valid (mms_aw m)) (mms_aw m)) (hg_ws g ++ taken w (mms_w m))
    (hg_cmds g ++ taken ar (true, nz (length (hg_ars g))) ++ taken (w && rd_last (mms_w m)) (false, nz (length (bursts (hg_ws g)).1)))
    (hg_sent g ++ sent) (hg_out g ++ sent) (hg_ans g) (hg_wans g)
    (hg_r g ++ taken (mms_rReady m && rd_valid (mss_r cur)) (mss_r cur)) (hg_b g ++ taken (mms_bReady m && wr_valid (mss_b cur)) (mss_b cur)).
(** An answer of the memory to [pkt]; [out] are the packets that are left. *)
Definition log_answer (pkt : hbmPkt) (data : list Z) (out : list hbmPkt) (g : hlog) : hlog :=
  mk_hlog (hg_ars g) (hg_aws g) (hg_ws g) (hg_cmds g) (hg_sent g) out
    (if pk_isRead pkt then <[pk_hbm pkt := data]> (hg_ans g) else hg_ans g) (if pk_isRead pkt then hg_wans g else {[pk_hbm pkt]} ∪ hg_wans g)
    (hg_r g) (hg_b g).

Record inputs_ok (m : aximmMasterState) : Prop := {
  io_ar : ra_valid (mms_ar m) = true -> hreq_ok (mms_ar m);
  io_aw : ra_valid (mms_aw m) = true -> hreq_ok (mms_aw m)
}.
Definition set_port (p : portSide) (t : hbmTile) : hbmTile := mk_hbmTile (ht_current t) (ht_next t) (ht_in t) (ht_r t) (ht_w t) p.

(** The states of an endpoint in runs without a fault.  The registries and the other endpoints
    are arbitrary, also from cycle to cycle; requests are well formed ([inputs_ok]); the memory
    answers a packet that it took at most once, a read with as many bytes as were asked for. *)
Inductive tile_reach (c : hbmTileCfg) : hbmTile -> hlog -> Prop :=
| tr_init : tile_reach c hbmTile_init hlog_init
| tr_cycle t g e others now send m sh t1 sh1 sent cd x t2 : tile_reach c t g -> inputs_ok m ->
    tile_updateTileNSU c e others now send m sh t = Ok (t1, sh1, sent) -> hbm_tick c now cd t1 = Ok (x, t2) ->
    tile_reach c t2 (log_cycle m t sent g)
| tr_answer t g now l1 pkt l2 data p : tile_reach c t g -> hg_out g = l1 ++ pkt :: l2 ->
    (pk_isRead pkt = true -> nz (length data) = pk_bytes pkt) -> recvTimingResp c now pkt data (ht_p t) = Ok p ->
    tile_reach c (set_port p t) (log_answer pkt data (l1 ++ l2) g)
| tr_retry t g : tile_reach c t g -> tile_reach c (set_port (recvReqRetry (ht_p t)) t) g.

(** ** The invariant *)

Definition cmd_isRead (cmd : MemCmd) : bool := match mc_type cmd with CmdRead => true | CmdWrite => false end.
Definition cmd_nums (b : bool) (l : list MemCmd) : list Z := mc_hbm <$> filter (fun x => cmd_isRead x = b) l.
Definition pk_nums (b : bool) (l : list hbmPkt) : list Z := pk_hbm <$> filter (fun x => pk_isRead x = b) l.
Definition sr_nums (b : bool) (l : list ScheduledMemResp) : list Z := sr_hbmId <$> filter (fun x => sr_isRead x = b) l.
(** The requests between acceptance and answer. *)
Definition under_way (b : bool) (p : portSide) (g : hlog) : list Z :=
  cmd_nums b (pendingCmds p) ++ pk_nums b (hg_out g) ++ sr_nums b (scheduledResponses p).

Definition cmd_for (g : hlog) (ev : bool * Z) (cmd : MemCmd) : Prop :=
  if ev.1 then exists a t, number (hg_ars g) ev.2 = Some a /\ cmd = mk_MemCmd CmdRead ev.2 a [] t
  else exists a bs t, number (hg_aws g) ev.2 = Some a /\ (bursts (hg_ws g)).1 !! zn ev.2 = Some bs /\
         cmd = mk_MemCmd CmdWrite ev.2 a (burstBytes (ra_size a) bs) t.
Definition sched_ok (g : hlog) (s : ScheduledMemResp) : Prop :=
  if sr_isRead s then exists a, number (hg_ars g) (sr_hbmId s) = Some a /\ sr_axiId s = ra_id a /\ sr_size s = ra_size a /\ sr_len s = ra_len a /\
    hg_ans g !! sr_hbmId s = Some (sr_data s) /\ nz (length (sr_data s)) = total a
  else exists a, number (hg_aws g) (sr_hbmId s) = Some a /\ sr_axiId s = ra_id a /\ sr_hbmId s ∈ hg_wans g.

Record port_inv (p : portSide) (g : hlog) : Prop := {
  pi_cmds : exists evs0 evs1, hg_cmds g = evs0 ++ evs1 /\ Forall2 (pkt_for g) evs0 (hg_sent g) /\ Forall2 (cmd_for g) evs1 (pendingCmds p);
  pi_retry : needToRetry p = true -> exists cmd pkt, head (pendingCmds p) = Some cmd /\ cmdPkt cmd = Ok pkt /\ retry_pkt p = Some pkt;
  pi_out : Forall (fun pkt => exists ev, pkt_for g ev pkt) (hg_out g);
  pi_sched : Forall (sched_ok g) (scheduledResponses p)
}.
(** W data: the bursts that have ended belong to the first addresses. *)
Record data_inv (w : writeSide) (g : hlog) : Prop := {
  di_len : (length (bursts (hg_ws g)).1 <= length (hg_aws g))%nat;
  di_ids : pendingWriteDataIds w = nz <$> seq (length (bursts (hg_ws g)).1) (length (hg_aws g) - length (bursts (hg_ws g)).1);
  di_reqs k : ws_requests w !! k = if decide (nz (length (bursts (hg_ws g)).1) <= k)
    then (fun a => (a, if decide (k = nz (length (bursts (hg_ws g)).1)) then (bursts (hg_ws g)).2 else [])) <$> number (hg_aws g) k else None;
  di_part : length (bursts (hg_ws g)).1 = length (hg_aws g) -> (bursts (hg_ws g)).2 = []
}.

Record log_ok (g : hlog) : Prop := {
  lo_ars : Forall hreq_ok (hg_ars g);
  lo_aws : Forall hreq_ok (hg_aws g);
  lo_rn : nz (length (hg_ars g)) < 2 ^ 31;
  lo_wn : nz (length (hg_aws g)) < 2 ^ 31
}.
Record read_inv (r : readSide) (cur : aximmRWData) (p : portSide) (g : hlog) (served : list Z) (part : list aximmRWData) : Prop := {
  rv_ord : rord (hg_ars g) (rwant g) r served (act_of r) part (under_way true p g);
  rv_cur : rshowing r cur;
  rv_count : axi_pack_read_id r = nz (length (hg_ars g));
  rv_log : hg_r g = handed (rwant g) served part
}.
Record write_inv (w : writeSide) (cur : aximmWResp) (p : portSide) (g : hlog) (served : list Z) (act : option (Z * Z)) : Prop := {
  wv_ord : word (hg_aws g) (wwant g) w served act [] (pendingWriteDataIds w ++ under_way false p g);
  wv_cur : wshowing w act cur;
  wv_count : axi_pack_write_id w = nz (length (hg_aws g));
  wv_log : hg_b g = handed (wwant g) served []
}.

Lemma rwant_ok g k a l b : number (hg_ars g) k = Some a -> rwant g k = Some l -> b ∈ l -> rd_valid b = true /\ rd_id b = ra_id a.
Proof.
  intros Ha Hl Hb. unfold rwant in Hl. rewrite Ha in Hl. cbn in Hl. destruct (hg_ans g !! k); [|done]. injection Hl as <-.
  by apply list_elem_of_fmap in Hb as (i & -> & _).
Qed.
Lemma wwant_ok g k a l b : number (hg_aws g) k = Some a -> wwant g k = Some l -> b ∈ l -> wr_valid b = true /\ wr_id b = ra_id a.
Proof. intros Ha Hl Hb. unfold wwant in Hl. rewrite Ha in Hl. cbn in Hl. case_decide; [|done]. injection Hl as <-. by apply list_elem_of_singleton in Hb as ->. Qed.

Lemma total_pos a : hreq_ok a -> 0 < total a /\ 1 <= 2 ^ ra_size a <= 64.
Proof.
  intros [_ Hl Hs]. assert (1 <= 2 ^ ra_size a <= 64) as H; [|unfold total; split; [nia|done]].
  assert (ra_size a = 0 \/ ra_size a = 1 \/ ra_size a = 2 \/ ra_size a = 3 \/ ra_size a = 4 \/ ra_size a = 5 \/ ra_size a = 6) as Hc by lia.
  repeat destruct Hc as [-> |Hc]; [lia..|]. rewrite Hc. lia.
Qed.

Lemma readBeats_ok s a : hreq_ok a -> sr_axiId s = ra_id a -> sr_size s = ra_size a -> sr_len s = ra_len a -> nz (length (sr_data s)) = total a ->
  mapM (readBeat s) (seq 0 (zn (sr_len s + 1))) = Ok (rbeats a (sr_data s)).
Proof.
  intros Ha E1 E2 E3 Hl. destruct (total_pos a Ha) as [_ Hs]. destruct Ha as [_ Hlen _]. unfold rbeats. rewrite E3.
  enough (forall i n, nz (i + n) <= ra_len a + 1 -> mapM (readBeat s) (seq i n) = Ok (rbeat a (sr_data s) <$> seq i n)) as H by (apply H; lia).
  intros i n. revert i. induction n as [|n IH]; intros i Hi; [done|]. cbn [seq mapM fmap list_fmap].
  assert (readBeat s i = Ok (rbeat a (sr_data s) i)) as ->; [|cbn [rbind]; rewrite (IH (S i)) by lia; done].
  unfold readBeat. rewrite E2, Z.shiftl_1_l, E1, E3. rewrite (proj2 (Z.leb_le _ _)) by lia.
  rewrite (proj2 (Z.leb_le _ _)); [done|]. rewrite Hl. unfold total. nia.
Qed.

(** ** Steps *)

(** The members of the read side that answers do not change. *)
Definition rframe (r r' : readSide) : Prop :=
  act_of r' = act_of r /\ axi_pack_read_id r' = axi_pack_read_id r /\ outstandingReadCmds r' = outstandingReadCmds r /\
  forall cur, rshowing r cur -> rshowing r' cur.

Section Steps.
Context (g : hlog) (Hg : log_ok g).

Lemma arrive_read s r served act part infl : sched_ok g s -> sr_isRead s = true ->
  rord (hg_ars g) (rwant g) r served act part (sr_hbmId s :: infl) ->
  exists r', enqueueCompletedRead s r = Ok r' /\ rord (hg_ars g) (rwant g) r' served act part infl /\ rframe r r'.
Proof using Hg.
  intros Hs Er Ho. unfold sched_ok in Hs. rewrite Er in Hs. destruct Hs as (a & Ha & E1 & E2 & E3 & Hans & Hlen).
  destruct Hg as [Hars _ Hrn _]. pose proof (number_ok _ Hars _ _ Ha) as Hok. pose proof (number_range _ _ _ Ha) as Hk.
  unfold enqueueCompletedRead. rewrite (readBeats_ok s a) by done. cbn [rbind]. rewrite E1, (s32_id _ Hok), (s32_small (sr_hbmId s)) by lia.
  destruct (oi_infl _ _ _ _ _ _ _ _ Ho (sr_hbmId s) ltac:(left)) as (_ & a' & Ha' & Hnone). rewrite Ha in Ha'. injection Ha' as <-.
  assert (default ∅ (readResponses r !! ra_id a) !! sr_hbmId s = None) as -> by (unfold beats_at in Hnone; by destruct (readResponses r !! ra_id a)).
  cbn [default app]. eexists. split; [reflexivity|]. set (r' := set_readResponses _ _).
  assert (forall i j, beats_at r' i j = if decide ((i, j) = (ra_id a, sr_hbmId s)) then Some (rbeats a (sr_data s)) else beats_at r i j) as Hh by apply nested_insert.
  split; [|split_and!; try done].
  - eapply ord_arrive; [exact Ho|exact Ha| | |exact Hh].
    + unfold rwant. rewrite Ha. cbn. by rewrite Hans.
    + unfold rbeats. destruct Hok as [_ Hl _]. replace (zn (ra_len a + 1)) with (S (zn (ra_len a))) by lia. done.
  - intros cur Hc. unfold rshowing, showing in *. change (act_of r') with (act_of r). destruct (act_of r) as [[id k]|]; [|done].
    destruct Hc as (? & ? & l & Hl). split_and!; [done..|]. exists l. rewrite Hh, decide_False; [done|]. congruence.
Qed.

Lemma arrive_write s w served act infl : sched_ok g s -> sr_isRead s = false ->
  word (hg_aws g) (wwant g) w served act [] (sr_hbmId s :: infl) ->
  word (hg_aws g) (wwant g) (enqueueCompletedWrite s w) served act [] infl /\ wframe w (enqueueCompletedWrite s w) /\
  outstandingWriteCmds (enqueueCompletedWrite s w) = outstandingWriteCmds w /\ forall cur, wshowing w act cur -> wshowing (enqueueCompletedWrite s w) act cur.
Proof using Hg.
  intros Hs Er Ho. unfold sched_ok in Hs. rewrite Er in Hs. destruct Hs as (a & Ha & E1 & Hans).
  destruct Hg as [_ Haws _ Hwn]. pose proof (number_ok _ Haws _ _ Ha) as Hok. pose proof (number_range _ _ _ Ha) as Hk.
  unfold enqueueCompletedWrite. rewrite E1, (s32_id _ Hok), (s32_small (sr_hbmId s)) by lia.
  destruct (oi_infl _ _ _ _ _ _ _ _ Ho (sr_hbmId s) ltac:(left)) as (_ & a' & Ha' & Hnone). rewrite Ha in Ha'. injection Ha' as <-.
  set (w' := set_writeResponses _ _).
  assert (forall i j, have_w w' i j = if decide ((i, j) = (ra_id a, sr_hbmId s)) then Some [mk_aximmWResp (ra_id a) OKAY 0 true] else have_w w i j) as Hh.
  { intros i j. unfold have_w. cbn. rewrite nested_insert. by case_decide. }
  split_and!; try done.
  - eapply ord_arrive; [exact Ho|exact Ha| | |exact Hh]; [|done]. unfold wwant. rewrite Ha. cbn. by rewrite decide_True.
  - intros cur Hc. unfold wshowing, showing in *. destruct act as [[id k]|]; [|done].
    destruct Hc as (? & ? & l & Hl). split_and!; [done..|]. exists l. rewrite Hh, decide_False; [done|]. congruence.
Qed.

Lemma service_spec now l r w served act part I servedW actW J : Forall (sched_ok g) l ->
  rord (hg_ars g) (rwant g) r served act part (sr_nums true l ++ I) -> word (hg_aws g) (wwant g) w servedW actW [] (sr_nums false l ++ J) ->
  exists l' r' w', serviceScheduledResponses now l r w = Ok (l', r', w') /\ Forall (sched_ok g) l' /\
    rord (hg_ars g) (rwant g) r' served act part (sr_nums true l' ++ I) /\ rframe r r' /\
    word (hg_aws g) (wwant g) w' servedW actW [] (sr_nums false l' ++ J) /\ wframe w w' /\
    outstandingWriteCmds w' = outstandingWriteCmds w /\ (forall cur, wshowing w actW cur -> wshowing w' actW cur).
Proof using Hg.
  revert r w. induction l as [|s l IH]; intros r w Hl Hr Hw.
  { exists [], r, w. cbn. by split_and!. }
  apply Forall_cons in Hl as [Hs Hl]. cbn [serviceScheduledResponses]. destruct (sr_readyTick s <=? now).
  - destruct (sr_isRead s) eqn:Er.
    + destruct (arrive_read s r served act part (sr_nums true l ++ I)) as (r1 & -> & Hr1 & F1 & F2 & F3 & F4); [done|done| |].
      { unfold sr_nums in *. rewrite filter_cons, decide_True in Hr by done. exact Hr. }
      cbn [rbind]. destruct (IH r1 w Hl Hr1) as (l' & r' & w' & -> & H1 & H2 & (G1 & G2 & G3 & G4) & H3 & (H4 & H5 & H6) & H7 & H8).
      { unfold sr_nums in *. by rewrite filter_cons, decide_False in Hw by congruence. }
      exists l', r', w'. split_and!; try done. split_and!; [congruence..|]. auto.
    + destruct (arrive_write s w servedW actW (sr_nums false l ++ J)) as (Hw1 & (F1 & F2 & F3) & F4 & F5); [done|done| |].
      { unfold sr_nums in *. rewrite filter_cons, decide_True in Hw by done. exact Hw. }
      destruct (IH r (enqueueCompletedWrite s w) Hl) as (l' & r' & w' & -> & H1 & H2 & H3 & H4 & (G1 & G2 & G3) & G4 & G5); [|done|].
      { unfold sr_nums in *. by rewrite filter_cons, decide_False in Hr by congruence. }
      exists l', r', w'. split_and!; try done. auto.
  - exists (s :: l), r, w. split_and!; try done. by constructor.
Qed.

Lemma cmd_pkt ev cmd pkt : cmd_for g ev cmd -> cmdPkt cmd = Ok pkt -> pkt_for g ev pkt /\ pk_isRead pkt = cmd_isRead cmd /\ pk_hbm pkt = mc_hbm cmd.
Proof using Hg.
  unfold cmd_for, pkt_for, cmdPkt. destruct Hg as [_ _ Hr Hw]. destruct ev as [[] k]; cbn [fst snd].
  - intros (a & t & Ha & ->). cbn. intros [= <-]. apply number_range in Ha as Hk. rewrite u32_small by lia. rewrite Z.shiftl_1_l. split; [|done]. by exists a.
  - intros (a & bs & t & Ha & Hb & ->). cbn. intros [Hl [= <-]]%guard_Ok. apply number_range in Ha as Hk. rewrite u32_small by lia.
    rewrite Z.shiftl_1_l in *. split; [|done]. exists a, bs. split_and!; try done. apply Z.leb_le in Hl. exact Hl.
Qed.

(** What leaves through the port. *)
Lemma send_front_spec send p p' sent : port_inv p g -> send_front send p = Ok (p', sent) ->
  exists cmds, pendingCmds p = cmds ++ pendingCmds p' /\ Forall2 (fun cmd pkt => cmdPkt cmd = Ok pkt) cmds sent /\
    scheduledResponses p' = scheduledResponses p /\
    (needToRetry p' = true -> exists cmd pkt, head (pendingCmds p') = Some cmd /\ cmdPkt cmd = Ok pkt /\ retry_pkt p' = Some pkt).
Proof.
  intros Hp E. unfold send_front in E. destruct (needToRetry p) eqn:Hr.
  - destruct (pi_retry _ _ Hp Hr) as (cmd & pkt & Hh & Hc & Hpkt). rewrite Hpkt in E. cbn in E.
    destruct (pendingCmds p) as [|cmd' l] eqn:El; [done|]. injection Hh as ->. destruct send; injection E as <- <-.
    + exists [cmd]. split_and!; try done. by repeat constructor.
    + exists []. split_and!; try done. intros _. by exists cmd, pkt.
  - destruct (pendingCmds p) as [|cmd l] eqn:El; [done|]. cbn in E. apply rbind_Ok in E as (pkt & Hc & E). destruct send; injection E as <- <-.
    + exists [cmd]. split_and!; try done. by repeat constructor.
    + exists []. split_and!; try done. intros _. by exists cmd, pkt.
Qed.
Lemma issue_spec c e others now send sh p p' sh' sent : port_inv p g -> issueCommand c e others now send sh p = Ok (p', sh', sent) ->
  exists cmds, pendingCmds p = cmds ++ pendingCmds p' /\ Forall2 (fun cmd pkt => cmdPkt cmd = Ok pkt) cmds sent /\
    scheduledResponses p' = scheduledResponses p /\
    (needToRetry p' = true -> exists cmd pkt, head (pendingCmds p') = Some cmd /\ cmdPkt cmd = Ok pkt /\ retry_pkt p' = Some pkt).
Proof.
  intros Hp E. assert (exists cmds, pendingCmds p = cmds ++ pendingCmds p /\ Forall2 (fun cmd pkt => cmdPkt cmd = Ok pkt) cmds [] /\
    scheduledResponses p = scheduledResponses p /\
    (needToRetry p = true -> exists cmd pkt, head (pendingCmds p) = Some cmd /\ cmdPkt cmd = Ok pkt /\ retry_pkt p = Some pkt)) as Hsame.
  { exists []. split_and!; try done. apply (pi_retry _ _ Hp). }
  unfold issueCommand in E. apply rbind_Ok in E as (own & _ & E). apply rbind_Ok in E as ([k a] & _ & E).
  destruct (_ && _); [|by injection E as <- <- <-]. destruct (pendingCmds p) as [|cmd l] eqn:El; [by injection E as <- <- <-; rewrite El|].
  apply rbind_Ok in E as ([p1 sent1] & E1 & E). assert (p' = p1 /\ sent = sent1) as [-> ->].
  { destruct send; [apply rbind_Ok in E as (sh2 & _ & E)|]; by injection E as <- _ <-. }
  destruct (send_front_spec _ _ _ _ Hp E1) as (cmds & H1 & H2). exists cmds. by rewrite El in H1.
Qed.

Lemma sent_pkts evs cmds sent : Forall2 (cmd_for g) evs cmds -> Forall2 (fun cmd pkt => cmdPkt cmd = Ok pkt) cmds sent ->
  Forall2 (pkt_for g) evs sent /\ forall b, pk_nums b sent = cmd_nums b cmds.
Proof using Hg.
  intros H. revert sent. induction H as [|ev cmd evs cmds Hc Hcs IH]; intros sent Hs; [by apply Forall2_nil_inv_l in Hs as ->|].
  apply Forall2_cons_inv_l in Hs as (pkt & sent' & Hp & Hs & ->). destruct (IH _ Hs) as [I1 I2]. destruct (cmd_pkt _ _ _ Hc Hp) as (P1 & P2 & P3).
  split; [by constructor|]. intros b. unfold pk_nums, cmd_nums in *. rewrite !filter_cons, P2. case_decide; cbn; rewrite ?I2; [by rewrite P3|done].
Qed.

(** Packets leave. *)
Definition log_sent (sent : list hbmPkt) : hlog :=
  mk_hlog (hg_ars g) (hg_aws g) (hg_ws g) (hg_cmds g) (hg_sent g ++ sent) (hg_out g ++ sent) (hg_ans g) (hg_wans g) (hg_r g) (hg_b g).
Lemma sent_inv p p' cmds sent : port_inv p g -> pendingCmds p = cmds ++ pendingCmds p' -> Forall2 (fun cmd pkt => cmdPkt cmd = Ok pkt) cmds sent ->
  scheduledResponses p' = scheduledResponses p ->
  (needToRetry p' = true -> exists cmd pkt, head (pendingCmds p') = Some cmd /\ cmdPkt cmd = Ok pkt /\ retry_pkt p' = Some pkt) ->
  port_inv p' (log_sent sent) /\ forall b, under_way b p' (log_sent sent) ≡ₚ under_way b p g.
Proof using Hg.
  intros [(evs0 & evs1 & E & H0 & H1) _ Ho Hs] Ep Hsent Esch Hr. rewrite Ep in H1. apply Forall2_app_inv_r in H1 as (e1 & e2 & H1 & H2 & ->).
  destruct (sent_pkts _ _ _ H1 Hsent) as [H3 H4]. split; [split|].
  - exists (evs0 ++ e1), e2. split_and!; [by rewrite <- app_assoc|by apply Forall2_app|done].
  - done.
  - apply Forall_app. split; [done|]. apply Forall_lookup. intros i pkt Hi. apply (Forall2_lookup_r _ _ _ _ _ H3) in Hi as (ev & _ & Hev). by exists ev.
  - rewrite Esch. exact Hs.
  - intros b. unfold under_way. rewrite Esch, Ep. cbn [log_sent hg_out]. unfold pk_nums, cmd_nums in *. rewrite !filter_app, !fmap_app, H4.
    rewrite <- !app_assoc. rewrite (Permutation_app_swap_app (mc_hbm <$> filter _ cmds)). apply Permutation_app_head. by rewrite Permutation_app_swap_app.
Qed.

(** A cycle up to the clock edge: responses are handed over and the next ones chosen. *)
Definition log_resp (m : aximmMasterState) (cur : aximmSlaveState) : hlog :=
  mk_hlog (hg_ars g) (hg_aws g) (hg_ws g) (hg_cmds g) (hg_sent g) (hg_out g) (hg_ans g) (hg_wans g)
    (hg_r g ++ taken (mms_rReady m && rd_valid (mss_r cur)) (mss_r cur)) (hg_b g ++ taken (mms_bReady m && wr_valid (mss_b cur)) (mss_b cur)).
End Steps.

(** The invariant, with the responses [r] and [b] on the channels. *)
Definition tile_inv (t : hbmTile) (cur_r : aximmRWData) (cur_b : aximmWResp) (g : hlog) : Prop :=
  log_ok g /\ port_inv (ht_p t) g /\ data_inv (ht_w t) g /\
  (exists served part, read_inv (ht_r t) cur_r (ht_p t) g served part /\ ridle (ht_r t)) /\
  (exists served act, write_inv (ht_w t) cur_b (ht_p t) g served act /\ widle (ht_w t) act).

Lemma update_inv c e others now send m sh t t1 sh1 sent g : tile_inv t (mss_r (ht_current t)) (mss_b (ht_current t)) g ->
  tile_updateTileNSU c e others now send m sh t = Ok (t1, sh1, sent) ->
  tile_inv t1 (mss_r (ht_next t1)) (mss_b (ht_next t1)) (log_resp (log_sent g sent) m (ht_current t)) /\
  ht_current t1 = ht_current t /\ ht_in t1 = m /\
  ht_next t1 = mk_aximmSlaveState (canAcceptRead c t1) (mss_r (ht_next t1)) (canAcceptWriteAddr c t1) (canAcceptWriteData (ht_w t1)) (mss_b (ht_next t1)) /\
  queued t1 <= queued t /\ outstandingReadCmds (ht_r t1) <= Z.max 0 (outstandingReadCmds (ht_r t)) /\
  outstandingWriteCmds (ht_w t1) <= Z.max 0 (outstandingWriteCmds (ht_w t)).
Proof.
  intros (Hg & Hp & Hd & (sr & part & [Ro Rc Rn Rl] & Ri) & (sw & act & [Wo Wc Wn Wl] & Wi)) E. unfold tile_updateTileNSU in E.
  set (I b := cmd_nums b (pendingCmds (ht_p t)) ++ pk_nums b (hg_out g)). set (ids := pendingWriteDataIds (ht_w t)).
  assert (forall b l, cmd_nums b (pendingCmds (ht_p t)) ++ pk_nums b (hg_out g) ++ sr_nums b l ≡ₚ sr_nums b l ++ I b) as HI.
  { intros b l. unfold I. by rewrite app_assoc, (Permutation_app_comm (sr_nums b l)). }
  destruct (service_spec g Hg now (scheduledResponses (ht_p t)) (ht_r t) (ht_w t) sr (act_of (ht_r t)) part (I true) sw act (ids ++ I false))
    as (l' & r1 & w1 & Es & Hl' & Ro1 & (F1 & F2 & F3 & F4) & Wo1 & (F5 & F6 & F7) & F8 & F9); [apply (pi_sched _ _ Hp)|..].
  { eapply ord_perm; [|exact Ro]. apply HI. }
  { eapply ord_perm; [|exact Wo]. rewrite Permutation_app_swap_app. apply Permutation_app_head, HI. }
  rewrite Es in E. cbn [rbind] in E. apply rbind_Ok in E as ([[p1 sh2] sent1] & Ei & E).
  set (p0 := set_scheduled l' (ht_p t)) in *. assert (port_inv p0 g) as Hp0 by (destruct Hp; by split).
  destruct (issue_spec g c e others now send sh p0 p1 sh2 sent1 Hp0 Ei) as (cmds & I1 & I2 & I3 & I4).
  destruct (sent_inv g Hg p0 p1 cmds sent1 Hp0 I1 I2 I3 I4) as [Hp1 Hu]. destruct Hg as [Hars Haws Hrn Hwn].
  rewrite <- F1 in Ro1. destruct (next_read_spec _ _ Hars (rwant_ok g) (mms_rReady m) _ _ _ _ _ Ro1 (F4 _ Rc)) as (nr & r2 & sr' & part' & Er & R1 & R2 & R3 & R4 & R5 & R6).
  destruct (next_write_spec _ _ Haws (wwant_ok g) (mms_bReady m) _ _ _ _ _ Wo1 (F9 _ Wc)) as (nb & w2 & sw' & act' & Ew & W1 & W2 & W3 & W4 & (W5 & W6 & W7) & W8).
  rewrite Er in E. cbn [rbind] in E. rewrite Ew in E. cbn [rbind] in E. injection E as <- <- <-. cbn [ht_next ht_current ht_in ht_r ht_w ht_p mss_r mss_b].
  split_and!; try done.
  - unfold tile_inv. cbn [ht_r ht_w ht_p]. split_and!; [by split|destruct Hp1; by split| |exists sr', part'|exists sw', act'].
    + destruct Hd as [D1 D2 D3 D4]. split; [done|by rewrite W6, F6|intros k; by rewrite W5, F5|done].
    + split; [|done]. split; [|done|by rewrite R5, F2|transitivity (handed (rwant g) sr' part'); [by rewrite R4, <- Rl|done]]. eapply ord_perm; [|exact R1].
      etransitivity; [|symmetry; apply (Hu true)]. symmetry. apply HI.
    + split; [|done]. split; [|done|by rewrite W7, F7|transitivity (handed (wwant g) sw' []); [by rewrite W4, <- Wl|done]]. eapply ord_perm; [|exact W1]. rewrite W6, F6. fold ids.
      rewrite (Permutation_app_swap_app (sr_nums false l')). apply Permutation_app_head. etransitivity; [|symmetry; apply (Hu false)]. symmetry. apply HI.
  - unfold queued. cbn [ht_p ht_w]. rewrite W5, F5. cbn [p0 set_scheduled pendingCmds] in I1. rewrite I1, length_app. lia.
  - lia.
  - lia.
Qed.

(** ** The clock edge *)

(** A longer history: more requests and bursts. *)
Record log_le (g g' : hlog) : Prop := {
  ll_ars : hg_ars g `prefix_of` hg_ars g';
  ll_aws : hg_aws g `prefix_of` hg_aws g';
  ll_bursts : (bursts (hg_ws g)).1 `prefix_of` (bursts (hg_ws g')).1;
  ll_ans : hg_ans g' = hg_ans g;
  ll_wans : hg_wans g' = hg_wans g
}.
Lemma number_le l l' k a : l `prefix_of` l' -> number l k = Some a -> number l' k = Some a.
Proof. intros [x ->]. apply number_app. Qed.

Section Longer.
Context (g g' : hlog) (Hle : log_le g g').
Lemma pkt_for_le ev pkt : pkt_for g ev pkt -> pkt_for g' ev pkt.
Proof using Hle.
  destruct Hle as [H1 H2 H3 _ _]. unfold pkt_for. destruct ev as [[] k]; cbn.
  - intros (a & Ha & ->). exists a. split; [by eapply number_le|done].
  - intros (a & bs & Ha & Hb & Hl & ->). exists a, bs. split_and!; [by eapply number_le|by eapply prefix_lookup_Some|done|done].
Qed.
Lemma cmd_for_le ev cmd : cmd_for g ev cmd -> cmd_for g' ev cmd.
Proof using Hle.
  destruct Hle as [H1 H2 H3 _ _]. unfold cmd_for. destruct ev as [[] k]; cbn.
  - intros (a & t & Ha & ->). exists a, t. split; [by eapply number_le|done].
  - intros (a & bs & t & Ha & Hb & ->). exists a, bs, t. split_and!; [by eapply number_le|by eapply prefix_lookup_Some|done].
Qed.
Lemma sched_ok_le s : sched_ok g s -> sched_ok g' s.
Proof using Hle.
  destruct Hle as [H1 H2 _ H4 H5]. unfold sched_ok. rewrite H4, H5. destruct (sr_isRead s); intros (a & Ha & H); exists a; (split; [by eapply number_le|done]).
Qed.
Lemma rwant_le k l : rwant g k = Some l -> rwant g' k = Some l.
Proof using Hle.
  destruct Hle as [H1 _ _ H4 _]. unfold rwant. rewrite H4. destruct (number (hg_ars g) k) as [a|] eqn:Ha; [|done]. by rewrite (number_le _ _ _ _ H1 Ha).
Qed.
Lemma wwant_le k l : wwant g k = Some l -> wwant g' k = Some l.
Proof using Hle.
  destruct Hle as [_ H2 _ _ H5]. unfold wwant. rewrite H5. destruct (number (hg_aws g) k) as [a|] eqn:Ha; [|done]. by rewrite (number_le _ _ _ _ H2 Ha).
Qed.

(** New commands [cmds] at the end of the queue. *)
Lemma port_inv_le p evs cmds : port_inv p g -> hg_cmds g' = hg_cmds g ++ evs -> hg_sent g' = hg_sent g -> hg_out g' = hg_out g ->
  Forall2 (cmd_for g') evs cmds -> port_inv (set_pending (pendingCmds p ++ cmds) p) g'.
Proof using Hle.
  intros [(evs0 & evs1 & E & H0 & H1) Hr Ho Hs] E1 E2 E3 Hc. split.
  - exists evs0, (evs1 ++ evs). rewrite E1, E2, E. split_and!; [by rewrite app_assoc|eapply Forall2_impl; [exact H0|intros; by apply pkt_for_le]|].
    apply Forall2_app; [|done]. eapply Forall2_impl; [exact H1|intros; by apply cmd_for_le].
  - intros H. destruct (Hr H) as (cmd & pkt & Hh & ?). exists cmd, pkt. cbn. by destruct (pendingCmds p).
  - rewrite E3. eapply Forall_impl; [exact Ho|]. intros pkt [ev Hev]. exists ev. by apply pkt_for_le.
  - eapply Forall_impl; [exact Hs|]. apply sched_ok_le.
Qed.
Lemma read_ord_le r served act part infl : rord (hg_ars g) (rwant g) r served act part infl ->
  rord (hg_ars g) (rwant g') r served act part infl /\ handed (rwant g) served part = handed (rwant g') served part.
Proof using Hle.
  intros Ho. split; [eapply ord_answer; [intros k l _; apply rwant_le|done]|]. apply handed_same. intros k Hk.
  destruct (oi_served _ _ _ _ _ _ _ _ Ho k Hk) as [[l Hl] _]. by rewrite Hl, (rwant_le _ _ Hl).
Qed.
Lemma write_ord_le w served act part infl : word (hg_aws g) (wwant g) w served act part infl ->
  word (hg_aws g) (wwant g') w served act part infl /\ handed (wwant g) served part = handed (wwant g') served part.
Proof using Hle.
  intros Ho. split; [eapply ord_answer; [intros k l _; apply wwant_le|done]|]. apply handed_same. intros k Hk.
  destruct (oi_served _ _ _ _ _ _ _ _ Ho k Hk) as [[l Hl] _]. by rewrite Hl, (wwant_le _ _ Hl).
Qed.
End Longer.

Lemma under_way_snoc b p g g' cmds : hg_out g' = hg_out g ->
  under_way b (set_pending (pendingCmds p ++ cmds) p) g' ≡ₚ cmd_nums b cmds ++ under_way b p g.
Proof. intros E. unfold under_way, cmd_nums. cbn. rewrite E, filter_app, fmap_app, <- app_assoc. apply Permutation_app_swap_app. Qed.

(** No answer can be chosen after a request was accepted either. *)
Lemma idle_accept {B} reqs want (have : Z -> Z -> option (list B)) q q' served act part infl a : idle have q ->
  ord_inv (reqs ++ [a]) want have q' served act part (nz (length reqs) :: infl) ->
  (forall id, q' id = q id ++ (if decide (ra_id a = id) then [nz (length reqs)] else [])) -> idle have q'.
Proof.
  intros Hi Ho Hq i k Hk. rewrite Hq in Hk. destruct (q i) as [|k' l] eqn:E.
  - case_decide as Ei; [|done]. cbn in Hk. injection Hk as <-. destruct (oi_infl _ _ _ _ _ _ _ _ Ho (nz (length reqs)) ltac:(left)) as (_ & x & Hx & Hn).
    rewrite number_new in Hx. injection Hx as <-. by rewrite <- Ei.
  - apply Hi. by rewrite E.
Qed.

Definition log_ar (a : aximmRWAddr) (g : hlog) : hlog :=
  mk_hlog (hg_ars g ++ [a]) (hg_aws g) (hg_ws g) (hg_cmds g ++ [(true, nz (length (hg_ars g)))]) (hg_sent g) (hg_out g) (hg_ans g) (hg_wans g) (hg_r g) (hg_b g).
Definition log_aw (a : aximmRWAddr) (g : hlog) : hlog :=
  mk_hlog (hg_ars g) (hg_aws g ++ [a]) (hg_ws g) (hg_cmds g) (hg_sent g) (hg_out g) (hg_ans g) (hg_wans g) (hg_r g) (hg_b g).
Definition log_w (b : aximmRWData) (g : hlog) : hlog :=
  mk_hlog (hg_ars g) (hg_aws g) (hg_ws g ++ [b]) (hg_cmds g ++ taken (rd_last b) (false, nz (length (bursts (hg_ws g)).1))) (hg_sent g) (hg_out g)
    (hg_ans g) (hg_wans g) (hg_r g) (hg_b g).
Lemma bursts_snoc ws b : bursts (ws ++ [b]) = add_beat (bursts ws) b.
Proof. unfold bursts. by rewrite foldl_snoc. Qed.

(** The invariants after an operation that leaves one side alone. *)
Lemma read_inv_le g g' r cur p p' served part : log_le g g' -> hg_ars g' = hg_ars g -> hg_r g' = hg_r g -> under_way true p' g' ≡ₚ under_way true p g ->
  read_inv r cur p g served part -> read_inv r cur p' g' served part.
Proof.
  intros Hle E1 E2 Hu [Ho Hc Hn Hl]. destruct (read_ord_le g g' Hle _ _ _ _ _ Ho) as [Ho' Hh]. split; [|done|by rewrite E1|by rewrite E2, Hl].
  rewrite E1. eapply ord_perm; [by symmetry|exact Ho'].
Qed.
Lemma write_inv_le g g' w cur p p' served act : log_le g g' -> hg_aws g' = hg_aws g -> hg_b g' = hg_b g -> under_way false p' g' ≡ₚ under_way false p g ->
  write_inv w cur p g served act -> write_inv w cur p' g' served act.
Proof.
  intros Hle E1 E2 Hu [Ho Hc Hn Hl]. destruct (write_ord_le g g' Hle _ _ _ _ _ Ho) as [Ho' Hh]. split; [|done|by rewrite E1|by rewrite E2, Hl].
  rewrite E1. eapply ord_perm; [|exact Ho']. by rewrite Hu.
Qed.
Lemma Forall2_one {A B} (P : A -> B -> Prop) x y : P x y -> Forall2 P [x] [y].
Proof. by repeat constructor. Qed.

Lemma accept_ar_inv c now t t' nr nb g : tile_inv t nr nb g -> (ra_valid (mms_ar (ht_in t)) = true -> hreq_ok (mms_ar (ht_in t))) ->
  tile_accept_ar c now t = Ok t' ->
  tile_inv t' nr nb (if mss_arReady (ht_current t) && ra_valid (mms_ar (ht_in t)) then log_ar (mms_ar (ht_in t)) g else g) /\
  ht_current t' = ht_current t /\ ht_next t' = ht_next t /\ ht_in t' = ht_in t /\ ht_w t' = ht_w t /\
  queued t' = queued t + (if mss_arReady (ht_current t) && ra_valid (mms_ar (ht_in t)) then 1 else 0) /\
  outstandingReadCmds (ht_r t') = outstandingReadCmds (ht_r t) + (if mss_arReady (ht_current t) && ra_valid (mms_ar (ht_in t)) then 1 else 0).
Proof.
  intros (Hg & Hp & Hd & (sr & part & Hr & Ri) & (sw & act & Hw & Wi)) Hok E. unfold tile_accept_ar in E.
  destruct (mss_arReady (ht_current t) && ra_valid (mms_ar (ht_in t))) eqn:Eb; [|injection E as <-; rewrite !Z.add_0_r; split; [split_and!; try done; eauto|done]].
  apply andb_true_iff in Eb as [_ Hv]. specialize (Hok Hv). set (a := mms_ar (ht_in t)) in *. apply guard_Ok in E as [Hk E]. apply Z.ltb_lt in Hk.
  injection E as <-. cbn [ht_current ht_next ht_in ht_w ht_r]. split_and!; try done; [|unfold queued; cbn [ht_p ht_w set_pending pendingCmds]; rewrite length_app; cbn; lia].
  destruct Hr as [Ro Rc Rn Rl]. rewrite Rn in *. set (n := nz (length (hg_ars g))) in *. set (cmd := mk_MemCmd _ _ _ _ _).
  assert (log_le g (log_ar a g)) as Hle by (split; try done; by eexists).
  destruct (read_ord_le _ _ Hle _ _ _ _ _ Ro) as [Ro' Hh].
  assert (forall id, queue_at (<[s32 (ra_id a) := queue_at (inOrderReadResp_Queue (ht_r t)) (s32 (ra_id a)) ++ [n]]> (inOrderReadResp_Queue (ht_r t))) id =
    queue_at (inOrderReadResp_Queue (ht_r t)) id ++ (if decide (ra_id a = id) then [n] else [])) as Hq.
  { intros id. rewrite queue_insert, (s32_id _ Hok). destruct (decide (id = ra_id a)) as [-> |]; [by rewrite decide_True|by rewrite decide_False, app_nil_r]. }
  pose proof (ord_accept _ _ _ _ _ _ _ _ _ a Ro' Hq) as Ra. unfold tile_inv. cbn [ht_r ht_w ht_p].
  assert (under_way true (set_pending (pendingCmds (ht_p t) ++ [cmd]) (ht_p t)) (log_ar a g) ≡ₚ n :: under_way true (ht_p t) g) as Hu by exact (under_way_snoc true (ht_p t) g (log_ar a g) [cmd] eq_refl).
  split_and!.
  - destruct Hg as [G1 G2 G3 G4]. split; try done; cbn; [by apply Forall_app_2; [|constructor]|]. rewrite length_app. cbn. lia.
  - eapply (port_inv_le g _ Hle _ [(true, n)]); try done. apply Forall2_one. exists a. eexists. split; [apply number_new|reflexivity].
  - destruct Hd as [D1 D2 D3 D4]. by split.
  - exists sr, part. split; [split|].
    + eapply ord_perm; [symmetry; exact Hu|exact Ra].
    + exact Rc.
    + cbn. rewrite length_app. cbn. lia.
    + cbn [log_ar hg_r]. by rewrite Rl, Hh.
    + intros Hact. eapply idle_accept; [by apply Ri|exact Ra|exact Hq].
  - exists sw, act. split; [|done]. eapply write_inv_le; [exact Hle|done|done| |exact Hw].
    exact (under_way_snoc false (ht_p t) g (log_ar a g) [cmd] eq_refl).
Qed.

Lemma accept_aw_inv t w' nr nb g a : tile_inv t nr nb g -> hreq_ok a -> tile_accept_aw (ht_w t) a = Ok w' ->
  tile_inv (mk_hbmTile (ht_current t) (ht_next t) (ht_in t) (ht_r t) w' (ht_p t)) nr nb (log_aw a g) /\
  nz (size (ws_requests w')) = nz (size (ws_requests (ht_w t))) + 1 /\ outstandingWriteCmds w' = outstandingWriteCmds (ht_w t) + 1.
Proof.
  intros (Hg & Hp & Hd & (sr & part & Hr & Ri) & (sw & act & Hw & Wi)) Hok E. unfold tile_accept_aw in E. apply guard_Ok in E as [Hk E]. apply Z.ltb_lt in Hk.
  destruct Hw as [Wo Wc Wn Wl]. rewrite Wn in *. set (n := nz (length (hg_aws g))) in *. destruct Hd as [D1 D2 D3 D4].
  set (nbur := length (bursts (hg_ws g)).1) in *.
  assert (number (hg_aws g) n = None) as Hnone. { destruct (number (hg_aws g) n) eqn:Ex; [|done]. apply number_range in Ex. lia. }
  assert (ws_requests (ht_w t) !! n = None) as Hreq by (rewrite D3, Hnone; by case_decide). rewrite Hreq in E. cbn [default snd] in E. injection E as <-.
  cbn [ws_requests outstandingWriteCmds]. split_and!; [|rewrite map_size_insert_None by done; lia|done].
  assert (log_le g (log_aw a g)) as Hle by (split; try done; by eexists).
  destruct (write_ord_le _ _ Hle _ _ _ _ _ Wo) as [Wo' Hh].
  assert (forall id, queue_at (<[s32 (ra_id a) := queue_at (inOrderWriteResp_Queue (ht_w t)) (s32 (ra_id a)) ++ [n]]> (inOrderWriteResp_Queue (ht_w t))) id =
    queue_at (inOrderWriteResp_Queue (ht_w t)) id ++ (if decide (ra_id a = id) then [n] else [])) as Hq.
  { intros id. rewrite queue_insert, (s32_id _ Hok). destruct (decide (id = ra_id a)) as [-> |]; [by rewrite decide_True|by rewrite decide_False, app_nil_r]. }
  pose proof (ord_accept _ _ _ _ _ _ _ _ _ a Wo' Hq) as Wa. unfold tile_inv. cbn [ht_r ht_w ht_p]. split_and!.
  - destruct Hg as [G1 G2 G3 G4]. split; try done; cbn; [by apply Forall_app_2; [|constructor]|]. rewrite length_app. cbn. lia.
  - replace (ht_p t) with (set_pending (pendingCmds (ht_p t) ++ []) (ht_p t)) by (rewrite app_nil_r; by destruct (ht_p t)).
    eapply (port_inv_le g _ Hle _ []); try done. cbn. by rewrite app_nil_r.
  - split; cbn [log_aw hg_ws hg_aws pendingWriteDataIds ws_requests]; fold nbur.
    + rewrite length_app. lia.
    + rewrite D2, length_app, Nat.add_1_r, Nat.sub_succ_l, seq_S, fmap_app by lia. cbn. do 2 f_equal. unfold n. lia.
    + intros k. destruct (decide (k = n)) as [-> |Hne].
      * rewrite lookup_insert_eq, number_new, decide_True by lia. cbn. do 2 f_equal. case_decide as Ek; [|done]. symmetry. apply D4. lia.
      * by rewrite lookup_insert_ne, D3, number_old by done.
    + rewrite length_app. cbn. lia.
  - exists sr, part. split; [|done]. eapply read_inv_le; [exact Hle|done|done|exact (Permutation_refl _)|exact Hr].
  - exists sw, act. split; [split|].
    + eapply ord_perm; [|exact Wa]. cbn [pendingWriteDataIds]. rewrite <- app_assoc. apply Permutation_middle.
    + exact Wc.
    + cbn. rewrite length_app. cbn. lia.
    + cbn [log_aw hg_b]. by rewrite Wl, Hh.
    + intros Hact. eapply idle_accept; [by apply Wi|exact Wa|exact Hq].
Qed.

(** The address that the next W beat belongs to. *)
Lemma data_front w g k ids : data_inv w g -> pendingWriteDataIds w = k :: ids ->
  let n := length (bursts (hg_ws g)).1 in
  k = nz n /\ (n < length (hg_aws g))%nat /\ ids = nz <$> seq (S n) (length (hg_aws g) - S n) /\
  exists a, number (hg_aws g) k = Some a /\ ws_requests w !! k = Some (a, (bursts (hg_ws g)).2).
Proof.
  intros [D1 D2 D3 D4] E. cbn zeta. set (n := length (bursts (hg_ws g)).1) in *. rewrite E in D2.
  destruct (length (hg_aws g) - n)%nat as [|d] eqn:Ed; [done|]. cbn in D2. injection D2 as -> ->. split_and!; [done|lia|do 2 f_equal; lia|].
  destruct (lookup_lt_is_Some_2 (hg_aws g) n) as [a Ha]; [lia|]. exists a.
  assert (number (hg_aws g) (nz n) = Some a) as Hn. { unfold number. rewrite (proj2 (Z.leb_le _ _)) by lia. by rewrite Nat2Z.id. }
  split; [done|]. rewrite D3, Hn, decide_True by done. cbn. by rewrite decide_True.
Qed.

(** The write side after W data moved. *)
Lemma write_inv_data g g' w w' cur p p' served act : log_le g g' -> hg_aws g' = hg_aws g -> hg_b g' = hg_b g ->
  pendingWriteDataIds w' ++ under_way false p' g' ≡ₚ pendingWriteDataIds w ++ under_way false p g ->
  set_wdata ∅ [] w' = set_wdata ∅ [] w -> write_inv w cur p g served act -> widle w act -> write_inv w' cur p' g' served act /\ widle w' act.
Proof.
  intros Hle A1 A2 Hu Es [Wo Wc Wn Wl] Wi. injection Es as E1 E2 E3 _ _. destruct (write_ord_le _ _ Hle _ _ _ _ _ Wo) as [Wo' Hh].
  assert (have_w w' = have_w w) as E4 by (unfold have_w; by rewrite E1). split; [split|].
  - unfold word. rewrite A1, E4, E2. eapply ord_perm; [by symmetry|exact Wo'].
  - unfold wshowing. by rewrite E4.
  - by rewrite A1, E3.
  - by rewrite A2, Wl, Hh.
  - unfold widle. by rewrite E4, E2.
Qed.

Lemma accept_w_inv c now t w' pending' nr nb g b : tile_inv t nr nb g -> tile_accept_w c now b (ht_w t) (pendingCmds (ht_p t)) = Ok (w', pending') ->
  tile_inv (mk_hbmTile (ht_current t) (ht_next t) (ht_in t) (ht_r t) w' (set_pending pending' (ht_p t))) nr nb (log_w b g) /\
  nz (length pending') + nz (size (ws_requests w')) = queued t /\ outstandingWriteCmds w' = outstandingWriteCmds (ht_w t).
Proof.
  intros (Hg & Hp & Hd & (sr & part & Hr & Ri) & (sw & act & Hw & Wi)) E. unfold tile_accept_w in E.
  destruct (pendingWriteDataIds (ht_w t)) as [|k ids] eqn:Ei; [done|]. destruct (data_front _ _ _ _ Hd Ei) as (Hk & Hlt & Hids & a & Ha & Hreq).
  rewrite Hreq in E. cbn [default] in E. set (n := length (bursts (hg_ws g)).1) in *.
  assert (log_le g (log_w b g)) as Hle.
  { split; try done. cbn [log_w hg_ws]. rewrite bursts_snoc. unfold add_beat. destruct (rd_last b); cbn; [by eexists|done]. }
  destruct Hd as [D1 D2 D3 D4]. fold n in D1, D2, D3, D4. destruct (rd_last b) eqn:Elast.
  - apply rbind_Ok in E as (cmd & Ec & E). unfold buffer_writeRequestPacket in Ec. apply guard_Ok in Ec as [_ [= <-]]. set (cmd := mk_MemCmd _ _ _ _ _) in *.
    injection E as <- <-. assert (bursts (hg_ws g ++ [b]) = ((bursts (hg_ws g)).1 ++ [(bursts (hg_ws g)).2 ++ [b]], [])) as Eb.
    { rewrite bursts_snoc. unfold add_beat. by rewrite Elast. }
    unfold tile_inv. cbn [ht_r ht_w ht_p]. split_and!.
    + destruct Hg. by split.
    + eapply (port_inv_le g _ Hle _ [(false, k)]); try done; [cbn; by rewrite Elast, Hk|]. apply Forall2_one. exists a, ((bursts (hg_ws g)).2 ++ [b]). eexists.
      cbn [fst snd log_w hg_aws hg_ws]. split_and!; [done| |reflexivity]. rewrite Eb, Hk, Nat2Z.id. by apply list_lookup_middle.
    + split; cbn [log_w hg_ws hg_aws set_wdata pendingWriteDataIds ws_requests]; rewrite Eb; cbn [fst snd]; rewrite length_app, Nat.add_1_r; fold n; [lia|done| |done].
      intros j. destruct (decide (j = k)) as [-> |Hj]; [by rewrite lookup_delete_eq, decide_False by lia|]. rewrite lookup_delete_ne, D3 by done.
      destruct (decide (nz n <= j)); [rewrite (decide_True (P := nz (S n) <= j)) by lia|by rewrite (decide_False (P := nz (S n) <= j)) by lia].
      rewrite (decide_False (P := j = nz n)) by lia. by case_decide.
    + exists sr, part. split; [|done]. eapply read_inv_le; [exact Hle|done|done| |exact Hr]. exact (under_way_snoc true (ht_p t) g (log_w b g) [cmd] eq_refl).
    + exists sw, act. eapply (write_inv_data g (log_w b g) (ht_w t) _ nb (ht_p t)); [exact Hle|done|done| |done|exact Hw|done]. cbn [set_wdata pendingWriteDataIds]. rewrite (under_way_snoc false (ht_p t) g (log_w b g) [cmd] eq_refl).
      rewrite Ei. symmetry. apply Permutation_middle.
    + cbn [set_wdata ws_requests]. unfold queued. rewrite length_app. assert (size (ws_requests (ht_w t)) = S (size (delete k (ws_requests (ht_w t))))) as ->; [|cbn; lia].
      rewrite <- map_size_insert_None with (i := k) (x := (a, (bursts (hg_ws g)).2)) by apply lookup_delete_eq. by rewrite insert_delete_id.
    + done.
  - injection E as <- <-. assert (bursts (hg_ws g ++ [b]) = ((bursts (hg_ws g)).1, (bursts (hg_ws g)).2 ++ [b])) as Eb.
    { rewrite bursts_snoc. unfold add_beat. by rewrite Elast. }
    assert (set_pending (pendingCmds (ht_p t)) (ht_p t) = ht_p t) as Ep by (by destruct (ht_p t)). rewrite Ep.
    unfold tile_inv. cbn [ht_r ht_w ht_p]. split_and!.
    + destruct Hg. by split.
    + rewrite <- Ep, <- (app_nil_r (pendingCmds (ht_p t))). eapply (port_inv_le g _ Hle _ []); try done. cbn. by rewrite Elast.
    + split; cbn [log_w hg_ws hg_aws set_wdata pendingWriteDataIds ws_requests]; rewrite Eb; cbn [fst snd]; fold n; [lia|by rewrite <- D2| |lia].
      intros j. destruct (decide (j = k)) as [-> |Hj].
      * rewrite lookup_insert_eq, Ha, decide_True by lia. cbn. by rewrite decide_True.
      * rewrite lookup_insert_ne, D3 by done. by rewrite !(decide_False (P := j = nz n)) by lia.
    + exists sr, part. split; [|done]. eapply read_inv_le; [exact Hle|done|done|exact (Permutation_refl _)|exact Hr].
    + exists sw, act. eapply (write_inv_data g (log_w b g) (ht_w t) _ nb (ht_p t)); [exact Hle|done|done| |done|exact Hw|done]. cbn [set_wdata pendingWriteDataIds]. by rewrite Ei.
    + cbn [set_wdata ws_requests]. unfold queued. by rewrite map_size_insert_Some by (by eexists).
    + done.
Qed.

(** ** Runs *)

Definition when {A} (b : bool) (f : A -> A) (x : A) : A := if b then f x else x.
Lemma log_cycle_parts m t sent g : let cur := ht_current t in
  log_cycle m t sent g =
  when (mss_wReady cur && rd_valid (mms_w m)) (log_w (mms_w m))
    (when (mss_awReady cur && ra_valid (mms_aw m)) (log_aw (mms_aw m))
      (when (mss_arReady cur && ra_valid (mms_ar m)) (log_ar (mms_ar m)) (log_resp (log_sent g sent) m cur))).
Proof.
  cbn zeta. unfold log_cycle.
  destruct (mss_wReady _ && rd_valid _), (mss_awReady _ && ra_valid _), (mss_arReady _ && ra_valid _); unfold when, log_w, log_aw, log_ar, log_resp, log_sent; cbn;
    rewrite ?app_nil_r, ?app_nil_l, <- ?app_assoc; done.
Qed.

Definition b2z (b : bool) : Z := if b then 1 else 0.
Lemma tick_inv c now cd t x t' g : tile_inv t (mss_r (ht_next t)) (mss_b (ht_next t)) g -> inputs_ok (ht_in t) -> hbm_tick c now cd t = Ok (x, t') ->
  let m := ht_in t in let cur := ht_current t in
  let ar := mss_arReady cur && ra_valid (mms_ar m) in let aw := mss_awReady cur && ra_valid (mms_aw m) in
  tile_inv t' (mss_r (ht_current t')) (mss_b (ht_current t'))
    (when (mss_wReady cur && rd_valid (mms_w m)) (log_w (mms_w m)) (when aw (log_aw (mms_aw m)) (when ar (log_ar (mms_ar m)) g))) /\
  ht_current t' = ht_next t /\ queued t' = queued t + b2z ar + b2z aw /\
  outstandingReadCmds (ht_r t') = outstandingReadCmds (ht_r t) + b2z ar /\ outstandingWriteCmds (ht_w t') = outstandingWriteCmds (ht_w t) + b2z aw.
Proof.
  intros Hi [Iar Iaw] E. cbn zeta. unfold hbm_tick in E. apply rbind_Ok in E as (t1 & E1 & E).
  destruct (accept_ar_inv _ _ _ _ _ _ _ Hi Iar E1) as (H1 & C1 & N1 & M1 & W1 & Q1 & O1). rewrite C1, M1, W1 in E.
  apply rbind_Ok in E as (w2 & E2 & E). set (m := ht_in t) in *. set (cur := ht_current t) in *. set (g1 := when (mss_arReady cur && _) _ g) in *.
  assert (tile_inv (mk_hbmTile cur (ht_next t) m (ht_r t1) w2 (ht_p t1)) (mss_r (ht_next t)) (mss_b (ht_next t)) (when (mss_awReady cur && ra_valid (mms_aw m)) (log_aw (mms_aw m)) g1) /\
    nz (size (ws_requests w2)) = nz (size (ws_requests (ht_w t))) + b2z (mss_awReady cur && ra_valid (mms_aw m)) /\
    outstandingWriteCmds w2 = outstandingWriteCmds (ht_w t) + b2z (mss_awReady cur && ra_valid (mms_aw m))) as (H2 & Q2 & O2).
  { destruct (mss_awReady cur && ra_valid (mms_aw m)) eqn:Eb; cbn [b2z when].
    - apply andb_true_iff in Eb as [_ Hv]. rewrite <- W1 in E2 |- *. destruct (accept_aw_inv _ _ _ _ _ _ H1 (Iaw Hv) E2) as (? & ? & ?). by rewrite C1, N1, M1 in *.
    - injection E2 as <-. split_and!; [|lia|lia]. rewrite <- W1. destruct t1. cbn in *. by subst. }
  apply rbind_Ok in E as ([w3 pending] & E3 & E). injection E as <- <-. cbn [ht_current ht_r ht_w]. rewrite N1.
  assert (tile_inv (mk_hbmTile cur (ht_next t) m (ht_r t1) w3 (set_pending pending (ht_p t1))) (mss_r (ht_next t)) (mss_b (ht_next t))
      (when (mss_wReady cur && rd_valid (mms_w m)) (log_w (mms_w m)) (when (mss_awReady cur && ra_valid (mms_aw m)) (log_aw (mms_aw m)) g1)) /\
    nz (length pending) + nz (size (ws_requests w3)) = nz (length (pendingCmds (ht_p t1))) + nz (size (ws_requests w2)) /\
    outstandingWriteCmds w3 = outstandingWriteCmds w2) as (H3 & Q3 & O3).
  { destruct (mss_wReady cur && rd_valid (mms_w m)); cbn [when].
    - exact (accept_w_inv _ _ _ _ _ _ _ _ _ H2 E3).
    - injection E3 as <- <-. split_and!; [|done|done]. replace (set_pending _ _) with (ht_p t1) by (by destruct (ht_p t1)). done. }
  split_and!; [exact H3|done| |done|lia]. unfold queued in *. cbn [ht_p ht_w set_pending pendingCmds]. rewrite W1 in Q1. unfold b2z in *. lia.
Qed.

(** The memory answers. *)
Section Answer.
Context (p : portSide) (g : hlog) (l1 l2 : list hbmPkt) (pkt : hbmPkt) (data : list Z) (s : ScheduledMemResp).
Hypothesis Eo : hg_out g = l1 ++ pkt :: l2.
Hypothesis Hs : sr_isRead s = pk_isRead pkt /\ sr_hbmId s = pk_hbm pkt.
Abbreviation p' := (set_scheduled (scheduledResponses p ++ [s]) p).
Abbreviation g' := (log_answer pkt data (l1 ++ l2) g).

Lemma answer_under_way b : under_way b p' g' ≡ₚ under_way b p g.
Proof using Eo Hs.
  destruct Hs as [E1 E2]. unfold under_way. cbn [log_answer hg_out set_scheduled pendingCmds scheduledResponses]. apply Permutation_app_head. rewrite Eo.
  unfold pk_nums, sr_nums. rewrite !filter_app, !filter_cons, filter_nil, !fmap_app, E1. destruct (decide (pk_isRead pkt = b)); cbn; rewrite ?app_nil_r, ?E2; [|done].
  rewrite <- !app_assoc. apply Permutation_app_head. cbn. rewrite app_assoc. symmetry. apply (Permutation_cons_append _ (pk_hbm pkt)).
Qed.
Lemma answer_rwant k l : k ∉ under_way true p g -> rwant g k = Some l -> rwant g' k = Some l.
Proof using Eo.
  clear Hs. intros Hk. unfold rwant. cbn [log_answer hg_ars hg_ans]. destruct (pk_isRead pkt) eqn:Er; [|done]. rewrite lookup_insert_ne; [done|]. intros <-. apply Hk.
  unfold under_way. rewrite !elem_of_app. right. left. unfold pk_nums. rewrite Eo, filter_app, fmap_app, filter_cons, decide_True by done.
  rewrite elem_of_app. right. left.
Qed.
Lemma answer_wwant k l : wwant g k = Some l -> wwant g' k = Some l.
Proof using.
  clear Hs. unfold wwant. cbn [log_answer hg_aws hg_wans]. destruct (number (hg_aws g) k); [|done]. cbn. case_decide as Hk; [|done].
  rewrite decide_True; [done|]. destruct (pk_isRead pkt); [done|]. apply elem_of_union. by right.
Qed.

(** The answers that were waiting are not touched. *)
Lemma answer_sched s0 : NoDup (under_way true p g) -> s0 ∈ scheduledResponses p -> sched_ok g s0 -> sched_ok g' s0.
Proof using Eo.
  clear Hs. intros Hnd Hin. unfold sched_ok. cbn [log_answer hg_ars hg_aws hg_ans hg_wans]. destruct (sr_isRead s0) eqn:E0.
  - intros (a & H1 & H2 & H3 & H4 & H5 & H6). exists a. split_and!; try done. destruct (pk_isRead pkt) eqn:Er; [|done]. rewrite lookup_insert_ne; [done|].
    intros Ek. unfold under_way in Hnd. apply NoDup_app in Hnd as (_ & _ & Hnd). apply NoDup_app in Hnd as (_ & Hnd & _). apply (Hnd (pk_hbm pkt)).
    + unfold pk_nums. rewrite Eo, filter_app, fmap_app, filter_cons, decide_True by done. rewrite elem_of_app. right. left.
    + rewrite Ek. unfold sr_nums. apply list_elem_of_fmap_2. apply list_elem_of_filter. done.
  - intros (a & H1 & H2 & H3). exists a. split_and!; try done. destruct (pk_isRead pkt); [done|]. apply elem_of_union. by right.
Qed.
Lemma answer_port : NoDup (under_way true p g) -> port_inv p g -> sched_ok g' s -> port_inv p' g'.
Proof using Eo.
  clear Hs. intros Hnd [H1 H2 H3 H4] Hok. split; [exact H1|exact H2| |].
  - rewrite Eo in H3. cbn. apply Forall_app in H3 as [H3 [_ H5]%Forall_cons]. by apply Forall_app.
  - cbn. apply Forall_app. split; [|by constructor]. apply Forall_forall. intros s0 Hin. apply answer_sched; [done|done|]. by eapply Forall_forall in H4.
Qed.
End Answer.

Lemma answer_inv c now t g l1 pkt l2 data p cr cb : tile_inv t cr cb g -> hg_out g = l1 ++ pkt :: l2 ->
  (pk_isRead pkt = true -> nz (length data) = pk_bytes pkt) -> recvTimingResp c now pkt data (ht_p t) = Ok p ->
  tile_inv (set_port p t) cr cb (log_answer pkt data (l1 ++ l2) g).
Proof.
  intros (Hg & Hp & Hd & (sr & part & [Ro Rc Rn Rl] & Ri) & (sw & act & [Wo Wc Wn Wl] & Wi)) Eo Hlen E.
  unfold recvTimingResp in E. apply guard_Ok in E as [_ [= <-]]. set (s := mk_ScheduledMemResp _ _ _ _ _ _ _).
  assert (sr_isRead s = pk_isRead pkt /\ sr_hbmId s = pk_hbm pkt) as Hs by done.
  change (mk_portSide _ _ _ _ _) with (set_scheduled (scheduledResponses (ht_p t) ++ [s]) (ht_p t)). set (g' := log_answer _ _ _ _).
  assert (sched_ok g' s) as Hok.
  { pose proof (pi_out _ _ Hp) as Ho. rewrite Eo in Ho. apply Forall_app in Ho as [_ [[ev Hev] _]%Forall_cons]. unfold sched_ok. cbn [s sr_isRead sr_hbmId sr_axiId sr_size sr_len sr_data].
    unfold pkt_for in Hev. destruct ev as [[] k]; cbn [fst snd] in Hev.
    - destruct Hev as (a & Ha & ->). cbn [pk_isRead pk_hbm pk_axi pk_size pk_len pk_bytes] in *. rewrite Z.shiftl_1_l. fold (total a). specialize (Hlen eq_refl).
      exists a. cbn [g' log_answer hg_ars hg_ans pk_isRead pk_hbm]. rewrite lookup_insert_eq, take_ge by lia. done.
    - destruct Hev as (a & bs & Ha & _ & _ & ->). cbn. exists a. split_and!; try done. set_solver. }
  unfold tile_inv. cbn [ht_r ht_w ht_p set_port]. split_and!.
  - destruct Hg. by split.
  - apply answer_port; try done. apply (oi_nodup _ _ _ _ _ _ _ _ Ro).
  - destruct Hd. by split.
  - exists sr, part. split; [split|done]; [|done|done|].
    + eapply ord_perm; [symmetry; by apply answer_under_way|]. eapply ord_answer; [intros k l; by apply answer_rwant|exact Ro].
    + cbn [g' log_answer hg_r]. rewrite Rl. apply handed_same. intros k Hk. destruct (oi_served _ _ _ _ _ _ _ _ Ro k Hk) as [[l Hl] _]. rewrite Hl. symmetry.
      eapply answer_rwant; [done| |done]. intros Hi. by destruct (oi_infl _ _ _ _ _ _ _ _ Ro k Hi).
  - exists sw, act. split; [split|done]; [|done|done|].
    + eapply ord_perm; [apply Permutation_app_head; symmetry; by apply answer_under_way|]. eapply ord_answer; [intros k l _; apply answer_wwant|exact Wo].
    + cbn [g' log_answer hg_b]. rewrite Wl. apply handed_same. intros k Hk. destruct (oi_served _ _ _ _ _ _ _ _ Wo k Hk) as [[l Hl] _]. rewrite Hl. symmetry. by apply answer_wwant.
Qed.

Lemma init_inv : tile_inv hbmTile_init aximmRWData_default (mk_aximmWResp 0 OKAY 0 false) hlog_init.
Proof.
  split_and!.
  - by split.
  - split; try done. by exists [], [].
  - split; try done. intros k. cbn. rewrite lookup_empty. case_decide; [|done]. unfold number. by destruct (0 <=? k).
  - exists [], []. split; [split; try done; apply ord_init|]. intros _ i k. done.
  - exists [], None. split; [split; try done; apply ord_init|]. intros _ i k. done.
Qed.

Lemma hbm_reach_inv c t g : tile_reach c t g -> tile_inv t (mss_r (ht_current t)) (mss_b (ht_current t)) g.
Proof.
  induction 1 as [|t g e others now send m sh t1 sh1 sent cd x t2 _ IH Hm Hup Htick|t g now l1 pkt l2 data p _ IH Eo Hlen E|t g _ IH].
  - exact init_inv.
  - destruct (update_inv _ _ _ _ _ _ _ _ _ _ _ _ IH Hup) as (H1 & C1 & M1 & _). rewrite <- M1 in Hm.
    destruct (tick_inv _ _ _ _ _ _ _ H1 Hm Htick) as (H2 & _). rewrite C1, M1 in H2. by rewrite log_cycle_parts.
  - by eapply answer_inv.
  - destruct IH as (Hg & Hp & Hd & Hr & Hw). unfold tile_inv. split_and!; try done; [by destruct Hp; split|..].
    + destruct Hr as (? & ? & [] & ?). by do 2 eexists.
    + destruct Hw as (? & ? & [] & ?). by do 2 eexists.
Qed.

(** The answers to the requests with ID [id], among [served]. *)
Definition of_id (reqs : list aximmRWAddr) (id : Z) (served : list Z) : list Z := filter (fun k => (ra_id <$> number reqs k) = Some id) served.

(** C17: read data.  In every run the R beats that the master took are whole bursts one after the
    other, the last one perhaps under way: the bytes the memory answered to a read, beat by beat,
    with its ID and with RLAST on the last beat.  Bursts of one ID come in the order of their
    requests, and no request is answered before the memory did.  When nothing is under way and
    no beat is driven, every read has been answered. *)
Theorem hbm_tile_reads c t g : tile_reach c t g -> exists served part,
  hg_r g = concat ((fun k => default [] (rwant g k)) <$> served) ++ part /\
  (forall k, k ∈ served -> is_Some (rwant g k)) /\
  (forall id, of_id (hg_ars g) id served `prefix_of` nums (hg_ars g) id) /\
  (part = [] \/ exists k a l, number (hg_ars g) k = Some a /\ rwant g k = Some (part ++ l) /\ l <> [] /\
     of_id (hg_ars g) (ra_id a) served ++ [k] `prefix_of` nums (hg_ars g) (ra_id a)) /\
  (under_way true (ht_p t) g = [] -> rd_valid (mss_r (ht_current t)) = false -> part = [] /\ forall id, of_id (hg_ars g) id served = nums (hg_ars g) id).
Proof.
  intros Hr. destruct (hbm_reach_inv _ _ _ Hr) as (_ & _ & _ & (served & part & [Ho Hc _ Hl] & Hi) & _). exists served, part.
  split_and!; [exact Hl|intros k Hk; by destruct (oi_served _ _ _ _ _ _ _ _ Ho k Hk)|intros id; by eapply ord_order|..].
  - pose proof (oi_act _ _ _ _ _ _ _ _ Ho) as Ha. destruct (act_of (ht_r t)) as [[id k]|] eqn:Ea; [right|by left]. destruct Ha as [[l Hk] Hq].
    destruct (oi_have _ _ _ _ _ _ _ _ Ho _ _ _ Hk) as (_ & Hne & a & Hn & <- & Hw). rewrite decide_True in Hw by done. exists k, a, l. split_and!; try done.
    pose proof (oi_queue _ _ _ _ _ _ _ _ Ho (ra_id a)) as <-. destruct (queue_at _ _) as [|k' q]; [done|]. injection Hq as ->. apply prefix_app. by exists q.
  - intros Hu Hv. rewrite Hu in Ho. unfold rshowing, showing, ridle in *. destruct (act_of (ht_r t)) as [[id k]|]; [destruct Hc; congruence|].
    split; [exact (oi_act _ _ _ _ _ _ _ _ Ho)|]. intros id. eapply ord_rest; [exact Ho|]. by apply Hi.
Qed.

(** C18: write responses.  In every run the B responses that the master took answer writes that
    the memory has answered, each once, with their ID; those of one ID come in the order of
    their addresses; and when nothing is under way and no response is driven, every write whose
    data is complete has been answered. *)
Theorem hbm_tile_writes c t g : tile_reach c t g -> exists served,
  hg_b g = concat ((fun k => default [] (wwant g k)) <$> served) /\ (forall k, k ∈ served -> is_Some (wwant g k)) /\
  (forall id, of_id (hg_aws g) id served `prefix_of` nums (hg_aws g) id) /\
  (pendingWriteDataIds (ht_w t) = [] -> under_way false (ht_p t) g = [] -> wr_valid (mss_b (ht_current t)) = false ->
   length (bursts (hg_ws g)).1 = length (hg_aws g) /\ forall id, of_id (hg_aws g) id served = nums (hg_aws g) id).
Proof.
  intros Hr. destruct (hbm_reach_inv _ _ _ Hr) as (_ & _ & [D1 D2 _ _] & _ & (served & act & [Ho Hc _ Hl] & Hi)). exists served. unfold handed in Hl. rewrite app_nil_r in Hl.
  split_and!; [exact Hl|intros k Hk; by destruct (oi_served _ _ _ _ _ _ _ _ Ho k Hk)|intros id; by eapply ord_order|..].
  intros E Hu Hv. rewrite E, Hu in Ho. unfold wshowing, showing, widle in *. destruct act as [[id k]|]; [destruct Hc; congruence|]. split.
  - rewrite E in D2. apply (f_equal length) in D2. rewrite length_fmap, length_seq in D2. cbn in D2. lia.
  - intros id. eapply ord_rest; [exact Ho|]. by apply Hi.
Qed.

Record bound_inv (c : hbmTileCfg) (t : hbmTile) : Prop := {
  bi_ready : mss_arReady (ht_current t) || mss_awReady (ht_current t) = true -> queued t <= portQueueDepth c + 1;
  bi_queued : queued t <= portQueueDepth c + 3;
  bi_rready : mss_arReady (ht_current t) = true -> outstandingReadCmds (ht_r t) <= maxOutstandingReads c;
  bi_reads : outstandingReadCmds (ht_r t) <= maxOutstandingReads c + 1;
  bi_wready : mss_awReady (ht_current t) = true -> outstandingWriteCmds (ht_w t) <= maxOutstandingWrites c;
  bi_writes : outstandingWriteCmds (ht_w t) <= maxOutstandingWrites c + 1
}.
Lemma reach_bounds c t g : 0 <= portQueueDepth c -> 0 <= maxOutstandingReads c -> 0 <= maxOutstandingWrites c -> tile_reach c t g -> bound_inv c t.
Proof.
  intros Hd Hr Hw. induction 1 as [|t g e others now send m sh t1 sh1 sent cd x t2 Hreach IH Hm Hup Htick|t g now l1 pkt l2 data p Hreach IH Eo Hlen E|t g Hreach IH].
  - assert (queued hbmTile_init = 0) as Hq by reflexivity. split; rewrite ?Hq; cbn; done || lia.
  - destruct (update_inv _ _ _ _ _ _ _ _ _ _ _ _ (hbm_reach_inv _ _ _ Hreach) Hup) as (H1 & C1 & M1 & N1 & Q1 & R1 & W1). rewrite <- M1 in Hm.
    destruct (tick_inv _ _ _ _ _ _ _ H1 Hm Htick) as (_ & C2 & Q2 & R2 & W2). rewrite C1, M1 in *. destruct IH as [B1 B2 B3 B4 B5 B6].
    assert (forall x y : bool, 0 <= b2z (x && y) <= 1 /\ (x = false -> b2z (x && y) = 0)) as Hb by (intros [] []; cbn; split; done || lia).
    destruct (Hb (mss_arReady (ht_current t)) (ra_valid (mms_ar m))) as [A1 A2], (Hb (mss_awReady (ht_current t)) (ra_valid (mms_aw m))) as [A3 A4].
    assert (mss_arReady (ht_next t1) = true -> queued t1 < portQueueDepth c /\ outstandingReadCmds (ht_r t1) < maxOutstandingReads c) as K1.
    { rewrite N1. cbn. intros [?%Z.ltb_lt ?%Z.ltb_lt]%andb_true_iff. done. }
    assert (mss_awReady (ht_next t1) = true -> queued t1 < portQueueDepth c /\ outstandingWriteCmds (ht_w t1) < maxOutstandingWrites c) as K2.
    { rewrite N1. cbn. intros [?%Z.ltb_lt ?%Z.ltb_lt]%andb_true_iff. done. }
    split; rewrite ?C2; destruct (mss_arReady (ht_current t)) eqn:Er, (mss_awReady (ht_current t)) eqn:Ew; cbn in B1;
      try specialize (B1 eq_refl); try specialize (B3 eq_refl); try specialize (B5 eq_refl); try specialize (A2 eq_refl); try specialize (A4 eq_refl);
      try (intros [?%K1|?%K2]%orb_true_iff); try (intros ?%K1); try (intros ?%K2); lia.
  - unfold recvTimingResp in E. apply guard_Ok in E as [_ [= <-]]. destruct IH. by split.
  - destruct IH. by split.
Qed.

(** C19: requests.  In every run the packets that the memory took are the commands in the order
    in which they were complete, a read when its address was accepted and a write when its last
    W beat was, each exactly once whatever the memory refused in between; the packet of the
    [j]-th write has the address of the [j]-th AW and the bytes of the [j]-th W burst.  At most
    three commands more than [portQueueDepth] wait, and at most one read and one write more
    than allowed are outstanding. *)
Theorem hbm_tile_requests c t g : 0 <= portQueueDepth c -> 0 <= maxOutstandingReads c -> 0 <= maxOutstandingWrites c -> tile_reach c t g ->
  (exists sent waiting, hg_cmds g = sent ++ waiting /\ Forall2 (pkt_for g) sent (hg_sent g) /\ length waiting = length (pendingCmds (ht_p t))) /\
  nz (length (pendingCmds (ht_p t))) + nz (size (ws_requests (ht_w t))) <= portQueueDepth c + 3 /\
  outstandingReadCmds (ht_r t) <= maxOutstandingReads c + 1 /\ outstandingWriteCmds (ht_w t) <= maxOutstandingWrites c + 1.
Proof.
  intros Hd Hr Hw Hreach. destruct (hbm_reach_inv _ _ _ Hreach) as (_ & [(evs0 & evs1 & E & H0 & H1) _ _ _] & _). apply Forall2_length in H1.
  destruct (reach_bounds c t g Hd Hr Hw Hreach). split_and!; try done. by exists evs0, evs1.
Qed.
