(* ===== verification/HbmExample.v ===== *)
(** * Examples for the HBM endpoint

    Two reads with different IDs and a write of two beats; the memory refuses a packet once and
    answers the second read first.  Then a W beat that comes too early, and strobes. *)

From S2P Require Import Prelude AxiTypes Checkpoint AxiCheckpoint CdcQueue AxisHandler NocNodes Bram HbmArbiter HbmTile HbmOrder HbmTileRun.

Definition ex_hcfg : hbmTileCfg :=
  mk_hbmTileCfg 0 0 0 4096 1 1 1 4 2 2 4 (mk_schedKnobs 4 0 1 1 1 false) (mk_hbmCfg 0 0 0 (10 ^ 12)) [500].
Definition ex_shared : hbmShared := match hbmTile_new ex_hcfg 0 (mk_hbmShared ∅ ∅) with Ok (_, sh) => sh | Err _ => mk_hbmShared ∅ ∅ end.

Inductive ex_act := Cyc (now : Z) (send : bool) (m : aximmMasterState) | Ans (now : Z) (i : nat) (data : list Z) | Retry.
Definition hreq_okb (a : aximmRWAddr) : bool :=
  (0 <=? ra_id a) && (ra_id a <? 2 ^ 31) && (0 <=? ra_len a) && (ra_len a <=? 255) && (0 <=? ra_size a) && (ra_size a <=? 6).
Definition ex_hstep (x : hbmTile * hlog * hbmShared) (a : ex_act) : option (hbmTile * hlog * hbmShared) :=
  let '(t, g, sh) := x in
  match a with
  | Cyc now send m =>
      if (negb (ra_valid (mms_ar m)) || hreq_okb (mms_ar m)) && (negb (ra_valid (mms_aw m)) || hreq_okb (mms_aw m)) then
        match tile_updateTileNSU ex_hcfg 0 (fun _ => false) now send m sh t with
        | Ok (t1, sh1, sent) => match hbm_tick ex_hcfg now 500 t1 with Ok (_, t2) => Some (t2, log_cycle m t sent g, sh1) | Err _ => None end
        | Err _ => None
        end
      else None
  | Ans now i data =>
      match hg_out g !! i with
      | Some pkt => if negb (pk_isRead pkt) || (nz (length data) =? pk_bytes pkt) then
                      match recvTimingResp ex_hcfg now pkt data (ht_p t) with
                      | Ok p => Some (set_port p t, log_answer pkt data (take i (hg_out g) ++ drop (S i) (hg_out g)) g, sh)
                      | Err _ => None
                      end
                    else None
      | None => None
      end
  | Retry => Some (set_port (recvReqRetry (ht_p t)) t, g, sh)
  end.
Fixpoint ex_hrun (x : hbmTile * hlog * hbmShared) (l : list ex_act) : option (hbmTile * hlog * hbmShared) :=
  match l with [] => Some x | a :: l => match ex_hstep x a with Some y => ex_hrun y l | None => None end end.

Lemma hreq_okb_ok a : negb (ra_valid a) || hreq_okb a = true -> ra_valid a = true -> hreq_ok a.
Proof. intros H Hv. rewrite Hv in H. cbn in H. unfold hreq_okb in H. rewrite !andb_true_iff in H. split; lia. Qed.
Lemma ex_hstep_reach x a y : tile_reach ex_hcfg x.1.1 x.1.2 -> ex_hstep x a = Some y -> tile_reach ex_hcfg y.1.1 y.1.2.
Proof.
  destruct x as [[t g] sh]. cbn. intros H. destruct a as [now send m|now i data|].
  - destruct (_ && _) eqn:Eok; [|done]. apply andb_true_iff in Eok as [Ea Eb].
    destruct (tile_updateTileNSU _ _ _ _ _ _ _ _) as [[[t1 sh1] sent]|] eqn:Eu; [|done]. destruct (hbm_tick _ _ _ _) as [[b t2]|] eqn:Et; [|done]. intros [= <-]. cbn.
    eapply tr_cycle; [done| |done|done]. split; by apply hreq_okb_ok.
  - destruct (hg_out g !! i) as [pkt|] eqn:Ei; [|done]. destruct (_ || _) eqn:El; [|done]. destruct (recvTimingResp _ _ _ _ _) as [p|] eqn:Er; [|done]. intros [= <-]. cbn.
    eapply tr_answer; [done|by symmetry; apply take_drop_middle| |done]. intros Hr. rewrite Hr in El. cbn in El. by apply Z.eqb_eq.
  - intros [= <-]. by apply tr_retry.
Qed.
Lemma ex_hrun_reach l x y : tile_reach ex_hcfg x.1.1 x.1.2 -> ex_hrun x l = Some y -> tile_reach ex_hcfg y.1.1 y.1.2.
Proof.
  revert x. induction l as [|a l IH]; cbn; intros x Hx; [by intros [= <-]|]. destruct (ex_hstep x a) as [z|] eqn:E; [|done]. intros Hz.
  eapply IH; [|exact Hz]. by eapply ex_hstep_reach.
Qed.

Definition ex_haddr (id addr len : Z) (v : bool) : aximmRWAddr := mk_aximmRWAddr READ id addr len 2 INCR false 0 0 0 0 0 v (-1) 0 (-1) false.
Definition ex_hbeat (bytes : list Z) (strb : Z) (last v : bool) : aximmRWData :=
  mk_aximmRWData WRITE 0 OKAY last 0 v false (bytes ++ zeros 60) strb.
Definition no_addr := ex_haddr 0 0 0 false.
Definition no_beat := ex_hbeat (zeros 4) 15 false false.
Definition ex_hm (ar aw : aximmRWAddr) (w : aximmRWData) : aximmMasterState := mk_aximmMasterState ar true aw w true false.
Definition quiet := ex_hm no_addr no_addr no_beat.

Definition ex_hacts : list ex_act :=
  [ Cyc 2000 true quiet;
    Cyc 4000 true (ex_hm (ex_haddr 1 64 1 true) (ex_haddr 3 128 1 true) no_beat);
    Cyc 6000 true (ex_hm (ex_haddr 2 256 0 true) no_addr no_beat);
    Cyc 8000 false (ex_hm no_addr no_addr (ex_hbeat [1; 2; 3; 4] 15 false true)); Retry;
    Cyc 10000 true (ex_hm no_addr no_addr (ex_hbeat [5; 6; 7; 8] 15 true true));
    Cyc 12000 true quiet; Cyc 14000 true quiet; Cyc 16000 true quiet; Cyc 18000 true quiet; Cyc 20000 true quiet; Cyc 22000 true quiet;
    Ans 22500 1 [20; 21; 22; 23]; Cyc 24000 true quiet; Cyc 26000 true quiet; Cyc 28000 true quiet;
    Ans 28500 0 [10; 11; 12; 13; 14; 15; 16; 17]; Ans 28500 0 []; Cyc 30000 true quiet; Cyc 32000 true quiet; Cyc 34000 true quiet; Cyc 36000 true quiet ].
Definition ex_hend : option (hbmTile * hlog * hbmShared) := ex_hrun (hbmTile_init, hlog_init, ex_shared) ex_hacts.
Definition ex_ht : hbmTile := match ex_hend with Some (t, _, _) => t | None => hbmTile_init end.
Definition ex_hg : hlog := match ex_hend with Some (_, g, _) => g | None => hlog_init end.
Lemma ex_h_reach : tile_reach ex_hcfg ex_ht ex_hg.
Proof.
  unfold ex_ht, ex_hg. destruct ex_hend as [[[t g] sh]|] eqn:E; [|apply tr_init].
  apply (ex_hrun_reach ex_hacts (hbmTile_init, hlog_init, ex_shared) (t, g, sh)); [apply tr_init|exact E].
Qed.

(** The second read is answered first, and all are answered. *)
Lemma hbm_tile_reads_witness :
  (rd_id <$> hg_r ex_hg) = [2; 1; 1] /\ exists served part,
  hg_r ex_hg = concat ((fun k => default [] (rwant ex_hg k)) <$> served) ++ part /\
  (forall k, k ∈ served -> is_Some (rwant ex_hg k)) /\
  (forall id, of_id (hg_ars ex_hg) id served `prefix_of` nums (hg_ars ex_hg) id) /\
  (part = [] \/ exists k a l, number (hg_ars ex_hg) k = Some a /\ rwant ex_hg k = Some (part ++ l) /\ l <> [] /\
     of_id (hg_ars ex_hg) (ra_id a) served ++ [k] `prefix_of` nums (hg_ars ex_hg) (ra_id a)) /\
  (under_way true (ht_p ex_ht) ex_hg = [] -> rd_valid (mss_r (ht_current ex_ht)) = false ->
   part = [] /\ forall id, of_id (hg_ars ex_hg) id served = nums (hg_ars ex_hg) id).
Proof. split; [vm_compute; reflexivity|]. apply (hbm_tile_reads ex_hcfg), ex_h_reach. Defined.

Lemma hbm_tile_writes_witness :
  length (hg_b ex_hg) = 1%nat /\ exists served,
  hg_b ex_hg = concat ((fun k => default [] (wwant ex_hg k)) <$> served) /\ (forall k, k ∈ served -> is_Some (wwant ex_hg k)) /\
  (forall id, of_id (hg_aws ex_hg) id served `prefix_of` nums (hg_aws ex_hg) id) /\
  (pendingWriteDataIds (ht_w ex_ht) = [] -> under_way false (ht_p ex_ht) ex_hg = [] -> wr_valid (mss_b (ht_current ex_ht)) = false ->
   length (bursts (hg_ws ex_hg)).1 = length (hg_aws ex_hg) /\ forall id, of_id (hg_aws ex_hg) id served = nums (hg_aws ex_hg) id).
Proof. split; [vm_compute; reflexivity|]. apply (hbm_tile_writes ex_hcfg), ex_h_reach. Defined.

Lemma hbm_tile_requests_witness :
  length (hg_sent ex_hg) = 3%nat /\
  (exists sent waiting, hg_cmds ex_hg = sent ++ waiting /\ Forall2 (pkt_for ex_hg) sent (hg_sent ex_hg) /\ length waiting = length (pendingCmds (ht_p ex_ht))) /\
  nz (length (pendingCmds (ht_p ex_ht))) + nz (size (ws_requests (ht_w ex_ht))) <= portQueueDepth ex_hcfg + 3 /\
  outstandingReadCmds (ht_r ex_ht) <= maxOutstandingReads ex_hcfg + 1 /\ outstandingWriteCmds (ht_w ex_ht) <= maxOutstandingWrites ex_hcfg + 1.
Proof. split; [vm_compute; reflexivity|]. apply (hbm_tile_requests ex_hcfg); [done..|apply ex_h_reach]. Defined.

(** The packet that was refused is kept for a second try. *)
Example refused_packet_kept :
  match ex_hrun (hbmTile_init, hlog_init, ex_shared) (take 4 ex_hacts) with
  | Some (t, g, _) => (needToRetry (ht_p t), hg_sent g, length (pendingCmds (ht_p t)))
  | None => (false, [], 0%nat)
  end = (true, [], 2%nat).
Proof. vm_compute. reflexivity. Qed.

(** WREADY is computed before the last W beat of a burst is taken, so it is still driven in the
    next cycle.  A W beat that comes then, before its address, reads the front of an empty queue. *)
Definition ex_late : list ex_act :=
  [ Cyc 2000 true quiet; Cyc 4000 true (ex_hm no_addr (ex_haddr 3 128 0 true) no_beat); Cyc 6000 true quiet;
    Cyc 8000 true (ex_hm no_addr no_addr (ex_hbeat [1; 2; 3; 4] 15 true true)) ].
Example w_beat_without_address :
  match ex_hrun (hbmTile_init, hlog_init, ex_shared) ex_late with
  | Some (t, _, sh) =>
      match tile_updateTileNSU ex_hcfg 0 (fun _ => false) 10000 true (ex_hm no_addr no_addr (ex_hbeat [5; 6; 7; 8] 15 true true)) sh t with
      | Ok (t1, _, _) => match hbm_tick ex_hcfg 10000 500 t1 with Err (FUndef s) => Some (mss_wReady (ht_current t), s) | _ => None end
      | Err _ => None
      end
  | None => None
  end = Some (true, "front of an empty queue"%string).
Proof. vm_compute. reflexivity. Qed.

(** A write with no strobe set stores its bytes all the same. *)
Example strobes_not_sent :
  match ex_hrun (hbmTile_init, hlog_init, ex_shared)
    ([ Cyc 2000 true quiet; Cyc 4000 true (ex_hm no_addr (ex_haddr 3 128 0 true) no_beat); Cyc 6000 true quiet;
       Cyc 8000 true (ex_hm no_addr no_addr (ex_hbeat [1; 2; 3; 4] 0 true true)) ] ++ [ Cyc 10000 true quiet; Cyc 12000 true quiet; Cyc 14000 true quiet ]) with
  | Some (_, g, _) => pk_data <$> hg_sent g
  | None => []
  end = [[1; 2; 3; 4]].
Proof. vm_compute. reflexivity. Qed.

(** The limit on reads is compared before the request of the same cycle is counted, with a ready
    signal from the cycle before: three reads are outstanding where two are allowed. *)
Example outstanding_reads_exceed_limit :
  match ex_hrun (hbmTile_init, hlog_init, ex_shared)
    (Cyc 2000 false quiet :: ((fun t => Cyc t false (ex_hm (ex_haddr 1 64 0 true) no_addr no_beat)) <$> [4000; 6000; 8000; 10000])) with
  | Some (t, _, _) => (outstandingReadCmds (ht_r t), maxOutstandingReads ex_hcfg)
  | None => (0, 0)
  end = (3, 2).
Proof. vm_compute. reflexivity. Qed.
